(* ===== verification/_CoqProject ===== *)
-Q . S2P
Prelude.v
Scheduler.v
ListScheduler.v
HeapScheduler.v
MapScheduler.v
PriorityQueueScheduler.v
SchedulerEquiv.v
Simulator.v
SimulatorSpec.v
Queue.v
QueueSpec.v
Bytes.v
Buffer.v
BufferSpec.v
BufferOps.v
BufferRefine.v
PacketTagList.v
PacketTagHeap.v
PacketTagListSpec.v
Packet.v
PointToPoint.v
PointToPointSpec.v
Ipv4Address.v
Ipv4Header.v
Ipv4Interface.v
Ipv4Ifaces.v
Routing.v
StaticRouting.v
GlobalRouting.v
GlobalRouter.v
RouteManager.v
ShortestPaths.v
SpfRefine.v
SpfTree.v
SpfCalculate.v
PopulateRoutes.v
GlobalPaths.v
RlRouting.v
ListRouting.v
RlRoutingSpec.v
Fragment.v
FragmentSpec.v
ReassemblyTimers.v
Dpd.v
Ipv4L3Protocol.v
L3Spec.v
L3Path.v
AddressGenerator.v
AddressHelper.v
Node.v
Topology.v
TopologySpec.v
InternetStack.v
InternetStackSpec.v
BuildSpec.v
SpineLeaf.v
LoadBalancer.v
LoadBalancerSpec.v
Scenario.v
UdpHeader.v
EndPoint.v
EndPointSpec.v
UdpSocket.v
UdpSocketSpec.v
UdpPath.v
FloatingPoint.v
RngStream.v
RngStreamSpec.v
Int64x64.v
Int64x64Spec.v
NsTime.v
NsTimeSpec.v
Timers.v
TimersRefine.v
OnOffApplication.v
OnOffSpec.v
FlowClassifier.v
FlowMonitor.v
FlowProbe.v
FlowMonitorSpec.v
