(* ===== verification/Prelude.v ===== *)
(** * A verification library for the spine/leaf ns-3 tree

    The repository is ns-3, a discrete-event network simulator, with a custom
    load-balancing routing protocol ([src/internet/model/aarl-ipv4-routing.*])
    and a scenario ([scratch/loadbalancer/]) that builds a spine/leaf data
    centre and lets a reinforcement-learning agent set the weights of the
    protocol.  The library models the path a packet takes in that scenario,
    from the event list up to the application, and the scenario itself.

    ** The parts and how they interact

    - The simulator ([src/core/model/]) keeps pending events in a scheduler and
      runs them in time order.  [Scheduler] is the interface (class
      [EventList], with its laws); [ListScheduler], [HeapScheduler],
      [MapScheduler] and [PriorityQueueScheduler] are the four implementations
      modelled, and [SchedulerEquiv] proves that they answer alike.
      [Simulator] is [default-simulator-impl.cc] over any scheduler;
      [SimulatorSpec] has its invariant and its concrete runs.  [Timers] is what an
      application relies on of the simulator (schedule, cancel, is running),
      and [TimersRefine] proves that the simulator provides it.
    - Times ([int64x64-128.*], [nstime.h], [time.cc]): [FloatingPoint] is
      IEEE rounding, [Int64x64] the Q64.64 numbers, [NsTime] the [Time] class
      with its conversion table; [Int64x64Spec] and [NsTimeSpec] hold their
      theorems, down to the transmission time of
      [DataRate::CalculateBytesTxTime].
    - Random numbers ([rng-stream.cc], [rng-seed-manager.cc],
      [random-variable-stream.cc]): [RngStream] is the generator MRG32k3a, computed
      in [double]s, its streams, and the uniform variable; [RngStreamSpec] proves
      its arithmetic exact.
    - Packets ([src/network/model/]): [Bytes] is the octet arithmetic of
      [Buffer::Iterator] and the Internet checksum; [Buffer] is [buffer.cc],
      the copy-on-write storage of packets: counted storages, a free list,
      windows with a virtual zero area, iterators.  [BufferSpec] has its
      invariant, [BufferOps] what each operation does to the octets, and [BufferRefine] the refinement: buffers that share storages
      are independent lists of octets.  On the strength of it [Packet] keeps
      the octets of a packet as a list; it also has the PPP header.  [PacketTagList] is the
      copy-on-write list of a packet's tags, on a heap of counted nodes;
      [PacketTagHeap] has its invariant and [PacketTagListSpec] the refinement: lists that
      share nodes are independent association lists.  [Node] is
      the devices, applications and protocol handlers of a node, the node list
      and containers.
    - Queues and links ([src/network/utils/queue.*], [src/point-to-point/]):
      [Queue] with [QueueSpec]; [PointToPoint] has the devices and channels
      as one event-driven world, [PointToPointSpec] its invariant and the
      delivery and draining theorems.
    - IPv4 ([src/internet/model/], [src/network/utils/ipv4-address.*]):
      [Ipv4Address], [Ipv4Header], [Ipv4Interface] and [Ipv4Ifaces] (the
      interfaces of a node), the class [RoutingProtocol] in [Routing] with its
      instances [StaticRouting], [GlobalRouting], [RlRouting] (the
      load-balancing protocol and the list a leaf switch runs) and
      [ListRouting], with their theorems there and in [RlRoutingSpec];
      [Fragment], [FragmentSpec] and [ReassemblyTimers] (fragmentation,
      reassembly and its timeout), [Dpd] (duplicate detection) and
      [Ipv4L3Protocol], the stack, which is generic in the routing protocol
      and the transport protocols.  [L3Spec] and [L3Path] follow a datagram through
      one node and through a path of routers.
    - Global route computation ([global-router-interface.cc],
      [global-route-manager-impl.cc], [candidate-queue.cc],
      [ipv4-global-routing-helper.cc]): [GlobalRouter] is what a router
      advertises and how it discovers its links, [RouteManager] the link state
      database and Dijkstra's algorithm on a heap of vertices.
      [ShortestPaths] is the same algorithm on values, with its correctness;
      [SpfRefine], [SpfTree] and [SpfCalculate] prove, step by step, that the
      heap computes what the values do; [PopulateRoutes] applies it to every
      router of a network of point-to-point links, and [GlobalPaths] follows
      packets over the routes, through [GlobalRouting].
    - UDP ([udp-*.cc], [ipv4-end-point*.cc]): [UdpHeader], [EndPoint] with
      [EndPointSpec], [UdpSocket] (sockets, receiving and sending),
      [UdpSocketSpec] and [UdpPath] (end to end).
    - Applications: [OnOffApplication] with [OnOffSpec], over the class of
      sockets [AppSocket] and the clock of [Timers].
    - Flow monitoring ([src/flow-monitor/], [histogram.cc]): [FlowClassifier]
      numbers flows and packets, [FlowMonitor] keeps their statistics over the
      bins of histograms, [FlowProbe] listens to the stacks and has the table
      that the scenario prints; [FlowMonitorSpec] has the invariant.
    - The scenario: [Topology] ([point-to-point-helper.cc] and the links of
      [topology-builder.h]), [AddressGenerator] and [AddressHelper],
      [InternetStack] (the IPv4 half of the helpers, and [BuildTopology]),
      [LoadBalancer] ([spine-leaf.cc], [mygym.cc]) and [Scenario]
      ([main-loadbalancer.cc]); [TopologySpec], [InternetStackSpec],
      [BuildSpec] and [LoadBalancerSpec] have their theorems.  [BuildSpec] ends
      with the finished network as a whole, and [SpineLeaf] gives it to the
      route computation: it is where the topology, the addresses, the routers and the
      routes meet.  [Scenario] starts from those routes.

    ** How the code is translated

    Each component has a record of its state, named after the C++ class with
    the fields' names; an operation is a function of the state.  [st] is
    the state-and-error monad most of them use, over the outcomes [res] of this
    file: an operation returns, or stops the program through an assertion
    ([NS_ASSERT]), a fatal error ([NS_FATAL_ERROR], [NS_ABORT]) or undefined
    behaviour of C++ (an index out of range, a null pointer, signed overflow).
    Machine integers are [Z] with explicit wrap-around ([u8], [u16], [u32],
    [u64], [i32_check], ...).  Pointers to shared objects are keys of a map
    in the state (sockets, end points, devices), so that aliasing is kept.
    A callback to another component is a class method, or is recorded in a
    trace field when the callee is not modelled (ARP, ICMP, traffic control,
    trace sinks).  What the repository only calls (hash functions, the logarithm of the
    exponential distribution) is a parameter, and so are the values drawn, where
    a component draws, and the floating-point weights of the agent.

    ** What the theorems show

    Simulator: events run in (time, uid) order, none lost; the schedulers
    refine one priority queue; [Run] terminates when the clients schedule
    finitely often.  Times: conversions exact both ways, products and
    quotients rounded as specified, transmission times exact.  Random numbers:
    the streams are those of the integer recurrences, and the jumps skip as many
    numbers as they should.  Queues and
    links: FIFO refinement, in-order delivery, draining.  Buffers: refinement
    to separate strings up to the two kinds of concatenation that the code gets
    wrong, exact counting, serialization.  Packet tags:
    refinement to association lists under any calls, when the tags of a type
    have one size; nothing leaked; serialization.  IPv4: header and address
    round trips, longest prefix match with its ties, one fate per datagram for
    each answer of the routing protocol, and where reception stops, path
    delivery, reassembly of any arrival order, timeouts,
    duplicate detection.  Global routes: the computation on the heap refines
    the one on values, leaves no vertex behind, gives the exits of all
    shortest paths and no others, packets that follow the routes arrive over a
    shortest path, and computing the routes again leaves nothing of the past.
    UDP: well-formedness under every call, the sends included, and where a
    send stops, most specific end point, ephemeral ports, end-to-end delivery.  Applications: the on/off
    state machine's invariant.  Flow monitoring: every packet is received, lost
    or still tracked.  Scenario: wiring and addressing of any topology; in
    every spine/leaf network that was built, each server reaches each other
    one over two or four links, and a leaf has one route through every spine
    to the servers of another leaf; the bounds within which the environment's
    matrices are indexed, the meaning of its counters.  The load balancer: with
    two candidates it forwards a packet twice, and the agent's weights do not
    matter.

    ** Bounds and fuel

    Loops whose length the state bounds recurse on lists.  The rest has fuel,
    with a proof that it is enough: [max_fragments] (a datagram of 65535
    octets in pieces of at least 8), [ephemeral_fuel] (the 16384 ephemeral
    ports), 65536 in [assign_all] (the networks [AddressHelper] can number),
    64 [rounds] of the 128-bit division (one per fractional bit), 32 turns in
    [MatPowModM] (one per binary digit of an [int32_t]), the length of the
    heap in [HeapScheduler], the number of advertisements in the loop of
    [SPFCalculate] (each turn takes a vertex into the tree), 3 in the loop
    over the links from a network back to the router beyond it
    ([LINK_BACK_FUEL]: it makes two rounds at most, or never ends), one more
    than the number of devices in the walk over bridges, and 4 links for a
    packet in [SpineLeaf].  [Simulator.Run] has the fuel of its caller and a
    termination theorem.

    ** Not modelled

    The global route computation is proved for networks of routers with
    point-to-point and stub links; transit networks, bridges and injected
    external routes are modelled and executable.
    Of the modelled files: printing and logging, attributes and type
    registration, destructors and reference counts (those of [Buffer] and [PacketTagList]
    apart), byte tags and metadata of packets, IPv6 halves.  Of the tree: ARP, ICMP, TCP, IPv6, traffic
    control and the wireless, LTE and energy models, which the scenario does
    not reach beyond the calls recorded; the OpenGym messages are
    generated code over a socket library; examples and tests. *)

From stdpp Require Export base list gmap sorting.
From Stdlib Require Export ZArith Lia.

Open Scope Z_scope.

(** ** Outcomes

    A C++ operation of the model either returns a value or stops the program.
    The constructors of [fault] say how it stops. *)

Inductive fault : Set :=
| AssertFailed     (* NS_ASSERT / NS_ASSERT_MSG, in a build with assertions on *)
| FatalError       (* NS_FATAL_ERROR, NS_ABORT_* *)
| UndefinedBehaviour  (* out of range access, null dereference, signed overflow *)
| OutOfFuel.       (* the model's loop bound was reached: never a real outcome *)

Inductive res (A : Type) : Type :=
| Ok (a : A)
| Err (f : fault).
Arguments Ok {A} a.
Arguments Err {A} f.

#[export] Instance fault_eq_dec : EqDecision fault.
Proof. solve_decision. Defined.
#[export] Instance res_eq_dec {A} `{EqDecision A} : EqDecision (res A).
Proof. solve_decision. Defined.

#[export] Instance res_ret : MRet res := @Ok.
#[export] Instance res_bind : MBind res := fun A B k m =>
  match m with Ok a => k a | Err f => Err f end.

(** [NS_ASSERT (b)] *)
Definition ns_assert (b : bool) : res unit :=
  if b then Ok tt else Err AssertFailed.

(** [NS_ABORT_MSG_UNLESS (b)] *)
Definition ns_require (b : bool) : res unit :=
  if b then Ok tt else Err FatalError.

(** An access that is undefined when there is nothing to access. *)
Definition deref {A} (o : option A) : res A :=
  match o with Some a => Ok a | None => Err UndefinedBehaviour end.

Lemma bind_ok {A B} (m : res A) (k : A -> res B) (b : B) :
  m ≫= k = Ok b <-> exists a, m = Ok a /\ k a = Ok b.
Proof. destruct m; split; naive_solver. Qed.

Lemma ns_assert_true b u : ns_assert b = Ok u <-> b = true.
Proof. unfold ns_assert. destruct b, u; split; congruence. Qed.

Lemma deref_ok {A} (o : option A) a : deref o = Ok a <-> o = Some a.
Proof. destruct o; simpl; split; congruence. Qed.

Create HintDb ns3.
Create Rewrite HintDb ns3.
#[export] Hint Rewrite @bind_ok ns_assert_true @deref_ok : ns3.

(** ** Machine integers

    A [w]-bit unsigned integer is a [Z] in [[0, 2^w)]; arithmetic wraps with
    [wrap w].  Signed 64-bit arithmetic that overflows is undefined. *)

Definition wrap (w x : Z) : Z := x mod 2 ^ w.
Abbreviation u8 := (wrap 8).
Abbreviation u16 := (wrap 16).
Abbreviation u32 := (wrap 32).
Abbreviation u64 := (wrap 64).

Definition in_range (w x : Z) : Prop := 0 <= x < 2 ^ w.

Definition int64_min : Z := - 2 ^ 63.
Definition int64_max : Z := 2 ^ 63 - 1.

(** The signed value of a [w]-bit pattern (two's complement conversion). *)
Definition to_signed (w x : Z) : Z :=
  let y := wrap w x in if y <? 2 ^ (w - 1) then y else y - 2 ^ w.

(** [int64_t] addition and subtraction. *)
Definition i64_check (x : Z) : res Z :=
  if (int64_min <=? x) && (x <=? int64_max) then Ok x else Err UndefinedBehaviour.

Lemma wrap_small w x : in_range w x -> wrap w x = x.
Proof. intros H. apply Z.mod_small, H. Qed.

Lemma to_signed_small w x : 0 < w -> 0 <= x < 2 ^ (w - 1) -> to_signed w x = x.
Proof.
  intros Hw Hx. unfold to_signed. rewrite (wrap_small w x).
  - by rewrite (proj2 (Z.ltb_lt _ _)) by lia.
  - unfold in_range. replace w with (w - 1 + 1) at 1 by lia. rewrite Z.pow_add_r by lia. lia.
Qed.

Lemma wrap_range w x : 0 <= w -> in_range w (wrap w x).
Proof. intros. apply Z.mod_pos_bound. lia. Qed.

Lemma wrap_wrap w x : wrap w (wrap w x) = wrap w x.
Proof. apply Zmod_mod. Qed.

Lemma wrap_add_l w x y : wrap w (wrap w x + y) = wrap w (x + y).
Proof. apply Zplus_mod_idemp_l. Qed.

Lemma wrap_add_r w x y : wrap w (x + wrap w y) = wrap w (x + y).
Proof. apply Zplus_mod_idemp_r. Qed.

Lemma wrap_sub_l w x y : wrap w (wrap w x - y) = wrap w (x - y).
Proof. apply Zminus_mod_idemp_l. Qed.

Lemma wrap_sub_r w x y : wrap w (x - wrap w y) = wrap w (x - y).
Proof. apply Zminus_mod_idemp_r. Qed.

#[export] Hint Rewrite wrap_wrap wrap_add_l wrap_add_r wrap_sub_l wrap_sub_r : ns3.

Lemma i64_check_ok x y : i64_check x = Ok y <-> y = x /\ int64_min <= x <= int64_max.
Proof.
  unfold i64_check.
  destruct ((int64_min <=? x) && (x <=? int64_max)) eqn:E.
  - apply andb_true_iff in E as [?%Z.leb_le ?%Z.leb_le]. naive_solver.
  - split; [done|]. intros [_ [?%Z.leb_le ?%Z.leb_le]].
    rewrite andb_false_iff in E. naive_solver congruence.
Qed.
#[export] Hint Rewrite i64_check_ok : ns3.

(** ** Tactics *)

(** Split a goal or hypothesis made of monadic steps. *)
Ltac inv_res H :=
  autorewrite with ns3 in H; destruct_and?; simplify_eq.

Ltac bool_to_Z :=
  repeat match goal with
  | H : (_ && _) = true |- _ => apply andb_true_iff in H as [? ?]
  | H : (_ || _) = false |- _ => apply orb_false_iff in H as [? ?]
  | H : negb _ = true |- _ => apply negb_true_iff in H
  | H : negb _ = false |- _ => apply negb_false_iff in H
  | H : (_ <? _) = true |- _ => apply Z.ltb_lt in H
  | H : (_ <? _) = false |- _ => apply Z.ltb_ge in H
  | H : (_ <=? _) = true |- _ => apply Z.leb_le in H
  | H : (_ <=? _) = false |- _ => apply Z.leb_gt in H
  | H : (_ =? _) = true |- _ => apply Z.eqb_eq in H
  | H : (_ =? _) = false |- _ => apply Z.eqb_neq in H
  end.

(** ** Computations with a state

    [st S A]: an operation of an object whose state is [S], which returns a
    value and the new state or stops with a fault.  [tell]-like traces are kept
    in the state by the components that use it. *)

Definition st (S A : Type) : Type := S -> res (A * S).
#[export] Instance st_ret S : MRet (st S) := fun A a s => Ok (a, s).
#[export] Instance st_bind S : MBind (st S) := fun A B k m s =>
  match m s with Ok (a, s') => k a s' | Err f => Err f end.

Definition lift {S A} (r : res A) : st S A := fun s => match r with Ok a => Ok (a, s) | Err f => Err f end.
Definition gets {S A} (f : S -> A) : st S A := fun s => Ok (f s, s).
Definition update {S} (f : S -> S) : st S unit := fun s => Ok (tt, f s).
Definition when {S} (b : bool) (m : st S unit) : st S unit := if b then m else mret tt.

(** Runs the operation on each element, in order. *)
Fixpoint each {S A} (f : A -> st S unit) (l : list A) : st S unit :=
  match l with
  | [] => mret tt
  | a :: l' => _ ← f a; each f l'
  end.

Lemma st_bind_ok {S A B} (m : st S A) (k : A -> st S B) s b s' :
  (m ≫= k) s = Ok (b, s') -> exists a s1, m s = Ok (a, s1) /\ k a s1 = Ok (b, s').
Proof. unfold mbind, st_bind. destruct (m s) as [[a s1]|]; [eauto|done]. Qed.

Lemma run_bind {S A B} (m : st S A) (k : A -> st S B) s a s1 : m s = Ok (a, s1) -> (m ≫= k) s = k a s1.
Proof. intros E. unfold mbind, st_bind. by rewrite E. Qed.
Lemma run_gets {S A B} (f : S -> A) (k : A -> st S B) s : (gets f ≫= k) s = k (f s) s.
Proof. done. Qed.
Lemma run_update {S B} (f : S -> S) (k : unit -> st S B) s : (update f ≫= k) s = k tt (f s).
Proof. done. Qed.
Lemma run_lifted {S A B} (a : A) (k : A -> st S B) s : (lift (Ok a) ≫= k) s = k a s.
Proof. done. Qed.
Lemma run_assert {S B} (b : bool) (k : unit -> st S B) s : b = true -> (lift (ns_assert b) ≫= k) s = k tt s.
Proof. by intros ->. Qed.
Lemma run_mret {S A B} (a : A) (k : A -> st S B) s : ((mret a : st S A) ≫= k) s = k a s.
Proof. done. Qed.
Lemma lift_ok {S A} (r : res A) (s s' : S) a : lift r s = Ok (a, s') -> r = Ok a /\ s' = s.
Proof. unfold lift. destruct r; [|done]. intros [= -> ->]. done. Qed.

Lemma st_bind_err {S A B} (m : st S A) (k : A -> st S B) s x :
  (m ≫= k) s = Err x -> m s = Err x \/ exists a s1, m s = Ok (a, s1) /\ k a s1 = Err x.
Proof. unfold mbind, st_bind. destruct (m s) as [[a s1]|]; [eauto|]. intros [= ->]. by left. Qed.
(** Where a loop stops. *)
Lemma each_err {S A} (f : A -> st S unit) l : forall s x,
  each f l s = Err x -> exists pre a post s1, l = pre ++ a :: post /\ each f pre s = Ok (tt, s1) /\ f a s1 = Err x.
Proof.
  induction l as [|a l IH]; intros s x E; [done|].
  apply st_bind_err in E as [E|([] & s1 & E1 & E)]; [by exists [], a, l, s|].
  destruct (IH s1 x E) as (pre & b & post & s2 & -> & E2 & E3). exists (a :: pre), b, post, s2.
  split; [done|]. split; [|done]. cbn [each]. by rewrite (run_bind _ _ _ _ _ E1).
Qed.

(** An invariant of every step is an invariant of the loop. *)
Lemma each_inv {S A} (P : S -> Prop) (f : A -> st S unit) l :
  (forall a s u s', a ∈ l -> P s -> f a s = Ok (u, s') -> P s') ->
  forall s u s', P s -> each f l s = Ok (u, s') -> P s'.
Proof.
  induction l as [|a l IH]; intros Hf s u s' Hs E.
  - by injection E as <- <-.
  - apply st_bind_ok in E as (v & s1 & E1 & E). eapply IH; [|eapply Hf; [by left|done|done]|done].
    intros. eapply Hf; [by right|done..].
Qed.

(** Every step returns or stops with the fault [x]; then so does the loop. *)
Lemma each_cases {S A} (P : S -> Prop) (x : fault) (f : A -> st S unit) l :
  (forall a s, a ∈ l -> P s -> (exists s', f a s = Ok (tt, s') /\ P s') \/ f a s = Err x) ->
  forall s, P s -> (exists s', each f l s = Ok (tt, s') /\ P s') \/ each f l s = Err x.
Proof.
  induction l as [|a l IH]; intros Hf s Hs.
  - left. by exists s.
  - cbn [each]. unfold mbind, st_bind. destruct (Hf a s ltac:(by left) Hs) as [(s1 & -> & H1)| ->]; [|by right].
    apply IH; [|done]. intros. apply Hf; [by right|done].
Qed.
Lemma each_total {S A} (P : S -> Prop) (f : A -> st S unit) l :
  (forall a s, a ∈ l -> P s -> exists s', f a s = Ok (tt, s') /\ P s') ->
  forall s, P s -> exists s', each f l s = Ok (tt, s') /\ P s'.
Proof.
  induction l as [|a l IH]; intros Hf s Hs.
  - by exists s.
  - cbn [each]. unfold mbind, st_bind. destruct (Hf a s ltac:(by left) Hs) as (s1 & -> & H1).
    apply IH; [|done]. intros. apply Hf; [by right|done].
Qed.
(** A loop over [0 .. n-1] whose invariant counts the turns. *)
Lemma each_counted {S} (P : nat -> S -> Prop) (f : nat -> st S unit) n s :
  (forall k s, (k < n)%nat -> P k s -> exists s', f k s = Ok (tt, s') /\ P (Datatypes.S k) s') ->
  P 0%nat s -> exists s', each f (seq 0 n) s = Ok (tt, s') /\ P n s'.
Proof.
  intros Hf Hs. assert (forall m k s, (k + m = n)%nat -> P k s -> exists s', each f (seq k m) s = Ok (tt, s') /\ P n s') as Hm;
    [|by apply (Hm n 0%nat)].
  induction m as [|m IH]; intros k s1 E H1; simpl.
  - exists s1. split; [done|]. by replace n with k by lia.
  - destruct (Hf k s1 ltac:(lia) H1) as (s2 & E2 & H2). rewrite (run_bind _ _ _ _ _ E2). apply IH; [lia|done].
Qed.
(** One step that stops is enough for the loop to stop. *)
Lemma each_fault {S A} (P : S -> Prop) (x : fault) (f : A -> st S unit) l a :
  (forall a s, a ∈ l -> P s -> (exists s', f a s = Ok (tt, s') /\ P s') \/ f a s = Err x) ->
  a ∈ l -> (forall s, P s -> f a s = Err x) -> forall s, P s -> each f l s = Err x.
Proof.
  intros Hf Ha Hfault. induction l as [|b l IH]; intros s Hs; [by apply elem_of_nil in Ha|].
  cbn [each]. unfold mbind, st_bind. destruct (Hf b s ltac:(by left) Hs) as [(s1 & E & H1)|E]; [|by rewrite E].
  apply elem_of_cons in Ha as [->|Ha]; [by rewrite Hfault|].
  rewrite E. apply IH; [|done|done]. intros. apply Hf; [by right|done].
Qed.
#[export] Hint Rewrite @run_gets @run_update @run_lifted @run_mret : ns3.
Ltac run := repeat (rewrite ?run_gets, ?run_update, ?run_lifted, ?run_mret; cbv beta).
