(* ===== verification/Scheduler.v ===== *)
(** * The event list interface ([src/core/model/scheduler.h])

    Events and their ordering, the operations every event list offers
    ([EventList]), and what the simulator relies on ([EventListLaws]).  The
    abstract content of an event list is a multiset of events (a list up to
    permutation) with pairwise distinct uids. *)

From S2P Require Import Prelude.

(** [struct EventKey] *)
Record EventKey := mkKey { m_ts : Z; m_uid : Z; m_context : Z }.

(** [struct Event]; an [EventImpl *] is an address, [0] for the null pointer. *)
Record Event := mkEvent { impl : Z; key : EventKey }.

#[export] Instance EventKey_eq_dec : EqDecision EventKey.
Proof. solve_decision. Defined.
#[export] Instance Event_eq_dec : EqDecision Event.
Proof. solve_decision. Defined.

(** [operator ==] on keys compares only the uids. *)
Definition key_eqb (a b : EventKey) : bool := m_uid a =? m_uid b.

(** [operator <] on keys. *)
Definition key_ltb (a b : EventKey) : bool :=
  if m_ts a <? m_ts b then true
  else if (m_ts a =? m_ts b) && (m_uid a <? m_uid b) then true
  else false.

(** [operator >] on keys. *)
Definition key_gtb (a b : EventKey) : bool :=
  if m_ts a >? m_ts b then true
  else if (m_ts a =? m_ts b) && (m_uid a >? m_uid b) then true
  else false.

Definition event_eqb (a b : Event) : bool := key_eqb (key a) (key b).
Definition event_ltb (a b : Event) : bool := key_ltb (key a) (key b).
Definition event_gtb (a b : Event) : bool := key_gtb (key a) (key b).

(** ** The order on events *)

Definition key_lt (a b : EventKey) : Prop :=
  m_ts a < m_ts b \/ (m_ts a = m_ts b /\ m_uid a < m_uid b).
Definition ev_lt (a b : Event) : Prop := key_lt (key a) (key b).
Definition ev_le (a b : Event) : Prop := ~ ev_lt b a.

Lemma key_ltb_lt a b : key_ltb a b = true <-> key_lt a b.
Proof. unfold key_ltb, key_lt. repeat case_match; bool_to_Z; naive_solver lia. Qed.

Lemma key_gtb_lt a b : key_gtb a b = key_ltb b a.
Proof. unfold key_gtb, key_ltb. rewrite !Z.gtb_ltb, (Z.eqb_sym (m_ts a)). done. Qed.

Lemma event_ltb_lt a b : event_ltb a b = true <-> ev_lt a b.
Proof. apply key_ltb_lt. Qed.

Lemma event_ltb_ge a b : event_ltb a b = false <-> ev_le b a.
Proof. unfold ev_le. rewrite <- event_ltb_lt. destruct (event_ltb a b); split; congruence. Qed.

#[export] Instance ev_lt_trans : Transitive ev_lt.
Proof. unfold ev_lt, key_lt. intros ???; lia. Qed.
#[export] Instance ev_lt_irrefl : Irreflexive ev_lt.
Proof. intros x. unfold complement, ev_lt, key_lt; lia. Qed.
#[export] Instance ev_le_preorder : PreOrder ev_le.
Proof. split; [intros ?|intros ???]; unfold ev_le, ev_lt, key_lt; lia. Qed.
#[export] Instance ev_le_total : Total ev_le.
Proof. intros ??; unfold ev_le, ev_lt, key_lt; lia. Qed.
#[export] Instance ev_lt_dec a b : Decision (ev_lt a b).
Proof. refine (cast_if (decide (event_ltb a b = true))); rewrite <- event_ltb_lt; done. Defined.
#[export] Instance ev_le_dec a b : Decision (ev_le a b).
Proof. unfold ev_le; apply _. Defined.

Definition uid_of (e : Event) : Z := m_uid (key e).

(** Distinct uids make the order strict. *)
Lemma ev_le_lt a b : ev_le a b -> uid_of a <> uid_of b -> ev_lt a b.
Proof. unfold ev_le, ev_lt, key_lt, uid_of. lia. Qed.
Lemma ev_lt_le a b : ev_lt a b -> ev_le a b.
Proof. unfold ev_le, ev_lt, key_lt. lia. Qed.
#[export] Hint Resolve ev_lt_le : ns3.

(** ** Operations of an event list *)

Class EventList (S : Type) := {
  el_empty : S;
  el_Insert : Event -> S -> res S;
  el_IsEmpty : S -> bool;
  el_PeekNext : S -> res Event;
  el_RemoveNext : S -> res (Event * S);
  el_Remove : Event -> S -> res S
}.

(** What the event list promises about everything but [Remove]: [contents] is
    its multiset of events and [el_ok] its representation invariant. *)
Class EventListLaws (S : Type) `{EventList S} := {
  contents : S -> list Event;
  el_ok : S -> Prop;
  law_empty : el_ok el_empty /\ contents el_empty = [];
  law_uids s : el_ok s -> NoDup (uid_of <$> contents s);
  law_insert e s : el_ok s -> uid_of e ∉ (uid_of <$> contents s) ->
    exists s', el_Insert e s = Ok s' /\ el_ok s' /\ contents s' ≡ₚ e :: contents s;
  law_isEmpty s : el_ok s -> el_IsEmpty s = true <-> contents s = [];
  law_peek s : el_ok s -> contents s <> [] ->
    exists e, el_PeekNext s = Ok e /\ e ∈ contents s /\
      (forall e', e' ∈ contents s -> ev_le e e');
  law_removeNext s : el_ok s -> contents s <> [] ->
    exists e s', el_RemoveNext s = Ok (e, s') /\ el_ok s' /\
      contents s ≡ₚ e :: contents s' /\
      (forall e', e' ∈ contents s' -> ev_lt e e')
}.

(** The promise of [Remove] on an event that is stored. *)
Class EventListRemoveLaw (S : Type) `{EventListLaws S} := {
  law_remove e s : el_ok s -> e ∈ contents s ->
    exists s', el_Remove e s = Ok s' /\ el_ok s' /\ contents s ≡ₚ e :: contents s'
}.

(** ** Draining an event list

    [SetScheduler] moves every event of one list to another, in the order
    [RemoveNext] produces them; the simulator's main loop consumes them in that
    order as well. *)

Section drain.
Context {S : Type} `{EventListLaws S}.

Fixpoint drain (fuel : nat) (s : S) : res (list Event) :=
  if el_IsEmpty s then Ok []
  else match fuel with
       | O => Err OutOfFuel
       | Datatypes.S n =>
         '(e, s') ← el_RemoveNext s;
         l ← drain n s';
         mret (e :: l)
       end.

Lemma drain_sorted n s :
  el_ok s -> (length (contents s) <= n)%nat ->
  exists l, drain n s = Ok l /\ l ≡ₚ contents s /\ StronglySorted ev_lt l.
Proof.
  revert s. induction n as [|n IH]; intros s Hok Hlen; simpl.
  - assert (contents s = []) as Hnil by (apply nil_length_inv; lia).
    rewrite (proj2 (law_isEmpty s Hok) Hnil), Hnil.
    exists []; repeat split; constructor.
  - destruct (el_IsEmpty s) eqn:He.
    + apply (law_isEmpty s Hok) in He. rewrite He. exists []; repeat split; constructor.
    + destruct (law_removeNext s Hok) as (e & s' & Hr & Hok' & Hp & Hmin).
      { intros Hnil. apply (law_isEmpty s Hok) in Hnil. congruence. }
      pose proof (Permutation_length Hp) as Hl. simpl in Hl.
      destruct (IH s' Hok') as (l & Hd & Hpl & Hs); [lia|].
      exists (e :: l). rewrite Hr. simpl. rewrite Hd. simpl. split; [done|].
      split; [by rewrite Hpl, Hp|].
      constructor; [done|]. apply Forall_forall. intros x Hx. apply Hmin. by rewrite <- Hpl.
Qed.
End drain.

(** Two strictly sorted lists with the same elements are equal. *)
Lemma sorted_lt_unique (l1 l2 : list Event) :
  l1 ≡ₚ l2 -> StronglySorted ev_lt l1 -> StronglySorted ev_lt l2 -> l1 = l2.
Proof.
  intros Hp H1 H2. revert l2 Hp H2.
  induction H1 as [|x l1 H1 IH Hx]; intros l2 Hp H2.
  { by apply Permutation_nil_l in Hp. }
  destruct H2 as [|y l2 H2 Hy]; [by apply Permutation_nil_r in Hp|].
  rewrite Forall_forall in Hx, Hy.
  assert (x = y) as ->.
  { assert (x ∈ y :: l2) as Hxy by (rewrite <- Hp; left).
    assert (y ∈ x :: l1) as Hyx by (rewrite Hp; left).
    apply elem_of_cons in Hxy as [|Hxy]; [done|].
    apply elem_of_cons in Hyx as [|Hyx]; [done|].
    destruct (irreflexivity ev_lt x). etrans; [by apply Hx|by apply Hy]. }
  f_equal. apply IH; [|done]. by apply Permutation_cons_inv in Hp.
Qed.

(** Any two event lists with the same events are drained in the same order. *)
Lemma drain_agree {S1 S2 : Type} `{EventListLaws S1} `{EventListLaws S2} (s1 : S1) (s2 : S2) n :
  el_ok s1 -> el_ok s2 -> contents s1 ≡ₚ contents s2 ->
  (length (contents s1) <= n)%nat -> drain n s1 = drain n s2.
Proof.
  intros Hk1 Hk2 Hp Hn. pose proof (Permutation_length Hp) as Hl.
  destruct (drain_sorted n s1 Hk1) as (l1 & -> & Hp1 & Hs1); [done|].
  destruct (drain_sorted n s2 Hk2) as (l2 & -> & Hp2 & Hs2); [lia|].
  f_equal. apply sorted_lt_unique; [|done..]. by rewrite Hp1, Hp2.
Qed.

(** ** Removing the first event with a given uid from a list *)

Section remove_uid.
Fixpoint remove_uid (uid : Z) (l : list Event) : list Event :=
  match l with
  | [] => []
  | e :: l' => if uid_of e =? uid then l' else e :: remove_uid uid l'
  end.

Lemma remove_uid_perm e l :
  e ∈ l -> NoDup (uid_of <$> l) -> l ≡ₚ e :: remove_uid (uid_of e) l.
Proof.
  induction l as [|x l IH]; intros Hin Hnd; [by apply elem_of_nil in Hin|].
  apply NoDup_cons in Hnd as [Hx Hnd]. cbn [remove_uid].
  destruct (uid_of x =? uid_of e) eqn:E; bool_to_Z.
  - apply elem_of_cons in Hin as [->|Hin]; [done|].
    destruct Hx. rewrite E. by apply list_elem_of_fmap_2.
  - apply elem_of_cons in Hin as [->|Hin]; [done|].
    rewrite Permutation_swap. f_equiv. by apply IH.
Qed.

Lemma remove_uid_subseteq uid l x : x ∈ remove_uid uid l -> x ∈ l.
Proof.
  induction l as [|y l IH]; cbn [remove_uid]; [done|].
  destruct (_ =? _); [by right|]. rewrite !elem_of_cons. naive_solver.
Qed.

Lemma remove_uid_sorted uid l :
  StronglySorted ev_lt l -> StronglySorted ev_lt (remove_uid uid l).
Proof.
  induction 1 as [|x l Hs IH Hx]; cbn [remove_uid]; [constructor|].
  destruct (_ =? _); [done|]. constructor; [done|].
  rewrite Forall_forall in *. intros y Hy. by apply Hx, (remove_uid_subseteq uid).
Qed.
End remove_uid.

(** Storing one event more, or less, keeps uids distinct. *)
Lemma uids_insert e l l' :
  uid_of e ∉ (uid_of <$> l) -> NoDup (uid_of <$> l) -> l' ≡ₚ e :: l -> NoDup (uid_of <$> l').
Proof. intros Hf Hnd ->. by constructor. Qed.

Lemma uids_remove e l l' : NoDup (uid_of <$> l) -> l ≡ₚ e :: l' -> NoDup (uid_of <$> l').
Proof. intros Hnd Hp. rewrite Hp in Hnd. by apply NoDup_cons in Hnd as [_ ?]. Qed.
