(* ===== verification/ListScheduler.v ===== *)
(** * [ListScheduler] ([src/core/model/list-scheduler.cc])

    A [std::list] of events kept sorted by key. *)

From S2P Require Import Prelude Scheduler.

(** [m_events] *)
Definition state := list Event.

(** [Insert]: before the first event with a larger key. *)
Fixpoint insert_before (ev : Event) (l : state) : state :=
  match l with
  | [] => [ev]
  | i :: l' => if key_ltb (key ev) (key i) then ev :: i :: l' else i :: insert_before ev l'
  end.

Definition Insert (ev : Event) (s : state) : res state := Ok (insert_before ev s).

Definition IsEmpty (s : state) : bool := match s with [] => true | _ => false end.

(** [front ()] of an empty list is undefined. *)
Definition PeekNext (s : state) : res Event := deref (head s).

Definition RemoveNext (s : state) : res (Event * state) :=
  match s with
  | [] => Err UndefinedBehaviour
  | next :: s' => Ok (next, s')
  end.

Fixpoint Remove (ev : Event) (s : state) : res state :=
  match s with
  | [] => Err AssertFailed
  | i :: s' =>
    if m_uid (key i) =? m_uid (key ev) then
      _ ← ns_assert (impl ev =? impl i); mret s'
    else r ← Remove ev s'; mret (i :: r)
  end.

(** ** The list is a correct event list *)

Definition ok (s : state) : Prop := StronglySorted ev_lt s /\ NoDup (uid_of <$> s).

Lemma insert_before_perm ev s : insert_before ev s ≡ₚ ev :: s.
Proof.
  induction s as [|i s IH]; simpl; [done|].
  case_match; [done|]. rewrite IH. apply Permutation_swap.
Qed.

Lemma insert_before_sorted ev s :
  StronglySorted ev_lt s -> uid_of ev ∉ (uid_of <$> s) ->
  StronglySorted ev_lt (insert_before ev s).
Proof.
  induction 1 as [|i s Hs IH Hi]; simpl; intros Hf; [repeat constructor|].
  apply not_elem_of_cons in Hf as [Hne Hf].
  destruct (key_ltb (key ev) (key i)) eqn:E.
  - apply key_ltb_lt in E. constructor; [by constructor|].
    constructor; [done|]. eapply Forall_impl; [done|]. intros x; simpl. by transitivity i.
  - constructor; [by apply IH|]. rewrite insert_before_perm. constructor; [|done].
    apply ev_le_lt; [|congruence]. by apply event_ltb_ge.
Qed.

Lemma Remove_spec ev s :
  ev ∈ s -> NoDup (uid_of <$> s) -> Remove ev s = Ok (remove_uid (uid_of ev) s).
Proof.
  induction s as [|i s IH]; intros Hin Hnd; [by apply elem_of_nil in Hin|].
  apply NoDup_cons in Hnd as [Hi Hnd]. cbn [Remove remove_uid]. fold (uid_of i) (uid_of ev).
  apply elem_of_cons in Hin as [->|Hin].
  - rewrite !Z.eqb_refl. done.
  - destruct (uid_of i =? uid_of ev) eqn:E; bool_to_Z.
    + destruct Hi. rewrite E. by apply list_elem_of_fmap_2.
    + by rewrite IH.
Qed.

#[local] Instance list_event_list : EventList state := {|
  el_empty := []; el_Insert := Insert; el_IsEmpty := IsEmpty;
  el_PeekNext := PeekNext; el_RemoveNext := RemoveNext; el_Remove := Remove
|}.

#[local] Instance list_laws : EventListLaws state.
Proof.
  refine {| contents := id; el_ok := ok |}.
  - split; [split; constructor|done].
  - by intros s [].
  - intros e s [Hs Hnd] Hf. exists (insert_before e s).
    pose proof (insert_before_perm e s) as Hp.
    split; [done|]. split; [split|done]; [by apply insert_before_sorted|].
    by eapply uids_insert.
  - intros [|e s] _; simpl; naive_solver.
  - intros [|e s] [Hs Hnd] Hne; [done|]. exists e. split; [done|]. split; [left|].
    apply StronglySorted_inv in Hs as [_ Hs]. rewrite Forall_forall in Hs.
    intros e' [->|Hin]%elem_of_cons; [done|]. auto with ns3.
  - intros [|e s] [Hs Hnd] Hne; [done|]. exists e, s. split; [done|].
    apply StronglySorted_inv in Hs as [Hs Hf]. apply NoDup_cons in Hnd as [_ Hnd].
    split; [done|]. split; [done|]. by apply Forall_forall.
Defined.

#[local] Instance list_remove_law : EventListRemoveLaw state.
Proof.
  constructor. intros e s [Hs Hnd] Hin. exists (remove_uid (uid_of e) s).
  pose proof (remove_uid_perm e s Hin Hnd) as Hp.
  split; [by apply Remove_spec|]. split; [|done].
  split; [by apply remove_uid_sorted|]. by eapply uids_remove.
Qed.
