(* ===== verification/HeapScheduler.v ===== *)
(** * [HeapScheduler] ([src/core/model/heap-scheduler.cc])

    A binary heap in a vector whose cell 0 is wasted, so that the root has
    index 1.  The loops take fuel: [BottomUp] at most halves its index
    [Last ()] times, [TopDown] doubles an index bounded by the heap size; the
    correctness lemmas show that the fuel given is never exhausted. *)

From S2P Require Import Prelude Scheduler.

(** [m_heap] *)
Abbreviation state := (list Event).

(** The constructor pushes the wasted item. *)
Definition empty_event : Event := mkEvent 0 (mkKey 0 0 0).
Definition HeapScheduler : state := [empty_event].

Definition Parent (id : nat) : nat := (id / 2)%nat.
Definition LeftChild (id : nat) : nat := (id * 2)%nat.
Definition RightChild (id : nat) : nat := (id * 2 + 1)%nat.
Definition Root : nat := 1%nat.
Definition IsRoot (id : nat) : bool := (id =? Root)%nat.
Definition Last (h : state) : nat := (length h - 1)%nat.
Definition IsBottom (id : nat) (h : state) : bool := (length h <=? id)%nat.

Definition Exch (a b : nat) (h : state) : res state :=
  _ ← ns_assert ((b <? length h)%nat && (a <? length h)%nat);
  tmp ← deref (h !! a);
  hb ← deref (h !! b);
  mret (<[b := tmp]> (<[a := hb]> h)).

Definition IsLessStrictly (a b : nat) (h : state) : res bool :=
  ea ← deref (h !! a);
  eb ← deref (h !! b);
  mret (event_ltb ea eb).

Definition Smallest (a b : nat) (h : state) : res nat :=
  l ← IsLessStrictly a b h;
  mret (if (l : bool) then a else b).

Definition IsEmpty (h : state) : bool := (length h =? 1)%nat.

Fixpoint bottom_up_loop (fuel : nat) (index : nat) (h : state) : res state :=
  match fuel with
  | O => Err OutOfFuel
  | S n =>
    if IsRoot index then Ok h
    else
      less ← IsLessStrictly index (Parent index) h;
      if (less : bool) then
        h' ← Exch index (Parent index) h;
        bottom_up_loop n (Parent index) h'
      else Ok h
  end.

Definition BottomUp (h : state) : res state :=
  bottom_up_loop (S (Last h)) (Last h) h.

(** The code after the loop of [TopDown]. *)
Definition top_down_tail (index : nat) (h : state) : res state :=
  if IsBottom index h then Ok h
  else
    let left := LeftChild index in
    if IsBottom left h then Ok h
    else
      less ← IsLessStrictly index left h;
      if (less : bool) then Ok h else Exch index left h.

Fixpoint top_down_loop (fuel : nat) (index : nat) (h : state) : res state :=
  match fuel with
  | O => Err OutOfFuel
  | S n =>
    let right := RightChild index in
    if IsBottom right h then top_down_tail index h
    else
      let left := LeftChild index in
      tmp ← Smallest left right h;
      less ← IsLessStrictly index tmp h;
      if (less : bool) then Ok h
      else
        h' ← Exch index tmp h;
        top_down_loop n tmp h'
  end.

Definition TopDown (start : nat) (h : state) : res state :=
  top_down_loop (S (length h)) start h.

Definition Insert (ev : Event) (h : state) : res state :=
  BottomUp (h ++ [ev]).

Definition PeekNext (h : state) : res Event := deref (h !! Root).

(** [m_heap.pop_back ()] *)
Definition pop_back (h : state) : state := take (length h - 1) h.

Definition RemoveNext (h : state) : res (Event * state) :=
  next ← deref (h !! Root);
  h1 ← Exch Root (Last h) h;
  h2 ← TopDown Root (pop_back h1);
  mret (next, h2).

(** The search loop of [Remove]; [rest] are the cells from index [i] on. *)
Fixpoint find_uid (uid : Z) (i : nat) (rest : state) : option (nat * Event) :=
  match rest with
  | [] => None
  | e :: rest' => if uid =? m_uid (key e) then Some (i, e) else find_uid uid (S i) rest'
  end.

Definition Remove (ev : Event) (h : state) : res state :=
  match find_uid (m_uid (key ev)) 1 (drop 1 h) with
  | Some (i, e) =>
    _ ← ns_assert (impl e =? impl ev);
    h1 ← Exch i (Last h) h;
    TopDown i (pop_back h1)
  | None => Err AssertFailed
  end.

(** ** Index arithmetic *)

Lemma parent_left i : Parent (LeftChild i) = i.
Proof. unfold Parent, LeftChild. apply Nat.div_mul. lia. Qed.
Lemma parent_right i : Parent (RightChild i) = i.
Proof. unfold Parent, RightChild. rewrite Nat.div_add_l, Nat.add_0_r by lia. done. Qed.
Lemma parent_lt i : (0 < i)%nat -> (Parent i < i)%nat.
Proof. intros. apply Nat.div_lt; lia. Qed.
Lemma parent_pos i : (2 <= i)%nat -> (1 <= Parent i)%nat.
Proof. intros. apply Nat.div_le_lower_bound; lia. Qed.
Lemma parent_child i : i = LeftChild (Parent i) \/ i = RightChild (Parent i).
Proof.
  unfold LeftChild, RightChild, Parent. pose proof (Nat.div_mod_eq i 2).
  pose proof (Nat.mod_upper_bound i 2). lia.
Qed.

(** ** Exchanging two cells *)

Section exch.
Context (h : state) (a b : nat) (x y : Event).
Context (Ha : h !! a = Some x) (Hb : h !! b = Some y).

Definition swapped : state := <[b := x]> (<[a := y]> h).

Lemma Exch_ok : Exch a b h = Ok swapped.
Proof using Ha Hb.
  unfold Exch. pose proof (lookup_lt_Some _ _ _ Ha). pose proof (lookup_lt_Some _ _ _ Hb).
  rewrite !(proj2 (Nat.ltb_lt _ _)) by done. simpl. by rewrite Ha, Hb.
Qed.

Lemma lookup_swapped j :
  swapped !! j = if decide (j = a) then Some y else if decide (j = b) then Some x else h !! j.
Proof using Ha Hb.
  unfold swapped. pose proof (lookup_lt_Some _ _ _ Ha). pose proof (lookup_lt_Some _ _ _ Hb).
  rewrite !list_lookup_insert, length_insert.
  repeat case_decide; destruct_and?; simplify_eq; done || lia.
Qed.

Lemma length_swapped : length swapped = length h.
Proof using. unfold swapped. by rewrite !length_insert. Qed.

Lemma swapped_perm : swapped ≡ₚ h.
Proof using Ha Hb. by apply Permutation_insert_swap. Qed.
End exch.

Lemma IsLess_ok a b h x y :
  h !! a = Some x -> h !! b = Some y -> IsLessStrictly a b h = Ok (event_ltb x y).
Proof. intros Ha Hb. unfold IsLessStrictly. by rewrite Ha, Hb. Qed.

Lemma IsBottom_false id h : IsBottom id h = false <-> is_Some (h !! id).
Proof. unfold IsBottom. rewrite Nat.leb_gt, lookup_lt_is_Some. done. Qed.
Lemma IsBottom_true id h : IsBottom id h = true <-> h !! id = None.
Proof. unfold IsBottom. by rewrite Nat.leb_le, lookup_ge_None. Qed.

(** ** The heap order and its two exceptions *)

(** The parent of cell [i] does not come after it. *)
Definition edge (h : state) (i : nat) : Prop :=
  forall x p, h !! i = Some x -> h !! Parent i = Some p -> ev_le p x.

(** The grandparent of cell [i] does not come after it. *)
Definition edge2 (h : state) (i : nat) : Prop :=
  forall x p, h !! i = Some x -> h !! Parent (Parent i) = Some p -> ev_le p x.

Definition heap_ordered (h : state) : Prop := forall i, (2 <= i)%nat -> edge h i.

(** Only cell [idx] may come before its parent. *)
Definition ordered_above (idx : nat) (h : state) : Prop :=
  (forall i, (2 <= i)%nat -> i <> idx -> edge h i) /\
  (forall i, (2 <= idx)%nat -> Parent i = idx -> edge2 h i).

(** Only the children of cell [idx] may come before it. *)
Definition ordered_below (idx : nat) (h : state) : Prop :=
  (forall i, (2 <= i)%nat -> Parent i <> idx -> edge h i) /\
  (forall i, (2 <= idx)%nat -> Parent i = idx -> edge2 h i).

Lemma up_step idx h x p :
  (2 <= idx)%nat -> ordered_above idx h ->
  h !! idx = Some x -> h !! Parent idx = Some p -> ev_lt x p ->
  ordered_above (Parent idx) (swapped h idx (Parent idx) x p).
Proof.
  intros Hi [Ho Hg] Hx Hp Hlt. pose proof (parent_lt idx). pose proof (parent_pos idx Hi) as Hpp.
  split.
  - intros i Hi2 Hne y q. rewrite !(lookup_swapped h _ _ _ _ Hx Hp).
    pose proof (parent_lt i). repeat case_decide; intros; simplify_eq; try lia.
    + by apply ev_lt_le.
    + by apply (Hg i).
    + trans p; [by apply ev_lt_le|]. apply (Ho i); congruence.
    + by apply (Ho i).
  - intros i Hpi Hpar y q. rewrite !(lookup_swapped h _ _ _ _ Hx Hp), Hpar.
    pose proof (parent_lt (Parent idx)). pose proof (parent_lt i).
    assert (edge h (Parent idx)) as Hpe by (apply Ho; lia).
    assert (i <> idx -> edge h i) as Hie.
    { apply Ho. destruct i as [|[|i]]; [..|lia]; unfold Parent in *; simpl in *; lia. }
    repeat case_decide; intros; simplify_eq; try lia.
    + by apply Hpe.
    + trans p; [by apply Hpe|]. apply Hie; congruence.
Qed.

Lemma bottom_up_ok fuel : forall idx h,
  (1 <= idx < length h)%nat -> (idx < fuel)%nat -> ordered_above idx h ->
  exists h', bottom_up_loop fuel idx h = Ok h' /\ h' ≡ₚ h /\ h' !! 0%nat = h !! 0%nat /\ heap_ordered h'.
Proof.
  induction fuel as [|n IH]; intros idx h Hr Hf Ho; [lia|]. cbn [bottom_up_loop].
  unfold IsRoot. destruct (idx =? Root)%nat eqn:E.
  { apply Nat.eqb_eq in E. exists h. repeat split; try done.
    intros i Hi. apply Ho; unfold Root in *; lia. }
  apply Nat.eqb_neq in E. unfold Root in *.
  pose proof (parent_lt idx ltac:(lia)). pose proof (parent_pos idx ltac:(lia)).
  destruct (lookup_lt_is_Some_2 h idx) as [x Hx]; [lia|].
  destruct (lookup_lt_is_Some_2 h (Parent idx)) as [p Hp]; [lia|].
  rewrite (IsLess_ok _ _ _ _ _ Hx Hp). simpl. destruct (event_ltb x p) eqn:El.
  - apply event_ltb_lt in El. rewrite (Exch_ok _ _ _ _ _ Hx Hp). simpl.
    destruct (IH (Parent idx) (swapped h idx (Parent idx) x p)) as (h' & -> & Hperm & Hz & Hh').
    { rewrite length_swapped. lia. } { lia. } { apply up_step; auto with lia. }
    exists h'. repeat split; try done.
    + by rewrite Hperm, (swapped_perm _ _ _ _ _ Hx Hp).
    + rewrite Hz, (lookup_swapped _ _ _ _ _ Hx Hp). repeat case_decide; lia || done.
  - apply event_ltb_ge in El. exists h. repeat split; try done.
    intros i Hi. destruct (decide (i = idx)) as [->|Hne]; [|by apply Ho].
    intros y q Hy Hq. simplify_eq. done.
Qed.

(** ** Sifting down *)

Section down.
Context (h : state) (idx c : nat) (x y : Event).
Context (Hidx : (1 <= idx)%nat) (Hc : Parent c = idx) (Hne : (2 <= c)%nat).
Context (Hx : h !! idx = Some x) (Hy : h !! c = Some y).
Context (Hmin : forall i z, (2 <= i)%nat -> Parent i = idx -> h !! i = Some z -> ev_le y z).

Lemma down_step :
  ev_le y x -> ordered_below idx h -> ordered_below c (swapped h idx c x y).
Proof using All.
  intros Hle [Ho Hg]. pose proof (parent_lt c) as Hlt.
  split.
  - intros i Hi Hpar u q. rewrite !(lookup_swapped h _ _ _ _ Hx Hy).
    pose proof (parent_lt i).
    repeat case_decide; intros; simplify_eq; try lia.
    + apply (Hg c); [lia|done..].
    + done.
    + by apply (Hmin i).
    + apply (Ho i); done.
  - intros i _ Hpar u q. rewrite !(lookup_swapped h _ _ _ _ Hx Hy), Hpar.
    pose proof (parent_lt i). rewrite Hc.
    repeat case_decide; intros; simplify_eq; try lia.
    apply (Ho i); [|lia|done|congruence].
    destruct i as [|[|i]]; [..|lia]; unfold Parent in *; simpl in *; lia.
Qed.

Lemma down_stop : ev_lt x y -> ordered_below idx h -> heap_ordered h.
Proof using All.
  intros Hlt [Ho Hg] i Hi. destruct (decide (Parent i = idx)) as [Hp|]; [|by apply Ho].
  intros z q Hz Hq. rewrite Hp in Hq. simplify_eq.
  trans y; [by apply ev_lt_le|]. by apply (Hmin i).
Qed.
End down.

Lemma below_leaf idx h :
  (1 <= idx)%nat -> h !! LeftChild idx = None -> ordered_below idx h -> heap_ordered h.
Proof.
  intros Hidx Hl [Ho _] i Hi. destruct (decide (Parent i = idx)) as [Hp|]; [|by apply Ho].
  intros x p Hx. apply lookup_lt_Some in Hx. apply lookup_ge_None in Hl.
  destruct (parent_child i) as [Hc|Hc]; rewrite Hp in Hc; unfold LeftChild, RightChild in *; lia.
Qed.

Lemma swapped_ok h a b x y :
  (1 <= a)%nat -> (1 <= b)%nat -> h !! a = Some x -> h !! b = Some y ->
  swapped h a b x y ≡ₚ h /\ swapped h a b x y !! 0%nat = h !! 0%nat.
Proof.
  intros Ha1 Hb1 Ha Hb. split; [by apply swapped_perm|].
  rewrite (lookup_swapped _ _ _ _ _ Ha Hb). repeat case_decide; lia || done.
Qed.

Lemma top_down_tail_ok idx h :
  (1 <= idx)%nat -> h !! RightChild idx = None -> ordered_below idx h ->
  exists h', top_down_tail idx h = Ok h' /\ h' ≡ₚ h /\ h' !! 0%nat = h !! 0%nat /\ heap_ordered h'.
Proof.
  intros Hidx Hright Ho. unfold top_down_tail.
  destruct (IsBottom (LeftChild idx) h) eqn:Hl.
  { apply IsBottom_true in Hl. exists h.
    split; [by destruct (IsBottom idx h)|]. repeat split; try done. by eapply below_leaf. }
  apply IsBottom_false in Hl as [y Hy].
  destruct (lookup_lt_is_Some_2 h idx) as [x Hx].
  { apply lookup_lt_Some in Hy. unfold LeftChild in Hy. lia. }
  rewrite (proj2 (IsBottom_false idx h)) by eauto.
  assert (2 <= LeftChild idx)%nat as Hl2 by (unfold LeftChild; lia).
  assert (forall i z, (2 <= i)%nat -> Parent i = idx -> h !! i = Some z -> ev_le y z) as Hmin.
  { intros i z _ Hp Hz. destruct (parent_child i) as [Hc|Hc]; rewrite Hp in Hc; subst i; simplify_eq; done. }
  rewrite (IsLess_ok _ _ _ _ _ Hx Hy). simpl. destruct (event_ltb x y) eqn:El.
  - apply event_ltb_lt in El. exists h. repeat split; try done.
    apply (down_stop h idx (LeftChild idx) x y); auto using parent_left.
  - apply event_ltb_ge in El. rewrite (Exch_ok _ _ _ _ _ Hx Hy).
    eexists; split; [done|].
    destruct (swapped_ok h idx (LeftChild idx) x y) as [Hp Hz]; [done|lia|done..|].
    split; [done|]. split; [done|].
    apply (below_leaf (LeftChild idx)); [lia| |by apply down_step; auto using parent_left].
    apply lookup_ge_None. rewrite length_swapped. apply lookup_ge_None in Hright.
    unfold LeftChild, RightChild in *. lia.
Qed.

Lemma top_down_ok fuel : forall idx h,
  (1 <= idx)%nat -> (length h - idx < fuel)%nat -> ordered_below idx h ->
  exists h', top_down_loop fuel idx h = Ok h' /\ h' ≡ₚ h /\ h' !! 0%nat = h !! 0%nat /\ heap_ordered h'.
Proof.
  induction fuel as [|n IH]; intros idx h Hidx Hf Ho; [lia|]. cbn [top_down_loop].
  destruct (IsBottom (RightChild idx) h) eqn:Hr.
  { apply IsBottom_true in Hr. by apply top_down_tail_ok. }
  apply IsBottom_false in Hr as [r Hr]. pose proof (lookup_lt_Some _ _ _ Hr) as Hlr.
  destruct (lookup_lt_is_Some_2 h (LeftChild idx)) as [l Hl].
  { unfold LeftChild, RightChild in *. lia. }
  destruct (lookup_lt_is_Some_2 h idx) as [x Hx].
  { unfold RightChild in *. lia. }
  unfold Smallest. rewrite (IsLess_ok _ _ _ _ _ Hl Hr). simpl.
  set (c := if event_ltb l r then LeftChild idx else RightChild idx).
  set (y := if event_ltb l r then l else r).
  assert (h !! c = Some y) as Hy by (unfold c, y; destruct (event_ltb l r); done).
  assert (Parent c = idx) as Hpc.
  { unfold c. destruct (event_ltb l r); [apply parent_left|apply parent_right]. }
  assert (2 * idx <= c)%nat as Hc2.
  { unfold c, LeftChild, RightChild. destruct (event_ltb l r); lia. }
  assert (forall i z, (2 <= i)%nat -> Parent i = idx -> h !! i = Some z -> ev_le y z) as Hmin.
  { intros i z _ Hp Hz. unfold y.
    destruct (parent_child i) as [Hci|Hci]; rewrite Hp in Hci; subst i; simplify_eq;
      destruct (event_ltb l r) eqn:E; try done;
      [by apply event_ltb_ge|by apply ev_lt_le, event_ltb_lt]. }
  clearbody c y. rewrite (IsLess_ok _ _ _ _ _ Hx Hy). simpl.
  destruct (event_ltb x y) eqn:El.
  - apply event_ltb_lt in El. exists h. repeat split; try done.
    apply (down_stop h idx c x y); auto with lia.
  - apply event_ltb_ge in El. rewrite (Exch_ok _ _ _ _ _ Hx Hy). simpl.
    destruct (swapped_ok h idx c x y) as [Hp Hz]; [done|lia|done..|].
    destruct (IH c (swapped h idx c x y)) as (h' & -> & Hp' & Hz' & Hh').
    { lia. } { rewrite length_swapped. apply lookup_lt_Some in Hy. lia. }
    { apply down_step; auto with lia. }
    exists h'. repeat split; try done; [by rewrite Hp'|by rewrite Hz'].
Qed.

(** ** The heap as an event list *)

(** [Remove] is not part of these laws: see [Remove_breaks_heap] below. *)
Definition ok (h : state) : Prop :=
  h !! 0%nat = Some empty_event /\ heap_ordered h /\ NoDup (uid_of <$> drop 1 h).

Lemma drop_perm (h h' : state) :
  h' ≡ₚ h -> h' !! 0%nat = h !! 0%nat -> drop 1 h' ≡ₚ drop 1 h.
Proof.
  destruct h as [|d t], h' as [|d' t']; simpl; intros Hp Hz; try done.
  simplify_eq. rewrite !drop_0. by apply Permutation_cons_inv in Hp.
Qed.

Lemma heap_ordered_app h e : heap_ordered h -> ordered_above (length h) (h ++ [e]).
Proof.
  intros Ho. split.
  - intros i Hi Hne x p Hx Hp. pose proof (lookup_lt_Some _ _ _ Hx) as Hl.
    rewrite length_app in Hl. simpl in Hl. pose proof (parent_lt i).
    rewrite lookup_app_l in Hx, Hp by lia. by apply (Ho i).
  - intros i Hl Hp x p Hx. apply lookup_lt_Some in Hx. rewrite length_app in Hx.
    simpl in Hx. pose proof (parent_lt i). destruct i; [unfold Parent in *; simpl in *|]; lia.
Qed.

Lemma Insert_ok e h :
  h !! 0%nat = Some empty_event -> heap_ordered h ->
  exists h', Insert e h = Ok h' /\ h' !! 0%nat = Some empty_event /\ heap_ordered h' /\
    drop 1 h' ≡ₚ e :: drop 1 h.
Proof.
  intros Hz Ho. pose proof (lookup_lt_Some _ _ _ Hz) as Hl.
  unfold Insert, BottomUp, Last. rewrite length_app. simpl length. rewrite Nat.add_sub.
  destruct (bottom_up_ok (S (length h)) (length h) (h ++ [e])) as (h' & -> & Hp & Hz' & Ho').
  { rewrite length_app. simpl. lia. } { lia. } { by apply heap_ordered_app. }
  exists h'. split; [done|]. rewrite lookup_app_l in Hz' by lia.
  split; [by rewrite Hz'|]. split; [done|].
  rewrite (drop_perm (h ++ [e]) h'); [|done|by rewrite lookup_app_l by lia].
  rewrite drop_app_le by lia. by rewrite Permutation_app_comm.
Qed.

Lemma root_min h :
  heap_ordered h -> forall i r x, (1 <= i)%nat -> h !! Root = Some r -> h !! i = Some x -> ev_le r x.
Proof.
  intros Ho i. induction (lt_wf i) as [i _ IH]. intros r x Hi Hr Hx.
  destruct (decide (i = 1%nat)) as [->|Hne]; [unfold Root in *; by simplify_eq|].
  pose proof (parent_lt i ltac:(lia)). pose proof (parent_pos i ltac:(lia)).
  destruct (lookup_lt_is_Some_2 h (Parent i)) as [p Hp].
  { apply lookup_lt_Some in Hx. lia. }
  trans p; [by apply (IH (Parent i))|]. apply (Ho i); [lia|done..].
Qed.

(** Moving the last cell over cell [i] and dropping the last cell: only the
    edges around [i] can be broken. *)
Lemma replace_by_last h i x z :
  heap_ordered h -> (1 <= i)%nat -> h !! i = Some x -> h !! Last h = Some z ->
  let h1 := swapped h i (Last h) x z in
  forall j, (2 <= j)%nat -> j <> i -> Parent j <> i -> edge (pop_back h1) j.
Proof.
  intros Ho Hi Hx Hz h1 j Hj Hne Hpar u q. unfold pop_back. rewrite !lookup_take_Some.
  unfold h1. rewrite length_swapped, !(lookup_swapped _ _ _ _ _ Hx Hz).
  fold (Last h). rewrite (decide_False _ _ Hne), (decide_False _ _ Hpar).
  intros [Hu ?] [Hq ?]. rewrite decide_False in Hu by lia. rewrite decide_False in Hq by lia. by apply (Ho j).
Qed.

Lemma pop_back_perm h i x z :
  (1 <= i)%nat -> h !! i = Some x -> h !! Last h = Some z ->
  drop 1 h ≡ₚ x :: drop 1 (pop_back (swapped h i (Last h) x z)).
Proof.
  intros Hi Hx Hz. set (h1 := swapped h i (Last h) x z).
  pose proof (lookup_lt_Some _ _ _ Hx). unfold Last in *.
  destruct (swapped_ok h i (length h - 1) x z) as [Hp H0]; [lia..|done|done|].
  rewrite <- (drop_perm h h1 Hp H0).
  assert (h1 !! (length h1 - 1)%nat = Some x) as Hlast.
  { unfold h1. rewrite length_swapped, (lookup_swapped _ _ _ _ _ Hx Hz).
    repeat case_decide; congruence. }
  unfold pop_back.
  assert (h1 = take (length h1 - 1) h1 ++ [x]) as E.
  { rewrite <- (take_drop (length h1 - 1) h1) at 1. f_equal.
    apply drop_S in Hlast as ->. f_equal. rewrite drop_ge; [done|lia]. }
  rewrite E at 1. assert (length h1 = length h) by apply length_swapped.
  rewrite drop_app_le; [|rewrite length_take; lia]. by rewrite Permutation_app_comm.
Qed.

Lemma RemoveNext_ok h r :
  h !! 0%nat = Some empty_event -> heap_ordered h -> h !! Root = Some r ->
  exists h', RemoveNext h = Ok (r, h') /\ h' !! 0%nat = Some empty_event /\ heap_ordered h' /\
    drop 1 h ≡ₚ r :: drop 1 h'.
Proof.
  intros Hz Ho Hr. unfold RemoveNext. rewrite Hr. simpl.
  pose proof (lookup_lt_Some _ _ _ Hr) as Hl. unfold Root in Hl.
  destruct (lookup_lt_is_Some_2 h (Last h)) as [z Hlast]; [unfold Last; lia|].
  rewrite (Exch_ok _ _ _ _ _ Hr Hlast). simpl.
  pose proof (pop_back_perm h Root r z ltac:(unfold Root; lia) Hr Hlast) as Hperm.
  pose proof (replace_by_last h Root r z Ho ltac:(unfold Root; lia) Hr Hlast) as Hedge.
  set (h2 := pop_back (swapped h Root (Last h) r z)) in *.
  assert (h2 !! 0%nat = Some empty_event) as Hz2.
  { unfold h2, pop_back. rewrite lookup_take_lt by (rewrite length_swapped; lia).
    rewrite (proj2 (swapped_ok h Root (Last h) r z ltac:(unfold Root; lia) ltac:(unfold Last; lia) Hr Hlast)).
    done. }
  unfold TopDown. destruct (top_down_ok (S (length h2)) Root h2) as (h' & -> & Hp & Hz' & Ho').
  { unfold Root; lia. } { unfold Root; lia. }
  { split; [|unfold Root; lia]. intros i Hi Hpar. apply Hedge; [done|unfold Root; lia|done]. }
  exists h'. split; [done|]. split; [by rewrite Hz'|]. split; [done|].
  by rewrite Hperm, (drop_perm h2 h').
Qed.

Lemma in_drop1 (h : state) x : x ∈ drop 1 h -> exists i, (1 <= i)%nat /\ h !! i = Some x.
Proof.
  intros [i Hi]%list_elem_of_lookup. rewrite lookup_drop in Hi. exists (1 + i)%nat. split; [lia|done].
Qed.

Lemma root_exists (h : state) : drop 1 h <> [] -> exists r, h !! Root = Some r.
Proof. destruct h as [|d [|r t]]; simpl; [done..|]. intros _. by exists r. Qed.

#[local] Instance heap_event_list : EventList state := {|
  el_empty := HeapScheduler; el_Insert := Insert; el_IsEmpty := IsEmpty;
  el_PeekNext := PeekNext; el_RemoveNext := RemoveNext; el_Remove := Remove
|}.

#[local] Instance heap_laws : EventListLaws state.
Proof.
  refine {| contents := drop 1; el_ok := ok |}.
  - split; [|done]. split; [done|]. split; [|constructor].
    intros i Hi x p Hx. apply lookup_lt_Some in Hx. simpl in Hx. lia.
  - by intros s (_ & _ & ?).
  - intros e s (Hz & Ho & Hnd) Hf. destruct (Insert_ok e s Hz Ho) as (s' & He & Hz' & Ho' & Hp).
    exists s'. split; [done|]. split; [|done]. split; [done|]. split; [done|]. by eapply uids_insert.
  - intros s (Hz & _). destruct s as [|d [|e s]]; simpl; naive_solver.
  - intros s (Hz & Ho & Hnd) Hne. destruct (root_exists s Hne) as [r Hr].
    exists r. simpl. unfold PeekNext. rewrite Hr. split; [done|]. split.
    + apply list_elem_of_lookup. exists 0%nat. by rewrite lookup_drop.
    + intros e' (i & Hi & He')%in_drop1. by eapply root_min.
  - intros s (Hz & Ho & Hnd) Hne. destruct (root_exists s Hne) as [r Hr].
    destruct (RemoveNext_ok s r Hz Ho Hr) as (s' & He & Hz' & Ho' & Hp).
    exists r, s'. split; [done|]. pose proof (uids_remove _ _ _ Hnd Hp) as Hnd'.
    split; [done|]. split; [done|]. intros e' Hin. apply ev_le_lt.
    + destruct (in_drop1 s e') as (i & Hi & He'); [rewrite Hp; by right|]. by apply (root_min s Ho i).
    + rewrite Hp in Hnd. apply NoDup_cons in Hnd as [Hni _]. intros Heq.
      destruct Hni. rewrite Heq. by apply list_elem_of_fmap_2.
Defined.

(** ** [Remove]

    Sifting down always terminates and permutes the cells, so [Remove] takes
    out the event it is asked to.  It restores the heap order only when the
    cell moved into the hole does not come before the hole's parent: the code
    never sifts it up. *)

Lemma top_down_tail_perm idx h :
  (1 <= idx)%nat ->
  exists h', top_down_tail idx h = Ok h' /\ h' ≡ₚ h /\ h' !! 0%nat = h !! 0%nat.
Proof.
  intros Hidx. unfold top_down_tail.
  destruct (IsBottom idx h) eqn:Hb; [by exists h|].
  destruct (IsBottom (LeftChild idx) h) eqn:Hl; [by exists h|].
  apply IsBottom_false in Hb as [x Hx]. apply IsBottom_false in Hl as [y Hy].
  rewrite (IsLess_ok _ _ _ _ _ Hx Hy). simpl. destruct (event_ltb x y); [by exists h|].
  rewrite (Exch_ok _ _ _ _ _ Hx Hy). eexists; split; [done|].
  apply swapped_ok; unfold LeftChild in *; lia || done.
Qed.

Lemma top_down_perm fuel : forall idx h,
  (1 <= idx)%nat -> (length h - idx < fuel)%nat ->
  exists h', top_down_loop fuel idx h = Ok h' /\ h' ≡ₚ h /\ h' !! 0%nat = h !! 0%nat.
Proof.
  induction fuel as [|n IH]; intros idx h Hidx Hf; [lia|]. cbn [top_down_loop].
  destruct (IsBottom (RightChild idx) h) eqn:Hr; [by apply top_down_tail_perm|].
  apply IsBottom_false in Hr as [r Hr]. pose proof (lookup_lt_Some _ _ _ Hr) as Hlr.
  unfold RightChild in Hlr.
  destruct (lookup_lt_is_Some_2 h (LeftChild idx)) as [l Hl]; [unfold LeftChild; lia|].
  destruct (lookup_lt_is_Some_2 h idx) as [x Hx]; [lia|].
  unfold Smallest. rewrite (IsLess_ok _ _ _ _ _ Hl Hr). simpl.
  set (c := if event_ltb l r then LeftChild idx else RightChild idx).
  assert (exists y, h !! c = Some y) as [y Hy] by (unfold c; destruct (event_ltb l r); eauto).
  assert (idx < c)%nat as Hc.
  { unfold c, LeftChild, RightChild. destruct (event_ltb l r); lia. }
  clearbody c. rewrite (IsLess_ok _ _ _ _ _ Hx Hy). simpl.
  destruct (event_ltb x y); [by exists h|]. rewrite (Exch_ok _ _ _ _ _ Hx Hy). simpl.
  destruct (swapped_ok h idx c x y) as [Hp Hz]; [done|lia|done..|].
  destruct (IH c (swapped h idx c x y)) as (h' & -> & Hp' & Hz').
  { lia. } { rewrite length_swapped. apply lookup_lt_Some in Hy. lia. }
  exists h'. repeat split; [by rewrite Hp'|by rewrite Hz'].
Qed.

Lemma find_uid_some uid rest i j e :
  find_uid uid i rest = Some (j, e) -> (i <= j)%nat /\ rest !! (j - i)%nat = Some e /\ uid_of e = uid.
Proof.
  revert i. induction rest as [|x rest IH]; intros i; simpl; [done|].
  destruct (uid =? m_uid (key x)) eqn:E; intros H.
  - simplify_eq. bool_to_Z. rewrite Nat.sub_diag. done.
  - apply IH in H as (? & Hl & ?). split; [lia|]. split; [|done].
    replace (j - i)%nat with (S (j - S i)) by lia. done.
Qed.

Lemma find_uid_in e i rest :
  e ∈ rest -> NoDup (uid_of <$> rest) -> exists j, find_uid (uid_of e) i rest = Some (j, e).
Proof.
  revert i. induction rest as [|x rest IH]; intros i Hin Hnd; [by apply elem_of_nil in Hin|].
  apply NoDup_cons in Hnd as [Hx Hnd]. simpl. destruct (uid_of e =? m_uid (key x)) eqn:E; bool_to_Z.
  - apply elem_of_cons in Hin as [->|Hin]; [eauto|].
    destruct Hx. unfold uid_of at 1. rewrite <- E. by apply list_elem_of_fmap_2.
  - apply elem_of_cons in Hin as [->|Hin]; [by destruct E|]. by apply IH.
Qed.

(** What [Remove] does to a stored event, and when the result is a heap again. *)
Lemma heap_Remove_ok h e :
  ok h -> e ∈ drop 1 h ->
  exists i z h', h !! i = Some e /\ h !! Last h = Some z /\
    Remove e h = Ok h' /\ h' !! 0%nat = Some empty_event /\ drop 1 h ≡ₚ e :: drop 1 h' /\
    ((forall p, (2 <= i)%nat -> h !! Parent i = Some p -> ev_le p z) -> heap_ordered h').
Proof.
  intros (Hz0 & Ho & Hnd) Hin. destruct (find_uid_in e 1 (drop 1 h) Hin Hnd) as [i Hf].
  pose proof (find_uid_some _ _ _ _ _ Hf) as (Hi & Hlk & _). rewrite lookup_drop in Hlk.
  replace (1 + (i - 1))%nat with i in Hlk by lia. pose proof (lookup_lt_Some _ _ _ Hlk) as Hl.
  destruct (lookup_lt_is_Some_2 h (Last h)) as [z Hlast]; [unfold Last; lia|].
  exists i, z. unfold Remove. fold (uid_of e). rewrite Hf, Z.eqb_refl. simpl.
  rewrite (Exch_ok _ _ _ _ _ Hlk Hlast). simpl.
  pose proof (pop_back_perm h i e z Hi Hlk Hlast) as Hperm.
  pose proof (replace_by_last h i e z Ho Hi Hlk Hlast) as Hedge.
  set (h1 := swapped h i (Last h) e z) in *. set (h2 := pop_back h1) in *.
  assert (length h1 = length h) as Hl1 by apply length_swapped.
  assert (h2 !! 0%nat = Some empty_event) as Hz2.
  { unfold h2, pop_back. rewrite lookup_take_lt by lia. unfold h1.
    rewrite (proj2 (swapped_ok h i (Last h) e z Hi ltac:(unfold Last; lia) Hlk Hlast)). done. }
  destruct (top_down_perm (S (length h2)) i h2) as (h' & Htd & Hp & Hz'); [lia|lia|].
  exists h'. split; [done|]. split; [done|]. split; [done|]. split; [by rewrite Hz'|].
  split; [by rewrite Hperm, (drop_perm h2 h')|].
  intros Hpar. destruct (top_down_ok (S (length h2)) i h2) as (h'' & Htd' & _ & _ & Ho'); [lia|lia| |].
  - split.
    + intros j Hj Hjp. destruct (decide (j = i)) as [->|Hne]; [|by apply Hedge].
      intros u q. unfold h2, pop_back. rewrite !lookup_take_Some. unfold h1.
      rewrite !(lookup_swapped _ _ _ _ _ Hlk Hlast), length_swapped. fold (Last h).
      pose proof (parent_lt i). intros [Hu ?] [Hq ?].
      rewrite decide_True in Hu by done. simplify_eq.
      rewrite decide_False in Hq by lia. rewrite decide_False in Hq by lia. by apply Hpar.
    + intros j Hi2 Hj u q. rewrite Hj. unfold h2, pop_back. rewrite !lookup_take_Some. unfold h1.
      rewrite !(lookup_swapped _ _ _ _ _ Hlk Hlast), length_swapped. fold (Last h).
      pose proof (parent_lt i). pose proof (parent_lt j). intros [Hu ?] [Hq ?].
      assert (2 <= j)%nat by (destruct j as [|[|j]]; unfold Parent in *; simpl in *; lia).
      rewrite decide_False in Hu by lia. rewrite decide_False in Hu by lia.
      rewrite decide_False in Hq by lia. rewrite decide_False in Hq by lia.
      trans e; [by apply (Ho i)|]. apply (Ho j); [lia|done|congruence].
  - unfold TopDown in Htd'. rewrite Htd in Htd'. by simplify_eq.
Qed.

(** ** [Remove] does not keep the order

    Seven events are inserted; the one at time 7 is removed; the heap then
    delivers the event at time 4 before the one at time 3. *)

Definition ev_at (t : Z) : Event := mkEvent t (mkKey t t 0).

Definition insert_all (evs : list Event) : res state :=
  foldl (fun s e => h ← s; Insert e h) (Ok HeapScheduler) evs.

Definition seven : list Event := ev_at <$> [7; 3; 6; 5; 4; 2; 1].

Lemma insert_all_ok evs :
  NoDup (uid_of <$> evs) -> exists h, insert_all evs = Ok h /\ ok h /\ drop 1 h ≡ₚ evs.
Proof.
  unfold insert_all. induction evs as [|e evs IH] using rev_ind; intros Hnd.
  - exists HeapScheduler. split; [done|]. split; [|done]. exact (proj1 (law_empty (S := state))).
  - rewrite fmap_app in Hnd. apply NoDup_app in Hnd as (Hnd & Hf & _).
    destruct (IH Hnd) as (h & Hh & Hok & Hp). rewrite foldl_snoc, Hh. simpl.
    destruct (law_insert (EventListLaws := heap_laws) e h Hok) as (h' & Hi & Hok' & Hp').
    { simpl. rewrite Hp. intros Hin. apply (Hf _ Hin). by left. }
    exists h'. split; [done|]. split; [done|]. simpl in Hp'. by rewrite Hp', Hp, Permutation_app_comm.
Qed.

(** [HeapScheduler::Remove] loses the event order: starting from a heap
    built by insertions alone, removing one stored event leaves a heap from
    which [RemoveNext] delivers events out of time stamp order. *)
Theorem Remove_breaks_heap :
  exists h h' l, insert_all seven = Ok h /\ ok h /\ ev_at 7 ∈ drop 1 h /\
    Remove (ev_at 7) h = Ok h' /\ drain 6 h' = Ok l /\
    (m_ts ∘ key <$> l) = [1; 2; 4; 3; 5; 6].
Proof.
  destruct (insert_all_ok seven) as (h & Hh & Hok & Hp); [by apply (bool_decide_unpack _); vm_compute|].
  assert (insert_all seven = Ok (empty_event :: (ev_at <$> [1; 4; 2; 7; 5; 6; 3]))) as Hc
    by reflexivity.
  rewrite Hh in Hc. injection Hc as ->.
  eexists _, _, _. split; [done|]. split; [done|]. split; [rewrite Hp; by left|].
  split; [reflexivity|]. split; reflexivity.
Qed.
