(* ===== verification/MapScheduler.v ===== *)
(** * [MapScheduler] ([src/core/model/map-scheduler.cc])

    A [std::map] from event keys to event implementations, here the list of its
    bindings in key order.  The map compares keys with [operator <] only. *)

From S2P Require Import Prelude Scheduler ListScheduler.

Definition binding : Type := EventKey * Z.
Abbreviation state := (list binding).

(** [std::map::insert]: the new map, and whether the binding was inserted. *)
Fixpoint map_insert (k : EventKey) (v : Z) (m : state) : state * bool :=
  match m with
  | [] => ([(k, v)], true)
  | (k', v') :: m' =>
    if key_ltb k k' then ((k, v) :: m, true)
    else if key_ltb k' k then let '(r, b) := map_insert k v m' in ((k', v') :: r, b)
    else (m, false)
  end.

(** [std::map::find] followed by [erase]: the value and the map without it. *)
Fixpoint map_find_erase (k : EventKey) (m : state) : option (Z * state) :=
  match m with
  | [] => None
  | (k', v') :: m' =>
    if negb (key_ltb k k') && negb (key_ltb k' k) then Some (v', m')
    else '(v, r) ← map_find_erase k m'; Some (v, (k', v') :: r)
  end.

Definition Insert (ev : Event) (s : state) : res state :=
  let '(s', inserted) := map_insert (key ev) (impl ev) s in
  _ ← ns_assert inserted;
  mret s'.

Definition IsEmpty (s : state) : bool := match s with [] => true | _ => false end.

Definition PeekNext (s : state) : res Event :=
  match s with
  | [] => Err AssertFailed
  | (k, v) :: _ => Ok (mkEvent v k)
  end.

Definition RemoveNext (s : state) : res (Event * state) :=
  match s with
  | [] => Err AssertFailed
  | (k, v) :: s' => Ok (mkEvent v k, s')
  end.

(** [find] of an absent key gives [end ()], whose dereference is undefined. *)
Definition Remove (ev : Event) (s : state) : res state :=
  match map_find_erase (key ev) s with
  | None => Err UndefinedBehaviour
  | Some (v, s') => _ ← ns_assert (v =? impl ev); mret s'
  end.

(** ** The map refines the sorted list of [ListScheduler] *)

Definition to_event (b : binding) : Event := mkEvent b.2 b.1.
Definition events (s : state) : list Event := to_event <$> s.

Definition ok (s : state) : Prop := ListScheduler.ok (events s).

Lemma map_insert_list k v s :
  uid_of (mkEvent v k) ∉ (uid_of <$> events s) ->
  exists s', map_insert k v s = (s', true) /\ events s' = insert_before (mkEvent v k) (events s).
Proof.
  induction s as [|[k' v'] s IH]; intros Hf; simpl; [by eexists|].
  apply not_elem_of_cons in Hf as [Hne Hf].
  destruct (key_ltb k k') eqn:E; [by eexists|].
  assert (key_ltb k' k = true) as ->.
  { apply key_ltb_lt. change (ev_lt (mkEvent v' k') (mkEvent v k)).
    apply ev_le_lt; [by apply event_ltb_ge|]. intros Heq. by apply Hne. }
  destruct (IH Hf) as (s' & -> & He). eexists. split; [done|]. simpl. by rewrite He.
Qed.

Lemma map_find_erase_list e s :
  e ∈ events s -> NoDup (uid_of <$> events s) ->
  exists s', map_find_erase (key e) s = Some (impl e, s') /\ events s' = remove_uid (uid_of e) (events s).
Proof.
  induction s as [|[k' v'] s IH]; intros Hin Hnd; [by apply elem_of_nil in Hin|].
  apply NoDup_cons in Hnd as [Hx Hnd]. simpl in *.
  apply elem_of_cons in Hin as [->|Hin].
  - exists s. assert (key_ltb k' k' = false) as Hr.
    { apply (event_ltb_ge (mkEvent v' k') (mkEvent v' k')). reflexivity. }
    simpl. by rewrite Hr, Z.eqb_refl.
  - assert (uid_of (mkEvent v' k') <> uid_of e) as Hne.
    { intros Heq. destruct Hx. change (to_event (k', v')) with (mkEvent v' k').
      rewrite Heq. by apply list_elem_of_fmap_2. }
    destruct (IH Hin Hnd) as (s' & -> & He). exists ((k', v') :: s').
    change (to_event (k', v')) with (mkEvent v' k').
    rewrite (proj2 (Z.eqb_neq _ _) Hne). simpl. rewrite He. split; [|done].
    destruct (key_ltb (key e) k') eqn:E1; [done|]. destruct (key_ltb k' (key e)) eqn:E2; [done|].
    destruct Hne. apply (event_ltb_ge e (mkEvent v' k')) in E1.
    apply (event_ltb_ge (mkEvent v' k') e) in E2. unfold ev_le, ev_lt, key_lt in *.
    unfold uid_of. simpl in *. lia.
Qed.

#[local] Instance map_event_list : EventList state := {|
  el_empty := []; el_Insert := Insert; el_IsEmpty := IsEmpty;
  el_PeekNext := PeekNext; el_RemoveNext := RemoveNext; el_Remove := Remove
|}.

#[local] Instance map_laws : EventListLaws state.
Proof.
  refine {| contents := events; el_ok := ok |}.
  - split; [split; constructor|done].
  - by intros s [].
  - intros [v k] s Hok Hf. simpl. unfold Insert. simpl.
    destruct (map_insert_list k v s Hf) as (s' & -> & He). simpl. exists s'. split; [done|].
    destruct (law_insert (EventListLaws := list_laws) (mkEvent v k) (events s) Hok Hf)
      as (l & Hl & Hok' & Hp). simplify_eq/=. unfold ok. rewrite He.
    injection Hl as <-. done.
  - intros [|[k v] s] _; simpl; naive_solver.
  - intros [|[k v] s] Hok Hne; [done|]. exists (mkEvent v k). split; [done|].
    destruct (law_peek (EventListLaws := list_laws) (events ((k, v) :: s)) Hok) as (e & He & Hr); [done|].
    injection He as <-. exact Hr.
  - intros [|[k v] s] Hok Hne; [done|]. exists (mkEvent v k), s. split; [done|].
    destruct (law_removeNext (EventListLaws := list_laws) (events ((k, v) :: s)) Hok)
      as (e & s' & He & Hr); [done|].
    injection He as <- <-. exact Hr.
Defined.

#[local] Instance map_remove_law : EventListRemoveLaw state.
Proof.
  constructor. intros e s Hok Hin. pose proof Hok as [_ Hnd].
  destruct (map_find_erase_list e s Hin Hnd) as (s' & Hf & He).
  exists s'. simpl. unfold Remove. rewrite Hf, Z.eqb_refl. split; [done|].
  destruct (law_remove (EventListRemoveLaw := list_remove_law) e (events s) Hok Hin)
    as (l & Hl & Hok' & Hp).
  change (ListScheduler.Remove e (events s) = Ok l) in Hl. rewrite Remove_spec in Hl by done.
  simplify_eq. rewrite <- He in *. done.
Qed.
