(* ===== verification/PriorityQueueScheduler.v ===== *)
(** * [PriorityQueueScheduler] ([src/core/model/priority-queue-scheduler.cc])

    A [std::priority_queue] ordered by [std::greater].  The standard fixes its
    [top ()] to an element no other element precedes and leaves the arrangement
    of the underlying vector open; the model keeps the elements in insertion
    order and takes the first such element. *)

From S2P Require Import Prelude Scheduler.

(** The container [c] of [m_queue]. *)
Abbreviation state := (list Event).

(** [std::priority_queue::top ()] *)
Fixpoint first_min (e : Event) (l : state) : Event :=
  match l with
  | [] => e
  | x :: l' => if event_gtb e x then first_min x l' else first_min e l'
  end.

Definition top (s : state) : res Event :=
  match s with [] => Err UndefinedBehaviour | e :: s' => Ok (first_min e s') end.

(** [std::priority_queue::pop ()] *)
Definition pop (s : state) : res state :=
  t ← top s; mret (remove_uid (uid_of t) s).

Definition Insert (ev : Event) (s : state) : res state := Ok (s ++ [ev]).
Definition IsEmpty (s : state) : bool := match s with [] => true | _ => false end.
Definition PeekNext (s : state) : res Event := top s.

Definition RemoveNext (s : state) : res (Event * state) :=
  ev ← top s;
  s' ← pop s;
  mret (ev, s').

(** [EventPriorityQueue::remove]: [std::find] compares events by uid. *)
Definition remove (ev : Event) (s : state) : state * bool :=
  match list_find (fun e => event_eqb e ev = true) s with
  | Some (i, _) => (delete i s, true)
  | None => (s, false)
  end.

(** [Remove] ignores whether the event was found. *)
Definition Remove (ev : Event) (s : state) : res state := Ok (fst (remove ev s)).

(** ** A correct event list *)

Definition ok (s : state) : Prop := NoDup (uid_of <$> s).

Lemma first_min_spec e l :
  first_min e l ∈ e :: l /\ (forall x, x ∈ e :: l -> ev_le (first_min e l) x).
Proof.
  revert e. induction l as [|y l IH]; intros e; cbn [first_min].
  - split; [left|]. by intros x ->%list_elem_of_singleton.
  - unfold event_gtb. rewrite key_gtb_lt. change (key_ltb (key y) (key e)) with (event_ltb y e).
    destruct (event_ltb y e) eqn:E.
    + apply event_ltb_lt in E. destruct (IH y) as [Hin Hle]. split; [by right|].
      intros x [->|Hx]%elem_of_cons; [|by apply Hle].
      trans y; [apply Hle; left|by apply ev_lt_le].
    + apply event_ltb_ge in E. destruct (IH e) as [Hin Hle]. split; [set_solver|].
      intros x [->|[->|Hx]%elem_of_cons]%elem_of_cons; [apply Hle; left| |apply Hle; by right].
      trans e; [apply Hle; left|done].
Qed.

Lemma top_spec s :
  s <> [] -> exists e, top s = Ok e /\ e ∈ s /\ (forall x, x ∈ s -> ev_le e x).
Proof. destruct s as [|e s]; [done|]. intros _. eexists. split; [done|]. apply first_min_spec. Qed.

Lemma remove_find e s :
  e ∈ s -> NoDup (uid_of <$> s) -> remove e s = (remove_uid (uid_of e) s, true).
Proof.
  unfold remove. induction s as [|x s IH]; intros Hin Hnd; [by apply elem_of_nil in Hin|].
  apply NoDup_cons in Hnd as [Hx Hnd]. cbn [list_find remove_uid].
  unfold event_eqb, key_eqb in *. fold (uid_of x) (uid_of e).
  destruct (uid_of x =? uid_of e) eqn:E; [done|]. rewrite decide_False by done.
  apply elem_of_cons in Hin as [->|Hin]; [by rewrite Z.eqb_refl in E|].
  specialize (IH Hin Hnd). simpl. change (m_uid (key e)) with (uid_of e) in IH.
  destruct (list_find _ s) as [[i y]|]; simplify_eq/=; congruence.
Qed.

#[local] Instance pq_event_list : EventList state := {|
  el_empty := []; el_Insert := Insert; el_IsEmpty := IsEmpty;
  el_PeekNext := PeekNext; el_RemoveNext := RemoveNext; el_Remove := Remove
|}.

#[local] Instance pq_laws : EventListLaws state.
Proof.
  refine {| contents := id; el_ok := ok |}.
  - split; [constructor|done].
  - done.
  - intros e s Hok Hf. exists (s ++ [e]). split; [done|].
    assert (s ++ [e] ≡ₚ e :: s) as Hp by apply Permutation_app_comm.
    split; [|done]. by eapply uids_insert.
  - intros [|e s] _; simpl; naive_solver.
  - intros s _ Hne. by apply top_spec.
  - intros s Hok Hne. destruct (top_spec s Hne) as (e & He & Hin & Hle).
    pose proof (remove_uid_perm e s Hin Hok) as Hp.
    exists e, (remove_uid (uid_of e) s). simpl. unfold RemoveNext, pop. rewrite He. simpl.
    split; [done|]. pose proof (uids_remove _ _ _ Hok Hp). split; [done|]. split; [done|].
    intros x Hx. apply ev_le_lt; [by apply Hle, (remove_uid_subseteq (uid_of e))|].
    unfold ok in Hok. rewrite Hp in Hok. apply NoDup_cons in Hok as [Hni _].
    intros Heq. destruct Hni. apply list_elem_of_fmap. by exists x.
Defined.

#[local] Instance pq_remove_law : EventListRemoveLaw state.
Proof.
  constructor. intros e s Hok Hin. exists (remove_uid (uid_of e) s).
  pose proof (remove_uid_perm e s Hin Hok) as Hp. simpl. unfold Remove.
  rewrite remove_find by done. split; [done|]. split; [|done].
  exact (uids_remove _ _ _ Hok Hp).
Qed.
