(* ===== verification/SchedulerEquiv.v ===== *)
(** * The four schedulers refine one abstract priority queue

    The abstract queue is a set of events (a list without order) whose next
    event is the one no other event precedes.  [EventListLaws] is enough to prove
    that an implementation answers every call as the abstract queue does, so the
    choice of a scheduler does not change a simulation. *)

From S2P Require Import Prelude Scheduler.
From S2P Require ListScheduler HeapScheduler MapScheduler PriorityQueueScheduler.

Inductive call := CInsert (e : Event) | CIsEmpty | CPeekNext | CRemoveNext | CRemove (e : Event).
Inductive answer := ANone | ABool (b : bool) | AEvent (e : Event).

(** The abstract queue.  [None]: the call is outside the contract (an event
    whose uid is stored, a removal from an empty queue or of an absent event). *)
Definition spec_next (l : list Event) : option Event :=
  head (filter (fun e => Forall (ev_le e) l) l).

Definition spec_delete (e : Event) (l : list Event) : list Event := filter (fun x => x <> e) l.

Definition spec_call (c : call) (l : list Event) : option (answer * list Event) :=
  match c with
  | CInsert e => if decide (uid_of e ∈ uid_of <$> l) then None else Some (ANone, e :: l)
  | CIsEmpty => Some (ABool (bool_decide (l = [])), l)
  | CPeekNext => e ← spec_next l; Some (AEvent e, l)
  | CRemoveNext => e ← spec_next l; Some (AEvent e, spec_delete e l)
  | CRemove e => if decide (e ∈ l) then Some (ANone, spec_delete e l) else None
  end.

Fixpoint spec_calls (cs : list call) (l : list Event) : option (list answer * list Event) :=
  match cs with
  | [] => Some ([], l)
  | c :: r => '(a, l1) ← spec_call c l; '(rs, l2) ← spec_calls r l1; Some (a :: rs, l2)
  end.

Section refinement.
Context {S : Type} `{EventListLaws S}.

Definition do_call (c : call) (s : S) : res (answer * S) :=
  match c with
  | CInsert e => s' ← el_Insert e s; mret (ANone, s')
  | CIsEmpty => mret (ABool (el_IsEmpty s), s)
  | CPeekNext => e ← el_PeekNext s; mret (AEvent e, s)
  | CRemoveNext => '(e, s') ← el_RemoveNext s; mret (AEvent e, s')
  | CRemove e => s' ← el_Remove e s; mret (ANone, s')
  end.

Fixpoint do_calls (cs : list call) (s : S) : res (list answer * S) :=
  match cs with
  | [] => mret ([], s)
  | c :: r => '(a, s1) ← do_call c s; '(rs, s2) ← do_calls r s1; mret (a :: rs, s2)
  end.

(** The simulation relation. *)
Definition represents (s : S) (l : list Event) : Prop := el_ok s /\ contents s ≡ₚ l.

Lemma represents_uids s l : represents s l -> NoDup (uid_of <$> l).
Proof. intros [Hok Hp]. pose proof (law_uids s Hok) as Hu. by rewrite Hp in Hu. Qed.

Lemma uid_of_inj (l : list Event) a b :
  NoDup (uid_of <$> l) -> a ∈ l -> b ∈ l -> uid_of a = uid_of b -> a = b.
Proof.
  intros Hnd [i Hi]%list_elem_of_lookup [j Hj]%list_elem_of_lookup E.
  rewrite NoDup_alt in Hnd. assert (i = j) as ->; [|congruence].
  apply (Hnd i j (uid_of a)); rewrite list_lookup_fmap; [by rewrite Hi|rewrite Hj, E; done].
Qed.

Lemma minimum_unique (l : list Event) a b :
  NoDup (uid_of <$> l) -> a ∈ l -> b ∈ l -> Forall (ev_le a) l -> Forall (ev_le b) l -> a = b.
Proof.
  intros Hnd Ha Hb H1 H2. rewrite Forall_forall in H1, H2.
  apply (uid_of_inj l); try done.
  destruct (decide (uid_of a = uid_of b)) as [|Hne]; [done|].
  destruct (H2 a Ha). apply ev_le_lt; auto.
Qed.

Lemma head_elem {A} (l : list A) x : head l = Some x -> x ∈ l.
Proof. destruct l; [done|]. intros [= ->]. left. Qed.

Lemma spec_next_Some l e : spec_next l = Some e -> e ∈ l /\ Forall (ev_le e) l.
Proof. intros [Hm Hin]%head_elem%list_elem_of_filter. done. Qed.

Lemma spec_next_ok l e :
  NoDup (uid_of <$> l) -> e ∈ l -> Forall (ev_le e) l -> spec_next l = Some e.
Proof.
  intros Hnd He Hm. destruct (spec_next l) as [e'|] eqn:E.
  - apply spec_next_Some in E as [He' Hm']. f_equal. by apply (minimum_unique l).
  - unfold spec_next in E. apply head_None in E.
    assert (e ∈ filter (fun e => Forall (ev_le e) l) l) as Hf by by apply list_elem_of_filter.
    rewrite E in Hf. by apply elem_of_nil in Hf.
Qed.

Lemma filter_fresh e l : e ∉ l -> spec_delete e l = l.
Proof.
  unfold spec_delete. induction l as [|x l IH]; [done|]. intros [Hx Hl]%not_elem_of_cons.
  rewrite filter_cons_True by congruence. by rewrite IH.
Qed.

Lemma spec_delete_perm e l l' : NoDup (uid_of <$> l) -> l ≡ₚ e :: l' -> spec_delete e l ≡ₚ l'.
Proof.
  intros Hnd Hp. unfold spec_delete. rewrite Hp. rewrite filter_cons_False by naive_solver.
  fold (spec_delete e l'). rewrite filter_fresh; [done|].
  rewrite Hp in Hnd. apply NoDup_cons in Hnd as [Hn _]. intros Hin. by apply Hn, list_elem_of_fmap_2.
Qed.

(** Every call but [Remove]. *)
Definition plain (c : call) : Prop := match c with CRemove _ => False | _ => True end.

Lemma do_call_plain c s l a l' :
  plain c -> represents s l -> spec_call c l = Some (a, l') ->
  exists s', do_call c s = Ok (a, s') /\ represents s' l'.
Proof.
  intros Hc Hr Hs. pose proof (represents_uids s l Hr) as Hnd. destruct Hr as [Hok Hp].
  assert (forall e, spec_next l = Some e -> contents s <> []) as Hne.
  { intros e [He _]%spec_next_Some Hnil. rewrite Hnil in Hp. apply Permutation_nil_l in Hp. subst.
    by apply elem_of_nil in He. }
  destruct c as [e| | | |e]; simpl in Hs; [| | | |done].
  - destruct (decide _) as [|Hf]; [done|]. injection Hs as <- <-.
    destruct (law_insert e s Hok) as (s' & E & Hok' & Hp'); [by rewrite Hp|].
    exists s'. simpl. rewrite E. split; [done|]. split; [done|]. by rewrite Hp', Hp.
  - injection Hs as <- <-. exists s. split; [|done]. simpl. f_equal. f_equal. f_equal.
    destruct (el_IsEmpty s) eqn:E; symmetry.
    + apply law_isEmpty in E; [|done]. rewrite E in Hp. apply Permutation_nil_l in Hp. by apply bool_decide_eq_true.
    + apply bool_decide_eq_false. intros ->. apply Permutation_nil_r in Hp.
      apply (law_isEmpty s Hok) in Hp. congruence.
  - apply bind_Some in Hs as (e & E & [= <- <-]). specialize (Hne e E).
    destruct (law_peek s Hok Hne) as (e' & E' & Hin & Hmin). exists s. simpl. rewrite E'. simpl.
    assert (spec_next l = Some e') as E2.
    { apply spec_next_ok; [done|by rewrite <- Hp|]. apply Forall_forall. intros x Hx. apply Hmin. by rewrite Hp. }
    assert (e = e') as <- by congruence. done.
  - apply bind_Some in Hs as (e & E & [= <- <-]). specialize (Hne e E).
    destruct (law_removeNext s Hok Hne) as (e' & s' & E' & Hok' & Hp' & Hmin). exists s'. simpl. rewrite E'. simpl.
    assert (l ≡ₚ e' :: contents s') as Hl by by rewrite <- Hp.
    assert (spec_next l = Some e') as E2.
    { apply spec_next_ok; [done|rewrite Hl; by left|]. rewrite Hl. constructor; [done|].
      apply Forall_forall. intros x Hx. apply ev_lt_le, Hmin, Hx. }
    assert (e = e') as <- by congruence. split; [done|]. split; [done|]. symmetry. by apply spec_delete_perm.
Qed.

Lemma do_call_ok `{!EventListRemoveLaw S} c s l a l' :
  represents s l -> spec_call c l = Some (a, l') ->
  exists s', do_call c s = Ok (a, s') /\ represents s' l'.
Proof.
  intros Hr Hs. destruct c as [e| | | |e]; try by apply (do_call_plain _ s l).
  pose proof (represents_uids s l Hr) as Hnd. destruct Hr as [Hok Hp].
  simpl in Hs. destruct (decide _) as [Hin|]; [|done]. injection Hs as <- <-.
  destruct (law_remove e s Hok) as (s' & E & Hok' & Hp'); [by rewrite Hp|].
  exists s'. simpl. rewrite E. split; [done|]. split; [done|]. symmetry. apply spec_delete_perm; [done|].
  by rewrite <- Hp.
Qed.

Lemma do_calls_ok (P : call -> Prop) :
  (forall c s l a l', P c -> represents s l -> spec_call c l = Some (a, l') ->
     exists s', do_call c s = Ok (a, s') /\ represents s' l') ->
  forall cs s l rs l', Forall P cs -> represents s l -> spec_calls cs l = Some (rs, l') ->
    exists s', do_calls cs s = Ok (rs, s') /\ represents s' l'.
Proof.
  intros Hstep cs. induction cs as [|c cs IH]; intros s l rs l' HP Hr Hs; simpl in Hs.
  - injection Hs as <- <-. by exists s.
  - apply bind_Some in Hs as ([a l1] & E & Hs). apply bind_Some in Hs as ([rs1 l2] & E2 & [= <- <-]).
    apply Forall_cons in HP as [Hc HP].
    destruct (Hstep _ _ _ _ _ Hc Hr E) as (s1 & E1 & Hr1).
    destruct (IH _ _ _ _ HP Hr1 E2) as (s2 & E3 & Hr2).
    exists s2. simpl. rewrite E1. simpl. rewrite E3. done.
Qed.

Lemma represents_empty : represents el_empty [].
Proof. destruct law_empty as [Hok E]. split; [done|]. by rewrite E. Qed.
End refinement.

(** The four implementations. *)
Definition list_calls := do_calls (H := ListScheduler.list_event_list).
Definition map_calls := do_calls (H := MapScheduler.map_event_list).
Definition priority_queue_calls := do_calls (H := PriorityQueueScheduler.pq_event_list).
Definition heap_calls := do_calls (H := HeapScheduler.heap_event_list).

(** C20. The schedulers refine one abstract priority queue: on every sequence of
    calls within its contract, starting from a constructed scheduler, no
    scheduler fails and all answer what the abstract queue answers ([PeekNext]
    and [RemoveNext] give the first stored event in (time stamp, uid) order).
    For [HeapScheduler] the sequence must have no [Remove]. *)
Theorem schedulers_agree cs rs l :
  spec_calls cs [] = Some (rs, l) ->
  (exists s, list_calls cs [] = Ok (rs, s)) /\
  (exists s, map_calls cs [] = Ok (rs, s)) /\
  (exists s, priority_queue_calls cs [] = Ok (rs, s)) /\
  (Forall plain cs -> exists s, heap_calls cs HeapScheduler.HeapScheduler = Ok (rs, s)).
Proof.
  intros Hs.
  pose proof (do_calls_ok (H0 := ListScheduler.list_laws) (fun _ => True)
    (fun c s l a l' _ => do_call_ok (EventListRemoveLaw0 := ListScheduler.list_remove_law) c s l a l')) as H1.
  pose proof (do_calls_ok (H0 := MapScheduler.map_laws) (fun _ => True)
    (fun c s l a l' _ => do_call_ok (EventListRemoveLaw0 := MapScheduler.map_remove_law) c s l a l')) as H2.
  pose proof (do_calls_ok (H0 := PriorityQueueScheduler.pq_laws) (fun _ => True)
    (fun c s l a l' _ => do_call_ok (EventListRemoveLaw0 := PriorityQueueScheduler.pq_remove_law) c s l a l')) as H3.
  pose proof (do_calls_ok (H0 := HeapScheduler.heap_laws) plain do_call_plain) as H4.
  assert (Forall (fun _ : call => True) cs) as HT by (by apply Forall_true).
  split; [|split; [|split]].
  - destruct (H1 cs _ _ _ _ HT represents_empty Hs) as (s & ? & _). by exists s.
  - destruct (H2 cs _ _ _ _ HT represents_empty Hs) as (s & ? & _). by exists s.
  - destruct (H3 cs _ _ _ _ HT represents_empty Hs) as (s & ? & _). by exists s.
  - intros HP. destruct (H4 cs _ _ _ _ HP represents_empty Hs) as (s & ? & _). by exists s.
Qed.

Definition demo (ts uid : Z) : Event := mkEvent uid (mkKey ts uid 0).
Definition demo_calls : list call :=
  [CInsert (demo 9 4); CInsert (demo 2 5); CInsert (demo 2 6); CPeekNext; CRemoveNext; CIsEmpty; CRemoveNext].

Lemma schedulers_agree_witness :
  spec_calls demo_calls [] =
    Some ([ANone; ANone; ANone; AEvent (demo 2 5); AEvent (demo 2 5); ABool false; AEvent (demo 2 6)], [demo 9 4]) /\
  exists s, heap_calls demo_calls HeapScheduler.HeapScheduler =
    Ok ([ANone; ANone; ANone; AEvent (demo 2 5); AEvent (demo 2 5); ABool false; AEvent (demo 2 6)], s).
Proof.
  split; [vm_compute; reflexivity|].
  apply (schedulers_agree demo_calls _ [demo 9 4]); [vm_compute; reflexivity|].
  repeat constructor.
Defined.
