(* ===== verification/Simulator.v ===== *)
(** * [DefaultSimulatorImpl] ([src/core/model/default-simulator-impl.cc])

    The simulator is modelled over any event list ([EventListRemoveLaw]), the
    interface the concrete schedulers implement.  An [EventImpl] is an object
    identity ([0] is the null pointer); its only state is the [m_cancel] flag,
    kept here as the set [m_cancel] of cancelled objects.  Reference counts and
    the mutex around the foreign-thread queue are not modelled; whether the
    caller runs in the main thread is an argument.  The callback of an event,
    [EventImpl::Notify], is client code: the parameter [notify]. *)

From S2P Require Import Prelude Scheduler.

(** [class EventId] *)
Record EventId := mkEventId {
  ei_impl : Z; ei_ts : Z; ei_context : Z; ei_uid : Z }.

#[export] Instance EventId_eq_dec : EqDecision EventId.
Proof. solve_decision. Defined.

(** [enum UID] of [EventId] *)
Definition UID_INVALID : Z := 0.
Definition UID_DESTROY : Z := 2.
Definition UID_VALID : Z := 4.

(** [Simulator::NO_CONTEXT] *)
Definition NO_CONTEXT : Z := 2 ^ 32 - 1.

(** [operator ==] on event ids *)
Definition eventid_eqb (a b : EventId) : bool :=
  (ei_uid a =? ei_uid b) && (ei_context a =? ei_context b)
  && (ei_ts a =? ei_ts b) && (ei_impl a =? ei_impl b).

(** [struct EventWithContext] *)
Record EventWithContext := mkEWC { ewc_context : Z; ewc_timestamp : Z; ewc_event : Z }.

(** The members of [DefaultSimulatorImpl]; [m_hook] records the calls of
    [PreEventHook]. *)
Record sim (S : Type) := mkSim {
  m_events : S;
  m_uid : Z;
  m_currentUid : Z;
  m_currentTs : Z;
  m_currentContext : Z;
  m_eventCount : Z;
  m_unscheduledEvents : Z;
  m_stop : bool;
  m_destroyEvents : list EventId;
  m_eventsWithContext : list EventWithContext;
  m_eventsWithContextEmpty : bool;
  m_cancel : gset Z;
  m_hook : list Event }.
Arguments mkSim {S}.
Arguments m_events {S}. Arguments m_uid {S}. Arguments m_currentUid {S}.
Arguments m_currentTs {S}. Arguments m_currentContext {S}. Arguments m_eventCount {S}.
Arguments m_unscheduledEvents {S}. Arguments m_stop {S}. Arguments m_destroyEvents {S}.
Arguments m_eventsWithContext {S}. Arguments m_eventsWithContextEmpty {S}.
Arguments m_cancel {S}. Arguments m_hook {S}.

(** [int] arithmetic on [m_unscheduledEvents] *)
Definition i32_check (x : Z) : res Z :=
  if (- 2 ^ 31 <=? x) && (x <? 2 ^ 31) then Ok x else Err UndefinedBehaviour.

Section simulator.
Context {S : Type} `{EventList S}.
Implicit Types s : sim S.

(** *** Field updates *)

Definition set_events (v : S) s : sim S :=
  mkSim v (m_uid s) (m_currentUid s) (m_currentTs s) (m_currentContext s) (m_eventCount s)
    (m_unscheduledEvents s) (m_stop s) (m_destroyEvents s) (m_eventsWithContext s)
    (m_eventsWithContextEmpty s) (m_cancel s) (m_hook s).
Definition set_stop (v : bool) s : sim S :=
  mkSim (m_events s) (m_uid s) (m_currentUid s) (m_currentTs s) (m_currentContext s)
    (m_eventCount s) (m_unscheduledEvents s) v (m_destroyEvents s) (m_eventsWithContext s)
    (m_eventsWithContextEmpty s) (m_cancel s) (m_hook s).
Definition set_cancel (v : gset Z) s : sim S :=
  mkSim (m_events s) (m_uid s) (m_currentUid s) (m_currentTs s) (m_currentContext s)
    (m_eventCount s) (m_unscheduledEvents s) (m_stop s) (m_destroyEvents s)
    (m_eventsWithContext s) (m_eventsWithContextEmpty s) v (m_hook s).
Definition set_unscheduled (v : Z) s : sim S :=
  mkSim (m_events s) (m_uid s) (m_currentUid s) (m_currentTs s) (m_currentContext s)
    (m_eventCount s) v (m_stop s) (m_destroyEvents s) (m_eventsWithContext s)
    (m_eventsWithContextEmpty s) (m_cancel s) (m_hook s).
Definition set_destroy (l : list EventId) (uid : Z) s : sim S :=
  mkSim (m_events s) uid (m_currentUid s) (m_currentTs s) (m_currentContext s)
    (m_eventCount s) (m_unscheduledEvents s) (m_stop s) l (m_eventsWithContext s)
    (m_eventsWithContextEmpty s) (m_cancel s) (m_hook s).
Definition set_ewc (l : list EventWithContext) (b : bool) s : sim S :=
  mkSim (m_events s) (m_uid s) (m_currentUid s) (m_currentTs s) (m_currentContext s)
    (m_eventCount s) (m_unscheduledEvents s) (m_stop s) (m_destroyEvents s) l b
    (m_cancel s) (m_hook s).

(** *** Construction *)

Definition DefaultSimulatorImpl : sim S :=
  mkSim el_empty UID_VALID UID_INVALID 0 NO_CONTEXT 0 0 false [] [] true ∅ [].

(** [EventImpl::Cancel] and [IsCancelled] *)
Definition impl_cancel (i : Z) s : sim S := set_cancel ({[i]} ∪ m_cancel s) s.
Definition impl_cancelled (i : Z) s : bool := bool_decide (i ∈ m_cancel s).

(** *** Scheduling *)

(** The common tail of the scheduling functions: number the event, count it
    and insert it. *)
Definition insert_event (i ts context : Z) s : res (EventId * sim S) :=
  let ev := mkEvent i (mkKey ts (m_uid s) context) in
  n ← i32_check (m_unscheduledEvents s + 1);
  evs ← el_Insert ev (m_events s);
  mret (mkEventId i ts context (m_uid s),
        mkSim evs (u32 (m_uid s + 1)) (m_currentUid s) (m_currentTs s) (m_currentContext s)
          (m_eventCount s) n (m_stop s) (m_destroyEvents s) (m_eventsWithContext s)
          (m_eventsWithContextEmpty s) (m_cancel s) (m_hook s)).

(** [delay + TimeStep (m_currentTs)], then converted to [uint64_t] *)
Definition absolute_ts (delay : Z) s : res Z :=
  t ← i64_check (delay + to_signed 64 (m_currentTs s));
  mret (u64 t).

Definition Schedule (main : bool) (delay : Z) (i : Z) s : res (EventId * sim S) :=
  _ ← ns_assert main;
  _ ← ns_assert (0 <=? delay);
  ts ← absolute_ts delay s;
  insert_event i ts (m_currentContext s) s.

Definition ScheduleWithContext (main : bool) (context delay i : Z) s : res (sim S) :=
  if main then
    ts ← absolute_ts delay s;
    '(_, s') ← insert_event i ts context s;
    mret s'
  else
    mret (set_ewc (m_eventsWithContext s ++ [mkEWC context (u64 delay) i]) false s).

Definition ScheduleNow (main : bool) (i : Z) s : res (EventId * sim S) :=
  _ ← ns_assert main; Schedule main 0 i s.

Definition ScheduleDestroy (main : bool) (i : Z) s : res (EventId * sim S) :=
  _ ← ns_assert main;
  let id := mkEventId i (m_currentTs s) 0xffffffff 2 in
  mret (id, set_destroy (m_destroyEvents s ++ [id]) (u32 (m_uid s + 1)) s).

Definition Stop s : sim S := set_stop true s.

(** *** Inspecting and withdrawing events *)

Definition IsExpired (id : EventId) s : bool :=
  if ei_uid id =? UID_DESTROY then
    if (ei_impl id =? 0) || impl_cancelled (ei_impl id) s then true
    else negb (existsb (fun i => eventid_eqb i id) (m_destroyEvents s))
  else
    (ei_impl id =? 0)
    || (ei_ts id <? m_currentTs s)
    || ((ei_ts id =? m_currentTs s) && (ei_uid id <=? m_currentUid s))
    || impl_cancelled (ei_impl id) s.

(** [TimeStep (id.GetTs () - m_currentTs)]: an unsigned difference *)
Definition GetDelayLeft (id : EventId) s : Z :=
  if IsExpired id s then 0 else to_signed 64 (u64 (ei_ts id - m_currentTs s)).

Definition Cancel (id : EventId) s : sim S :=
  if IsExpired id s then s else impl_cancel (ei_impl id) s.

(** Erase the first destroy event equal to [id]. *)
Fixpoint erase_destroy (id : EventId) (l : list EventId) : list EventId :=
  match l with
  | [] => []
  | i :: l' => if eventid_eqb i id then l' else i :: erase_destroy id l'
  end.

Definition Remove (id : EventId) s : res (sim S) :=
  if ei_uid id =? UID_DESTROY then
    mret (set_destroy (erase_destroy id (m_destroyEvents s)) (m_uid s) s)
  else if IsExpired id s then mret s
  else
    let event := mkEvent (ei_impl id) (mkKey (ei_ts id) (ei_uid id) (ei_context id)) in
    evs ← el_Remove event (m_events s);
    n ← i32_check (m_unscheduledEvents s - 1);
    mret (set_unscheduled n (impl_cancel (ei_impl id) (set_events evs s))).

(** *** Execution *)

Fixpoint move_ewc (l : list EventWithContext) s : res (sim S) :=
  match l with
  | [] => Ok s
  | e :: l' =>
    '(_, s') ← insert_event (ewc_event e) (u64 (m_currentTs s + ewc_timestamp e)) (ewc_context e) s;
    move_ewc l' s'
  end.

Definition ProcessEventsWithContext s : res (sim S) :=
  if m_eventsWithContextEmpty s then Ok s
  else move_ewc (m_eventsWithContext s) (set_ewc [] true s).

Context (notify : Z -> sim S -> res (sim S)).

(** [EventImpl::Invoke] *)
Definition Invoke (i : Z) s : res (sim S) :=
  if impl_cancelled i s then Ok s else notify i s.

(** [ProcessOneEvent] up to the call of [Invoke] *)
Definition begin_event (next : Event) (evs : S) s : res (sim S) :=
  let k := key next in
  _ ← ns_assert (m_currentTs s <=? m_ts k);
  n ← i32_check (m_unscheduledEvents s - 1);
  mret (mkSim evs (m_uid s) (Scheduler.m_uid k) (m_ts k) (m_context k)
          (u64 (m_eventCount s + 1)) n (m_stop s) (m_destroyEvents s)
          (m_eventsWithContext s) (m_eventsWithContextEmpty s) (m_cancel s)
          (m_hook s ++ [next])).

Definition ProcessOneEvent s : res (sim S) :=
  '(next, evs) ← el_RemoveNext (m_events s);
  s1 ← begin_event next evs s;
  s2 ← Invoke (impl next) s1;
  ProcessEventsWithContext s2.

Definition IsFinished s : bool := el_IsEmpty (m_events s) || m_stop s.

Fixpoint run_loop (fuel : nat) s : res (sim S) :=
  if IsFinished s then Ok s
  else match fuel with
       | O => Err OutOfFuel
       | Datatypes.S n => s' ← ProcessOneEvent s; run_loop n s'
       end.

Definition Run (fuel : nat) s : res (sim S) :=
  s1 ← ProcessEventsWithContext s;
  s2 ← run_loop fuel (set_stop false s1);
  _ ← ns_assert (negb (el_IsEmpty (m_events s2)) || (m_unscheduledEvents s2 =? 0));
  mret s2.

(** [Destroy]: the list is consumed from the front; an event may add more. *)
Fixpoint Destroy (fuel : nat) s : res (sim S) :=
  match m_destroyEvents s with
  | [] => Ok s
  | id :: l =>
    match fuel with
    | O => Err OutOfFuel
    | Datatypes.S n =>
      s' ← Invoke (ei_impl id) (set_destroy l (m_uid s) s);
      Destroy n s'
    end
  end.

(** [DoDispose] without the reference counts *)
Definition DoDispose (fuel : nat) s : res (sim S) :=
  s1 ← ProcessEventsWithContext s;
  _ ← drain fuel (m_events s1);
  mret (set_events el_empty s1).
End simulator.

(** [SetScheduler]: the events move one by one to a fresh event list. *)
Section set_scheduler.
Context {S T : Type} `{EventList S} `{EventList T}.

Fixpoint transfer (fuel : nat) (from : S) (to : T) : res T :=
  if el_IsEmpty from then Ok to
  else match fuel with
       | O => Err OutOfFuel
       | Datatypes.S n =>
         '(next, from') ← el_RemoveNext from;
         to' ← el_Insert next to;
         transfer n from' to'
       end.

Definition SetScheduler (fuel : nat) (s : sim S) : res (sim T) :=
  evs ← transfer fuel (m_events s) el_empty;
  mret (mkSim evs (m_uid s) (m_currentUid s) (m_currentTs s) (m_currentContext s)
          (m_eventCount s) (m_unscheduledEvents s) (m_stop s) (m_destroyEvents s)
          (m_eventsWithContext s) (m_eventsWithContextEmpty s) (m_cancel s) (m_hook s)).
End set_scheduler.
