(* ===== verification/SimulatorSpec.v ===== *)
(** * Correctness of [DefaultSimulatorImpl]

    The invariant [inv] relates the simulator to the ghost list [G] of every
    event ever scheduled.  It is preserved by every call client code can make
    ([api_step]) and by the main loop; from it follow the ordering of executed
    events, the absence of assertion failures, and the meaning of
    [IsExpired]. *)

From S2P Require ListScheduler MapScheduler PriorityQueueScheduler.
From S2P Require Import Prelude Scheduler Simulator.

(** The id [Schedule] returns for an event. *)
Definition id_of (e : Event) : EventId :=
  mkEventId (impl e) (m_ts (key e)) (m_context (key e)) (uid_of e).

Section spec.
Context {S : Type} `{EventListRemoveLaw S}.
Implicit Types s : sim S.

(** The event is later than the one being executed. *)
Definition after s (e : Event) : Prop :=
  m_currentTs s < m_ts (key e) \/ (m_currentTs s = m_ts (key e) /\ m_currentUid s < uid_of e).

Record inv (G : list Event) s : Prop := {
  inv_ok : el_ok (m_events s);
  inv_now : 0 <= m_currentTs s < 2 ^ 63;
  inv_uid : 4 <= m_uid s < 2 ^ 32 /\ 0 <= m_currentUid s < m_uid s;
  inv_issued e : e ∈ G -> 4 <= uid_of e < m_uid s /\ 0 <= m_ts (key e) < 2 ^ 63 /\ impl e <> 0;
  inv_sub e : e ∈ contents (m_events s) -> e ∈ G /\ after s e;
  inv_pending e : e ∈ G -> after s e -> impl e ∉ m_cancel s -> e ∈ contents (m_events s);
  inv_count : m_unscheduledEvents s = Z.of_nat (length (contents (m_events s)));
  inv_small : m_unscheduledEvents s < 2 ^ 31;
  inv_ewc : m_eventsWithContext s = [] /\ m_eventsWithContextEmpty s = true
}.

Lemma inv_init : inv [] (DefaultSimulatorImpl (S := S)).
Proof.
  destruct law_empty as [Hok Hnil].
  constructor; simpl; rewrite ?Hnil; try done; unfold UID_VALID, UID_INVALID; try lia;
    by intros e ?%elem_of_nil.
Qed.

(** ** One more event *)

Lemma insert_event_inv G s i ts c :
  inv G s -> i <> 0 -> m_currentTs s <= ts < 2 ^ 63 ->
  m_uid s < 2 ^ 32 - 1 -> m_unscheduledEvents s < 2 ^ 31 - 1 ->
  let e := mkEvent i (mkKey ts (m_uid s) c) in
  exists s', insert_event i ts c s = Ok (id_of e, s') /\ inv (e :: G) s' /\
    contents (m_events s') ≡ₚ e :: contents (m_events s) /\
    m_currentTs s' = m_currentTs s /\ m_currentUid s' = m_currentUid s /\
    m_cancel s' = m_cancel s /\ m_hook s' = m_hook s /\ m_uid s' = m_uid s + 1.
Proof.
  intros [Hok Hnow Huid His Hsub Hpe Hc Hsm Hewc] Hi Hts Hu Hn e.
  unfold insert_event. fold e.
  destruct (law_insert e (m_events s) Hok) as (evs & -> & Hok' & Hp).
  { intros (x & Hx & Hin)%list_elem_of_fmap. apply Hsub in Hin as [Hin _].
    apply His in Hin. unfold uid_of in Hx at 1; simpl in Hx. lia. }
  unfold i32_check. rewrite (proj2 (Z.leb_le _ _)), (proj2 (Z.ltb_lt _ _)) by lia. simpl.
  rewrite wrap_small by (unfold in_range; lia).
  eexists; split; [reflexivity|]. split; [|simpl; done].
  constructor; simpl; try done; try lia.
  - intros x [->|Hx]%elem_of_cons; [unfold uid_of; simpl; lia|]. apply His in Hx. lia.
  - intros x. rewrite Hp. intros [->|Hx]%elem_of_cons.
    + split; [left|]. unfold after, uid_of; simpl. lia.
    + apply Hsub in Hx as [? ?]. split; [by right|done].
  - intros x [->|Hx]%elem_of_cons Ha Hnc; rewrite Hp; [left|right]. by apply Hpe.
  - rewrite Hp. simpl. lia.
Qed.

Lemma absolute_ts_ok s d :
  0 <= m_currentTs s < 2 ^ 63 -> 0 <= d -> d + m_currentTs s < 2 ^ 63 ->
  absolute_ts d s = Ok (d + m_currentTs s).
Proof.
  intros Hn Hd Hs. unfold absolute_ts, to_signed. rewrite wrap_small by (unfold in_range; lia).
  rewrite (proj2 (Z.ltb_lt _ _)) by lia. unfold i64_check, int64_min, int64_max.
  rewrite !(proj2 (Z.leb_le _ _)) by lia. simpl. by rewrite wrap_small by (unfold in_range; lia).
Qed.

(** ** What client code can do

    [room s]: a uid and a count are left for one more event; a simulation
    that schedules 2^32 - 4 events wraps [m_uid], which is outside the model's
    theorems. *)

Definition room s : Prop := m_uid s < 2 ^ 32 - 1 /\ m_unscheduledEvents s < 2 ^ 31 - 1.

Inductive api_step : sim S * list Event -> sim S * list Event -> Prop :=
| api_schedule G s s' d i id :
    room s -> i <> 0 -> d + m_currentTs s < 2 ^ 63 -> Schedule true d i s = Ok (id, s') ->
    api_step (s, G) (s', mkEvent i (mkKey (d + m_currentTs s) (m_uid s) (m_currentContext s)) :: G)
| api_schedule_context G s s' c d i :
    room s -> i <> 0 -> 0 <= d -> d + m_currentTs s < 2 ^ 63 ->
    ScheduleWithContext true c d i s = Ok s' ->
    api_step (s, G) (s', mkEvent i (mkKey (d + m_currentTs s) (m_uid s) c) :: G)
| api_destroy G s s' i id :
    room s -> ScheduleDestroy true i s = Ok (id, s') -> api_step (s, G) (s', G)
| api_cancel G s e : e ∈ G -> api_step (s, G) (Cancel (id_of e) s, G)
| api_remove G s s' e : e ∈ G -> Remove (id_of e) s = Ok s' -> api_step (s, G) (s', G)
| api_stop G s : api_step (s, G) (Stop s, G).

(** ** Expiry *)

Lemma expired_iff G s e :
  inv G s -> e ∈ G ->
  IsExpired (id_of e) s = false <->
  e ∈ contents (m_events s) /\ impl e ∉ m_cancel s.
Proof.
  intros Hinv He. destruct (inv_issued _ _ Hinv e He) as (Hu & Ht & Hi).
  unfold IsExpired, id_of; simpl. rewrite (proj2 (Z.eqb_neq _ _)) by (unfold UID_DESTROY; lia).
  unfold impl_cancelled. rewrite !orb_false_iff, bool_decide_eq_false, Z.eqb_neq, Z.ltb_ge,
    andb_false_iff, Z.eqb_neq, Z.leb_gt.
  split.
  - intros (((_ & Hle) & Hlt) & Hc). split; [|done]. apply (inv_pending _ _ Hinv); [done| |done].
    unfold after. lia.
  - intros [Hin Hc]. apply (inv_sub _ _ Hinv) in Hin as [_ Ha]. unfold after in Ha.
    repeat split; done || lia.
Qed.

(** ** Client code preserves the invariant *)

(** The number of stored events; it grows by at most one per uid issued. *)
Definition stored s : Z := Z.of_nat (length (contents (m_events s))).

(** What a client step never touches, and how it may grow the state. *)
Definition extends (a b : sim S * list Event) : Prop :=
  m_currentTs b.1 = m_currentTs a.1 /\ m_currentUid b.1 = m_currentUid a.1 /\
  m_hook b.1 = m_hook a.1 /\ a.2 ⊆ b.2 /\ m_cancel a.1 ⊆ m_cancel b.1 /\
  (forall x, x ∈ b.2 -> x ∈ a.2 \/ after a.1 x) /\
  stored b.1 - stored a.1 <= m_uid b.1 - m_uid a.1.

#[export] Instance extends_preorder : PreOrder extends.
Proof.
  split; [intros ?; repeat split; auto; lia|].
  intros x y z (E1&E2&?&?&?&?&?) (?&?&?&?&?&Hn&?).
  split; [congruence|]. split; [congruence|]. split; [congruence|].
  split; [by etrans|]. split; [by etrans|]. split; [|lia].
  intros e He. destruct (Hn e He) as [?|Ha]; [auto|]. right. unfold after in *. congruence.
Qed.

Lemma extends_same G s s' :
  m_currentTs s' = m_currentTs s -> m_currentUid s' = m_currentUid s ->
  m_hook s' = m_hook s -> m_cancel s ⊆ m_cancel s' ->
  stored s' - stored s <= m_uid s' - m_uid s -> extends (s, G) (s', G).
Proof. intros. repeat split; simpl; auto. Qed.

Lemma extends_new G s s' i ts c :
  0 <= m_currentUid s < m_uid s -> m_currentTs s <= ts ->
  m_currentTs s' = m_currentTs s -> m_currentUid s' = m_currentUid s ->
  m_cancel s' = m_cancel s -> m_hook s' = m_hook s ->
  stored s' - stored s <= m_uid s' - m_uid s ->
  extends (s, G) (s', mkEvent i (mkKey ts (m_uid s) c) :: G).
Proof.
  intros Hu Ht E1 E2 E3 E4 E5. do 3 (split; [done|]). split; [intros x Hx; by right|].
  split; [simpl; by rewrite E3|]. split; [simpl|done].
  intros x [->|?]%elem_of_cons; [|auto]. right. unfold after, uid_of; simpl. lia.
Qed.

Lemma remove_inv G s s' e :
  inv G s -> e ∈ G -> Remove (id_of e) s = Ok s' ->
  inv G s' /\ extends (s, G) (s', G) /\
  (e ∈ contents (m_events s) -> impl e ∉ m_cancel s ->
   contents (m_events s) ≡ₚ e :: contents (m_events s')).
Proof.
  intros Hinv He. pose proof (inv_issued _ _ Hinv e He) as (Hu & Ht & Hi).
  pose proof (expired_iff G s e Hinv He) as Hex.
  unfold Remove. rewrite (proj2 (Z.eqb_neq _ _)) by (unfold UID_DESTROY; simpl; lia).
  destruct (IsExpired (id_of e) s) eqn:E.
  { intros [= <-]. split; [done|]. split; [reflexivity|]. intros Hin Hc.
    discriminate (proj2 Hex (conj Hin Hc)). }
  destruct (proj1 Hex eq_refl) as [Hin Hc].
  destruct Hinv as [Hok Hnow Huid His Hsub Hpe Hcnt Hsm Hewc].
  replace (mkEvent _ _) with e by (by destruct e as [? []]).
  destruct (law_remove e (m_events s) Hok Hin) as (evs & -> & Hok' & Hp). simpl.
  pose proof (Permutation_length Hp) as Hl. simpl in Hl.
  unfold i32_check. rewrite (proj2 (Z.leb_le _ _)), (proj2 (Z.ltb_lt _ _)) by lia.
  intros [= <-]. split; [|split; [|by intros _ _]].
  - constructor; simpl; try done; try lia.
    + intros x Hx. apply Hsub. rewrite Hp. by right.
    + intros x Hx Ha Hnc. assert (x ∈ contents (m_events s)) as Hxc by (apply Hpe; set_solver).
      rewrite Hp in Hxc. apply elem_of_cons in Hxc as [->|?]; [set_solver|done].
  - apply extends_same; simpl; [done..|set_solver|]. unfold stored. simpl. lia.
Qed.

Lemma api_step_inv a b :
  api_step a b -> inv a.2 a.1 -> inv b.2 b.1 /\ extends a b.
Proof.
  destruct 1 as [G s s' d i id [Hr1 Hr2] Hi Hd HS|G s s' c d i [Hr1 Hr2] Hi Hd0 Hd HS
    |G s s' i id [Hr1 Hr2] HS|G s e He|G s s' e He HS|G s]; simpl; intros Hinv;
    pose proof (inv_now _ _ Hinv) as Hnow.
  - unfold Schedule in HS. simpl in HS. apply bind_ok in HS as ([] & Hd0%ns_assert_true & HS).
    bool_to_Z. rewrite absolute_ts_ok in HS by lia. simpl in HS.
    destruct (insert_event_inv G s i (d + m_currentTs s) (m_currentContext s))
      as (s1 & Hs1 & Hinv1 & Hp1 & ? & ? & ? & ? & Hu1); try done; [lia|].
    rewrite Hs1 in HS. injection HS as <- <-. split; [done|].
    apply extends_new; auto; [by apply (inv_uid _ _ Hinv)|lia|].
    unfold stored. rewrite Hp1, Hu1. simpl. lia.
  - unfold ScheduleWithContext in HS. rewrite absolute_ts_ok in HS by lia. simpl in HS.
    destruct (insert_event_inv G s i (d + m_currentTs s) c)
      as (s1 & Hs1 & Hinv1 & Hp1 & ? & ? & ? & ? & Hu1); try done; [lia|].
    rewrite Hs1 in HS. injection HS as <-. split; [done|].
    apply extends_new; auto; [by apply (inv_uid _ _ Hinv)|lia|].
    unfold stored. rewrite Hp1, Hu1. simpl. lia.
  - unfold ScheduleDestroy in HS. injection HS as <- <-.
    destruct Hinv as [Hok _ Huid His Hsub Hpe Hcnt Hsm Hewc].
    rewrite wrap_small by (unfold in_range; lia).
    split; [|apply extends_same; unfold stored; simpl; done || lia].
    constructor; simpl; try done; try lia. intros x Hx. apply His in Hx. lia.
  - unfold Cancel. destruct (IsExpired _ _); [by split|]. split; [|apply extends_same; unfold stored; simpl; done || set_solver || lia].
    destruct Hinv as [Hok _ Huid His Hsub Hpe Hcnt Hsm Hewc].
    constructor; simpl; try done. intros x Hx Ha Hnc. apply Hpe; [done..|set_solver].
  - by destruct (remove_inv G s s' e Hinv He HS) as (? & ? & _).
  - split; [|apply extends_same; unfold stored; simpl; done || set_solver || lia]. by destruct Hinv.
Qed.

Lemma api_steps_inv a b :
  rtc api_step a b -> inv a.2 a.1 -> inv b.2 b.1 /\ extends a b.
Proof.
  induction 1 as [a|a b c Hab Hbc IH]; intros Ha; [by split|].
  destruct (api_step_inv a b Hab Ha) as [Hb He]. destruct (IH Hb) as [Hc He'].
  split; [done|]. by etrans.
Qed.

(** ** The main loop *)

Lemma isEmpty_false s :
  el_ok (m_events s) -> el_IsEmpty (m_events s) = false <-> contents (m_events s) <> [].
Proof. intros Hok. rewrite <- law_isEmpty by done. by destruct (el_IsEmpty _). Qed.

(** Taking the next event off the list. *)
Lemma begin_inv G s :
  inv G s -> contents (m_events s) <> [] ->
  exists next evs s1, el_RemoveNext (m_events s) = Ok (next, evs) /\
    begin_event next evs s = Ok s1 /\ inv G s1 /\
    contents (m_events s) ≡ₚ next :: contents (m_events s1) /\
    (forall e, e ∈ contents (m_events s1) -> ev_lt next e) /\
    after s next /\ next ∈ G /\
    m_currentTs s1 = m_ts (key next) /\ m_currentUid s1 = uid_of next /\
    m_hook s1 = m_hook s ++ [next] /\ m_cancel s1 = m_cancel s /\ m_uid s1 = m_uid s.
Proof.
  intros [Hok Hnow Huid His Hsub Hpe Hcnt Hsm Hewc] Hne.
  destruct (law_removeNext (m_events s) Hok Hne) as (next & evs & Hr & Hok' & Hp & Hmin).
  destruct (Hsub next) as [HinG Ha]; [rewrite Hp; by left|].
  pose proof (His next HinG) as (Hu & Ht & Hi). pose proof (Permutation_length Hp) as Hl.
  simpl in Hl. exists next, evs. unfold begin_event.
  rewrite (proj2 (Z.leb_le _ _)) by (unfold after in Ha; lia). simpl.
  unfold i32_check. rewrite (proj2 (Z.leb_le _ _)), (proj2 (Z.ltb_lt _ _)) by lia. simpl.
  eexists. split; [done|]. split; [reflexivity|]. split; [|simpl; by repeat split].
  constructor; simpl; try done; try lia.
  - unfold uid_of in Hu. lia.
  - intros e He. split; [apply Hsub; rewrite Hp; by right|].
    apply Hmin in He. unfold after, ev_lt, key_lt, uid_of in *. simpl. lia.
  - intros e HeG Hae Hec. assert (e ∈ contents (m_events s)) as Hin.
    { apply Hpe; [done| |done]. unfold after, uid_of in *. simpl in *. lia. }
    rewrite Hp in Hin. apply elem_of_cons in Hin as [->|?]; [|done].
    unfold after, uid_of in Hae. simpl in Hae. lia.
Qed.

(** The history is in order, ends no later than now, and misses no event that
    is due and was not cancelled. *)
Record history (G : list Event) s : Prop := {
  hist_sorted : StronglySorted ev_lt (m_hook s);
  hist_past e : e ∈ m_hook s -> e ∈ G /\ ~ after s e;
  hist_all e : e ∈ G -> ~ after s e -> e ∈ m_hook s \/ impl e ∈ m_cancel s
}.

Lemma history_init : history [] (DefaultSimulatorImpl (S := S)).
Proof. constructor; simpl; [constructor|by intros e ?%elem_of_nil..]. Qed.

Lemma history_extends G s G' s' :
  extends (s, G) (s', G') -> history G s -> history G' s'.
Proof.
  intros (Et & Eu & Eh & HG & Hc & Hn & _) [Hs Hp Ha]. simpl in *.
  assert (forall e, after s' e <-> after s e) as Haft by (intros e; unfold after; by rewrite Et, Eu).
  constructor.
  - by rewrite Eh.
  - intros e. rewrite Eh, Haft. intros He. destruct (Hp e He). auto.
  - intros e He. rewrite Eh, Haft. intros Hna. destruct (Hn e He) as [HeG|]; [|done].
    destruct (Ha e HeG Hna); auto.
Qed.

Lemma history_begin G s s1 next :
  inv G s -> history G s -> inv G s1 -> after s next -> next ∈ G ->
  contents (m_events s) ≡ₚ next :: contents (m_events s1) ->
  m_currentTs s1 = m_ts (key next) -> m_currentUid s1 = uid_of next ->
  m_hook s1 = m_hook s ++ [next] -> m_cancel s1 = m_cancel s -> history G s1.
Proof.
  intros Hinv [Hs Hp Ha] Hinv1 Han HnG Hperm Et Eu Eh Ec. constructor.
  - rewrite Eh. apply StronglySorted_app. split; [|split]; [|done|repeat constructor].
    intros x y Hx ->%list_elem_of_singleton. apply Hp in Hx as [_ Hx].
    unfold after, ev_lt, key_lt, uid_of in *. lia.
  - intros e. rewrite Eh, elem_of_app, list_elem_of_singleton. unfold after. rewrite Et, Eu.
    intros [He| ->]; [|split; [done|lia]]. apply Hp in He as [? He]. split; [done|].
    unfold after, uid_of in *. lia.
  - intros e HeG Hna. rewrite Eh, elem_of_app, Ec.
    destruct (decide (after s e)) as [Hae|Hae]; [|destruct (Ha e HeG Hae); auto].
    destruct (decide (impl e ∈ m_cancel s)) as [|Hnc]; [auto|].
    pose proof (inv_pending _ _ Hinv e HeG Hae Hnc) as Hin. rewrite Hperm in Hin.
    apply elem_of_cons in Hin as [->|Hin]; [left; right; left|].
    by destruct (inv_sub _ _ Hinv1 e Hin).
Qed.
End spec.

(** ** Running with client code *)

Section run.
Context {S : Type} `{EventListRemoveLaw S}.
Context (notify : Z -> sim S -> res (sim S)).
Implicit Types s : sim S.

(** Callbacks act on the simulator through its public interface only. *)
Definition uses_api : Prop := forall G i s s',
  inv G s -> notify i s = Ok s' -> exists G', rtc api_step (s, G) (s', G').

Lemma invoke_inv G i s s' :
  uses_api -> inv G s -> Invoke notify i s = Ok s' -> exists G', inv G' s' /\ extends (s, G) (s', G').
Proof using All.
  intros Hapi Hinv. unfold Invoke. destruct (impl_cancelled i s).
  - intros [= <-]. exists G. split; [done|reflexivity].
  - intros Hn. destruct (Hapi _ _ _ _ Hinv Hn) as [G' Hr].
    destruct (api_steps_inv _ _ Hr Hinv) as [? ?]. by exists G'.
Qed.

Lemma no_ewc G s : inv G s -> ProcessEventsWithContext s = Ok s.
Proof using All. intros Hinv. unfold ProcessEventsWithContext. by rewrite (proj2 (inv_ewc _ _ Hinv)). Qed.

(** What one iteration of the main loop does. *)
Lemma process_one G s :
  uses_api -> inv G s -> history G s -> contents (m_events s) <> [] ->
  (exists s' G' next, ProcessOneEvent notify s = Ok s' /\ inv G' s' /\ history G' s' /\
     G ⊆ G' /\ stored s' + 1 - stored s <= m_uid s' - m_uid s /\ m_hook s' = m_hook s ++ [next] /\ after s next /\
     next ∈ contents (m_events s) /\ (forall e, e ∈ contents (m_events s) -> ev_le next e) /\
     m_currentTs s' = m_ts (key next) /\
     (impl next ∈ m_cancel s -> contents (m_events s) ≡ₚ next :: contents (m_events s')))
  \/ (exists i s1 f, inv G s1 /\ notify i s1 = Err f /\ ProcessOneEvent notify s = Err f).
Proof using All.
  intros Hapi Hinv Hh Hne.
  destruct (begin_inv G s Hinv Hne) as
    (next & evs & s1 & Hr & Hb & Hinv1 & Hp & Hmin & Ha & HnG & Et & Eu & Eh & Ec & Ei).
  pose proof (history_begin G s s1 next Hinv Hh Hinv1 Ha HnG Hp Et Eu Eh Ec) as Hh1.
  unfold ProcessOneEvent. rewrite Hr. simpl. rewrite Hb. simpl.
  destruct (Invoke notify (impl next) s1) as [s2|f] eqn:Hi; simpl.
  - left. destruct (invoke_inv G _ _ _ Hapi Hinv1 Hi) as (G' & Hinv2 & Hext).
    rewrite (no_ewc G' s2 Hinv2). exists s2, G', next. split; [done|]. split; [done|].
    split; [by eapply history_extends|]. pose proof Hext as (E1 & _ & E3 & HG & _ & _ & E7). simpl in *.
    split; [intros e He; by apply HG|]. split.
    { apply Permutation_length in Hp. unfold stored in *. simpl in Hp. lia. }
    split; [by rewrite E3|]. split; [done|]. split; [rewrite Hp; by left|].
    split. { intros e. rewrite Hp. intros [->|He]%elem_of_cons; [done|]. by apply ev_lt_le, Hmin. }
    split; [by rewrite E1|]. intros Hc. rewrite <- Ec in Hc.
    unfold Invoke, impl_cancelled in Hi. rewrite bool_decide_eq_true_2 in Hi by done.
    by injection Hi as <-.
  - right. unfold Invoke in Hi. destruct (impl_cancelled _ _); [done|]. by exists (impl next), s1, f.
Qed.

Lemma run_loop_inv fuel : forall G s,
  uses_api -> inv G s -> history G s ->
  (exists s' G', run_loop notify fuel s = Ok s' /\ G ⊆ G' /\ inv G' s' /\ history G' s' /\ IsFinished s' = true)
  \/ (exists f, run_loop notify fuel s = Err f /\
       (f = OutOfFuel \/ exists i G1 s1, inv G1 s1 /\ notify i s1 = Err f)).
Proof using All.
  induction fuel as [|n IH]; intros G s Hapi Hinv Hh; simpl;
    destruct (IsFinished s) eqn:Hf; try (left; by exists s, G).
  { right. exists OutOfFuel. auto. }
  destruct (process_one G s Hapi Hinv Hh) as
    [(s' & G' & next & -> & Hinv' & Hh' & HG & _)|(i & s1 & f & Hi1 & Hn & ->)]; simpl.
  - unfold IsFinished in Hf. apply orb_false_iff in Hf as [He _].
    by apply isEmpty_false in He; [|apply (inv_ok _ _ Hinv)].
  - destruct (IH G' s' Hapi Hinv' Hh') as [(s2 & G2 & ? & ? & ?)|?]; [left|by right].
    exists s2, G2. split; [done|]. split; [by etrans|done].
  - right. exists f. split; [done|]. right. eauto.
Qed.

Lemma inv_set_stop G s b : inv G s -> inv G (set_stop b s).
Proof using All. by intros []. Qed.
Lemma history_set_stop G s b : history G s -> history G (set_stop b s).
Proof using All. by intros []. Qed.

Lemma run_inv fuel G s :
  uses_api -> inv G s -> history G s ->
  (exists s' G', Run notify fuel s = Ok s' /\ G ⊆ G' /\ inv G' s' /\ history G' s' /\ IsFinished s' = true)
  \/ (exists f, Run notify fuel s = Err f /\
       (f = OutOfFuel \/ exists i G1 s1, inv G1 s1 /\ notify i s1 = Err f)).
Proof using All.
  intros Hapi Hinv Hh. unfold Run. rewrite (no_ewc G s Hinv). simpl.
  destruct (run_loop_inv fuel G (set_stop false s) Hapi) as
    [(s' & G' & -> & HG & Hinv' & Hh' & Hf)|(f & -> & Hf)];
    [by apply inv_set_stop|by apply history_set_stop| |right; by exists f].
  left. exists s', G'. simpl. destruct (el_IsEmpty (m_events s')) eqn:He; [|done].
  apply law_isEmpty in He; [|apply (inv_ok _ _ Hinv')].
  by rewrite (inv_count _ _ Hinv'), He.
Qed.

Lemma run_loop_terminates N n : forall G s,
  uses_api -> inv G s -> history G s ->
  (forall G i s, inv G s -> m_uid s <= Z.of_nat N ->
     exists s', notify i s = Ok s' /\ m_uid s' <= Z.of_nat N) ->
  m_uid s <= Z.of_nat N -> stored s + Z.of_nat N - m_uid s <= Z.of_nat n ->
  exists s' G', run_loop notify n s = Ok s' /\ inv G' s' /\ IsFinished s' = true.
Proof using All.
  induction n as [|n IH]; intros G s Hapi Hinv Hh Htot HN Hn; simpl;
    destruct (IsFinished s) eqn:Hf; try (by exists s, G);
    unfold IsFinished in Hf; apply orb_false_iff in Hf as [He _];
    apply isEmpty_false in He; [|apply (inv_ok _ _ Hinv)| |apply (inv_ok _ _ Hinv)].
  { unfold stored in Hn. destruct (contents (m_events s)); simpl in Hn; done || lia. }
  assert (exists s', ProcessOneEvent notify s = Ok s' /\ m_uid s' <= Z.of_nat N) as (s' & Hs' & HN').
  { destruct (begin_inv G s Hinv He) as
      (next & evs & s1 & Hr & Hb & Hinv1 & _ & _ & _ & _ & _ & _ & _ & _ & Ei).
    unfold ProcessOneEvent. rewrite Hr. simpl. rewrite Hb. simpl.
    assert (exists s2, Invoke notify (impl next) s1 = Ok s2 /\ m_uid s2 <= Z.of_nat N) as (s2 & Hi & Hu).
    { unfold Invoke. destruct (impl_cancelled _ _); [exists s1; split; [done|lia]|].
      apply (Htot G); [done|lia]. }
    rewrite Hi. simpl. destruct (invoke_inv G _ _ _ Hapi Hinv1 Hi) as (G2 & Hinv2 & _).
    exists s2. by rewrite (no_ewc G2 s2 Hinv2). }
  destruct (process_one G s Hapi Hinv Hh He) as
    [(s2 & G2 & next & Hs2 & Hinv2 & Hh2 & _ & Hst & _)|(i & s1 & f & _ & _ & Hbad)]; [|congruence].
  rewrite Hs' in *. injection Hs2 as <-. simpl. apply (IH G2); try done. lia.
Qed.

(** C19. Starting from a freshly constructed simulator on which client code
    made any sequence of public calls, [Run] either executes client code that
    itself fails, or (given fuel) returns without any assertion failing, and
    the events it executed are in strictly increasing (time stamp, uid)
    order; if it was not stopped, every event that was scheduled and never
    cancelled or removed has been executed. *)
Theorem Run_executes_in_order s0 G0 fuel :
  uses_api -> rtc api_step (DefaultSimulatorImpl, []) (s0, G0) ->
  (exists s G, Run notify fuel s0 = Ok s /\ StronglySorted ev_lt (m_hook s) /\
     (forall e, e ∈ m_hook s -> e ∈ G) /\
     (m_stop s = false -> forall e, e ∈ G -> e ∈ m_hook s \/ impl e ∈ m_cancel s) /\ G0 ⊆ G)
  \/ (exists f, Run notify fuel s0 = Err f /\
       (f = OutOfFuel \/ exists i G1 s1, inv G1 s1 /\ notify i s1 = Err f)).
Proof using All.
  intros Hapi Hr. destruct (api_steps_inv _ _ Hr inv_init) as [Hinv Hext].
  pose proof (history_extends _ _ _ _ Hext history_init) as Hh.
  destruct (run_inv fuel G0 s0 Hapi Hinv Hh) as [(s & G & HR & HG & Hinv' & Hh' & Hf)|?]; [|by right].
  left. exists s, G. split; [done|]. split; [by apply (hist_sorted _ _ Hh')|].
  split; [intros e He; by apply (hist_past _ _ Hh')|]. split; [|done]. intros Hst e He.
  unfold IsFinished in Hf. rewrite Hst, orb_false_r in Hf.
  apply law_isEmpty in Hf; [|apply (inv_ok _ _ Hinv')].
  destruct (decide (after s e)) as [Ha|Ha]; [|by apply (hist_all _ _ Hh')].
  destruct (decide (impl e ∈ m_cancel s)) as [|Hc]; [auto|].
  pose proof (inv_pending _ _ Hinv' e He Ha Hc) as Hin. rewrite Hf in Hin. by apply elem_of_nil in Hin.
Qed.

(** If client code never fails and never schedules past uid [N], [Run]
    returns: [N] iterations of the main loop are enough. *)
Theorem Run_terminates s0 G0 N :
  uses_api -> rtc api_step (DefaultSimulatorImpl, []) (s0, G0) ->
  m_uid s0 <= Z.of_nat N ->
  (forall G i s, inv G s -> m_uid s <= Z.of_nat N ->
     exists s', notify i s = Ok s' /\ m_uid s' <= Z.of_nat N) ->
  exists s, Run notify N s0 = Ok s.
Proof using All.
  intros Hapi Hr HN Htot. destruct (api_steps_inv _ _ Hr inv_init) as [Hinv Hext].
  pose proof (history_extends _ _ _ _ Hext history_init) as Hh.
  assert (stored s0 <= m_uid s0) as Hst.
  { destruct Hext as (_ & _ & _ & _ & _ & _ & Hst). unfold stored in Hst at 2. simpl in Hst.
    rewrite (proj2 law_empty) in Hst. unfold UID_VALID in Hst. simpl in Hst. lia. }
  unfold Run. rewrite (no_ewc G0 s0 Hinv). simpl.
  destruct (run_loop_terminates N N G0 (set_stop false s0)) as (s' & G' & -> & Hinv' & Hf); auto.
  { by apply inv_set_stop. } { by apply history_set_stop. } { unfold stored in *. simpl. lia. }
  simpl. destruct (el_IsEmpty (m_events s')) eqn:He; [|by exists s'].
  apply law_isEmpty in He; [|apply (inv_ok _ _ Hinv')].
  rewrite (inv_count _ _ Hinv'), He. by exists s'.
Qed.
End run.

(** ** Replacing the scheduler *)

Section set_scheduler.
Context {S T : Type} `{EventListLaws S} `{EventListLaws T}.

Lemma transfer_ok n : forall (from : S) (to : T),
  el_ok from -> el_ok to -> NoDup (uid_of <$> contents from ++ contents to) ->
  (length (contents from) <= n)%nat ->
  exists to', transfer n from to = Ok to' /\ el_ok to' /\
    contents to' ≡ₚ contents from ++ contents to.
Proof using All.
  induction n as [|n IH]; intros from to Hf Ht Hnd Hl; simpl;
    destruct (el_IsEmpty from) eqn:He;
    try (apply law_isEmpty in He; [|done]; rewrite He; by exists to).
  - destruct (contents from) eqn:Hc; [|simpl in Hl; lia].
    apply law_isEmpty in Hc; [congruence|done].
  - destruct (law_removeNext from Hf) as (e & from' & -> & Hf' & Hp & _).
    { intros Hc. apply law_isEmpty in Hc; [congruence|done]. }
    simpl. rewrite Hp in Hnd, Hl. simpl in Hnd, Hl. apply NoDup_cons in Hnd as [Hni Hnd].
    destruct (law_insert e to Ht) as (to' & -> & Ht' & Hp').
    { intros Hin. apply Hni. rewrite fmap_app, elem_of_app. by right. }
    simpl. destruct (IH from' to' Hf' Ht') as (to2 & -> & Ht2 & Hp2).
    { rewrite Hp', <- Permutation_middle. simpl. by constructor. } { lia. }
    exists to2. split; [done|]. split; [done|].
    by rewrite Hp2, Hp', Hp, <- Permutation_middle.
Qed.

(** [SetScheduler] loses no event and no order: the new event list holds
    the same events and delivers them in the same order as the old one. *)
Theorem SetScheduler_keeps_events (s : sim S) n :
  el_ok (m_events s) -> (length (contents (m_events s)) <= n)%nat ->
  exists s' : sim T, SetScheduler n s = Ok s' /\ el_ok (m_events s') /\
    contents (m_events s') ≡ₚ contents (m_events s) /\
    drain n (m_events s') = drain n (m_events s).
Proof using All.
  intros Hok Hn. destruct law_empty as [Ht Hnil].
  destruct (transfer_ok n (m_events s) el_empty Hok Ht) as (t & Htr & Hokt & Hp); [|done|].
  { rewrite Hnil, app_nil_r. by apply law_uids. }
  rewrite Hnil, app_nil_r in Hp. unfold SetScheduler. rewrite Htr. simpl.
  eexists. split; [reflexivity|]. split; [done|]. split; [done|].
  symmetry. apply drain_agree; done.
Qed.
End set_scheduler.

Section expiry.
Context {S : Type} `{EventListRemoveLaw S}.

(** Whatever client code did since the simulator was constructed, an id
    returned by a scheduling function is reported as expired exactly when
    its event is no longer in the event list or was cancelled. *)
Theorem IsExpired_iff (s : sim S) G e :
  rtc api_step (DefaultSimulatorImpl, []) (s, G) -> e ∈ G ->
  IsExpired (id_of e) s = false <-> e ∈ contents (m_events s) /\ impl e ∉ m_cancel s.
Proof using All.
  intros Hr. destruct (api_steps_inv _ _ Hr inv_init) as [Hinv _]. by apply expired_iff.
Qed.

(** [Simulator::Remove] on the id of a pending event takes exactly that
    event out of the list, cancels it, and expires the id. *)
Theorem Remove_pending (s : sim S) G e :
  inv G s -> e ∈ contents (m_events s) -> impl e ∉ m_cancel s ->
  exists s', Remove (id_of e) s = Ok s' /\ inv G s' /\ IsExpired (id_of e) s' = true /\
    contents (m_events s) ≡ₚ e :: contents (m_events s').
Proof using All.
  intros Hinv Hin Hc. destruct (inv_sub _ _ Hinv e Hin) as [HeG _].
  destruct (Remove (id_of e) s) as [s'|f] eqn:HR.
  - destruct (remove_inv G s s' e Hinv HeG HR) as (Hinv' & _ & Hp). specialize (Hp Hin Hc).
    exists s'. split; [done|]. split; [done|]. split; [|done].
    destruct (IsExpired (id_of e) s') eqn:E; [done|]. apply (expired_iff G s' e Hinv' HeG) in E as [Hin' _].
    pose proof (law_uids _ (inv_ok _ _ Hinv)) as Hnd. rewrite Hp in Hnd.
    apply NoDup_cons in Hnd as [Hni _]. destruct Hni. apply list_elem_of_fmap. by exists e.
  - exfalso. pose proof (proj2 (expired_iff G s e Hinv HeG) (conj Hin Hc)) as Hex.
    destruct (inv_issued _ _ Hinv e HeG) as (Hu & _ & _).
    unfold Remove in HR. rewrite (proj2 (Z.eqb_neq _ _)), Hex in HR by (unfold UID_DESTROY; simpl; lia).
    replace (mkEvent _ _) with e in HR by (by destruct e as [? []]).
    destruct (law_remove e _ (inv_ok _ _ Hinv) Hin) as (evs & Hr & _ & Hp). rewrite Hr in HR. simpl in HR.
    apply Permutation_length in Hp. simpl in Hp. pose proof (inv_count _ _ Hinv). pose proof (inv_small _ _ Hinv).
    unfold i32_check in HR. rewrite (proj2 (Z.leb_le _ _)), (proj2 (Z.ltb_lt _ _)) in HR by lia. done.
Qed.
End expiry.

(** * Concrete simulations

    The theorems of [SimulatorSpec] applied to a small client over
    [MapScheduler]: event 1 schedules event 2, event 2 does nothing. *)

Import ListScheduler MapScheduler PriorityQueueScheduler.
Import Simulator.


#[local] Existing Instance map_event_list.
#[local] Existing Instance map_laws.
#[local] Existing Instance map_remove_law.

Definition msim : Type := sim (list binding).

Definition client (i : Z) (s : msim) : res msim :=
  if (i =? 1) && (m_uid s <? 10) && (m_currentTs s <? 100) && (m_unscheduledEvents s <? 10) then
    '(_, s') ← Schedule true 5 2 s; mret s'
  else mret s.

Lemma client_uses_api : uses_api client.
Proof.
  intros G i s s' Hinv. unfold client.
  destruct (_ && _) eqn:E; [|intros [= <-]; by exists G].
  bool_to_Z. intros ([id s1] & HS & [= ->])%bind_ok. eexists. apply rtc_once.
  apply (api_schedule G s s' 5 2 id); [split; lia|done|lia|done].
Qed.

Lemma client_total G i (s : msim) :
  inv G s -> m_uid s <= 20 -> exists s', client i s = Ok s' /\ m_uid s' <= 20.
Proof.
  intros Hinv Hu. unfold client. destruct (_ && _) eqn:E; [|by exists s]. bool_to_Z.
  pose proof (inv_now _ _ Hinv). unfold Schedule. simpl. rewrite absolute_ts_ok by lia. simpl.
  destruct (insert_event_inv G s 2 (5 + m_currentTs s) (m_currentContext s) Hinv)
    as (s1 & -> & _ & _ & _ & _ & _ & _ & Hu1); try lia.
  simpl. exists s1. split; [done|lia].
Qed.

(** Two calls of [Schedule] from outside any event. *)
Definition after_schedule (d i : Z) (s : msim) : msim :=
  match Schedule true d i s with Ok (_, s') => s' | Err _ => s end.

Definition start1 : msim := after_schedule 3 1 DefaultSimulatorImpl.
Definition start : msim := after_schedule 1 2 start1.

Definition first : Event := mkEvent 1 (mkKey 3 4 NO_CONTEXT).
Definition second : Event := mkEvent 2 (mkKey 1 5 NO_CONTEXT).
Definition start_events : list Event := [second; first].

Lemma start_reachable : rtc api_step (DefaultSimulatorImpl, []) (start, start_events).
Proof.
  apply (rtc_l _ _ (start1, [first])).
  - apply (api_schedule [] DefaultSimulatorImpl start1 3 1 (id_of first));
      [split; reflexivity|discriminate|reflexivity|vm_compute; reflexivity].
  - apply rtc_once. apply (api_schedule [first] start1 start 1 2 (id_of second));
      [split; reflexivity|discriminate|reflexivity|vm_compute; reflexivity].
Qed.

Lemma Run_executes_in_order_witness :
  (m_ts ∘ key <$> m_hook (match Run client 20 start with Ok s => s | Err _ => start end)) = [1; 3; 8]
  /\ ((exists s G, Run client 20 start = Ok s /\ StronglySorted ev_lt (m_hook s) /\
       (forall e, e ∈ m_hook s -> e ∈ G) /\
       (m_stop s = false -> forall e, e ∈ G -> e ∈ m_hook s \/ impl e ∈ m_cancel s) /\ start_events ⊆ G)
    \/ (exists f, Run client 20 start = Err f /\
         (f = OutOfFuel \/ exists i G1 s1, inv G1 s1 /\ client i s1 = Err f))).
Proof.
  split; [vm_compute; reflexivity|].
  exact (Run_executes_in_order client start start_events 20 client_uses_api start_reachable).
Defined.

Lemma Run_terminates_witness : exists s, Run client 20 start = Ok s.
Proof.
  apply (Run_terminates client start start_events 20 client_uses_api start_reachable).
  - vm_compute. discriminate.
  - exact client_total.
Defined.

Lemma IsExpired_iff_witness :
  IsExpired (id_of first) start = false <->
  first ∈ contents (m_events start) /\ 1 ∉ m_cancel start.
Proof.
  apply (IsExpired_iff start start_events first start_reachable).
  right. left.
Defined.

Lemma start_inv : inv start_events start.
Proof. exact (proj1 (api_steps_inv _ _ start_reachable inv_init)). Qed.

Lemma Remove_pending_witness :
  exists s', Remove (id_of first) start = Ok s' /\
    inv start_events s' /\ IsExpired (id_of first) s' = true /\
    contents (m_events start) ≡ₚ first :: contents (m_events s').
Proof.
  apply (Remove_pending start start_events); [exact start_inv| |].
  - right. left.
  - apply not_elem_of_empty.
Defined.

(** Moving the same events to a [PriorityQueueScheduler]. *)
Lemma SetScheduler_keeps_events_witness :
  exists s' : sim (list Event), @SetScheduler _ _ map_event_list pq_event_list 2 start = Ok s' /\
    el_ok (EventListLaws := pq_laws) (m_events s') /\
    contents (EventListLaws := pq_laws) (m_events s') ≡ₚ contents (m_events start) /\
    @drain _ pq_event_list 2 (m_events s') = drain 2 (m_events start).
Proof.
  apply (@SetScheduler_keeps_events _ _ map_event_list map_laws pq_event_list pq_laws start 2).
  - exact (inv_ok _ _ start_inv).
  - apply le_n.
Defined.
