(* ===== verification/Queue.v ===== *)
(** * Packet queues ([src/network/utils/queue-size.{h,cc}], [queue.{h,cc}],
      [drop-tail-queue.h])

    [QueueSize], the statistics of [QueueBase], the protected operations of
    [Queue<Item>] and the [DropTailQueue].  The type of items and their
    [GetSize] are parameters.  A list position is an index.  The trace sources
    a queue fires are recorded in [m_traces]; [TracedValue]s are plain values. *)

From S2P Require Import Prelude.

Inductive QueueSizeUnit := PACKETS | BYTES.

#[export] Instance QueueSizeUnit_eq_dec : EqDecision QueueSizeUnit.
Proof. solve_decision. Defined.

(** [class QueueSize]; the value is a [uint32_t]. *)
Record QueueSize := mkQueueSize { m_unit : QueueSizeUnit; m_value : Z }.

(** The comparison operators abort on different units. *)
Definition qs_compare (f : Z -> Z -> bool) (a b : QueueSize) : res bool :=
  _ ← ns_require (bool_decide (m_unit a = m_unit b));
  mret (f (m_value a) (m_value b)).

Definition qs_lt : QueueSize -> QueueSize -> res bool := qs_compare Z.ltb.
Definition qs_le : QueueSize -> QueueSize -> res bool := qs_compare Z.leb.
Definition qs_gt : QueueSize -> QueueSize -> res bool := qs_compare Z.gtb.
Definition qs_ge : QueueSize -> QueueSize -> res bool := qs_compare Z.geb.
Definition qs_eq : QueueSize -> QueueSize -> res bool := qs_compare Z.eqb.
Definition qs_ne : QueueSize -> QueueSize -> res bool := qs_compare (fun x y => negb (x =? y)).

(** [operator +] of a size and an item of [size] bytes. *)
Definition qs_add (q : QueueSize) (size : Z) : QueueSize :=
  match m_unit q with
  | PACKETS => mkQueueSize PACKETS (u32 (m_value q + 1))
  | BYTES => mkQueueSize BYTES (u32 (m_value q + size))
  end.

(** What the trace sources report. *)
Inductive trace (Item : Type) :=
| TraceEnqueue (i : Item)
| TraceDequeue (i : Item)
| TraceDrop (i : Item)
| TraceDropBeforeEnqueue (i : Item)
| TraceDropAfterDequeue (i : Item).
Arguments TraceEnqueue {Item} i. Arguments TraceDequeue {Item} i. Arguments TraceDrop {Item} i.
Arguments TraceDropBeforeEnqueue {Item} i. Arguments TraceDropAfterDequeue {Item} i.

(** The counters of [QueueBase] that [ResetStatistics] clears. *)
Record stats := mkStats {
  m_nTotalReceivedBytes : Z;
  m_nTotalReceivedPackets : Z;
  m_nTotalDroppedBytes : Z;
  m_nTotalDroppedBytesBeforeEnqueue : Z;
  m_nTotalDroppedBytesAfterDequeue : Z;
  m_nTotalDroppedPackets : Z;
  m_nTotalDroppedPacketsBeforeEnqueue : Z;
  m_nTotalDroppedPacketsAfterDequeue : Z }.

Definition stats_zero : stats := mkStats 0 0 0 0 0 0 0 0.

(** [Queue<Item>]: the members of [QueueBase] and the list of items. *)
Record queue (Item : Type) := mkQueue {
  m_packets : list Item;
  m_nBytes : Z;
  m_nPackets : Z;
  m_stats : stats;
  m_maxSize : QueueSize;
  m_traces : list (trace Item) }.
Arguments mkQueue {Item}. Arguments m_packets {Item}. Arguments m_nBytes {Item}.
Arguments m_nPackets {Item}. Arguments m_stats {Item}. Arguments m_maxSize {Item}.
Arguments m_traces {Item}.

Section queue.
Context {Item : Type} (GetSize : Item -> Z).
Implicit Types (q : queue Item) (item : Item).

(** *** [QueueBase] *)

Definition QueueBase : queue Item :=
  mkQueue [] 0 0 stats_zero (mkQueueSize PACKETS (2 ^ 32 - 1)) [].

Definition IsEmpty q : bool := m_nPackets q =? 0.
Definition GetNPackets q : Z := m_nPackets q.
Definition GetNBytes q : Z := m_nBytes q.

Definition GetCurrentSize q : QueueSize :=
  match m_unit (m_maxSize q) with
  | PACKETS => mkQueueSize PACKETS (m_nPackets q)
  | BYTES => mkQueueSize BYTES (m_nBytes q)
  end.

Definition GetTotalReceivedBytes q : Z := m_nTotalReceivedBytes (m_stats q).
Definition GetTotalReceivedPackets q : Z := m_nTotalReceivedPackets (m_stats q).
Definition GetTotalDroppedBytes q : Z := m_nTotalDroppedBytes (m_stats q).
Definition GetTotalDroppedBytesBeforeEnqueue q : Z := m_nTotalDroppedBytesBeforeEnqueue (m_stats q).
Definition GetTotalDroppedBytesAfterDequeue q : Z := m_nTotalDroppedBytesAfterDequeue (m_stats q).
Definition GetTotalDroppedPackets q : Z := m_nTotalDroppedPackets (m_stats q).
Definition GetTotalDroppedPacketsBeforeEnqueue q : Z :=
  m_nTotalDroppedPacketsBeforeEnqueue (m_stats q).
Definition GetTotalDroppedPacketsAfterDequeue q : Z :=
  m_nTotalDroppedPacketsAfterDequeue (m_stats q).

Definition set_stats (st : stats) q : queue Item :=
  mkQueue (m_packets q) (m_nBytes q) (m_nPackets q) st (m_maxSize q) (m_traces q).

Definition ResetStatistics q : queue Item := set_stats stats_zero q.

(** [resetStats], added for the load balancer. *)
Definition resetStats q : queue Item :=
  let st := m_stats q in
  set_stats (mkStats (m_nTotalReceivedBytes st) (m_nTotalReceivedPackets st)
    (m_nTotalDroppedBytes st) 0 (m_nTotalDroppedBytesAfterDequeue st)
    (m_nTotalDroppedPackets st) (m_nTotalDroppedPacketsBeforeEnqueue st)
    (m_nTotalDroppedPacketsAfterDequeue st)) q.

Definition set_max (size : QueueSize) q : queue Item :=
  mkQueue (m_packets q) (m_nBytes q) (m_nPackets q) (m_stats q) size (m_traces q).

(** The size is stored before the check. *)
Definition SetMaxSize (size : QueueSize) q : res (queue Item) :=
  if m_value size =? 0 then Ok q
  else
    let q' := set_max size q in
    lt ← qs_lt size (GetCurrentSize q');
    _ ← ns_require (negb lt);
    mret q'.

Definition WouldOverflow (nPackets nBytes : Z) q : bool :=
  match m_unit (m_maxSize q) with
  | PACKETS => u32 (m_nPackets q + nPackets) >? m_value (m_maxSize q)
  | BYTES => u32 (m_nBytes q + nBytes) >? m_value (m_maxSize q)
  end.

(** *** [Queue<Item>] *)

Definition fire (l : list (trace Item)) q : queue Item :=
  mkQueue (m_packets q) (m_nBytes q) (m_nPackets q) (m_stats q) (m_maxSize q) (m_traces q ++ l).

Definition DropBeforeEnqueue item q : queue Item :=
  let st := m_stats q in let size := GetSize item in
  fire [TraceDrop item; TraceDropBeforeEnqueue item]
    (set_stats (mkStats (m_nTotalReceivedBytes st) (m_nTotalReceivedPackets st)
      (u32 (m_nTotalDroppedBytes st + size))
      (u32 (m_nTotalDroppedBytesBeforeEnqueue st + size))
      (m_nTotalDroppedBytesAfterDequeue st)
      (u32 (m_nTotalDroppedPackets st + 1))
      (u32 (m_nTotalDroppedPacketsBeforeEnqueue st + 1))
      (m_nTotalDroppedPacketsAfterDequeue st)) q).

Definition DropAfterDequeue item q : queue Item :=
  let st := m_stats q in let size := GetSize item in
  fire [TraceDrop item; TraceDropAfterDequeue item]
    (set_stats (mkStats (m_nTotalReceivedBytes st) (m_nTotalReceivedPackets st)
      (u32 (m_nTotalDroppedBytes st + size))
      (m_nTotalDroppedBytesBeforeEnqueue st)
      (u32 (m_nTotalDroppedBytesAfterDequeue st + size))
      (u32 (m_nTotalDroppedPackets st + 1))
      (m_nTotalDroppedPacketsBeforeEnqueue st)
      (u32 (m_nTotalDroppedPacketsAfterDequeue st + 1))) q).

(** [std::list::insert (pos, item)] *)
Definition insert_at (pos : nat) item (l : list Item) : list Item :=
  take pos l ++ item :: drop pos l.

Definition DoEnqueue (pos : nat) item q : res (bool * queue Item) :=
  full ← qs_gt (qs_add (GetCurrentSize q) (GetSize item)) (m_maxSize q);
  if (full : bool) then mret (false, DropBeforeEnqueue item q)
  else
    let st := m_stats q in let size := GetSize item in
    mret (true,
      mkQueue (insert_at pos item (m_packets q)) (u32 (m_nBytes q + size)) (u32 (m_nPackets q + 1))
        (mkStats (u32 (m_nTotalReceivedBytes st + size)) (u32 (m_nTotalReceivedPackets st + 1))
          (m_nTotalDroppedBytes st) (m_nTotalDroppedBytesBeforeEnqueue st)
          (m_nTotalDroppedBytesAfterDequeue st) (m_nTotalDroppedPackets st)
          (m_nTotalDroppedPacketsBeforeEnqueue st) (m_nTotalDroppedPacketsAfterDequeue st))
        (m_maxSize q) (m_traces q ++ [TraceEnqueue item])).

(** [None] is the null pointer. *)
Definition DoDequeue (pos : nat) q : res (option Item * queue Item) :=
  if m_nPackets q =? 0 then mret (None, q)
  else
    item ← deref (m_packets q !! pos);
    _ ← ns_assert (GetSize item <=? m_nBytes q);
    _ ← ns_assert (0 <? m_nPackets q);
    mret (Some item,
      mkQueue (delete pos (m_packets q)) (u32 (m_nBytes q - GetSize item)) (u32 (m_nPackets q - 1))
        (m_stats q) (m_maxSize q) (m_traces q ++ [TraceDequeue item])).

Definition DoRemove (pos : nat) q : res (option Item * queue Item) :=
  if m_nPackets q =? 0 then mret (None, q)
  else
    item ← deref (m_packets q !! pos);
    _ ← ns_assert (GetSize item <=? m_nBytes q);
    _ ← ns_assert (0 <? m_nPackets q);
    mret (Some item,
      DropAfterDequeue item
        (mkQueue (delete pos (m_packets q)) (u32 (m_nBytes q - GetSize item)) (u32 (m_nPackets q - 1))
          (m_stats q) (m_maxSize q) (m_traces q ++ [TraceDequeue item]))).

Definition DoPeek (pos : nat) q : res (option Item) :=
  if m_nPackets q =? 0 then mret None
  else item ← deref (m_packets q !! pos); mret (Some item).

(** *** [DropTailQueue<Item>] *)

Definition DropTailQueue : queue Item := set_max (mkQueueSize PACKETS 100) QueueBase.

Definition Enqueue item q : res (bool * queue Item) := DoEnqueue (length (m_packets q)) item q.
Definition Dequeue q : res (option Item * queue Item) := DoDequeue 0 q.
Definition Remove q : res (option Item * queue Item) := DoRemove 0 q.
Definition Peek q : res (option Item) := DoPeek 0 q.

(** [Flush] calls [Remove] while the queue is not empty. *)
Fixpoint Flush (fuel : nat) q : res (queue Item) :=
  if IsEmpty q then Ok q
  else match fuel with
       | O => Err OutOfFuel
       | S n => '(_, q') ← Remove q; Flush n q'
       end.
End queue.
