(* ===== verification/QueueSpec.v ===== *)
(** * Correctness of the drop-tail queue

    [wf] is the representation invariant; the queue refines a bounded FIFO whose
    capacity test is [fits]; the counters agree with the trace sources. *)

From S2P Require Import Prelude Queue.

Section spec.
Context {Item : Type} (GetSize : Item -> Z) (GetSize_range : forall i, 0 <= GetSize i < 2 ^ 32).
Implicit Types (q : queue Item) (item : Item).

Definition bytes (l : list Item) : Z := foldr (fun i n => GetSize i + n) 0 l.

Record wf q : Prop := {
  wf_packets : m_nPackets q = Z.of_nat (length (m_packets q));
  wf_bytes : m_nBytes q = bytes (m_packets q);
  wf_npackets32 : m_nPackets q < 2 ^ 32;
  wf_nbytes32 : m_nBytes q < 2 ^ 32;
  wf_max : 0 <= m_value (m_maxSize q) < 2 ^ 32
}.

Lemma bytes_nonneg l : 0 <= bytes l.
Proof using GetSize_range. induction l as [|i l IH]; simpl; [lia|]. pose proof (GetSize_range i). lia. Qed.

Lemma bytes_app l k : bytes (l ++ k) = bytes l + bytes k.
Proof using. induction l as [|i l IH]; simpl; lia. Qed.

(** ** The abstract queue *)

(** What an item adds to the occupancy, and the occupancy of a list. *)
Definition occupancy (u : QueueSizeUnit) (l : list Item) : Z :=
  match u with PACKETS => Z.of_nat (length l) | BYTES => bytes l end.

Definition fits (max : QueueSize) (l : list Item) (item : Item) : bool :=
  occupancy (m_unit max) (l ++ [item]) <=? m_value max.

(** No 32-bit wrap-around is in reach when [item] is offered. *)
Definition no_wrap q item : Prop :=
  m_nBytes q + GetSize item < 2 ^ 32 /\ m_nPackets q + 1 < 2 ^ 32.

Lemma wf_init : wf (DropTailQueue (Item := Item)).
Proof using. constructor; simpl; lia. Qed.

Lemma current_occupancy q :
  wf q -> GetCurrentSize q = mkQueueSize (m_unit (m_maxSize q)) (occupancy (m_unit (m_maxSize q)) (m_packets q)).
Proof using.
  intros [Hp Hb _ _ _]. unfold GetCurrentSize, occupancy. destruct (m_unit (m_maxSize q)); congruence.
Qed.

Lemma enqueue_full q item :
  wf q -> no_wrap q item ->
  qs_gt (qs_add (GetCurrentSize q) (GetSize item)) (m_maxSize q) =
  Ok (negb (fits (m_maxSize q) (m_packets q) item)).
Proof using GetSize_range.
  intros Hwf [Hb Hn]. rewrite current_occupancy by done. destruct Hwf as [Hp Hby _ _ _].
  pose proof (GetSize_range item). pose proof (bytes_nonneg (m_packets q)).
  unfold fits, occupancy, qs_gt, qs_compare, qs_add.
  destruct (m_maxSize q) as [[] v]; simpl; rewrite Z.gtb_ltb, Z.leb_antisym, negb_involutive;
    rewrite wrap_small by (unfold in_range; lia).
  - do 2 f_equal. rewrite length_app. simpl. lia.
  - do 2 f_equal. rewrite bytes_app. simpl. lia.
Qed.

(** Enqueueing. *)
Lemma Enqueue_ok q item :
  wf q -> no_wrap q item ->
  exists q', Enqueue GetSize item q = Ok (fits (m_maxSize q) (m_packets q) item, q') /\ wf q' /\
    m_maxSize q' = m_maxSize q /\
    m_packets q' = (if fits (m_maxSize q) (m_packets q) item then m_packets q ++ [item] else m_packets q) /\
    m_traces q' = m_traces q ++
      (if fits (m_maxSize q) (m_packets q) item then [TraceEnqueue item]
       else [TraceDrop item; TraceDropBeforeEnqueue item]).
Proof using GetSize_range.
  intros Hwf Hnw. unfold Enqueue, DoEnqueue. rewrite enqueue_full by done. simpl.
  destruct (fits (m_maxSize q) (m_packets q) item); simpl.
  - eexists. split; [done|]. destruct Hwf as [Hp Hb ? ? ?], Hnw as [Hb2 Hp2].
    pose proof (GetSize_range item). pose proof (bytes_nonneg (m_packets q)).
    assert (insert_at (length (m_packets q)) item (m_packets q) = m_packets q ++ [item]) as Hins.
    { unfold insert_at. by rewrite take_ge, drop_ge by lia. }
    simpl. split; [|by rewrite Hins].
    constructor; simpl; rewrite ?Hins, ?length_app, ?bytes_app; simpl;
      rewrite ?wrap_small by (unfold in_range; lia); lia.
  - eexists. split; [done|]. simpl. split; [by destruct Hwf|done].
Qed.

Lemma take_front q item rest :
  wf q -> m_packets q = item :: rest ->
  (m_nPackets q =? 0) = false /\ (GetSize item <=? m_nBytes q) = true /\ (0 <? m_nPackets q) = true /\
  u32 (m_nBytes q - GetSize item) = bytes rest /\ u32 (m_nPackets q - 1) = Z.of_nat (length rest).
Proof using GetSize_range.
  intros [Hp Hb ? ? ?] Heq. rewrite Heq in Hp, Hb. simpl in Hp, Hb.
  pose proof (GetSize_range item). pose proof (bytes_nonneg rest).
  rewrite !wrap_small by (unfold in_range; lia).
  split; [apply Z.eqb_neq; lia|]. split; [apply Z.leb_le; lia|]. split; [apply Z.ltb_lt; lia|]. lia.
Qed.

Lemma wf_empty q : wf q -> (m_nPackets q =? 0) = true <-> m_packets q = [].
Proof using.
  intros [Hp _ _ _ _]. rewrite Z.eqb_eq, Hp. destruct (m_packets q); simpl; split; try done; lia.
Qed.

(** Dequeueing and removing take the head. *)
Lemma Dequeue_ok q :
  wf q -> exists q', Dequeue GetSize q = Ok (head (m_packets q), q') /\ wf q' /\
    m_maxSize q' = m_maxSize q /\ m_packets q' = tail (m_packets q) /\ m_stats q' = m_stats q /\
    m_traces q' = m_traces q ++ (match m_packets q with [] => [] | i :: _ => [TraceDequeue i] end).
Proof using GetSize_range.
  intros Hwf. unfold Dequeue, DoDequeue. destruct (m_packets q) as [|item rest] eqn:Heq.
  - rewrite (proj2 (wf_empty q Hwf) Heq). exists q. rewrite app_nil_r. by rewrite Heq.
  - destruct (take_front q item rest Hwf Heq) as (-> & Hle & Hpos & Hb & Hn).
    simpl. rewrite Hle, Hpos. simpl. rewrite Hb, Hn. eexists. split; [done|].
    simpl. split; [|done]. destruct Hwf as [Hp1 Hb1 ? ? ?]. rewrite Heq in Hp1, Hb1.
    simpl in Hp1, Hb1. pose proof (GetSize_range item). constructor; simpl; done || lia.
Qed.

Lemma Remove_ok q :
  wf q -> exists q', Remove GetSize q = Ok (head (m_packets q), q') /\ wf q' /\
    m_maxSize q' = m_maxSize q /\ m_packets q' = tail (m_packets q) /\
    m_traces q' = m_traces q ++ (match m_packets q with
      [] => [] | i :: _ => [TraceDequeue i; TraceDrop i; TraceDropAfterDequeue i] end).
Proof using GetSize_range.
  intros Hwf. unfold Remove, DoRemove. destruct (m_packets q) as [|item rest] eqn:Heq.
  - rewrite (proj2 (wf_empty q Hwf) Heq). exists q. rewrite app_nil_r. by rewrite Heq.
  - destruct (take_front q item rest Hwf Heq) as (-> & Hle & Hpos & Hb & Hn).
    simpl. rewrite Hle, Hpos. simpl. rewrite Hb, Hn. eexists. split; [done|].
    simpl. rewrite <- app_assoc. split; [|done]. destruct Hwf as [Hp1 Hb1 ? ? ?].
    rewrite Heq in Hp1, Hb1. simpl in Hp1, Hb1. pose proof (GetSize_range item).
    constructor; simpl; done || lia.
Qed.

Lemma Peek_ok q : wf q -> Peek q = Ok (head (m_packets q)).
Proof using.
  intros Hwf. unfold Peek, DoPeek. destruct (m_nPackets q =? 0) eqn:E.
  - apply (wf_empty q Hwf) in E. by rewrite E.
  - destruct (m_packets q) eqn:Heq; [|done].
    apply (wf_empty q Hwf) in Heq. congruence.
Qed.

(** ** Sequences of operations *)

Inductive op := OpEnqueue (i : Item) | OpDequeue | OpRemove | OpPeek.
Inductive out := OutBool (b : bool) | OutItem (o : option Item).

(** One call, on the queue and on the bounded FIFO. *)
Definition exec (o : op) q : res (out * queue Item) :=
  match o with
  | OpEnqueue i => '(b, q') ← Enqueue GetSize i q; mret (OutBool b, q')
  | OpDequeue => '(r, q') ← Dequeue GetSize q; mret (OutItem r, q')
  | OpRemove => '(r, q') ← Remove GetSize q; mret (OutItem r, q')
  | OpPeek => r ← Peek q; mret (OutItem r, q)
  end.

Definition fifo (max : QueueSize) (o : op) (l : list Item) : out * list Item :=
  match o with
  | OpEnqueue i => if fits max l i then (OutBool true, l ++ [i]) else (OutBool false, l)
  | OpDequeue | OpRemove => (OutItem (head l), tail l)
  | OpPeek => (OutItem (head l), l)
  end.

Fixpoint execs (os : list op) q : res (list out * queue Item) :=
  match os with
  | [] => Ok ([], q)
  | o :: os => '(r, q') ← exec o q; '(rs, q'') ← execs os q'; mret (r :: rs, q'')
  end.

Fixpoint fifos (max : QueueSize) (os : list op) (l : list Item) : list out * list Item :=
  match os with
  | [] => ([], l)
  | o :: os => let '(r, l') := fifo max o l in
               let '(rs, l'') := fifos max os l' in (r :: rs, l'')
  end.

(** A full queue that is offered one more item, of at most [S] bytes, stays
    within 32 bits. *)
Definition room (S : Z) (max : QueueSize) : Prop :=
  match m_unit max with
  | PACKETS => (m_value max + 1) * S < 2 ^ 32
  | BYTES => m_value max + S < 2 ^ 32
  end.

Definition within q : Prop := occupancy (m_unit (m_maxSize q)) (m_packets q) <= m_value (m_maxSize q).

Definition sized (S : Z) (i : Item) : Prop := 1 <= GetSize i <= S.

Definition op_sized (S : Z) (o : op) : Prop :=
  match o with OpEnqueue i => sized S i | _ => True end.

Lemma bytes_bounds S l :
  Forall (sized S) l -> Z.of_nat (length l) <= bytes l <= S * Z.of_nat (length l).
Proof using. unfold sized. induction 1; simpl; lia. Qed.

(** What the runs below keep: the representation invariant, the capacity and
    the size of the items. *)
Record good (S : Z) q : Prop := {
  good_wf : wf q;
  good_within : within q;
  good_sized : Forall (sized S) (m_packets q);
  good_room : room S (m_maxSize q) }.

Lemma within_no_wrap S q item : good S q -> sized S item -> no_wrap q item.
Proof using.
  intros [[Hp Hb _ _ ?] Hin HS Hroom] Hi. unfold no_wrap. rewrite Hp, Hb.
  pose proof (bytes_bounds S (m_packets q) HS). unfold sized in Hi.
  unfold room, within, occupancy in *. destruct (m_unit (m_maxSize q)); nia.
Qed.

Lemma fifo_within max o l :
  occupancy (m_unit max) l <= m_value max ->
  occupancy (m_unit max) (fifo max o l).2 <= m_value max.
Proof using GetSize_range.
  intros Hin.
  assert (occupancy (m_unit max) (tail l) <= m_value max) as Htl.
  { destruct l as [|i l]; [done|]. pose proof (GetSize_range i).
    unfold occupancy in *. destruct (m_unit max); simpl in *; lia. }
  destruct o as [i| | |]; simpl; try done.
  destruct (fits max l i) eqn:E; simpl; [|done]. by apply Z.leb_le in E.
Qed.

Lemma fifo_sized S max o l :
  op_sized S o -> Forall (sized S) l -> Forall (sized S) (fifo max o l).2.
Proof using.
  intros Ho Hl. assert (Forall (sized S) (tail l)) as Htl by (destruct Hl; [constructor|done]).
  destruct o as [i| | |]; simpl; try done.
  destruct (fits max l i); simpl; [|done]. apply Forall_app. auto.
Qed.

Lemma good_next S q q' o :
  good S q -> op_sized S o -> wf q' -> m_maxSize q' = m_maxSize q ->
  m_packets q' = (fifo (m_maxSize q) o (m_packets q)).2 -> good S q'.
Proof using GetSize_range.
  intros [Hwf Hin HS Hroom] Ho Hwf' Hm Hp. constructor; [done|..].
  - unfold within. rewrite Hm, Hp. by apply fifo_within.
  - rewrite Hp. by apply fifo_sized.
  - by rewrite Hm.
Qed.

Lemma exec_ok S o q :
  good S q -> op_sized S o ->
  exists q', exec o q = Ok ((fifo (m_maxSize q) o (m_packets q)).1, q') /\ good S q' /\
    m_maxSize q' = m_maxSize q /\ m_packets q' = (fifo (m_maxSize q) o (m_packets q)).2.
Proof using GetSize_range.
  intros Hg Ho. pose proof Hg as [Hwf _ _ _].
  enough (exists q', exec o q = Ok ((fifo (m_maxSize q) o (m_packets q)).1, q') /\ wf q' /\
    m_maxSize q' = m_maxSize q /\ m_packets q' = (fifo (m_maxSize q) o (m_packets q)).2)
    as (q' & ? & ? & ? & ?) by eauto 10 using good_next.
  destruct o as [i| | |]; simpl in *.
  - destruct (Enqueue_ok q i Hwf (within_no_wrap S q i Hg Ho)) as (q' & -> & Hwf' & Hmax & Hpk & _).
    exists q'. simpl. destruct (fits _ _ _); simpl in *; eauto 10.
  - destruct (Dequeue_ok q Hwf) as (q' & -> & Hwf' & Hmax & Hpk & _). exists q'. eauto 10.
  - destruct (Remove_ok q Hwf) as (q' & -> & Hwf' & Hmax & Hpk & _). exists q'. eauto 10.
  - rewrite Peek_ok by done. exists q. eauto 10.
Qed.

Lemma execs_ok S os q :
  good S q -> Forall (op_sized S) os ->
  exists q', execs os q = Ok ((fifos (m_maxSize q) os (m_packets q)).1, q') /\ good S q' /\
    m_maxSize q' = m_maxSize q /\ m_packets q' = (fifos (m_maxSize q) os (m_packets q)).2.
Proof using GetSize_range.
  intros Hg Hos. revert q Hg. induction Hos as [|o os Ho Hos IH]; intros q Hg; simpl; [eauto 10|].
  destruct (exec_ok S o q Hg Ho) as (q' & -> & Hg' & Hmax & Hpk). simpl.
  destruct (IH q' Hg') as (q'' & -> & ? & ? & Hpk2).
  exists q''. simpl. rewrite Hmax in *. rewrite Hpk in *.
  destruct (fifo _ o _) as [r l']. simpl in *. destruct (fifos _ os l') as [rs l'']. eauto 10.
Qed.

(** ** Counters and trace sources *)

Definition count (f : trace Item -> bool) (q : queue Item) : Z :=
  Z.of_nat (length (List.filter f (m_traces q))).

Definition is_enq (t : trace Item) : bool := match t with TraceEnqueue _ => true | _ => false end.
Definition is_deq (t : trace Item) : bool := match t with TraceDequeue _ => true | _ => false end.
Definition is_drop (t : trace Item) : bool := match t with TraceDrop _ => true | _ => false end.
Definition is_before (t : trace Item) : bool := match t with TraceDropBeforeEnqueue _ => true | _ => false end.
Definition is_after (t : trace Item) : bool := match t with TraceDropAfterDequeue _ => true | _ => false end.

(** What the counters should say, given what the trace sources fired. *)
Record counted q : Prop := {
  counted_recv : GetTotalReceivedPackets q = u32 (count is_enq q);
  counted_drop : GetTotalDroppedPackets q = u32 (count is_drop q);
  counted_before : GetTotalDroppedPacketsBeforeEnqueue q = u32 (count is_before q);
  counted_after : GetTotalDroppedPacketsAfterDequeue q = u32 (count is_after q);
  counted_split : count is_drop q = count is_before q + count is_after q;
  counted_conserve : count is_enq q = count is_deq q + Z.of_nat (length (m_packets q))
}.

Lemma counted_init : counted (DropTailQueue (Item := Item)).
Proof using. by constructor. Qed.

Lemma filter_snoc (f : trace Item -> bool) l k :
  Z.of_nat (length (List.filter f (l ++ k))) =
  Z.of_nat (length (List.filter f l)) + Z.of_nat (length (List.filter f k)).
Proof using. rewrite List.filter_app, length_app. lia. Qed.

Ltac count_goals :=
  constructor; unfold GetTotalReceivedPackets, GetTotalDroppedPackets,
    GetTotalDroppedPacketsBeforeEnqueue, GetTotalDroppedPacketsAfterDequeue, count in *; simpl;
  rewrite ?filter_snoc; simpl;
  repeat match goal with H : ?f (m_stats _) = _ |- context [?f (m_stats _)] => rewrite H end;
  rewrite ?wrap_add_l; try lia; try (f_equal; lia).

Lemma counted_exec o q r q' : counted q -> exec o q = Ok (r, q') -> counted q'.
Proof using.
  intros Hc E. pose proof Hc as [H1 H2 H3 H4 H5 H6].
  destruct o as [i| | |]; simpl in E; inv_res E; destruct E as (x & E & Heq); [destruct x as [b q1]..|];
    injection Heq as <- <-; [..|done].
  - unfold Enqueue, DoEnqueue in E.
    destruct (qs_gt _ _) as [[]|]; simpl in E; [injection E as <- <-..|done]; count_goals.
    unfold insert_at. rewrite take_ge, drop_ge, length_app by lia. simpl. lia.
  - unfold Dequeue, DoDequeue in E.
    destruct (m_nPackets q =? 0); simpl in E; [by injection E as <- <-|].
    destruct (m_packets q) as [|i l] eqn:Hq; simpl in *; [done|].
    do 2 apply bind_ok in E as (? & _ & E). injection E as <- <-. count_goals.
  - unfold Remove, DoRemove in E.
    destruct (m_nPackets q =? 0); simpl in E; [by injection E as <- <-|].
    destruct (m_packets q) as [|i l] eqn:Hq; simpl in *; [done|].
    do 2 apply bind_ok in E as (? & _ & E). injection E as <- <-. count_goals.
Qed.

Lemma counted_execs os q rs q' : counted q -> execs os q = Ok (rs, q') -> counted q'.
Proof using.
  revert q rs. induction os as [|o os IH]; simpl; intros q rs Hc E; [by simplify_eq|].
  apply bind_ok in E as ([r q1] & E1 & E). apply bind_ok in E as ([rs1 q2] & E2 & E).
  injection E as <- <-. eauto using counted_exec.
Qed.

Lemma Flush_fuel n q :
  wf q -> (length (m_packets q) <= n)%nat ->
  exists q', Flush GetSize n q = Ok q' /\ wf q' /\ m_packets q' = [] /\
  m_traces q' = m_traces q ++
      concat ((fun i => [TraceDequeue i; TraceDrop i; TraceDropAfterDequeue i]) <$> m_packets q).
Proof using GetSize_range.
  revert q. induction n as [|n IH]; intros q Hwf Hle.
  - assert (m_packets q = []) as He by (destruct (m_packets q); simpl in *; [done|lia]).
    exists q. cbn [Flush]. unfold IsEmpty. rewrite (proj2 (wf_empty q Hwf) He), He. simpl.
    by rewrite app_nil_r.
  - cbn [Flush]. unfold IsEmpty. destruct (m_nPackets q =? 0) eqn:E.
    + apply (wf_empty q Hwf) in E. exists q. rewrite E. simpl. by rewrite app_nil_r.
    + destruct (Remove_ok q Hwf) as (q' & -> & Hwf' & Hmax & Hpk & Htr). simpl.
      destruct (IH q' Hwf') as (q'' & -> & Hwf'' & He & Htr').
      { rewrite Hpk. destruct (m_packets q); simpl in *; lia. }
      exists q''. split; [done|]. split; [done|]. split; [done|].
      rewrite Htr', Htr, Hpk. destruct (m_packets q) eqn:Hq; simpl.
      * apply (wf_empty q Hwf) in Hq. congruence.
      * by rewrite <- !app_assoc.
Qed.
End spec.

Arguments OpEnqueue {Item}. Arguments OpDequeue {Item}. Arguments OpRemove {Item}. Arguments OpPeek {Item}.

(** ** Properties *)

(** C21. Refinement: over any sequence of [Enqueue], [Dequeue], [Remove] and
    [Peek] calls that starts within capacity, the drop-tail queue never fails an
    assertion, returns exactly what a FIFO bounded by [m_maxSize] returns, holds
    exactly that FIFO's items in order, and never exceeds its capacity. *)
Theorem DropTailQueue_refines_fifo {Item} (GetSize : Item -> Z) (S : Z) (os : list (op (Item := Item))) q :
  (forall i, 0 <= GetSize i < 2 ^ 32) -> good GetSize S q -> Forall (op_sized GetSize S) os ->
  exists q', execs GetSize os q = Ok ((fifos GetSize (m_maxSize q) os (m_packets q)).1, q') /\
    m_packets q' = (fifos GetSize (m_maxSize q) os (m_packets q)).2 /\
    good GetSize S q' /\ m_maxSize q' = m_maxSize q.
Proof.
  intros Hr Hg Hos. destruct (execs_ok GetSize Hr S os q Hg Hos) as (q' & ? & ? & ? & ?). eauto 10.
Qed.

Lemma DropTailQueue_refines_fifo_witness :
  exists q', execs u32
      [OpEnqueue 100; OpEnqueue 900; OpPeek; OpEnqueue 600; OpDequeue; OpEnqueue 600; OpRemove]
      (set_max (mkQueueSize BYTES 1500) QueueBase) =
    Ok ([OutBool true; OutBool true; OutItem (Some 100); OutBool false; OutItem (Some 100);
         OutBool true; OutItem (Some 900)], q') /\ m_packets q' = [600].
Proof.
  destruct (DropTailQueue_refines_fifo u32 1500
    [OpEnqueue 100; OpEnqueue 900; OpPeek; OpEnqueue 600; OpDequeue; OpEnqueue 600; OpRemove]
    (set_max (mkQueueSize BYTES 1500) QueueBase)) as (q' & E & H & _).
  - intros i. by apply wrap_range.
  - constructor; [constructor| | |]; simpl; unfold within, room; simpl; try lia. constructor.
  - repeat constructor; simpl; unfold sized; cbv; congruence.
  - exists q'. rewrite E, H. split; vm_compute; reflexivity.
Defined.

(** The statistics agree with the trace sources after any sequence of calls
    on a fresh queue: received and dropped packets are the numbers of
    enqueue and drop traces (modulo 2^32), every drop is either before enqueue
    or after dequeue, and each item received is still held or was dequeued. *)
Theorem queue_counters_agree {Item} (GetSize : Item -> Z) (os : list (op (Item := Item))) rs q :
  execs GetSize os DropTailQueue = Ok (rs, q) -> counted q.
Proof. apply counted_execs, counted_init. Qed.

Lemma queue_counters_agree_witness :
  exists rs q, execs (fun i : Z => 1) [OpEnqueue 5; OpDequeue; OpEnqueue 6; OpRemove] DropTailQueue = Ok (rs, q) /\
    counted q /\ GetTotalReceivedPackets q = 2 /\ GetTotalDroppedPacketsAfterDequeue q = 1.
Proof.
  eexists _, _. split; [vm_compute; reflexivity|].
  split; [|vm_compute; split; reflexivity].
  eapply (queue_counters_agree (fun i : Z => 1) [OpEnqueue 5; OpDequeue; OpEnqueue 6; OpRemove]).
  vm_compute. reflexivity.
Defined.

(** [Flush] terminates: as many rounds as there are items are enough; it
    leaves the queue empty and reports every item, in order, as dequeued and
    dropped after dequeue. *)
Theorem Flush_empties {Item} (GetSize : Item -> Z) n q :
  (forall i, 0 <= GetSize i < 2 ^ 32) -> wf GetSize q -> (length (m_packets q) <= n)%nat ->
  exists q', Flush GetSize n q = Ok q' /\ wf GetSize q' /\ m_packets q' = [] /\
    m_traces q' = m_traces q ++
      concat ((fun i => [TraceDequeue i; TraceDrop i; TraceDropAfterDequeue i]) <$> m_packets q).
Proof. intros H. by apply Flush_fuel. Qed.

Lemma Flush_empties_witness :
  exists q q' : queue Z, m_packets q = [7; 8] /\ Flush (fun _ => 1) 2 q = Ok q' /\ m_packets q' = [].
Proof.
  exists (mkQueue [7; 8] 2 2 stats_zero (mkQueueSize PACKETS 100) []).
  destruct (Flush_empties (fun _ => 1) 2 (mkQueue [7; 8] 2 2 stats_zero (mkQueueSize PACKETS 100) []))
    as (q' & E & _ & H & _).
  - intros _. lia.
  - constructor; simpl; lia.
  - simpl. lia.
  - exists q'. by rewrite E, H.
Defined.
