(* ===== verification/Bytes.v ===== *)
(** * Reading and writing octets ([src/network/model/buffer.{h,cc}], the
      multi-byte operations of [Buffer::Iterator])

    A header is serialized into a list of octets, each a [Z] in [[0, 256)], by
    the writes of its [Serialize] in order, and parsed by the reads of its
    [Deserialize].  Reading past the end fails the bounds assertion.  Where the
    octets live (the zero area, sharing between packets) is in [Buffer]. *)

From S2P Require Import Prelude.

Notation byte := Z (only parsing).
Notation bytes := (list Z) (only parsing).

Definition octet (x : Z) : Prop := 0 <= x < 256.

(** [(data >> n) & 0xff] *)
Definition byte_at (n data : Z) : Z := Z.land (Z.shiftr data n) 0xff.

Definition WriteU8 (data : Z) : bytes := [byte_at 0 data].
Definition WriteHtonU16 (data : Z) : bytes := [byte_at 8 data; byte_at 0 data].
Definition WriteHtonU32 (data : Z) : bytes :=
  [byte_at 24 data; byte_at 16 data; byte_at 8 data; byte_at 0 data].
Definition WriteHtonU64 (data : Z) : bytes :=
  [byte_at 56 data; byte_at 48 data; byte_at 40 data; byte_at 32 data;
   byte_at 24 data; byte_at 16 data; byte_at 8 data; byte_at 0 data].
Definition WriteU16 (data : Z) : bytes := [byte_at 0 data; byte_at 8 data].
Definition WriteU32 (data : Z) : bytes :=
  [byte_at 0 data; byte_at 8 data; byte_at 16 data; byte_at 24 data].
Definition WriteU64 (data : Z) : bytes :=
  [byte_at 0 data; byte_at 8 data; byte_at 16 data; byte_at 24 data;
   byte_at 32 data; byte_at 40 data; byte_at 48 data; byte_at 56 data].
Definition WriteHtolsbU16 : Z -> bytes := WriteU16.
Definition WriteHtolsbU32 : Z -> bytes := WriteU32.
Definition WriteHtolsbU64 : Z -> bytes := WriteU64.

(** A parser consumes octets from the front. *)
Definition parser (A : Type) : Type := bytes -> res (A * bytes).
#[export] Instance parser_ret : MRet parser := fun A a bs => Ok (a, bs).
#[export] Instance parser_bind : MBind parser := fun A B k m bs =>
  match m bs with Ok (a, bs') => k a bs' | Err f => Err f end.

Definition ReadU8 : parser Z := fun bs =>
  match bs with b :: bs' => Ok (b, bs') | [] => Err AssertFailed end.

(** [retval <<= 8; retval |= ReadU8 ()] in an unsigned of [w] bits *)
Definition shift_in (w acc b : Z) : Z := Z.lor (wrap w (Z.shiftl acc 8)) b.

Definition ReadNtohU16 : parser Z :=
  b0 ← ReadU8; b1 ← ReadU8; mret (shift_in 16 (shift_in 16 0 b0) b1).
Definition ReadNtohU32 : parser Z :=
  b0 ← ReadU8; b1 ← ReadU8; b2 ← ReadU8; b3 ← ReadU8;
  mret (shift_in 32 (shift_in 32 (shift_in 32 (shift_in 32 0 b0) b1) b2) b3).
Definition ReadNtohU64 : parser Z :=
  hi ← ReadNtohU32; b4 ← ReadU8; b5 ← ReadU8; b6 ← ReadU8; b7 ← ReadU8;
  mret (shift_in 64 (shift_in 64 (shift_in 64 (shift_in 64 hi b4) b5) b6) b7).
Definition ReadU16 : parser Z :=
  byte0 ← ReadU8; byte1 ← ReadU8; mret (shift_in 16 byte1 byte0).
Definition ReadU32 : parser Z :=
  byte0 ← ReadU8; byte1 ← ReadU8; byte2 ← ReadU8; byte3 ← ReadU8;
  mret (shift_in 32 (shift_in 32 (shift_in 32 byte3 byte2) byte1) byte0).
Definition ReadU64 : parser Z :=
  byte0 ← ReadU8; byte1 ← ReadU8; byte2 ← ReadU8; byte3 ← ReadU8;
  byte4 ← ReadU8; byte5 ← ReadU8; byte6 ← ReadU8; byte7 ← ReadU8;
  mret (shift_in 64 (shift_in 64 (shift_in 64 (shift_in 64 (shift_in 64 (shift_in 64
    (shift_in 64 byte7 byte6) byte5) byte4) byte3) byte2) byte1) byte0).
Definition ReadLsbtohU16 : parser Z := ReadU16.
Definition ReadLsbtohU32 : parser Z := ReadU32.
Definition ReadLsbtohU64 : parser Z := ReadU64.

(** [Next (delta)] and the reading of [n] octets. *)
Definition Next (delta : nat) : parser unit := fun bs =>
  if Nat.leb delta (length bs) then Ok (tt, drop delta bs) else Err AssertFailed.

Definition Read (n : nat) : parser bytes := fun bs =>
  if Nat.leb n (length bs) then Ok (take n bs, drop n bs) else Err AssertFailed.

Fixpoint read_words (n : nat) (sum : Z) (bs : bytes) : res (Z * bytes) :=
  match n with
  | O => Ok (sum, bs)
  | S n => '(w, bs) ← ReadU16 bs; read_words n (u32 (sum + w)) bs
  end.

(** [while (sum >> 16) sum = (sum & 0xffff) + (sum >> 16)] *)
Fixpoint fold_carry (fuel : nat) (sum : Z) : Z :=
  match fuel with
  | O => sum
  | S n => if Z.shiftr sum 16 =? 0 then sum
           else fold_carry n (u32 (Z.land sum 0xffff + Z.shiftr sum 16))
  end.

(** [CalculateIpChecksum (size, initialChecksum)]: the sum of the words in
    host order, folded and complemented. *)
Definition CalculateIpChecksum (size : Z) (initialChecksum : Z) (bs : bytes) : res Z :=
  '(sum, bs) ← read_words (Z.to_nat (size / 2)) initialChecksum bs;
  '(sum, bs) ← (if Z.odd size then '(b, bs) ← ReadU8 bs; mret (u32 (sum + b), bs)
                else mret (sum, bs));
  mret (u16 (Z.lnot (fold_carry 3 sum))).

(** ** Lemmas *)

Lemma byte_at_octet n x : octet (byte_at n x).
Proof.
  unfold octet, byte_at. change 0xff with (Z.ones 8). rewrite Z.land_ones by lia.
  apply Z.mod_pos_bound. lia.
Qed.

Lemma byte_at_eq n x : 0 <= n -> byte_at n x = (x / 2 ^ n) mod 256.
Proof.
  intros Hn. unfold byte_at. change 0xff with (Z.ones 8).
  rewrite Z.land_ones, Z.shiftr_div_pow2 by lia. done.
Qed.

Lemma byte_at_small x : octet x -> byte_at 0 x = x.
Proof. intros Hx. rewrite byte_at_eq by lia. rewrite Z.div_1_r. by apply Z.mod_small. Qed.

Lemma shift_in_eq w acc b :
  8 <= w -> octet b -> 0 <= acc < 2 ^ (w - 8) -> shift_in w acc b = acc * 256 + b.
Proof.
  intros Hw Hb Hacc. unfold shift_in. rewrite Z.shiftl_mul_pow2 by lia. change (2 ^ 8) with 256.
  assert (2 ^ w = 256 * 2 ^ (w - 8)) as Hp.
  { change 256 with (2 ^ 8). rewrite <- Z.pow_add_r by lia. f_equal. lia. }
  rewrite wrap_small by (unfold in_range; rewrite Hp; nia).
  rewrite <- Z.add_lor_land. enough (Z.land (acc * 256) b = 0) by lia.
  change 256 with (2 ^ 8). rewrite <- Z.shiftl_mul_pow2 by lia.
  apply Z.bits_inj'. intros i Hi. rewrite Z.land_spec, Z.bits_0.
  destruct (decide (i < 8)).
  - rewrite Z.shiftl_spec_low by lia. done.
  - assert (b = b mod 2 ^ 8) as -> by (symmetry; apply Z.mod_small; exact Hb).
    rewrite Z.mod_pow2_bits_high by lia. apply andb_false_r.
Qed.

Lemma parser_bind_ok {A B} (m : parser A) (k : A -> parser B) bs a bs' :
  m bs = Ok (a, bs') -> (m ≫= k) bs = k a bs'.
Proof. intros H. unfold mbind, parser_bind. by rewrite H. Qed.

(** Writing then reading, at every width and in both byte orders. *)
Lemma ReadU8_write x rest : octet x -> ReadU8 (WriteU8 x ++ rest) = Ok (x, rest).
Proof. intros Hx. simpl. by rewrite byte_at_small. Qed.

(** Appending the next octet of [x]. *)
Lemma shift_in_byte w n x :
  8 <= w -> 0 <= n -> in_range w x -> shift_in w (x / 2 ^ (n + 8)) (byte_at n x) = x / 2 ^ n.
Proof.
  intros Hw Hn [Hx0 Hx]. rewrite shift_in_eq; [|done|apply byte_at_octet|].
  - rewrite byte_at_eq by done. rewrite Z.pow_add_r by lia. change (2 ^ 8) with 256.
    rewrite <- Z.div_div by lia. rewrite Z.mul_comm. symmetry. apply Z.div_mod. lia.
  - split; [apply Z.div_pos; lia|]. apply Z.div_lt_upper_bound; [lia|].
    rewrite <- Z.pow_add_r by lia. eapply Z.lt_le_trans; [exact Hx|]. apply Z.pow_le_mono_r; lia.
Qed.

Lemma top_zero w x : in_range w x -> x / 2 ^ w = 0.
Proof. apply Z.div_small. Qed.

Lemma top_byte w x : 8 <= w -> in_range w x -> byte_at (w - 8) x = x / 2 ^ (w - 8).
Proof.
  intros Hw [Hx0 Hx]. rewrite byte_at_eq by lia. apply Z.mod_small. split; [apply Z.div_pos; lia|].
  apply Z.div_lt_upper_bound; [lia|]. change 256 with (2 ^ 8).
  rewrite <- Z.pow_add_r by lia. replace (w - 8 + 8) with w by lia. done.
Qed.

Lemma shift_in_top w x :
  8 <= w -> in_range w x -> shift_in w 0 (byte_at (w - 8) x) = x / 2 ^ (w - 8).
Proof.
  intros Hw Hx. rewrite <- (shift_in_byte w (w - 8) x) by (done || lia). f_equal.
  replace (w - 8 + 8) with w by lia. symmetry. by apply top_zero.
Qed.

Ltac run_parser :=
  cbv [ReadNtohU16 ReadNtohU32 ReadU16 ReadU32 ReadU64 ReadU8 WriteHtonU16 WriteHtonU32
    WriteU16 WriteU32 WriteU64 mbind parser_bind mret parser_ret app].

(** Reassemble the octets of [x], most significant first. *)
Ltac shift_bytes w x :=
  match goal with
  | |- context [shift_in w 0 (byte_at ?n x)] =>
      replace (shift_in w 0 (byte_at n x)) with (x / 2 ^ n)
        by (symmetry; apply (shift_in_top w); [lia|assumption])
  | |- _ => let n := eval compute in (w - 8) in
            replace (byte_at n x) with (x / 2 ^ n) by (symmetry; apply (top_byte w); [lia|assumption])
  end;
  repeat match goal with
  | |- context [shift_in w (x / 2 ^ ?k) (byte_at ?n x)] =>
      change (x / 2 ^ k) with (x / 2 ^ (n + 8)); rewrite (shift_in_byte w n x) by (assumption || lia)
  end; rewrite ?Z.div_1_r; reflexivity.

Lemma ReadNtohU16_write x rest : in_range 16 x -> ReadNtohU16 (WriteHtonU16 x ++ rest) = Ok (x, rest).
Proof. intros Hx. run_parser. shift_bytes 16 x. Qed.
Lemma ReadNtohU32_write x rest : in_range 32 x -> ReadNtohU32 (WriteHtonU32 x ++ rest) = Ok (x, rest).
Proof. intros Hx. run_parser. shift_bytes 32 x. Qed.
Lemma ReadU16_write x rest : in_range 16 x -> ReadU16 (WriteU16 x ++ rest) = Ok (x, rest).
Proof. intros Hx. run_parser. shift_bytes 16 x. Qed.
Lemma ReadU32_write x rest : in_range 32 x -> ReadU32 (WriteU32 x ++ rest) = Ok (x, rest).
Proof. intros Hx. run_parser. shift_bytes 32 x. Qed.
Lemma ReadU64_write x rest : in_range 64 x -> ReadU64 (WriteU64 x ++ rest) = Ok (x, rest).
Proof. intros Hx. run_parser. shift_bytes 64 x. Qed.
Lemma ReadNtohU64_write x rest : in_range 64 x -> ReadNtohU64 (WriteHtonU64 x ++ rest) = Ok (x, rest).
Proof.
  intros Hx. pose proof Hx as [Hx0 Hx1]. set (y := x / 2 ^ 32).
  assert (in_range 32 y) as Hy.
  { split; [apply Z.div_pos; lia|]. apply Z.div_lt_upper_bound; [lia|]. exact Hx1. }
  assert (forall n, 0 <= n -> byte_at n y = byte_at (n + 32) x) as Hb.
  { intros n Hn. rewrite !byte_at_eq by lia. unfold y.
    rewrite Z.div_div, <- Z.pow_add_r by lia. do 3 f_equal. lia. }
  assert (WriteHtonU64 x ++ rest =
    WriteHtonU32 y ++ [byte_at 24 x; byte_at 16 x; byte_at 8 x; byte_at 0 x] ++ rest) as ->.
  { unfold WriteHtonU32. rewrite !Hb by lia. reflexivity. }
  unfold ReadNtohU64. rewrite (parser_bind_ok _ _ _ _ _ (ReadNtohU32_write y _ Hy)).
  run_parser. subst y.
  repeat match goal with
  | |- context [shift_in 64 (x / 2 ^ ?k) (byte_at ?n x)] =>
      change (x / 2 ^ k) with (x / 2 ^ (n + 8)); rewrite (shift_in_byte 64 n x) by (assumption || lia)
  end. by rewrite Z.div_1_r.
Qed.

#[export] Hint Rewrite ReadU8_write ReadNtohU16_write ReadNtohU32_write ReadU16_write ReadU32_write
  using done : ns3.

(** ** The Internet checksum *)

(** The sum of the 16-bit words, in host order. *)
Fixpoint word_sum (bs : bytes) : Z :=
  match bs with
  | b0 :: b1 :: bs => b0 + 256 * b1 + word_sum bs
  | _ => 0
  end.

Lemma word_sum_nonneg bs : Forall octet bs -> 0 <= word_sum bs.
Proof.
  cut (forall n bs, (length bs <= n)%nat -> Forall octet bs -> 0 <= word_sum bs); [eauto|].
  induction n as [|n IH]; intros [|b0 [|b1 l]] Hlen Hb; simpl in *; try lia.
  apply Forall_cons in Hb as [Hb0 Hb]. apply Forall_cons in Hb as [Hb1 Hb].
  specialize (IH l ltac:(lia) Hb). unfold octet in *. lia.
Qed.

Lemma read_words_ok n s bs :
  0 <= s -> s + 65535 * Z.of_nat n < 2 ^ 32 -> Forall octet bs -> (2 * n <= length bs)%nat ->
  read_words n s bs = Ok (s + word_sum (take (2 * n) bs), drop (2 * n) bs) /\
  word_sum (take (2 * n) bs) <= 65535 * Z.of_nat n.
Proof.
  revert s bs. induction n as [|n IH]; intros s bs Hs Hle Hb Hlen.
  - simpl. rewrite Z.add_0_r. split; [done|lia].
  - destruct bs as [|b0 [|b1 bs]]; simpl in Hlen; try lia.
    apply Forall_cons in Hb as [Hb0 Hb]. apply Forall_cons in Hb as [Hb1 Hb]. unfold octet in Hb0, Hb1.
    replace (2 * S n)%nat with (S (S (2 * n))) by lia. cbn [take drop word_sum read_words].
    assert (ReadU16 (b0 :: b1 :: bs) = Ok (b0 + 256 * b1, bs)) as ->.
    { run_parser. rewrite shift_in_eq; unfold octet; [do 2 f_equal; lia|lia|done|].
      change (2 ^ (16 - 8)) with 256. lia. }
    cbn [mbind res_bind].
    rewrite wrap_small by (unfold in_range; lia).
    destruct (IH (s + (b0 + 256 * b1)) bs) as [-> Hw]; [lia..|done|lia|].
    split; [do 2 f_equal; lia|lia].
Qed.

(** Folding keeps the value modulo 65535 and never makes it zero. *)
Lemma fold_carry_spec s :
  0 <= s < 2 ^ 32 ->
  exists k, 0 <= k /\ s = 65535 * k + fold_carry 3 s /\ 0 <= fold_carry 3 s < 65536 /\
    (0 < s -> 0 < fold_carry 3 s).
Proof.
  assert (forall x, Z.land x 0xffff = x mod 65536) as Hland.
  { intros x. change 0xffff with (Z.ones 16). by rewrite Z.land_ones by lia. }
  assert (forall x, Z.shiftr x 16 = x / 65536) as Hshift by (intros x; by rewrite Z.shiftr_div_pow2 by lia).
  assert (forall n x, 0 <= x < 2 ^ 32 -> x / 65536 = 0 -> fold_carry n x = x) as Hdone.
  { intros [|n] x Hx E; [done|]. simpl. by rewrite Hshift, E. }
  assert (forall n x, 0 <= x < 2 ^ 32 -> x / 65536 <> 0 ->
    fold_carry (S n) x = fold_carry n (x mod 65536 + x / 65536)) as Hstep.
  { intros n x Hx E. simpl. rewrite Hshift, Hland, (proj2 (Z.eqb_neq _ _)) by done.
    rewrite wrap_small; [done|]. unfold in_range. Z.div_mod_to_equations. lia. }
  intros Hs. destruct (Z.eq_dec (s / 65536) 0) as [E|E].
  { exists 0. rewrite Hdone by done. Z.div_mod_to_equations. lia. }
  rewrite Hstep by done. set (s1 := s mod 65536 + s / 65536).
  assert (0 < s1 <= 131070 /\ s = 65535 * (s / 65536) + s1) as [Hs1 Es1]
    by (subst s1; Z.div_mod_to_equations; lia).
  destruct (Z.eq_dec (s1 / 65536) 0) as [E1|E1].
  { exists (s / 65536). rewrite Hdone by (done || lia). Z.div_mod_to_equations. lia. }
  rewrite Hstep by (done || lia). set (s2 := s1 mod 65536 + s1 / 65536).
  assert (0 < s2 <= 65535 /\ s1 = 65535 * (s1 / 65536) + s2) as [Hs2 Es2]
    by (subst s2; clearbody s1; Z.div_mod_to_equations; lia).
  exists (s / 65536 + s1 / 65536). rewrite Hdone; [|lia|clearbody s2; apply Z.div_small; lia].
  assert (0 <= s / 65536) by (apply Z.div_pos; lia). assert (0 <= s1 / 65536) by (apply Z.div_pos; lia). lia.
Qed.

Lemma u16_lnot x : 0 <= x < 65536 -> u16 (Z.lnot x) = 65535 - x.
Proof.
  intros Hx. unfold wrap, Z.lnot. change (2 ^ 16) with 65536.
  rewrite <- (Z.mod_unique (Z.pred (- x)) 65536 (-1) (65535 - x)); lia.
Qed.

(** The checksum of an even number of octets is zero exactly when their sum is
    a multiple of 65535. *)
Lemma CalculateIpChecksum_ok n bs :
  Z.of_nat n <= 30000 -> Forall octet bs -> (2 * n <= length bs)%nat ->
  exists c, CalculateIpChecksum (2 * Z.of_nat n) 0 bs = Ok c /\ in_range 16 c /\
    (exists k, word_sum (take (2 * n) bs) + c = 65535 * k) /\
    (0 < word_sum (take (2 * n) bs) -> c < 65535).
Proof.
  intros Hn Hb Hlen. unfold CalculateIpChecksum.
  replace (2 * Z.of_nat n / 2) with (Z.of_nat n) by (rewrite Z.mul_comm, Z.div_mul; lia).
  rewrite Nat2Z.id. destruct (read_words_ok n 0 bs) as [-> Hle]; [lia..|done|done|].
  cbn [mbind res_bind]. replace (Z.odd (2 * Z.of_nat n)) with false.
  2:{ rewrite Z.odd_mul. done. }
  cbn [mret res_ret]. rewrite Z.add_0_l. set (s := word_sum _) in *.
  assert (0 <= s) as Hs by (apply word_sum_nonneg, Forall_take, Hb).
  destruct (fold_carry_spec s) as (k & Hk & E & Hr & Hpos); [lia|].
  eexists. split; [done|]. rewrite u16_lnot by lia. unfold in_range. split; [lia|].
  split; [exists (k + 1); lia|lia].
Qed.

Lemma CalculateIpChecksum_zero n bs c :
  Z.of_nat n <= 30000 -> Forall octet bs -> (2 * n <= length bs)%nat -> 0 < word_sum (take (2 * n) bs) ->
  CalculateIpChecksum (2 * Z.of_nat n) 0 bs = Ok c -> c = 0 <-> exists k, word_sum (take (2 * n) bs) = 65535 * k.
Proof.
  intros Hn Hb Hlen Hpos E. destruct (CalculateIpChecksum_ok n bs Hn Hb Hlen) as (c' & E' & Hr & [k Hk] & Hlt).
  rewrite E' in E. injection E as ->. specialize (Hlt Hpos). unfold in_range in Hr. split.
  - intros ->. exists k. lia.
  - intros [k' Hk']. assert (c = 65535 * (k - k')) by lia. assert (k - k' = 0) by nia. lia.
Qed.

Lemma u16_octets x : Forall octet (WriteU16 x).
Proof. repeat constructor; apply byte_at_octet. Qed.

Lemma word_sum_app l k : Nat.Even (length l) -> word_sum (l ++ k) = word_sum l + word_sum k.
Proof.
  cut (forall n l, (length l <= n)%nat -> Nat.Even (length l) -> word_sum (l ++ k) = word_sum l + word_sum k); [eauto|].
  clear. induction n as [|n IH]; intros [|b0 [|b1 l]] Hle Hev; simpl in *; try lia.
  - destruct Hev as [m Hm]. lia.
  - rewrite IH; [lia|lia|]. destruct Hev as [m Hm]. exists (m - 1)%nat. lia.
Qed.

Lemma word_sum_u16 x : in_range 16 x -> word_sum (WriteU16 x) = x.
Proof.
  intros Hx. simpl. rewrite !byte_at_eq by lia. unfold in_range in Hx. change (2 ^ 0) with 1. change (2 ^ 8) with 256.
  Z.div_mod_to_equations. lia.
Qed.

Lemma word_sum_insert bs i b b' :
  Nat.Even (length bs) -> bs !! i = Some b ->
  exists d, word_sum (<[i := b']> bs) = word_sum bs + (b' - b) * d /\ (d = 1 \/ d = 256).
Proof.
  revert i. cut (forall n bs i, (length bs <= n)%nat -> Nat.Even (length bs) -> bs !! i = Some b ->
    exists d, word_sum (<[i := b']> bs) = word_sum bs + (b' - b) * d /\ (d = 1 \/ d = 256)); [eauto|].
  clear. induction n as [|n IH]; intros [|b0 [|b1 l]] i Hle Hev Hi; simpl in *; try lia; try done.
  - destruct Hev as [m Hm]. lia.
  - destruct i as [|[|i]]; simpl in *.
    + injection Hi as ->. exists 1. split; [lia|auto].
    + injection Hi as ->. exists 256. split; [lia|auto].
    + destruct (IH l i) as (d & -> & Hd); [lia| |done|exists d; split; [lia|done]].
      destruct Hev as [m Hm]. exists (m - 1)%nat. lia.
Qed.

(** The sum of the words of any octets, a last odd octet counting alone. *)
Definition last_octet (bs : bytes) : Z := match bs with [b] => b | _ => 0 end.
Definition sum16 (bs : bytes) : Z :=
  let n := (2 * (length bs / 2))%nat in word_sum (take n bs) + last_octet (drop n bs).

Lemma half_length {A} (bs : list A) :
  exists l tl, bs = l ++ tl /\ length l = (2 * (length bs / 2))%nat /\
    (tl = [] /\ Nat.Even (length bs) \/ exists b, tl = [b] /\ Nat.Odd (length bs)).
Proof.
  set (n := (2 * (length bs / 2))%nat). pose proof (Nat.div_mod (length bs) 2 ltac:(lia)) as E.
  pose proof (Nat.mod_upper_bound (length bs) 2 ltac:(lia)).
  exists (take n bs), (drop n bs). rewrite take_drop. split; [done|]. rewrite length_take.
  split; [apply Nat.min_l; unfold n; lia|]. assert (length (drop n bs) = length bs mod 2)%nat as El by (rewrite length_drop; lia).
  destruct (drop n bs) as [|b [|? ?]]; cbn [length] in El; [left|right|lia].
  - split; [done|]. exists (length bs / 2)%nat. lia.
  - exists b. split; [done|]. exists (length bs / 2)%nat. lia.
Qed.

(** [sum16] of an even prefix followed by anything. *)
Lemma sum16_app l tl : Nat.Even (length l) -> sum16 (l ++ tl) = word_sum l + sum16 tl.
Proof.
  intros [n Hn]. unfold sum16. rewrite length_app, Hn.
  replace (2 * n + length tl)%nat with (length tl + n * 2)%nat by lia. rewrite Nat.div_add by lia.
  set (m := (length tl / 2)%nat). replace (2 * (m + n))%nat with (2 * n + 2 * m)%nat by lia.
  rewrite <- Hn, take_app_add, drop_app_add, word_sum_app by (by exists n). lia.
Qed.

Lemma last_octet_nonneg bs : Forall octet bs -> 0 <= last_octet bs < 256.
Proof.
  intros Hb. destruct bs as [|b [|? ?]]; simpl; try lia.
  apply Forall_cons in Hb as [Hx _]. unfold octet in Hx. lia.
Qed.

Lemma sum16_nonneg bs : Forall octet bs -> 0 <= sum16 bs.
Proof.
  intros Hb. unfold sum16. set (n := (2 * (length bs / 2))%nat).
  pose proof (word_sum_nonneg (take n bs) ltac:(by apply Forall_take)).
  pose proof (last_octet_nonneg (drop n bs) ltac:(by apply Forall_drop)). lia.
Qed.

(** An odd octet is read and added, none otherwise. *)
Lemma read_odd_ok bs s n :
  n = (2 * (length bs / 2))%nat -> Forall octet bs -> 0 <= s -> s < 2 ^ 32 - 256 ->
  exists rest, (if Z.odd (Z.of_nat (length bs)) then '(b, bs) ← ReadU8 (drop n bs); mret (u32 (s + b), bs)
                else mret (s, drop n bs)) = Ok (s + last_octet (drop n bs), rest).
Proof.
  intros -> Hb Hs Hs'. destruct (half_length bs) as (l & tl & E & Hl & Htl).
  assert (drop (2 * (length bs / 2))%nat bs = tl) as -> by (rewrite E at 2; by rewrite <- Hl, drop_app_length).
  assert (Forall octet tl) as Hd by (rewrite E in Hb; by apply Forall_app in Hb as [_ ?]).
  destruct Htl as [[-> [m Hm]]|(b & -> & [m Hm])].
  - replace (Z.odd (Z.of_nat (length bs))) with false by (rewrite Hm, Nat2Z.inj_mul, Z.odd_mul; done).
    exists []. simpl. by rewrite Z.add_0_r.
  - replace (Z.odd (Z.of_nat (length bs))) with true
      by (rewrite Hm, Nat2Z.inj_add, Nat2Z.inj_mul, Z.odd_add, Z.odd_mul; done).
    exists []. pose proof (last_octet_nonneg [b] Hd). simpl in *. rewrite wrap_small by (unfold in_range; lia). done.
Qed.

(** The checksum of any octets: the complement of a number congruent to the sum. *)
Lemma CalculateIpChecksum_sum16 init bs :
  Z.of_nat (length bs) < 65536 -> in_range 16 init -> Forall octet bs ->
  exists f k, CalculateIpChecksum (Z.of_nat (length bs)) init bs = Ok (65535 - f) /\ 0 <= f < 65536 /\
    init + sum16 bs = 65535 * k + f /\ (0 < init + sum16 bs -> 0 < f).
Proof.
  intros Hlen Hi Hb. unfold in_range in Hi. change (2 ^ 16) with 65536 in Hi. unfold CalculateIpChecksum.
  replace (Z.to_nat (Z.of_nat (length bs) / 2)) with (length bs / 2)%nat by (change 2 with (Z.of_nat 2); rewrite <- Nat2Z.inj_div; lia).
  pose proof (Nat.div_mod (length bs) 2 ltac:(lia)). change (2 ^ 32) with 4294967296.
  destruct (read_words_ok (length bs / 2) init bs) as [-> Hle]; [lia|lia|done|lia|].
  cbn [mbind res_bind]. pose proof (sum16_nonneg bs Hb) as Hpos. set (n := (2 * (length bs / 2))%nat) in *.
  pose proof (last_octet_nonneg (drop n bs) ltac:(by apply Forall_drop)).
  pose proof (word_sum_nonneg (take n bs) ltac:(by apply Forall_take)).
  destruct (read_odd_ok bs (init + word_sum (take n bs)) n) as [rest ->]; [done..|lia|lia|].
  cbn [mbind res_bind mret res_ret]. rewrite <- Z.add_assoc. change (word_sum _ + last_octet _) with (sum16 bs).
  destruct (fold_carry_spec (init + sum16 bs)) as (k & Hk & E & Hr & Hp); [unfold sum16; fold n; lia|].
  exists (fold_carry 3 (init + sum16 bs)), k. rewrite u16_lnot by lia. split; [done|lia].
Qed.
