(* ===== verification/Buffer.v ===== *)
(** * The copy-on-write storage of packets ([src/network/model/buffer.{h,cc}])

    A [Buffer] is a window on a reference counted [Data]: the octets before
    its zero area, the zero area, which occupies no storage, and the octets
    after it.  Several buffers share a [Data]; each one keeps offsets of its
    own.  The storages are a heap of counted records with a free list; memory
    just allocated holds unknown octets ([h_fresh]).  An operation takes the
    fields of the buffer and returns the new ones; it stops with a fault where
    an assertion fails or an access falls outside of the storage.  Offsets are
    [uint32_t]: every sum and difference wraps.

    Not modelled: [CheckInternalState], whose body is disabled in the source,
    and the error messages.  A function that returns a local [Buffer] is taken
    to build it in place (the copy is elided). *)

From stdpp Require Import gmap.
From S2P Require Import Prelude Bytes.

(** ** The storages *)

Record Data := mkData {
  m_count : Z;
  m_size : Z;
  m_dirtyStart : Z;
  m_dirtyEnd : Z;
  m_bytes : list Z
}.

(** [g_freeList]: the pointer is null, a vector, or the mark of its
    destruction.  The vector is written from its back. *)
Inductive FreeList :=
| Uninitialized
| Initialized (l : list nat)
| Destroyed.

Record Heap := mkHeap {
  h_data : gmap nat Data;
  h_next : nat;
  h_fresh : nat -> nat -> Z;
  g_recommendedStart : Z;
  g_maxSize : Z;
  g_freeList : FreeList
}.

(** The state before the first buffer. *)
Definition initial_heap (fresh : nat -> nat -> Z) : Heap := mkHeap ∅ 0 fresh 0 0 Uninitialized.

Notation M := (st Heap).

Definition set_data (m : gmap nat Data) (h : Heap) : Heap :=
  mkHeap m (h_next h) (h_fresh h) (g_recommendedStart h) (g_maxSize h) (g_freeList h).
Definition set_recommendedStart (x : Z) (h : Heap) : Heap :=
  mkHeap (h_data h) (h_next h) (h_fresh h) x (g_maxSize h) (g_freeList h).
Definition set_maxSize (x : Z) (h : Heap) : Heap :=
  mkHeap (h_data h) (h_next h) (h_fresh h) (g_recommendedStart h) x (g_freeList h).
Definition set_freeList (l : FreeList) (h : Heap) : Heap :=
  mkHeap (h_data h) (h_next h) (h_fresh h) (g_recommendedStart h) (g_maxSize h) l.

Definition set_count (x : Z) (d : Data) : Data :=
  mkData x (m_size d) (m_dirtyStart d) (m_dirtyEnd d) (m_bytes d).
Definition set_dirtyStart (x : Z) (d : Data) : Data :=
  mkData (m_count d) (m_size d) x (m_dirtyEnd d) (m_bytes d).
Definition set_dirtyEnd (x : Z) (d : Data) : Data :=
  mkData (m_count d) (m_size d) (m_dirtyStart d) x (m_bytes d).
Definition set_bytes (bs : list Z) (d : Data) : Data :=
  mkData (m_count d) (m_size d) (m_dirtyStart d) (m_dirtyEnd d) bs.

(** Following a [Data *] and assigning through it. *)
Definition load (p : nat) : M Data := fun h =>
  match h_data h !! p with Some d => Ok (d, h) | None => Err UndefinedBehaviour end.
Definition store (p : nat) (d : Data) : M unit := update (fun h => set_data (<[p := d]> (h_data h)) h).
Definition modify (p : nat) (f : Data -> Data) : M unit := d ← load p; store p (f d).

(** [memcpy] from and to the octets of a storage; no octet, no access. *)
Definition slice (off len : Z) (bs : list Z) : list Z := take (Z.to_nat len) (drop (Z.to_nat off) bs).
Definition splice (off : Z) (src bs : list Z) : list Z :=
  take (Z.to_nat off) bs ++ src ++ drop (Z.to_nat off + length src) bs.
Definition within (off len : Z) (bs : list Z) : bool :=
  (len =? 0) || ((0 <=? off) && (0 <=? len) && (off + len <=? Z.of_nat (length bs))).
Definition peek (p : nat) (off len : Z) : M (list Z) :=
  d ← load p;
  if (within off len (m_bytes d) : bool) then mret (slice off len (m_bytes d))
  else lift (Err UndefinedBehaviour).
Definition poke (p : nat) (off : Z) (src : list Z) : M unit :=
  d ← load p;
  if (within off (Z.of_nat (length src)) (m_bytes d) : bool) then store p (set_bytes (splice off src (m_bytes d)) d)
  else lift (Err UndefinedBehaviour).

Definition Deallocate (p : nat) : M unit :=
  d ← load p;
  _ ← lift (ns_assert (m_count d =? 0));
  update (fun h => set_data (delete p (h_data h)) h).

Definition Allocate (reqSize : Z) : M nat :=
  let reqSize := if reqSize =? 0 then 1 else reqSize in
  p ← gets h_next;
  fresh ← gets h_fresh;
  let b := map (fun i => wrap 8 (fresh p i)) (seq 0 (Z.to_nat reqSize)) in
  _ ← update (fun h => mkHeap (<[p := mkData 1 reqSize 0 0 b]> (h_data h)) (S p) (h_fresh h)
                         (g_recommendedStart h) (g_maxSize h) (g_freeList h));
  mret p.

Definition is_initialized (l : FreeList) : bool := match l with Initialized _ => true | _ => false end.

Definition Recycle (p : nat) : M unit :=
  d ← load p;
  _ ← lift (ns_assert (m_count d =? 0));
  l ← gets g_freeList;
  _ ← lift (ns_assert (match l with Uninitialized => false | _ => true end));
  _ ← update (fun h => set_maxSize (Z.max (g_maxSize h) (m_size d)) h);
  maxSize ← gets g_maxSize;
  match l with
  | Initialized l' =>
      if (m_size d <? maxSize) || (1000 <? length l')%nat then Deallocate p
      else update (set_freeList (Initialized (p :: l')))
  | _ => Deallocate p
  end.

(** The search of [Create]: the last storages are freed until one is large
    enough. *)
Fixpoint reuse (dataSize : Z) (l : list nat) : M (option nat) :=
  match l with
  | [] => mret None
  | p :: l =>
      _ ← update (set_freeList (Initialized l));
      d ← load p;
      if dataSize <=? m_size d then _ ← store p (set_count 1 d); mret (Some p)
      else _ ← Deallocate p; reuse dataSize l
  end.

Definition Create (dataSize : Z) : M nat :=
  l ← gets g_freeList;
  found ← match l with
          | Uninitialized => _ ← update (set_freeList (Initialized [])); mret None
          | Initialized l => reuse dataSize l
          | Destroyed => mret None
          end;
  match found with
  | Some p => mret p
  | None =>
      p ← Allocate dataSize;
      d ← load p;
      _ ← lift (ns_assert (m_count d =? 1));
      mret p
  end.

(** [LocalStaticDestructor]: the free list goes away at the end of the program. *)
Definition static_destructor : M unit :=
  l ← gets g_freeList;
  match l with
  | Initialized l => _ ← each Deallocate l; update (set_freeList Destroyed)
  | _ => mret tt
  end.

(** ** Buffers *)

Record Buffer := mkBuffer {
  m_data : nat;
  m_maxZeroAreaStart : Z;
  m_zeroAreaStart : Z;
  m_zeroAreaEnd : Z;
  m_start : Z;
  m_end : Z
}.

#[export] Instance Buffer_eq_dec : EqDecision Buffer.
Proof. solve_decision. Defined.

(** New offsets on the same storage. *)
Definition offsets (zs ze start stop : Z) (b : Buffer) : Buffer :=
  mkBuffer (m_data b) (m_maxZeroAreaStart b) zs ze start stop.
Definition set_storage (p : nat) (b : Buffer) : Buffer :=
  mkBuffer p (m_maxZeroAreaStart b) (m_zeroAreaStart b) (m_zeroAreaEnd b) (m_start b) (m_end b).
(** [m_maxZeroAreaStart = std::max (m_maxZeroAreaStart, m_zeroAreaStart)] *)
Definition record_max (b : Buffer) : Buffer :=
  mkBuffer (m_data b) (Z.max (m_maxZeroAreaStart b) (m_zeroAreaStart b))
    (m_zeroAreaStart b) (m_zeroAreaEnd b) (m_start b) (m_end b).

Definition GetSize (b : Buffer) : Z := u32 (m_end b - m_start b).
Definition GetInternalSize (b : Buffer) : Z :=
  u32 (m_zeroAreaStart b - m_start b + m_end b - m_zeroAreaEnd b).
Definition GetInternalEnd (b : Buffer) : Z := u32 (m_end b - (m_zeroAreaEnd b - m_zeroAreaStart b)).

(** [Initialize], the body of the constructors. *)
Definition Initialize (zeroSize : Z) : M Buffer :=
  p ← Create 0;
  d ← load p;
  recommended ← gets g_recommendedStart;
  let start := Z.min (m_size d) recommended in
  let zeroAreaEnd := u32 (start + zeroSize) in
  _ ← modify p (fun d => set_dirtyEnd zeroAreaEnd (set_dirtyStart start d));
  mret (mkBuffer p start start zeroAreaEnd start zeroAreaEnd).

(** [m_data->m_count--], and the storage goes back when nobody uses it. *)
Definition release (p : nat) : M unit :=
  d ← load p;
  let d := set_count (u32 (m_count d - 1)) d in
  _ ← store p d;
  when (m_count d =? 0) (Recycle p).

Definition copy_constructor (o : Buffer) : M Buffer :=
  _ ← modify (m_data o) (fun d => set_count (u32 (m_count d + 1)) d);
  mret (mkBuffer (m_data o) (m_zeroAreaStart o) (m_zeroAreaStart o) (m_zeroAreaEnd o) (m_start o) (m_end o)).

(** [operator =], the left operand second. *)
Definition assign (o b : Buffer) : M Buffer :=
  _ ← when (negb (Nat.eqb (m_data b) (m_data o)))
        (_ ← release (m_data b);
         modify (m_data o) (fun d => set_count (u32 (m_count d + 1)) d));
  _ ← update (fun h => set_recommendedStart (Z.max (g_recommendedStart h) (m_maxZeroAreaStart b)) h);
  mret (mkBuffer (m_data o) (m_maxZeroAreaStart o) (m_zeroAreaStart o) (m_zeroAreaEnd o) (m_start o) (m_end o)).

Definition destructor (b : Buffer) : M unit :=
  _ ← update (fun h => set_recommendedStart (Z.max (g_recommendedStart h) (m_maxZeroAreaStart b)) h);
  release (m_data b).

Definition AddAtStart (start : Z) (b : Buffer) : M Buffer :=
  d ← load (m_data b);
  let isDirty := (1 <? m_count d) && (m_dirtyStart d <? m_start b) in
  b ← (if ((start <=? m_start b) && negb isDirty : bool) then
         _ ← lift (ns_assert ((m_count d =? 1) || (m_start b =? m_dirtyStart d)));
         let b := offsets (m_zeroAreaStart b) (m_zeroAreaEnd b) (u32 (m_start b - start)) (m_end b) b in
         _ ← modify (m_data b) (set_dirtyStart (m_start b));
         mret b
       else
         let newSize := u32 (GetInternalSize b + start) in
         newData ← Create newSize;
         old ← peek (m_data b) (m_start b) (GetInternalSize b);
         _ ← poke newData start old;
         _ ← release (m_data b);
         let delta := to_signed 32 (start - m_start b) in
         let b := offsets (u32 (m_zeroAreaStart b + delta)) (u32 (m_zeroAreaEnd b + delta))
                    (u32 (u32 (m_start b + delta) - start)) (u32 (m_end b + delta)) (set_storage newData b) in
         _ ← modify newData (fun d => set_dirtyEnd (m_end b) (set_dirtyStart (m_start b) d));
         mret b);
  mret (record_max b).

(** [AddAtEnd (uint32_t)] *)
Definition AddAtEnd (stop : Z) (b : Buffer) : M Buffer :=
  d ← load (m_data b);
  let isDirty := (1 <? m_count d) && (m_end b <? m_dirtyEnd d) in
  b ← (if ((u32 (GetInternalEnd b + stop) <=? m_size d) && negb isDirty : bool) then
         _ ← lift (ns_assert ((m_count d =? 1) || (m_end b =? m_dirtyEnd d)));
         let b := offsets (m_zeroAreaStart b) (m_zeroAreaEnd b) (m_start b) (u32 (m_end b + stop)) b in
         _ ← modify (m_data b) (set_dirtyEnd (m_end b));
         mret b
       else
         let newSize := u32 (GetInternalSize b + stop) in
         newData ← Create newSize;
         old ← peek (m_data b) (m_start b) (GetInternalSize b);
         _ ← poke newData 0 old;
         _ ← release (m_data b);
         let delta := to_signed 32 (- m_start b) in
         let b := offsets (u32 (m_zeroAreaStart b + delta)) (u32 (m_zeroAreaEnd b + delta))
                    (u32 (m_start b + delta)) (u32 (u32 (m_end b + delta) + stop)) (set_storage newData b) in
         _ ← modify newData (fun d => set_dirtyEnd (m_end b) (set_dirtyStart (m_start b) d));
         mret b);
  mret (record_max b).

Definition RemoveAtStart (start : Z) (b : Buffer) : res Buffer :=
  let newStart := u32 (m_start b + start) in
  b ← (if newStart <=? m_zeroAreaStart b then
         mret (offsets (m_zeroAreaStart b) (m_zeroAreaEnd b) newStart (m_end b) b)
       else if newStart <=? m_zeroAreaEnd b then
         let delta := u32 (newStart - m_zeroAreaStart b) in
         mret (offsets (m_zeroAreaStart b) (u32 (m_zeroAreaEnd b - delta)) (m_zeroAreaStart b)
                 (u32 (m_end b - delta)) b)
       else if newStart <=? m_end b then
         _ ← ns_assert (start <=? m_end b);
         let zeroSize := u32 (m_zeroAreaEnd b - m_zeroAreaStart b) in
         let start := u32 (newStart - zeroSize) in
         mret (offsets start start start (u32 (m_end b - zeroSize)) b)
       else
         let stop := u32 (m_end b - (m_zeroAreaEnd b - m_zeroAreaStart b)) in
         mret (offsets stop stop stop stop b));
  mret (record_max b).

Definition RemoveAtEnd (stop : Z) (b : Buffer) : Buffer :=
  let newEnd := u32 (m_end b - Z.min stop (u32 (m_end b - m_start b))) in
  record_max
    (if m_zeroAreaEnd b <? newEnd then
       offsets (m_zeroAreaStart b) (m_zeroAreaEnd b) (m_start b) newEnd b
     else if m_zeroAreaStart b <? newEnd then
       offsets (m_zeroAreaStart b) newEnd (m_start b) newEnd b
     else if m_start b <? newEnd then
       offsets newEnd newEnd (m_start b) newEnd b
     else offsets (m_start b) (m_start b) (m_start b) (m_start b) b).

Definition CreateFragment (start length : Z) (b : Buffer) : M Buffer :=
  tmp ← copy_constructor b;
  tmp ← lift (RemoveAtStart start tmp);
  mret (RemoveAtEnd (u32 (GetSize b - u32 (start + length))) tmp).

(** ** Iterators *)

Record Iterator := mkIterator {
  i_zeroStart : Z;
  i_zeroEnd : Z;
  i_dataStart : Z;
  i_dataEnd : Z;
  i_current : Z;
  i_data : nat
}.

Definition set_current (x : Z) (i : Iterator) : Iterator :=
  mkIterator (i_zeroStart i) (i_zeroEnd i) (i_dataStart i) (i_dataEnd i) x (i_data i).

(** [Construct], then [m_current] at one of the ends. *)
Definition Construct (b : Buffer) (current : Z) : Iterator :=
  mkIterator (m_zeroAreaStart b) (m_zeroAreaEnd b) (m_start b) (m_end b) current (m_data b).
Definition Begin (b : Buffer) : Iterator := Construct b (m_start b).
Definition End (b : Buffer) : Iterator := Construct b (m_end b).

Definition Next (delta : Z) (i : Iterator) : res Iterator :=
  _ ← ns_assert (u32 (i_current i + delta) <=? i_dataEnd i);
  mret (set_current (u32 (i_current i + delta)) i).
Definition Prev (delta : Z) (i : Iterator) : res Iterator :=
  _ ← ns_assert (delta <=? i_current i);
  mret (set_current (u32 (i_current i - delta)) i).
Definition advance (n : Z) (i : Iterator) : Iterator := set_current (u32 (i_current i + n)) i.

Definition IsEnd (i : Iterator) : bool := i_current i =? i_dataEnd i.
Definition IsStart (i : Iterator) : bool := i_current i =? i_dataStart i.
Definition it_GetSize (i : Iterator) : Z := u32 (i_dataEnd i - i_dataStart i).
Definition GetRemainingSize (i : Iterator) : Z := u32 (i_dataEnd i - i_current i).

Definition GetDistanceFrom (o i : Iterator) : res Z :=
  _ ← ns_assert (Nat.eqb (i_data i) (i_data o));
  let diff := to_signed 32 (i_current i - i_current o) in
  mret (u32 (if diff <? 0 then - diff else diff)).

Definition CheckNoZero (start stop : Z) (i : Iterator) : bool :=
  negb ((start <? i_dataStart i) || (i_dataEnd i <? stop) ||
        ((i_zeroStart i <? stop) && (start <? i_zeroEnd i) && negb (i_zeroEnd i =? i_zeroStart i) &&
         negb (start =? stop))).
Definition Check (k : Z) (i : Iterator) : bool :=
  (i_dataStart i <=? k) && negb ((i_zeroStart i <=? k) && (k <? i_zeroEnd i)) && (k <=? i_dataEnd i).

(** [m_current - (m_zeroEnd - m_zeroStart)] *)
Definition after_zeros (i : Iterator) : Z := u32 (i_current i - (i_zeroEnd i - i_zeroStart i)).

Definition WriteU8 (data : Z) (i : Iterator) : M Iterator :=
  _ ← lift (ns_assert (Check (i_current i) i));
  _ ← poke (i_data i) (if i_current i <? i_zeroStart i then i_current i else after_zeros i) [data];
  mret (advance 1 i).

(** [WriteU8 (data, len)] *)
Definition WriteU8_n (data len : Z) (i : Iterator) : M Iterator :=
  _ ← lift (ns_assert (CheckNoZero (i_current i) (u32 (i_current i + len)) i));
  _ ← poke (i_data i) (if i_current i <=? i_zeroStart i then i_current i else after_zeros i)
        (replicate (Z.to_nat len) data);
  mret (advance len i).

(** [Write (uint8_t const*, uint32_t)] *)
Definition Write (buffer : list Z) (i : Iterator) : M Iterator :=
  let size := Z.of_nat (length buffer) in
  _ ← lift (ns_assert (CheckNoZero (i_current i) size i));
  _ ← poke (i_data i) (if i_current i <=? i_zeroStart i then i_current i else after_zeros i) buffer;
  mret (advance size i).

(** The octets of an integer, most or least significant first. *)
Definition write_octets (n : Z) (octets : list Z) (i : Iterator) : M Iterator :=
  _ ← lift (ns_assert (CheckNoZero (i_current i) (u32 (i_current i + n)) i));
  _ ← poke (i_data i) (if u32 (i_current i + n) <=? i_zeroStart i then i_current i else after_zeros i) octets;
  mret (advance n i).
Definition WriteHtonU16 (data : Z) : Iterator -> M Iterator := write_octets 2 (Bytes.WriteHtonU16 data).
Definition WriteHtonU32 (data : Z) : Iterator -> M Iterator := write_octets 4 (Bytes.WriteHtonU32 data).

(** One [WriteU8] after the other. *)
Fixpoint write_each (l : list Z) (i : Iterator) : M Iterator :=
  match l with
  | [] => mret i
  | x :: l => i ← WriteU8 x i; write_each l i
  end.
Definition WriteU16 (data : Z) : Iterator -> M Iterator := write_each (Bytes.WriteU16 data).
Definition WriteU32 (data : Z) : Iterator -> M Iterator := write_each (Bytes.WriteU32 data).
Definition WriteU64 (data : Z) : Iterator -> M Iterator := write_each (Bytes.WriteU64 data).
Definition WriteHtonU64 (data : Z) : Iterator -> M Iterator := write_each (Bytes.WriteHtonU64 data).

(** [Write (Iterator, Iterator)]: from the octets of another storage.  The
    destination is indexed by [m_current], its own zero area not subtracted. *)
Definition Write_range (start stop i : Iterator) : M Iterator :=
  _ ← lift (ns_assert (Nat.eqb (i_data start) (i_data stop)));
  _ ← lift (ns_assert (i_current start <=? i_current stop));
  _ ← lift (ns_assert (i_zeroStart start =? i_zeroStart stop));
  _ ← lift (ns_assert (i_zeroEnd start =? i_zeroEnd stop));
  _ ← lift (ns_assert (negb (Nat.eqb (i_data i) (i_data start))));
  let size := u32 (i_current stop - i_current start) in
  _ ← lift (ns_assert (CheckNoZero (i_current i) (u32 (i_current i + size)) i));
  '(start, i, size) ←
    (if i_current start <=? i_zeroStart start then
       let toCopy := Z.min size (u32 (i_zeroStart start - i_current start)) in
       l ← peek (i_data start) (i_current start) toCopy;
       _ ← poke (i_data i) (i_current i) l;
       mret (advance toCopy start, advance toCopy i, u32 (size - toCopy))
     else mret (start, i, size));
  '(start, i, size) ←
    (if i_current start <=? i_zeroEnd start then
       let toCopy := Z.min size (u32 (i_zeroEnd start - i_current start)) in
       _ ← poke (i_data i) (i_current i) (replicate (Z.to_nat toCopy) 0);
       mret (advance toCopy start, advance toCopy i, u32 (size - toCopy))
     else mret (start, i, size));
  let toCopy := Z.min size (u32 (i_dataEnd start - i_current start)) in
  l ← peek (i_data start) (after_zeros start) toCopy;
  _ ← poke (i_data i) (i_current i) l;
  mret (advance toCopy i).

Definition PeekU8 (i : Iterator) : M Z :=
  _ ← lift (ns_assert ((i_dataStart i <=? i_current i) && (i_current i <? i_dataEnd i)));
  if i_current i <? i_zeroStart i then
    l ← peek (i_data i) (i_current i) 1; mret (hd 0 l)
  else if i_current i <? i_zeroEnd i then mret 0
  else l ← peek (i_data i) (after_zeros i) 1; mret (hd 0 l).

Definition ReadU8 (i : Iterator) : M (Z * Iterator) :=
  ret ← PeekU8 i; mret (ret, advance 1 i).

(** [for (i < size) buffer[i] = ReadU8 ()] *)
Fixpoint Read (size : nat) (i : Iterator) : M (list Z * Iterator) :=
  match size with
  | O => mret ([], i)
  | S n => '(x, i) ← ReadU8 i; '(l, i) ← Read n i; mret (x :: l, i)
  end.

(** [n] octets read one by one and put together by a parser of [Bytes]. *)
Definition slow_read (n : nat) (p : parser Z) (i : Iterator) : M (Z * Iterator) :=
  '(l, i) ← Read n i; '(x, _) ← lift (p l); mret (x, i).
Definition ReadU16 : Iterator -> M (Z * Iterator) := slow_read 2 Bytes.ReadU16.
Definition ReadU32 : Iterator -> M (Z * Iterator) := slow_read 4 Bytes.ReadU32.
Definition ReadU64 : Iterator -> M (Z * Iterator) := slow_read 8 Bytes.ReadU64.
Definition ReadNtohU64 : Iterator -> M (Z * Iterator) := slow_read 8 Bytes.ReadNtohU64.

(** The fast path reads the octets where they are, without the bounds check. *)
Definition fast_read (n : nat) (p : parser Z) (i : Iterator) : M (Z * Iterator) :=
  let len := Z.of_nat n in
  if u32 (i_current i + len) <=? i_zeroStart i then
    l ← peek (i_data i) (i_current i) len; '(x, _) ← lift (p l); mret (x, advance len i)
  else if i_zeroEnd i <=? i_current i then
    l ← peek (i_data i) (after_zeros i) len; '(x, _) ← lift (p l); mret (x, advance len i)
  else slow_read n p i.
Definition ReadNtohU16 : Iterator -> M (Z * Iterator) := fast_read 2 Bytes.ReadNtohU16.
Definition ReadNtohU32 : Iterator -> M (Z * Iterator) := fast_read 4 Bytes.ReadNtohU32.

(** [Read (Iterator, uint32_t)] *)
Definition Read_into (start : Iterator) (size : Z) (i : Iterator) : M Iterator :=
  stop ← lift (Next size i); Write_range i stop start.

(** ** Whole buffers *)

Definition CreateFullCopy (b : Buffer) : M Buffer :=
  let zeroSize := u32 (m_zeroAreaEnd b - m_zeroAreaStart b) in
  if negb (zeroSize =? 0) then
    tmp ← Initialize 0;
    tmp ← AddAtStart zeroSize tmp;
    _ ← WriteU8_n 0 zeroSize (Begin tmp);
    let dataStart := u32 (m_zeroAreaStart b - m_start b) in
    tmp ← AddAtStart dataStart tmp;
    before ← peek (m_data b) (m_start b) dataStart;
    _ ← Write before (Begin tmp);
    let dataEnd := u32 (m_end b - m_zeroAreaEnd b) in
    tmp ← AddAtEnd dataEnd tmp;
    i ← lift (Prev dataEnd (End tmp));
    after ← peek (m_data b) (m_zeroAreaStart b) dataEnd;
    _ ← Write after i;
    mret tmp
  else copy_constructor b.

(** [AddAtEnd (const Buffer &)], the argument another buffer than the receiver. *)
Definition AddAtEnd_buffer (o b : Buffer) : M Buffer :=
  d ← load (m_data b);
  if ((m_count d =? 1) &&
      ((m_end b =? m_zeroAreaEnd b) || (m_zeroAreaStart b =? m_zeroAreaEnd b)) &&
      (m_end b =? m_dirtyEnd d) &&
      (m_start o =? m_zeroAreaStart o) &&
      (0 <? u32 (m_zeroAreaEnd o - m_zeroAreaStart o)) : bool) then
    let zeroStart := if m_zeroAreaStart b =? m_zeroAreaEnd b then m_end b else m_zeroAreaStart b in
    let zeroSize := u32 (m_zeroAreaEnd o - m_zeroAreaStart o) in
    let zeroEnd := u32 (m_end b + zeroSize) in
    let b := offsets zeroStart zeroEnd (m_start b) zeroEnd b in
    _ ← modify (m_data b) (set_dirtyEnd zeroEnd);
    let endData := u32 (m_end o - m_zeroAreaEnd o) in
    b ← AddAtEnd endData b;
    dst ← lift (Prev endData (End b));
    src ← lift (Prev endData (End o));
    _ ← Write_range src (End o) dst;
    mret b
  else
    tmp ← CreateFullCopy b;
    b ← assign tmp b;
    _ ← destructor tmp;
    b ← AddAtEnd (GetSize o) b;
    destStart ← lift (Prev (GetSize o) (End b));
    _ ← Write_range (Begin o) (End o) destStart;
    mret b.

Definition TransformIntoRealBuffer (b : Buffer) : M Buffer :=
  tmp ← CreateFullCopy b;
  b ← assign tmp b;
  _ ← destructor tmp;
  mret b.

(** [PeekData] returns a pointer: the storage and the offset. *)
Definition PeekData (b : Buffer) : M (nat * Z * Buffer) :=
  b ← TransformIntoRealBuffer b;
  mret (m_data b, m_start b, b).

(** The zeros are written in runs of [g_zeroes.size] octets at most. *)
Definition g_zeroes_size : Z := 1000.
Fixpoint write_zeroes (fuel : nat) (left : Z) : list Z :=
  match fuel with
  | O => []
  | S n => if 0 <? left then
             let toWrite := Z.min left g_zeroes_size in
             replicate (Z.to_nat toWrite) 0 ++ write_zeroes n (u32 (left - toWrite))
           else []
  end.

(** [CopyData (uint8_t *, uint32_t)]: what is written to the caller's memory,
    and how much of it. *)
Definition CopyData (size : Z) (b : Buffer) : M (list Z * Z) :=
  if 0 <? size then
    let n1 := Z.min (u32 (m_zeroAreaStart b - m_start b)) size in
    l1 ← peek (m_data b) (m_start b) n1;
    let size1 := u32 (size - n1) in
    if 0 <? size1 then
      let n2 := Z.min (u32 (m_zeroAreaEnd b - m_zeroAreaStart b)) size1 in
      let l2 := write_zeroes (Z.to_nat n2) n2 in
      let size2 := u32 (size1 - n2) in
      if 0 <? size2 then
        let n3 := Z.min (u32 (m_end b - m_zeroAreaEnd b)) size2 in
        l3 ← peek (m_data b) (m_zeroAreaStart b) n3;
        mret (l1 ++ l2 ++ l3, u32 (size - u32 (size2 - n3)))
      else mret (l1 ++ l2, u32 (size - size2))
    else mret (l1, u32 (size - size1))
  else mret ([], 0).

(** [CopyData (std::ostream *, uint32_t)] *)
Definition CopyData_stream (size : Z) (b : Buffer) : M (list Z) :=
  if 0 <? size then
    let tmpsize := Z.min (u32 (m_zeroAreaStart b - m_start b)) size in
    l1 ← peek (m_data b) (m_start b) tmpsize;
    if tmpsize <? size then
      let size := u32 (size - u32 (m_zeroAreaStart b - m_start b)) in
      let tmpsize := Z.min (u32 (m_zeroAreaEnd b - m_zeroAreaStart b)) size in
      let l2 := write_zeroes (Z.to_nat tmpsize) tmpsize in
      if tmpsize <? size then
        let size := u32 (size - tmpsize) in
        l3 ← peek (m_data b) (m_zeroAreaStart b) (Z.min (u32 (m_end b - m_zeroAreaEnd b)) size);
        mret (l1 ++ l2 ++ l3)
      else mret (l1 ++ l2)
    else mret l1
  else mret [].

(** [(n + 3) & ~3] *)
Definition pad4 (n : Z) : Z := Z.land (u32 (n + 3)) (u32 (Z.lnot 3)).

Definition GetSerializedSize (b : Buffer) : Z :=
  let dataStart := pad4 (m_zeroAreaStart b - m_start b) in
  let dataEnd := pad4 (m_end b - m_zeroAreaEnd b) in
  u32 (4 + 4 + dataStart + 4 + dataEnd).

(** Writing in the caller's memory. *)
Definition put (off : Z) (src buffer : list Z) : res (list Z) :=
  if within off (Z.of_nat (length src)) buffer then Ok (splice off src buffer) else Err UndefinedBehaviour.

(** [Serialize (buffer, maxSize)]: the status and the memory after it. *)
Definition Serialize (buffer : list Z) (maxSize : Z) (b : Buffer) : M (Z * list Z) :=
  let size := 0 in
  if negb (u32 (size + 4) <=? maxSize) then mret (0, buffer) else
  let size := u32 (size + 4) in
  buffer ← lift (put 0 (Bytes.WriteU32 (u32 (m_zeroAreaEnd b - m_zeroAreaStart b))) buffer);
  let p := 4 in
  let dataStartLength := u32 (m_zeroAreaStart b - m_start b) in
  if negb (u32 (size + 4) <=? maxSize) then mret (0, buffer) else
  let size := u32 (size + 4) in
  buffer ← lift (put p (Bytes.WriteU32 dataStartLength) buffer);
  let p := p + 4 in
  if negb (u32 (size + pad4 dataStartLength) <=? maxSize) then mret (0, buffer) else
  let size := u32 (size + pad4 dataStartLength) in
  l ← peek (m_data b) (m_start b) dataStartLength;
  buffer ← lift (put p l buffer);
  let p := p + 4 * (pad4 dataStartLength / 4) in
  let dataEndLength := u32 (m_end b - m_zeroAreaEnd b) in
  if negb (u32 (size + 4) <=? maxSize) then mret (0, buffer) else
  let size := u32 (size + 4) in
  buffer ← lift (put p (Bytes.WriteU32 dataEndLength) buffer);
  let p := p + 4 in
  if negb (u32 (size + pad4 dataEndLength) <=? maxSize) then mret (0, buffer) else
  l ← peek (m_data b) (m_zeroAreaStart b) dataEndLength;
  buffer ← lift (put p l buffer);
  mret (1, buffer).

(** Reading the caller's memory. *)
Definition get (off len : Z) (buffer : list Z) : res (list Z) :=
  if within off len buffer then Ok (slice off len buffer) else Err UndefinedBehaviour.
Definition get_u32 (off : Z) (buffer : list Z) : res Z :=
  l ← get off 4 buffer; '(x, _) ← Bytes.ReadU32 l; mret x.

(** [Deserialize] of a buffer built with [Buffer (0, false)]. *)
Definition Deserialize (buffer : list Z) (size : Z) : M (Z * Buffer) :=
  let sizeCheck := u32 (size - 4) in
  _ ← lift (ns_assert (4 <=? sizeCheck));
  zeroDataLength ← lift (get_u32 0 buffer);
  let p := 4 in
  let sizeCheck := u32 (sizeCheck - 4) in
  b ← Initialize zeroDataLength;
  _ ← lift (ns_assert (4 <=? sizeCheck));
  dataStartLength ← lift (get_u32 p buffer);
  let p := p + 4 in
  let sizeCheck := u32 (sizeCheck - 4) in
  b ← AddAtStart dataStartLength b;
  _ ← lift (ns_assert (dataStartLength <=? sizeCheck));
  l ← lift (get p dataStartLength buffer);
  _ ← Write l (Begin b);
  let p := p + 4 * (pad4 dataStartLength / 4) in
  let sizeCheck := u32 (sizeCheck - pad4 dataStartLength) in
  _ ← lift (ns_assert (4 <=? sizeCheck));
  dataEndLength ← lift (get_u32 p buffer);
  let p := p + 4 in
  let sizeCheck := u32 (sizeCheck - 4) in
  b ← AddAtEnd dataEndLength b;
  _ ← lift (ns_assert (dataEndLength <=? sizeCheck));
  tmp ← lift (Prev dataEndLength (End b));
  l ← lift (get p dataEndLength buffer);
  _ ← Write l tmp;
  let sizeCheck := u32 (sizeCheck - pad4 dataEndLength) in
  _ ← lift (ns_assert (sizeCheck =? 0));
  mret (if negb (sizeCheck =? 0) then 0 else 1, b).
