(* ===== verification/BufferSpec.v ===== *)
(** * The storages and windows of [Buffer]: invariant and operations

    The storages are counted exactly ([refs_ok]): a storage is referenced as
    often as its count says, and one that nobody references is in the free
    list, once.  Each live buffer is a window on its storage ([window]); new
    octets are given out where no other window reaches.  An operation keeps
    the invariant ([heap_ok]), changes the [contents] of its buffer as
    specified and those of no other buffer. *)

From stdpp Require Import gmap.
From S2P Require Import Prelude Bytes Buffer.

(** ** Slices of a list *)

Lemma length_slice off len bs :
  0 <= off -> 0 <= len -> off + len <= Z.of_nat (length bs) -> Z.of_nat (length (slice off len bs)) = len.
Proof. intros. unfold slice. rewrite length_take, length_drop. lia. Qed.

Lemma lookup_slice off len bs k :
  0 <= off -> 0 <= k < len -> slice off len bs !! Z.to_nat k = bs !! Z.to_nat (off + k).
Proof.
  intros. unfold slice. rewrite lookup_take_lt by lia. rewrite lookup_drop. f_equal. lia.
Qed.

Lemma slice_nil off len bs : len <= 0 -> slice off len bs = [].
Proof. intros. unfold slice. by replace (Z.to_nat len) with 0%nat by lia. Qed.

Lemma slice_all bs len : Z.of_nat (length bs) = len -> slice 0 len bs = bs.
Proof. intros <-. unfold slice. simpl. rewrite drop_0, Nat2Z.id. apply firstn_all. Qed.

Lemma slice_app off a b bs : 0 <= off -> 0 <= a -> 0 <= b -> slice off (a + b) bs = slice off a bs ++ slice (off + a) b bs.
Proof.
  intros. unfold slice. rewrite !Z2Nat.inj_add by lia. by rewrite <- drop_drop, take_take_drop.
Qed.

Lemma slice_ext off off' len bs bs' :
  0 <= off -> 0 <= off' ->
  (forall k, 0 <= k < len -> bs !! Z.to_nat (off + k) = bs' !! Z.to_nat (off' + k)) ->
  slice off len bs = slice off' len bs'.
Proof.
  intros Ho Ho' H. apply list_eq. intros i. destruct (decide (Z.of_nat i < len)) as [Hi|Hi].
  - rewrite <- (Nat2Z.id i), !lookup_slice by lia. apply H. lia.
  - unfold slice. rewrite !lookup_take_ge by lia. done.
Qed.

Lemma length_splice off src bs :
  0 <= off -> off + Z.of_nat (length src) <= Z.of_nat (length bs) -> length (splice off src bs) = length bs.
Proof. intros. unfold splice. rewrite !length_app, length_take, length_drop. lia. Qed.

Lemma lookup_splice off src bs k :
  0 <= off -> off + Z.of_nat (length src) <= Z.of_nat (length bs) -> 0 <= k ->
  splice off src bs !! Z.to_nat k =
  if (off <=? k) && (k <? off + Z.of_nat (length src)) then src !! Z.to_nat (k - off) else bs !! Z.to_nat k.
Proof.
  intros. unfold splice. assert (length (take (Z.to_nat off) bs) = Z.to_nat off) as El by (rewrite length_take; lia).
  destruct (Z.leb_spec off k); simpl.
  - rewrite lookup_app_r by lia. rewrite El. destruct (Z.ltb_spec k (off + Z.of_nat (length src))).
    + rewrite lookup_app_l by lia. f_equal. lia.
    + rewrite lookup_app_r by lia. rewrite lookup_drop. f_equal. lia.
  - rewrite lookup_app_l by lia. apply lookup_take_lt. lia.
Qed.

(** A slice apart from the octets written, and one inside of them. *)
Lemma slice_splice_apart off src bs k len :
  0 <= off -> off + Z.of_nat (length src) <= Z.of_nat (length bs) -> 0 <= k ->
  k + len <= off \/ off + Z.of_nat (length src) <= k -> slice k len (splice off src bs) = slice k len bs.
Proof.
  intros ? ? Hk Hd. apply slice_ext; [done..|]. intros j Hj. rewrite lookup_splice by lia.
  destruct (Z.leb_spec off (k + j)), (Z.ltb_spec (k + j) (off + Z.of_nat (length src))); simpl; try done; lia.
Qed.
Lemma slice_splice_in off src bs k len :
  0 <= off -> off + Z.of_nat (length src) <= Z.of_nat (length bs) -> off <= k ->
  k + len <= off + Z.of_nat (length src) -> slice k len (splice off src bs) = slice (k - off) len src.
Proof.
  intros ? ? Hk Hd. apply slice_ext; [lia..|]. intros j Hj. rewrite lookup_splice by lia.
  rewrite (proj2 (Z.leb_le _ _)), (proj2 (Z.ltb_lt _ _)) by lia. simpl. f_equal. lia.
Qed.
Lemma slice_slice off len bs k n :
  0 <= off -> 0 <= k -> k + n <= len -> slice k n (slice off len bs) = slice (off + k) n bs.
Proof.
  intros. apply slice_ext; [lia..|]. intros j Hj. rewrite lookup_slice by lia. f_equal. lia.
Qed.

(** ** The counted storages *)

Definition limit : Z := 2 ^ 31.

Definition free (l : FreeList) : list nat := match l with Initialized l => l | _ => [] end.
Definition refcount (p : nat) (refs : list nat) : Z := Z.of_nat (count_occ Nat.eq_dec refs p).

Record data_ok (refs : list nat) (p : nat) (d : Data) : Prop := {
  d_count : m_count d = refcount p refs;
  d_length : m_size d = Z.of_nat (length (m_bytes d));
  d_size : 1 <= m_size d < limit
}.

(** [refs]: the [m_data] pointers of the live buffers, with repetitions. *)
Record refs_ok (refs : list nat) (h : Heap) : Prop := {
  r_data p d : h_data h !! p = Some d -> data_ok refs p d;
  r_live p : p ∈ refs -> is_Some (h_data h !! p);
  r_next p : is_Some (h_data h !! p) -> (p < h_next h)%nat;
  r_free_nodup : NoDup (free (g_freeList h));
  r_free p : p ∈ free (g_freeList h) <-> is_Some (h_data h !! p) /\ p ∉ refs;
  r_uninitialized : g_freeList h = Uninitialized -> refs = [];
  r_few : Z.of_nat (length refs) < 2 ^ 32;
  r_recommended : 0 <= g_recommendedStart h
}.

(** The storages of [refs] are the same, the counts apart. *)
Definition same (refs : list nat) (h h' : Heap) : Prop :=
  forall p, p ∈ refs -> set_count 0 <$> (h_data h' !! p) = set_count 0 <$> (h_data h !! p).

#[export] Instance same_refl refs : Reflexive (same refs).
Proof. by intros h p _. Qed.
#[export] Instance same_trans refs : Transitive (same refs).
Proof. intros h1 h2 h3 H12 H23 p Hp. by rewrite (H23 p Hp), (H12 p Hp). Qed.
Lemma same_incl refs refs' h h' : refs' ⊆ refs -> same refs h h' -> same refs' h h'.
Proof. intros Hin Hs p Hp. apply Hs, Hin, Hp. Qed.

Lemma refcount_cons p q refs : refcount p (q :: refs) = (if decide (q = p) then 1 else 0) + refcount p refs.
Proof. unfold refcount. simpl. destruct (Nat.eq_dec q p), (decide (q = p)); try done; lia. Qed.
Lemma refcount_zero p refs : p ∉ refs <-> refcount p refs = 0.
Proof.
  unfold refcount. rewrite list_elem_of_In, (count_occ_not_In Nat.eq_dec). lia.
Qed.
Lemma refcount_pos p refs : p ∈ refs <-> 0 < refcount p refs.
Proof. unfold refcount. rewrite list_elem_of_In, (count_occ_In Nat.eq_dec). lia. Qed.
Lemma refcount_le p refs : refcount p refs <= Z.of_nat (length refs).
Proof. unfold refcount. pose proof (count_occ_bound Nat.eq_dec p refs). lia. Qed.

#[export] Instance refs_ok_perm : Proper ((≡ₚ) ==> (=) ==> iff) refs_ok.
Proof.
  cut (forall r1 r2 h, r1 ≡ₚ r2 -> refs_ok r1 h -> refs_ok r2 h).
  { intros H r1 r2 Hp h _ <-. split; by apply H. }
  intros r1 r2 h Hp [Hd Hl Hn Hnd Hf Hu Hw Hr]. split; try done.
  - intros p d E. destruct (Hd p d E) as [Hc ? ?]. split; try done. rewrite Hc. unfold refcount.
    f_equal. by apply Permutation_count_occ.
  - intros p. rewrite <- Hp. apply Hl.
  - intros p. rewrite <- Hp. apply Hf.
  - intros E. apply Permutation_nil. rewrite <- Hp. symmetry. by rewrite Hu.
  - by rewrite <- Hp.
Qed.

Lemma run_load {B} p d (k : Data -> M B) h : h_data h !! p = Some d -> (load p ≫= k) h = k d h.
Proof. intros E. unfold mbind, st_bind, load. by rewrite E. Qed.

(** The heap with another storage at [p]. *)
Definition upd (p : nat) (d : Data) (h : Heap) : Heap := set_data (<[p := d]> (h_data h)) h.
Lemma run_store {B} p d (k : unit -> M B) h : (store p d ≫= k) h = k tt (upd p d h).
Proof. done. Qed.
Lemma modify_ok p f d h : h_data h !! p = Some d -> modify p f h = Ok (tt, upd p (f d) h).
Proof. intros E. unfold modify. by rewrite (run_load _ _ _ _ E). Qed.
Lemma run_mod {B} p f d (k : unit -> M B) h :
  h_data h !! p = Some d -> (modify p f ≫= k) h = k tt (upd p (f d) h).
Proof. intros E. by rewrite (run_bind _ _ _ _ _ (modify_ok _ f _ _ E)). Qed.

Lemma lookup_upd p d h : h_data (upd p d h) !! p = Some d.
Proof. apply lookup_insert_eq. Qed.
Lemma lookup_upd_ne p q d h : p <> q -> h_data (upd p d h) !! q = h_data h !! q.
Proof. apply lookup_insert_ne. Qed.

(** Writing in a live storage, its count and its size unchanged. *)
Lemma upd_refs refs p d d' h :
  refs_ok refs h -> h_data h !! p = Some d -> m_count d' = m_count d -> m_size d' = m_size d ->
  length (m_bytes d') = length (m_bytes d) -> refs_ok refs (upd p d' h).
Proof.
  intros [Hd Hl Hn Hnd Hf Hu Hw Hr] E Ec Es El.
  assert (forall q, is_Some (h_data (upd p d' h) !! q) <-> is_Some (h_data h !! q)) as Hs.
  { intros q. destruct (decide (p = q)) as [<-|]; [|by rewrite lookup_upd_ne].
    rewrite lookup_upd, E. split; eauto. }
  split; try done.
  - intros q dq Eq. destruct (decide (p = q)) as [<-|].
    + rewrite lookup_upd in Eq. injection Eq as <-. destruct (Hd p d E) as [? ? ?]. split; congruence.
    + rewrite lookup_upd_ne in Eq by done. eauto.
  - intros q Hq. apply Hs. auto.
  - intros q Hq. apply Hn, Hs, Hq.
  - intros q. etransitivity; [apply Hf|]. by rewrite Hs.
Qed.

(** The storage of an entry of the free list goes away. *)
Lemma Deallocate_free refs p l h :
  refs_ok refs h -> g_freeList h = Initialized (p :: l) ->
  exists h', Deallocate p (set_freeList (Initialized l) h) = Ok (tt, h') /\ refs_ok refs h' /\ same refs h h' /\ g_freeList h' = Initialized l /\ g_recommendedStart h' = g_recommendedStart h.
Proof.
  intros [Hd Hl Hn Hnd Hf Hu Hw Hr] El. rewrite El in *. simpl in *.
  destruct (proj1 (Hf p)) as [[d Ed] Hp]; [by left|].
  destruct (Hd p d Ed) as [Hc _ _]. rewrite (proj1 (refcount_zero p refs) Hp) in Hc.
  apply NoDup_cons in Hnd as [Hpl Hnd].
  exists (set_data (delete p (h_data h)) (set_freeList (Initialized l) h)).
  assert (forall q, q <> p -> delete p (h_data h) !! q = h_data h !! q) as Hne by (intros; by apply lookup_delete_ne).
  split; [|split; [|split; [|done]]].
  - unfold Deallocate. erewrite run_load by exact Ed. by rewrite Hc.
  - split; simpl; try done.
    + intros q dq Eq. destruct (decide (q = p)) as [->|]; [by rewrite lookup_delete_eq in Eq|].
      rewrite Hne in Eq by done. eauto.
    + intros q Hq. rewrite Hne by (by intros ->). auto.
    + intros q Hq. destruct (decide (q = p)) as [->|]; [by rewrite lookup_delete_eq in Hq; destruct Hq|].
      rewrite Hne in Hq by done. auto.
    + intros q. destruct (decide (q = p)) as [->|].
      * rewrite lookup_delete_eq. split; [done|]. by intros [[? [=]] _].
      * rewrite Hne by done. rewrite <- Hf, elem_of_cons. intuition.
  - intros q Hq. simpl. rewrite Hne by (by intros ->). done.
Qed.

(** A new reference to a storage nobody uses. *)
Lemma add_ref refs p d h l :
  refs_ok refs h -> h_data h !! p = Some d -> free (g_freeList h) ≡ₚ p :: free l -> l <> Uninitialized ->
  Z.of_nat (S (length refs)) < 2 ^ 32 -> refs_ok (p :: refs) (upd p (set_count 1 d) (set_freeList l h)).
Proof.
  intros [Hd Hl Hn Hnd Hf Hu Hw Hr] E El Hl' Hlt. setoid_rewrite El in Hf. rewrite El in Hnd.
  apply NoDup_cons in Hnd as [Hpl Hnd]. destruct (proj1 (Hf p)) as [_ Hp]; [by left|].
  assert (forall q, is_Some (h_data (upd p (set_count 1 d) (set_freeList l h)) !! q) <-> is_Some (h_data h !! q)) as Hs.
  { intros q. destruct (decide (p = q)) as [<-|]; [|by rewrite lookup_upd_ne].
    rewrite lookup_upd, E. split; eauto. }
  split; try done.
  - intros q dq Eq. destruct (decide (p = q)) as [<-|Hne].
    + rewrite lookup_upd in Eq. injection Eq as <-. destruct (Hd p d E) as [? ? ?]. split; try done.
      rewrite refcount_cons, decide_True, (proj1 (refcount_zero p refs)) by done. done.
    + rewrite lookup_upd_ne in Eq by done. destruct (Hd q dq Eq) as [? ? ?]. split; try done.
      by rewrite refcount_cons, decide_False by done.
  - intros q Hq. apply Hs. apply elem_of_cons in Hq as [->|Hq]; [by eexists|auto].
  - intros q Hq. apply Hn, Hs, Hq.
  - intros q. rewrite Hs. split.
    + intros Hq. split; [apply Hf; by right|]. rewrite not_elem_of_cons. split; [by intros ->|].
      apply Hf. by right.
    + intros [Hq Hnq]. apply not_elem_of_cons in Hnq as [Hne Hnq].
      assert (q ∈ p :: free l) as Hin by (apply Hf; done). by apply elem_of_cons in Hin as [->|].
Qed.

Lemma reuse_ok n refs l h :
  refs_ok refs h -> g_freeList h = Initialized l -> Z.of_nat (S (length refs)) < 2 ^ 32 ->
  exists o h', reuse n l h = Ok (o, h') /\ same refs h h' /\ g_recommendedStart h' = g_recommendedStart h /\ match o with
    | Some p => exists d, p ∉ refs /\ h_data h' !! p = Some d /\ n <= m_size d /\ refs_ok (p :: refs) h'
    | None => g_freeList h' = Initialized [] /\ refs_ok refs h'
    end.
Proof.
  revert h. induction l as [|p l IH]; intros h Hok El Hlt.
  - exists None, h. do 3 (split; [done|]). done.
  - cbn [reuse]. run. pose proof Hok as [Hd Hl Hn Hnd Hf Hu Hw Hr]. rewrite El in Hf. simpl in Hf.
    destruct (proj1 (Hf p)) as [[d Ed] Hp]; [by left|]. erewrite run_load by exact Ed.
    destruct (Z.leb_spec n (m_size d)).
    + rewrite run_store. exists (Some p), (upd p (set_count 1 d) (set_freeList (Initialized l) h)). split; [done|].
      split; [|split; [done|]].
      * intros q Hq. rewrite lookup_upd_ne by (by intros ->). done.
      * exists (set_count 1 d). split; [done|]. rewrite lookup_upd. split; [done|]. split; [done|].
        apply add_ref; [done..|by rewrite El|done|done].
    + destruct (Deallocate_free refs p l h) as (h1 & E1 & Hok1 & Hs1 & El1 & Er1); [done..|].
      rewrite (run_bind _ _ _ _ _ E1). destruct (IH h1) as (o & h' & E' & Hs' & Er' & Ho); [done..|].
      exists o, h'. split; [done|]. split; [by etransitivity|]. split; [congruence|done].
Qed.

(** A storage just allocated. *)
Lemma Allocate_ok n refs h :
  refs_ok refs h -> 0 <= n < limit -> g_freeList h <> Uninitialized -> Z.of_nat (S (length refs)) < 2 ^ 32 ->
  exists p d h', Allocate n h = Ok (p, h') /\ p ∉ refs /\ h_data h' !! p = Some d /\ m_count d = 1 /\
    n <= m_size d /\ refs_ok (p :: refs) h' /\ same refs h h' /\ g_recommendedStart h' = g_recommendedStart h.
Proof.
  intros [Hd Hl Hn Hnd Hf Hu Hw Hr] Hlim Hun Hlt.
  assert (h_data h !! h_next h = None) as Hnone.
  { destruct (h_data h !! h_next h) eqn:E; [|done]. pose proof (Hn (h_next h) ltac:(by eexists)). lia. }
  assert (h_next h ∉ refs) as Hp by (intros Hp; apply Hl in Hp as [? ?]; congruence).
  unfold Allocate. run. set (size := if n =? 0 then 1 else n).
  assert (n <= size /\ 1 <= size < limit) as [? ?].
  { unfold size, limit in *. destruct (Z.eqb_spec n 0); lia. }
  do 3 eexists. split; [reflexivity|]. simpl. rewrite lookup_insert_eq.
  split; [done|]. split; [done|]. split; [done|]. split; [done|]. split; [|split; [|done]].
  - split; simpl; try done.
    + intros q d Eq. destruct (decide (h_next h = q)) as [<-|Hne].
      * rewrite lookup_insert_eq in Eq. injection Eq as <-. split; simpl; [|rewrite length_map, length_seq; lia|done].
        rewrite refcount_cons, decide_True, (proj1 (refcount_zero _ refs)) by done. done.
      * rewrite lookup_insert_ne in Eq by done. destruct (Hd q d Eq) as [? ? ?]. split; try done.
        by rewrite refcount_cons, decide_False by done.
    + intros q [->|Hq]%elem_of_cons; [rewrite lookup_insert_eq; by eexists|].
      rewrite lookup_insert_ne by (by intros <-). auto.
    + intros q Hq. destruct (decide (h_next h = q)) as [<-|Hne]; [lia|].
      rewrite lookup_insert_ne in Hq by done. apply Hn in Hq. lia.
    + intros q. rewrite Hf, not_elem_of_cons. destruct (decide (h_next h = q)) as [<-|Hne].
      * rewrite Hnone, lookup_insert_eq. split; [|intuition]. by intros [[? [=]] _].
      * rewrite lookup_insert_ne by done. intuition.
  - intros q Hq. simpl. rewrite lookup_insert_ne by (by intros <-). done.
Qed.

Lemma Create_ok n refs h :
  refs_ok refs h -> 0 <= n < limit -> Z.of_nat (S (length refs)) < 2 ^ 32 ->
  exists p d h', Create n h = Ok (p, h') /\ p ∉ refs /\ h_data h' !! p = Some d /\ m_count d = 1 /\
    n <= m_size d /\ refs_ok (p :: refs) h' /\ same refs h h' /\ g_recommendedStart h' = g_recommendedStart h.
Proof.
  intros Hok Hlim Hlt. unfold Create. run.
  assert (forall h1, refs_ok refs h1 -> same refs h h1 -> g_freeList h1 <> Uninitialized ->
    g_recommendedStart h1 = g_recommendedStart h ->
    exists p d h', (p ← Allocate n; d ← load p; _ ← lift (ns_assert (m_count d =? 1)); mret p) h1 = Ok (p, h') /\
      p ∉ refs /\ h_data h' !! p = Some d /\ m_count d = 1 /\
      n <= m_size d /\ refs_ok (p :: refs) h' /\ same refs h h' /\ g_recommendedStart h' = g_recommendedStart h) as Halloc.
  { intros h1 H1 Hs1 Hu1 Er1. destruct (Allocate_ok n refs h1) as (p & d & h' & E & Hp & Ed & Ec & Hsz & Hok' & Hs' & Er'); [done..|].
    exists p, d, h'. rewrite (run_bind _ _ _ _ _ E). erewrite run_load by exact Ed. rewrite Ec. simpl.
    do 5 (split; [done|]). split; [done|]. split; [by etransitivity|congruence]. }
  destruct (g_freeList h) as [|l|] eqn:El.
  - rewrite (run_bind _ _ h None (set_freeList (Initialized []) h)) by done.
    apply Halloc; [|done|done|done]. destruct Hok as [Hd Hl Hn Hnd Hf Hu Hw Hr]. rewrite El in *. by split.
  - destruct (reuse_ok n refs l h) as (o & h1 & E & Hs & Er & Ho); [done..|].
    rewrite (run_bind _ _ _ _ _ E). destruct o as [p|].
    + destruct Ho as (d & Hp & Ed & Hsz & Hok'). exists p, d, h1. split; [done|].
      split; [done|]. split; [done|].
      split; [|done]. rewrite (d_count _ _ _ (r_data _ _ Hok' p d Ed)), refcount_cons, decide_True by done.
      by rewrite (proj1 (refcount_zero p refs) Hp).
    + destruct Ho as [El1 Hok1]. apply Halloc; [done..|by rewrite El1|done].
  - rewrite (run_bind _ _ h None h) by done. apply Halloc; try done. by rewrite El.
Qed.

(** One reference less: the storage is recycled with the last one. *)
Lemma Recycle_ok refs p d h :
  refs_ok (p :: refs) h -> h_data h !! p = Some d -> p ∉ refs ->
  exists h', Recycle p (upd p (set_count 0 d) h) = Ok (tt, h') /\ refs_ok refs h' /\ same refs h h' /\
    g_recommendedStart h' = g_recommendedStart h.
Proof.
  intros [Hd Hl Hn Hnd Hf Hu Hw Hr] E Hp. setoid_rewrite not_elem_of_cons in Hf. setoid_rewrite elem_of_cons in Hl.
  unfold Recycle. erewrite run_load by apply lookup_upd. rewrite (run_assert _ _ _ eq_refl). run. simpl (g_freeList _).
  assert (g_freeList h <> Uninitialized) as Hun by (intros Eu; by specialize (Hu Eu)).
  rewrite (run_bind _ _ _ tt (upd p (set_count 0 d) h)) by (by destruct (g_freeList h)). run. simpl (g_maxSize _).
  assert (forall q dq, q <> p -> h_data h !! q = Some dq -> data_ok refs q dq) as Hne.
  { intros q dq Hq Eq. destruct (Hd q dq Eq) as [Hc ? ?]. split; try done.
    rewrite Hc, refcount_cons, decide_False by done. lia. }
  assert (exists h', Deallocate p (set_maxSize (Z.max (g_maxSize h) (m_size d)) (upd p (set_count 0 d) h)) = Ok (tt, h') /\
    refs_ok refs h' /\ same refs h h' /\ g_recommendedStart h' = g_recommendedStart h) as Hfree.
  { unfold Deallocate. erewrite run_load by apply lookup_upd. rewrite (run_assert _ _ _ eq_refl). unfold update.
    eexists. split; [reflexivity|]. simpl in *. rewrite delete_insert_eq. split; [|split; [|done]].
    - split; simpl; try done.
      + intros q dq Eq. destruct (decide (q = p)) as [->|]; [by rewrite lookup_delete_eq in Eq|].
        rewrite lookup_delete_ne in Eq by done. eauto.
      + intros q Hq. rewrite lookup_delete_ne by (by intros ->). auto.
      + intros q Hq. destruct (decide (q = p)) as [->|]; [rewrite lookup_delete_eq in Hq; by destruct Hq|].
        rewrite lookup_delete_ne in Hq by done. auto.
      + intros q. rewrite Hf. destruct (decide (q = p)) as [->|].
        * rewrite lookup_delete_eq. split; [intuition|]. by intros [[? [=]] _].
        * rewrite lookup_delete_ne by done. intuition.
      + lia.
    - intros q Hq. simpl. rewrite lookup_delete_ne by (by intros ->). done. }
  destruct (g_freeList h) as [|l|] eqn:El; [done| |exact Hfree].
  simpl (m_size _). simpl (g_maxSize _). destruct (_ || _); [exact Hfree|].
  eexists. split; [reflexivity|]. split; [|split; [|done]].
  - split; simpl in *; try done.
    + intros q dq Eq. destruct (decide (p = q)) as [<-|].
      * rewrite lookup_insert_eq in Eq. injection Eq as <-. destruct (Hd p d E) as [? ? ?]. split; try done.
        simpl. by rewrite (proj1 (refcount_zero p refs) Hp).
      * rewrite lookup_insert_ne in Eq by done. eauto.
    + intros q Hq. rewrite lookup_insert_ne by (by intros ->). auto.
    + intros q Hq. apply Hn. destruct (decide (p = q)) as [<-|]; [by eexists|]. by rewrite lookup_insert_ne in Hq.
    + apply NoDup_cons. split; [|done]. rewrite Hf. intuition.
    + intros q. rewrite elem_of_cons, Hf. destruct (decide (p = q)) as [<-|].
      * rewrite lookup_insert_eq. split; [by eauto|]. by left.
      * rewrite lookup_insert_ne by done. intuition congruence.
    + lia.
  - intros q Hq. simpl. rewrite lookup_insert_ne by (by intros ->). done.
Qed.

Lemma release_ok refs p h :
  refs_ok (p :: refs) h ->
  exists h', release p h = Ok (tt, h') /\ refs_ok refs h' /\ same refs h h' /\
    g_recommendedStart h' = g_recommendedStart h.
Proof.
  intros Hok. destruct (r_live _ _ Hok p) as [d E]; [by left|]. unfold release.
  erewrite run_load by exact E. rewrite run_store. destruct (r_data _ _ Hok p d E) as [Hc Hlen Hsz].
  rewrite refcount_cons, decide_True in Hc by done. pose proof (refcount_le p refs) as Hle.
  pose proof (r_few _ _ Hok) as Hw. simpl in Hw. assert (0 <= refcount p refs) by (unfold refcount; lia).
  rewrite (wrap_small 32) by (unfold in_range; lia). replace (m_count d - 1) with (refcount p refs) by lia.
  simpl (m_count _). destruct (decide (p ∈ refs)) as [Hp|Hp].
  - apply refcount_pos in Hp as Hpos. unfold when. rewrite (proj2 (Z.eqb_neq _ _)) by lia.
    eexists. split; [reflexivity|]. split; [|split; [|done]].
    + destruct Hok as [Hd Hl Hn Hnd Hf Hu _ Hr]. setoid_rewrite not_elem_of_cons in Hf. setoid_rewrite elem_of_cons in Hl.
      assert (forall q, is_Some (<[p := set_count (refcount p refs) d]> (h_data h) !! q) <-> is_Some (h_data h !! q)) as Hs.
      { intros q. destruct (decide (p = q)) as [<-|]; [|by rewrite lookup_insert_ne]. rewrite lookup_insert_eq, E.
        split; eauto. }
      split; simpl; try done.
      * intros q dq Eq. destruct (decide (p = q)) as [<-|Hne].
        -- rewrite lookup_insert_eq in Eq. injection Eq as <-. by split.
        -- rewrite lookup_insert_ne in Eq by done. destruct (Hd q dq Eq) as [Hcq ? ?]. split; try done.
           rewrite Hcq, refcount_cons, decide_False by done. lia.
      * intros q Hq. apply Hs. auto.
      * intros q Hq. apply Hn, Hs, Hq.
      * intros q. rewrite Hs, Hf. split; [intuition|]. intros [? ?]. split; [done|]. split; [|done]. by intros ->.
      * intros Eu. by specialize (Hu Eu).
      * lia.
    + intros q Hq. destruct (decide (p = q)) as [<-|]; [rewrite lookup_upd, E|rewrite lookup_upd_ne by done]; done.
  - apply refcount_zero in Hp as Hz. rewrite Hz. unfold when. simpl (_ =? _). cbv iota.
    by apply Recycle_ok.
Qed.

(** One reference more to a live storage. *)
Lemma retain_refs refs p d h :
  refs_ok refs h -> h_data h !! p = Some d -> p ∈ refs -> Z.of_nat (S (length refs)) < 2 ^ 32 ->
  refs_ok (p :: refs) (upd p (set_count (u32 (m_count d + 1)) d) h) /\
  same refs h (upd p (set_count (u32 (m_count d + 1)) d) h).
Proof.
  intros [Hd Hl Hn Hnd Hf Hu Hw Hr] E Hp Hlt. destruct (Hd p d E) as [Hc Hlen Hsz].
  pose proof (refcount_le p refs) as Hle. assert (0 <= refcount p refs) by (unfold refcount; lia).
  rewrite (wrap_small 32) by (unfold in_range; lia).
  assert (forall q, is_Some (h_data (upd p (set_count (m_count d + 1) d) h) !! q) <-> is_Some (h_data h !! q)) as Hs.
  { intros q. destruct (decide (p = q)) as [<-|]; [|by rewrite lookup_upd_ne]. rewrite lookup_upd, E. split; eauto. }
  split; [split; try done|].
  - intros q dq Eq. destruct (decide (p = q)) as [<-|Hne].
    + rewrite lookup_upd in Eq. injection Eq as <-. split; try done. rewrite refcount_cons, decide_True by done. simpl. lia.
    + rewrite lookup_upd_ne in Eq by done. destruct (Hd q dq Eq) as [Hcq ? ?]. split; try done.
      by rewrite refcount_cons, decide_False by done.
  - intros q [->|Hq]%elem_of_cons; apply Hs; auto.
  - intros q Hq. apply Hn, Hs, Hq.
  - intros q. etransitivity; [apply Hf|]. rewrite Hs, not_elem_of_cons. split; [|intuition].
    intros [? ?]. split; [done|]. split; [|done]. by intros ->.
  - intros Eu. by rewrite (Hu Eu) in Hp; apply elem_of_nil in Hp.
  - intros q Hq. destruct (decide (p = q)) as [<-|]; [rewrite lookup_upd, E|rewrite lookup_upd_ne by done]; done.
Qed.

(** ** Windows *)

(** Where the octets after the zero area end in the storage. *)
Definition internal_end (b : Buffer) : Z := m_end b - (m_zeroAreaEnd b - m_zeroAreaStart b).
Definition size (b : Buffer) : Z := m_end b - m_start b.
Definition zeros (b : Buffer) : Z := m_zeroAreaEnd b - m_zeroAreaStart b.

Record window (b : Buffer) (d : Data) : Prop := {
  w_dirtyStart : 0 <= m_dirtyStart d <= m_start b;
  w_zeroStart : m_start b <= m_zeroAreaStart b;
  w_zeroEnd : m_zeroAreaStart b <= m_zeroAreaEnd b;
  w_end : m_zeroAreaEnd b <= m_end b;
  w_dirtyEnd : m_end b <= m_dirtyEnd d;
  w_size : internal_end b <= m_size d;
  w_limit : size b < limit
}.

(** The octets a buffer stands for. *)
Definition window_contents (b : Buffer) (bs : list Z) : list Z :=
  slice (m_start b) (m_zeroAreaStart b - m_start b) bs ++
  replicate (Z.to_nat (m_zeroAreaEnd b - m_zeroAreaStart b)) 0 ++
  slice (m_zeroAreaStart b) (m_end b - m_zeroAreaEnd b) bs.
Definition contents (h : Heap) (b : Buffer) : list Z :=
  match h_data h !! m_data b with Some d => window_contents b (m_bytes d) | None => [] end.

Notation refs_of := (fmap m_data).

Record heap_ok (L : list Buffer) (h : Heap) : Prop := {
  o_refs : refs_ok (refs_of L) h;
  o_window b : b ∈ L -> exists d, h_data h !! m_data b = Some d /\ window b d;
  (* a buffer that reaches the end of the dirty area has the last octets *)
  o_last b1 b2 d : b1 ∈ L -> b2 ∈ L -> m_data b1 = m_data b2 -> h_data h !! m_data b1 = Some d ->
    m_end b1 = m_dirtyEnd d -> internal_end b2 <= internal_end b1
}.

Definition frame (L : list Buffer) (h h' : Heap) : Prop := forall b, b ∈ L -> contents h' b = contents h b.
#[export] Instance frame_refl L : Reflexive (frame L).
Proof. by intros h b _. Qed.
#[export] Instance frame_trans L : Transitive (frame L).
Proof. intros h1 h2 h3 H12 H23 b Hb. by rewrite (H23 b Hb), (H12 b Hb). Qed.
Lemma frame_cons b L h h' : frame (b :: L) h h' <-> contents h' b = contents h b /\ frame L h h'.
Proof.
  split.
  - intros Hf. split; [apply Hf; by left|]. intros x Hx. apply Hf. by right.
  - intros [Hb Hf] x [->|Hx]%elem_of_cons; auto.
Qed.

#[export] Instance heap_ok_perm : Proper ((≡ₚ) ==> (=) ==> iff) heap_ok.
Proof.
  cut (forall L1 L2 h, L1 ≡ₚ L2 -> heap_ok L1 h -> heap_ok L2 h).
  { intros H L1 L2 Hp h _ <-. split; by apply H. }
  intros L1 L2 h Hp [Hr Hw Hl]. split.
  - by rewrite <- Hp.
  - intros b Hb. apply Hw. by rewrite Hp.
  - intros b1 b2 d H1 H2. apply Hl; by rewrite Hp.
Qed.

(** Only counts changed. *)
Lemma same_lookup refs h h' p d :
  same refs h h' -> p ∈ refs -> h_data h !! p = Some d ->
  exists d', h_data h' !! p = Some d' /\ m_size d' = m_size d /\ m_dirtyStart d' = m_dirtyStart d /\
    m_dirtyEnd d' = m_dirtyEnd d /\ m_bytes d' = m_bytes d.
Proof.
  intros Hs Hp E. specialize (Hs p Hp). rewrite E in Hs. destruct (h_data h' !! p) as [d'|]; [|done].
  exists d'. destruct d, d'. simpl in Hs. injection Hs as -> -> -> ->. done.
Qed.

Lemma same_windows L L' h h' :
  heap_ok L h -> same (refs_of L') h h' -> L' ⊆ L ->
  (forall b, b ∈ L' -> exists d, h_data h' !! m_data b = Some d /\ window b d) /\
  (forall b1 b2 d, b1 ∈ L' -> b2 ∈ L' -> m_data b1 = m_data b2 -> h_data h' !! m_data b1 = Some d ->
    m_end b1 = m_dirtyEnd d -> internal_end b2 <= internal_end b1) /\
  frame L' h h'.
Proof.
  intros [Hr Hw Hl] Hs Hin.
  assert (forall b, b ∈ L' -> m_data b ∈ refs_of L') as Hp by (intros b Hb; by apply list_elem_of_fmap_2).
  split; [|split].
  - intros b Hb. destruct (Hw b (Hin b Hb)) as (d & E & Hwin).
    destruct (same_lookup _ _ _ _ _ Hs (Hp b Hb) E) as (d' & E' & Esz & Es & Ee & _). exists d'. split; [done|].
    destruct Hwin. split; try done; congruence.
  - intros b1 b2 d' H1 H2 Heq E' Ee. destruct (Hw b1 (Hin b1 H1)) as (d & E & _).
    destruct (same_lookup _ _ _ _ _ Hs (Hp b1 H1) E) as (d2 & E2 & _ & _ & Ee2 & _).
    rewrite E2 in E'. injection E' as <-. eapply Hl; eauto. congruence.
  - intros b Hb. destruct (Hw b (Hin b Hb)) as (d & E & _).
    destruct (same_lookup _ _ _ _ _ Hs (Hp b Hb) E) as (d' & E' & _ & _ & _ & Eb).
    unfold contents. by rewrite E, E', Eb.
Qed.

Lemma same_heap_ok L L' h h' :
  heap_ok L h -> same (refs_of L') h h' -> L' ⊆ L -> refs_ok (refs_of L') h' -> heap_ok L' h' /\ frame L' h h'.
Proof. intros Hok Hs Hin Hr'. destruct (same_windows _ _ _ _ Hok Hs Hin) as (? & ? & ?). split; [by split|done]. Qed.

(** A buffer on a storage of its own joins the others. *)
Lemma fresh_heap_ok L L' h h' b d :
  heap_ok L h -> L' ⊆ L -> same (refs_of L') h h' -> refs_ok (m_data b :: refs_of L') h' ->
  m_data b ∉ refs_of L' -> h_data h' !! m_data b = Some d -> window b d -> heap_ok (b :: L') h' /\ frame L' h h'.
Proof.
  intros Hok Hin Hs Hr' Hp E Hwin. destruct (same_windows _ _ _ _ Hok Hs Hin) as (Hw & Hl & Hf).
  split; [split; [done| |]|done].
  - intros b2 [->|H2]%elem_of_cons; [by exists d|]. by apply Hw.
  - assert (forall b2, b2 ∈ L' -> m_data b2 <> m_data b) as Hne by (intros ? ? Eq; apply Hp; rewrite <- Eq; by apply list_elem_of_fmap_2).
    intros b1 b2 d2 H1 H2 Eq E1 Ee. apply elem_of_cons in H1 as [->|H1]; apply elem_of_cons in H2 as [->|H2].
    + lia.
    + by edestruct Hne; [exact H2|congruence].
    + by edestruct Hne; [exact H1|congruence].
    + by eapply Hl.
Qed.
