(* ===== verification/BufferOps.v ===== *)
(** * The operations of [Buffer] on its contents

    For each operation: it does not fault, keeps [heap_ok], has the specified
    effect on the octets of its buffer, and none on the other live buffers. *)

From stdpp Require Import gmap.
From S2P Require Import Prelude Bytes Buffer BufferSpec.



Lemma wrap_signed x y : u32 (x + to_signed 32 y) = u32 (x + y).
Proof.
  unfold to_signed. rewrite <- (wrap_add_r 32 x y). destruct (_ <? _); [done|].
  unfold wrap. replace (x + (y mod 2 ^ 32 - 2 ^ 32)) with (x + y mod 2 ^ 32 + (-1) * 2 ^ 32) by lia.
  apply Z.mod_add. lia.
Qed.

(** The bounds of a live window. *)
Ltac win := unfold internal_end, size, zeros, limit, in_range in *; simpl in *; lia.
Ltac unwrap := rewrite ?wrap_signed, ?wrap_sub_l, ?wrap_sub_r, ?wrap_add_l, ?wrap_add_r, ?wrap_wrap;
  repeat match goal with |- context [wrap 32 ?x] => rewrite (wrap_small 32 x) by win end.

Lemma refs_of_cons b L : refs_of (b :: L) = m_data b :: refs_of L.
Proof. done. Qed.

Lemma live_window b L h : heap_ok (b :: L) h -> exists d, h_data h !! m_data b = Some d /\ window b d /\ data_ok (m_data b :: refs_of L) (m_data b) d.
Proof.
  intros [Hr Hw _]. destruct (Hw b) as (d & E & Hwin); [by left|]. exists d. split; [done|]. split; [done|].
  by apply (r_data _ _ Hr).
Qed.

(** A count of one: nobody else is on the storage. *)
Lemma sole_owner b L h d :
  heap_ok (b :: L) h -> h_data h !! m_data b = Some d -> m_count d = 1 -> forall b2, b2 ∈ L -> m_data b2 <> m_data b.
Proof.
  intros Hok E Hc b2 H2 Heq. destruct (live_window _ _ _ Hok) as (d0 & E0 & _ & [Hcount _ _]).
  rewrite E in E0. injection E0 as <-. rewrite refcount_cons, decide_True in Hcount by done.
  assert (m_data b ∈ refs_of L) as Hin by (rewrite <- Heq; by apply list_elem_of_fmap_2).
  apply refcount_pos in Hin. lia.
Qed.

(** Changing the storage of [b] in place, and the offsets of [b]. *)
Lemma upd_heap_ok b b' L h d d' :
  heap_ok (b :: L) h -> h_data h !! m_data b = Some d -> m_data b' = m_data b ->
  m_count d' = m_count d -> m_size d' = m_size d -> length (m_bytes d') = length (m_bytes d) -> window b' d' ->
  (forall b2, b2 ∈ L -> m_data b2 = m_data b -> window b2 d ->
    window b2 d' /\ window_contents b2 (m_bytes d') = window_contents b2 (m_bytes d)) ->
  (forall b1 b2, b1 ∈ b' :: L -> b2 ∈ b' :: L -> m_data b1 = m_data b -> m_data b2 = m_data b ->
    m_end b1 = m_dirtyEnd d' -> internal_end b2 <= internal_end b1) ->
  heap_ok (b' :: L) (upd (m_data b) d' h) /\ frame L h (upd (m_data b) d' h).
Proof.
  intros [Hr Hw Hl] E Ep Ec Es El Hwin Hothers Hpair. split; [split|].
  - rewrite refs_of_cons, Ep. by eapply upd_refs.
  - intros b2 [->|H2]%elem_of_cons; [exists d'; rewrite Ep; by rewrite lookup_upd|].
    destruct (Hw b2 ltac:(by right)) as (d2 & E2 & Hw2). destruct (decide (m_data b2 = m_data b)) as [Eq|].
    + exists d'. rewrite Eq, lookup_upd in *. split; [done|]. apply Hothers; [done..|].
      rewrite E in E2. by injection E2 as <-.
    + exists d2. by rewrite lookup_upd_ne.
  - intros b1 b2 d2 H1 H2 Eq E1 Ee. destruct (decide (m_data b1 = m_data b)) as [Eb|Nb].
    + apply Hpair; [done..|congruence|]. rewrite Eb, lookup_upd in E1. by injection E1 as <-.
    + rewrite lookup_upd_ne in E1 by done.
      apply elem_of_cons in H1 as [->|H1]; [by rewrite Ep in Nb|].
      apply elem_of_cons in H2 as [->|H2]; [by rewrite Eq, Ep in Nb|].
      eapply Hl; eauto; by right.
  - intros b2 H2. unfold contents. destruct (decide (m_data b2 = m_data b)) as [Eq|].
    + rewrite Eq, lookup_upd, E. apply Hothers; [done..|].
      destruct (Hw b2 ltac:(by right)) as (d2 & E2 & Hw2). rewrite Eq, E in E2. by injection E2 as <-.
    + by rewrite lookup_upd_ne.
Qed.

(** Offsets that give up octets, or nothing. *)
Lemma shrink_ok b b' L h d :
  heap_ok (b :: L) h -> h_data h !! m_data b = Some d -> m_data b' = m_data b -> window b' d ->
  m_end b' <= m_end b -> internal_end b' <= internal_end b ->
  (m_end b' = m_end b -> internal_end b' = internal_end b) -> heap_ok (b' :: L) h.
Proof.
  intros [Hr Hw Hl] E Ep Hwin He Hie Heq. destruct (Hw b) as (d0 & E0 & Hwb); [by left|].
  rewrite E in E0. injection E0 as <-. destruct Hwb as [_ _ _ _ Hde _ _]. split.
  - by rewrite refs_of_cons, Ep.
  - intros b2 [->|H2]%elem_of_cons; [exists d; by rewrite Ep|]. apply Hw. by right.
  - intros b1 b2 d2 H1 H2 Eq E1 Ee.
    apply elem_of_cons in H1 as [->|H1]; apply elem_of_cons in H2 as [->|H2].
    + lia.
    + rewrite Ep, E in E1. injection E1 as <-. rewrite Heq by lia.
      eapply Hl; [by left|by right|congruence|done|lia].
    + assert (internal_end b <= internal_end b1); [|lia].
      eapply Hl; [by right|by left|congruence|done|done].
    + eapply Hl; eauto; by right.
Qed.

(** [memcpy] within a live storage. *)
Lemma peek_ok p d off len h :
  h_data h !! p = Some d -> len = 0 \/ 0 <= off /\ 0 <= len /\ off + len <= Z.of_nat (length (m_bytes d)) ->
  peek p off len h = Ok (slice off len (m_bytes d), h).
Proof.
  intros E H. unfold peek. rewrite (run_load _ _ _ _ E). unfold within. destruct H as [->|(H1 & H2 & H3)]; [done|].
  rewrite (proj2 (Z.leb_le 0 off)), (proj2 (Z.leb_le 0 len)), (proj2 (Z.leb_le (off + len) _)) by done.
  by rewrite orb_true_r.
Qed.
Lemma run_peek {B} p d off len (k : list Z -> M B) h :
  h_data h !! p = Some d -> 0 <= off -> 0 <= len -> off + len <= Z.of_nat (length (m_bytes d)) ->
  (peek p off len ≫= k) h = k (slice off len (m_bytes d)) h.
Proof. intros E H1 H2 H3. by rewrite (run_bind _ _ _ _ _ (peek_ok _ _ _ _ _ E (or_intror (conj H1 (conj H2 H3))))). Qed.
Lemma poke_ok p d off src h :
  h_data h !! p = Some d -> 0 <= off -> off + Z.of_nat (length src) <= Z.of_nat (length (m_bytes d)) ->
  poke p off src h = Ok (tt, upd p (set_bytes (splice off src (m_bytes d)) d) h).
Proof.
  intros E H1 H2. unfold poke. rewrite (run_load _ _ _ _ E). unfold within.
  rewrite (proj2 (Z.leb_le 0 off)), (proj2 (Z.leb_le 0 (Z.of_nat _))), (proj2 (Z.leb_le (off + _) _)) by lia.
  by rewrite orb_true_r.
Qed.
Lemma run_poke {B} p d off src (k : unit -> M B) h :
  h_data h !! p = Some d -> 0 <= off -> off + Z.of_nat (length src) <= Z.of_nat (length (m_bytes d)) ->
  (poke p off src ≫= k) h = k tt (upd p (set_bytes (splice off src (m_bytes d)) d) h).
Proof. intros. by rewrite (run_bind _ _ _ _ _ (poke_ok _ _ _ _ _ H H0 H1)). Qed.

Lemma GetInternalSize_eq b d : window b d -> m_size d < limit -> GetInternalSize b = internal_end b - m_start b.
Proof. intros [] ?. unfold GetInternalSize. rewrite wrap_small by win. win. Qed.
Lemma GetInternalEnd_eq b d : window b d -> m_size d < limit -> GetInternalEnd b = internal_end b.
Proof. intros [] ?. unfold GetInternalEnd. rewrite wrap_small by win. win. Qed.
Lemma GetSize_eq b d : window b d -> GetSize b = size b.
Proof. intros []. unfold GetSize. rewrite wrap_small by win. win. Qed.

(** The slow path of [AddAtStart] and [AddAtEnd]: the octets move to a new
    storage, at the offset [off]. *)
Lemma relocate b L h d n off :
  heap_ok (b :: L) h -> h_data h !! m_data b = Some d -> 0 <= off <= n -> size b + n < limit ->
  Z.of_nat (S (S (length L))) < 2 ^ 32 ->
  exists p d' h', p ∉ refs_of L /\ h_data h' !! p = Some d' /\ refs_ok (p :: refs_of L) h' /\ same (refs_of L) h h' /\
    internal_end b - m_start b + n <= m_size d' < limit /\ m_size d' = Z.of_nat (length (m_bytes d')) /\
    slice off (internal_end b - m_start b) (m_bytes d') = slice (m_start b) (internal_end b - m_start b) (m_bytes d) /\
    g_recommendedStart h' = g_recommendedStart h /\
    forall B (k : nat -> M B),
      (newData ← Create (u32 (GetInternalSize b + n)); old ← peek (m_data b) (m_start b) (GetInternalSize b);
       _ ← poke newData off old; _ ← release (m_data b); k newData) h = k p h'.
Proof.
  intros Hok E Hoff Hlim Hfew. destruct (live_window _ _ _ Hok) as (d0 & E0 & Hwin & [Hc Hlen Hsz]).
  rewrite E in E0. injection E0 as <-. rewrite (GetInternalSize_eq _ _ Hwin) by lia.
  pose proof Hwin as [? ? ? ? ? ? ?]. rewrite (wrap_small 32) by win.
  set (isize := internal_end b - m_start b) in *. assert (0 <= isize) by (subst isize; win).
  destruct (Create_ok (isize + n) (refs_of (b :: L)) h) as (p & dn & h1 & EC & Hp & En & Hcn & Hszn & Hr1 & Hs1 & Er1).
  { apply Hok. } { subst isize. win. } { rewrite length_fmap. done. }
  destruct (same_lookup _ _ _ _ _ Hs1 (list_elem_of_here _ _ : m_data b ∈ refs_of (b :: L)) E)
    as (d1 & E1 & Esz1 & _ & _ & Eb1).
  destruct (r_data _ _ Hr1 p dn En) as [Hcp Hlenp Hszp].
  rewrite refs_of_cons in Hp, Hr1. apply not_elem_of_cons in Hp as [Hpb HpL].
  set (d' := set_bytes (splice off (slice (m_start b) isize (m_bytes d)) (m_bytes dn)) dn).
  assert (Z.of_nat (length (slice (m_start b) isize (m_bytes d))) = isize) as Hls
    by (apply length_slice; subst isize; win).
  assert (length (m_bytes d') = length (m_bytes dn)) as Hl' by (simpl; apply length_splice; win).
  assert (refs_ok (m_data b :: p :: refs_of L) (upd p d' h1)) as Hr2.
  { assert (m_data b :: p :: refs_of L ≡ₚ p :: m_data b :: refs_of L) as -> by apply Permutation_swap.
    eapply upd_refs; [exact Hr1|done..]. }
  destruct (release_ok _ _ _ Hr2) as (h3 & ER & Hr3 & Hs3 & Er3).
  destruct (same_lookup _ _ _ p d' Hs3) as (d3 & E3 & Esz3 & _ & _ & Eb3); [by left|by apply lookup_upd|].
  exists p, d3, h3. split; [done|]. split; [done|]. split; [done|]. split; [|split; [|split; [|split; [|split]]]].
  - intros q Hq. rewrite (Hs3 q) by (by right). rewrite lookup_upd_ne by (by intros ->). apply Hs1. by right.
  - rewrite Esz3. simpl. lia.
  - rewrite Esz3, Eb3, Hl'. done.
  - rewrite Eb3. simpl. rewrite slice_splice_in by lia. rewrite Z.sub_diag. apply slice_all. done.
  - rewrite Er3. simpl. done.
  - intros B k. rewrite (run_bind _ _ _ _ _ EC). rewrite (run_peek _ _ _ _ _ _ E1) by (rewrite ?Eb1; subst isize; win).
    rewrite Eb1. rewrite (run_poke _ _ _ _ _ _ En) by (rewrite ?Hls; win). by rewrite (run_bind _ _ _ _ _ ER).
Qed.

(** Octets around the window, the others where they were or moved together. *)
Lemma sub_slices b off bs bs' d :
  window b d -> 0 <= off ->
  slice off (internal_end b - m_start b) bs' = slice (m_start b) (internal_end b - m_start b) bs ->
  slice off (m_zeroAreaStart b - m_start b) bs' = slice (m_start b) (m_zeroAreaStart b - m_start b) bs /\
  slice (off + (m_zeroAreaStart b - m_start b)) (m_end b - m_zeroAreaEnd b) bs' =
    slice (m_zeroAreaStart b) (m_end b - m_zeroAreaEnd b) bs.
Proof.
  intros [] Hoff E. set (n1 := m_zeroAreaStart b - m_start b) in *. set (n2 := m_end b - m_zeroAreaEnd b) in *.
  assert (internal_end b - m_start b = n1 + n2) as En by (subst n1 n2; win). rewrite En in E.
  split.
  - pose proof (slice_slice off (n1 + n2) bs' 0 n1) as H1. pose proof (slice_slice (m_start b) (n1 + n2) bs 0 n1) as H2.
    rewrite !Z.add_0_r in *. rewrite <- H1, <- H2, E by (subst n1 n2; lia). done.
  - rewrite <- (slice_slice off (n1 + n2)) by (subst n1 n2; lia). rewrite E, slice_slice by (subst n1 n2; lia).
    f_equal. subst n1. lia.
Qed.

Lemma contents_prepend b b' bs bs' n d :
  window b d -> 0 <= n -> 0 <= m_start b' -> m_zeroAreaStart b' - m_start b' = n + (m_zeroAreaStart b - m_start b) ->
  m_zeroAreaEnd b' - m_zeroAreaStart b' = m_zeroAreaEnd b - m_zeroAreaStart b ->
  m_end b' - m_zeroAreaEnd b' = m_end b - m_zeroAreaEnd b ->
  slice (m_start b' + n) (internal_end b - m_start b) bs' = slice (m_start b) (internal_end b - m_start b) bs ->
  window_contents b' bs' = slice (m_start b') n bs' ++ window_contents b bs.
Proof.
  intros Hw Hn Hs E1 E2 E3 E. assert (0 <= m_start b' + n) as Ho by lia. destruct (sub_slices _ _ _ _ _ Hw Ho E) as [H1 H2]. destruct Hw.
  unfold window_contents. rewrite E1, E2, E3, slice_app by lia. rewrite <- app_assoc. f_equal.
  rewrite H1. do 2 f_equal. rewrite <- H2. f_equal. lia.
Qed.

Lemma contents_append b b' bs bs' n d :
  window b d -> 0 <= n -> 0 <= m_start b' -> m_zeroAreaStart b' - m_start b' = m_zeroAreaStart b - m_start b ->
  m_zeroAreaEnd b' - m_zeroAreaStart b' = m_zeroAreaEnd b - m_zeroAreaStart b ->
  m_end b' - m_zeroAreaEnd b' = m_end b - m_zeroAreaEnd b + n ->
  slice (m_start b') (internal_end b - m_start b) bs' = slice (m_start b) (internal_end b - m_start b) bs ->
  window_contents b' bs' = window_contents b bs ++ slice (internal_end b' - n) n bs'.
Proof.
  intros Hw Hn Hs E1 E2 E3 E. destruct (sub_slices _ _ _ _ _ Hw Hs E) as [H1 H2]. destruct Hw.
  unfold window_contents. rewrite E1, E2, E3, slice_app by lia. rewrite !app_assoc. f_equal.
  - rewrite H1. f_equal. rewrite <- H2. f_equal. lia.
  - f_equal. win.
Qed.

Definition few (L : list Buffer) : Prop := Z.of_nat (length L) < limit.

(** What an addition of [n] octets at one end leaves: they are in the storage,
    before the zero area or after it, and no other window reaches them. *)
Definition owned (L : list Buffer) (b : Buffer) (lo hi : Z) : Prop :=
  lo < hi -> forall b2, b2 ∈ L -> m_data b2 = m_data b -> hi <= m_start b2 \/ internal_end b2 <= lo.

Definition grown_start (n : Z) (L : list Buffer) (b b' : Buffer) (h h' : Heap) : Prop :=
  heap_ok (b' :: L) h' /\ frame L h h' /\ owned L b' (m_start b') (m_start b' + n) /\
  m_zeroAreaStart b' - m_start b' = n + (m_zeroAreaStart b - m_start b) /\ zeros b' = zeros b /\ size b' = n + size b /\
  (m_data b' = m_data b \/ m_data b' ∉ refs_of L) /\
  exists new, Z.of_nat (length new) = n /\ contents h' b' = new ++ contents h b.

(** A live storage is held once, or more than once. *)
Lemma count_cases b L h d : heap_ok (b :: L) h -> h_data h !! m_data b = Some d -> m_count d = 1 \/ 1 < m_count d.
Proof.
  intros Hok E. destruct (live_window _ _ _ Hok) as (d0 & E0 & _ & [Hc _ _]). rewrite E in E0. injection E0 as <-.
  rewrite Hc, refcount_cons, decide_True by done. unfold refcount. lia.
Qed.

(** The fast path: the octets before the window are the buffer's to take. *)
Lemma start_in_place n b L h d :
  heap_ok (b :: L) h -> h_data h !! m_data b = Some d -> 0 <= n <= m_start b -> n + size b < limit ->
  m_count d = 1 \/ m_start b = m_dirtyStart d ->
  let b1 := record_max (offsets (m_zeroAreaStart b) (m_zeroAreaEnd b) (u32 (m_start b - n)) (m_end b) b) in
  grown_start n L b b1 h (upd (m_data b) (set_dirtyStart (m_start b1) d) h).
Proof.
  intros Hok E Hn Hlim Hd b1. destruct (live_window _ _ _ Hok) as (d0 & E0 & Hwin & [_ Hlen Hsz]).
  rewrite E in E0. injection E0 as <-. pose proof Hwin as [? ? ? ? ? ? ?].
  assert (m_start b1 = m_start b - n) as Es by (simpl; unwrap; done). set (d1 := set_dirtyStart (m_start b1) d).
  assert (forall b2, b2 ∈ L -> m_data b2 = m_data b -> m_start b <= m_start b2) as Hown.
  { intros b2 H2 Heq. destruct Hd as [Hd|Hd]; [by edestruct (sole_owner _ _ _ _ Hok E Hd b2)|].
    destruct (o_window _ _ Hok b2) as (d2 & E2 & [? _ _ _ _ _ _]); [by right|].
    rewrite Heq, E in E2. injection E2 as <-. lia. }
  destruct (upd_heap_ok b b1 L h d d1) as [Hok' Hf]; try done.
  - split; simpl in *; rewrite ?Es; win.
  - intros b2 H2 Heq Hw2. split; [|done]. destruct Hw2. split; simpl in *; rewrite ?Es; try done.
    split; [lia|]. specialize (Hown b2 H2 Heq). lia.
  - intros c1 c2 H1 H2 Eq1 Eq2 Ee. simpl in Ee.
    assert (forall c, c ∈ b1 :: L -> exists c', c' ∈ b :: L /\ m_data c' = m_data c /\ m_end c' = m_end c /\ internal_end c' = internal_end c) as Hc'.
    { intros c [->|Hc']%elem_of_cons; [exists b; by split; [left|]|exists c; by split; [right|]]. }
    destruct (Hc' c1 H1) as (c1' & I1 & D1 & E1 & <-), (Hc' c2 H2) as (c2' & I2 & D2 & E2 & <-).
    apply (o_last _ _ Hok c1' c2' d); congruence.
  - split; [done|]. split; [done|]. rewrite Es.
    split; [intros _ b2 H2 Heq; left; specialize (Hown b2 H2 Heq); lia|].
    split; [simpl in *; lia|]. split; [done|]. split; [unfold size; simpl in *; lia|]. split; [by left|].
    exists (slice (m_start b - n) n (m_bytes d)). split; [apply length_slice; win|].
    unfold contents. rewrite E. change (m_data b1) with (m_data b). rewrite lookup_upd.
    rewrite (contents_prepend b _ (m_bytes d) _ n d) by (simpl in *; done || lia || (do 2 f_equal; lia)).
    by rewrite Es.
Qed.

(** The slow path: the buffer is alone on its new storage. *)
Lemma moved_ok b L h h1 p d' b1 d2 :
  heap_ok (b :: L) h -> p ∉ refs_of L -> h_data h1 !! p = Some d' -> refs_ok (p :: refs_of L) h1 -> same (refs_of L) h h1 ->
  m_data b1 = p -> window b1 d2 -> m_count d2 = m_count d' -> m_size d2 = m_size d' -> m_bytes d2 = m_bytes d' ->
  heap_ok (b1 :: L) (upd p d2 h1) /\ frame L h (upd p d2 h1) /\ (forall lo hi, owned L b1 lo hi).
Proof.
  intros Hok Hp E Hr Hs Ep Hw Ec Es Eb.
  destruct (fresh_heap_ok (b :: L) L h (upd p d2 h1) b1 d2) as [Hok' Hf]; rewrite ?Ep; try done.
  - intros x Hx. by right.
  - intros q Hq. rewrite lookup_upd_ne by (by intros ->). by apply Hs.
  - eapply upd_refs; [exact Hr|done|done|done|by rewrite Eb].
  - apply lookup_upd.
  - split; [done|]. split; [done|]. intros lo hi _ b2 H2 Heq. destruct Hp. apply list_elem_of_fmap. exists b2.
    by rewrite Heq.
Qed.

Lemma AddAtStart_ok n b L h :
  heap_ok (b :: L) h -> 0 <= n -> n + size b < limit -> few L ->
  exists b' h', AddAtStart n b h = Ok (b', h') /\ grown_start n L b b' h h'.
Proof.
  intros Hok Hn Hlim Hfew. destruct (live_window _ _ _ Hok) as (d & E & Hwin & [Hc Hlen Hsz]).
  unfold AddAtStart. rewrite (run_load _ _ _ _ E). pose proof Hwin as [? ? ? ? ? ? ?].
  destruct (_ && negb _) eqn:Ein.
  - apply andb_true_iff in Ein as [Hroom%Z.leb_le Hdirty%negb_true_iff].
    assert (m_count d = 1 \/ m_start b = m_dirtyStart d) as Hd.
    { destruct (count_cases _ _ _ _ Hok E) as [|Hcount]; [by left|right]. apply Z.ltb_lt in Hcount. rewrite Hcount in Hdirty.
      apply Z.ltb_ge in Hdirty. lia. }
    eexists _, _. split; [|by apply start_in_place]. unfold mbind at 1, st_bind at 1.
    rewrite run_assert by (destruct Hd as [->| ->]; [done|]; by rewrite Z.eqb_refl, orb_true_r).
    by rewrite (run_mod _ _ _ _ _ E).
  - clear Ein.
    destruct (relocate b L h d n n) as (p & d' & h1 & Hp & E1 & Hr1 & Hs1 & Hsz' & Hlen' & Hsl & Er1 & Hrun);
      [done|done|lia|lia|unfold few, limit in Hfew; lia|].
    eexists _, _. split.
    { unfold mbind at 1, st_bind at 1. rewrite Hrun. rewrite (run_mod _ _ _ _ _ E1). reflexivity. }
    set (b1 := record_max _). set (d2 := set_dirtyEnd _ _).
    assert (m_start b1 = 0 /\ m_zeroAreaStart b1 = n + m_zeroAreaStart b - m_start b /\
      m_zeroAreaEnd b1 = n + m_zeroAreaEnd b - m_start b /\ m_end b1 = n + m_end b - m_start b) as (F1 & F2 & F3 & F4).
    { subst b1. simpl. unwrap. lia. }
    assert (window b1 d2) as Hwin1.
    { subst d2. split; unfold internal_end, size; rewrite ?F1, ?F2, ?F3, ?F4; simpl; win. }
    destruct (moved_ok b L h h1 p d' b1 d2) as (Hok' & Hf & Hown); [done..|].
    split; [done|]. split; [done|]. split; [apply Hown|].
    split; [lia|]. split; [unfold zeros; lia|]. split; [unfold size; lia|]. split; [by right|].
    exists (slice 0 n (m_bytes d')). split; [apply length_slice; win|].
    unfold contents. rewrite E. change (m_data b1) with p. rewrite lookup_upd. change (m_bytes d2) with (m_bytes d').
    rewrite (contents_prepend b b1 (m_bytes d) (m_bytes d') n d) by (done || lia || (rewrite F1; done)). by rewrite F1.
Qed.

Definition grown_end (n : Z) (L : list Buffer) (b b' : Buffer) (h h' : Heap) : Prop :=
  heap_ok (b' :: L) h' /\ frame L h h' /\ owned L b' (internal_end b' - n) (internal_end b') /\
  m_end b' - m_zeroAreaEnd b' = m_end b - m_zeroAreaEnd b + n /\ zeros b' = zeros b /\ size b' = size b + n /\
  (m_data b' = m_data b \/ m_data b' ∉ refs_of L) /\
  exists new, Z.of_nat (length new) = n /\ contents h' b' = contents h b ++ new.

(** The storage can grow at the end without moving. *)
Definition in_place (n : Z) (b : Buffer) (d : Data) : bool :=
  (u32 (GetInternalEnd b + n) <=? m_size d) && negb ((1 <? m_count d) && (m_end b <? m_dirtyEnd d)).

(** The fast path: the octets after the last window are the buffer's to take. *)
Lemma end_in_place n b L h d :
  heap_ok (b :: L) h -> h_data h !! m_data b = Some d -> 0 <= n -> internal_end b + n <= m_size d -> size b + n < limit ->
  m_count d = 1 \/ m_end b = m_dirtyEnd d ->
  let b1 := record_max (offsets (m_zeroAreaStart b) (m_zeroAreaEnd b) (m_start b) (u32 (m_end b + n)) b) in
  grown_end n L b b1 h (upd (m_data b) (set_dirtyEnd (m_end b1) d) h).
Proof.
  intros Hok E Hn Hroom Hlim Hd b1. destruct (live_window _ _ _ Hok) as (d0 & E0 & Hwin & [_ Hlen Hsz]).
  rewrite E in E0. injection E0 as <-. pose proof Hwin as [? ? ? ? ? ? ?].
  assert (m_end b1 = m_end b + n) as Es by (simpl; unwrap; done). set (d1 := set_dirtyEnd (m_end b1) d).
  assert (forall b2, b2 ∈ L -> m_data b2 = m_data b -> internal_end b2 <= internal_end b /\ m_end b2 <= m_end b /\ m_end b = m_dirtyEnd d) as Hown.
  { intros b2 H2 Heq. destruct Hd as [Hd|Hd]; [by edestruct (sole_owner _ _ _ _ Hok E Hd b2)|].
    split; [eapply (o_last _ _ Hok b b2); [by left|by right|done|exact E|done]|].
    destruct (o_window _ _ Hok b2) as (d2 & E2 & [_ _ _ _ ? _ _]); [by right|].
    rewrite Heq, E in E2. injection E2 as <-. lia. }
  assert (internal_end b1 = internal_end b + n) as Ei by (unfold internal_end; simpl in *; lia).
  destruct (upd_heap_ok b b1 L h d d1) as [Hok' Hf]; try done.
  - split; simpl in *; rewrite ?Es, ?Ei; unfold size; simpl; rewrite ?Es; win.
  - intros b2 H2 Heq Hw2. split; [|done]. destruct (Hown b2 H2 Heq) as (? & ? & ?).
    destruct Hw2. split; simpl in *; rewrite ?Es; try done. lia.
  - intros c1 c2 H1 H2 Eq1 Eq2 Ee. change (m_end c1 = m_end b1) in Ee. rewrite Es in Ee.
    apply elem_of_cons in H1 as [->|H1]; apply elem_of_cons in H2 as [->|H2]; rewrite ?Ei; [lia| | |].
    + destruct (Hown c2 H2 Eq2). lia.
    + destruct (Hown c1 H1 Eq1) as (? & ? & ?). assert (internal_end b <= internal_end c1); [|lia].
      apply (o_last _ _ Hok c1 b d); [by right|by left|congruence..|lia].
    + destruct (Hown c1 H1 Eq1) as (? & ? & ?).
      apply (o_last _ _ Hok c1 c2 d); [by right|by right|congruence..|lia].
  - split; [done|]. split; [done|]. rewrite Ei.
    split; [intros _ b2 H2 Heq; right; destruct (Hown b2 H2 Heq); lia|].
    split; [simpl in *; lia|]. split; [done|]. split; [unfold size; simpl in *; lia|]. split; [by left|].
    exists (slice (internal_end b) n (m_bytes d)). split; [apply length_slice; win|].
    unfold contents. rewrite E. change (m_data b1) with (m_data b). rewrite lookup_upd.
    rewrite (contents_append b _ (m_bytes d) _ n d) by (simpl in *; done || lia).
    rewrite Ei. do 2 f_equal. lia.
Qed.

Lemma AddAtEnd_ok n b L h d :
  heap_ok (b :: L) h -> h_data h !! m_data b = Some d -> 0 <= n -> size b + n < limit -> few L ->
  exists b' h', AddAtEnd n b h = Ok (b', h') /\ grown_end n L b b' h h' /\
    (if in_place n b d then m_data b' = m_data b else m_data b' ∉ refs_of L).
Proof.
  intros Hok E Hn Hlim Hfew. destruct (live_window _ _ _ Hok) as (d0 & E0 & Hwin & [Hc Hlen Hsz]).
  rewrite E in E0. injection E0 as <-. unfold AddAtEnd. rewrite (run_load _ _ _ _ E). pose proof Hwin as [? ? ? ? ? ? ?].
  fold (in_place n b d). destruct (in_place n b d) eqn:Ein; unfold in_place in Ein.
  - apply andb_true_iff in Ein as [Hroom%Z.leb_le Hdirty%negb_true_iff].
    rewrite (GetInternalEnd_eq _ _ Hwin), wrap_small in Hroom by win.
    assert (m_count d = 1 \/ m_end b = m_dirtyEnd d) as Hd.
    { destruct (count_cases _ _ _ _ Hok E) as [|Hcount]; [by left|right]. apply Z.ltb_lt in Hcount. rewrite Hcount in Hdirty.
      apply Z.ltb_ge in Hdirty. lia. }
    eexists _, _. split; [|split; [by apply end_in_place|done]]. unfold mbind at 1, st_bind at 1.
    rewrite run_assert by (destruct Hd as [->| ->]; [done|]; by rewrite Z.eqb_refl, orb_true_r).
    by rewrite (run_mod _ _ _ _ _ E).
  - clear Ein.
    destruct (relocate b L h d n 0) as (p & d' & h1 & Hp & E1 & Hr1 & Hs1 & Hsz' & Hlen' & Hsl & Er1 & Hrun);
      [done|done|lia|lia|unfold few, limit in Hfew; lia|].
    eexists _, _. split.
    { unfold mbind at 1, st_bind at 1. rewrite Hrun. rewrite (run_mod _ _ _ _ _ E1). reflexivity. }
    set (b1 := record_max _). set (d2 := set_dirtyEnd _ _). split; [|exact Hp].
    assert (m_start b1 = 0 /\ m_zeroAreaStart b1 = m_zeroAreaStart b - m_start b /\
      m_zeroAreaEnd b1 = m_zeroAreaEnd b - m_start b /\ m_end b1 = m_end b - m_start b + n) as (F1 & F2 & F3 & F4).
    { subst b1. simpl. unwrap. lia. }
    assert (window b1 d2) as Hwin1.
    { subst d2. split; unfold internal_end, size; rewrite ?F1, ?F2, ?F3, ?F4; simpl; win. }
    destruct (moved_ok b L h h1 p d' b1 d2) as (Hok' & Hf & Hown); [done..|].
    split; [done|]. split; [done|]. split; [apply Hown|].
    split; [lia|]. split; [unfold zeros; lia|]. split; [unfold size; lia|]. split; [by right|].
    exists (slice (internal_end b1 - n) n (m_bytes d')).
    split; [apply length_slice; [unfold internal_end; rewrite F4, F3, F2; win|lia|destruct Hwin1; change (m_size d2) with (m_size d') in *; lia]|].
    unfold contents. rewrite E. change (m_data b1) with p. rewrite lookup_upd. change (m_bytes d2) with (m_bytes d').
    by rewrite (contents_append b b1 (m_bytes d) (m_bytes d') n d) by (done || lia || (rewrite F1; done)).
Qed.

(** ** Removing octets *)

Lemma length_window b bs d :
  window b d -> m_size d = Z.of_nat (length bs) -> Z.of_nat (length (window_contents b bs)) = size b.
Proof.
  intros [] Hl. unfold window_contents. rewrite !length_app, length_replicate, !Nat2Z.inj_add, !length_slice by win. win.
Qed.

(** The octet at [v]. *)
Lemma lookup_window b bs d v :
  window b d -> m_size d = Z.of_nat (length bs) -> 0 <= v < size b ->
  window_contents b bs !! Z.to_nat v =
    if v <? m_zeroAreaStart b - m_start b then bs !! Z.to_nat (m_start b + v)
    else if v <? m_zeroAreaEnd b - m_start b then Some 0
    else bs !! Z.to_nat (m_start b + v - (m_zeroAreaEnd b - m_zeroAreaStart b)).
Proof.
  intros [] Hl Hv. unfold window_contents.
  assert (Z.of_nat (length (slice (m_start b) (m_zeroAreaStart b - m_start b) bs)) = m_zeroAreaStart b - m_start b)
    as El by (apply length_slice; win).
  destruct (Z.ltb_spec v (m_zeroAreaStart b - m_start b)).
  - rewrite lookup_app_l by lia. apply lookup_slice; lia.
  - rewrite lookup_app_r by lia. destruct (Z.ltb_spec v (m_zeroAreaEnd b - m_start b)).
    + rewrite lookup_app_l by (rewrite length_replicate; lia). apply lookup_replicate. lia.
    + rewrite lookup_app_r by (rewrite length_replicate; lia). rewrite length_replicate.
      replace (_ - _)%nat with (Z.to_nat (v - (m_zeroAreaEnd b - m_start b))) by lia.
      rewrite lookup_slice by win. f_equal. lia.
Qed.

(** A narrower window on the same octets, [k] octets fewer at the start. *)
Lemma narrow_contents b b' bs d k :
  window b d -> window b' d -> m_size d = Z.of_nat (length bs) -> 0 <= k -> k + size b' <= size b ->
  (forall v, 0 <= v < size b' -> window_contents b' bs !! Z.to_nat v = window_contents b bs !! Z.to_nat (k + v)) ->
  window_contents b' bs = slice k (size b') (window_contents b bs).
Proof.
  intros Hw Hw' Hl Hk Hle H. pose proof (length_window _ _ _ Hw Hl). pose proof (length_window _ _ _ Hw' Hl).
  rewrite <- (slice_all (window_contents b' bs) (size b')) at 1 by done.
  apply slice_ext; [lia..|]. intros v Hv. rewrite Z.add_0_l. by apply H.
Qed.

Ltac zcase := repeat match goal with
  | |- context [?x <? ?y] => destruct (Z.ltb_spec x y); [|]; try (exfalso; win); cbv iota
  | |- context [?x <=? ?y] => destruct (Z.leb_spec x y); [|]; try (exfalso; win); cbv iota
  end.

(** Both removals narrow the window. *)
Definition narrowed (k n : Z) (L : list Buffer) (b b' : Buffer) (h : Heap) : Prop :=
  m_data b' = m_data b /\ heap_ok (b' :: L) h /\ size b' = n /\ contents h b' = slice k n (contents h b).

Lemma RemoveAtStart_ok n b L h :
  heap_ok (b :: L) h -> 0 <= n < limit ->
  exists b', RemoveAtStart n b = Ok b' /\ narrowed (Z.min n (size b)) (size b - Z.min n (size b)) L b b' h.
Proof.
  intros Hok Hn. destruct (live_window _ _ _ Hok) as (d & E & Hwin & [Hc Hlen Hsz]). pose proof Hwin as [? ? ? ? ? ? ?].
  assert (exists b', RemoveAtStart n b = Ok b' /\ m_data b' = m_data b /\ window b' d /\ m_end b' <= m_end b /\
    internal_end b' = internal_end b /\ size b' = size b - Z.min n (size b) /\
    (forall v, 0 <= v < size b' -> window_contents b' (m_bytes d) !! Z.to_nat v =
       window_contents b (m_bytes d) !! Z.to_nat (Z.min n (size b) + v))) as (b' & Er & Ed & Hw' & He & Hie & Esz & Hl).
  { unfold RemoveAtStart. rewrite (wrap_small 32 (m_start b + n)) by win.
    destruct (Z.leb_spec (m_start b + n) (m_zeroAreaStart b)) as [|H1];
      [|destruct (Z.leb_spec (m_start b + n) (m_zeroAreaEnd b)) as [|H2];
        [|destruct (Z.leb_spec (m_start b + n) (m_end b)) as [|H3]]].
    3: unfold ns_assert; rewrite (proj2 (Z.leb_le n (m_end b))) by win.
    all: cbn [mbind res_bind mret res_ret]; eexists; split; [reflexivity|]; unwrap.
    all: match goal with |- context [record_max ?x] => set (b1 := x) end.
    all: assert (window (record_max b1) d) as Hw1 by (subst b1; split; win).
    all: assert (size (record_max b1) = size b - Z.min n (size b)) as Hs1 by (subst b1; win).
    all: split; [done|]; split; [done|]; split; [subst b1; win|]; split; [subst b1; win|]; split; [done|].
    all: intros v Hv; rewrite (lookup_window _ _ _ _ Hw1), (lookup_window _ _ _ _ Hwin) by (done || lia).
    all: subst b1; unfold size in *; simpl in *; zcase; try done; f_equal; win. }
  exists b'. split; [done|]. split; [done|]. split; [eapply shrink_ok; (done || lia)|]. split; [done|].
  unfold contents. rewrite Ed, E. rewrite <- Esz. apply (narrow_contents _ _ _ d); try done; win.
Qed.

Lemma RemoveAtEnd_ok n b L h :
  heap_ok (b :: L) h -> 0 <= n -> narrowed 0 (size b - Z.min n (size b)) L b (RemoveAtEnd n b) h.
Proof.
  intros Hok Hn. destruct (live_window _ _ _ Hok) as (d & E & Hwin & [Hc Hlen Hsz]). pose proof Hwin as [? ? ? ? ? ? ?].
  assert (m_data (RemoveAtEnd n b) = m_data b /\ window (RemoveAtEnd n b) d /\ m_end (RemoveAtEnd n b) <= m_end b /\
    internal_end (RemoveAtEnd n b) <= internal_end b /\
    (m_end (RemoveAtEnd n b) = m_end b -> internal_end (RemoveAtEnd n b) = internal_end b) /\
    size (RemoveAtEnd n b) = size b - Z.min n (size b) /\
    (forall v, 0 <= v < size (RemoveAtEnd n b) -> window_contents (RemoveAtEnd n b) (m_bytes d) !! Z.to_nat v =
       window_contents b (m_bytes d) !! Z.to_nat (0 + v))) as (Ed & Hw' & He & Hie & Heq & Esz & Hl).
  { unfold RemoveAtEnd. fold (size b). rewrite (wrap_small 32 (size b)) by win.
    rewrite (wrap_small 32 (m_end b - _)) by win.
    destruct (Z.ltb_spec (m_zeroAreaEnd b) (m_end b - Z.min n (size b))) as [|H1];
      [|destruct (Z.ltb_spec (m_zeroAreaStart b) (m_end b - Z.min n (size b))) as [|H2];
        [|destruct (Z.ltb_spec (m_start b) (m_end b - Z.min n (size b))) as [|H3]]].
    all: match goal with |- context [record_max ?x] => set (b1 := x) end.
    all: assert (window (record_max b1) d) as Hw1 by (subst b1; split; win).
    all: assert (size (record_max b1) = size b - Z.min n (size b)) as Hs1 by (subst b1; win).
    all: split; [done|]; split; [done|]; split; [subst b1; win|]; split; [subst b1; win|];
         split; [subst b1; win|]; split; [done|].
    all: intros v Hv; rewrite Z.add_0_l, (lookup_window _ _ _ _ Hw1), (lookup_window _ _ _ _ Hwin) by (done || lia).
    all: subst b1; unfold size in *; simpl in *; zcase; try done; f_equal; win. }
  split; [done|]. split; [eapply shrink_ok; (done || lia)|]. split; [done|].
  unfold contents. rewrite Ed, E. rewrite <- Esz. apply (narrow_contents _ _ _ d); try done; win.
Qed.

(** ** Creating, copying, assigning and destroying *)

Lemma Initialize_ok zeroSize L h :
  heap_ok L h -> few L -> 0 <= zeroSize < limit ->
  exists b h', Initialize zeroSize h = Ok (b, h') /\ heap_ok (b :: L) h' /\ frame L h h' /\
    contents h' b = replicate (Z.to_nat zeroSize) 0 /\ size b = zeroSize /\ zeros b = zeroSize /\ m_data b ∉ refs_of L.
Proof.
  intros Hok Hfew Hz. destruct (Create_ok 0 (refs_of L) h) as (p & d & h1 & E & Hp & Ed & Hc & Hsz & Hr1 & Hs1 & Er1);
    [apply Hok|done|rewrite length_fmap; unfold few, limit in Hfew; lia|].
  destruct (r_data _ _ Hr1 p d Ed) as [_ Hlen Hszd]. pose proof (r_recommended _ _ Hr1) as Hrec.
  unfold Initialize. rewrite (run_bind _ _ _ _ _ E), (run_load _ _ _ _ Ed). run.
  set (start := Z.min (m_size d) (g_recommendedStart h1)). rewrite (wrap_small 32) by (subst start; win).
  rewrite (run_mod _ _ _ _ _ Ed). set (b := mkBuffer _ _ _ _ _ _). set (d1 := set_dirtyEnd _ _).
  exists b, (upd p d1 h1). split; [done|]. assert (window b d1) as Hwin by (split; subst b d1 start; win).
  destruct (fresh_heap_ok L L h (upd p d1 h1) b d1) as [Hok' Hf]; try done.
  - intros q Hq. rewrite lookup_upd_ne by (by intros ->). by apply Hs1.
  - eapply upd_refs; [exact Hr1|done..].
  - apply lookup_upd.
  - split; [done|]. split; [done|]. split; [|split; [subst b; win|split; [subst b; win|done]]].
    unfold contents. change (m_data b) with p. rewrite lookup_upd. unfold window_contents, b. simpl.
    rewrite Z.sub_diag, slice_nil by lia. rewrite (slice_nil _ (_ - _)) by lia. rewrite app_nil_r. simpl. f_equal. lia.
Qed.

(** Two buffers with the same offsets. *)
Definition like (b b' : Buffer) : Prop :=
  m_data b' = m_data b /\ m_zeroAreaStart b' = m_zeroAreaStart b /\ m_zeroAreaEnd b' = m_zeroAreaEnd b /\
  m_start b' = m_start b /\ m_end b' = m_end b.

Lemma like_ok b b' L h : like b b' -> heap_ok (b :: L) h -> heap_ok (b' :: L) h /\ contents h b' = contents h b.
Proof.
  intros (Hd & Hzs & Hze & Hs & He) Hok. destruct (live_window _ _ _ Hok) as (d & E & [] & _). split.
  - eapply shrink_ok; [exact Hok|exact E|done|split; unfold internal_end, size in *; congruence|lia|unfold internal_end; lia|].
    intros _. unfold internal_end. lia.
  - unfold contents. rewrite Hd. unfold window_contents. by rewrite Hzs, Hze, Hs, He.
Qed.

Lemma recommend_ok x L h :
  heap_ok L h -> heap_ok L (set_recommendedStart (Z.max (g_recommendedStart h) x) h) /\
  frame L h (set_recommendedStart (Z.max (g_recommendedStart h) x) h).
Proof.
  intros [[] Hw Hl]. split; [|done]. split; [|done|done]. split; try done. simpl. lia.
Qed.

(** One live buffer more on the storage of [o]. *)
Lemma retain_ok o b L h :
  heap_ok L h -> o ∈ L -> few L -> like o b ->
  exists h', modify (m_data o) (fun d => set_count (u32 (m_count d + 1)) d) h = Ok (tt, h') /\
    heap_ok (b :: L) h' /\ frame L h h' /\ contents h' b = contents h o.
Proof.
  intros Hok Ho Hfew Hlike. destruct (o_window _ _ Hok o Ho) as (d & E & _).
  destruct (retain_refs (refs_of L) (m_data o) d h) as [Hr Hs]; [apply Hok|done|by apply list_elem_of_fmap_2| |].
  { rewrite length_fmap. unfold few, limit in Hfew. lia. }
  eexists. split; [by apply modify_ok|]. set (h' := upd _ _ h) in *.
  destruct (same_heap_ok L (o :: L) h h' Hok) as [Hok' Hf].
  { intros q [->|Hq]%elem_of_cons; apply Hs; [by apply list_elem_of_fmap_2|done]. }
  { intros x [->|Hx]%elem_of_cons; done. }
  { done. }
  apply frame_cons in Hf as [Hfo Hf]. destruct (like_ok o b L h' Hlike Hok') as [Hok2 Hc].
  split; [done|]. split; [done|]. congruence.
Qed.

Lemma copy_constructor_ok o L h :
  heap_ok L h -> o ∈ L -> few L ->
  exists c h', copy_constructor o h = Ok (c, h') /\ heap_ok (c :: L) h' /\ frame L h h' /\
    contents h' c = contents h o /\ like o c.
Proof.
  intros Hok Ho Hfew. set (c := mkBuffer (m_data o) (m_zeroAreaStart o) (m_zeroAreaStart o) (m_zeroAreaEnd o) (m_start o) (m_end o)).
  destruct (retain_ok o c L h) as (h' & E & Hok' & Hf & Hc); [done..|].
  exists c, h'. split; [|done]. unfold copy_constructor. by rewrite (run_bind _ _ _ _ _ E).
Qed.

Lemma release_heap_ok b L h :
  heap_ok (b :: L) h -> exists h', release (m_data b) h = Ok (tt, h') /\ heap_ok L h' /\ frame L h h'.
Proof.
  intros Hok. destruct (release_ok (refs_of L) (m_data b) h) as (h' & E & Hr & Hs & _); [apply (o_refs _ _ Hok)|].
  exists h'. split; [done|]. by apply (same_heap_ok (b :: L)); [|done|intros x Hx; right|].
Qed.

Lemma destructor_ok b L h :
  heap_ok (b :: L) h -> exists h', destructor b h = Ok (tt, h') /\ heap_ok L h' /\ frame L h h'.
Proof.
  intros Hok. unfold destructor. run.
  destruct (recommend_ok (m_maxZeroAreaStart b) _ _ Hok) as [Hok1 Hf1].
  destruct (release_heap_ok b L _ Hok1) as (h' & E & Hok' & Hf'). exists h'. split; [done|]. split; [done|].
  by apply frame_cons in Hf1 as [_ Hf1]; etransitivity.
Qed.

Lemma assign_ok o b L h :
  heap_ok (b :: L) h -> o ∈ L -> few L ->
  exists b' h', assign o b h = Ok (b', h') /\ heap_ok (b' :: L) h' /\ frame L h h' /\
    contents h' b' = contents h o /\ like o b'.
Proof.
  intros Hok Ho Hfew. unfold assign.
  set (b' := mkBuffer (m_data o) (m_maxZeroAreaStart o) (m_zeroAreaStart o) (m_zeroAreaEnd o) (m_start o) (m_end o)).
  assert (exists h1, when (negb (Nat.eqb (m_data b) (m_data o)))
      (_ ← release (m_data b); modify (m_data o) (fun d => set_count (u32 (m_count d + 1)) d)) h = Ok (tt, h1) /\
    heap_ok (b' :: L) h1 /\ frame L h h1 /\ contents h1 b' = contents h o) as (h1 & E & Hok1 & Hf1 & Hc1).
  { destruct (Nat.eqb_spec (m_data b) (m_data o)) as [Heq|_]; simpl.
    - exists h. split; [done|]. assert (heap_ok (o :: L) h) as Hok1.
      { destruct Hok as [Hr Hw Hl]. split; [by rewrite refs_of_cons, <- Heq| |].
        - intros x [->|Hx]%elem_of_cons; apply Hw; by right.
        - intros x y d Hx Hy. apply Hl; set_solver. }
      destruct (like_ok o b' L h) as [? ?]; [done|done|]. done.
    - destruct (release_heap_ok b L h Hok) as (h1 & E1 & Hok1 & Hf1).
      destruct (retain_ok o b' L h1) as (h2 & E2 & Hok2 & Hf2 & Hc2); [done..|].
      exists h2. rewrite (run_bind _ _ _ _ _ E1). split; [done|]. split; [done|]. split; [by etransitivity|].
      rewrite Hc2. by apply Hf1. }
  rewrite (run_bind _ _ _ _ _ E). run.
  destruct (recommend_ok (m_maxZeroAreaStart b) _ _ Hok1) as [Hok2 Hf2]. apply frame_cons in Hf2 as [Hc2 Hf2].
  do 2 eexists. split; [reflexivity|]. split; [done|]. split; [by etransitivity|]. split; [|done].
  change (contents (set_recommendedStart (Z.max (g_recommendedStart h1) (m_maxZeroAreaStart b)) h1) b' = contents h o). congruence.
Qed.

(** * The iterators of [Buffer]

    Writes through an iterator, in octets that the buffer owns, replace a
    slice of its contents; reads return a slice of them.  The full copy, the
    concatenation and the serialization of buffers follow. *)

(** The iterator of [b] before its octet [v]. *)
Definition pos (b : Buffer) (v : Z) : Iterator := Construct b (m_start b + v).
(** Where that octet is stored. *)
Definition real (b : Buffer) (v : Z) : Z :=
  if v <? m_zeroAreaStart b - m_start b then m_start b + v else m_start b + v - zeros b.
(** [n] octets that are all in the storage. *)
Definition placed (b : Buffer) (v n : Z) : Prop :=
  0 <= v /\ 0 <= n /\ v + n <= size b /\ (v + n <= m_zeroAreaStart b - m_start b \/ m_zeroAreaEnd b - m_start b <= v).

Lemma Begin_pos b : Begin b = pos b 0.
Proof. unfold Begin, pos. f_equal. lia. Qed.
Lemma End_pos b : End b = pos b (size b).
Proof. unfold End, pos, size. f_equal. lia. Qed.

Lemma real_range b d v n : window b d -> placed b v n -> n <> 0 -> m_start b <= real b v /\ real b v + n <= internal_end b.
Proof. intros [] (? & ? & ? & ?) ?. unfold real. zcase; win. Qed.

Lemma splice_nil off bs : splice off [] bs = bs.
Proof. unfold splice. simpl. rewrite Nat.add_0_r. apply take_drop. Qed.

Lemma advance_pos b d n v : window b d -> m_size d < limit -> 0 <= v -> 0 <= n -> v + n <= size b -> advance n (pos b v) = pos b (v + n).
Proof. intros [] ????. unfold advance, pos, set_current, Construct. simpl. f_equal. unwrap. lia. Qed.

Lemma Prev_pos b d n : window b d -> m_size d < limit -> 0 <= n <= size b -> Prev n (End b) = Ok (pos b (size b - n)).
Proof.
  intros [] ? ?. unfold Prev. rewrite (proj2 (Z.leb_le _ _)) by (simpl; win). cbn [ns_assert mbind res_bind mret res_ret].
  unfold set_current, End, pos, Construct. simpl. do 2 f_equal. unwrap. win.
Qed.
Lemma Next_pos b d v n : window b d -> m_size d < limit -> 0 <= v -> 0 <= n -> v + n <= size b -> Next n (pos b v) = Ok (pos b (v + n)).
Proof.
  intros [] ? ? ? ?. unfold Next. simpl. rewrite (wrap_small 32) by win. rewrite (proj2 (Z.leb_le _ _)) by win.
  cbn [ns_assert mbind res_bind mret res_ret]. unfold set_current, pos, Construct. simpl. do 2 f_equal. lia.
Qed.

(** Writing where the window is replaces a slice of the contents. *)
Lemma splice_contents b d v src :
  window b d -> m_size d = Z.of_nat (length (m_bytes d)) -> placed b v (Z.of_nat (length src)) -> src <> [] ->
  window_contents b (splice (real b v) src (m_bytes d)) = splice v src (window_contents b (m_bytes d)).
Proof.
  intros Hw Hlen Hpl Hne. assert (Z.of_nat (length src) <> 0) as Hnz by (destruct src; simpl in *; [done|lia]).
  destruct (real_range _ _ _ _ Hw Hpl Hnz) as [Hlo Hhi]. destruct Hpl as (Hv & Hn & Hsz & Hside).
  pose proof (length_window _ _ _ Hw Hlen) as Hlc.
  assert (length (splice (real b v) src (m_bytes d)) = length (m_bytes d)) as Hls by (apply length_splice; destruct Hw; win).
  assert (v < m_zeroAreaStart b - m_start b /\ real b v = m_start b + v \/
          m_zeroAreaStart b - m_start b <= v /\ real b v = m_start b + v - zeros b) as Hr by (unfold real; zcase; lia).
  set (r := real b v) in *. clearbody r.
  apply list_eq. intros i. rewrite <- (Nat2Z.id i). destruct (decide (Z.of_nat i < size b)) as [Hi|Hi].
  - rewrite (lookup_splice v) by lia. rewrite !(lookup_window _ _ d) by (done || lia || (rewrite Hls; done)).
    destruct Hw. set (j := Z.of_nat i) in *. assert (0 <= j) by lia. clearbody j.
    destruct (Z.ltb_spec j (m_zeroAreaStart b - m_start b)); [|destruct (Z.ltb_spec j (m_zeroAreaEnd b - m_start b))].
    + rewrite lookup_splice by win.
      destruct (Z.leb_spec r (m_start b + j)), (Z.ltb_spec (m_start b + j) (r + Z.of_nat (length src))),
        (Z.leb_spec v j), (Z.ltb_spec j (v + Z.of_nat (length src))); simpl; try done; try win; f_equal; win.
    + destruct (Z.leb_spec v j), (Z.ltb_spec j (v + Z.of_nat (length src))); simpl; try done; win.
    + rewrite lookup_splice by win. set (k := m_start b + j - _).
      assert (k = m_start b + j - zeros b) as Hk by done. clearbody k.
      destruct (Z.leb_spec r k), (Z.ltb_spec k (r + Z.of_nat (length src))),
        (Z.leb_spec v j), (Z.ltb_spec j (v + Z.of_nat (length src))); simpl; try done; try win; f_equal; win.
  - pose proof (length_window b (splice r src (m_bytes d)) d Hw ltac:(rewrite Hls; done)).
    rewrite !lookup_ge_None_2; [done| |]; [rewrite length_splice by lia|]; lia.
Qed.

Lemma poke_at b L h v src off :
  heap_ok (b :: L) h -> placed b v (Z.of_nat (length src)) ->
  owned L b (real b v) (real b v + Z.of_nat (length src)) -> (src <> [] -> off = real b v) ->
  exists h', poke (m_data b) off src h = Ok (tt, h') /\ heap_ok (b :: L) h' /\ frame L h h' /\
    contents h' b = splice v src (contents h b) /\
    (forall p, p <> m_data b -> h_data h' !! p = h_data h !! p).
Proof.
  intros Hok Hpl Hown Hoff. destruct (live_window _ _ _ Hok) as (d & E & Hwin & [Hc Hlen Hsz]).
  destruct (decide (src = [])) as [->|Hne].
  - exists (upd (m_data b) (set_bytes (splice off [] (m_bytes d)) d) h). rewrite splice_nil.
    assert (set_bytes (m_bytes d) d = d) as -> by (by destruct d).
    destruct (upd_heap_ok b b L h d d) as [Hok' Hf]; try done.
    { intros c1 c2 H1 H2 Eq1 Eq2 Ee. eapply (o_last _ _ Hok c1 c2 d); congruence. }
    split; [|split; [done|split; [done|split]]].
    + unfold poke. rewrite (run_load _ _ _ _ E). unfold within. simpl. rewrite splice_nil. by destruct d.
    + unfold contents. by rewrite lookup_upd, E, splice_nil.
    + intros p Hp. by apply lookup_upd_ne.
  - specialize (Hoff Hne) as ->.
    assert (Z.of_nat (length src) <> 0) as Hnz by (destruct src; simpl in *; [done|lia]).
    destruct (real_range _ _ _ _ Hwin Hpl Hnz) as [Hlo Hhi]. pose proof Hwin as [? ? ? ? ? ? ?].
    set (d' := set_bytes (splice (real b v) src (m_bytes d)) d).
    exists (upd (m_data b) d' h). split; [apply poke_ok; [done|lia|win]|].
    destruct (upd_heap_ok b b L h d d') as [Hok' Hf]; try done.
    { simpl. apply length_splice; win. }
    { intros b2 H2 Heq Hw2. split; [by destruct Hw2; split|]. unfold window_contents, d'. simpl.
      destruct (Hown ltac:(lia) b2 H2 Heq); destruct Hw2; rewrite !slice_splice_apart by win; done. }
    { intros c1 c2 H1 H2 Eq1 Eq2 Ee. change (m_end c1 = m_dirtyEnd d) in Ee. eapply (o_last _ _ Hok c1 c2 d); congruence. }
    split; [done|]. split; [done|]. split; [|intros p Hp; by apply lookup_upd_ne].
    unfold contents. rewrite lookup_upd, E. simpl. by apply splice_contents.
Qed.

(** A write of [src] at the octet [v]. *)
Definition writes (W : Iterator -> M Iterator) (src : list Z) : Prop :=
  forall b L h v, heap_ok (b :: L) h -> placed b v (Z.of_nat (length src)) ->
  owned L b (real b v) (real b v + Z.of_nat (length src)) ->
  exists h', W (pos b v) h = Ok (pos b (v + Z.of_nat (length src)), h') /\ heap_ok (b :: L) h' /\ frame L h h' /\
    contents h' b = splice v src (contents h b).

Lemma CheckNoZero_placed b d v n :
  window b d -> m_size d < limit -> placed b v n -> CheckNoZero (m_start b + v) (m_start b + v + n) (pos b v) = true.
Proof.
  intros [] ? (? & ? & ? & ?). unfold CheckNoZero. simpl. apply negb_true_iff. rewrite !orb_false_iff.
  split; [split; apply Z.ltb_ge; win|].
  destruct (Z.ltb_spec (m_zeroAreaStart b) (m_start b + v + n)), (Z.ltb_spec (m_start b + v) (m_zeroAreaEnd b));
    simpl; try done; win.
Qed.

(** The address computed by the two forms of the code. *)
Lemma after_zeros_real b d v :
  window b d -> m_size d < limit -> 0 <= v <= size b -> m_zeroAreaEnd b - m_start b <= v -> after_zeros (pos b v) = real b v.
Proof. intros [] ???. unfold after_zeros, real. simpl. zcase; unwrap; win. Qed.

(** The writes that share a shape: an assertion, an address, [memcpy]. *)
Lemma writes_at src (chk : Iterator -> bool) (addr : Iterator -> Z) n :
  n = Z.of_nat (length src) ->
  (forall b d v, window b d -> m_size d < limit -> placed b v n -> chk (pos b v) = true /\ (src <> [] -> addr (pos b v) = real b v)) ->
  writes (fun i => _ ← lift (ns_assert (chk i)); _ ← poke (i_data i) (addr i) src; mret (advance n i)) src.
Proof.
  intros -> H b L h v Hok Hpl Hown. destruct (live_window _ _ _ Hok) as (d & E & Hwin & [_ _ Hsz]).
  destruct (H b d v Hwin) as [Hchk Haddr]; [lia|done|].
  destruct (poke_at b L h v src (addr (pos b v)) Hok Hpl Hown Haddr) as (h' & Ep & Hok' & Hf & Hc & _).
  exists h'. split; [|done]. rewrite run_assert by done. cbn [i_data pos Construct] in *. rewrite (run_bind _ _ _ _ _ Ep).
  destruct Hpl as (? & ? & ? & ?). by rewrite (advance_pos _ d) by (done || lia).
Qed.

Lemma WriteU8_writes x : writes (WriteU8 x) [x].
Proof.
  apply (writes_at [x] (fun i => Check (i_current i) i) (fun i => if i_current i <? i_zeroStart i then i_current i else after_zeros i));
    [done|]. intros b d v Hw Hsz Hpl. pose proof Hpl as (? & ? & ? & Hside). pose proof Hw as []. split.
  - unfold Check. simpl. rewrite !andb_true_iff, negb_true_iff, andb_false_iff, !Z.leb_le, Z.leb_gt, Z.ltb_ge. win.
  - intros _. simpl. zcase; [unfold real; zcase; win|]. apply (after_zeros_real _ d); (done || win).
Qed.

Lemma Write_writes src : writes (Write src) src.
Proof.
  apply (writes_at src (fun i => CheckNoZero (i_current i) (Z.of_nat (length src)) i)
    (fun i => if i_current i <=? i_zeroStart i then i_current i else after_zeros i)); [done|].
  intros b d v Hw Hsz Hpl. pose proof Hpl as (? & ? & ? & Hside). pose proof Hw as []. split.
  - unfold CheckNoZero. simpl. apply negb_true_iff. rewrite !orb_false_iff. split; [split; apply Z.ltb_ge; win|].
    destruct (Z.ltb_spec (m_zeroAreaStart b) (Z.of_nat (length src))), (Z.ltb_spec (m_start b + v) (m_zeroAreaEnd b));
      simpl; try done; win.
  - intros Hne. assert (0 < Z.of_nat (length src)) by (destruct src; simpl in *; [done|lia]). simpl.
    destruct (Z.leb_spec (m_start b + v) (m_zeroAreaStart b)); [unfold real; zcase; win|].
    apply (after_zeros_real _ d); (done || win).
Qed.

Lemma WriteU8_n_writes x n : 0 <= n -> writes (WriteU8_n x n) (replicate (Z.to_nat n) x).
Proof.
  intros Hn. apply (writes_at (replicate (Z.to_nat n) x) (fun i => CheckNoZero (i_current i) (u32 (i_current i + n)) i)
    (fun i => if i_current i <=? i_zeroStart i then i_current i else after_zeros i)); [rewrite length_replicate; lia|].
  intros b d v Hw Hsz Hpl. pose proof Hpl as (? & ? & ? & Hside). pose proof Hw as []. split.
  - simpl. rewrite wrap_small by win. by apply (CheckNoZero_placed _ d).
  - intros Hne. assert (n <> 0) by (intros ->; done). simpl.
    destruct (Z.leb_spec (m_start b + v) (m_zeroAreaStart b)); [unfold real; zcase; win|].
    apply (after_zeros_real _ d); (done || win).
Qed.

Lemma write_octets_writes n src : n = Z.of_nat (length src) -> 0 < n -> writes (write_octets n src) src.
Proof.
  intros En Hn. apply (writes_at src (fun i => CheckNoZero (i_current i) (u32 (i_current i + n)) i)
    (fun i => if u32 (i_current i + n) <=? i_zeroStart i then i_current i else after_zeros i)); [done|].
  intros b d v Hw Hsz Hpl. pose proof Hpl as (? & ? & ? & Hside). pose proof Hw as []. split.
  - simpl. rewrite wrap_small by win. by apply (CheckNoZero_placed _ d).
  - intros Hne. simpl. rewrite wrap_small by win.
    destruct (Z.leb_spec (m_start b + v + n) (m_zeroAreaStart b)); [unfold real; zcase; win|].
    apply (after_zeros_real _ d); (done || win).
Qed.

(** Octets one by one, each inside of the region. *)
Lemma splice_cons v x l bs :
  0 <= v -> v + Z.of_nat (S (length l)) <= Z.of_nat (length bs) -> splice (v + 1) l (splice v [x] bs) = splice v (x :: l) bs.
Proof.
  intros Hv Hlen. assert (length (splice v [x] bs) = length bs) as Hl by (apply length_splice; simpl; lia).
  apply list_eq. intros i. rewrite <- (Nat2Z.id i). set (j := Z.of_nat i). assert (0 <= j) by lia. clearbody j.
  rewrite (lookup_splice (v + 1)) by lia. rewrite (lookup_splice v (x :: l)) by (simpl; lia).
  rewrite lookup_splice by (simpl; lia). cbn [length].
  destruct (Z.leb_spec (v + 1) j), (Z.ltb_spec j (v + 1 + Z.of_nat (length l))), (Z.leb_spec v j),
    (Z.ltb_spec j (v + Z.of_nat (S (length l)))), (Z.ltb_spec j (v + Z.of_nat 1)); simpl; try lia; try done.
  - replace (Z.to_nat (j - v)) with (S (Z.to_nat (j - (v + 1)))) by lia. done.
  - by replace (Z.to_nat (j - v)) with 0%nat by lia.
Qed.

Lemma real_next b d v n : window b d -> placed b v n -> 1 < n -> real b (v + 1) = real b v + 1.
Proof. intros [] (? & ? & ? & ?) ?. unfold real. zcase; win. Qed.

Lemma write_each_writes src : writes (write_each src) src.
Proof.
  induction src as [|x l IH]; intros b L h v Hok Hpl Hown; destruct (live_window _ _ _ Hok) as (d & E & Hwin & [_ Hlen _]).
  - exists h. rewrite splice_nil. simpl. by rewrite Z.add_0_r.
  - cbn [length] in *. rewrite Nat2Z.inj_succ in *. cbn [write_each].
    assert (placed b v 1 /\ placed b (v + 1) (Z.of_nat (length l))) as [Hp1 Hp2].
    { destruct Hpl as (? & ? & ? & ?). unfold placed. lia. }
    destruct (WriteU8_writes x b L h v) as (h1 & E1 & Hok1 & Hf1 & Hc1); [done|done| |].
    { intros _ b2 H2 Heq. destruct (Hown ltac:(lia) b2 H2 Heq); [left|right]; simpl; lia. }
    rewrite (run_bind _ _ _ _ _ E1). change (Z.of_nat (length [x])) with 1.
    destruct (IH b L h1 (v + 1)) as (h2 & E2 & Hok2 & Hf2 & Hc2); [done|done| |].
    { intros Hlt b2 H2 Heq. rewrite (real_next _ _ _ _ Hwin Hpl) by lia.
      destruct (Hown ltac:(lia) b2 H2 Heq); [left|right]; lia. }
    exists h2. rewrite E2. split; [do 3 f_equal; lia|]. split; [done|]. split; [by etransitivity|].
    rewrite Hc2, Hc1. apply splice_cons; [destruct Hpl; lia|]. unfold contents. rewrite E.
    rewrite (length_window _ _ d) by done. destruct Hpl as (? & ? & ? & ?). lia.
Qed.

(** ** Reading *)

Lemma slice_S v n bs x :
  0 <= v -> 0 <= n -> bs !! Z.to_nat v = Some x -> slice v (n + 1) bs = x :: slice (v + 1) n bs.
Proof.
  intros Hv Hn Hx. rewrite (Z.add_comm n), slice_app by lia. change (x :: ?l) with ([x] ++ l). f_equal.
  unfold slice. erewrite drop_S by exact Hx. done.
Qed.

Lemma contents_live L h b : heap_ok L h -> b ∈ L -> exists d, h_data h !! m_data b = Some d /\ window b d /\
  m_size d < limit /\ m_size d = Z.of_nat (length (m_bytes d)) /\ contents h b = window_contents b (m_bytes d) /\
  Z.of_nat (length (contents h b)) = size b.
Proof.
  intros Hok Hb. destruct (o_window _ _ Hok b Hb) as (d & E & Hw).
  destruct (r_data _ _ (o_refs _ _ Hok) _ _ E) as [_ Hlen Hsz]. exists d. split; [done|]. split; [done|]. split; [lia|].
  split; [done|]. unfold contents. rewrite E. split; [done|]. by apply (length_window _ _ d).
Qed.

Lemma PeekU8_ok L h b v :
  heap_ok L h -> b ∈ L -> 0 <= v < size b ->
  exists x, PeekU8 (pos b v) h = Ok (x, h) /\ contents h b !! Z.to_nat v = Some x.
Proof.
  intros Hok Hb Hv. destruct (contents_live _ _ _ Hok Hb) as (d & E & Hw & Hsz & Hlen & Ec & Hlc). rewrite Ec in *.
  destruct (lookup_lt_is_Some_2 (window_contents b (m_bytes d)) (Z.to_nat v)) as [x Hx]; [lia|].
  exists x. split; [|done]. rewrite (lookup_window _ _ _ _ Hw Hlen Hv) in Hx. pose proof Hw as [].
  unfold PeekU8. rewrite run_assert by (simpl; rewrite andb_true_iff, Z.leb_le, Z.ltb_lt; win).
  assert (forall off bs, 0 <= off -> bs !! Z.to_nat off = Some x -> hd 0 (slice off 1 bs) = x) as Hhd.
  { intros off bs Ho Hb'. by rewrite (slice_S _ 0 _ x). }
  simpl (i_current _). simpl (i_zeroStart _). simpl (i_zeroEnd _). simpl (i_data _).
  destruct (Z.ltb_spec v (m_zeroAreaStart b - m_start b)); zcase.
  - rewrite (run_peek _ _ _ _ _ _ E) by win. run. unfold mret, st_ret. by rewrite Hhd by (done || win).
  - revert Hx. zcase. by intros [= <-].
  - revert Hx. zcase. intros Hx. rewrite (after_zeros_real _ d) by (done || win). unfold real. zcase.
    rewrite (run_peek _ _ _ _ _ _ E) by win. unfold mret, st_ret. by rewrite Hhd by (done || win).
Qed.

(** [Read] returns the next [n] octets. *)
Lemma Read_ok n L h b v :
  heap_ok L h -> b ∈ L -> 0 <= v -> v + Z.of_nat n <= size b ->
  Read n (pos b v) h = Ok (slice v (Z.of_nat n) (contents h b), pos b (v + Z.of_nat n), h).
Proof.
  intros Hok Hb. revert v. induction n as [|n IH]; intros v Hv Hle.
  - simpl. by rewrite Z.add_0_r, slice_nil.
  - cbn [Read]. destruct (PeekU8_ok L h b v) as (x & Ex & Hx); [done|done|lia|].
    destruct (contents_live _ _ _ Hok Hb) as (d & E & Hw & Hsz & _).
    assert (ReadU8 (pos b v) h = Ok (x, pos b (v + 1), h)) as Er.
    { unfold ReadU8. rewrite (run_bind _ _ _ _ _ Ex). by rewrite (advance_pos _ d) by (done || lia). }
    rewrite (run_bind _ _ _ _ _ Er), (run_bind _ _ _ _ _ (IH (v + 1) ltac:(lia) ltac:(lia))).
    unfold mret, st_ret. rewrite Nat2Z.inj_succ, <- Z.add_1_r, (slice_S _ _ _ x) by (done || lia).
    do 2 f_equal. f_equal. f_equal. lia.
Qed.

(** A value parsed from the octets at the iterator, the slow way and the fast way. *)
Lemma slow_read_ok n p L h b v :
  heap_ok L h -> b ∈ L -> 0 <= v -> v + Z.of_nat n <= size b ->
  slow_read n p (pos b v) h =
  match p (slice v (Z.of_nat n) (contents h b)) with
  | Ok (x, _) => Ok (x, pos b (v + Z.of_nat n), h) | Err f => Err f
  end.
Proof.
  intros Hok Hb Hv Hle. unfold slow_read. rewrite (run_bind _ _ _ _ _ (Read_ok n L h b v Hok Hb Hv Hle)).
  by destruct (p _) as [[x ?]|].
Qed.

Lemma fast_read_ok n p L h b v :
  heap_ok L h -> b ∈ L -> 0 <= v -> v + Z.of_nat n <= size b ->
  fast_read n p (pos b v) h = slow_read n p (pos b v) h.
Proof.
  intros Hok Hb Hv Hle. rewrite (slow_read_ok n p L) by done.
  destruct (contents_live _ _ _ Hok Hb) as (d & E & Hw & Hsz & Hlen & Ec & Hlc). rewrite Ec. pose proof Hw as [].
  unfold fast_read. simpl (i_current _). simpl (i_zeroStart _). simpl (i_zeroEnd _). simpl (i_data _).
  rewrite (wrap_small 32) by win.
  assert (forall off, (forall k, 0 <= k < Z.of_nat n -> m_bytes d !! Z.to_nat (off + k) = window_contents b (m_bytes d) !! Z.to_nat (v + k)) ->
    0 <= off -> slice off (Z.of_nat n) (m_bytes d) = slice v (Z.of_nat n) (window_contents b (m_bytes d))) as Hsl.
  { intros off Ho ?. by apply slice_ext. }
  rewrite Ec in Hlc. destruct (Z.leb_spec (m_start b + v + Z.of_nat n) (m_zeroAreaStart b)).
  - rewrite (run_peek _ _ _ _ _ _ E) by win. rewrite (Hsl (m_start b + v)) by
      (lia || (intros k Hk; rewrite (lookup_window _ _ _ _ Hw Hlen) by win; zcase; f_equal; lia)).
    rewrite (advance_pos _ d) by (done || lia). by destruct (p _) as [[x ?]|].
  - destruct (Z.leb_spec (m_zeroAreaEnd b) (m_start b + v)).
    + rewrite (after_zeros_real _ d) by (done || win). unfold real. zcase. 
      destruct (decide (n = 0%nat)) as [->|]; [|].
      * rewrite (run_bind _ _ h [] h); [|unfold peek; by rewrite (run_load _ _ _ _ E)].
        rewrite slice_nil, (advance_pos _ d) by (done || lia). by destruct (p _) as [[x ?]|].
      * rewrite (run_peek _ _ _ _ _ _ E) by win. rewrite (Hsl (m_start b + v - zeros b)) by
          (win || (intros k Hk; rewrite (lookup_window _ _ _ _ Hw Hlen) by win; zcase; f_equal; win)).
        rewrite (advance_pos _ d) by (done || lia). by destruct (p _) as [[x ?]|].
    + rewrite (slow_read_ok n p L) by done. by rewrite Ec.
Qed.

(** ** Copying between storages *)

Lemma splice_app v a l bs :
  0 <= v -> v + Z.of_nat (length a) + Z.of_nat (length l) <= Z.of_nat (length bs) ->
  splice (v + Z.of_nat (length a)) l (splice v a bs) = splice v (a ++ l) bs.
Proof.
  intros Hv Hlen. assert (length (splice v a bs) = length bs) as Hl by (apply length_splice; lia).
  apply list_eq. intros i. rewrite <- (Nat2Z.id i). set (j := Z.of_nat i). assert (0 <= j) by lia. clearbody j.
  rewrite (lookup_splice (v + _)) by lia. rewrite (lookup_splice v (a ++ l)) by (rewrite ?length_app; lia).
  rewrite lookup_splice by lia. rewrite length_app, Nat2Z.inj_add.
  destruct (Z.leb_spec (v + Z.of_nat (length a)) j), (Z.ltb_spec j (v + Z.of_nat (length a) + Z.of_nat (length l))),
    (Z.leb_spec v j), (Z.ltb_spec j (v + Z.of_nat (length a))), (Z.ltb_spec j (v + (Z.of_nat (length a) + Z.of_nat (length l))));
    simpl; try lia; try done.
  - rewrite lookup_app_r by lia. f_equal. lia.
  - by rewrite lookup_app_l by lia.
Qed.

Lemma slice_zeros v n bs :
  0 <= v -> 0 <= n -> (forall k, 0 <= k < n -> bs !! Z.to_nat (v + k) = Some 0) -> slice v n bs = replicate (Z.to_nat n) 0.
Proof.
  intros Hv Hn H. transitivity (slice 0 n (replicate (Z.to_nat n) 0)); [|apply slice_all; rewrite length_replicate; lia].
  apply slice_ext; [done..|]. intros k Hk. rewrite H by done. symmetry. apply lookup_replicate. lia.
Qed.

(** Octets stored at consecutive places, from [m_start + v]. *)
Definition flat (b : Buffer) (v n : Z) : Prop := n = 0 \/ zeros b = 0 \/ v + n <= m_zeroAreaStart b - m_start b.

Lemma poke_part b L h v n k src :
  heap_ok (b :: L) h -> placed b v n -> flat b v n -> owned L b (m_start b + v) (m_start b + v + n) ->
  0 <= k -> k + Z.of_nat (length src) <= n ->
  exists h', poke (m_data b) (m_start b + (v + k)) src h = Ok (tt, h') /\ heap_ok (b :: L) h' /\ frame L h h' /\
    contents h' b = splice (v + k) src (contents h b) /\ (forall p, p <> m_data b -> h_data h' !! p = h_data h !! p).
Proof.
  intros Hok Hpl Hflat Hown Hk Hle. pose proof Hpl as (? & ? & ? & ?).
  assert (src <> [] -> real b (v + k) = m_start b + (v + k)) as Hreal.
  { intros Hne. assert (0 < Z.of_nat (length src)) by (destruct src; simpl in *; [done|lia]).
    destruct Hflat as [?|[Hz|?]]; [lia| |]; unfold real; [rewrite Hz|]; zcase; win. }
  destruct (decide (src = [])) as [->|Hne].
  - destruct (poke_at b L h (v + k) [] (m_start b + (v + k))) as (h' & H'); [done| |intros Hlt; simpl in Hlt; lia|done|by exists h'].
    destruct (live_window _ _ _ Hok) as (d & _ & [] & _). unfold placed. simpl in *. lia.
  - destruct (poke_at b L h (v + k) src (m_start b + (v + k))) as (h' & H'); [done| | |by rewrite Hreal|by exists h'].
    + unfold placed. lia.
    + rewrite Hreal by done. intros Hlt b2 Hb2 Heq. destruct (Hown ltac:(lia) b2 Hb2 Heq); [left|right]; lia.
Qed.

(** The three parts of a copy, each a slice of the source. *)
Lemma source_parts o d v1 n n1 n2 :
  window o d -> m_size d = Z.of_nat (length (m_bytes d)) -> 0 <= v1 -> v1 + n <= size o ->
  n1 = (if v1 <=? m_zeroAreaStart o - m_start o then Z.min n (m_zeroAreaStart o - m_start o - v1) else 0) ->
  n2 = (if v1 + n1 <=? m_zeroAreaEnd o - m_start o then Z.min (n - n1) (m_zeroAreaEnd o - m_start o - (v1 + n1)) else 0) ->
  0 <= n -> (0 <= n1 /\ 0 <= n2 /\ n1 + n2 <= n /\ (n1 = 0 \/ v1 + n1 <= m_zeroAreaStart o - m_start o) /\
    (n - n1 - n2 = 0 \/ m_zeroAreaEnd o - m_start o <= v1 + n1 + n2)) /\
  slice v1 n (window_contents o (m_bytes d)) =
    slice (m_start o + v1) n1 (m_bytes d) ++ replicate (Z.to_nat n2) 0 ++
    slice (m_start o + v1 + n1 + n2 - zeros o) (n - n1 - n2) (m_bytes d).
Proof.
  intros Hw Hlen Hv1 Hle E1 E2 Hn. pose proof Hw as [].
  assert (0 <= n1 /\ 0 <= n2 /\ n1 + n2 <= n) as (Hn1 & Hn2 & Hn12) by (subst n2 n1; repeat zcase; lia).
  split; [do 3 (split; [done|]); revert E1 E2; zcase; lia|].
  replace n with (n1 + (n2 + (n - n1 - n2))) at 1 by lia. rewrite !slice_app by lia. f_equal; [|f_equal].
  - apply slice_ext; [lia..|]. intros k Hk. rewrite (lookup_window _ _ _ _ Hw Hlen) by win. revert E1.
    zcase; intros; try lia; f_equal; lia.
  - apply slice_zeros; [lia..|]. intros k Hk. rewrite (lookup_window _ _ _ _ Hw Hlen) by win.
    revert E1 E2. zcase; intros; try done; lia.
  - destruct (decide (n - n1 - n2 = 0)) as [Hz|Hnz]; [by rewrite !slice_nil by lia|].
    assert (m_zeroAreaEnd o - m_start o <= v1 + n1 + n2) by (revert E1 E2; zcase; lia).
    apply slice_ext; [lia|win|]. intros k Hk. rewrite (lookup_window _ _ _ _ Hw Hlen) by win.
    zcase. f_equal. unfold zeros. lia.
Qed.

Lemma run_peek_empty {B} p off (k : list Z -> M B) h : is_Some (h_data h !! p) -> (peek p off 0 ≫= k) h = k [] h.
Proof.
  intros [d E]. rewrite (run_bind _ _ h [] h); [done|]. unfold peek. by rewrite (run_load _ _ _ _ E).
Qed.

(** One part of the copy, [k] octets of [n] done. *)
Lemma copy_step b o L h v v1 n k (c : bool) toCopy (m : M (list Z)) l :
  heap_ok (b :: L) h -> o ∈ L -> placed b v n -> flat b v n -> owned L b (m_start b + v) (m_start b + v + n) ->
  0 <= v1 -> v1 + n <= size o -> 0 <= k -> k + Z.of_nat (length l) <= n ->
  (if c then toCopy = Z.of_nat (length l) /\ m h = Ok (l, h) else l = []) ->
  exists h', (if c then l ← m; _ ← poke (m_data b) (m_start b + (v + k)) l;
                    mret (advance toCopy (pos o (v1 + k)), advance toCopy (pos b (v + k)), u32 (n - k - toCopy))
              else mret (pos o (v1 + k), pos b (v + k), n - k)) h =
      Ok (pos o (v1 + (k + Z.of_nat (length l))), pos b (v + (k + Z.of_nat (length l))), n - (k + Z.of_nat (length l)), h') /\
    heap_ok (b :: L) h' /\ frame L h h' /\ contents h' b = splice (v + k) l (contents h b) /\
    (forall p, p <> m_data b -> h_data h' !! p = h_data h !! p).
Proof.
  intros Hok Ho Hpl Hflat Hown Hv1 Hle Hk Hkl Hc. pose proof Hpl as (Hv & Hn & Hvn & _). destruct c.
  - destruct Hc as [-> Em]. destruct (poke_part b L h v n k l) as (h' & P & H'); [done..|].
    exists h'. split; [|done]. rewrite (run_bind _ _ _ _ _ Em), (run_bind _ _ _ _ _ P).
    destruct (live_window _ _ _ Hok) as (db & Eb & Hwb & [_ Hlenb Hszb]).
    destruct (contents_live (b :: L) h o) as (d & E & Hw & Hsz & _); [done|by right|].
    rewrite (advance_pos o d), (advance_pos b db) by (done || lia). unfold mret, st_ret.
    pose proof Hwb as []. rewrite wrap_small by win. rewrite <- !Z.add_assoc, <- Z.sub_add_distr. done.
  - subst l. simpl. rewrite splice_nil, !Z.add_0_r. by exists h.
Qed.

Lemma Write_range_ok b o L h v v1 n :
  heap_ok (b :: L) h -> o ∈ L -> m_data b <> m_data o -> placed b v n -> flat b v n ->
  owned L b (m_start b + v) (m_start b + v + n) -> 0 <= v1 -> v1 + n <= size o ->
  exists h', Write_range (pos o v1) (pos o (v1 + n)) (pos b v) h = Ok (pos b (v + n), h') /\ heap_ok (b :: L) h' /\
    frame L h h' /\ contents h' b = splice v (slice v1 n (contents h o)) (contents h b).
Proof.
  intros Hok Ho Hne Hpl Hflat Hown Hv1 Hle. pose proof Hpl as (Hv & Hn & Hvn & _).
  destruct (live_window _ _ _ Hok) as (db & Eb & Hwb & [_ Hlenb Hszb]). pose proof Hwb as [].
  destruct (contents_live (b :: L) h o) as (d & E & Hw & Hsz & Hlen & Ec & _); [done|by right|]. pose proof Hw as [].
  set (c1 := v1 <=? m_zeroAreaStart o - m_start o).
  set (n1 := if c1 then Z.min n (m_zeroAreaStart o - m_start o - v1) else 0).
  set (c2 := v1 + n1 <=? m_zeroAreaEnd o - m_start o).
  set (n2 := if c2 then Z.min (n - n1) (m_zeroAreaEnd o - m_start o - (v1 + n1)) else 0).
  destruct (source_parts o d v1 n n1 n2) as ((Hn1 & Hn2 & Hn12 & Hz1 & Hz3) & Eparts); [done..|].
  set (l1 := slice (m_start o + v1) n1 (m_bytes d)) in *. set (l3 := slice _ (n - n1 - n2) (m_bytes d)) in *.
  assert (Z.of_nat (length l1) = n1) as Hl1.
  { subst l1. destruct Hz1 as [->|]; [by rewrite slice_nil|]. apply length_slice; win. }
  assert (Z.of_nat (length l3) = n - n1 - n2) as Hl3.
  { subst l3. destruct Hz3 as [->|]; [by rewrite slice_nil|]. apply length_slice; win. }
  assert (v1 + n1 <= size o) by lia.
  (* the octets before the zero area, the zeros, the octets after it *)
  destruct (copy_step b o L h v v1 n 0 c1 (Z.min n (u32 (m_zeroAreaStart o - (m_start o + v1))))
    (peek (m_data o) (m_start o + v1) (Z.min n (u32 (m_zeroAreaStart o - (m_start o + v1))))) l1)
    as (h1 & P1 & Hok1 & Hf1 & Hc1 & Hu1); [done..|lia| |].
  { destruct c1 eqn:Ec1; unfold c1 in Ec1; [apply Z.leb_le in Ec1|unfold l1, n1; by rewrite slice_nil by lia].
    rewrite Hl1. unwrap. assert (Z.min n (m_zeroAreaStart o - (m_start o + v1)) = n1) as -> by (unfold n1; lia).
    split; [done|]. apply peek_ok; [done|]. destruct Hz1; [by left|right; win]. }
  rewrite Hl1, !Z.add_0_r, Z.sub_0_r, Z.add_0_l in P1. rewrite Z.add_0_r in Hc1.
  assert (h_data h1 !! m_data o = Some d) as E1 by (rewrite Hu1 by done; exact E).
  destruct (copy_step b o L h1 v v1 n n1 c2 (Z.min (n - n1) (u32 (m_zeroAreaEnd o - (m_start o + (v1 + n1)))))
    (mret (replicate (Z.to_nat (Z.min (n - n1) (u32 (m_zeroAreaEnd o - (m_start o + (v1 + n1)))))) 0)) (replicate (Z.to_nat n2) 0))
    as (h2 & P2 & Hok2 & Hf2 & Hc2 & Hu2); [done..|rewrite length_replicate; lia| |].
  { destruct c2 eqn:Ec2; unfold c2 in Ec2; [apply Z.leb_le in Ec2|done].
    unwrap. assert (Z.min (n - n1) (m_zeroAreaEnd o - (m_start o + (v1 + n1))) = n2) as -> by (unfold n2; lia).
    rewrite length_replicate. split; [lia|done]. }
  rewrite length_replicate, Z2Nat.id in P2 by lia.
  assert (h_data h2 !! m_data o = Some d) as E2 by (rewrite Hu2 by done; exact E1).
  destruct (poke_part b L h2 v n (n1 + n2) l3) as (h3 & P3 & Hok3 & Hf3 & Hc3 & Hu3); [done..|lia|lia|].
  exists h3. split; [|split; [done|split; [by do 2 (etransitivity; [eassumption|])|]]].
  2:{ rewrite Ec, Eparts, Hc3, Hc2, Hc1. assert (Z.of_nat (length (contents h b)) = size b) as Hlc
        by (unfold contents; rewrite Eb; by apply (length_window _ _ db)).
      replace (v + n1) with (v + Z.of_nat (length l1)) at 1 by lia. rewrite splice_app by (rewrite ?length_replicate; lia).
      replace (v + (n1 + n2)) with (v + Z.of_nat (length (l1 ++ replicate (Z.to_nat n2) 0)))
        by (rewrite length_app, length_replicate; lia).
      rewrite splice_app by (rewrite ?length_app, ?length_replicate; lia). by rewrite <- app_assoc. }
  unfold Write_range. rewrite run_assert by (simpl; apply Nat.eqb_refl). rewrite run_assert by (apply Z.leb_le; simpl; lia).
  do 2 rewrite run_assert by (simpl; apply Z.eqb_refl).
  rewrite run_assert by (simpl; apply negb_true_iff, Nat.eqb_neq; done).
  assert (u32 (i_current (pos o (v1 + n)) - i_current (pos o v1)) = n) as -> by (simpl; unwrap; lia).
  rewrite run_assert.
  2:{ simpl (i_current _). rewrite wrap_small by win. by apply (CheckNoZero_placed _ db); [|lia|]. }
  assert ((i_current (pos o v1) <=? i_zeroStart (pos o v1)) = c1) as ->
    by (unfold c1; simpl; apply eq_true_iff_eq; rewrite !Z.leb_le; lia).
  etransitivity; [apply (run_bind _ _ _ _ _ P1)|]. cbv beta iota.
  assert ((i_current (pos o (v1 + n1)) <=? i_zeroEnd (pos o (v1 + n1))) = c2) as ->
    by (unfold c2; simpl; apply eq_true_iff_eq; rewrite !Z.leb_le; lia).
  etransitivity; [apply (run_bind _ _ _ _ _ P2)|]. cbv beta iota zeta.
  simpl (i_dataEnd _). simpl (i_current _). simpl (i_data _).
  rewrite (wrap_small 32 (m_end o - _)) by win. rewrite Z.min_l by win.
  replace (n - (n1 + n2)) with (n - n1 - n2) by lia.
  assert (peek (m_data o) (after_zeros (pos o (v1 + (n1 + n2)))) (n - n1 - n2) h2 = Ok (l3, h2)) as P.
  { destruct Hz3 as [Ez|Hz3]; [rewrite Ez; unfold l3; rewrite Ez, slice_nil by lia; erewrite peek_ok; [by rewrite slice_nil|exact E2|by left]|].
    rewrite (after_zeros_real _ d) by (done || lia). unfold real. zcase. rewrite (peek_ok _ _ _ _ _ E2) by (right; win).
    unfold l3. do 3 f_equal. lia. }
  rewrite (run_bind _ _ _ _ _ P), (run_bind _ _ _ _ _ P3), (advance_pos _ db) by (done || lia).
  unfold mret, st_ret. do 3 f_equal. lia.
Qed.
