(* ===== verification/BufferRefine.v ===== *)
(** * Buffers are independent strings of octets

    The compound operations of [Buffer] (what a packet does to its buffer:
    adding a header or a trailer, the full copy, concatenation, reading), and
    the refinement: sessions on any number of buffers, which share storages
    and reuse freed ones, give what they would on separate lists of octets, up to
    the two kinds of concatenation that [AddAtEnd] gets wrong. *)

From stdpp Require Import gmap.
From S2P Require Import Prelude Bytes Buffer BufferSpec BufferOps.

Lemma splice_prefix src old c : length old = length src -> splice 0 src (old ++ c) = src ++ c.
Proof. intros E. unfold splice. simpl. f_equal. rewrite <- E. apply drop_app_length. Qed.
Lemma splice_suffix src old c v :
  length old = length src -> Z.of_nat (length c) = v -> splice v src (c ++ old) = c ++ src.
Proof.
  intros E <-. unfold splice. rewrite Nat2Z.id, take_app_length. f_equal.
  rewrite <- E, <- length_app, drop_all. by rewrite app_nil_r.
Qed.

(** A header: room at the start, then a write there. *)
Lemma prepend_ok n b L h W src :
  heap_ok (b :: L) h -> writes W src -> n = Z.of_nat (length src) -> n + size b < limit -> few L ->
  exists b' h1 h2, AddAtStart n b h = Ok (b', h1) /\ W (Begin b') h1 = Ok (pos b' n, h2) /\
    heap_ok (b' :: L) h1 /\ frame L h h1 /\ heap_ok (b' :: L) h2 /\ frame L h h2 /\ contents h2 b' = src ++ contents h b /\ zeros b' = zeros b /\
    size b' = n + size b /\ m_zeroAreaStart b' - m_start b' = n + (m_zeroAreaStart b - m_start b) /\
    (m_data b' = m_data b \/ m_data b' ∉ refs_of L).
Proof.
  intros Hok HW En Hlim Hfew. destruct (live_window _ _ _ Hok) as (d & E & Hwin & _). pose proof Hwin as [].
  destruct (AddAtStart_ok n b L h Hok ltac:(lia) Hlim Hfew) as (b' & h1 & EA & Hok1 & Hf1 & Hown & Ezs & Ez & Esz & Hp & new & Hnew & Hc1).
  destruct (live_window _ _ _ Hok1) as (d1 & E1 & Hw1 & _). pose proof Hw1 as [].
  destruct (HW b' L h1 0 Hok1) as (h2 & EW & Hok2 & Hf2 & Hc2).
  { unfold placed. win. }
  { assert (0 < n -> real b' 0 = m_start b') as Hr by (unfold real; zcase; intros; lia).
    intros Hlt. rewrite <- En in *. rewrite Hr in * by lia. by apply Hown. }
  exists b', h1, h2. rewrite Begin_pos, EW, <- En, Z.add_0_l. do 5 (split; [done|]).
  split; [by etransitivity|]. split; [|done]. rewrite Hc2, Hc1. apply splice_prefix. lia.
Qed.

(** A trailer: room at the end, then a write of the octets there. *)
Lemma append_ok n b L h W src :
  heap_ok (b :: L) h -> writes W src -> n = Z.of_nat (length src) -> size b + n < limit -> few L ->
  exists b' h1 h2 i, AddAtEnd n b h = Ok (b', h1) /\ Prev n (End b') = Ok i /\ W i h1 = Ok (End b', h2) /\
    heap_ok (b' :: L) h1 /\ frame L h h1 /\ heap_ok (b' :: L) h2 /\ frame L h h2 /\ contents h2 b' = contents h b ++ src /\ zeros b' = zeros b /\
    size b' = size b + n /\ (m_data b' = m_data b \/ m_data b' ∉ refs_of L).
Proof.
  intros Hok HW En Hlim Hfew. destruct (live_window _ _ _ Hok) as (d & E & Hwin & _). pose proof Hwin as [].
  destruct (AddAtEnd_ok n b L h d Hok E ltac:(lia) Hlim Hfew)
    as (b' & h1 & EA & (Hok1 & Hf1 & Hown & Ezs & Ez & Esz & Hp & new & Hnew & Hc1) & _).
  destruct (live_window _ _ _ Hok1) as (d1 & E1 & Hw1 & [_ _ Hsz1]). pose proof Hw1 as [].
  assert (placed b' (size b) n) as Hpl by (unfold placed; win).
  destruct (HW b' L h1 (size b) Hok1) as (h2 & EW & Hok2 & Hf2 & Hc2).
  { by rewrite <- En. }
  { intros Hlt. rewrite <- En in *. assert (real b' (size b) = internal_end b' - n) as Hr by (unfold real; zcase; win).
    rewrite Hr in *. replace (internal_end b' - n + n) with (internal_end b') by lia. apply Hown. lia. }
  exists b', h1, h2, (pos b' (size b)). split; [done|].
  split; [rewrite (Prev_pos _ d1) by (done || lia || win); do 2 f_equal; lia|].
  split; [rewrite EW, End_pos; do 3 f_equal; lia|]. do 3 (split; [done|]). split; [by etransitivity|]. split; [|done].
  rewrite Hc2, Hc1. apply splice_suffix; [lia|]. unfold contents. rewrite E.
  destruct (contents_live _ _ b Hok) as (d' & E' & _ & _ & _ & Ec & Hl); [by left|]. unfold contents in Hl. by rewrite E in Hl.
Qed.

(** The parts of the contents. *)
Lemma contents_parts b d :
  window b d -> m_size d = Z.of_nat (length (m_bytes d)) ->
  let c := window_contents b (m_bytes d) in
  slice (m_start b) (m_zeroAreaStart b - m_start b) (m_bytes d) = slice 0 (m_zeroAreaStart b - m_start b) c /\
  slice (m_zeroAreaStart b) (m_end b - m_zeroAreaEnd b) (m_bytes d) =
    slice (m_zeroAreaEnd b - m_start b) (m_end b - m_zeroAreaEnd b) c /\
  c = slice 0 (m_zeroAreaStart b - m_start b) c ++ replicate (Z.to_nat (zeros b)) 0 ++
      slice (m_zeroAreaEnd b - m_start b) (m_end b - m_zeroAreaEnd b) c.
Proof.
  intros Hw Hlen c. pose proof Hw as []. pose proof (length_window _ _ _ Hw Hlen) as Hl.
  split; [|split].
  - apply slice_ext; [lia..|]. intros k Hk. unfold c. rewrite (lookup_window _ _ _ _ Hw Hlen) by win.
    zcase. f_equal; lia.
  - apply slice_ext; [lia..|]. intros k Hk. unfold c. rewrite (lookup_window _ _ _ _ Hw Hlen) by win.
    zcase. f_equal; lia.
  - assert (replicate (Z.to_nat (zeros b)) 0 = slice (m_zeroAreaStart b - m_start b) (zeros b) c) as ->.
    { symmetry. apply slice_zeros; [win..|]. intros k Hk. unfold c. rewrite (lookup_window _ _ _ _ Hw Hlen) by win. by zcase. }
    rewrite <- (slice_all c (size b)) at 1 by done.
    replace (size b) with ((m_zeroAreaStart b - m_start b) + (zeros b + (m_end b - m_zeroAreaEnd b))) by win.
    rewrite !slice_app by win. do 2 f_equal. f_equal. win.
Qed.

Lemma peek_before L h b : heap_ok L h -> b ∈ L ->
  peek (m_data b) (m_start b) (m_zeroAreaStart b - m_start b) h = Ok (slice 0 (m_zeroAreaStart b - m_start b) (contents h b), h).
Proof.
  intros Hok Hb. destruct (contents_live _ _ _ Hok Hb) as (d & E & Hw & _ & Hlen & -> & _). pose proof Hw as [].
  destruct (contents_parts b d Hw Hlen) as (<- & _ & _). apply peek_ok; [done|]. right. win.
Qed.
Lemma peek_after L h b : heap_ok L h -> b ∈ L ->
  peek (m_data b) (m_zeroAreaStart b) (m_end b - m_zeroAreaEnd b) h =
  Ok (slice (m_zeroAreaEnd b - m_start b) (m_end b - m_zeroAreaEnd b) (contents h b), h).
Proof.
  intros Hok Hb. destruct (contents_live _ _ _ Hok Hb) as (d & E & Hw & _ & Hlen & -> & _). pose proof Hw as [].
  destruct (contents_parts b d Hw Hlen) as (_ & <- & _). apply peek_ok; [done|]. right. win.
Qed.
Lemma contents_eq L h b : heap_ok L h -> b ∈ L ->
  contents h b = slice 0 (m_zeroAreaStart b - m_start b) (contents h b) ++ replicate (Z.to_nat (zeros b)) 0 ++
      slice (m_zeroAreaEnd b - m_start b) (m_end b - m_zeroAreaEnd b) (contents h b).
Proof.
  intros Hok Hb. destruct (contents_live _ _ _ Hok Hb) as (d & E & Hw & _ & Hlen & -> & _).
  by destruct (contents_parts b d Hw Hlen) as (_ & _ & <-).
Qed.

(** ** Whole buffers *)

Definition room (L : list Buffer) : Prop := Z.of_nat (length L) + 4 < limit.
Lemma room_few L : room L -> few L.
Proof. unfold room, few. lia. Qed.
Lemma room_few1 b L : room L -> few (b :: L).
Proof. unfold room, few, limit. simpl. lia. Qed.

Lemma CreateFullCopy_ok b L h :
  heap_ok L h -> b ∈ L -> room L ->
  exists t h', CreateFullCopy b h = Ok (t, h') /\ heap_ok (t :: L) h' /\ frame L h h' /\ contents h' t = contents h b /\
    zeros t = 0 /\ size t = size b /\ (if zeros b =? 0 then like b t else m_data t ∉ refs_of L).
Proof.
  intros Hok Hb Hroom. pose proof (room_few _ Hroom) as Hfew.
  destruct (contents_live _ _ _ Hok Hb) as (d & E & Hw & Hsz & Hlen & Ec & Hlc). pose proof Hw as [].
  unfold CreateFullCopy. rewrite (wrap_small 32 (m_zeroAreaEnd b - _)) by win. fold (zeros b).
  destruct (Z.eqb_spec (zeros b) 0) as [Hz|Hz].
  { destruct (copy_constructor_ok b L h Hok Hb Hfew) as (t & h' & Et & Hok' & Hf' & Hc' & Hlike). exists t, h'.
    split; [done|]. do 3 (split; [done|]). pose proof Hlike as (_ & ? & ? & ? & ?). split; [win|]. split; [win|done]. }
  cbv zeta. cbn [negb].
  destruct (Initialize_ok 0 L h Hok Hfew ltac:(done)) as (t0 & h0 & E0 & Hok0 & Hf0 & Hc0 & Hs0 & Hz0 & Hp0).
  rewrite (run_bind _ _ _ _ _ E0). destruct (live_window _ _ _ Hok0) as (d0 & Ed0 & [] & _).
  destruct (prepend_ok (zeros b) t0 L h0 (WriteU8_n 0 (zeros b)) (replicate (Z.to_nat (zeros b)) 0)) as
    (t1 & h1 & h1' & E1 & W1 & _ & _ & Hok1 & Hf1 & Hc1 & Hz1 & Hs1 & Hzs1 & Hp1);
    [done|apply WriteU8_n_writes; win|rewrite length_replicate; win|win|done|].
  rewrite (run_bind _ _ _ _ _ E1), (run_bind _ _ _ _ _ W1). rewrite (wrap_small 32 (m_zeroAreaStart b - _)) by win.
  assert (frame L h h1') as Hf01 by (by etransitivity).
  set (before := slice 0 (m_zeroAreaStart b - m_start b) (contents h b)).
  set (after := slice (m_zeroAreaEnd b - m_start b) (m_end b - m_zeroAreaEnd b) (contents h b)).
  assert (Z.of_nat (length before) = m_zeroAreaStart b - m_start b) as Hlb by (apply length_slice; win).
  assert (Z.of_nat (length after) = m_end b - m_zeroAreaEnd b) as Hla by (apply length_slice; win).
  destruct (prepend_ok (m_zeroAreaStart b - m_start b) t1 L h1' (Write before) before) as
    (t2 & h2 & h2' & E2 & W2 & Hok2 & Hf2 & Hok2' & Hf2' & Hc2 & Hz2 & Hs2 & Hzs2 & Hp2); [done|apply Write_writes|done|win|done|].
  rewrite (run_bind _ _ _ _ _ E2).
  assert (b ∈ t2 :: L) as Hb2 by (by right). pose proof (peek_before _ _ _ Hok2 Hb2) as P2.
  assert (contents h2 b = contents h b) as Eb2 by (rewrite (Hf2 b Hb); by apply Hf01). rewrite Eb2 in P2.
  rewrite (run_bind _ _ _ _ _ P2), (run_bind _ _ _ _ _ W2). rewrite (wrap_small 32 (m_end b - _)) by win.
  destruct (append_ok (m_end b - m_zeroAreaEnd b) t2 L h2' (Write after) after) as
    (t3 & h3 & h3' & i & E3 & I3 & W3 & Hok3 & Hf3 & Hok3' & Hf3' & Hc3 & Hz3 & Hs3 & Hp3); [done|apply Write_writes|done|win|done|].
  rewrite (run_bind _ _ _ _ _ E3). rewrite I3, run_lifted.
  assert (b ∈ t3 :: L) as Hb3 by (by right). pose proof (peek_after _ _ _ Hok3 Hb3) as P3.
  assert (contents h3 b = contents h b) as Eb3 by (rewrite (Hf3 b Hb), (Hf2' b Hb); by apply Hf01). rewrite Eb3 in P3.
  rewrite (run_bind _ _ _ _ _ P3), (run_bind _ _ _ _ _ W3). exists t3, h3'. split; [done|]. split; [done|].
  split; [by do 2 (etransitivity; [eassumption|])|]. split; [|split; [win|split; [win|]]].
  - rewrite Hc3, Hc2, Hc1, Hc0. rewrite (contents_eq L h b) by done. rewrite app_nil_r, <- app_assoc. done.
  - destruct Hp3 as [-> |]; [|done]. destruct Hp2 as [-> |]; [|done]. by destruct Hp1 as [-> |].
Qed.

(** [*this = CreateFullCopy ()], the temporary destroyed after. *)
Definition own_copy (b : Buffer) : M Buffer :=
  tmp ← CreateFullCopy b; b' ← assign tmp b; _ ← destructor tmp; mret b'.

Lemma own_copy_ok b L h :
  heap_ok (b :: L) h -> room (b :: L) ->
  exists b' h', own_copy b h = Ok (b', h') /\ heap_ok (b' :: L) h' /\ frame L h h' /\ contents h' b' = contents h b /\
    zeros b' = 0 /\ size b' = size b /\ (if zeros b =? 0 then like b b' else m_data b' ∉ refs_of L).
Proof.
  intros Hok Hroom. unfold own_copy.
  destruct (CreateFullCopy_ok b (b :: L) h) as (t & h1 & E1 & Hok1 & Hf1 & Hc1 & Hz1 & Hs1 & Hp1); [done|by left|done|].
  rewrite (run_bind _ _ _ _ _ E1). apply frame_cons in Hf1 as [_ Hf1].
  destruct (assign_ok t b (t :: L) h1) as (b' & h2 & E2 & Hok2 & Hf2 & Hc2 & Hlike);
    [by rewrite Permutation_swap|by left|by apply room_few; unfold room in *; simpl in *|].
  rewrite (run_bind _ _ _ _ _ E2). apply frame_cons in Hf2 as [_ Hf2].
  destruct (destructor_ok t (b' :: L) h2) as (h3 & E3 & Hok3 & Hf3); [by rewrite Permutation_swap|].
  rewrite (run_bind _ _ _ _ _ E3). apply frame_cons in Hf3 as [Hc3 Hf3].
  exists b', h3. split; [done|]. split; [done|]. split; [by do 2 (etransitivity; [eassumption|])|].
  split; [congruence|]. destruct Hlike as (Ed & ? & ? & ? & ?). split; [win|]. split; [win|].
  destruct (zeros b =? 0); [destruct Hp1 as (? & ? & ? & ? & ?); unfold like; repeat split; congruence|].
  rewrite Ed. rewrite refs_of_cons in Hp1. by apply not_elem_of_cons in Hp1 as [_ Hp1].
Qed.

(** Without zeros the storage is left as it was. *)
Lemma own_copy_storage b L h d :
  heap_ok (b :: L) h -> room (b :: L) -> h_data h !! m_data b = Some d -> zeros b = 0 ->
  exists b' h', own_copy b h = Ok (b', h') /\ h_data h' !! m_data b = Some d.
Proof.
  intros Hok Hroom E Hz. destruct (live_window _ _ _ Hok) as (d0 & E0 & Hwin & [Hc _ _]).
  rewrite E in E0. injection E0 as <-. pose proof Hwin as [].
  assert (1 <= m_count d < limit) as Hcount.
  { rewrite Hc, refcount_cons, decide_True by done. pose proof (refcount_le (m_data b) (refs_of L)) as Hle.
    rewrite length_fmap in Hle. unfold room in Hroom. simpl in Hroom. unfold refcount in *. lia. }
  unfold own_copy, CreateFullCopy. rewrite (wrap_small 32 (m_zeroAreaEnd b - _)) by win. fold (zeros b). rewrite Hz. simpl (negb _).
  cbv iota. set (tmp := mkBuffer (m_data b) (m_zeroAreaStart b) (m_zeroAreaStart b) (m_zeroAreaEnd b) (m_start b) (m_end b)).
  assert (copy_constructor b h = Ok (tmp, upd (m_data b) (set_count (u32 (m_count d + 1)) d) h)) as E1
    by (unfold copy_constructor; by rewrite (run_mod _ _ _ _ _ E)).
  rewrite (run_bind _ _ _ _ _ E1). unfold assign. simpl (m_data tmp). rewrite Nat.eqb_refl. simpl (negb _). unfold when at 1.
  rewrite (wrap_small 32) by win. set (h1 := upd _ _ h).
  assert (forall B (k : Buffer -> M B), ((_ ← mret tt; _ ← update (fun h => set_recommendedStart (Z.max (g_recommendedStart h) (m_maxZeroAreaStart b)) h);
    mret tmp) ≫= k) h1 = k tmp (set_recommendedStart (Z.max (g_recommendedStart h1) (m_maxZeroAreaStart b)) h1)) as E2 by done.
  rewrite E2. set (h2 := set_recommendedStart _ h1). unfold destructor, release.
  eexists tmp, _. split.
  - unfold mbind at 1, st_bind at 1. run. erewrite run_load by apply lookup_insert_eq. rewrite run_store. unfold when.
    simpl (m_count _). replace (m_count d + 1 - 1) with (m_count d) by lia. rewrite (wrap_small 32 (m_count d)) by win.
    rewrite (proj2 (Z.eqb_neq _ _)) by lia. reflexivity.
  - rewrite lookup_upd. by destruct d.
Qed.

Lemma run_own_copy {B} b (k : Buffer -> M B) h b' h' :
  own_copy b h = Ok (b', h') ->
  (tmp ← CreateFullCopy b; b' ← assign tmp b; _ ← destructor tmp; k b') h = k b' h'.
Proof.
  unfold own_copy. intros E. apply st_bind_ok in E as (tmp & h1 & E1 & E). apply st_bind_ok in E as (c & h2 & E2 & E).
  apply st_bind_ok in E as (u & h3 & E3 & E). injection E as -> ->.
  by rewrite (run_bind _ _ _ _ _ E1), (run_bind _ _ _ _ _ E2), (run_bind _ _ _ _ _ E3).
Qed.

(** The two paths of [AddAtEnd (Buffer const &)]. *)
Definition merges_zeros (o b : Buffer) (d : Data) : bool :=
  (m_count d =? 1) && ((m_end b =? m_zeroAreaEnd b) || (m_zeroAreaStart b =? m_zeroAreaEnd b)) &&
  (m_end b =? m_dirtyEnd d) && (m_start o =? m_zeroAreaStart o) && (0 <? u32 (m_zeroAreaEnd o - m_zeroAreaStart o)).

(** When the concatenation is right: on the first path, the argument has
    nothing after its zeros; on the second, the two buffers do not end up on
    one storage. *)
Definition append_safe (o b : Buffer) (h : Heap) : bool :=
  match h_data h !! m_data b with
  | None => false
  | Some d =>
      if merges_zeros o b d then m_end o =? m_zeroAreaEnd o
      else negb (Nat.eqb (m_data b) (m_data o)) || negb (zeros b =? 0) || negb (in_place (size o) b d)
  end.

(** [b] with [z] virtual zeros more at its end. *)
Lemma grow_zeros b L h d z :
  heap_ok (b :: L) h -> h_data h !! m_data b = Some d -> m_count d = 1 ->
  m_end b = m_zeroAreaEnd b \/ m_zeroAreaStart b = m_zeroAreaEnd b -> m_end b = m_dirtyEnd d ->
  0 <= z -> size b + z < limit ->
  let b1 := offsets (if m_zeroAreaStart b =? m_zeroAreaEnd b then m_end b else m_zeroAreaStart b)
              (m_end b + z) (m_start b) (m_end b + z) b in
  let h1 := upd (m_data b) (set_dirtyEnd (m_end b + z) d) h in
  heap_ok (b1 :: L) h1 /\ frame L h h1 /\ contents h1 b1 = contents h b ++ replicate (Z.to_nat z) 0 /\ size b1 = size b + z.
Proof.
  intros Hok E Hcount Hside Hdirty Hz Hlim b1 h1. destruct (live_window _ _ _ Hok) as (d0 & E0 & Hwin & [Hc Hlen Hsz]).
  rewrite E in E0. injection E0 as <-. pose proof Hwin as [].
  assert (window b1 (set_dirtyEnd (m_end b + z) d)) as Hw1.
  { subst b1. destruct (Z.eqb_spec (m_zeroAreaStart b) (m_zeroAreaEnd b)); split; win. }
  destruct (upd_heap_ok b b1 L h d (set_dirtyEnd (m_end b + z) d)) as [Hok1 Hf1]; try done.
  { intros b2 H2 Heq. by edestruct (sole_owner _ _ _ _ Hok E Hcount b2). }
  { intros c1 c2 H1 H2 Eq1 Eq2 _. assert (forall c, c ∈ b1 :: L -> m_data c = m_data b -> c = b1) as Heq.
    { intros c [->|Hc']%elem_of_cons Eq; [done|]. by edestruct (sole_owner _ _ _ _ Hok E Hcount c). }
    rewrite (Heq c1), (Heq c2) by done. lia. }
  split; [done|]. split; [done|]. split; [|subst b1; win].
  unfold contents, h1. change (m_data b1) with (m_data b). rewrite lookup_upd, E. unfold window_contents, b1. simpl.
  rewrite Z.sub_diag, (slice_nil _ 0), app_nil_r by lia.
  destruct (Z.eqb_spec (m_zeroAreaStart b) (m_zeroAreaEnd b)) as [Ez|Nz].
  - replace (m_end b + z - m_end b) with z by lia. rewrite <- Ez, Z.sub_diag. simpl. f_equal.
    replace (m_end b - m_start b) with ((m_zeroAreaStart b - m_start b) + (m_end b - m_zeroAreaStart b)) by lia.
    rewrite slice_app by lia. do 2 f_equal. lia.
  - replace (m_end b - m_zeroAreaEnd b) with 0 by lia. rewrite (slice_nil _ 0), app_nil_r, <- app_assoc by lia. f_equal.
    rewrite <- replicate_add. f_equal. lia.
Qed.

(** The end of both paths: room for octets of [o], then their copy. *)
Lemma append_range_ok n v1 o b L h d :
  heap_ok (b :: L) h -> o ∈ L -> 0 <= n -> 0 <= v1 -> v1 + n <= size o -> size b + n < limit -> few L ->
  n = 0 \/ zeros b = 0 -> h_data h !! m_data b = Some d -> m_data b <> m_data o \/ in_place n b d = false ->
  exists b' h', (b ← AddAtEnd n b; dst ← lift (Prev n (End b)); _ ← Write_range (pos o v1) (pos o (v1 + n)) dst; mret b) h =
      Ok (b', h') /\
    heap_ok (b' :: L) h' /\ frame L h h' /\ contents h' b' = contents h b ++ slice v1 n (contents h o).
Proof.
  intros Hok Ho Hn Hv1 Hle Hlim Hfew Hz E Hne. destruct (live_window _ _ _ Hok) as (d0 & E0 & Hwin & _).
  rewrite E in E0. injection E0 as <-. pose proof Hwin as [].
  destruct (contents_live (b :: L) h o) as (dO & Eo & Hwo & _ & _ & _ & Hlco); [done|by right|].
  destruct (contents_live (b :: L) h b) as (_ & _ & _ & _ & _ & _ & Hlcb); [done|by left|].
  destruct (AddAtEnd_ok n b L h d Hok E Hn Hlim Hfew)
    as (b' & h1 & EA & (Hok1 & Hf1 & Hown & Ezs & Ez & Esz & _ & new & Hnew & Hc1) & Hp).
  destruct (live_window _ _ _ Hok1) as (d1 & E1 & Hw1 & [_ _ Hsz1]). pose proof Hw1 as [].
  assert (m_data b' <> m_data o) as Hneq.
  { destruct (in_place n b d); [rewrite Hp; by destruct Hne|]. intros Eq. apply Hp. rewrite Eq. by apply list_elem_of_fmap_2. }
  destruct (Write_range_ok b' o L h1 (size b) v1 n) as (h2 & E2 & Hok2 & Hf2 & Hc2); try done.
  { unfold placed. win. }
  { unfold flat. lia. }
  { intros Hlt. assert (zeros b' = 0) by lia. replace (m_start b' + size b) with (internal_end b' - n) by win.
    replace (internal_end b' - n + n) with (internal_end b') by lia. apply Hown. lia. }
  exists b', h2. split.
  { rewrite (run_bind _ _ _ _ _ EA), (Prev_pos _ d1) by (done || lia || win). rewrite run_lifted.
    replace (size b' - n) with (size b) by lia. by rewrite (run_bind _ _ _ _ _ E2). }
  split; [done|]. split; [by etransitivity|]. rewrite Hc2, Hc1, (Hf1 o Ho). apply splice_suffix; [|done].
  assert (Z.of_nat (length (slice v1 n (contents h o))) = n) by (apply length_slice; lia). lia.
Qed.

Lemma AddAtEnd_buffer_ok o b L h :
  heap_ok (b :: L) h -> o ∈ L -> room (b :: L) -> size b + size o < limit -> append_safe o b h = true ->
  exists b' h', AddAtEnd_buffer o b h = Ok (b', h') /\ heap_ok (b' :: L) h' /\ frame L h h' /\
    contents h' b' = contents h b ++ contents h o.
Proof.
  intros Hok Ho Hroom Hlim Hsafe. assert (few L) as Hfew by (apply room_few; unfold room in *; simpl in *; lia).
  destruct (live_window _ _ _ Hok) as (d & E & Hwin & [Hc Hlen Hsz]). pose proof Hwin as [].
  destruct (contents_live (b :: L) h o) as (dO & Eo & Hwo & Hszo & Hleno & Eco & Hlco); [done|by right|]. pose proof Hwo as [].
  unfold append_safe in Hsafe. rewrite E in Hsafe. unfold AddAtEnd_buffer. rewrite (run_load _ _ _ _ E).
  fold (merges_zeros o b d). destruct (merges_zeros o b d) eqn:Em.
  - apply Z.eqb_eq in Hsafe. unfold merges_zeros in Em. rewrite !andb_true_iff, orb_true_iff, !Z.eqb_eq, Z.ltb_lt in Em.
    destruct Em as ((((Hcount & Hside) & Hdirty) & Hstart) & Hzo). cbv zeta.
    rewrite (wrap_small 32 (m_zeroAreaEnd o - _)) in * by win. rewrite (wrap_small 32 (m_end b + _)) by win.
    rewrite (wrap_small 32 (m_end o - _)) by win. replace (m_end o - m_zeroAreaEnd o) with 0 by lia.
    set (z := m_zeroAreaEnd o - m_zeroAreaStart o) in *.
    destruct (grow_zeros b L h d z) as (Hok1 & Hf1 & Hc1 & Hs1); [done..|lia|win|].
    rewrite (run_mod _ _ d) by exact E. set (b1 := offsets _ _ _ _ b) in *. set (h1 := upd (m_data b) _ h) in *.
    destruct (append_range_ok 0 (size o) o b1 L h1 (set_dirtyEnd (m_end b + z) d)) as (b2 & h2 & E2 & Hok2 & Hf2 & Hc2);
      [done|done|lia|win|lia|win|done|by left|apply lookup_upd| |].
    { left. change (m_data b <> m_data o). intros Eq. by edestruct (sole_owner _ _ _ _ Hok E Hcount o). }
    exists b2, h2. rewrite (Prev_pos _ _ _ Hwo) by win. rewrite End_pos. rewrite Z.sub_0_r, Z.add_0_r in *.
    split; [exact E2|]. split; [done|]. split; [by etransitivity|]. rewrite Hc2, Hc1, slice_nil, app_nil_r by lia. f_equal.
    rewrite (contents_eq (b :: L) h o) by (done || by right). rewrite Hstart, Hsafe, !Z.sub_diag, !slice_nil by lia.
    by rewrite app_nil_r.
  - clear Em. destruct (own_copy_ok b L h Hok Hroom) as (b1 & h1 & E1 & Hok1 & Hf1 & Hc1 & Hz1 & Hs1 & Hp1).
    destruct (live_window _ _ _ Hok1) as (d1 & Ed1 & Hw1 & _).
    destruct (append_range_ok (size o) 0 o b1 L h1 d1) as (b2 & h2 & E2 & Hok2 & Hf2 & Hc2);
      [done|done|win|lia|lia|lia|done|by right|done| |].
    { rewrite !orb_true_iff, !negb_true_iff, Nat.eqb_neq in Hsafe. destruct (Z.eqb_spec (zeros b) 0) as [Hz|Hz].
      - destruct Hp1 as (Ep & Ezs & Eze & Es & Ee). rewrite Ep.
        destruct Hsafe as [[Hne|[=]]|Hin]; [by left|right].
        destruct (own_copy_storage b L h d Hok Hroom E Hz) as (b3 & h3 & E3 & Ed3). rewrite E1 in E3. injection E3 as <- <-.
        rewrite Ep, Ed3 in Ed1. injection Ed1 as <-. rewrite <- Hin. unfold in_place, GetInternalEnd.
        by rewrite Ezs, Eze, Ee.
      - left. intros Eq. apply Hp1. rewrite Eq. by apply list_elem_of_fmap_2. }
    exists b2, h2. split; [|split; [done|split; [by etransitivity|]]].
    + etransitivity; [apply (run_own_copy _ _ _ _ _ E1)|]. cbv beta. rewrite (GetSize_eq _ _ Hwo), Begin_pos, End_pos. exact E2.
    + rewrite Hc2, Hc1, (Hf1 o Ho). f_equal. by apply slice_all.
Qed.

Lemma buffer_CreateFragment_ok start len b L h :
  heap_ok L h -> b ∈ L -> few L -> 0 <= start -> 0 <= len -> start + len <= size b ->
  exists f h', CreateFragment start len b h = Ok (f, h') /\ heap_ok (f :: L) h' /\ frame L h h' /\
    contents h' f = slice start len (contents h b).
Proof.
  intros Hok Hb Hfew Hs Hl Hle. destruct (contents_live _ _ _ Hok Hb) as (d & E & Hw & Hsz & _ & _ & Hlc). pose proof Hw as [].
  destruct (copy_constructor_ok b L h Hok Hb Hfew) as (c & h1 & E1 & Hok1 & Hf1 & Hc1 & (Ed & E2 & E3 & E4 & E5)).
  assert (size c = size b) as Esz by (unfold size; lia).
  destruct (RemoveAtStart_ok start c L h1 Hok1 ltac:(win)) as (c1 & Er & _ & Hok2 & Hs2 & Hc2).
  pose proof (RemoveAtEnd_ok (size b - (start + len)) c1 L h1 Hok2 ltac:(lia)) as (_ & Hok3 & Hs3 & Hc3).
  exists (RemoveAtEnd (size b - (start + len)) c1), h1. split; [|split; [done|split; [done|]]].
  - unfold CreateFragment. rewrite (run_bind _ _ _ _ _ E1), Er, run_lifted. rewrite (GetSize_eq _ _ Hw).
    rewrite (wrap_small 32 (start + len)) by win. by rewrite wrap_small by win.
  - rewrite Hc3, Hc2, Hc1, slice_slice by lia. f_equal; lia.
Qed.

(** ** Copying out *)

Lemma write_zeroes_ok fuel left :
  0 <= left <= Z.of_nat fuel -> left < 2 ^ 32 -> write_zeroes fuel left = replicate (Z.to_nat left) 0.
Proof.
  revert left. induction fuel as [|n IH]; intros left H1 H2; simpl.
  - by replace (Z.to_nat left) with 0%nat by lia.
  - destruct (Z.ltb_spec 0 left); [|by replace (Z.to_nat left) with 0%nat by lia].
    unfold g_zeroes_size. rewrite (wrap_small 32) by (unfold in_range; lia). rewrite IH by lia.
    rewrite <- replicate_add. f_equal. lia.
Qed.

(** What the storage has of a part of the contents. *)
Lemma peek_part L h b v off n :
  heap_ok L h -> b ∈ L -> 0 <= v -> 0 <= n ->
  n = 0 \/ (off = m_start b + v /\ v + n <= m_zeroAreaStart b - m_start b) \/
    (off = m_start b + v - zeros b /\ m_zeroAreaEnd b - m_start b <= v /\ v + n <= size b) ->
  peek (m_data b) off n h = Ok (slice v n (contents h b), h).
Proof.
  intros Hok Hb Hv Hn Hcase. destruct (contents_live _ _ _ Hok Hb) as (d & E & Hw & _ & Hlen & -> & _). pose proof Hw as [].
  destruct Hcase as [->|Hcase].
  { rewrite (peek_ok _ _ _ _ _ E) by (by left). by rewrite !slice_nil by lia. }
  assert (slice off n (m_bytes d) = slice v n (window_contents b (m_bytes d))) as <-.
  { apply slice_ext; [win|lia|]. intros k Hk. rewrite (lookup_window _ _ _ _ Hw Hlen) by win.
    destruct Hcase as [[-> ?]|(-> & ? & ?)]; zcase; f_equal; win. }
  apply peek_ok; [done|]. right. win.
Qed.

Lemma contents_zeros L h b v n :
  heap_ok L h -> b ∈ L -> 0 <= n -> m_zeroAreaStart b - m_start b <= v -> v + n <= m_zeroAreaEnd b - m_start b ->
  replicate (Z.to_nat n) 0 = slice v n (contents h b).
Proof.
  intros Hok Hb Hn H1 H2. destruct (contents_live _ _ _ Hok Hb) as (d & E & Hw & _ & Hlen & -> & _). pose proof Hw as [].
  symmetry. apply slice_zeros; [lia..|]. intros k Hk. rewrite (lookup_window _ _ _ _ Hw Hlen) by win. by zcase.
Qed.

Lemma CopyData_ok n b L h :
  heap_ok L h -> b ∈ L -> in_range 32 n ->
  CopyData n b h = Ok (slice 0 (Z.min n (size b)) (contents h b), Z.min n (size b), h).
Proof.
  intros Hok Hb Hn. destruct (contents_live _ _ _ Hok Hb) as (d & E & Hw & Hsz & _ & _ & Hlc). pose proof Hw as [].
  unfold in_range in Hn. unfold CopyData. destruct (Z.ltb_spec 0 n) as [Hpos|Hz].
  2:{ rewrite Z.min_l, slice_nil by win. by replace n with 0 by lia. }
  cbv zeta. rewrite (wrap_small 32 (m_zeroAreaStart b - _)), (wrap_small 32 (m_zeroAreaEnd b - _)),
    (wrap_small 32 (m_end b - _)) by win.
  set (n1 := Z.min (m_zeroAreaStart b - m_start b) n). rewrite (wrap_small 32 (n - n1)) by (unfold n1; win).
  assert (peek (m_data b) (m_start b) n1 h = Ok (slice 0 n1 (contents h b), h)) as P1
    by (apply (peek_part L); [done..|unfold n1; lia|right; left; unfold n1; lia]).
  rewrite (run_bind _ _ _ _ _ P1). destruct (Z.ltb_spec 0 (n - n1)) as [H1|H1].
  2:{ rewrite (wrap_small 32) by (unfold n1; win). unfold mret, st_ret. replace (Z.min n (size b)) with n1 by (unfold n1 in *; win).
      do 3 f_equal. unfold n1 in *. lia. }
  assert (n1 = m_zeroAreaStart b - m_start b) as En1 by (unfold n1 in *; lia). clearbody n1.
  set (n2 := Z.min _ (n - n1)). rewrite write_zeroes_ok by (unfold n2; win). rewrite (wrap_small 32 (n - n1 - n2)) by (unfold n2; win).
  rewrite (contents_zeros L h b n1 n2) by (done || (unfold n2; lia)).
  destruct (Z.ltb_spec 0 (n - n1 - n2)) as [H2|H2].
  - assert (n2 = m_zeroAreaEnd b - m_zeroAreaStart b) as En2 by (unfold n2 in *; lia). clearbody n2.
    set (n3 := Z.min _ (n - n1 - n2)).
    assert (peek (m_data b) (m_zeroAreaStart b) n3 h = Ok (slice (n1 + n2) n3 (contents h b), h)) as P3
      by (apply (peek_part L); [done..|lia|unfold n3; lia|right; right; unfold n3; win]).
    rewrite (run_bind _ _ _ _ _ P3). unfold mret, st_ret.
    rewrite (wrap_small 32 (n - n1 - n2 - n3)) by (unfold n3; win). rewrite wrap_small by (unfold n3; win).
    replace (Z.min n (size b)) with (n1 + (n2 + n3)) by (unfold n3; win). rewrite !slice_app by (unfold n3; lia).
    rewrite Z.add_0_l. do 2 f_equal. f_equal. unfold n3. lia.
  - rewrite (wrap_small 32) by (unfold n2 in *; win). unfold mret, st_ret.
    replace (Z.min n (size b)) with (n1 + n2) by (unfold n2 in *; win). rewrite slice_app by (unfold n2; lia).
    rewrite Z.add_0_l. do 2 f_equal. f_equal. unfold n2 in *. lia.
Qed.

(** ** Sessions *)

Inductive op :=
| New (zeroSize : Z)
| CopyOf (x : nat)
| Assign (x y : nat)
| Destroy (x : nat)
| AddHeader (x : nat) (l : list Z)
| AddTrailer (x : nat) (l : list Z)
| RemoveStart (x : nat) (n : Z)
| RemoveEnd (x : nat) (n : Z)
| Fragment (x : nat) (start len : Z)
| Append (x y : nat)
| Flatten (x : nat)
| ReadAt (x : nat) (v : Z) (n : nat)
| CopyOut (x : nat) (n : Z).

(** The buffers of the program by name, and the storages. *)
Record session := mkSession { s_heap : Heap; s_bufs : gmap nat Buffer; s_next : nat }.
Record strings := mkStrings { a_bufs : gmap nat (list Z); a_next : nat }.

Definition start_session (fresh : nat -> nat -> Z) : session := mkSession (initial_heap fresh) ∅ 0.
Definition start_strings : strings := mkStrings ∅ 0.

(** A step on the buffer [x]: an operation that gives its new fields, or that
    gives another buffer, or that reads. *)
Definition on_buffer (x : nat) (f : Buffer -> M Buffer) (s : session) : res (list Z * session) :=
  b ← deref (s_bufs s !! x);
  '(b', h) ← f b (s_heap s);
  mret ([], mkSession h (<[x := b']> (s_bufs s)) (s_next s)).
Definition new_buffer (m : M Buffer) (s : session) : res (list Z * session) :=
  '(b, h) ← m (s_heap s);
  mret ([], mkSession h (<[s_next s := b]> (s_bufs s)) (S (s_next s))).

Definition step (o : op) (s : session) : res (list Z * session) :=
  match o with
  | New zeroSize => new_buffer (Initialize zeroSize) s
  | CopyOf x => b ← deref (s_bufs s !! x); new_buffer (copy_constructor b) s
  | Assign x y => c ← deref (s_bufs s !! y); on_buffer x (assign c) s
  | Destroy x =>
      b ← deref (s_bufs s !! x);
      '(_, h) ← destructor b (s_heap s);
      mret ([], mkSession h (delete x (s_bufs s)) (s_next s))
  | AddHeader x l =>
      on_buffer x (fun b => b ← AddAtStart (Z.of_nat (length l)) b; _ ← write_each l (Begin b); mret b) s
  | AddTrailer x l =>
      on_buffer x (fun b => b ← AddAtEnd (Z.of_nat (length l)) b;
                            i ← lift (Prev (Z.of_nat (length l)) (End b)); _ ← write_each l i; mret b) s
  | RemoveStart x n => on_buffer x (fun b => lift (RemoveAtStart n b)) s
  | RemoveEnd x n => on_buffer x (fun b => mret (RemoveAtEnd n b)) s
  | Fragment x start len => b ← deref (s_bufs s !! x); new_buffer (CreateFragment start len b) s
  | Append x y => c ← deref (s_bufs s !! y); on_buffer x (AddAtEnd_buffer c) s
  | Flatten x => on_buffer x TransformIntoRealBuffer s
  | ReadAt x v n =>
      b ← deref (s_bufs s !! x);
      i ← Next v (Begin b);
      '(l, _, h) ← Read n i (s_heap s);
      mret (l, mkSession h (s_bufs s) (s_next s))
  | CopyOut x n =>
      b ← deref (s_bufs s !! x);
      '(l, _, h) ← CopyData n b (s_heap s);
      mret (l, mkSession h (s_bufs s) (s_next s))
  end.

Fixpoint run_session (ops : list op) (s : session) : res (list (list Z) * session) :=
  match ops with
  | [] => mret ([], s)
  | o :: ops => '(out, s) ← step o s; '(outs, s) ← run_session ops s; mret (out :: outs, s)
  end.

(** The same on separate lists. *)
Definition str (A : strings) (x : nat) : list Z := default [] (a_bufs A !! x).
Definition set_str (x : nat) (l : list Z) (A : strings) : strings := mkStrings (<[x := l]> (a_bufs A)) (a_next A).
Definition new_str (l : list Z) (A : strings) : strings := mkStrings (<[a_next A := l]> (a_bufs A)) (S (a_next A)).

Definition str_step (o : op) (A : strings) : list Z * strings :=
  match o with
  | New zeroSize => ([], new_str (replicate (Z.to_nat zeroSize) 0) A)
  | CopyOf x => ([], new_str (str A x) A)
  | Assign x y => ([], set_str x (str A y) A)
  | Destroy x => ([], mkStrings (delete x (a_bufs A)) (a_next A))
  | AddHeader x l => ([], set_str x (l ++ str A x) A)
  | AddTrailer x l => ([], set_str x (str A x ++ l) A)
  | RemoveStart x n => ([], set_str x (drop (Z.to_nat n) (str A x)) A)
  | RemoveEnd x n => ([], set_str x (take (length (str A x) - Z.to_nat n) (str A x)) A)
  | Fragment x start len => ([], new_str (take (Z.to_nat len) (drop (Z.to_nat start) (str A x))) A)
  | Append x y => ([], set_str x (str A x ++ str A y) A)
  | Flatten x => ([], A)
  | ReadAt x v n => (take n (drop (Z.to_nat v) (str A x)), A)
  | CopyOut x n => (take (Z.to_nat n) (str A x), A)
  end.

Fixpoint run_strings (ops : list op) (A : strings) : list (list Z) * strings :=
  match ops with
  | [] => ([], A)
  | o :: ops => let (out, A) := str_step o A in let (outs, A) := run_strings ops A in (out :: outs, A)
  end.

(** The requests within bounds: the named buffers exist, those of an assignment
    or a concatenation are different, no string reaches 2^31 octets, a fragment
    or a read is inside of its string, and there are fewer than 2^31 - 4
    buffers. *)
Definition len (A : strings) (x : nat) : Z := Z.of_nat (length (str A x)).
Definition has (A : strings) (x : nat) : bool := bool_decide (is_Some (a_bufs A !! x)).
Definition allowed (o : op) (A : strings) : bool :=
  (Z.of_nat (base.size (a_bufs A)) + 4 <? limit) &&
  match o with
  | New n => (0 <=? n) && (n <? limit)
  | CopyOf x | Destroy x | Flatten x => has A x
  | Assign x y => has A x && has A y && negb (Nat.eqb x y)
  | AddHeader x l | AddTrailer x l => has A x && (Z.of_nat (length l) + len A x <? limit)
  | RemoveStart x n => has A x && (0 <=? n) && (n <? limit)
  | RemoveEnd x n => has A x && (0 <=? n)
  | Fragment x start n => has A x && (0 <=? start) && (0 <=? n) && (start + n <=? len A x)
  | Append x y => has A x && has A y && negb (Nat.eqb x y) && (len A x + len A y <? limit)
  | ReadAt x v n => has A x && (0 <=? v) && (v + Z.of_nat n <=? len A x)
  | CopyOut x n => has A x && (0 <=? n) && (n <? 2 ^ 32)
  end.
(** A concatenation is one that the code gets right. *)
Definition safe (o : op) (s : session) : bool :=
  match o with
  | Append x y =>
      match s_bufs s !! x, s_bufs s !! y with
      | Some b, Some c => append_safe c b (s_heap s)
      | _, _ => true
      end
  | _ => true
  end.

(** Every request is within bounds when the strings come to it: nothing about
    how the buffers lie in memory. *)
Fixpoint within_bounds (ops : list op) (A : strings) : bool :=
  match ops with
  | [] => true
  | o :: ops => allowed o A && within_bounds ops (snd (str_step o A))
  end.

Definition vals (m : gmap nat Buffer) : list Buffer := (map_to_list m).*2.

Record related (s : session) (A : strings) : Prop := {
  l_heap : heap_ok (vals (s_bufs s)) (s_heap s);
  l_strings x : a_bufs A !! x = contents (s_heap s) <$> s_bufs s !! x;
  l_next : a_next A = s_next s;
  l_fresh x : (s_next s <= x)%nat -> s_bufs s !! x = None
}.

Lemma vals_take x b m : m !! x = Some b -> vals m ≡ₚ b :: vals (delete x m).
Proof. intros E. unfold vals. by rewrite <- (map_to_list_delete m x b E). Qed.
Lemma vals_insert x b m : vals (<[x := b]> m) ≡ₚ b :: vals (delete x m).
Proof.
  rewrite <- insert_delete_eq. unfold vals. rewrite map_to_list_insert; [done|]. apply lookup_delete_eq.
Qed.
Lemma vals_elem x b m : m !! x = Some b -> b ∈ vals m.
Proof. intros E. rewrite (vals_take _ _ _ E). by left. Qed.
Lemma vals_elem_ne x y b m : m !! y = Some b -> x <> y -> b ∈ vals (delete x m).
Proof. intros E Hne. apply (vals_elem y). by rewrite lookup_delete_ne. Qed.

Lemma related_buf s A x b : related s A -> s_bufs s !! x = Some b -> a_bufs A !! x = Some (contents (s_heap s) b).
Proof. intros [_ Hs _ _] E. by rewrite Hs, E. Qed.
Lemma related_size s A : related s A -> length (vals (s_bufs s)) = base.size (a_bufs A).
Proof.
  intros [_ Hs _ _]. assert (a_bufs A = contents (s_heap s) <$> s_bufs s) as ->.
  { apply map_eq. intros x. by rewrite Hs, lookup_fmap. }
  rewrite map_size_fmap. unfold vals. by rewrite length_fmap, length_map_to_list.
Qed.

(** The other strings, after a step that frames their buffers. *)
Lemma frame_strings (m : gmap nat Buffer) h h' : frame (vals m) h h' -> forall x, contents h' <$> m !! x = contents h <$> m !! x.
Proof. intros Hf x. destruct (m !! x) as [b|] eqn:E; [|done]. simpl. f_equal. apply Hf. by eapply vals_elem. Qed.

Lemma on_buffer_ok x f s A b c b' h' :
  related s A -> s_bufs s !! x = Some b ->
  f b (s_heap s) = Ok (b', h') -> heap_ok (b' :: vals (delete x (s_bufs s))) h' ->
  frame (vals (delete x (s_bufs s))) (s_heap s) h' -> contents h' b' = c ->
  exists s', on_buffer x f s = Ok ([], s') /\ related s' (set_str x c A).
Proof.
  intros [Hh Hs Hn Hfr] E Ef Hok Hf Hc. eexists. split.
  { unfold on_buffer. rewrite E. simpl. rewrite Ef. reflexivity. }
  split; simpl; [by rewrite vals_insert| |done|].
  - intros y. destruct (decide (x = y)) as [<-|Hne]; [rewrite !lookup_insert_eq; simpl; by rewrite Hc|].
    rewrite !lookup_insert_ne by done. rewrite Hs. pose proof (frame_strings _ _ _ Hf y) as Hy.
    by rewrite lookup_delete_ne in Hy by done.
  - intros y Hy. destruct (decide (x = y)) as [<-|Hne]; [by rewrite Hfr in E|]. rewrite lookup_insert_ne by done. by apply Hfr.
Qed.

Lemma new_buffer_ok m s A b h' c :
  related s A -> m (s_heap s) = Ok (b, h') -> heap_ok (b :: vals (s_bufs s)) h' ->
  frame (vals (s_bufs s)) (s_heap s) h' -> contents h' b = c ->
  exists s', new_buffer m s = Ok ([], s') /\ related s' (new_str c A).
Proof.
  intros [Hh Hs Hn Hfr] Em Hok Hf Hc. eexists. split.
  { unfold new_buffer. simpl. rewrite Em. reflexivity. }
  assert (s_bufs s !! s_next s = None) as Hnone by (by apply Hfr).
  split; simpl; [| |by rewrite Hn|].
  - rewrite vals_insert. by rewrite delete_id.
  - intros y. rewrite Hn. destruct (decide (s_next s = y)) as [<-|Hne]; [rewrite !lookup_insert_eq; simpl; by rewrite Hc|].
    rewrite !lookup_insert_ne by done. rewrite Hs. by rewrite (frame_strings _ _ _ Hf).
  - intros y Hy. rewrite lookup_insert_ne by lia. apply Hfr. lia.
Qed.

Lemma slice_take n bs : 0 <= n -> slice 0 (Z.min n (Z.of_nat (length bs))) bs = take (Z.to_nat n) bs.
Proof.
  intros Hn. unfold slice. rewrite drop_0. destruct (Z.min_spec n (Z.of_nat (length bs))) as [[? ->]|[? ->]]; [done|].
  rewrite Nat2Z.id, firstn_all. symmetry. apply take_ge. lia.
Qed.

Lemma has_buf s A x :
  related s A -> has A x = true ->
  exists b, s_bufs s !! x = Some b /\ heap_ok (b :: vals (delete x (s_bufs s))) (s_heap s) /\
    str A x = contents (s_heap s) b /\ len A x = size b /\ b ∈ vals (s_bufs s).
Proof.
  intros Hrel Hhas. unfold has in Hhas. apply bool_decide_eq_true in Hhas. rewrite (l_strings _ _ Hrel) in Hhas.
  destruct (s_bufs s !! x) as [b|] eqn:E; [|by destruct Hhas]. exists b. pose proof (l_heap _ _ Hrel) as Hok.
  pose proof (vals_elem _ _ _ E) as Hb. destruct (contents_live _ _ _ Hok Hb) as (_ & _ & _ & _ & _ & _ & Hl).
  assert (str A x = contents (s_heap s) b) as Es by (unfold str; by rewrite (related_buf _ _ _ _ Hrel E)).
  split; [done|]. split; [by rewrite <- (vals_take x)|]. split; [done|]. split; [unfold len; by rewrite Es|done].
Qed.

Lemma set_str_same A x : has A x = true -> set_str x (str A x) A = A.
Proof.
  intros Hhas. unfold has in Hhas. apply bool_decide_eq_true in Hhas as [l E]. unfold set_str, str. rewrite E. simpl.
  rewrite insert_id by done. by destruct A.
Qed.

(** The operations that need only their own buffer. *)
Lemma own_step_ok o s A :
  related s A -> room (vals (s_bufs s)) -> allowed o A = true ->
  match o with AddHeader _ _ | AddTrailer _ _ | RemoveStart _ _ | RemoveEnd _ _ | Flatten _ | Destroy _ => True | _ => False end ->
  exists s', step o s = Ok ((str_step o A).1, s') /\ related s' (str_step o A).2.
Proof.
  intros Hrel Hroom Hall Ho. unfold allowed in Hall. apply andb_true_iff in Hall as [_ Hall].
  destruct o as [| | |x|x l|x l|x n|x n| | |x| |]; try done; clear Ho;
    rewrite ?andb_true_iff, ?Z.leb_le, ?Z.ltb_lt in Hall;
    assert (has A x = true) as Hhas by (clear -Hall; tauto);
    destruct (has_buf s A x Hrel Hhas) as (b & E & Hok & Es & Hlen & Hb); set (L := vals (delete x (s_bufs s))) in *;
    assert (room (b :: L)) as Hr by (unfold room in *; by rewrite (vals_take _ _ _ E) in Hroom);
    assert (few L) as Hfew by (unfold room, few, limit in *; simpl in *; lia);
    destruct (contents_live _ _ _ (l_heap _ _ Hrel) Hb) as (d & Ed & Hw & Hsz & _ & _ & Hlc); pose proof Hw as [];
    cbn [step str_step fst snd].
  - rewrite E. destruct (destructor_ok b L _ Hok) as (h' & Ed' & Hok' & Hf'). simpl. rewrite Ed'. eexists. split; [reflexivity|].
    destruct Hrel as [_ Hs Hn Hfr]. split; simpl; [done| |done|].
    + intros y. destruct (decide (x = y)) as [<-|Hne]; [by rewrite !lookup_delete_eq|].
      rewrite lookup_delete_ne, Hs by done. pose proof (frame_strings _ _ _ Hf' y) as Hy. by rewrite !lookup_delete_ne in * by done.
    + intros y Hy. rewrite lookup_delete_None. right. by apply Hfr.
  - destruct (prepend_ok (Z.of_nat (length l)) b L _ (write_each l) l Hok (write_each_writes l))
      as (b' & h1 & h2 & E1 & E2 & _ & _ & Hok2 & Hf2 & Hc2 & _); [done|lia|done|].
    eapply on_buffer_ok; [done|exact E| |exact Hok2|done|by rewrite Es]. cbv beta.
    rewrite (run_bind _ _ _ _ _ E1). by rewrite (run_bind _ _ _ _ _ E2).
  - destruct (append_ok (Z.of_nat (length l)) b L _ (write_each l) l Hok (write_each_writes l))
      as (b' & h1 & h2 & i & E1 & Ei & E2 & _ & _ & Hok2 & Hf2 & Hc2 & _); [done|lia|done|].
    eapply on_buffer_ok; [done|exact E| |exact Hok2|done|by rewrite Es]. cbv beta.
    rewrite (run_bind _ _ _ _ _ E1), Ei, run_lifted. by rewrite (run_bind _ _ _ _ _ E2).
  - destruct (RemoveAtStart_ok n b L _ Hok) as (b' & E1 & Ep & Hok' & Hs' & Hc'); [lia|].
    eapply on_buffer_ok; [done|exact E| |exact Hok'|done|]; [cbv beta; by rewrite E1|].
    rewrite Hc', Es. clear -Hlc Hall. unfold slice. set (c := contents _ _) in *.
    rewrite take_ge by (rewrite length_drop; lia). destruct (Z.min_spec n (size b)) as [[? ->]|[? ->]]; [done|].
    rewrite !drop_ge by lia. done.
  - destruct (RemoveAtEnd_ok n b L _ Hok) as (Ep & Hok' & Hs' & Hc'); [lia|].
    eapply on_buffer_ok; [done|exact E|reflexivity|exact Hok'|done|].
    rewrite Hc', Es. unfold slice. rewrite drop_0. f_equal. lia.
  - destruct (own_copy_ok b L _ Hok Hr) as (b' & h' & E1 & Hok' & Hf' & Hc' & _).
    rewrite <- (set_str_same A x) by done. eapply on_buffer_ok; [done|exact E|exact E1|exact Hok'|done|by rewrite Es].
Qed.

(** The operations that make a buffer, or involve two. *)
Lemma shared_step_ok o s A :
  related s A -> room (vals (s_bufs s)) -> allowed o A = true -> safe o s = true ->
  match o with New _ | CopyOf _ | Assign _ _ | Fragment _ _ _ | Append _ _ => True | _ => False end ->
  exists s', step o s = Ok ((str_step o A).1, s') /\ related s' (str_step o A).2.
Proof.
  intros Hrel Hroom Hall Hsafe Ho. unfold allowed in Hall. apply andb_true_iff in Hall as [_ Hall].
  pose proof (l_heap _ _ Hrel) as Hok0. pose proof (room_few _ Hroom) as Hfew0.
  destruct o as [n|x|x y| | | | | |x v n|x y| | |]; try done; clear Ho; cbn [step str_step fst snd].
  - apply andb_true_iff in Hall as [H1%Z.leb_le H2%Z.ltb_lt].
    destruct (Initialize_ok n _ _ Hok0 Hfew0 (conj H1 H2)) as (b & h' & E & Hok' & Hf' & Hc' & _).
    by eapply new_buffer_ok.
  - destruct (has_buf s A x Hrel Hall) as (b & E & Hok & Es & Hlen & Hb). rewrite E.
    destruct (copy_constructor_ok b _ _ Hok0 Hb Hfew0) as (c & h' & Ec & Hok' & Hf' & Hc' & _).
    eapply new_buffer_ok; [done|exact Ec|done|done|congruence].
  - rewrite !andb_true_iff, negb_true_iff, Nat.eqb_neq in Hall. destruct Hall as [[Hx Hy] Hne].
    destruct (has_buf s A x Hrel Hx) as (b & E & Hok & Es & _ & Hb), (has_buf s A y Hrel Hy) as (c & Ec & _ & Esc & _ & _). rewrite Ec.
    destruct (assign_ok c b _ _ Hok (vals_elem_ne _ _ _ _ Ec Hne)) as (b' & h' & Ea & Hok' & Hf' & Hc' & _).
    { unfold few in *. rewrite (vals_take _ _ _ E) in Hfew0. simpl in Hfew0. lia. }
    eapply on_buffer_ok; [done|exact E|exact Ea|done|done|congruence].
  - rewrite !andb_true_iff, !Z.leb_le in Hall. destruct Hall as [[[Hx Hv] Hn] Hle].
    destruct (has_buf s A x Hrel Hx) as (b & E & Hok & Es & Hlen & Hb). rewrite E.
    destruct (buffer_CreateFragment_ok v n b _ _ Hok0 Hb Hfew0) as (f & h' & Ef & Hok' & Hf' & Hc'); [lia..|].
    eapply new_buffer_ok; [done|exact Ef|done|done|by rewrite Hc', Es].
  - rewrite !andb_true_iff, negb_true_iff, Nat.eqb_neq, Z.ltb_lt in Hall. destruct Hall as [[[Hx Hy] Hne] Hlt].
    destruct (has_buf s A x Hrel Hx) as (b & E & Hok & Es & Hlb & Hb), (has_buf s A y Hrel Hy) as (c & Ec & _ & Esc & Hlc & _).
    simpl in Hsafe. rewrite E, Ec in Hsafe. rewrite Ec.
    destruct (AddAtEnd_buffer_ok c b _ _ Hok (vals_elem_ne _ _ _ _ Ec Hne)) as (b' & h' & Ea & Hok' & Hf' & Hc');
      [unfold room in *; by rewrite <- (vals_take _ _ _ E)|lia|done|].
    eapply on_buffer_ok; [done|exact E|exact Ea|done|done|congruence].
Qed.

Lemma read_step_ok o s A :
  related s A -> allowed o A = true -> match o with ReadAt _ _ _ | CopyOut _ _ => True | _ => False end ->
  exists s', step o s = Ok ((str_step o A).1, s') /\ related s' (str_step o A).2.
Proof.
  intros Hrel Hall Ho. unfold allowed in Hall. apply andb_true_iff in Hall as [_ Hall].
  pose proof (l_heap _ _ Hrel) as Hok0. exists s. assert (mkSession (s_heap s) (s_bufs s) (s_next s) = s) as Hid by (by destruct s).
  destruct o as [| | | | | | | | | | |x v n|x n]; try done; clear Ho; cbn [step str_step fst snd];
    rewrite !andb_true_iff, ?Z.leb_le, ?Z.ltb_lt in Hall; destruct Hall as [[Hx Hv] Hle];
    destruct (has_buf s A x Hrel Hx) as (b & E & Hok & Es & Hlen & Hb); rewrite E; simpl (deref _); cbn [mbind res_bind];
    destruct (contents_live _ _ _ Hok0 Hb) as (d & Ed & Hw & Hsz & _ & _ & Hlc).
  - rewrite Begin_pos, (Next_pos _ d) by (done || lia). cbn [mbind res_bind]. rewrite Z.add_0_l.
    rewrite (Read_ok n _ _ b v Hok0 Hb) by lia. cbn [mbind res_bind mret res_ret]. rewrite Hid, Es. split; [|done].
    unfold slice. by rewrite Nat2Z.id.
  - rewrite (CopyData_ok n b _ _ Hok0 Hb) by (unfold in_range; lia). cbn [mbind res_bind mret res_ret]. rewrite Hid, Es, <- Hlc.
    split; [|done]. by rewrite slice_take.
Qed.

Lemma session_step_ok o s A :
  related s A -> allowed o A = true -> safe o s = true ->
  exists s', step o s = Ok ((str_step o A).1, s') /\ related s' (str_step o A).2.
Proof.
  intros Hrel Hall Hsafe. assert (room (vals (s_bufs s))) as Hroom.
  { unfold allowed in Hall. apply andb_true_iff in Hall as [Hall _]. unfold room. rewrite (related_size _ _ Hrel). lia. }
  destruct o; first [by apply own_step_ok|by apply shared_step_ok|by apply read_step_ok].
Qed.

Lemma start_related fresh : related (start_session fresh) start_strings.
Proof.
  split; simpl; [|done|done|done]. split; [|by intros b ?%elem_of_nil|by intros b1 b2 d ?%elem_of_nil].
  split; simpl; try done.
  - by intros p ?%elem_of_nil.
  - intros p. rewrite lookup_empty. by intros [? [=]].
  - constructor.
  - intros p. rewrite lookup_empty, elem_of_nil. split; [done|]. by intros [[? [=]] _].
Qed.

(** A session within bounds goes on as the strings, up to the first
    concatenation that is not [safe]. *)
Lemma run_related ops s A :
  related s A -> within_bounds ops A = true ->
  (exists s', run_session ops s = Ok ((run_strings ops A).1, s') /\ related s' (run_strings ops A).2) \/
  exists pre x y post s', ops = pre ++ Append x y :: post /\
    run_session pre s = Ok ((run_strings pre A).1, s') /\ related s' (run_strings pre A).2 /\
    allowed (Append x y) (run_strings pre A).2 = true /\ safe (Append x y) s' = false.
Proof.
  revert s A. induction ops as [|o ops IH]; intros s A Hrel Hadm; [left; by exists s|].
  simpl in Hadm. apply andb_true_iff in Hadm as [Hall Hadm]. destruct (safe o s) eqn:Hsafe.
  2:{ right. destruct o as [| | | | | | | | |x y| | |]; try done. by exists [], x, y, ops, s. }
  destruct (session_step_ok o s A Hrel Hall Hsafe) as (s1 & E1 & Hrel1).
  assert (forall l s' A', run_session l s1 = Ok ((run_strings l A').1, s') -> A' = (str_step o A).2 ->
    run_session (o :: l) s = Ok ((run_strings (o :: l) A).1, s') /\
    (run_strings (o :: l) A).2 = (run_strings l A').2) as Hcons.
  { intros l s' A' E ->. simpl. rewrite E1. cbn [mbind res_bind]. destruct (str_step o A) as [out A1]. simpl in *.
    rewrite E. cbn [mbind res_bind mret res_ret]. by destruct (run_strings l A1). }
  destruct (IH s1 _ Hrel1 Hadm) as [(s2 & E2 & Hrel2)|(pre & x & y & post & s2 & -> & E2 & Hrel2 & Hall2 & Hs2)];
    destruct (Hcons _ _ _ E2 eq_refl) as [E3 Er].
  - left. exists s2. by rewrite Er.
  - right. exists (o :: pre), x, y, post, s2. by rewrite Er.
Qed.

(** ** The concatenations that go wrong *)

Lemma AddAtEnd_buffer_asserts o b L h d :
  heap_ok (b :: L) h -> o ∈ L -> room (b :: L) -> size b + size o < limit -> h_data h !! m_data b = Some d ->
  merges_zeros o b d = false -> m_data b = m_data o -> zeros b = 0 -> in_place (size o) b d = true ->
  AddAtEnd_buffer o b h = Err AssertFailed.
Proof.
  intros Hok Ho Hroom Hlim E Hm Heq Hz Hin.
  destruct (contents_live (b :: L) h o) as (dO & Eo & Hwo & _); [done|by right|]. pose proof Hwo as [].
  destruct (live_window _ _ _ Hok) as (db & _ & [] & _). destruct (own_copy_ok b L h Hok Hroom) as (b1 & h1 & E1 & Hok1 & Hf1 & Hc1 & Hz1 & Hs1 & Hp1).
  destruct (own_copy_storage b L h d Hok Hroom E Hz) as (b3 & h3 & E3 & Ed1). rewrite E1 in E3. injection E3 as <- <-.
  rewrite Hz in Hp1. destruct Hp1 as (Ep & Ezs & Eze & Es & Ee). rewrite <- Ep in Ed1.
  destruct (AddAtEnd_ok (size o) b1 L h1 d Hok1 Ed1) as (b' & h2 & EA & (Hok2 & _ & _ & _ & Ez & Esz & _) & Hp);
    [win|lia|apply room_few; unfold room in *; simpl in *; lia|].
  assert (in_place (size o) b1 d = true) as Hin1
    by (rewrite <- Hin; unfold in_place, GetInternalEnd; by rewrite Ezs, Eze, Ee).
  rewrite Hin1 in Hp. destruct (live_window _ _ _ Hok2) as (d2 & Ed2 & Hw2 & [_ _ Hsz2]). pose proof Hw2 as [].
  unfold AddAtEnd_buffer. rewrite (run_load _ _ _ _ E). fold (merges_zeros o b d). rewrite Hm.
  etransitivity; [apply (run_own_copy _ _ _ _ _ E1)|]. cbv beta. rewrite (GetSize_eq _ _ Hwo), Begin_pos, End_pos.
  rewrite (run_bind _ _ _ _ _ EA), (Prev_pos _ d2) by (done || lia || win). rewrite run_lifted.
  assert (negb (Nat.eqb (m_data b') (m_data o)) = false) as Hsame by (by rewrite Hp, Ep, Heq, Nat.eqb_refl).
  assert (forall v, Write_range (pos o 0) (pos o (size o)) (pos b' v) h2 = Err AssertFailed) as EW.
  { intros v. unfold Write_range. rewrite run_assert by (simpl; apply Nat.eqb_refl).
    rewrite run_assert by (apply Z.leb_le; simpl; win). do 2 rewrite run_assert by (simpl; apply Z.eqb_refl).
    simpl. by rewrite Hsame. }
  unfold mbind at 1, st_bind at 1. by rewrite EW.
Qed.

(** What is wrong with a concatenation: octets that follow zeros are merged
    onto the zeros at the end of the receiver, or the argument lies in the
    storage that the receiver has room in. *)
Inductive misplaced (o b : Buffer) (d : Data) : Prop :=
| OctetsAfterZeros : merges_zeros o b d = true -> m_zeroAreaEnd o < m_end o -> misplaced o b d
| SameStorage : merges_zeros o b d = false -> m_data b = m_data o -> zeros b = 0 -> in_place (size o) b d = true ->
    misplaced o b d.

Lemma unsafe_append x y s A :
  related s A -> allowed (Append x y) A = true -> safe (Append x y) s = false ->
  exists b c d, s_bufs s !! x = Some b /\ s_bufs s !! y = Some c /\ h_data (s_heap s) !! m_data b = Some d /\
    misplaced c b d /\ (m_data b = m_data c -> step (Append x y) s = Err AssertFailed).
Proof.
  intros Hrel Hall Hsafe. unfold allowed in Hall. apply andb_true_iff in Hall as [Hroom%Z.ltb_lt Hall].
  rewrite !andb_true_iff, negb_true_iff, Nat.eqb_neq, Z.ltb_lt in Hall. destruct Hall as [[[Hx Hy] Hne] Hlt].
  destruct (has_buf s A x Hrel Hx) as (b & E & Hok & _ & Hlb & Hb), (has_buf s A y Hrel Hy) as (c & Ec & _ & _ & Hlc & Hc).
  destruct (contents_live _ _ _ (l_heap _ _ Hrel) Hc) as (dc & _ & [] & _).
  destruct (live_window _ _ _ Hok) as (d & Ed & _). exists b, c, d. do 3 (split; [done|]).
  simpl in Hsafe. rewrite E, Ec in Hsafe. unfold append_safe in Hsafe. rewrite Ed in Hsafe.
  destruct (merges_zeros c b d) eqn:Em.
  - split; [apply OctetsAfterZeros; [done|lia]|]. intros Heq. unfold merges_zeros in Em. rewrite !andb_true_iff in Em.
    destruct Em as ((((Hcount%Z.eqb_eq & _) & _) & _) & _).
    edestruct (sole_owner _ _ _ _ Hok Ed Hcount c); [by eapply vals_elem_ne|done].
  - rewrite !orb_false_iff, !negb_false_iff, Nat.eqb_eq, Z.eqb_eq in Hsafe. destruct Hsafe as ((Heq & Hz) & Hin).
    split; [by apply SameStorage|]. intros _. simpl. rewrite Ec. unfold on_buffer. simpl (deref _). cbn [mbind res_bind].
    rewrite E. simpl (deref _). cbn [mbind res_bind].
    rewrite (AddAtEnd_buffer_asserts c b _ _ d Hok (vals_elem_ne _ _ _ _ Ec Hne)); [done|..|done|done|done|done|done].
    + unfold room. replace (length _) with (length (vals (s_bufs s))) by (by rewrite (vals_take _ _ _ E)).
      by rewrite (related_size _ _ Hrel).
    + lia.
Qed.

(** ** Serialization *)

Lemma pad4_eq n : 0 <= n < limit -> pad4 n = 4 * ((n + 3) / 4) /\ n <= pad4 n <= n + 3.
Proof.
  intros Hn. unfold pad4. rewrite (wrap_small 32 (n + 3)) by win. change (u32 (Z.lnot 3)) with (Z.ldiff (Z.ones 32) (Z.ones 2)).
  assert (Z.land (n + 3) (Z.ldiff (Z.ones 32) (Z.ones 2)) = Z.ldiff (n + 3) (Z.ones 2)) as ->.
  { rewrite <- (Z.mod_small (n + 3) (2 ^ 32)) at 2 by win. rewrite <- Z.land_ones by lia.
    apply Z.bits_inj'. intros i Hi. rewrite !Z.land_spec, !Z.ldiff_spec, Z.land_spec. by destruct (Z.testbit (n + 3) i), (Z.testbit (Z.ones 32) i). }
  rewrite Z.ldiff_ones_r, Z.shiftl_mul_pow2, Z.shiftr_div_pow2 by lia. change (2 ^ 2) with 4.
  split; [lia|]. pose proof (Z.div_mod (n + 3) 4). pose proof (Z.mod_pos_bound (n + 3) 4). lia.
Qed.

Lemma put_ok off src buffer :
  0 <= off -> off + Z.of_nat (length src) <= Z.of_nat (length buffer) -> put off src buffer = Ok (splice off src buffer).
Proof.
  intros H1 H2. unfold put, within.
  by rewrite (proj2 (Z.leb_le 0 off)), (proj2 (Z.leb_le 0 (Z.of_nat _))), (proj2 (Z.leb_le (off + _) _)), orb_true_r by lia.
Qed.
Lemma get_ok off n buffer :
  0 <= off -> 0 <= n -> off + n <= Z.of_nat (length buffer) -> get off n buffer = Ok (slice off n buffer).
Proof.
  intros H1 H2 H3. unfold get, within.
  by rewrite (proj2 (Z.leb_le 0 off)), (proj2 (Z.leb_le 0 n)), (proj2 (Z.leb_le (off + _) _)), orb_true_r by lia.
Qed.

(** The memory that [Serialize] writes: lengths and parts at their places. *)
Record image (b : Buffer) (c mem : list Z) : Prop := {
  im_zeros : slice 0 4 mem = Bytes.WriteU32 (zeros b);
  im_start : slice 4 4 mem = Bytes.WriteU32 (m_zeroAreaStart b - m_start b);
  im_before : slice 8 (m_zeroAreaStart b - m_start b) mem = slice 0 (m_zeroAreaStart b - m_start b) c;
  im_end : slice (8 + pad4 (m_zeroAreaStart b - m_start b)) 4 mem = Bytes.WriteU32 (m_end b - m_zeroAreaEnd b);
  im_after : slice (12 + pad4 (m_zeroAreaStart b - m_start b)) (m_end b - m_zeroAreaEnd b) mem =
    slice (m_zeroAreaEnd b - m_start b) (m_end b - m_zeroAreaEnd b) c
}.

Lemma GetSerializedSize_eq b d :
  window b d -> m_size d < limit ->
  GetSerializedSize b = 12 + pad4 (m_zeroAreaStart b - m_start b) + pad4 (m_end b - m_zeroAreaEnd b).
Proof.
  intros Hw Hsz. pose proof Hw as [].
  destruct (pad4_eq (m_zeroAreaStart b - m_start b)) as [_ H1]; [win|].
  destruct (pad4_eq (m_end b - m_zeroAreaEnd b)) as [_ H2]; [win|].
  unfold GetSerializedSize. rewrite wrap_small by win. lia.
Qed.

Lemma buffer_Serialize_ok b L h mem maxSize :
  heap_ok L h -> b ∈ L -> GetSerializedSize b <= maxSize < 2 ^ 32 -> maxSize <= Z.of_nat (length mem) ->
  exists mem', Serialize mem maxSize b h = Ok (1, mem', h) /\ image b (contents h b) mem' /\ length mem' = length mem.
Proof.
  intros Hok Hb Hmax Hmem. destruct (contents_live _ _ _ Hok Hb) as (d & E & Hw & Hsz & _ & _ & Hlc). pose proof Hw as [].
  rewrite (GetSerializedSize_eq _ _ Hw Hsz) in Hmax. set (ns := m_zeroAreaStart b - m_start b) in *.
  set (ne := m_end b - m_zeroAreaEnd b) in *.
  destruct (pad4_eq ns) as [Eps Hps]; [unfold ns; win|]. destruct (pad4_eq ne) as [Epe Hpe]; [unfold ne; win|].
  assert (4 * (pad4 ns / 4) = pad4 ns) as Ediv by (rewrite Eps, (Z.mul_comm 4 ((ns + 3) / 4)), Z.div_mul by lia; lia).
  set (before := slice 0 ns (contents h b)). set (after := slice (m_zeroAreaEnd b - m_start b) ne (contents h b)).
  assert (Z.of_nat (length before) = ns) as Hlb by (apply length_slice; unfold ns; win).
  assert (Z.of_nat (length after) = ne) as Hla by (apply length_slice; unfold ne; win).
  assert (forall x, Z.of_nat (length (Bytes.WriteU32 x)) = 4) as H4 by done.
  set (m1 := splice 0 (Bytes.WriteU32 (zeros b)) mem). assert (length m1 = length mem) as L1 by (apply length_splice; rewrite ?H4; win).
  set (m2 := splice 4 (Bytes.WriteU32 ns) m1). assert (length m2 = length mem) as L2 by (rewrite <- L1; apply length_splice; rewrite ?H4; win).
  set (m3 := splice 8 before m2). assert (length m3 = length mem) as L3 by (rewrite <- L2; apply length_splice; rewrite ?Hlb; win).
  set (m4 := splice (8 + pad4 ns) (Bytes.WriteU32 ne) m3). assert (length m4 = length mem) as L4 by (rewrite <- L3; apply length_splice; rewrite ?H4; win).
  set (m5 := splice (12 + pad4 ns) after m4). assert (length m5 = length mem) as L5 by (rewrite <- L4; apply length_splice; rewrite ?Hla; win).
  exists m5. split; [|split; [|done]].
  - unfold Serialize. cbv zeta. fold ns ne (zeros b). rewrite (wrap_small 32 (zeros b)), (wrap_small 32 ns), (wrap_small 32 ne) by (unfold ns, ne; win).
    rewrite (wrap_small 32 (0 + 4)), (wrap_small 32 (0 + 4 + 4)), (wrap_small 32 (0 + 4 + 4 + pad4 ns)),
      (wrap_small 32 (0 + 4 + 4 + pad4 ns + 4)), (wrap_small 32 (0 + 4 + 4 + pad4 ns + 4 + pad4 ne)) by (unfold ns, ne in *; win).
    rewrite (proj2 (Z.leb_le (0 + 4) _)), (proj2 (Z.leb_le (0 + 4 + 4) _)), (proj2 (Z.leb_le (0 + 4 + 4 + pad4 ns) _)),
      (proj2 (Z.leb_le (0 + 4 + 4 + pad4 ns + 4) _)), (proj2 (Z.leb_le (0 + 4 + 4 + pad4 ns + 4 + pad4 ne) _)) by lia. cbn [negb].
    rewrite (put_ok 0) by (rewrite ?H4; lia). rewrite run_lifted. fold m1.
    rewrite (put_ok 4) by (rewrite ?H4, ?L1; lia). rewrite run_lifted. fold m2.
    rewrite (run_bind _ _ _ _ _ (peek_before L h b Hok Hb)). fold ns before.
    rewrite (put_ok (4 + 4)) by (rewrite ?Hlb, ?L2; lia). rewrite run_lifted. fold m3.
    rewrite Ediv. change (4 + 4) with 8 in *. fold m3.
    rewrite (put_ok (8 + pad4 ns)) by (rewrite ?H4, ?L3; lia). rewrite run_lifted. fold m4.
    rewrite (run_bind _ _ _ _ _ (peek_after L h b Hok Hb)). fold ne after.
    replace (8 + pad4 ns + 4) with (12 + pad4 ns) by lia.
    rewrite (put_ok (12 + pad4 ns)) by (rewrite ?Hla, ?L4; lia). rewrite run_lifted. done.
  - assert (forall off n, 0 <= off -> off + n <= 12 + pad4 ns -> slice off n m5 = slice off n m4) as F5
      by (intros; apply slice_splice_apart; rewrite ?Hla, ?L4; lia).
    assert (forall off n, 0 <= off -> off + n <= 8 + pad4 ns -> slice off n m4 = slice off n m3) as F4
      by (intros; apply slice_splice_apart; rewrite ?H4, ?L3; lia).
    assert (forall off n, 0 <= off -> off + n <= 8 -> slice off n m3 = slice off n m2) as F3
      by (intros; apply slice_splice_apart; rewrite ?Hlb, ?L2; lia).
    assert (0 <= ns /\ 0 <= ne) as [? ?] by (unfold ns, ne; lia).
    split; fold ns ne.
    + rewrite F5, F4, F3 by lia. unfold m2. rewrite slice_splice_apart by (rewrite ?H4, ?L1; lia). unfold m1.
      rewrite slice_splice_in by (rewrite ?H4; lia). by apply slice_all.
    + rewrite F5, F4, F3 by lia. unfold m2. rewrite slice_splice_in by (rewrite ?H4, ?L1; lia). by apply slice_all.
    + rewrite F5, F4 by lia. unfold m3. rewrite slice_splice_in by (rewrite ?Hlb, ?L2; lia). rewrite Z.sub_diag. by apply slice_all.
    + rewrite F5 by lia. unfold m4. rewrite slice_splice_in by (rewrite ?H4, ?L3; lia). rewrite Z.sub_diag. by apply slice_all.
    + unfold m5. rewrite slice_splice_in by (rewrite ?Hla, ?L4; lia). rewrite Z.sub_diag. by apply slice_all.
Qed.

Lemma get_u32_ok off mem x :
  0 <= off -> off + 4 <= Z.of_nat (length mem) -> in_range 32 x -> slice off 4 mem = Bytes.WriteU32 x -> get_u32 off mem = Ok x.
Proof.
  intros H1 H2 Hx E. unfold get_u32. rewrite get_ok by lia. cbn [mbind res_bind]. rewrite E.
  rewrite <- (app_nil_r (Bytes.WriteU32 x)), Bytes.ReadU32_write by done. done.
Qed.

Lemma buffer_Deserialize_ok L h b c mem :
  heap_ok L h -> room L -> image b c mem -> Z.of_nat (length c) = size b -> size b < limit ->
  m_start b <= m_zeroAreaStart b -> m_zeroAreaStart b <= m_zeroAreaEnd b -> m_zeroAreaEnd b <= m_end b ->
  12 + pad4 (m_zeroAreaStart b - m_start b) + pad4 (m_end b - m_zeroAreaEnd b) <= Z.of_nat (length mem) ->
  exists b' h', Deserialize mem (12 + pad4 (m_zeroAreaStart b - m_start b) + pad4 (m_end b - m_zeroAreaEnd b) + 4) h = Ok (1, b', h') /\
    heap_ok (b' :: L) h' /\ frame L h h' /\
    contents h' b' = slice 0 (m_zeroAreaStart b - m_start b) c ++ replicate (Z.to_nat (zeros b)) 0 ++
      slice (m_zeroAreaEnd b - m_start b) (m_end b - m_zeroAreaEnd b) c.
Proof.
  intros Hok Hroom [I1 I2 I3 I4 I5] Hlc Hlim ? ? ? Hmem. pose proof (room_few _ Hroom) as Hfew.
  set (ns := m_zeroAreaStart b - m_start b) in *. set (ne := m_end b - m_zeroAreaEnd b) in *.
  destruct (pad4_eq ns) as [Eps Hps]; [unfold ns; win|]. destruct (pad4_eq ne) as [Epe Hpe]; [unfold ne; win|].
  assert (4 * (pad4 ns / 4) = pad4 ns) as Ediv by (rewrite Eps, (Z.mul_comm 4 ((ns + 3) / 4)), Z.div_mul by lia; lia).
  set (before := slice 0 ns c) in *. set (after := slice (m_zeroAreaEnd b - m_start b) ne c) in *.
  assert (Z.of_nat (length before) = ns) as Hlb by (apply length_slice; unfold ns; win).
  assert (Z.of_nat (length after) = ne) as Hla by (apply length_slice; unfold ne; win).
  assert (0 <= ns /\ 0 <= ne /\ 0 <= zeros b) as (? & ? & ?) by (unfold ns, ne, zeros; lia).
  assert (ns + zeros b + ne = size b) as Esum by (unfold ns, ne, zeros, size; lia).
  unfold Deserialize. cbv zeta.
  assert (u32 (12 + pad4 ns + pad4 ne + 4 - 4) = 12 + pad4 ns + pad4 ne) as -> by (rewrite wrap_small by win; lia).
  rewrite run_assert by (apply Z.leb_le; lia).
  rewrite (get_u32_ok 0 mem (zeros b)) by (done || lia || win). rewrite run_lifted.
  destruct (Initialize_ok (zeros b) L h Hok Hfew) as (b0 & h0 & E0 & Hok0 & Hf0 & Hc0 & Hs0 & Hz0 & _); [win|].
  rewrite (run_bind _ _ _ _ _ E0).
  assert (u32 (12 + pad4 ns + pad4 ne - 4) = 8 + pad4 ns + pad4 ne) as -> by (rewrite wrap_small by win; lia).
  rewrite run_assert by (apply Z.leb_le; lia).
  rewrite (get_u32_ok 4 mem ns) by (done || lia || win). rewrite run_lifted.
  assert (u32 (8 + pad4 ns + pad4 ne - 4) = 4 + pad4 ns + pad4 ne) as -> by (rewrite wrap_small by win; lia).
  destruct (prepend_ok ns b0 L h0 (Write before) before Hok0 (Write_writes before)) as
    (b1 & h1 & h1' & E1 & W1 & _ & _ & Hok1 & Hf1 & Hc1 & Hz1 & Hs1 & _ & _); [done|win|done|].
  rewrite (run_bind _ _ _ _ _ E1). rewrite run_assert by (apply Z.leb_le; lia).
  change (4 + 4) with 8. rewrite (get_ok 8 ns) by lia. rewrite run_lifted, I3, (run_bind _ _ _ _ _ W1), Ediv.
  assert (u32 (4 + pad4 ns + pad4 ne - pad4 ns) = 4 + pad4 ne) as -> by (rewrite wrap_small by win; lia).
  rewrite run_assert by (apply Z.leb_le; lia).
  rewrite (get_u32_ok (8 + pad4 ns) mem ne) by (done || lia || win). rewrite run_lifted.
  assert (u32 (4 + pad4 ne - 4) = pad4 ne) as -> by (rewrite wrap_small by win; lia).
  destruct (append_ok ne b1 L h1' (Write after) after Hok1 (Write_writes after)) as
    (b2 & h2 & h2' & i & E2 & Ei & W2 & _ & _ & Hok2 & Hf2 & Hc2 & _); [done|win|done|].
  rewrite (run_bind _ _ _ _ _ E2). rewrite run_assert by (apply Z.leb_le; lia). rewrite Ei, run_lifted.
  replace (8 + pad4 ns + 4) with (12 + pad4 ns) by lia.
  rewrite (get_ok _ ne) by lia. rewrite run_lifted, I5, (run_bind _ _ _ _ _ W2).
  rewrite Z.sub_diag. exists b2, h2'. split; [done|]. split; [done|].
  split; [by do 2 (etransitivity; [eassumption|])|]. rewrite Hc2, Hc1, Hc0. by rewrite <- app_assoc.
Qed.

(** ** Properties *)

(** The session did what it does on separate lists: every read returned the
    same octets, the contents of every buffer are its list, and each storage is
    counted exactly and either used by a live buffer or in the free list. *)
Definition ran_as_strings (fresh : nat -> nat -> Z) (ops : list op) (s : session) : Prop :=
  run_session ops (start_session fresh) = Ok ((run_strings ops start_strings).1, s) /\
  contents (s_heap s) <$> s_bufs s = a_bufs (run_strings ops start_strings).2 /\
  refs_ok (refs_of (vals (s_bufs s))) (s_heap s).

Lemma related_ran fresh ops s :
  run_session ops (start_session fresh) = Ok ((run_strings ops start_strings).1, s) ->
  related s (run_strings ops start_strings).2 -> ran_as_strings fresh ops s.
Proof.
  intros E Hrel. split; [done|]. split; [|by destruct Hrel as [[] _ _ _]].
  apply map_eq. intros x. by rewrite (l_strings _ _ Hrel), lookup_fmap.
Qed.

(** C17. Buffers that share storages, under copies, assignments, headers,
    trailers, removals, fragments, concatenations and reads, behave as
    separate strings of octets, except for two kinds of concatenation: a
    session whose requests are within the bounds of the strings ([allowed],
    which does not look at how the buffers lie in memory) either fails
    nothing, leaves no storage and does what it would on separate lists, or
    does so up to a concatenation where the argument has octets after zeros
    that [AddAtEnd] merges onto the zeros at the end of the receiver (it then
    writes them at an offset that counts the zeros), or where the argument
    lies in the storage that the receiver has room in, which fails the
    assertion of [Write] that the storages differ. *)
Theorem buffers_are_strings fresh ops :
  within_bounds ops start_strings = true ->
  (exists s, ran_as_strings fresh ops s) \/
  exists pre x y post s b c d, ops = pre ++ Append x y :: post /\ ran_as_strings fresh pre s /\
    s_bufs s !! x = Some b /\ s_bufs s !! y = Some c /\ h_data (s_heap s) !! m_data b = Some d /\
    misplaced c b d /\ (m_data b = m_data c -> step (Append x y) s = Err AssertFailed).
Proof.
  intros Hin. destruct (run_related ops _ _ (start_related fresh) Hin)
    as [(s & E & Hrel)|(pre & x & y & post & s & -> & E & Hrel & Hall & Hsafe)].
  - left. exists s. by apply related_ran.
  - right. destruct (unsafe_append x y s _ Hrel Hall Hsafe) as (b & c & d & H).
    exists pre, x, y, post, s, b, c, d. split; [done|]. split; [by apply related_ran|done].
Qed.

Definition example_ops : list op :=
  [New 10; AddHeader 0 [1; 2; 3]; CopyOf 0; AddHeader 0 [9; 8]; AddTrailer 1 [7; 6; 5]; ReadAt 0 0 15; ReadAt 1 0 16;
   RemoveStart 1 5; RemoveEnd 0 9; Fragment 1 2 7; Append 2 0; CopyOut 2 100; Assign 0 2; New 4; Append 3 2; Flatten 3;
   Destroy 2; CopyOut 0 100; CopyOut 3 100; Destroy 1; AddHeader 3 [4]; Destroy 0; CopyOut 3 2].
Definition asserting_ops : list op :=
  [New 0; AddTrailer 0 [1; 2; 3; 4]; Destroy 0; New 0; AddTrailer 1 [1]; CopyOf 1; Append 1 2].
(** Where the session has come to when it reaches its next request. *)
Definition after (fresh : nat -> nat -> Z) (pre : list op) (P : session -> bool) : bool :=
  match run_session pre (start_session fresh) with Ok (_, s) => P s | Err _ => false end.
Lemma after_ran fresh pre P s : ran_as_strings fresh pre s -> after fresh pre P = P s.
Proof. intros [E _]. unfold after. by rewrite E. Qed.
Lemma misplaced_unsafe x y s b c d :
  s_bufs s !! x = Some b -> s_bufs s !! y = Some c -> h_data (s_heap s) !! m_data b = Some d -> misplaced c b d ->
  safe (Append x y) s = false.
Proof.
  intros Ex Ey Ed H. simpl. rewrite Ex, Ey. unfold append_safe. rewrite Ed. destruct H as [-> ?|E1 E2 E3 E4].
  - apply Z.eqb_neq. lia.
  - by rewrite E1, E2, E3, E4, Nat.eqb_refl.
Qed.
Definition same_storage (x y : nat) (s : session) : bool :=
  match s_bufs s !! x, s_bufs s !! y with Some b, Some c => Nat.eqb (m_data b) (m_data c) | _, _ => false end.

(** Every concatenation of the session is [safe]. *)
Definition all_safe (fresh : nat -> nat -> Z) (ops : list op) : bool :=
  forallb (fun n => match ops !! n with Some (Append x y) => after fresh (take n ops) (safe (Append x y)) | _ => true end)
    (seq 0 (length ops)).
Lemma all_safe_spec fresh ops pre x y post s b c d :
  all_safe fresh ops = true -> ops = pre ++ Append x y :: post -> ran_as_strings fresh pre s ->
  s_bufs s !! x = Some b -> s_bufs s !! y = Some c -> h_data (s_heap s) !! m_data b = Some d -> ~ misplaced c b d.
Proof.
  intros Hall -> Hran Ex Ey Ed Hm. unfold all_safe in Hall. rewrite forallb_forall in Hall.
  specialize (Hall (length pre)). rewrite list_lookup_middle, take_app_length, (after_ran _ _ _ _ Hran) in Hall by done.
  rewrite (misplaced_unsafe _ _ _ _ _ _ Ex Ey Ed Hm) in Hall. discriminate Hall.
  apply in_seq. rewrite length_app. simpl. lia.
Qed.

Lemma buffers_are_strings_witness :
  (exists s, ran_as_strings (fun p i => Z.of_nat (p + 7 * i)) example_ops s) /\
  exists s, ran_as_strings (fun _ _ => 0) (take 6 asserting_ops) s /\ step (Append 1 2) s = Err AssertFailed.
Proof.
  split.
  - destruct (buffers_are_strings (fun p i => Z.of_nat (p + 7 * i)) example_ops)
      as [H|(pre & x & y & post & s & b & c & d & Eops & Hran & Ex & Ey & Ed & Hm & _)];
      [vm_compute; reflexivity|exact H|].
    exfalso. refine (all_safe_spec _ _ _ _ _ _ _ _ _ _ _ Eops Hran Ex Ey Ed Hm). vm_compute. reflexivity.
  - destruct (buffers_are_strings (fun _ _ => 0) asserting_ops)
      as [(s & E & _)|(pre & x & y & post & s & b & c & d & Eops & Hran & Ex & Ey & Ed & Hm & Hstep)]; [vm_compute; reflexivity| |].
    { exfalso. revert E. generalize (run_strings asserting_ops start_strings).1. vm_compute. discriminate. }
    unfold asserting_ops in Eops. do 6 (destruct pre as [|? pre]; [discriminate|injection Eops as <- Eops]).
    destruct pre as [|? pre]; [|by destruct pre]. injection Eops as <- <- _. exists s. split; [exact Hran|]. apply Hstep.
    assert (same_storage 1 2 s = true) as Hsame by (rewrite <- (after_ran _ _ _ _ Hran); vm_compute; reflexivity).
    unfold same_storage in Hsame. rewrite Ex, Ey in Hsame. by apply Nat.eqb_eq.
Defined.

(** A buffer serialized into memory that is large enough, and deserialized
    from it, gives a buffer with the same octets, and no other buffer changes;
    the size that [Deserialize] wants is four more than what [Serialize] used. *)
Theorem buffer_serialization_roundtrip b L h mem maxSize :
  heap_ok L h -> b ∈ L -> room L -> GetSerializedSize b <= maxSize < 2 ^ 32 -> maxSize <= Z.of_nat (length mem) ->
  exists mem' b' h', Serialize mem maxSize b h = Ok (1, mem', h) /\
    Deserialize mem' (GetSerializedSize b + 4) h = Ok (1, b', h') /\
    heap_ok (b' :: L) h' /\ frame L h h' /\ contents h' b' = contents h b.
Proof.
  intros Hok Hb Hroom Hmax Hmem.
  destruct (buffer_Serialize_ok b L h mem maxSize Hok Hb Hmax Hmem) as (mem' & ES & Him & Hlen).
  destruct (contents_live _ _ _ Hok Hb) as (d & E & Hw & Hsz & _ & _ & Hlc). pose proof Hw as [].
  rewrite (GetSerializedSize_eq _ _ Hw Hsz) in *.
  destruct (buffer_Deserialize_ok L h b (contents h b) mem' Hok Hroom Him Hlc) as (b' & h' & ED & Hok' & Hf' & Hc'); [done..|lia|].
  exists mem', b', h'. split; [done|]. split; [done|]. split; [done|]. split; [done|]. rewrite Hc'. symmetry. by apply (contents_eq L).
Qed.
Lemma buffer_serialization_roundtrip_witness :
  exists b L h mem', heap_ok L h /\ contents h b = [1; 2; 3; 0; 0; 0; 0; 0; 5] /\
    Serialize (replicate (Z.to_nat (GetSerializedSize b)) 0) (GetSerializedSize b) b h = Ok (1, mem', h) /\
    exists b' h', Deserialize mem' (GetSerializedSize b + 4) h = Ok (1, b', h') /\ contents h' b' = [1; 2; 3; 0; 0; 0; 0; 0; 5].
Proof.
  set (ops := [New 5; AddHeader 0 [1; 2; 3]; AddTrailer 0 [5]; CopyOf 0]).
  destruct (run_related ops _ _ (start_related (fun _ _ => 7))) as [(s & E & Hrel)|(pre & x & y & post & s & Eops & _)];
    [vm_compute; reflexivity| |].
  2:{ exfalso. assert (Append x y ∈ ops) as Hin by (rewrite Eops; apply elem_of_app; right; by left).
      revert Hin. unfold ops. rewrite !elem_of_cons, elem_of_nil. intuition discriminate. }
  destruct (has_buf _ _ 0 Hrel) as (b & Eb & _ & Es & _ & Hb); [vm_compute; reflexivity|].
  assert (contents (s_heap s) b = [1; 2; 3; 0; 0; 0; 0; 0; 5]) as Hc by (rewrite <- Es; vm_compute; reflexivity).
  pose proof (wrap_range 32 (4 + 4 + pad4 (m_zeroAreaStart b - m_start b) + 4 + pad4 (m_end b - m_zeroAreaEnd b)) ltac:(lia)) as Hr.
  change (in_range 32 (GetSerializedSize b)) in Hr. unfold in_range in Hr.
  destruct (buffer_serialization_roundtrip b (vals (s_bufs s)) (s_heap s) (replicate (Z.to_nat (GetSerializedSize b)) 0)
    (GetSerializedSize b)) as (mem' & b' & h' & ES & ED & Hok' & Hf' & Hc').
  - apply Hrel.
  - done.
  - unfold room. rewrite (related_size _ _ Hrel). vm_compute. reflexivity.
  - lia.
  - rewrite length_replicate. lia.
  - exists b, (vals (s_bufs s)), (s_heap s), mem'. split; [apply Hrel|]. split; [done|]. split; [done|].
    exists b', h'. split; [done|]. congruence.
Defined.

(** Where the code goes wrong, on concrete sessions. *)
Definition fault_of (ops : list op) : option fault :=
  match run_session ops (start_session (fun _ _ => 0)) with Ok _ => None | Err f => Some f end.

(** Concatenating zeros followed by octets onto zeros writes them at an offset
    that counts the zeros: outside of the storage. *)
Example append_after_zeros_overflows :
  fault_of [New 4; New 4; AddTrailer 1 [7; 8]; Append 0 1] = Some UndefinedBehaviour.
Proof. vm_compute. reflexivity. Qed.

(** When the storage happens to be large, the octets are lost. *)
Example append_after_zeros_loses :
  match run_session [New 0; AddTrailer 0 (replicate 20 9); Destroy 0; New 4; New 4; AddTrailer 2 [7; 8]; Append 1 2; CopyOut 1 100]
    (start_session (fun _ _ => 0)) with
  | Ok (outs, _) => last outs = Some [0; 0; 0; 0; 0; 0; 0; 0; 9; 9]
  | Err _ => False
  end.
Proof. vm_compute. reflexivity. Qed.

(** Concatenating a copy of a buffer onto it fails the assertion that the
    storages differ, when the storage has room. *)
Example append_own_copy_asserts :
  fault_of [New 0; AddTrailer 0 [1; 2; 3; 4]; Destroy 0; New 0; AddTrailer 1 [1]; CopyOf 1; Append 1 2] = Some AssertFailed.
Proof. vm_compute. reflexivity. Qed.

(** [WriteU8] accepts the position after the last octet, where it changes
    another buffer of the same storage. *)
Example WriteU8_past_the_end :
  match run_session [New 0; AddTrailer 0 [1; 2]; CopyOf 0; RemoveEnd 0 1] (start_session (fun _ _ => 0)) with
  | Ok (_, s) =>
      match s_bufs s !! 0%nat, s_bufs s !! 1%nat with
      | Some b, Some c =>
          contents (s_heap s) c = [1; 2] /\
          match WriteU8 9 (End b) (s_heap s) with Ok (_, h) => contents h c = [1; 9] | Err _ => False end
      | _, _ => False
      end
  | Err _ => False
  end.
Proof. vm_compute. split; reflexivity. Qed.
