(* ===== verification/PacketTagList.v ===== *)
(** * The tags of a packet ([src/network/model/packet-tag-list.{h,cc}], [tag-buffer.cc])

    A [PacketTagList] is a pointer to a linked list of counted nodes, each the
    octets of a serialized tag.  Lists share their tails: a copy counts the
    first node once more, and a list that removes or replaces a tag behind a
    node that it shares copies the nodes up to it.  The nodes are on a heap,
    and so are the lists, by number; a node is used only while it is
    allocated.  The octets of a node just allocated are unknown ([w_fresh]). *)

From S2P Require Import Prelude Bytes.
From S2P Require Buffer.
Import Buffer (put, get, get_u32, pad4).

(** ** Tags and their buffers *)

(** [class Tag]: what a tag writes to its [TagBuffer] and reads from it *)
Class Tag (T : Type) := {
  GetInstanceTypeId : T -> Z;
  GetSerializedSize : T -> Z;
  Serialize : T -> bytes;
  Deserialize : bytes -> T -> res T
}.

(** [tag.Serialize (TagBuffer (start, end))] over the octets [buf]: every [WriteU8]
    asserts that there is room. *)
Definition write_tag {T} `{Tag T} (t : T) (buf : bytes) : res bytes :=
  let l := Serialize t in
  _ ← ns_assert (Nat.leb (length l) (length buf)); mret (l ++ drop (length l) buf).

(** ** Nodes and lists *)

Record TagData := mkTagData { next : option nat; count : Z; tid : Z; size : Z; data : bytes }.
Definition set_next (n : option nat) (x : TagData) : TagData := mkTagData n (count x) (tid x) (size x) (data x).
Definition set_count (c : Z) (x : TagData) : TagData := mkTagData (next x) c (tid x) (size x) (data x).
Definition set_data (d : bytes) (x : TagData) : TagData := mkTagData (next x) (count x) (tid x) (size x) d.

(** [w_lists] has the [m_next] of each list. *)
Record World := mkWorld { w_tags : gmap nat TagData; w_new : nat; w_fresh : nat -> nat -> Z; w_lists : gmap nat (option nat) }.
Definition initial_world (fresh : nat -> nat -> Z) : World := mkWorld ∅ 0 fresh ∅.
Abbreviation M := (st World).

Definition with_tags (m : gmap nat TagData) (w : World) : World := mkWorld m (w_new w) (w_fresh w) (w_lists w).
Definition with_lists (m : gmap nat (option nat)) (w : World) : World := mkWorld (w_tags w) (w_new w) (w_fresh w) m.

Definition load (p : nat) : M TagData := fun w => x ← deref (w_tags w !! p); Ok (x, w).
Definition store (p : nat) (x : TagData) : M unit := fun w => Ok (tt, with_tags (<[p := x]> (w_tags w)) w).
Definition modify (p : nat) (f : TagData -> TagData) : M unit := x ← load p; store p (f x).
Definition free (p : nat) : M unit := _ ← load p; update (fun w => with_tags (delete p (w_tags w)) w).
Definition m_next (i : nat) : M (option nat) := fun w => x ← deref (w_lists w !! i); Ok (x, w).
Definition set_m_next (i : nat) (n : option nat) : M unit := update (fun w => with_lists (<[i := n]> (w_lists w)) w).

(** [count++] and [count--] *)
Definition merge (p : nat) : M unit := modify p (fun x => set_count (u32 (count x + 1)) x).
Definition unmerge (p : nat) : M unit := modify p (fun x => set_count (u32 (count x - 1)) x).
Definition merge_opt (n : option nat) : M unit := match n with Some p => merge p | None => mret tt end.

(** The loops over a list end after as many nodes as there are. *)
Definition walk : M nat := gets (fun w => S (base.size (w_tags w))).

Definition CreateTagData (dataSize : Z) : M nat := fun w =>
  _ ← ns_assert (dataSize <? 2 ^ 32 - 1);
  let p := w_new w in
  let octets := map (fun i => wrap 8 (w_fresh w p i)) (seq 0 (Z.to_nat dataSize)) in
  Ok (p, mkWorld (<[p := mkTagData None 0 0 dataSize octets]> (w_tags w)) (S p) (w_fresh w) (w_lists w)).

(** ** Copying lists *)

(** A list is constructed where there is none. *)
Definition construct (i : nat) (n : option nat) : M unit := fun w =>
  match w_lists w !! i with Some _ => Err UndefinedBehaviour | None => set_m_next i n w end.
Definition new_list (i : nat) : M unit := construct i None.
Definition copy_list (i o : nat) : M unit :=
  n ← m_next o; _ ← construct i n; merge_opt n.

Fixpoint remove_loop (fuel : nat) (prev cur : option nat) : M (option nat) :=
  match cur with
  | None => mret prev
  | Some c =>
      match fuel with
      | O => lift (Err OutOfFuel)
      | S fuel =>
          _ ← unmerge c;
          x ← load c;
          if 0 <? count x then mret prev
          else
            _ ← (match prev with Some p => free p | None => mret tt end);
            remove_loop fuel cur (next x)
      end
  end.
Definition RemoveAll (i : nat) : M unit :=
  cur ← m_next i;
  fuel ← walk;
  prev ← remove_loop fuel None cur;
  _ ← (match prev with Some p => free p | None => mret tt end);
  set_m_next i None.

Definition assign (i o : nat) : M unit :=
  a ← m_next i;
  b ← m_next o;
  if bool_decide (a = b) then mret tt
  else
    _ ← RemoveAll i;
    n ← m_next o; _ ← set_m_next i n; merge_opt n.
(** The destructor, after which the list is no more *)
Definition destroy (i : nat) : M unit :=
  _ ← RemoveAll i; update (fun w => with_lists (delete i (w_lists w)) w).

(** ** Removing and replacing *)

(** Where a pointer is kept: [m_next] of the list, or [next] of a node *)
Inductive slot := Head | Next (p : nat).
#[export] Instance slot_eq_dec : EqDecision slot.
Proof. solve_decision. Defined.
Definition set_slot (i : nat) (s : slot) (n : option nat) : M unit :=
  match s with Head => set_m_next i n | Next p => modify p (set_next n) end.

Section operations.
Context {T : Type} `{Tag T}.

(** The first loop: the slot and the node where it stops, and whether that is the
    tag, before any shared node. *)
Fixpoint seek (fuel : nat) (tid' : Z) (prevNext : slot) (cur : option nat) : M (slot * option nat * bool) :=
  match cur with
  | None => mret (prevNext, None, false)
  | Some c =>
      match fuel with
      | O => lift (Err OutOfFuel)
      | S fuel =>
          x ← load c;
          if 1 <? count x then mret (prevNext, cur, false)
          else if tid x =? tid' then mret (prevNext, cur, true)
          else seek fuel tid' (Next c) (next x)
      end
  end.
(** The node with the tag, if there is one *)
Fixpoint find (fuel : nat) (tid' : Z) (it : option nat) : M (option nat) :=
  match it with
  | None => mret None
  | Some c =>
      match fuel with
      | O => lift (Err OutOfFuel)
      | S fuel => x ← load c; if tid x =? tid' then mret it else find fuel tid' (next x)
      end
  end.
(** The copying loop *)
Fixpoint copy_until (fuel : nat) (i : nat) (tid' : Z) (prevNext : slot) (cur : nat) : M (slot * nat) :=
  x ← load cur;
  if tid x =? tid' then mret (prevNext, cur)
  else
    match fuel with
    | O => lift (Err OutOfFuel)
    | S fuel =>
        _ ← lift (ns_assert (1 <? count x));
        _ ← unmerge cur;
        copy ← CreateTagData (size x);
        _ ← store copy (mkTagData (next x) 1 (tid x) (size x) (data x));
        n ← lift (deref (next x));
        _ ← merge n;
        _ ← set_slot i prevNext (Some copy);
        copy_until fuel i tid' (Next copy) n
    end.

Definition Writer : Type := T -> bool -> nat -> slot -> M (bool * T).
Definition COWTraverse (i : nat) (tag : T) (writer : Writer) : M (bool * T) :=
  let tid' := GetInstanceTypeId tag in
  head ← m_next i;
  match head with
  | None => mret (false, tag)
  | Some _ =>
      fuel ← walk;
      '(prevNext, cur, hit) ← seek fuel tid' Head head;
      match cur with
      | None => mret (false, tag)
      | Some c =>
          if hit : bool then writer tag true c prevNext
          else
            it ← find fuel tid' cur;
            match it with
            | None => mret (false, tag)
            | Some _ =>
                x ← load c;
                _ ← lift (ns_assert (1 <? count x));
                '(prevNext, c) ← copy_until fuel i tid' prevNext c;
                x ← load c;
                _ ← lift (ns_assert (1 <? count x));
                writer tag false c prevNext
            end
      end
  end.

Definition RemoveWriter (i : nat) : Writer := fun tag preMerge cur prevNext =>
  x ← load cur;
  tag ← lift (Deserialize (data x) tag);
  _ ← set_slot i prevNext (next x);
  _ ← (if preMerge then free cur else _ ← unmerge cur; merge_opt (next x));
  mret (true, tag).
Definition Remove (i : nat) (tag : T) : M (bool * T) := COWTraverse i tag (RemoveWriter i).

(** The loop of [Add] *)
Fixpoint absent (fuel : nat) (tid' : Z) (cur : option nat) : M unit :=
  match cur with
  | None => mret tt
  | Some c =>
      match fuel with
      | O => lift (Err OutOfFuel)
      | S fuel => x ← load c; _ ← lift (ns_assert (negb (tid x =? tid'))); absent fuel tid' (next x)
      end
  end.
Definition Add (i : nat) (tag : T) : M unit :=
  n ← m_next i;
  fuel ← walk;
  _ ← absent fuel (GetInstanceTypeId tag) n;
  head ← CreateTagData (GetSerializedSize tag);
  x ← load head;
  d ← lift (write_tag tag (data x));
  _ ← store head (mkTagData n 1 (GetInstanceTypeId tag) (size x) d);
  set_m_next i (Some head).

Definition ReplaceWriter (i : nat) : Writer := fun tag preMerge cur prevNext =>
  if preMerge then
    x ← load cur;
    d ← lift (write_tag tag (data x));
    _ ← store cur (set_data d x);
    mret (true, tag)
  else
    _ ← unmerge cur;
    copy ← CreateTagData (GetSerializedSize tag);
    y ← load copy;
    d ← lift (write_tag tag (data y));
    x ← load cur;
    _ ← store copy (mkTagData (next x) 1 (GetInstanceTypeId tag) (size y) d);
    _ ← merge_opt (next x);
    _ ← set_slot i prevNext (Some copy);
    mret (true, tag).
Definition Replace (i : nat) (tag : T) : M bool :=
  '(found, tag) ← COWTraverse i tag (ReplaceWriter i);
  _ ← when (negb found) (Add i tag);
  mret found.

Definition Peek (i : nat) (tag : T) : M (bool * T) :=
  n ← m_next i;
  fuel ← walk;
  it ← find fuel (GetInstanceTypeId tag) n;
  match it with
  | None => mret (false, tag)
  | Some c => x ← load c; tag ← lift (Deserialize (data x) tag); mret (true, tag)
  end.
End operations.

(** ** Serialization of a list

    A type is identified by its hash; [registered]: the types that
    [TypeId::LookupByHash] finds. *)

Section serialization.
Context (registered : Z -> bool).

Definition hashSize : Z := pad4 4.
Fixpoint size_loop (fuel : nat) (cur : option nat) (total : Z) : M Z :=
  match cur with
  | None => mret total
  | Some c =>
      match fuel with
      | O => lift (Err OutOfFuel)
      | S fuel => x ← load c; size_loop fuel (next x) (u32 (u32 (u32 (total + 4) + hashSize) + pad4 (size x)))
      end
  end.
Definition list_GetSerializedSize (i : nat) : M Z := n ← m_next i; fuel ← walk; size_loop fuel n 4.

Fixpoint write_loop (fuel : nat) (cur : option nat) (p total maxSize : Z) (buffer : bytes) : M (Z * bytes) :=
  match cur with
  | None => mret (1, buffer)
  | Some c =>
      match fuel with
      | O => lift (Err OutOfFuel)
      | S fuel =>
          x ← load c;
          if negb (u32 (total + 4) <=? maxSize) then mret (0, buffer) else
          buffer ← lift (put p (WriteU32 (size x)) buffer);
          let p := p + 4 in
          let total := u32 (total + 4) in
          if negb (u32 (total + hashSize) <=? maxSize) then mret (0, buffer) else
          buffer ← lift (put p (WriteU32 (tid x)) buffer);
          let p := p + 4 * (hashSize / 4) in
          let total := u32 (total + hashSize) in
          let tagWordSize := pad4 (size x) in
          if negb (u32 (total + tagWordSize) <=? maxSize) then mret (0, buffer) else
          buffer ← lift (put p (take (Z.to_nat (size x)) (data x)) buffer);
          let total := u32 (total + tagWordSize) in
          let p := p + 4 * (tagWordSize / 4) in
          numberOfTags ← lift (get_u32 0 buffer);
          buffer ← lift (put 0 (WriteU32 (u32 (numberOfTags + 1))) buffer);
          write_loop fuel (next x) p total maxSize buffer
      end
  end.
(** [Serialize (buffer, maxSize)]: the status and the memory after it *)
Definition list_Serialize (i : nat) (buffer : bytes) (maxSize : Z) : M (Z * bytes) :=
  if negb (u32 (0 + 4) <=? maxSize) then mret (0, buffer) else
  buffer ← lift (put 0 (WriteU32 0) buffer);
  n ← m_next i;
  fuel ← walk;
  write_loop fuel n 4 (u32 (0 + 4)) maxSize buffer.

Definition LookupByHash (hash : Z) : res Z := _ ← ns_assert (registered hash); mret hash.
(** The loop from the tag after [prevTag]: what is left of [sizeCheck] *)
Fixpoint read_loop (tags : nat) (i : nat) (prevTag : option nat) (p sizeCheck : Z) (buffer : bytes) : M Z :=
  match tags with
  | O => mret sizeCheck
  | S tags =>
      _ ← lift (ns_assert (4 <=? sizeCheck));
      tagSize ← lift (get_u32 p buffer);
      let p := p + 4 in
      let sizeCheck := u32 (sizeCheck - 4) in
      _ ← lift (ns_assert (hashSize <=? sizeCheck));
      hash ← lift (get_u32 p buffer);
      let p := p + 4 * (hashSize / 4) in
      let sizeCheck := u32 (sizeCheck - hashSize) in
      tid' ← lift (LookupByHash hash);
      newTag ← CreateTagData tagSize;
      y ← load newTag;
      _ ← store newTag (mkTagData None 1 tid' (size y) (data y));
      _ ← lift (ns_assert (tagSize <=? sizeCheck));
      d ← lift (get p tagSize buffer);
      _ ← modify newTag (set_data d);
      let tagWordSize := pad4 tagSize in
      let p := p + 4 * (tagWordSize / 4) in
      let sizeCheck := u32 (sizeCheck - tagWordSize) in
      _ ← set_slot i (match prevTag with None => Head | Some q => Next q end) (Some newTag);
      read_loop tags i (Some newTag) p sizeCheck buffer
  end.
Definition list_Deserialize (i : nat) (buffer : bytes) (bufferSize : Z) : M Z :=
  let sizeCheck := u32 (bufferSize - 4) in
  _ ← lift (ns_assert (4 <=? sizeCheck));
  numberOfTags ← lift (get_u32 0 buffer);
  let sizeCheck := u32 (sizeCheck - 4) in
  sizeCheck ← read_loop (Z.to_nat numberOfTags) i None 4 sizeCheck buffer;
  _ ← lift (ns_assert (sizeCheck =? 0));
  mret (if negb (sizeCheck =? 0) then 0 else 1).
End serialization.

(** ** The tags of the scenario's packets

    The load balancer's and those of the sockets; their type identifiers are any
    six numbers.  (The tags of the flow monitor are on octets, not on packets.) *)

Inductive PacketTag :=
| MyTag (m_leaf_id m_interface : Z)
| Ipv4PacketInfoTag (m_addr m_ifindex m_ttl : Z)
| SocketIpTosTag (m_ipTos : Z)
| SocketIpTtlTag (m_ttl : Z)
| SocketPriorityTag (m_priority : Z)
| SocketSetDontFragmentTag (m_dontFragment : bool).

Definition tag_type (t : PacketTag) : Z :=
  match t with
  | MyTag _ _ => 1 | Ipv4PacketInfoTag _ _ _ => 2 | SocketIpTosTag _ => 3 | SocketIpTtlTag _ => 4 | SocketPriorityTag _ => 5
  | SocketSetDontFragmentTag _ => 6
  end.
Definition serialized_size (t : PacketTag) : Z :=
  match t with
  | MyTag _ _ => 4 * 2
  | Ipv4PacketInfoTag _ _ _ => 4 + 4 + 1
  | SocketIpTosTag _ | SocketIpTtlTag _ | SocketPriorityTag _ | SocketSetDontFragmentTag _ => 1
  end.
Definition serialize_tag (t : PacketTag) : bytes :=
  match t with
  | MyTag leaf_id interface => WriteU32 leaf_id ++ WriteU32 interface
  | Ipv4PacketInfoTag addr ifindex ttl => WriteHtonU32 addr ++ WriteU32 ifindex ++ WriteU8 ttl
  | SocketIpTosTag x | SocketIpTtlTag x | SocketPriorityTag x => WriteU8 x
  | SocketSetDontFragmentTag x => WriteU8 (if x then 1 else 0)
  end.
(** The tag that is given is overwritten. *)
Definition deserialize_tag (buf : bytes) (t : PacketTag) : res PacketTag :=
  match t with
  | MyTag _ _ => '(leaf_id, buf) ← ReadU32 buf; '(interface, _) ← ReadU32 buf; mret (MyTag leaf_id interface)
  | Ipv4PacketInfoTag _ _ _ =>
      '(addr, buf) ← ReadNtohU32 buf; '(ifindex, buf) ← ReadU32 buf; '(ttl, _) ← ReadU8 buf; mret (Ipv4PacketInfoTag addr ifindex ttl)
  | SocketIpTosTag _ => '(x, _) ← ReadU8 buf; mret (SocketIpTosTag x)
  | SocketIpTtlTag _ => '(x, _) ← ReadU8 buf; mret (SocketIpTtlTag x)
  | SocketPriorityTag _ => '(x, _) ← ReadU8 buf; mret (SocketPriorityTag x)
  | SocketSetDontFragmentTag _ => '(x, _) ← ReadU8 buf; mret (SocketSetDontFragmentTag (x =? 1))
  end.
#[export] Instance PacketTag_Tag : Tag PacketTag :=
  {| GetInstanceTypeId := tag_type; GetSerializedSize := serialized_size; Serialize := serialize_tag; Deserialize := deserialize_tag |}.

(** [DeviceNameTag] of [packet-socket.cc], by the octets of the name: a tag whose
    size is not that of its type *)
#[export] Instance DeviceNameTag_Tag : Tag (list Z) :=
  {| GetInstanceTypeId _ := 7; GetSerializedSize n := u32 (1 + Z.of_nat (length n));
     Serialize n := let l := u8 (Z.of_nat (length n)) in WriteU8 l ++ take (Z.to_nat l) n;
     Deserialize buf _ := '(l, buf) ← ReadU8 buf; _ ← ns_assert (Nat.leb (Z.to_nat l) (length buf)); mret (take (Z.to_nat l) buf) |}.
