(* ===== verification/PacketTagHeap.v ===== *)
(** * The nodes of tag lists

    [okx] is the invariant of the heap: every list and every node has a finite
    path to the end, and the count of a node is the number of pointers to it and
    what an operation under way adds.  Here is how the invariant, and what each
    list reads, follow the writes of the operations: a count, a node allocated
    or freed, and the pointer where a list leaves the nodes that are its own. *)

From S2P Require Import Prelude Bytes.
From S2P Require Import PacketTagList.

(** ** Counting *)

Definition occ {A} (f : A -> bool) (m : gmap nat A) : Z := Z.of_nat (base.size (filter (fun kv => f kv.2 = true) m)).

Lemma occ_insert_new {A} (f : A -> bool) m k a : m !! k = None -> occ f (<[k := a]> m) = Z.b2z (f a) + occ f m.
Proof.
  intros Hk. unfold occ. destruct (f a) eqn:E; cbn [Z.b2z].
  - rewrite map_filter_insert_True by done. rewrite map_size_insert_None; [simpl; lia|]. apply map_lookup_filter_None. by left.
  - rewrite map_filter_insert_not'; [done|simpl; congruence|intros y Hy; congruence].
Qed.
Lemma occ_delete {A} (f : A -> bool) m k a : m !! k = Some a -> occ f (delete k m) = occ f m - Z.b2z (f a).
Proof. intros Hk. rewrite <- (insert_delete_id m k a Hk) at 2. rewrite occ_insert_new by apply lookup_delete_eq. lia. Qed.
Lemma occ_insert {A} (f : A -> bool) m k a b : m !! k = Some a -> occ f (<[k := b]> m) = occ f m - Z.b2z (f a) + Z.b2z (f b).
Proof. intros Hk. rewrite <- insert_delete_eq, occ_insert_new, (occ_delete _ _ _ _ Hk) by apply lookup_delete_eq. lia. Qed.
Lemma occ_nonneg {A} (f : A -> bool) m : 0 <= occ f m.
Proof. unfold occ. lia. Qed.
Lemma occ_pos {A} (f : A -> bool) m k a : m !! k = Some a -> f a = true -> 1 <= occ f m.
Proof. intros Hk Ha. pose proof (occ_delete f m k a Hk). pose proof (occ_nonneg f (delete k m)). rewrite Ha in *. simpl in *. lia. Qed.
Lemma occ_two {A} (f : A -> bool) m k k' a a' : k <> k' -> m !! k = Some a -> f a = true -> m !! k' = Some a' -> f a' = true -> 2 <= occ f m.
Proof.
  intros Hne Hk Ha Hk' Ha'. pose proof (occ_delete f m k a Hk). rewrite Ha in *. simpl in *.
  pose proof (occ_pos f (delete k m) k' a' ltac:(by rewrite lookup_delete_ne) Ha'). lia.
Qed.
Lemma occ_zero {A} (f : A -> bool) m : (forall k a, m !! k = Some a -> f a = false) -> occ f m = 0.
Proof.
  intros Hf. unfold occ. rewrite (proj2 (map_size_empty_iff _)); [done|]. apply map_empty. intros k.
  apply map_lookup_filter_None. destruct (m !! k) as [a|] eqn:E; [right|by left]. intros x [= <-]. simpl. rewrite (Hf _ _ E). done.
Qed.
Lemma occ_some {A} (f : A -> bool) m : 1 <= occ f m -> exists k a, m !! k = Some a /\ f a = true.
Proof.
  unfold occ. intros Ho. destruct (decide (filter (fun kv => f kv.2 = true) m = ∅)) as [E|(k & a & Hk)%map_choose].
  - rewrite E, map_size_empty in Ho. lia.
  - apply map_lookup_filter_Some in Hk as [Hk Ha]. by exists k, a.
Qed.

Lemma alter_at {A} (f : A -> A) (m : gmap nat A) k a : m !! k = Some a -> alter f k m = <[k := f a]> m.
Proof.
  intros Hk. apply map_eq. intros q. destruct (decide (q = k)) as [->|Hne].
  - by rewrite lookup_insert_eq, lookup_alter_eq, Hk.
  - by rewrite lookup_insert_ne, lookup_alter_ne.
Qed.

(** ** Paths *)

Definition points (p : nat) (n : option nat) : bool := bool_decide (n = Some p).
Lemma points_some p q : points p (Some q) = bool_decide (p = q).
Proof. apply bool_decide_ext. split; congruence. Qed.
(** The pointers to a node *)
Definition refs (w : World) (p : nat) : Z := occ (points p) (w_lists w) + occ (fun x => points p (next x)) (w_tags w).

Fixpoint path (m : gmap nat TagData) (n : option nat) (ps : list nat) : Prop :=
  match ps with
  | [] => n = None
  | p :: ps => n = Some p /\ exists x, m !! p = Some x /\ path m (next x) ps
  end.
Definition item (m : gmap nat TagData) (p : nat) : Z * bytes := from_option (fun x => (tid x, data x)) (0, []) (m !! p).
Definition reads (m : gmap nat TagData) (n : option nat) (cs : list (Z * bytes)) : Prop := exists ps, path m n ps /\ item m <$> ps = cs.

Lemma path_unique m ps : forall n qs, path m n ps -> path m n qs -> ps = qs.
Proof.
  induction ps as [|p ps IH]; intros n [|q qs]; simpl; [done|by intros -> [? _]|by intros [-> _] ?|].
  intros (-> & x & Hx & Hp) ([= ->] & y & Hy & Hq). f_equal. simplify_eq. eauto.
Qed.
Lemma path_split m ps1 : forall n p ps2, path m n (ps1 ++ p :: ps2) -> exists x, m !! p = Some x /\ path m (next x) ps2.
Proof. induction ps1 as [|q ps1 IH]; simpl; [by intros n p ps2 (_ & x & Hx & H); exists x|]. intros n p ps2 (_ & x & _ & H). eauto. Qed.
Lemma path_nodup m ps : forall n, path m n ps -> NoDup ps.
Proof.
  induction ps as [|p ps IH]; intros n H; [constructor|]. constructor; [|destruct H as (_ & x & _ & H); by eapply IH].
  intros (l1 & l2 & ->)%list_elem_of_split. destruct H as (_ & x & Hx & H).
  destruct (path_split _ _ _ _ _ H) as (y & Hy & H2). assert (y = x) as -> by congruence.
  pose proof (path_unique _ _ _ _ H H2) as E. apply (f_equal length) in E. rewrite length_app in E. simpl in E. lia.
Qed.
(** A path depends on the [next] of its nodes only. *)
Lemma path_ext m m' ps : forall n, (forall p, p ∈ ps -> next <$> m !! p = next <$> m' !! p) -> path m n ps -> path m' n ps.
Proof.
  induction ps as [|p ps IH]; intros n He; [done|]. intros (-> & x & Hx & H). split; [done|].
  pose proof (He p ltac:(by left)) as Hp. rewrite Hx in Hp. destruct (m' !! p) as [y|] eqn:Hy; [|done]. injection Hp as E.
  exists y. split; [done|]. rewrite <- E. apply IH; [|done]. intros q Hq. apply He. by right.
Qed.
Lemma reads_ext m m' n cs : (forall p x, m !! p = Some x -> exists y, m' !! p = Some y /\ next y = next x /\ tid y = tid x /\ data y = data x) ->
  reads m n cs -> reads m' n cs.
Proof.
  intros He (ps & Hp & <-). exists ps. split.
  - revert n Hp. induction ps as [|p ps IH]; intros n; [done|]. intros (-> & x & Hx & H). split; [done|].
    destruct (He _ _ Hx) as (y & Hy & En & _). exists y. split; [done|]. rewrite En. by apply IH.
  - revert n Hp. induction ps as [|p ps IH]; intros n; [done|]. intros (-> & x & Hx & H). simpl. f_equal; [|by eapply IH].
    destruct (He _ _ Hx) as (y & Hy & _ & Et & Ed). unfold item. rewrite Hx, Hy. simpl. by rewrite Et, Ed.
Qed.
(** Where a path does not go changes nothing. *)
Lemma path_avoid m m' (ps : list nat) n : (forall p, p ∈ ps -> m !! p = m' !! p) -> path m n ps -> path m' n ps.
Proof. intros He. apply path_ext. intros p Hp. by rewrite He. Qed.
Lemma items_avoid m m' (ps : list nat) : (forall p, p ∈ ps -> m !! p = m' !! p) -> item m <$> ps = item m' <$> ps.
Proof. intros He. apply list_fmap_ext. intros k p Hp. unfold item. rewrite He; [done|]. by eapply list_elem_of_lookup_2. Qed.
(** Redirecting the [next] of [p] *)
Lemma path_redirect m p x v vs n ps :
  m !! p = Some x -> path m v vs -> p ∉ vs -> path m n ps -> exists ps', path (<[p := set_next v x]> m) n ps'.
Proof.
  intros Hx Hv Hp H. set (m' := <[p := set_next v x]> m).
  assert (forall q, q <> p -> m !! q = m' !! q) as Hne by (intros; unfold m'; by rewrite lookup_insert_ne).
  assert (path m' v vs) as Hv' by (eapply path_avoid; [|done]; intros q Hq; apply Hne; by intros ->).
  revert n H. induction ps as [|q ps IH]; intros n; [by exists []|]. intros (-> & y & Hy & H).
  destruct (decide (q = p)) as [->|Hq].
  - exists (p :: vs). split; [done|]. exists (set_next v x). split; [by apply lookup_insert_eq|done].
  - destruct (IH _ H) as (ps' & H'). exists (q :: ps'). split; [done|]. exists y. by rewrite <- Hne.
Qed.

(** ** The invariant

    [okx a b w]: the count of the node [p] is the number of pointers to it and
    [a p] more, and at most [b p].  Between operations, [a] is 0. *)

Record okx (a b : nat -> Z) (w : World) : Prop := {
  x_list i n : w_lists w !! i = Some n -> exists ps, path (w_tags w) n ps;
  x_node p x : w_tags w !! p = Some x -> exists ps, path (w_tags w) (next x) ps;
  x_count p x : w_tags w !! p = Some x -> count x = refs w p + a p;
  x_range p x : w_tags w !! p = Some x -> 0 <= count x <= b p;
  x_data p x : w_tags w !! p = Some x -> size x = Z.of_nat (length (data x)) /\ size x < 2 ^ 32 - 1;
  x_new p x : w_tags w !! p = Some x -> (p < w_new w)%nat
}.
Definition adj (c : nat) (d : Z) (a : nat -> Z) : nat -> Z := fun p => a p + (if decide (p = c) then d else 0).
Definition adj_opt (c : option nat) (d : Z) (a : nat -> Z) : nat -> Z := match c with Some c => adj c d a | None => a end.

Lemma okx_weaken a b a' b' w :
  okx a b w -> (forall p x, w_tags w !! p = Some x -> a p = a' p /\ b p <= b' p) -> okx a' b' w.
Proof.
  intros [] H. split; try done.
  - intros p x Hx. rewrite <- (proj1 (H p x Hx)). eauto.
  - intros p x Hx. destruct (H p x Hx) as [_ Hb]. specialize (x_range0 p x Hx). lia.
Qed.
Lemma adj_opt_eq c d a p : adj_opt c d a p = a p + d * Z.b2z (points p c).
Proof.
  unfold points. destruct c as [c|]; [|rewrite bool_decide_eq_false_2 by done; simpl; lia].
  simpl. unfold adj. destruct (decide (p = c)) as [->|Hne].
  - rewrite bool_decide_eq_true_2 by done. simpl. lia.
  - rewrite bool_decide_eq_false_2 by congruence. simpl. lia.
Qed.
Lemma adj_eq c d a p : adj c d a p = a p + d * Z.b2z (points p (Some c)).
Proof. exact (adj_opt_eq (Some c) d a p). Qed.

(** Every pointer is null or points to a node. *)
Lemma path_head m n ps : path m n ps -> match n with Some p => is_Some (m !! p) | None => True end.
Proof. destruct ps as [|p ps]; [by intros ->|]. intros (-> & x & Hx & _). by eexists. Qed.
Lemma no_refs a b w p : okx a b w -> w_tags w !! p = None -> refs w p = 0.
Proof.
  intros Hok Hp. unfold refs. rewrite !occ_zero; [done|..].
  - intros q x Hx. destruct (x_node _ _ _ Hok _ _ Hx) as (ps & H). apply path_head in H.
    unfold points. destruct (next x) as [r|]; [|done]. apply bool_decide_eq_false_2. intros [= ->]. by rewrite Hp in H; destruct H.
  - intros i n Hi. destruct (x_list _ _ _ Hok _ _ Hi) as (ps & H). apply path_head in H.
    unfold points. destruct n as [r|]; [|done]. apply bool_decide_eq_false_2. intros [= ->]. by rewrite Hp in H; destruct H.
Qed.

(** *** Counts *)

Definition put_tag (p : nat) (x : TagData) (w : World) : World := with_tags (<[p := x]> (w_tags w)) w.
Lemma refs_put_tag w p x y q : w_tags w !! p = Some x -> refs (put_tag p y w) q = refs w q - Z.b2z (points q (next x)) + Z.b2z (points q (next y)).
Proof. intros Hx. unfold refs, put_tag. simpl. rewrite (occ_insert _ _ _ _ _ Hx). lia. Qed.

(** A node whose [next] stays *)
Lemma reads_put_tag w p x y n cs : w_tags w !! p = Some x -> next y = next x -> tid y = tid x -> data y = data x ->
  reads (w_tags w) n cs -> reads (w_tags (put_tag p y w)) n cs.
Proof.
  intros Hx En Et Ed. apply reads_ext. intros q z Hz. simpl. destruct (decide (q = p)) as [->|Hne].
  - simplify_eq. exists y. by rewrite lookup_insert_eq.
  - exists z. by rewrite lookup_insert_ne.
Qed.
Lemma path_put_tag w p x y n ps : w_tags w !! p = Some x -> next y = next x -> path (w_tags w) n ps -> path (w_tags (put_tag p y w)) n ps.
Proof.
  intros Hx En. apply path_ext. intros q _. simpl. destruct (decide (q = p)) as [->|Hne]; [by rewrite lookup_insert_eq, Hx; simpl; rewrite En|by rewrite lookup_insert_ne].
Qed.
Lemma okx_put_tag a b w p x y d :
  okx a b w -> w_tags w !! p = Some x -> next y = next x -> count y = count x + d -> 0 <= count y ->
  size y = Z.of_nat (length (data y)) -> size y < 2 ^ 32 - 1 -> okx (adj p d a) (adj p d b) (put_tag p y w).
Proof.
  intros Hok Hx En Ec H0 Hs1 Hs2. assert (forall q z, w_tags (put_tag p y w) !! q = Some z -> (q = p /\ z = y) \/ (q <> p /\ w_tags w !! q = Some z)) as Hl.
  { intros q z. simpl. destruct (decide (q = p)) as [->|Hne]; [rewrite lookup_insert_eq; intros [= <-]; by left|rewrite lookup_insert_ne by done; by right]. }
  split.
  - intros i n Hi. destruct (x_list _ _ _ Hok i n Hi) as (ps & Hp). exists ps. by eapply path_put_tag.
  - intros q z [[-> ->]|[_ Hz]]%Hl.
    + rewrite En. destruct (x_node _ _ _ Hok _ _ Hx) as (ps & Hp). exists ps. by eapply path_put_tag.
    + destruct (x_node _ _ _ Hok _ _ Hz) as (ps & Hp). exists ps. by eapply path_put_tag.
  - intros q z Hz. rewrite (refs_put_tag w p x y q Hx), En, adj_eq. apply Hl in Hz as [[-> ->]|[Hne Hz]].
    + rewrite Ec, (x_count _ _ _ Hok _ _ Hx). unfold points at 3. rewrite bool_decide_eq_true_2 by done. simpl. lia.
    + rewrite (x_count _ _ _ Hok _ _ Hz). unfold points at 3. rewrite bool_decide_eq_false_2 by congruence. simpl. lia.
  - intros q z [[-> ->]|[Hne Hz]]%Hl; unfold adj.
    + rewrite decide_True by done. pose proof (x_range _ _ _ Hok _ _ Hx). lia.
    + rewrite decide_False by done. pose proof (x_range _ _ _ Hok _ _ Hz). lia.
  - intros q z [[-> ->]|[Hne Hz]]%Hl; [done|]. by apply (x_data _ _ _ Hok q).
  - intros q z [[-> ->]|[Hne Hz]]%Hl; [by eapply (x_new _ _ _ Hok)|by eapply (x_new _ _ _ Hok)].
Qed.

Lemma modify_run p f w x : w_tags w !! p = Some x -> modify p f w = Ok (tt, put_tag p (f x) w).
Proof. intros Hx. unfold modify, load, store, mbind, st_bind. by rewrite Hx. Qed.
Lemma load_run p w x : w_tags w !! p = Some x -> load p w = Ok (x, w).
Proof. intros Hx. unfold load. by rewrite Hx. Qed.

Lemma merge_ok a b w p x : okx a b w -> w_tags w !! p = Some x -> b p + 1 < 2 ^ 32 ->
  let w' := put_tag p (set_count (count x + 1) x) w in merge p w = Ok (tt, w') /\ okx (adj p 1 a) (adj p 1 b) w'.
Proof.
  intros Hok Hx Hb. cbv zeta. pose proof (x_range _ _ _ Hok _ _ Hx). unfold merge. rewrite (modify_run _ _ _ _ Hx).
  rewrite (wrap_small 32) by (unfold in_range; lia). split; [done|]. eapply okx_put_tag; [done|done|done|done|simpl; lia|..]; apply (x_data _ _ _ Hok p x Hx).
Qed.
Lemma unmerge_ok a b w p x : okx a b w -> w_tags w !! p = Some x -> 1 <= count x -> b p < 2 ^ 32 ->
  let w' := put_tag p (set_count (count x - 1) x) w in unmerge p w = Ok (tt, w') /\ okx (adj p (-1) a) (adj p (-1) b) w'.
Proof.
  intros Hok Hx Hc Hb. cbv zeta. pose proof (x_range _ _ _ Hok _ _ Hx). unfold unmerge. rewrite (modify_run _ _ _ _ Hx).
  rewrite (wrap_small 32) by (unfold in_range; lia). split; [done|]. eapply okx_put_tag; [done|done|done|done|simpl; lia|..]; apply (x_data _ _ _ Hok p x Hx).
Qed.

(** *** Pointers *)

(** The list [i] reaches the value [v] through the nodes [ps], which no other pointer shares. *)
Fixpoint seg (m : gmap nat TagData) (n : option nat) (ps : list nat) (v : option nat) : Prop :=
  match ps with
  | [] => n = v
  | p :: ps => n = Some p /\ exists x, m !! p = Some x /\ count x = 1 /\ seg m (next x) ps v
  end.
Definition owned (w : World) (i : nat) (ps : list nat) (v : option nat) : Prop :=
  exists n, w_lists w !! i = Some n /\ seg (w_tags w) n ps v.
Definition slot_of (ps : list nat) : slot := match last ps with Some p => Next p | None => Head end.

Lemma seg_path m ps : forall n v qs, seg m n ps v -> path m n qs -> exists qs', qs = ps ++ qs' /\ path m v qs'.
Proof.
  induction ps as [|p ps IH]; intros n v qs; simpl; [intros -> H; by exists qs|].
  intros (-> & x & Hx & _ & Hs) Hp. destruct qs as [|q qs]; [by inversion Hp|]. destruct Hp as ([= <-] & y & Hy & Hp).
  simplify_eq. destruct (IH _ _ _ Hs Hp) as (qs' & -> & H). by exists qs'.
Qed.
Lemma seg_app m ps : forall n v qs, seg m n ps v -> path m v qs -> path m n (ps ++ qs).
Proof.
  induction ps as [|p ps IH]; intros n v qs; simpl; [by intros ->|].
  intros (-> & x & Hx & _ & Hs) Hp. split; [done|]. exists x. split; [done|]. by eapply IH.
Qed.
Lemma seg_snoc m ps p x : forall n, seg m n ps (Some p) -> m !! p = Some x -> count x = 1 -> seg m n (ps ++ [p]) (next x).
Proof.
  induction ps as [|q ps IH]; intros n; simpl; [intros -> Hp Hc; split; [done|by exists x]|].
  intros (-> & y & Hy & Hc' & Hs) Hp Hc. split; [done|]. exists y. eauto.
Qed.
Lemma seg_split m ps p : forall n v, seg m n (ps ++ [p]) v -> seg m n ps (Some p) /\ exists x, m !! p = Some x /\ count x = 1 /\ next x = v.
Proof.
  induction ps as [|q ps IH]; intros n v; simpl; [by intros (-> & x & Hx & Hc & <-); eauto|].
  intros (-> & y & Hy & Hc & Hs). destruct (IH _ _ Hs) as [H1 H2]. split; [|done]. split; [done|]. by exists y.
Qed.
Lemma seg_ext m m' ps : forall n v, (forall p, p ∈ ps -> m !! p = m' !! p) -> seg m n ps v -> seg m' n ps v.
Proof.
  induction ps as [|p ps IH]; intros n v He; [done|]. intros (-> & x & Hx & Hc & Hs). split; [done|].
  exists x. rewrite <- He by (by left). split; [done|]. split; [done|]. apply IH; [|done]. intros q Hq. apply He. by right.
Qed.
Lemma slot_of_snoc ps p : slot_of (ps ++ [p]) = Next p.
Proof. unfold slot_of. by rewrite last_snoc. Qed.

(** What [set_slot] writes *)
Definition put_slot (i : nat) (s : slot) (n : option nat) (w : World) : World :=
  match s with
  | Head => with_lists (<[i := n]> (w_lists w)) w
  | Next p => with_tags (alter (set_next n) p (w_tags w)) w
  end.

Lemma snoc_cases {A} (l : list A) : l = [] \/ exists l' x, l = l' ++ [x].
Proof. destruct l as [|x l _] using rev_ind; [by left|right; eauto]. Qed.

Section relink.
Context (w : World) (i : nat) (ps : list nat) (v : option nat) (a b : nat -> Z).
Hypothesis Hok : okx a b w.
Hypothesis Hown : owned w i ps v.

Lemma owned_path : exists n qs, w_lists w !! i = Some n /\ path (w_tags w) n (ps ++ qs) /\ path (w_tags w) v qs.
Proof using Hok Hown.
  destruct Hown as (n & Hn & Hs). destruct (x_list _ _ _ Hok _ _ Hn) as (l & Hl).
  destruct (seg_path _ _ _ _ _ Hs Hl) as (qs & -> & Hq). by exists n, qs.
Qed.
(** The node whose [next] is the slot *)
Lemma slot_owner : match slot_of ps with
  | Head => w_lists w !! i = Some v
  | Next p => exists x ps', ps = ps' ++ [p] /\ w_tags w !! p = Some x /\ next x = v /\ count x = 1
  end.
Proof using Hown.
  destruct Hown as (n & Hn & Hs). destruct ps as [|p ps' _] using rev_ind.
  - simpl in Hs. by subst.
  - rewrite slot_of_snoc. apply seg_split in Hs as (_ & x & Hx & Hc & <-). by exists x, ps'.
Qed.

Lemma set_slot_run n : set_slot i (slot_of ps) n w = Ok (tt, put_slot i (slot_of ps) n w).
Proof using Hown.
  pose proof slot_owner as H. destruct (slot_of ps) as [|p]; [done|]. destruct H as (x & _ & _ & Hx & _).
  unfold set_slot. rewrite (modify_run _ _ _ _ Hx). unfold put_slot, put_tag. by rewrite (alter_at _ _ _ _ Hx).
Qed.
(** The new tail does not lead back into [ps]. *)
Context (n : option nat) (vs : list nat).
Hypothesis Hn : path (w_tags w) n vs.
Hypothesis Hav : forall p, p ∈ ps -> p ∉ vs.
Definition relinked : World := put_slot i (slot_of ps) n w.

Lemma put_slot_refs q : refs relinked q = refs w q - Z.b2z (points q v) + Z.b2z (points q n).
Proof using Hown.
  unfold relinked. pose proof slot_owner as H. destruct (slot_of ps) as [|p]; unfold refs; simpl.
  - rewrite (occ_insert _ _ _ _ _ H). lia.
  - destruct H as (x & _ & _ & Hx & <- & _).
    rewrite (alter_at _ _ _ _ Hx), (occ_insert _ _ _ _ _ Hx). simpl. lia.
Qed.
Lemma relinked_path m l : path (w_tags w) m l -> exists l', path (w_tags relinked) m l'.
Proof using Hown Hn Hav.
  intros Hl. unfold relinked. pose proof slot_owner as H. destruct (slot_of ps) as [|p]; [by exists l|].
  destruct H as (x & ps' & E & Hx & _ & _). simpl. rewrite (alter_at _ _ _ _ Hx).
  eapply path_redirect; [done|done| |done]. apply Hav. rewrite E. apply elem_of_app. right. by left.
Qed.
Lemma relinked_tags q : w_tags relinked !! q = (if decide (slot_of ps = Next q) then set_next n <$> w_tags w !! q else w_tags w !! q).
Proof using.
  unfold relinked. destruct (slot_of ps) as [|p]; [by rewrite decide_False|].
  destruct (decide (Next p = Next q)) as [[= ->]|Hne]; [apply lookup_alter_eq|]. apply lookup_alter_ne. congruence.
Qed.
Lemma relinked_lists j : w_lists relinked !! j = (if decide (slot_of ps = Head /\ j = i) then Some n else w_lists w !! j).
Proof using.
  unfold relinked. destruct (slot_of ps) as [|p].
  - destruct (decide (j = i)) as [->|Hne]; [rewrite decide_True by done; apply lookup_insert_eq|rewrite decide_False by (by intros [_ ?]); by apply lookup_insert_ne].
  - by rewrite decide_False by (by intros [? _]).
Qed.
Lemma relinked_okx : okx (adj_opt v 1 (adj_opt n (-1) a)) b relinked.
Proof using Hok Hown Hn Hav.
  assert (forall q y, w_tags relinked !! q = Some y -> exists x, w_tags w !! q = Some x /\ count y = count x /\ size y = size x /\ data y = data x /\
    (next y = next x \/ next y = n)) as Hl.
  { intros q y. rewrite relinked_tags. destruct (decide _); [|intros Hy; exists y; split; [done|]; do 3 (split; [done|]); by left].
    intros (x & Hx & ->)%fmap_Some. exists x. split; [done|]. do 3 (split; [done|]). by right. }
  split.
  - intros j m. rewrite relinked_lists. destruct (decide _) as [_|_]; [intros [= <-]; by apply (relinked_path n vs)|].
    intros Hj. destruct (x_list _ _ _ Hok _ _ Hj) as (l & H). by apply (relinked_path m l).
  - intros q y (x & Hx & _ & _ & _ & [->| ->])%Hl; [|by apply (relinked_path n vs)].
    destruct (x_node _ _ _ Hok _ _ Hx) as (l & H). by apply (relinked_path _ l).
  - intros q y (x & Hx & -> & _)%Hl. rewrite put_slot_refs, !adj_opt_eq, (x_count _ _ _ Hok _ _ Hx). lia.
  - intros q y (x & Hx & -> & _)%Hl. by apply (x_range _ _ _ Hok q).
  - intros q y (x & Hx & _ & -> & -> & _)%Hl. by apply (x_data _ _ _ Hok q).
  - intros q y (x & Hx & _)%Hl. assert (w_new relinked = w_new w) as -> by (unfold relinked; by destruct (slot_of ps)). by eapply (x_new _ _ _ Hok).
Qed.
Lemma relinked_owned : owned relinked i ps n.
Proof using Hok Hown.
  destruct owned_path as (h & qs & Hh & Hp & _). pose proof (path_nodup _ _ _ Hp) as Hnd.
  destruct Hown as (h' & Hh' & Hs). assert (h' = h) as -> by congruence.
  unfold owned. destruct (snoc_cases ps) as [E|(ps' & p & E)].
  - exists n. split; [|by rewrite E]. rewrite relinked_lists, decide_True; [done|]. by rewrite E.
  - assert (slot_of ps = Next p) as Es by (rewrite E; apply slot_of_snoc).
    exists h. rewrite relinked_lists, Es, decide_False by (by intros [? _]). split; [done|].
    rewrite E in Hs, Hnd |- *. apply seg_split in Hs as (Hs & x & Hx & Hc & _).
    assert (w_tags relinked !! p = Some (set_next n x)) as Hp'.
    { rewrite relinked_tags, Es, decide_True by done. by rewrite Hx. }
    change n with (next (set_next n x)). apply seg_snoc; [|done|done]. eapply seg_ext; [|done]. intros q Hq.
    rewrite relinked_tags, Es, decide_False; [done|]. intros [= ->].
    rewrite <- app_assoc in Hnd. apply NoDup_app in Hnd as (_ & H & _). apply (H q Hq). by left.
Qed.
End relink.

(** *** What the lists read *)

Lemma item_put_tag w p x y q : w_tags w !! p = Some x -> tid y = tid x -> data y = data x -> item (w_tags (put_tag p y w)) q = item (w_tags w) q.
Proof.
  intros Hx Et Ed. unfold item, put_tag. simpl. destruct (decide (q = p)) as [->|Hne]; [|by rewrite lookup_insert_ne].
  rewrite lookup_insert_eq, Hx. simpl. by rewrite Et, Ed.
Qed.

(** No other list comes to a node that is owned. *)
Lemma owned_excl a b w i j m l ps : okx a b w -> j <> i -> w_lists w !! j = Some m -> path (w_tags w) m l ->
  forall v, owned w i ps v -> (forall p, p ∈ ps -> a p = 0) -> forall p, p ∈ ps -> p ∉ l.
Proof.
  intros Hok Hne Hj Hl. induction ps as [|p ps IH] using rev_ind; intros v Hown Ha q Hq; [by apply elem_of_nil in Hq|].
  destruct Hown as (h & Hh & Hs). apply seg_split in Hs as (Hs & x & Hx & Hc & _).
  assert (owned w i ps (Some p)) as Ho by (by exists h).
  assert (forall q, q ∈ ps -> q ∉ l) as IHp by (eapply IH; [done|]; intros r Hr; apply Ha, elem_of_app; by left).
  apply elem_of_app in Hq as [Hq|Hq%list_elem_of_singleton]; [by apply IHp|]. subst q.
  pose proof (x_count _ _ _ Hok _ _ Hx) as Hr. rewrite (Ha p), Hc in Hr by (apply elem_of_app; right; by left). unfold refs in Hr.
  intros (l1 & l2 & ->)%list_elem_of_split.
  assert (points p (Some p) = true) as Hpp by (unfold points; by apply bool_decide_eq_true_2).
  pose proof (occ_nonneg (points p) (w_lists w)). pose proof (occ_nonneg (fun x => points p (next x)) (w_tags w)).
  pose proof (slot_owner _ _ _ _ Ho) as Hso.
  destruct l1 as [|r l1 _] using rev_ind.
  - destruct Hl as (-> & _). pose proof (occ_pos (points p) _ _ _ Hj Hpp). destruct (slot_of ps) as [|r].
    + pose proof (occ_two (points p) _ _ _ _ _ Hne Hj Hpp Hso Hpp). lia.
    + destruct Hso as (y & ps' & -> & Hy & Ey & _). pose proof (occ_pos (fun x => points p (next x)) _ _ _ Hy ltac:(cbn beta; by rewrite Ey)). lia.
  - rewrite <- app_assoc in Hl. destruct (path_split _ _ _ _ _ Hl) as (z & Hz & Hz2 & _).
    pose proof (occ_pos (fun x => points p (next x)) _ _ _ Hz ltac:(cbn beta; by rewrite Hz2)). destruct (slot_of ps) as [|r'].
    + pose proof (occ_pos (points p) _ _ _ Hso Hpp). lia.
    + destruct Hso as (y & ps' & -> & Hy & Ey & _). destruct (decide (r' = r)) as [->|Hrr].
      * apply (IHp r); apply elem_of_app; [right; by left|left; apply elem_of_app; right; by left].
      * pose proof (occ_two (fun x => points p (next x)) _ _ _ _ _ Hrr Hy ltac:(cbn beta; by rewrite Ey) Hz ltac:(cbn beta; by rewrite Hz2)). lia.
Qed.

Lemma slot_in ps p : slot_of ps = Next p -> p ∈ ps.
Proof.
  destruct (snoc_cases ps) as [->|(ps' & q & ->)]; [done|]. rewrite slot_of_snoc. intros [= ->]. apply elem_of_app. right. by left.
Qed.

Section relink_reads.
Context (w : World) (i : nat) (ps : list nat) (v n : option nat) (vs : list nat) (a b : nat -> Z).
Hypothesis Hok : okx a b w.
Hypothesis Hown : owned w i ps v.
Hypothesis Hn : path (w_tags w) n vs.
Hypothesis Hav : forall p, p ∈ ps -> p ∉ vs.
Hypothesis Ha : forall p, p ∈ ps -> a p = 0.
Let w' := relinked w i ps n.

Lemma relinked_item q : item (w_tags w') q = item (w_tags w) q.
Proof using.
  unfold item, w'. rewrite relinked_tags. destruct (decide _); [|done]. by destruct (w_tags w !! q).
Qed.
Lemma relinked_reads_other j m cs : j <> i -> w_lists w !! j = Some m -> reads (w_tags w) m cs ->
  w_lists w' !! j = Some m /\ reads (w_tags w') m cs.
Proof using Hok Hown Ha.
  intros Hj Hm (l & Hl & <-). split; [unfold w'; by rewrite relinked_lists, decide_False by (by intros [_ ?])|].
  exists l. split; [|apply list_fmap_ext; intros k q _; by rewrite relinked_item].
  eapply path_avoid; [|done]. intros q Hq. unfold w'. rewrite relinked_tags, decide_False; [done|]. intros E%slot_in.
  by apply (owned_excl _ _ _ _ _ _ _ _ Hok Hj Hm Hl _ Hown Ha _ E).
Qed.
Lemma relinked_reads_self : exists m, w_lists w' !! i = Some m /\ path (w_tags w') m (ps ++ vs) /\
  reads (w_tags w') m ((item (w_tags w) <$> ps) ++ (item (w_tags w) <$> vs)).
Proof using Hok Hown Hn Hav.
  destruct (relinked_owned _ _ _ _ _ _ Hok Hown n) as (m & Hm & Hs). exists m. split; [done|].
  assert (path (w_tags w') m (ps ++ vs)) as Hp.
  { eapply seg_app; [done|]. eapply path_avoid; [|done]. intros q Hq. unfold w'. rewrite relinked_tags, decide_False; [done|].
    intros E%slot_in. by apply (Hav q). }
  split; [done|]. exists (ps ++ vs). split; [done|]. rewrite <- fmap_app. apply list_fmap_ext. intros k q _. by rewrite relinked_item.
Qed.
End relink_reads.

(** A node is allocated and filled. *)
Definition new_tag (x : TagData) (w : World) : World :=
  mkWorld (<[w_new w := x]> (w_tags w)) (S (w_new w)) (w_fresh w) (w_lists w).
Lemma create_run {A} sz y (k : nat -> M A) w : sz < 2 ^ 32 - 1 ->
  (copy ← CreateTagData sz; _ ← store copy y; k copy) w = k (w_new w) (new_tag y w).
Proof.
  intros Hs. unfold CreateTagData, store, mbind, st_bind. rewrite (proj2 (Z.ltb_lt _ _)) by done. simpl.
  unfold new_tag, with_tags. simpl. by rewrite insert_insert_eq.
Qed.
Section new_tag.
Context (w : World) (x : TagData) (vs : list nat) (a b : nat -> Z).
Hypothesis Hok : okx a b w.
Hypothesis Hp : path (w_tags w) (next x) vs.
Lemma fresh_tag : w_tags w !! w_new w = None.
Proof using Hok. destruct (w_tags w !! w_new w) as [y|] eqn:E; [|done]. pose proof (x_new _ _ _ Hok _ _ E). lia. Qed.
Lemma new_tag_same q : is_Some (w_tags w !! q) -> w_tags w !! q = w_tags (new_tag x w) !! q.
Proof using Hok.
  intros [y Hy]. simpl. rewrite lookup_insert_ne; [done|]. intros <-. rewrite fresh_tag in Hy. done.
Qed.
Lemma path_live m n l q : path m n l -> q ∈ l -> is_Some (m !! q).
Proof using.
  intros Hl (l1 & l2 & ->)%list_elem_of_split. destruct (path_split _ _ _ _ _ Hl) as (y & Hy & _). by eexists.
Qed.
Lemma new_tag_path n l : path (w_tags w) n l -> path (w_tags (new_tag x w)) n l.
Proof using Hok. intros Hl. eapply path_avoid; [|done]. intros q Hq. apply new_tag_same. by eapply path_live. Qed.
Lemma new_tag_reads n cs : reads (w_tags w) n cs -> reads (w_tags (new_tag x w)) n cs.
Proof using Hok.
  intros (l & Hl & <-). exists l. split; [by apply new_tag_path|]. symmetry. apply items_avoid. intros q Hq. apply new_tag_same. by eapply path_live.
Qed.
Lemma new_tag_okx : a (w_new w) = 1 -> 1 <= b (w_new w) -> count x = 1 -> size x = Z.of_nat (length (data x)) -> size x < 2 ^ 32 - 1 ->
  okx (adj_opt (next x) (-1) a) b (new_tag x w).
Proof using Hok Hp.
  intros Ha Hb Hc Hs1 Hs2.
  assert (forall q z, w_tags (new_tag x w) !! q = Some z -> (q = w_new w /\ z = x) \/ (q <> w_new w /\ w_tags w !! q = Some z)) as Hl.
  { intros q z. simpl. destruct (decide (q = w_new w)) as [->|Hne]; [rewrite lookup_insert_eq; intros [= <-]; by left|rewrite lookup_insert_ne by done; by right]. }
  assert (forall q, refs (new_tag x w) q = refs w q + Z.b2z (points q (next x))) as Hr.
  { intros q. unfold refs. simpl. rewrite occ_insert_new by apply fresh_tag. lia. }
  split.
  - intros j m Hj. destruct (x_list _ _ _ Hok j m Hj) as (l & H). exists l. by apply new_tag_path.
  - intros q z [[-> ->]|[_ Hz]]%Hl; [exists vs; by apply new_tag_path|].
    destruct (x_node _ _ _ Hok _ _ Hz) as (l & H). exists l. by apply new_tag_path.
  - intros q z Hz. rewrite Hr, adj_opt_eq. apply Hl in Hz as [[-> ->]|[_ Hz]].
    + rewrite (no_refs _ _ _ _ Hok fresh_tag), Hc, Ha. lia.
    + rewrite (x_count _ _ _ Hok _ _ Hz). lia.
  - intros q z [[-> ->]|[_ Hz]]%Hl; [lia|by apply (x_range _ _ _ Hok q)].
  - intros q z [[-> ->]|[_ Hz]]%Hl; [done|by apply (x_data _ _ _ Hok q)].
  - intros q z [[-> ->]|[_ Hz]]%Hl; simpl; [lia|]. pose proof (x_new _ _ _ Hok _ _ Hz). lia.
Qed.
Lemma new_tag_owned i ps v : owned w i ps v -> owned (new_tag x w) i ps v.
Proof using Hok.
  intros Ho. destruct (owned_path _ _ _ _ _ _ Hok Ho) as (m & qs & Hm & Hl & _). destruct Ho as (m' & Hm' & Hs).
  assert (m' = m) as -> by congruence. exists m. split; [done|]. eapply seg_ext; [|done]. intros q Hq. apply new_tag_same.
  eapply path_live; [done|]. apply elem_of_app. by left.
Qed.
End new_tag.

Lemma item_new_tag w x q : q <> w_new w -> item (w_tags (new_tag x w)) q = item (w_tags w) q.
Proof. intros Hq. unfold item. simpl. by rewrite lookup_insert_ne. Qed.
(** A node's count changes; the nodes that are owned are others. *)
Lemma put_tag_owned w p y i ps v : p ∉ ps -> owned w i ps v -> owned (put_tag p y w) i ps v.
Proof.
  intros Hp (m & Hm & Hs). exists m. split; [done|]. eapply seg_ext; [|done]. intros q Hq. simpl. rewrite lookup_insert_ne; [done|]. by intros ->.
Qed.

(** ** Freeing a node *)

Definition del_tag (c : nat) (w : World) : World := with_tags (delete c (w_tags w)) w.
Section del.
Context (w : World) (c : nat) (x : TagData) (a b : nat -> Z).
Hypothesis Hok : okx a b w.
Hypothesis Hx : w_tags w !! c = Some x.
Hypothesis Hr : refs w c = 0.

Lemma free_run : free c w = Ok (tt, del_tag c w).
Proof using Hx. unfold free. by rewrite (run_bind _ _ _ _ _ (load_run _ _ _ Hx)). Qed.
Lemma unreferenced : (forall j, w_lists w !! j <> Some (Some c)) /\ forall q z, w_tags w !! q = Some z -> next z <> Some c.
Proof using Hr.
  pose proof (occ_nonneg (points c) (w_lists w)). pose proof (occ_nonneg (fun z => points c (next z)) (w_tags w)). unfold refs in Hr.
  assert (points c (Some c) = true) as Hcc by (rewrite points_some; by apply bool_decide_eq_true_2). split.
  - intros j Hj. pose proof (occ_pos (points c) _ _ _ Hj Hcc). lia.
  - intros q z Hz E. pose proof (occ_pos (fun z => points c (next z)) _ _ _ Hz ltac:(cbn beta; by rewrite E)). lia.
Qed.
Lemma del_path : forall l n, n <> Some c -> path (w_tags w) n l -> path (w_tags (del_tag c w)) n l /\ c ∉ l.
Proof using Hr.
  destruct unreferenced as [_ Hu]. induction l as [|q l IH]; intros n Hn; [intros H; split; [done|by apply not_elem_of_nil]|].
  intros (-> & z & Hz & Hl). destruct (IH _ (Hu _ _ Hz) Hl) as [H1 H2]. assert (q <> c) as Hqc by (by intros ->). split.
  - split; [done|]. exists z. simpl. by rewrite lookup_delete_ne.
  - by apply not_elem_of_cons.
Qed.
Lemma del_reads n cs : n <> Some c -> reads (w_tags w) n cs -> reads (w_tags (del_tag c w)) n cs.
Proof using Hr.
  clear Hok Hx. intros Hn (l & Hl & <-). destruct (del_path l n Hn Hl) as [H1 H2]. exists l. split; [done|]. symmetry. apply items_avoid.
  intros q Hq. simpl. rewrite lookup_delete_ne; [done|]. by intros ->.
Qed.
Lemma del_okx : okx (adj_opt (next x) 1 a) b (del_tag c w).
Proof using Hok Hx Hr.
  destruct unreferenced as [Hu1 Hu2].
  assert (forall q z, w_tags (del_tag c w) !! q = Some z -> q <> c /\ w_tags w !! q = Some z) as Hl.
  { intros q z. simpl. rewrite lookup_delete_Some. intros [? ?]. done. }
  split.
  - intros j m Hj. destruct (x_list _ _ _ Hok j m Hj) as (l & Hp). exists l. apply del_path; [|done]. intros ->. by apply (Hu1 j).
  - intros q z [Hq Hz]%Hl. destruct (x_node _ _ _ Hok _ _ Hz) as (l & Hp). exists l. apply del_path; [by eapply Hu2|done].
  - intros q z [Hq Hz]%Hl. rewrite adj_opt_eq, (x_count _ _ _ Hok _ _ Hz). unfold refs. simpl. rewrite (occ_delete _ _ _ _ Hx). lia.
  - intros q z [Hq Hz]%Hl. by apply (x_range _ _ _ Hok q).
  - intros q z [Hq Hz]%Hl. by apply (x_data _ _ _ Hok q).
  - intros q z [Hq Hz]%Hl. by eapply (x_new _ _ _ Hok).
Qed.
End del.
