(* ===== verification/PacketTagListSpec.v ===== *)
(** * The tag lists of packets are independent lists

    Each operation of [PacketTagList] does to its list what it would do to an
    association list, and nothing to the others: the copying of [COWTraverse]
    keeps what every list reads, and the writer then acts on nodes which only its
    own list reaches ([owned]). *)

From S2P Require Import Prelude Bytes.
From S2P Require Buffer BufferSpec BufferRefine.
From S2P Require Import PacketTagList PacketTagHeap.
Import Buffer (put, get, get_u32, pad4, slice, splice).
Import BufferSpec (limit, length_splice, slice_splice_apart, slice_splice_in, slice_all).
Import BufferRefine (pad4_eq, put_ok, get_ok, get_u32_ok).

(** ** Copying up to a tag *)

Definition zero : nat -> Z := fun _ => 0.
Definition positive (w : World) : Prop := forall p x, w_tags w !! p = Some x -> 1 <= count x.
(** What every list reads is the same in [w']. *)
Definition keeps (w w' : World) : Prop := forall j, match w_lists w !! j with
  | Some m => exists m', w_lists w' !! j = Some m' /\ forall cs, reads (w_tags w) m cs -> reads (w_tags w') m' cs
  | None => w_lists w' !! j = None
  end.

Lemma keeps_refl w : keeps w w.
Proof. intros j. destruct (w_lists w !! j); eauto. Qed.
Lemma tags_keeps_trans w1 w2 w3 : keeps w1 w2 -> keeps w2 w3 -> keeps w1 w3.
Proof.
  intros H1 H2 j. specialize (H1 j). specialize (H2 j). destruct (w_lists w1 !! j); [|by rewrite H1 in H2].
  destruct H1 as (m & Hm & H1). rewrite Hm in H2. destruct H2 as (m' & Hm' & H2). exists m'. eauto.
Qed.
Lemma positive_put_tag w p y : positive w -> 1 <= count y -> positive (put_tag p y w).
Proof. intros Hp Hy q z. simpl. intros [[<- <-]|[_ Hz]]%lookup_insert_Some; [done|by apply (Hp q)]. Qed.
Lemma positive_new_tag w y : positive w -> 1 <= count y -> positive (new_tag y w).
Proof. intros Hp Hy q z. simpl. intros [[<- <-]|[_ Hz]]%lookup_insert_Some; [done|by apply (Hp q)]. Qed.
Lemma positive_relinked w i ps n : positive w -> positive (relinked w i ps n).
Proof.
  intros Hp q z. rewrite relinked_tags. destruct (decide _); [|by apply Hp]. intros (x & Hx & ->)%fmap_Some. exact (Hp q x Hx).
Qed.
Lemma reads_path m n qs : path m n qs -> reads m n (item m <$> qs).
Proof. intros H. by exists qs. Qed.

Definition shared (w : World) (c : nat) : Prop := exists x, w_tags w !! c = Some x /\ 1 < count x.
Lemma reads_of m m' n cs : (forall q, item m' q = item m q) -> (forall l, path m n l -> path m' n l) -> reads m n cs -> reads m' n cs.
Proof. intros Hi Hp (l & Hl & <-). exists l. split; [by apply Hp|]. by apply list_fmap_ext. Qed.

Lemma merge_opt_ok a b w n vs : okx a b w -> positive w -> path (w_tags w) n vs -> (forall p, n = Some p -> b p + 1 < 2 ^ 32) ->
  exists w', merge_opt n w = Ok (tt, w') /\ okx (adj_opt n 1 a) (adj_opt n 1 b) w' /\ positive w' /\
    w_lists w' = w_lists w /\ w_new w' = w_new w /\ (forall q, n <> Some q -> w_tags w' !! q = w_tags w !! q) /\
    (forall q, item (w_tags w') q = item (w_tags w) q) /\ (forall m l, path (w_tags w) m l -> path (w_tags w') m l) /\
    (forall q, n = Some q -> shared w' q).
Proof.
  intros Hok Hpos Hp Hb. destruct n as [n|]; [|by exists w].
  assert (exists z, w_tags w !! n = Some z) as (z & Hz) by (apply path_head in Hp; by destruct Hp as [z Hz]; exists z).
  destruct (merge_ok _ _ _ _ _ Hok Hz (Hb n eq_refl)) as [E O]. eexists. split; [exact E|]. split; [exact O|].
  pose proof (Hpos _ _ Hz). split; [apply positive_put_tag; [done|simpl; lia]|]. split; [done|]. split; [done|].
  split; [intros q Hq; simpl; apply lookup_insert_ne; congruence|]. split; [intros q; by apply (item_put_tag w n z)|].
  split; [intros m l; by apply (path_put_tag w n z)|]. intros q [= <-]. eexists. split; [apply lookup_insert_eq|]. simpl. lia.
Qed.

(** A node [c] that is shared is copied for the list [i], perhaps with another tag: the
    list goes through the copy [y], the others through [c]. *)
Section fork.
Context (k : Z) (w : World) (i : nat) (ps : list nat) (c : nat) (x y : TagData).
Hypothesis Hok : okx zero (adj c 1 (fun _ => k)) w.
Hypothesis Hpos : positive w.
Hypothesis Hk : 1 <= k < 2 ^ 32 - 2.
Hypothesis Hown : owned w i ps (Some c).
Hypothesis Hx : w_tags w !! c = Some x.
Hypothesis Hc : 1 < count x.
Hypothesis Hyn : next y = next x.
Hypothesis Hyc : count y = 1.
Hypothesis Hys : size y = Z.of_nat (length (data y)) /\ size y < 2 ^ 32 - 1.

Let p := w_new w.

Lemma tail_path : exists m qs, w_lists w !! i = Some m /\ path (w_tags w) m (ps ++ c :: qs) /\ path (w_tags w) (next x) qs.
Proof using Hok Hown Hx.
  destruct (owned_path _ _ _ _ _ _ Hok Hown) as (m & qs & Hm & Hp & Hq).
  destruct qs as [|c' qs]; [done|]. destruct Hq as ([= <-] & x' & Hx' & Hq). assert (x' = x) as -> by congruence. by exists m, qs.
Qed.
(** The copy is made and shares the tail; the list does not have it yet. *)
Definition pending (q : nat) : Z := if decide (q = p) then 1 else adj c (-1) zero q.
Record copied (w3 : World) (qs : list nat) : Prop := {
  c_ok : okx (adj_opt (next x) 1 (adj_opt (next x) (-1) pending)) (adj_opt (next x) 1 (adj c (-1) (adj c 1 (fun _ => k)))) w3;
  c_positive : positive w3;
  c_owned : owned w3 i ps (Some c);
  c_copy : w_tags w3 !! p = Some y;
  c_tail : path (w_tags w) (next x) qs /\ path (w_tags w3) (next x) qs;
  c_apart : (c ∉ ps) /\ (p ∉ ps) /\ forall q, q ∈ ps -> q ∉ qs;
  c_lists : w_lists w3 = w_lists w;
  c_reads n cs : reads (w_tags w) n cs -> reads (w_tags w3) n cs;
  c_items q : q <> p -> item (w_tags w3) q = item (w_tags w) q;
  c_shared q : next x = Some q -> q ∈ qs /\ shared w3 q
}.
Lemma fork_copied : exists w1 w3 qs, unmerge c w = Ok (tt, w1) /\ w_new w1 = p /\ w_tags w1 !! c = Some (set_count (count x - 1) x) /\
  merge_opt (next x) (new_tag y w1) = Ok (tt, w3) /\ copied w3 qs.
Proof using Hok Hpos Hk Hown Hx Hc Hyn Hyc Hys.
  destruct tail_path as (m & qs & Hm & Hp & Hq). pose proof (path_nodup _ _ _ Hp) as Hnd.
  assert ((c ∉ ps) /\ (forall q, q ∈ ps -> q ∉ c :: qs) /\ c ∉ qs) as (Hcps & Hdis & Hcq).
  { apply NoDup_app in Hnd as (_ & H & H'). split; [intros Hin; apply (H c Hin); by left|]. apply NoDup_cons in H' as [H' _]. done. }
  destruct (unmerge_ok _ _ _ _ _ Hok Hx ltac:(lia)) as [E1 O1]; [unfold adj; rewrite decide_True by done; lia|].
  set (w1 := put_tag c (set_count (count x - 1) x) w) in *. set (w2 := new_tag y w1).
  assert (path (w_tags w1) (next y) qs) as P1 by (rewrite Hyn; by eapply (path_put_tag w c x)).
  assert (forall q, is_Some (w_tags w !! q) -> q <> p) as Hlive.
  { intros q [z Hz] ->. pose proof (x_new _ _ _ Hok _ _ Hz). unfold p in *. lia. }
  assert (p <> c /\ (p ∉ ps) /\ p ∉ qs) as (Hpc & Hpps & Hpq).
  { split; [intros Epc; apply (Hlive c); [by eexists|done]|]. split; intros Hin; (eapply Hlive; [|reflexivity]).
    - eapply path_live; [exact Hp|apply elem_of_app; by left].
    - by eapply path_live. }
  assert (okx pending (adj c (-1) (adj c 1 (fun _ => k))) w1) as O1'.
  { eapply okx_weaken; [exact O1|]. intros q z Hz. split; [|done]. unfold pending. destruct (decide (q = p)) as [->|]; [|done].
    pose proof (x_new _ _ _ O1 _ _ Hz). unfold p in *. simpl in *. lia. }
  assert (okx (adj_opt (next y) (-1) pending) (adj c (-1) (adj c 1 (fun _ => k))) w2) as O2.
  { apply (new_tag_okx w1 y qs); [done|done| | |done|apply Hys..].
    - unfold pending. by rewrite decide_True.
    - change (w_new w1) with p. unfold adj. rewrite !decide_False by done. lia. }
  assert (path (w_tags w2) (next x) qs) as P2 by (rewrite <- Hyn; by apply (new_tag_path w1 y _ _ O1)).
  assert (positive w2) as Hpos2 by (apply positive_new_tag; [|lia]; apply positive_put_tag; [done|simpl; lia]).
  destruct (merge_opt_ok _ _ _ _ _ O2 Hpos2 P2) as (w3 & E3 & O3 & Hpos3 & L3 & _ & T3 & I3 & K3 & S3); [intros; unfold adj; repeat case_decide; lia|].
  assert (forall q, next x = Some q -> q ∈ qs) as Hnq by (intros q E; rewrite E in Hq; destruct qs; [done|]; destruct Hq as ([= <-] & _); by left).
  assert (forall q, q ∈ ps -> q ∉ qs) as Hqps by (intros q Hq1 Hq2; apply (Hdis q Hq1); by right).
  exists w1, w3, qs. do 2 (split; [done|]). split; [apply lookup_insert_eq|]. split; [done|]. rewrite Hyn in O3. split; try done.
  - assert (owned w2 i ps (Some c)) as (m2 & Hm2 & Hs2) by (eapply new_tag_owned; [exact O1|]; by apply put_tag_owned).
    exists m2. rewrite L3. split; [done|]. eapply seg_ext; [|done]. intros q Hin. rewrite T3; [done|]. intros E. by apply (Hqps q); [|apply Hnq].
  - rewrite T3; [apply (lookup_insert_eq (w_tags w1))|]. intros E. apply Hpq. by apply Hnq.
  - split; [done|by apply K3].
  - intros n cs Hr. eapply reads_of; [exact I3|apply K3|]. apply new_tag_reads with (1 := O1). by apply (reads_put_tag w c x).
  - intros q Hqp. rewrite I3. unfold w2. rewrite item_new_tag by done. by apply (item_put_tag w c x).
  - intros q E. split; [by apply Hnq|by apply S3].
Qed.
Lemma fork_ok : exists w1 w3 w',
  unmerge c w = Ok (tt, w1) /\ w_new w1 = p /\ w_tags w1 !! c = Some (set_count (count x - 1) x) /\
  merge_opt (next x) (new_tag y w1) = Ok (tt, w3) /\
  set_slot i (slot_of ps) (Some p) w3 = Ok (tt, w') /\ okx zero (adj_opt (next x) 1 (fun _ => k)) w' /\ positive w' /\
  owned w' i (ps ++ [p]) (next x) /\ (forall n, next x = Some n -> shared w' n) /\
  (forall j m, j <> i -> w_lists w !! j = Some m -> w_lists w' !! j = Some m /\ forall cs, reads (w_tags w) m cs -> reads (w_tags w') m cs) /\
  (forall j, w_lists w !! j = None -> w_lists w' !! j = None) /\
  (forall qs, path (w_tags w) (next x) qs -> path (w_tags w') (next x) qs /\ item (w_tags w') <$> qs = item (w_tags w) <$> qs) /\
  item (w_tags w') <$> (ps ++ [p]) = (item (w_tags w) <$> ps) ++ [(tid y, data y)].
Proof using Hok Hpos Hk Hown Hx Hc Hyn Hyc Hys.
  destruct fork_copied as (w1 & w3 & qs & E1 & N1 & T1 & E3 & [O3 Hpos3 Ho3 Hp3 [Hq Hq3] (Hcps & Hpps & Hqps) L3 R3 I3 S3]).
  assert (path (w_tags w3) (Some p) (p :: qs)) as P3 by (split; [done|]; exists y; by rewrite Hyn).
  assert (forall q, q ∈ ps -> q ∉ p :: qs) as Hav3 by (intros q Hq' [->|Hin]%elem_of_cons; [done|by apply (Hqps q)]).
  assert (forall q, q ∈ ps -> adj_opt (next x) 1 (adj_opt (next x) (-1) pending) q = 0) as Ha3.
  { intros q Hq'. rewrite !adj_opt_eq. unfold pending. rewrite decide_False by (by intros ->).
    unfold adj. rewrite decide_False by (by intros ->). unfold zero. lia. }
  pose proof (relinked_okx w3 i ps (Some c) _ _ O3 Ho3 (Some p) _ P3 Hav3) as O4. set (w' := relinked w3 i ps (Some p)) in *. exists w1, w3, w'.
  assert (forall q, q ∉ ps -> w_tags w' !! q = w_tags w3 !! q) as Hout.
  { intros q Hqp. unfold w'. rewrite relinked_tags, decide_False; [done|]. by intros E%slot_in. }
  assert (forall q, q <> p -> item (w_tags w') q = item (w_tags w) q) as Hit by (intros q Hqp; unfold w'; rewrite relinked_item; by apply I3).
  do 4 (split; [done|]). split; [exact (set_slot_run _ _ _ _ Ho3 (Some p))|]. split; [|split; [|split; [|split; [|split; [|split; [|split]]]]]].
  - assert (p <> c) by (intros E; pose proof (x_new _ _ _ Hok _ _ Hx); unfold p in *; lia).
    eapply okx_weaken; [exact O4|]. intros q u Hu. rewrite !adj_opt_eq. unfold pending, adj, zero. rewrite !points_some.
    repeat case_decide; repeat case_bool_decide; simpl; lia || congruence.
  - by apply positive_relinked.
  - destruct (relinked_owned _ _ _ _ _ _ O3 Ho3 (Some p)) as (m' & Hm' & Hs'). exists m'. split; [done|].
    rewrite <- Hyn. apply (seg_snoc _ ps p y); [done| |done]. by rewrite Hout.
  - intros n En. destruct (S3 n En) as (Hin & z & Hz & Hcz). exists z. split; [|done]. rewrite Hout; [done|]. intros Hin'. by apply (Hqps n).
  - intros j mj Hji Hj. split; [unfold w'; by rewrite relinked_lists, L3, decide_False by (by intros [_ ?])|]. intros cs Hr.
    apply (relinked_reads_other w3 i ps (Some c) (Some p) _ _ O3 Ho3 Ha3 j mj cs Hji); [by rewrite L3|by apply R3].
  - intros j Hj. unfold w'. rewrite relinked_lists, L3, decide_False; [done|]. intros [_ ->]. destruct Hown as (m & Hm & _). by rewrite Hm in Hj.
  - intros l Hl. rewrite (path_unique _ _ _ _ Hl Hq). split.
    + eapply path_avoid; [|exact Hq3]. intros q Hin. rewrite Hout; [done|]. intros Hin'. by apply (Hqps q).
    + apply list_fmap_ext. intros r q Hq'%list_elem_of_lookup_2. apply Hit. intros ->. destruct (path_live _ _ _ _ Hq Hq') as [z Hz].
      pose proof (x_new _ _ _ Hok _ _ Hz). unfold p in *. lia.
  - rewrite fmap_app. f_equal.
    + apply list_fmap_ext. intros r q Hq'%list_elem_of_lookup_2. apply Hit. by intros ->.
    + cbn [fmap list_fmap]. unfold w'. rewrite relinked_item. unfold item. by rewrite Hp3.
Qed.
End fork.

(** What the list [i] reads, by the nodes that it owns and those behind them *)
Lemma owned_reads w i ps v qs : owned w i ps v -> path (w_tags w) v qs ->
  exists m, w_lists w !! i = Some m /\ reads (w_tags w) m ((item (w_tags w) <$> ps) ++ (item (w_tags w) <$> qs)).
Proof.
  intros (m & Hm & Hs) Hq. exists m. split; [done|]. exists (ps ++ qs). split; [by eapply seg_app|]. by rewrite fmap_app.
Qed.

Lemma item_tid w q x : w_tags w !! q = Some x -> (item (w_tags w) q).1 = tid x.
Proof. intros Hx. unfold item. by rewrite Hx. Qed.

Lemma copy_until_ok k i t tid' qs2 : 1 <= k < 2 ^ 32 - 2 -> forall qs1 fuel w ps c,
  okx zero (adj c 1 (fun _ => k)) w -> positive w -> owned w i ps (Some c) -> shared w c ->
  path (w_tags w) (Some c) (qs1 ++ t :: qs2) ->
  Forall (fun u => u.1 <> tid') (item (w_tags w) <$> ps ++ qs1) -> (item (w_tags w) t).1 = tid' -> (length qs1 <= fuel)%nat ->
  exists w' ps', copy_until fuel i tid' (slot_of ps) c w = Ok ((slot_of ps', t), w') /\ okx zero (adj t 1 (fun _ => k)) w' /\ positive w' /\
    owned w' i ps' (Some t) /\ shared w' t /\ keeps w w' /\ item (w_tags w') <$> ps' = item (w_tags w) <$> (ps ++ qs1) /\
    path (w_tags w') (Some t) (t :: qs2) /\ item (w_tags w') <$> (t :: qs2) = item (w_tags w) <$> (t :: qs2).
Proof.
  intros Hk. induction qs1 as [|q qs1 IH]; intros fuel w ps c Hok Hpos Hown (x & Hx & Hc) Hp Hne Ht Hf.
  - destruct Hp as ([= ->] & x' & Hx' & Hp). assert (x' = x) as -> by congruence.
    exists w, ps. rewrite app_nil_r. split; [|split; [done|split; [done|split; [done|split; [by exists x|split; [apply keeps_refl|split; [done|split; [|done]]]]]]]].
    + rewrite (item_tid _ _ _ Hx) in Ht.
      destruct fuel; cbn [copy_until]; by rewrite (run_bind _ _ _ _ _ (load_run _ _ _ Hx)), (proj2 (Z.eqb_eq _ _) Ht).
    + split; [done|]. by exists x.
  - destruct fuel as [|fuel]; [simpl in Hf; lia|]. destruct Hp as ([= <-] & x' & Hx' & Hp). assert (x' = x) as -> by congruence.
    assert (tid x <> tid') as Hxt.
    { rewrite fmap_app, Forall_app in Hne. destruct Hne as [_ Hne]. simpl in Hne. apply Forall_cons in Hne as [Hne _]. by rewrite <- (item_tid w c x). }
    destruct (next x) as [n|] eqn:Hn; [|destruct qs1; by destruct Hp].
    set (y := mkTagData (next x) 1 (tid x) (size x) (data x)).
    destruct (fork_ok k w i ps c x y) as (w1 & w3 & w2 & E1 & N1 & _ & E3 & E4 & O' & P' & Ho' & Hsh' & Kp & Kn & Hpath & Hit); [done..|exact (x_data _ _ _ Hok c x Hx)|].
    rewrite Hn in *. destruct (Hpath _ Hp) as [Hp' Hi'].
    assert (copy_until (S fuel) i tid' (slot_of ps) c w = copy_until fuel i tid' (slot_of (ps ++ [w_new w])) n w2) as ->.
    { cbn [copy_until]. rewrite (run_bind _ _ _ _ _ (load_run _ _ _ Hx)), (proj2 (Z.eqb_neq _ _)) by done.
      rewrite run_assert by (by apply Z.ltb_lt). rewrite (run_bind _ _ _ _ _ E1), create_run by (apply (x_data _ _ _ Hok c x Hx)). fold y. rewrite N1, Hn. cbn [deref].
      rewrite run_lifted. change (merge n) with (merge_opt (Some n)). by rewrite (run_bind _ _ _ _ _ E3), (run_bind _ _ _ _ _ E4), slot_of_snoc. }
    rewrite !fmap_app, !fmap_cons in Hi'. apply app_inj_1 in Hi' as [Hi1 Hi2]; [|by rewrite !length_fmap].
    assert (item (w_tags w2) <$> (ps ++ [w_new w]) ++ qs1 = item (w_tags w) <$> (ps ++ c :: qs1)) as Heq.
    { rewrite fmap_app, Hit, Hi1, <- app_assoc, fmap_app, fmap_cons. do 2 f_equal. unfold item. by rewrite Hx. }
    injection Hi2 as Hi2 Hi3.
    destruct (IH fuel w2 (ps ++ [w_new w]) n O' P' Ho' (Hsh' n eq_refl) Hp') as (w' & ps' & E2 & O2 & P2 & Ho2 & Hsh2 & K2 & Hi & Hp2 & Hi4); [by rewrite Heq|by rewrite Hi2|simpl in Hf; lia|].
    exists w', ps'. split; [done|]. split; [done|]. split; [done|]. split; [done|]. split; [done|].
    split; [|split; [by rewrite Hi, Heq|split; [done|]]].
    + eapply tags_keeps_trans; [|exact K2]. intros j. destruct (w_lists w !! j) as [mj|] eqn:Hj; [|by apply Kn].
      destruct (decide (j = i)) as [->|Hji].
      * destruct (owned_reads _ _ _ _ _ Ho' Hp') as (m' & Hm' & Hr'). exists m'. split; [done|]. intros cs (l & Hl & <-).
        destruct Hown as (mo & Hmo & Hso). assert (mo = mj) as -> by congruence.
        rewrite (path_unique _ _ _ (ps ++ c :: qs1 ++ t :: qs2) Hl); [|eapply seg_app; [done|]; split; [done|]; exists x; by rewrite Hn].
        replace (item (w_tags w) <$> ps ++ c :: qs1 ++ t :: qs2) with ((item (w_tags w2) <$> ps ++ [w_new w]) ++ (item (w_tags w2) <$> qs1 ++ t :: qs2)); [done|].
        rewrite app_comm_cons, (app_assoc ps), (fmap_app _ (ps ++ c :: qs1)), <- Heq, !fmap_app, !fmap_cons, Hi2, Hi3, !app_assoc. done.
      * exists mj. by apply Kp.
    + rewrite Hi4, !fmap_cons. by rewrite Hi2, Hi3.
Qed.

(** ** The traversal *)

Definition other (m : gmap nat TagData) (tid' : Z) (l : list nat) : Prop := Forall (fun p => (item m p).1 <> tid') l.

Lemma path_length m n ps : path m n ps -> (length ps <= base.size m)%nat.
Proof.
  intros H. pose proof (path_nodup _ _ _ H) as Hnd. rewrite <- size_dom, <- (size_list_to_set (C := gset nat)) by done.
  apply subseteq_size. intros p. rewrite elem_of_list_to_set, elem_of_dom. intros Hp. by eapply path_live.
Qed.
Lemma first_or_none m tid' l : other m tid' l \/ exists l1 t l2, l = l1 ++ t :: l2 /\ other m tid' l1 /\ (item m t).1 = tid'.
Proof.
  induction l as [|p l IH]; [left; constructor|]. destruct (decide ((item m p).1 = tid')) as [Hp|Hp].
  - right. exists [], p, l. split; [done|]. split; [constructor|done].
  - destruct IH as [H|(l1 & t & l2 & -> & H & Ht)]; [left; by constructor|]. right. exists (p :: l1), t, l2. split; [done|]. split; [by constructor|done].
Qed.
(** A prefix without the tag is before its first occurrence. *)
Lemma before_first m tid' (l1 l2 k1 k2 : list nat) t : l1 ++ t :: l2 = k1 ++ k2 -> (item m t).1 = tid' -> other m tid' k1 ->
  exists k, l1 = k1 ++ k /\ k2 = k ++ t :: l2.
Proof.
  intros E Ht Hk. apply app_eq_inv in E as [(k & -> & E)|(k & -> & E)].
  - by exists k.
  - destruct k as [|u k]; [exists []; by rewrite !app_nil_r|]. injection E as <- ->.
    apply Forall_app in Hk as [_ Hk]. by apply Forall_cons in Hk as [Hk _].
Qed.

Section seek.
Context (w : World) (i : nat) (tid' : Z).
Hypothesis Hpos : positive w.
Lemma seek_ok : forall qs fuel ps n, path (w_tags w) n qs -> owned w i ps n -> (length qs <= fuel)%nat ->
  exists l1 l2, qs = l1 ++ l2 /\ other (w_tags w) tid' l1 /\
    ((l2 = [] /\ seek fuel tid' (slot_of ps) n w = Ok ((slot_of (ps ++ l1), None, false), w)) \/
     (exists c l x, l2 = c :: l /\ w_tags w !! c = Some x /\ owned w i (ps ++ l1) (Some c) /\
       seek fuel tid' (slot_of ps) n w = Ok ((slot_of (ps ++ l1), Some c, negb (1 <? count x)), w) /\ (1 < count x \/ count x = 1 /\ tid x = tid'))).
Proof using Hpos.
  induction qs as [|c qs IH]; intros fuel ps n Hp Hown Hf.
  - exists [], []. split; [done|]. split; [constructor|]. left. split; [done|]. simpl in Hp. subst n. rewrite app_nil_r. by destruct fuel.
  - destruct fuel as [|fuel]; [simpl in Hf; lia|]. destruct Hp as (-> & x & Hx & Hp). simpl in Hf.
    pose proof (Hpos _ _ Hx) as Hc. cbn [seek]. rewrite (run_bind _ _ _ _ _ (load_run _ _ _ Hx)).
    destruct (Z.ltb_spec 1 (count x)) as [Hs|Hs].
    { exists [], (c :: qs). split; [done|]. split; [constructor|]. right. exists c, qs, x. rewrite app_nil_r. rewrite (proj2 (Z.ltb_lt _ _)) by done. by auto 10. }
    destruct (Z.eqb_spec (tid x) tid') as [Ht|Ht].
    { exists [], (c :: qs). split; [done|]. split; [constructor|]. right. exists c, qs, x. rewrite app_nil_r. rewrite (proj2 (Z.ltb_ge _ _)) by lia.
      do 4 (split; [done|]). right. split; [lia|done]. }
    assert (owned w i (ps ++ [c]) (next x)) as Ho.
    { destruct Hown as (m & Hm & Hs'). exists m. split; [done|]. eapply seg_snoc; [done|done|lia]. }
    destruct (IH fuel (ps ++ [c]) (next x) Hp Ho ltac:(lia)) as (l1 & l2 & -> & Hl1 & Hcase). rewrite slot_of_snoc, <- app_assoc in Hcase.
    exists (c :: l1), l2. split; [done|]. split; [constructor; [by rewrite (item_tid _ _ _ Hx)|done]|done].
Qed.
Lemma find_none : forall qs fuel n, path (w_tags w) n qs -> (length qs <= fuel)%nat -> other (w_tags w) tid' qs -> find fuel tid' n w = Ok (None, w).
Proof using.
  induction qs as [|c qs IH]; intros fuel n Hp Hf Ho.
  - simpl in Hp. subst. by destruct fuel.
  - destruct fuel as [|fuel]; [simpl in Hf; lia|]. destruct Hp as (-> & x & Hx & Hp). simpl in Hf. apply Forall_cons in Ho as [Hc Ho].
    cbn [find]. rewrite (run_bind _ _ _ _ _ (load_run _ _ _ Hx)), (proj2 (Z.eqb_neq _ _)) by (by rewrite <- (item_tid _ _ _ Hx)).
    apply IH; [done|lia|done].
Qed.
Lemma find_first : forall l1 fuel n t l2, path (w_tags w) n (l1 ++ t :: l2) -> (length l1 < fuel)%nat -> other (w_tags w) tid' l1 -> (item (w_tags w) t).1 = tid' ->
  find fuel tid' n w = Ok (Some t, w).
Proof using.
  induction l1 as [|c l1 IH]; intros fuel n t l2 Hp Hf Ho Ht; (destruct fuel as [|fuel]; [simpl in Hf; lia|]); destruct Hp as (-> & x & Hx & Hp);
    cbn [find]; rewrite (run_bind _ _ _ _ _ (load_run _ _ _ Hx)).
  - rewrite (proj2 (Z.eqb_eq _ _)); [done|]. by rewrite <- (item_tid _ _ _ Hx).
  - apply Forall_cons in Ho as [Hc Ho]. rewrite (proj2 (Z.eqb_neq _ _)) by (by rewrite <- (item_tid _ _ _ Hx)).
    eapply IH; [done|simpl in Hf; lia|done|done].
Qed.
End seek.

Lemma m_next_run w i n : w_lists w !! i = Some n -> m_next i w = Ok (n, w).
Proof. intros Hn. unfold m_next. by rewrite Hn. Qed.
Lemma owned_start w i n : w_lists w !! i = Some n -> owned w i [] n.
Proof. intros Hn. by exists n. Qed.

Section traverse.
Context {T : Type} `{Tag T} (k : Z) (w : World) (i : nat) (tag : T) (writer : Writer (T := T)).
Hypothesis Hok : okx zero (fun _ => k) w.
Hypothesis Hpos : positive w.
Hypothesis Hk : 1 <= k < 2 ^ 32 - 2.
Context (n : option nat).
Hypothesis Hn : w_lists w !! i = Some n.

Lemma COWTraverse_absent qs : path (w_tags w) n qs -> other (w_tags w) (GetInstanceTypeId tag) qs ->
  COWTraverse i tag writer w = Ok ((false, tag), w).
Proof using Hpos Hn.
  intros Hp Ho. unfold COWTraverse. rewrite (run_bind _ _ _ _ _ (m_next_run _ _ _ Hn)). destruct n as [h|]; [|done].
  unfold walk. rewrite run_gets. pose proof (path_length _ _ _ Hp) as Hlen.
  destruct (seek_ok w i (GetInstanceTypeId tag) Hpos qs (S (base.size (w_tags w))) [] (Some h) Hp (owned_start _ _ _ Hn) ltac:(lia)) as (l1 & l2 & E & Hl1 & [[-> Es]|(c & l & x & -> & Hx & Hoc & Es & Hcase)]).
  - by rewrite (run_bind _ _ _ _ _ Es).
  - rewrite (run_bind _ _ _ _ _ Es). subst qs. apply Forall_app in Ho as [_ Ho].
    assert (path (w_tags w) (Some c) (c :: l)) as Hpc.
    { destruct Hoc as (h' & Hh' & Hs). rewrite Hn in Hh'. injection Hh' as <-. destruct (seg_path _ _ _ _ _ Hs Hp) as (r & Er & Hr).
      simpl in Er. by apply app_inv_head in Er as <-. }
    destruct (Z.ltb_spec 1 (count x)) as [Hc|Hc]; cbn [negb].
    + rewrite (run_bind _ _ _ _ _ (find_none w _ _ (S (base.size (w_tags w))) _ Hpc ltac:(rewrite length_app in Hlen; simpl in *; lia) Ho)). done.
    + apply Forall_cons in Ho as [Ho _]. rewrite (item_tid _ _ _ Hx) in Ho. destruct Hcase as [|[_ Ht]]; [lia|done].
Qed.
Lemma COWTraverse_found l1 t l2 : path (w_tags w) n (l1 ++ t :: l2) -> other (w_tags w) (GetInstanceTypeId tag) l1 ->
  (item (w_tags w) t).1 = GetInstanceTypeId tag ->
  exists w' ps pre, COWTraverse i tag writer w = writer tag pre t (slot_of ps) w' /\ okx zero (adj t 1 (fun _ => k)) w' /\ positive w' /\
    owned w' i ps (Some t) /\ keeps w w' /\ item (w_tags w') <$> ps = item (w_tags w) <$> l1 /\
    path (w_tags w') (Some t) (t :: l2) /\ item (w_tags w') <$> (t :: l2) = item (w_tags w) <$> (t :: l2) /\
    (exists x, w_tags w' !! t = Some x /\ if pre : bool then count x = 1 else 1 < count x).
Proof using Hok Hpos Hk Hn.
  intros Hp Ho Ht. unfold COWTraverse. rewrite (run_bind _ _ _ _ _ (m_next_run _ _ _ Hn)). destruct n as [h|] eqn:En; [|by destruct l1; destruct Hp].
  unfold walk. rewrite run_gets. pose proof (path_length _ _ _ Hp) as Hlen. rewrite length_app in Hlen. simpl in Hlen.
  assert (okx zero (adj t 1 (fun _ => k)) w) as Hokt.
  { eapply okx_weaken; [exact Hok|]. intros q z _. split; [done|]. unfold adj. case_decide; lia. }
  destruct (seek_ok w i (GetInstanceTypeId tag) Hpos _ (S (base.size (w_tags w))) [] (Some h) Hp (owned_start _ _ _ Hn) ltac:(rewrite length_app; simpl; lia))
    as (k1 & k2 & E & Hk1 & [[-> Es]|(c & l & x & -> & Hx & Hoc & Es & Hcase)]).
  - exfalso. rewrite app_nil_r in E. subst k1. apply Forall_app in Hk1 as [_ Hk1]. by apply Forall_cons in Hk1 as [Hk1 _].
  - rewrite (run_bind _ _ _ _ _ Es). destruct (before_first _ _ _ _ _ _ _ E Ht Hk1) as (qs1 & -> & E2). simpl in Hoc.
    assert (path (w_tags w) (Some c) (qs1 ++ t :: l2)) as Hpc.
    { destruct Hoc as (h' & Hh' & Hs). rewrite Hn in Hh'. injection Hh' as <-. rewrite <- app_assoc in Hp.
      destruct (seg_path _ _ _ _ _ Hs Hp) as (r & Er & Hr). by apply app_inv_head in Er as <-. }
    apply Forall_app in Ho as [_ Hq1]. destruct (Z.ltb_spec 1 (count x)) as [Hc|Hc]; cbn [negb].
    + rewrite length_app in Hlen.
      rewrite (run_bind _ _ _ _ _ (find_first w _ qs1 (S (base.size (w_tags w))) _ _ _ Hpc ltac:(lia) Hq1 Ht)), (run_bind _ _ _ _ _ (load_run _ _ _ Hx)).
      rewrite run_assert by (by apply Z.ltb_lt).
      destruct (copy_until_ok k i t (GetInstanceTypeId tag) l2 Hk qs1 (S (base.size (w_tags w))) w k1 c) as (w' & ps' & E3 & O3 & P3 & Ho3 & (z & Hz & Hcz) & K3 & Hi3 & Hp3 & Hi4);
        [|done|done|by exists x|done| |done|lia|].
      * eapply okx_weaken; [exact Hok|]. intros q z _. split; [done|]. unfold adj. case_decide; lia.
      * rewrite Forall_fmap. apply Forall_app. split; [exact Hk1|exact Hq1].
      * rewrite (run_bind _ _ _ _ _ E3), (run_bind _ _ _ _ _ (load_run _ _ _ Hz)), run_assert by (by apply Z.ltb_lt).
        exists w', ps', false. split; [done|]. repeat (split; [done|]). by exists z.
    + destruct Hcase as [|[Hc1 Htx]]; [lia|]. destruct qs1 as [|c' qs1].
      * injection E2 as -> ->. exists w, k1, true. rewrite app_nil_r. split; [done|]. split; [done|]. split; [done|]. split; [done|]. split; [apply keeps_refl|].
        split; [done|]. split; [done|]. split; [done|]. by exists x.
      * exfalso. injection E2 as <- _. apply Forall_cons in Hq1 as [Hq1 _]. by rewrite (item_tid _ _ _ Hx) in Hq1.
Qed.
End traverse.

(** ** The operations *)

Definition good (k : Z) (w : World) : Prop := okx zero (fun _ => k) w /\ positive w.
Definition reads_list (w : World) (i : nat) (cs : list (Z * bytes)) : Prop := exists m, w_lists w !! i = Some m /\ reads (w_tags w) m cs.
(** The other lists read what they did. *)
Definition apart (i : nat) (w w' : World) : Prop := forall j, j <> i -> match w_lists w !! j with
  | Some m => exists m', w_lists w' !! j = Some m' /\ forall cs, reads (w_tags w) m cs -> reads (w_tags w') m' cs
  | None => w_lists w' !! j = None
  end.
Lemma keeps_apart i w w1 w2 : keeps w w1 -> apart i w1 w2 -> apart i w w2.
Proof.
  intros H1 H2 j Hj. specialize (H1 j). specialize (H2 j Hj). destruct (w_lists w !! j); [|by rewrite H1 in H2].
  destruct H1 as (m & Hm & H1). rewrite Hm in H2. destruct H2 as (m' & Hm' & H2). exists m'. eauto.
Qed.
Lemma apart_trans i w w1 w2 : apart i w w1 -> apart i w1 w2 -> apart i w w2.
Proof.
  intros H1 H2 j Hj. specialize (H1 j Hj). specialize (H2 j Hj). destruct (w_lists w !! j); [|by rewrite H1 in H2].
  destruct H1 as (m & Hm & H1). rewrite Hm in H2. destruct H2 as (m' & Hm' & H2). exists m'. eauto.
Qed.
Lemma positive_del w c : positive w -> positive (del_tag c w).
Proof. intros Hp q z. simpl. rewrite lookup_delete_Some. intros [_ Hz]. by apply (Hp q). Qed.

(** The node [t], which only the list [i] reaches unless it is shared, leaves the list. *)
Section unlink.
Context (k : Z) (w : World) (i : nat) (ps : list nat) (t : nat) (l2 : list nat) (x : TagData).
Hypothesis Hok : okx zero (adj t 1 (fun _ => k)) w.
Hypothesis Hpos : positive w.
Hypothesis Hk : 1 <= k < 2 ^ 32 - 2.
Hypothesis Hown : owned w i ps (Some t).
Hypothesis Hp : path (w_tags w) (Some t) (t :: l2).
Hypothesis Hx : w_tags w !! t = Some x.
Let w1 := relinked w i ps (next x).

Lemma unlink_facts : (t ∉ ps) /\ (t ∉ l2) /\ (forall p, p ∈ ps -> p ∉ l2) /\ path (w_tags w) (next x) l2.
Proof using Hok Hown Hp Hx.
  destruct (owned_path _ _ _ _ _ _ Hok Hown) as (m & qs & Hm & Hl & Hq). rewrite (path_unique _ _ _ _ Hq Hp) in Hl.
  apply path_nodup in Hl. apply NoDup_app in Hl as (_ & H & H'). apply NoDup_cons in H' as [H' _].
  destruct Hp as (_ & x' & Hx' & Hp'). assert (x' = x) as -> by congruence.
  split; [intros Hin; apply (H t Hin); by left|]. split; [done|]. split; [|done]. intros p Hin Hin2. apply (H p Hin). by right.
Qed.
Lemma unlinked : okx (adj t 1 (adj_opt (next x) (-1) zero)) (adj t 1 (fun _ => k)) w1 /\ positive w1 /\ w_tags w1 !! t = Some x /\
  owned w1 i ps (next x) /\ path (w_tags w1) (next x) l2 /\ reads_list w1 i ((item (w_tags w) <$> ps) ++ (item (w_tags w) <$> l2)) /\ apart i w w1 /\
  refs w1 t = count x - 1.
Proof using Hok Hpos Hown Hp Hx.
  destruct unlink_facts as (H1 & H2 & H3 & H4).
  split; [exact (relinked_okx w i ps (Some t) _ _ Hok Hown (next x) l2 H4 H3)|]. split; [by apply positive_relinked|].
  split; [unfold w1; rewrite relinked_tags, decide_False; [done|]; by intros E%slot_in|].
  split; [by eapply relinked_owned|].
  split; [eapply path_avoid; [|exact H4]; intros q Hq; unfold w1; rewrite relinked_tags, decide_False; [done|]; intros E%slot_in; by apply (H3 q)|].
  split.
  { destruct (relinked_reads_self w i ps (Some t) (next x) l2 _ _ Hok Hown H4 H3) as (m & Hm & _ & Hr). by exists m. }
  split.
  - intros j Hj. destruct (w_lists w !! j) as [m|] eqn:Hm.
    + exists m. split; [unfold w1; by rewrite relinked_lists, decide_False by (by intros [_ ?])|]. intros cs Hr.
      by apply (relinked_reads_other w i ps (Some t) (next x) _ _ Hok Hown (fun _ _ => eq_refl) j m cs Hj).
    + unfold w1. by rewrite relinked_lists, decide_False by (by intros [_ ?]).
  - unfold w1. rewrite (put_slot_refs w i ps (Some t) Hown (next x)), points_some, bool_decide_eq_true_2 by done.
    pose proof (x_count _ _ _ Hok _ _ Hx) as Hc. unfold zero in Hc. simpl.
    assert (points t (next x) = false) as ->; [|simpl; lia].
    unfold points. apply bool_decide_eq_false_2. intros E. rewrite E in H4. destruct l2 as [|q l]; [done|]. destruct H4 as ([= <-] & _). apply H2. by left.
Qed.
End unlink.

Section remove.
Context {T : Type} `{Tag T}.

Lemma RemoveWriter_ok k w i (tag : T) pre t ps l2 x :
  okx zero (adj t 1 (fun _ => k)) w -> positive w -> 1 <= k < 2 ^ 32 - 2 -> owned w i ps (Some t) -> path (w_tags w) (Some t) (t :: l2) ->
  w_tags w !! t = Some x -> (if pre : bool then count x = 1 else 1 < count x) ->
  exists w', RemoveWriter i tag pre t (slot_of ps) w = (tag ← Deserialize (data x) tag; Ok ((true, tag), w')) /\ good (k + 1) w' /\
    reads_list w' i ((item (w_tags w) <$> ps) ++ (item (w_tags w) <$> l2)) /\ apart i w w'.
Proof.
  intros Hok Hpos Hk Hown Hp Hx Hpre. destruct (unlinked k w i ps t l2 x Hok Hpos Hown Hp Hx) as (O1 & P1 & Hx1 & Ho1 & Hp1 & R1 & A1 & Hr1).
  set (w1 := relinked w i ps (next x)) in *.
  assert (exists w', (if pre then free t else _ ← unmerge t; merge_opt (next x)) w1 = Ok (tt, w') /\ good (k + 1) w' /\
    reads_list w' i ((item (w_tags w) <$> ps) ++ (item (w_tags w) <$> l2)) /\ apart i w1 w') as (w' & E & G & R & A).
  { destruct pre.
    - rewrite Hpre in Hr1. exists (del_tag t w1). split; [by apply (free_run w1 t x)|]. destruct (unreferenced w1 t Hr1) as [Hu _].
      split; [|split].
      + split; [|by apply positive_del]. eapply okx_weaken; [exact (del_okx w1 t x _ _ O1 Hx1 Hr1)|]. intros q z Hz.
        assert (q <> t) by (intros ->; simpl in Hz; by rewrite lookup_delete_eq in Hz).
        rewrite adj_opt_eq, adj_eq, adj_opt_eq, points_some, bool_decide_eq_false_2 by done. unfold zero, adj. rewrite decide_False by done. simpl. lia.
      + destruct R1 as (m & Hm & Hr). exists m. split; [done|]. apply del_reads; [done|by intros ->; apply (Hu i)|done].
      + intros j Hj. destruct (w_lists w1 !! j) as [m|] eqn:Hm; [|done]. exists m. split; [done|]. intros cs. apply del_reads; [done|by intros ->; apply (Hu j)].
    - destruct (unmerge_ok _ _ _ _ _ O1 Hx1 ltac:(lia)) as [E2 O2]; [unfold adj; rewrite decide_True by done; lia|].
      set (w2 := put_tag t (set_count (count x - 1) x) w1) in *.
      assert (path (w_tags w2) (next x) l2) as Hp2 by (by apply (path_put_tag w1 t x)).
      assert (positive w2) as P2 by (apply positive_put_tag; [done|simpl; lia]).
      destruct (merge_opt_ok _ _ _ _ _ O2 P2 Hp2) as (w3 & E3 & O3 & P3 & L3 & N3 & T3 & I3 & K3 & S3); [intros; unfold adj; repeat case_decide; lia|].
      exists w3. rewrite (run_bind _ _ _ _ _ E2). split; [done|]. split; [|split].
      + split; [|done]. eapply okx_weaken; [exact O3|]. intros q z Hz. rewrite !adj_opt_eq, !adj_eq, adj_opt_eq. unfold zero.
        split; [lia|]. destruct (points q (Some t)), (points q (next x)); simpl; lia.
      + destruct R1 as (m & Hm & Hr). exists m. rewrite L3. split; [done|]. eapply reads_of; [exact I3|apply K3|]. by apply (reads_put_tag w1 t x).
      + intros j Hj. rewrite L3. change (w_lists w2) with (w_lists w1). destruct (w_lists w1 !! j) as [m|]; [|done]. exists m. split; [done|].
        intros cs Hr. eapply reads_of; [exact I3|apply K3|]. by apply (reads_put_tag w1 t x). }
  exists w'. split; [|split; [done|split; [done|by eapply apart_trans]]].
  unfold RemoveWriter. rewrite (run_bind _ _ _ _ _ (load_run _ _ _ Hx)). destruct (Deserialize (data x) tag) as [tag'|f]; [|done].
  rewrite run_lifted, (run_bind _ _ _ _ _ (set_slot_run _ _ _ _ Hown (next x))), (run_bind _ _ _ _ _ E). done.
Qed.
End remove.

(** ** A list gives its nodes up *)

Lemma del_apart i w c x : w_tags w !! c = Some x -> refs w c = 0 -> apart i w (del_tag c w).
Proof.
  intros Hx Hr j _. destruct (w_lists w !! j) as [m|] eqn:Hm; [|done]. exists m. split; [done|]. intros cs.
  apply del_reads; [done|]. intros ->. destruct (unreferenced w c Hr) as [Hu _]. by apply (Hu j).
Qed.
Lemma put_tag_apart i w p x y : w_tags w !! p = Some x -> next y = next x -> tid y = tid x -> data y = data x -> apart i w (put_tag p y w).
Proof.
  intros Hx En Et Ed j _. change (w_lists (put_tag p y w)) with (w_lists w). destruct (w_lists w !! j) as [m|]; [|done]. exists m. split; [done|].
  intros cs. by apply (reads_put_tag w p x).
Qed.
Lemma apart_refl i w : apart i w w.
Proof. intros j _. destruct (w_lists w !! j); eauto. Qed.
Lemma lists_apart i m w : apart i w (with_lists (<[i := m]> (w_lists w)) w).
Proof. intros j Hj. simpl. rewrite lookup_insert_ne by done. destruct (w_lists w !! j) as [n|]; [|done]. exists n. auto. Qed.

(** The world once the loop of [RemoveAll] is left with [prev] *)
Definition cleared (i : nat) (prev : option nat) (w : World) : World :=
  let v := with_lists (<[i := None]> (w_lists w)) w in match prev with Some p => del_tag p v | None => v end.
Lemma cleared_tags i prev w q : prev <> Some q -> w_tags (cleared i prev w) !! q = w_tags w !! q.
Proof. intros Hq. destruct prev as [p|]; [|done]. simpl. apply lookup_delete_ne. congruence. Qed.
Lemma cleared_put_tag i prev w c y : prev <> Some c -> cleared i prev (put_tag c y w) = put_tag c y (cleared i prev w).
Proof.
  intros Hc. destruct prev as [p|]; [|done]. unfold cleared, del_tag, put_tag, with_tags, with_lists. simpl. f_equal.
  apply delete_insert_ne. congruence.
Qed.
Lemma remove_loop_ok k i : 1 <= k < 2 ^ 32 - 2 -> forall ps fuel prev cur w, path (w_tags w) cur ps -> (length ps <= fuel)%nat ->
  okx (adj_opt cur 1 zero) (fun _ => k) (cleared i prev w) -> positive (cleared i prev w) ->
  (forall p, prev = Some p -> is_Some (w_tags w !! p) /\ p ∉ ps) ->
  exists w' prev', remove_loop fuel prev cur w = Ok (prev', w') /\ good (k + 1) (cleared i prev' w') /\
    (forall p, prev' = Some p -> is_Some (w_tags w' !! p)) /\ apart i (cleared i prev w) (cleared i prev' w').
Proof.
  intros Hk. induction ps as [|c ps IH]; intros fuel prev cur w Hp Hf Hok Hpos Hprev.
  - simpl in Hp. subst cur. exists w, prev. split; [by destruct fuel|]. split; [|split; [intros p E; by apply Hprev|apply apart_refl]].
    split; [|done]. eapply okx_weaken; [exact Hok|]. intros q z _. split; [done|lia].
  - destruct fuel as [|fuel]; [simpl in Hf; lia|]. pose proof (path_nodup _ _ _ Hp) as Hnd. apply NoDup_cons in Hnd as [Hcp _].
    destruct Hp as (-> & x & Hx & Hp). simpl in Hf.
    assert (prev <> Some c) as Hpc by (intros E; apply (Hprev _ E); by left).
    assert (w_tags (cleared i prev w) !! c = Some x) as Hxv by (by rewrite cleared_tags).
    pose proof (Hpos _ _ Hxv) as Hc.
    destruct (unmerge_ok _ _ _ _ _ Hok Hxv Hc ltac:(lia)) as [_ O1]. set (y := set_count (count x - 1) x) in *.
    rewrite <- cleared_put_tag in O1 by done. set (w1 := put_tag c y w) in *.
    assert (unmerge c w = Ok (tt, w1)) as E1.
    { unfold unmerge. rewrite (modify_run _ _ _ _ Hx). pose proof (x_range _ _ _ Hok _ _ Hxv). by rewrite (wrap_small 32) by (unfold in_range; lia). }
    assert (w_tags w1 !! c = Some y) as Hy by apply lookup_insert_eq.
    assert (apart i (cleared i prev w) (cleared i prev w1)) as A1 by (unfold w1; rewrite cleared_put_tag by done; by apply (put_tag_apart i _ c x)).
    assert (okx zero (fun _ => k) (cleared i prev w1)) as O2.
    { eapply okx_weaken; [exact O1|]. intros q z _. rewrite !adj_eq, adj_opt_eq. unfold zero. destruct (points q (Some c)); simpl; lia. }
    cbn [remove_loop]. rewrite (run_bind _ _ _ _ _ E1), (run_bind _ _ _ _ _ (load_run _ _ _ Hy)).
    destruct (Z.ltb_spec 0 (count y)) as [Hcy|Hcy].
    + exists w1, prev. split; [done|]. split; [|split; [|done]].
      * split; [eapply okx_weaken; [exact O2|]; intros; split; [done|lia]|]. unfold w1. rewrite cleared_put_tag by done. apply positive_put_tag; [done|]. simpl in *. lia.
      * intros p E. destruct (Hprev p E) as [Hp1 _]. unfold w1. simpl. rewrite lookup_insert_ne by congruence. done.
    + assert (exists w2, (match prev with Some p => free p | None => mret tt end) w1 = Ok (tt, w2) /\
        cleared i (Some c) w2 = del_tag c (cleared i prev w1) /\
        forall q, prev <> Some q -> w_tags w2 !! q = w_tags w1 !! q) as (w2 & E2 & C2 & Q2).
      { destruct prev as [p|]; [|by exists w1]. destruct (Hprev p eq_refl) as [[z Hz] _].
        exists (del_tag p w1). split; [apply (free_run w1 p z); unfold w1; simpl; rewrite lookup_insert_ne by congruence; done|]. split; [done|].
        intros q Hq. simpl. apply lookup_delete_ne. congruence. }
      rewrite (run_bind _ _ _ _ _ E2).
      assert (w_tags (cleared i prev w1) !! c = Some y) as Hyv by (by rewrite cleared_tags).
      assert (refs (cleared i prev w1) c = 0) as Hr0.
      { pose proof (x_count _ _ _ O2 _ _ Hyv) as Hc2. unfold zero in Hc2. pose proof (x_range _ _ _ O2 _ _ Hyv). lia. }
      destruct (IH fuel (Some c) (next x) w2) as (w' & prev' & E3 & G & Pl & A3).
      * eapply path_ext; [|exact Hp]. intros q Hq. rewrite Q2; [|intros E; apply (Hprev q E); by right]. unfold w1. simpl.
        rewrite lookup_insert_ne; [done|]. by intros ->.
      * lia.
      * rewrite C2. change (next x) with (next y). apply del_okx; done.
      * rewrite C2. intros q z. simpl. rewrite lookup_delete_Some. intros [Hq Hz]. unfold w1 in Hz. rewrite cleared_put_tag in Hz by done.
        simpl in Hz. rewrite lookup_insert_ne in Hz by done. by apply (Hpos q).
      * intros p [= <-]. split; [|done]. rewrite Q2 by done. rewrite Hy. by eexists.
      * exists w', prev'. split; [done|]. split; [done|]. split; [done|]. eapply apart_trans; [exact A1|]. eapply apart_trans; [|exact A3].
        rewrite C2. by eapply del_apart.
Qed.

Lemma reads_list_nil w i : w_lists w !! i = Some None -> reads_list w i [].
Proof. intros Hi. exists None. split; [done|]. by exists []. Qed.
Lemma RemoveAll_ok k w i cs : good k w -> 1 <= k < 2 ^ 32 - 2 -> reads_list w i cs ->
  exists w', RemoveAll i w = Ok (tt, w') /\ good (k + 1) w' /\ w_lists w' !! i = Some None /\ apart i w w'.
Proof.
  intros [Hok Hpos] Hk (n & Hn & ps & Hp & _). pose proof (path_length _ _ _ Hp) as Hlen.
  pose proof (owned_start _ _ _ Hn) as Ho.
  assert (okx (adj_opt n 1 zero) (fun _ => k) (cleared i None w)) as O1.
  { apply (relinked_okx w i [] n zero (fun _ => k) Hok Ho None []); [done|]. intros p Hin. by apply elem_of_nil in Hin. }
  destruct (remove_loop_ok k i Hk ps (S (base.size (w_tags w))) None n w Hp ltac:(lia) O1 Hpos) as (w1 & prev & E & G & Hprev & A); [done|].
  exists (cleared i prev w1). split; [|split; [done|split]].
  - unfold RemoveAll. rewrite (run_bind _ _ _ _ _ (m_next_run _ _ _ Hn)). unfold walk. rewrite run_gets, (run_bind _ _ _ _ _ E).
    destruct prev as [p|]; [|done]. destruct (Hprev p eq_refl) as [z Hz]. by rewrite (run_bind _ _ _ _ _ (free_run w1 p z Hz)).
  - destruct prev as [p|]; simpl; apply lookup_insert_eq.
  - eapply apart_trans; [|exact A]. apply lists_apart.
Qed.

(** A list which is empty, or new, comes to share the nodes of another. *)
Lemma share_ok k w i n cs : good k w -> 1 <= k < 2 ^ 32 - 2 -> (w_lists w !! i = None \/ w_lists w !! i = Some None) -> reads (w_tags w) n cs ->
  exists w', (_ ← set_m_next i n; merge_opt n) w = Ok (tt, w') /\ good (k + 1) w' /\ reads_list w' i cs /\ apart i w w'.
Proof.
  intros [Hok Hpos] Hk Hi (ps & Hp & <-). set (w1 := with_lists (<[i := n]> (w_lists w)) w).
  assert (okx (adj_opt n (-1) zero) (fun _ => k) w1) as O1.
  { split; [|apply (x_node _ _ _ Hok)| |apply (x_range _ _ _ Hok)|apply (x_data _ _ _ Hok)|apply (x_new _ _ _ Hok)].
    - intros j m. simpl. intros [[_ <-]|[_ Hj]]%lookup_insert_Some; [by exists ps|by apply (x_list _ _ _ Hok j)].
    - intros q z Hz. rewrite adj_opt_eq. unfold zero. change (w_tags w1) with (w_tags w) in Hz. rewrite (x_count _ _ _ Hok _ _ Hz). unfold refs, zero. simpl.
      destruct Hi as [Hi|Hi]; [rewrite occ_insert_new by done; lia|]. rewrite (occ_insert _ _ _ _ _ Hi). assert (points q None = false) as -> by (by apply bool_decide_eq_false_2). simpl. lia. }
  destruct (merge_opt_ok _ _ w1 n ps O1 Hpos Hp) as (w2 & E & O2 & P2 & L2 & _ & _ & I2 & K2 & _); [intros; lia|].
  exists w2. split; [done|]. split; [|split].
  - split; [|done]. eapply okx_weaken; [exact O2|]. intros q z _. rewrite !adj_opt_eq. unfold zero. destruct (points q n); simpl; lia.
  - exists n. rewrite L2. split; [apply lookup_insert_eq|]. eapply reads_of; [exact I2|apply K2|]. by apply reads_path.
  - eapply apart_trans; [apply (lists_apart i n)|]. fold w1. intros j _. rewrite L2. destruct (w_lists w1 !! j) as [m|]; [|done].
    exists m. split; [done|]. intros cs. apply reads_of; [exact I2|apply K2].
Qed.

(** ** Tag lists as association lists *)

Fixpoint lookup_tag (t : Z) (cs : list (Z * bytes)) : option bytes :=
  match cs with [] => None | (u, d) :: cs => if u =? t then Some d else lookup_tag t cs end.
Fixpoint remove_tag (t : Z) (cs : list (Z * bytes)) : list (Z * bytes) :=
  match cs with [] => [] | (u, d) :: cs => if u =? t then cs else (u, d) :: remove_tag t cs end.
Fixpoint replace_tag (t : Z) (d' : bytes) (cs : list (Z * bytes)) : list (Z * bytes) :=
  match cs with [] => [] | (u, d) :: cs => if u =? t then (u, d') :: cs else (u, d) :: replace_tag t d' cs end.

Lemma tag_at t d cs1 cs2 : Forall (fun c => c.1 <> t) cs1 ->
  lookup_tag t (cs1 ++ (t, d) :: cs2) = Some d /\ remove_tag t (cs1 ++ (t, d) :: cs2) = cs1 ++ cs2 /\
  forall d', replace_tag t d' (cs1 ++ (t, d) :: cs2) = cs1 ++ (t, d') :: cs2.
Proof.
  induction 1 as [|[u e] cs1 Hu _ (IH1 & IH2 & IH3)]; simpl; [by rewrite Z.eqb_refl|].
  simpl in Hu. rewrite (proj2 (Z.eqb_neq _ _) Hu). split; [done|]. split; [by rewrite IH2|]. intros d'. by rewrite IH3.
Qed.
Lemma tag_nowhere t cs : Forall (fun c => c.1 <> t) cs -> lookup_tag t cs = None.
Proof. induction 1 as [|[u e] cs Hu _ IH]; [done|]. simpl in *. by rewrite (proj2 (Z.eqb_neq _ _) Hu). Qed.

Lemma item_eta m p t : (item m p).1 = t -> item m p = (t, (item m p).2).
Proof. intros <-. by destruct (item m p). Qed.
(** Where a list has a tag *)
Lemma tag_cases w i cs t : reads_list w i cs -> exists n, w_lists w !! i = Some n /\
  ((lookup_tag t cs = None /\ exists qs, path (w_tags w) n qs /\ other (w_tags w) t qs) \/
   exists d l1 p l2, lookup_tag t cs = Some d /\ path (w_tags w) n (l1 ++ p :: l2) /\ other (w_tags w) t l1 /\ item (w_tags w) p = (t, d) /\
     remove_tag t cs = (item (w_tags w) <$> l1) ++ (item (w_tags w) <$> l2) /\
     forall d', replace_tag t d' cs = (item (w_tags w) <$> l1) ++ (t, d') :: (item (w_tags w) <$> l2)).
Proof.
  intros (n & Hn & ps & Hp & <-). exists n. split; [done|]. destruct (first_or_none (w_tags w) t ps) as [Ho|(l1 & p & l2 & -> & Ho & Ht)].
  - left. split; [|by exists ps]. apply tag_nowhere. by rewrite Forall_fmap.
  - right. pose proof (item_eta _ _ _ Ht) as E. exists ((item (w_tags w) p).2), l1, p, l2. rewrite fmap_app, fmap_cons, E.
    destruct (tag_at t (item (w_tags w) p).2 (item (w_tags w) <$> l1) (item (w_tags w) <$> l2)) as (H1 & H2 & H3); [by rewrite Forall_fmap|]. done.
Qed.

Section remove_all.
Context {T : Type} `{Tag T}.

Lemma tags_Remove_ok k w i (tag : T) cs : good k w -> 1 <= k < 2 ^ 32 - 2 -> reads_list w i cs ->
  match lookup_tag (GetInstanceTypeId tag) cs with
  | None => Remove i tag w = Ok ((false, tag), w)
  | Some d => exists w', Remove i tag w = (tag ← Deserialize d tag; Ok ((true, tag), w')) /\ good (k + 1) w' /\
      reads_list w' i (remove_tag (GetInstanceTypeId tag) cs) /\ apart i w w'
  end.
Proof.
  intros [Hok Hpos] Hk Hr. destruct (tag_cases w i cs (GetInstanceTypeId tag) Hr) as (n & Hn & [(-> & qs & Hp & Ho)|(d & l1 & t & l2 & -> & Hp & Ho & Ht & -> & _)]).
  - by eapply COWTraverse_absent.
  - destruct (COWTraverse_found k w i tag (RemoveWriter i) Hok Hpos Hk n Hn l1 t l2 Hp Ho) as (w1 & ps & pre & E & O1 & P1 & Ho1 & K1 & I1 & Hp1 & I2 & x & Hx & Hpre); [by rewrite Ht|].
    destruct (RemoveWriter_ok k w1 i tag pre t ps l2 x O1 P1 Hk Ho1 Hp1 Hx Hpre) as (w2 & E2 & G2 & R2 & A2).
    rewrite !fmap_cons in I2. injection I2 as I2 I3. rewrite I1, I3 in R2. exists w2. unfold Remove. rewrite E, E2.
    rewrite Ht in I2. unfold item in I2. rewrite Hx in I2. injection I2 as _ ->. split; [done|]. split; [done|]. split; [done|]. by eapply keeps_apart.
Qed.

Lemma tags_Peek_ok w i (tag : T) cs : reads_list w i cs ->
  Peek i tag w = match lookup_tag (GetInstanceTypeId tag) cs with
    | None => Ok ((false, tag), w)
    | Some d => tag ← Deserialize d tag; Ok ((true, tag), w)
    end.
Proof.
  intros Hr. destruct (tag_cases w i cs (GetInstanceTypeId tag) Hr) as (n & Hn & [(-> & qs & Hp & Ho)|(d & l1 & t & l2 & -> & Hp & Ho & Ht & _ & _)]);
    unfold Peek; rewrite (run_bind _ _ _ _ _ (m_next_run _ _ _ Hn)); unfold walk; rewrite run_gets; pose proof (path_length _ _ _ Hp) as Hlen.
  - rewrite (run_bind _ _ _ _ _ (find_none w (GetInstanceTypeId tag) qs (S (base.size (w_tags w))) n Hp ltac:(lia) Ho)). done.
  - rewrite length_app in Hlen. simpl in Hlen.
    rewrite (run_bind _ _ _ _ _ (find_first w (GetInstanceTypeId tag) l1 (S (base.size (w_tags w))) n t l2 Hp ltac:(lia) Ho ltac:(by rewrite Ht))).
    destruct (path_split _ _ _ _ _ Hp) as (x & Hx & _). rewrite (run_bind _ _ _ _ _ (load_run _ _ _ Hx)). unfold item in Ht. rewrite Hx in Ht. injection Ht as _ ->.
    by destruct (Deserialize d tag).
Qed.
End remove_all.

(** The tags of a type have one size, and [Serialize] writes as many octets. *)
Class SizedTag (T : Type) `{Tag T} (tag_size : Z -> Z) := {
  size_of_type (t : T) : GetSerializedSize t = tag_size (GetInstanceTypeId t);
  size_of_octets (t : T) : Z.of_nat (length (Serialize t)) = GetSerializedSize t;
  size_limit (t : T) : GetSerializedSize t < 2 ^ 32 - 1
}.

Section writing.
Context {T : Type} `{SizedTag T tag_size}.

Lemma write_tag_ok (tag : T) buf : Z.of_nat (length buf) = GetSerializedSize tag -> write_tag tag buf = Ok (Serialize tag).
Proof.
  intros Hb. pose proof (size_of_octets tag). assert (length buf = length (Serialize tag)) as E by lia.
  unfold write_tag. rewrite (proj2 (Nat.leb_le _ _)) by lia. simpl. rewrite <- E, drop_all, app_nil_r. done.
Qed.
(** A node is allocated for a tag, which is written to it. *)
Lemma create_tag_run {A} (tag : T) (k : nat -> TagData -> bytes -> M A) w r :
  (forall y, size y = GetSerializedSize tag -> k (w_new w) y (Serialize tag) (new_tag y w) = r) ->
  (p ← CreateTagData (GetSerializedSize tag); y ← load p; d ← lift (write_tag tag (data y)); k p y d) w = r.
Proof.
  intros Hk. pose proof (size_of_octets tag).
  set (buf := map (fun j => wrap 8 (w_fresh w (w_new w) j)) (seq 0 (Z.to_nat (GetSerializedSize tag)))).
  assert (Z.of_nat (length buf) = GetSerializedSize tag) as Hb by (unfold buf; rewrite length_map, length_seq; lia).
  set (y := mkTagData None 0 0 (GetSerializedSize tag) buf).
  assert (CreateTagData (GetSerializedSize tag) w = Ok (w_new w, new_tag y w)) as E.
  { unfold CreateTagData. by rewrite (proj2 (Z.ltb_lt _ _)) by apply size_limit. }
  rewrite (run_bind _ _ _ _ _ E), (run_bind _ _ _ _ _ (load_run (w_new w) (new_tag y w) y (lookup_insert_eq _ _ _))).
  cbn [data y]. rewrite write_tag_ok by done. rewrite run_lifted. by apply Hk.
Qed.
Lemma store_new_tag {A} y z w (k : unit -> M A) : (store (w_new w) z ≫= k) (new_tag y w) = k tt (new_tag z w).
Proof. unfold store, mbind, st_bind, new_tag, with_tags. simpl. by rewrite insert_insert_eq. Qed.

Lemma absent_ok w t : forall qs fuel n, path (w_tags w) n qs -> (length qs <= fuel)%nat ->
  absent fuel t n w = if decide (other (w_tags w) t qs) then Ok (tt, w) else Err AssertFailed.
Proof using.
  induction qs as [|c qs IH]; intros fuel n Hp Hf.
  - simpl in Hp. subst. rewrite decide_True by constructor. by destruct fuel.
  - destruct fuel as [|fuel]; [simpl in Hf; lia|]. destruct Hp as (-> & x & Hx & Hp). simpl in Hf. cbn [absent].
    rewrite (run_bind _ _ _ _ _ (load_run _ _ _ Hx)). destruct (Z.eqb_spec (tid x) t) as [Ht|Ht].
    + rewrite decide_False; [done|]. intros Ho. apply Forall_cons in Ho as [Ho _]. by rewrite (item_tid _ _ _ Hx) in Ho.
    + rewrite run_assert by done. rewrite (IH _ _ Hp) by lia. apply decide_ext. unfold other. rewrite Forall_cons, (item_tid _ _ _ Hx). tauto.
Qed.

Lemma Add_ok k w i (tag : T) cs : good k w -> 1 <= k < 2 ^ 32 - 2 -> reads_list w i cs ->
  match lookup_tag (GetInstanceTypeId tag) cs with
  | Some _ => Add i tag w = Err AssertFailed
  | None => exists w', Add i tag w = Ok (tt, w') /\ good (k + 1) w' /\
      reads_list w' i ((GetInstanceTypeId tag, Serialize tag) :: cs) /\ apart i w w'
  end.
Proof.
  intros [Hok Hpos] Hk Hr. pose proof Hr as (n' & Hn' & cps & Hcp & Hcs).
  destruct (tag_cases w i cs (GetInstanceTypeId tag) Hr) as (n & Hn & Hcase). assert (n' = n) as -> by congruence.
  pose proof (path_length _ _ _ Hcp) as Hlen.
  unfold Add. rewrite (run_bind _ _ _ _ _ (m_next_run _ _ _ Hn)). unfold walk. rewrite run_gets.
  pose proof (absent_ok w (GetInstanceTypeId tag) cps (S (base.size (w_tags w))) n Hcp ltac:(lia)) as Ha.
  destruct Hcase as [(-> & qs & Hp & Ho)|(d & l1 & t & l2 & -> & Hp & Ho & Ht & _)]; pose proof (path_unique _ _ _ _ Hp Hcp) as E.
  - subst qs. rewrite decide_True in Ha by done. rewrite (run_bind _ _ _ _ _ Ha). clear Ha.
    set (y := mkTagData n 1 (GetInstanceTypeId tag) (GetSerializedSize tag) (Serialize tag)). set (w1 := new_tag y w).
    assert (okx (adj_opt n (-1) (fun q => if decide (q = w_new w) then 1 else 0)) (fun _ => k) w1) as O1.
    { apply (new_tag_okx w y cps); [|done|by rewrite decide_True|lia|done|by simpl; rewrite size_of_octets|by apply size_limit].
      eapply okx_weaken; [exact Hok|]. intros q z Hz. pose proof (x_new _ _ _ Hok _ _ Hz). unfold zero. by rewrite decide_False by lia. }
    pose proof (owned_start w1 i n Hn) as Ho1.
    assert (path (w_tags w1) (Some (w_new w)) (w_new w :: cps)) as P1.
    { split; [done|]. exists y. split; [apply lookup_insert_eq|]. by apply (new_tag_path w y _ _ Hok). }
    pose proof (relinked_okx w1 i [] n _ _ O1 Ho1 (Some (w_new w)) _ P1 ltac:(intros p Hin; by apply elem_of_nil in Hin)) as O2.
    exists (relinked w1 i [] (Some (w_new w))). split; [|split; [split|split]].
    + apply create_tag_run. intros z Ez. rewrite store_new_tag, Ez. done.
    + eapply okx_weaken; [exact O2|]. intros q z _. rewrite !adj_opt_eq, points_some. unfold zero. split; [|lia].
      case_bool_decide; case_decide; simpl; lia || congruence.
    + apply positive_relinked, positive_new_tag; [done|simpl; lia].
    + exists (Some (w_new w)). split; [apply lookup_insert_eq|]. exists (w_new w :: cps). split; [done|]. rewrite fmap_cons.
      f_equal; [unfold item; simpl; by rewrite lookup_insert_eq|]. rewrite <- Hcs. symmetry. apply items_avoid. intros q Hq.
      apply (new_tag_same w y _ _ Hok). by eapply path_live.
    + eapply apart_trans; [|apply lists_apart]. intros j _. change (w_lists w1) with (w_lists w). destruct (w_lists w !! j) as [m|]; [|done].
      exists m. split; [done|]. intros cs'. by apply (new_tag_reads w y _ _ Hok).
  - rewrite <- E, decide_False in Ha; [unfold mbind, st_bind; by rewrite Ha|]. intros Hoo. apply Forall_app in Hoo as [_ Hoo].
    apply Forall_cons in Hoo as [Hoo _]. by rewrite Ht in Hoo.
Qed.

Lemma ReplaceWriter_ok k w i (tag : T) pre t ps l2 x :
  okx zero (adj t 1 (fun _ => k)) w -> positive w -> 1 <= k < 2 ^ 32 - 2 -> owned w i ps (Some t) -> path (w_tags w) (Some t) (t :: l2) ->
  w_tags w !! t = Some x -> (if pre : bool then count x = 1 else 1 < count x) -> tid x = GetInstanceTypeId tag ->
  size x = tag_size (tid x) ->
  exists w', ReplaceWriter i tag pre t (slot_of ps) w = Ok ((true, tag), w') /\ good (k + 1) w' /\
    reads_list w' i ((item (w_tags w) <$> ps) ++ (tid x, Serialize tag) :: (item (w_tags w) <$> l2)) /\ apart i w w'.
Proof.
  intros Hok Hpos Hk Hown Hp Hx Hpre Ht Hs.
  rewrite Ht, <- size_of_type in Hs. pose proof (x_data _ _ _ Hok _ _ Hx) as [Hd Hl].
  destruct (owned_path _ _ _ _ _ _ Hok Hown) as (m & qs & Hm & Hpm & Hq). rewrite (path_unique _ _ _ _ Hq Hp) in Hpm.
  pose proof (path_nodup _ _ _ Hpm) as Hnd. apply NoDup_app in Hnd as (_ & Hdis & Hnd). apply NoDup_cons in Hnd as [Htl _].
  unfold ReplaceWriter. destruct pre.
  - set (w1 := put_tag t (set_data (Serialize tag) x) w).
    assert (forall q, q <> t -> w_tags w !! q = w_tags w1 !! q) as Hne by (intros; simpl; by rewrite lookup_insert_ne).
    exists w1. split; [|split; [split|split]].
    + rewrite (run_bind _ _ _ _ _ (load_run _ _ _ Hx)), write_tag_ok by lia. by rewrite run_lifted.
    + eapply okx_weaken; [apply (okx_put_tag _ _ w t x (set_data (Serialize tag) x) 0 Hok Hx); simpl; [done|lia|lia|rewrite size_of_octets; lia|lia]|].
      intros q z _. rewrite !adj_eq, points_some. unfold zero. split; [lia|]. case_bool_decide; simpl; lia.
    + apply positive_put_tag; [done|simpl; lia].
    + exists m. split; [done|]. exists (ps ++ t :: l2). split; [by apply (path_put_tag w t x)|]. rewrite fmap_app, fmap_cons. f_equal; [|f_equal].
      * symmetry. apply items_avoid. intros q Hq'. apply Hne. intros ->. apply (Hdis t Hq'). by left.
      * unfold item. simpl. by rewrite lookup_insert_eq.
      * symmetry. apply items_avoid. intros q Hq'. apply Hne. by intros ->.
    + assert (owned w i (ps ++ [t]) (next x)) as Ho2.
      { destruct Hown as (m' & Hm' & Hs'). exists m'. split; [done|]. by eapply seg_snoc. }
      intros j Hj. change (w_lists w1) with (w_lists w). destruct (w_lists w !! j) as [mj|] eqn:Hmj; [|done]. exists mj. split; [done|].
      intros cs (l & Hl' & <-). exists l. split; [by apply (path_put_tag w t x)|]. symmetry. apply items_avoid. intros q Hq'. apply Hne. intros ->.
      apply (owned_excl _ _ _ _ _ _ _ _ Hok Hj Hmj Hl' _ Ho2 (fun _ _ => eq_refl) t); [|done]. apply elem_of_app. right. by left.
  - set (y := mkTagData (next x) 1 (tid x) (GetSerializedSize tag) (Serialize tag)).
    destruct (fork_ok k w i ps t x y Hok Hpos Hk Hown Hx Hpre) as (w1 & w3 & w2 & E1 & N1 & Ht1 & E3 & E4 & O' & P' & Ho' & _ & Kp & Kn & Hpath & Hit);
      [done|done|by simpl; rewrite size_of_octets; split; [|apply size_limit]|].
    destruct Hp as (_ & x' & Hx' & Hp). assert (x' = x) as -> by congruence.
    exists w2. split; [|split; [split|split]].
    + rewrite (run_bind _ _ _ _ _ E1). apply create_tag_run. intros z Ez.
      assert (w_tags (new_tag z w1) !! t = Some (set_count (count x - 1) x)) as Hz.
      { simpl. rewrite lookup_insert_ne; [done|]. rewrite N1. intros E. pose proof (x_new _ _ _ Hok _ _ Hx). lia. }
      rewrite (run_bind _ _ _ _ _ (load_run _ _ _ Hz)), store_new_tag, Ez, <- Ht. cbn [next set_count]. fold y.
      by rewrite (run_bind _ _ _ _ _ E3), N1, (run_bind _ _ _ _ _ E4).
    + eapply okx_weaken; [exact O'|]. intros q z _. split; [done|]. rewrite adj_opt_eq. destruct (points q (next x)); simpl; lia.
    + done.
    + destruct (Hpath l2 Hp) as [Hp2 Hi2]. destruct (owned_reads _ _ _ _ _ Ho' Hp2) as (m2 & Hm2 & Hr2). exists m2. split; [done|].
      rewrite Hit, Hi2, <- app_assoc in Hr2. exact Hr2.
    + intros j Hj. destruct (w_lists w !! j) as [mj|] eqn:Hmj; [|by apply Kn]. exists mj. by apply Kp.
Qed.

Lemma Replace_ok k w i (tag : T) cs : good k w -> 1 <= k < 2 ^ 32 - 2 -> reads_list w i cs ->
  Forall (fun c => Z.of_nat (length c.2) = tag_size c.1) cs ->
  exists w', Replace i tag w = Ok (bool_decide (is_Some (lookup_tag (GetInstanceTypeId tag) cs)), w') /\ good (k + 1) w' /\
    reads_list w' i (match lookup_tag (GetInstanceTypeId tag) cs with
      | Some _ => replace_tag (GetInstanceTypeId tag) (Serialize tag) cs
      | None => (GetInstanceTypeId tag, Serialize tag) :: cs
      end) /\ apart i w w'.
Proof.
  intros Hg Hk Hr Hsz. pose proof Hg as [Hok Hpos]. pose proof (Add_ok k w i tag cs Hg Hk Hr) as Hadd.
  destruct (tag_cases w i cs (GetInstanceTypeId tag) Hr) as (n & Hn & [(El & qs & Hp & Ho)|(d & l1 & t & l2 & El & Hp & Ho & Ht & _ & Erep)]);
    rewrite El in *; unfold Replace.
  - rewrite (run_bind _ _ _ _ _ (COWTraverse_absent w i tag (ReplaceWriter i) Hpos n Hn qs Hp Ho)). cbn [negb when].
    destruct Hadd as (w' & E & Hw'). exists w'. by rewrite (run_bind _ _ _ _ _ E).
  - destruct (COWTraverse_found k w i tag (ReplaceWriter i) Hok Hpos Hk n Hn l1 t l2 Hp Ho) as (w1 & ps & pre & E & O1 & P1 & Ho1 & K1 & I1 & Hp1 & I2 & x & Hx & Hpre); [by rewrite Ht|].
    rewrite !fmap_cons in I2. injection I2 as I2 I3. rewrite Ht in I2. unfold item in I2 at 1. rewrite Hx in I2. injection I2 as Et Ed.
    destruct (ReplaceWriter_ok k w1 i tag pre t ps l2 x O1 P1 Hk Ho1 Hp1 Hx Hpre Et) as (w2 & E2 & G2 & R2 & A2).
    { pose proof (x_data _ _ _ O1 _ _ Hx) as [-> _]. destruct Hr as (n' & Hn' & cps & Hcp & <-). assert (n' = n) as -> by congruence.
      rewrite <- (path_unique _ _ _ _ Hp Hcp), fmap_app, fmap_cons, Ht in Hsz. apply Forall_app in Hsz as [_ Hsz]. apply Forall_cons in Hsz as [Hsz _].
      simpl in Hsz. by rewrite Ed, Et. }
    rewrite Et, I1, I3 in R2. exists w2. rewrite (run_bind _ _ _ _ _ (eq_trans E E2)). rewrite Erep. split; [done|]. split; [done|]. split; [done|]. by eapply keeps_apart.
Qed.
End writing.

(** ** A program with lists of tags

    [perform] is a call of one of the functions of the lists; [promise] is what it
    should do: every list is an association list of its own. *)

Abbreviation Lists := (gmap nat (list (Z * bytes))).
Section programs.
Context {T : Type} `{Tag T}.

Inductive command :=
| New (i : nat) | Copy (i o : nat) | Assign (i o : nat) | Destroy (i : nat) | Clear (i : nat)
| DoAdd (i : nat) (tag : T) | DoRemove (i : nat) (tag : T) | DoReplace (i : nat) (tag : T) | DoPeek (i : nat) (tag : T).
(** The result of the call and the tag that it has read, if it has *)
Definition outcome : Type := bool * option T.
Definition silent (m : M unit) : M outcome := _ ← m; mret (true, None).
Definition reading (m : M (bool * T)) : M outcome := '(found, tag) ← m; mret (found, if found : bool then Some tag else None).
Definition perform (c : command) : M outcome :=
  match c with
  | New i => silent (new_list i)
  | Copy i o => silent (copy_list i o)
  | Assign i o => silent (assign i o)
  | Destroy i => silent (destroy i)
  | Clear i => silent (RemoveAll i)
  | DoAdd i tag => silent (Add i tag)
  | DoRemove i tag => reading (Remove i tag)
  | DoReplace i tag => found ← Replace i tag; mret (found, None)
  | DoPeek i tag => reading (Peek i tag)
  end.
Fixpoint performs (cs : list command) : M (list outcome) :=
  match cs with [] => mret [] | c :: cs => o ← perform c; os ← performs cs; mret (o :: os) end.

Definition the_list (i : nat) : st Lists (list (Z * bytes)) := fun s => l ← deref (s !! i); Ok (l, s).
Definition becomes (i : nat) (l : list (Z * bytes)) : st Lists unit := update (fun s => <[i := l]> s).
Definition arises (i : nat) (l : list (Z * bytes)) : st Lists unit := fun s =>
  match s !! i with Some _ => Err UndefinedBehaviour | None => becomes i l s end.
Definition ack : st Lists outcome := mret (true, None).
Definition promise (c : command) : st Lists outcome :=
  match c with
  | New i => _ ← arises i []; ack
  | Copy i o => l ← the_list o; _ ← arises i l; ack
  | Assign i o => _ ← the_list i; l ← the_list o; _ ← becomes i l; ack
  | Destroy i => _ ← the_list i; _ ← update (fun s => delete i s); ack
  | Clear i => _ ← the_list i; _ ← becomes i []; ack
  | DoAdd i tag =>
      l ← the_list i; _ ← lift (ns_assert (bool_decide (lookup_tag (GetInstanceTypeId tag) l = None)));
      _ ← becomes i ((GetInstanceTypeId tag, Serialize tag) :: l); ack
  | DoRemove i tag =>
      l ← the_list i;
      match lookup_tag (GetInstanceTypeId tag) l with
      | None => mret (false, None)
      | Some d => tag' ← lift (Deserialize d tag); _ ← becomes i (remove_tag (GetInstanceTypeId tag) l); mret (true, Some tag')
      end
  | DoReplace i tag =>
      l ← the_list i;
      match lookup_tag (GetInstanceTypeId tag) l with
      | None => _ ← becomes i ((GetInstanceTypeId tag, Serialize tag) :: l); mret (false, None)
      | Some _ => _ ← becomes i (replace_tag (GetInstanceTypeId tag) (Serialize tag) l); mret (true, None)
      end
  | DoPeek i tag =>
      l ← the_list i;
      match lookup_tag (GetInstanceTypeId tag) l with
      | None => mret (false, None)
      | Some d => tag' ← lift (Deserialize d tag); mret (true, Some tag')
      end
  end.
Fixpoint promises (cs : list command) : st Lists (list outcome) :=
  match cs with [] => mret [] | c :: cs => o ← promise c; os ← promises cs; mret (o :: os) end.

(** The lists read what the association lists hold. *)
Definition represents (s : Lists) (w : World) : Prop := forall i, match s !! i with
  | Some l => reads_list w i l
  | None => w_lists w !! i = None
  end.
Definition sized (tag_size : Z -> Z) (s : Lists) : Prop :=
  forall i l, s !! i = Some l -> Forall (fun c => Z.of_nat (length c.2) = tag_size c.1) l.
End programs.

(** *** A change of one list *)

Lemma represents_at s w i l : represents s w -> s !! i = Some l -> reads_list w i l.
Proof. intros Hr Hi. specialize (Hr i). by rewrite Hi in Hr. Qed.
Lemma represents_none s w i : represents s w -> s !! i = None -> w_lists w !! i = None.
Proof. intros Hr Hi. specialize (Hr i). by rewrite Hi in Hr. Qed.
Lemma apart_represents s w w' i j : represents s w -> apart i w w' -> j <> i -> match s !! j with Some l => reads_list w' j l | None => w_lists w' !! j = None end.
Proof.
  intros Hr Ha Hj. specialize (Hr j). specialize (Ha j Hj). destruct (s !! j) as [l|]; [|by rewrite Hr in Ha].
  destruct Hr as (m & Hm & Hr). rewrite Hm in Ha. destruct Ha as (m' & Hm' & Ha). exists m'. auto.
Qed.
Lemma represents_insert s w w' i l : represents s w -> apart i w w' -> reads_list w' i l -> represents (<[i := l]> s) w'.
Proof.
  intros Hr Ha Hl j. destruct (decide (j = i)) as [->|Hj]; [by rewrite lookup_insert_eq|]. rewrite lookup_insert_ne by done. by eapply apart_represents.
Qed.
Lemma represents_delete s w w' i : represents s w -> apart i w w' -> w_lists w' !! i = None -> represents (delete i s) w'.
Proof.
  intros Hr Ha Hl j. destruct (decide (j = i)) as [->|Hj]; [by rewrite lookup_delete_eq|]. rewrite lookup_delete_ne by done. by eapply apart_represents.
Qed.
Lemma good_weaken k k' w : good k w -> k <= k' -> good k' w.
Proof. intros [Hok Hp] Hk. split; [|done]. eapply okx_weaken; [exact Hok|]. intros; split; [done|lia]. Qed.
Lemma apart_delete i w : apart i w (with_lists (delete i (w_lists w)) w).
Proof. intros j Hj. simpl. rewrite lookup_delete_ne by done. destruct (w_lists w !! j) as [m|]; [exists m; auto|done]. Qed.

Lemma drop_ok k w i : good k w -> w_lists w !! i = Some None -> good k (with_lists (delete i (w_lists w)) w).
Proof.
  intros [Hok Hpos] Hi. split; [|exact Hpos].
  split; [|apply (x_node _ _ _ Hok)| |apply (x_range _ _ _ Hok)|apply (x_data _ _ _ Hok)|apply (x_new _ _ _ Hok)].
  - intros j m. simpl. intros [_ Hj]%lookup_delete_Some. by apply (x_list _ _ _ Hok j).
  - intros q z Hz. simpl in Hz. rewrite (x_count _ _ _ Hok _ _ Hz). unfold refs. simpl. rewrite (occ_delete _ _ _ _ Hi).
    assert (points q None = false) as -> by (by apply bool_decide_eq_false_2). simpl. lia.
Qed.
Lemma reads_unique m n cs cs' : reads m n cs -> reads m n cs' -> cs = cs'.
Proof. intros (ps & Hp & <-) (qs & Hq & <-). by rewrite (path_unique _ _ _ _ Hp Hq). Qed.

(** A node that is allocated is on a list. *)
Definition on_list (w : World) (p : nat) : Prop := exists i n l, w_lists w !! i = Some n /\ path (w_tags w) n l /\ p ∈ l.
Lemma path_tail m n l1 p l2 x : path m n (l1 ++ p :: l2) -> m !! p = Some x -> path m (next x) l2.
Proof. intros Hp Hx. destruct (path_split _ _ _ _ _ Hp) as (y & Hy & H). by assert (y = x) as -> by congruence. Qed.
Lemma nothing_lost b w : okx zero b w -> positive w -> forall p x, w_tags w !! p = Some x -> on_list w p.
Proof.
  intros Hok Hpos. assert (forall d p l, path (w_tags w) (Some p) (p :: l) -> (base.size (w_tags w) - length l <= d)%nat -> on_list w p) as H.
  { induction d as [|d IH]; intros p l Hp Hd; [pose proof (path_length _ _ _ Hp); simpl in *; lia|].
    pose proof Hp as (_ & x & Hx & _). pose proof (x_count _ _ _ Hok _ _ Hx) as Hc. unfold zero, refs in Hc. pose proof (Hpos _ _ Hx).
    assert (1 <= occ (points p) (w_lists w) \/ 1 <= occ (fun y => points p (next y)) (w_tags w)) as [Ho|Ho] by lia;
      apply occ_some in Ho as (q & y & Hy & E%bool_decide_eq_true_1).
    - subst y. exists q, (Some p), (p :: l). split; [done|]. split; [done|]. by left.
    - assert (path (w_tags w) (Some q) (q :: p :: l)) as Hq by (split; [done|]; exists y; by rewrite E).
      destruct (IH q (p :: l) Hq) as (i & n & l' & Hi & Hl' & (l1 & l2 & ->)%list_elem_of_split); [pose proof (path_length _ _ _ Hp); simpl in *; lia|].
      exists i, n, (l1 ++ q :: l2). split; [done|]. split; [done|]. pose proof (path_tail _ _ _ _ _ _ Hl' Hy) as H2. rewrite E in H2.
      destruct l2 as [|r l2]; [done|]. destruct H2 as ([= <-] & _). apply elem_of_app. right. right. by left. }
  intros p x Hx. destruct (x_node _ _ _ Hok _ _ Hx) as (l & Hl). eapply (H (base.size (w_tags w)) p l); [|lia]. split; [done|]. by exists x.
Qed.

(** *** Every call does what is promised *)

Section calls.
Context {T : Type} `{SizedTag T tag_size}.

(** What a call does, and what it should do *)
Definition agrees {A} (k : Z) (r : res (A * Lists)) (r' : res (A * World)) : Prop :=
  match r with
  | Ok (o, s) => exists w, r' = Ok (o, w) /\ represents s w /\ good k w /\ sized tag_size s
  | Err f => r' = Err f
  end.

Lemma sized_insert s i l : sized tag_size s -> Forall (fun c => Z.of_nat (length c.2) = tag_size c.1) l -> sized tag_size (<[i := l]> s).
Proof using. intros Hs Hl j l'. intros [[_ <-]|[_ Hj]]%lookup_insert_Some; [done|by eapply Hs]. Qed.
Lemma sized_tag (tag : T) : Z.of_nat (length (Serialize tag)) = tag_size (GetInstanceTypeId tag).
Proof. by rewrite size_of_octets, size_of_type. Qed.
Lemma sized_remove t cs : Forall (fun c => Z.of_nat (length c.2) = tag_size c.1) cs -> Forall (fun c => Z.of_nat (length c.2) = tag_size c.1) (remove_tag t cs).
Proof using. induction 1 as [|[u d] cs Hu Hcs IH]; simpl; [constructor|]. destruct (u =? t); [done|by constructor]. Qed.
Lemma sized_replace (tag : T) cs : Forall (fun c => Z.of_nat (length c.2) = tag_size c.1) cs ->
  Forall (fun c => Z.of_nat (length c.2) = tag_size c.1) (replace_tag (GetInstanceTypeId tag) (Serialize tag) cs).
Proof.
  induction 1 as [|[u d] cs Hu Hcs IH]; simpl; [constructor|]. destruct (Z.eqb_spec u (GetInstanceTypeId tag)) as [->|Hne]; [|by constructor].
  constructor; [|done]. apply sized_tag.
Qed.

Context (k : Z) (s : Lists) (w : World).
Hypothesis Hr : represents s w.
Hypothesis Hg : good k w.
Hypothesis Hs : sized tag_size s.
Hypothesis Hk : 1 <= k < 2 ^ 32 - 4.

Lemma no_list {A} i (c : option nat -> M A) : s !! i = None -> (m_next i ≫= c) w = Err UndefinedBehaviour.
Proof using Hr. intros Hi. unfold m_next, mbind, st_bind. by rewrite (represents_none _ _ _ Hr Hi). Qed.
Lemma changed {A} i l (o : A) (m : M A) w' k' : m w = Ok (o, w') -> good k' w' -> k' <= k + 2 -> reads_list w' i l -> apart i w w' ->
  Forall (fun c => Z.of_nat (length c.2) = tag_size c.1) l -> agrees (k + 2) (Ok (o, <[i := l]> s)) (m w).
Proof using Hr Hs.
  intros E G Hk' R A' Hl. exists w'. split; [done|]. split; [by eapply represents_insert|]. split; [by eapply good_weaken|]. by apply sized_insert.
Qed.
Lemma unchanged {A} (o : A) (m : M A) : m w = Ok (o, w) -> agrees (k + 2) (Ok (o, s)) (m w).
Proof using Hr Hg Hs. intros E. exists w. split; [done|]. split; [done|]. split; [eapply good_weaken; [done|lia]|done]. Qed.

Lemma New_agrees i : agrees (k + 2) (promise (New i) s) (perform (New (T := T) i) w).
Proof using Hr Hg Hs Hk.
  cbn [promise perform]. unfold arises, silent, new_list, construct, mbind, st_bind. destruct (s !! i) as [l|] eqn:Hi.
  - destruct (represents_at _ _ _ _ Hr Hi) as (m & -> & _). done.
  - pose proof (represents_none _ _ _ Hr Hi) as Hn. rewrite Hn.
    destruct (share_ok k w i None [] Hg ltac:(lia) (or_introl Hn) ltac:(by exists [])) as (w' & [= <-] & G & R & A).
    eapply (changed i [] _ (fun w => Ok (_, _))); [done|exact G|lia|done|done|constructor].
Qed.
Lemma Copy_agrees i o : agrees (k + 2) (promise (Copy i o) s) (perform (Copy (T := T) i o) w).
Proof using Hr Hg Hs Hk.
  cbn [promise perform]. unfold silent, copy_list. destruct (s !! o) as [l|] eqn:Ho.
  2: { unfold the_list, mbind, st_bind. rewrite Ho. simpl. unfold m_next. by rewrite (represents_none _ _ _ Hr Ho). }
  destruct (represents_at _ _ _ _ Hr Ho) as (m & Hm & Hrd). unfold the_list, arises, construct. unfold mbind, st_bind. rewrite Ho. cbn [deref mbind res_bind].
  unfold m_next. rewrite Hm. cbn [deref mbind res_bind]. destruct (s !! i) as [l'|] eqn:Hi.
  - destruct (represents_at _ _ _ _ Hr Hi) as (m' & -> & _). done.
  - pose proof (represents_none _ _ _ Hr Hi) as Hn. rewrite Hn.
    destruct (share_ok k w i m l Hg ltac:(lia) (or_introl Hn) Hrd) as (w' & E & G & R & A).
    unfold mbind, st_bind in E. rewrite E. eapply (changed i l _ (fun w => Ok (_, _))); [done|exact G|lia|done|done|by eapply Hs].
Qed.
Lemma Clear_agrees i : agrees (k + 2) (promise (Clear i) s) (perform (Clear (T := T) i) w).
Proof using Hr Hg Hs Hk.
  cbn [promise perform]. unfold silent. destruct (s !! i) as [l|] eqn:Hi.
  2: { unfold the_list, mbind, st_bind. rewrite Hi. simpl. unfold RemoveAll. by rewrite no_list. }
  destruct (RemoveAll_ok k w i l Hg ltac:(lia) (represents_at _ _ _ _ Hr Hi)) as (w' & E & G & Hn & A).
  unfold the_list, mbind, st_bind. rewrite Hi, E. cbn. eapply (changed i [] _ (fun w => Ok (_, _))); [done|exact G|lia|by apply reads_list_nil|done|constructor].
Qed.
Lemma Destroy_agrees i : agrees (k + 2) (promise (Destroy i) s) (perform (Destroy (T := T) i) w).
Proof using Hr Hg Hs Hk.
  cbn [promise perform]. unfold silent, destroy. destruct (s !! i) as [l|] eqn:Hi.
  2: { unfold the_list, mbind, st_bind. rewrite Hi. simpl. unfold RemoveAll. by rewrite no_list. }
  destruct (RemoveAll_ok k w i l Hg ltac:(lia) (represents_at _ _ _ _ Hr Hi)) as (w' & E & G & Hn & A).
  unfold the_list, mbind, st_bind. rewrite Hi, E. cbn. eexists. split; [done|]. split; [|split].
  - eapply represents_delete; [done| |apply lookup_delete_eq]. eapply apart_trans; [done|apply apart_delete].
  - apply drop_ok; [|done]. eapply good_weaken; [done|lia].
  - intros j l'. intros [_ Hj]%lookup_delete_Some. by eapply Hs.
Qed.
Lemma Assign_agrees i o : agrees (k + 2) (promise (Assign i o) s) (perform (Assign (T := T) i o) w).
Proof using Hr Hg Hs Hk.
  cbn [promise perform]. unfold silent, assign. destruct (s !! i) as [l|] eqn:Hi.
  2: { unfold the_list, mbind, st_bind. rewrite Hi. simpl. unfold m_next. by rewrite (represents_none _ _ _ Hr Hi). }
  destruct (represents_at _ _ _ _ Hr Hi) as (a & Ha & Hra). destruct (s !! o) as [l'|] eqn:Ho.
  2: { unfold the_list, mbind, st_bind. rewrite Hi. simpl. rewrite Ho. simpl. unfold m_next. by rewrite Ha; simpl; rewrite (represents_none _ _ _ Hr Ho). }
  destruct (represents_at _ _ _ _ Hr Ho) as (b & Hb & Hrb).
  assert (((_ ← the_list i; l0 ← the_list o; _ ← becomes i l0; ack) s : res (outcome (T := T) * Lists)) = Ok ((true, None), <[i := l']> s)) as ->.
  { unfold the_list, mbind, st_bind. rewrite Hi. simpl. by rewrite Ho. }
  destruct (decide (a = b)) as [->|Hab].
  - rewrite (reads_unique _ _ _ _ Hrb Hra), insert_id by done. apply unchanged.
    unfold mbind, st_bind. unfold m_next. rewrite Ha. cbn. rewrite Hb. cbn. by rewrite bool_decide_eq_true_2.
  - destruct (RemoveAll_ok k w i l Hg ltac:(lia) (represents_at _ _ _ _ Hr Hi)) as (w1 & E1 & G1 & Hn1 & A1).
    assert (o <> i) as Hoi by congruence. pose proof (A1 o Hoi) as Ho1. rewrite Hb in Ho1. destruct Ho1 as (b1 & Hb1 & Hrb1).
    destruct (share_ok (k + 1) w1 i b1 l' G1 ltac:(lia) (or_intror Hn1) (Hrb1 _ Hrb)) as (w2 & E2 & G2 & R2 & A2).
    eapply (changed i l' _ _ w2); [|exact G2|lia|done|by eapply apart_trans|by eapply Hs].
    assert ((a0 ← m_next i; b0 ← m_next o; if bool_decide (a0 = b0) then mret tt else _ ← RemoveAll i; n ← m_next o; _ ← set_m_next i n; merge_opt n) w = Ok (tt, w2)) as E.
    { rewrite (run_bind _ _ _ _ _ (m_next_run _ _ _ Ha)), (run_bind _ _ _ _ _ (m_next_run _ _ _ Hb)), bool_decide_eq_false_2 by done.
      by rewrite (run_bind _ _ _ _ _ E1), (run_bind _ _ _ _ _ (m_next_run _ _ _ Hb1)). }
    by rewrite (run_bind _ _ _ _ _ E).
Qed.
Lemma Add_agrees i (tag : T) : agrees (k + 2) (promise (DoAdd i tag) s) (perform (DoAdd i tag) w).
Proof using H0 Hr Hg Hs Hk.
  cbn [promise perform]. unfold silent. destruct (s !! i) as [l|] eqn:Hi.
  2: { unfold the_list, mbind, st_bind. rewrite Hi. cbn. unfold Add. by rewrite no_list. }
  pose proof (Add_ok k w i tag l Hg ltac:(lia) (represents_at _ _ _ _ Hr Hi)) as Hadd.
  unfold the_list, mbind, st_bind. rewrite Hi. cbn. destruct (lookup_tag (GetInstanceTypeId tag) l) as [d|]; [by rewrite Hadd|].
  destruct Hadd as (w' & E & G & R & A). rewrite E. cbn.
  eapply (changed i _ _ (fun w => Ok (_, _))); [done|exact G|lia|done|done|]. constructor; [apply sized_tag|by eapply Hs].
Qed.
Lemma Remove_agrees i (tag : T) : agrees (k + 2) (promise (DoRemove i tag) s) (perform (DoRemove i tag) w).
Proof using Hr Hg Hs Hk.
  cbn [promise perform]. unfold reading. destruct (s !! i) as [l|] eqn:Hi.
  2: { unfold the_list, mbind, st_bind. rewrite Hi. cbn. unfold Remove, COWTraverse. by rewrite no_list. }
  pose proof (tags_Remove_ok k w i tag l Hg ltac:(lia) (represents_at _ _ _ _ Hr Hi)) as Hrem.
  unfold the_list, mbind, st_bind. rewrite Hi. cbn. destruct (lookup_tag (GetInstanceTypeId tag) l) as [d|].
  - destruct Hrem as (w' & E & G & R & A). rewrite E. unfold lift. destruct (Deserialize d tag) as [tag'|f]; [|done]. cbn.
    eapply (changed i _ _ (fun w => Ok (_, _))); [done|exact G|lia|done|done|]. by eapply sized_remove, Hs.
  - rewrite Hrem. cbn. by apply (unchanged _ (fun w => Ok (_, _))).
Qed.
Lemma Peek_agrees i (tag : T) : agrees (k + 2) (promise (DoPeek i tag) s) (perform (DoPeek i tag) w).
Proof using Hr Hg Hs Hk.
  cbn [promise perform]. unfold reading. destruct (s !! i) as [l|] eqn:Hi.
  2: { unfold the_list, mbind, st_bind. rewrite Hi. cbn. unfold Peek. by rewrite no_list. }
  unfold the_list, mbind, st_bind. rewrite Hi, (tags_Peek_ok w i tag l (represents_at _ _ _ _ Hr Hi)). cbn.
  destruct (lookup_tag (GetInstanceTypeId tag) l) as [d|]; [|by apply (unchanged _ (fun w => Ok (_, _)))].
  unfold lift. destruct (Deserialize d tag) as [tag'|f]; [|done]. by apply (unchanged _ (fun w => Ok (_, _))).
Qed.
Lemma Replace_agrees i (tag : T) : agrees (k + 2) (promise (DoReplace i tag) s) (perform (DoReplace i tag) w).
Proof using H0 Hr Hg Hs Hk.
  cbn [promise perform]. destruct (s !! i) as [l|] eqn:Hi.
  2: { unfold the_list, mbind, st_bind. rewrite Hi. cbn. unfold Replace. unfold mbind at 1, st_bind at 1. unfold COWTraverse. by rewrite no_list. }
  destruct (Replace_ok k w i tag l Hg ltac:(lia) (represents_at _ _ _ _ Hr Hi) (Hs _ _ Hi)) as (w' & E & G & R & A).
  unfold the_list, mbind, st_bind. rewrite Hi, E. cbn. pose proof (Hs _ _ Hi). destruct (lookup_tag (GetInstanceTypeId tag) l) as [d|];
    (eapply (changed i _ _ (fun w => Ok (_, _))); [done|exact G|lia|done|done|]).
  - by apply sized_replace.
  - constructor; [apply sized_tag|done].
Qed.
Lemma call_agrees (c : command (T := T)) : agrees (k + 2) (promise c s) (perform c w).
Proof using H0 Hr Hg Hs Hk.
  destruct c; [apply New_agrees|apply Copy_agrees|apply Assign_agrees|apply Destroy_agrees|apply Clear_agrees|apply Add_agrees|apply Remove_agrees|
    apply Replace_agrees|apply Peek_agrees].
Qed.
End calls.

Section sessions.
Context {T : Type} `{SizedTag T tag_size}.

Lemma calls_agree (cs : list command) : forall k s w, represents s w -> good k w -> sized tag_size s -> 1 <= k -> k + 2 * Z.of_nat (length cs) < 2 ^ 32 - 2 ->
  agrees (tag_size := tag_size) (k + 2 * Z.of_nat (length cs)) (promises cs s) (performs (T := T) cs w).
Proof.
  induction cs as [|c cs IH]; intros k s w Hr Hg Hs Hk Hlen; simpl.
  - exists w. split; [done|]. split; [done|]. split; [|done]. eapply good_weaken; [done|lia].
  - pose proof (call_agrees k s w Hr Hg Hs ltac:(simpl in Hlen; lia) c) as Hc. unfold mbind, st_bind. destruct (promise c s) as [[o s1]|f]; [|by rewrite Hc].
    destruct Hc as (w1 & E & Hr1 & Hg1 & Hs1). rewrite E. simpl in Hlen. pose proof (IH (k + 2) s1 w1 Hr1 Hg1 Hs1 ltac:(lia) ltac:(lia)) as Hcs.
    destruct (promises cs s1) as [[os s2]|f]; [|by rewrite Hcs]. destruct Hcs as (w2 & E2 & Hr2 & Hg2 & Hs2). rewrite E2. exists w2.
    split; [done|]. split; [done|]. split; [|done]. eapply good_weaken; [done|lia].
Qed.
Lemma initial_good fresh : good 1 (initial_world fresh) /\ represents ∅ (initial_world fresh) /\ sized tag_size ∅.
Proof using.
  split; [|split; [by intros i|done]]. split; [split|]; done.
Qed.

(** C18. Packets are copied all the time, and their tag lists share their nodes: a copy
    counts the first node once more, [Remove] and [Replace] copy the nodes that are
    shared and rewrite or free those that are not, an assignment or a destructor frees
    nodes until one that another list needs.  Let the tags of each type have one
    size ([SizedTag]), as those of the sockets and of the load balancer do; those of
    [DeviceNameTag] do not, and [Replace] then differs (see
    [not_replaced_when_not_shared]).  Whatever calls a program makes on
    whatever lists, in any order, fewer than 2^31 - 2, each answers what it would if every list were an
    association list of its own ([promises]), and stops where that would: a list is
    never changed through another.  After them every list reads what its association list holds, the
    count of each node is exactly the number of pointers to it, and every node
    that is allocated is on some list, so that nothing is leaked, freed twice or used
    after it was freed. *)
Theorem tag_lists_are_independent (fresh : nat -> nat -> Z) (cs : list (command (T := T))) :
  Z.of_nat (length cs) < 2 ^ 31 - 2 ->
  match promises cs ∅ with
  | Ok (os, s) => exists w, performs cs (initial_world fresh) = Ok (os, w) /\ represents s w /\
      (forall p x, w_tags w !! p = Some x -> 1 <= count x /\ count x = refs w p /\ on_list w p)
  | Err f => performs cs (initial_world fresh) = Err f
  end.
Proof.
  intros Hlen. destruct (initial_good fresh) as (Hg & Hr & Hs).
  pose proof (calls_agree cs 1 ∅ (initial_world fresh) Hr Hg Hs ltac:(lia) ltac:(lia)) as Hc.
  destruct (promises cs ∅) as [[os s]|f]; [|done]. destruct Hc as (w & E & Hrw & [Hok Hpos] & _). exists w. split; [done|]. split; [done|].
  intros p x Hx. split; [by eapply Hpos|]. split; [rewrite (x_count _ _ _ Hok _ _ Hx); unfold zero; lia|]. by eapply nothing_lost.
Qed.
End sessions.

(** ** Serialization *)

(** The octets of the tags [cs], from [p] on *)
Fixpoint encoded (p : Z) (cs : list (Z * bytes)) (mem : bytes) : Prop :=
  match cs with
  | [] => True
  | (t, d) :: cs =>
      slice p 4 mem = WriteU32 (Z.of_nat (length d)) /\ slice (p + 4) 4 mem = WriteU32 t /\ slice (p + 8) (Z.of_nat (length d)) mem = d /\
      encoded (p + 8 + pad4 (Z.of_nat (length d))) cs mem
  end.
Fixpoint extent (cs : list (Z * bytes)) : Z :=
  match cs with [] => 0 | (_, d) :: cs => 8 + pad4 (Z.of_nat (length d)) + extent cs end.

Lemma extent_nonneg cs : 0 <= extent cs.
Proof.
  induction cs as [|[t d] cs IH]; simpl; [lia|]. unfold pad4. pose proof (wrap_range 32 (Z.of_nat (length d) + 3) ltac:(lia)) as Hr. unfold in_range in Hr.
  assert (0 <= Z.land (u32 (Z.of_nat (length d) + 3)) (u32 (Z.lnot 3))); [|lia]. apply Z.land_nonneg. left. lia.
Qed.
Lemma encoded_ext cs mem mem' : forall p, 0 <= p ->
  (forall off n, p <= off -> off + n <= p + extent cs -> slice off n mem' = slice off n mem) ->
  Forall (fun c => Z.of_nat (length c.2) < limit) cs -> encoded p cs mem -> encoded p cs mem'.
Proof.
  induction cs as [|[t d] cs IH]; intros p Hp He Hl; [done|]. intros (H1 & H2 & H3 & H4). apply Forall_cons in Hl as [Hd Hl]. simpl in Hd.
  pose proof (extent_nonneg cs). destruct (pad4_eq (Z.of_nat (length d))) as [_ Hpad]; [lia|]. simpl in He.
  split; [rewrite He by lia; done|]. split; [rewrite He by lia; done|]. split; [rewrite He by lia; done|].
  apply IH; [lia| |done|done]. intros off n Ho Hn. apply He; lia.
Qed.
Lemma hashSize_4 : hashSize = 4.
Proof. reflexivity. Qed.
Lemma pad4_div n : 0 <= n < limit -> 4 * (pad4 n / 4) = pad4 n.
Proof. intros Hn. destruct (pad4_eq n Hn) as [-> _]. rewrite (Z.mul_comm 4 ((n + 3) / 4)), Z.div_mul by lia. lia. Qed.

Section writing_lists.
Context (a b : nat -> Z) (w : World).
Hypothesis Hok : okx a b w.

Lemma size_loop_ok qs : forall fuel n total, path (w_tags w) n qs -> (length qs <= fuel)%nat -> 0 <= total ->
  Forall (fun c => Z.of_nat (length c.2) < limit) (item (w_tags w) <$> qs) -> total + extent (item (w_tags w) <$> qs) < limit ->
  size_loop fuel n total w = Ok (total + extent (item (w_tags w) <$> qs), w).
Proof using Hok.
  induction qs as [|c qs IH]; intros fuel n total Hp Hf Ht Hl He.
  - simpl in Hp. subst. simpl. rewrite Z.add_0_r. by destruct fuel.
  - destruct fuel as [|fuel]; [simpl in Hf; lia|]. destruct Hp as (-> & x & Hx & Hp). simpl in Hf.
    assert (item (w_tags w) c = (tid x, data x)) as Ei by (unfold item; by rewrite Hx).
    rewrite fmap_cons, Ei in Hl, He |- *. apply Forall_cons in Hl as [Hd Hl]. cbn [snd] in Hd. cbn [extent] in He |- *.
    destruct (x_data _ _ _ Hok _ _ Hx) as [Es _]. rewrite <- Es in *. destruct (pad4_eq (size x)) as [_ Hpad]; [lia|].
    pose proof (extent_nonneg (item (w_tags w) <$> qs)). cbn [size_loop]. rewrite (run_bind _ _ _ _ _ (load_run _ _ _ Hx)), hashSize_4.
    unfold limit in *. rewrite (wrap_small 32 (total + 4)), (wrap_small 32 (total + 4 + 4)), (wrap_small 32 (total + 4 + 4 + pad4 (size x))) by (unfold in_range; lia).
    rewrite IH; [|done|lia|lia|done|lia]. do 2 f_equal. lia.
Qed.

Lemma write_loop_ok maxSize qs : forall fuel n p mem k, path (w_tags w) n qs -> (length qs <= fuel)%nat -> 4 <= p ->
  Forall (fun c => in_range 32 c.1 /\ Z.of_nat (length c.2) < limit) (item (w_tags w) <$> qs) ->
  p + extent (item (w_tags w) <$> qs) <= maxSize -> p + extent (item (w_tags w) <$> qs) < limit -> maxSize <= Z.of_nat (length mem) ->
  slice 0 4 mem = WriteU32 k -> 0 <= k -> k + Z.of_nat (length qs) < 2 ^ 32 ->
  exists mem', write_loop fuel n p p maxSize mem w = Ok (1, mem', w) /\ length mem' = length mem /\
    slice 0 4 mem' = WriteU32 (k + Z.of_nat (length qs)) /\ encoded p (item (w_tags w) <$> qs) mem' /\
    (forall off n, 4 <= off -> off + n <= p -> slice off n mem' = slice off n mem).
Proof using Hok.
  induction qs as [|c qs IH]; intros fuel n p mem k Hp Hf H4 Hl Hmax He Hmem Hk Hk0 Hkq.
  - simpl in Hp. subst. exists mem. split; [by destruct fuel|]. split; [done|]. simpl. by rewrite Z.add_0_r.
  - destruct fuel as [|fuel]; [simpl in Hf; lia|]. destruct Hp as (-> & x & Hx & Hp). simpl in Hf. cbn [length] in Hkq.
    assert (item (w_tags w) c = (tid x, data x)) as Ei by (unfold item; by rewrite Hx).
    rewrite fmap_cons, Ei in Hl, Hmax, He |- *. apply Forall_cons in Hl as [[Ht Hd] Hl]. cbn [fst snd] in Ht, Hd. cbn [extent] in Hmax, He. cbn [encoded].
    destruct (x_data _ _ _ Hok _ _ Hx) as [Es _]. rewrite <- Es in *. destruct (pad4_eq (size x)) as [_ Hpad]; [lia|].
    pose proof (extent_nonneg (item (w_tags w) <$> qs)) as Hnn. set (rest := extent (item (w_tags w) <$> qs)) in *.
    assert (forall z, Z.of_nat (length (WriteU32 z)) = 4) as Hw4 by done. unfold limit in *.
    cbn [write_loop]. rewrite (run_bind _ _ _ _ _ (load_run _ _ _ Hx)), hashSize_4.
    rewrite (wrap_small 32 (p + 4)) by (unfold in_range; lia). rewrite (proj2 (Z.leb_le (p + 4) _)) by lia. cbn [negb].
    rewrite (put_ok p) by (rewrite ?Hw4; lia). rewrite run_lifted. set (m1 := splice p (WriteU32 (size x)) mem).
    assert (length m1 = length mem) as L1 by (apply length_splice; rewrite ?Hw4; lia).
    cbv zeta. rewrite (wrap_small 32 (p + 4 + 4)) by (unfold in_range; lia). rewrite (proj2 (Z.leb_le (p + 4 + 4) _)) by lia. cbn [negb].
    rewrite (put_ok (p + 4)) by (rewrite ?Hw4, ?L1; lia). rewrite run_lifted. set (m2 := splice (p + 4) (WriteU32 (tid x)) m1).
    assert (length m2 = length mem) as L2 by (rewrite <- L1; apply length_splice; rewrite ?Hw4, ?L1; lia).
    change (4 * (4 / 4)) with 4. rewrite (wrap_small 32 (p + 4 + 4 + pad4 (size x))) by (unfold in_range; lia).
    rewrite (proj2 (Z.leb_le (p + 4 + 4 + pad4 (size x)) _)) by lia. cbn [negb].
    assert (take (Z.to_nat (size x)) (data x) = data x) as -> by (rewrite Es, Nat2Z.id; apply firstn_all).
    rewrite (put_ok (p + 4 + 4)) by (rewrite ?L2; lia). rewrite run_lifted. set (m3 := splice (p + 4 + 4) (data x) m2).
    assert (length m3 = length mem) as L3 by (rewrite <- L2; apply length_splice; rewrite ?L2; lia).
    assert (slice 0 4 m3 = WriteU32 k) as Hk3.
    { unfold m3, m2, m1. rewrite !slice_splice_apart by (fold m1 m2; rewrite ?Hw4, ?L1, ?L2; lia). done. }
    rewrite (get_u32_ok 0 m3 k) by (done || (unfold in_range; lia) || lia). rewrite run_lifted.
    rewrite (wrap_small 32 (k + 1)) by (unfold in_range; lia).
    rewrite (put_ok 0) by (rewrite ?Hw4, ?L3; lia). rewrite run_lifted. set (m4 := splice 0 (WriteU32 (k + 1)) m3).
    assert (length m4 = length mem) as L4 by (rewrite <- L3; apply length_splice; rewrite ?Hw4, ?L3; lia).
    rewrite pad4_div by (unfold limit; lia).
    destruct (IH fuel (next x) (p + 4 + 4 + pad4 (size x)) m4 (k + 1)) as (m5 & E & L5 & C5 & I5 & F5);
      [done|lia|lia|done|lia|lia|lia|unfold m4; rewrite slice_splice_in by (rewrite ?Hw4, ?L3; lia); by apply slice_all|lia|lia|].
    replace (p + 4 + 4) with (p + 8) in * by lia. exists m5. split; [done|]. split; [congruence|]. split; [rewrite C5; simpl; f_equal; lia|].
    assert (forall off n, 4 <= off -> off + n <= p + 8 + pad4 (size x) -> slice off n m5 = slice off n m3) as F43.
    { intros off n Ho Hn. rewrite F5 by lia. unfold m4. apply slice_splice_apart; rewrite ?Hw4, ?L3; lia. }
    split; [split; [|split; [|split]]|].
    + rewrite F43 by lia. unfold m3, m2. rewrite !slice_splice_apart by (fold m1 m2; rewrite ?Hw4, ?L1, ?L2; lia). unfold m1.
      rewrite slice_splice_in, Z.sub_diag by (rewrite ?Hw4; lia). by apply slice_all.
    + rewrite F43 by lia. unfold m3. rewrite slice_splice_apart by (rewrite ?Hw4, ?L1, ?L2; lia). unfold m2.
      rewrite slice_splice_in, Z.sub_diag by (rewrite ?Hw4, ?L1; lia). by apply slice_all.
    + rewrite F43 by lia. unfold m3. rewrite slice_splice_in by (rewrite ?L2; lia). replace (p + 8 - (p + 4 + 4)) with 0 by lia. by apply slice_all.
    + done.
    + intros off m Ho Hn. rewrite F43 by lia. unfold m3, m2, m1. rewrite !slice_splice_apart by (fold m1 m2; rewrite ?Hw4, ?L1, ?L2; lia). done.
Qed.
End writing_lists.

(** A node is allocated at the end of a list whose nodes are its own. *)
Lemma tags_append_ok k w j ps y : good k w -> 1 <= k -> owned w j ps None -> next y = None -> count y = 1 ->
  size y = Z.of_nat (length (data y)) -> size y < 2 ^ 32 - 1 ->
  exists w', set_slot j (slot_of ps) (Some (w_new w)) (new_tag y w) = Ok (tt, w') /\ good k w' /\ owned w' j (ps ++ [w_new w]) None /\
    item (w_tags w') <$> ps ++ [w_new w] = (item (w_tags w) <$> ps) ++ [(tid y, data y)] /\ apart j w w'.
Proof.
  intros [Hok Hpos] Hk Hown Hyn Hyc Hs1 Hs2. set (a := fun q => if decide (q = w_new w) then 1 else zero q).
  assert (forall q, is_Some (w_tags w !! q) -> q <> w_new w) as Hlive.
  { intros q [z Hz] ->. pose proof (x_new _ _ _ Hok _ _ Hz). lia. }
  assert (path (w_tags w) (next y) []) as Hpy by done.
  assert (okx a (fun _ => k) (new_tag y w)) as O1.
  { change a with (adj_opt None (-1) a). rewrite <- Hyn. apply (new_tag_okx w y []); [|done|by unfold a; rewrite decide_True|done|done|done|done].
    eapply okx_weaken; [exact Hok|]. intros q z Hz. split; [|done]. unfold a. rewrite decide_False; [done|]. apply Hlive. by eexists. }
  pose proof (new_tag_owned w y _ _ Hok j ps None Hown) as Ho1.
  destruct (owned_path _ _ _ _ _ _ Hok Hown) as (m & qs & Hm & Hp & Hq). simpl in Hq. destruct qs as [|q qs]; [|by destruct Hq]. rewrite app_nil_r in Hp.
  assert (forall q, q ∈ ps -> q <> w_new w) as Hne by (intros q Hq'; apply Hlive; eapply path_live; [exact Hp|done]).
  assert (w_tags (new_tag y w) !! w_new w = Some y) as Hy by apply lookup_insert_eq.
  assert (path (w_tags (new_tag y w)) (Some (w_new w)) [w_new w]) as P1 by (split; [done|]; exists y; by rewrite Hyn).
  assert (forall q, q ∈ ps -> q ∉ [w_new w]) as Hav by (intros q Hq' Hin%list_elem_of_singleton; by apply (Hne q)).
  pose proof (relinked_okx _ j ps None a _ O1 Ho1 (Some (w_new w)) _ P1 Hav) as O2.
  set (w' := relinked (new_tag y w) j ps (Some (w_new w))) in *. exists w'.
  split; [exact (set_slot_run _ _ _ _ Ho1 (Some (w_new w)))|]. split; [split|split; [|split]].
  - eapply okx_weaken; [exact O2|]. intros q z _. split; [|done]. rewrite !adj_opt_eq, points_some. unfold a, zero.
    case_decide; case_bool_decide; simpl; lia || congruence.
  - apply positive_relinked, positive_new_tag; [done|lia].
  - destruct (relinked_owned _ _ _ _ _ _ O1 Ho1 (Some (w_new w))) as (m' & Hm' & Hs'). exists m'. split; [done|].
    rewrite <- Hyn. apply (seg_snoc _ ps _ y); [done| |done]. unfold w'. rewrite relinked_tags, decide_False; [done|]. intros E%slot_in. by apply (Hne (w_new w)).
  - rewrite fmap_app. f_equal.
    + apply list_fmap_ext. intros r q Hq'%list_elem_of_lookup_2. unfold w'. rewrite relinked_item. apply item_new_tag. by apply Hne.
    + cbn [fmap list_fmap]. unfold w'. rewrite relinked_item. unfold item. by rewrite Hy.
  - intros i Hi. destruct (w_lists w !! i) as [n|] eqn:Hn.
    + exists n. split; [unfold w'; by rewrite relinked_lists, decide_False by (by intros [_ ?])|]. intros cs Hr.
      assert (forall q, q ∈ ps -> a q = 0) as Ha by (intros q Hq'; unfold a; by rewrite decide_False by (by apply Hne)).
      apply (relinked_reads_other (new_tag y w) j ps None (Some (w_new w)) a _ O1 Ho1 Ha i n cs Hi Hn). by apply (new_tag_reads w y _ _ Hok).
    + unfold w'. by rewrite relinked_lists, decide_False by (by intros [_ ?]).
Qed.

Lemma slot_of_last ps : slot_of ps = match last ps with None => Head | Some q => Next q end.
Proof. unfold slot_of. by destruct (last ps). Qed.

Section reading_lists.
Context (registered : Z -> bool) (k : Z) (j : nat) (mem : bytes).
Hypothesis Hk : 1 <= k.

Lemma read_loop_ok cs : forall w ps p, good k w -> owned w j ps None -> encoded p cs mem -> 4 <= p -> p + extent cs < limit ->
  p + extent cs <= Z.of_nat (length mem) ->
  Forall (fun c => (in_range 32 c.1 /\ Z.of_nat (length c.2) < limit) /\ registered c.1 = true) cs ->
  exists w' ps', read_loop registered (length cs) j (last ps) p (extent cs) mem w = Ok (0, w') /\ good k w' /\ owned w' j ps' None /\
    item (w_tags w') <$> ps' = (item (w_tags w) <$> ps) ++ cs /\ apart j w w'.
Proof using Hk.
  induction cs as [|[t d] cs IH]; intros w ps p Hg Hown Henc H4 He Hmem Hl.
  - exists w, ps. split; [done|]. split; [done|]. split; [done|]. split; [by rewrite app_nil_r|]. intros i _. destruct (w_lists w !! i); eauto.
  - apply Forall_cons in Hl as [[[Ht Hd] Hreg] Hl]. cbn [fst snd] in Ht, Hd, Hreg. cbn [encoded] in Henc. destruct Henc as (E1 & E2 & E3 & Henc).
    set (sz := Z.of_nat (length d)) in *. destruct (pad4_eq sz) as [_ Hpad]; [lia|]. cbn [extent] in He, Hmem |- *. fold sz in He, Hmem |- *.
    pose proof (extent_nonneg cs). unfold limit in *. cbn [read_loop length]. rewrite hashSize_4.
    rewrite run_assert by (apply Z.leb_le; lia). rewrite (get_u32_ok p mem sz) by (done || (unfold in_range; lia) || lia). rewrite run_lifted. cbv zeta.
    rewrite (wrap_small 32 (8 + pad4 sz + extent cs - 4)) by (unfold in_range; lia). rewrite run_assert by (apply Z.leb_le; lia).
    rewrite (get_u32_ok (p + 4) mem t) by (done || lia). rewrite run_lifted. unfold LookupByHash. rewrite Hreg. cbn [ns_assert mbind res_bind mret res_ret].
    rewrite (wrap_small 32 (8 + pad4 sz + extent cs - 4 - 4)) by (unfold in_range; lia). change (4 * (4 / 4)) with 4.
    set (y := mkTagData None 1 t sz d).
    destruct (tags_append_ok k w j ps y Hg Hk Hown) as (w1 & Es & Hg1 & Hown1 & Hit1 & A1); [done|done|done|simpl; lia|].
    destruct (IH w1 (ps ++ [w_new w]) (p + 8 + pad4 sz) Hg1 Hown1 Henc) as (w2 & ps2 & E & Hg2 & Hown2 & Hit2 & A2); [lia|lia|lia|done|].
    exists w2, ps2. split; [|split; [done|split; [done|split; [|by eapply apart_trans]]]].
    + rewrite last_snoc in E. rewrite <- E. set (buf := map (fun q => wrap 8 (w_fresh w (w_new w) q)) (seq 0 (Z.to_nat sz))).
      assert (CreateTagData sz w = Ok (w_new w, new_tag (mkTagData None 0 0 sz buf) w)) as Ec.
      { unfold CreateTagData. by rewrite (proj2 (Z.ltb_lt sz _)) by lia. }
      replace (8 + pad4 sz + extent cs - 4 - 4) with (pad4 sz + extent cs) by lia.
      rewrite run_lifted, (run_bind _ _ _ _ _ Ec), (run_bind _ _ _ _ _ (load_run (w_new w) (new_tag _ w) _ (lookup_insert_eq _ _ _))), store_new_tag.
      rewrite run_assert by (apply Z.leb_le; lia). rewrite (get_ok (p + 4 + 4) sz) by lia. rewrite run_lifted.
      replace (p + 4 + 4) with (p + 8) by lia. rewrite E3. cbn [next count tid size data].
      rewrite (run_bind _ _ _ _ _ (modify_run (w_new w) (set_data d) (new_tag (mkTagData None 1 t sz buf) w) _ (lookup_insert_eq _ _ _))).
      assert (put_tag (w_new w) (set_data d (mkTagData None 1 t sz buf)) (new_tag (mkTagData None 1 t sz buf) w) = new_tag y w) as ->.
      { unfold put_tag, new_tag, with_tags. simpl. by rewrite insert_insert_eq. }
      rewrite <- slot_of_last, (run_bind _ _ _ _ _ Es), pad4_div by (unfold limit; lia).
      rewrite (wrap_small 32) by (unfold in_range; lia). by replace (pad4 sz + extent cs - pad4 sz) with (extent cs) by lia.
    + by rewrite Hit2, Hit1, <- app_assoc.
Qed.
End reading_lists.

(** The tags of a packet go over to another simulator, with the octets of the
    packet, and come back: a list serialized into memory that is large enough fills
    exactly [GetSerializedSize] octets, and an empty list that is
    deserialized from them, in any other program, gets the same tags in the
    same order and no other list changes.  As for the other parts of a packet the size that [Deserialize] wants
    is four more than what [Serialize] used. *)
Theorem tag_list_serialization_roundtrip (registered : Z -> bool) k w i cs mem maxSize w2 j :
  good k w -> reads_list w i cs -> good k w2 -> 1 <= k -> w_lists w2 !! j = Some None ->
  Forall (fun c => (in_range 32 c.1 /\ Z.of_nat (length c.2) < limit) /\ registered c.1 = true) cs ->
  4 + extent cs <= maxSize -> maxSize <= Z.of_nat (length mem) -> maxSize < limit ->
  exists mem' w', list_GetSerializedSize i w = Ok (4 + extent cs, w) /\ list_Serialize i mem maxSize w = Ok ((1, mem'), w) /\
    length mem' = length mem /\ list_Deserialize registered j mem' (4 + extent cs + 4) w2 = Ok (1, w') /\
    good k w' /\ reads_list w' j cs /\ apart j w2 w'.
Proof.
  intros [Hok Hpos] (n & Hn & qs & Hp & Hcs) Hg2 Hk Hj Hl Hmax Hmem Hlim. pose proof (path_length _ _ _ Hp) as Hlen. subst cs.
  set (cs := item (w_tags w) <$> qs) in *. pose proof (extent_nonneg cs). assert (length cs = length qs) as Hcl by apply length_fmap.
  assert (8 * Z.of_nat (length cs) <= extent cs) as H8.
  { clear -Hl. induction cs as [|[t d] cs IH]; simpl; [lia|]. apply Forall_cons in Hl as [[[_ Hd] _] Hl]. destruct (pad4_eq (Z.of_nat (length d))); [simpl in Hd; lia|].
    specialize (IH Hl). lia. }
  unfold limit in *. assert (forall z, Z.of_nat (length (WriteU32 z)) = 4) as Hw4 by done.
  assert (Forall (fun c => in_range 32 c.1 /\ Z.of_nat (length c.2) < limit) cs) as Hl1 by (eapply Forall_impl; [exact Hl|]; by intros ? [? _]).
  assert (Forall (fun c => Z.of_nat (length c.2) < limit) cs) as Hl2 by (eapply Forall_impl; [exact Hl1|]; by intros ? [_ ?]).
  assert (slice 0 4 (splice 0 (WriteU32 0) mem) = WriteU32 0) as E0 by (rewrite slice_splice_in by (rewrite ?Hw4; lia); by apply slice_all).
  assert (length (splice 0 (WriteU32 0) mem) = length mem) as L0 by (apply length_splice; rewrite ?Hw4; lia).
  destruct (write_loop_ok _ _ w Hok maxSize qs (S (base.size (w_tags w))) n 4 (splice 0 (WriteU32 0) mem) 0) as (mem' & Ew & Lm & Cm & Im & _);
    [done|lia|done|exact Hl1|fold cs; lia|fold cs; unfold limit; lia|lia|done|done|lia|].
  fold cs in Im. assert (owned w2 j [] None) as Ho2 by (by apply owned_start).
  destruct (read_loop_ok registered k j mem' Hk cs w2 [] 4 Hg2 Ho2 Im) as (w' & ps' & Er & Hg' & Ho' & Hi' & A'); [done|unfold limit; lia|lia|done|].
  exists mem', w'. split; [|split; [|split; [lia|split; [|split; [done|split; [|done]]]]]].
  - unfold list_GetSerializedSize, walk. rewrite (run_bind _ _ _ _ _ (m_next_run _ _ _ Hn)), run_gets.
    apply (size_loop_ok _ _ w Hok qs); [done|lia|done|done|fold cs; unfold limit; lia].
  - unfold list_Serialize, walk. change (u32 (0 + 4)) with 4. rewrite (proj2 (Z.leb_le 4 _)) by lia. cbn [negb].
    rewrite (put_ok 0) by (rewrite ?Hw4; lia). rewrite run_lifted, (run_bind _ _ _ _ _ (m_next_run _ _ _ Hn)), run_gets. done.
  - unfold list_Deserialize. cbv zeta. rewrite (wrap_small 32 (4 + extent cs + 4 - 4)) by (unfold in_range; lia). rewrite run_assert by (apply Z.leb_le; lia).
    rewrite (get_u32_ok 0 mem' (Z.of_nat (length qs))) by (done || (unfold in_range; lia) || lia). rewrite run_lifted.
    rewrite (wrap_small 32) by (unfold in_range; lia). rewrite Nat2Z.id, <- Hcl.
    replace (4 + extent cs + 4 - 4 - 4) with (extent cs) by lia. by rewrite (run_bind _ _ _ _ _ Er).
  - destruct (owned_reads _ _ _ _ [] Ho') as (m & Hm & Hr); [done|]. exists m. split; [done|]. rewrite app_nil_r, Hi' in Hr. done.
Qed.

(** ** The tags of the scenario *)

Definition size_of_tag (t : Z) : Z := nth (Z.to_nat t) [0; 8; 9; 1; 1; 1; 1] 0.
#[export] Instance PacketTag_sized : SizedTag PacketTag size_of_tag.
Proof. split; intros []; done || vm_compute; done. Qed.

(** The values that the fields of the tags have *)
Definition tag_ok (t : PacketTag) : Prop :=
  match t with
  | MyTag leaf_id interface => in_range 32 leaf_id /\ in_range 32 interface
  | Ipv4PacketInfoTag addr ifindex ttl => in_range 32 addr /\ in_range 32 ifindex /\ octet ttl
  | SocketIpTosTag x | SocketIpTtlTag x | SocketPriorityTag x => octet x
  | SocketSetDontFragmentTag _ => True
  end.
(** A tag reads what another of its type has written. *)
Lemma tag_roundtrip (t t0 : PacketTag) : tag_ok t -> GetInstanceTypeId t0 = GetInstanceTypeId t -> Deserialize (Serialize t) t0 = Ok t.
Proof.
  destruct t as [leaf_id interface|addr ifindex ttl|x|x|x|x], t0; try done; cbn -[WriteU32 WriteHtonU32 WriteU8 ReadU32 ReadNtohU32 ReadU8]; intros Hok _;
    try (by rewrite <- (app_nil_r (WriteU8 x)), ReadU8_write).
  - destruct Hok as [H1 H2]. rewrite ReadU32_write by done. cbn -[WriteU32 ReadU32]. by rewrite <- (app_nil_r (WriteU32 interface)), ReadU32_write.
  - destruct Hok as (H1 & H2 & H3). rewrite ReadNtohU32_write by done. cbn -[WriteU32 ReadU32 WriteU8 ReadU8]. rewrite ReadU32_write by done.
    cbn -[WriteU8 ReadU8]. by rewrite <- (app_nil_r (WriteU8 ttl)), ReadU8_write.
  - by destruct x.
Qed.

(** ** Examples *)

(** A router's copy of a packet takes the balancer's tag off and another on, the
    source's packet keeps its own; then the source's is destroyed. *)
Definition two_packets : list (command (T := PacketTag)) :=
  [New 0; DoAdd 0 (SocketIpTtlTag 64); DoAdd 0 (MyTag 3 1); DoAdd 0 (SocketIpTosTag 16); Copy 1 0;
   DoReplace 1 (MyTag 4 2); DoRemove 1 (SocketIpTtlTag 0); DoPeek 0 (MyTag 0 0); DoPeek 1 (MyTag 0 0); DoPeek 0 (SocketIpTtlTag 0);
   DoReplace 1 (SocketIpTtlTag 63); Copy 2 1; Assign 0 2; DoRemove 0 (MyTag 0 0); Destroy 1; DoPeek 2 (MyTag 0 0); DoPeek 0 (SocketIpTtlTag 0)].
Lemma tag_lists_are_independent_witness :
  Z.of_nat (length two_packets) < 2 ^ 31 - 2 /\ exists os s, promises two_packets ∅ = Ok (os, s) /\
  nth 7 os (false, None) = (true, Some (MyTag 3 1)) /\ nth 8 os (false, None) = (true, Some (MyTag 4 2)) /\
  nth 15 os (false, None) = (true, Some (MyTag 4 2)) /\ nth 16 os (false, None) = (true, Some (SocketIpTtlTag 63)) /\
  exists w, performs two_packets (initial_world (fun _ _ => 0)) = Ok (os, w) /\ represents s w.
Proof.
  split; [done|]. pose proof (tag_lists_are_independent (fun _ _ => 0) two_packets eq_refl) as H.
  destruct (promises two_packets ∅) as [[os s]|] eqn:E; [|vm_compute in E; discriminate E].
  assert (os = from_option fst [] (match promises two_packets ∅ with Ok r => Some r | Err _ => None end)) as Eos by (rewrite E; reflexivity).
  exists os, s. split; [reflexivity|]. rewrite Eos. do 4 (split; [vm_compute; reflexivity|]).
  destruct H as (w & Hw & Hr & _). exists w. rewrite <- Eos. split; [exact Hw|exact Hr].
Defined.
(** What is left when all lists are destroyed: nothing *)
Example all_destroyed :
  (performs (T := PacketTag) (two_packets ++ [Clear 2; Destroy 0; Destroy 2]) (initial_world (fun _ _ => 0))) ≫= (fun r => mret (w_tags (snd r))) = Ok ∅.
Proof. vm_compute. reflexivity. Qed.
(** A second tag of a kind is refused. *)
Example added_twice :
  performs [New 0; DoAdd 0 (MyTag 1 1); DoAdd 0 (MyTag 2 2)] (initial_world (fun _ _ => 0)) = Err AssertFailed.
Proof. reflexivity. Qed.

(** The hypothesis of [SizedTag] is needed.  A tag replaces one of its type whose size is smaller: on a
    list that shares the node this is done, on one that does not the octets are
    written to the node as it is, and the tag buffer stops the program. *)
Definition longer_name (sharing : list (command (T := list Z))) : res (list (outcome (T := list Z)) * World) :=
  performs ([New 0; DoAdd 0 [101; 48]] ++ sharing ++ [DoReplace 0 [101; 116; 104; 48]; DoPeek 0 []]) (initial_world (fun _ _ => 0)).
Example replaced_when_shared : exists r, longer_name [Copy 1 0] = Ok r /\ last (fst r) = Some (true, Some [101; 116; 104; 48]).
Proof. eexists. split; reflexivity. Qed.
Example not_replaced_when_not_shared : longer_name [] = Err AssertFailed.
Proof. reflexivity. Qed.

(** Two tags go through memory, to another list of the same program. *)
Definition serialized_calls : list (command (T := PacketTag)) := [New 0; DoAdd 0 (SocketIpTtlTag 64); DoAdd 0 (MyTag 258 7); New 1].
Lemma tag_list_serialization_roundtrip_witness : exists os w mem' w', performs serialized_calls (initial_world (fun _ _ => 0)) = Ok (os, w) /\
  list_Serialize 0 (replicate 40 0) 40 w = Ok ((1, mem'), w) /\ list_Deserialize (fun t => t <=? 6) 1 mem' (32 + 4) w = Ok (1, w') /\
  reads_list w' 0 [(1, [2; 1; 0; 0; 7; 0; 0; 0]); (4, [64])] /\ reads_list w' 1 [(1, [2; 1; 0; 0; 7; 0; 0; 0]); (4, [64])].
Proof.
  destruct (initial_good (tag_size := size_of_tag) (fun _ _ => 0)) as (Hg & Hr & Hs).
  pose proof (calls_agree serialized_calls 1 ∅ _ Hr Hg Hs ltac:(lia) eq_refl) as Hc.
  destruct (promises serialized_calls ∅) as [[os s]|] eqn:E; [|vm_compute in E; discriminate E]. destruct Hc as (w & Ew & Hrw & Hgw & _).
  assert (s !! 0%nat = Some [(1, [2; 1; 0; 0; 7; 0; 0; 0]); (4, [64])] /\ s !! 1%nat = Some []) as [H0 H1] by (vm_compute in E; injection E as _ <-; split; reflexivity).
  pose proof (represents_at _ _ _ _ Hrw H0) as R0. destruct (represents_at _ _ _ _ Hrw H1) as (m & Hm & ps & Hps & Ei). destruct ps; [|done]. simpl in Hps. subst m.
  destruct (tag_list_serialization_roundtrip (fun t => t <=? 6) _ w 0 _ (replicate 40 0) 40 w 1 Hgw R0 Hgw ltac:(done) Hm) as (mem' & w' & _ & ES & _ & ED & _ & R1 & A);
    [repeat constructor; done|vm_compute; discriminate|done|done|].
  exists os, w, mem', w'. split; [exact Ew|]. split; [exact ES|]. split; [exact ED|]. split; [|exact R1].
  specialize (A 0%nat ltac:(done)). destruct R0 as (n & Hn & Rn). rewrite Hn in A. destruct A as (n' & Hn' & A). exists n'. split; [exact Hn'|by apply A].
Defined.
