(* ===== verification/Packet.v ===== *)
(** * Packets ([src/network/model/packet.cc])

    A packet is its identifier and its octets: the contents of its buffer,
    which [BufferRefine] proves to behave as a list of its own, but for the
    concatenations it calls [misplaced].  Its tags are in [PacketTagList]; byte
    tags, metadata and the nix vector are not modelled.  Headers are objects
    that serialize to and deserialize from octets; their interface is the class
    [Header]. *)

From S2P Require Import Prelude Bytes.



Record Packet := mkPacket { p_uid : Z; p_data : bytes }.

#[export] Instance Packet_eq_dec : EqDecision Packet.
Proof. solve_decision. Defined.

Definition GetSize (p : Packet) : Z := u32 (Z.of_nat (length (p_data p))).

(** [class Header]: [Deserialize] updates the header and returns the number of
    octets it read. *)
Class Header (H : Type) := {
  GetSerializedSize : H -> Z;
  Serialize : H -> bytes;
  Deserialize : H -> bytes -> res (H * Z)
}.

(** What a header promises to a packet. *)
Class HeaderLaws (H : Type) `{Header H} (valid : H -> Prop) := {
  Serialize_size h : valid h -> Z.of_nat (length (Serialize h)) = GetSerializedSize h;
  Deserialize_Serialize h h0 rest :
    valid h -> Deserialize h0 (Serialize h ++ rest) = Ok (h, GetSerializedSize h)
}.

Definition with_data (p : Packet) (d : bytes) : Packet := mkPacket (p_uid p) d.

(** [Packet (buffer, size)]: the identifier comes from the global counter. *)
Definition new_packet (buffer : bytes) (globalUid : Z) : Packet * Z :=
  (mkPacket globalUid buffer, u32 (globalUid + 1)).

(** [Packet (size)]: [size] virtual zero octets. *)
Definition new_zero_packet (size : Z) (globalUid : Z) : Packet * Z :=
  (mkPacket globalUid (replicate (Z.to_nat size) 0), u32 (globalUid + 1)).

(** [AddAtStart (size)], then the header writes over the new octets (written
    here as zeros until then). *)
Definition AddHeader {H} `{Header H} (h : H) (p : Packet) : Packet :=
  let w := Serialize h in
  with_data p (w ++ drop (length w) (replicate (Z.to_nat (GetSerializedSize h)) 0 ++ p_data p)).

Definition RemoveAtStart (size : Z) (p : Packet) : Packet :=
  with_data p (drop (Z.to_nat size) (p_data p)).

Definition RemoveAtEnd (size : Z) (p : Packet) : Packet :=
  with_data p (take (length (p_data p) - Z.to_nat size) (p_data p)).

Definition PeekHeader {H} `{Header H} (h : H) (p : Packet) : res (H * Z) :=
  Deserialize h (p_data p).

Definition RemoveHeader {H} `{Header H} (h : H) (p : Packet) : res (H * Z * Packet) :=
  '(h', n) ← Deserialize h (p_data p);
  mret (h', n, RemoveAtStart n p).

(** [CreateFragment (start, length)]: the uid is kept.  The sums are of
    [uint32_t]; an out of range request fails the assertion. *)
Definition CreateFragment (start len : Z) (p : Packet) : res Packet :=
  _ ← ns_assert (u32 (start + len) <=? GetSize p);
  let kept := RemoveAtStart start p in
  mret (RemoveAtEnd (u32 (GetSize p - u32 (start + len))) kept).

Definition AddAtEnd (q p : Packet) : Packet := with_data p (p_data p ++ p_data q).

Definition AddPaddingAtEnd (size : Z) (p : Packet) : Packet :=
  with_data p (p_data p ++ replicate (Z.to_nat size) 0).

(** [Copy] shares the octets. *)
Definition Copy (p : Packet) : Packet := p.

(** ** Lemmas *)

Lemma AddHeader_data {H} `{HeaderLaws H valid} h p :
  valid h -> p_data (AddHeader h p) = Serialize h ++ p_data p.
Proof.
  intros Hv. unfold AddHeader. simpl. f_equal. rewrite <- (Serialize_size h Hv), Nat2Z.id.
  rewrite drop_app_length'; [done|]. by rewrite length_replicate.
Qed.

Lemma RemoveHeader_AddHeader {H} `{HeaderLaws H valid} h h0 p :
  valid h -> RemoveHeader h0 (AddHeader h p) = Ok (h, GetSerializedSize h, p).
Proof.
  intros Hv. unfold RemoveHeader. rewrite AddHeader_data, Deserialize_Serialize by done. simpl.
  unfold RemoveAtStart. rewrite AddHeader_data by done. do 2 f_equal.
  rewrite <- (Serialize_size h Hv), Nat2Z.id, drop_app_length. by destruct p.
Qed.

Lemma PeekHeader_AddHeader {H} `{HeaderLaws H valid} h h0 p :
  valid h -> PeekHeader h0 (AddHeader h p) = Ok (h, GetSerializedSize h).
Proof. intros Hv. unfold PeekHeader. by rewrite AddHeader_data, Deserialize_Serialize by done. Qed.

Lemma CreateFragment_ok start len p :
  0 <= start -> 0 <= len -> Z.of_nat (length (p_data p)) < 2 ^ 32 ->
  start + len <= Z.of_nat (length (p_data p)) ->
  exists f, CreateFragment start len p = Ok f /\ p_uid f = p_uid p /\
    p_data f = take (Z.to_nat len) (drop (Z.to_nat start) (p_data p)).
Proof.
  intros Hs Hl H32 Hle. unfold CreateFragment, GetSize.
  rewrite (wrap_small 32 (start + len)) by (unfold in_range; lia).
  rewrite (wrap_small 32 (Z.of_nat _)) by (unfold in_range; lia).
  rewrite (wrap_small 32 (_ - _)) by (unfold in_range; lia).
  rewrite (proj2 (Z.leb_le _ _)) by lia. simpl. eexists. split; [done|]. simpl. split; [done|].
  f_equal. rewrite length_drop. lia.
Qed.

(** * The point-to-point protocol header ([src/point-to-point/model/ppp-header.cc]) *)

Record PppHeader := mkPppHeader { m_protocol : Z }.

Definition ppp_GetSerializedSize (_ : PppHeader) : Z := 2.
Definition ppp_Serialize (h : PppHeader) : bytes := WriteHtonU16 (m_protocol h).
Definition ppp_Deserialize (_ : PppHeader) (bs : bytes) : res (PppHeader * Z) :=
  '(proto, _) ← ReadNtohU16 bs; mret (mkPppHeader proto, 2).
Definition SetProtocol (protocol : Z) (_ : PppHeader) : PppHeader := mkPppHeader protocol.
Definition GetProtocol (h : PppHeader) : Z := m_protocol h.

(** [Print] asserts a known protocol number. *)
Inductive ppp_name := NameIPv4 | NameIPv6.
Definition Print (h : PppHeader) : res ppp_name :=
  if m_protocol h =? 0x0021 then Ok NameIPv4
  else if m_protocol h =? 0x0057 then Ok NameIPv6
  else Err AssertFailed.

#[export] Instance ppp_header : Header PppHeader := {
  GetSerializedSize := ppp_GetSerializedSize;
  Serialize := ppp_Serialize;
  Deserialize := ppp_Deserialize
}.

Definition valid (h : PppHeader) : Prop := in_range 16 (m_protocol h).

#[export] Instance ppp_header_laws : HeaderLaws PppHeader valid.
Proof.
  split; [done|]. intros [proto] h0 rest Hv. cbv [Deserialize Serialize ppp_header].
  unfold ppp_Deserialize, ppp_Serialize. by rewrite ReadNtohU16_write.
Qed.
