(* ===== verification/PointToPoint.v ===== *)
(** * Point-to-point links ([src/network/utils/data-rate.cc],
      [src/point-to-point/model/point-to-point-channel.cc],
      [point-to-point-net-device.{h,cc}])

    Devices and channels live in a store indexed by object identifiers, so a
    channel's links and a device's channel are references.  The simulator is
    represented by the clock and by the pending events in the order in which the
    event list returns them (by time, then by scheduling order; see
    [SimulatorSpec]).  The trace sources and the callbacks of a device append to
    [m_trace]; logging is omitted. *)

From S2P Require Import Prelude Bytes Packet.
From S2P Require Queue.

(** ** [DataRate] (bits per second in a [uint64_t]) *)

Module DataRate.
Definition add (a b : Z) : Z := u64 (a + b).
Definition sub (a b : Z) : res Z := _ ← ns_assert (b <=? a); mret (u64 (a - b)).
Definition mul (a b : Z) : Z := u64 (a * b).
Definition lt (a b : Z) : bool := a <? b.
Definition le (a b : Z) : bool := a <=? b.
Definition gt (a b : Z) : bool := b <? a.
Definition ge (a b : Z) : bool := b <=? a.
Definition eq (a b : Z) : bool := a =? b.
Definition ne (a b : Z) : bool := negb (a =? b).

(** [Seconds (bits) / m_bps]: nanoseconds, divided as unsigned integers. *)
Definition CalculateBitsTxTime (m_bps bits : Z) : res Z :=
  if m_bps =? 0 then Err UndefinedBehaviour else Ok (bits * 1000000000 / m_bps).

(** [Seconds (bytes * 8) / m_bps]: the product is a [uint32_t]. *)
Definition CalculateBytesTxTime (m_bps bytes : Z) : res Z :=
  CalculateBitsTxTime m_bps (u32 (bytes * 8)).
End DataRate.

(** ** State *)

Inductive WireState := INITIALIZING | IDLE | TRANSMITTING | PROPAGATING.
Inductive TxMachineState := READY | BUSY.

#[export] Instance WireState_eq_dec : EqDecision WireState.
Proof. solve_decision. Defined.
#[export] Instance TxMachineState_eq_dec : EqDecision TxMachineState.
Proof. solve_decision. Defined.

Record Link := mkLink { l_state : WireState; l_src : option nat; l_dst : option nat }.

Record channel := mkChannel { m_delay : Z; m_nDevices : nat; m_link0 : Link; m_link1 : Link }.

(** [hist_t] *)
Record hist := mkHist { up_duration : Z; h_start_tx : Z; was_down : bool }.

Inductive p2p_trace :=
| MacTx (p : Packet) | MacTxDrop (p : Packet)
| PhyTxBegin (p : Packet) | PhyTxEnd (p : Packet) | PhyTxDrop (p : Packet)
| PhyRxEnd (p : Packet) | PhyRxDrop (p : Packet)
| Sniffer (p : Packet) | PromiscSniffer (p : Packet)
| MacRx (p : Packet) | MacPromiscRx (p : Packet)
| LinkChange
| RxCallback (p : Packet) (protocol remote : Z)
| PromiscRxCallback (p : Packet) (protocol remote self : Z).

(** Error models are objects with a state of their own. *)
Class ErrorModel (EM : Type) := IsCorrupt : EM -> Packet -> bool * EM.

Section device.
Context {EM : Type} `{ErrorModel EM}.

Record device := mkDevice {
  m_history : hist;
  m_txMachineState : TxMachineState;
  m_bps : Z;
  m_tInterframeGap : Z;
  m_channel : option nat;
  m_queue : option (Queue.queue Packet);
  m_receiveErrorModel : option EM;
  m_node : option Z;
  m_address : Z;
  m_promiscCallback : bool;
  m_ifIndex : Z;
  m_linkUp : bool;
  m_mtu : Z;
  m_currentPkt : option Packet;
  m_trace : list p2p_trace }.

Definition set_history (h : hist) (d : device) : device :=
  mkDevice h (m_txMachineState d) (m_bps d) (m_tInterframeGap d) (m_channel d) (m_queue d)
    (m_receiveErrorModel d) (m_node d) (m_address d) (m_promiscCallback d) (m_ifIndex d) (m_linkUp d)
    (m_mtu d) (m_currentPkt d) (m_trace d).
Definition set_tx (s : TxMachineState) (cur : option Packet) (d : device) : device :=
  mkDevice (m_history d) s (m_bps d) (m_tInterframeGap d) (m_channel d) (m_queue d)
    (m_receiveErrorModel d) (m_node d) (m_address d) (m_promiscCallback d) (m_ifIndex d) (m_linkUp d)
    (m_mtu d) cur (m_trace d).
Definition set_queue (q : option (Queue.queue Packet)) (d : device) : device :=
  mkDevice (m_history d) (m_txMachineState d) (m_bps d) (m_tInterframeGap d) (m_channel d) q
    (m_receiveErrorModel d) (m_node d) (m_address d) (m_promiscCallback d) (m_ifIndex d) (m_linkUp d)
    (m_mtu d) (m_currentPkt d) (m_trace d).
Definition set_link (ch : option nat) (up : bool) (d : device) : device :=
  mkDevice (m_history d) (m_txMachineState d) (m_bps d) (m_tInterframeGap d) ch (m_queue d)
    (m_receiveErrorModel d) (m_node d) (m_address d) (m_promiscCallback d) (m_ifIndex d) up
    (m_mtu d) (m_currentPkt d) (m_trace d).
Definition set_error_model (em : option EM) (d : device) : device :=
  mkDevice (m_history d) (m_txMachineState d) (m_bps d) (m_tInterframeGap d) (m_channel d) (m_queue d)
    em (m_node d) (m_address d) (m_promiscCallback d) (m_ifIndex d) (m_linkUp d)
    (m_mtu d) (m_currentPkt d) (m_trace d).
Definition set_config (bps gap : Z) (node : option Z) (addr : Z) (promisc : bool) (ifIndex mtu : Z)
    (d : device) : device :=
  mkDevice (m_history d) (m_txMachineState d) bps gap (m_channel d) (m_queue d)
    (m_receiveErrorModel d) node addr promisc ifIndex (m_linkUp d)
    mtu (m_currentPkt d) (m_trace d).
Definition add_trace (l : list p2p_trace) (d : device) : device :=
  mkDevice (m_history d) (m_txMachineState d) (m_bps d) (m_tInterframeGap d) (m_channel d) (m_queue d)
    (m_receiveErrorModel d) (m_node d) (m_address d) (m_promiscCallback d) (m_ifIndex d) (m_linkUp d)
    (m_mtu d) (m_currentPkt d) (m_trace d ++ l).

(** The constructor; attributes and the allocated address are arguments. *)
Definition PointToPointNetDevice (mtu address bps gap : Z) (queue : option (Queue.queue Packet)) : device :=
  mkDevice (mkHist 0 0 true) READY bps gap None queue None None address false 0 false mtu None [].

(** *** Accessors *)

Definition SetDataRate (bps : Z) (d : device) : device :=
  set_config bps (m_tInterframeGap d) (m_node d) (m_address d) (m_promiscCallback d) (m_ifIndex d) (m_mtu d) d.
Definition SetInterframeGap (t : Z) (d : device) : device :=
  set_config (m_bps d) t (m_node d) (m_address d) (m_promiscCallback d) (m_ifIndex d) (m_mtu d) d.
Definition SetNode (node : Z) (d : device) : device :=
  set_config (m_bps d) (m_tInterframeGap d) (Some node) (m_address d) (m_promiscCallback d) (m_ifIndex d) (m_mtu d) d.
Definition SetAddress (a : Z) (d : device) : device :=
  set_config (m_bps d) (m_tInterframeGap d) (m_node d) a (m_promiscCallback d) (m_ifIndex d) (m_mtu d) d.
Definition SetPromiscReceiveCallback (d : device) : device :=
  set_config (m_bps d) (m_tInterframeGap d) (m_node d) (m_address d) true (m_ifIndex d) (m_mtu d) d.
Definition SetIfIndex (i : Z) (d : device) : device :=
  set_config (m_bps d) (m_tInterframeGap d) (m_node d) (m_address d) (m_promiscCallback d) i (m_mtu d) d.
Definition SetMtu (mtu : Z) (d : device) : bool * device :=
  (true, set_config (m_bps d) (m_tInterframeGap d) (m_node d) (m_address d) (m_promiscCallback d) (m_ifIndex d)
     (u16 mtu) d).
Definition SetQueue (q : Queue.queue Packet) (d : device) : device := set_queue (Some q) d.
Definition SetReceiveErrorModel (em : EM) (d : device) : device := set_error_model (Some em) d.
Definition GetQueue (d : device) : option (Queue.queue Packet) := m_queue d.
Definition GetIfIndex (d : device) : Z := m_ifIndex d.
Definition GetChannel (d : device) : option nat := m_channel d.
Definition GetAddress (d : device) : Z := m_address d.
Definition GetNode (d : device) : option Z := m_node d.
Definition GetMtu (d : device) : Z := u16 (m_mtu d).
Definition IsLinkUp (d : device) : bool := m_linkUp d.
Definition IsBroadcast (d : device) : bool := true.
Definition IsMulticast (d : device) : bool := true.
Definition IsPointToPoint (d : device) : bool := true.
Definition IsBridge (d : device) : bool := false.
Definition NeedsArp (d : device) : bool := false.
Definition SupportsSendFrom (d : device) : bool := false.
Definition SendFrom (p : Packet) (source dest protocolNumber : Z) (d : device) : bool := false.
Definition GetBroadcast (d : device) : Z := 0xffffffffffff.
Definition GetMulticast (d : device) : Z := 0x01005e000000.

Definition NotifyLinkUp (d : device) : device := add_trace [LinkChange] (set_link (m_channel d) true d).

Definition DoDispose (d : device) : device :=
  set_queue None (set_tx (m_txMachineState d) None (set_error_model None (set_link None (m_linkUp d)
    (set_config (m_bps d) (m_tInterframeGap d) None (m_address d) (m_promiscCallback d) (m_ifIndex d) (m_mtu d) d)))).

(** *** Headers *)

Definition PppToEther (proto : Z) : res Z :=
  if proto =? 0x0021 then Ok 0x0800
  else if proto =? 0x0057 then Ok 0x86DD
  else Err AssertFailed.

Definition EtherToPpp (proto : Z) : res Z :=
  if proto =? 0x0800 then Ok 0x0021
  else if proto =? 0x86DD then Ok 0x0057
  else Err AssertFailed.

Definition AddHeader (p : Packet) (protocolNumber : Z) : res Packet :=
  proto ← EtherToPpp protocolNumber;
  mret (Packet.AddHeader (SetProtocol proto (mkPppHeader 0)) p).

(** The stripped packet and the protocol number, and [true]. *)
Definition ProcessHeader (p : Packet) : res (bool * Packet * Z) :=
  '(ppp, _, p') ← RemoveHeader (mkPppHeader 0) p;
  param ← PppToEther (GetProtocol ppp);
  mret (true, p', param).

(** *** Busy time *)

Definition start_tx (now : Z) (d : device) : device :=
  let h := m_history d in
  if was_down h then set_history (mkHist (up_duration h) now false) d else d.

Definition stopped_tx (now : Z) (d : device) : device :=
  let h := m_history d in
  set_history (mkHist (u64 (up_duration h + (now - h_start_tx h))) (h_start_tx h) true) d.

(** The time spent transmitting since the last call, and the data rate. *)
Definition time_slot (now : Z) (d : device) : (Z * Z) * device :=
  let h := m_history d in
  let h' := if was_down h then h
            else mkHist (u64 (up_duration h + (now - h_start_tx h))) now false in
  ((up_duration h', m_bps d), set_history (mkHist 0 (h_start_tx h') (was_down h')) d).

(** ** The store *)

Inductive event :=
| EvTransmitComplete (d : nat)
| EvReceive (context : Z) (d : nat) (p : Packet).

Record world := mkWorld {
  w_now : Z;
  w_pending : list (Z * event);
  w_devs : gmap nat device;
  w_chans : gmap nat channel }.

Definition M (A : Type) : Type := world -> res (A * world).
#[local] Instance M_ret : MRet M := fun A a w => Ok (a, w).
#[local] Instance M_bind : MBind M := fun A B k m w =>
  match m w with Ok (a, w') => k a w' | Err f => Err f end.

Definition lift {A} (r : res A) : M A := fun w => match r with Ok a => Ok (a, w) | Err f => Err f end.
Definition this (d : nat) : M device := fun w => match w_devs w !! d with
  | Some dev => Ok (dev, w) | None => Err UndefinedBehaviour end.
Definition chan (c : nat) : M channel := fun w => match w_chans w !! c with
  | Some ch => Ok (ch, w) | None => Err UndefinedBehaviour end.
Definition now : M Z := fun w => Ok (w_now w, w).
Definition modify (d : nat) (f : device -> device) : M unit := fun w =>
  Ok (tt, mkWorld (w_now w) (w_pending w) (alter f d (w_devs w)) (w_chans w)).
Definition set_chan (c : nat) (ch : channel) : M unit := fun w =>
  Ok (tt, mkWorld (w_now w) (w_pending w) (w_devs w) (<[c := ch]> (w_chans w))).
Definition trace (d : nat) (t : p2p_trace) : M unit := modify d (add_trace [t]).

(** Events at the same time run in the order they were scheduled. *)
Fixpoint insert_event (t : Z) (e : event) (l : list (Z * event)) : list (Z * event) :=
  match l with
  | [] => [(t, e)]
  | (u, e') :: l' => if t <? u then (t, e) :: l else (u, e') :: insert_event t e l'
  end.

Definition Schedule (delay : Z) (e : event) : M unit := fun w =>
  Ok (tt, mkWorld (w_now w) (insert_event (w_now w + delay) e (w_pending w)) (w_devs w) (w_chans w)).

(** *** The channel *)

Definition PointToPointChannel (delay : Z) : channel :=
  mkChannel delay 0 (mkLink INITIALIZING None None) (mkLink INITIALIZING None None).

Definition channel_Attach (device : nat) (ch : channel) : res channel :=
  _ ← ns_assert (Nat.ltb (m_nDevices ch) 2);
  if Nat.eqb (m_nDevices ch) 0 then
    let l := m_link0 ch in
    mret (mkChannel (m_delay ch) 1 (mkLink (l_state l) (Some device) (l_dst l)) (m_link1 ch))
  else
    mret (mkChannel (m_delay ch) 2
      (mkLink IDLE (l_src (m_link0 ch)) (Some device))
      (mkLink IDLE (Some device) (l_src (m_link0 ch)))).

Definition link (ch : channel) (wire : nat) : Link :=
  match wire with O => m_link0 ch | _ => m_link1 ch end.

Definition initialized (l : Link) : bool := negb (bool_decide (l_state l = INITIALIZING)).
Definition IsInitialized (ch : channel) : res bool :=
  _ ← ns_assert (initialized (m_link0 ch)); _ ← ns_assert (initialized (m_link1 ch)); mret true.

Definition channel_TransmitStart (c : nat) (p : Packet) (src : nat) (txTime : Z) : M bool :=
  ch ← chan c;
  _ ← lift (ns_assert (initialized (m_link0 ch)));
  _ ← lift (ns_assert (initialized (m_link1 ch)));
  let wire := if bool_decide (Some src = l_src (m_link0 ch)) then 0%nat else 1%nat in
  dst ← lift (deref (l_dst (link ch wire)));
  dstdev ← this dst;
  node ← lift (deref (m_node dstdev));
  _ ← Schedule (txTime + m_delay ch) (EvReceive node dst (Copy p));
  mret true.

Definition GetNDevices (ch : channel) : nat := m_nDevices ch.
Definition GetPointToPointDevice (i : nat) (ch : channel) : res (option nat) :=
  _ ← ns_assert (Nat.ltb i 2); mret (l_src (link ch i)).
Definition GetDevice (i : nat) (ch : channel) : res (option nat) := GetPointToPointDevice i ch.
Definition GetDelay (ch : channel) : Z := m_delay ch.
Definition GetSource (i : nat) (ch : channel) : option nat := l_src (link ch i).
Definition GetDestination (i : nat) (ch : channel) : option nat := l_dst (link ch i).

(** *** The device *)

Definition Attach (c d : nat) : M bool :=
  ch ← chan c;
  ch' ← lift (channel_Attach d ch);
  _ ← set_chan c ch';
  _ ← modify d (fun dev => NotifyLinkUp (set_link (Some c) (m_linkUp dev) dev));
  mret true.

(** The address of the first device of the channel that is not this one. *)
Definition GetRemote (d : nat) : M Z :=
  dev ← this d;
  c ← lift (deref (m_channel dev));
  ch ← chan c;
  _ ← lift (ns_assert (Nat.eqb (GetNDevices ch) 2));
  tmp ← lift (GetDevice 0 ch);
  if bool_decide (tmp <> Some d) then
    o ← lift (deref tmp); dev ← this o; mret (GetAddress dev)
  else
    tmp ← lift (GetDevice 1 ch);
    if bool_decide (tmp <> Some d) then
      o ← lift (deref tmp); dev ← this o; mret (GetAddress dev)
    else lift (Err AssertFailed).

Definition TransmitStart (d : nat) (p : Packet) : M bool :=
  dev ← this d;
  _ ← lift (ns_assert (bool_decide (m_txMachineState dev = READY)));
  _ ← modify d (set_tx BUSY (Some p));
  _ ← trace d (PhyTxBegin p);
  txTime ← lift (DataRate.CalculateBytesTxTime (m_bps dev) (GetSize p));
  let txCompleteTime := txTime + m_tInterframeGap dev in
  _ ← Schedule txCompleteTime (EvTransmitComplete d);
  c ← lift (deref (m_channel dev));
  result ← channel_TransmitStart c p d txTime;
  _ ← (if (result : bool) then mret tt else trace d (PhyTxDrop p));
  t ← now;
  _ ← modify d (start_tx t);
  mret result.

Definition TransmitComplete (d : nat) : M unit :=
  dev ← this d;
  _ ← lift (ns_assert (bool_decide (m_txMachineState dev = BUSY)));
  _ ← modify d (set_tx READY (m_currentPkt dev));
  cur ← lift (match m_currentPkt dev with Some p => Ok p | None => Err AssertFailed end);
  _ ← trace d (PhyTxEnd cur);
  _ ← modify d (set_tx READY None);
  q ← lift (deref (m_queue dev));
  '(p, q') ← lift (Queue.Dequeue GetSize q);
  _ ← modify d (set_queue (Some q'));
  match p with
  | None => t ← now; modify d (stopped_tx t)
  | Some p =>
      _ ← trace d (Sniffer p);
      _ ← trace d (PromiscSniffer p);
      _ ← TransmitStart d p;
      mret tt
  end.

(** The end of [Receive] and its [else] branch. *)
Definition deliver (d : nat) (packet' : Packet) (protocol : Z) (originalPacket : Packet) : M unit :=
  _ ← trace d (MacRx originalPacket);
  remote ← GetRemote d;
  trace d (RxCallback packet' protocol remote).

Definition receive_intact (d : nat) (dev : device) (packet : Packet) : M unit :=
  _ ← trace d (Sniffer packet);
  _ ← trace d (PromiscSniffer packet);
  _ ← trace d (PhyRxEnd packet);
  let originalPacket := Copy packet in
  '(_, packet', protocol) ← lift (ProcessHeader packet);
  _ ← (if m_promiscCallback dev then
         _ ← trace d (MacPromiscRx originalPacket);
         remote ← GetRemote d;
         trace d (PromiscRxCallback packet' protocol remote (GetAddress dev))
       else mret tt);
  deliver d packet' protocol originalPacket.

Definition Receive (d : nat) (packet : Packet) : M unit :=
  dev ← this d;
  corrupt ← (match m_receiveErrorModel dev with
             | None => mret false
             | Some em =>
                 let '(b, em') := IsCorrupt em packet in
                 _ ← modify d (set_error_model (Some em')); mret b
             end);
  if (corrupt : bool) then trace d (PhyRxDrop packet)
  else receive_intact d dev packet.

Definition DoMpiReceive : nat -> Packet -> M unit := Receive.

(** The packet of the caller is modified even when it is dropped: it is
    returned with the result. *)
Definition Send (d : nat) (packet : Packet) (dest protocolNumber : Z) : M (bool * Packet) :=
  dev ← this d;
  if negb (IsLinkUp dev) then
    _ ← trace d (MacTxDrop packet); mret (false, packet)
  else
    packet ← lift (AddHeader packet protocolNumber);
    _ ← trace d (MacTx packet);
    q ← lift (deref (m_queue dev));
    '(ok, q') ← lift (Queue.Enqueue GetSize packet q);
    _ ← modify d (set_queue (Some q'));
    if (ok : bool) then
      if bool_decide (m_txMachineState dev = READY) then
        '(p, q'') ← lift (Queue.Dequeue GetSize q');
        _ ← modify d (set_queue (Some q''));
        p ← lift (deref p);
        _ ← trace d (Sniffer p);
        _ ← trace d (PromiscSniffer p);
        ret ← TransmitStart d p;
        mret (ret, packet)
      else mret (true, packet)
    else
      _ ← trace d (MacTxDrop packet); mret (false, packet).

(** ** Runs *)

(** The next event runs at its time. *)
Definition fire : M unit := fun w =>
  match w_pending w with
  | [] => Ok (tt, w)
  | (t, e) :: rest =>
      let w' := mkWorld t rest (w_devs w) (w_chans w) in
      match e with
      | EvTransmitComplete d => TransmitComplete d w'
      | EvReceive _ d p => Receive d p w'
      end
  end.

(** What the rest of the simulation does to the links: it sends, reads the
    busy time, and lets time pass up to the next event. *)
Inductive input :=
| InSend (d : nat) (p : Packet) (protocol : Z)
| InTimeSlot (d : nat)
| InAdvance (t : Z)
| InFire.

Inductive output := OutSent (b : bool) | OutSlot (d : nat) (up : Z) | OutNone.

Definition step (i : input) (w : world) : res (output * world) :=
  match i with
  | InSend d p protocol => '(b, _, w') ← Send d p 0 protocol w; mret (OutSent b, w')
  | InTimeSlot d =>
      '(dev, _) ← this d w;
      let '((up, _), dev') := time_slot (w_now w) dev in
      mret (OutSlot d up, mkWorld (w_now w) (w_pending w) (<[d := dev']> (w_devs w)) (w_chans w))
  | InAdvance t =>
      let ok := (w_now w <=? t) && match w_pending w with [] => true | (u, _) :: _ => t <=? u end in
      mret (OutNone, if ok then mkWorld t (w_pending w) (w_devs w) (w_chans w) else w)
  | InFire => '(_, w') ← fire w; mret (OutNone, w')
  end.

Fixpoint steps (ins : list input) (w : world) : res (list output * world) :=
  match ins with
  | [] => Ok ([], w)
  | i :: ins => '(o, w') ← step i w; '(os, w'') ← steps ins w'; mret (o :: os, w'')
  end.

(** All pending events. *)
Fixpoint drain (fuel : nat) (w : world) : res world :=
  match w_pending w with
  | [] => Ok w
  | _ => match fuel with
         | O => Err OutOfFuel
         | S n => '(_, w') ← fire w; drain n w'
         end
  end.
End device.
