(* ===== verification/PointToPointSpec.v ===== *)
(** * Correctness of point-to-point links

    For every direction [a -> b] of every attached link, [view] collects what the
    two devices and the event list say about it, and [link_inv] is the invariant:
    the transmitter is ready exactly when nothing is queued or on its way out,
    the queue accepts what has been started followed by what it still holds, and
    what was started is what arrived followed by what is in flight, in order.
    [world_inv] is the invariant of the store; [step_ok] shows that no step fails
    and that every step keeps it. *)

From S2P Require Import Prelude Bytes Packet PointToPoint.
From S2P Require Queue QueueSpec.



(** ** The event list *)

Section pending.
Context {A B : Type} (f : A -> option B).

Fixpoint sel (l : list (Z * A)) : list (Z * B) :=
  match l with
  | [] => []
  | (t, e) :: l => match f e with Some x => (t, x) :: sel l | None => sel l end
  end.
End pending.

Section events.
Context {EM : Type} `{ErrorModel EM}.
Implicit Types (l : list (Z * event)) (t : Z) (e : event) (dev : device (EM := EM)) (w : world (EM := EM)).

Definition pending_sorted l : Prop := StronglySorted (fun x y => x.1 <= y.1) l.

Lemma insert_event_Forall t e l (P : Z * event -> Prop) :
  P (t, e) -> Forall P l -> Forall P (insert_event t e l).
Proof using.
  intros He. induction 1 as [|[u e'] l Hu Hl IH]; simpl; [by repeat constructor|].
  destruct (t <? u); repeat constructor; done.
Qed.

Lemma insert_event_sorted t e l : pending_sorted l -> pending_sorted (insert_event t e l).
Proof using.
  induction 1 as [|[u e'] l Hs IH Hf]; simpl; [repeat constructor|].
  destruct (t <? u) eqn:E; bool_to_Z.
  - constructor; [by constructor|]. constructor; simpl; [lia|].
    eapply Forall_impl; [exact Hf|]. simpl. intros [] ?. simpl in *. lia.
  - constructor; [done|]. apply insert_event_Forall; done.
Qed.

Lemma sel_insert_none {B} (f : event -> option B) t e l :
  f e = None -> sel f (insert_event t e l) = sel f l.
Proof using.
  intros He. induction l as [|[u e'] l IH]; simpl.
  - by rewrite He.
  - destruct (t <? u); simpl; [by rewrite He|]. by rewrite IH.
Qed.

Lemma sel_later {B} (f : event -> option B) t l :
  Forall (fun x => t < x.1) l -> Forall (fun x => x.1 <= t) (sel f l) -> sel f l = [].
Proof using.
  induction 1 as [|[u e] l Hu Hl IH]; simpl in *; [done|].
  destruct (f e); simpl; [|exact IH]. rewrite Forall_cons. simpl. lia.
Qed.

Lemma sel_insert_some {B} (f : event -> option B) t e x l :
  f e = Some x -> pending_sorted l -> Forall (fun y => y.1 <= t) (sel f l) ->
  sel f (insert_event t e l) = sel f l ++ [(t, x)].
Proof using.
  intros He Hs. induction Hs as [|[u e'] l Hs IH Hf]; simpl; intros Hle.
  - by rewrite He.
  - destruct (t <? u) eqn:E; bool_to_Z.
    + assert (sel f ((u, e') :: l) = []) as Hnil.
      { apply (sel_later f t); [|exact Hle]. constructor; [done|].
        eapply Forall_impl; [exact Hf|]. simpl. intros [] ?. simpl in *. lia. }
      cbn [sel]. rewrite He. cbn [sel] in Hnil. by rewrite Hnil.
    + simpl. destruct (f e') as [y|]; simpl in *.
      * apply Forall_cons in Hle as [_ Hle]. f_equal. apply IH, Hle.
      * apply IH, Hle.
Qed.

(** The completion of [a]'s transmission, and the packets on their way to [b]. *)
Definition completes (a : nat) l : list (Z * unit) :=
  sel (fun e => match e with EvTransmitComplete d => if decide (d = a) then Some tt else None | _ => None end) l.
Definition flights (b : nat) l : list (Z * Packet) :=
  sel (fun e => match e with EvReceive _ d p => if decide (d = b) then Some p else None | _ => None end) l.

(** What the trace sources of a device say. *)
Definition begun (t : p2p_trace) : option Packet :=
  match t with PhyTxBegin p => Some p | _ => None end.
Definition came (t : p2p_trace) : option Packet :=
  match t with PhyRxEnd p | PhyRxDrop p => Some p | _ => None end.
Definition queued (t : Queue.trace Packet) : option Packet :=
  match t with Queue.TraceEnqueue p => Some p | _ => None end.
Definition started dev : list Packet := omap begun (m_trace dev).
Definition arrived dev : list Packet := omap came (m_trace dev).
Definition enqueued (q : Queue.queue Packet) : list Packet := omap queued (Queue.m_traces q).

(** ** Running the operations *)

Definition upd w (d : nat) dev : world :=
  mkWorld (w_now w) (w_pending w) (<[d := dev]> (w_devs w)) (w_chans w).
Definition upd_pending w l : world := mkWorld (w_now w) l (w_devs w) (w_chans w).

Lemma upd_this w d dev : w_devs (upd w d dev) !! d = Some dev.
Proof using. apply lookup_insert_eq. Qed.
Lemma upd_other w d dev x : x <> d -> w_devs (upd w d dev) !! x = w_devs w !! x.
Proof using. intros. by apply lookup_insert_ne. Qed.
Lemma upd_upd w d dev dev' : upd (upd w d dev) d dev' = upd w d dev'.
Proof using. unfold upd. simpl. by rewrite insert_insert_eq. Qed.

Lemma run_this {A} d dev w (k : device -> M A) :
  w_devs w !! d = Some dev -> M_bind _ _ k (this d) w = k dev w.
Proof using. intros Hd. unfold M_bind, this. by rewrite Hd. Qed.
Lemma run_modify {A} d dev f w (k : unit -> M A) :
  w_devs w !! d = Some dev -> M_bind _ _ k (modify d f) w = k tt (upd w d (f dev)).
Proof using.
  intros Hd. unfold M_bind, modify, upd. f_equal. f_equal. apply map_eq. intros i.
  destruct (decide (i = d)) as [->|].
  - by rewrite lookup_alter_eq, lookup_insert_eq, Hd.
  - by rewrite lookup_alter_ne, lookup_insert_ne.
Qed.
Lemma run_modify_last d dev f w :
  w_devs w !! d = Some dev -> modify d f w = Ok (tt, upd w d (f dev)).
Proof using.
  intros Hd. pose proof (run_modify d dev f w (fun u => M_ret _ u) Hd) as E.
  unfold M_bind in E. simpl in E. exact E.
Qed.
Lemma run_lift {A B} (a : A) r w (k : A -> M B) :
  r = Ok a -> M_bind _ _ k (lift r) w = k a w.
Proof using. intros ->. done. Qed.
Lemma run_chan {A} c ch w (k : channel -> M A) :
  w_chans w !! c = Some ch -> M_bind _ _ k (chan c) w = k ch w.
Proof using. intros Hd. unfold M_bind, chan. by rewrite Hd. Qed.
Lemma run_ret {A B} (a : A) w (k : A -> M B) : M_bind _ _ k (M_ret _ a) w = k a w.
Proof using. done. Qed.
Lemma run_now {A} w (k : Z -> M A) : M_bind _ _ k now w = k (w_now w) w.
Proof using. done. Qed.
Lemma run_schedule {A} t e w (k : unit -> M A) :
  M_bind _ _ k (Schedule t e) w =
  k tt (upd_pending w (insert_event (w_now w + t) e (w_pending w))).
Proof using. done. Qed.
Lemma run_assoc {A B C} (m : M A) (f : A -> M B) (k : B -> M C) w :
  M_bind _ _ k (M_bind _ _ f m) w = M_bind _ _ (fun a => M_bind _ _ k (f a)) m w.
Proof using. unfold M_bind. by destruct (m w) as [[]|]. Qed.

(** ** Attached devices *)

Record attached w (a b c : nat) (ch : channel) : Prop := {
  at_a : exists dev, w_devs w !! a = Some dev /\ m_channel dev = Some c /\ m_linkUp dev = true /\
                     0 < m_bps dev /\ 0 <= m_tInterframeGap dev;
  at_b : exists dev, w_devs w !! b = Some dev /\ m_channel dev = Some c /\ is_Some (m_node dev);
  at_ne : a <> b;
  at_chan : w_chans w !! c = Some ch;
  at_two : m_nDevices ch = 2%nat;
  at_delay : 0 <= m_delay ch;
  at_links : (m_link0 ch = mkLink IDLE (Some a) (Some b) /\ m_link1 ch = mkLink IDLE (Some b) (Some a)) \/
             (m_link0 ch = mkLink IDLE (Some b) (Some a) /\ m_link1 ch = mkLink IDLE (Some a) (Some b)) }.

(** The fields of a device that the link protocol never changes. *)
Definition same_config dev dev' : Prop :=
  m_channel dev' = m_channel dev /\ m_linkUp dev' = m_linkUp dev /\ m_bps dev' = m_bps dev /\
  m_tInterframeGap dev' = m_tInterframeGap dev /\ m_node dev' = m_node dev.

Lemma attached_upd w d dev dev' a b c ch l :
  w_devs w !! d = Some dev -> same_config dev dev' ->
  attached w a b c ch -> attached (upd (upd_pending w l) d dev') a b c ch.
Proof using.
  intros Hd (E1 & E2 & E3 & E4 & E5) [Ha Hb ? ? ? ? ?]. constructor; try done.
  - destruct (decide (a = d)) as [->|]; [|by rewrite upd_other].
    rewrite upd_this. destruct Ha as (x & ? & ?). simplify_eq. exists dev'. rewrite E1, E2, E3, E4. done.
  - destruct (decide (b = d)) as [->|]; [|by rewrite upd_other].
    rewrite upd_this. destruct Hb as (x & ? & ?). simplify_eq. exists dev'. rewrite E1, E5. done.
Qed.

Lemma attached_unique w a b c ch a' c' ch' :
  attached w a b c ch -> attached w a' b c' ch' -> a' = a /\ c' = c /\ ch' = ch.
Proof using.
  intros [_ (x & Hx & Hc & _) Hn Hch _ _ Hl] [_ (y & Hy & Hc' & _) Hn' Hch' _ _ Hl'].
  simplify_eq. destruct Hl as [[E1 E2]|[E1 E2]], Hl' as [[E1' E2']|[E1' E2']];
    rewrite E1 in E1'; simplify_eq; done.
Qed.

Lemma attached_peer w a b c ch b' c' ch' :
  attached w a b c ch -> attached w a b' c' ch' -> b' = b /\ c' = c /\ ch' = ch.
Proof using.
  intros [(x & Hx & Hc & _) _ Hn Hch _ _ Hl] [(y & Hy & Hc' & _) _ Hn' Hch' _ _ Hl'].
  simplify_eq. destruct Hl as [[E1 E2]|[E1 E2]], Hl' as [[E1' E2']|[E1' E2']];
    rewrite E1 in E1'; simplify_eq; done.
Qed.

(** ** Starting a transmission *)

Definition begin_dev (t : Z) (p : Packet) dev : device :=
  start_tx t (add_trace [PhyTxBegin p] (set_tx BUSY (Some p) dev)).

Definition tx_time dev (p : Packet) : Z := u32 (GetSize p * 8) * 1000000000 / m_bps dev.

Lemma TransmitStart_ok w a b c ch dev p :
  attached w a b c ch -> w_devs w !! a = Some dev -> m_txMachineState dev = READY ->
  exists node, TransmitStart a p w = Ok (true,
    upd (upd_pending w (insert_event (w_now w + (tx_time dev p + m_delay ch)) (EvReceive node b p)
           (insert_event (w_now w + (tx_time dev p + m_tInterframeGap dev)) (EvTransmitComplete a)
              (w_pending w)))) a (begin_dev (w_now w) p dev)).
Proof using.
  intros [(x & Hx & Hc & Hup & Hbps & Hgap) (y & Hy & _ & (node & Hnode)) Hne Hch Htwo _ Hl] Hd Hready.
  simplify_eq. exists node. unfold TransmitStart, trace, channel_TransmitStart.
  cbv [mbind mret]. erewrite run_this by done.
  erewrite run_lift by (unfold ns_assert; rewrite bool_decide_true; done).
  erewrite run_modify by done. erewrite run_modify by apply upd_this. rewrite upd_upd.
  erewrite run_lift.
  2:{ unfold DataRate.CalculateBytesTxTime, DataRate.CalculateBitsTxTime.
      rewrite (proj2 (Z.eqb_neq _ _)) by lia. reflexivity. }
  fold (tx_time x p). cbv zeta. rewrite run_schedule.
  erewrite run_lift by (rewrite Hc; done). rewrite run_assoc.
  erewrite run_chan by done. rewrite run_assoc.
  assert (initialized (m_link0 ch) = true /\ initialized (m_link1 ch) = true) as [Hi0 Hi1].
  { by destruct Hl as [[-> ->]|[-> ->]]. }
  erewrite run_lift by (unfold ns_assert; rewrite Hi0; done). rewrite run_assoc.
  erewrite run_lift by (unfold ns_assert; rewrite Hi1; done). rewrite run_assoc.
  erewrite run_lift.
  2:{ instantiate (1 := b). destruct Hl as [[E0 E1]|[E0 E1]]; rewrite E0; simpl.
      - rewrite bool_decide_true by done. simpl. by rewrite E0.
      - rewrite bool_decide_false by congruence. simpl. by rewrite E1. }
  rewrite run_assoc. erewrite run_this.
  2:{ unfold upd_pending, upd. simpl. rewrite lookup_insert_ne by done. exact Hy. }
  rewrite run_assoc. erewrite run_lift by (by rewrite Hnode). rewrite run_assoc, run_schedule.
  rewrite run_ret. cbv beta iota. rewrite run_ret, run_now.
  erewrite run_modify by (apply lookup_insert_eq). unfold M_ret. do 2 f_equal.
  unfold upd, upd_pending, begin_dev. simpl. by rewrite insert_insert_eq.
Qed.

(** ** The invariant of a link *)

Context (S : Z).

(** A frame on the wire: a known protocol number, then the payload. *)
Definition frame (p : Packet) : Prop :=
  Z.of_nat (length (p_data p)) <= S /\
  exists proto payload, (proto = 0x0021 \/ proto = 0x0057) /\ p_data p = WriteHtonU16 proto ++ payload.

Definition horizon (now : Z) (cs : list (Z * unit)) : Z :=
  match cs with (t, _) :: _ => t | [] => now end.

Definition idle dev (q : Queue.queue Packet) (cs : list (Z * unit)) : Prop :=
  m_txMachineState dev = READY /\ m_currentPkt dev = None /\ was_down (m_history dev) = true /\
  Queue.m_packets q = [] /\ cs = [].

Definition busy (now : Z) dev (cs : list (Z * unit)) : Prop :=
  m_txMachineState dev = BUSY /\ is_Some (m_currentPkt dev) /\ was_down (m_history dev) = false /\
  exists t, cs = [(t, tt)] /\ now <= t.

Record link_inv (now delay : Z) dev (q : Queue.queue Packet) (arr : list Packet)
    (cs : list (Z * unit)) (fl : list (Z * Packet)) : Prop := {
  li_queue : m_queue dev = Some q;
  li_good : QueueSpec.good GetSize S q;
  li_frames : Forall frame (Queue.m_packets q);
  li_enqueued : enqueued q = started dev ++ Queue.m_packets q;
  li_state : idle dev q cs \/ busy now dev cs;
  li_order : started dev = arr ++ fl.*2;
  li_flying : Forall (fun x => frame x.2) fl;
  li_horizon : Forall (fun x => x.1 <= horizon now cs + delay) fl }.

(** Just before a transmission: [p] has left the queue. *)
Record start_inv (now delay : Z) dev (q : Queue.queue Packet) (p : Packet) (arr : list Packet)
    (cs : list (Z * unit)) (fl : list (Z * Packet)) : Prop := {
  si_queue : m_queue dev = Some q;
  si_good : QueueSpec.good GetSize S q;
  si_frames : Forall frame (p :: Queue.m_packets q);
  si_enqueued : enqueued q = started dev ++ p :: Queue.m_packets q;
  si_ready : m_txMachineState dev = READY;
  si_cs : cs = [];
  si_order : started dev = arr ++ fl.*2;
  si_flying : Forall (fun x => frame x.2) fl;
  si_horizon : Forall (fun x => x.1 <= now + delay) fl }.

Lemma started_begin t p dev : started (begin_dev t p dev) = started dev ++ [p].
Proof using.
  unfold begin_dev, start_tx, started. destruct (was_down _); simpl; by rewrite omap_app.
Qed.

Lemma begin_link_inv now delay dev q p arr fl gap tx :
  start_inv now delay dev q p arr [] fl -> 0 <= gap -> 0 <= tx ->
  link_inv now delay (begin_dev now p dev) q arr
    [(now + (tx + gap), tt)] (fl ++ [(now + (tx + delay), p)]).
Proof using.
  intros [] Hgap Htx. apply Forall_cons in si_frames0 as [Hp Hq]. constructor; try done.
  - unfold begin_dev, start_tx. by destruct (was_down _).
  - rewrite started_begin, <- app_assoc. done.
  - right. unfold busy, begin_dev, start_tx. destruct (was_down _) eqn:E; simpl in *; rewrite ?E;
      (split; [done|]); (split; [done|]); (split; [done|]); eexists; (split; [done|]); lia.
  - rewrite started_begin, fmap_app, app_assoc. simpl. by f_equal.
  - apply Forall_app. split; [done|]. by apply Forall_singleton.
  - apply Forall_app. simpl. split.
    + eapply Forall_impl; [done|]. simpl. lia.
    + constructor; [|done]. simpl. lia.
Qed.

Lemma link_inv_advance now t delay dev q arr cs fl :
  link_inv now delay dev q arr cs fl -> now <= t -> Forall (fun x => t <= x.1) cs ->
  link_inv t delay dev q arr cs fl.
Proof using.
  intros [] Hle Hcs. constructor; try done.
  - destruct li_state0 as [|(? & ? & ? & u & -> & ?)]; [by left|]. right.
    split; [done|]. split; [done|]. split; [done|]. exists u. split; [done|].
    by apply Forall_cons in Hcs as [? _].
  - eapply Forall_impl; [done|]. unfold horizon. destruct cs as [|[] ?]; simpl; lia.
Qed.

(** The transmitter's part of a device. *)
Lemma link_inv_ext now delay dev dev' q arr cs fl :
  m_queue dev' = m_queue dev -> m_txMachineState dev' = m_txMachineState dev ->
  m_currentPkt dev' = m_currentPkt dev -> m_history dev' = m_history dev ->
  started dev' = started dev ->
  link_inv now delay dev q arr cs fl -> link_inv now delay dev' q arr cs fl.
Proof using.
  intros E1 E2 E3 E4 E5 []. constructor; try congruence.
  unfold idle, busy in *. by rewrite E2, E3, E4.
Qed.

(** ** The invariant of the store *)

Definition known (m : gmap nat (device (EM := EM))) (x : Z * event) : Prop :=
  match x.2 with EvTransmitComplete d | EvReceive _ d _ => is_Some (m !! d) end.

Record world_inv w : Prop := {
  wi_sorted : pending_sorted (w_pending w);
  wi_future : Forall (fun x => w_now w <= x.1) (w_pending w);
  wi_known : Forall (known (w_devs w)) (w_pending w);
  wi_attached : forall d dev, w_devs w !! d = Some dev -> exists b c ch, attached w d b c ch;
  wi_links : forall a b c ch deva devb, attached w a b c ch ->
    w_devs w !! a = Some deva -> w_devs w !! b = Some devb ->
    exists q, link_inv (w_now w) (m_delay ch) deva q (arrived devb)
                (completes a (w_pending w)) (flights b (w_pending w)) }.

Lemma same_config_sym dev dev' : same_config dev dev' -> same_config dev' dev.
Proof using. unfold same_config. naive_solver. Qed.
Lemma same_config_trans d1 d2 d3 : same_config d1 d2 -> same_config d2 d3 -> same_config d1 d3.
Proof using. unfold same_config. naive_solver congruence. Qed.
Lemma same_config_begin t p dev : same_config dev (begin_dev t p dev).
Proof using. unfold begin_dev, start_tx. by destruct (was_down _). Qed.

Lemma attached_upd_inv w d dev dev' a b c ch l :
  w_devs w !! d = Some dev -> same_config dev dev' ->
  attached (upd (upd_pending w l) d dev') a b c ch -> attached w a b c ch.
Proof using.
  intros Hd Hs Hat.
  apply (attached_upd _ d dev' dev _ _ _ _ (w_pending w)) in Hat;
    [|apply upd_this|by apply same_config_sym].
  unfold upd, upd_pending in Hat. simpl in Hat. rewrite insert_insert_eq, insert_id in Hat by done.
  by destruct w.
Qed.

Lemma known_upd w d dev' l x : is_Some (w_devs w !! d) -> known (w_devs w) x ->
  known (w_devs (upd (upd_pending w l) d dev')) x.
Proof using.
  intros Hd. unfold known. simpl.
  destruct x as [t [y|n y p]]; simpl; (destruct (decide (y = d)) as [->|];
    [by rewrite lookup_insert_eq|by rewrite lookup_insert_ne]).
Qed.

(** An operation of device [d] that touches its transmitter and schedules
    events of its own link. *)
Lemma tx_op_inv w d b c ch dev dev' l :
  world_inv w -> attached w d b c ch -> w_devs w !! d = Some dev ->
  same_config dev dev' -> arrived dev' = arrived dev ->
  pending_sorted l -> Forall (fun x => w_now w <= x.1) l -> Forall (known (w_devs w)) l ->
  (forall x, x <> d -> completes x l = completes x (w_pending w)) ->
  (forall y, y <> b -> flights y l = flights y (w_pending w)) ->
  (forall devb, w_devs w !! b = Some devb ->
     exists q, link_inv (w_now w) (m_delay ch) dev' q (arrived devb) (completes d l) (flights b l)) ->
  world_inv (upd (upd_pending w l) d dev').
Proof using.
  intros [Hs Hf Hk Hatt Hl] Hat Hd Hcfg Harr Hs' Hf' Hk' Hc Hfl Hnew. constructor; try done.
  - eapply Forall_impl; [exact Hk'|]. intros x. by apply known_upd.
  - intros x devx Hx.
    assert (exists devx0, w_devs w !! x = Some devx0) as (devx0 & Hx0).
    { destruct (decide (x = d)) as [->|]; [eauto|]. rewrite upd_other in Hx by done. eauto. }
    destruct (Hatt x devx0 Hx0) as (b' & c' & ch' & ?). exists b', c', ch'. by eapply attached_upd.
  - intros a' b' c' ch' deva devb Hat' Ha Hb.
    eapply attached_upd_inv in Hat'; [|done..]. simpl.
    destruct (decide (a' = d)) as [->|Hne].
    + destruct (attached_peer _ _ _ _ _ _ _ _ Hat Hat') as (-> & -> & ->).
      rewrite upd_this in Ha. simplify_eq. pose proof (at_ne _ _ _ _ _ Hat).
      rewrite upd_other in Hb by done. by apply Hnew.
    + rewrite upd_other in Ha by done. rewrite Hc by done.
      rewrite Hfl by (intros ->; apply Hne; by eapply attached_unique in Hat' as [? _]; [|exact Hat]).
      destruct (decide (b' = d)) as [->|].
      * rewrite upd_this in Hb. simplify_eq. rewrite Harr. eauto.
      * rewrite upd_other in Hb by done. eauto.
Qed.

Lemma advance_inv w t :
  world_inv w -> w_now w <= t -> Forall (fun x => t <= x.1) (w_pending w) ->
  world_inv (mkWorld t (w_pending w) (w_devs w) (w_chans w)).
Proof using.
  intros [Hs Hf Hk Hatt Hl] Hle Ht. constructor; try done.
  - intros d dev Hd. destruct (Hatt d dev Hd) as (b & c & ch & []). exists b, c, ch. by constructor.
  - intros a b c ch deva devb [] Ha Hb. destruct (Hl a b c ch deva devb) as (q & Hq); [by constructor|done..|].
    exists q. simpl. eapply link_inv_advance; [done..|].
    clear -Ht. unfold completes. induction Ht as [|[u e] l Hu Hl IH]; simpl in *; [constructor|].
    destruct e as [y|n y p]; [|done]. destruct (decide (y = a)); simpl in *; [|done].
    by constructor.
Qed.

Lemma completes_insert_other x d t l : x <> d ->
  completes x (insert_event t (EvTransmitComplete d) l) = completes x l.
Proof using. intros. apply sel_insert_none. by rewrite decide_False. Qed.
Lemma completes_insert_receive x t n d p l :
  completes x (insert_event t (EvReceive n d p) l) = completes x l.
Proof using. by apply sel_insert_none. Qed.
Lemma flights_insert_complete y t d l :
  flights y (insert_event t (EvTransmitComplete d) l) = flights y l.
Proof using. by apply sel_insert_none. Qed.
Lemma flights_insert_other y t n d p l : y <> d ->
  flights y (insert_event t (EvReceive n d p) l) = flights y l.
Proof using. intros. apply sel_insert_none. by rewrite decide_False. Qed.

Lemma completes_insert_same d t l :
  pending_sorted l -> completes d l = [] ->
  completes d (insert_event t (EvTransmitComplete d) l) = [(t, tt)].
Proof using.
  intros Hs Hc. unfold completes in *. rewrite (sel_insert_some _ _ _ tt); [|by rewrite decide_True|done|].
  - by rewrite Hc.
  - by rewrite Hc.
Qed.
Lemma flights_insert_same b t n p l :
  pending_sorted l -> Forall (fun x => x.1 <= t) (flights b l) ->
  flights b (insert_event t (EvReceive n b p) l) = flights b l ++ [(t, p)].
Proof using. intros Hs Hc. unfold flights in *. apply sel_insert_some; [by rewrite decide_True|done..]. Qed.

Lemma start_ok w d b c ch dev dev1 l devb q p :
  world_inv w -> attached w d b c ch -> w_devs w !! d = Some dev -> w_devs w !! b = Some devb ->
  same_config dev dev1 -> arrived dev1 = arrived dev ->
  pending_sorted l -> Forall (fun x => w_now w <= x.1) l -> Forall (known (w_devs w)) l ->
  (forall x, x <> d -> completes x l = completes x (w_pending w)) ->
  (forall y, flights y l = flights y (w_pending w)) ->
  start_inv (w_now w) (m_delay ch) dev1 q p (arrived devb) (completes d l) (flights b l) ->
  exists l', TransmitStart d p (upd (upd_pending w l) d dev1) =
      Ok (true, upd (upd_pending w l') d (begin_dev (w_now w) p dev1)) /\
    length l' = (length l + 2)%nat /\
    world_inv (upd (upd_pending w l') d (begin_dev (w_now w) p dev1)).
Proof using.
  intros Hw Hat Hd Hb Hcfg Harr Hs Hf Hk Hc Hfl Hsi.
  assert (attached (upd (upd_pending w l) d dev1) d b c ch) as Hat1 by (by eapply attached_upd).
  destruct (TransmitStart_ok _ d b c ch dev1 p Hat1 (upd_this _ _ _) (si_ready _ _ _ _ _ _ _ _ Hsi))
    as (node & E).
  pose proof (at_delay _ _ _ _ _ Hat) as Hdel.
  destruct (at_a _ _ _ _ _ Hat1) as (x & Hx & _ & _ & Hbps & Hgap).
  rewrite upd_this in Hx. injection Hx as <-.
  assert (0 <= tx_time dev1 p) as Htx.
  { unfold tx_time. apply Z.div_pos; [|done]. apply Z.mul_nonneg_nonneg; [|lia]. by apply wrap_range. }
  rewrite E. eexists. split; [unfold upd, upd_pending; simpl; by rewrite insert_insert_eq|].
  assert (forall t e k, length (insert_event t e k) = Datatypes.S (length k)) as Hlen.
  { intros t e k. induction k as [|[u e'] k IH]; simpl; [done|].
    destruct (t <? u); simpl; lia. }
  split; [rewrite !Hlen; lia|]. pose proof Hsi as [_ _ _ _ _ Hcs _ _ Hhor].
  eapply tx_op_inv; try done.
  - eapply same_config_trans; [done|apply same_config_begin].
  - unfold begin_dev, start_tx. rewrite <- Harr.
    destruct (was_down _); unfold arrived; simpl; by rewrite omap_app, app_nil_r.
  - by do 2 apply insert_event_sorted.
  - do 2 (apply insert_event_Forall; [simpl; lia|]). done.
  - do 2 (apply insert_event_Forall; [unfold known; simpl; eauto|]). done.
  - intros y Hy. simpl. by rewrite completes_insert_receive, completes_insert_other, Hc by done.
  - intros y Hy. simpl. by rewrite flights_insert_other, flights_insert_complete, Hfl by done.
  - intros devb' Hb'. simplify_eq. exists q. simpl.
    rewrite completes_insert_receive, completes_insert_same by done.
    rewrite flights_insert_same, flights_insert_complete.
    + rewrite Hcs in Hsi. by apply begin_link_inv.
    + by apply insert_event_sorted.
    + rewrite flights_insert_complete. eapply Forall_impl; [exact Hhor|]. simpl. lia.
Qed.

(** ** Busy time *)

(** Transmission time that [time_slot] has not reported yet. *)
Definition residual (now : Z) dev : Z :=
  up_duration (m_history dev) +
  (if was_down (m_history dev) then 0 else now - h_start_tx (m_history dev)).

Record hist_ok (now : Z) dev : Prop := {
  ho_up : 0 <= up_duration (m_history dev);
  ho_start : was_down (m_history dev) = false -> h_start_tx (m_history dev) <= now;
  ho_now : residual now dev <= now }.

(** An operation keeps what is still to be reported. *)
Definition accounts (now : Z) dev dev' : Prop :=
  now < 2 ^ 64 -> hist_ok now dev -> hist_ok now dev' /\ residual now dev' = residual now dev.

Lemma accounts_history now dev dev' : m_history dev' = m_history dev -> accounts now dev dev'.
Proof using. intros E _ []. unfold residual in *. split; [constructor|]; unfold residual; by rewrite E. Qed.

Lemma accounts_trans now d1 d2 d3 : accounts now d1 d2 -> accounts now d2 d3 -> accounts now d1 d3.
Proof using. intros H1 H2 Hn Hok. destruct (H1 Hn Hok) as [H3 E]. destruct (H2 Hn H3). split; [done|congruence]. Qed.

Lemma accounts_begin now p dev : accounts now dev (begin_dev now p dev).
Proof using.
  intros _ [Hu Hs Hn]. unfold residual in *. unfold begin_dev, start_tx. simpl.
  destruct (was_down (m_history dev)) eqn:E.
  - split; [constructor|]; unfold residual; simpl; lia.
  - split; [constructor|]; unfold residual; simpl; rewrite ?E; try done; lia.
Qed.

Lemma accounts_stopped now dev :
  was_down (m_history dev) = false -> accounts now dev (stopped_tx now dev).
Proof using.
  intros E Hlt [Hu Hs Hn]. unfold residual in *. rewrite E in *. specialize (Hs eq_refl).
  unfold stopped_tx. split; [constructor|]; unfold residual; simpl;
    rewrite ?wrap_small by (unfold in_range; lia); try done; lia.
Qed.

Definition qlen dev : nat :=
  match m_queue dev with Some q => length (Queue.m_packets q) | None => 0 end.

Lemma GetSize_range (p : Packet) : 0 <= GetSize p < 2 ^ 32.
Proof using. by apply wrap_range. Qed.

Lemma enqueued_traces (q q' : Queue.queue Packet) (l : list (Queue.trace Packet)) :
  Queue.m_traces q' = Queue.m_traces q ++ l -> enqueued q' = enqueued q ++ omap queued l.
Proof using. intros E. unfold enqueued. by rewrite E, omap_app. Qed.

(** [Dequeue] on a queue that satisfies the invariant. *)
Lemma Dequeue_good q :
  QueueSpec.good GetSize S q ->
  exists q', Queue.Dequeue GetSize q = Ok (head (Queue.m_packets q), q') /\
    QueueSpec.good GetSize S q' /\ Queue.m_packets q' = tail (Queue.m_packets q) /\
    enqueued q' = enqueued q.
Proof using.
  intros Hg. destruct (QueueSpec.Dequeue_ok GetSize GetSize_range q (QueueSpec.good_wf _ _ _ Hg))
    as (q' & E & Hwf & Hm & Hp & _ & Htr).
  exists q'. split; [done|]. split; [|split; [done|]].
  - eapply (QueueSpec.good_next GetSize GetSize_range S q q' QueueSpec.OpDequeue); done.
  - rewrite (enqueued_traces _ _ _ Htr). destruct (Queue.m_packets q); simpl; by rewrite app_nil_r.
Qed.

(** ** A transmission completes *)

Definition completed (cur : Packet) (q' : Queue.queue Packet) dev : device :=
  set_queue (Some q') (set_tx READY None (add_trace [PhyTxEnd cur] (set_tx READY (Some cur) dev))).
Definition sniffed (p : Packet) dev : device := add_trace [PromiscSniffer p] (add_trace [Sniffer p] dev).

Lemma TransmitComplete_run w d dev cur q q' o :
  w_devs w !! d = Some dev -> m_txMachineState dev = BUSY -> m_currentPkt dev = Some cur ->
  m_queue dev = Some q -> Queue.Dequeue GetSize q = Ok (o, q') ->
  TransmitComplete d w =
  match o with
  | None => Ok (tt, upd w d (stopped_tx (w_now w) (completed cur q' dev)))
  | Some p => match TransmitStart d p (upd w d (sniffed p (completed cur q' dev))) with
              | Ok (_, w') => Ok (tt, w') | Err f => Err f end
  end.
Proof using.
  intros Hd Hbusy Hcur Hq Hdeq. unfold TransmitComplete, trace. cbv [mbind mret].
  erewrite run_this by done.
  erewrite run_lift by (unfold ns_assert; by rewrite bool_decide_true).
  erewrite run_modify by done. rewrite Hcur. erewrite run_lift by done.
  erewrite run_modify by apply upd_this. rewrite upd_upd.
  erewrite run_modify by apply upd_this. rewrite upd_upd.
  erewrite run_lift by (by rewrite Hq). erewrite run_lift by done.
  cbv beta iota. erewrite run_modify by apply upd_this. rewrite upd_upd.
  destruct o as [p|]; [|rewrite run_now; erewrite run_modify_last by apply upd_this; by rewrite upd_upd].
  erewrite run_modify by apply upd_this. rewrite upd_upd.
  erewrite run_modify by apply upd_this. rewrite upd_upd. done.
Qed.

Lemma TransmitComplete_ok w d rest t :
  world_inv w -> w_pending w = (t, EvTransmitComplete d) :: rest -> w_now w = t ->
  exists l dev dev', w_devs w !! d = Some dev /\ m_txMachineState dev = BUSY /\
    TransmitComplete d (upd_pending w rest) = Ok (tt, upd (upd_pending w l) d dev') /\
    world_inv (upd (upd_pending w l) d dev') /\
    (length l + 2 * qlen dev' = length rest + 2 * qlen dev)%nat /\ accounts t dev dev'.
Proof using.
  intros Hw Hpend Hnow. pose proof Hw as [Hs Hf Hk Hatt Hl]. rewrite Hpend in Hs, Hf, Hk.
  apply StronglySorted_inv in Hs as [Hs _]. apply Forall_cons in Hf as [_ Hf].
  apply Forall_cons in Hk as [[dev Hd] Hk]. simpl in Hd.
  destruct (Hatt d dev Hd) as (b & c & ch & Hat).
  destruct (at_b _ _ _ _ _ Hat) as (devb & Hb & _).
  destruct (Hl _ _ _ _ _ _ Hat Hd Hb) as (q & [Hq Hg Hfr Henq Hst Hord Hfly Hhor]).
  assert (completes d (w_pending w) = (t, tt) :: completes d rest) as Hcomp.
  { rewrite Hpend. unfold completes. simpl. by rewrite decide_True. }
  assert (forall x, x <> d -> completes x rest = completes x (w_pending w)) as Hother.
  { intros x Hx. rewrite Hpend. unfold completes. simpl. by rewrite decide_False. }
  assert (forall y, flights y rest = flights y (w_pending w)) as Hfl by (intros y; by rewrite Hpend).
  rewrite Hcomp in Hst, Hhor. simpl in Hhor. rewrite <- Hfl in Hord, Hfly, Hhor.
  destruct Hst as [(_ & _ & _ & _ & ?)|(Hbusy & [cur Hcur] & Hdown & u & Hcs & _)]; [done|].
  injection Hcs as -> Hcs.
  destruct (Dequeue_good q Hg) as (q' & Edeq & Hg' & Hp' & Henq').
  pose proof (TransmitComplete_run (upd_pending w rest) d dev cur q q' _ Hd Hbusy Hcur Hq Edeq) as Erun.
  set (dev1 := completed cur q' dev) in *.
  assert (arrived dev1 = arrived dev) as Harr by (unfold arrived; simpl; by rewrite omap_app, app_nil_r).
  assert (started dev1 = started dev) as Hsta by (unfold started; simpl; by rewrite omap_app, app_nil_r).
  destruct (Queue.m_packets q) as [|p pk] eqn:Hpk; simpl in Erun, Hp'.
  - exists rest, dev, (stopped_tx (w_now w) dev1). split; [done|]. split; [done|]. split; [exact Erun|].
    split; [|split].
    + eapply tx_op_inv; try done.
      intros devb' Hb'. simplify_eq. exists q'. constructor; try done.
      * by rewrite Hp'.
      * change (started (stopped_tx (w_now w) dev1)) with (started dev1).
        rewrite Hp', Henq', Hsta. exact Henq.
      * left. done.
      * change (started (stopped_tx (w_now w) dev1)) with (started dev1). by rewrite Hsta.
      * rewrite Hcs. done.
    + unfold qlen. simpl. rewrite Hq, Hpk, Hp'. simpl. lia.
    + subst u. eapply accounts_trans; [apply (accounts_history _ _ dev1); done|by apply accounts_stopped].
  - destruct (start_ok w d b c ch dev (sniffed p dev1) rest devb q' p) as (l' & E & Hlen & Hw'); try done.
    + rewrite <- Harr. unfold arrived. simpl. rewrite !omap_app. simpl. by rewrite !app_nil_r.
    + assert (started (sniffed p dev1) = started dev) as Hsta'.
      { rewrite <- Hsta. unfold started. simpl. rewrite !omap_app. simpl. by rewrite !app_nil_r. }
      constructor; try done; rewrite ?Hp', ?Hsta'; try done.
      * by rewrite Henq'.
      * by subst u.
    + exists l', dev, (begin_dev (w_now w) p (sniffed p dev1)).
      split; [done|]. split; [done|]. split; [by rewrite Erun, E|]. split; [done|]. split.
      * unfold qlen. unfold begin_dev, start_tx. rewrite Hq, Hpk.
        destruct (was_down _); simpl; rewrite Hp'; lia.
      * subst u. eapply accounts_trans; [|apply accounts_begin]. by apply accounts_history.
Qed.

(** ** A frame arrives *)

Lemma ProcessHeader_frame p : frame p -> exists p' proto, ProcessHeader p = Ok (true, p', proto).
Proof using.
  intros (_ & proto & payload & Hproto & Hd). unfold ProcessHeader, RemoveHeader.
  cbv [Deserialize ppp_header]. unfold ppp_Deserialize. rewrite Hd, ReadNtohU16_write.
  - unfold GetProtocol. destruct Hproto as [-> | ->]; simpl; eauto.
  - unfold in_range. destruct Hproto as [-> | ->]; lia.
Qed.

Lemma GetRemote_ok w d b c ch : attached w d b c ch -> exists r, GetRemote d w = Ok (r, w).
Proof using.
  intros [(x & Hx & Hc & _) (y & Hy & _) Hne Hch Htwo _ Hl]. unfold GetRemote. cbv [mbind mret].
  erewrite run_this by done. erewrite run_lift by (by rewrite Hc). erewrite run_chan by done.
  erewrite run_lift by (unfold ns_assert, GetNDevices; by rewrite Htwo).
  unfold GetDevice, GetPointToPointDevice, link. simpl. destruct Hl as [[E0 E1]|[E0 E1]].
  - erewrite run_lift by done. rewrite E0. simpl. rewrite bool_decide_false by naive_solver.
    erewrite run_lift by done. rewrite E1. simpl. rewrite bool_decide_true by congruence.
    erewrite run_lift by done. erewrite run_this by done. eauto.
  - erewrite run_lift by done. rewrite E0. simpl. rewrite bool_decide_true by congruence.
    erewrite run_lift by done. erewrite run_this by done. eauto.
Qed.

(** What a reception changes in the device. *)
Definition received (p : Packet) dev dev' : Prop :=
  m_queue dev' = m_queue dev /\ m_txMachineState dev' = m_txMachineState dev /\
  m_currentPkt dev' = m_currentPkt dev /\ m_history dev' = m_history dev /\
  started dev' = started dev /\ same_config dev dev' /\ arrived dev' = arrived dev ++ [p].

(** Adding traces after the reception trace. *)
Lemma received_add p dev dev' (l : list p2p_trace) : received p dev dev' -> omap begun l = [] -> omap came l = [] ->
  received p dev (add_trace l dev').
Proof using.
  intros (? & ? & ? & ? & E1 & ? & E2) Hb Hc. unfold received, started, arrived in *. simpl.
  by rewrite !omap_app, Hb, Hc, !app_nil_r.
Qed.

Lemma received_first p dev dev0 (l : list p2p_trace) :
  dev0 = dev \/ (exists em, dev0 = set_error_model (Some em) dev) ->
  omap begun l = [] -> omap came l = [p] -> received p dev (add_trace l dev0).
Proof using.
  intros Hd Hb Hc. unfold received, started, arrived. simpl. rewrite !omap_app, Hb, Hc.
  destruct Hd as [->|[em ->]]; simpl; by rewrite !app_nil_r.
Qed.

Section reception.
Context (w : world (EM := EM)) (d b c : nat) (ch : channel) (dev : device (EM := EM)) (p : Packet).
Context (Hat : attached w d b c ch) (Hd : w_devs w !! d = Some dev) (Hfr : frame p).

Lemma GetRemote_upd dev' : same_config dev dev' ->
  exists r, GetRemote d (upd w d dev') = Ok (r, upd w d dev').
Proof using Hat Hd.
  intros Hc. apply (GetRemote_ok _ d b c ch).
  pose proof (attached_upd w d dev dev' d b c ch (w_pending w) Hd Hc Hat) as Ha. by destruct w.
Qed.

Lemma deliver_run dev' p' proto orig :
  received p dev dev' ->
  exists dev'', deliver d p' proto orig (upd w d dev') = Ok (tt, upd w d dev'') /\ received p dev dev''.
Proof using Hat Hd.
  intros Hr. unfold deliver, trace. cbv [mbind].
  erewrite run_modify by apply upd_this. rewrite upd_upd.
  apply (received_add _ _ _ [MacRx orig]) in Hr; [|done..].
  destruct (GetRemote_upd (add_trace [MacRx orig] dev')) as [r Er]; [apply Hr|].
  unfold M_bind at 1. rewrite Er. erewrite run_modify_last by apply upd_this. rewrite upd_upd.
  eexists. split; [done|]. by apply received_add.
Qed.

Lemma receive_intact_run dev0 :
  dev0 = dev \/ (exists em, dev0 = set_error_model (Some em) dev) ->
  exists dev', receive_intact d dev p (upd w d dev0) = Ok (tt, upd w d dev') /\ received p dev dev'.
Proof using Hat Hd Hfr.
  intros Hdev0. destruct (ProcessHeader_frame p Hfr) as (p' & proto & Hph).
  unfold receive_intact, trace. cbv [mbind mret].
  do 3 (erewrite run_modify by apply upd_this; rewrite upd_upd).
  erewrite run_lift by done. cbv beta iota.
  set (dev3 := add_trace [PhyRxEnd p] (add_trace [PromiscSniffer p] (add_trace [Sniffer p] dev0))).
  assert (received p dev dev3) as Hr3.
  { replace dev3 with (add_trace [Sniffer p; PromiscSniffer p; PhyRxEnd p] dev0)
      by (subst dev3; unfold add_trace; simpl; by rewrite <- !app_assoc).
    by apply received_first. }
  destruct (m_promiscCallback dev); [|rewrite run_ret; by apply deliver_run].
  rewrite run_assoc. erewrite run_modify by apply upd_this. rewrite upd_upd, run_assoc.
  apply (received_add _ _ _ [MacPromiscRx (Copy p)]) in Hr3; [|done..].
  destruct (GetRemote_upd (add_trace [MacPromiscRx (Copy p)] dev3)) as [r Er]; [apply Hr3|].
  unfold M_bind at 1. rewrite Er. erewrite run_modify by apply upd_this. rewrite upd_upd.
  apply deliver_run. by apply received_add.
Qed.

Lemma Receive_run :
  exists dev', Receive d p w = Ok (tt, upd w d dev') /\ received p dev dev'.
Proof using Hat Hd Hfr.
  unfold Receive, trace. cbv [mbind mret]. erewrite run_this by done.
  assert (upd w d dev = w) as Hid by (unfold upd; rewrite insert_id by done; by destruct w).
  destruct (m_receiveErrorModel dev) as [em|].
  - destruct (IsCorrupt em p) as [[] em']; rewrite run_assoc;
      erewrite run_modify by done; rewrite run_ret.
    + erewrite run_modify_last by apply upd_this. rewrite upd_upd. eexists. split; [done|].
      apply received_first; eauto.
    + apply receive_intact_run. eauto.
  - pose proof (receive_intact_run dev (or_introl eq_refl)) as Hrun. rewrite Hid in Hrun. exact Hrun.
Qed.
End reception.

Lemma attached_back w a b c ch :
  world_inv w -> attached w a b c ch -> attached w b a c ch.
Proof using.
  intros Hw Hat. destruct (at_b _ _ _ _ _ Hat) as (devb & Hb & Hc & _).
  destruct (wi_attached w Hw b devb Hb) as (a' & c' & ch' & Hat').
  enough (a' = a /\ c' = c /\ ch' = ch) as (-> & -> & ->) by done.
  destruct (at_a _ _ _ _ _ Hat') as (x & Hx & Hcx & _). simplify_eq.
  pose proof (at_chan _ _ _ _ _ Hat) as E1. pose proof (at_chan _ _ _ _ _ Hat') as E2. simplify_eq.
  destruct (at_links _ _ _ _ _ Hat) as [[L0 L1]|[L0 L1]],
    (at_links _ _ _ _ _ Hat') as [[L0' L1']|[L0' L1']]; rewrite L0 in L0'; by simplify_eq.
Qed.

Lemma Receive_ok w d n p rest t :
  world_inv w -> w_pending w = (t, EvReceive n d p) :: rest -> w_now w = t ->
  exists dev dev', w_devs w !! d = Some dev /\
    Receive d p (upd_pending w rest) = Ok (tt, upd (upd_pending w rest) d dev') /\
    world_inv (upd (upd_pending w rest) d dev') /\ received p dev dev'.
Proof using.
  intros Hw Hpend Hnow. pose proof Hw as [Hs Hf Hk Hatt Hl]. rewrite Hpend in Hs, Hf, Hk.
  apply StronglySorted_inv in Hs as [Hs _]. apply Forall_cons in Hf as [_ Hf].
  apply Forall_cons in Hk as [[dev Hd] Hk]. simpl in Hd.
  destruct (Hatt d dev Hd) as (b & c & ch & Hat).
  pose proof (attached_back _ _ _ _ _ Hw Hat) as Hback.
  destruct (at_b _ _ _ _ _ Hat) as (devb & Hb & _).
  assert (flights d (w_pending w) = (t, p) :: flights d rest) as Hfl.
  { rewrite Hpend. unfold flights. simpl. by rewrite decide_True. }
  assert (forall y, y <> d -> flights y rest = flights y (w_pending w)) as Hother.
  { intros x Hx. rewrite Hpend. unfold flights. simpl. by rewrite decide_False. }
  assert (forall y, completes y rest = completes y (w_pending w)) as Hcs by (intros y; by rewrite Hpend).
  destruct (Hl _ _ _ _ _ _ Hback Hb Hd) as (q & [Hq Hg Hfr Henq Hst Hord Hfly Hhor]).
  rewrite Hfl in Hord, Hfly, Hhor. apply Forall_cons in Hfly as [Hp Hfly]. apply Forall_cons in Hhor as [_ Hhor].
  destruct (Receive_run (upd_pending w rest) d b c ch dev p) as (dev' & Erun & Hr); [|done..|].
  { destruct Hat. by constructor. }
  exists dev, dev'. split; [done|]. split; [done|]. split; [|done].
  destruct Hr as (E1 & E2 & E3 & E4 & E5 & Hcfg & Harr).
  constructor; try done.
  - eapply Forall_impl; [exact Hk|]. intros x. apply known_upd. eauto.
  - intros x devx Hx.
    assert (exists devx0, w_devs w !! x = Some devx0) as (devx0 & Hx0).
    { destruct (decide (x = d)) as [->|]; [eauto|]. rewrite upd_other in Hx by done. eauto. }
    destruct (Hatt x devx0 Hx0) as (b' & c' & ch' & ?). exists b', c', ch'. by eapply attached_upd.
  - intros a' b' c' ch' deva devb' Hat' Ha Hb'. eapply attached_upd_inv in Hat'; [|done..].
    simpl. rewrite Hcs. destruct (decide (b' = d)) as [->|Hne].
    + destruct (attached_unique _ _ _ _ _ _ _ _ Hback Hat') as (-> & -> & ->).
      rewrite upd_this in Hb'. rewrite upd_other in Ha by (by destruct Hback). simpl in Ha. simplify_eq.
      exists q. rewrite Harr. constructor; try done. by rewrite Hord, <- app_assoc.
    + rewrite upd_other in Hb' by done. rewrite Hother by done.
      destruct (decide (a' = d)) as [->|].
      * rewrite upd_this in Ha. simplify_eq. destruct (Hl _ _ _ _ _ _ Hat' Hd Hb') as (q2 & Hq2).
        exists q2. by eapply link_inv_ext.
      * rewrite upd_other in Ha by done. by apply (Hl _ _ _ _ _ _ Hat' Ha Hb').
Qed.

(** ** Sending *)

(** What the device above may send: IP packets that fit a frame. *)
Definition sendable (p : Packet) (protocol : Z) : Prop :=
  (protocol = 0x0800 \/ protocol = 0x86DD) /\ Z.of_nat (length (p_data p)) + 2 <= S.

Lemma AddHeader_frame p protocol :
  sendable p protocol -> exists p', AddHeader p protocol = Ok p' /\ frame p' /\ p_uid p' = p_uid p.
Proof using.
  intros [Hproto Hlen].
  assert (forall proto, proto = 0x0021 \/ proto = 0x0057 ->
    frame (Packet.AddHeader (mkPppHeader proto) p)) as Hframe.
  { intros proto Hp.
    assert (p_data (Packet.AddHeader (mkPppHeader proto) p) = WriteHtonU16 proto ++ p_data p) as E.
    { refine (AddHeader_data (mkPppHeader proto) p _). unfold valid, in_range. simpl. destruct Hp; lia. }
    split; [|eauto]. rewrite E. simpl. lia. }
  unfold AddHeader. destruct Hproto as [-> | ->]; simpl;
    (eexists; split; [done|]; split; [apply Hframe; auto|done]).
Qed.

Lemma frame_sized p : frame p -> S < 2 ^ 32 -> QueueSpec.sized GetSize S p.
Proof using.
  intros (Hlen & proto & payload & _ & Hd) HS. unfold QueueSpec.sized, GetSize.
  rewrite wrap_small by (unfold in_range; lia). rewrite Hd in *. simpl in *. lia.
Qed.

Definition sending (p : Packet) (q : Queue.queue Packet) dev : device :=
  set_queue (Some q) (add_trace [MacTx p] dev).

Lemma Send_run w d dev p protocol p' q ok q1 :
  w_devs w !! d = Some dev -> m_linkUp dev = true -> AddHeader p protocol = Ok p' ->
  m_queue dev = Some q -> Queue.Enqueue GetSize p' q = Ok (ok, q1) ->
  Send d p 0 protocol w =
  if (ok : bool) then
    if bool_decide (m_txMachineState dev = READY) then
      match Queue.Dequeue GetSize q1 with
      | Ok (Some p2, q2) =>
          match TransmitStart d p2 (upd w d (sniffed p2 (set_queue (Some q2) (sending p' q1 dev)))) with
          | Ok (r, w') => Ok ((r, p'), w') | Err f => Err f end
      | Ok (None, _) => Err UndefinedBehaviour
      | Err f => Err f
      end
    else Ok ((true, p'), upd w d (sending p' q1 dev))
  else Ok ((false, p'), upd w d (add_trace [MacTxDrop p'] (sending p' q1 dev))).
Proof using.
  intros Hd Hup Hadd Hq Henq. unfold Send, trace. cbv [mbind mret]. erewrite run_this by done.
  unfold IsLinkUp. rewrite Hup. simpl. erewrite run_lift by done.
  erewrite run_modify by done. erewrite run_lift by (by rewrite Hq). erewrite run_lift by done.
  cbv beta iota. erewrite run_modify by apply upd_this. rewrite upd_upd. fold (sending p' q1 dev).
  destruct ok.
  - destruct (bool_decide _); [|done]. destruct (Queue.Dequeue GetSize q1) as [[[p2|] q2]|f].
    + erewrite run_lift by done. cbv beta iota. erewrite run_modify by apply upd_this. rewrite upd_upd.
      erewrite run_lift by done. do 2 (erewrite run_modify by apply upd_this; rewrite upd_upd).
      unfold M_bind. fold (sniffed p2 (set_queue (Some q2) (sending p' q1 dev))).
      by destruct (TransmitStart _ _ _) as [[]|].
    + erewrite run_lift by done. cbv beta iota. erewrite run_modify by apply upd_this. rewrite upd_upd. done.
    + done.
  - erewrite run_modify by apply upd_this. by rewrite upd_upd.
Qed.

Lemma Enqueue_good q p :
  S < 2 ^ 32 -> QueueSpec.good GetSize S q -> frame p ->
  exists ok q', Queue.Enqueue GetSize p q = Ok (ok, q') /\ QueueSpec.good GetSize S q' /\
    Queue.m_packets q' = Queue.m_packets q ++ (if (ok : bool) then [p] else []) /\
    enqueued q' = enqueued q ++ (if ok then [p] else []).
Proof using.
  intros HS Hg Hp. pose proof (frame_sized p Hp HS) as Hsz.
  destruct (QueueSpec.Enqueue_ok GetSize GetSize_range q p (QueueSpec.good_wf _ _ _ Hg)
    (QueueSpec.within_no_wrap GetSize S q p Hg Hsz)) as (q' & E & Hwf & Hm & Hpk & Htr).
  pose proof (QueueSpec.good_next GetSize GetSize_range S q q' (QueueSpec.OpEnqueue p) Hg Hsz Hwf Hm) as Hnext.
  simpl in Hnext. eexists _, q'. split; [done|]. rewrite (enqueued_traces _ _ _ Htr).
  destruct (QueueSpec.fits _ _ _ _); simpl in *; rewrite ?app_nil_r; auto.
Qed.

Lemma sending_traces p q dev (l : list p2p_trace) :
  omap begun l = [] -> omap came l = [] ->
  started (add_trace l (sending p q dev)) = started dev /\ arrived (add_trace l (sending p q dev)) = arrived dev.
Proof using.
  intros Hb Hc. unfold started, arrived. simpl. rewrite !omap_app, Hb, Hc. simpl. by rewrite !app_nil_r.
Qed.

(** The frame joins the queue, or is dropped, and nothing is started. *)
Lemma link_inv_queue now delay dev q q' p ok (l : list p2p_trace) arr cs fl :
  link_inv now delay dev q arr cs fl -> QueueSpec.good GetSize S q' -> frame p ->
  (ok = true -> m_txMachineState dev = BUSY) ->
  Queue.m_packets q' = Queue.m_packets q ++ (if (ok : bool) then [p] else []) ->
  enqueued q' = enqueued q ++ (if ok then [p] else []) -> omap begun l = [] -> omap came l = [] ->
  link_inv now delay (add_trace l (sending p q' dev)) q' arr cs fl.
Proof using.
  intros [] Hg Hp Hok Hpk Henq Hb Hc. destruct (sending_traces p q' dev l Hb Hc) as [Es _].
  constructor; try done; rewrite ?Es; try done.
  - rewrite Hpk. destruct ok; rewrite ?app_nil_r; [|done]. apply Forall_app.
    split; [done|by apply Forall_singleton].
  - by rewrite Henq, Hpk, li_enqueued0, app_assoc.
  - destruct li_state0 as [(Hr & ? & ? & Hnil & ?)|]; [|by right]. left.
    unfold idle. simpl. destruct ok; [rewrite Hok in Hr; done|]. by rewrite Hpk, Hnil.
Qed.

Lemma Send_ok w d p protocol :
  S < 2 ^ 32 -> world_inv w -> is_Some (w_devs w !! d) -> sendable p protocol ->
  exists r p' l dev dev', w_devs w !! d = Some dev /\
    Send d p 0 protocol w = Ok ((r, p'), upd (upd_pending w l) d dev') /\
    world_inv (upd (upd_pending w l) d dev') /\ accounts (w_now w) dev dev'.
Proof using.
  intros HS Hw [dev Hd] Hsend. pose proof Hw as [Hs Hf Hk Hatt Hl].
  destruct (Hatt d dev Hd) as (b & c & ch & Hat).
  destruct (at_b _ _ _ _ _ Hat) as (devb & Hb & _).
  destruct (at_a _ _ _ _ _ Hat) as (x & Hx & _ & Hup & _). simplify_eq.
  destruct (Hl _ _ _ _ _ _ Hat Hd Hb) as (q & Hli). pose proof Hli as [Hq Hg Hfr Henq Hst Hord Hfly Hhor].
  destruct (AddHeader_frame p protocol Hsend) as (p' & Eadd & Hp' & _).
  destruct (Enqueue_good q p' HS Hg Hp') as (ok & q1 & Eq & Hg1 & Hpk1 & Henq1).
  pose proof (Send_run w d dev p protocol p' q ok q1 Hd Hup Eadd Hq Eq) as Erun.
  assert (forall (l : list p2p_trace), (ok = true -> m_txMachineState dev = BUSY) ->
    omap begun l = [] -> omap came l = [] ->
    world_inv (upd (upd_pending w (w_pending w)) d (add_trace l (sending p' q1 dev))) /\
    accounts (w_now w) dev (add_trace l (sending p' q1 dev))) as Hrest.
  { intros l Hbusy El1 El2. split; [|by apply accounts_history].
    eapply tx_op_inv; try done; [by apply sending_traces|].
    intros devb' Hb'. simplify_eq. exists q1. by eapply link_inv_queue. }
  destruct ok; cycle 1.
  { destruct (Hrest [MacTxDrop p']) as [Hw' Hacc]; [done..|]. eexists false, p', _, dev, _. by rewrite Erun. }
  destruct (decide (m_txMachineState dev = READY)) as [Hr|Hr]; cycle 1.
  { rewrite bool_decide_false in Erun by done.
    assert (add_trace [] (sending p' q1 dev) = sending p' q1 dev) as E by (unfold add_trace; simpl; by rewrite app_nil_r).
    destruct (Hrest []) as [Hw' Hacc]; [by destruct (m_txMachineState dev)|done..|]. rewrite E in *.
    eexists true, p', (w_pending w), dev, _. by rewrite Erun. }
  rewrite bool_decide_true in Erun by done.
  destruct Hst as [(_ & Hcur & Hdown & Hnil & Hcs)|(? & _)]; [|congruence].
  destruct (Dequeue_good q1 Hg1) as (q2 & Edeq & Hg2 & Hpk2 & Henq2).
  rewrite Hpk1, Hnil in Edeq, Hpk2. simpl in Edeq, Hpk2. rewrite Edeq in Erun.
  set (dev2 := sniffed p' (set_queue (Some q2) (sending p' q1 dev))) in *.
  assert (started dev2 = started dev /\ arrived dev2 = arrived dev) as [Hsta Harr].
  { unfold started, arrived. simpl. rewrite !omap_app. simpl. by rewrite !app_nil_r. }
  destruct (start_ok w d b c ch dev dev2 (w_pending w) devb q2 p') as (l' & E & _ & Hw'); try done.
  { constructor; try done; rewrite ?Hsta, ?Hpk2; try done.
    - by apply Forall_singleton.
    - by rewrite Henq2, Henq1, Henq, Hnil, app_nil_r.
    - by rewrite Hcs in Hhor. }
  assert (upd w d dev2 = upd (upd_pending w (w_pending w)) d dev2) as Eu by done.
  rewrite Eu, E in Erun. eexists true, p', l', dev, _. split; [done|]. split; [done|]. split; [done|].
  eapply accounts_trans; [|apply accounts_begin]. by apply accounts_history.
Qed.

(** ** Runs *)

Definition allowed (m : gmap nat (device (EM := EM))) (i : input) : Prop :=
  match i with
  | InSend d p protocol => is_Some (m !! d) /\ sendable p protocol
  | InTimeSlot d => is_Some (m !! d)
  | _ => True
  end.

(** The devices of [m'] are those of [m]. *)
Definition same_devs (m m' : gmap nat (device (EM := EM))) : Prop :=
  forall d, is_Some (m !! d) <-> is_Some (m' !! d).

Lemma same_devs_refl m : same_devs m m.
Proof using. by intros d. Qed.

Lemma same_devs_upd w l d dev' :
  is_Some (w_devs w !! d) -> same_devs (w_devs w) (w_devs (upd (upd_pending w l) d dev')).
Proof using.
  intros Hd x. simpl. destruct (decide (x = d)) as [->|].
  - rewrite lookup_insert_eq. naive_solver.
  - by rewrite lookup_insert_ne.
Qed.

Lemma allowed_same m m' i : same_devs m m' -> allowed m i -> allowed m' i.
Proof using. intros Hs. destruct i; simpl; try done; [intros [? ?]; split; [|done]|]; by apply Hs. Qed.

(** The clock moves to the next event. *)
Lemma to_next w t e rest :
  world_inv w -> w_pending w = (t, e) :: rest ->
  w_now w <= t /\ world_inv (mkWorld t ((t, e) :: rest) (w_devs w) (w_chans w)).
Proof using.
  intros Hw Hp. pose proof Hw as [Hs Hf _ _ _]. rewrite Hp in Hs, Hf.
  apply StronglySorted_inv in Hs as [Hs Hle]. apply Forall_cons in Hf as [Hf _]. simpl in Hf.
  split; [done|]. rewrite <- Hp. apply advance_inv; [done..|].
  rewrite Hp. by constructor.
Qed.

Lemma time_slot_inv w d dev :
  world_inv w -> w_devs w !! d = Some dev ->
  world_inv (upd w d (time_slot (w_now w) dev).2).
Proof using.
  intros Hw Hd. pose proof Hw as [_ _ _ Hatt Hl]. destruct (Hatt d dev Hd) as (b & c & ch & Hat).
  change (world_inv (upd (upd_pending w (w_pending w)) d (time_slot (w_now w) dev).2)).
  eapply tx_op_inv; try done; [apply Hw..|].
  intros devb Hb. destruct (Hl _ _ _ _ _ _ Hat Hd Hb) as (q & []). exists q.
  constructor; try done.
  assert (was_down (m_history (time_slot (w_now w) dev).2) = was_down (m_history dev)) as E
    by (simpl; by destruct (was_down (m_history dev)) eqn:E).
  unfold idle, busy. rewrite E. done.
Qed.

Lemma step_ok w i :
  S < 2 ^ 32 -> world_inv w -> allowed (w_devs w) i ->
  exists o w', step i w = Ok (o, w') /\ world_inv w' /\ same_devs (w_devs w) (w_devs w').
Proof using.
  intros HS Hw Hi. destruct i as [d p protocol|d|t|]; simpl in Hi.
  - destruct Hi as [Hd Hp]. destruct (Send_ok w d p protocol HS Hw Hd Hp) as (r & p' & l & dev & dev' & Hdev & E & Hw' & _).
    unfold step. rewrite E. simpl. eexists _, _. split; [done|]. split; [done|]. by apply same_devs_upd.
  - destruct Hi as [dev Hd]. pose proof (time_slot_inv w d dev Hw Hd) as Hw'.
    unfold step, this. rewrite Hd. cbn [mbind res_bind].
    destruct (time_slot (w_now w) dev) as [[up bps] dev']. cbn [snd] in Hw'.
    eexists _, (upd w d dev'). split; [done|]. split; [exact Hw'|]. apply (same_devs_upd w (w_pending w)). eauto.
  - unfold step. eexists _, _. split; [done|].
    destruct (_ && _) eqn:E; [|done]. apply andb_true_iff in E as [E1 E2]. bool_to_Z.
    split; [|done]. pose proof Hw as [Hs _ _ _ _].
    destruct (w_pending w) as [|[u e] rest] eqn:Hp.
    + rewrite <- Hp. apply advance_inv; rewrite ?Hp; done.
    + bool_to_Z. rewrite <- Hp. apply advance_inv; [done..|]. rewrite Hp.
      apply StronglySorted_inv in Hs as [_ Hle]. constructor; [done|].
      eapply Forall_impl; [exact Hle|]. simpl. intros [] ?. simpl in *. lia.
  - unfold step, fire. destruct (w_pending w) as [|[t e] rest] eqn:Hp.
    { simpl. eexists _, _. split; [done|]. by split. }
    destruct (to_next w t e rest Hw Hp) as [Hle Hw1].
    destruct e as [d|n d p].
    + destruct (TransmitComplete_ok _ d rest t Hw1 eq_refl eq_refl) as (l & dev & dev' & Hd & _ & E & Hw' & _).
      unfold upd_pending in E. simpl in E. rewrite E. simpl. eexists _, _. split; [done|].
      split; [done|]. apply (same_devs_upd (mkWorld t rest (w_devs w) (w_chans w)) l). eauto.
    + destruct (Receive_ok _ d n p rest t Hw1 eq_refl eq_refl) as (dev & dev' & Hd & E & Hw' & _).
      unfold upd_pending in E. simpl in E. rewrite E. simpl. eexists _, _. split; [done|].
      split; [done|]. apply (same_devs_upd (mkWorld t rest (w_devs w) (w_chans w)) rest). eauto.
Qed.

Lemma steps_ok ins w :
  S < 2 ^ 32 -> world_inv w -> Forall (allowed (w_devs w)) ins ->
  exists os w', steps ins w = Ok (os, w') /\ world_inv w' /\ same_devs (w_devs w) (w_devs w').
Proof using.
  intros HS. revert w. induction ins as [|i ins IH]; intros w Hw Hall; simpl;
    [eexists _, _; split; [done|]; split; [done|apply same_devs_refl]|].
  apply Forall_cons in Hall as [Hi Hall].
  destruct (step_ok w i HS Hw Hi) as (o & w1 & -> & Hw1 & Hsame). simpl.
  destruct (IH w1 Hw1) as (os & w2 & -> & Hw2 & Hsame2).
  { eapply Forall_impl; [exact Hall|]. intros. by eapply allowed_same. }
  simpl. eexists _, _. split; [done|]. split; [done|]. intros x. by rewrite (Hsame x).
Qed.

(** ** Draining *)

Definition backlog (m : gmap nat (device (EM := EM))) : nat :=
  map_fold (fun _ dev n => (qlen dev + n)%nat) 0%nat m.

Lemma backlog_insert m d dev dev' :
  m !! d = Some dev -> (backlog (<[d := dev']> m) + qlen dev = backlog m + qlen dev')%nat.
Proof using.
  intros Hd. unfold backlog. rewrite <- insert_delete_eq.
  rewrite map_fold_insert_L; [|intros; lia|apply lookup_delete_eq].
  rewrite (map_fold_delete_L _ _ d dev m); [lia|intros; lia|done].
Qed.

Definition measure w : nat := length (w_pending w) + 2 * backlog (w_devs w).

Lemma qlen_received p dev dev' : received p dev dev' -> qlen dev' = qlen dev.
Proof using. intros (E & _). unfold qlen. by rewrite E. Qed.

Lemma fire_measure w x rest :
  world_inv w -> w_pending w = x :: rest ->
  exists w', fire w = Ok (tt, w') /\ world_inv w' /\ (measure w' < measure w)%nat /\
    same_devs (w_devs w) (w_devs w').
Proof using.
  intros Hw Hp. destruct x as [t e]. destruct (to_next w t e rest Hw Hp) as [Hle Hw1].
  unfold fire, measure. rewrite Hp. destruct e as [d|n d p].
  - destruct (TransmitComplete_ok _ d rest t Hw1 eq_refl eq_refl) as (l & dev & dev' & Hd & _ & E & Hw' & Hm & _).
    unfold upd_pending in E. simpl in E, Hd. rewrite E. eexists. split; [done|]. split; [done|]. simpl.
    pose proof (backlog_insert (w_devs w) d dev dev' Hd). split; [lia|].
    apply (same_devs_upd (mkWorld t rest (w_devs w) (w_chans w)) l). eauto.
  - destruct (Receive_ok _ d n p rest t Hw1 eq_refl eq_refl) as (dev & dev' & Hd & E & Hw' & Hr).
    unfold upd_pending in E. simpl in E, Hd. rewrite E. eexists. split; [done|]. split; [done|]. simpl.
    pose proof (backlog_insert (w_devs w) d dev dev' Hd). rewrite (qlen_received _ _ _ Hr) in *.
    split; [lia|]. apply (same_devs_upd (mkWorld t rest (w_devs w) (w_chans w)) rest). eauto.
Qed.

Lemma drain_ok fuel w :
  world_inv w -> (measure w <= fuel)%nat ->
  exists w', drain fuel w = Ok w' /\ world_inv w' /\ w_pending w' = [] /\ same_devs (w_devs w) (w_devs w').
Proof using.
  revert w. induction fuel as [|n IH]; intros w Hw Hle.
  - assert (w_pending w = []) as E by (unfold measure in Hle; destruct (w_pending w); simpl in *; [done|lia]).
    exists w. simpl. rewrite E. split; [done|]. split; [done|]. split; [done|apply same_devs_refl].
  - simpl. destruct (w_pending w) as [|x rest] eqn:E; [exists w; split; [done|]; split; [done|]; split; [done|apply same_devs_refl]|].
    destruct (fire_measure w x rest Hw E) as (w1 & -> & Hw1 & Hm & Hsame). simpl.
    destruct (IH w1 Hw1) as (w2 & E2 & Hw2 & Hn & Hsame2); [lia|].
    exists w2. split; [done|]. split; [done|]. split; [done|]. intros y. by rewrite (Hsame y).
Qed.

(** ** Accounting *)

Definition reported (d : nat) (o : output) : Z :=
  match o with OutSlot d' up => if decide (d' = d) then up else 0 | _ => 0 end.
Definition reported_all (d : nat) (os : list output) : Z := foldr (fun o n => reported d o + n) 0 os.

Definition is_busy w (d : nat) : bool :=
  match w_devs w !! d with Some dev => bool_decide (m_txMachineState dev = BUSY) | None => false end.

(** The time a run spends with [d] transmitting. *)
Fixpoint busy_time (d : nat) (ins : list input) w : Z :=
  match ins with
  | [] => 0
  | i :: ins => match step i w with
                | Ok (_, w') => (if is_busy w d then w_now w' - w_now w else 0) + busy_time d ins w'
                | Err _ => 0
                end
  end.

Lemma down_busy w d dev :
  world_inv w -> w_devs w !! d = Some dev -> was_down (m_history dev) = negb (is_busy w d).
Proof using.
  intros [_ _ _ Hatt Hl] Hd. destruct (Hatt d dev Hd) as (b & c & ch & Hat).
  destruct (at_b _ _ _ _ _ Hat) as (devb & Hb & _).
  destruct (Hl _ _ _ _ _ _ Hat Hd Hb) as (q & []). unfold is_busy. rewrite Hd.
  by destruct li_state0 as [(-> & _ & -> & _)|(-> & _ & -> & _)].
Qed.

Lemma residual_advance now t dev :
  now <= t -> hist_ok now dev ->
  hist_ok t dev /\ residual t dev = residual now dev + (if was_down (m_history dev) then 0 else t - now).
Proof using.
  intros Hle [Hu Hs Hn]. unfold residual in *. destruct (was_down (m_history dev)) eqn:E.
  - split; [constructor|]; unfold residual; rewrite ?E; try done; lia.
  - specialize (Hs eq_refl). split; [constructor|]; unfold residual; rewrite ?E; try done; lia.
Qed.

Lemma time_slot_residual now dev :
  now < 2 ^ 64 -> hist_ok now dev ->
  hist_ok now (time_slot now dev).2 /\ (time_slot now dev).1.1 = residual now dev /\
  residual now (time_slot now dev).2 = 0.
Proof using.
  intros Hlt [Hu Hs Hn]. unfold residual, time_slot in *. simpl.
  destruct (was_down (m_history dev)) eqn:E; simpl; rewrite ?E.
  - split; [constructor|]; unfold residual; simpl; rewrite ?E; try done; lia.
  - specialize (Hs eq_refl). rewrite wrap_small by (unfold in_range; lia).
    split; [constructor|]; unfold residual; simpl; try done; lia.
Qed.

Definition settled w (d : nat) (n : Z) : Prop :=
  exists dev, w_devs w !! d = Some dev /\ hist_ok (w_now w) dev /\ residual (w_now w) dev = n.

(** An operation of device [x] on a world whose clock has reached [t]. *)
Lemma settled_op w t (rest : list (Z * event)) x dev dev' l d n :
  w_devs w !! x = Some dev -> accounts t dev dev' -> t < 2 ^ 64 ->
  settled (mkWorld t rest (w_devs w) (w_chans w)) d n ->
  settled (upd (upd_pending (mkWorld t rest (w_devs w) (w_chans w)) l) x dev') d n.
Proof using.
  intros Hx Hacc Hlt (dev0 & Hd & Hok & Hn). unfold settled. simpl in *.
  destruct (decide (d = x)) as [->|].
  - simplify_eq. rewrite lookup_insert_eq. destruct (Hacc Hlt Hok). eauto.
  - rewrite lookup_insert_ne by done. eauto.
Qed.

Lemma settled_advance w t l d n :
  world_inv w -> w_now w <= t -> settled w d n ->
  settled (mkWorld t l (w_devs w) (w_chans w)) d (n + (if is_busy w d then t - w_now w else 0)).
Proof using.
  intros Hw Hle (dev & Hd & Hok & <-). exists dev. split; [done|].
  destruct (residual_advance _ t dev Hle Hok) as [Hok' E]. split; [done|].
  simpl. rewrite E, (down_busy w d dev Hw Hd). by destruct (is_busy w d).
Qed.

Lemma step_accounts w i o w' d n :
  S < 2 ^ 32 -> world_inv w -> allowed (w_devs w) i -> step i w = Ok (o, w') -> w_now w' < 2 ^ 64 ->
  settled w d n -> exists n', settled w' d n' /\
    n' + reported d o = n + (if is_busy w d then w_now w' - w_now w else 0).
Proof using.
  intros HS Hw Hi E Hlt Hn.
  assert (forall z, (if is_busy w d then z - z else 0) = 0) as Hz by (intros z; destruct (is_busy w d); lia).
  assert (mkWorld (w_now w) (w_pending w) (w_devs w) (w_chans w) = w) as Heta by (by destruct w).
  destruct i as [x p protocol|x|t|]; simpl in Hi.
  - destruct Hi as [Hx Hp]. destruct (Send_ok w x p protocol HS Hw Hx Hp) as (r & p' & l & dev & dev' & Hdev & E' & _ & Hacc).
    unfold step in E. rewrite E' in E. injection E as <- <-. simpl in *. rewrite Hz.
    exists n. split; [|lia]. rewrite <- Heta in Hn. exact (settled_op w _ _ x dev dev' l d n Hdev Hacc Hlt Hn).
  - destruct Hi as [dev Hx]. unfold step, this in E. rewrite Hx in E. cbn [mbind res_bind] in E.
    pose proof (time_slot_residual (w_now w) dev) as Hres.
    destruct (time_slot (w_now w) dev) as [[up bps] dev']. injection E as <- <-. simpl in *. rewrite Hz.
    destruct Hn as (dev0 & Hd & Hok & <-). destruct (decide (x = d)) as [->|].
    + simplify_eq. destruct (Hres Hlt Hok) as (Hok' & -> & Hr). exists 0. split; [|lia].
      exists dev'. simpl. by rewrite lookup_insert_eq.
    + exists (residual (w_now w) dev0). split; [|lia]. exists dev0. simpl. by rewrite lookup_insert_ne.
  - unfold step in E. destruct (_ && _) eqn:Eb; injection E as <- <-.
    + apply andb_true_iff in Eb as [Ele _]. bool_to_Z. simpl in *.
      eexists. split; [by apply settled_advance|]. lia.
    + rewrite Hz. exists n. split; [done|simpl; lia].
  - unfold step, fire in E. destruct (w_pending w) as [|[t e] rest] eqn:Hp.
    { injection E as <- <-. rewrite Hz. exists n. split; [done|simpl; lia]. }
    destruct (to_next w t e rest Hw Hp) as [Hle Hw1].
    pose proof (settled_advance w t rest d n Hw Hle Hn) as Hn1.
    destruct e as [x|nd x p].
    + destruct (TransmitComplete_ok _ x rest t Hw1 eq_refl eq_refl) as (l & dev & dev' & Hx & _ & E' & _ & _ & Hacc).
      unfold upd_pending in E'. simpl in E', Hx. rewrite E' in E. injection E as <- <-. simpl in *.
      eexists. split; [exact (settled_op w t rest x dev dev' l d _ Hx Hacc Hlt Hn1)|]. lia.
    + destruct (Receive_ok _ x nd p rest t Hw1 eq_refl eq_refl) as (dev & dev' & Hx & E' & _ & Hr).
      unfold upd_pending in E'. simpl in E', Hx. rewrite E' in E. injection E as <- <-. simpl in *.
      assert (accounts t dev dev') as Hacc by (apply accounts_history; apply Hr).
      eexists. split; [exact (settled_op w t rest x dev dev' rest d _ Hx Hacc Hlt Hn1)|]. lia.
Qed.

Lemma step_now w i o w' :
  S < 2 ^ 32 -> world_inv w -> allowed (w_devs w) i -> step i w = Ok (o, w') -> w_now w <= w_now w'.
Proof using.
  intros HS Hw Hi E. destruct i as [x p protocol|x|t|]; simpl in Hi.
  - destruct Hi as [Hx Hp]. destruct (Send_ok w x p protocol HS Hw Hx Hp) as (r & p' & l & dev & dev' & _ & E' & _).
    unfold step in E. rewrite E' in E. by injection E as <- <-.
  - destruct Hi as [dev Hx]. unfold step, this in E. rewrite Hx in E. cbn [mbind res_bind] in E.
    destruct (time_slot (w_now w) dev) as [[up bps] dev']. by injection E as <- <-.
  - unfold step in E. destruct (_ && _) eqn:Eb; injection E as <- <-; [|done].
    apply andb_true_iff in Eb as [Ele _]. by bool_to_Z.
  - unfold step, fire in E. destruct (w_pending w) as [|[t e] rest] eqn:Hp; [by injection E as <- <-|].
    destruct (to_next w t e rest Hw Hp) as [Hle Hw1]. destruct e as [x|nd x p].
    + destruct (TransmitComplete_ok _ x rest t Hw1 eq_refl eq_refl) as (l & dev & dev' & _ & _ & E' & _).
      unfold upd_pending in E'. simpl in E'. rewrite E' in E. by injection E as <- <-.
    + destruct (Receive_ok _ x nd p rest t Hw1 eq_refl eq_refl) as (dev & dev' & _ & E' & _).
      unfold upd_pending in E'. simpl in E'. rewrite E' in E. by injection E as <- <-.
Qed.

Lemma steps_accounts ins w os w' d n :
  S < 2 ^ 32 -> world_inv w -> Forall (allowed (w_devs w)) ins -> steps ins w = Ok (os, w') ->
  w_now w' < 2 ^ 64 -> settled w d n ->
  w_now w <= w_now w' /\ exists n', settled w' d n' /\ n' + reported_all d os = n + busy_time d ins w.
Proof using.
  intros HS. revert w os n. induction ins as [|i ins IH]; intros w os n Hw Hall E Hlt Hn.
  - injection E as <- <-. simpl. split; [done|]. exists n. split; [done|lia].
  - apply Forall_cons in Hall as [Hi Hall].
    destruct (step_ok w i HS Hw Hi) as (o & w1 & E1 & Hw1 & Hsame).
    pose proof (step_now w i o w1 HS Hw Hi E1) as Hle.
    simpl in E. rewrite E1 in E. simpl in E. apply bind_ok in E as ([os2 w2] & E2 & E).
    injection E as <- <-.
    assert (Forall (allowed (w_devs w1)) ins) as Hall1.
    { eapply Forall_impl; [exact Hall|]. intros. by eapply allowed_same. }
    destruct (steps_ok ins w1 HS Hw1 Hall1) as (os3 & w3 & E3 & _). rewrite E3 in E2. injection E2 as -> ->.
    assert (w_now w1 <= w_now w2) as Hle2.
    { clear -HS Hw1 Hall1 E3. revert w1 os2 Hw1 Hall1 E3. induction ins as [|j ins IH]; intros w1 os Hw Hall E.
      - by injection E as <- <-.
      - apply Forall_cons in Hall as [Hj Hall]. destruct (step_ok w1 j HS Hw Hj) as (o & w4 & E4 & Hw4 & Hsame).
        pose proof (step_now w1 j o w4 HS Hw Hj E4). simpl in E. rewrite E4 in E. simpl in E.
        apply bind_ok in E as ([os5 w5] & E5 & E). injection E as <- <-.
        enough (w_now w4 <= w_now w5) by lia. eapply IH; [exact Hw4| |exact E5].
        eapply Forall_impl; [exact Hall|]. intros. by eapply allowed_same. }
    destruct (step_accounts w i o w1 d n HS Hw Hi E1) as (n1 & Hn1 & Hacc); [lia|done|].
    destruct (IH w1 os2 n1 Hw1 Hall1 E3 Hlt Hn1) as (_ & n2 & Hn2 & Hacc2).
    split; [lia|]. exists n2. split; [done|]. simpl. rewrite E1. lia.
Qed.

Lemma steps_snoc ins i w os w' :
  steps (ins ++ [i]) w = Ok (os, w') ->
  exists os1 o w1, steps ins w = Ok (os1, w1) /\ step i w1 = Ok (o, w').
Proof using.
  revert w os. induction ins as [|j ins IH]; simpl; intros w os E.
  - apply bind_ok in E as ([o w1] & E & E2). injection E2 as <- <-. eauto 10.
  - apply bind_ok in E as ([o w1] & E1 & E). apply bind_ok in E as ([os2 w2] & E2 & E).
    injection E as <- <-. destruct (IH _ _ E2) as (os1 & o' & w3 & E3 & E4).
    exists (o :: os1), o', w3. rewrite E1. simpl. by rewrite E3.
Qed.

(** Nothing is left to report after a reading. *)
Lemma last_slot_settles ins w os w' d dev' :
  steps (ins ++ [InTimeSlot d]) w = Ok (os, w') -> w_devs w' !! d = Some dev' ->
  residual (w_now w') dev' = 0.
Proof using.
  intros E Hd'. destruct (steps_snoc _ _ _ _ _ E) as (os1 & o & w1 & _ & E1).
  unfold step in E1. apply bind_ok in E1 as ([dev w2] & _ & E1).
  unfold time_slot in E1. injection E1 as _ <-. simpl in *. rewrite lookup_insert_eq in Hd'.
  injection Hd' as <-. unfold residual. simpl. destruct (was_down (m_history dev)) eqn:E2; rewrite ?E2; simpl; lia.
Qed.

(** ** Fresh links *)

(** A device as the helper leaves it: configured, attached, never used. *)
Record fresh dev : Prop := {
  fr_ready : m_txMachineState dev = READY;
  fr_idle : m_currentPkt dev = None;
  fr_history : m_history dev = mkHist 0 0 true;
  fr_traces : started dev = [] /\ arrived dev = [];
  fr_queue : exists q, m_queue dev = Some q /\ Queue.m_packets q = [] /\ Queue.m_traces q = [] /\
                       QueueSpec.good GetSize S q }.

Record fresh_world w : Prop := {
  fw_pending : w_pending w = [];
  fw_fresh : forall d dev, w_devs w !! d = Some dev -> fresh dev;
  fw_attached : forall d dev, w_devs w !! d = Some dev -> exists b c ch, attached w d b c ch }.

Lemma fresh_inv w : fresh_world w -> world_inv w.
Proof using.
  intros [Hp Hf Ha]. constructor; rewrite ?Hp; try done; [constructor|].
  intros a b c ch deva devb Hat Hda Hdb. destruct (Hf _ _ Hda) as [Hr Hi Hh [Hs _] (q & Hq & Hpk & Htr & Hg)].
  destruct (Hf _ _ Hdb) as [_ _ _ [_ Harr] _]. exists q. constructor; try done.
  - by rewrite Hpk.
  - unfold enqueued. by rewrite Htr, Hs, Hpk.
  - left. unfold idle. by rewrite Hh.
  - by rewrite Hs, Harr.
Qed.

(** A device once attached to channel [c]. *)
Definition linked_up (c : nat) dev : device := NotifyLinkUp (set_link (Some c) (m_linkUp dev) dev).

(** Attaching two configured devices to a new channel. *)
Lemma Attach_two w a b c d da db :
  a <> b -> w_devs w !! a = Some da -> w_devs w !! b = Some db ->
  w_chans w !! c = Some (PointToPointChannel d) -> 0 <= d ->
  0 < m_bps da -> 0 <= m_tInterframeGap da -> is_Some (m_node da) ->
  0 < m_bps db -> 0 <= m_tInterframeGap db -> is_Some (m_node db) ->
  exists w' ch, M_bind _ _ (fun _ => Attach c b) (Attach c a) w = Ok (true, w') /\
    attached w' a b c ch /\ attached w' b a c ch /\ m_delay ch = d /\
    w' = mkWorld (w_now w) (w_pending w) (<[b := linked_up c db]> (<[a := linked_up c da]> (w_devs w)))
           (<[c := ch]> (w_chans w)).
Proof using.
  intros Hne Ha Hb Hc Hd Hba Hga Hna Hbb Hgb Hnb. unfold Attach at 2. cbv [mbind mret].
  rewrite run_assoc. erewrite run_chan by done. rewrite run_assoc. erewrite run_lift by done.
  rewrite run_assoc. unfold M_bind at 1, set_chan at 1. rewrite run_assoc.
  erewrite run_modify by exact Ha. rewrite run_ret.
  unfold Attach. cbv [mbind mret]. erewrite run_chan by (apply lookup_insert_eq).
  erewrite run_lift by done. unfold M_bind at 1, set_chan at 1.
  erewrite run_modify by (unfold upd; simpl; rewrite lookup_insert_ne by done; exact Hb).
  unfold upd, PointToPointChannel. simpl.
  eexists _, (mkChannel d 2 (mkLink IDLE (Some a) (Some b)) (mkLink IDLE (Some b) (Some a))).
  split; [done|].
  split; [|split; [|split; [done|by rewrite insert_insert_eq]]]; constructor; simpl; try done;
    rewrite ?lookup_insert_eq, ?(lookup_insert_ne _ _ _ _ Hne), ?(lookup_insert_ne _ _ _ _ (not_eq_sym Hne)),
      ?lookup_insert_eq; try done; try (eexists; split; [done|]; done); auto.
Qed.
End events.

(** * Properties of point-to-point links

    Each is followed by its instance on two devices attached to one channel. *)

(** ** A concrete link: two devices, one channel *)

#[local] Instance no_errors : ErrorModel unit := fun em _ => (false, em).

Definition fresh_device (node addr bps : Z) : device (EM := unit) :=
  SetNode node (PointToPointNetDevice 1500 addr bps 0 (Some Queue.DropTailQueue)).

Definition unattached : world (EM := unit) :=
  mkWorld 0 [] (<[1%nat := fresh_device 10 0xa 8000000]> (<[2%nat := fresh_device 20 0xb 4000000]> ∅))
    {[ 0%nat := PointToPointChannel 2000 ]}.

Definition attached_pair : world :=
  match M_bind _ _ (fun _ => Attach 0 2) (Attach 0 1) unattached with
  | Ok (_, w) => w | Err _ => unattached end.

Lemma attached_pair_links :
  exists ch, attached attached_pair 1 2 0 ch /\ attached attached_pair 2 1 0 ch.
Proof.
  destruct (Attach_two unattached 1 2 0 2000 (fresh_device 10 0xa 8000000) (fresh_device 20 0xb 4000000))
    as (w & ch & E & H1 & H2 & _); try done.
  unfold attached_pair. rewrite E. eauto.
Qed.

Lemma attached_pair_devs d dev :
  w_devs attached_pair !! d = Some dev ->
  (d = 1%nat \/ d = 2%nat) /\ fresh 1502 dev.
Proof.
  intros Hd. assert (d = 1%nat \/ d = 2%nat) as Hor.
  { apply elem_of_map_to_list in Hd. apply (list_elem_of_fmap_2 fst) in Hd. simpl in Hd.
    assert ((map_to_list (w_devs attached_pair)).*1 = [2%nat; 1%nat]) as E by (vm_compute; reflexivity).
    rewrite E in Hd. set_solver. }
  split; [done|].
  assert (QueueSpec.good GetSize 1502 Queue.DropTailQueue) as Hg.
  { constructor; [apply QueueSpec.wf_init|done|done|]. unfold QueueSpec.room. simpl. lia. }
  destruct Hor as [-> | ->]; vm_compute in Hd; injection Hd as <-; constructor; try done;
    exists Queue.DropTailQueue; done.
Qed.

Lemma attached_pair_fresh : fresh_world 1502 attached_pair.
Proof.
  constructor; [done|intros d dev Hd; by destruct (attached_pair_devs d dev Hd)|].
  intros d dev Hd. apply attached_pair_devs in Hd as [Hor _].
  destruct attached_pair_links as (ch & H1 & H2). destruct Hor as [-> | ->]; eauto.
Qed.

Lemma attached_pair_inv : world_inv 1502 attached_pair.
Proof. apply fresh_inv, attached_pair_fresh. Qed.

Definition ping : Packet := mkPacket 7 [1; 2; 3; 4].

Definition pings : list input := [InSend 1 ping 0x0800; InSend 1 ping 0x0800; InFire; InSend 2 ping 0x86DD].

Lemma pings_allowed : Forall (allowed 1502 (w_devs attached_pair)) pings.
Proof.
  repeat constructor; simpl; try (eexists; vm_compute; reflexivity); unfold sendable; simpl; auto; lia.
Qed.

Definition after_pings : world :=
  match steps pings attached_pair with Ok (_, w) => w | Err _ => attached_pair end.

Lemma after_pings_inv : world_inv 1502 after_pings.
Proof.
  unfold after_pings.
  destruct (steps_ok 1502 pings attached_pair) as (os & w' & E & Hw' & _);
    [lia|apply attached_pair_inv|apply pings_allowed|]. by rewrite E.
Qed.

Lemma after_pings_measure : (measure after_pings <= 100)%nat.
Proof. apply Nat.leb_le. vm_compute. reflexivity. Qed.

(** ** Properties *)

(** C1. Links deliver in order, without loss or duplication, and never idle
    while frames wait.  Over any sequence of sends, busy-time readings, clock
    advances and event firings on a network of attached devices that satisfies
    [world_inv] (a fresh one does, [fresh_inv]), no assertion fails, and for
    every direction [a -> b] the frames accepted by [a]'s queue are exactly
    those that arrived at [b], then those in flight, then those still queued, in
    this order; a non-empty queue means a busy transmitter. *)
Theorem links_deliver_in_order {EM} `{ErrorModel EM} (S : Z) (ins : list input) (w : world (EM := EM)) :
  S < 2 ^ 32 -> world_inv S w -> Forall (allowed S (w_devs w)) ins ->
  exists os w', steps ins w = Ok (os, w') /\
    forall a b c ch deva devb, attached w' a b c ch ->
      w_devs w' !! a = Some deva -> w_devs w' !! b = Some devb ->
      exists q, m_queue deva = Some q /\
        enqueued q = arrived devb ++ (flights b (w_pending w')).*2 ++ Queue.m_packets q /\
        (Queue.m_packets q <> [] -> m_txMachineState deva = BUSY).
Proof.
  intros HS Hw Hall. destruct (steps_ok S ins w HS Hw Hall) as (os & w' & E & Hw' & _).
  exists os, w'. split; [done|]. intros a b c ch deva devb Hat Ha Hb.
  destruct (wi_links S w' Hw' _ _ _ _ _ _ Hat Ha Hb) as (q & []). exists q. split; [done|].
  split; [by rewrite li_enqueued0, li_order0, app_assoc|].
  intros Hne. by destruct li_state0 as [(_ & _ & _ & ? & _)|(? & _)].
Qed.

Lemma links_deliver_in_order_witness :
  exists os w', steps pings attached_pair = Ok (os, w') /\
    forall a b c ch deva devb, attached w' a b c ch ->
      w_devs w' !! a = Some deva -> w_devs w' !! b = Some devb ->
      exists q, m_queue deva = Some q /\
        enqueued q = arrived devb ++ (flights b (w_pending w')).*2 ++ Queue.m_packets q /\
        (Queue.m_packets q <> [] -> m_txMachineState deva = BUSY).
Proof.
  apply (links_deliver_in_order 1502 pings attached_pair).
  - lia.
  - apply attached_pair_inv.
  - apply pings_allowed.
Defined.

(** C2. Every accepted frame arrives: running the pending events terminates,
    within [measure w] events (two per queued frame, one per pending event), and
    then every frame a queue has accepted has arrived at the other end of its
    link and every transmitter is ready. *)
Theorem links_drain {EM} `{ErrorModel EM} (S : Z) (w : world (EM := EM)) (fuel : nat) :
  world_inv S w -> (measure w <= fuel)%nat ->
  exists w', drain fuel w = Ok w' /\ w_pending w' = [] /\
    forall a b c ch deva devb, attached w' a b c ch ->
      w_devs w' !! a = Some deva -> w_devs w' !! b = Some devb ->
      m_txMachineState deva = READY /\
      exists q, m_queue deva = Some q /\ Queue.m_packets q = [] /\ enqueued q = arrived devb.
Proof.
  intros Hw Hle. destruct (drain_ok S fuel w Hw Hle) as (w' & E & Hw' & Hnil & _).
  exists w'. split; [done|]. split; [done|]. intros a b c ch deva devb Hat Ha Hb.
  destruct (wi_links S w' Hw' _ _ _ _ _ _ Hat Ha Hb) as (q & []). rewrite Hnil in *.
  destruct li_state0 as [(? & _ & _ & Hq & _)|(_ & _ & _ & u & [=] & _)].
  split; [done|]. exists q. split; [done|]. split; [done|].
  by rewrite li_enqueued0, li_order0, Hq, !app_nil_r.
Qed.

Lemma links_drain_witness :
  exists w', drain 100 after_pings = Ok w' /\ w_pending w' = [].
Proof.
  destruct (links_drain 1502 after_pings 100 after_pings_inv) as (w' & E & Hn & _).
  - exact after_pings_measure.
  - exists w'. split; [exact E|exact Hn].
Defined.

(** [time_slot] accounts for transmission time exactly: from a device that
    has never been used, the values that the calls of [time_slot] return add up
    to the time the run spent with the device transmitting, when the run ends
    with such a call (clock below 2^64 ns). *)
Theorem time_slot_accounts {EM} `{ErrorModel EM} (S : Z) (ins : list input) (d : nat)
    (w : world (EM := EM)) os w' :
  S < 2 ^ 32 -> fresh_world S w -> w_now w = 0 -> Forall (allowed S (w_devs w)) (ins ++ [InTimeSlot d]) ->
  steps (ins ++ [InTimeSlot d]) w = Ok (os, w') -> w_now w' < 2 ^ 64 ->
  reported_all d os = busy_time d (ins ++ [InTimeSlot d]) w.
Proof.
  intros HS Hfw H0 Hall E Hlt. pose proof (fresh_inv S w Hfw) as Hw.
  assert (is_Some (w_devs w !! d)) as [dev Hd].
  { apply Forall_app in Hall as [_ Hall]. rewrite Forall_singleton in Hall. exact Hall. }
  assert (settled w d 0) as Hset.
  { exists dev. split; [done|]. pose proof (fw_fresh S w Hfw d dev Hd) as [_ _ Hh _ _].
    rewrite H0. split; [constructor|]; unfold residual; rewrite ?Hh; simpl; lia. }
  destruct (steps_accounts S _ w os w' d 0 HS Hw Hall E Hlt Hset) as (_ & n' & (dev' & Hd' & _ & Hr) & Hacc).
  enough (n' = 0) by lia. rewrite <- Hr.
  eapply last_slot_settles; done.
Qed.

Definition pings_then_slot : list input := [InSend 1 ping 0x0800; InAdvance 4000; InTimeSlot 1; InFire; InFire].

Lemma time_slot_accounts_witness :
  exists os w', steps (pings_then_slot ++ [InTimeSlot 1]) attached_pair = Ok (os, w') /\
    reported_all 1 os = 6000 /\ busy_time 1 (pings_then_slot ++ [InTimeSlot 1]) attached_pair = 6000.
Proof.
  assert (exists os w', steps (pings_then_slot ++ [InTimeSlot 1]) attached_pair = Ok (os, w') /\
    w_now w' = 8000 /\ reported_all 1 os = 6000) as (os & w' & E & Hnow & Hrep).
  { eexists _, _. split; [vm_compute; reflexivity|]. split; vm_compute; reflexivity. }
  exists os, w'. split; [exact E|]. split; [exact Hrep|]. rewrite <- Hrep. symmetry.
  apply (time_slot_accounts 1502 pings_then_slot 1 attached_pair os w').
  - lia.
  - apply attached_pair_fresh.
  - vm_compute. reflexivity.
  - repeat constructor; simpl; try (eexists; vm_compute; reflexivity); unfold sendable; simpl; auto; lia.
  - exact E.
  - rewrite Hnow. lia.
Defined.
