(* ===== verification/Ipv4Address.v ===== *)
(** * IPv4 addresses and masks ([src/network/utils/ipv4-address.cc])

    An [Ipv4Address] and an [Ipv4Mask] are their 32-bit value in host order (the
    [m_initialized] flag is not represented: every address of the model has been
    given a value).  A C string is the list of its characters. *)

From S2P Require Import Prelude Bytes.

Definition ASCII_DOT : Z := 0x2e.
Definition ASCII_ZERO : Z := 0x30.

(** [AsciiToIpv4Host]: [prev] is the character before [ptr]. *)
Fixpoint ascii_loop (s : list Z) (prev : option Z) (byte host numberOfDots : Z) : res Z :=
  match s with
  | [] =>
      let host := Z.lor (u32 (Z.shiftl host 8)) byte in
      p ← deref prev;
      _ ← ns_assert (negb (p =? ASCII_DOT));
      _ ← ns_assert (numberOfDots =? 3);
      mret host
  | c :: s' =>
      if c =? ASCII_DOT then
        let host := Z.lor (u32 (Z.shiftl host 8)) byte in
        _ ← ns_assert (match s' with c' :: _ => negb (c' =? ASCII_DOT) | [] => true end);
        ascii_loop s' (Some c) 0 host (u8 (numberOfDots + 1))
      else
        ascii_loop s' (Some c) (u8 (u8 (byte * 10) + (c - ASCII_ZERO))) host numberOfDots
  end.

Definition AsciiToIpv4Host (address : list Z) : res Z :=
  _ ← ns_assert (match address with c :: _ => negb (c =? ASCII_DOT) | [] => true end);
  ascii_loop address None 0 0 0.

(** ** [Ipv4Mask] *)

Definition mask_IsMatch (m_mask a b : Z) : bool := Z.land a m_mask =? Z.land b m_mask.
Definition mask_GetInverse (m_mask : Z) : Z := u32 (Z.lnot m_mask).
Definition mask_GetLoopback : Z := 0xff000000.
Definition mask_GetZero : Z := 0.
Definition mask_GetOnes : Z := 0xffffffff.

(** [Ipv4Mask ("/plen")] *)
Definition mask_of_prefix (plen : Z) : res Z :=
  _ ← ns_assert (plen <=? 32);
  mret (if 0 <? plen then u32 (Z.shiftl 0xffffffff (32 - plen)) else 0).

Fixpoint prefix_loop (fuel : nat) (mask tmp : Z) : Z :=
  match fuel with
  | O => tmp
  | S n => if mask =? 0 then tmp else prefix_loop n (u32 (Z.shiftl mask 1)) (u16 (tmp + 1))
  end.
(** Thirty-two shifts clear any mask. *)
Definition mask_GetPrefixLength (m_mask : Z) : Z := prefix_loop 32 m_mask 0.

(** ** [Ipv4Address] *)

Definition CombineMask (a mask : Z) : Z := Z.land a mask.
Definition GetSubnetDirectedBroadcast (a mask : Z) : res Z :=
  _ ← ns_assert (negb (mask =? mask_GetOnes));
  mret (Z.lor a (mask_GetInverse mask)).
Definition IsSubnetDirectedBroadcast (a mask : Z) : bool :=
  if mask =? mask_GetOnes then false else Z.lor a (mask_GetInverse mask) =? a.
Definition IsAny (a : Z) : bool := a =? 0.
Definition IsLocalhost (a : Z) : bool := a =? 0x7f000001.
Definition IsBroadcast (a : Z) : bool := a =? 0xffffffff.
Definition IsMulticast (a : Z) : bool := (0xe0000000 <=? a) && (a <=? 0xefffffff).
Definition IsLocalMulticast (a : Z) : bool := Z.land a 0xffffff00 =? 0xe0000000.

Definition Serialize (a : Z) : bytes := [byte_at 24 a; byte_at 16 a; byte_at 8 a; byte_at 0 a].
Definition Deserialize (b0 b1 b2 b3 : Z) : Z :=
  Z.lor (u32 (Z.shiftl (Z.lor (u32 (Z.shiftl (Z.lor (u32 (Z.shiftl b0 8)) b1) 8)) b2) 8)) b3.

Definition GetZero : Z := 0.
Definition GetAny : Z := 0.
Definition GetBroadcast : Z := 0xffffffff.
Definition GetLoopback : Z := 0x7f000001.

(** [os << n] for an octet *)
Definition decimal (n : Z) : list Z :=
  if n <? 10 then [48 + n]
  else if n <? 100 then [48 + n / 10; 48 + n mod 10]
  else [48 + n / 100; 48 + n / 10 mod 10; 48 + n mod 10].

Definition Print (a : Z) : list Z :=
  decimal (byte_at 24 a) ++ [ASCII_DOT] ++ decimal (byte_at 16 a) ++ [ASCII_DOT] ++
  decimal (byte_at 8 a) ++ [ASCII_DOT] ++ decimal (byte_at 0 a).
Definition mask_Print : Z -> list Z := Print.

(** ** Lemmas *)

(** Reading the digits of an octet. *)
Lemma ascii_loop_decimal n rest prev host dots :
  octet n -> exists p, p <> ASCII_DOT /\
    ascii_loop (decimal n ++ rest) prev 0 host dots = ascii_loop rest (Some p) n host dots.
Proof.
  intros Hn.
  assert (forall (m : nat), (m < 256)%nat -> forall rest prev host dots,
    exists p, p <> ASCII_DOT /\ ascii_loop (decimal (Z.of_nat m) ++ rest) prev 0 host dots =
      ascii_loop rest (Some p) (Z.of_nat m) host dots) as H.
  { intros m Hm. do 256 (destruct m as [|m]; [intros; eexists; split;
      [|cbn; reflexivity]; discriminate|]). lia. }
  unfold octet in Hn. specialize (H (Z.to_nat n) ltac:(lia) rest prev host dots).
  by rewrite Z2Nat.id in H by lia.
Qed.

Lemma lor_byte host b : in_range 32 (host * 256 + b) -> 0 <= host -> octet b ->
  Z.lor (u32 (Z.shiftl host 8)) b = host * 256 + b.
Proof.
  intros Hr Hh Hb. pose proof (shift_in_eq 32 host b) as E. unfold shift_in, in_range, octet in *.
  apply E; lia.
Qed.

Lemma bytes_of a : in_range 32 a ->
  ((byte_at 24 a * 256 + byte_at 16 a) * 256 + byte_at 8 a) * 256 + byte_at 0 a = a.
Proof.
  intros Ha. unfold in_range in Ha. rewrite !byte_at_eq by lia.
  change (2 ^ 24) with (256 * (256 * 256)). change (2 ^ 16) with (256 * 256). change (2 ^ 8) with 256.
  change (2 ^ 0) with 1. rewrite Z.div_1_r, <- !Z.div_div by lia.
  pose proof (Z.div_mod a 256). pose proof (Z.div_mod (a / 256) 256).
  pose proof (Z.div_mod (a / 256 / 256) 256).
  assert ((a / 256 / 256 / 256) mod 256 = a / 256 / 256 / 256) as E.
  { apply Z.mod_small. rewrite !Z.div_div by lia. split; [apply Z.div_pos; lia|].
    apply Z.div_lt_upper_bound; lia. }
  lia.
Qed.

Lemma decimal_head n : octet n -> exists c s, decimal n = c :: s /\ (c =? ASCII_DOT) = false.
Proof.
  intros Hn. unfold octet in Hn. unfold decimal, ASCII_DOT.
  destruct (n <? 10) eqn:E1; [|destruct (n <? 100) eqn:E2]; bool_to_Z; eexists _, _; (split; [done|]);
    apply Z.eqb_neq; Z.div_mod_to_equations; lia.
Qed.

(** One octet and the dot after it. *)
Lemma ascii_loop_octet n m rest prev host dots :
  octet n -> octet m -> in_range 32 (host * 256 + n) -> 0 <= host ->
  ascii_loop (decimal n ++ [ASCII_DOT] ++ decimal m ++ rest) prev 0 host dots =
  ascii_loop (decimal m ++ rest) (Some ASCII_DOT) 0 (host * 256 + n) (u8 (dots + 1)).
Proof.
  intros Hn Hm Hr Hh. destruct (ascii_loop_decimal n ([ASCII_DOT] ++ decimal m ++ rest) prev host dots Hn)
    as (p & _ & ->).
  destruct (decimal_head m Hm) as (c & s & Hs & Hc).
  cbn [app ascii_loop]. rewrite Z.eqb_refl, lor_byte by done. rewrite Hs. cbn [app].
  unfold ns_assert. rewrite Hc. done.
Qed.

(** ** Properties *)

(** Printing an address in dotted decimal and reading it back with
    [AsciiToIpv4Host] gives the address, for every 32-bit address. *)
Theorem AsciiToIpv4Host_Print a : in_range 32 a -> AsciiToIpv4Host (Print a) = Ok a.
Proof.
  intros Ha. pose proof (bytes_of a Ha) as Hsum. unfold in_range in Ha.
  pose proof (byte_at_octet 24 a) as H3. pose proof (byte_at_octet 16 a) as H2.
  pose proof (byte_at_octet 8 a) as H1. pose proof (byte_at_octet 0 a) as H0.
  unfold AsciiToIpv4Host, Print.
  destruct (decimal_head _ H3) as (c & s & Hs & Hc).
  assert (forall r, match decimal (byte_at 24 a) ++ r with c :: _ => negb (c =? ASCII_DOT) | [] => true end = true)
    as -> by (intros r; by rewrite Hs; cbn [app]; rewrite Hc).
  rewrite <- (app_nil_r (decimal (byte_at 0 a))).
  unfold octet in *. cbn [ns_assert mbind res_bind].
  rewrite !ascii_loop_octet by (unfold in_range, octet; lia).
  destruct (ascii_loop_decimal (byte_at 0 a) [] (Some ASCII_DOT)
    (((0 * 256 + byte_at 24 a) * 256 + byte_at 16 a) * 256 + byte_at 8 a) 3 H0) as (p & Hp & E).
  change (u8 (u8 (u8 (0 + 1) + 1) + 1)) with 3. rewrite E.
  cbn [ascii_loop deref mbind res_bind]. rewrite lor_byte by (unfold in_range, octet; lia).
  rewrite (proj2 (Z.eqb_neq _ _) Hp). cbn [negb ns_assert mbind res_bind Z.eqb]. rewrite Z.mul_0_l, Z.add_0_l, Hsum. done.
Qed.

Lemma AsciiToIpv4Host_Print_witness :
  Print 0xc0a80001 = [49;57;50;46;49;54;56;46;48;46;49] /\ AsciiToIpv4Host (Print 0xc0a80001) = Ok 0xc0a80001.
Proof.
  split; [vm_compute; reflexivity|]. apply (AsciiToIpv4Host_Print 0xc0a80001).
  unfold in_range. lia.
Defined.
