(* ===== verification/Ipv4Header.v ===== *)
(** * The IPv4 header ([src/internet/model/ipv4-header.{h,cc}])

    Setters, serialization and deserialization, with the Internet checksum. *)

From S2P Require Import Prelude Bytes Ipv4Address.

Definition DONT_FRAGMENT : Z := 1.
Definition MORE_FRAGMENTS : Z := 2.

Record Ipv4Header := mkIpv4Header {
  m_calcChecksum : bool;
  m_payloadSize : Z;
  m_identification : Z;
  m_tos : Z;
  m_ttl : Z;
  m_protocol : Z;
  m_flags : Z;
  m_fragmentOffset : Z;
  m_source : Z;
  m_destination : Z;
  m_checksum : Z;
  m_goodChecksum : bool;
  m_headerSize : Z }.

#[export] Instance Ipv4Header_eq_dec : EqDecision Ipv4Header.
Proof. solve_decision. Defined.

Definition new_Ipv4Header : Ipv4Header := mkIpv4Header false 0 0 0 0 0 0 0 0x66666666 0x66666666 0 true 20.

Definition set_fields (calc : bool) (pay id tos ttl proto flags off src dst : Z) (h : Ipv4Header) : Ipv4Header :=
  mkIpv4Header calc pay id tos ttl proto flags off src dst (m_checksum h) (m_goodChecksum h) (m_headerSize h).

Definition EnableChecksum (h : Ipv4Header) : Ipv4Header :=
  set_fields true (m_payloadSize h) (m_identification h) (m_tos h) (m_ttl h) (m_protocol h) (m_flags h)
    (m_fragmentOffset h) (m_source h) (m_destination h) h.
Definition SetPayloadSize (size : Z) (h : Ipv4Header) : Ipv4Header :=
  set_fields (m_calcChecksum h) (u16 size) (m_identification h) (m_tos h) (m_ttl h) (m_protocol h) (m_flags h)
    (m_fragmentOffset h) (m_source h) (m_destination h) h.
Definition SetIdentification (id : Z) (h : Ipv4Header) : Ipv4Header :=
  set_fields (m_calcChecksum h) (m_payloadSize h) (u16 id) (m_tos h) (m_ttl h) (m_protocol h) (m_flags h)
    (m_fragmentOffset h) (m_source h) (m_destination h) h.
Definition SetTos (tos : Z) (h : Ipv4Header) : Ipv4Header :=
  set_fields (m_calcChecksum h) (m_payloadSize h) (m_identification h) (u8 tos) (m_ttl h) (m_protocol h)
    (m_flags h) (m_fragmentOffset h) (m_source h) (m_destination h) h.
(** The DSCP is shifted over the two ECN bits. *)
Definition SetDscp (dscp : Z) (h : Ipv4Header) : Ipv4Header :=
  SetTos (Z.lor (Z.land (m_tos h) 0x3) (Z.shiftl dscp 2)) h.
Definition SetEcn (ecn : Z) (h : Ipv4Header) : Ipv4Header :=
  SetTos (Z.lor (Z.land (m_tos h) 0xFC) ecn) h.
Definition GetDscp (h : Ipv4Header) : Z := Z.shiftr (Z.land (m_tos h) 0xFC) 2.
Definition GetEcn (h : Ipv4Header) : Z := Z.land (m_tos h) 0x3.
Definition SetTtl (ttl : Z) (h : Ipv4Header) : Ipv4Header :=
  set_fields (m_calcChecksum h) (m_payloadSize h) (m_identification h) (m_tos h) (u8 ttl) (m_protocol h)
    (m_flags h) (m_fragmentOffset h) (m_source h) (m_destination h) h.
Definition SetProtocol (protocol : Z) (h : Ipv4Header) : Ipv4Header :=
  set_fields (m_calcChecksum h) (m_payloadSize h) (m_identification h) (m_tos h) (m_ttl h) (u8 protocol)
    (m_flags h) (m_fragmentOffset h) (m_source h) (m_destination h) h.
Definition set_flags (flags : Z) (h : Ipv4Header) : Ipv4Header :=
  set_fields (m_calcChecksum h) (m_payloadSize h) (m_identification h) (m_tos h) (m_ttl h) (m_protocol h)
    flags (m_fragmentOffset h) (m_source h) (m_destination h) h.
Definition SetMoreFragments (h : Ipv4Header) : Ipv4Header := set_flags (Z.lor (m_flags h) MORE_FRAGMENTS) h.
Definition SetLastFragment (h : Ipv4Header) : Ipv4Header := set_flags (Z.land (m_flags h) (Z.lnot MORE_FRAGMENTS)) h.
Definition IsLastFragment (h : Ipv4Header) : bool := Z.land (m_flags h) MORE_FRAGMENTS =? 0.
Definition SetDontFragment (h : Ipv4Header) : Ipv4Header := set_flags (Z.lor (m_flags h) DONT_FRAGMENT) h.
Definition SetMayFragment (h : Ipv4Header) : Ipv4Header := set_flags (Z.land (m_flags h) (Z.lnot DONT_FRAGMENT)) h.
Definition IsDontFragment (h : Ipv4Header) : bool := negb (Z.land (m_flags h) DONT_FRAGMENT =? 0).
(** Aborts unless the offset is a multiple of eight. *)
Definition SetFragmentOffset (offsetBytes : Z) (h : Ipv4Header) : res Ipv4Header :=
  let offsetBytes := u16 offsetBytes in
  _ ← ns_require (Z.land offsetBytes 0x7 =? 0);
  mret (set_fields (m_calcChecksum h) (m_payloadSize h) (m_identification h) (m_tos h) (m_ttl h) (m_protocol h)
    (m_flags h) offsetBytes (m_source h) (m_destination h) h).
Definition SetSource (src : Z) (h : Ipv4Header) : Ipv4Header :=
  set_fields (m_calcChecksum h) (m_payloadSize h) (m_identification h) (m_tos h) (m_ttl h) (m_protocol h)
    (m_flags h) (m_fragmentOffset h) src (m_destination h) h.
Definition SetDestination (dst : Z) (h : Ipv4Header) : Ipv4Header :=
  set_fields (m_calcChecksum h) (m_payloadSize h) (m_identification h) (m_tos h) (m_ttl h) (m_protocol h)
    (m_flags h) (m_fragmentOffset h) (m_source h) dst h.
Definition GetPayloadSize (h : Ipv4Header) : Z := m_payloadSize h.
Definition GetIdentification (h : Ipv4Header) : Z := m_identification h.
Definition GetTos (h : Ipv4Header) : Z := m_tos h.
Definition GetFragmentOffset (h : Ipv4Header) : Z := m_fragmentOffset h.
Definition GetTtl (h : Ipv4Header) : Z := m_ttl h.
Definition GetProtocol (h : Ipv4Header) : Z := m_protocol h.
Definition GetSource (h : Ipv4Header) : Z := m_source h.
Definition GetDestination (h : Ipv4Header) : Z := m_destination h.
Definition IsChecksumOk (h : Ipv4Header) : bool := m_goodChecksum h.
Definition GetSerializedSize (h : Ipv4Header) : Z := m_headerSize h.

(** ** Serialization *)

(** The octets before the checksum, and those after it. *)
Definition header_front (h : Ipv4Header) : bytes :=
  let fragmentOffset := m_fragmentOffset h / 8 in
  let flagsFrag := Z.land (Z.shiftr fragmentOffset 8) 0x1f in
  let flagsFrag := if Z.land (m_flags h) DONT_FRAGMENT =? 0 then flagsFrag else Z.lor flagsFrag (Z.shiftl 1 6) in
  let flagsFrag := if Z.land (m_flags h) MORE_FRAGMENTS =? 0 then flagsFrag else Z.lor flagsFrag (Z.shiftl 1 5) in
  WriteU8 (Z.lor (Z.shiftl 4 4) 5) ++ WriteU8 (m_tos h) ++ WriteHtonU16 (m_payloadSize h + 5 * 4) ++
  WriteHtonU16 (m_identification h) ++ WriteU8 flagsFrag ++ WriteU8 (Z.land fragmentOffset 0xff) ++
  WriteU8 (m_ttl h) ++ WriteU8 (m_protocol h).

Definition header_back (h : Ipv4Header) : bytes :=
  WriteHtonU32 (m_source h) ++ WriteHtonU32 (m_destination h).

Definition Serialize (h : Ipv4Header) : res bytes :=
  let start := header_front h ++ WriteHtonU16 0 ++ header_back h in
  if m_calcChecksum h then
    checksum ← CalculateIpChecksum 20 0 start;
    mret (header_front h ++ WriteU16 checksum ++ header_back h)
  else mret start.

(** The header that is read, and the number of octets; a version other than 4
    leaves the header unchanged and returns zero. *)
Definition Deserialize (h0 : Ipv4Header) (start : bytes) : res (Ipv4Header * Z) :=
  '(verIhl, i) ← ReadU8 start;
  let ihl := Z.land verIhl 0x0f in
  let headerSize := ihl * 4 in
  if negb (Z.shiftr verIhl 4 =? 4) then mret (h0, 0)
  else
    '(tos, i) ← ReadU8 i;
    '(size, i) ← ReadNtohU16 i;
    '(identification, i) ← ReadNtohU16 i;
    '(flags, i) ← ReadU8 i;
    let f := if Z.land flags (Z.shiftl 1 6) =? 0 then 0 else DONT_FRAGMENT in
    let f := if Z.land flags (Z.shiftl 1 5) =? 0 then f else Z.lor f MORE_FRAGMENTS in
    '(low, i) ← ReadU8 i;
    let fragmentOffset := u16 (Z.shiftl (Z.lor (u16 (Z.shiftl (Z.land flags 0x1f) 8)) low) 3) in
    '(ttl, i) ← ReadU8 i;
    '(protocol, i) ← ReadU8 i;
    '(checksum, i) ← ReadU16 i;
    '(source, i) ← ReadNtohU32 i;
    '(destination, i) ← ReadNtohU32 i;
    good ← (if m_calcChecksum h0 then
              c ← CalculateIpChecksum headerSize 0 start; mret (c =? 0)
            else mret (m_goodChecksum h0));
    mret (mkIpv4Header (m_calcChecksum h0) (u16 (size - headerSize)) identification tos ttl protocol f
            fragmentOffset source destination checksum good headerSize, headerSize).

(** * Correctness of the IPv4 header

    Round trip, and the two directions of the checksum: a header that is sent
    with its checksum is accepted, and one with a corrupted octet is not. *)

Record valid (h : Ipv4Header) : Prop := {
  v_pay : 0 <= m_payloadSize h < 65536 - 20;
  v_id : in_range 16 (m_identification h);
  v_tos : octet (m_tos h);
  v_ttl : octet (m_ttl h);
  v_proto : octet (m_protocol h);
  v_flags : 0 <= m_flags h < 4;
  v_off : in_range 16 (m_fragmentOffset h) /\ m_fragmentOffset h mod 8 = 0;
  v_src : in_range 32 (m_source h);
  v_dst : in_range 32 (m_destination h);
  v_size : m_headerSize h = 20 }.

(** ** The octet of flags and offset *)

Definition flags_octet (q flags : Z) : Z :=
  let f := if Z.land flags DONT_FRAGMENT =? 0 then q else Z.lor q (Z.shiftl 1 6) in
  if Z.land flags MORE_FRAGMENTS =? 0 then f else Z.lor f (Z.shiftl 1 5).

Definition flags_read (F : Z) : Z :=
  let f := if Z.land F (Z.shiftl 1 6) =? 0 then 0 else DONT_FRAGMENT in
  if Z.land F (Z.shiftl 1 5) =? 0 then f else Z.lor f MORE_FRAGMENTS.

Lemma flags_octet_spec q flags :
  0 <= q < 32 -> 0 <= flags < 4 ->
  octet (flags_octet q flags) /\ flags_read (flags_octet q flags) = flags /\
  Z.land (flags_octet q flags) 0x1f = q.
Proof.
  intros Hq Hf.
  assert (forallb (fun q => forallb (fun f =>
      let F := flags_octet (Z.of_nat q) (Z.of_nat f) in
      (0 <=? F) && (F <? 256) && (flags_read F =? Z.of_nat f) && (Z.land F 0x1f =? Z.of_nat q))
    (seq 0 4)) (seq 0 32) = true) as Hall by (vm_compute; reflexivity).
  rewrite forallb_forall in Hall. specialize (Hall (Z.to_nat q)).
  rewrite forallb_forall in Hall by (apply in_seq; lia).
  specialize (Hall ltac:(apply in_seq; lia) (Z.to_nat flags) ltac:(apply in_seq; lia)). cbv zeta in Hall.
  rewrite !Z2Nat.id in Hall by lia. bool_to_Z. unfold octet. lia.
Qed.

(** ** Reading what was written *)

Lemma header_front_eq h :
  header_front h = WriteU8 0x45 ++ WriteU8 (m_tos h) ++ WriteHtonU16 (m_payloadSize h + 20) ++
    WriteHtonU16 (m_identification h) ++
    WriteU8 (flags_octet (Z.land (Z.shiftr (m_fragmentOffset h / 8) 8) 0x1f) (m_flags h)) ++
    WriteU8 (Z.land (m_fragmentOffset h / 8) 0xff) ++ WriteU8 (m_ttl h) ++ WriteU8 (m_protocol h).
Proof. reflexivity. Qed.

Lemma write_u8_octets x : Forall octet (WriteU8 x).
Proof. repeat constructor; apply byte_at_octet. Qed.
Lemma write_u16_octets x : Forall octet (WriteHtonU16 x).
Proof. repeat constructor; apply byte_at_octet. Qed.
Lemma write_u32_octets x : Forall octet (WriteHtonU32 x).
Proof. repeat constructor; apply byte_at_octet. Qed.

Lemma header_front_octets h : Forall octet (header_front h) /\ length (header_front h) = 10%nat.
Proof.
  split; [|done]. rewrite header_front_eq.
  repeat (apply Forall_app; split); auto using write_u8_octets, write_u16_octets.
Qed.
Lemma header_back_octets h : Forall octet (header_back h) /\ length (header_back h) = 8%nat.
Proof. split; [|done]. apply Forall_app. auto using write_u32_octets. Qed.

(** The header that is read from the octets of [h] with checksum field [c]. *)
Definition read_header (h h0 : Ipv4Header) (c : Z) (good : bool) : Ipv4Header :=
  mkIpv4Header (m_calcChecksum h0) (m_payloadSize h) (m_identification h) (m_tos h) (m_ttl h) (m_protocol h)
    (m_flags h) (m_fragmentOffset h) (m_source h) (m_destination h) c good 20.

(** Reading an octet in the middle of a [Deserialize]. *)
Lemma read_u8 {B} x rest (k : Z * bytes -> res B) : octet x -> (ReadU8 (WriteU8 x ++ rest) ≫= k) = k (x, rest).
Proof. intros. by rewrite ReadU8_write. Qed.
Lemma read_n16 {B} x rest (k : Z * bytes -> res B) :
  in_range 16 x -> (ReadNtohU16 (WriteHtonU16 x ++ rest) ≫= k) = k (x, rest).
Proof. intros. by rewrite ReadNtohU16_write. Qed.
Lemma read_h16 {B} x rest (k : Z * bytes -> res B) :
  in_range 16 x -> (ReadU16 (WriteU16 x ++ rest) ≫= k) = k (x, rest).
Proof. intros. by rewrite ReadU16_write. Qed.
Lemma read_n32 {B} x rest (k : Z * bytes -> res B) :
  in_range 32 x -> (ReadNtohU32 (WriteHtonU32 x ++ rest) ≫= k) = k (x, rest).
Proof. intros. by rewrite ReadNtohU32_write. Qed.

Lemma fragment_octets o :
  in_range 16 o -> o mod 8 = 0 ->
  let q := Z.land (Z.shiftr (o / 8) 8) 0x1f in let low := Z.land (o / 8) 0xff in
  0 <= q < 32 /\ octet low /\ u16 (Z.shiftl (Z.lor (u16 (Z.shiftl q 8)) low) 3) = o.
Proof.
  intros Ho Hm q low. unfold in_range in Ho.
  assert (q = o / 8 / 256) as Eq.
  { unfold q. change 0x1f with (Z.ones 5). rewrite Z.land_ones, Z.shiftr_div_pow2 by lia.
    change (2 ^ 8) with 256. apply Z.mod_small. change (2 ^ 5) with 32. Z.div_mod_to_equations. lia. }
  assert (low = (o / 8) mod 256) as El.
  { unfold low. change 0xff with (Z.ones 8). by rewrite Z.land_ones by lia. }
  assert (0 <= q < 32 /\ octet low) as [Hq Hl].
  { rewrite Eq, El. unfold octet. Z.div_mod_to_equations. lia. }
  split; [done|]. split; [done|].
  fold (shift_in 16 q low). rewrite shift_in_eq by (done || simpl; lia).
  rewrite Z.shiftl_mul_pow2 by lia. change (2 ^ 3) with 8.
  rewrite wrap_small; rewrite Eq, El; unfold in_range; Z.div_mod_to_equations; lia.
Qed.

Lemma Deserialize_ok h h0 c rest :
  valid h -> in_range 16 c ->
  let start := header_front h ++ WriteU16 c ++ header_back h ++ rest in
  exists good, Deserialize h0 start = Ok (read_header h h0 c good, 20) /\
    (m_calcChecksum h0 = true -> exists s, CalculateIpChecksum 20 0 start = Ok s /\ good = (s =? 0)) /\
    (m_calcChecksum h0 = false -> good = m_goodChecksum h0).
Proof.
  intros [] Hc start. destruct v_off0 as [Ho Hm].
  destruct (fragment_octets _ Ho Hm) as (Hq & Hlow & Hoff).
  destruct (flags_octet_spec _ _ Hq v_flags0) as (HF & Hread & Hland).
  assert (exists s, CalculateIpChecksum 20 0 start = Ok s) as [s Hs].
  { destruct (CalculateIpChecksum_ok 10 (take 20 start)) as (s & E & _); [lia| | |].
    - unfold start. rewrite !app_assoc. rewrite take_app_le by done. apply Forall_take.
      rewrite !Forall_app. split; [split; [apply header_front_octets|]|apply header_back_octets].
      repeat constructor; apply byte_at_octet.
    - done.
    - exists s. exact E. }
  unfold Deserialize. fold start.
  assert (start = WriteU8 0x45 ++ WriteU8 (m_tos h) ++ WriteHtonU16 (m_payloadSize h + 20) ++
    WriteHtonU16 (m_identification h) ++
    WriteU8 (flags_octet (Z.land (Z.shiftr (m_fragmentOffset h / 8) 8) 0x1f) (m_flags h)) ++
    WriteU8 (Z.land (m_fragmentOffset h / 8) 0xff) ++ WriteU8 (m_ttl h) ++ WriteU8 (m_protocol h) ++
    WriteU16 c ++ WriteHtonU32 (m_source h) ++ WriteHtonU32 (m_destination h) ++ rest) as E by reflexivity.
  clearbody start. rewrite (f_equal ReadU8 E).
  rewrite read_u8 by done. change (Z.land 69 15 * 4) with 20. change (negb (Z.shiftr 69 4 =? 4)) with false.
  cbv beta iota zeta.
  rewrite read_u8 by done. rewrite read_n16 by (unfold in_range; lia).
  rewrite read_n16 by done. rewrite read_u8 by done. rewrite read_u8 by done.
  rewrite read_u8 by done. rewrite read_u8 by done. rewrite read_h16 by done.
  rewrite read_n32 by done. rewrite read_n32 by done.
  fold (flags_read (flags_octet (Z.land (Z.shiftr (m_fragmentOffset h / 8) 8) 31) (m_flags h))).
  rewrite Hread, Hland, Hoff. replace (u16 (m_payloadSize h + 20 - 20)) with (m_payloadSize h)
    by (rewrite wrap_small; unfold in_range; lia).
  rewrite Hs. destruct (m_calcChecksum h0) eqn:Ecalc.
  - eexists. cbn [mbind res_bind mret res_ret]. rewrite <- Ecalc at 1. split; [reflexivity|].
    split; [eauto|congruence].
  - eexists. cbn [mbind res_bind mret res_ret]. rewrite <- Ecalc at 1. split; [reflexivity|].
    split; [congruence|done].
Qed.

(** ** The checksum of a header *)

Definition zeroed (h : Ipv4Header) : bytes := header_front h ++ WriteHtonU16 0 ++ header_back h.

Lemma with_checksum_octets h c :
  Forall octet (header_front h ++ WriteU16 c ++ header_back h) /\
  length (header_front h ++ WriteU16 c ++ header_back h) = 20%nat.
Proof.
  destruct (header_front_octets h) as [? E1], (header_back_octets h) as [? E2]. split.
  - rewrite !Forall_app. auto using u16_octets.
  - rewrite !length_app, E1, E2. done.
Qed.

Lemma word_sum_header h c :
  in_range 16 c -> word_sum (header_front h ++ WriteU16 c ++ header_back h) =
    word_sum (zeroed h) + c /\ 0 < word_sum (zeroed h).
Proof.
  intros Hc. destruct (header_front_octets h) as [Hf E1], (header_back_octets h) as [Hb _]. unfold zeroed.
  assert (Nat.Even (length (header_front h))) by (rewrite E1; by exists 5%nat).
  assert (Nat.Even (length (WriteU16 c))) by (by exists 1%nat).
  assert (Nat.Even (length (WriteHtonU16 0))) by (by exists 1%nat).
  rewrite !word_sum_app, word_sum_u16 by done. change (word_sum (WriteHtonU16 0)) with 0.
  split; [lia|]. pose proof (word_sum_nonneg _ Hb).
  assert (0 < word_sum (header_front h)); [|lia].
  rewrite header_front_eq. change (WriteU8 69) with [69]. cbn [app WriteU8].
  set (t := byte_at 0 (m_tos h)). assert (octet t) as Ht by apply byte_at_octet. unfold octet in Ht.
  assert (0 <= word_sum (WriteHtonU16 (m_payloadSize h + 20) ++ WriteHtonU16 (m_identification h) ++
    WriteU8 (flags_octet (Z.land ((m_fragmentOffset h / 8) ≫ 8) 31) (m_flags h)) ++
    WriteU8 (Z.land (m_fragmentOffset h / 8) 255) ++ WriteU8 (m_ttl h) ++ WriteU8 (m_protocol h))).
  { apply word_sum_nonneg. rewrite !Forall_app. auto 10 using write_u8_octets, write_u16_octets. }
  cbn [word_sum]. cbn [app WriteU8] in *. lia.
Qed.

(** The checksum that is written makes the sum a multiple of 65535. *)
Lemma Serialize_checksum h :
  m_calcChecksum h = true ->
  exists c, Serialize h = Ok (header_front h ++ WriteU16 c ++ header_back h) /\ in_range 16 c /\
    exists k, word_sum (header_front h ++ WriteU16 c ++ header_back h) = 65535 * k.
Proof.
  intros Hcalc. unfold Serialize. rewrite Hcalc. fold (zeroed h).
  assert (Forall octet (zeroed h)) as Ho.
  { unfold zeroed. rewrite !Forall_app.
    split; [apply header_front_octets|split; [apply write_u16_octets|apply header_back_octets]]. }
  destruct (CalculateIpChecksum_ok 10 (zeroed h)) as (c & E & Hr & [k Hk] & _); [lia|done| |].
  { unfold zeroed. rewrite !length_app, (proj2 (header_front_octets h)), (proj2 (header_back_octets h)). simpl. lia. }
  change (2 * Z.of_nat 10) with 20 in E. rewrite E. exists c. split; [done|]. split; [done|].
  exists k. destruct (word_sum_header h c Hr) as [-> _]. rewrite <- Hk. f_equal.
Qed.

Lemma checksum_of_20 start rest :
  Forall octet start -> length start = 20%nat -> 0 < word_sum start ->
  exists c, CalculateIpChecksum 20 0 (start ++ rest) = Ok c /\ (c = 0 <-> exists k, word_sum start = 65535 * k).
Proof.
  intros Ho Hlen Hpos.
  assert (forall rest, CalculateIpChecksum 20 0 (start ++ rest) = CalculateIpChecksum 20 0 start) as E.
  { do 20 (destruct start as [|? start]; [discriminate|]). destruct start; [|discriminate]. done. }
  rewrite E. destruct (CalculateIpChecksum_ok 10 start) as (c & Ec & _); [lia|done|lia|].
  change (2 * Z.of_nat 10) with 20 in Ec. exists c. split; [done|].
  pose proof (CalculateIpChecksum_zero 10 start c) as Hz. rewrite take_ge in Hz by lia.
  apply Hz; [lia|done|lia|lia|done].
Qed.

(** Any twenty octets that claim version 4 and five words are read. *)
Lemma Deserialize_general h0 b start rest :
  length start = 19%nat -> b = 0x45 -> m_calcChecksum h0 = true ->
  forall c, CalculateIpChecksum 20 0 ((b :: start) ++ rest) = Ok c ->
  exists h', Deserialize h0 ((b :: start) ++ rest) = Ok (h', 20) /\ IsChecksumOk h' = (c =? 0).
Proof.
  intros Hlen -> Hcalc c E.
  do 19 (destruct start as [|? start]; [discriminate|]). destruct start; [|discriminate].
  cbn [app] in *. set (f := CalculateIpChecksum) in *. unfold Deserialize. rewrite Hcalc.
  fold f. clearbody f. lazy -[shift_in wrap Z.shiftl Z.lor Z.sub IsChecksumOk Z.eqb]. rewrite E. eexists. split; reflexivity.
Qed.

(** ** Properties *)

Lemma header_roundtrip h h0 rest :
  valid h ->
  exists bs c good, Serialize h = Ok bs /\ length bs = 20%nat /\ Forall octet bs /\
    Deserialize h0 (bs ++ rest) = Ok (read_header h h0 c good, 20) /\
    (m_calcChecksum h = true -> m_calcChecksum h0 = true -> good = true) /\
    (m_calcChecksum h0 = false -> good = m_goodChecksum h0).
Proof.
  intros Hv. destruct (m_calcChecksum h) eqn:Hcalc.
  - destruct (Serialize_checksum h Hcalc) as (c & E & Hr & Hsum).
    destruct (with_checksum_octets h c) as [Ho Hlen].
    destruct (Deserialize_ok h h0 c rest Hv Hr) as (good & Ed & Hgood & Hno).
    eexists _, c, good. split; [exact E|]. split; [done|]. split; [done|]. rewrite <- !app_assoc.
    split; [exact Ed|]. split; [|exact Hno]. intros _ H0. destruct (Hgood H0) as (s & Es & ->).
    destruct (word_sum_header h c Hr) as [Hw Hpos]. unfold in_range in Hr.
    destruct (checksum_of_20 _ rest Ho Hlen) as (s' & Es' & Hiff); [lia|].
    rewrite <- !app_assoc in Es'. rewrite Es' in Es. injection Es as <-. apply Z.eqb_eq, Hiff, Hsum.
  - destruct (Deserialize_ok h h0 0 rest Hv) as (good & Ed & _ & Hno); [unfold in_range; lia|].
    destruct (with_checksum_octets h 0) as [Ho Hlen].
    eexists _, 0, good. unfold Serialize. rewrite Hcalc. split; [reflexivity|].
    split; [exact Hlen|]. split; [exact Ho|]. rewrite <- !app_assoc. split; [exact Ed|]. split; [done|exact Hno].
Qed.

(** C22. Round trip of the IPv4 header: a valid header serializes into twenty
    octets, and reading them back, whatever follows, gives the same fields; when
    both sides use the checksum, the header that is read is accepted. *)
Theorem Ipv4Header_roundtrip h h0 rest :
  valid h ->
  exists bs c good, Serialize h = Ok bs /\ length bs = 20%nat /\ Forall octet bs /\
    Deserialize h0 (bs ++ rest) = Ok (read_header h h0 c good, 20) /\
    (m_calcChecksum h = true -> m_calcChecksum h0 = true -> good = true).
Proof.
  intros Hv. destruct (header_roundtrip h h0 rest Hv) as (bs & c & good & E & Hl & Ho & Ed & Hg & _).
  by exists bs, c, good.
Qed.

Definition sample : Ipv4Header := mkIpv4Header true 1480 77 0xb8 64 17 2 1480 0xc0a80001 0xc0a80301 0 true 20.

Lemma sample_valid : valid sample.
Proof. constructor; unfold in_range, octet; simpl; try lia; done. Qed.

Lemma Ipv4Header_roundtrip_witness :
  exists bs c good, Serialize sample = Ok bs /\ length bs = 20%nat /\ Forall octet bs /\
    Deserialize (EnableChecksum new_Ipv4Header) (bs ++ [1; 2; 3]) =
      Ok (read_header sample (EnableChecksum new_Ipv4Header) c good, 20) /\
    (m_calcChecksum sample = true -> m_calcChecksum (EnableChecksum new_Ipv4Header) = true -> good = true).
Proof. apply (Ipv4Header_roundtrip sample (EnableChecksum new_Ipv4Header) [1; 2; 3]), sample_valid. Defined.

(** The checksum detects every corruption of a single octet after the first:
    if one octet of a serialized header is replaced by a different one, the
    receiver reads a header whose checksum is not ok. *)
Theorem Ipv4Header_detects_corruption h h0 bs rest i b b' :
  m_calcChecksum h = true -> m_calcChecksum h0 = true -> Serialize h = Ok bs ->
  (0 < i)%nat -> bs !! i = Some b -> octet b' -> b' <> b ->
  exists h', Deserialize h0 (<[i := b']> bs ++ rest) = Ok (h', 20) /\ IsChecksumOk h' = false.
Proof.
  intros Hcalc Hcalc0 E Hi Hb Hb' Hne.
  destruct (Serialize_checksum h Hcalc) as (c & E' & Hr & k & Hsum).
  destruct (with_checksum_octets h c) as [Ho Hlen].
  assert (header_front h ++ WriteU16 c ++ header_back h = bs) as Ebs0 by congruence.
  rewrite Ebs0 in *. clear E E'.
  assert (Nat.Even (length bs)) as Hev by (rewrite Hlen; by exists 10%nat).
  destruct (word_sum_insert bs i b b' Hev Hb) as (d & Hd & Hdor).
  assert (octet b) as Hbo by (by eapply Forall_lookup_1 in Ho).
  assert (exists tl, <[i := b']> bs = 0x45 :: tl /\ length tl = 19%nat) as (tl & Htl & Htlen).
  { destruct bs as [|x tl] eqn:Ebs; [done|]. rewrite <- Ebs in Ebs0. assert (x = 0x45) as -> by (rewrite <- Ebs0 in Ebs; injection Ebs as <- _; done).
    destruct i as [|i]; [lia|]. exists (<[i := b']> tl). split; [done|]. rewrite length_insert. simpl in Hlen. lia. }
  assert (Forall octet (<[i := b']> bs)) as Ho' by (by apply Forall_insert).
  assert (0 < word_sum (<[i := b']> bs)) as Hpos.
  { rewrite Htl in *. destruct tl as [|y tl]; [done|]. cbn [word_sum].
    apply Forall_cons in Ho' as [_ Ho']. apply Forall_cons in Ho' as [Hy Ho'].
    pose proof (word_sum_nonneg tl Ho'). unfold octet in Hy. lia. }
  destruct (checksum_of_20 (<[i := b']> bs) rest Ho') as (s & Es & Hiff); [by rewrite length_insert|done|].
  rewrite Htl in Es |- *.
  destruct (Deserialize_general h0 0x45 tl rest Htlen eq_refl Hcalc0 s Es) as (h' & Ed & Hok).
  exists h'. split; [done|]. rewrite Hok. apply Z.eqb_neq. intros [k' Hk']%Hiff.
  rewrite Hd, Hsum in Hk'. unfold octet in *.
  assert ((b' - b) * d = 65535 * (k' - k)) as Hmul by lia.
  assert (k' - k = 0) by (destruct Hdor as [-> | ->]; lia). destruct Hdor as [-> | ->]; lia.
Qed.

Lemma Ipv4Header_detects_corruption_witness :
  exists bs b h', Serialize sample = Ok bs /\ bs !! 16%nat = Some b /\ b <> 0 /\
    Deserialize (EnableChecksum new_Ipv4Header) (<[16%nat := 0]> bs ++ []) = Ok (h', 20) /\ IsChecksumOk h' = false.
Proof.
  assert (exists bs, Serialize sample = Ok bs /\ bs !! 16%nat = Some 0xc0) as (bs & E & Hb)
    by (eexists; split; vm_compute; reflexivity).
  destruct (Ipv4Header_detects_corruption sample (EnableChecksum new_Ipv4Header) bs [] 16 0xc0 0)
    as (h' & Ed & Hok); [done|done|exact E|lia|exact Hb|unfold octet; lia|lia|].
  exists bs, 0xc0, h'. split; [exact E|]. split; [exact Hb|]. split; [lia|]. split; [exact Ed|exact Hok].
Defined.
