(* ===== verification/Ipv4Interface.v ===== *)
(** * IPv4 interfaces

    [Ipv4InterfaceAddress] ([src/internet/model/ipv4-interface-address.cc]) and
    [Ipv4Interface] ([src/internet/model/ipv4-interface.cc]).  A network device
    is a handle; its virtual methods are the class [NetDevices]. *)

From S2P Require Import Prelude Bytes Packet.
From S2P Require Ipv4Address Ipv4Header.
Import Ipv4Header (Ipv4Header).

(** ** Addresses of an interface *)

(** [InterfaceAddressScope_e], in the order of the enumeration *)
Inductive scope := HOST | LINK | GLOBAL.
#[export] Instance scope_eq_dec : EqDecision scope.
Proof. solve_decision. Defined.
Definition scope_value (s : scope) : Z := match s with HOST => 0 | LINK => 1 | GLOBAL => 2 end.

Record Ipv4InterfaceAddress := mkIfAddr {
  m_local : Z; m_mask : Z; m_broadcast : Z; m_scope : scope; m_secondary : bool }.
#[export] Instance Ipv4InterfaceAddress_eq_dec : EqDecision Ipv4InterfaceAddress.
Proof. solve_decision. Defined.

(** The value of an uninitialized [Ipv4Address] or [Ipv4Mask]. *)
Definition UNINITIALIZED : Z := 0x66666666.

Definition default_address : Ipv4InterfaceAddress :=
  mkIfAddr UNINITIALIZED UNINITIALIZED UNINITIALIZED GLOBAL false.

Definition new_address (l mask : Z) : Ipv4InterfaceAddress :=
  mkIfAddr l mask (Z.lor l (u32 (Z.lnot mask)))
    (if l =? Ipv4Address.GetLoopback then HOST else GLOBAL) false.

Definition SetLocal (l : Z) (a : Ipv4InterfaceAddress) : Ipv4InterfaceAddress :=
  mkIfAddr l (m_mask a) (m_broadcast a) (m_scope a) (m_secondary a).
Definition SetAddress : Z -> Ipv4InterfaceAddress -> Ipv4InterfaceAddress := SetLocal.
Definition GetLocal (a : Ipv4InterfaceAddress) : Z := m_local a.
Definition SetMask (mask : Z) (a : Ipv4InterfaceAddress) : Ipv4InterfaceAddress :=
  mkIfAddr (m_local a) mask (m_broadcast a) (m_scope a) (m_secondary a).
Definition GetMask (a : Ipv4InterfaceAddress) : Z := m_mask a.
Definition SetBroadcast (b : Z) (a : Ipv4InterfaceAddress) : Ipv4InterfaceAddress :=
  mkIfAddr (m_local a) (m_mask a) b (m_scope a) (m_secondary a).
Definition GetBroadcast (a : Ipv4InterfaceAddress) : Z := m_broadcast a.
Definition SetScope (s : scope) (a : Ipv4InterfaceAddress) : Ipv4InterfaceAddress :=
  mkIfAddr (m_local a) (m_mask a) (m_broadcast a) s (m_secondary a).
Definition GetScope (a : Ipv4InterfaceAddress) : scope := m_scope a.
Definition IsInSameSubnet (b : Z) (a : Ipv4InterfaceAddress) : bool :=
  Ipv4Address.CombineMask (m_local a) (m_mask a) =? Ipv4Address.CombineMask b (m_mask a).
Definition IsSecondary (a : Ipv4InterfaceAddress) : bool := m_secondary a.
Definition SetSecondary (a : Ipv4InterfaceAddress) : Ipv4InterfaceAddress :=
  mkIfAddr (m_local a) (m_mask a) (m_broadcast a) (m_scope a) true.
Definition SetPrimary (a : Ipv4InterfaceAddress) : Ipv4InterfaceAddress :=
  mkIfAddr (m_local a) (m_mask a) (m_broadcast a) (m_scope a) false.

(** [operator !=] of [Ipv4InterfaceAddress] *)
Definition address_neb (a b : Ipv4InterfaceAddress) : bool :=
  negb (m_local a =? m_local b) || negb (m_mask a =? m_mask b) ||
  negb (m_broadcast a =? m_broadcast b) || negb (bool_decide (m_scope a = m_scope b)) ||
  negb (Bool.eqb (m_secondary a) (m_secondary b)).

(** ** Interfaces *)

(** The virtual methods of [NetDevice] that IPv4 calls on a device handle. *)
Class NetDevices := {
  dev_GetMtu : Z -> Z;
  dev_NeedsArp : Z -> bool;
  dev_IsLoopback : Z -> bool;      (* DynamicCast<LoopbackNetDevice> succeeds *)
  dev_IsMulticast : Z -> bool;
  dev_GetBroadcast : Z -> Z;
  dev_GetMulticast : Z -> Z -> Z
}.

Record Ipv4Interface := mkIf {
  m_ifup : bool; m_forwarding : bool; m_metric : Z; m_ifaddrs : list Ipv4InterfaceAddress;
  m_node : option Z; m_device : option Z; m_tc : bool; m_cache : option Z }.

Definition new_interface : Ipv4Interface := mkIf false true 1 [] None None false None.

Definition if_DoDispose (i : Ipv4Interface) : Ipv4Interface :=
  mkIf (m_ifup i) (m_forwarding i) (m_metric i) (m_ifaddrs i) None None false None.

Section interface.
Context `{NetDevices}.
(** [ArpL3Protocol::CreateCache (device, interface)]: the handle it returns *)
Variable CreateCache : Z -> Z.

Definition DoSetup (i : Ipv4Interface) : Ipv4Interface :=
  match m_node i, m_device i with
  | Some _, Some d =>
      if dev_NeedsArp d then
        mkIf (m_ifup i) (m_forwarding i) (m_metric i) (m_ifaddrs i) (m_node i) (m_device i) (m_tc i)
          (Some (CreateCache d))
      else i
  | _, _ => i
  end.

Definition SetNode (node : Z) (i : Ipv4Interface) : Ipv4Interface :=
  DoSetup (mkIf (m_ifup i) (m_forwarding i) (m_metric i) (m_ifaddrs i) (Some node) (m_device i) (m_tc i) (m_cache i)).
Definition SetDevice (d : Z) (i : Ipv4Interface) : Ipv4Interface :=
  DoSetup (mkIf (m_ifup i) (m_forwarding i) (m_metric i) (m_ifaddrs i) (m_node i) (Some d) (m_tc i) (m_cache i)).
End interface.

Definition SetTrafficControl (i : Ipv4Interface) : Ipv4Interface :=
  mkIf (m_ifup i) (m_forwarding i) (m_metric i) (m_ifaddrs i) (m_node i) (m_device i) true (m_cache i).
Definition GetDevice (i : Ipv4Interface) : option Z := m_device i.
Definition SetMetric (metric : Z) (i : Ipv4Interface) : Ipv4Interface :=
  mkIf (m_ifup i) (m_forwarding i) metric (m_ifaddrs i) (m_node i) (m_device i) (m_tc i) (m_cache i).
Definition GetMetric (i : Ipv4Interface) : Z := m_metric i.
Definition SetArpCache (c : Z) (i : Ipv4Interface) : Ipv4Interface :=
  mkIf (m_ifup i) (m_forwarding i) (m_metric i) (m_ifaddrs i) (m_node i) (m_device i) (m_tc i) (Some c).
Definition GetArpCache (i : Ipv4Interface) : option Z := m_cache i.
Definition if_IsUp (i : Ipv4Interface) : bool := m_ifup i.
Definition if_IsDown (i : Ipv4Interface) : bool := negb (m_ifup i).
Definition set_up (b : bool) (i : Ipv4Interface) : Ipv4Interface :=
  mkIf b (m_forwarding i) (m_metric i) (m_ifaddrs i) (m_node i) (m_device i) (m_tc i) (m_cache i).
Definition if_SetUp : Ipv4Interface -> Ipv4Interface := set_up true.
Definition if_SetDown : Ipv4Interface -> Ipv4Interface := set_up false.
Definition if_IsForwarding (i : Ipv4Interface) : bool := m_forwarding i.
Definition if_SetForwarding (b : bool) (i : Ipv4Interface) : Ipv4Interface :=
  mkIf (m_ifup i) b (m_metric i) (m_ifaddrs i) (m_node i) (m_device i) (m_tc i) (m_cache i).

Definition set_ifaddrs (l : list Ipv4InterfaceAddress) (i : Ipv4Interface) : Ipv4Interface :=
  mkIf (m_ifup i) (m_forwarding i) (m_metric i) l (m_node i) (m_device i) (m_tc i) (m_cache i).
Definition if_GetNAddresses (i : Ipv4Interface) : Z := Z.of_nat (length (m_ifaddrs i)).
Definition if_AddAddress (a : Ipv4InterfaceAddress) (i : Ipv4Interface) : bool * Ipv4Interface :=
  (true, set_ifaddrs (m_ifaddrs i ++ [a]) i).
(** A fatal error for an index out of bounds. *)
Definition if_GetAddress (index : Z) (i : Ipv4Interface) : res Ipv4InterfaceAddress :=
  match m_ifaddrs i !! Z.to_nat index with Some a => Ok a | None => Err FatalError end.
Definition if_RemoveAddressAt (index : Z) (i : Ipv4Interface) : res (Ipv4InterfaceAddress * Ipv4Interface) :=
  match m_ifaddrs i !! Z.to_nat index with
  | Some a => Ok (a, set_ifaddrs (delete (Z.to_nat index) (m_ifaddrs i)) i)
  | None => Err FatalError
  end.

(** The first address whose local part is [address], and the others. *)
Fixpoint remove_local (address : Z) (l : list Ipv4InterfaceAddress) :
    option (Ipv4InterfaceAddress * list Ipv4InterfaceAddress) :=
  match l with
  | [] => None
  | a :: r => if m_local a =? address then Some (a, r)
              else match remove_local address r with Some (b, r') => Some (b, a :: r') | None => None end
  end.
Definition if_RemoveAddress (address : Z) (i : Ipv4Interface) : Ipv4InterfaceAddress * Ipv4Interface :=
  if address =? Ipv4Address.GetLoopback then (default_address, i)
  else match remove_local address (m_ifaddrs i) with
       | Some (a, l) => (a, set_ifaddrs l i)
       | None => (default_address, i)
       end.

(** ** [Ipv4Interface::Send]

    The calls it makes on other components.  [OutArpLookup] is the call of
    [ArpL3Protocol::Lookup], which keeps the packet until the address is known;
    when it finds the hardware address, [Send] goes on with [OutTcSend]. *)
Inductive if_call :=
| OutDeviceSend (dev : Z) (p : Packet) (h : Ipv4Header) (hw : Z)     (* loopback *)
| OutTcReceive (dev : Z) (p : Packet) (h : Ipv4Header)               (* to this host *)
| OutTcSend (dev : Z) (p : Packet) (h : Ipv4Header) (hw : Z)
| OutArpLookup (dev : Z) (p : Packet) (h : Ipv4Header) (dest : Z).

Section send.
Context `{NetDevices}.

(** The hardware address a device that needs ARP can tell without a lookup. *)
Definition hardware_destination (dest : Z) (d : Z) (i : Ipv4Interface) : res (option Z) :=
  if Ipv4Address.IsBroadcast dest then mret (Some (dev_GetBroadcast d))
  else if Ipv4Address.IsMulticast dest then
    _ ← ns_assert (dev_IsMulticast d); mret (Some (dev_GetMulticast d dest))
  else if existsb (fun a => Ipv4Address.IsSubnetDirectedBroadcast dest (m_mask a)) (m_ifaddrs i)
    then mret (Some (dev_GetBroadcast d))
  else mret None.

Definition if_Send (p : Packet) (hdr : Ipv4Header) (dest : Z) (i : Ipv4Interface) : res (list if_call) :=
  if negb (if_IsUp i) then mret [] else
  d ← deref (m_device i);
  if dev_IsLoopback d then mret [OutDeviceSend d p hdr (dev_GetBroadcast d)] else
  _ ← ns_assert (m_tc i);
  if existsb (fun a => dest =? m_local a) (m_ifaddrs i) then mret [OutTcReceive d p hdr] else
  if dev_NeedsArp d then
    hw ← hardware_destination dest d i;
    match hw with
    | Some hw => mret [OutTcSend d p hdr hw]
    | None => mret [OutArpLookup d p hdr dest]
    end
  else mret [OutTcSend d p hdr (dev_GetBroadcast d)].
End send.
