(* ===== verification/Ipv4Ifaces.v ===== *)
(** * The interfaces of an IPv4 stack

    The part of [Ipv4L3Protocol] ([src/internet/model/ipv4-l3-protocol.cc]) that
    the routing protocols query through [Ptr<Ipv4>]: the interface list, the map
    from devices to interface indices and the host model.  [Ipv4L3Protocol]
    extends it with routing, forwarding and delivery. *)

From S2P Require Import Prelude.
From S2P Require Ipv4Address.
From S2P Require Export Ipv4Interface.

Record Ipv4 := mkIpv4 {
  m_interfaces : list Ipv4Interface;
  m_reverseInterfacesContainer : gmap Z Z;
  m_ipForward : bool;
  m_weakEsModel : bool }.

Definition AddIpv4Interface (i : Ipv4Interface) (s : Ipv4) : res (Z * Ipv4) :=
  let index := Z.of_nat (length (m_interfaces s)) in
  d ← deref (m_device i);
  mret (index, mkIpv4 (m_interfaces s ++ [i]) (<[d := index]> (m_reverseInterfacesContainer s))
                 (m_ipForward s) (m_weakEsModel s)).

Definition GetInterface (index : Z) (s : Ipv4) : option Ipv4Interface := m_interfaces s !! Z.to_nat index.
Definition GetNInterfaces (s : Ipv4) : Z := Z.of_nat (length (m_interfaces s)).

Definition GetInterfaceForDevice (device : option Z) (s : Ipv4) : Z :=
  match device with
  | Some d => match m_reverseInterfacesContainer s !! d with Some i => i | None => -1 end
  | None => -1
  end.

(** The loops that look for an interface with an address that passes a test. *)
Fixpoint find_interface (f : Ipv4InterfaceAddress -> bool) (l : list Ipv4Interface) (index : Z) : Z :=
  match l with
  | [] => -1
  | i :: r => if existsb f (m_ifaddrs i) then index else find_interface f r (index + 1)
  end.
Definition GetInterfaceForAddress (address : Z) (s : Ipv4) : Z :=
  find_interface (fun a => m_local a =? address) (m_interfaces s) 0.
Definition GetInterfaceForPrefix (address mask : Z) (s : Ipv4) : Z :=
  find_interface (fun a => Ipv4Address.CombineMask (m_local a) mask =? Ipv4Address.CombineMask address mask)
    (m_interfaces s) 0.

Definition GetNAddresses (index : Z) (s : Ipv4) : res Z :=
  i ← deref (GetInterface index s); mret (if_GetNAddresses i).
Definition GetAddress (index addressIndex : Z) (s : Ipv4) : res Ipv4InterfaceAddress :=
  i ← deref (GetInterface index s); if_GetAddress addressIndex i.
Definition SetMetric (index metric : Z) (s : Ipv4) : res Ipv4 :=
  i ← deref (GetInterface index s);
  mret (mkIpv4 (<[Z.to_nat index := Ipv4Interface.SetMetric metric i]> (m_interfaces s))
          (m_reverseInterfacesContainer s) (m_ipForward s) (m_weakEsModel s)).
Definition GetMetric (index : Z) (s : Ipv4) : res Z :=
  i ← deref (GetInterface index s); mret (Ipv4Interface.GetMetric i).
Definition IsUp (index : Z) (s : Ipv4) : res bool :=
  i ← deref (GetInterface index s); mret (if_IsUp i).
Definition IsForwarding (index : Z) (s : Ipv4) : res bool :=
  i ← deref (GetInterface index s); mret (if_IsForwarding i).
Definition GetNetDevice (index : Z) (s : Ipv4) : res (option Z) :=
  i ← deref (GetInterface index s); mret (GetDevice i).

Definition update_interface (index : Z) (i : Ipv4Interface) (s : Ipv4) : Ipv4 :=
  mkIpv4 (<[Z.to_nat index := i]> (m_interfaces s)) (m_reverseInterfacesContainer s) (m_ipForward s)
    (m_weakEsModel s).
Definition SetForwarding (index : Z) (val : bool) (s : Ipv4) : res Ipv4 :=
  i ← deref (GetInterface index s); mret (update_interface index (if_SetForwarding val i) s).
Definition SetIpForward (forward : bool) (s : Ipv4) : Ipv4 :=
  mkIpv4 (if_SetForwarding forward <$> m_interfaces s) (m_reverseInterfacesContainer s) forward
    (m_weakEsModel s).
Definition GetIpForward (s : Ipv4) : bool := m_ipForward s.
Definition SetWeakEsModel (model : bool) (s : Ipv4) : Ipv4 :=
  mkIpv4 (m_interfaces s) (m_reverseInterfacesContainer s) (m_ipForward s) model.
Definition GetWeakEsModel (s : Ipv4) : bool := m_weakEsModel s.

(** [address] is the unicast or broadcast address [a]. *)
Definition matches_address (address : Z) (a : Ipv4InterfaceAddress) : bool :=
  (address =? m_local a) || (address =? m_broadcast a).

Definition IsDestinationAddress (address iif : Z) (s : Ipv4) : res bool :=
  i ← deref (GetInterface iif s);
  mret (if existsb (matches_address address) (m_ifaddrs i) then true
        else if Ipv4Address.IsMulticast address then true
        else if Ipv4Address.IsBroadcast address then true
        else if GetWeakEsModel s then
          existsb (fun j => existsb (matches_address address) (m_ifaddrs j))
            (delete (Z.to_nat iif) (m_interfaces s))
        else false).

Definition IsUnicast (ad : Z) (s : Ipv4) : bool :=
  if Ipv4Address.IsBroadcast ad || Ipv4Address.IsMulticast ad then false
  else negb (existsb (fun i => existsb (fun a => ad =? m_broadcast a) (m_ifaddrs i)) (m_interfaces s)).
Definition IsUnicastMask (ad interfaceMask : Z) : bool :=
  negb (Ipv4Address.IsMulticast ad) && negb (Ipv4Address.IsSubnetDirectedBroadcast ad interfaceMask).

(** The first primary address on the link of [dest]. *)
Definition on_link (dest : Z) (a : Ipv4InterfaceAddress) : bool :=
  (Ipv4Address.CombineMask (m_local a) (m_mask a) =? Ipv4Address.CombineMask dest (m_mask a)) &&
  negb (IsSecondary a).
Definition SourceAddressSelection (interfaceIdx dest : Z) (s : Ipv4) : res Z :=
  i ← deref (GetInterface interfaceIdx s);
  first ← if_GetAddress 0 i;
  mret (if if_GetNAddresses i =? 1 then m_local first
        else match List.find (on_link dest) (m_ifaddrs i) with
             | Some a => m_local a
             | None => m_local first
             end).

(** [SelectSourceAddress]: the loop over one device's addresses ([inl]: the
    value is returned, [inr]: the first eligible address, if any). *)
Fixpoint select_on_device (dst : Z) (sc : scope) (l : list Ipv4InterfaceAddress) (found : option Z) :
    Z + option Z :=
  match l with
  | [] => inr found
  | a :: r =>
      if IsSecondary a then select_on_device dst sc r found
      else if scope_value sc <? scope_value (GetScope a) then select_on_device dst sc r found
      else if Ipv4Address.CombineMask dst (m_mask a) =? Ipv4Address.CombineMask (m_local a) (m_mask a)
        then inl (m_local a)
      else select_on_device dst sc r (match found with Some x => Some x | None => Some (m_local a) end)
  end.
Definition eligible (sc : scope) (a : Ipv4InterfaceAddress) : bool :=
  negb (IsSecondary a) && negb (bool_decide (GetScope a = LINK)) && (scope_value (GetScope a) <=? scope_value sc).
Definition SelectSourceAddress (device : option Z) (dst : Z) (sc : scope) (s : Ipv4) : res Z :=
  r ← match device with
      | None => mret (inr None)
      | Some _ =>
          let i := GetInterfaceForDevice device s in
          _ ← ns_assert (0 <=? i);
          ifc ← deref (GetInterface i s);
          mret (select_on_device dst sc (m_ifaddrs ifc) None)
      end;
  match r with
  | inl a | inr (Some a) => mret a
  | inr None =>
      mret (match List.find (eligible sc) (m_interfaces s ≫= m_ifaddrs) with
            | Some a => m_local a
            | None => 0
            end)
  end.

(** ** Well-formed stacks *)

(** Every interface has a device, and the reverse map is the inverse of the list. *)
Record wf_ipv4 (s : Ipv4) : Prop := {
  wf_dev i ifc : m_interfaces s !! i = Some ifc -> exists d, m_device ifc = Some d;
  wf_rev d k : m_reverseInterfacesContainer s !! d = Some k ->
    0 <= k /\ exists ifc, m_interfaces s !! Z.to_nat k = Some ifc /\ m_device ifc = Some d }.

Lemma wf_ipv4_empty fw weak : wf_ipv4 (mkIpv4 [] ∅ fw weak).
Proof. by split; intros *; simpl; rewrite ?lookup_empty. Qed.

Lemma AddIpv4Interface_wf i s k s' :
  wf_ipv4 s -> AddIpv4Interface i s = Ok (k, s') -> wf_ipv4 s' /\ GetInterface k s' = Some i.
Proof.
  intros [Hd Hr] (d & Hdev%deref_ok & [= <- <-])%bind_ok. split; [split; simpl|].
  - intros n ifc [?|[? E]]%lookup_app_Some; [by eapply Hd|].
    apply list_lookup_singleton_Some in E as [_ <-]. by exists d.
  - intros d' n. rewrite lookup_insert_Some. intros [[<- <-]|[Hne E]].
    + split; [lia|]. exists i. rewrite Nat2Z.id, list_lookup_middle by done. done.
    + destruct (Hr _ _ E) as (H0 & ifc & Ei & Edev). split; [done|]. exists ifc.
      split; [by apply lookup_app_l_Some|done].
  - unfold GetInterface. simpl. by rewrite Nat2Z.id, list_lookup_middle.
Qed.

Lemma update_interface_wf index i i' s :
  wf_ipv4 s -> GetInterface index s = Some i -> m_device i' = m_device i -> wf_ipv4 (update_interface index i' s).
Proof.
  intros [Hd Hr] Hi Hdev. pose proof (lookup_lt_Some _ _ _ Hi) as Hlt. split; simpl.
  - intros n ifc [(<- & <- & _)|(_ & E)]%list_lookup_insert_Some; [|by eapply Hd].
    rewrite Hdev. by eapply Hd.
  - intros d k E. destruct (Hr _ _ E) as (H0 & ifc & Ei & Edev). split; [done|].
    destruct (decide (Z.to_nat k = Z.to_nat index)) as [Ek|Hne].
    + exists i'. rewrite Ek, list_lookup_insert_eq by done. split; [done|].
      rewrite Hdev. unfold GetInterface in Hi. congruence.
    + exists ifc. by rewrite list_lookup_insert_ne.
Qed.
