(* ===== verification/Routing.v ===== *)
(** * Routes and the interface of routing protocols

    [Ipv4RoutingTableEntry] and [Ipv4MulticastRoutingTableEntry]
    ([src/internet/model/ipv4-routing-table-entry.cc]), and the virtual methods of
    [Ipv4RoutingProtocol] as a class.  The callbacks that [RouteInput] invokes on
    the IPv4 stack are recorded, in order, as values of [rcall]. *)

From S2P Require Import Prelude Bytes Packet Ipv4Ifaces.
From S2P Require Ipv4Address Ipv4Header.
Import Ipv4Header (Ipv4Header).

(** ** Unicast entries *)

Record Ipv4RoutingTableEntry := mkEntry {
  m_dest : Z; m_destNetworkMask : Z; m_gateway : Z; m_interface : Z }.
#[export] Instance Ipv4RoutingTableEntry_eq_dec : EqDecision Ipv4RoutingTableEntry.
Proof. solve_decision. Defined.

Definition IsHost (r : Ipv4RoutingTableEntry) : bool := m_destNetworkMask r =? Ipv4Address.mask_GetOnes.
Definition GetDest (r : Ipv4RoutingTableEntry) : Z := m_dest r.
Definition IsNetwork (r : Ipv4RoutingTableEntry) : bool := negb (IsHost r).
Definition IsDefault (r : Ipv4RoutingTableEntry) : bool := m_dest r =? Ipv4Address.GetZero.
Definition GetDestNetwork (r : Ipv4RoutingTableEntry) : Z := m_dest r.
Definition GetDestNetworkMask (r : Ipv4RoutingTableEntry) : Z := m_destNetworkMask r.
Definition IsGateway (r : Ipv4RoutingTableEntry) : bool := negb (m_gateway r =? Ipv4Address.GetZero).
Definition GetGateway (r : Ipv4RoutingTableEntry) : Z := m_gateway r.
Definition GetInterface (r : Ipv4RoutingTableEntry) : Z := m_interface r.

Definition CreateHostRouteTo (dest nextHop interface : Z) : Ipv4RoutingTableEntry :=
  mkEntry dest Ipv4Address.mask_GetOnes nextHop interface.
Definition CreateHostRouteOn (dest interface : Z) : Ipv4RoutingTableEntry :=
  mkEntry dest Ipv4Address.mask_GetOnes Ipv4Address.GetZero interface.
Definition CreateNetworkRouteTo (network networkMask nextHop interface : Z) : Ipv4RoutingTableEntry :=
  mkEntry network networkMask nextHop interface.
Definition CreateNetworkRouteOn (network networkMask interface : Z) : Ipv4RoutingTableEntry :=
  mkEntry network networkMask Ipv4Address.GetZero interface.
Definition CreateDefaultRoute (nextHop interface : Z) : Ipv4RoutingTableEntry :=
  mkEntry Ipv4Address.GetZero Ipv4Address.mask_GetZero nextHop interface.
Definition entry_eqb (a b : Ipv4RoutingTableEntry) : bool :=
  (GetDest a =? GetDest b) && (GetDestNetworkMask a =? GetDestNetworkMask b) &&
  (GetGateway a =? GetGateway b) && (GetInterface a =? GetInterface b).

(** The entry covers [dest]. *)
Definition matches (dest : Z) (r : Ipv4RoutingTableEntry) : bool :=
  Ipv4Address.mask_IsMatch (GetDestNetworkMask r) dest (GetDestNetwork r).

(** The test [oif != 0 && oif != m_ipv4->GetNetDevice (...)] that skips an entry. *)
Definition on_device (oif : option Z) (ipv4 : Ipv4) (r : Ipv4RoutingTableEntry) : res bool :=
  match oif with
  | None => mret true
  | Some _ => d ← GetNetDevice (GetInterface r) ipv4; mret (bool_decide (oif = d))
  end.

(** The loops that collect the entries that pass a test, on the device if one is given. *)
Fixpoint collect (test : Ipv4RoutingTableEntry -> res bool) (oif : option Z) (ipv4 : Ipv4)
    (l : list Ipv4RoutingTableEntry) : res (list Ipv4RoutingTableEntry) :=
  match l with
  | [] => mret []
  | r :: l' =>
      t ← test r;
      here ← (if (t : bool) then on_device oif ipv4 r else mret false);
      rest ← collect test oif ipv4 l';
      mret (if (here : bool) then r :: rest else rest)
  end.

(** ** Multicast entries *)

Record Ipv4MulticastRoutingTableEntry := mkMEntry {
  m_origin : Z; m_group : Z; m_inputInterface : Z; m_outputInterfaces : list Z }.
#[export] Instance Ipv4MulticastRoutingTableEntry_eq_dec : EqDecision Ipv4MulticastRoutingTableEntry.
Proof. solve_decision. Defined.

Definition GetOrigin (r : Ipv4MulticastRoutingTableEntry) : Z := m_origin r.
Definition GetGroup (r : Ipv4MulticastRoutingTableEntry) : Z := m_group r.
Definition GetInputInterface (r : Ipv4MulticastRoutingTableEntry) : Z := m_inputInterface r.
Definition GetNOutputInterfaces (r : Ipv4MulticastRoutingTableEntry) : Z := Z.of_nat (length (m_outputInterfaces r)).
Definition GetOutputInterface (n : Z) (r : Ipv4MulticastRoutingTableEntry) : res Z :=
  match m_outputInterfaces r !! Z.to_nat n with Some i => Ok i | None => Err AssertFailed end.
Definition GetOutputInterfaces (r : Ipv4MulticastRoutingTableEntry) : list Z := m_outputInterfaces r.
Definition CreateMulticastRoute (origin group inputInterface : Z) (outputInterfaces : list Z) :
    Ipv4MulticastRoutingTableEntry := mkMEntry origin group inputInterface outputInterfaces.
Definition mentry_eqb (a b : Ipv4MulticastRoutingTableEntry) : bool :=
  (GetOrigin a =? GetOrigin b) && (GetGroup a =? GetGroup b) &&
  (GetInputInterface a =? GetInputInterface b) && bool_decide (GetOutputInterfaces a = GetOutputInterfaces b).

(** ** Routes ([Ipv4Route], [Ipv4MulticastRoute]) *)

Record Ipv4Route := mkRoute { rt_dest : Z; rt_source : Z; rt_gateway : Z; rt_dev : option Z }.
#[export] Instance Ipv4Route_eq_dec : EqDecision Ipv4Route.
Proof. solve_decision. Defined.

(** [m_ttls] maps an output interface to its ttl. *)
Record Ipv4MulticastRoute := mkMRoute {
  mrt_group : Z; mrt_origin : Z; mrt_parent : Z; mrt_ttls : gmap Z Z }.

Definition MAX_TTL : Z := 255.
(** A ttl of [MAX_TTL] or more disables the interface. *)
Definition SetOutputTtl (oif ttl : Z) (m : gmap Z Z) : gmap Z Z :=
  if MAX_TTL <=? ttl then delete oif m else <[oif := ttl]> m.

(** ** Packets on the routing path

    [MyTag] ([src/internet/model/aarl-ipv4-routing.h]) is the packet tag that the
    load balancer adds: (leaf id, interface id). *)

Record tagged := mkTagged { t_packet : Packet; t_tag : option (Z * Z) }.

(** [Packet::AddPacketTag (MyTag)]: adding a second tag of a kind fails an assertion. *)
Definition AddPacketTag (leaf interface : Z) (p : tagged) : res tagged :=
  _ ← ns_assert (match t_tag p with None => true | Some _ => false end);
  mret (mkTagged (t_packet p) (Some (leaf, interface))).

Inductive SocketErrno :=
| ERROR_NOTERROR | ERROR_ISCONN | ERROR_NOTCONN | ERROR_MSGSIZE | ERROR_AGAIN | ERROR_SHUTDOWN | ERROR_OPNOTSUPP
| ERROR_AFNOSUPPORT | ERROR_INVAL | ERROR_BADF | ERROR_NOROUTETOHOST | ERROR_NODEV | ERROR_ADDRNOTAVAIL
| ERROR_ADDRINUSE.
#[export] Instance SocketErrno_eq_dec : EqDecision SocketErrno.
Proof. solve_decision. Defined.

(** The callbacks of [RouteInput]: [ucb], [mcb], [lcb] and [ecb]. *)
Inductive rcall :=
| CallForward (rt : Ipv4Route) (p : tagged) (h : Ipv4Header)
| CallMulticastForward (rt : Ipv4MulticastRoute) (p : tagged) (h : Ipv4Header)
| CallLocalDeliver (p : tagged) (h : Ipv4Header) (iif : Z)
| CallError (p : tagged) (h : Ipv4Header) (e : SocketErrno).

(** What [RouteInput] leaves: its value, the callbacks it made, the packet (tags
    are added to the caller's packet) and the protocol. *)
Definition routed (RP : Type) : Type := res (bool * list rcall * tagged * RP).

(** ** [Ipv4RoutingProtocol] *)

Class RoutingProtocol (RP : Type) := {
  (* the errno is [None] when [sockerr] is not assigned *)
  rp_RouteOutput : Ipv4 -> Ipv4Header -> option Z -> RP -> res (option Ipv4Route * option SocketErrno * RP);
  rp_RouteInput : Ipv4 -> tagged -> Ipv4Header -> option Z -> bool -> RP -> routed RP;
  rp_NotifyInterfaceUp : Ipv4 -> Z -> RP -> res RP;
  rp_NotifyInterfaceDown : Ipv4 -> Z -> RP -> res RP;
  rp_NotifyAddAddress : Ipv4 -> Z -> Ipv4InterfaceAddress -> RP -> res RP;
  rp_NotifyRemoveAddress : Ipv4 -> Z -> Ipv4InterfaceAddress -> RP -> res RP;
  rp_SetIpv4 : Ipv4 -> RP -> res RP;
  rp_DoDispose : RP -> RP
}.

(** The interface index of the device a packet came from. *)
Definition input_interface (ipv4 : Ipv4) (idev : option Z) : res Z :=
  let i := GetInterfaceForDevice idev ipv4 in
  _ ← ns_assert (0 <=? i); mret i.

(** Calls that keep the packet. *)
Definition is_delivery (c : rcall) : bool :=
  match c with CallForward _ _ _ | CallLocalDeliver _ _ _ => true | _ => false end.
Definition is_forward (c : rcall) : bool :=
  match c with CallForward _ _ _ => true | _ => false end.
