(* ===== verification/StaticRouting.v ===== *)
(** * Static routing ([src/internet/model/ipv4-static-routing.cc])

    A table of (entry, metric) pairs, longest prefix match with the least
    metric, and a table of multicast routes. *)

From S2P Require Import Prelude Bytes Packet Ipv4Ifaces Routing.
From S2P Require Ipv4Address Ipv4Header.
Import Ipv4Header (Ipv4Header).

Record Ipv4StaticRouting := mkStatic {
  m_networkRoutes : list (Ipv4RoutingTableEntry * Z);
  m_multicastRoutes : list Ipv4MulticastRoutingTableEntry;
  m_ipv4 : bool (* whether SetIpv4 was called *) }.

Definition new_static : Ipv4StaticRouting := mkStatic [] [] false.

Definition set_routes (l : list (Ipv4RoutingTableEntry * Z)) (s : Ipv4StaticRouting) : Ipv4StaticRouting :=
  mkStatic l (m_multicastRoutes s) (m_ipv4 s).
Definition set_multicast (l : list Ipv4MulticastRoutingTableEntry) (s : Ipv4StaticRouting) : Ipv4StaticRouting :=
  mkStatic (m_networkRoutes s) l (m_ipv4 s).

(** ** The tables *)

Definition LookupRoute (route : Ipv4RoutingTableEntry) (metric : Z) (s : Ipv4StaticRouting) : bool :=
  existsb (fun j => (GetDest j.1 =? GetDest route) &&
                    (GetDestNetworkMask j.1 =? GetDestNetworkMask route) &&
                    (GetGateway j.1 =? GetGateway route) &&
                    (GetInterface j.1 =? GetInterface route) && (j.2 =? metric)) (m_networkRoutes s).

Definition add_route (route : Ipv4RoutingTableEntry) (metric : Z) (s : Ipv4StaticRouting) : Ipv4StaticRouting :=
  if LookupRoute route metric s then s else set_routes (m_networkRoutes s ++ [(route, metric)]) s.

Definition AddNetworkRouteTo (network networkMask nextHop interface metric : Z) (s : Ipv4StaticRouting) :=
  add_route (CreateNetworkRouteTo network networkMask nextHop interface) metric s.
Definition AddNetworkRouteOn (network networkMask interface metric : Z) (s : Ipv4StaticRouting) :=
  add_route (CreateNetworkRouteOn network networkMask interface) metric s.
Definition AddHostRouteTo (dest nextHop interface metric : Z) (s : Ipv4StaticRouting) :=
  AddNetworkRouteTo dest Ipv4Address.mask_GetOnes nextHop interface metric s.
Definition AddHostRouteOn (dest interface metric : Z) (s : Ipv4StaticRouting) :=
  AddNetworkRouteOn dest Ipv4Address.mask_GetOnes interface metric s.
Definition SetDefaultRoute (nextHop interface metric : Z) (s : Ipv4StaticRouting) :=
  AddNetworkRouteTo 0 Ipv4Address.mask_GetZero nextHop interface metric s.
Definition AddMulticastRoute (origin group inputInterface : Z) (outs : list Z) (s : Ipv4StaticRouting) :=
  set_multicast (m_multicastRoutes s ++ [CreateMulticastRoute origin group inputInterface outs]) s.
(** "224.0.0.0" with mask "240.0.0.0"; no duplicate check. *)
Definition SetDefaultMulticastRoute (outputInterface : Z) (s : Ipv4StaticRouting) :=
  set_routes (m_networkRoutes s ++ [(CreateNetworkRouteOn 0xe0000000 0xf0000000 outputInterface, 0)]) s.

Definition GetNMulticastRoutes (s : Ipv4StaticRouting) : Z := Z.of_nat (length (m_multicastRoutes s)).
Definition GetMulticastRoute (index : Z) (s : Ipv4StaticRouting) : res Ipv4MulticastRoutingTableEntry :=
  _ ← ns_assert (index <? GetNMulticastRoutes s);
  deref (m_multicastRoutes s !! Z.to_nat index).
Fixpoint remove_multicast (origin group inputInterface : Z) (l : list Ipv4MulticastRoutingTableEntry) :
    option (list Ipv4MulticastRoutingTableEntry) :=
  match l with
  | [] => None
  | r :: l' =>
      if (origin =? GetOrigin r) && (group =? GetGroup r) && (inputInterface =? GetInputInterface r) then Some l'
      else match remove_multicast origin group inputInterface l' with Some l'' => Some (r :: l'') | None => None end
  end.
Definition RemoveMulticastRoute (origin group inputInterface : Z) (s : Ipv4StaticRouting) : bool * Ipv4StaticRouting :=
  match remove_multicast origin group inputInterface (m_multicastRoutes s) with
  | Some l => (true, set_multicast l s)
  | None => (false, s)
  end.
(** Silent for an index out of range. *)
Definition RemoveMulticastRouteAt (index : Z) (s : Ipv4StaticRouting) : Ipv4StaticRouting :=
  set_multicast (delete (Z.to_nat index) (m_multicastRoutes s)) s.

Definition GetNRoutes (s : Ipv4StaticRouting) : Z := Z.of_nat (length (m_networkRoutes s)).
Definition GetRoute (index : Z) (s : Ipv4StaticRouting) : res Ipv4RoutingTableEntry :=
  match m_networkRoutes s !! Z.to_nat index with Some j => Ok j.1 | None => Err AssertFailed end.
Definition GetMetric (index : Z) (s : Ipv4StaticRouting) : res Z :=
  match m_networkRoutes s !! Z.to_nat index with Some j => Ok j.2 | None => Err AssertFailed end.
Definition RemoveRoute (index : Z) (s : Ipv4StaticRouting) : res Ipv4StaticRouting :=
  match m_networkRoutes s !! Z.to_nat index with
  | Some _ => Ok (set_routes (delete (Z.to_nat index) (m_networkRoutes s)) s)
  | None => Err AssertFailed
  end.

(** The entry of prefix length 0 with the least metric, the last of equals. *)
Fixpoint default_route (l : list (Ipv4RoutingTableEntry * Z)) (shortest_metric : Z)
    (result : option Ipv4RoutingTableEntry) : option Ipv4RoutingTableEntry :=
  match l with
  | [] => result
  | (j, metric) :: r =>
      if negb (Ipv4Address.mask_GetPrefixLength (GetDestNetworkMask j) =? 0) then default_route r shortest_metric result
      else if shortest_metric <? metric then default_route r shortest_metric result
      else default_route r metric (Some j)
  end.
(** [None]: a default constructed entry. *)
Definition GetDefaultRoute (s : Ipv4StaticRouting) : option Ipv4RoutingTableEntry :=
  default_route (m_networkRoutes s) 0xffffffff None.

(** ** Lookup *)

(** The [Ipv4Route] made from an entry. *)
Definition make_route (ipv4 : Ipv4) (r : Ipv4RoutingTableEntry) : res Ipv4Route :=
  src ← SourceAddressSelection (GetInterface r) (GetDest r) ipv4;
  dev ← GetNetDevice (GetInterface r) ipv4;
  mret (mkRoute (GetDest r) src (GetGateway r) dev).

(** The loop of [LookupStatic], which stops at the first match of 32 bits. *)
Fixpoint lookup_loop (dest : Z) (oif : option Z) (ipv4 : Ipv4) (l : list (Ipv4RoutingTableEntry * Z))
    (longest_mask shortest_metric : Z) (rtentry : option Ipv4Route) : res (option Ipv4Route) :=
  match l with
  | [] => mret rtentry
  | (j, metric) :: r =>
      let masklen := Ipv4Address.mask_GetPrefixLength (GetDestNetworkMask j) in
      if negb (matches dest j) then lookup_loop dest oif ipv4 r longest_mask shortest_metric rtentry else
      here ← on_device oif ipv4 j;
      if negb (here : bool) then lookup_loop dest oif ipv4 r longest_mask shortest_metric rtentry else
      if masklen <? longest_mask then lookup_loop dest oif ipv4 r longest_mask shortest_metric rtentry else
      let shortest_metric := if longest_mask <? masklen then 0xffffffff else shortest_metric in
      if shortest_metric <? metric then lookup_loop dest oif ipv4 r masklen shortest_metric rtentry else
      rt ← make_route ipv4 j;
      if masklen =? 32 then mret (Some rt) else lookup_loop dest oif ipv4 r masklen metric (Some rt)
  end.

Definition LookupStatic (dest : Z) (oif : option Z) (ipv4 : Ipv4) (s : Ipv4StaticRouting) : res (option Ipv4Route) :=
  if Ipv4Address.IsLocalMulticast dest then
    _ ← ns_assert (match oif with Some _ => true | None => false end);
    a ← GetAddress (u32 (GetInterfaceForDevice oif ipv4)) 0 ipv4;
    mret (Some (mkRoute dest (m_local a) Ipv4Address.GetZero oif))
  else lookup_loop dest oif ipv4 (m_networkRoutes s) 0 0xffffffff None.

(** [Ipv4::IF_ANY] *)
Definition IF_ANY : Z := 0xffffffff.

(** Interface 0 (the loopback) is skipped. *)
Definition output_ttls (outs : list Z) : gmap Z Z :=
  fold_left (fun m i => if i =? 0 then m else SetOutputTtl i (MAX_TTL - 1) m) outs ∅.

Fixpoint multicast_loop (group interface : Z) (l : list Ipv4MulticastRoutingTableEntry) : option Ipv4MulticastRoute :=
  match l with
  | [] => None
  | r :: l' =>
      if (group =? GetGroup r) && ((interface =? IF_ANY) || (interface =? GetInputInterface r))
      then Some (mkMRoute (GetGroup r) (GetOrigin r) (GetInputInterface r) (output_ttls (m_outputInterfaces r)))
      else multicast_loop group interface l'
  end.
Definition LookupMulticast (origin group interface : Z) (s : Ipv4StaticRouting) : option Ipv4MulticastRoute :=
  multicast_loop group interface (m_multicastRoutes s).

(** ** The protocol *)

Definition RouteOutput (ipv4 : Ipv4) (header : Ipv4Header) (oif : option Z) (s : Ipv4StaticRouting) :
    res (option Ipv4Route * option SocketErrno * Ipv4StaticRouting) :=
  rt ← LookupStatic (Ipv4Header.GetDestination header) oif ipv4 s;
  mret (rt, Some (match rt with Some _ => ERROR_NOTERROR | None => ERROR_NOROUTETOHOST end), s).

(** [lcb]: whether a local delivery callback was given. *)
Definition RouteInput (ipv4 : Ipv4) (p : tagged) (header : Ipv4Header) (idev : option Z) (lcb : bool)
    (s : Ipv4StaticRouting) : routed Ipv4StaticRouting :=
  _ ← ns_assert (m_ipv4 s);
  iif ← input_interface ipv4 idev;
  let dest := Ipv4Header.GetDestination header in
  if Ipv4Address.IsMulticast dest then
    match LookupMulticast (Ipv4Header.GetSource header) dest iif s with
    | Some rt => mret (true, [CallMulticastForward rt p header], p, s)
    | None => mret (false, [], p, s)
    end
  else
  local ← IsDestinationAddress dest iif ipv4;
  if (local : bool) then
    if lcb then mret (true, [CallLocalDeliver p header iif], p, s) else mret (false, [], p, s)
  else
  fwd ← IsForwarding iif ipv4;
  if negb (fwd : bool) then mret (true, [CallError p header ERROR_NOROUTETOHOST], p, s) else
  rt ← LookupStatic dest None ipv4 s;
  match rt with
  | Some rt => mret (true, [CallForward rt p header], p, s)
  | None => mret (false, [], p, s)
  end.

Definition DoDispose (s : Ipv4StaticRouting) : Ipv4StaticRouting := mkStatic [] [] false.

Definition up_address (i : Z) (s : Ipv4StaticRouting) (a : Ipv4InterfaceAddress) : Ipv4StaticRouting :=
  if negb (m_local a =? UNINITIALIZED) && negb (m_mask a =? UNINITIALIZED) &&
     negb (m_mask a =? Ipv4Address.mask_GetOnes)
  then AddNetworkRouteOn (Ipv4Address.CombineMask (m_local a) (m_mask a)) (m_mask a) i 0 s
  else s.
Definition NotifyInterfaceUp (ipv4 : Ipv4) (i : Z) (s : Ipv4StaticRouting) : res Ipv4StaticRouting :=
  ifc ← deref (Ipv4Ifaces.GetInterface i ipv4);
  mret (fold_left (up_address i) (m_ifaddrs ifc) s).

Definition NotifyInterfaceDown (ipv4 : Ipv4) (i : Z) (s : Ipv4StaticRouting) : res Ipv4StaticRouting :=
  mret (set_routes (filter (fun j => GetInterface j.1 <> i) (m_networkRoutes s)) s).

Definition NotifyAddAddress (ipv4 : Ipv4) (interface : Z) (address : Ipv4InterfaceAddress)
    (s : Ipv4StaticRouting) : res Ipv4StaticRouting :=
  up ← IsUp interface ipv4;
  mret (if negb (up : bool) then s
        else if negb (m_local address =? UNINITIALIZED) && negb (m_mask address =? UNINITIALIZED)
        then AddNetworkRouteOn (Ipv4Address.CombineMask (m_local address) (m_mask address)) (m_mask address)
               interface 0 s
        else s).

(** The entry for the network of [address] on [interface]. *)
Definition is_network_of (interface : Z) (address : Ipv4InterfaceAddress) (r : Ipv4RoutingTableEntry) : bool :=
  (GetInterface r =? interface) && IsNetwork r &&
  (GetDestNetwork r =? Ipv4Address.CombineMask (m_local address) (m_mask address)) &&
  (GetDestNetworkMask r =? m_mask address).
Definition NotifyRemoveAddress (ipv4 : Ipv4) (interface : Z) (address : Ipv4InterfaceAddress)
    (s : Ipv4StaticRouting) : res Ipv4StaticRouting :=
  up ← IsUp interface ipv4;
  mret (if negb (up : bool) then s
        else set_routes (filter (fun j => is_network_of interface address j.1 = false) (m_networkRoutes s)) s).

(** The loop of [SetIpv4] over the interfaces [i], [i + 1], ... *)
Fixpoint notify_all (ipv4 : Ipv4) (n : nat) (i : Z) (s : Ipv4StaticRouting) : res Ipv4StaticRouting :=
  match n with
  | O => mret s
  | S n' =>
      up ← IsUp i ipv4;
      s' ← (if (up : bool) then NotifyInterfaceUp ipv4 i s else NotifyInterfaceDown ipv4 i s);
      notify_all ipv4 n' (i + 1) s'
  end.
Definition SetIpv4 (ipv4 : Ipv4) (s : Ipv4StaticRouting) : res Ipv4StaticRouting :=
  _ ← ns_assert (negb (m_ipv4 s));
  notify_all ipv4 (length (m_interfaces ipv4)) 0 (mkStatic (m_networkRoutes s) (m_multicastRoutes s) true).

#[export] Instance static_protocol : RoutingProtocol Ipv4StaticRouting := {|
  rp_RouteOutput := RouteOutput; rp_RouteInput := RouteInput;
  rp_NotifyInterfaceUp := NotifyInterfaceUp; rp_NotifyInterfaceDown := NotifyInterfaceDown;
  rp_NotifyAddAddress := NotifyAddAddress; rp_NotifyRemoveAddress := NotifyRemoveAddress;
  rp_SetIpv4 := SetIpv4; rp_DoDispose := DoDispose |}.

(** ** Longest prefix match

    [LookupStatic] against its specification: the entry it uses covers the
    destination, has the longest prefix and, below 32 bits, the least metric;
    of equal entries it is the last added, of host entries the first. *)

Definition masklen (r : Ipv4RoutingTableEntry) : Z := Ipv4Address.mask_GetPrefixLength (GetDestNetworkMask r).

Lemma prefix_loop_bound n mask tmp :
  0 <= tmp -> tmp + Z.of_nat n < 2 ^ 16 -> tmp <= Ipv4Address.prefix_loop n mask tmp <= tmp + Z.of_nat n.
Proof.
  revert mask tmp. induction n as [|n IH]; intros mask tmp H0 Hn; simpl; [lia|].
  destruct (mask =? 0); [lia|].
  assert (u16 (tmp + 1) = tmp + 1) as -> by (apply wrap_small; unfold in_range; lia).
  specialize (IH (u32 (Z.shiftl mask 1)) (tmp + 1)). lia.
Qed.

Lemma masklen_range r : 0 <= masklen r <= 32.
Proof. pose proof (prefix_loop_bound 32 (GetDestNetworkMask r) 0). unfold masklen, Ipv4Address.mask_GetPrefixLength. lia. Qed.

Section lookup.
Context (dest : Z) (oif : option Z) (ipv4 : Ipv4).

(** The entry covers the destination and leaves by the requested device. *)
Definition usable (r : Ipv4RoutingTableEntry) : Prop :=
  matches dest r = true /\ on_device oif ipv4 r = Ok true.

(** Every entry names an interface that has an address. *)
Definition routable (x : Ipv4RoutingTableEntry * Z) : Prop :=
  x.2 <= 0xffffffff /\ exists ifc a l, Ipv4Ifaces.GetInterface (GetInterface x.1) ipv4 = Some ifc /\
    m_ifaddrs ifc = a :: l.

Lemma routable_device x : routable x -> exists b, on_device oif ipv4 x.1 = Ok b.
Proof.
  intros (_ & ifc & a & l & Hi & _). unfold on_device, GetNetDevice. rewrite Hi. simpl.
  destruct oif; eauto.
Qed.

Lemma routable_route x : routable x -> exists rt, make_route ipv4 x.1 = Ok rt.
Proof.
  intros (_ & ifc & a & l & Hi & Ha).
  unfold make_route, SourceAddressSelection, GetNetDevice. rewrite Hi. simpl.
  unfold if_GetAddress. rewrite Ha. simpl. eauto.
Qed.

(** [x] beats or equals every usable entry of [pre], which come before it in
    the table, and beats every one of [post], which come after it. *)
Definition wins (pre : list (Ipv4RoutingTableEntry * Z)) (x : Ipv4RoutingTableEntry * Z)
    (post : list (Ipv4RoutingTableEntry * Z)) : Prop :=
  (forall y, y ∈ pre -> usable y.1 -> masklen y.1 < masklen x.1 \/ masklen y.1 = masklen x.1 /\ x.2 <= y.2) /\
  (forall y, y ∈ post -> usable y.1 -> masklen y.1 < masklen x.1 \/ masklen y.1 = masklen x.1 /\ x.2 < y.2).

Lemma wins_longest pre x post y :
  wins pre x post -> y ∈ pre ++ x :: post -> usable y.1 ->
  masklen y.1 < masklen x.1 \/ masklen y.1 = masklen x.1 /\ x.2 <= y.2.
Proof.
  intros [Hpre Hpost] [Hy|[->|Hy]%elem_of_cons]%elem_of_app Hu; [by apply Hpre|by right|].
  destruct (Hpost y Hy Hu); lia.
Qed.

(** The state of the loop after the entries [l]. *)
Definition loop_inv (l : list (Ipv4RoutingTableEntry * Z)) (longest metric : Z) (rt : option Ipv4Route) : Prop :=
  match rt with
  | None => longest = 0 /\ metric = 0xffffffff /\ (forall y, y ∈ l -> ~ usable y.1)
  | Some rt => exists pre j post, l = pre ++ (j, metric) :: post /\ usable j /\ make_route ipv4 j = Ok rt /\
                 longest = masklen j /\ masklen j < 32 /\ wins pre (j, metric) post
  end.

(** What the loop returns on the table [t]. *)
Definition lookup_spec (t : list (Ipv4RoutingTableEntry * Z)) (rt : option Ipv4Route) : Prop :=
  match rt with
  | None => forall y, y ∈ t -> ~ usable y.1
  | Some rt => exists pre j metric post, t = pre ++ (j, metric) :: post /\ usable j /\
      make_route ipv4 j = Ok rt /\ (forall y, y ∈ t -> usable y.1 -> masklen y.1 <= masklen j) /\
      if masklen j =? 32 then forall y, y ∈ pre -> usable y.1 -> masklen y.1 < 32
      else wins pre (j, metric) post
  end.

Lemma inv_skip l x longest metric rt :
  loop_inv l longest metric rt ->
  (usable x.1 -> masklen x.1 < longest \/ masklen x.1 = longest /\ metric < x.2) ->
  x.2 <= 0xffffffff -> loop_inv (l ++ [x]) longest metric rt.
Proof.
  intros Hinv Hx Hm. destruct rt as [rt|]; simpl in *.
  - destruct Hinv as (pre & j & post & -> & Hu & Hrt & -> & H32 & Hpre & Hpost). exists pre, j, (post ++ [x]).
    split_and!; try done; [by rewrite <-app_assoc|]. split; [done|].
    intros y [Hy| ->%list_elem_of_singleton]%elem_of_app Huy; [by apply Hpost|by apply Hx].
  - destruct Hinv as (-> & -> & Hn). split_and!; try done.
    intros y [Hy| ->%list_elem_of_singleton]%elem_of_app Huy; [by eapply Hn|].
    pose proof (masklen_range x.1). destruct (Hx Huy); lia.
Qed.

Lemma inv_longest l longest metric rt y :
  loop_inv l longest metric rt -> y ∈ l -> usable y.1 -> masklen y.1 <= longest.
Proof.
  intros Hinv Hy Hu. destruct rt as [rt|]; simpl in Hinv.
  - destruct Hinv as (pre & j & post & -> & _ & _ & -> & _ & Hw).
    destruct (wins_longest _ _ _ _ Hw Hy Hu); simpl in *; lia.
  - destruct Hinv as (_ & _ & Hn). by destruct (Hn y Hy).
Qed.

Lemma inv_take l longest metric rt j m rt' :
  loop_inv l longest metric rt -> usable j -> make_route ipv4 j = Ok rt' -> longest <= masklen j -> masklen j < 32 ->
  m <= (if longest <? masklen j then 0xffffffff else metric) ->
  loop_inv (l ++ [(j, m)]) (masklen j) m (Some rt').
Proof.
  intros Hinv Hu Hrt Hle H32 Hm. simpl. exists l, j, []. split_and!; try done. split; [|by intros y Hy%elem_of_nil].
  intros y Hy Huy. simpl.
  pose proof (inv_longest _ _ _ _ _ Hinv Hy Huy) as Hyl.
  destruct (longest <? masklen j) eqn:E; bool_to_Z; [lia|].
  assert (longest = masklen j) as -> by lia. destruct rt as [rt|]; simpl in Hinv.
  - destruct Hinv as (pre & j' & post & -> & _ & _ & El & _ & Hw).
    destruct (wins_longest _ _ _ _ Hw Hy Huy); simpl in *; lia.
  - destruct Hinv as (_ & _ & Hn). by destruct (Hn y Hy).
Qed.

Lemma lookup_loop_ok r : forall l longest metric rt,
  Forall routable r -> loop_inv l longest metric rt ->
  exists res, lookup_loop dest oif ipv4 r longest metric rt = Ok res /\ lookup_spec (l ++ r) res.
Proof.
  induction r as [|[j m] r IH]; intros l longest metric rt Hr Hinv; simpl.
  { exists rt. rewrite app_nil_r. split; [done|]. destruct rt as [rt|]; simpl in *; [|by destruct Hinv as (_ & _ & ?)].
    destruct Hinv as (pre & j & post & -> & Hu & Hrt & _ & H32 & Hw). exists pre, j, metric, post.
    split_and!; try done; [intros y Hy Huy; destruct (wins_longest _ _ _ _ Hw Hy Huy); simpl in *; lia|].
    rewrite (proj2 (Z.eqb_neq _ _)) by lia. done. }
  apply Forall_cons in Hr as [Hj Hr]. pose proof Hj as [Hm _]. simpl in Hm.
  assert (forall lg mt rt', loop_inv (l ++ [(j, m)]) lg mt rt' ->
    exists res, lookup_loop dest oif ipv4 r lg mt rt' = Ok res /\ lookup_spec (l ++ (j, m) :: r) res) as Hnext.
  { intros lg mt rt' H'. destruct (IH _ _ _ _ Hr H') as (res & E & Hs). exists res.
    by rewrite cons_middle, app_assoc. }
  destruct (matches dest j) eqn:Em; simpl;
    [|apply Hnext, inv_skip; try done; intros [? _]; simpl in *; congruence].
  destruct (routable_device _ Hj) as [here Eh]. simpl in Eh. rewrite Eh. simpl.
  destruct here; simpl; [|apply Hnext, inv_skip; try done; intros [_ ?]; simpl in *; congruence].
  assert (usable j) as Hu by done. fold (masklen j).
  destruct (masklen j <? longest) eqn:E1; bool_to_Z; [apply Hnext, inv_skip; try done; by left|].
  destruct (routable_route _ Hj) as [rt' Ert]. simpl in Ert.
  destruct (_ <? m) eqn:E2; bool_to_Z.
  - destruct (longest <? masklen j) eqn:E3; bool_to_Z; [lia|].
    assert (longest = masklen j) as -> by lia. apply Hnext, inv_skip; try done. intros _. right. by simpl.
  - rewrite Ert. simpl. destruct (masklen j =? 32) eqn:E4; bool_to_Z;
      [|apply Hnext; eapply inv_take; try done; pose proof (masklen_range j); lia].
    exists (Some rt'). split; [done|]. exists l, j, m, r. split_and!; try done.
    + intros y _ _. rewrite E4. apply masklen_range.
    + rewrite E4. intros y Hy Huy. destruct rt as [rt|]; simpl in Hinv.
      * destruct Hinv as (pre & j' & post & -> & _ & _ & _ & H32 & Hw).
        destruct (wins_longest _ _ _ _ Hw Hy Huy); simpl in *; lia.
      * destruct Hinv as (_ & _ & Hn). by destruct (Hn y Hy).
Qed.
End lookup.

(** C37. [LookupStatic] is longest prefix match: on a table whose entries name
    configured interfaces it returns, and the route it returns is made from an
    entry that covers the destination, leaves by the requested device and has
    the longest prefix of all such entries; among those of that length its
    metric is the least, and of those of that length and metric it is the last
    in the table, so the last added ([wins]: the entries before it have no
    smaller metric, those after it a greater one), except that the first host
    entry (32 bits) in the table is taken whatever its metric.  No route means
    no such entry. *)
Theorem LookupStatic_longest_prefix dest oif ipv4 (s : Ipv4StaticRouting) :
  Ipv4Address.IsLocalMulticast dest = false -> Forall (routable ipv4) (m_networkRoutes s) ->
  exists rt, LookupStatic dest oif ipv4 s = Ok rt /\ lookup_spec dest oif ipv4 (m_networkRoutes s) rt.
Proof.
  intros Hm Hr. unfold LookupStatic. rewrite Hm.
  destruct (lookup_loop_ok dest oif ipv4 (m_networkRoutes s) [] 0 0xffffffff None Hr) as (rt & E & Hs);
    [|by exists rt].
  split_and!; try done. by intros y Hy%elem_of_nil.
Qed.

(** The metric of a host route is ignored: of two host routes to the same
    destination, the one that was added first is used, whatever the metrics. *)
Theorem LookupStatic_ignores_host_metric dest gw1 if1 m1 gw2 if2 m2 ipv4 :
  Ipv4Address.IsLocalMulticast dest = false -> gw1 <> gw2 ->
  let s := AddHostRouteTo dest gw2 if2 m2 (AddHostRouteTo dest gw1 if1 m1 new_static) in
  Forall (routable ipv4) (m_networkRoutes s) ->
  exists rt, LookupStatic dest None ipv4 s = Ok (Some rt) /\ rt_gateway rt = gw1.
Proof.
  intros Hm Hne s Hr.
  assert (m_networkRoutes s = [(CreateHostRouteTo dest gw1 if1, m1); (CreateHostRouteTo dest gw2 if2, m2)]) as Hs.
  { unfold s, AddHostRouteTo, AddNetworkRouteTo, add_route, LookupRoute. simpl.
    rewrite (proj2 (Z.eqb_neq gw1 gw2) Hne), !andb_false_r. done. }
  rewrite Hs in Hr. apply Forall_cons in Hr as [Hr _]. pose proof Hr as [Hm1 _]. simpl in Hm1.
  destruct (routable_route ipv4 _ Hr) as [rt Hrt]. simpl in Hrt.
  exists rt. unfold LookupStatic. rewrite Hm, Hs. cbn [lookup_loop].
  assert (matches dest (CreateHostRouteTo dest gw1 if1) = true) as -> by apply Z.eqb_refl.
  assert (Ipv4Address.mask_GetPrefixLength (GetDestNetworkMask (CreateHostRouteTo dest gw1 if1)) = 32) as ->
    by reflexivity.
  cbn [negb on_device mbind res_bind mret res_ret Z.ltb Z.compare Z.eqb Pos.eqb].
  destruct (0xffffffff <? m1) eqn:E; bool_to_Z; [lia|].
  rewrite Hrt. split; [done|]. revert Hrt. unfold make_route.
  intros (src & _ & (dev & _ & [= <-])%bind_ok)%bind_ok. done.
Qed.

(** ** A concrete stack: a loopback and two interfaces *)

Definition if_with (dev a : Z) : Ipv4Interface :=
  mkIf true true 1 [new_address a 0xffffff00] (Some 1) (Some dev) true None.
Definition example_ipv4 : Ipv4 :=
  mkIpv4 [if_with 100 0x7f000001; if_with 101 0x0a010101; if_with 102 0x0a010201]
    (<[100 := 0]> (<[101 := 1]> (<[102 := 2]> ∅))) true true.

Definition example_table : Ipv4StaticRouting :=
  AddNetworkRouteTo 0x0a000000 0xff000000 0x0a0101fe 1 5
    (AddNetworkRouteTo 0x0a020000 0xffff0000 0x0a0102fe 2 7
      (AddNetworkRouteTo 0x0a020000 0xffff0000 0x0a0101fe 1 3 new_static)).

Lemma example_routable l :
  Forall (fun x => x.2 <= 0xffffffff /\ GetInterface x.1 ∈ [1; 2]) l -> Forall (routable example_ipv4) l.
Proof.
  intros H. eapply Forall_impl; [exact H|]. intros x [Hm Hi]. split; [done|].
  apply elem_of_cons in Hi as [->|Hi]; [|apply list_elem_of_singleton in Hi as ->]; eexists _, _, []; done.
Qed.

Lemma LookupStatic_longest_prefix_witness :
  exists rt, LookupStatic 0x0a020304 None example_ipv4 example_table = Ok (Some rt) /\
    rt_gateway rt = 0x0a0101fe /\
    lookup_spec 0x0a020304 None example_ipv4 (m_networkRoutes example_table) (Some rt).
Proof.
  destruct (LookupStatic_longest_prefix 0x0a020304 None example_ipv4 example_table) as (rt & E & Hs).
  - reflexivity.
  - apply example_routable, (bool_decide_unpack _). vm_compute. exact I.
  - exists (mkRoute 0x0a020000 0x0a010101 0x0a0101fe (Some 101)).
    assert (rt = Some (mkRoute 0x0a020000 0x0a010101 0x0a0101fe (Some 101))) as -> by
      (vm_compute in E; injection E as <-; reflexivity).
    split; [exact E|]. split; [reflexivity|exact Hs].
Defined.

Lemma LookupStatic_ignores_host_metric_witness :
  exists rt, LookupStatic 0x0a020304 None example_ipv4
    (AddHostRouteTo 0x0a020304 0x0a0102fe 2 1 (AddHostRouteTo 0x0a020304 0x0a0101fe 1 1000 new_static)) = Ok (Some rt) /\
    rt_gateway rt = 0x0a0101fe.
Proof.
  apply (LookupStatic_ignores_host_metric 0x0a020304 0x0a0101fe 1 1000 0x0a0102fe 2 1 example_ipv4).
  - reflexivity.
  - discriminate.
  - apply example_routable, (bool_decide_unpack _). vm_compute. exact I.
Defined.
