(* ===== verification/GlobalRouting.v ===== *)
(** * Global routing ([src/internet/model/ipv4-global-routing.cc])

    Host, network and external routes, looked up in this order; among equal
    candidates the first one, or a random one when [RandomEcmpRouting] is set. *)

From S2P Require Import Prelude Bytes Packet Ipv4Ifaces Routing.
From S2P Require Ipv4Address Ipv4Header.
Import Ipv4Header (Ipv4Header).

(** A random variable: [GetInteger min max] draws a number. *)
Class UniformRandom (R : Type) := GetInteger : Z -> Z -> R -> Z * R.

Section global.
Context {R : Type} `{UniformRandom R}.

Record Ipv4GlobalRouting := mkGlobal {
  m_randomEcmpRouting : bool;
  m_respondToInterfaceEvents : bool;
  m_rand : R;
  m_hostRoutes : list Ipv4RoutingTableEntry;
  m_networkRoutes : list Ipv4RoutingTableEntry;
  m_ASexternalRoutes : list Ipv4RoutingTableEntry;
  m_ipv4 : bool;
  m_recomputations : Z (* calls that rebuild the routes of every node *) }.

Definition new_global (rand : R) : Ipv4GlobalRouting := mkGlobal false false rand [] [] [] false 0.

Definition set_tables (h n x : list Ipv4RoutingTableEntry) (s : Ipv4GlobalRouting) : Ipv4GlobalRouting :=
  mkGlobal (m_randomEcmpRouting s) (m_respondToInterfaceEvents s) (m_rand s) h n x (m_ipv4 s) (m_recomputations s).
Definition set_rand (r : R) (s : Ipv4GlobalRouting) : Ipv4GlobalRouting :=
  mkGlobal (m_randomEcmpRouting s) (m_respondToInterfaceEvents s) r (m_hostRoutes s) (m_networkRoutes s)
    (m_ASexternalRoutes s) (m_ipv4 s) (m_recomputations s).
Definition set_recomputations (n : Z) (s : Ipv4GlobalRouting) : Ipv4GlobalRouting :=
  mkGlobal (m_randomEcmpRouting s) (m_respondToInterfaceEvents s) (m_rand s) (m_hostRoutes s) (m_networkRoutes s)
    (m_ASexternalRoutes s) (m_ipv4 s) n.

(** ** The tables *)

Definition AddHostRouteTo (dest nextHop interface : Z) (s : Ipv4GlobalRouting) : Ipv4GlobalRouting :=
  set_tables (m_hostRoutes s ++ [CreateHostRouteTo dest nextHop interface]) (m_networkRoutes s)
    (m_ASexternalRoutes s) s.
Definition AddHostRouteOn (dest interface : Z) (s : Ipv4GlobalRouting) : Ipv4GlobalRouting :=
  set_tables (m_hostRoutes s ++ [CreateHostRouteOn dest interface]) (m_networkRoutes s) (m_ASexternalRoutes s) s.
Definition AddNetworkRouteTo (network networkMask nextHop interface : Z) (s : Ipv4GlobalRouting) : Ipv4GlobalRouting :=
  set_tables (m_hostRoutes s) (m_networkRoutes s ++ [CreateNetworkRouteTo network networkMask nextHop interface])
    (m_ASexternalRoutes s) s.
Definition AddNetworkRouteOn (network networkMask interface : Z) (s : Ipv4GlobalRouting) : Ipv4GlobalRouting :=
  set_tables (m_hostRoutes s) (m_networkRoutes s ++ [CreateNetworkRouteOn network networkMask interface])
    (m_ASexternalRoutes s) s.
Definition AddASExternalRouteTo (network networkMask nextHop interface : Z) (s : Ipv4GlobalRouting) :
    Ipv4GlobalRouting :=
  set_tables (m_hostRoutes s) (m_networkRoutes s)
    (m_ASexternalRoutes s ++ [CreateNetworkRouteTo network networkMask nextHop interface]) s.

Definition GetNRoutes (s : Ipv4GlobalRouting) : Z :=
  u32 (Z.of_nat (length (m_hostRoutes s)) + Z.of_nat (length (m_networkRoutes s))
       + Z.of_nat (length (m_ASexternalRoutes s))).

(** An index counts the host routes, then the network and the external ones. *)
Definition GetRoute (index : Z) (s : Ipv4GlobalRouting) : res Ipv4RoutingTableEntry :=
  let h := Z.of_nat (length (m_hostRoutes s)) in
  let n := Z.of_nat (length (m_networkRoutes s)) in
  if index <? h then deref (m_hostRoutes s !! Z.to_nat index) else
  let index := u32 (index - h) in
  if index <? n then deref (m_networkRoutes s !! Z.to_nat index) else
  let index := u32 (index - n) in
  match m_ASexternalRoutes s !! Z.to_nat index with Some r => Ok r | None => Err AssertFailed end.

Definition RemoveRoute (index : Z) (s : Ipv4GlobalRouting) : res Ipv4GlobalRouting :=
  let h := Z.of_nat (length (m_hostRoutes s)) in
  let n := Z.of_nat (length (m_networkRoutes s)) in
  if index <? h then
    mret (set_tables (delete (Z.to_nat index) (m_hostRoutes s)) (m_networkRoutes s) (m_ASexternalRoutes s) s) else
  let index := u32 (index - h) in
  if index <? n then
    mret (set_tables (m_hostRoutes s) (delete (Z.to_nat index) (m_networkRoutes s)) (m_ASexternalRoutes s) s) else
  let index := u32 (index - n) in
  if index <? Z.of_nat (length (m_ASexternalRoutes s)) then
    mret (set_tables (m_hostRoutes s) (m_networkRoutes s) (delete (Z.to_nat index) (m_ASexternalRoutes s)) s)
  else Err AssertFailed.

(** ** Lookup *)

Definition host_test (dest : Z) (r : Ipv4RoutingTableEntry) : res bool :=
  _ ← ns_assert (IsHost r); mret (GetDest r =? dest).

(** The first external route that matches, on the device if one is given. *)
Fixpoint first_external (dest : Z) (oif : option Z) (ipv4 : Ipv4) (l : list Ipv4RoutingTableEntry) :
    res (list Ipv4RoutingTableEntry) :=
  match l with
  | [] => mret []
  | r :: l' =>
      here ← (if matches dest r then on_device oif ipv4 r else mret false);
      if (here : bool) then mret [r] else first_external dest oif ipv4 l'
  end.

Definition all_routes (dest : Z) (oif : option Z) (ipv4 : Ipv4) (s : Ipv4GlobalRouting) :
    res (list Ipv4RoutingTableEntry) :=
  hosts ← collect (host_test dest) oif ipv4 (m_hostRoutes s);
  nets ← match hosts with
         | [] => collect (fun r => mret (matches dest r)) oif ipv4 (m_networkRoutes s)
         | _ => mret hosts
         end;
  match nets with
  | [] => first_external dest oif ipv4 (m_ASexternalRoutes s)
  | _ => mret nets
  end.

(** The [Ipv4Route] made from an entry: the source is the interface's first address. *)
Definition make_route (ipv4 : Ipv4) (r : Ipv4RoutingTableEntry) : res Ipv4Route :=
  a ← GetAddress (GetInterface r) 0 ipv4;
  dev ← GetNetDevice (GetInterface r) ipv4;
  mret (mkRoute (GetDest r) (m_local a) (GetGateway r) dev).

Definition LookupGlobal (dest : Z) (oif : option Z) (ipv4 : Ipv4) (s : Ipv4GlobalRouting) :
    res (option Ipv4Route * Ipv4GlobalRouting) :=
  allRoutes ← all_routes dest oif ipv4 s;
  match allRoutes with
  | [] => mret (None, s)
  | _ =>
      let '(selectIndex, rand) :=
        if m_randomEcmpRouting s then GetInteger 0 (Z.of_nat (length allRoutes) - 1) (m_rand s)
        else (0, m_rand s) in
      r ← deref (allRoutes !! Z.to_nat selectIndex);
      rt ← make_route ipv4 r;
      mret (Some rt, set_rand rand s)
  end.

(** ** The protocol *)

Definition RouteOutput (ipv4 : Ipv4) (header : Ipv4Header) (oif : option Z) (s : Ipv4GlobalRouting) :
    res (option Ipv4Route * option SocketErrno * Ipv4GlobalRouting) :=
  let dest := Ipv4Header.GetDestination header in
  if Ipv4Address.IsMulticast dest then mret (None, None, s) else
  '(rt, s') ← LookupGlobal dest oif ipv4 s;
  mret (rt, Some (match rt with Some _ => ERROR_NOTERROR | None => ERROR_NOROUTETOHOST end), s').

Definition RouteInput (ipv4 : Ipv4) (p : tagged) (header : Ipv4Header) (idev : option Z) (lcb : bool)
    (s : Ipv4GlobalRouting) : routed Ipv4GlobalRouting :=
  iif ← input_interface ipv4 idev;
  let dest := Ipv4Header.GetDestination header in
  local ← IsDestinationAddress dest iif ipv4;
  if (local : bool) then
    if lcb then mret (true, [CallLocalDeliver p header iif], p, s) else mret (false, [], p, s)
  else
  fwd ← IsForwarding iif ipv4;
  if negb (fwd : bool) then mret (true, [CallError p header ERROR_NOROUTETOHOST], p, s) else
  '(rt, s') ← LookupGlobal dest None ipv4 s;
  match rt with
  | Some rt => mret (true, [CallForward rt p header], p, s')
  | None => mret (false, [], p, s')
  end.

Definition DoDispose (s : Ipv4GlobalRouting) : Ipv4GlobalRouting := set_tables [] [] [] s.

(** The four notifications: after the start of the simulation, and when asked to,
    the global routes are deleted and computed again. *)
Definition recompute (now : Z) (s : Ipv4GlobalRouting) : Ipv4GlobalRouting :=
  if m_respondToInterfaceEvents s && (0 <? now) then set_recomputations (m_recomputations s + 1) s else s.
Definition NotifyInterfaceUp (now i : Z) (s : Ipv4GlobalRouting) : Ipv4GlobalRouting := recompute now s.
Definition NotifyInterfaceDown (now i : Z) (s : Ipv4GlobalRouting) : Ipv4GlobalRouting := recompute now s.
Definition NotifyAddAddress (now interface : Z) (a : Ipv4InterfaceAddress) (s : Ipv4GlobalRouting) :=
  recompute now s.
Definition NotifyRemoveAddress (now interface : Z) (a : Ipv4InterfaceAddress) (s : Ipv4GlobalRouting) :=
  recompute now s.

Definition SetIpv4 (s : Ipv4GlobalRouting) : res Ipv4GlobalRouting :=
  _ ← ns_assert (negb (m_ipv4 s));
  mret (mkGlobal (m_randomEcmpRouting s) (m_respondToInterfaceEvents s) (m_rand s) (m_hostRoutes s)
    (m_networkRoutes s) (m_ASexternalRoutes s) true (m_recomputations s)).

#[export] Instance global_protocol (now : Z) : RoutingProtocol Ipv4GlobalRouting := {|
  rp_RouteOutput := RouteOutput; rp_RouteInput := RouteInput;
  rp_NotifyInterfaceUp := fun _ i s => mret (NotifyInterfaceUp now i s);
  rp_NotifyInterfaceDown := fun _ i s => mret (NotifyInterfaceDown now i s);
  rp_NotifyAddAddress := fun _ i a s => mret (NotifyAddAddress now i a s);
  rp_NotifyRemoveAddress := fun _ i a s => mret (NotifyRemoveAddress now i a s);
  rp_SetIpv4 := fun _ s => SetIpv4 s; rp_DoDispose := DoDispose |}.
End global.
Arguments Ipv4GlobalRouting R : clear implicits.
