(* ===== verification/GlobalRouter.v ===== *)
(** * Link state advertisements and global routers
      ([src/internet/model/global-router-interface.cc], [global-route-manager.cc])

    What a router advertises to the route computation, and how it discovers it
    from the devices, channels and IPv4 stacks around it.  [net] is the network
    as the code reads it: devices and channels are named by numbers, and the
    nodes are those of [NodeList], in order.  A node that has no IPv4 stack or
    no [GlobalRouter] has [None] there. *)

From S2P Require Import Prelude Ipv4Ifaces Routing.
From S2P Require Ipv4Address GlobalRouting.
Import GlobalRouting (Ipv4GlobalRouting).

(** ** Link records *)

Inductive LinkType := UnknownLink | PointToPoint | TransitNetwork | StubNetwork | VirtualLink.
#[export] Instance LinkType_eq_dec : EqDecision LinkType.
Proof. solve_decision. Defined.

Record GlobalRoutingLinkRecord := mkLink {
  m_linkType : LinkType; m_linkId : Z; m_linkData : Z; m_metric : Z (* uint16_t *) }.
#[export] Instance GlobalRoutingLinkRecord_eq_dec : EqDecision GlobalRoutingLinkRecord.
Proof. solve_decision. Defined.

(** ** Advertisements *)

Inductive LSType := UnknownLSA | RouterLSA | NetworkLSA | SummaryLSA | SummaryLSA_ASBR | ASExternalLSAs.
#[export] Instance LSType_eq_dec : EqDecision LSType.
Proof. solve_decision. Defined.
Inductive SPFStatus := LSA_SPF_NOT_EXPLORED | LSA_SPF_CANDIDATE | LSA_SPF_IN_SPFTREE.
#[export] Instance SPFStatus_eq_dec : EqDecision SPFStatus.
Proof. solve_decision. Defined.

Record GlobalRoutingLSA := mkLSA {
  m_lsType : LSType; m_linkStateId : Z; m_advertisingRtr : Z;
  m_linkRecords : list GlobalRoutingLinkRecord; m_networkLSANetworkMask : Z;
  m_attachedRouters : list Z; m_status : SPFStatus; m_node_id : Z }.

Definition SetStatus (st : SPFStatus) (a : GlobalRoutingLSA) : GlobalRoutingLSA :=
  mkLSA (m_lsType a) (m_linkStateId a) (m_advertisingRtr a) (m_linkRecords a) (m_networkLSANetworkMask a)
    (m_attachedRouters a) st (m_node_id a).
Definition AddLinkRecord (l : GlobalRoutingLinkRecord) (a : GlobalRoutingLSA) : GlobalRoutingLSA :=
  mkLSA (m_lsType a) (m_linkStateId a) (m_advertisingRtr a) (m_linkRecords a ++ [l]) (m_networkLSANetworkMask a)
    (m_attachedRouters a) (m_status a) (m_node_id a).
Definition AddAttachedRouter (addr : Z) (a : GlobalRoutingLSA) : GlobalRoutingLSA :=
  mkLSA (m_lsType a) (m_linkStateId a) (m_advertisingRtr a) (m_linkRecords a) (m_networkLSANetworkMask a)
    (m_attachedRouters a ++ [addr]) (m_status a) (m_node_id a).
Definition GetNLinkRecords (a : GlobalRoutingLSA) : nat := length (m_linkRecords a).
Definition GetLinkRecord (n : nat) (a : GlobalRoutingLSA) : res GlobalRoutingLinkRecord :=
  match m_linkRecords a !! n with Some l => Ok l | None => Err AssertFailed end.
Definition GetNAttachedRouters (a : GlobalRoutingLSA) : nat := length (m_attachedRouters a).
Definition GetAttachedRouter (n : nat) (a : GlobalRoutingLSA) : res Z :=
  match m_attachedRouters a !! n with Some r => Ok r | None => Err AssertFailed end.
Definition IsEmpty (a : GlobalRoutingLSA) : bool := bool_decide (m_linkRecords a = []).

(** The first values that [DiscoverLSAs] and [BuildNetworkLSAs] give an advertisement. *)
Definition router_lsa (routerId node : Z) : GlobalRoutingLSA :=
  mkLSA RouterLSA routerId routerId [] 0 [] LSA_SPF_NOT_EXPLORED node.
Definition network_lsa (addrLocal routerId maskLocal node : Z) : GlobalRoutingLSA :=
  mkLSA NetworkLSA addrLocal routerId [] maskLocal [] LSA_SPF_NOT_EXPLORED node.
Definition external_lsa (routerId : Z) (route : Ipv4RoutingTableEntry) : GlobalRoutingLSA :=
  mkLSA ASExternalLSAs (GetDestNetwork route) routerId [] (GetDestNetworkMask route) [] LSA_SPF_NOT_EXPLORED 0.

(** ** The network around the routers *)

(** A device: its node, its channel, what [IsBroadcast] and [IsPointToPoint]
    answer, whether it is a loopback device, and the ports of a bridge. *)
Record NetDevice := mkDevice {
  nd_node : nat; nd_channel : option Z; nd_broadcast : bool; nd_pointToPoint : bool; nd_loopback : bool;
  nd_bridge : option (list Z) }.

Section router.
Context {R : Type}.

Record GlobalRouter := mkRouter {
  m_routerId : Z; m_LSAs : list GlobalRoutingLSA; m_injectedRoutes : list Ipv4RoutingTableEntry;
  m_routingProtocol : option (Ipv4GlobalRouting R) }.
Record rnode := mkRnode {
  rn_systemId : Z; rn_devices : list Z; rn_ipv4 : option Ipv4; rn_router : option GlobalRouter }.
Record net := mkNet {
  n_devs : gmap Z NetDevice; n_chans : gmap Z (list Z); n_nodes : list rnode }.

Definition set_LSAs (l : list GlobalRoutingLSA) (r : GlobalRouter) : GlobalRouter :=
  mkRouter (m_routerId r) l (m_injectedRoutes r) (m_routingProtocol r).
Definition set_injected (l : list Ipv4RoutingTableEntry) (r : GlobalRouter) : GlobalRouter :=
  mkRouter (m_routerId r) (m_LSAs r) l (m_routingProtocol r).
Definition SetRoutingProtocol (gr : Ipv4GlobalRouting R) (r : GlobalRouter) : GlobalRouter :=
  mkRouter (m_routerId r) (m_LSAs r) (m_injectedRoutes r) (Some gr).
Definition set_router (r : GlobalRouter) (n : rnode) : rnode :=
  mkRnode (rn_systemId n) (rn_devices n) (rn_ipv4 n) (Some r).
Definition set_node (k : nat) (n : rnode) (w : net) : net :=
  mkNet (n_devs w) (n_chans w) (<[k := n]> (n_nodes w)).

(** [GlobalRouteManager::AllocateRouterId]: the value and the next one. *)
Definition AllocateRouterId (routerId : Z) : Z * Z := (routerId, u32 (routerId + 1)).
Definition new_router (routerId : Z) : GlobalRouter := mkRouter routerId [] [] None.
Definition DoDispose (r : GlobalRouter) : GlobalRouter := mkRouter (m_routerId r) (m_LSAs r) [] None.
Definition ClearLSAs (r : GlobalRouter) : GlobalRouter := set_LSAs [] r.
Definition GetRouterId (r : GlobalRouter) : Z := m_routerId r.
Definition GetNumLSAs (r : GlobalRouter) : nat := length (m_LSAs r).
(** What [GetLSA (n, lsa)] copies into the empty advertisement it is given. *)
Definition GetLSA (n : nat) (r : GlobalRouter) : option GlobalRoutingLSA := m_LSAs r !! n.

(** ** Injected routes *)

Definition InjectRoute (network networkMask : Z) (r : GlobalRouter) : GlobalRouter :=
  set_injected (m_injectedRoutes r ++ [CreateNetworkRouteOn network networkMask 1]) r.
Definition GetInjectedRoute (index : nat) (r : GlobalRouter) : res Ipv4RoutingTableEntry :=
  match m_injectedRoutes r !! index with Some e => Ok e | None => Err AssertFailed end.
Definition GetNInjectedRoutes (r : GlobalRouter) : nat := length (m_injectedRoutes r).
Definition RemoveInjectedRoute (index : nat) (r : GlobalRouter) : res GlobalRouter :=
  _ ← ns_assert (index <? length (m_injectedRoutes r))%nat;
  mret (set_injected (delete index (m_injectedRoutes r)) r).
Definition same_network (network networkMask : Z) (e : Ipv4RoutingTableEntry) : bool :=
  (GetDestNetwork e =? network) && (GetDestNetworkMask e =? networkMask).
Fixpoint erase_route (network networkMask : Z) (l : list Ipv4RoutingTableEntry) :
    bool * list Ipv4RoutingTableEntry :=
  match l with
  | [] => (false, [])
  | e :: l' =>
      if same_network network networkMask e then (true, l')
      else let '(found, l') := erase_route network networkMask l' in (found, e :: l')
  end.
Definition WithdrawRoute (network networkMask : Z) (r : GlobalRouter) : bool * GlobalRouter :=
  let '(found, l) := erase_route network networkMask (m_injectedRoutes r) in (found, set_injected l r).

(** ** Devices, interfaces and bridges *)

Section lookup.
Variable w : net.

Definition device (d : Z) : res NetDevice := deref (n_devs w !! d).
Definition node (n : nat) : res rnode := deref (n_nodes w !! n).
Definition channel (c : Z) : res (list Z) := deref (n_chans w !! c).
(** [NS_ABORT_MSG_UNLESS] of the [Ipv4] object of a node *)
Definition ipv4_of (n : rnode) : res Ipv4 :=
  match rn_ipv4 n with Some i => Ok i | None => Err FatalError end.

Fixpoint interface_for (nd : Z) (l : list Ipv4Interface) (i : Z) : option Z :=
  match l with
  | [] => None
  | ifc :: l' => if bool_decide (Ipv4Interface.m_device ifc = Some nd) then Some i else interface_for nd l' (i + 1)
  end.
Definition FindInterfaceForDevice (n : rnode) (nd : Z) : option Z :=
  match rn_ipv4 n with Some ip => interface_for nd (m_interfaces ip) 0 | None => None end.

(** The first bridge of the node among whose ports the device is. *)
Fixpoint bridge_with_port (nd : Z) (l : list Z) : res (option (Z * list Z)) :=
  match l with
  | [] => mret None
  | ndTest :: l' =>
      d ← device ndTest;
      match nd_bridge d with
      | Some ports => if bool_decide (nd ∈ ports) then mret (Some (ndTest, ports)) else bridge_with_port nd l'
      | None => bridge_with_port nd l'
      end
  end.
Definition NetDeviceIsBridged (nd : Z) : res (option (Z * list Z)) :=
  d ← device nd; n ← node (nd_node d); bridge_with_port nd (rn_devices n).

Definition GetAdjacent (nd : Z) (ch : list Z) : res Z :=
  match ch with
  | [nd1; nd2] => if nd1 =? nd then mret nd2 else if nd2 =? nd then mret nd1 else Err AssertFailed
  | _ => Err AssertFailed
  end.

(** The first address of the interface of the device, when it has one and is up. *)
Definition address_on (n : rnode) (nd : Z) : res (option Z) :=
  match rn_ipv4 n, FindInterfaceForDevice n nd with
  | Some ip, Some i =>
      up ← IsUp i ip;
      if negb (up : bool) then mret None else a ← GetAddress i 0 ip; mret (Some (GetLocal a))
  | _, _ => mret None
  end.

(** *** Walks over bridged links

    The bridges visited are the state; [fuel] bounds the bridges crossed. *)
Abbreviation B := (st (list Z)).

Definition MarkBridgeAsVisited (b : Z) : B unit := update (fun v => v ++ [b]).
Definition BridgeHasAlreadyBeenVisited (b : Z) : B bool := gets (fun v => bool_decide (b ∈ v)).
Definition visit_once (b : Z) : B unit :=
  v ← BridgeHasAlreadyBeenVisited b;
  if (v : bool) then lift (Err FatalError) else MarkBridgeAsVisited b.

Fixpoint another_port (rec : Z -> B bool) (ndOther : Z) (ports : list Z) : B bool :=
  match ports with
  | [] => mret false
  | p :: r =>
      if p =? ndOther then another_port rec ndOther r
      else found ← rec p; if (found : bool) then mret true else another_port rec ndOther r
  end.
Fixpoint another_device (rec : Z -> B bool) (nd : Z) (l : list Z) : B bool :=
  match l with
  | [] => mret false
  | ndOther :: r =>
      if ndOther =? nd then another_device rec nd r
      else
      bnd ← lift (NetDeviceIsBridged ndOther);
      match bnd with
      | Some (b, ports) => _ ← visit_once b; another_port rec ndOther ports
      | None =>
          d ← lift (device ndOther);
          n ← lift (node (nd_node d));
          match rn_router n with Some _ => mret true | None => another_device rec nd r end
      end
  end.
Fixpoint AnotherRouterOnLink (fuel : nat) (nd : Z) : B bool :=
  match fuel with
  | O => lift (Err OutOfFuel)
  | S fuel =>
      d ← lift (device nd);
      match nd_channel d with
      | None => mret false
      | Some c =>
          ch ← lift (channel c);
          _ ← lift (ns_assert (negb (bool_decide (ch = []))));
          another_device (AnotherRouterOnLink fuel) nd ch
      end
  end.

(** "255.255.255.255" *)
Definition NO_ROUTER : Z := 0xffffffff.
Definition lower (addrOther desigRtr : Z) : Z := if addrOther <? desigRtr then addrOther else desigRtr.

Fixpoint designated_port (rec : Z -> B Z) (ndOther : Z) (ports : list Z) (desigRtr : Z) : B Z :=
  match ports with
  | [] => mret desigRtr
  | p :: r =>
      if p =? ndOther then designated_port rec ndOther r desigRtr
      else addrOther ← rec p; designated_port rec ndOther r (lower addrOther desigRtr)
  end.
(** The candidate that the router of the node gives, through the device or its bridge. *)
Definition router_address (n : rnode) (nd : Z) : res (option Z) :=
  match rn_router n with Some _ => address_on n nd | None => mret None end.
(** The interface of a bridge is down: the [continue] skips its ports. *)
Definition bridge_down (n : rnode) (b : Z) : res bool :=
  match rn_router n, rn_ipv4 n, FindInterfaceForDevice n b with
  | Some _, Some ip, Some i => up ← IsUp i ip; mret (negb up)
  | _, _, _ => mret false
  end.
Fixpoint designated_device (rec : Z -> B Z) (ndLocal : Z) (l : list Z) (desigRtr : Z) : B Z :=
  match l with
  | [] => mret desigRtr
  | ndOther :: r =>
      d ← lift (device ndOther);
      n ← lift (node (nd_node d));
      bnd ← lift (NetDeviceIsBridged ndOther);
      match bnd with
      | Some (b, ports) =>
          if ndLocal =? ndOther then designated_device rec ndLocal r desigRtr
          else
          down ← lift (bridge_down n b);
          if (down : bool) then designated_device rec ndLocal r desigRtr
          else
          a ← lift (router_address n b);
          let desigRtr := match a with Some a => lower a desigRtr | None => desigRtr end in
          _ ← visit_once b;
          desigRtr ← designated_port rec ndOther ports desigRtr;
          designated_device rec ndLocal r desigRtr
      | None =>
          a ← lift (router_address n ndOther);
          designated_device rec ndLocal r (match a with Some a => lower a desigRtr | None => desigRtr end)
      end
  end.
Fixpoint FindDesignatedRouterForLink (fuel : nat) (ndLocal : Z) : B Z :=
  match fuel with
  | O => lift (Err OutOfFuel)
  | S fuel =>
      d ← lift (device ndLocal);
      c ← lift (deref (nd_channel d));
      ch ← lift (channel c);
      _ ← lift (ns_assert (negb (bool_decide (ch = []))));
      designated_device (FindDesignatedRouterForLink fuel) ndLocal ch NO_ROUTER
  end.

Fixpoint non_bridged_ports (rec : Z -> B (list Z)) (ch : Z) (ports : list Z) : B (list Z) :=
  match ports with
  | [] => mret []
  | p :: r =>
      d ← lift (device p);
      if bool_decide (nd_channel d = Some ch) then non_bridged_ports rec ch r
      else
      c ← lift (deref (nd_channel d));
      here ← rec c; rest ← non_bridged_ports rec ch r; mret (here ++ rest)
  end.
Fixpoint non_bridged_devices (rec : Z -> B (list Z)) (ch : Z) (l : list Z) : B (list Z) :=
  match l with
  | [] => mret []
  | nd :: r =>
      bnd ← lift (NetDeviceIsBridged nd);
      here ← (match bnd with
              | Some (b, ports) =>
                  v ← BridgeHasAlreadyBeenVisited b;
                  if (v : bool) then mret [nd]
                  else _ ← MarkBridgeAsVisited b; non_bridged_ports rec ch ports
              | None => mret [nd]
              end);
      rest ← non_bridged_devices rec ch r;
      mret (here ++ rest)
  end.
Fixpoint FindAllNonBridgedDevicesOnLink (fuel : nat) (ch : Z) : B (list Z) :=
  match fuel with
  | O => lift (Err OutOfFuel)
  | S fuel => l ← lift (channel ch); non_bridged_devices (FindAllNonBridgedDevicesOnLink fuel) ch l
  end.

(** A walk from [ClearBridgesVisited]: each bridge is crossed once. *)
Definition walk {A} (m : nat -> B A) : res A :=
  '(a, _) ← m (S (size (n_devs w))) []; mret a.

(** ** Discovery *)

(** [FindInterfaceForDevice] with the abort that follows it, and the first address. *)
Definition interface_of (n : rnode) (nd : Z) : res (Ipv4 * Z * Ipv4InterfaceAddress) :=
  ip ← ipv4_of n;
  i ← (match FindInterfaceForDevice n nd with Some i => Ok i | None => Err FatalError end);
  a ← GetAddress i 0 ip;
  mret (ip, i, a).

Definition ProcessSingleBroadcastLink (nd : Z) (lsa : GlobalRoutingLSA) (c : list Z) :
    res (GlobalRoutingLSA * list Z) :=
  d ← device nd;
  n ← node (nd_node d);
  '(ip, i, a) ← interface_of n nd;
  metricLocal ← GetMetric i ip;
  let addrLocal := GetLocal a in
  let maskLocal := GetMask a in
  another ← walk (fun fuel => AnotherRouterOnLink fuel nd);
  if negb (another : bool) then
    mret (AddLinkRecord (mkLink StubNetwork (Ipv4Address.CombineMask addrLocal maskLocal) maskLocal metricLocal) lsa, c)
  else
  desigRtr ← walk (fun fuel => FindDesignatedRouterForLink fuel nd);
  _ ← (if desigRtr =? NO_ROUTER then mret tt
       else ns_require (Ipv4Address.CombineMask addrLocal maskLocal =? Ipv4Address.CombineMask desigRtr maskLocal));
  let c := if desigRtr =? addrLocal then c ++ [nd] else c in
  mret (AddLinkRecord (mkLink TransitNetwork desigRtr addrLocal metricLocal) lsa, c).

(** The body of [ProcessBridgedBroadcastLink] is compiled out. *)
Definition ProcessBridgedBroadcastLink (nd : Z) (lsa : GlobalRoutingLSA) (c : list Z) :
    res (GlobalRoutingLSA * list Z) :=
  d ← device nd;
  _ ← ns_assert (bool_decide (is_Some (nd_bridge d)));
  mret (lsa, c).
Definition ProcessBroadcastLink (nd : Z) (lsa : GlobalRoutingLSA) (c : list Z) : res (GlobalRoutingLSA * list Z) :=
  d ← device nd;
  match nd_bridge d with
  | Some _ => ProcessBridgedBroadcastLink nd lsa c
  | None => ProcessSingleBroadcastLink nd lsa c
  end.

Definition ProcessPointToPointLink (ndLocal : Z) (lsa : GlobalRoutingLSA) : res GlobalRoutingLSA :=
  dl ← device ndLocal;
  nl ← node (nd_node dl);
  '(ipv4Local, i, al) ← interface_of nl ndLocal;
  metricLocal ← GetMetric i ipv4Local;
  c ← deref (nd_channel dl);
  ch ← channel c;
  ndRemote ← GetAdjacent ndLocal ch;
  dr ← device ndRemote;
  nr ← node (nd_node dr);
  _ ← ipv4_of nr;
  match rn_router nr with
  | None => mret lsa
  | Some rtrRemote =>
      '(ipv4Remote, interfaceRemote, ar) ← interface_of nr ndRemote;
      up ← IsUp interfaceRemote ipv4Remote;
      let lsa :=
        if (up : bool) then AddLinkRecord (mkLink PointToPoint (GetRouterId rtrRemote) (GetLocal al) metricLocal) lsa
        else lsa in
      mret (AddLinkRecord (mkLink StubNetwork (GetLocal ar) (GetMask ar) metricLocal) lsa)
  end.

Definition forwards (nd : Z) (ip : Ipv4) : bool :=
  existsb (fun i => bool_decide (Ipv4Interface.m_device i = Some nd) && if_IsUp i && if_IsForwarding i)
    (m_interfaces ip).

(** The body of the loop over the devices of [DiscoverLSAs]. *)
Definition discover_device (n : rnode) (ip : Ipv4) (nd : Z) (s : GlobalRoutingLSA * list Z) :
    res (GlobalRoutingLSA * list Z) :=
  d ← device nd;
  if nd_loopback d then mret s else
  b ← NetDeviceIsBridged nd;
  _ ← (match b with Some _ => ns_require (bool_decide (FindInterfaceForDevice n nd = None)) | None => mret tt end);
  if negb (forwards nd ip) then mret s
  else if nd_broadcast d && negb (nd_pointToPoint d) then ProcessBroadcastLink nd s.1 s.2
  else if nd_pointToPoint d then lsa ← ProcessPointToPointLink nd s.1; mret (lsa, s.2)
  else Err AssertFailed.
Fixpoint discover_devices (n : rnode) (ip : Ipv4) (l : list Z) (s : GlobalRoutingLSA * list Z) :
    res (GlobalRoutingLSA * list Z) :=
  match l with
  | [] => mret s
  | nd :: l' => s' ← discover_device n ip nd s; discover_devices n ip l' s'
  end.

(** The loop of [BuildNetworkLSAs] over the devices of the link. *)
Fixpoint attach_routers (ndLocal addrLocal : Z) (l : list Z) (lsa : GlobalRoutingLSA) : res GlobalRoutingLSA :=
  match l with
  | [] => mret lsa
  | tempNd :: r =>
      if tempNd =? ndLocal then attach_routers ndLocal addrLocal r (AddAttachedRouter addrLocal lsa)
      else
      d ← device tempNd;
      n ← node (nd_node d);
      a ← router_address n tempNd;
      attach_routers ndLocal addrLocal r (match a with Some a => AddAttachedRouter a lsa | None => lsa end)
  end.
Definition network_LSA_of (routerId ndLocal : Z) : res GlobalRoutingLSA :=
  d ← device ndLocal;
  n ← node (nd_node d);
  '(_, _, a) ← interface_of n ndLocal;
  c ← deref (nd_channel d);
  ch ← channel c;
  _ ← ns_assert (negb (bool_decide (ch = [])));
  l ← walk (fun fuel => FindAllNonBridgedDevicesOnLink fuel c);
  attach_routers ndLocal (GetLocal a) l (network_lsa (GetLocal a) routerId (GetMask a) (Z.of_nat (nd_node d))).
Fixpoint BuildNetworkLSAs (routerId : Z) (c : list Z) : res (list GlobalRoutingLSA) :=
  match c with
  | [] => mret []
  | ndLocal :: r => a ← network_LSA_of routerId ndLocal; l ← BuildNetworkLSAs routerId r; mret (a :: l)
  end.

(** The advertisements that [DiscoverLSAs] leaves in the router [r] of the [k]-th node. *)
Definition discovered (k : nat) (n : rnode) (r : GlobalRouter) : res (list GlobalRoutingLSA) :=
  ip ← ipv4_of n;
  '(lsa, c) ← discover_devices n ip (rn_devices n) (router_lsa (m_routerId r) (Z.of_nat k), []);
  nets ← BuildNetworkLSAs (m_routerId r) c;
  mret (lsa :: nets ++ (external_lsa (m_routerId r) <$> m_injectedRoutes r)).
End lookup.

Definition DiscoverLSAs (k : nat) : st net nat :=
  w ← gets id;
  n ← lift (node w k);
  r ← lift (deref (rn_router n));
  let r := ClearLSAs r in
  l ← lift (discovered w k n r);
  _ ← update (set_node k (set_router (set_LSAs l r) n));
  mret (length l).
End router.
Arguments GlobalRouter R : clear implicits.
Arguments rnode R : clear implicits.
Arguments net R : clear implicits.
