(* ===== verification/RouteManager.v ===== *)
(** * The computation of the global routes
      ([src/internet/model/global-route-manager-impl.cc], [candidate-queue.cc],
      [ipv4-global-routing-helper.cc])

    The link state database, the vertices of the shortest path tree, the queue
    of candidates and the calculation, which runs once for each router and
    writes the routes of its node.  Vertices are objects on the heap: a pointer
    is the key of a map, [0] is null, and using a freed pointer is undefined.
    The advertisements belong to the database; a pointer to one is its key. *)

From S2P Require Import Prelude Ipv4Ifaces Routing GlobalRouter.
From S2P Require Ipv4Address GlobalRouting.
Import GlobalRouting (Ipv4GlobalRouting).

(** ** Vertices *)

(** [VertexUnknown] is the type of a vertex without an advertisement, which no
    code makes. *)
Inductive VertexType := VertexRouter | VertexNetwork.
#[export] Instance VertexType_eq_dec : EqDecision VertexType.
Proof. solve_decision. Defined.

(** [m_vertexType] is not assigned for an advertisement that is neither of a
    router nor of a network. *)
Record SPFVertex := mkVertex {
  m_vertexType : option VertexType; m_vertexId : Z; m_lsa : Z; m_distanceFromRoot : Z; m_rootOif : Z;
  m_nextHop : Z; m_ecmpRootExits : list (Z * Z); m_parents : list Z; m_children : list Z;
  m_vertexProcessed : bool }.

Definition SPF_INFINITY : Z := 0xffffffff.

Definition type_of (t : LSType) : option VertexType :=
  match t with RouterLSA => Some VertexRouter | NetworkLSA => Some VertexNetwork | _ => None end.
(** [SPFVertex (lsa)] *)
Definition new_vertex (key : Z) (lsa : GlobalRoutingLSA) : SPFVertex :=
  mkVertex (type_of (m_lsType lsa)) (m_linkStateId lsa) key SPF_INFINITY (to_signed 32 SPF_INFINITY) 0 [] [] [] false.

Definition SetDistanceFromRoot (d : Z) (x : SPFVertex) : SPFVertex :=
  mkVertex (m_vertexType x) (m_vertexId x) (m_lsa x) d (m_rootOif x) (m_nextHop x) (m_ecmpRootExits x)
    (m_parents x) (m_children x) (m_vertexProcessed x).
Definition set_exits (l : list (Z * Z)) (x : SPFVertex) : SPFVertex :=
  mkVertex (m_vertexType x) (m_vertexId x) (m_lsa x) (m_distanceFromRoot x) (m_rootOif x) (m_nextHop x) l
    (m_parents x) (m_children x) (m_vertexProcessed x).
Definition set_parents (l : list Z) (x : SPFVertex) : SPFVertex :=
  mkVertex (m_vertexType x) (m_vertexId x) (m_lsa x) (m_distanceFromRoot x) (m_rootOif x) (m_nextHop x)
    (m_ecmpRootExits x) l (m_children x) (m_vertexProcessed x).
Definition set_children (l : list Z) (x : SPFVertex) : SPFVertex :=
  mkVertex (m_vertexType x) (m_vertexId x) (m_lsa x) (m_distanceFromRoot x) (m_rootOif x) (m_nextHop x)
    (m_ecmpRootExits x) (m_parents x) l (m_vertexProcessed x).
Definition SetVertexProcessed (b : bool) (x : SPFVertex) : SPFVertex :=
  mkVertex (m_vertexType x) (m_vertexId x) (m_lsa x) (m_distanceFromRoot x) (m_rootOif x) (m_nextHop x)
    (m_ecmpRootExits x) (m_parents x) (m_children x) b.
Definition SetRootExitDirection (nextHop id : Z) (x : SPFVertex) : SPFVertex :=
  mkVertex (m_vertexType x) (m_vertexId x) (m_lsa x) (m_distanceFromRoot x) id nextHop [(nextHop, id)]
    (m_parents x) (m_children x) (m_vertexProcessed x).
Definition SetParent (p : Z) : SPFVertex -> SPFVertex := set_parents [p].
Definition AddChild (c : Z) (x : SPFVertex) : SPFVertex := set_children (m_children x ++ [c]) x.
Definition GetParent (i : nat) (x : SPFVertex) : Z := default 0 (m_parents x !! i).
Definition GetNRootExitDirections (x : SPFVertex) : nat := length (m_ecmpRootExits x).
Definition GetRootExitDirection_at (i : nat) (x : SPFVertex) : res (Z * Z) :=
  match m_ecmpRootExits x !! i with Some e => Ok e | None => Err AssertFailed end.
Definition GetRootExitDirection (x : SPFVertex) : res (Z * Z) :=
  _ ← ns_assert (length (m_ecmpRootExits x) <=? 1)%nat; GetRootExitDirection_at 0 x.
Definition InheritAllRootExitDirections (v x : SPFVertex) : SPFVertex := set_exits (m_ecmpRootExits v) x.

(** ** [std::list::sort], [unique] and [std::upper_bound]

    A stable sort is the insertion of the elements, in order, each after the
    elements that are not greater.  [upper_bound] is a binary search: on a
    sorted list it finds the first element greater than the new one. *)
Section sort.
Context {A : Type} (less : A -> A -> bool).
Fixpoint insert_upper (x : A) (l : list A) : list A :=
  match l with
  | [] => [x]
  | y :: r => if less x y then x :: l else y :: insert_upper x r
  end.
Definition list_sort (l : list A) : list A := fold_left (fun s x => insert_upper x s) l [].
Fixpoint list_unique `{EqDecision A} (l : list A) : list A :=
  match l with
  | [] => []
  | x :: r => x :: match list_unique r with
                   | y :: r' => if bool_decide (x = y) then r' else y :: r'
                   | [] => []
                   end
  end.
End sort.

(** [operator <] of [NodeExit_t], a pair of an address and an interface *)
Definition exit_less (a b : Z * Z) : bool := (a.1 <? b.1) || ((a.1 =? b.1) && (a.2 <? b.2)).

Definition MergeParent (v x : SPFVertex) : SPFVertex :=
  set_parents (list_unique (list_sort Z.ltb (m_parents x ++ m_parents v))) x.
Definition MergeRootExitDirections (v x : SPFVertex) : SPFVertex :=
  set_exits (list_unique (list_sort exit_less (m_ecmpRootExits x ++ m_ecmpRootExits v))) x.

Definition CompareSPFVertex (v1 v2 : SPFVertex) : bool :=
  if m_distanceFromRoot v1 <? m_distanceFromRoot v2 then true
  else if m_distanceFromRoot v1 =? m_distanceFromRoot v2 then
    bool_decide (m_vertexType v1 = Some VertexNetwork) && bool_decide (m_vertexType v2 = Some VertexRouter)
  else false.

(** [operator new]: an address that no live vertex has.  The order of the
    addresses is the one that [MergeParent] sorts by. *)
Class Allocator := {
  fresh : gmap Z SPFVertex -> Z;
  fresh_new h : h !! fresh h = None;
  fresh_not_null h : fresh h <> 0 }.

(** ** The manager *)

Section manager.
Context {R : Type} `{Allocator}.

(** The candidates are a local variable of [SPFCalculate]. *)
Record manager := mkManager {
  m_database : gmap Z GlobalRoutingLSA;
  m_extdatabase : list GlobalRoutingLSA;
  m_spfroot : Z;
  m_vertices : gmap Z SPFVertex;
  m_candidates : list Z;
  m_net : net R }.
Abbreviation M := (st manager).

Definition set_database (db : gmap Z GlobalRoutingLSA) (s : manager) : manager :=
  mkManager db (m_extdatabase s) (m_spfroot s) (m_vertices s) (m_candidates s) (m_net s).
Definition set_extdatabase (l : list GlobalRoutingLSA) (s : manager) : manager :=
  mkManager (m_database s) l (m_spfroot s) (m_vertices s) (m_candidates s) (m_net s).
Definition set_spfroot (p : Z) (s : manager) : manager :=
  mkManager (m_database s) (m_extdatabase s) p (m_vertices s) (m_candidates s) (m_net s).
Definition set_vertices (h : gmap Z SPFVertex) (s : manager) : manager :=
  mkManager (m_database s) (m_extdatabase s) (m_spfroot s) h (m_candidates s) (m_net s).
Definition set_candidates (l : list Z) (s : manager) : manager :=
  mkManager (m_database s) (m_extdatabase s) (m_spfroot s) (m_vertices s) l (m_net s).
Definition set_net (w : net R) (s : manager) : manager :=
  mkManager (m_database s) (m_extdatabase s) (m_spfroot s) (m_vertices s) (m_candidates s) w.

Definition new_manager (w : net R) : manager := mkManager ∅ [] 0 ∅ [] w.

(** *** The database *)

Definition Initialize : M unit :=
  update (fun s => set_database (SetStatus LSA_SPF_NOT_EXPLORED <$> m_database s) s).
Definition Insert (addr : Z) (lsa : GlobalRoutingLSA) : M unit :=
  if bool_decide (m_lsType lsa = ASExternalLSAs) then
    update (fun s => set_extdatabase (m_extdatabase s ++ [lsa]) s)
  else
    update (fun s => set_database
      (match m_database s !! addr with Some _ => m_database s | None => <[addr := lsa]> (m_database s) end) s).
Definition lookup_LSA (addr : Z) : M (option GlobalRoutingLSA) := gets (fun s => m_database s !! addr).
(** The advertisement behind a pointer *)
Definition lsa_at (key : Z) : M GlobalRoutingLSA := l ← lookup_LSA key; lift (deref l).
Definition set_status (key : Z) (t : SPFStatus) : M unit :=
  update (fun s => set_database (alter (SetStatus t) key (m_database s)) s).

Definition has_transit (addr : Z) (lsa : GlobalRoutingLSA) : bool :=
  existsb (fun l => bool_decide (m_linkType l = TransitNetwork) && (m_linkData l =? addr)) (m_linkRecords lsa).
(** The entries in the order of a [std::map]. *)
Definition in_order (db : gmap Z GlobalRoutingLSA) : list (Z * GlobalRoutingLSA) :=
  list_sort (fun a b => a.1 <? b.1) (map_to_list db).
Definition GetLSAByLinkData (addr : Z) : M (option Z) :=
  gets (fun s => fst <$> List.find (fun e => has_transit addr e.2) (in_order (m_database s))).

(** *** The heap *)

Definition vertex (p : Z) : M SPFVertex := x ← gets (fun s => m_vertices s !! p); lift (deref x).
Definition on_vertex (p : Z) (f : SPFVertex -> SPFVertex) : M unit :=
  x ← vertex p; update (fun s => set_vertices (<[p := f x]> (m_vertices s)) s).
Definition vertex_type (p : Z) : M VertexType := x ← vertex p; lift (deref (m_vertexType x)).
Definition vertex_lsa (p : Z) : M GlobalRoutingLSA := x ← vertex p; lsa_at (m_lsa x).
(** [new SPFVertex (lsa)] *)
Definition make_vertex (key : Z) : M Z :=
  lsa ← lsa_at key;
  p ← gets (fun s => fresh (m_vertices s));
  _ ← update (fun s => set_vertices (<[p := new_vertex key lsa]> (m_vertices s)) s);
  mret p.

Definition remove_child (c q : Z) : M unit :=
  on_vertex q (fun y => set_children (filter (fun d => d <> c) (m_children y)) y).
(** [while (m_children.size () > 0)] of the destructor *)
Fixpoint delete_children (del : Z -> M unit) (n : nat) (p : Z) : M unit :=
  x ← vertex p;
  match m_children x with
  | [] => mret tt
  | c :: _ => match n with O => lift (Err OutOfFuel) | S n => _ ← del c; delete_children del n p end
  end.
(** [delete]: the destructor, then the memory is released. *)
Fixpoint delete_vertex (fuel : nat) (p : Z) : M unit :=
  match fuel with
  | O => lift (Err OutOfFuel)
  | S fuel =>
      x ← vertex p;
      _ ← each (remove_child p) (m_parents x);
      _ ← delete_children (delete_vertex fuel) (length (m_children x)) p;
      update (fun s => set_vertices (delete p (m_vertices s)) s)
  end.
Definition destroy (p : Z) : M unit :=
  n ← gets (fun s => size (m_vertices s)); delete_vertex n p.

Fixpoint ClearVertexProcessed (fuel : nat) (p : Z) : M unit :=
  match fuel with
  | O => lift (Err OutOfFuel)
  | S fuel =>
      x ← vertex p;
      _ ← each (ClearVertexProcessed fuel) (m_children x);
      on_vertex p (SetVertexProcessed false)
  end.

(** *** The candidates *)

Definition with_vertices (l : list Z) : M (list (Z * SPFVertex)) := fun s =>
  match mapM (fun p => pair p <$> m_vertices s !! p) l with
  | Some l => Ok (l, s)
  | None => Err UndefinedBehaviour
  end.
Definition vertex_less (a b : Z * SPFVertex) : bool := CompareSPFVertex a.2 b.2.
Definition Push (p : Z) : M unit :=
  x ← vertex p;
  l ← (q ← gets m_candidates; with_vertices q);
  update (set_candidates (insert_upper vertex_less (p, x) l).*1).
Definition Reorder : M unit :=
  l ← (q ← gets m_candidates; with_vertices q);
  update (set_candidates (list_sort vertex_less l).*1).
(** Null when there is no candidate. *)
Definition Pop : M Z :=
  q ← gets m_candidates;
  match q with [] => mret 0 | p :: r => _ ← update (set_candidates r); mret p end.
Definition Find (addr : Z) : M Z :=
  l ← (q ← gets m_candidates; with_vertices q);
  mret (match List.find (fun e => m_vertexId e.2 =? addr) l with Some e => e.1 | None => 0 end).

(** *** The nodes of the routers *)

Fixpoint index_of (f : rnode R -> bool) (l : list (rnode R)) (i : nat) : option nat :=
  match l with [] => None | n :: r => if f n then Some i else index_of f r (S i) end.
Definition is_router (routerId : Z) (n : rnode R) : bool :=
  match rn_router n with Some r => GetRouterId r =? routerId | None => false end.
(** The first node whose router has the identifier. *)
Definition router_index (routerId : Z) : M (option nat) :=
  gets (fun s => index_of (is_router routerId) (n_nodes (m_net s)) 0).
Definition node_at (k : nat) : M (rnode R) := n ← gets (fun s => n_nodes (m_net s) !! k); lift (deref n).
Definition check {A} (o : option A) : M A := lift (match o with Some a => Ok a | None => Err AssertFailed end).
Definition root_id : M Z :=
  p ← gets m_spfroot; _ ← lift (ns_assert (negb (p =? 0))); x ← vertex p; mret (m_vertexId x).
(** Changes the routes of the [k]-th node. *)
Definition on_routes (k : nat) (f : Ipv4GlobalRouting R -> Ipv4GlobalRouting R) : M unit :=
  n ← node_at k;
  r ← lift (deref (rn_router n));
  gr ← check (m_routingProtocol r);
  update (fun s => set_net (set_node k (set_router (SetRoutingProtocol (f gr) r) n) (m_net s)) s).
(** [GetRoutingProtocol] of the router of the node, and the assertion that follows *)
Definition has_routes (k : nat) : M unit :=
  n ← node_at k; r ← lift (deref (rn_router n)); _ ← check (m_routingProtocol r); mret tt.
Definition add_routes (k : nat) (add : Z -> Z -> Ipv4GlobalRouting R -> Ipv4GlobalRouting R)
    (exits : list (Z * Z)) : M unit :=
  each (fun e => if 0 <=? e.2 then on_routes k (add e.1 e.2) else mret tt) exits.

(** A call of [FindOutgoingInterfaceId] in [SPFNexthopCalculation] reads the root
    through [m_spfroot], which is not null there. *)
Definition FindOutgoingInterfaceId (a amask : Z) : M Z :=
  routerId ← root_id;
  k ← router_index routerId;
  match k with
  | None => mret (-1)
  | Some k => n ← node_at k; ip ← check (rn_ipv4 n); mret (GetInterfaceForPrefix a amask ip)
  end.
(** [uint32_t outIf], then a parameter of type [int32_t] *)
Definition as_interface (i : Z) : Z := to_signed 32 (u32 i).

(** *** Routes *)

(** What the [SPFIntraAdd...] functions do for the node [k] of the root. *)
Definition router_routes (k : nat) (lsa : GlobalRoutingLSA) (exits : list (Z * Z)) : M unit :=
  n ← node_at k;
  _ ← check (rn_ipv4 n);
  each (fun lr =>
    if bool_decide (m_linkType lr = PointToPoint) then
      _ ← has_routes k; add_routes k (GlobalRouting.AddHostRouteTo (m_linkData lr)) exits
    else mret tt) (m_linkRecords lsa).
Definition SPFIntraAddRouter (v : Z) : M unit :=
  routerId ← root_id;
  k ← router_index routerId;
  match k with
  | None => mret tt
  | Some k => lsa ← vertex_lsa v; x ← vertex v; router_routes k lsa (m_ecmpRootExits x)
  end.

Definition network_routes (k : nat) (tempip tempmask : Z) (exits : list (Z * Z)) : M unit :=
  n ← node_at k;
  _ ← check (rn_ipv4 n);
  _ ← has_routes k;
  add_routes k (GlobalRouting.AddNetworkRouteTo tempip tempmask) exits.
(** This loop does not stop at the node it finds. *)
Definition SPFIntraAddTransit (v : Z) : M unit :=
  routerId ← root_id;
  w ← gets m_net;
  each (fun k =>
    n ← node_at k;
    if is_router routerId n then
      lsa ← vertex_lsa v; x ← vertex v;
      network_routes k (Ipv4Address.CombineMask (m_linkStateId lsa) (m_networkLSANetworkMask lsa))
        (m_networkLSANetworkMask lsa) (m_ecmpRootExits x)
    else mret tt) (seq 0 (length (n_nodes w))).

Definition SPFIntraAddStub (l : GlobalRoutingLinkRecord) (v : Z) : M unit :=
  routerId ← root_id;
  x ← vertex v;
  if m_vertexId x =? routerId then mret tt
  else
  k ← router_index routerId;
  match k with
  | None => mret tt
  | Some k =>
      _ ← vertex_lsa v;
      network_routes k (Ipv4Address.CombineMask (m_linkId l) (m_linkData l)) (m_linkData l) (m_ecmpRootExits x)
  end.
Fixpoint SPFProcessStubs (fuel : nat) (v : Z) : M unit :=
  match fuel with
  | O => lift (Err OutOfFuel)
  | S fuel =>
      t ← vertex_type v;
      _ ← (match t with
           | VertexRouter =>
               rlsa ← vertex_lsa v;
               each (fun l => if bool_decide (m_linkType l = StubNetwork) then SPFIntraAddStub l v else mret tt)
                 (m_linkRecords rlsa)
           | VertexNetwork => mret tt
           end);
      x ← vertex v;
      each (fun c =>
        y ← vertex c;
        if m_vertexProcessed y then mret tt
        else _ ← SPFProcessStubs fuel c; on_vertex c (SetVertexProcessed true)) (m_children x)
  end.

Definition SPFAddASExternal (extlsa : GlobalRoutingLSA) (v : Z) : M unit :=
  routerId ← root_id;
  x ← vertex v;
  if m_vertexId x =? routerId then mret tt
  else
  k ← router_index routerId;
  match k with
  | None => mret tt
  | Some k =>
      n ← node_at k;
      _ ← check (rn_ipv4 n);
      _ ← vertex_lsa v;
      _ ← has_routes k;
      add_routes k (GlobalRouting.AddASExternalRouteTo
        (Ipv4Address.CombineMask (m_linkStateId extlsa) (m_networkLSANetworkMask extlsa))
        (m_networkLSANetworkMask extlsa)) (m_ecmpRootExits x)
  end.
Fixpoint ProcessASExternals (fuel : nat) (extlsa : GlobalRoutingLSA) (v : Z) : M unit :=
  match fuel with
  | O => lift (Err OutOfFuel)
  | S fuel =>
      t ← vertex_type v;
      _ ← (match t with
           | VertexRouter =>
               rlsa ← vertex_lsa v;
               if m_linkStateId rlsa =? m_advertisingRtr extlsa then SPFAddASExternal extlsa v else mret tt
           | VertexNetwork => mret tt
           end);
      x ← vertex v;
      each (fun c =>
        y ← vertex c;
        if m_vertexProcessed y then mret tt
        else _ ← ProcessASExternals fuel extlsa c; on_vertex c (SetVertexProcessed true)) (m_children x)
  end.

(** *** The shortest path tree *)

(** The links of the advertisement to the vertex [w], from index [i] on; [found]
    and [skip] are the two flags of the loop. *)
Fixpoint next_link (wid : Z) (found skip : bool) (l : list GlobalRoutingLinkRecord) :
    option GlobalRoutingLinkRecord :=
  match l with
  | [] => None
  | r :: l' =>
      if m_linkId r =? wid then
        if negb found then next_link wid true skip l'
        else if skip then next_link wid found false l' else Some r
      else next_link wid found skip l'
  end.
Definition SPFGetNextLink (v w : Z) (prev_link : option GlobalRoutingLinkRecord) :
    M (option GlobalRoutingLinkRecord) :=
  lsa ← vertex_lsa v;
  y ← vertex w;
  mret (match prev_link with
        | None => next_link (m_vertexId y) true false (m_linkRecords lsa)
        | Some _ => next_link (m_vertexId y) false true (m_linkRecords lsa)
        end).

(** [while ((linkRemote = SPFGetNextLink (w, v, linkRemote)))] *)
Fixpoint each_link_back (fuel : nat) (v w : Z) (linkRemote : option GlobalRoutingLinkRecord) : M unit :=
  match fuel with
  | O => lift (Err OutOfFuel)
  | S fuel =>
      l ← SPFGetNextLink w v linkRemote;
      match l with
      | None => mret tt
      | Some r =>
          x ← vertex v;
          e ← lift (GetRootExitDirection x);
          _ ← on_vertex w (SetRootExitDirection (m_linkData r) (as_interface e.2));
          each_link_back fuel v w (Some r)
      end
  end.
(** The loop makes two rounds at most, or it never ends. *)
Definition LINK_BACK_FUEL : nat := 3.

Definition SPFNexthopCalculation (v w : Z) (l : option GlobalRoutingLinkRecord) (distance : Z) : M bool :=
  root ← gets m_spfroot;
  done ← (
    if v =? root then
      t ← vertex_type w;
      match t with
      | VertexRouter =>
          l ← check l;
          linkRemote ← SPFGetNextLink w v None;
          r ← lift (deref linkRemote);
          outIf ← FindOutgoingInterfaceId (m_linkData l) Ipv4Address.mask_GetOnes;
          _ ← on_vertex w (SetRootExitDirection (m_linkData r) (as_interface outIf));
          _ ← on_vertex w (SetDistanceFromRoot distance);
          _ ← on_vertex w (SetParent v);
          mret false
      | VertexNetwork =>
          w_lsa ← vertex_lsa w;
          _ ← lift (ns_assert (bool_decide (m_lsType w_lsa = NetworkLSA)));
          outIf ← FindOutgoingInterfaceId (m_linkStateId w_lsa) (m_networkLSANetworkMask w_lsa);
          _ ← on_vertex w (SetRootExitDirection Ipv4Address.GetZero (as_interface outIf));
          _ ← on_vertex w (SetDistanceFromRoot distance);
          _ ← on_vertex w (SetParent v);
          mret true
      end
    else
      t ← vertex_type v;
      match t with
      | VertexNetwork =>
          x ← vertex v;
          if GetParent 0 x =? root then
            tw ← vertex_type w;
            _ ← lift (ns_assert (bool_decide (tw = VertexRouter)));
            _ ← each_link_back LINK_BACK_FUEL v w None;
            mret false
          else
            e ← lift (GetRootExitDirection x);
            _ ← on_vertex w (SetRootExitDirection e.1 e.2);
            mret false
      | VertexRouter =>
          x ← vertex v;
          _ ← on_vertex w (InheritAllRootExitDirections x);
          mret false
      end);
  if (done : bool) then mret true
  else
  _ ← on_vertex w (SetDistanceFromRoot distance);
  _ ← on_vertex w (SetParent v);
  mret true.

Definition SPFVertexAddParent (v : Z) : M unit :=
  x ← vertex v; each (fun p => on_vertex p (AddChild v)) (m_parents x).

(** The advertisement [w_lsa] that the [i]-th record of [v] leads to, and [l];
    [None] where the loop continues with the next record. *)
Definition link_target (v : Z) (i : nat) : M (option (Z * option GlobalRoutingLinkRecord)) :=
  t ← vertex_type v;
  lsa ← vertex_lsa v;
  match t with
  | VertexRouter =>
      l ← lift (GetLinkRecord i lsa);
      match m_linkType l with
      | StubNetwork => mret None
      | PointToPoint | TransitNetwork => w ← lookup_LSA (m_linkId l); _ ← check w; mret (Some (m_linkId l, Some l))
      | _ => lift (Err AssertFailed)
      end
  | VertexNetwork =>
      a ← lift (GetAttachedRouter i lsa);
      w ← GetLSAByLinkData a;
      mret (match w with Some w => Some (w, None) | None => None end)
  end.
Definition link_distance (v : Z) (l : option GlobalRoutingLinkRecord) : M Z :=
  lsa ← vertex_lsa v;
  x ← vertex v;
  if bool_decide (m_lsType lsa = RouterLSA) then l ← check l; mret (u32 (m_distanceFromRoot x + m_metric l))
  else mret (m_distanceFromRoot x).

Definition new_candidate (v w : Z) (l : option GlobalRoutingLinkRecord) (distance : Z) : M unit :=
  p ← make_vertex w;
  ok ← SPFNexthopCalculation v p l distance;
  if (ok : bool) then _ ← set_status w LSA_SPF_CANDIDATE; Push p else lift (Err AssertFailed).
Definition merge_candidate (v w cw : Z) (l : option GlobalRoutingLinkRecord) (distance : Z) : M unit :=
  p ← make_vertex w;
  _ ← SPFNexthopCalculation v p l distance;
  x ← vertex p;
  _ ← on_vertex cw (MergeRootExitDirections x);
  _ ← on_vertex cw (MergeParent x);
  _ ← SPFVertexAddParent p;
  destroy p.
Definition shorten_candidate (v cw : Z) (l : option GlobalRoutingLinkRecord) (distance : Z) : M unit :=
  ok ← SPFNexthopCalculation v cw l distance;
  if (ok : bool) then Reorder else mret tt.

(** The body of the loop of [SPFNext]. *)
Definition examine (v : Z) (i : nat) : M unit :=
  t ← link_target v i;
  match t with
  | None => mret tt
  | Some (w, l) =>
      w_lsa ← lsa_at w;
      match m_status w_lsa with
      | LSA_SPF_IN_SPFTREE => mret tt
      | LSA_SPF_NOT_EXPLORED => distance ← link_distance v l; new_candidate v w l distance
      | LSA_SPF_CANDIDATE =>
          distance ← link_distance v l;
          cw ← Find (m_linkStateId w_lsa);
          x ← vertex cw;
          if m_distanceFromRoot x <? distance then mret tt
          else if m_distanceFromRoot x =? distance then merge_candidate v w cw l distance
          else shorten_candidate v cw l distance
      end
  end.
Definition SPFNext (v : Z) : M unit :=
  t ← vertex_type v;
  lsa ← vertex_lsa v;
  each (examine v)
    (seq 0 (match t with VertexRouter => GetNLinkRecords lsa | VertexNetwork => GetNAttachedRouters lsa end)).

(** The links that [CheckForStubNode] counts, the last of which it keeps. *)
Definition transit_links (lsa : GlobalRoutingLSA) : list GlobalRoutingLinkRecord :=
  filter (fun l => m_linkType l = TransitNetwork \/ m_linkType l = PointToPoint) (m_linkRecords lsa).
Definition link_back (routerId : Z) (l : GlobalRoutingLinkRecord) : bool :=
  bool_decide (m_linkType l = PointToPoint) && (m_linkId l =? routerId).
Definition CheckForStubNode (root : Z) : M bool :=
  rlsa ← lsa_at root;
  match transit_links rlsa with
  | [] => mret true
  | [transitLink] =>
      if bool_decide (m_linkType transitLink = TransitNetwork) then mret false
      else
      w_lsa ← lsa_at (m_linkId transitLink);
      match List.find (link_back (m_linkStateId rlsa)) (m_linkRecords w_lsa) with
      | None => mret false
      | Some lr =>
          let k := Z.to_nat (m_node_id rlsa) in
          n ← gets (fun s => n_nodes (m_net s) !! k);
          n ← check n;
          _ ← check (rn_router n);
          _ ← has_routes k;
          outIf ← FindOutgoingInterfaceId (m_linkData transitLink) Ipv4Address.mask_GetOnes;
          _ ← on_routes k (GlobalRouting.AddNetworkRouteTo 0 0 (m_linkData lr) (u32 outIf));
          mret true
      end
  | _ => mret false
  end.

(** The loop of [SPFCalculate] from the vertex [v], which is in the tree. *)
Fixpoint spf_loop (fuel : nat) (v : Z) : M unit :=
  match fuel with
  | O => lift (Err OutOfFuel)
  | S fuel =>
      _ ← SPFNext v;
      q ← gets m_candidates;
      if bool_decide (q = []) then mret tt
      else
      v ← Pop;
      x ← vertex v;
      _ ← set_status (m_lsa x) LSA_SPF_IN_SPFTREE;
      _ ← SPFVertexAddParent v;
      t ← vertex_type v;
      _ ← (match t with VertexRouter => SPFIntraAddRouter v | VertexNetwork => SPFIntraAddTransit v end);
      spf_loop fuel v
  end.

(** Each turn of the loop puts one advertisement in the tree. *)
Definition SPFCalculate (root : Z) : M unit :=
  _ ← Initialize;
  _ ← update (set_candidates []);
  v ← make_vertex root;
  _ ← update (set_spfroot v);
  _ ← on_vertex v (SetDistanceFromRoot 0);
  _ ← set_status root LSA_SPF_IN_SPFTREE;
  w ← gets m_net;
  stub ← (if bool_decide (n_nodes w = []) then mret false else CheckForStubNode root);
  if (stub : bool) then destroy v
  else
  n ← gets (fun s => size (m_database s));
  _ ← spf_loop n v;
  depth ← gets (fun s => size (m_vertices s));
  _ ← SPFProcessStubs depth v;
  ext ← gets m_extdatabase;
  _ ← each (fun extlsa => _ ← ClearVertexProcessed depth v; ProcessASExternals depth extlsa v) ext;
  _ ← destroy v;
  update (set_spfroot 0).

(** ** The three requests *)

Definition on_net {A} (m : st (net R) A) : M A := fun s =>
  match m (m_net s) with Ok (a, w) => Ok (a, set_net w s) | Err f => Err f end.

Definition remove_all (gr : Ipv4GlobalRouting R) : res (Ipv4GlobalRouting R) :=
  Nat.iter (Z.to_nat (GlobalRouting.GetNRoutes gr)) (fun r => g ← r; GlobalRouting.RemoveRoute 0 g) (Ok gr).
Definition delete_routes_of (k : nat) : M unit :=
  n ← node_at k;
  match rn_router n with
  | None => mret tt
  | Some r =>
      gr ← lift (deref (m_routingProtocol r));
      gr ← lift (remove_all gr);
      update (fun s => set_net (set_node k (set_router (SetRoutingProtocol gr r) n) (m_net s)) s)
  end.
Definition DeleteGlobalRoutes : M unit :=
  w ← gets m_net;
  _ ← each delete_routes_of (seq 0 (length (n_nodes w)));
  update (fun s => set_extdatabase [] (set_database ∅ s)).

(** A [GlobalRoutingLSA] that nothing was copied to. *)
Definition empty_lsa : GlobalRoutingLSA := mkLSA UnknownLSA 0 0 [] 0 [] LSA_SPF_NOT_EXPLORED 0.
Definition insert_LSAs_of (k : nat) : M unit :=
  n ← node_at k;
  match rn_router n with
  | None => mret tt
  | Some _ =>
      numLSAs ← on_net (DiscoverLSAs k);
      n ← node_at k;
      r ← lift (deref (rn_router n));
      each (fun j => let lsa := default empty_lsa (GetLSA j r) in Insert (m_linkStateId lsa) lsa) (seq 0 numLSAs)
  end.
Definition BuildGlobalRoutingDatabase : M unit :=
  w ← gets m_net; each insert_LSAs_of (seq 0 (length (n_nodes w))).

(** [systemId]: what [Simulator::GetSystemId] answers *)
Definition routes_of (systemId : Z) (k : nat) : M unit :=
  n ← node_at k;
  match rn_router n with
  | Some r =>
      if (rn_systemId n =? systemId) && negb (GetNumLSAs r =? 0)%nat then SPFCalculate (GetRouterId r) else mret tt
  | None => mret tt
  end.
Definition InitializeRoutes (systemId : Z) : M unit :=
  w ← gets m_net; each (routes_of systemId) (seq 0 (length (n_nodes w))).

Definition PopulateRoutingTables (systemId : Z) : M unit :=
  _ ← BuildGlobalRoutingDatabase; InitializeRoutes systemId.
Definition RecomputeRoutingTables (systemId : Z) : M unit :=
  _ ← DeleteGlobalRoutes; _ ← BuildGlobalRoutingDatabase; InitializeRoutes systemId.
End manager.
Arguments manager R : clear implicits.
