(* ===== verification/ShortestPaths.v ===== *)
(** * Shortest paths

    The calculation of [RouteManager] on a graph whose vertices are values: no
    heap, no database.  [spf] keeps the tree and the sorted list of candidates;
    it is proved to find the distance of every reachable vertex, and the exits
    that begin its shortest paths, when every link has a positive cost.
    [SpfRefine] proves that the calculation on the heap does the same. *)

From S2P Require Import Prelude RouteManager.

(** ** Sorted insertion *)

Lemma elem_of_unique {A} `{EqDecision A} x (l : list A) : x ∈ list_unique l <-> x ∈ l.
Proof.
  induction l as [|y r IH]; simpl; [done|]. rewrite !elem_of_cons, <- IH. clear IH.
  destruct (list_unique r) as [|z r']; [set_solver|].
  case_bool_decide as E; [subst z|]; set_solver.
Qed.

Section sort.
Context {A : Type} (less : A -> A -> bool).

Lemma insert_upper_perm x l : insert_upper less x l ≡ₚ x :: l.
Proof using.
  induction l as [|y r IH]; simpl; [done|]. destruct (less x y); [done|]. rewrite IH. apply Permutation_swap.
Qed.
Lemma fold_insert_perm l : forall s, fold_left (fun s x => insert_upper less x s) l s ≡ₚ s ++ l.
Proof using.
  induction l as [|x r IH]; intros s; simpl; [by rewrite app_nil_r|].
  rewrite IH, insert_upper_perm. by rewrite <- Permutation_middle.
Qed.
Lemma list_sort_perm l : list_sort less l ≡ₚ l.
Proof using. unfold list_sort. by rewrite fold_insert_perm. Qed.

(** Insertion in the order of a key. *)
Variables (key : A -> Z) (Hless : forall x y, less x y = (key x <? key y)).
Abbreviation le := (fun x y => key x <= key y).
Lemma insert_upper_sorted x l : StronglySorted le l -> StronglySorted le (insert_upper less x l).
Proof using Hless.
  induction 1 as [|y r Hr IH Hy]; simpl; [by repeat constructor|]. rewrite Hless.
  destruct (key x <? key y) eqn:E; bool_to_Z.
  - constructor; [by constructor|]. constructor; [lia|]. eapply Forall_impl; [exact Hy|]. simpl. lia.
  - constructor; [done|]. rewrite insert_upper_perm. constructor; [lia|done].
Qed.
Lemma fold_insert_sorted l : forall s,
  StronglySorted le s -> StronglySorted le (fold_left (fun s x => insert_upper less x s) l s).
Proof using Hless. induction l as [|x r IH]; intros s Hs; simpl; [done|]. by apply IH, insert_upper_sorted. Qed.
Lemma list_sort_sorted l : StronglySorted le (list_sort less l).
Proof using Hless. apply fold_insert_sorted. constructor. Qed.
End sort.

(** ** The graph *)

Section graph.
Context {L : Type}.
(** The links of a vertex, where a link leads, its cost, and the exit of the root
    that it is when it starts there. *)
Variables (links : Z -> list L) (dst cost : L -> Z) (first : L -> Z * Z) (root : Z).

Inductive path : Z -> Z -> Prop :=
| path_root : path root 0
| path_link k d l : path k d -> l ∈ links k -> path (dst l) (d + cost l).
(** A path that starts with the exit [e]. *)
Inductive xpath : Z -> Z -> Z * Z -> Prop :=
| xpath_first l : l ∈ links root -> xpath (dst l) (cost l) (first l)
| xpath_link k d e l : xpath k d e -> l ∈ links k -> xpath (dst l) (d + cost l) e.
Definition shortest (k d : Z) : Prop := path k d /\ forall d', path k d' -> d <= d'.

(** ** The calculation *)

Record avertex := mkA { a_id : Z; a_dist : Z; a_exits : list (Z * Z) }.
Definition dist_less (a b : avertex) : bool := a_dist a <? a_dist b.
Abbreviation ids l := (a_id <$> l).

(** The exits of the path through [v] and [l]. *)
Definition contribution (v : avertex) (l : L) : list (Z * Z) := if a_id v =? root then [first l] else a_exits v.
Definition merge_exits (es : list (Z * Z)) (a : avertex) : avertex :=
  mkA (a_id a) (a_dist a) (list_unique (list_sort exit_less (a_exits a ++ es))).
Definition on_id (w : Z) (f : avertex -> avertex) (l : list avertex) : list avertex :=
  (fun a => if a_id a =? w then f a else a) <$> l.
Definition relax (tree : list avertex) (v : avertex) (cands : list avertex) (l : L) : list avertex :=
  let w := dst l in
  let d := a_dist v + cost l in
  if bool_decide (w ∈ ids tree) then cands
  else
  match List.find (fun a => a_id a =? w) cands with
  | None => insert_upper dist_less (mkA w d (contribution v l)) cands
  | Some c =>
      if a_dist c <? d then cands
      else if a_dist c =? d then on_id w (merge_exits (contribution v l)) cands
      else list_sort dist_less (on_id w (fun _ => mkA w d (contribution v l)) cands)
  end.
Fixpoint spf (fuel : nat) (tree : list avertex) (v : avertex) (cands : list avertex) : option (list avertex) :=
  match fuel with
  | O => None
  | S fuel =>
      match fold_left (relax tree v) (links (a_id v)) cands with
      | [] => Some tree
      | c :: r => spf fuel (tree ++ [c]) c r
      end
  end.
Definition root_vertex : avertex := mkA root 0 [].
Definition spf_tree (fuel : nat) : option (list avertex) := spf fuel [root_vertex] root_vertex [].

(** ** The invariant *)

(** [P]: the links examined so far, each with the vertex it starts from. *)
Record spf_inv (tree cands : list avertex) (P : avertex -> L -> Prop) : Prop := {
  inv_nodup : NoDup (ids (tree ++ cands));
  inv_sorted : StronglySorted (fun a b => a_dist a <= a_dist b) cands;
  inv_root : root_vertex ∈ tree;
  inv_tree v : v ∈ tree -> shortest (a_id v) (a_dist v) /\ forall e, e ∈ a_exits v <-> xpath (a_id v) (a_dist v) e;
  inv_links v l : P v l -> v ∈ tree /\ l ∈ links (a_id v);
  inv_known v l : P v l -> dst l ∈ ids (tree ++ cands);
  inv_least v l c : P v l -> c ∈ cands -> a_id c = dst l -> a_dist c <= a_dist v + cost l;
  inv_tight c : c ∈ cands -> exists v l, P v l /\ dst l = a_id c /\ a_dist v + cost l = a_dist c;
  inv_exits c e : c ∈ cands -> e ∈ a_exits c <->
    exists v l, P v l /\ dst l = a_id c /\ a_dist v + cost l = a_dist c /\ e ∈ contribution v l }.

Lemma ids_inj (l : list avertex) a b : NoDup (ids l) -> a ∈ l -> b ∈ l -> a_id a = a_id b -> a = b.
Proof using.
  intros Hn (i & Ha)%list_elem_of_lookup (j & Hb)%list_elem_of_lookup E.
  assert (i = j) as <-; [|congruence].
  eapply NoDup_lookup; [exact Hn|rewrite list_lookup_fmap, Ha; done|rewrite list_lookup_fmap, Hb; simpl; by rewrite E].
Qed.
Lemma find_id w (l : list avertex) c : List.find (fun a => a_id a =? w) l = Some c -> c ∈ l /\ a_id c = w.
Proof using. intros [Hin E]%List.find_some. bool_to_Z. split; [by apply list_elem_of_In|done]. Qed.
Lemma find_id_none w (l : list avertex) : List.find (fun a => a_id a =? w) l = None -> w ∉ ids l.
Proof using.
  intros Hf (a & -> & Ha)%list_elem_of_fmap. apply list_elem_of_In in Ha.
  pose proof (List.find_none _ _ Hf _ Ha) as E. simpl in E. bool_to_Z. done.
Qed.
Lemma ids_on_id w f l : (forall a, a_id a = w -> a_id (f a) = w) -> ids (on_id w f l) = ids l.
Proof using.
  intros Hf. unfold on_id. rewrite <- list_fmap_compose. apply list_fmap_ext. intros i a _. simpl.
  destruct (a_id a =? w) eqn:E; [|done]. bool_to_Z. rewrite E. by apply Hf.
Qed.
Lemma elem_of_on_id w f l c : c ∈ on_id w f l -> (c ∈ l /\ a_id c <> w) \/ exists b, b ∈ l /\ a_id b = w /\ c = f b.
Proof using.
  intros (b & -> & Hb)%list_elem_of_fmap. destruct (a_id b =? w) eqn:E; bool_to_Z; [right; eauto|by left].
Qed.

(** The candidate [c'] of [w] replaces or joins the others, with one more link [(v, l)] examined. *)
Lemma relax_inv_update tree cands cands' P v l c' :
  spf_inv tree cands P -> v ∈ tree -> l ∈ links (a_id v) -> dst l ∉ ids tree ->
  a_id c' = dst l -> a_dist c' <= a_dist v + cost l ->
  NoDup (ids cands') -> StronglySorted (fun a b => a_dist a <= a_dist b) cands' ->
  (forall k, k ∈ ids cands' <-> k = dst l \/ k ∈ ids cands) ->
  (forall c, c ∈ cands' <-> c = c' \/ (c ∈ cands /\ a_id c <> dst l)) ->
  (forall v0 l0, P v0 l0 -> dst l0 = dst l -> a_dist c' <= a_dist v0 + cost l0) ->
  (forall e, (e ∈ a_exits c' <->
     exists v0 l0, (P v0 l0 \/ (v0 = v /\ l0 = l)) /\ dst l0 = dst l /\ a_dist v0 + cost l0 = a_dist c' /\
       e ∈ contribution v0 l0)) ->
  (exists v0 l0, (P v0 l0 \/ (v0 = v /\ l0 = l)) /\ dst l0 = dst l /\ a_dist v0 + cost l0 = a_dist c') ->
  spf_inv tree cands' (fun v0 l0 => P v0 l0 \/ (v0 = v /\ l0 = l)).
Proof using.
  intros [Hn Hs Hr Ht Hl Hk Hle Hti He] Hv Hlk Hw Hid Hd Hn' Hs' Hids Hel Hold Hex Hex'. split; try done.
  - rewrite fmap_app in *. apply NoDup_app in Hn as (N1 & N2 & N3). apply NoDup_app. split; [done|]. split; [|done].
    intros k Hk1 [->|Hk2]%Hids; [done|by apply (N2 k)].
  - intros v0 l0 [H0|[-> ->]]; [by apply Hl|done].
  - intros v0 l0 [H0|[-> ->]]; rewrite fmap_app, elem_of_app.
    + pose proof (Hk _ _ H0) as H1. rewrite fmap_app, elem_of_app in H1. rewrite Hids. tauto.
    + right. apply Hids. by left.
  - intros v0 l0 c Hp [->|[Hc Hne]]%Hel E.
    + destruct Hp as [Hp|[-> ->]]; [|done]. apply Hold; [done|congruence].
    + destruct Hp as [Hp|[-> ->]]; [by eapply Hle|done].
  - intros c [->|[Hc Hne]]%Hel; [by rewrite Hid|]. destruct (Hti c Hc) as (v0 & l0 & ? & ? & ?). exists v0, l0. auto.
  - intros c e [->|[Hc Hne]]%Hel; [rewrite Hid; by apply Hex|]. rewrite (He c e Hc). split.
    + intros (v0 & l0 & ? & ? & ? & ?). exists v0, l0. auto.
    + intros (v0 & l0 & [?|[-> ->]] & ? & ? & ?); [|congruence]. exists v0, l0. auto.
Qed.

Lemma relax_inv_same tree cands P v l :
  spf_inv tree cands P -> v ∈ tree -> l ∈ links (a_id v) -> dst l ∈ ids (tree ++ cands) ->
  (forall c, c ∈ cands -> a_id c = dst l -> a_dist c < a_dist v + cost l) ->
  spf_inv tree cands (fun v0 l0 => P v0 l0 \/ (v0 = v /\ l0 = l)).
Proof using.
  intros [Hn Hs Hr Ht Hl Hk Hle Hti He] Hv Hlk Hw Hc. split; try done.
  - intros v0 l0 [H0|[-> ->]]; [by apply Hl|done].
  - intros v0 l0 [H0|[-> ->]]; [by eapply Hk|done].
  - intros v0 l0 c [Hp|[-> ->]] Hin E; [by eapply Hle|]. specialize (Hc c Hin E). lia.
  - intros c Hin. destruct (Hti c Hin) as (v0 & l0 & ? & ? & ?). exists v0, l0. auto.
  - intros c e Hin. rewrite (He c e Hin). split.
    + intros (v0 & l0 & ? & ? & ? & ?). exists v0, l0. auto.
    + intros (v0 & l0 & [?|[-> ->]] & E1 & E2 & ?); [exists v0, l0; auto|]. specialize (Hc c Hin (eq_sym E1)). lia.
Qed.

Lemma elem_of_on_id_iff w f l c0 c :
  NoDup (ids l) -> c0 ∈ l -> a_id c0 = w -> c ∈ on_id w f l <-> c = f c0 \/ (c ∈ l /\ a_id c <> w).
Proof using.
  intros Hn Hc0 E0. split.
  - intros [H1|(b & Hb & Eb & ->)]%elem_of_on_id; [by right|left]. f_equal. eapply ids_inj; [done..|congruence].
  - unfold on_id. intros [->|[Hc Hne]].
    + apply list_elem_of_fmap. exists c0. by rewrite E0, Z.eqb_refl.
    + apply list_elem_of_fmap. exists c. split; [|done]. destruct (a_id c =? w) eqn:E; bool_to_Z; done.
Qed.
Lemma on_id_sorted w f l :
  (forall a, a_dist (f a) = a_dist a) -> StronglySorted (fun a b => a_dist a <= a_dist b) l ->
  StronglySorted (fun a b => a_dist a <= a_dist b) (on_id w f l).
Proof using.
  intros Hf. induction 1 as [|a r Hr IH Ha]; simpl; constructor; [done|]. apply Forall_fmap.
  eapply Forall_impl; [exact Ha|]. intros b Hb. simpl. destruct (a_id a =? w), (a_id b =? w); rewrite ?Hf; done.
Qed.

(** Examining a link keeps the invariant. *)
Lemma relax_inv tree cands P v l :
  spf_inv tree cands P -> v ∈ tree -> l ∈ links (a_id v) ->
  spf_inv tree (relax tree v cands l) (fun v0 l0 => P v0 l0 \/ (v0 = v /\ l0 = l)).
Proof using.
  intros HI Hv Hlk. pose proof HI as [Hn Hs Hr Ht Hl Hk Hle Hti He]. unfold relax. cbn zeta.
  rewrite fmap_app in Hn. apply NoDup_app in Hn as (N1 & N2 & N3).
  case_bool_decide as Hw.
  { apply relax_inv_same; [done..|rewrite fmap_app; set_solver|]. intros c Hc E. destruct (N2 _ Hw). rewrite <- E.
    by apply list_elem_of_fmap_2. }
  destruct (List.find _ cands) as [c0|] eqn:Hf.
  - apply find_id in Hf as [Hc0 E0]. assert (dst l ∈ ids cands) as Hin by (rewrite <- E0; by apply list_elem_of_fmap_2).
    assert (forall c, c ∈ cands -> a_id c = dst l -> c = c0) as Huniq by (intros; eapply ids_inj; [done..|congruence]).
    destruct (a_dist c0 <? a_dist v + cost l) eqn:E1; [|destruct (a_dist c0 =? a_dist v + cost l) eqn:E2]; bool_to_Z.
    + apply relax_inv_same; [done..|rewrite fmap_app; set_solver|]. by intros c Hc ->%Huniq.
    + assert (ids (on_id (dst l) (merge_exits (contribution v l)) cands) = ids cands) as Hids by by apply ids_on_id.
      apply (relax_inv_update _ cands _ _ _ _ (merge_exits (contribution v l) c0)); try done; simpl.
      * lia.
      * by rewrite Hids.
      * by apply on_id_sorted.
      * intros k. rewrite Hids. set_solver.
      * intros c. rewrite (elem_of_on_id_iff _ _ _ c0) by done. done.
      * intros v0 l0 Hp E. eapply Hle; [done..|congruence].
      * intros e. rewrite elem_of_unique, list_sort_perm, elem_of_app, (He c0 e Hc0), E0. split.
        -- intros [(v0 & l0 & ? & ? & ? & ?)|?]; [exists v0, l0; auto|exists v, l; auto].
        -- intros (v0 & l0 & [?|[-> ->]] & ? & ? & ?); [left; exists v0, l0; auto|by right].
      * exists v, l. auto.
    + set (c' := mkA (dst l) (a_dist v + cost l) (contribution v l)).
      assert (ids (on_id (dst l) (fun _ => c') cands) = ids cands) as Hids by by apply ids_on_id.
      apply (relax_inv_update _ cands _ _ _ _ c'); try done; simpl.
      * by rewrite list_sort_perm, Hids.
      * by apply (list_sort_sorted _ a_dist).
      * intros k. rewrite list_sort_perm, Hids. set_solver.
      * intros c. by rewrite list_sort_perm, (elem_of_on_id_iff _ _ _ c0) by done.
      * intros v0 l0 Hp E. enough (a_dist c0 <= a_dist v0 + cost l0) by lia. eapply Hle; [done..|congruence].
      * intros e. split; [intros ?; exists v, l; auto|].
        intros (v0 & l0 & [Hp|[-> ->]] & E & E' & ?); [|done].
        enough (a_dist c0 <= a_dist v0 + cost l0) by lia. eapply Hle; [done..|congruence].
      * exists v, l. auto.
  - apply find_id_none in Hf. set (c' := mkA (dst l) (a_dist v + cost l) (contribution v l)).
    assert (forall v0 l0, P v0 l0 -> dst l0 <> dst l) as Hnew.
    { intros v0 l0 Hp E. pose proof (Hk _ _ Hp) as H1. rewrite E, fmap_app, elem_of_app in H1. tauto. }
    apply (relax_inv_update _ cands _ _ _ _ c'); try done; simpl.
    + rewrite insert_upper_perm. by constructor.
    + by apply (insert_upper_sorted _ a_dist).
    + intros k. rewrite insert_upper_perm. set_solver.
    + intros c. rewrite insert_upper_perm, elem_of_cons. split; [|set_solver]. intros [->|Hc]; [by left|right].
      split; [done|]. intros E. apply Hf. rewrite <- E. by apply list_elem_of_fmap_2.
    + intros v0 l0 Hp E. by destruct (Hnew _ _ Hp).
    + intros e. split; [intros ?; exists v, l; auto|]. intros (v0 & l0 & [Hp|[-> ->]] & E & _ & ?); [|done].
      by destruct (Hnew _ _ Hp).
    + exists v, l. auto.
Qed.

(** What [relax] does to the identifiers and to the distances. *)
Lemma relax_ids tree v cands l k :
  k ∈ ids (relax tree v cands l) <-> k ∈ ids cands \/ (k = dst l /\ dst l ∉ ids tree).
Proof using.
  clear links.
  unfold relax. cbn zeta. case_bool_decide as Hw; [naive_solver|]. destruct (List.find _ cands) as [c0|] eqn:Hf.
  - apply find_id in Hf as [Hc0 E0]. assert (dst l ∈ ids cands) as Hin by (rewrite <- E0; by apply list_elem_of_fmap_2).
    destruct (_ <? _); [naive_solver|]. destruct (_ =? _).
    + rewrite ids_on_id by done. naive_solver.
    + rewrite list_sort_perm, ids_on_id by done. naive_solver.
  - rewrite insert_upper_perm, fmap_cons, elem_of_cons. simpl. naive_solver.
Qed.
Lemma relax_nodup tree v cands l : NoDup (ids (tree ++ cands)) -> NoDup (ids (tree ++ relax tree v cands l)).
Proof using.
  clear links.
  rewrite !fmap_app, !NoDup_app. intros (N1 & N2 & N3). split; [done|]. split.
  { intros k Hk [Hk'|[-> Hk']]%relax_ids; [by apply (N2 k)|done]. }
  unfold relax. cbn zeta. case_bool_decide; [done|]. destruct (List.find _ cands) as [c0|] eqn:Hf.
  - destruct (_ <? _); [done|]. destruct (_ =? _); [by rewrite ids_on_id|]. by rewrite list_sort_perm, ids_on_id.
  - apply find_id_none in Hf. rewrite insert_upper_perm. by constructor.
Qed.
Lemma relax_dist tree v cands l c :
  c ∈ relax tree v cands l -> a_dist c = a_dist v + cost l \/ exists c0, c0 ∈ cands /\ a_dist c0 = a_dist c.
Proof using.
  clear links.
  unfold relax. cbn zeta. case_bool_decide; [eauto|]. destruct (List.find _ cands) as [c0|].
  - destruct (_ <? _); [eauto|]. destruct (_ =? _).
    + intros [[? _]|(b & ? & _ & ->)]%elem_of_on_id; eauto.
    + rewrite list_sort_perm. intros [[? _]|(b & ? & _ & ->)]%elem_of_on_id; eauto.
  - rewrite insert_upper_perm, elem_of_cons. intros [->|?]; eauto.
Qed.

Lemma spf_inv_iff tree cands P Q :
  (forall v l, P v l <-> Q v l) -> spf_inv tree cands P -> spf_inv tree cands Q.
Proof using.
  intros E [Hn Hs Hr Ht Hl Hk Hle Hti He]. split; try done.
  - intros v l Hq. by apply Hl, (proj2 (E v l)).
  - intros v l Hq. by apply (Hk v), (proj2 (E v l)).
  - intros v l c Hq. by apply Hle, (proj2 (E v l)).
  - intros c (v & l & ? & ?)%Hti. exists v, l. by rewrite <- E.
  - intros c e Hc. rewrite (He c e Hc). by setoid_rewrite E.
Qed.
Lemma relax_all_inv tree v ls : forall cands P,
  spf_inv tree cands P -> v ∈ tree -> (forall l, l ∈ ls -> l ∈ links (a_id v)) ->
  spf_inv tree (fold_left (relax tree v) ls cands) (fun v0 l0 => P v0 l0 \/ (v0 = v /\ l0 ∈ ls)).
Proof using.
  induction ls as [|l ls IH]; intros cands P HI Hv Hls; cbn [fold_left].
  - eapply spf_inv_iff; [|exact HI]. intros v0 l0. set_solver.
  - eapply spf_inv_iff; [|apply (IH _ _ (relax_inv _ _ _ _ _ HI Hv (Hls l ltac:(by left))) Hv)].
    + intros v0 l0. rewrite elem_of_cons. naive_solver.
    + intros l0 Hl0. apply Hls. by right.
Qed.

(** ** The nearest candidate joins the tree *)

Hypothesis cost_pos : forall k l, l ∈ links k -> 1 <= cost l.

Lemma path_nonneg k d : path k d -> 0 <= d.
Proof using cost_pos. induction 1 as [|k d l _ IH Hl]; [lia|]. specialize (cost_pos _ _ Hl). lia. Qed.
Lemma xpath_path k d e : xpath k d e -> path k d.
Proof using. induction 1 as [l Hl|]; [|by eapply path_link]. apply (path_link root 0); [constructor|done]. Qed.
Lemma xpath_pos k d e : xpath k d e -> 1 <= d.
Proof using cost_pos.
  induction 1 as [l Hl|k d e l _ IH Hl]; specialize (cost_pos _ _ Hl); lia.
Qed.

(** All the links of the vertices of the tree have been examined. *)
Definition examined (tree : list avertex) (v : avertex) (l : L) : Prop := v ∈ tree /\ l ∈ links (a_id v).

(** A path that ends outside of the tree leaves it through an examined link. *)
Lemma path_leaves tree cands k d :
  spf_inv tree cands (examined tree) -> path k d -> k ∉ ids tree ->
  exists c, c ∈ cands /\ a_dist c <= d.
Proof using cost_pos.
  intros HI. destruct HI as [Hn Hs Hr Ht Hl Hk Hle Hti He].
  induction 1 as [|k d l Hp IH Hin]; intros Hout.
  - destruct Hout. by apply (list_elem_of_fmap_2 a_id) in Hr.
  - pose proof (cost_pos _ _ Hin). destruct (decide (k ∈ ids tree)) as [(v & -> & Hv)%list_elem_of_fmap|Hk'].
    + assert (examined tree v l) as Hx by done. pose proof (Hk _ _ Hx) as Hkn. rewrite fmap_app, elem_of_app in Hkn.
      destruct Hkn as [?|(c & E & Hc)%list_elem_of_fmap]; [done|]. exists c. split; [done|].
      pose proof (Hle _ _ _ Hx Hc (eq_sym E)). destruct (Ht v Hv) as [[_ Hmin] _]. specialize (Hmin _ Hp). lia.
    + destruct (IH Hk') as (c & ? & ?). exists c. split; [done|lia].
Qed.

Lemma nearest_exact tree c r :
  spf_inv tree (c :: r) (examined tree) ->
  shortest (a_id c) (a_dist c) /\ forall e, e ∈ a_exits c <-> xpath (a_id c) (a_dist c) e.
Proof using cost_pos.
  intros HI. pose proof HI as [Hn Hs Hr Ht Hl Hk Hle Hti He].
  assert (forall k d, path k d -> k ∉ ids tree -> a_dist c <= d) as Hmin.
  { intros k d Hp Ho. destruct (path_leaves _ _ _ _ HI Hp Ho) as (c' & [->|Hc']%elem_of_cons & ?); [done|].
    apply StronglySorted_inv in Hs as [_ Hs]. rewrite Forall_forall in Hs. specialize (Hs _ Hc'). lia. }
  assert (a_id c ∉ ids tree) as Hc.
  { rewrite fmap_app, NoDup_app in Hn. destruct Hn as (_ & N & _). intros H. apply (N _ H). by left. }
  assert (forall v l, examined tree v l -> shortest (a_id v) (a_dist v)) as Hv by (intros v l [H _]; by apply Ht).
  split; [split|].
  - destruct (Hti c ltac:(by left)) as (v & l & Hx & <- & <-). apply (path_link (a_id v)); [by apply (Hv v l)|apply Hx].
  - intros d' Hp. by apply (Hmin _ _ Hp).
  - intros e. rewrite (He c e ltac:(by left)). split.
    + intros (v & l & Hx & <- & <- & Hin). pose proof Hx as [Hvt Hlk]. unfold contribution in Hin.
      destruct (a_id v =? root) eqn:E; bool_to_Z.
      * apply list_elem_of_singleton in Hin as ->. destruct (Hv v l Hx) as [Hp Hsh]. rewrite E in *.
        specialize (Hsh _ path_root). apply path_nonneg in Hp. replace (a_dist v) with 0 by lia.
        rewrite Z.add_0_l. by constructor.
      * apply Ht in Hin; [|done]. by apply (xpath_link (a_id v)).
    + remember (a_id c) as k eqn:Ek. remember (a_dist c) as d eqn:Ed. intros Hx. destruct Hx as [l Hlk|k d e l Hp Hlk].
      * exists root_vertex, l. split; [by split|]. split; [done|]. split; [by rewrite Z.add_0_l|]. unfold contribution. simpl.
        rewrite Z.eqb_refl. by left.
      * pose proof (cost_pos _ _ Hlk) as Hpos. destruct (decide (k ∈ ids tree)) as [(v & -> & Hvt)%list_elem_of_fmap|Hout].
        2:{ pose proof (Hmin _ _ (xpath_path _ _ _ Hp) Hout). lia. }
        assert (examined tree v l) as Hxm by done. destruct (Ht v Hvt) as [[_ Hsh] Hex].
        pose proof (Hsh _ (xpath_path _ _ _ Hp)).
        pose proof (Hle _ _ c Hxm ltac:(by left) (eq_sym Ek)) as Hleast.
        assert (a_dist v = d) as Edist by lia. exists v, l. split; [done|]. split; [done|]. split; [lia|].
        unfold contribution. destruct (a_id v =? root) eqn:E; bool_to_Z.
        -- exfalso. rewrite E in Hsh. specialize (Hsh _ path_root). apply xpath_pos in Hp. lia.
        -- apply Hex. by rewrite Edist.
Qed.

Lemma nearest_joins tree c r :
  spf_inv tree (c :: r) (examined tree) -> spf_inv (tree ++ [c]) r (examined tree).
Proof using cost_pos.
  intros HI. pose proof (nearest_exact _ _ _ HI) as Hex. destruct HI as [Hn Hs Hr Ht Hl Hk Hle Hti He].
  split.
  - by rewrite <- app_assoc.
  - by apply StronglySorted_inv in Hs as [? _].
  - set_solver.
  - intros v [Hv| ->%list_elem_of_singleton]%elem_of_app; [by apply Ht|done].
  - intros v l Hx. split; [|apply Hx]. apply elem_of_app. left. apply Hx.
  - intros v l Hx. rewrite <- app_assoc. by apply (Hk v).
  - intros v l c' Hx Hc. apply Hle; [done|by right].
  - intros c' Hc. apply Hti. by right.
  - intros c' e Hc. apply He. by right.
Qed.

(** A turn of the loop *)
Definition ready (tree : list avertex) (v : avertex) (cands : list avertex) : Prop :=
  v ∈ tree /\ spf_inv tree cands (fun v0 l => examined tree v0 l /\ v0 <> v).
Lemma ready_relaxed tree v cands :
  ready tree v cands -> spf_inv tree (fold_left (relax tree v) (links (a_id v)) cands) (examined tree).
Proof using.
  intros [Hv HI]. eapply spf_inv_iff; [|apply relax_all_inv; [exact HI|done|done]]. intros v0 l. unfold examined. split.
  - intros [[? _]|[-> ?]]; done.
  - intros [Hv0 Hl]. destruct (decide (a_id v0 = a_id v)) as [E|Hne].
    + right. assert (v0 = v) as ->; [|done]. eapply ids_inj; [|exact Hv0|exact Hv|exact E].
      destruct HI as [Hn _ _ _ _ _ _ _ _]. rewrite fmap_app in Hn. by apply NoDup_app in Hn as [? _].
    + left. split; [done|]. intros ->. done.
Qed.
Lemma ready_next tree c r : spf_inv tree (c :: r) (examined tree) -> ready (tree ++ [c]) c r.
Proof using cost_pos.
  intros HI. split; [set_solver|]. eapply spf_inv_iff; [|by apply nearest_joins]. intros v l. unfold examined.
  destruct HI as [Hn _ _ _ _ _ _ _ _]. rewrite fmap_app, NoDup_app in Hn. destruct Hn as (_ & N & _). split.
  - intros [Hv Hl]. split; [split; [set_solver|done]|]. intros ->. apply (N (a_id c)); [by apply list_elem_of_fmap_2|by left].
  - intros [[[Hv| ->%list_elem_of_singleton]%elem_of_app Hl] Hne]; done.
Qed.
Lemma ready_start : ready [root_vertex] root_vertex [].
Proof using cost_pos.
  split; [by left|]. split.
  - simpl. repeat constructor. set_solver.
  - constructor.
  - by left.
  - intros v ->%list_elem_of_singleton. simpl. split; [split; [constructor|apply path_nonneg]|].
    intros e. split; [by intros ?%elem_of_nil|]. intros Hx%xpath_pos. lia.
  - intros v l [[-> %list_elem_of_singleton _] ?]. done.
  - intros v l [[-> %list_elem_of_singleton _] ?]. done.
  - intros v l c [[-> %list_elem_of_singleton _] ?]. done.
  - by intros c ?%elem_of_nil.
  - by intros c e ?%elem_of_nil.
Qed.

(** ** The result *)

(** Every reachable vertex is in the tree, once, at its distance and with the
    exits of its shortest paths. *)
Record exact (tree : list avertex) : Prop := {
  exact_nodup : NoDup (ids tree);
  exact_dist v : v ∈ tree -> shortest (a_id v) (a_dist v);
  exact_exits v e : v ∈ tree -> e ∈ a_exits v <-> xpath (a_id v) (a_dist v) e;
  exact_all k d : path k d -> k ∈ ids tree }.

Lemma spf_exact fuel : forall tree v cands tree',
  ready tree v cands -> spf fuel tree v cands = Some tree' -> exact tree'.
Proof using cost_pos.
  induction fuel as [|fuel IH]; intros tree v cands tree' HI Hs; [done|]. cbn [spf] in Hs.
  apply ready_relaxed in HI. destruct (fold_left _ _ cands) as [|c r].
  - injection Hs as <-. pose proof HI as [Hn _ _ Ht _ _ _ _ _]. rewrite app_nil_r in Hn. split; [done|by apply Ht|..].
    + intros v0 e Hv0. by apply Ht.
    + intros k d Hp. destruct (decide (k ∈ ids tree)) as [|Hout]; [done|].
      destruct (path_leaves _ _ _ _ HI Hp Hout) as (c & ?%elem_of_nil & _). done.
  - by eapply IH; [apply ready_next|].
Qed.

Lemma spf_prefix fuel : forall tree v cands tree', spf fuel tree v cands = Some tree' -> exists rest, tree' = tree ++ rest.
Proof using.
  induction fuel as [|fuel IH]; intros tree v cands tree' E; [done|]. cbn [spf] in E.
  destruct (fold_left _ _ cands) as [|c r].
  - injection E as <-. exists []. by rewrite app_nil_r.
  - destruct (IH _ _ _ _ E) as (rest & ->). exists (c :: rest). by rewrite <- app_assoc.
Qed.

(** Every turn adds a vertex: as many turns as there are vertices are enough. *)
Lemma spf_terminates nodes fuel : forall tree v cands,
  (forall k l, k ∈ nodes -> l ∈ links k -> dst l ∈ nodes) ->
  ready tree v cands -> ids (tree ++ cands) ⊆ nodes -> (length nodes < fuel + length tree)%nat ->
  is_Some (spf fuel tree v cands).
Proof using cost_pos.
  induction fuel as [|fuel IH]; intros tree v cands Hcl HI Hsub Hf.
  - destruct HI as [_ [Hn _ _ _ _ _ _ _ _]].
    pose proof (submseteq_length _ _ (NoDup_submseteq _ _ Hn (fun x => Hsub x))) as Hlen. revert Hlen. rewrite length_fmap, length_app. lia.
  - cbn [spf]. pose proof (ready_relaxed _ _ _ HI) as HI'.
    assert (ids (tree ++ fold_left (relax tree v) (links (a_id v)) cands) ⊆ nodes) as Hsub'.
    { rewrite fmap_app in *. apply list_subseteq_app_iff_l. split; [set_solver|]. intros k (c & -> & Hc)%list_elem_of_fmap.
      destruct HI' as [_ _ _ _ _ _ _ Hti _]. destruct (Hti c Hc) as (v0 & l0 & [Hv0 Hl0] & <- & _).
      apply (Hcl (a_id v0)); [|done]. apply Hsub, elem_of_app. left. by apply list_elem_of_fmap_2. }
    destruct (fold_left _ _ cands) as [|c r]; [by eexists|]. apply IH; [done|by apply ready_next| |rewrite length_app; simpl; lia].
    by rewrite <- app_assoc.
Qed.
Lemma shortest_exists (nodes : list Z) k d :
  (forall k l, k ∈ nodes -> l ∈ links k -> dst l ∈ nodes) -> root ∈ nodes -> path k d -> exists d', shortest k d'.
Proof using cost_pos first.
  intros Hcl Hroot Hp. destruct (spf_terminates nodes (length nodes) [root_vertex] root_vertex [] Hcl ready_start) as (tree & E).
  - by intros x ->%list_elem_of_singleton.
  - simpl. lia.
  - pose proof (spf_exact _ _ _ _ _ ready_start E) as He. pose proof (exact_all _ He _ _ Hp) as (a & -> & Ha)%list_elem_of_fmap.
    exists (a_dist a). by apply (exact_dist _ He).
Qed.
End graph.
Arguments exact {L} links dst cost first root tree.
