(* ===== verification/SpfRefine.v ===== *)
(** * The calculation on the heap finds the shortest paths

    For a database of router advertisements with point-to-point links, the steps
    of [RouteManager] on vertices, candidates and advertisements are those of
    [ShortestPaths] on values: [repr] relates a state of the manager to a tree
    and a list of candidates. *)

From S2P Require Import Prelude Ipv4Ifaces Routing GlobalRouter RouteManager ShortestPaths.
From S2P Require Ipv4Address GlobalRouting.
Import GlobalRouting (Ipv4GlobalRouting).

(** ** Databases of routers *)

Definition point_to_point (l : GlobalRoutingLinkRecord) : bool := bool_decide (m_linkType l = PointToPoint).
(** The point-to-point links of the router [k]. *)
Definition links_of (db : gmap Z GlobalRoutingLSA) (k : Z) : list GlobalRoutingLinkRecord :=
  match db !! k with Some a => List.filter point_to_point (m_linkRecords a) | None => [] end.
(** The record that [SPFGetNextLink] finds first in the router [k] towards [wid]. *)
Definition link_towards (db : gmap Z GlobalRoutingLSA) (k wid : Z) : option GlobalRoutingLinkRecord :=
  match db !! k with Some a => next_link wid true false (m_linkRecords a) | None => None end.

(** Only routers, under their identifiers; links that are point-to-point or
    stubs; every point-to-point link leads to a router of the database, which
    has a link back, which no stub is mistaken for, at a cost that fits 16 bits
    and is not zero. *)
Record router_db (db : gmap Z GlobalRoutingLSA) : Prop := {
  db_router k a : db !! k = Some a -> m_lsType a = RouterLSA /\ m_linkStateId a = k;
  db_types k a l : db !! k = Some a -> l ∈ m_linkRecords a ->
    m_linkType l = PointToPoint \/ m_linkType l = StubNetwork;
  db_back k l : l ∈ links_of db k -> is_Some (db !! m_linkId l) /\ is_Some (link_towards db (m_linkId l) k);
  db_towards k l r : l ∈ links_of db k -> link_towards db (m_linkId l) k = Some r -> m_linkType r = PointToPoint;
  db_cost k l : l ∈ links_of db k -> 1 <= m_metric l < 2 ^ 16;
  db_size : Z.of_nat (size db) <= 2 ^ 16 }.

Lemma links_of_elem db k l :
  l ∈ links_of db k <-> exists a, db !! k = Some a /\ l ∈ m_linkRecords a /\ m_linkType l = PointToPoint.
Proof.
  unfold links_of. destruct (db !! k) as [a|].
  - rewrite list_elem_of_In, List.filter_In, <- list_elem_of_In. unfold point_to_point. rewrite bool_decide_eq_true. naive_solver.
  - split; [by intros ?%elem_of_nil|naive_solver].
Qed.

Lemma index_of_some {R} f (l : list (rnode R)) : forall i j, index_of f l i = Some j ->
  (i <= j)%nat /\ exists n, l !! (j - i)%nat = Some n /\ f n = true.
Proof.
  induction l as [|n l IH]; intros i j; simpl; [done|]. destruct (f n) eqn:E.
  - intros [= <-]. split; [lia|]. rewrite Nat.sub_diag. by exists n.
  - intros [? (m & Hm & ?)]%IH. split; [lia|]. exists m. split; [|done].
    replace (j - i)%nat with (S (j - S i)) by lia. done.
Qed.
Lemma index_of_none {R} f (l : list (rnode R)) : forall i, index_of f l i = None ->
  forall k n, l !! k = Some n -> f n <> true.
Proof.
  induction l as [|m l IH]; intros i; simpl; [by intros _ k n|]. destruct (f m) eqn:E; [done|].
  intros Hi [|k] n; simpl; [intros [= <-]; by rewrite E|]. by apply (IH (S i)).
Qed.
Lemma index_of_same {R} f (l : list (rnode R)) k n : forall i,
  (forall m, l !! k = Some m -> f n = f m) -> index_of f (<[k := n]> l) i = index_of f l i.
Proof.
  revert k. induction l as [|m l IH]; intros k i Hf; simpl; [done|].
  destruct k as [|k]; simpl; [by rewrite (Hf m)|]. by rewrite IH.
Qed.

(** ** Objects and values *)

(** The vertex object [x] stands for the value [a]. *)
Record stands (x : SPFVertex) (a : avertex) : Prop := {
  st_type : m_vertexType x = Some VertexRouter;
  st_id : m_vertexId x = a_id a;
  st_lsa : m_lsa x = a_id a;
  st_dist : m_distanceFromRoot x = a_dist a;
  st_exits : m_ecmpRootExits x = a_exits a;
  st_processed : m_vertexProcessed x = false }.
Definition holds (h : gmap Z SPFVertex) (p : Z) (a : avertex) : Prop := exists x, h !! p = Some x /\ stands x a.

(** The live vertices are those of the tree [tp], in the order in which they
    joined it, and the candidates [q].  Parents come before their children, and
    each knows the other. *)
Record shape (h : gmap Z SPFVertex) (tp q : list Z) : Prop := {
  sh_dom p : is_Some (h !! p) <-> p ∈ tp ++ q;
  sh_nodup : NoDup (tp ++ q);
  sh_parents i p x : tp !! i = Some p -> h !! p = Some x ->
    (m_parents x = [] <-> i = 0%nat) /\
    forall r, r ∈ m_parents x -> exists j y, (j < i)%nat /\ tp !! j = Some r /\ h !! r = Some y /\ p ∈ m_children y;
  sh_children p x c : p ∈ tp -> h !! p = Some x -> c ∈ m_children x ->
    c ∈ tp /\ exists y, h !! c = Some y /\ p ∈ m_parents y;
  sh_cands p x : p ∈ q -> h !! p = Some x ->
    m_children x = [] /\ m_parents x <> [] /\ forall r, r ∈ m_parents x -> r ∈ tp }.

Definition status (tree cands : list avertex) (k : Z) : SPFStatus :=
  if bool_decide (k ∈ a_id <$> tree) then LSA_SPF_IN_SPFTREE
  else if bool_decide (k ∈ a_id <$> cands) then LSA_SPF_CANDIDATE else LSA_SPF_NOT_EXPLORED.

Lemma holds_insert h p y q l : p ∉ q -> Forall2 (holds h) q l -> Forall2 (holds (<[p:=y]> h)) q l.
Proof.
  intros Hp Hf. induction Hf as [|r a q l (x & Hx & Hs) _ IH]; constructor.
  - exists x. split; [|done]. apply not_elem_of_cons in Hp as [? _]. by rewrite lookup_insert_ne.
  - apply IH. set_solver.
Qed.
Lemma holds_update h p y q l w f :
  NoDup q -> NoDup (a_id <$> l) -> p ∈ q -> Forall2 (holds h) q l -> (forall x, h !! p = Some x -> m_vertexId x = w) ->
  (forall a, a ∈ l -> a_id a = w -> stands y (f a)) -> Forall2 (holds (<[p:=y]> h)) q (on_id w f l).
Proof.
  intros Hn Hn' Hp Hf Hw Hy. unfold on_id. revert Hn Hn' Hp Hy.
  induction Hf as [|r a q l (x & Hx & Hs) Hf IH]; simpl; intros Hn Hn' Hp Hy; [by apply elem_of_nil in Hp|].
  apply NoDup_cons in Hn as [Hr Hn]. apply NoDup_cons in Hn' as [Ha Hn'].
  destruct (decide (p = r)) as [->|Hne].
  - pose proof (Hw _ Hx) as Hid. rewrite (st_id _ _ Hs) in Hid. constructor.
    + rewrite Hid, Z.eqb_refl. exists y. rewrite lookup_insert_eq. split; [done|]. apply Hy; [by left|done].
    + rewrite (list_fmap_ext _ id l).
      * rewrite list_fmap_id. by apply holds_insert.
      * intros i b Hb. simpl. destruct (Z.eqb_spec (a_id b) w) as [E|]; [|done]. destruct Ha. rewrite Hid, <- E.
        by apply list_elem_of_fmap_2, (list_elem_of_lookup_2 _ i).
  - apply elem_of_cons in Hp as [?|Hp]; [done|]. constructor.
    + destruct (Z.eqb_spec (a_id a) w) as [E|].
      * exfalso. apply list_elem_of_lookup in Hp as [i Hi]. destruct (Forall2_lookup_l _ _ _ _ _ Hf Hi) as (b & Hb & x' & Hx' & Hs').
        apply Ha. rewrite E, <- (Hw _ Hx'), (st_id _ _ Hs'). by apply list_elem_of_fmap_2, (list_elem_of_lookup_2 _ i).
      * exists x. by rewrite lookup_insert_ne.
    + apply IH; [done..|]. intros b Hb. apply Hy. by right.
Qed.
Lemma holds_ids h q l p a b : Forall2 (holds h) q l -> NoDup q -> holds h p a -> p ∈ q -> b ∈ l -> a_id a = a_id b ->
  NoDup (a_id <$> l) -> a_dist a = a_dist b /\ a_exits a = a_exits b.
Proof.
  intros Hf Hq (x & Hx & Hs) [i Hi]%list_elem_of_lookup Hb E Hn.
  destruct (Forall2_lookup_l _ _ _ _ _ Hf Hi) as (c & Hc & x' & Hx' & Hs'). assert (x' = x) as -> by congruence.
  assert (c = b) as ->; [|destruct Hs, Hs'; split; congruence].
  eapply ids_inj; [done|by eapply list_elem_of_lookup_2|done|]. destruct Hs, Hs'. congruence.
Qed.

(** *** Changes of the heap that keep the shape *)

Lemma shape_perm h tp q q' : q ≡ₚ q' -> shape h tp q -> shape h tp q'.
Proof.
  intros E [Hd Hn Hp Hc Hq]. split; try done.
  - intros p. by rewrite <- E.
  - by rewrite <- E.
  - intros p x. rewrite <- E. apply Hq.
Qed.
Lemma shape_tree_alive h tp q p : shape h tp q -> p ∈ tp -> exists x, h !! p = Some x.
Proof. intros Hs Hp. apply (sh_dom _ _ _ Hs). set_solver. Qed.
Lemma shape_apart h tp q p : shape h tp q -> p ∈ tp -> p ∈ q -> False.
Proof. intros Hs H1 H2. pose proof (sh_nodup _ _ _ Hs) as Hn. rewrite NoDup_app in Hn. destruct Hn as (_ & N & _). by apply (N p). Qed.

(** A candidate gets other parents. *)
Lemma shape_set_cand h tp q p y :
  shape h tp q -> p ∈ q -> m_children y = [] -> m_parents y <> [] -> (forall r, r ∈ m_parents y -> r ∈ tp) ->
  shape (<[p:=y]> h) tp q.
Proof.
  intros Hs Hp Hy1 Hy2 Hy3. pose proof Hs as [Hd Hn Hpa Hc Hq].
  assert (forall r, r ∈ tp -> <[p:=y]> h !! r = h !! r) as Hsame.
  { intros r Hr. apply lookup_insert_ne. intros ->. by eapply shape_apart. }
  split; try done.
  - intros r. rewrite lookup_insert_is_Some, Hd. destruct (decide (p = r)) as [->|]; set_solver.
  - intros i r x Hi. rewrite Hsame by by eapply list_elem_of_lookup_2. intros Hx. destruct (Hpa i r x Hi Hx) as [? Hpar].
    split; [done|]. intros r' Hr'. destruct (Hpar r' Hr') as (j & z & ? & Hj & Hz & ?). exists j, z.
    rewrite Hsame by by eapply list_elem_of_lookup_2. done.
  - intros r x c Hr. rewrite Hsame by done. intros Hx Hcx. destruct (Hc r x c Hr Hx Hcx) as [Hct (z & Hz & ?)].
    split; [done|]. exists z. by rewrite Hsame.
  - intros r x Hr. destruct (decide (p = r)) as [->|Hne].
    + rewrite lookup_insert_eq. by intros [= <-].
    + rewrite lookup_insert_ne by done. by apply Hq.
Qed.
(** A new candidate *)
Lemma shape_new_cand h tp q p y :
  shape h tp q -> h !! p = None -> m_children y = [] -> m_parents y <> [] -> (forall r, r ∈ m_parents y -> r ∈ tp) ->
  shape (<[p:=y]> h) tp (p :: q).
Proof.
  intros Hs Hp Hy1 Hy2 Hy3. pose proof Hs as [Hd Hn Hpa Hc Hq].
  assert (p ∉ tp ++ q) as Hout by (rewrite <- Hd, Hp; intros [? ?]; done).
  assert (forall r, r ∈ tp ++ q -> <[p:=y]> h !! r = h !! r) as Hsame by (intros r Hr; apply lookup_insert_ne; set_solver).
  assert (forall r, r ∈ tp -> <[p:=y]> h !! r = h !! r) as Hsame' by (intros r Hr; apply Hsame; set_solver).
  split.
  - intros r. rewrite lookup_insert_is_Some, Hd. rewrite <- Permutation_middle, elem_of_cons.
    destruct (decide (p = r)) as [->|]; naive_solver.
  - rewrite <- Permutation_middle. by constructor.
  - intros i r x Hi. rewrite Hsame' by by eapply list_elem_of_lookup_2. intros Hx. destruct (Hpa i r x Hi Hx) as [? Hpar].
    split; [done|]. intros r' Hr'. destruct (Hpar r' Hr') as (j & z & ? & Hj & Hz & ?). exists j, z.
    rewrite Hsame' by by eapply list_elem_of_lookup_2. done.
  - intros r x c Hr. rewrite Hsame' by done. intros Hx Hcx. destruct (Hc r x c Hr Hx Hcx) as [Hct (z & Hz & ?)].
    split; [done|]. exists z. by rewrite Hsame'.
  - intros r x [->|Hr]%elem_of_cons.
    + rewrite lookup_insert_eq. by intros [= <-].
    + rewrite Hsame by set_solver. by apply Hq.
Qed.

(** *** The queue of the candidates *)

Lemma compare_less x y a b : stands x a -> stands y b -> CompareSPFVertex x y = dist_less a b.
Proof.
  intros Hx Hy. unfold CompareSPFVertex, dist_less. rewrite (st_dist _ _ Hx), (st_dist _ _ Hy), (st_type _ _ Hx).
  destruct (_ <? _); [done|]. by destruct (_ =? _).
Qed.
Section related.
Context {A B : Type} (P : A -> B -> Prop) (less1 : A -> A -> bool) (less2 : B -> B -> bool).
Hypothesis Hless : forall x y a b, P x a -> P y b -> less1 x y = less2 a b.
Lemma insert_upper_related x a l l' :
  P x a -> Forall2 P l l' -> Forall2 P (insert_upper less1 x l) (insert_upper less2 a l').
Proof using Hless.
  intros Hx. induction 1 as [|y b l l' Hy Hl IH]; simpl; [by repeat constructor|].
  rewrite (Hless x y a b Hx Hy). destruct (less2 a b); by repeat constructor.
Qed.
Lemma list_sort_related l l' : Forall2 P l l' -> Forall2 P (list_sort less1 l) (list_sort less2 l').
Proof using Hless.
  intros Hl. unfold list_sort. assert (Forall2 P [] []) as H0 by constructor. revert H0. generalize (@nil A) (@nil B).
  induction Hl as [|x a l l' Hx Hl IH]; intros s s' Hs; simpl; [done|]. apply IH. by apply insert_upper_related.
Qed.
End related.

(** A pointer with its vertex *)
Definition entry (h : gmap Z SPFVertex) (e : Z * SPFVertex) (a : avertex) : Prop := h !! e.1 = Some e.2 /\ stands e.2 a.
Lemma entry_less h x y a b : entry h x a -> entry h y b -> vertex_less x y = dist_less a b.
Proof. intros [_ Hx] [_ Hy]. by apply compare_less. Qed.
Lemma entries_holds h l cands : Forall2 (entry h) l cands -> Forall2 (holds h) l.*1 cands.
Proof. intros Hl. apply Forall2_fmap_l. eapply Forall2_impl; [exact Hl|]. intros [p x] a [? ?]. by exists x. Qed.
Lemma holds_entries h q cands : Forall2 (holds h) q cands ->
  exists l, mapM (fun p => pair p <$> h !! p) q = Some l /\ l.*1 = q /\ Forall2 (entry h) l cands.
Proof.
  induction 1 as [|p a q cands (x & Hx & Hs) _ (l & E & <- & Hl)]; [by exists []|].
  exists ((p, x) :: l). simpl. rewrite Hx. simpl. rewrite E. simpl. split; [done|]. split; [done|]. by constructor.
Qed.
Lemma find_entry h l cands w :
  Forall2 (entry h) l cands ->
  match List.find (fun a => a_id a =? w) cands with
  | Some a => exists x p, List.find (fun e => m_vertexId e.2 =? w) l = Some (p, x) /\ p ∈ l.*1 /\ entry h (p, x) a
  | None => List.find (fun e : Z * SPFVertex => m_vertexId e.2 =? w) l = None
  end.
Proof.
  induction 1 as [|[p x] a l cands Hx _ IH]; [done|]. cbn [List.find]. cbn [snd].
  pose proof (proj2 Hx) as Hs. cbn [snd] in Hs. rewrite (st_id _ _ Hs).
  destruct (a_id a =? w).
  - exists x, p. split; [done|]. split; [by left|done].
  - destruct (List.find (fun a => a_id a =? w) cands) as [b|]; [|done].
    destruct IH as (x' & p' & ? & ? & ?). exists x', p'. split; [done|]. split; [by right|done].
Qed.

Section refine.
Context {R : Type} `{Allocator}.
Implicit Types s : manager R.

(** ** Steps on the heap *)

Lemma run_vertex p x s : m_vertices s !! p = Some x -> vertex p s = Ok (x, s).
Proof using. intros E. unfold vertex. run. rewrite E. done. Qed.
Lemma run_on_vertex p f x s :
  m_vertices s !! p = Some x -> on_vertex p f s = Ok (tt, set_vertices (<[p := f x]> (m_vertices s)) s).
Proof using. intros E. unfold on_vertex. by rewrite (run_bind _ _ _ _ _ (run_vertex p x s E)). Qed.
Lemma run_lsa_at k a s : m_database s !! k = Some a -> lsa_at k s = Ok (a, s).
Proof using. intros E. unfold lsa_at, lookup_LSA. run. rewrite E. done. Qed.
Lemma run_vertex_lsa p x a s :
  m_vertices s !! p = Some x -> m_database s !! m_lsa x = Some a -> vertex_lsa p s = Ok (a, s).
Proof using. intros E1 E2. unfold vertex_lsa. rewrite (run_bind _ _ _ _ _ (run_vertex p x s E1)). by apply run_lsa_at. Qed.
Lemma run_vertex_type p x t s :
  m_vertices s !! p = Some x -> m_vertexType x = Some t -> vertex_type p s = Ok (t, s).
Proof using. intros E1 E2. unfold vertex_type. rewrite (run_bind _ _ _ _ _ (run_vertex p x s E1)), E2. done. Qed.

(** ** The network of the root *)

(** The routes of the router [rid] are those of the [k0]-th node. *)
Variables (net0 : net R) (rid : Z) (k0 : nat) (n0 : rnode R) (r0 : GlobalRouter R) (ip0 : Ipv4).
Hypothesis (Hindex : index_of (is_router rid) (n_nodes net0) 0 = Some k0).
Hypothesis (Hn0 : n_nodes net0 !! k0 = Some n0) (Hr0 : rn_router n0 = Some r0) (Hip0 : rn_ipv4 n0 = Some ip0).

Definition with_routes (gr : Ipv4GlobalRouting R) : net R :=
  set_node k0 (set_router (SetRoutingProtocol gr r0) n0) net0.

Lemma routed_index gr : index_of (is_router rid) (n_nodes (with_routes gr)) 0 = Some k0.
Proof using Hindex Hn0 Hr0.
  simpl. rewrite index_of_same; [done|]. intros m E. rewrite Hn0 in E. injection E as <-.
  unfold is_router. simpl. by rewrite Hr0.
Qed.
Lemma routed_node gr : n_nodes (with_routes gr) !! k0 = Some (set_router (SetRoutingProtocol gr r0) n0).
Proof using Hn0. simpl. apply list_lookup_insert_eq. by eapply lookup_lt_Some. Qed.
Lemma routed_again gr gr' :
  set_node k0 (set_router (SetRoutingProtocol gr' (SetRoutingProtocol gr r0)) (set_router (SetRoutingProtocol gr r0) n0))
    (with_routes gr) = with_routes gr'.
Proof using. unfold with_routes, set_node. simpl. by rewrite list_insert_insert_eq. Qed.

Lemma run_node_at s k n : n_nodes (m_net s) !! k = Some n -> node_at k s = Ok (n, s).
Proof using. intros E. unfold node_at. run. rewrite E. done. Qed.
Lemma run_router_index s gr : m_net s = with_routes gr -> router_index rid s = Ok (Some k0, s).
Proof using Hindex Hn0 Hr0. intros E. unfold router_index, gets. by rewrite E, routed_index. Qed.
Lemma run_root_id s x :
  m_spfroot s <> 0 -> m_vertices s !! m_spfroot s = Some x -> m_vertexId x = rid -> root_id s = Ok (rid, s).
Proof using.
  intros H1 H2 E. unfold root_id. run. destruct (Z.eqb_spec (m_spfroot s) 0); [done|]. simpl. run.
  rewrite (run_bind _ _ _ _ _ (run_vertex _ _ _ H2)). by rewrite E.
Qed.
Lemma run_on_routes s gr f :
  m_net s = with_routes gr -> on_routes k0 f s = Ok (tt, set_net (with_routes (f gr)) s).
Proof using Hn0.
  intros E. unfold on_routes.
  rewrite (run_bind _ _ s _ s (run_node_at s k0 _ ltac:(rewrite E; apply routed_node))). simpl. run.
  unfold check, update. simpl. rewrite run_lifted. cbv beta. by rewrite E, routed_again.
Qed.
Lemma run_has_routes s gr : m_net s = with_routes gr -> has_routes k0 s = Ok (tt, s).
Proof using Hn0.
  intros E. unfold has_routes.
  by rewrite (run_bind _ _ s _ s (run_node_at s k0 _ ltac:(rewrite E; apply routed_node))).
Qed.

(** The interface through which the root reaches an address of its own links. *)
Definition outgoing (a : Z) : Z := GetInterfaceForPrefix a Ipv4Address.mask_GetOnes ip0.
Lemma run_FindOutgoing s gr x a :
  m_net s = with_routes gr -> m_spfroot s <> 0 -> m_vertices s !! m_spfroot s = Some x -> m_vertexId x = rid ->
  FindOutgoingInterfaceId a Ipv4Address.mask_GetOnes s = Ok (outgoing a, s).
Proof using Hindex Hn0 Hr0 Hip0.
  intros En H1 H2 H3. unfold FindOutgoingInterfaceId. rewrite (run_bind _ _ _ _ _ (run_root_id s x H1 H2 H3)).
  rewrite (run_bind _ _ _ _ _ (run_router_index s gr En)).
  rewrite (run_bind _ _ s _ s (run_node_at s k0 _ ltac:(rewrite En; apply routed_node))). simpl. by rewrite Hip0.
Qed.

(** ** Next hops *)

Variable db0 : gmap Z GlobalRoutingLSA.
Hypothesis Hdb : router_db db0.

(** The exit of the root that its link [l] is. *)
Definition first_exit (l : GlobalRoutingLinkRecord) : Z * Z :=
  (match link_towards db0 (m_linkId l) rid with Some r => m_linkData r | None => 0 end,
   as_interface (outgoing (m_linkData l))).

(** The database holds the advertisements of [db0] with the statuses [st]. *)
Definition db_with (st : Z -> SPFStatus) (db : gmap Z GlobalRoutingLSA) : Prop :=
  forall k, db !! k = SetStatus (st k) <$> db0 !! k.
(** The root is a vertex of the identifier [rid], and the routes are [gr]. *)
Definition rooted (gr : Ipv4GlobalRouting R) s : Prop :=
  m_net s = with_routes gr /\ m_spfroot s <> 0 /\
  exists x, m_vertices s !! m_spfroot s = Some x /\ m_vertexId x = rid.

Lemma db_with_lookup st db k a : db_with st db -> db0 !! k = Some a -> db !! k = Some (SetStatus (st k) a).
Proof using. intros Hd E. by rewrite (Hd k), E. Qed.

(** The vertex [y] reached at the distance [d] through [v]. *)
Definition reached (y : SPFVertex) (d oif nh : Z) (es : list (Z * Z)) (v : Z) : SPFVertex :=
  mkVertex (m_vertexType y) (m_vertexId y) (m_lsa y) d oif nh es [v] (m_children y) (m_vertexProcessed y).

Lemma nexthop_ok s gr st v x w y l d :
  rooted gr s -> db_with st (m_database s) ->
  m_vertices s !! v = Some x -> m_vertexType x = Some VertexRouter -> (v = m_spfroot s <-> m_vertexId x = rid) ->
  m_vertices s !! w = Some y -> m_vertexType y = Some VertexRouter -> m_lsa y = m_linkId l ->
  v <> w -> w <> m_spfroot s -> l ∈ links_of db0 (m_vertexId x) ->
  exists oif nh, SPFNexthopCalculation v w (Some l) d s =
    Ok (true, set_vertices (<[w := reached y d oif nh
      (if m_vertexId x =? rid then [first_exit l] else m_ecmpRootExits x) v]> (m_vertices s)) s).
Proof using Hindex Hn0 Hr0 Hip0 Hdb.
  intros (En & Hnz & rx & Hrx & Hrid) Hst Hv Htv Hroot Hw Htw Hlsa Hvw Hwr Hl.
  unfold SPFNexthopCalculation. run. destruct (db_back _ Hdb _ _ Hl) as [(b & Hb) (r & Hback)].
  destruct (v =? m_spfroot s) eqn:E; bool_to_Z.
  - assert (m_vertexId x = rid) as Hx by by apply Hroot. rewrite Hx, Z.eqb_refl in *.
    assert (SPFGetNextLink w v None s = Ok (Some r, s)) as Hnext.
    { unfold SPFGetNextLink. rewrite (run_bind _ _ s (SetStatus (st (m_linkId l)) b) s).
      - rewrite (run_bind _ _ _ _ _ (run_vertex _ _ _ Hv)), Hx. simpl. rewrite <- Hback. unfold link_towards. by rewrite Hb.
      - eapply run_vertex_lsa; [done|]. rewrite Hlsa. by apply db_with_lookup. }
    rewrite (run_bind _ _ s false (set_vertices (<[w := reached y d (as_interface (outgoing (m_linkData l)))
      (m_linkData r) [first_exit l] v]> (m_vertices s)) s)).
    + exists (as_interface (outgoing (m_linkData l))), (m_linkData r). cbn iota.
      rewrite (run_bind _ _ _ _ _ (run_on_vertex w _ _ _ (lookup_insert_eq _ _ _))). simpl. rewrite insert_insert_eq.
      rewrite (run_bind _ _ _ _ _ (run_on_vertex w _ _ _ (lookup_insert_eq _ _ _))). simpl. by rewrite insert_insert_eq.
    + rewrite (run_bind _ _ _ _ _ (run_vertex_type _ _ _ _ Hw Htw)). unfold check. run.
      rewrite (run_bind _ _ _ _ _ Hnext). simpl. run.
      rewrite (run_bind _ _ _ _ _ (run_FindOutgoing s gr rx _ En Hnz Hrx Hrid)).
      rewrite (run_bind _ _ _ _ _ (run_on_vertex w _ _ _ Hw)).
      rewrite (run_bind _ _ _ _ _ (run_on_vertex w _ _ _ (lookup_insert_eq _ _ _))). simpl. rewrite insert_insert_eq.
      rewrite (run_bind _ _ _ _ _ (run_on_vertex w _ _ _ (lookup_insert_eq _ _ _))). simpl. rewrite insert_insert_eq.
      unfold first_exit, reached. by rewrite Hback.
  - destruct (m_vertexId x =? rid) eqn:E2; bool_to_Z; [by apply Hroot in E2|].
    exists (m_rootOif y), (m_nextHop y).
    rewrite (run_bind _ _ s false (set_vertices (<[w := InheritAllRootExitDirections x y]> (m_vertices s)) s)).
    + cbn iota.
      rewrite (run_bind _ _ _ _ _ (run_on_vertex w _ _ _ (lookup_insert_eq _ _ _))). simpl. rewrite insert_insert_eq.
      rewrite (run_bind _ _ _ _ _ (run_on_vertex w _ _ _ (lookup_insert_eq _ _ _))). simpl. by rewrite insert_insert_eq.
    + rewrite (run_bind _ _ _ _ _ (run_vertex_type _ _ _ _ Hv Htv)).
      rewrite (run_bind _ _ _ _ _ (run_vertex _ _ _ Hv)).
      by rewrite (run_bind _ _ _ _ _ (run_on_vertex w _ _ _ Hw)).
Qed.

(** ** The relation *)

Record repr (ext0 : list GlobalRoutingLSA) (gr : Ipv4GlobalRouting R) (tp : list Z) (tree cands : list avertex) s : Prop := {
  r_rooted : rooted gr s;
  r_head : tp !! 0%nat = Some (m_spfroot s);
  r_db : db_with (status tree cands) (m_database s);
  r_ext : m_extdatabase s = ext0;
  r_tree : Forall2 (holds (m_vertices s)) tp tree;
  r_cands : Forall2 (holds (m_vertices s)) (m_candidates s) cands;
  r_shape : shape (m_vertices s) tp (m_candidates s);
  r_ids : NoDup (a_id <$> tree ++ cands);
  r_known k : k ∈ a_id <$> tree ++ cands -> is_Some (db0 !! k) }.


(** ** Examining a link *)

Abbreviation relax := (relax m_linkId m_metric first_exit rid).
Abbreviation contribution := (contribution first_exit rid).

Lemma run_with_vertices s q cands :
  Forall2 (holds (m_vertices s)) q cands ->
  exists l, with_vertices q s = Ok (l, s) /\ l.*1 = q /\ Forall2 (entry (m_vertices s)) l cands.
Proof using. intros (l & E & ? & ?)%holds_entries. exists l. unfold with_vertices. by rewrite E. Qed.

Lemma Push_ok s p x a cands :
  Forall2 (holds (m_vertices s)) (m_candidates s) cands -> m_vertices s !! p = Some x -> stands x a ->
  exists q, Push p s = Ok (tt, set_candidates q s) /\ q ≡ₚ p :: m_candidates s /\
    Forall2 (holds (m_vertices s)) q (insert_upper dist_less a cands).
Proof using.
  intros Hc Hx Hs. destruct (run_with_vertices _ _ _ Hc) as (l & E & El & Hl).
  exists (insert_upper vertex_less (p, x) l).*1. split; [|split].
  - unfold Push. rewrite (run_bind _ _ _ _ _ (run_vertex _ _ _ Hx)).
    rewrite (run_bind _ _ s l s); [done|]. by run.
  - by rewrite insert_upper_perm, fmap_cons, El.
  - apply entries_holds. apply (insert_upper_related (entry (m_vertices s))); [by apply entry_less|done|done].
Qed.
Lemma Reorder_ok s cands :
  Forall2 (holds (m_vertices s)) (m_candidates s) cands ->
  exists q, Reorder s = Ok (tt, set_candidates q s) /\ q ≡ₚ m_candidates s /\
    Forall2 (holds (m_vertices s)) q (list_sort dist_less cands).
Proof using.
  intros Hc. destruct (run_with_vertices _ _ _ Hc) as (l & E & El & Hl).
  exists (list_sort vertex_less l).*1. split; [|split].
  - unfold Reorder. rewrite (run_bind _ _ s l s); [done|]. by run.
  - rewrite list_sort_perm. by rewrite El.
  - apply entries_holds. apply (list_sort_related (entry (m_vertices s))); [by apply entry_less|done].
Qed.
Lemma Find_ok s cands w c :
  Forall2 (holds (m_vertices s)) (m_candidates s) cands -> List.find (fun a => a_id a =? w) cands = Some c ->
  exists p x, Find w s = Ok (p, s) /\ p ∈ m_candidates s /\ m_vertices s !! p = Some x /\ stands x c.
Proof using.
  intros Hc Hf. destruct (run_with_vertices _ _ _ Hc) as (l & E & El & Hl).
  pose proof (find_entry _ _ _ w Hl) as Hfe. rewrite Hf in Hfe. destruct Hfe as (x & p & Ep & Hp & Hx & Hst).
  exists p, x. split; [|by rewrite <- El]. unfold Find. rewrite (run_bind _ _ s l s) by (run; done). by rewrite Ep.
Qed.

(** The vertex [a] of the tree, at [v], whose link [l] is examined. *)
Record looking (tp : list Z) (tree : list avertex) s (v : Z) (a : avertex) (l : GlobalRoutingLinkRecord) : Prop := {
  lk_ptr : v ∈ tp;
  lk_in : a ∈ tree;
  lk_holds : holds (m_vertices s) v a;
  lk_link : l ∈ links_of db0 (a_id a);
  lk_dist : 0 <= a_dist a /\ a_dist a + 2 ^ 16 <= 2 ^ 32 }.

Lemma root_iff ext0 gr tp tree cands s v a :
  repr ext0 gr tp tree cands s -> v ∈ tp -> holds (m_vertices s) v a -> a ∈ tree -> v = m_spfroot s <-> a_id a = rid.
Proof using.
  intros Hr Hv (x & Hx & Hs) Ha. destruct (r_rooted _ _ _ _ _ _ Hr) as (_ & _ & rx & Hrx & Hid). split.
  - intros ->. rewrite <- (st_id _ _ Hs). congruence.
  - intros E. destruct (Forall2_lookup_l _ _ _ _ _ (r_tree _ _ _ _ _ _ Hr) (r_head _ _ _ _ _ _ Hr)) as (b & Hb & x' & Hx' & Hs').
    assert (x' = rx) as -> by congruence. pose proof (r_ids _ _ _ _ _ _ Hr) as Hn. rewrite fmap_app, NoDup_app in Hn.
    destruct Hn as [Hn _]. assert (a = b) as -> by (eapply ids_inj; [done..|by eapply list_elem_of_lookup_2|destruct Hs'; congruence]).
    apply list_elem_of_lookup in Hv as [i Hi].
    destruct (Forall2_lookup_l _ _ _ _ _ (r_tree _ _ _ _ _ _ Hr) Hi) as (c & Hc & x'' & Hx'' & Hs'').
    assert (i = 0%nat) as ->; [|pose proof (r_head _ _ _ _ _ _ Hr); congruence].
    eapply (NoDup_lookup (a_id <$> tree)); [done|by rewrite list_lookup_fmap, Hc|rewrite list_lookup_fmap, Hb; simpl].
    f_equal. assert (x'' = x) as -> by congruence. destruct Hs, Hs''. congruence.
Qed.

Lemma db_with_set st st' db w t :
  db_with st db -> st' w = t -> (forall k, k <> w -> st' k = st k) -> db_with st' (alter (SetStatus t) w db).
Proof using.
  intros Hd Ht Hk k. destruct (decide (k = w)) as [->|Hne].
  - rewrite lookup_alter_eq, (Hd w), Ht. by destruct (db0 !! w).
  - rewrite lookup_alter_ne by done. by rewrite (Hd k), Hk.
Qed.
Lemma db_with_ext st st' db : db_with st db -> (forall k, st' k = st k) -> db_with st' db.
Proof using. intros Hd E k. by rewrite E. Qed.
Lemma status_same tree cands cands' k :
  (k ∈ a_id <$> cands' <-> k ∈ a_id <$> cands) -> status tree cands' k = status tree cands k.
Proof using. intros E. unfold status. by rewrite (bool_decide_ext _ _ E). Qed.

(** A state that differs from a related one by a vertex that is not the root. *)
Lemma rooted_insert gr s p y :
  rooted gr s -> p <> m_spfroot s -> rooted gr (set_vertices (<[p:=y]> (m_vertices s)) s).
Proof using. intros (? & ? & x & ? & ?) Hp. split; [done|]. split; [done|]. exists x. split; [|done].
  transitivity (m_vertices s !! m_spfroot s); [by apply lookup_insert_ne|done]. Qed.

Lemma filter_absent (p : Z) (l : list Z) : p ∉ l -> filter (fun c => c <> p) l = l.
Proof using.
  induction l as [|c r IH]; intros Hp; [done|]. apply not_elem_of_cons in Hp as [? ?].
  rewrite filter_cons_True by done. by rewrite IH.
Qed.
Lemma alive_fuel s p x : m_vertices s !! p = Some x -> exists n, size (m_vertices s) = S n.
Proof using.
  intros Hx. destruct (size (m_vertices s)) as [|n] eqn:E; [|by exists n]. apply map_size_empty_inv in E.
  by rewrite E, lookup_empty in Hx.
Qed.
(** A vertex with one parent and no children is deleted. *)
Lemma destroy_leaf s p x u z :
  m_vertices s !! p = Some x -> m_children x = [] -> m_parents x = [u] -> u <> p -> m_vertices s !! u = Some z ->
  destroy p s = Ok (tt, set_vertices (delete p
    (<[u := set_children (filter (fun c => c <> p) (m_children z)) z]> (m_vertices s))) s).
Proof using.
  intros Hx Hc Hp Hne Hz. set (z' := set_children (filter (fun c => c <> p) (m_children z)) z).
  assert (<[u:=z']> (m_vertices s) !! p = Some x) as Hx' by by rewrite lookup_insert_ne.
  unfold destroy. run. destruct (alive_fuel _ _ _ Hx) as [n ->]. cbn [delete_vertex].
  rewrite (run_bind _ _ _ _ _ (run_vertex _ _ _ Hx)), Hp. cbn [each].
  rewrite (run_bind _ _ s tt (set_vertices (<[u := z']> (m_vertices s)) s)).
  2:{ unfold remove_child. by rewrite (run_bind _ _ _ _ _ (run_on_vertex u _ _ _ Hz)). }
  rewrite Hc. cbn [length delete_children].
  rewrite (run_bind _ _ _ tt (set_vertices (<[u := z']> (m_vertices s)) s)).
  2:{ rewrite (run_bind _ _ _ x _ (run_vertex p x (set_vertices _ s) Hx')). by rewrite Hc. }
  done.
Qed.

Section steps.
Context (ext0 : list GlobalRoutingLSA) (gr : Ipv4GlobalRouting R) (tp : list Z) (tree cands : list avertex) (s : manager R).
Context (v : Z) (a : avertex) (l : GlobalRoutingLinkRecord).
Hypothesis (Hrepr : repr ext0 gr tp tree cands s) (Hlook : looking tp tree s v a l).
Abbreviation w := (m_linkId l).
Abbreviation d := (a_dist a + m_metric l).
Abbreviation target := (mkA w d (contribution a l)).

Lemma target_lsa : exists lw, db0 !! w = Some lw /\ m_lsType lw = RouterLSA /\ m_linkStateId lw = w.
Proof using Hdb Hlook.
  destruct (db_back _ Hdb _ _ (lk_link _ _ _ _ _ _ Hlook)) as [(lw & E) _]. exists lw. split; [done|]. by apply (db_router _ Hdb).
Qed.
Lemma root_alive : m_vertices s !! m_spfroot s <> None /\ m_spfroot s ∈ tp.
Proof using Hrepr.
  destruct (r_rooted _ _ _ _ _ _ Hrepr) as (_ & _ & x & E & _). rewrite E. split; [done|].
  eapply list_elem_of_lookup_2, (r_head _ _ _ _ _ _ Hrepr).
Qed.

(** [SPFNexthopCalculation] for a vertex of [w] that is not the root. *)
Lemma nexthop_step s0 st p y :
  rooted gr s0 -> m_spfroot s0 = m_spfroot s -> m_vertices s0 !! v = m_vertices s !! v -> db_with st (m_database s0) ->
  m_vertices s0 !! p = Some y -> m_vertexType y = Some VertexRouter -> m_lsa y = w -> p ∉ tp ->
  exists oif nh, SPFNexthopCalculation v p (Some l) d s0 =
    Ok (true, set_vertices (<[p := reached y d oif nh (contribution a l) v]> (m_vertices s0)) s0).
Proof using Hindex Hn0 Hr0 Hip0 Hdb Hrepr Hlook.
  intros Hro Esp Ev Hst Hp Ht Hl Hout. destruct (lk_holds _ _ _ _ _ _ Hlook) as (x & Hx & Hs).
  pose proof (root_iff _ _ _ _ _ _ _ _ Hrepr (lk_ptr _ _ _ _ _ _ Hlook) (lk_holds _ _ _ _ _ _ Hlook) (lk_in _ _ _ _ _ _ Hlook)) as Hri.
  destruct (nexthop_ok s0 gr st v x p y l d) as (oif & nh & E); try done.
  - by rewrite Ev.
  - apply (st_type _ _ Hs).
  - rewrite Esp, Hri. by rewrite (st_id _ _ Hs).
  - intros E. apply Hout. rewrite <- E. apply (lk_ptr _ _ _ _ _ _ Hlook).
  - rewrite Esp. intros E. apply Hout. rewrite E. apply root_alive.
  - rewrite (st_id _ _ Hs). apply (lk_link _ _ _ _ _ _ Hlook).
  - exists oif, nh. rewrite E. unfold ShortestPaths.contribution. rewrite (st_id _ _ Hs). destruct (a_id a =? rid); [done|].
    by rewrite (st_exits _ _ Hs).
Qed.

Lemma new_candidate_ok :
  w ∉ a_id <$> tree -> w ∉ a_id <$> cands ->
  exists s', new_candidate v w (Some l) d s = Ok (tt, s') /\
    repr ext0 gr tp tree (insert_upper dist_less target cands) s'.
Proof using Hindex Hn0 Hr0 Hip0 Hdb Hrepr Hlook.
  intros Hwt Hwc. destruct target_lsa as (lw & Elw & Etype & Eid). pose proof Hrepr as [Hro Hh Hd He Ht Hc Hs Hi Hk].
  pose proof (db_with_lookup _ _ _ _ Hd Elw) as Ew. set (p := fresh (m_vertices s)).
  assert (m_vertices s !! p = None) as Hp by apply fresh_new.
  assert (p ∉ tp ++ m_candidates s) as Hpo by (rewrite <- (sh_dom _ _ _ Hs), Hp; by intros [? ?]).
  assert (p ∉ tp) as Hpt by set_solver.
  set (y := new_vertex w (SetStatus (status tree cands w) lw)).
  set (s1 := set_vertices (<[p := y]> (m_vertices s)) s).
  assert (make_vertex w s = Ok (p, s1)) as E1.
  { unfold make_vertex. by rewrite (run_bind _ _ _ _ _ (run_lsa_at _ _ _ Ew)). }
  destruct (nexthop_step s1 (status tree cands) p y) as (oif & nh & E2); try done.
  { apply rooted_insert; [done|]. intros E. apply Hpt. rewrite E. apply root_alive. }
  { simpl. apply lookup_insert_ne. intros E. apply Hpt. rewrite E. apply (lk_ptr _ _ _ _ _ _ Hlook). }
  { simpl. apply lookup_insert_eq. }
  { simpl. by rewrite Etype. }
  simpl in E2. rewrite insert_insert_eq in E2. set (y' := reached y d oif nh (contribution a l) v) in E2.
  set (s2 := set_database (alter (SetStatus LSA_SPF_CANDIDATE) w (m_database s)) (set_vertices (<[p:=y']> (m_vertices s)) s)).
  assert (stands y' target) as Hst by (split; simpl; by rewrite ?Etype, ?Eid).
  destruct (Push_ok s2 p y' target cands) as (q & E3 & Hq & Hqc); try done.
  { simpl. apply holds_insert; [set_solver|done]. }
  { simpl. apply lookup_insert_eq. }
  exists (set_candidates q s2). split.
  { unfold new_candidate. rewrite (run_bind _ _ _ _ _ E1), (run_bind _ _ _ _ _ E2). cbn iota. unfold set_status. run. exact E3. }
  assert (forall k, k ∈ a_id <$> insert_upper dist_less target cands <-> k = w \/ k ∈ a_id <$> cands) as Hids
    by (intros k; rewrite insert_upper_perm; set_solver).
  split; try done; simpl.
  - destruct (rooted_insert gr s p y' Hro) as (? & ? & ?); [|done]. intros E. apply Hpt. rewrite E. apply root_alive.
  - eapply db_with_set; [exact Hd| |].
    + unfold status. rewrite bool_decide_eq_false_2 by done. rewrite bool_decide_eq_true_2; [done|]. rewrite Hids. by left.
    + intros k Hne. apply status_same. rewrite Hids. naive_solver.
  - by apply holds_insert.
  - apply (shape_perm _ _ (p :: m_candidates s)); [done|]. apply shape_new_cand; [done..|].
    intros r ->%list_elem_of_singleton. apply (lk_ptr _ _ _ _ _ _ Hlook).
  - rewrite insert_upper_perm, <- Permutation_middle. simpl. constructor; [|done]. rewrite fmap_app. set_solver.
  - intros k. rewrite fmap_app, elem_of_app, Hids. intros [Hkt|[->|Hkc]]; [apply Hk|by rewrite Elw|apply Hk]; rewrite fmap_app; set_solver.
Qed.

(** A candidate gets new exits, parents and distance; the queue is then the one given. *)
Lemma update_candidate f q cw x y cands' :
  w ∉ a_id <$> tree -> cw ∈ m_candidates s -> m_vertices s !! cw = Some x -> m_vertexId x = w ->
  m_children y = m_children x -> m_parents y <> [] -> (forall r, r ∈ m_parents y -> r ∈ tp) ->
  (forall b, a_id b = w -> a_id (f b) = w) -> q ≡ₚ m_candidates s -> cands' ≡ₚ on_id w f cands ->
  Forall2 (holds (<[cw:=y]> (m_vertices s))) q cands' ->
  repr ext0 gr tp tree cands' (set_candidates q (set_vertices (<[cw:=y]> (m_vertices s)) s)).
Proof using Hrepr.
  intros Hwt Hcw Hx Hid Hch Hpar Hpar' Hf Hq Hc' Hqc. pose proof Hrepr as [Hro Hh Hd He Ht Hc Hs Hi Hk].
  assert (cw ∉ tp) as Hct by (intros ?; by eapply shape_apart).
  assert (a_id <$> cands' ≡ₚ a_id <$> cands) as Hids by by by rewrite Hc', ids_on_id.
  split; try done; simpl.
  - destruct (rooted_insert gr s cw y Hro) as (? & ? & ?); [|done]. intros E. apply Hct. rewrite E. apply root_alive.
  - eapply db_with_ext; [exact Hd|]. intros k. apply status_same. by rewrite Hids.
  - by apply holds_insert.
  - apply (shape_perm _ _ (m_candidates s)); [done|]. apply shape_set_cand; [done..| |done|done].
    rewrite Hch. by apply (sh_cands _ _ _ Hs cw).
  - rewrite fmap_app, Hids, <- fmap_app. done.
  - intros k. rewrite fmap_app, Hids, <- fmap_app. apply Hk.
Qed.
Lemma candidate_update f cw x y c :
  cw ∈ m_candidates s -> m_vertices s !! cw = Some x -> stands x c -> a_id c = w -> c ∈ cands -> stands y (f c) ->
  Forall2 (holds (<[cw:=y]> (m_vertices s))) (m_candidates s) (on_id w f cands).
Proof using Hrepr.
  intros Hcw Hx Hst Hid Hin Hy. pose proof Hrepr as [Hro Hh Hd He Ht Hc Hs Hi Hk].
  pose proof (sh_nodup _ _ _ Hs) as Hn. rewrite NoDup_app in Hn. rewrite fmap_app, NoDup_app in Hi.
  apply holds_update; try done; try tauto.
  - intros x' Hx'. assert (x' = x) as -> by congruence. by rewrite (st_id _ _ Hst).
  - intros b Hb E. assert (b = c) as ->; [|done]. eapply ids_inj; [apply Hi|done|done|congruence].
Qed.

Lemma merge_candidate_ok cw x c :
  w ∉ a_id <$> tree -> cw ∈ m_candidates s -> m_vertices s !! cw = Some x -> stands x c -> a_id c = w -> c ∈ cands ->
  exists s', merge_candidate v w cw (Some l) d s = Ok (tt, s') /\
    repr ext0 gr tp tree (on_id w (merge_exits (contribution a l)) cands) s'.
Proof using Hindex Hn0 Hr0 Hip0 Hdb Hrepr Hlook.
  intros Hwt Hcw Hx Hst Hid Hin. destruct target_lsa as (lw & Elw & Etype & Eid). pose proof Hrepr as [Hro Hh Hd He Ht Hc Hs Hi Hk].
  pose proof (db_with_lookup _ _ _ _ Hd Elw) as Ew. set (p := fresh (m_vertices s)).
  assert (m_vertices s !! p = None) as Hp by apply fresh_new.
  assert (p ∉ tp ++ m_candidates s) as Hpo by (rewrite <- (sh_dom _ _ _ Hs), Hp; by intros [? ?]).
  assert (v ∈ tp) as Hv by apply (lk_ptr _ _ _ _ _ _ Hlook).
  assert (cw <> p) as Hcp by (intros ->; set_solver). assert (v <> p) as Hvp by (intros ->; set_solver).
  assert (v <> cw) as Hvc by (intros ->; by eapply shape_apart).
  destruct (lk_holds _ _ _ _ _ _ Hlook) as (xv & Hxv & Hsv).
  set (y := new_vertex w (SetStatus (status tree cands w) lw)).
  set (s1 := set_vertices (<[p := y]> (m_vertices s)) s).
  assert (make_vertex w s = Ok (p, s1)) as E1.
  { unfold make_vertex. by rewrite (run_bind _ _ _ _ _ (run_lsa_at _ _ _ Ew)). }
  destruct (nexthop_step s1 (status tree cands) p y) as (oif & nh & E2); try done.
  { apply rooted_insert; [done|]. intros E. apply Hpo. rewrite E. apply elem_of_app. left. apply root_alive. }
  { simpl. by apply lookup_insert_ne. }
  { simpl. apply lookup_insert_eq. }
  { simpl. by rewrite Etype. }
  { set_solver. }
  simpl in E2. rewrite insert_insert_eq in E2. set (y' := reached y d oif nh (contribution a l) v) in E2.
  set (h2 := <[p:=y']> (m_vertices s)) in E2. set (z := MergeParent y' (MergeRootExitDirections y' x)).
  assert (h2 !! p = Some y') as Hp2 by apply lookup_insert_eq.
  assert (h2 !! cw = Some x) as Hcw2 by (unfold h2; by rewrite lookup_insert_ne).
  set (h3 := <[cw:=z]> h2).
  assert (h3 !! p = Some y') as Hp3 by (unfold h3; by rewrite lookup_insert_ne).
  assert (h3 !! v = Some xv) as Hv3 by (unfold h3, h2; by rewrite !lookup_insert_ne).
  assert (p ∉ m_children xv) as Hpc.
  { intros Hc'. destruct (sh_children _ _ _ Hs v xv p Hv Hxv Hc') as [? _]. set_solver. }
  exists (set_candidates (m_candidates s) (set_vertices (<[cw:=z]> (m_vertices s)) s)). split.
  - unfold merge_candidate. rewrite (run_bind _ _ _ _ _ E1), (run_bind _ _ _ _ _ E2).
    rewrite (run_bind _ _ _ _ _ (run_vertex p y' (set_vertices h2 s1) Hp2)).
    rewrite (run_bind _ _ _ _ _ (run_on_vertex cw _ x (set_vertices h2 s1) Hcw2)). simpl.
    rewrite (run_bind _ _ _ _ _ (run_on_vertex cw _ _ (set_vertices _ _) (lookup_insert_eq _ _ _))). simpl.
    rewrite insert_insert_eq. fold z. fold h3.
    rewrite (run_bind _ _ _ tt (set_vertices (<[v:=AddChild p xv]> h3) s)).
    2:{ unfold SPFVertexAddParent. rewrite (run_bind _ _ _ _ _ (run_vertex p y' (set_vertices h3 s1) Hp3)). simpl.
        by rewrite (run_bind _ _ _ _ _ (run_on_vertex v _ xv (set_vertices h3 s1) Hv3)). }
    rewrite (destroy_leaf _ p y' v (AddChild p xv)); [|simpl; by rewrite lookup_insert_ne|done..|simpl; by rewrite lookup_insert_eq].
    simpl. rewrite insert_insert_eq. do 2 f_equal. unfold set_vertices, set_candidates. simpl. f_equal.
    unfold h3, h2. rewrite filter_app, filter_cons_False, filter_nil, app_nil_r by naive_solver.
    rewrite filter_absent by done.
    apply map_eq. intros r. destruct (decide (r = p)) as [->|Hrp]; [rewrite lookup_delete_eq, lookup_insert_ne by done; by rewrite Hp|].
    rewrite lookup_delete_ne by done. destruct (decide (r = v)) as [->|Hrv].
    + rewrite lookup_insert_eq, lookup_insert_ne, Hxv by done. by destruct xv.
    + rewrite lookup_insert_ne by done. destruct (decide (r = cw)) as [->|Hrc]; [by rewrite !lookup_insert_eq|].
      by rewrite !lookup_insert_ne.
  - assert (forall r, r ∈ m_parents z <-> r ∈ m_parents x \/ r = v) as Hpz.
    { intros r. unfold z. simpl. rewrite elem_of_unique, list_sort_perm, elem_of_app, list_elem_of_singleton. done. }
    destruct (sh_cands _ _ _ Hs cw x Hcw Hx) as (Hcx & Hpx & Hpx').
    apply (update_candidate (merge_exits (contribution a l)) _ _ x); try done.
    + by rewrite (st_id _ _ Hst).
    + intros E. assert (v ∈ m_parents z) as Hvz by (apply Hpz; by right). rewrite E in Hvz. by apply elem_of_nil in Hvz.
    + intros r [?| ->]%Hpz; [by apply Hpx'|done].
    + eapply candidate_update; [done..|]. destruct Hst. split; simpl; try done. by rewrite st_exits0.
Qed.

Lemma shorten_candidate_ok cw x c :
  w ∉ a_id <$> tree -> cw ∈ m_candidates s -> m_vertices s !! cw = Some x -> stands x c -> a_id c = w -> c ∈ cands ->
  exists s', shorten_candidate v cw (Some l) d s = Ok (tt, s') /\
    repr ext0 gr tp tree (list_sort dist_less (on_id w (fun _ => target) cands)) s'.
Proof using Hindex Hn0 Hr0 Hip0 Hdb Hrepr Hlook.
  intros Hwt Hcw Hx Hst Hid Hin. pose proof Hrepr as [Hro Hh Hd He Ht Hc Hs Hi Hk].
  assert (v ∈ tp) as Hv by apply (lk_ptr _ _ _ _ _ _ Hlook).
  assert (cw ∉ tp) as Hct by (intros ?; by eapply shape_apart).
  destruct (nexthop_step s (status tree cands) cw x) as (oif & nh & E1); try done.
  { apply (st_type _ _ Hst). }
  { by rewrite (st_lsa _ _ Hst). }
  set (y := reached x d oif nh (contribution a l) v) in E1.
  assert (Forall2 (holds (<[cw:=y]> (m_vertices s))) (m_candidates s) (on_id w (fun _ => target) cands)) as Hu.
  { eapply candidate_update; [done..|]. destruct Hst. split; simpl; congruence. }
  destruct (Reorder_ok (set_vertices (<[cw:=y]> (m_vertices s)) s) _ Hu) as (q & E2 & Hq & Hqc).
  exists (set_candidates q (set_vertices (<[cw:=y]> (m_vertices s)) s)). split.
  - unfold shorten_candidate. rewrite (run_bind _ _ _ _ _ E1). exact E2.
  - apply (update_candidate (fun _ => target) _ _ x); try done.
    + by rewrite (st_id _ _ Hst).
    + intros r ->%list_elem_of_singleton. done.
    + apply list_sort_perm.
Qed.

Lemma link_distance_ok :
  link_distance v (Some l) s = Ok (d, s).
Proof using Hdb Hrepr Hlook.
  destruct Hlook as [_ _ (x & Hx & Hs) Hl Hdist]. unfold link_distance.
  pose proof Hl as (la & Ela & Hin & Ht)%links_of_elem. pose proof (db_with_lookup _ _ _ _ (r_db _ _ _ _ _ _ Hrepr) Ela) as E.
  rewrite (run_bind _ _ _ _ _ (run_vertex_lsa v x _ s Hx ltac:(rewrite (st_lsa _ _ Hs); exact E))).
  rewrite (run_bind _ _ _ _ _ (run_vertex v x s Hx)). simpl.
  rewrite bool_decide_eq_true_2 by by apply (db_router _ Hdb _ _ Ela). unfold check. run.
  rewrite (st_dist _ _ Hs). rewrite wrap_small; [done|]. pose proof (db_cost _ Hdb _ _ Hl). unfold in_range. lia.
Qed.

(** The branches of [examine] after the advertisement of the link is found. *)
Lemma examine_link i :
  link_target v i s = Ok (Some (w, Some l), s) ->
  exists s', examine v i s = Ok (tt, s') /\ repr ext0 gr tp tree (relax tree a cands l) s'.
Proof using Hindex Hn0 Hr0 Hip0 Hdb Hrepr Hlook.
  intros Et. pose proof Hrepr as [Hro Hh Hd He Ht Hc Hs Hi Hk].
  destruct target_lsa as (lw & Elw & Etype & Eid). pose proof (db_with_lookup _ _ _ _ Hd Elw) as Ew.
  unfold examine. rewrite (run_bind _ _ _ _ _ Et). cbn iota.
  rewrite (run_bind _ _ _ _ _ (run_lsa_at _ _ _ Ew)). unfold ShortestPaths.relax. cbn zeta.
  change (m_status (SetStatus (status tree cands w) lw)) with (status tree cands w).
  unfold status at 1. case_bool_decide as Hwt; [by exists s|].
  destruct (List.find (fun b => a_id b =? w) cands) as [c|] eqn:Hf.
  - pose proof (find_id _ _ _ Hf) as [Hin Hid].
    rewrite bool_decide_eq_true_2 by (rewrite <- Hid; by apply list_elem_of_fmap_2).
    rewrite (run_bind _ _ _ _ _ link_distance_ok). destruct (Find_ok s cands w c Hc Hf) as (cw & x & E & Hcw & Hx & Hst).
    change (m_linkStateId (SetStatus (status tree cands w) lw)) with (m_linkStateId lw). rewrite Eid.
    rewrite (run_bind _ _ _ _ _ E), (run_bind _ _ _ _ _ (run_vertex cw x s Hx)), (st_dist _ _ Hst).
    destruct (a_dist c <? d); [by exists s|]. destruct (a_dist c =? d).
    + by eapply merge_candidate_ok.
    + by eapply shorten_candidate_ok.
  - pose proof (find_id_none _ _ Hf) as Hout. rewrite bool_decide_eq_false_2 by done.
    rewrite (run_bind _ _ _ _ _ link_distance_ok). by apply new_candidate_ok.
Qed.
End steps.

(** ** [SPFNext] *)

Abbreviation relax_link := (fun tree a cands l => if point_to_point l then relax tree a cands l else cands).
Lemma examine_ok ext0 gr tp tree cands s n v a la i l :
  repr ext0 gr tp tree cands s -> tp !! n = Some v -> tree !! n = Some a ->
  db0 !! a_id a = Some la -> m_linkRecords la !! i = Some l -> 0 <= a_dist a /\ a_dist a + 2 ^ 16 <= 2 ^ 32 ->
  exists s', examine v i s = Ok (tt, s') /\ repr ext0 gr tp tree (relax_link tree a cands l) s'.
Proof using Hindex Hn0 Hr0 Hip0 Hdb.
  intros Hrepr Hv Ha Ela Hl Hdist. destruct (Forall2_lookup_l _ _ _ _ _ (r_tree _ _ _ _ _ _ Hrepr) Hv) as (a' & Ha' & Hh).
  assert (a' = a) as -> by congruence. pose proof Hh as (x & Hx & Hs).
  pose proof (db_with_lookup _ _ _ _ (r_db _ _ _ _ _ _ Hrepr) Ela) as E.
  assert (l ∈ m_linkRecords la) as Hlin by by eapply list_elem_of_lookup_2.
  assert (forall k : option (Z * option GlobalRoutingLinkRecord),
    (match m_linkType l with PointToPoint => k = Some (m_linkId l, Some l) | _ => k = None end) ->
    link_target v i s = Ok (k, s)) as Hlt.
  { intros k Ek. unfold link_target. rewrite (run_bind _ _ _ _ _ (run_vertex_type v x _ s Hx (st_type _ _ Hs))).
    rewrite (run_bind _ _ _ _ _ (run_vertex_lsa v x _ s Hx ltac:(rewrite (st_lsa _ _ Hs); exact E))). cbn iota.
    unfold GetLinkRecord. simpl. rewrite Hl. run.
    destruct (db_types _ Hdb _ _ _ Ela Hlin) as [Et|Et]; rewrite Et in *; [|by rewrite Ek].
    assert (l ∈ links_of db0 (a_id a)) as Hin by (apply links_of_elem; eauto).
    destruct (db_back _ Hdb _ _ Hin) as [(lw & Elw) _]. unfold lookup_LSA. run.
    rewrite (db_with_lookup _ _ _ _ (r_db _ _ _ _ _ _ Hrepr) Elw). unfold check. run. by rewrite Ek. }
  unfold point_to_point. case_bool_decide as Et.
  - rewrite Et in Hlt. eapply examine_link; [exact Hrepr| |by apply Hlt]. split; [|by eapply list_elem_of_lookup_2|done| |done].
    + by eapply list_elem_of_lookup_2.
    + apply links_of_elem; eauto.
  - exists s. split; [|done]. unfold examine.
    destruct (db_types _ Hdb _ _ _ Ela Hlin) as [?|Et']; [done|]. rewrite Et' in Hlt.
    by rewrite (run_bind _ _ _ _ _ (Hlt None eq_refl)).
Qed.

Lemma examine_all ext0 gr tp tree n v a la ls : forall i cands s,
  repr ext0 gr tp tree cands s -> tp !! n = Some v -> tree !! n = Some a ->
  db0 !! a_id a = Some la -> drop i (m_linkRecords la) = ls -> 0 <= a_dist a /\ a_dist a + 2 ^ 16 <= 2 ^ 32 ->
  exists s', each (examine v) (seq i (length ls)) s = Ok (tt, s') /\
    repr ext0 gr tp tree (fold_left (relax tree a) (List.filter point_to_point ls) cands) s'.
Proof using Hindex Hn0 Hr0 Hip0 Hdb.
  induction ls as [|l ls IH]; intros i cands s Hr Hv Ha Ela Hd Hdist; [by exists s|].
  assert (m_linkRecords la !! i = Some l) as Hl.
  { rewrite <- (Nat.add_0_r i), <- lookup_drop, Hd. done. }
  destruct (examine_ok ext0 gr tp tree cands s n v a la i l) as (s1 & E1 & Hr1); [done..|].
  destruct (IH (S i) _ s1 Hr1) as (s' & E2 & Hr2); [done..| |done|].
  { rewrite <- Nat.add_1_r, <- drop_drop, Hd. done. }
  exists s'. split.
  - cbn [length seq each]. by rewrite (run_bind _ _ _ _ _ E1).
  - cbn [List.filter]. by destruct (point_to_point l).
Qed.
Lemma SPFNext_ok ext0 gr tp tree cands s n v a :
  repr ext0 gr tp tree cands s -> tp !! n = Some v -> tree !! n = Some a -> 0 <= a_dist a /\ a_dist a + 2 ^ 16 <= 2 ^ 32 ->
  exists s', SPFNext v s = Ok (tt, s') /\ repr ext0 gr tp tree (fold_left (relax tree a) (links_of db0 (a_id a)) cands) s'.
Proof using Hindex Hn0 Hr0 Hip0 Hdb.
  intros Hr Hv Ha Hdist. destruct (Forall2_lookup_l _ _ _ _ _ (r_tree _ _ _ _ _ _ Hr) Hv) as (a' & Ha' & x & Hx & Hs).
  assert (a' = a) as -> by congruence.
  destruct (r_known _ _ _ _ _ _ Hr (a_id a)) as (la & Ela).
  { rewrite fmap_app, elem_of_app. left. apply list_elem_of_fmap_2. by eapply list_elem_of_lookup_2. }
  pose proof (db_with_lookup _ _ _ _ (r_db _ _ _ _ _ _ Hr) Ela) as E.
  unfold SPFNext. rewrite (run_bind _ _ _ _ _ (run_vertex_type v x _ s Hx (st_type _ _ Hs))).
  rewrite (run_bind _ _ _ _ _ (run_vertex_lsa v x _ s Hx ltac:(rewrite (st_lsa _ _ Hs); exact E))). cbn iota.
  unfold links_of. rewrite Ela. by apply (examine_all _ _ _ _ n _ _ la).
Qed.
End refine.
