(* ===== verification/SpfTree.v ===== *)
(** * The loop of [SPFCalculate]

    Popping the nearest candidate, hanging it under its parents, and the host
    routes that it gives; then the whole loop, which computes the tree of
    [ShortestPaths.spf] and adds the host routes of its vertices, in order. *)

From S2P Require Import Prelude Ipv4Ifaces Routing GlobalRouter RouteManager ShortestPaths SpfRefine.
From S2P Require Ipv4Address GlobalRouting.
Import GlobalRouting (Ipv4GlobalRouting, m_hostRoutes, m_networkRoutes, m_ASexternalRoutes, set_tables).


(** ** Adding routes *)

Section tables.
Context {R : Type}.
Implicit Types gr : Ipv4GlobalRouting R.
Definition add_hosts (l : list Ipv4RoutingTableEntry) gr : Ipv4GlobalRouting R :=
  set_tables (m_hostRoutes gr ++ l) (m_networkRoutes gr) (m_ASexternalRoutes gr) gr.
Definition add_networks (l : list Ipv4RoutingTableEntry) gr : Ipv4GlobalRouting R :=
  set_tables (m_hostRoutes gr) (m_networkRoutes gr ++ l) (m_ASexternalRoutes gr) gr.
Lemma add_hosts_nil gr : add_hosts [] gr = gr.
Proof. unfold add_hosts. rewrite app_nil_r. by destruct gr. Qed.
Lemma add_hosts_app l1 l2 gr : add_hosts l2 (add_hosts l1 gr) = add_hosts (l1 ++ l2) gr.
Proof. unfold add_hosts, set_tables. simpl. by rewrite app_assoc. Qed.
Lemma add_networks_nil gr : add_networks [] gr = gr.
Proof. unfold add_networks. rewrite app_nil_r. by destruct gr. Qed.
Lemma add_networks_app l1 l2 gr : add_networks l2 (add_networks l1 gr) = add_networks (l1 ++ l2) gr.
Proof. unfold add_networks, set_tables. simpl. by rewrite app_assoc. Qed.
End tables.

(** The exits that [outIf >= 0] keeps. *)
Definition usable_exits (es : list (Z * Z)) : list (Z * Z) := List.filter (fun e => 0 <=? e.2) es.

(** ** Hanging a vertex under its parents *)

(** Every vertex [k] has more children, [more k]. *)
Definition with_children (more : Z -> list Z) (h h' : gmap Z SPFVertex) : Prop :=
  forall k, h' !! k = (fun y => set_children (m_children y ++ more k) y) <$> h !! k.

Lemma stands_children x a l : stands x a -> stands (set_children l x) a.
Proof. intros []. by split. Qed.
Lemma with_children_holds more h h' q l : with_children more h h' -> Forall2 (holds h) q l -> Forall2 (holds h') q l.
Proof.
  intros Hm Hf. eapply Forall2_impl; [exact Hf|]. intros p a (x & Hx & Hs).
  exists (set_children (m_children x ++ more p) x). rewrite (Hm p), Hx. split; [done|]. by apply stands_children.
Qed.

(** The candidate [p] joins the tree. *)
Lemma shape_join h h' tp p q x more :
  shape h tp (p :: q) -> h !! p = Some x -> with_children more h h' ->
  (forall k c, c ∈ more k <-> c = p /\ k ∈ m_parents x) -> shape h' (tp ++ [p]) q.
Proof.
  intros Hs Hx Hm Hmore. pose proof Hs as [Hd Hn Hpa Hc Hq].
  destruct (Hq p x ltac:(by left) Hx) as (Hx1 & Hx2 & Hx3).
  assert (p ∉ tp) as Hpt by (intros ?; apply (shape_apart _ _ _ p Hs); [done|by left]).
  assert (forall k, k ∉ tp -> more k = []) as Hnone.
  { intros k Hk. destruct (more k) as [|c r] eqn:E; [done|]. exfalso.
    destruct (proj1 (Hmore k c)) as [_ Hin]; [rewrite E; by left|]. by apply Hk, Hx3. }
  split.
  - intros r. rewrite <- app_assoc, (Hm r), fmap_is_Some. apply Hd.
  - by rewrite <- app_assoc.
  - intros i r y Hi Hy. rewrite (Hm r) in Hy. apply fmap_Some in Hy as (z & Hz & ->). simpl.
    apply lookup_app_Some in Hi as [Hi|[Hlen Hi]].
    + destruct (Hpa i r z Hi Hz) as [? Hpar]. split; [done|]. intros r' Hr'.
      destruct (Hpar r' Hr') as (j & y & ? & Hj & Hy & ?). exists j, (set_children (m_children y ++ more r') y).
      split; [done|]. split; [by apply lookup_app_l_Some|]. rewrite (Hm r'), Hy. split; [done|]. simpl. set_solver.
    + apply list_lookup_singleton_Some in Hi as [Hi <-]. assert (z = x) as -> by congruence. split.
      * split; [done|]. intros ->. exfalso. destruct tp as [|t tp]; [|simpl in *; lia].
        destruct (m_parents x) as [|r rs] eqn:E; [done|]. specialize (Hx3 r ltac:(by left)). by apply elem_of_nil in Hx3.
      * intros r Hr. pose proof (Hx3 r Hr) as Hrt. destruct (shape_tree_alive _ _ _ _ Hs Hrt) as (y & Hy).
        apply list_elem_of_lookup in Hrt as [j Hj]. exists j, (set_children (m_children y ++ more r) y).
        split; [apply lookup_lt_Some in Hj; lia|]. split; [by apply lookup_app_l_Some|]. rewrite (Hm r), Hy. split; [done|].
        simpl. apply elem_of_app. right. by apply Hmore.
  - intros r y c Hr Hy Hcy. rewrite (Hm r) in Hy. apply fmap_Some in Hy as (z & Hz & ->). simpl in Hcy.
    apply elem_of_app in Hcy as [Hcz|[-> Hrx]%Hmore].
    + destruct (decide (r ∈ tp)) as [Hrt|Hrt].
      * destruct (Hc r z c Hrt Hz Hcz) as [Hct (y & Hy & ?)]. split; [set_solver|].
        exists (set_children (m_children y ++ more c) y). by rewrite (Hm c), Hy.
      * assert (r = p) as -> by set_solver. assert (z = x) as -> by congruence. rewrite Hx1 in Hcz. by apply elem_of_nil in Hcz.
    + split; [set_solver|]. exists (set_children (m_children x ++ more p) x). by rewrite (Hm p), Hx.
  - intros r y Hr Hy. rewrite (Hm r) in Hy. apply fmap_Some in Hy as (z & Hz & ->). simpl.
    destruct (Hq r z ltac:(by right) Hz) as (-> & ? & Hrt). rewrite Hnone.
    + split; [done|]. split; [done|]. intros r' Hr'. apply elem_of_app. left. by apply Hrt.
    + intros Hin. eapply (shape_apart _ _ _ r Hs); [done|by right].
Qed.

Section loop.
Context {R : Type} `{Allocator}.
Implicit Types s : manager R.

Lemma add_parents_ok p rs : forall s, (forall r, r ∈ rs -> is_Some (m_vertices s !! r)) ->
  exists h' more, each (fun r => on_vertex r (AddChild p)) rs s = Ok (tt, set_vertices h' s) /\
    with_children more (m_vertices s) h' /\ forall k c, c ∈ more k <-> c = p /\ k ∈ rs.
Proof using.
  induction rs as [|r rs IH]; intros s Halive.
  - exists (m_vertices s), (fun _ => []). split; [by destruct s|]. split.
    + intros k. destruct (m_vertices s !! k) as [y|]; simpl; [|done]. rewrite app_nil_r. by destruct y.
    + intros k c. rewrite !elem_of_nil. naive_solver.
  - destruct (Halive r ltac:(by left)) as (x & Hx). cbn [each].
    rewrite (run_bind _ _ _ _ _ (run_on_vertex r _ x s Hx)).
    destruct (IH (set_vertices (<[r:=AddChild p x]> (m_vertices s)) s)) as (h' & more & E & Hm & Hmore).
    { intros r' Hr'. simpl. apply lookup_insert_is_Some. destruct (decide (r = r')); [by left|right].
      split; [done|]. apply Halive. by right. }
    exists h', (fun k => (if decide (k = r) then [p] else []) ++ more k). split; [done|]. split.
    + intros k. rewrite (Hm k). simpl. destruct (decide (k = r)) as [->|Hne].
      * rewrite lookup_insert_eq, Hx. simpl. unfold set_children. simpl. by rewrite <- app_assoc.
      * rewrite lookup_insert_ne by done. done.
    + intros k c. rewrite elem_of_app, Hmore, elem_of_cons. destruct (decide (k = r)); set_solver.
Qed.

(** ** The host routes of a vertex *)

Variables (net0 : net R) (rid : Z) (k0 : nat) (n0 : rnode R) (r0 : GlobalRouter R) (ip0 : Ipv4).
Hypothesis (Hindex : index_of (is_router rid) (n_nodes net0) 0 = Some k0).
Hypothesis (Hn0 : n_nodes net0 !! k0 = Some n0) (Hr0 : rn_router n0 = Some r0) (Hip0 : rn_ipv4 n0 = Some ip0).
Variable db0 : gmap Z GlobalRoutingLSA.
Hypothesis Hdb : router_db db0.
Abbreviation with_routes := (with_routes net0 k0 n0 r0).
Abbreviation rooted := (rooted net0 rid k0 n0 r0).
Abbreviation repr := (repr net0 rid k0 n0 r0 db0).
Abbreviation first_exit := (first_exit rid ip0 db0).
Abbreviation relax := (ShortestPaths.relax m_linkId m_metric first_exit rid).
Abbreviation spf := (spf (links_of db0) m_linkId m_metric first_exit rid).

(** A route to each point-to-point address of the vertex, through each exit. *)
Definition host_entries (a : avertex) : list Ipv4RoutingTableEntry :=
  links_of db0 (a_id a) ≫= (fun lr =>
    (fun e => CreateHostRouteTo (m_linkData lr) e.1 e.2) <$> usable_exits (a_exits a)).

Lemma run_add_routes (add : Z -> Z -> Ipv4GlobalRouting R -> Ipv4GlobalRouting R) (entry : Z * Z -> Ipv4RoutingTableEntry)
    (adds : list Ipv4RoutingTableEntry -> Ipv4GlobalRouting R -> Ipv4GlobalRouting R) es :
  (forall e gr, add e.1 e.2 gr = adds [entry e] gr) -> (forall gr, adds [] gr = gr) ->
  (forall l1 l2 gr, adds l2 (adds l1 gr) = adds (l1 ++ l2) gr) ->
  forall s gr, m_net s = with_routes gr ->
  add_routes k0 add es s = Ok (tt, set_net (with_routes (adds (entry <$> usable_exits es) gr)) s).
Proof using Hn0.
  intros Hadd Hnil Happ. induction es as [|e es IH]; intros s gr En.
  - simpl. rewrite Hnil, <- En. by destruct s.
  - unfold add_routes, usable_exits in *. cbn [each List.filter]. destruct (0 <=? e.2).
    + rewrite (run_bind _ _ _ _ _ (run_on_routes net0 k0 n0 r0 Hn0 s gr (add e.1 e.2) En)).
      rewrite (IH _ (add e.1 e.2 gr)) by done. rewrite Hadd, Happ. done.
    + run. by apply IH.
Qed.
Lemma run_add_hosts dest es s gr :
  m_net s = with_routes gr ->
  add_routes k0 (GlobalRouting.AddHostRouteTo dest) es s =
  Ok (tt, set_net (with_routes (add_hosts ((fun e => CreateHostRouteTo dest e.1 e.2) <$> usable_exits es) gr)) s).
Proof using Hn0. apply run_add_routes; [done|apply add_hosts_nil|apply add_hosts_app]. Qed.

Lemma run_router_routes lsa es s gr :
  m_net s = with_routes gr ->
  router_routes k0 lsa es s = Ok (tt, set_net (with_routes (add_hosts
    (List.filter point_to_point (m_linkRecords lsa) ≫= (fun lr =>
      (fun e => CreateHostRouteTo (m_linkData lr) e.1 e.2) <$> usable_exits es)) gr)) s).
Proof using Hn0 Hip0.
  intros En. unfold router_routes.
  rewrite (run_bind _ _ s _ s (run_node_at s k0 _ ltac:(rewrite En; by apply routed_node))). simpl. rewrite Hip0.
  unfold check at 1. run. revert s gr En. induction (m_linkRecords lsa) as [|lr l IH]; intros s gr En.
  - simpl. rewrite add_hosts_nil, <- En. by destruct s.
  - cbn [each List.filter]. unfold point_to_point at 1. case_bool_decide.
    + set (gr1 := add_hosts ((fun e => CreateHostRouteTo (m_linkData lr) e.1 e.2) <$> usable_exits es) gr).
      rewrite (run_bind _ _ _ tt (set_net (with_routes gr1) s)).
      * rewrite (IH (set_net (with_routes gr1) s) gr1 eq_refl). unfold gr1. by rewrite add_hosts_app.
      * rewrite (run_bind _ _ _ _ _ (run_has_routes net0 k0 n0 r0 Hn0 s gr En)). by apply run_add_hosts.
    + run. by apply IH.
Qed.
Lemma SPFIntraAddRouter_ok s gr p x a la st :
  rooted gr s -> db_with db0 st (m_database s) -> m_vertices s !! p = Some x -> stands x a -> db0 !! a_id a = Some la ->
  SPFIntraAddRouter p s = Ok (tt, set_net (with_routes (add_hosts (host_entries a) gr)) s).
Proof using Hindex Hn0 Hr0 Hip0.
  intros (En & Hnz & rx & Hrx & Hrid) Hd Hx Hs Ela. unfold SPFIntraAddRouter.
  rewrite (run_bind _ _ _ _ _ (run_root_id rid s rx Hnz Hrx Hrid)).
  rewrite (run_bind _ _ _ _ _ (run_router_index net0 rid k0 n0 r0 Hindex Hn0 Hr0 s gr En)).
  pose proof (db_with_lookup _ _ _ _ _ Hd Ela) as E.
  rewrite (run_bind _ _ _ _ _ (run_vertex_lsa p x _ s Hx ltac:(rewrite (st_lsa _ _ Hs); exact E))).
  rewrite (run_bind _ _ _ _ _ (run_vertex p x s Hx)), (run_router_routes _ _ _ _ En), (st_exits _ _ Hs).
  unfold host_entries, links_of. by rewrite Ela.
Qed.

(** ** A turn of the loop *)

(** From the moment the candidates are not empty: the nearest joins the tree. *)
Definition join (v : Z) : st (manager R) unit :=
  x ← vertex v;
  _ ← set_status (m_lsa x) LSA_SPF_IN_SPFTREE;
  _ ← SPFVertexAddParent v;
  t ← vertex_type v;
  match t with VertexRouter => SPFIntraAddRouter v | VertexNetwork => SPFIntraAddTransit v end.

Lemma join_ok ext0 gr tp tree c cands s p q :
  repr ext0 gr tp tree (c :: cands) s -> m_candidates s = p :: q ->
  exists s', join p (set_candidates q s) = Ok (tt, s') /\ m_candidates s' = q /\
    repr ext0 (add_hosts (host_entries c) gr) (tp ++ [p]) (tree ++ [c]) cands s'.
Proof using Hindex Hn0 Hr0 Hip0 Hdb.
  intros Hr Eq. pose proof Hr as [Hro Hh Hd He Ht Hc Hs Hi Hk]. rewrite Eq in *.
  inversion Hc as [|? ? ? ? (x & Hx & Hst) Hc' E1 E2]; subst. clear Hc.
  destruct (Hk (a_id c)) as (lc & Elc); [rewrite fmap_app; set_solver|].
  set (s1 := set_database (alter (SetStatus LSA_SPF_IN_SPFTREE) (a_id c) (m_database s)) (set_candidates q s)).
  destruct (sh_cands _ _ _ Hs p x ltac:(by left) Hx) as (Hx1 & Hx2 & Hx3).
  destruct (add_parents_ok p (m_parents x) s1) as (h' & more & E & Hm & Hmore).
  { intros r Hrx. apply (sh_dom _ _ _ Hs), elem_of_app. left. by apply Hx3. }
  set (s2 := set_vertices h' s1) in *. simpl in Hm.
  assert (db_with db0 (status (tree ++ [c]) cands) (m_database s2)) as Hd2.
  { assert (NoDup (a_id <$> tree ++ c :: cands)) as Hn by done. rewrite fmap_app, fmap_cons, NoDup_app in Hn.
    destruct Hn as (_ & Hn1 & [Hn2 _]%NoDup_cons). eapply db_with_set; [exact Hd| |].
    - unfold status. rewrite bool_decide_eq_true_2; [done|]. rewrite fmap_app. set_solver.
    - intros k Hne. unfold status.
      rewrite (bool_decide_ext (k ∈ a_id <$> tree ++ [c]) (k ∈ a_id <$> tree)) by (rewrite fmap_app; set_solver).
      by rewrite (bool_decide_ext (k ∈ a_id <$> c :: cands) (k ∈ a_id <$> cands)) by set_solver. }
  assert (rooted gr s2) as Hro2.
  { destruct Hro as (? & ? & rx & Hrx & ?). split; [done|]. split; [done|]. simpl.
    exists (set_children (m_children rx ++ more (m_spfroot s)) rx). split; [|done]. by rewrite (Hm (m_spfroot s)), Hrx. }
  set (x' := set_children (m_children x ++ more p) x). assert (h' !! p = Some x') as Hx' by by rewrite (Hm p), Hx.
  assert (stands x' c) as Hst' by by apply stands_children.
  exists (set_net (with_routes (add_hosts (host_entries c) gr)) s2). split; [|split; [done|]].
  - unfold join. rewrite (run_bind _ _ _ _ _ (run_vertex p x (set_candidates q s) Hx)), (st_lsa _ _ Hst).
    unfold set_status. run. fold s1. rewrite (run_bind _ _ _ tt s2).
    2:{ unfold SPFVertexAddParent. by rewrite (run_bind _ _ _ _ _ (run_vertex p x s1 Hx)). }
    rewrite (run_bind _ _ _ _ _ (run_vertex_type p x' _ s2 Hx' (st_type _ _ Hst'))).
    by apply (SPFIntraAddRouter_ok s2 gr p x' c lc _ Hro2 Hd2 Hx' Hst').
  - split; simpl.
    + destruct Hro2 as (? & ? & rx & ? & ?). split; [done|]. split; [done|]. by exists rx.
    + by apply lookup_app_l_Some.
    + exact Hd2.
    + done.
    + apply Forall2_app; [by eapply with_children_holds|]. constructor; [by exists x'|done].
    + by eapply with_children_holds.
    + by eapply shape_join.
    + by rewrite <- app_assoc.
    + intros k. rewrite <- app_assoc. apply Hk.
Qed.

(** ** The loop *)

(** The distances are bounded by the number of vertices of the tree. *)
Record bounded (tree : list avertex) (a : avertex) (cands : list avertex) : Prop := {
  bd_last : 0 <= a_dist a <= 2 ^ 16 * (Z.of_nat (length tree) - 1);
  bd_cands c : c ∈ cands -> 0 <= a_dist c <= 2 ^ 16 * (Z.of_nat (length tree) - 1) }.

Lemma relax_bounded tree a ls m : forall cands, 0 <= a_dist a <= m ->
  (forall l, l ∈ ls -> 1 <= m_metric l < 2 ^ 16) -> (forall c, c ∈ cands -> 0 <= a_dist c <= m + 2 ^ 16) ->
  forall c, c ∈ fold_left (relax tree a) ls cands -> 0 <= a_dist c <= m + 2 ^ 16.
Proof using.
  clear Hindex Hn0 Hr0 Hip0 Hdb. induction ls as [|l ls IH]; intros cands Ha Hl Hc; [done|]. cbn [fold_left]. apply IH; [done|set_solver|].
  intros c Hin. pose proof (Hl l ltac:(by left)). apply relax_dist in Hin as [->|(c0 & Hc0 & <-)]; [lia|by apply Hc].
Qed.
Lemma next_bounded tree a cands c r :
  bounded tree a cands -> fold_left (relax tree a) (links_of db0 (a_id a)) cands = c :: r -> bounded (tree ++ [c]) c r.
Proof using Hdb.
  intros [Ha Hc] E. assert (forall x, x ∈ c :: r -> 0 <= a_dist x <= 2 ^ 16 * (Z.of_nat (length tree) - 1) + 2 ^ 16) as Hb.
  { rewrite <- E. apply relax_bounded; [done| |].
    - intros l. apply (db_cost _ Hdb).
    - intros x Hx. specialize (Hc x Hx). lia. }
  split; rewrite length_app; cbn [length].
  - specialize (Hb c ltac:(by left)). lia.
  - intros x Hx. specialize (Hb x ltac:(by right)). lia.
Qed.
Lemma tree_size ext0 gr tp tree cands s : repr ext0 gr tp tree cands s -> (length tree <= size db0)%nat.
Proof using.
  intros Hr. pose proof (r_ids _ _ _ _ _ _ _ _ _ _ _ _ Hr) as Hn. rewrite fmap_app, NoDup_app in Hn. destruct Hn as [Hn _].
  rewrite <- size_dom, <- (length_fmap a_id), <- (size_list_to_set (C := gset Z)) by done. apply subseteq_size.
  intros k Hk%elem_of_list_to_set. apply elem_of_dom. apply (r_known _ _ _ _ _ _ _ _ _ _ _ _ Hr). rewrite fmap_app. apply elem_of_app. by left.
Qed.
Lemma in_reach ext0 gr tp tree cands s a :
  repr ext0 gr tp tree cands s -> bounded tree a cands -> 0 <= a_dist a /\ a_dist a + 2 ^ 16 <= 2 ^ 32.
Proof using Hdb.
  intros Hr Hb. pose proof (tree_size _ _ _ _ _ _ Hr) as Hsz. pose proof (db_size _ Hdb). destruct (bd_last _ _ _ Hb). lia.
Qed.

(** The routes when the tree is the one given: those of its vertices, but the root. *)
Variable gr0 : Ipv4GlobalRouting R.
Definition routed (tree : list avertex) : Ipv4GlobalRouting R := add_hosts (drop 1 tree ≫= host_entries) gr0.
Lemma routed_join a tree c : routed ((a :: tree) ++ [c]) = add_hosts (host_entries c) (routed (a :: tree)).
Proof using. unfold routed. simpl. rewrite !drop_0, add_hosts_app, bind_app. simpl. by rewrite app_nil_r. Qed.

Lemma spf_loop_step fuel v s p q s1 s2 :
  SPFNext v s = Ok (tt, s1) -> m_candidates s1 = p :: q -> join p (set_candidates q s1) = Ok (tt, s2) ->
  spf_loop (S fuel) v s = spf_loop fuel p s2.
Proof using.
  intros E1 Eq E2. cbn [spf_loop]. rewrite (run_bind _ _ _ _ _ E1). run. rewrite Eq. cbn [bool_decide decide].
  rewrite bool_decide_eq_false_2 by done. rewrite (run_bind _ _ s1 p (set_candidates q s1)).
  2:{ unfold Pop. run. by rewrite Eq. }
  unfold join in E2. apply st_bind_ok in E2 as (x & s3 & E3 & E2). rewrite (run_bind _ _ _ _ _ E3).
  apply st_bind_ok in E2 as ([] & s4 & E4 & E2). rewrite (run_bind _ _ _ _ _ E4).
  apply st_bind_ok in E2 as ([] & s5 & E5 & E2). rewrite (run_bind _ _ _ _ _ E5).
  apply st_bind_ok in E2 as (t & s6 & E6 & E2). rewrite (run_bind _ _ _ _ _ E6). by rewrite (run_bind _ _ _ _ _ E2).
Qed.

Lemma spf_loop_ok ext0 fuel : forall tp tree a cands s v tree',
  repr ext0 (routed tree) tp tree cands s -> last tp = Some v -> last tree = Some a -> bounded tree a cands ->
  spf fuel tree a cands = Some tree' ->
  exists tp' s', spf_loop fuel v s = Ok (tt, s') /\ repr ext0 (routed tree') tp' tree' [] s' /\ tp' !! 0%nat = tp !! 0%nat.
Proof using Hindex Hn0 Hr0 Hip0 Hdb.
  induction fuel as [|fuel IH]; intros tp tree a cands s v tree' Hr Hv Ha Hb Hs; [done|].
  pose proof (in_reach _ _ _ _ _ _ _ Hr Hb) as Hreach.
  pose proof (Forall2_length _ _ _ (r_tree _ _ _ _ _ _ _ _ _ _ _ _ Hr)) as Hlen. rewrite last_lookup in Hv. rewrite last_lookup in Ha.
  destruct (SPFNext_ok net0 rid k0 n0 r0 ip0 Hindex Hn0 Hr0 Hip0 db0 Hdb _ _ _ _ _ _ (Init.Nat.pred (length tp)) v a Hr)
    as (s1 & E1 & Hr1); [done|by rewrite Hlen|done|].
  pose proof (r_cands _ _ _ _ _ _ _ _ _ _ _ _ Hr1) as Hc1. cbn [ShortestPaths.spf] in Hs.
  destruct (fold_left (relax tree a) (links_of db0 (a_id a)) cands) as [|c r] eqn:Ef.
  - injection Hs as <-. inversion Hc1 as [Eq|]. exists tp, s1. split; [|by split].
    cbn [spf_loop]. rewrite (run_bind _ _ _ _ _ E1). run. by rewrite <- Eq.
  - inversion Hc1 as [|p ? q ? Hp Hq Eq]. symmetry in Eq.
    destruct (join_ok _ _ _ _ _ _ _ p q Hr1 Eq) as (s2 & E2 & Eq2 & Hr2).
    rewrite (spf_loop_step fuel v s p q s1 s2 E1 Eq E2).
    destruct tree as [|b tree]; [done|]. rewrite <- routed_join in Hr2.
    destruct (IH _ _ c _ _ p tree' Hr2) as (tp' & s' & E & Hr' & Hh);
      [by apply last_snoc|by apply last_snoc|by eapply next_bounded|done|].
    exists tp', s'. split; [done|]. split; [done|]. rewrite Hh. destruct tp; [by rewrite lookup_nil in Hv|done].
Qed.
End loop.

(** * The vertices are freed

    The destructor of [SPFVertex] takes the vertex out of the children of its
    parents and deletes its children, of which each does the same.  In a graph
    where every vertex knows its parents and its children, without cycles, each
    vertex below the one deleted is freed exactly once, and the others only lose
    those children. *)

Definition alive (h : gmap Z SPFVertex) (p : Z) : Prop := is_Some (h !! p).
#[export] Instance alive_dec h p : Decision (alive h p) := is_Some_dec _.

(** The vertices of [D] are being deleted: their parents have forgotten them. *)
Record linked (rank : Z -> nat) (D : gset Z) (h : gmap Z SPFVertex) : Prop := {
  lk_down p x c : h !! p = Some x -> c ∈ m_children x ->
    c ∉ D /\ exists y, h !! c = Some y /\ p ∈ m_parents y /\ (rank p < rank c)%nat;
  lk_up p x q : p ∉ D -> h !! p = Some x -> q ∈ m_parents x -> exists y, h !! q = Some y /\ p ∈ m_children y }.

(** [h'] has some of the vertices of [h]; they lose the children that are gone. *)
Definition pruned (h h' : gmap Z SPFVertex) : Prop :=
  forall q, h' !! q = None \/
    exists y, h !! q = Some y /\ h' !! q = Some (set_children (filter (alive h') (m_children y)) y).

Lemma set_children_same x : set_children (m_children x) x = x.
Proof. by destruct x. Qed.
Lemma filter_same {A} (P : A -> Prop) `{forall x, Decision (P x)} (l : list A) : (forall x, x ∈ l -> P x) -> filter P l = l.
Proof.
  induction l as [|x l IH]; intros Hl; [done|]. rewrite filter_cons_True by (apply Hl; by left).
  rewrite IH; [done|]. intros y Hy. apply Hl. by right.
Qed.
Lemma pruned_refl rank D h : linked rank D h -> pruned h h.
Proof.
  intros Hl q. destruct (h !! q) as [y|] eqn:E; [right|by left]. exists y. split; [done|].
  rewrite filter_same, set_children_same; [done|]. intros c Hc. destruct (lk_down _ _ _ Hl q y c E Hc) as (_ & z & Hz & _).
  by exists z.
Qed.
Lemma filter_twice {A} (P Q : A -> Prop) `{forall x, Decision (P x)} `{forall x, Decision (Q x)} (l : list A) :
  (forall x, P x -> Q x) -> filter P (filter Q l) = filter P l.
Proof. intros HPQ. rewrite list_filter_filter. apply list_filter_iff. naive_solver. Qed.
Lemma pruned_alive h h' q : pruned h h' -> alive h' q -> alive h q.
Proof. intros Hp [y Hy]. destruct (Hp q) as [E|(z & Hz & _)]; [congruence|by exists z]. Qed.
Lemma pruned_trans h1 h2 h3 : pruned h1 h2 -> pruned h2 h3 -> pruned h1 h3.
Proof.
  intros H12 H23 q. destruct (H23 q) as [?|(y & Hy & E)]; [by left|right].
  destruct (H12 q) as [?|(z & Hz & E')]; [congruence|]. exists z. split; [done|]. rewrite E.
  assert (y = set_children (filter (alive h2) (m_children z)) z) as -> by congruence. simpl.
  rewrite filter_twice; [done|]. intros c. by apply pruned_alive.
Qed.

Section delete.
Context {R : Type} `{Allocator} (rank : Z -> nat) (N : nat).
Implicit Types s : manager R.

(** Unlinking from the parents *)
Definition unlinked (p : Z) (h : gmap Z SPFVertex) : gmap Z SPFVertex :=
  (fun y => set_children (filter (fun c => c <> p) (m_children y)) y) <$> h.
Lemma unlink_ok p qs : forall s, (forall q, q ∈ qs -> is_Some (m_vertices s !! q)) ->
  exists h', each (remove_child p) qs s = Ok (tt, set_vertices h' s) /\
    forall q, h' !! q = (fun y => if decide (q ∈ qs) then set_children (filter (fun c => c <> p) (m_children y)) y else y) <$>
                        m_vertices s !! q.
Proof using.
  clear rank N. induction qs as [|q qs IH]; intros s Ha.
  - exists (m_vertices s). split; [by destruct s|]. intros q. by destruct (m_vertices s !! q).
  - destruct (Ha q ltac:(by left)) as (y & Hy). set (y' := set_children (filter (fun c => c <> p) (m_children y)) y).
    destruct (IH (set_vertices (<[q:=y']> (m_vertices s)) s)) as (h' & E & Hh).
    { intros r Hr. simpl. apply lookup_insert_is_Some. destruct (decide (q = r)); [by left|right]. split; [done|]. apply Ha. by right. }
    assert (remove_child p q s = Ok (tt, set_vertices (<[q:=y']> (m_vertices s)) s)) as E1
      by exact (run_on_vertex q (fun y => set_children (filter (fun c => c <> p) (m_children y)) y) y s Hy).
    exists h'. split; [cbn [each]; by rewrite (run_bind _ _ _ _ _ E1)|].
    intros r. rewrite (Hh r). simpl. destruct (decide (r = q)) as [->|Hne].
    + rewrite lookup_insert_eq, Hy. simpl. rewrite (decide_True (P := q ∈ q :: qs)) by by left.
      destruct (decide (q ∈ qs)); [|done]. unfold y', set_children. simpl. by rewrite filter_twice.
    + rewrite lookup_insert_ne by done. destruct (m_vertices s !! r) as [z|]; simpl; [|done]. f_equal.
      destruct (decide (r ∈ qs)), (decide (r ∈ q :: qs)); set_solver.
Qed.
Lemma unlink_parents p x D s :
  linked rank D (m_vertices s) -> p ∉ D -> m_vertices s !! p = Some x ->
  each (remove_child p) (m_parents x) s = Ok (tt, set_vertices (unlinked p (m_vertices s)) s).
Proof using.
  intros Hl Hp Hx. destruct (unlink_ok p (m_parents x) s) as (h' & -> & Hh).
  { intros q Hq. destruct (lk_up _ _ _ Hl p x q Hp Hx Hq) as (y & ? & _). by exists y. }
  do 3 f_equal. apply map_eq. intros q. rewrite (Hh q). unfold unlinked. rewrite lookup_fmap.
  destruct (m_vertices s !! q) as [y|] eqn:E; simpl; [|done]. f_equal. destruct (decide (q ∈ m_parents x)) as [|Hq]; [done|].
  rewrite filter_same, set_children_same; [done|]. intros c Hc ->. apply Hq.
  destruct (lk_down _ _ _ Hl q y p E Hc) as (_ & z & ? & ? & _). congruence.
Qed.
Lemma unlinked_lookup p h q y : unlinked p h !! q = Some y ->
  exists z, h !! q = Some z /\ y = set_children (filter (fun c => c <> p) (m_children z)) z.
Proof using. unfold unlinked. rewrite lookup_fmap. intros (z & -> & ?)%fmap_Some. by exists z. Qed.
Lemma unlinked_linked p D h : linked rank D h -> linked rank ({[p]} ∪ D) (unlinked p h).
Proof using.
  intros Hl. split.
  - intros q y c (z & Hz & ->)%unlinked_lookup Hc. simpl in Hc. apply list_elem_of_filter in Hc as [Hne Hc].
    destruct (lk_down _ _ _ Hl q z c Hz Hc) as (HD & y & Hy & Hin & Hr). split; [set_solver|].
    exists (set_children (filter (fun c => c <> p) (m_children y)) y). unfold unlinked. by rewrite lookup_fmap, Hy.
  - intros q y r HD (z & Hz & ->)%unlinked_lookup Hr. simpl in Hr.
    destruct (lk_up _ _ _ Hl q z r ltac:(set_solver) Hz Hr) as (y & Hy & Hin).
    exists (set_children (filter (fun c => c <> p) (m_children y)) y). unfold unlinked. rewrite lookup_fmap, Hy. split; [done|].
    simpl. apply list_elem_of_filter. split; [set_solver|done].
Qed.

Definition ranked (h : gmap Z SPFVertex) : Prop := forall p, alive h p -> (rank p < N)%nat.
(** What deleting [p] does, given enough fuel for the ranks above it. *)
Definition deletes (del : Z -> st (manager R) unit) (bound : nat) : Prop :=
  forall p s D, linked rank D (m_vertices s) -> ranked (m_vertices s) -> p ∉ D -> alive (m_vertices s) p -> (bound <= rank p)%nat ->
  exists h', del p s = Ok (tt, set_vertices h' s) /\ linked rank D h' /\ pruned (m_vertices s) h' /\ h' !! p = None /\
    forall q, q ∈ D -> alive (m_vertices s) q -> alive h' q.

Lemma delete_children_ok del p n : forall s D x,
  deletes del (S (rank p)) -> linked rank D (m_vertices s) -> ranked (m_vertices s) -> p ∈ D ->
  m_vertices s !! p = Some x -> (length (m_children x) <= n)%nat ->
  exists h' x', delete_children del n p s = Ok (tt, set_vertices h' s) /\ linked rank D h' /\ pruned (m_vertices s) h' /\
    h' !! p = Some x' /\ m_children x' = [] /\ forall q, q ∈ D -> alive (m_vertices s) q -> alive h' q.
Proof using.
  induction n as [|n IH]; intros s D x Hdel Hl Hrk HD Hx Hlen; cbn [delete_children];
    rewrite (run_bind _ _ _ _ _ (run_vertex p x s Hx)).
  all: destruct (m_children x) as [|c cs] eqn:Ec.
  1,3: exists (m_vertices s), x; split; [by destruct s|]; split; [done|]; split; [by eapply pruned_refl|done].
  { simpl in Hlen. lia. }
  destruct (lk_down _ _ _ Hl p x c Hx ltac:(rewrite Ec; by left)) as (HcD & y & Hy & Hpy & Hr).
  destruct (Hdel c s D Hl Hrk HcD ltac:(by exists y) ltac:(lia)) as (h1 & E1 & Hl1 & Hp1 & Hc1 & HD1).
  rewrite (run_bind _ _ _ _ _ E1). destruct (HD1 p HD ltac:(by exists x)) as (x1 & Hx1).
  assert (m_children x1 = filter (alive h1) (m_children x)) as Ex1.
  { destruct (Hp1 p) as [?|(z & Hz & E)]; [congruence|]. assert (z = x) as -> by congruence. rewrite Hx1 in E. by injection E as ->. }
  destruct (IH (set_vertices h1 s) D x1) as (h2 & x2 & E2 & Hl2 & Hp2 & Hx2 & Hch & HD2); try done.
  { intros q Hq. apply Hrk. by eapply pruned_alive. }
  { rewrite Ex1, Ec. rewrite filter_cons_False by (unfold alive; rewrite Hc1; by intros [? ?]).
    etransitivity; [apply length_filter|]. simpl in Hlen. lia. }
  exists h2, x2. split; [done|]. split; [done|]. split; [by eapply pruned_trans|]. split; [done|]. split; [done|].
  intros q Hq Ha. apply HD2; [done|]. by apply HD1.
Qed.

Lemma delete_vertex_ok fuel : deletes (delete_vertex fuel) (N - fuel).
Proof using.
  induction fuel as [|fuel IH]; intros p s D Hl Hrk HD (x & Hx) Hb.
  { specialize (Hrk p ltac:(by exists x)). lia. }
  cbn [delete_vertex]. rewrite (run_bind _ _ _ _ _ (run_vertex p x s Hx)).
  rewrite (run_bind _ _ _ _ _ (unlink_parents p x D s Hl HD Hx)).
  set (h1 := unlinked p (m_vertices s)). set (x1 := set_children (filter (fun c => c <> p) (m_children x)) x).
  assert (h1 !! p = Some x1) as Hx1 by (unfold h1, unlinked; by rewrite lookup_fmap, Hx).
  destruct (delete_children_ok (delete_vertex fuel) p (length (m_children x)) (set_vertices h1 s) ({[p]} ∪ D) x1)
    as (h2 & x2 & E2 & Hl2 & Hp2 & Hx2 & Hch & HD2).
  { intros q s' D' H1 H2 H3 H4 H5. apply IH; [done..|lia]. }
  { by apply unlinked_linked. }
  { intros q Hq. apply Hrk. unfold alive, h1, unlinked in Hq. simpl in Hq. by rewrite lookup_fmap, fmap_is_Some in Hq. }
  { set_solver. }
  { done. }
  { apply length_filter. }
  rewrite (run_bind _ _ _ _ _ E2). exists (delete p h2). split; [done|].
  assert (forall q y, h2 !! q = Some y -> p ∉ m_children y) as Hnot.
  { intros q y Hy Hin. destruct (lk_down _ _ _ Hl2 q y p Hy Hin) as [? _]. set_solver. }
  split; [|split; [|split]].
  - split.
    + intros q y c [Hne Hy]%lookup_delete_Some Hc. destruct (lk_down _ _ _ Hl2 q y c Hy Hc) as (? & z & ? & ? & ?).
      split; [set_solver|]. exists z. rewrite lookup_delete_ne; [done|]. intros E. apply (Hnot q y Hy). by rewrite E.
    + intros q y r Hq [Hne Hy]%lookup_delete_Some Hr.
      destruct (lk_up _ _ _ Hl2 q y r ltac:(set_solver) Hy Hr) as (z & Hz & Hin). exists z. split; [|done].
      apply lookup_delete_Some. split; [|done]. intros <-. assert (z = x2) as -> by congruence. rewrite Hch in Hin. by apply elem_of_nil in Hin.
  - intros q. destruct (decide (q = p)) as [->|Hne]; [left; apply lookup_delete_eq|].
    destruct (Hp2 q) as [E|(y & Hy & E)]; [left; by rewrite lookup_delete_ne|right]. simpl in Hy.
    apply unlinked_lookup in Hy as (z & Hz & ->). exists z. split; [done|]. rewrite lookup_delete_ne, E by done. f_equal.
    simpl. unfold set_children. simpl. f_equal. rewrite list_filter_filter. apply list_filter_iff. intros c. unfold alive.
    rewrite lookup_delete_is_Some. naive_solver.
  - apply lookup_delete_eq.
  - intros q Hq [y Hy]. unfold alive. apply lookup_delete_is_Some. split; [set_solver|]. apply HD2; [set_solver|].
    unfold alive, h1, unlinked. simpl. rewrite lookup_fmap, Hy. by eexists.
Qed.

(** Deleting the only vertex without parents frees everything. *)
Lemma destroy_root s p x :
  linked rank ∅ (m_vertices s) -> m_vertices s !! p = Some x ->
  (forall q, alive (m_vertices s) q -> (rank q < size (m_vertices s))%nat) -> N = size (m_vertices s) ->
  (forall q y, m_vertices s !! q = Some y -> m_parents y = [] -> q = p) ->
  destroy p s = Ok (tt, set_vertices ∅ s).
Proof using.
  intros Hl Hx Hrk HN Honly. unfold destroy. run.
  destruct (delete_vertex_ok (size (m_vertices s)) p s ∅) as (h' & -> & Hl' & Hp' & Hn & _); [done| | |by exists x|lia|].
  { intros q Hq. rewrite HN. by apply Hrk. }
  { set_solver. }
  do 2 f_equal. f_equal. apply map_empty.
  assert (forall n q, (rank q < n)%nat -> h' !! q = None) as Hall; [|intros q; apply (Hall (S (rank q))); lia].
  induction n as [|n IH]; intros q Hq; [lia|]. destruct (h' !! q) as [y|] eqn:Ey; [exfalso|done].
  destruct (Hp' q) as [?|(z & Hz & E)]; [congruence|]. destruct (m_parents z) as [|r rs] eqn:Er.
  - assert (q = p) as -> by by eapply Honly. congruence.
  - destruct (lk_up _ _ _ Hl' q y r) as (u & Hu & Hin); [set_solver|done| |].
    { rewrite Ey in E. injection E as ->. simpl. rewrite Er. by left. }
    destruct (lk_down _ _ _ Hl' r u q Hu Hin) as (_ & _ & _ & _ & Hlt). rewrite (IH r) in Hu by lia. done.
Qed.
End delete.
