(* ===== verification/SpfCalculate.v ===== *)
(** * [SPFCalculate]

    The walk over the tree that adds the routes to stub networks, the release of
    the tree, and the calculation for one root: what routes it leaves, and that
    it leaves no vertex. *)

From S2P Require Import Prelude Ipv4Ifaces Routing GlobalRouter RouteManager ShortestPaths SpfRefine SpfTree.
From S2P Require Ipv4Address GlobalRouting.
Import GlobalRouting (Ipv4GlobalRouting).

(** ** Positions in the tree *)

Definition position (tp : list Z) (p : Z) : nat := default 0%nat (fst <$> list_find (fun q => q = p) tp).
Lemma position_lookup tp i p : NoDup tp -> tp !! i = Some p -> position tp p = i.
Proof.
  intros Hn Hi. unfold position. assert (list_find (fun q => q = p) tp = Some (i, p)) as ->; [|done].
  apply list_find_Some. split; [done|]. split; [done|]. intros j q Hj Hlt ->. pose proof (NoDup_lookup _ _ _ _ Hn Hi Hj). lia.
Qed.

Lemma shape_tree_nodup h tp q : shape h tp q -> NoDup tp.
Proof. intros Hs. pose proof (sh_nodup _ _ _ Hs) as Hn. rewrite NoDup_app in Hn. tauto. Qed.
Lemma shape_linked h tp : shape h tp [] -> linked (position tp) ∅ h.
Proof.
  intros Hs. pose proof (shape_tree_nodup _ _ _ Hs) as Hn. split.
  - intros p x c Hx Hc. assert (p ∈ tp) as Hp by (rewrite <- (app_nil_r tp); apply (sh_dom _ _ _ Hs); by exists x).
    destruct (sh_children _ _ _ Hs p x c Hp Hx Hc) as [Hct (y & Hy & Hpy)]. split; [set_solver|]. exists y. split; [done|]. split; [done|].
    apply list_elem_of_lookup in Hct as [i Hi]. destruct (sh_parents _ _ _ Hs i c y Hi Hy) as [_ Hpar].
    destruct (Hpar p Hpy) as (j & z & ? & Hj & _). by rewrite (position_lookup _ _ _ Hn Hi), (position_lookup _ _ _ Hn Hj).
  - intros p x r _ Hx Hr. assert (p ∈ tp) as Hp by (rewrite <- (app_nil_r tp); apply (sh_dom _ _ _ Hs); by exists x).
    apply list_elem_of_lookup in Hp as [i Hi]. destruct (sh_parents _ _ _ Hs i p x Hi Hx) as [_ Hpar].
    destruct (Hpar r Hr) as (j & y & _ & _ & ? & ?). by exists y.
Qed.
Lemma shape_size h tp : shape h tp [] -> size h = length tp.
Proof.
  intros Hs. rewrite <- size_dom, <- (size_list_to_set (C := gset Z) tp) by by eapply shape_tree_nodup.
  f_equal. apply set_eq. intros p. rewrite elem_of_dom, elem_of_list_to_set, (sh_dom _ _ _ Hs), app_nil_r. done.
Qed.

(** ** Marks *)

Definition mark (M : gset Z) (p : Z) (x : SPFVertex) : SPFVertex :=
  if decide (p ∈ M) then SetVertexProcessed true x else x.
Definition marked (M : gset Z) (h : gmap Z SPFVertex) : gmap Z SPFVertex := map_imap (fun p x => Some (mark M p x)) h.
Lemma marked_lookup M h p : marked M h !! p = mark M p <$> h !! p.
Proof. unfold marked. rewrite map_lookup_imap. by destruct (h !! p). Qed.
Lemma mark_links M p x : m_parents (mark M p x) = m_parents x /\ m_children (mark M p x) = m_children x.
Proof. unfold mark. by destruct (decide _). Qed.
Lemma marked_none h : marked ∅ h = h.
Proof.
  apply map_eq. intros p. rewrite marked_lookup. destruct (h !! p); simpl; [|done]. unfold mark. by rewrite decide_False by set_solver.
Qed.
Lemma marked_insert M h c x :
  h !! c = Some x -> <[c := SetVertexProcessed true (mark M c x)]> (marked M h) = marked ({[c]} ∪ M) h.
Proof.
  intros Hx. apply map_eq. intros p. rewrite marked_lookup. destruct (decide (p = c)) as [->|Hne].
  - rewrite lookup_insert_eq, Hx. simpl. f_equal. unfold mark. rewrite (decide_True (P := c ∈ {[c]} ∪ M)) by set_solver.
    by destruct (decide (c ∈ M)).
  - rewrite lookup_insert_ne, marked_lookup by done. destruct (h !! p) as [y|]; simpl; [|done]. f_equal. unfold mark.
    destruct (decide (p ∈ M)), (decide (p ∈ {[c]} ∪ M)); set_solver.
Qed.
Lemma shape_marked M h tp q : shape h tp q -> shape (marked M h) tp q.
Proof.
  intros [Hd Hn Hp Hc Hq]. assert (forall p x, marked M h !! p = Some x ->
    exists y, h !! p = Some y /\ m_parents x = m_parents y /\ m_children x = m_children y) as Hback.
  { intros p x. rewrite marked_lookup. intros (y & Hy & ->)%fmap_Some. exists y. split; [done|]. apply mark_links. }
  assert (forall p y, h !! p = Some y -> exists x, marked M h !! p = Some x /\
    m_parents x = m_parents y /\ m_children x = m_children y) as Hforth.
  { intros p y Hy. exists (mark M p y). rewrite marked_lookup, Hy. split; [done|]. apply mark_links. }
  split; try done.
  - intros p. rewrite marked_lookup, fmap_is_Some. apply Hd.
  - intros i p x Hi (y & Hy & -> & _)%Hback. destruct (Hp i p y Hi Hy) as [? Hpar]. split; [done|].
    intros r Hr. destruct (Hpar r Hr) as (j & z & ? & ? & Hz & Hin). destruct (Hforth r z Hz) as (z' & Hz' & _ & Ez).
    exists j, z'. by rewrite Ez.
  - intros p x c Hpt (y & Hy & _ & ->)%Hback Hin. destruct (Hc p y c Hpt Hy Hin) as [? (z & Hz & Hpz)]. split; [done|].
    destruct (Hforth c z Hz) as (z' & Hz' & Ez & _). exists z'. by rewrite Ez.
  - intros p x Hpq (y & Hy & -> & ->)%Hback. by apply (Hq p).
Qed.

(** The advertisements of a database as [Initialize] leaves them. *)
Definition unexplored (db : gmap Z GlobalRoutingLSA) : gmap Z GlobalRoutingLSA := SetStatus LSA_SPF_NOT_EXPLORED <$> db.
Lemma unexplored_with db0 st db : unexplored db0 = db0 -> db_with db0 st db -> unexplored db = db0.
Proof.
  intros Hu Hd. apply map_eq. intros k. unfold unexplored. rewrite lookup_fmap, (Hd k).
  rewrite <- Hu. unfold unexplored. rewrite lookup_fmap. by destruct (db0 !! k).
Qed.

Lemma next_link_find wid l : next_link wid true false l = List.find (fun r => m_linkId r =? wid) l.
Proof. induction l as [|r l IH]; simpl; [done|]. by destruct (_ =? _). Qed.
Lemma transit_links_of db k a st : router_db db -> db !! k = Some a -> transit_links (SetStatus st a) = links_of db k.
Proof.
  intros Hdb Ha. unfold transit_links, links_of. rewrite Ha. simpl. pose proof (fun l => db_types _ Hdb k a l Ha) as Ht.
  induction (m_linkRecords a) as [|l ls IH]; [done|]. cbn [List.filter]. rewrite filter_cons, IH by (intros r Hr; apply Ht; by right).
  unfold point_to_point. destruct (Ht l ltac:(by left)) as [E|E]; rewrite E.
  - rewrite decide_True by by right. by rewrite bool_decide_eq_true_2.
  - rewrite decide_False by naive_solver. by rewrite bool_decide_eq_false_2.
Qed.
Lemma link_back_found db k l r : router_db db -> l ∈ links_of db k -> link_towards db (m_linkId l) k = Some r ->
  exists b, db !! m_linkId l = Some b /\ List.find (link_back k) (m_linkRecords b) = Some r.
Proof.
  intros Hdb Hl Hr. pose proof (db_towards _ Hdb _ _ _ Hl Hr) as Ht. unfold link_towards in Hr.
  destruct (db !! m_linkId l) as [b|] eqn:Eb; [|done]. exists b. split; [done|]. rewrite next_link_find in Hr. clear Eb.
  induction (m_linkRecords b) as [|x ls IH]; [done|]. simpl in *. unfold link_back at 1.
  destruct (m_linkId x =? k) eqn:E; [|rewrite andb_false_r; by apply IH].
  injection Hr as ->. by rewrite bool_decide_eq_true_2.
Qed.

Lemma set_router_same {R} (n : rnode R) r gr :
  rn_router n = Some r -> m_routingProtocol r = Some gr -> set_router (SetRoutingProtocol gr r) n = n.
Proof. destruct n as [? ? ? rt], r as [? ? ? rp]. simpl. by intros -> ->. Qed.

Lemma set_node_same {R} k n (w : net R) : n_nodes w !! k = Some n -> set_node k n w = w.
Proof. intros E. unfold set_node. rewrite (list_insert_id _ k) by done. by destruct w. Qed.

Definition stub (l : GlobalRoutingLinkRecord) : bool := bool_decide (m_linkType l = StubNetwork).

Section calculate.
Context {R : Type} `{Allocator}.
Implicit Types s : manager R.

Variables (net0 : net R) (rid : Z) (k0 : nat) (n0 : rnode R) (r0 : GlobalRouter R) (ip0 : Ipv4).
Hypothesis (Hindex : index_of (is_router rid) (n_nodes net0) 0 = Some k0).
Hypothesis (Hn0 : n_nodes net0 !! k0 = Some n0) (Hr0 : rn_router n0 = Some r0) (Hip0 : rn_ipv4 n0 = Some ip0).
Variable db0 : gmap Z GlobalRoutingLSA.
Hypothesis Hdb : router_db db0.
Abbreviation with_routes := (with_routes net0 k0 n0 r0).
Abbreviation rooted := (rooted net0 rid k0 n0 r0).
Abbreviation repr := (repr net0 rid k0 n0 r0 db0).
Abbreviation first_exit := (first_exit rid ip0 db0).

Lemma run_check {A B} (a : A) (k : A -> st (manager R) B) s : (check (Some a) ≫= k) s = k a s.
Proof using. done. Qed.

(** ** Stub networks *)

Definition network_entries (l : GlobalRoutingLinkRecord) (es : list (Z * Z)) : list Ipv4RoutingTableEntry :=
  (fun e => CreateNetworkRouteTo (Ipv4Address.CombineMask (m_linkId l) (m_linkData l)) (m_linkData l) e.1 e.2)
    <$> usable_exits es.
Definition stubs_of (k : Z) : list GlobalRoutingLinkRecord :=
  match db0 !! k with Some a => List.filter stub (m_linkRecords a) | None => [] end.
Definition stub_entries (a : avertex) : list Ipv4RoutingTableEntry :=
  if a_id a =? rid then [] else stubs_of (a_id a) ≫= (fun l => network_entries l (a_exits a)).

Lemma SPFIntraAddStub_ok l p x a st gr s :
  rooted gr s -> db_with db0 st (m_database s) -> m_vertices s !! p = Some x ->
  m_vertexId x = a_id a -> m_lsa x = a_id a -> m_ecmpRootExits x = a_exits a -> is_Some (db0 !! a_id a) ->
  SPFIntraAddStub l p s =
  Ok (tt, set_net (with_routes (add_networks (if a_id a =? rid then [] else network_entries l (a_exits a)) gr)) s).
Proof using Hindex Hn0 Hr0 Hip0.
  intros (En & Hnz & rx & Hrx & Hrid) Hd Hx Hid Hl Hes (la & Ela). unfold SPFIntraAddStub.
  rewrite (run_bind _ _ _ _ _ (run_root_id rid s rx Hnz Hrx Hrid)), (run_bind _ _ _ _ _ (run_vertex p x s Hx)), Hid.
  destruct (a_id a =? rid).
  { rewrite add_networks_nil, <- En. by destruct s. }
  rewrite (run_bind _ _ _ _ _ (run_router_index net0 rid k0 n0 r0 Hindex Hn0 Hr0 s gr En)).
  pose proof (db_with_lookup _ _ _ _ _ Hd Ela) as E. rewrite <- Hl in E.
  rewrite (run_bind _ _ _ _ _ (run_vertex_lsa p x _ s Hx E)). unfold network_routes.
  rewrite (run_bind _ _ s _ s (run_node_at s k0 _ ltac:(rewrite En; by apply routed_node))). simpl. rewrite Hip0.
  unfold check at 1. run. rewrite (run_bind _ _ _ _ _ (run_has_routes net0 k0 n0 r0 Hn0 s gr En)), Hes.
  rewrite (run_add_routes net0 k0 n0 r0 Hn0 _ (fun e => CreateNetworkRouteTo
    (Ipv4Address.CombineMask (m_linkId l) (m_linkData l)) (m_linkData l) e.1 e.2) add_networks _) with (gr := gr);
    [done|done|apply add_networks_nil|apply add_networks_app|done].
Qed.

Section walk.
Context (ext0 : list GlobalRoutingLSA) (gr : Ipv4GlobalRouting R) (tp : list Z) (tree : list avertex) (s0 : manager R).
Hypothesis Hrepr : repr ext0 gr tp tree [] s0.
Abbreviation h := (m_vertices s0).

(** The state when the vertices of [M] are marked and the routes [acc] are added. *)
Definition walking (M : gset Z) (acc : list Ipv4RoutingTableEntry) : manager R :=
  set_net (with_routes (add_networks acc gr)) (set_vertices (marked M h) s0).
Lemma walking_vertex M acc p x : h !! p = Some x -> m_vertices (walking M acc) !! p = Some (mark M p x).
Proof using. intros Hx. simpl. by rewrite marked_lookup, Hx. Qed.
Lemma walking_rooted M acc : rooted (add_networks acc gr) (walking M acc).
Proof using Hrepr.
  destruct (r_rooted _ _ _ _ _ _ _ _ _ _ _ _ Hrepr) as (_ & ? & x & Hx & Hid). split; [done|]. split; [done|].
  exists (mark M (m_spfroot s0) x). split; [by apply walking_vertex|]. unfold mark. by destruct (decide _).
Qed.
Lemma run_walking_vertex M acc p x : h !! p = Some x -> vertex p (walking M acc) = Ok (mark M p x, walking M acc).
Proof using. intros Hx. by apply run_vertex, walking_vertex. Qed.
Lemma walking_type M acc p x a : h !! p = Some x -> stands x a -> vertex_type p (walking M acc) = Ok (VertexRouter, walking M acc).
Proof using.
  intros Hx Hs. eapply run_vertex_type; [by apply walking_vertex|]. unfold mark. destruct (decide _); apply (st_type _ _ Hs).
Qed.
Lemma walking_lsa M acc p x a la :
  h !! p = Some x -> stands x a -> db0 !! a_id a = Some la ->
  vertex_lsa p (walking M acc) = Ok (SetStatus (status tree [] (a_id a)) la, walking M acc).
Proof using Hrepr.
  intros Hx Hs Ela. eapply run_vertex_lsa; [by apply walking_vertex|].
  assert (m_lsa (mark M p x) = a_id a) as -> by (unfold mark; destruct (decide _); apply (st_lsa _ _ Hs)).
  by apply (db_with_lookup _ _ _ _ _ (r_db _ _ _ _ _ _ _ _ _ _ _ _ Hrepr)).
Qed.

Lemma walking_stubs M v x a ls : forall acc,
  h !! v = Some x -> stands x a -> is_Some (db0 !! a_id a) ->
  each (fun l => if bool_decide (m_linkType l = StubNetwork) then SPFIntraAddStub l v else mret tt) ls (walking M acc) =
  Ok (tt, walking M (acc ++ (if a_id a =? rid then [] else List.filter stub ls ≫= (fun l => network_entries l (a_exits a))))).
Proof using Hindex Hn0 Hr0 Hip0 Hrepr.
  induction ls as [|l ls IH]; intros acc Hx Hs Hk.
  - simpl. destruct (a_id a =? rid); by rewrite app_nil_r.
  - cbn [each List.filter]. unfold stub at 1. case_bool_decide.
    + rewrite (run_bind _ _ _ tt (walking M (acc ++ (if a_id a =? rid then [] else network_entries l (a_exits a))))).
      * rewrite IH by done. f_equal. f_equal. f_equal. rewrite <- app_assoc. f_equal. by destruct (a_id a =? rid).
      * rewrite (SPFIntraAddStub_ok l v (mark M v x) a _ _ _ (walking_rooted M acc)
          (r_db _ _ _ _ _ _ _ _ _ _ _ _ Hrepr) (walking_vertex M acc v x Hx)); try done.
        -- by rewrite add_networks_app.
        -- unfold mark. destruct (decide _); apply (st_id _ _ Hs).
        -- unfold mark. destruct (decide _); apply (st_lsa _ _ Hs).
        -- unfold mark. destruct (decide _); apply (st_exits _ _ Hs).
    + run. by apply IH.
Qed.

(** What is marked is finished: with what is below it, and its routes. *)
Record walked (M : gset Z) (acc : list Ipv4RoutingTableEntry) : Prop := {
  wk_down p x c : p ∈ M -> h !! p = Some x -> c ∈ m_children x -> c ∈ M;
  wk_routes p a e : p ∈ M -> holds h p a -> e ∈ stub_entries a -> e ∈ acc;
  wk_only e : e ∈ acc -> exists a, a ∈ tree /\ e ∈ stub_entries a }.
(** What the walk from a vertex does. *)
Definition walks (rec : Z -> st (manager R) unit) (bound : nat) : Prop :=
  forall i v x a M acc, tp !! i = Some v -> h !! v = Some x -> stands x a -> a ∈ tree -> (bound <= i)%nat -> walked M acc ->
  exists M' acc', rec v (walking M acc) = Ok (tt, walking M' acc') /\ walked M' acc' /\ M ⊆ M' /\ acc ⊆ acc' /\
    (forall c, c ∈ m_children x -> c ∈ M') /\ (forall e, e ∈ stub_entries a -> e ∈ acc').

Definition visit (rec : Z -> st (manager R) unit) (c : Z) : st (manager R) unit :=
  y ← vertex c;
  if m_vertexProcessed y then mret tt else _ ← rec c; on_vertex c (SetVertexProcessed true).
Lemma visit_ok rec bound i c x a M acc :
  walks rec bound -> tp !! i = Some c -> h !! c = Some x -> stands x a -> a ∈ tree -> (bound <= i)%nat -> walked M acc ->
  exists M' acc', visit rec c (walking M acc) = Ok (tt, walking M' acc') /\ walked M' acc' /\ M ⊆ M' /\ acc ⊆ acc' /\ c ∈ M'.
Proof using Hindex Hn0 Hr0 Hip0 Hdb Hrepr.
  intros Hrec Hi Hx Hs Ha Hb Hw. unfold visit. rewrite (run_bind _ _ _ _ _ (run_walking_vertex M acc c x Hx)).
  unfold mark. destruct (decide (c ∈ M)) as [Hin|Hout].
  { exists M, acc. split; [done|]. split; [done|]. done. }
  rewrite (st_processed _ _ Hs). destruct (Hrec i c x a M acc Hi Hx Hs Ha Hb Hw) as (M' & acc' & E & Hw' & HM & Hacc & Hch & Hst).
  rewrite (run_bind _ _ _ _ _ E). exists ({[c]} ∪ M'), acc'. split.
  - rewrite (run_on_vertex c _ _ _ (walking_vertex M' acc' c x Hx)). simpl. by rewrite (marked_insert M' h c x Hx).
  - split; [|set_solver]. destruct Hw' as [Hd Hr Ho]. split; [| |done].
    + intros p y c' [->%elem_of_singleton|Hp]%elem_of_union Hy Hc'; [|set_solver].
      assert (y = x) as -> by congruence. set_solver.
    + intros p b e [->%elem_of_singleton|Hp]%elem_of_union (y & Hy & Hsy) He; [|by apply (Hr p b); [|by exists y|]].
      apply Hst. assert (y = x) as -> by congruence. assert (a_id b = a_id a /\ a_exits b = a_exits a) as [E1 E2].
      { destruct Hs, Hsy. split; congruence. }
      unfold stub_entries in *. by rewrite <- E1, <- E2.
Qed.
Lemma visits_ok rec i cs : forall M acc,
  walks rec (S i) -> (forall c, c ∈ cs -> exists j x a, (i < j)%nat /\ tp !! j = Some c /\ h !! c = Some x /\ stands x a /\ a ∈ tree) ->
  walked M acc ->
  exists M' acc', each (visit rec) cs (walking M acc) = Ok (tt, walking M' acc') /\ walked M' acc' /\ M ⊆ M' /\ acc ⊆ acc' /\
    (forall c, c ∈ cs -> c ∈ M').
Proof using Hindex Hn0 Hr0 Hip0 Hdb Hrepr.
  induction cs as [|c cs IH]; intros M acc Hrec Hcs Hw.
  - exists M, acc. split; [done|]. split; [done|]. set_solver.
  - destruct (Hcs c ltac:(by left)) as (j & x & a & Hj & Hc & Hx & Hs & Ha).
    destruct (visit_ok rec (S i) j c x a M acc) as (M1 & acc1 & E1 & Hw1 & HM1 & Hacc1 & Hc1); [done..|].
    destruct (IH M1 acc1 Hrec ltac:(set_solver) Hw1) as (M2 & acc2 & E2 & Hw2 & HM2 & Hacc2 & Hc2).
    exists M2, acc2. cbn [each]. rewrite (run_bind _ _ _ _ _ E1). split; [done|]. split; [done|].
    split; [set_solver|]. split; [by etransitivity|]. set_solver.
Qed.

Lemma SPFProcessStubs_walks fuel : walks (SPFProcessStubs fuel) (length tp - fuel).
Proof using Hindex Hn0 Hr0 Hip0 Hdb Hrepr.
  induction fuel as [|fuel IH]; intros i v x a M acc Hi Hx Hs Ha Hb Hw.
  { apply lookup_lt_Some in Hi. lia. }
  destruct (r_known _ _ _ _ _ _ _ _ _ _ _ _ Hrepr (a_id a)) as (la & Ela).
  { rewrite app_nil_r. by apply list_elem_of_fmap_2. }
  cbn [SPFProcessStubs]. rewrite (run_bind _ _ _ _ _ (walking_type M acc v x a Hx Hs)). cbn iota.
  set (acc1 := acc ++ stub_entries a).
  rewrite (run_bind _ _ _ tt (walking M acc1)).
  2:{ rewrite (run_bind _ _ _ _ _ (walking_lsa M acc v x a la Hx Hs Ela)).
      rewrite (walking_stubs M v x a _ acc Hx Hs ltac:(by eexists)). unfold acc1, stub_entries, stubs_of. by rewrite Ela. }
  rewrite (run_bind _ _ _ _ _ (run_walking_vertex M acc1 v x Hx)).
  assert (m_children (mark M v x) = m_children x) as -> by apply mark_links.
  pose proof (r_shape _ _ _ _ _ _ _ _ _ _ _ _ Hrepr) as Hsh.
  assert (m_candidates s0 = []) as Eq.
  { pose proof (r_cands _ _ _ _ _ _ _ _ _ _ _ _ Hrepr) as Hc. by inversion Hc. }
  rewrite Eq in Hsh.
  destruct (visits_ok (SPFProcessStubs fuel) i (m_children x) M acc1) as (M' & acc' & E & Hw' & HM & Hacc & Hch).
  - intros j v' x' a' M1 acc1' ? ? ? ? ? ?. apply (IH j); [done..|lia|done].
  - intros c Hc. destruct (sh_children _ _ _ Hsh v x c (list_elem_of_lookup_2 _ _ _ Hi) Hx Hc) as [Hct (y & Hy & Hpy)].
    apply list_elem_of_lookup in Hct as [j Hj]. destruct (sh_parents _ _ _ Hsh j c y Hj Hy) as [_ Hpar].
    destruct (Hpar v Hpy) as (i' & z & Hlt & Hi' & _).
    assert (i' = i) as -> by (eapply NoDup_lookup; [by eapply shape_tree_nodup|done..]).
    destruct (Forall2_lookup_l _ _ _ _ _ (r_tree _ _ _ _ _ _ _ _ _ _ _ _ Hrepr) Hj) as (b & Hb' & y' & Hy' & Hsy).
    exists j, y', b. split; [done|]. split; [done|]. split; [done|]. split; [done|]. by eapply list_elem_of_lookup_2.
  - destruct Hw as [Hd Hr Ho]. split; [done| |].
    + intros p b e Hp Hb' He. apply elem_of_app. left. by apply (Hr p b).
    + intros e [He|He]%elem_of_app; [by apply Ho|]. by exists a.
  - exists M', acc'. split; [exact E|]. split; [done|]. split; [done|]. split; [set_solver|]. split; [done|].
    intros e He. apply Hacc, elem_of_app. by right.
Qed.

Lemma no_candidates : m_candidates s0 = [].
Proof using Hrepr. pose proof (r_cands _ _ _ _ _ _ _ _ _ _ _ _ Hrepr) as Hc. by inversion Hc. Qed.
Lemma final_shape : shape h tp [].
Proof using Hrepr. rewrite <- no_candidates. apply (r_shape _ _ _ _ _ _ _ _ _ _ _ _ Hrepr). Qed.

(** When the children of the root are finished, so is every other vertex. *)
Lemma walked_all M acc x : walked M acc -> h !! m_spfroot s0 = Some x -> (forall c, c ∈ m_children x -> c ∈ M) ->
  forall i p, tp !! i = Some p -> i <> 0%nat -> p ∈ M.
Proof using Hindex Hn0 Hr0 Hip0 Hdb Hrepr.
  intros Hw Hx Hch i. induction (lt_wf i) as [i _ IH]. intros p Hi Hne.
  destruct (shape_tree_alive _ _ _ _ final_shape (list_elem_of_lookup_2 _ _ _ Hi)) as (y & Hy).
  destruct (sh_parents _ _ _ final_shape i p y Hi Hy) as [Hroot Hpar].
  destruct (m_parents y) as [|r rs] eqn:E; [destruct Hne; by apply Hroot|].
  destruct (Hpar r ltac:(by left)) as (j & z & Hlt & Hj & Hz & Hin).
  destruct (decide (j = 0%nat)) as [->|Hj0].
  - pose proof (r_head _ _ _ _ _ _ _ _ _ _ _ _ Hrepr) as Hh. assert (r = m_spfroot s0) as -> by congruence.
    apply Hch. congruence.
  - apply (wk_down _ _ Hw r z p); [by apply (IH j)|done|done].
Qed.

Lemma process_stubs_ok :
  exists M acc, SPFProcessStubs (size h) (m_spfroot s0) (walking ∅ []) = Ok (tt, walking M acc) /\
    forall e, e ∈ acc <-> exists a, a ∈ tree /\ e ∈ stub_entries a.
Proof using Hindex Hn0 Hr0 Hip0 Hdb Hrepr.
  pose proof (r_head _ _ _ _ _ _ _ _ _ _ _ _ Hrepr) as Hh. pose proof (r_tree _ _ _ _ _ _ _ _ _ _ _ _ Hrepr) as Ht.
  destruct (Forall2_lookup_l _ _ _ _ _ Ht Hh) as (a & Ha & x & Hx & Hs).
  destruct (SPFProcessStubs_walks (size h) 0%nat (m_spfroot s0) x a ∅ []) as (M & acc & E & Hw & _ & _ & Hch & _);
    [done|done|done|by eapply list_elem_of_lookup_2|rewrite (shape_size _ _ final_shape); lia| |].
  { split; [set_solver|set_solver|]. by intros e ?%elem_of_nil. }
  exists M, acc. split; [done|]. intros e. split; [apply (wk_only _ _ Hw)|].
  intros (b & Hb & He). apply list_elem_of_lookup in Hb as [i Hi].
  destruct (Forall2_lookup_r _ _ _ _ _ Ht Hi) as (p & Hp & Hhold). destruct (decide (i = 0%nat)) as [->|Hne].
  - exfalso. assert (b = a) as -> by congruence. unfold stub_entries in He.
    destruct (r_rooted _ _ _ _ _ _ _ _ _ _ _ _ Hrepr) as (_ & _ & rx & Hrx & Hid). assert (rx = x) as -> by congruence.
    rewrite <- (st_id _ _ Hs), Hid, Z.eqb_refl in He. by apply elem_of_nil in He.
  - apply (wk_routes _ _ Hw p b); [by eapply walked_all|done|done].
Qed.

(** The tree is released. *)
Lemma release_tree_ok M acc : destroy (m_spfroot s0) (walking M acc) = Ok (tt, set_vertices ∅ (walking M acc)).
Proof using Hindex Hn0 Hr0 Hip0 Hdb Hrepr.
  pose proof (shape_marked M _ _ _ final_shape) as Hs. pose proof (shape_tree_nodup _ _ _ Hs) as Hn.
  pose proof (r_head _ _ _ _ _ _ _ _ _ _ _ _ Hrepr) as Hh.
  assert (forall q, is_Some (marked M h !! q) -> exists i, tp !! i = Some q) as Hat.
  { intros q Hq. apply list_elem_of_lookup. rewrite <- (app_nil_r tp). by apply (sh_dom _ _ _ Hs). }
  destruct (shape_tree_alive _ _ _ _ Hs (list_elem_of_lookup_2 _ _ _ Hh)) as (x & Hx).
  apply (destroy_root (position tp) (size (marked M h)) _ _ x); [by apply shape_linked|done| |done|].
  - intros q (i & Hi)%Hat. rewrite (position_lookup _ _ _ Hn Hi). simpl. rewrite (shape_size _ _ Hs). by eapply lookup_lt_Some.
  - intros q y Hy Hpar. destruct (Hat q ltac:(by exists y)) as [i Hi].
    destruct (sh_parents _ _ _ Hs i q y Hi Hy) as [[Hroot _] _]. rewrite (Hroot Hpar) in Hi. congruence.
Qed.
End walk.

(** ** The calculation for a root *)

(** The default route of a router that has one link. *)
Definition default_entry (l : GlobalRoutingLinkRecord) : Ipv4RoutingTableEntry :=
  CreateNetworkRouteTo 0 0 (first_exit l).1 (u32 (outgoing ip0 (m_linkData l))).
(** What the calculation makes of the routes [gr0]: nothing for a router without
    links, a default route for a router with one, and otherwise the routes to
    the addresses and the stub networks of all the routers it reaches, through
    the exits of the shortest paths. *)
Inductive tables (gr0 : Ipv4GlobalRouting R) : Ipv4GlobalRouting R -> Prop :=
| tables_isolated : links_of db0 rid = [] -> tables gr0 gr0
| tables_stub l : links_of db0 rid = [l] -> tables gr0 (add_networks [default_entry l] gr0)
| tables_tree rest nets :
    (2 <= length (links_of db0 rid))%nat ->
    exact (links_of db0) m_linkId m_metric first_exit rid (root_vertex rid :: rest) ->
    (forall e, e ∈ nets <-> exists a, a ∈ rest /\ e ∈ stub_entries a) ->
    tables gr0 (add_networks nets (add_hosts (rest ≫= host_entries db0) gr0)).

Section start.
Context (s : manager R) (gr0 : Ipv4GlobalRouting R) (a0 : GlobalRoutingLSA).
Hypothesis (Hnet : m_net s = net0) (Hgr : m_routingProtocol r0 = Some gr0) (Hv : m_vertices s = ∅)
  (Hext : m_extdatabase s = []) (Hsdb : unexplored (m_database s) = db0) (Ha0 : db0 !! rid = Some a0).

Lemma with_routes_initial : with_routes gr0 = net0.
Proof using All.
  unfold SpfRefine.with_routes. rewrite set_router_same by done. by apply set_node_same.
Qed.
Lemma unexplored_same : unexplored db0 = db0.
Proof using All.
  rewrite <- Hsdb. unfold unexplored. rewrite <- map_fmap_compose. apply map_fmap_ext. done.
Qed.

Abbreviation root_ptr := (fresh (∅ : gmap Z SPFVertex)).
Definition root_object : SPFVertex := SetDistanceFromRoot 0 (new_vertex rid a0).
(** The state before the first turn of the loop *)
Definition started : manager R :=
  mkManager (alter (SetStatus LSA_SPF_IN_SPFTREE) rid db0) [] root_ptr {[root_ptr := root_object]} [] net0.

Lemma started_db : db_with db0 (status [root_vertex rid] []) (m_database started).
Proof using All.
  apply (db_with_set db0 (fun _ => LSA_SPF_NOT_EXPLORED)).
  - intros k. rewrite <- unexplored_same at 1. unfold unexplored. by rewrite lookup_fmap.
  - unfold status. by rewrite bool_decide_eq_true_2 by by left.
  - intros k Hne. unfold status. by rewrite !bool_decide_eq_false_2 by set_solver.
Qed.
Lemma started_holds : holds (m_vertices started) root_ptr (root_vertex rid).
Proof using All.
  exists root_object. split; [apply lookup_singleton_eq|]. destruct (db_router _ Hdb _ _ Ha0) as [Et Ei].
  split; simpl; by rewrite ?Et, ?Ei.
Qed.
Lemma started_repr : repr [] (routed db0 gr0 [root_vertex rid]) [root_ptr] [root_vertex rid] [] started.
Proof using All.
  pose proof started_holds as Hh. split.
  - split; [unfold routed; simpl; rewrite add_hosts_nil; symmetry; apply with_routes_initial|]. split; [apply fresh_not_null|].
    destruct Hh as (x & Hx & Hs). exists x. split; [done|]. apply (st_id _ _ Hs).
  - done.
  - apply started_db.
  - done.
  - by constructor.
  - constructor.
  - split.
    + intros p. simpl. rewrite lookup_singleton_is_Some, list_elem_of_singleton. done.
    + simpl. repeat constructor. set_solver.
    + intros i p x Hi Hx. apply list_lookup_singleton_Some in Hi as [-> <-]. simpl in Hx.
      rewrite lookup_singleton_eq in Hx. injection Hx as <-. split; [done|]. by intros r ?%elem_of_nil.
    + intros p x c ->%list_elem_of_singleton. simpl. rewrite lookup_singleton_eq. intros [= <-] ?%elem_of_nil. done.
    + by intros p x ?%elem_of_nil.
  - simpl. repeat constructor. set_solver.
  - intros k ->%list_elem_of_singleton. simpl. by rewrite Ha0.
Qed.

(** The whole of [SPFCalculate], once the root is in the tree. *)
Lemma SPFCalculate_start :
  SPFCalculate rid s =
  (stub ← CheckForStubNode rid;
   if (stub : bool) then destroy root_ptr
   else
   n ← gets (fun s => size (m_database s));
   _ ← spf_loop n root_ptr;
   depth ← gets (fun s => size (m_vertices s));
   _ ← SPFProcessStubs depth root_ptr;
   ext ← gets m_extdatabase;
   _ ← each (fun extlsa => _ ← ClearVertexProcessed depth root_ptr; ProcessASExternals depth extlsa root_ptr) ext;
   _ ← destroy root_ptr;
   update (set_spfroot 0)) started.
Proof using All.
  unfold SPFCalculate, Initialize. run. fold (unexplored (m_database s)). rewrite Hsdb.
  set (s1 := set_candidates [] (set_database db0 s)).
  assert (make_vertex rid s1 = Ok (root_ptr, set_vertices {[root_ptr := new_vertex rid a0]} s1)) as E.
  { unfold make_vertex. rewrite (run_bind _ _ _ _ _ (run_lsa_at rid a0 s1 Ha0)). run.
    change (m_vertices s1) with (m_vertices s). rewrite Hv. done. }
  rewrite (run_bind _ _ _ _ _ E). run.
  set (s2 := set_spfroot root_ptr (set_vertices {[root_ptr := new_vertex rid a0]} s1)).
  assert (m_vertices s2 !! root_ptr = Some (new_vertex rid a0)) as Hx by apply lookup_singleton_eq.
  rewrite (run_bind _ _ _ _ _ (run_on_vertex root_ptr _ _ s2 Hx)). unfold set_status. run.
  assert (set_database (alter (SetStatus LSA_SPF_IN_SPFTREE) rid db0)
    (set_vertices (<[root_ptr := root_object]> (m_vertices s2)) s2) = started) as Es.
  { unfold started, set_database, set_vertices. simpl. rewrite Hext, Hnet, insert_singleton_eq. done. }
  change (m_database (set_vertices (<[root_ptr := SetDistanceFromRoot 0 (new_vertex rid a0)]> (m_vertices s2)) s2)) with db0.
  fold root_object. rewrite Es. simpl. rewrite bool_decide_eq_false_2; [done|].
  intros Hnil. by rewrite Hnil in Hn0.
Qed.

Definition done_with (gr : Ipv4GlobalRouting R) (s' : manager R) : Prop :=
  m_net s' = with_routes gr /\ m_vertices s' = ∅ /\ m_extdatabase s' = [] /\ unexplored (m_database s') = db0.

(** A root without children is deleted alone. *)
Lemma release_started (s1 : manager R) :
  m_vertices s1 = {[root_ptr := root_object]} -> destroy root_ptr s1 = Ok (tt, set_vertices ∅ s1).
Proof using All.
  intros E. assert (forall q, alive (m_vertices s1) q -> q = root_ptr) as Hq.
  { intros q. unfold alive. rewrite E, lookup_singleton_is_Some. intros Eq. by rewrite Eq. }
  apply (destroy_root (fun _ => 0%nat) (size (m_vertices s1)) s1 root_ptr root_object).
  - split.
    + intros p x c. rewrite E, lookup_singleton_Some. intros [_ <-] ?%elem_of_nil. done.
    + intros p x q _. rewrite E, lookup_singleton_Some. intros [_ <-] ?%elem_of_nil. done.
  - by rewrite E, lookup_singleton_eq.
  - intros q _. rewrite E, map_size_singleton. lia.
  - done.
  - intros q y Hy _. apply Hq. by exists y.
Qed.

Lemma check_isolated : links_of db0 rid = [] -> CheckForStubNode rid started = Ok (true, started).
Proof using All.
  intros E. unfold CheckForStubNode.
  rewrite (run_bind _ _ _ _ _ (run_lsa_at rid _ started (db_with_lookup _ _ _ _ _ started_db Ha0))).
  by rewrite (transit_links_of _ _ _ _ Hdb Ha0), E.
Qed.
Lemma check_tree : (2 <= length (links_of db0 rid))%nat -> CheckForStubNode rid started = Ok (false, started).
Proof using All.
  intros E. unfold CheckForStubNode.
  rewrite (run_bind _ _ _ _ _ (run_lsa_at rid _ started (db_with_lookup _ _ _ _ _ started_db Ha0))).
  rewrite (transit_links_of _ _ _ _ Hdb Ha0). destruct (links_of db0 rid) as [|? [|? ?]]; simpl in E; [lia..|done].
Qed.
(** The advertisement of the root names its node. *)
Hypothesis Hnode : m_node_id a0 = Z.of_nat k0.
Lemma check_stub l : links_of db0 rid = [l] ->
  CheckForStubNode rid started = Ok (true, set_net (with_routes (add_networks [default_entry l] gr0)) started).
Proof using All.
  intros E. assert (l ∈ links_of db0 rid) as Hl by (rewrite E; by left).
  destruct (db_back _ Hdb _ _ Hl) as [_ (r & Hr)]. destruct (link_back_found _ _ _ _ Hdb Hl Hr) as (b & Hb & Hf).
  unfold CheckForStubNode.
  rewrite (run_bind _ _ _ _ _ (run_lsa_at rid _ started (db_with_lookup _ _ _ _ _ started_db Ha0))).
  rewrite (transit_links_of _ _ _ _ Hdb Ha0), E. cbn iota.
  pose proof Hl as (la & _ & _ & Ht)%links_of_elem. rewrite Ht. rewrite bool_decide_eq_false_2 by done.
  rewrite (run_bind _ _ _ _ _ (run_lsa_at _ _ started (db_with_lookup _ _ _ _ _ started_db Hb))). simpl.
  destruct (db_router _ Hdb _ _ Ha0) as [_ ->]. rewrite Hf. rewrite Hnode, Nat2Z.id. run.
  change (m_net started) with net0. rewrite Hn0. rewrite (run_check n0), Hr0, (run_check r0).
  assert (m_net started = with_routes gr0) as En by (symmetry; apply with_routes_initial).
  rewrite (run_bind _ _ _ _ _ (run_has_routes net0 k0 n0 r0 Hn0 started gr0 En)).
  destruct started_holds as (x & Hx & Hs).
  rewrite (run_bind _ _ _ _ _ (run_FindOutgoing net0 rid k0 n0 r0 ip0 Hindex Hn0 Hr0 Hip0 started gr0 x (m_linkData l) En
    (fresh_not_null _) Hx (st_id _ _ Hs))).
  rewrite (run_bind _ _ _ _ _ (run_on_routes net0 k0 n0 r0 Hn0 started gr0 _ En)).
  unfold default_entry, SpfRefine.first_exit. by rewrite Hr.
Qed.

Lemma exact_rest rest : exact (links_of db0) m_linkId m_metric first_exit rid (root_vertex rid :: rest) ->
  forall e, (exists a, a ∈ root_vertex rid :: rest /\ e ∈ stub_entries a) <-> exists a, a ∈ rest /\ e ∈ stub_entries a.
Proof using All.
  intros _ e. split.
  - intros (a & [->|Ha]%elem_of_cons & He); [|eauto]. unfold stub_entries in He. simpl in He.
    rewrite Z.eqb_refl in He. by apply elem_of_nil in He.
  - intros (a & Ha & He). exists a. split; [by right|done].
Qed.

Lemma links_known k l : k ∈ elements (dom db0) -> l ∈ links_of db0 k -> m_linkId l ∈ elements (dom db0).
Proof using All. intros _ Hl. apply elem_of_elements, elem_of_dom. by apply (db_back _ Hdb _ _ Hl). Qed.
Lemma links_positive k l : l ∈ links_of db0 k -> 1 <= m_metric l.
Proof using All. intros Hl. apply (db_cost _ Hdb _ _ Hl). Qed.
Lemma tree_found : exists rest,
  spf (links_of db0) m_linkId m_metric first_exit rid (size db0) [root_vertex rid] (root_vertex rid) [] =
    Some (root_vertex rid :: rest) /\
  exact (links_of db0) m_linkId m_metric first_exit rid (root_vertex rid :: rest).
Proof using All.
  destruct (spf_terminates (links_of db0) m_linkId m_metric first_exit rid links_positive (elements (dom db0)) (size db0)
    [root_vertex rid] (root_vertex rid) []) as (tree & E).
  - apply links_known.
  - by apply ready_start, links_positive.
  - intros k ->%list_elem_of_singleton. apply elem_of_elements, elem_of_dom. by exists a0.
  - simpl. change (length (elements (dom db0))) with (size (dom db0)). rewrite size_dom. lia.
  - destruct (spf_prefix _ _ _ _ _ _ _ _ _ _ E) as (rest & ->). exists rest. split; [done|].
    eapply spf_exact; [apply links_positive|by apply ready_start, links_positive|exact E].
Qed.

Theorem SPFCalculate_ok : exists s' gr, SPFCalculate rid s = Ok (tt, s') /\ tables gr0 gr /\ done_with gr s'.
Proof using All.
  rewrite SPFCalculate_start. destruct (links_of db0 rid) as [|l [|l2 ls]] eqn:El.
  - exists (set_vertices ∅ started), gr0. rewrite (run_bind _ _ _ _ _ (check_isolated El)). cbn iota.
    rewrite release_started by done. split; [done|]. split; [by constructor|]. split; [symmetry; apply with_routes_initial|].
    split; [done|]. split; [done|]. eapply unexplored_with; [apply unexplored_same|apply started_db].
  - exists (set_vertices ∅ (set_net (with_routes (add_networks [default_entry l] gr0)) started)), (add_networks [default_entry l] gr0).
    rewrite (run_bind _ _ _ _ _ (check_stub l El)). cbn iota. rewrite release_started by done. split; [done|].
    split; [by apply tables_stub|]. split; [done|]. split; [done|]. split; [done|].
    eapply unexplored_with; [apply unexplored_same|apply started_db].
  - assert (2 <= length (links_of db0 rid))%nat as H2 by (rewrite El; simpl; lia).
    rewrite (run_bind _ _ _ _ _ (check_tree H2)). cbn iota. run.
    destruct tree_found as (rest & Es & Hex).
    assert (size (m_database started) = size db0) as ->
      by (simpl; by rewrite <- (size_dom (D := gset Z)), <- (size_dom (D := gset Z) db0), dom_alter_L).
    destruct (spf_loop_ok net0 rid k0 n0 r0 ip0 Hindex Hn0 Hr0 Hip0 db0 Hdb gr0 [] (size db0) [root_ptr] [root_vertex rid]
      (root_vertex rid) [] started root_ptr (root_vertex rid :: rest)) as (tp & s1 & E1 & Hr1 & Hh1); [apply started_repr|done..| |done|].
    { split; simpl; [lia|]. by intros c ?%elem_of_nil. }
    rewrite (run_bind _ _ _ _ _ E1). run.
    assert (m_spfroot s1 = root_ptr) as Esp.
    { pose proof (r_head _ _ _ _ _ _ _ _ _ _ _ _ Hr1) as Hh. rewrite Hh1 in Hh. by injection Hh as <-. }
    destruct (process_stubs_ok _ _ _ _ s1 Hr1) as (M & acc & E2 & Hacc).
    assert (walking (routed db0 gr0 (root_vertex rid :: rest)) s1 ∅ [] = s1) as Ew.
    { unfold walking. rewrite marked_none, add_networks_nil.
      destruct (r_rooted _ _ _ _ _ _ _ _ _ _ _ _ Hr1) as [<- _]. by destruct s1. }
    rewrite Ew, Esp in E2. rewrite (run_bind _ _ _ _ _ E2). run.
    change (m_extdatabase (walking (routed db0 gr0 (root_vertex rid :: rest)) s1 M acc)) with (m_extdatabase s1).
    rewrite (r_ext _ _ _ _ _ _ _ _ _ _ _ _ Hr1). cbn [each]. run.
    pose proof (release_tree_ok _ _ _ _ s1 Hr1 M acc) as E3. rewrite Esp in E3.
    rewrite (run_bind _ _ _ _ _ E3). eexists _, (add_networks acc (add_hosts (rest ≫= host_entries db0) gr0)). split; [done|].
    split; [|split; [done|split; [done|split]]].
    + apply tables_tree; [done|done|]. intros e. rewrite Hacc. by apply exact_rest.
    + apply (r_ext _ _ _ _ _ _ _ _ _ _ _ _ Hr1).
    + simpl. eapply unexplored_with; [apply unexplored_same|apply (r_db _ _ _ _ _ _ _ _ _ _ _ _ Hr1)].
Qed.
End start.
End calculate.
