(* ===== verification/PopulateRoutes.v ===== *)
(** * [PopulateRoutingTables] on a network of point-to-point links

    What the routers discover, the database they make, and the calculation for
    each of them.  [p2p_net] says what the network is: every node has an IPv4
    stack and a router, and its devices are loopback devices or ends of links
    whose interfaces are up, forward, and have an address. *)

From S2P Require Import Prelude Ipv4Ifaces Routing GlobalRouter RouteManager ShortestPaths SpfRefine SpfTree SpfCalculate.
From S2P Require Ipv4Address GlobalRouting.
Import GlobalRouting (Ipv4GlobalRouting).

(** ** The links of a network *)

(** The end of a link: its node, the identifier of the router, the stack, the
    index and the interface of the device, and its first address. *)
Record link_end := mkEnd {
  e_node : nat; e_router : Z; e_ipv4 : Ipv4; e_index : Z; e_interface : Ipv4Interface; e_address : Ipv4InterfaceAddress }.
Abbreviation e_local e := (m_local (e_address e)).
Abbreviation e_metric e := (Ipv4Interface.m_metric (e_interface e)).

(** What routing asks of the interface of a link. *)
Record good_end (e : link_end) : Prop := {
  ge_up : m_ifup (e_interface e) = true;
  ge_forwarding : m_forwarding (e_interface e) = true;
  ge_metric : 1 <= e_metric e < 2 ^ 16;
  ge_index : 0 <= e_index e < 2 ^ 31;
  ge_prefix : GetInterfaceForPrefix (e_local e) Ipv4Address.mask_GetOnes (e_ipv4 e) = e_index e }.

Section populate.
Context {R : Type} `{Allocator}.
Implicit Types w : net R.

Definition end_at w (d : Z) : option link_end :=
  nd ← n_devs w !! d;
  n ← n_nodes w !! nd_node nd;
  r ← rn_router n;
  ip ← rn_ipv4 n;
  i ← FindInterfaceForDevice n d;
  ifc ← m_interfaces ip !! Z.to_nat i;
  a ← m_ifaddrs ifc !! 0%nat;
  Some (mkEnd (nd_node nd) (m_routerId r) ip i ifc a).
(** The device at the other end *)
Definition peer w (d : Z) : option Z :=
  nd ← n_devs w !! d;
  c ← nd_channel nd;
  ch ← n_chans w !! c;
  match GetAdjacent d ch with Ok d' => Some d' | Err _ => None end.
(** [d] is a device of the node [k] that is not a loopback device. *)
Definition link_dev w (k : nat) (d : Z) : Prop := exists n nd,
  n_nodes w !! k = Some n /\ d ∈ rn_devices n /\ n_devs w !! d = Some nd /\ nd_loopback nd = false.

Record p2p_net w : Prop := {
  pn_node k n : n_nodes w !! k = Some n -> exists ip r gr,
    rn_ipv4 n = Some ip /\ rn_router n = Some r /\ m_routingProtocol r = Some gr /\ m_injectedRoutes r = [];
  pn_ids k k' n n' r r' : n_nodes w !! k = Some n -> n_nodes w !! k' = Some n' ->
    rn_router n = Some r -> rn_router n' = Some r' -> m_routerId r = m_routerId r' -> k = k';
  pn_device k n d : n_nodes w !! k = Some n -> d ∈ rn_devices n ->
    exists nd, n_devs w !! d = Some nd /\ nd_node nd = k /\ nd_bridge nd = None /\ (nd_loopback nd = false -> nd_pointToPoint nd = true);
  pn_link k d : link_dev w k d -> exists e d' e', end_at w d = Some e /\ good_end e /\ peer w d = Some d' /\
    end_at w d' = Some e' /\ link_dev w (e_node e') d' /\ peer w d' = Some d;
  pn_stub_ids k d e k' n' r' : link_dev w k d -> end_at w d = Some e ->
    n_nodes w !! k' = Some n' -> rn_router n' = Some r' -> m_routerId r' <> e_local e;
  pn_addresses k k' d d' e e' : link_dev w k d -> link_dev w k' d' -> end_at w d = Some e -> end_at w d' = Some e' ->
    e_local e = e_local e' -> d = d';
  pn_size : Z.of_nat (length (n_nodes w)) <= 2 ^ 16 }.

Lemma end_at_node w d e nd : end_at w d = Some e -> n_devs w !! d = Some nd -> e_node e = nd_node nd.
Proof using.
  unfold end_at. intros E Hd. rewrite Hd in E. simpl in E. repeat case_match; simplify_option_eq; done.
Qed.
Lemma end_at_inv w d e : end_at w d = Some e -> exists nd n r, n_devs w !! d = Some nd /\ nd_node nd = e_node e /\
  n_nodes w !! e_node e = Some n /\ rn_router n = Some r /\ m_routerId r = e_router e /\ rn_ipv4 n = Some (e_ipv4 e) /\
  FindInterfaceForDevice n d = Some (e_index e) /\ m_interfaces (e_ipv4 e) !! Z.to_nat (e_index e) = Some (e_interface e) /\
  m_ifaddrs (e_interface e) !! 0%nat = Some (e_address e).
Proof using.
  unfold end_at. intros E. simplify_option_eq. by eexists _, _, _.
Qed.

(** ** Discovery *)

(** The two records of a link, seen from the device [d]. *)
Definition records w (d : Z) : list GlobalRoutingLinkRecord :=
  match n_devs w !! d, end_at w d, d' ← peer w d; end_at w d' with
  | Some nd, Some e, Some e' =>
      if nd_loopback nd then []
      else [mkLink PointToPoint (e_router e') (e_local e) (e_metric e);
            mkLink StubNetwork (e_local e') (m_mask (e_address e')) (e_metric e)]
  | _, _, _ => []
  end.
Definition add_records (l : list GlobalRoutingLinkRecord) (a : GlobalRoutingLSA) : GlobalRoutingLSA :=
  mkLSA (m_lsType a) (m_linkStateId a) (m_advertisingRtr a) (m_linkRecords a ++ l) (m_networkLSANetworkMask a)
    (m_attachedRouters a) (m_status a) (m_node_id a).

Lemma not_bridged w k n d : p2p_net w -> n_nodes w !! k = Some n -> d ∈ rn_devices n -> NetDeviceIsBridged w d = Ok None.
Proof using.
  intros Hw Hn Hd. destruct (pn_device _ Hw k n d Hn Hd) as (nd & End & Ek & _). unfold NetDeviceIsBridged, device, node.
  rewrite End. simpl. rewrite Ek, Hn. simpl. assert (forall x, x ∈ rn_devices n -> x ∈ rn_devices n) as Hsub by done. revert Hsub.
  generalize (rn_devices n) at 1 3. induction l as [|x l IH]; intros Hsub; simpl; [done|].
  destruct (pn_device _ Hw k n x Hn ltac:(apply Hsub; by left)) as (nx & Ex & _ & Eb & _). unfold device. rewrite Ex. simpl.
  rewrite Eb. apply IH. intros y Hy. apply Hsub. by right.
Qed.
Lemma interface_for_lookup nd l : forall i j, interface_for nd l i = Some j ->
  i <= j /\ exists ifc, l !! Z.to_nat (j - i) = Some ifc /\ Ipv4Interface.m_device ifc = Some nd.
Proof using.
  induction l as [|ifc l IH]; intros i j; simpl; [done|]. case_bool_decide as E.
  - intros [= <-]. split; [lia|]. exists ifc. by rewrite Z.sub_diag.
  - intros (Hle & x & Hx & Ex)%IH. split; [lia|]. exists x. split; [|done].
    replace (Z.to_nat (j - i)) with (S (Z.to_nat (j - (i + 1)))) by lia. done.
Qed.
Lemma interface_of_end w d e n : end_at w d = Some e -> n_nodes w !! e_node e = Some n ->
  interface_of n d = Ok (e_ipv4 e, e_index e, e_address e).
Proof using.
  intros E Hn. destruct (end_at_inv _ _ _ E) as (nd & n' & r & _ & _ & Hn' & _ & _ & Hip & Hi & Hifc & Ha).
  assert (n' = n) as -> by congruence. unfold interface_of, ipv4_of. rewrite Hip. simpl. rewrite Hi. simpl.
  unfold GetAddress, Ipv4Ifaces.GetInterface. rewrite Hifc. simpl. unfold if_GetAddress. change (Z.to_nat 0) with 0%nat. by rewrite Ha.
Qed.
Lemma end_forwards w d e : end_at w d = Some e -> good_end e -> forwards d (e_ipv4 e) = true.
Proof using.
  intros E Hg. destruct (end_at_inv _ _ _ E) as (nd & n' & r & _ & _ & Hn' & _ & _ & Hip & Hi & Hifc & Ha).
  unfold FindInterfaceForDevice in Hi. rewrite Hip in Hi. apply interface_for_lookup in Hi as (_ & ifc & Hifc' & Hdev).
  rewrite Z.sub_0_r in Hifc'. assert (ifc = e_interface e) as -> by congruence.
  unfold forwards. apply List.existsb_exists. exists (e_interface e). split; [by apply list_elem_of_In, (list_elem_of_lookup_2 _ (Z.to_nat (e_index e)))|].
  unfold if_IsUp, if_IsForwarding. by rewrite bool_decide_eq_true_2, (ge_up _ Hg), (ge_forwarding _ Hg).
Qed.

Lemma discover_link w k n d lsa : p2p_net w -> n_nodes w !! k = Some n -> link_dev w k d ->
  ProcessPointToPointLink w d lsa = Ok (add_records (records w d) lsa).
Proof using.
  intros Hw Hn Hd. destruct (pn_link _ Hw k d Hd) as (e & d' & e' & Ee & Hg & Hp & Ee' & Hd' & Hp').
  destruct (pn_link _ Hw _ d' Hd') as (e2 & _ & _ & Ee2 & Hg' & _). assert (e2 = e') as -> by congruence.
  destruct (end_at_inv _ _ _ Ee) as (nd & ne & r & Hnd & Hk & Hne & Hr & Hid & Hip & Hi & Hifc & Ha).
  destruct (end_at_inv _ _ _ Ee') as (nd' & ne' & r' & Hnd' & Hk' & Hne' & Hr' & Hid' & Hip' & Hi' & Hifc' & Ha').
  unfold ProcessPointToPointLink, device, node. rewrite Hnd. simpl. rewrite Hk, Hne. simpl.
  rewrite (interface_of_end _ _ _ _ Ee Hne). simpl. unfold GetMetric at 1, Ipv4Ifaces.GetInterface at 1. rewrite Hifc. simpl.
  pose proof Hp as Hp2. unfold peer in Hp2. rewrite Hnd in Hp2. simpl in Hp2. destruct (nd_channel nd) as [c|]; [|done]. simpl in Hp2. simpl.
  unfold channel. destruct (n_chans w !! c) as [ch|]; [|done]. simpl in Hp2. simpl. destruct (GetAdjacent d ch) as [x|]; [|done].
  injection Hp2 as ->. simpl. rewrite Hnd'. simpl. rewrite Hk', Hne'. simpl. unfold ipv4_of at 1. rewrite Hip'. simpl. rewrite Hr'.
  rewrite (interface_of_end _ _ _ _ Ee' Hne'). simpl. unfold IsUp, Ipv4Ifaces.GetInterface. rewrite Hifc'. simpl. unfold if_IsUp.
  rewrite (ge_up _ Hg'). unfold records. rewrite Hnd, Ee, Hp. simpl. rewrite Ee'.
  destruct Hd as (? & nd0 & _ & _ & Hnd0 & Hlo). assert (nd0 = nd) as -> by congruence. rewrite Hlo.
  unfold add_records, AddLinkRecord, GetLocal, GetMask, GetRouterId. simpl. by rewrite Hid', <- app_assoc.
Qed.
Lemma discover_device_ok w k n ip d lsa c : p2p_net w -> n_nodes w !! k = Some n -> rn_ipv4 n = Some ip -> d ∈ rn_devices n ->
  discover_device w n ip d (lsa, c) = Ok (add_records (records w d) lsa, c).
Proof using.
  intros Hw Hn Hip Hd. destruct (pn_device _ Hw k n d Hn Hd) as (nd & Hnd & Hk & Hb & Hpp). unfold discover_device, device. rewrite Hnd. simpl.
  destruct (nd_loopback nd) eqn:Hlo.
  - unfold records. rewrite Hnd, Hlo. unfold add_records. destruct (end_at w d), (peer w d ≫= end_at w); rewrite app_nil_r; by destruct lsa.
  - rewrite (not_bridged w k n d Hw Hn Hd). simpl. assert (link_dev w k d) as Hl by (exists n, nd; done).
    destruct (pn_link _ Hw k d Hl) as (e & d' & e' & Ee & Hg & _).
    assert (e_ipv4 e = ip) as <-.
    { destruct (end_at_inv _ _ _ Ee) as (nd' & n' & r & Hnd' & Hk' & Hn' & _ & _ & Hip' & _).
      assert (nd' = nd) as -> by congruence. rewrite <- Hk', Hk, Hn in Hn'. congruence. }
    rewrite (end_forwards _ _ _ Ee Hg). simpl. rewrite (Hpp eq_refl), andb_false_r. by rewrite (discover_link w k n d lsa Hw Hn Hl).
Qed.
Lemma discover_devices_ok w k n ip ds : p2p_net w -> n_nodes w !! k = Some n -> rn_ipv4 n = Some ip ->
  forall lsa c, ds ⊆ rn_devices n -> discover_devices w n ip ds (lsa, c) = Ok (add_records (ds ≫= records w) lsa, c).
Proof using.
  intros Hw Hn Hip. induction ds as [|d ds IH]; intros lsa c Hsub.
  - unfold add_records. rewrite app_nil_r. by destruct lsa.
  - cbn [discover_devices]. rewrite (discover_device_ok w k n ip d lsa c Hw Hn Hip) by (apply Hsub; by left). simpl.
    rewrite IH by (intros x Hx; apply Hsub; by right). unfold add_records. simpl. by rewrite <- app_assoc.
Qed.
Definition advertised w (k : nat) (n : rnode R) (r : GlobalRouter R) : GlobalRoutingLSA :=
  add_records (rn_devices n ≫= records w) (router_lsa (m_routerId r) (Z.of_nat k)).
Lemma discovered_ok w k n r : p2p_net w -> n_nodes w !! k = Some n -> rn_router n = Some r ->
  forall r', m_routerId r' = m_routerId r -> m_injectedRoutes r' = m_injectedRoutes r ->
  discovered w k n r' = Ok [advertised w k n r].
Proof using.
  intros Hw Hn Hr r' Hid Hinj. destruct (pn_node _ Hw k n Hn) as (ip & r2 & gr & Hip & Hr2 & _ & Hi).
  assert (r2 = r) as -> by congruence. unfold discovered, ipv4_of. rewrite Hip. simpl.
  rewrite (discover_devices_ok w k n ip _ Hw Hn Hip) by done. simpl. rewrite Hinj, Hi, Hid. done.
Qed.

(** ** What the computation leaves as it is *)

(** Nodes that differ by what their routers advertise and by their routes. *)
Record same_node (n n' : rnode R) : Prop := {
  sn_system : rn_systemId n = rn_systemId n';
  sn_devices : rn_devices n = rn_devices n';
  sn_ipv4 : rn_ipv4 n = rn_ipv4 n';
  sn_router : forall r, rn_router n = Some r -> exists r', rn_router n' = Some r' /\ m_routerId r = m_routerId r' /\
    m_injectedRoutes r = m_injectedRoutes r' /\ (is_Some (m_routingProtocol r) -> is_Some (m_routingProtocol r'));
  sn_router' : forall r', rn_router n' = Some r' -> exists r, rn_router n = Some r /\ m_routerId r = m_routerId r' }.
Record agrees w w' : Prop := {
  ag_devs : n_devs w' = n_devs w;
  ag_chans : n_chans w' = n_chans w;
  ag_length : length (n_nodes w') = length (n_nodes w);
  ag_nodes k n n' : n_nodes w !! k = Some n -> n_nodes w' !! k = Some n' -> same_node n n' }.

Lemma same_node_refl n : same_node n n.
Proof using. split; try done; eauto. Qed.
Lemma agrees_refl w : agrees w w.
Proof using. split; try done. intros k n n' E E'. assert (n' = n) as -> by congruence. apply same_node_refl. Qed.
Lemma agrees_lookup w w' k n : agrees w w' -> n_nodes w !! k = Some n -> exists n', n_nodes w' !! k = Some n' /\ same_node n n'.
Proof using.
  intros Ha Hn. destruct (lookup_lt_is_Some_2 (n_nodes w') k) as (n' & Hn').
  { rewrite (ag_length _ _ Ha). by eapply lookup_lt_Some. }
  exists n'. split; [done|]. by eapply (ag_nodes _ _ Ha).
Qed.
Lemma agrees_lookup' w w' k n' : agrees w w' -> n_nodes w' !! k = Some n' -> exists n, n_nodes w !! k = Some n /\ same_node n n'.
Proof using.
  intros Ha Hn. destruct (lookup_lt_is_Some_2 (n_nodes w) k) as (n & Hn').
  { rewrite <- (ag_length _ _ Ha). by eapply lookup_lt_Some. }
  exists n. split; [done|]. by eapply (ag_nodes _ _ Ha).
Qed.
Lemma same_node_set n r r' : rn_router n = Some r -> m_routerId r' = m_routerId r -> m_injectedRoutes r' = m_injectedRoutes r ->
  (is_Some (m_routingProtocol r) -> is_Some (m_routingProtocol r')) -> same_node n (set_router r' n).
Proof using.
  intros Hr Hid Hinj Hrp. split; try done; simpl.
  - intros r0 E. assert (r0 = r) as -> by congruence. by exists r'.
  - intros r0 [= <-]. by exists r.
Qed.
Lemma same_node_trans n1 n2 n3 : same_node n1 n2 -> same_node n2 n3 -> same_node n1 n3.
Proof using.
  intros H1' H2'. destruct H1' as [? ? ? Hr Hr'], H2' as [? ? ? Hs Hs']. split; [congruence..| |].
  - intros r (r2 & E & ? & ? & ?)%Hr. destruct (Hs r2 E) as (r3 & ? & ? & ? & ?). exists r3. split; [done|].
    split; [congruence|]. split; [congruence|auto].
  - intros r3 (r2 & E & ?)%Hs'. destruct (Hr' r2 E) as (r & ? & ?). exists r. split; [done|congruence].
Qed.
Lemma agrees_trans w1 w2 w3 : agrees w1 w2 -> agrees w2 w3 -> agrees w1 w3.
Proof using.
  intros Ha Hb. split.
  - by rewrite (ag_devs _ _ Hb), (ag_devs _ _ Ha).
  - by rewrite (ag_chans _ _ Hb), (ag_chans _ _ Ha).
  - by rewrite (ag_length _ _ Hb), (ag_length _ _ Ha).
  - intros k n n3 Hn Hn3. destruct (agrees_lookup _ _ _ _ Ha Hn) as (n2 & Hn2 & Hs).
    eapply same_node_trans; [done|by eapply (ag_nodes _ _ Hb)].
Qed.
Lemma agrees_set w w' k n n' : agrees w w' -> n_nodes w' !! k = Some n -> same_node n n' -> agrees w (set_node k n' w').
Proof using.
  intros Ha Hn Hs. pose proof Ha as [Hd Hc Hl Hns]. split; simpl; try done; [by rewrite length_insert|].
  intros j m m' Hm [(-> & -> & _)|(_ & Hm')]%list_lookup_insert_Some; [|by eapply Hns].
  eapply same_node_trans; [by eapply (Hns j)|done].
Qed.

Lemma agrees_end w w' d e : agrees w w' -> end_at w d = Some e -> end_at w' d = Some e.
Proof using.
  intros Ha E. destruct (end_at_inv _ _ _ E) as (nd & n & r & Hnd & Hk & Hn & Hr & Hid & Hip & Hi & Hifc & Hadr).
  destruct (agrees_lookup _ _ _ _ Ha Hn) as (n' & Hn' & Hs). destruct (sn_router _ _ Hs r Hr) as (r' & Hr' & Hid' & _).
  unfold end_at. rewrite (ag_devs _ _ Ha), Hnd. simpl. rewrite Hk, Hn'. simpl. rewrite Hr'. simpl.
  unfold FindInterfaceForDevice in *. rewrite <- (sn_ipv4 _ _ Hs), Hip in *. simpl. rewrite Hi. simpl. rewrite Hifc. simpl. rewrite Hadr. simpl.
  rewrite <- Hid', Hid. by destruct e.
Qed.
Lemma agrees_peer w w' d : agrees w w' -> peer w' d = peer w d.
Proof using. intros Ha. unfold peer. by rewrite (ag_devs _ _ Ha), (ag_chans _ _ Ha). Qed.
Lemma agrees_link_dev w w' k d : agrees w w' -> link_dev w k d <-> link_dev w' k d.
Proof using.
  intros Ha. split.
  - intros (n & nd & Hn & Hd & Hnd & Hlo). destruct (agrees_lookup _ _ _ _ Ha Hn) as (n' & Hn' & Hs). exists n', nd.
    by rewrite <- (sn_devices _ _ Hs), (ag_devs _ _ Ha).
  - intros (n' & nd & Hn' & Hd & Hnd & Hlo). destruct (agrees_lookup' _ _ _ _ Ha Hn') as (n & Hn & Hs). exists n, nd.
    by rewrite (sn_devices _ _ Hs), <- (ag_devs _ _ Ha).
Qed.
(** The ends are the same both ways, on the devices of links. *)
Lemma agrees_end_back w w' k d e : p2p_net w -> agrees w w' -> link_dev w k d -> end_at w' d = Some e -> end_at w d = Some e.
Proof using.
  intros Hw Ha Hd E. destruct (pn_link _ Hw k d Hd) as (e0 & _ & _ & E0 & _). pose proof (agrees_end _ _ _ _ Ha E0). congruence.
Qed.
Lemma agrees_p2p w w' : p2p_net w -> agrees w w' -> p2p_net w'.
Proof using.
  intros Hw Ha. split.
  - intros k n' Hn'. destruct (agrees_lookup' _ _ _ _ Ha Hn') as (n & Hn & Hs).
    destruct (pn_node _ Hw k n Hn) as (ip & r & gr & Hip & Hr & Hgr & Hinj).
    destruct (sn_router _ _ Hs r Hr) as (r' & Hr' & _ & Hinj' & Hrp). destruct Hrp as [gr' Hgr']; [by exists gr|].
    exists ip, r', gr'. rewrite <- (sn_ipv4 _ _ Hs), <- Hinj'. done.
  - intros k k' n n' r r' Hn Hn' Hr Hr' Hid.
    destruct (agrees_lookup' _ _ _ _ Ha Hn) as (m & Hm & Hs), (agrees_lookup' _ _ _ _ Ha Hn') as (m' & Hm' & Hs').
    destruct (sn_router' _ _ Hs r Hr) as (q & Hq & Eq), (sn_router' _ _ Hs' r' Hr') as (q' & Hq' & Eq').
    apply (pn_ids _ Hw k k' m m' q q' Hm Hm' Hq Hq'). congruence.
  - intros k n' d Hn' Hd. destruct (agrees_lookup' _ _ _ _ Ha Hn') as (n & Hn & Hs). rewrite (ag_devs _ _ Ha).
    apply (pn_device _ Hw k n d Hn). by rewrite (sn_devices _ _ Hs).
  - intros k d Hd. apply (agrees_link_dev _ _ _ _ Ha) in Hd. destruct (pn_link _ Hw k d Hd) as (e & d' & e' & Ee & Hg & Hp & Ee' & Hd' & Hp').
    exists e, d', e'. rewrite !(agrees_peer _ _ _ Ha). split; [by eapply agrees_end|]. split; [done|]. split; [done|].
    split; [by eapply agrees_end|]. split; [by apply (agrees_link_dev _ _ _ _ Ha)|done].
  - intros k d e k' n' r' Hd Ee Hn' Hr'. apply (agrees_link_dev _ _ _ _ Ha) in Hd. apply (agrees_end_back _ _ k _ _ Hw Ha Hd) in Ee.
    destruct (agrees_lookup' _ _ _ _ Ha Hn') as (n & Hn & Hs). destruct (sn_router' _ _ Hs r' Hr') as (r & Hr & <-).
    by eapply (pn_stub_ids _ Hw).
  - intros k k' d d' e e' Hd Hd' Ee Ee'. apply (agrees_link_dev _ _ _ _ Ha) in Hd, Hd'.
    apply (agrees_end_back _ _ k _ _ Hw Ha Hd) in Ee. apply (agrees_end_back _ _ k' _ _ Hw Ha Hd') in Ee'. by eapply (pn_addresses _ Hw).
  - rewrite (ag_length _ _ Ha). apply (pn_size _ Hw).
Qed.
Lemma agrees_records w w' k n d : p2p_net w -> agrees w w' -> n_nodes w !! k = Some n -> d ∈ rn_devices n -> records w' d = records w d.
Proof using.
  intros Hw Ha Hn Hd. destruct (pn_device _ Hw k n d Hn Hd) as (nd & Hnd & _). unfold records.
  rewrite (agrees_peer _ _ _ Ha), (ag_devs _ _ Ha), Hnd. destruct (nd_loopback nd) eqn:Hlo.
  - destruct (end_at w' d), (end_at w d), (peer w d ≫= end_at w'), (peer w d ≫= end_at w); done.
  - assert (link_dev w k d) as Hl by (exists n, nd; done).
    destruct (pn_link _ Hw k d Hl) as (e & d' & e' & Ee & _ & Hp & Ee' & _). rewrite Ee, (agrees_end _ _ _ _ Ha Ee), Hp. simpl.
    by rewrite Ee', (agrees_end _ _ _ _ Ha Ee').
Qed.
Lemma agrees_advertised w w' k n n' r r' : p2p_net w -> agrees w w' -> n_nodes w !! k = Some n -> n_nodes w' !! k = Some n' ->
  m_routerId r = m_routerId r' -> advertised w' k n' r' = advertised w k n r.
Proof using.
  intros Hw Ha Hn Hn' Hid. pose proof (ag_nodes _ _ Ha _ _ _ Hn Hn') as Hs. unfold advertised. rewrite <- (sn_devices _ _ Hs), Hid. f_equal.
  assert (forall d, d ∈ rn_devices n -> records w' d = records w d) as Hrec by (intros d Hd; by eapply agrees_records).
  revert Hrec. induction (rn_devices n) as [|d ds IH]; intros Hrec; [done|]. simpl.
  rewrite (Hrec d) by by left. f_equal. apply IH. intros x Hx. apply Hrec. by right.
Qed.

(** ** The database *)

(** What the first [K] routers advertise. *)
Fixpoint lsdb w (K : nat) : gmap Z GlobalRoutingLSA :=
  match K with
  | O => ∅
  | S K => match n ← n_nodes w !! K; r ← rn_router n; Some (m_routerId r, advertised w K n r) with
           | Some (k, a) => <[k := a]> (lsdb w K)
           | None => lsdb w K
           end
  end.
Lemma lsdb_lookup w K k a : p2p_net w -> (K <= length (n_nodes w))%nat ->
  lsdb w K !! k = Some a <->
  exists j n r, (j < K)%nat /\ n_nodes w !! j = Some n /\ rn_router n = Some r /\ m_routerId r = k /\ a = advertised w j n r.
Proof using.
  intros Hw. induction K as [|K IH]; intros Hle; simpl.
  - rewrite lookup_empty. split; [done|]. intros (j & _ & _ & ? & _). lia.
  - destruct (lookup_lt_is_Some_2 (n_nodes w) K Hle) as (n & Hn). rewrite Hn. simpl.
    destruct (pn_node _ Hw K n Hn) as (ip & r & gr & _ & Hr & _). rewrite Hr. simpl.
    destruct (decide (m_routerId r = k)) as [<-|Hne].
    + rewrite lookup_insert_eq. split.
      * intros [= <-]. exists K, n, r. split; [lia|done].
      * intros (j & n' & r' & Hj & Hn' & Hr' & Hid & ->). assert (j = K) as -> by by eapply (pn_ids _ Hw). congruence.
    + rewrite lookup_insert_ne, IH by (done || lia). split.
      * intros (j & n' & r' & Hj & ?). exists j, n', r'. split; [lia|done].
      * intros (j & n' & r' & Hj & Hn' & Hr' & Hid & ->). exists j, n', r'. split; [|done].
        assert (j <> K) by (intros ->; congruence). lia.
Qed.
Lemma lsdb_size w K : (size (lsdb w K) <= K)%nat.
Proof using.
  induction K as [|K IH]; simpl; [by rewrite map_size_empty|]. destruct (_ ≫= _) as [[k a]|]; [|lia].
  rewrite map_size_insert. destruct (lsdb w K !! k); simpl; lia.
Qed.
Abbreviation full_lsdb w := (lsdb w (length (n_nodes w))).
Lemma lsdb_at w k n r : p2p_net w -> n_nodes w !! k = Some n -> rn_router n = Some r ->
  full_lsdb w !! m_routerId r = Some (advertised w k n r).
Proof using.
  intros Hw Hn Hr. apply lsdb_lookup; [done..|]. exists k, n, r. split; [by eapply lookup_lt_Some|done].
Qed.

(** The records of a router are those of its links. *)
Definition link_record (e e' : link_end) : GlobalRoutingLinkRecord := mkLink PointToPoint (e_router e') (e_local e) (e_metric e).
Definition stub_record (e e' : link_end) : GlobalRoutingLinkRecord := mkLink StubNetwork (e_local e') (m_mask (e_address e')) (e_metric e).
Definition link_between w (k : nat) (d : Z) (e e' : link_end) : Prop :=
  link_dev w k d /\ end_at w d = Some e /\ good_end e /\ exists d', peer w d = Some d' /\ end_at w d' = Some e' /\
    link_dev w (e_node e') d' /\ good_end e' /\ peer w d' = Some d.
Lemma pn_between w k d : p2p_net w -> link_dev w k d -> exists e e', link_between w k d e e'.
Proof using.
  intros Hw Hd. destruct (pn_link _ Hw k d Hd) as (e & d' & e' & Ee & Hg & Hp & Ee' & Hd' & Hp').
  destruct (pn_link _ Hw _ d' Hd') as (e2 & _ & _ & Ee2 & Hg' & _). assert (e2 = e') as -> by congruence.
  exists e, e'. split; [done|]. split; [done|]. split; [done|]. by exists d'.
Qed.
Lemma link_dev_node w k d e : p2p_net w -> link_dev w k d -> end_at w d = Some e -> e_node e = k.
Proof using.
  intros Hw (n & nd & Hn & Hd & Hnd & _) Ee. rewrite (end_at_node _ _ _ _ Ee Hnd).
  destruct (pn_device _ Hw k n d Hn Hd) as (nd' & Hnd' & Hk & _). congruence.
Qed.
Lemma records_link w k d e e' : link_between w k d e e' -> records w d = [link_record e e'; stub_record e e'].
Proof using.
  intros ((n & nd & Hn & Hd & Hnd & Hlo) & Ee & _ & d' & Hp & Ee' & _). unfold records. rewrite Hnd, Ee, Hp. simpl. by rewrite Ee', Hlo.
Qed.
Lemma link_back_between w k d e e' : p2p_net w -> link_between w k d e e' -> exists d', link_between w (e_node e') d' e' e.
Proof using.
  intros Hw (Hd & Ee & Hg & d' & Hp & Ee' & Hd' & Hg' & Hp'). exists d'. split; [done|]. split; [done|]. split; [done|].
  exists d. by rewrite (link_dev_node _ _ _ _ Hw Hd Ee).
Qed.
Lemma advertised_elem w k n r l : p2p_net w -> n_nodes w !! k = Some n ->
  l ∈ m_linkRecords (advertised w k n r) <->
  exists d e e', link_between w k d e e' /\ (l = link_record e e' \/ l = stub_record e e').
Proof using.
  intros Hw Hn. simpl. rewrite list_elem_of_bind. split.
  - intros (d & Hl & Hd). destruct (pn_device _ Hw k n d Hn Hd) as (nd & Hnd & _).
    destruct (nd_loopback nd) eqn:Hlo.
    + exfalso. unfold records in Hl. rewrite Hnd, Hlo in Hl. destruct (end_at w d), (peer w d ≫= end_at w); by apply elem_of_nil in Hl.
    + assert (link_dev w k d) as Hk by (by exists n, nd). destruct (pn_between _ _ _ Hw Hk) as (e & e' & Hb).
      rewrite (records_link _ _ _ _ _ Hb) in Hl. exists d, e, e'. split; [done|]. set_solver.
  - intros (d & e & e' & Hb & Hl). exists d. rewrite (records_link _ _ _ _ _ Hb). split; [set_solver|].
    destruct Hb as ((n' & nd & Hn' & Hd & _) & _). congruence.
Qed.
Lemma links_of_lsdb w k n r l : p2p_net w -> n_nodes w !! k = Some n -> rn_router n = Some r ->
  l ∈ links_of (full_lsdb w) (m_routerId r) <-> exists d e e', link_between w k d e e' /\ l = link_record e e'.
Proof using.
  intros Hw Hn Hr. rewrite links_of_elem, (lsdb_at _ _ _ _ Hw Hn Hr). split.
  - intros (a & [= <-] & Hl & Ht). apply (advertised_elem _ _ _ _ _ Hw Hn) in Hl as (d & e & e' & Hb & [-> | ->]); [eauto|done].
  - intros (d & e & e' & Hb & ->). eexists. split; [done|]. split; [|done]. apply (advertised_elem _ _ _ _ _ Hw Hn). eauto 8.
Qed.
Lemma between_ids w k d e e' : link_between w k d e e' -> exists n r n' r',
  n_nodes w !! e_node e = Some n /\ rn_router n = Some r /\ m_routerId r = e_router e /\
  n_nodes w !! e_node e' = Some n' /\ rn_router n' = Some r' /\ m_routerId r' = e_router e'.
Proof using.
  intros (_ & Ee & _ & d' & _ & Ee' & _). destruct (end_at_inv _ _ _ Ee) as (nd & n & r & _ & _ & ? & ? & ? & _).
  destruct (end_at_inv _ _ _ Ee') as (nd' & n' & r' & _ & _ & ? & ? & ? & _). by exists n, r, n', r'.
Qed.

Lemma towards_between w k n r d e e' : p2p_net w -> n_nodes w !! k = Some n -> rn_router n = Some r -> link_between w k d e e' ->
  exists x, link_towards (full_lsdb w) (e_router e') (m_routerId r) = Some x /\ m_linkType x = PointToPoint.
Proof using.
  intros Hw Hn Hr Hb. pose proof Hb as (Hd & Ee & _). pose proof (link_dev_node _ _ _ _ Hw Hd Ee) as Hk.
  destruct (between_ids _ _ _ _ _ Hb) as (n1 & r1 & n' & r' & Hn1 & Hr1 & Hid1 & Hn' & Hr' & Hid').
  assert (r1 = r) as -> by (rewrite Hk in Hn1; congruence).
  destruct (link_back_between _ _ _ _ _ Hw Hb) as (d' & Hb').
  unfold link_towards. rewrite <- Hid', (lsdb_at _ _ _ _ Hw Hn' Hr'), next_link_find.
  destruct (List.find _ _) as [x|] eqn:Hf.
  - exists x. split; [done|]. apply List.find_some in Hf as [Hx E]. bool_to_Z. apply list_elem_of_In in Hx.
    apply (advertised_elem _ _ _ _ _ Hw Hn') in Hx as (d1 & e1 & e1' & Hb1 & [-> | ->]); [done|]. exfalso. simpl in E.
    destruct Hb1 as (_ & _ & _ & d1' & _ & Ee1 & Hd1 & _). by apply (pn_stub_ids _ Hw _ _ _ _ _ _ Hd1 Ee1 Hn Hr).
  - exfalso. assert (link_record e' e ∈ m_linkRecords (advertised w (e_node e') n' r')) as Hin.
    { apply (advertised_elem _ _ _ _ _ Hw Hn'). eauto 8. }
    apply list_elem_of_In in Hin. pose proof (List.find_none _ _ Hf _ Hin) as E. simpl in E. rewrite <- Hid1, Z.eqb_refl in E. done.
Qed.
Lemma lsdb_router_db w : p2p_net w -> router_db (full_lsdb w).
Proof using.
  intros Hw. assert (forall k l, l ∈ links_of (full_lsdb w) k -> exists j n r d e e', n_nodes w !! j = Some n /\
    rn_router n = Some r /\ m_routerId r = k /\ link_between w j d e e' /\ l = link_record e e') as Hl.
  { intros k l Hl. pose proof Hl as (a & Ha & _)%links_of_elem. apply lsdb_lookup in Ha as (j & n & r & _ & Hn & Hr & <- & _); [|done..].
    apply (links_of_lsdb _ _ _ _ _ Hw Hn Hr) in Hl as (d & e & e' & Hb & ->). by exists j, n, r, d, e, e'. }
  split.
  - intros k a Ha. by apply lsdb_lookup in Ha as (j & n & r & _ & Hn & Hr & <- & ->).
  - intros k a l Ha. apply lsdb_lookup in Ha as (j & n & r & _ & Hn & Hr & <- & ->); [|done..].
    intros (d & e & e' & _ & [-> | ->])%(advertised_elem _ _ _ _ _ Hw Hn); [by left|by right].
  - intros k l (j & n & r & d & e & e' & Hn & Hr & <- & Hb & ->)%Hl. simpl. split.
    + destruct (between_ids _ _ _ _ _ Hb) as (_ & _ & n' & r' & _ & _ & _ & Hn' & Hr' & <-). by rewrite (lsdb_at _ _ _ _ Hw Hn' Hr').
    + destruct (towards_between _ _ _ _ _ _ _ Hw Hn Hr Hb) as (x & -> & _). done.
  - intros k l x (j & n & r & d & e & e' & Hn & Hr & <- & Hb & ->)%Hl. simpl.
    destruct (towards_between _ _ _ _ _ _ _ Hw Hn Hr Hb) as (y & -> & ?). by intros [= ->].
  - intros k l (j & n & r & d & e & e' & Hn & Hr & <- & Hb & ->)%Hl. simpl. destruct Hb as (_ & _ & Hg & _). apply (ge_metric _ Hg).
  - pose proof (lsdb_size w (length (n_nodes w))). pose proof (pn_size _ Hw). lia.
Qed.
Lemma lsdb_unexplored w K : unexplored (lsdb w K) = lsdb w K.
Proof using.
  induction K as [|K IH]; simpl; [by apply fmap_empty|]. unfold unexplored in *.
  destruct (n_nodes w !! K) as [n|]; simpl; [|done]. destruct (rn_router n) as [r|]; simpl; [|done]. by rewrite fmap_insert, IH.
Qed.

(** ** [BuildGlobalRoutingDatabase] *)

(** The routes of the [k]-th node *)
Definition routes_at w (k : nat) : option (Ipv4GlobalRouting R) := n ← n_nodes w !! k; r ← rn_router n; m_routingProtocol r.
Definition lsas_at w (k : nat) : option nat := n ← n_nodes w !! k; r ← rn_router n; Some (GetNumLSAs r).

(** The first [K] nodes are done. *)
Record built w (K : nat) (s : manager R) : Prop := {
  bu_agrees : agrees w (m_net s);
  bu_vertices : m_vertices s = ∅;
  bu_ext : m_extdatabase s = [];
  bu_database : m_database s = lsdb w K;
  bu_routes k : routes_at (m_net s) k = routes_at w k;
  bu_lsas k : (k < K)%nat -> lsas_at (m_net s) k = Some 1%nat }.

Lemma run_at w k n s : agrees w (m_net s) -> n_nodes w !! k = Some n ->
  exists n', n_nodes (m_net s) !! k = Some n' /\ same_node n n' /\ node_at k s = Ok (n', s).
Proof using.
  intros Ha Hn. destruct (agrees_lookup _ _ _ _ Ha Hn) as (n' & Hn' & Hs). exists n'. split; [done|]. split; [done|].
  unfold node_at. run. by rewrite Hn'.
Qed.
Lemma insert_LSAs_ok w K s : p2p_net w -> built w K s -> (K < length (n_nodes w))%nat ->
  exists s', insert_LSAs_of K s = Ok (tt, s') /\ built w (S K) s'.
Proof using.
  intros Hw [Ha Hv He Hd Hrt Hls] HK. destruct (lookup_lt_is_Some_2 (n_nodes w) K HK) as (n & Hn).
  destruct (run_at w K n s Ha Hn) as (n' & Hn' & Hs & Erun). pose proof (agrees_p2p _ _ Hw Ha) as Hw'.
  destruct (pn_node _ Hw K n Hn) as (ip & r & gr & _ & Hr & _). destruct (sn_router _ _ Hs r Hr) as (r' & Hr' & Hid & Hinj & _).
  unfold insert_LSAs_of. rewrite (run_bind _ _ _ _ _ Erun), Hr'.
  set (l := [advertised (m_net s) K n' r']). set (r2 := set_LSAs l (ClearLSAs r')). set (w2 := set_node K (set_router r2 n') (m_net s)).
  assert (on_net (DiscoverLSAs K) s = Ok (1%nat, set_net w2 s)) as E.
  { unfold on_net. assert (DiscoverLSAs K (m_net s) = Ok (1%nat, w2)) as ->; [|done]. unfold DiscoverLSAs. run.
    unfold node, id. rewrite Hn'. unfold deref. run. rewrite Hr'. run. rewrite (discovered_ok (m_net s) K n' r' Hw' Hn' Hr') by done. by run. }
  rewrite (run_bind _ _ _ _ _ E).
  assert (n_nodes w2 !! K = Some (set_router r2 n')) as Hn2 by (simpl; rewrite list_lookup_insert_eq; [done|by eapply lookup_lt_Some]).
  assert (node_at K (set_net w2 s) = Ok (set_router r2 n', set_net w2 s)) as E2 by (unfold node_at; run; simpl in *; by rewrite Hn2).
  rewrite (run_bind _ _ _ _ _ E2). simpl. unfold mbind, st_bind. simpl. unfold Insert. simpl.
  eexists. split; [done|].
  assert (same_node n' (set_router r2 n')) as Hs2 by by eapply same_node_set.
  split; simpl; try done.
  - by eapply agrees_set.
  - rewrite Hn. simpl. rewrite Hr. simpl. rewrite Hd. unfold l.
    rewrite (agrees_advertised _ _ _ _ _ _ _ Hw Ha Hn Hn' Hid), <- Hid.
    destruct (lsdb w K !! m_routerId r) eqn:E'; [|done]. exfalso.
    apply lsdb_lookup in E' as (j & nj & rj & Hj & Hnj & Hrj & Hidj & _); [|done|lia].
    assert (j = K) by by eapply (pn_ids _ Hw). lia.
  - intros k. rewrite <- Hrt. unfold routes_at. destruct (decide (k = K)) as [->|Hne].
    + simpl. rewrite list_lookup_insert_eq by by eapply lookup_lt_Some. rewrite Hn'. simpl. by rewrite Hr'.
    + simpl. by rewrite list_lookup_insert_ne.
  - intros k Hk. unfold lsas_at. destruct (decide (k = K)) as [->|Hne].
    + simpl. rewrite list_lookup_insert_eq by by eapply lookup_lt_Some. done.
    + simpl. rewrite list_lookup_insert_ne by done. apply Hls. lia.
Qed.

(** A manager with nothing in its database *)
Definition idle (s : manager R) : Prop := m_vertices s = ∅ /\ m_extdatabase s = [] /\ m_database s = ∅.
Lemma BuildGlobalRoutingDatabase_ok w s0 : p2p_net w -> idle s0 -> m_net s0 = w ->
  exists s, BuildGlobalRoutingDatabase s0 = Ok (tt, s) /\ built w (length (n_nodes w)) s.
Proof using.
  intros Hw (Hv & He & Hd) En. unfold BuildGlobalRoutingDatabase. run. rewrite En. apply (each_counted (built w)).
  - intros K s HK Hb. by apply insert_LSAs_ok.
  - split; try done; rewrite ?En; [apply agrees_refl|done|]. intros k Hk. lia.
Qed.

(** ** [InitializeRoutes] *)

(** What the routes [gr] of the node are: computed, on this system. *)
Definition has_table w (systemId : Z) (k : nat) (gr : Ipv4GlobalRouting R) : Prop :=
  forall n ip r gr0, n_nodes w !! k = Some n -> rn_ipv4 n = Some ip -> rn_router n = Some r -> m_routingProtocol r = Some gr0 ->
  if bool_decide (rn_systemId n = systemId) then tables (m_routerId r) ip (full_lsdb w) gr0 gr else gr = gr0.
(** The tables of the first [K] nodes are computed. *)
Record computed w (systemId : Z) (K : nat) (s : manager R) : Prop := {
  co_agrees : agrees w (m_net s);
  co_vertices : m_vertices s = ∅;
  co_ext : m_extdatabase s = [];
  co_database : unexplored (m_database s) = full_lsdb w;
  co_done k : (k < K)%nat -> exists gr, routes_at (m_net s) k = Some gr /\ has_table w systemId k gr;
  co_todo k : (K <= k)%nat -> routes_at (m_net s) k = routes_at w k;
  co_lsas k : (k < length (n_nodes w))%nat -> lsas_at (m_net s) k = Some 1%nat }.

Lemma index_of_router w k n r : p2p_net w -> n_nodes w !! k = Some n -> rn_router n = Some r ->
  index_of (is_router (m_routerId r)) (n_nodes w) 0 = Some k.
Proof using.
  intros Hw Hn Hr. destruct (index_of _ _ _) as [j|] eqn:E.
  - apply index_of_some in E as (_ & m & Hm & Hf). rewrite Nat.sub_0_r in Hm. unfold is_router in Hf.
    destruct (rn_router m) as [r'|] eqn:Hr'; [|done]. unfold GetRouterId in Hf. bool_to_Z. f_equal. by eapply (pn_ids _ Hw).
  - exfalso. eapply (index_of_none _ _ _ E k n Hn). unfold is_router, GetRouterId. by rewrite Hr, Z.eqb_refl.
Qed.
Lemma routes_of_ok w systemId K s : p2p_net w -> computed w systemId K s -> (K < length (n_nodes w))%nat ->
  exists s', routes_of systemId K s = Ok (tt, s') /\ computed w systemId (S K) s'.
Proof using.
  intros Hw [Ha Hv He Hd Hdone Htodo Hls] HK. destruct (lookup_lt_is_Some_2 (n_nodes w) K HK) as (n & Hn).
  destruct (run_at w K n s Ha Hn) as (n' & Hn' & Hs & Erun). pose proof (agrees_p2p _ _ Hw Ha) as Hw'.
  destruct (pn_node _ Hw K n Hn) as (ip & r & gr0 & Hip & Hr & Hgr & _). destruct (sn_router _ _ Hs r Hr) as (r' & Hr' & Hid & Hinj & _).
  assert (m_routingProtocol r' = Some gr0) as Hgr'.
  { specialize (Htodo K ltac:(lia)). unfold routes_at in Htodo. rewrite Hn, Hn' in Htodo. simpl in Htodo. rewrite Hr, Hr' in Htodo. simpl in Htodo. congruence. }
  unfold routes_of. rewrite (run_bind _ _ _ _ _ Erun), Hr'.
  assert (GetNumLSAs r' = 1%nat) as ->.
  { specialize (Hls K HK). unfold lsas_at in Hls. rewrite Hn' in Hls. simpl in Hls. rewrite Hr' in Hls. simpl in Hls. congruence. }
  rewrite andb_true_r, <- (sn_system _ _ Hs). destruct (rn_systemId n =? systemId) eqn:Esys; bool_to_Z.
  - destruct (SPFCalculate_ok (m_net s) (m_routerId r') K n' r' ip (index_of_router _ _ _ _ Hw' Hn' Hr') Hn' Hr'
      ltac:(by rewrite <- (sn_ipv4 _ _ Hs)) (full_lsdb w) (lsdb_router_db _ Hw) s gr0 (advertised w K n r) eq_refl Hgr' Hv He Hd)
      as (s' & gr & E & Ht & En & Ev & Ee & Ed); [by rewrite <- Hid; apply lsdb_at|done|].
    exists s'. split; [done|]. assert (same_node n' (set_router (SetRoutingProtocol gr r') n')) as Hs2.
    { apply (same_node_set n' r'); done. }
    assert (forall k, n_nodes (m_net s') !! k = if decide (k = K) then Some (set_router (SetRoutingProtocol gr r') n') else n_nodes (m_net s) !! k) as Hnodes.
    { intros k. rewrite En. simpl. destruct (decide (k = K)) as [->|]; [rewrite list_lookup_insert_eq; [done|by eapply lookup_lt_Some]|by rewrite list_lookup_insert_ne]. }
    split; try done.
    + rewrite En. by eapply agrees_set.
    + intros k Hk. unfold routes_at. rewrite Hnodes. destruct (decide (k = K)) as [->|Hne]; [|apply Hdone; lia].
      exists gr. split; [done|]. intros n1 ip1 r1 gr1 Hn1 Hip1 Hr1 Hgr1. simplify_eq. rewrite bool_decide_eq_true_2 by done. by rewrite Hid.
    + intros k Hk. unfold routes_at at 1. rewrite Hnodes, decide_False by lia. apply Htodo. lia.
    + intros k Hk. unfold lsas_at. rewrite Hnodes. destruct (decide (k = K)) as [->|]; [|by apply Hls].
      specialize (Hls K Hk). unfold lsas_at in Hls. rewrite Hn' in Hls. simpl in *. by rewrite Hr' in Hls.
  - exists s. split; [done|]. split; try done; [|intros k Hk; apply Htodo; lia].
    intros k Hk. destruct (decide (k = K)) as [->|]; [|apply Hdone; lia].
    exists gr0. split; [unfold routes_at; rewrite Hn'; simpl; by rewrite Hr'|].
    intros n1 ip1 r1 gr1 Hn1 Hip1 Hr1 Hgr1. simplify_eq. by rewrite bool_decide_eq_false_2.
Qed.

(** The whole computation on a network of point-to-point links: it returns, it
    leaves no vertex, and the routes of every node of this system are those of
    the shortest paths. *)
Lemma populate_ok w systemId s0 : p2p_net w -> idle s0 -> m_net s0 = w -> exists s, PopulateRoutingTables systemId s0 = Ok (tt, s) /\
  m_vertices s = ∅ /\ agrees w (m_net s) /\
  forall k, (k < length (n_nodes w))%nat -> exists gr, routes_at (m_net s) k = Some gr /\ has_table w systemId k gr.
Proof using.
  intros Hw Hidle En. destruct (BuildGlobalRoutingDatabase_ok w s0 Hw Hidle En) as (s1 & E1 & [Ha Hv He Hd Hrt Hls]).
  unfold PopulateRoutingTables. rewrite (run_bind _ _ _ _ _ E1). unfold InitializeRoutes. run.
  destruct (each_counted (computed w systemId) (routes_of systemId) (length (n_nodes w)) s1) as (s2 & E2 & Hc).
  - intros K s HK Hb. by apply routes_of_ok.
  - split; try done; [by rewrite Hd, lsdb_unexplored|]. intros k Hk. lia.
  - rewrite (ag_length _ _ Ha). exists s2. split; [done|]. split; [apply (co_vertices _ _ _ _ Hc)|].
    split; [apply (co_agrees _ _ _ _ Hc)|]. apply (co_done _ _ _ _ Hc).
Qed.

(** ** [DeleteGlobalRoutes] *)

Definition no_routes (gr : Ipv4GlobalRouting R) : Ipv4GlobalRouting R := GlobalRouting.set_tables [] [] [] gr.
(** The number of routes, which [GetNRoutes] counts in 32 bits *)
Definition route_count (gr : Ipv4GlobalRouting R) : nat :=
  length (GlobalRouting.m_hostRoutes gr) + length (GlobalRouting.m_networkRoutes gr) + length (GlobalRouting.m_ASexternalRoutes gr).
Lemma RemoveRoute_first gr : (0 < route_count gr)%nat -> exists gr', GlobalRouting.RemoveRoute 0 gr = Ok gr' /\
  S (route_count gr') = route_count gr /\ no_routes gr' = no_routes gr.
Proof using.
  destruct gr as [? ? ? hs ns xs ? ?]. unfold GlobalRouting.RemoveRoute, route_count. simpl. destruct hs as [|h hs]; simpl.
  - destruct ns as [|n ns]; simpl.
    + destruct xs as [|x xs]; simpl; [lia|]. intros _. eexists. split; [reflexivity|]. split; [simpl; lia|done].
    + intros _. eexists. split; [reflexivity|]. split; [simpl; lia|done].
  - intros _. eexists. split; [reflexivity|]. split; [simpl; lia|done].
Qed.
Lemma remove_all_ok gr : Z.of_nat (route_count gr) < 2 ^ 32 -> remove_all gr = Ok (no_routes gr).
Proof using.
  intros Hc. unfold remove_all. assert (Z.to_nat (GlobalRouting.GetNRoutes gr) = route_count gr) as ->.
  { unfold GlobalRouting.GetNRoutes, route_count in *. rewrite wrap_small by (unfold in_range; lia). lia. }
  clear Hc. remember (route_count gr) as n eqn:En. revert gr En. induction n as [|n IH]; intros gr En.
  - simpl. destruct gr as [? ? ? hs ns xs ? ?]. unfold route_count in En. simpl in En.
    destruct hs, ns, xs; simpl in En; try lia. done.
  - destruct (RemoveRoute_first gr ltac:(lia)) as (gr' & E & Ec & Eno). rewrite Nat.iter_succ_r. simpl. rewrite E, <- Eno. apply IH. lia.
Qed.

(** The routes of the first [K] nodes are deleted. *)
Record deleted w (K : nat) (s0 s : manager R) : Prop := {
  de_agrees : agrees w (m_net s);
  de_vertices : m_vertices s = m_vertices s0;
  de_done k : (k < K)%nat -> routes_at (m_net s) k = no_routes <$> routes_at w k;
  de_todo k : (K <= k)%nat -> routes_at (m_net s) k = routes_at w k }.
Definition countable w : Prop := forall k gr, routes_at w k = Some gr -> Z.of_nat (route_count gr) < 2 ^ 32.
Lemma delete_routes_ok w K s0 s : p2p_net w -> countable w -> deleted w K s0 s -> (K < length (n_nodes w))%nat ->
  exists s', delete_routes_of K s = Ok (tt, s') /\ deleted w (S K) s0 s'.
Proof using.
  intros Hw Hcnt [Ha Hv Hdone Htodo] HK. destruct (lookup_lt_is_Some_2 (n_nodes w) K HK) as (n & Hn).
  destruct (run_at w K n s Ha Hn) as (n' & Hn' & Hs & Erun).
  destruct (pn_node _ Hw K n Hn) as (ip & r & gr & _ & Hr & Hgr & _). destruct (sn_router _ _ Hs r Hr) as (r' & Hr' & Hid & Hinj & _).
  assert (routes_at w K = Some gr) as Ew by (unfold routes_at; rewrite Hn; simpl; by rewrite Hr).
  assert (m_routingProtocol r' = Some gr) as Hgr'.
  { specialize (Htodo K ltac:(lia)). unfold routes_at at 1 in Htodo. rewrite Hn' in Htodo. simpl in Htodo. rewrite Hr' in Htodo. simpl in Htodo. congruence. }
  unfold delete_routes_of. rewrite (run_bind _ _ _ _ _ Erun), Hr', Hgr'. unfold deref. run.
  rewrite (remove_all_ok gr (Hcnt K gr Ew)). run. eexists. split; [reflexivity|].
  set (n2 := set_router (SetRoutingProtocol (no_routes gr) r') n').
  assert (same_node n' n2) as Hs2 by by apply (same_node_set n' r').
  assert (forall k, n_nodes (set_node K n2 (m_net s)) !! k = if decide (k = K) then Some n2 else n_nodes (m_net s) !! k) as Hnodes.
  { intros k. simpl. destruct (decide (k = K)) as [->|]; [rewrite list_lookup_insert_eq; [done|by eapply lookup_lt_Some]|by rewrite list_lookup_insert_ne]. }
  split; cbn [m_net set_net m_vertices]; try done.
  - by eapply agrees_set.
  - intros k Hk. unfold routes_at at 1. rewrite Hnodes. destruct (decide (k = K)) as [->|]; [by rewrite Ew|]. apply Hdone. lia.
  - intros k Hk. unfold routes_at at 1. rewrite Hnodes, decide_False by lia. apply Htodo. lia.
Qed.
Lemma DeleteGlobalRoutes_ok w s : p2p_net w -> countable w -> m_net s = w -> exists s', DeleteGlobalRoutes s = Ok (tt, s') /\
  agrees w (m_net s') /\ m_vertices s' = m_vertices s /\ m_extdatabase s' = [] /\ m_database s' = ∅ /\
  forall k, routes_at (m_net s') k = no_routes <$> routes_at w k.
Proof using.
  intros Hw Hcnt En. unfold DeleteGlobalRoutes. run. rewrite En.
  destruct (each_counted (fun K s1 => deleted w K s s1) delete_routes_of (length (n_nodes w)) s) as (s1 & E1 & [Ha Hv Hdone Htodo]).
  - intros K s1 HK Hd. by apply delete_routes_ok.
  - split; rewrite ?En; [apply agrees_refl|done|intros k Hk; lia|done].
  - rewrite (run_bind _ _ _ _ _ E1). eexists. split; [reflexivity|]. split; [done|]. split; [done|]. split; [done|]. split; [done|].
    intros k. cbn [m_net set_extdatabase set_database]. destruct (decide (k < length (n_nodes w))%nat) as [Hk|Hk]; [by apply Hdone|].
    rewrite (Htodo k) by lia. unfold routes_at. by rewrite (lookup_ge_None_2 (n_nodes w) k) by lia.
Qed.
Lemma agrees_lsdb w w' K : p2p_net w -> agrees w w' -> lsdb w' K = lsdb w K.
Proof using.
  intros Hw Ha. induction K as [|K IH]; [done|]. simpl. rewrite IH.
  destruct (n_nodes w !! K) as [n|] eqn:Hn; simpl.
  - destruct (agrees_lookup _ _ _ _ Ha Hn) as (n' & Hn' & Hs). rewrite Hn'. simpl.
    destruct (pn_node _ Hw K n Hn) as (ip & r & gr & _ & Hr & _). destruct (sn_router _ _ Hs r Hr) as (r' & Hr' & Hid & _).
    rewrite Hr, Hr'. simpl. by rewrite <- Hid, (agrees_advertised w w' K n n' r r').
  - rewrite (lookup_ge_None_2 (n_nodes w') K); [done|]. rewrite (ag_length _ _ Ha). by apply lookup_ge_None.
Qed.

(** ** Both requests *)

Definition without_routes (gr : Ipv4GlobalRouting R) : Prop :=
  GlobalRouting.m_hostRoutes gr = [] /\ GlobalRouting.m_networkRoutes gr = [].
(** The network [w'] is [w] with the routes of the shortest paths, and no others,
    in every node. *)
Record routed_net w w' : Prop := {
  rn_agrees : agrees w w';
  rn_tables k n ip r : n_nodes w !! k = Some n -> rn_ipv4 n = Some ip -> rn_router n = Some r -> exists gr0 gr,
    routes_at w' k = Some gr /\ without_routes gr0 /\ tables (m_routerId r) ip (full_lsdb w) gr0 gr }.
Definition one_system w (systemId : Z) : Prop := forall k n, n_nodes w !! k = Some n -> rn_systemId n = systemId.
Lemma populate_routed w systemId s0 : p2p_net w -> one_system w systemId -> (forall k gr, routes_at w k = Some gr -> without_routes gr) ->
  idle s0 -> m_net s0 = w ->
  exists s, PopulateRoutingTables systemId s0 = Ok (tt, s) /\ m_vertices s = ∅ /\ routed_net w (m_net s).
Proof using.
  intros Hw Hsys Hempty Hidle En. destruct (populate_ok w systemId s0 Hw Hidle En) as (s & E & Hv & Ha & Ht). exists s. split; [done|].
  split; [done|]. split; [done|]. intros k n ip r Hn Hip Hr. destruct (Ht k (lookup_lt_Some _ _ _ Hn)) as (gr & Hgr & Htab).
  destruct (pn_node _ Hw k n Hn) as (ip' & r' & gr0 & _ & Hr' & Hgr0 & _). assert (r' = r) as -> by congruence.
  exists gr0, gr. split; [done|]. specialize (Htab n ip r gr0 Hn Hip Hr Hgr0). rewrite bool_decide_eq_true_2 in Htab by by eapply Hsys.
  split; [|done]. apply (Hempty k). unfold routes_at. rewrite Hn. simpl. by rewrite Hr.
Qed.
(** Whatever routes there were, and whatever the database was. *)
Lemma recompute_routed w systemId s0 : p2p_net w -> one_system w systemId -> countable w -> m_vertices s0 = ∅ -> m_net s0 = w ->
  exists s, RecomputeRoutingTables systemId s0 = Ok (tt, s) /\ m_vertices s = ∅ /\ routed_net w (m_net s).
Proof using.
  intros Hw Hsys Hcnt Hv En. destruct (DeleteGlobalRoutes_ok w s0 Hw Hcnt En) as (s1 & E1 & Ha & Hv1 & He1 & Hd1 & Hr1).
  pose proof (agrees_p2p _ _ Hw Ha) as Hw1.
  destruct (populate_routed (m_net s1) systemId s1 Hw1) as (s & E & Hvs & [Ha2 Ht2]); [|..|done|].
  - intros k n' Hn'. destruct (agrees_lookup' _ _ _ _ Ha Hn') as (n & Hn & Hs). rewrite <- (sn_system _ _ Hs). by eapply Hsys.
  - intros k gr Hgr. rewrite Hr1 in Hgr. apply fmap_Some in Hgr as (gr' & _ & ->). done.
  - split; [congruence|done].
  - exists s. split; [|split; [done|split]].
    + unfold RecomputeRoutingTables, PopulateRoutingTables in *. by rewrite (run_bind _ _ _ _ _ E1).
    + by eapply agrees_trans.
    + intros k n ip r Hn Hip Hr. destruct (agrees_lookup _ _ _ _ Ha Hn) as (n' & Hn' & Hs). destruct (sn_router _ _ Hs r Hr) as (r' & Hr' & Hid & _).
      destruct (Ht2 k n' ip r' Hn' ltac:(by rewrite <- (sn_ipv4 _ _ Hs)) Hr') as (gr0 & gr & Hgr & He & Htab). exists gr0, gr.
      split; [done|]. split; [done|]. by rewrite (ag_length _ _ Ha), (agrees_lsdb _ _ _ Hw Ha), <- Hid in Htab.
Qed.
End populate.
