(* ===== verification/GlobalPaths.v ===== *)
(** * Packets on the global routes

    [send] follows a packet from node to node: [RouteOutput] of the source,
    the link of the device it leaves by, and [RouteInput] of every router it
    comes to, with the routes that [PopulateRoutingTables] has computed.  The
    packet arrives, and the links it crosses are a shortest path. *)

From S2P Require Import Prelude Ipv4Ifaces Routing GlobalRouter RouteManager ShortestPaths SpfRefine SpfTree SpfCalculate PopulateRoutes.
From S2P Require Packet Ipv4Address Ipv4Header GlobalRouting.
Import GlobalRouting (Ipv4GlobalRouting, UniformRandom, m_hostRoutes, m_networkRoutes, m_ASexternalRoutes).
Import Ipv4Header (Ipv4Header, GetDestination).

(** ** Paths through the first link *)

Section paths.
Context {L : Type} (links : Z -> list L) (dst cost : L -> Z).
Hypothesis cost_pos : forall k l, l ∈ links k -> 1 <= cost l.
Abbreviation path := (path links dst cost).
Abbreviation shortest := (shortest links dst cost).

Lemma path_cons root l k d : l ∈ links root -> path (dst l) k d -> path root k (cost l + d).
Proof using.
  intros Hl. induction 1 as [|k d l' _ IH Hl'].
  - rewrite Z.add_0_r. replace (cost l) with (0 + cost l) by lia. apply (path_link links dst cost root root); [constructor|done].
  - rewrite Z.add_assoc. by eapply path_link.
Qed.
Lemma xpath_cons first root l k d : l ∈ links root -> path (dst l) k d -> xpath links dst cost first root k (cost l + d) (first l).
Proof using.
  intros Hl. induction 1 as [|k d l' _ IH Hl'].
  - rewrite Z.add_0_r. by constructor.
  - rewrite Z.add_assoc. by eapply xpath_link.
Qed.
Lemma path_exit first root k d : path root k d -> (k = root /\ d = 0) \/ exists e, xpath links dst cost first root k d e.
Proof using.
  induction 1 as [|k d l Hp [[-> ->]|(e & Hx)] Hl]; [by left|right..].
  - exists (first l). rewrite Z.add_0_l. by constructor.
  - exists e. by eapply xpath_link.
Qed.
(** The rest of a path after its first link *)
Lemma xpath_split first root k d e : xpath links dst cost first root k d e ->
  exists l d', l ∈ links root /\ e = first l /\ path (dst l) k d' /\ d = cost l + d'.
Proof using.
  induction 1 as [l Hl|k d e l _ (l0 & d' & Hl0 & -> & Hp & ->) Hl].
  - exists l, 0. split; [done|]. split; [done|]. split; [constructor|lia].
  - exists l0, (d' + cost l). split; [done|]. split; [done|]. split; [by eapply path_link|lia].
Qed.
Lemma shortest_tail first root k d e : shortest root k d -> xpath links dst cost first root k d e ->
  exists l, l ∈ links root /\ e = first l /\ shortest (dst l) k (d - cost l).
Proof using.
  intros [_ Hleast] (l & d' & Hl & -> & Hp & ->)%xpath_split. exists l. split; [done|]. split; [done|].
  replace (cost l + d' - cost l) with d' by lia. split; [done|]. intros d2 Hp2.
  pose proof (Hleast _ (path_cons _ _ _ _ Hl Hp2)). lia.
Qed.
Lemma shortest_first first root k d : k <> root -> shortest root k d -> exists e, xpath links dst cost first root k d e.
Proof using. intros Hne [Hp _]. destruct (path_exit first _ _ _ Hp) as [[? _]|?]; done. Qed.
Lemma shortest_unique root k d d' : shortest root k d -> shortest root k d' -> d = d'.
Proof using. intros [H1 H2] [H3 H4]. pose proof (H2 _ H3). pose proof (H4 _ H1). lia. Qed.
Lemma shortest_known first root k d tree : exact links dst cost first root tree -> shortest root k d ->
  exists a, a ∈ tree /\ a_id a = k /\ a_dist a = d.
Proof using.
  intros He Hs. pose proof (exact_all _ _ _ _ _ _ He _ _ (proj1 Hs)) as (a & -> & Ha)%list_elem_of_fmap.
  exists a. split; [done|]. split; [done|]. eapply shortest_unique; [by apply (exact_dist _ _ _ _ _ _ He)|done].
Qed.
End paths.

(** ** The lookup *)

Lemma collect_tests (f : Ipv4RoutingTableEntry -> bool) test ip l : (forall r, r ∈ l -> test r = Ok (f r)) ->
  collect test None ip l = Ok (List.filter f l).
Proof.
  induction l as [|r l IH]; intros Hf; [done|]. cbn [collect List.filter]. rewrite (Hf r) by by left. simpl.
  rewrite IH by (intros x Hx; apply Hf; by right). by destruct (f r).
Qed.

Section routes.
Context {R : Type}.
Implicit Types gr : Ipv4GlobalRouting R.

(** The route leaves by the interface of the link. *)
Definition uses (ip : Ipv4) (l : GlobalRoutingLinkRecord) (r : Ipv4RoutingTableEntry) : Prop :=
  m_interface r = as_interface (outgoing ip (m_linkData l)) \/ m_interface r = u32 (outgoing ip (m_linkData l)).
(** The router [rid] sends what is for [dest] along a link that is nearer to the router [tid]. *)
Definition sends_nearer (db : gmap Z GlobalRoutingLSA) (ip : Ipv4) (rid tid dist : Z) (r : Ipv4RoutingTableEntry) : Prop :=
  exists l, l ∈ links_of db rid /\ shortest (links_of db) m_linkId m_metric (m_linkId l) tid (dist - m_metric l) /\
    uses ip l r.

Lemma all_routes_hosts dest ip gr : (forall r, r ∈ m_hostRoutes gr -> IsHost r = true) ->
  List.filter (fun r => GetDest r =? dest) (m_hostRoutes gr) <> [] ->
  GlobalRouting.all_routes dest None ip gr = Ok (List.filter (fun r => GetDest r =? dest) (m_hostRoutes gr)).
Proof using.
  intros Hh Hne. unfold GlobalRouting.all_routes. rewrite (collect_tests (fun r => GetDest r =? dest) (GlobalRouting.host_test dest)).
  - simpl. by destruct (List.filter _ _).
  - intros r Hr. unfold GlobalRouting.host_test. by rewrite (Hh r Hr).
Qed.

(** Every route to an address of a link of the router [tid], whose router alone
    has the address, leads nearer. *)
Lemma routes_nearer db ip rid tid dist dest gr0 gr :
  router_db db -> without_routes gr0 -> tables rid ip db gr0 gr -> rid <> tid ->
  (forall l, l ∈ links_of db rid -> 0 <= as_interface (outgoing ip (m_linkData l))) ->
  shortest (links_of db) m_linkId m_metric rid tid dist ->
  (exists l, l ∈ links_of db tid /\ m_linkData l = dest) ->
  (forall k l, l ∈ links_of db k -> m_linkData l = dest -> k = tid) ->
  exists es, GlobalRouting.all_routes dest None ip gr = Ok es /\ es <> [] /\
    (forall r, r ∈ es -> sends_nearer db ip rid tid dist r) /\
    forall l, l ∈ links_of db rid -> shortest (links_of db) m_linkId m_metric (m_linkId l) tid (dist - m_metric l) ->
      exists r, r ∈ es /\ uses ip l r.
Proof using.
  intros Hdb [Hh0 Hn0] Ht Hne Hout Hsh (lt & Hlt & Hdest) Hown.
  destruct (shortest_first _ _ _ (first_exit rid ip db) _ _ _ (not_eq_sym Hne) Hsh) as (e & Hx).
  destruct Ht as [Enil|l El|rest nets H2 Hex Hnets].
  - exfalso. destruct (xpath_split _ _ _ _ _ _ _ _ Hx) as (l & d' & Hl & _). rewrite Enil in Hl. by apply elem_of_nil in Hl.
  - destruct (shortest_tail _ _ _ _ _ _ _ _ Hsh Hx) as (l' & Hl' & -> & Hsh').
    exists [default_entry rid ip db l]. split.
    + unfold GlobalRouting.all_routes. simpl. rewrite Hh0, Hn0. simpl. unfold matches, Ipv4Address.mask_IsMatch. simpl.
      by rewrite !Z.land_0_r.
    + rewrite El in Hl'. apply list_elem_of_singleton in Hl' as ->. split; [done|]. split.
      * intros r ->%list_elem_of_singleton. exists l. rewrite El. split; [by left|]. split; [done|]. by right.
      * intros l' Hl' _. rewrite El in Hl'. apply list_elem_of_singleton in Hl' as ->. exists (default_entry rid ip db l).
        split; [by left|]. by right.
  - destruct (shortest_known _ _ _ _ _ _ _ _ Hex Hsh) as (a & Ha & Hid & Hd).
    apply elem_of_cons in Ha as [->|Ha]; [done|].
    set (gr := add_networks nets (add_hosts (rest ≫= host_entries db) gr0)).
    assert (forall r, r ∈ m_hostRoutes gr <-> exists b lr e, b ∈ rest /\ lr ∈ links_of db (a_id b) /\ e ∈ a_exits b /\ 0 <= e.2 /\
      r = CreateHostRouteTo (m_linkData lr) e.1 e.2) as Hhosts.
    { intros r. simpl. rewrite Hh0. simpl. rewrite list_elem_of_bind. split.
      - intros (b & (lr & (x & -> & Hx')%list_elem_of_fmap & Hlr)%list_elem_of_bind & Hb).
        apply list_elem_of_In, List.filter_In in Hx' as [Hx' Hge]. bool_to_Z. apply list_elem_of_In in Hx'. by exists b, lr, x.
      - intros (b & lr & x & Hb & Hlr & Hx' & Hge & ->). exists b. split; [|done]. apply list_elem_of_bind. exists lr. split; [|done].
        eapply list_elem_of_fmap_2'; [|done]. apply list_elem_of_In, List.filter_In. split; [by apply list_elem_of_In|by apply Z.leb_le]. }
    assert (e ∈ a_exits a) as Hea.
    { apply (exact_exits _ _ _ _ _ _ Hex); [by right|]. by rewrite Hid, Hd. }
    assert (forall x, x ∈ a_exits a -> exists l, l ∈ links_of db rid /\ x = first_exit rid ip db l /\
      shortest (links_of db) m_linkId m_metric (m_linkId l) tid (dist - m_metric l)) as Hexits.
    { intros x Hxa. apply (exact_exits _ _ _ _ _ _ Hex) in Hxa; [|by right]. rewrite Hid, Hd in Hxa.
      by apply (shortest_tail _ _ _ _ _ _ _ _ Hsh Hxa). }
    set (es := List.filter (fun r => GetDest r =? dest) (m_hostRoutes gr)).
    assert (forall l, l ∈ links_of db rid -> first_exit rid ip db l ∈ a_exits a ->
      CreateHostRouteTo (m_linkData lt) (first_exit rid ip db l).1 (first_exit rid ip db l).2 ∈ es) as Hin.
    { intros l Hl Hla. apply list_elem_of_In, List.filter_In. split; [|unfold GetDest; simpl; by apply Z.eqb_eq]. apply list_elem_of_In, Hhosts.
      exists a, lt, (first_exit rid ip db l). rewrite Hid. split; [done|]. split; [done|]. split; [done|]. split; [by apply Hout|done]. }
    exists es. split; [|split; [|split]].
    + apply all_routes_hosts; [by intros r (b & lr & x & _ & _ & _ & _ & ->)%Hhosts|]. fold es. intros Hnil.
      destruct (Hexits e Hea) as (l & Hl & -> & _). specialize (Hin l Hl Hea). rewrite Hnil in Hin. by apply elem_of_nil in Hin.
    + intros Hnil. destruct (Hexits e Hea) as (l & Hl & -> & _). specialize (Hin l Hl Hea). rewrite Hnil in Hin. by apply elem_of_nil in Hin.
    + intros r Hr. apply list_elem_of_In, List.filter_In in Hr as [Hr Er]. apply list_elem_of_In in Hr. bool_to_Z.
      apply Hhosts in Hr as (b & lr & x & Hb & Hlr & Hxb & _ & ->). unfold GetDest in Er. simpl in Er.
      assert (b = a) as ->.
      { eapply ids_inj; [apply (exact_nodup _ _ _ _ _ _ Hex)|by right|by right|]. rewrite Hid. by apply (Hown _ lr). }
      destruct (Hexits x Hxb) as (l & Hl & -> & Hs). exists l. split; [done|]. split; [done|]. by left.
    + intros l Hl [Hpl _]. eexists. split; [apply (Hin l Hl)|by left]. apply (exact_exits _ _ _ _ _ _ Hex); [by right|].
      rewrite Hid, Hd. replace dist with (m_metric l + (dist - m_metric l)) by lia. by apply xpath_cons.
Qed.
End routes.

(** ** The network as a graph *)

Section travel.
Context {R : Type} `{UniformRandom R} `{Allocator}.
Implicit Types w : net R.
Abbreviation full_lsdb w := (lsdb w (length (n_nodes w))).
(** A number that is drawn is between the bounds. *)
Hypothesis draws : forall lo hi g, lo <= hi -> lo <= (GlobalRouting.GetInteger lo hi g).1 <= hi.

(** A way from the node [k] to another one, and the sum of the metrics of the
    interfaces it leaves by. *)
Inductive way w (k : nat) : nat -> Z -> Prop :=
| way_here : way w k k 0
| way_link j c d e e' : way w k j c -> link_between w j d e e' -> way w k (e_node e') (c + e_metric e).
Definition distance w (k t : nat) (c : Z) : Prop := way w k t c /\ forall c', way w k t c' -> c <= c'.

Lemma way_node w k j c : way w k j c -> k = j \/ exists n, n_nodes w !! k = Some n.
Proof using.
  induction 1 as [|j c d e e' _ [<-|?] ((n & _ & Hn & _) & _)]; [by left|right; by exists n|by right].
Qed.

(** A link of the node [k] with which a shortest way to [t] begins *)
Definition on_shortest w (k t : nat) (c : Z) (d : Z) (e e' : link_end) : Prop :=
  link_between w k d e e' /\ distance w (e_node e') t (c - e_metric e).

Section net.
Context w (Hw : p2p_net w).
Abbreviation links := (links_of (full_lsdb w)).
Definition id_of (k : nat) : option Z := n ← n_nodes w !! k; r ← rn_router n; Some (m_routerId r).

Lemma id_of_some k x : id_of k = Some x -> exists n r, n_nodes w !! k = Some n /\ rn_router n = Some r /\ m_routerId r = x.
Proof using. unfold id_of. intros E. simplify_option_eq. eauto. Qed.
Lemma id_of_inj k k' x : id_of k = Some x -> id_of k' = Some x -> k = k'.
Proof using Hw.
  intros (n & r & Hn & Hr & Hx)%id_of_some (n' & r' & Hn' & Hr' & Hx')%id_of_some. eapply (pn_ids _ Hw); [done..|congruence].
Qed.
Lemma between_id k d e e' : link_between w k d e e' -> id_of k = Some (e_router e) /\ id_of (e_node e') = Some (e_router e').
Proof using Hw.
  intros Hb. destruct (between_ids _ _ _ _ _ Hb) as (n & r & n' & r' & Hn & Hr & Hx & Hn' & Hr' & Hx').
  pose proof Hb as (Hd & Ee & _). rewrite (link_dev_node _ _ _ _ Hw Hd Ee) in Hn. unfold id_of.
  rewrite Hn, Hn'. simpl. rewrite Hr, Hr'. simpl. by rewrite Hx, Hx'.
Qed.
Lemma links_between k x l : id_of k = Some x -> l ∈ links x <-> exists d e e', link_between w k d e e' /\ l = link_record e e'.
Proof using Hw. intros (n & r & Hn & Hr & <-)%id_of_some. by eapply links_of_lsdb. Qed.

Lemma path_way k x y c : id_of k = Some x ->
  path links m_linkId m_metric x y c <-> exists j, id_of j = Some y /\ way w k j c.
Proof using Hw.
  intros Hx. split.
  - induction 1 as [|y c l _ (j & Hj & Hway) Hl]; [exists k; split; [done|constructor]|].
    apply (links_between j y l Hj) in Hl as (d & e & e' & Hb & ->). exists (e_node e').
    split; [by apply (between_id j d e)|]. simpl. by eapply way_link.
  - intros (j & Hj & Hway). revert y Hj. induction Hway as [|j c d e e' Hway IH Hb]; intros y Hj.
    + assert (y = x) as -> by congruence. constructor.
    + destruct (between_id _ _ _ _ Hb) as [Hid Hid']. assert (y = e_router e') as -> by congruence.
      apply (path_link _ _ _ _ _ _ (link_record e e') (IH _ Hid)). apply (links_between j); eauto.
Qed.
Lemma distance_shortest k t x y c : id_of k = Some x -> id_of t = Some y ->
  shortest links m_linkId m_metric x y c <-> distance w k t c.
Proof using Hw.
  intros Hx Hy. unfold distance, shortest.
  assert (forall c, path links m_linkId m_metric x y c <-> way w k t c) as E.
  { intros c0. rewrite (path_way k) by done. split; [|by exists t]. intros (j & Hj & ?). by rewrite (id_of_inj t j y). }
  rewrite E. by setoid_rewrite E.
Qed.
End net.

(** ** Hops *)

(** The node and the device at the other end of the link of a device *)
Definition across w (dev : option Z) : res (nat * Z) :=
  d ← deref dev;
  nd ← device w d;
  c ← deref (nd_channel nd);
  ch ← channel w c;
  d' ← GetAdjacent d ch;
  nd' ← device w d';
  mret (nd_node nd', d').
(** From the node [k], which got the packet from the device [d], until a router
    delivers it: the node, and the devices the packet left by. *)
Fixpoint carry (fuel : nat) w (k : nat) (d : Z) (p : tagged) (h : Ipv4Header) : res (option (nat * list Z)) :=
  n ← node w k;
  ip ← ipv4_of n;
  r ← deref (rn_router n);
  gr ← deref (m_routingProtocol r);
  '(_, calls, _, _) ← GlobalRouting.RouteInput ip p h (Some d) true gr;
  match calls with
  | [CallLocalDeliver _ _ _] => mret (Some (k, []))
  | [CallForward rt p' h'] =>
      match fuel with
      | O => Err OutOfFuel
      | S fuel =>
          '(k', d') ← across w (rt_dev rt);
          o ← carry fuel w k' d' p' h';
          mret (match o with Some (t, ds) => Some (t, default 0 (rt_dev rt) :: ds) | None => None end)
      end
  | _ => mret None
  end.
Definition send (fuel : nat) w (k : nat) (p : tagged) (h : Ipv4Header) : res (option (nat * list Z)) :=
  n ← node w k;
  ip ← ipv4_of n;
  r ← deref (rn_router n);
  gr ← deref (m_routingProtocol r);
  '(rt, _, _) ← GlobalRouting.RouteOutput ip h None gr;
  match rt with
  | None => mret None
  | Some rt =>
      '(k', d') ← across w (rt_dev rt);
      o ← carry fuel w k' d' p h;
      mret (match o with Some (t, ds) => Some (t, default 0 (rt_dev rt) :: ds) | None => None end)
  end.
(** The sum of the metrics of the interfaces of the devices *)
Definition cost_of w (ds : list Z) : Z := foldr (fun d c => default 0 (e ← end_at w d; Some (e_metric e)) + c) 0 ds.

(** What a packet for [dest] meets: the interfaces are registered under their
    devices, and the node [t] alone has the address. *)
Record destination_of w (t : nat) (dest : Z) : Prop := {
  ds_registered k d e : link_dev w k d -> end_at w d = Some e -> m_reverseInterfacesContainer (e_ipv4 e) !! d = Some (e_index e);
  ds_local k d e : link_dev w k d -> end_at w d = Some e ->
    IsDestinationAddress dest (e_index e) (e_ipv4 e) = Ok (bool_decide (k = t));
  ds_unicast : Ipv4Address.IsMulticast dest = false }.

Section forward.
Context w w' (Hw : p2p_net w) (Hrt : routed_net w w').
Context (t : nat) (dt : Z) (et : link_end) (Hdt : link_dev w t dt) (Het : end_at w dt = Some et).
Abbreviation dest := (e_local et).

Lemma as_interface_id i : 0 <= i < 2 ^ 31 -> as_interface i = i /\ u32 i = i.
Proof using. intros Hi. unfold as_interface. rewrite (wrap_small 32 i) by (unfold in_range; lia). by rewrite to_signed_small by lia. Qed.
Lemma between_outgoing k d e e' : link_between w k d e e' ->
  as_interface (outgoing (e_ipv4 e) (e_local e)) = e_index e /\ u32 (outgoing (e_ipv4 e) (e_local e)) = e_index e.
Proof using.
  intros (_ & _ & Hg & _). unfold outgoing. rewrite (ge_prefix _ Hg). apply as_interface_id, (ge_index _ Hg).
Qed.
Lemma link_routes d e : end_at w d = Some e -> GetAddress (e_index e) 0 (e_ipv4 e) = Ok (e_address e) /\
  GetNetDevice (e_index e) (e_ipv4 e) = Ok (Some d).
Proof using.
  intros E. destruct (end_at_inv _ _ _ E) as (nd & n' & r & _ & _ & Hn' & _ & _ & Hip & Hi & Hifc & Ha).
  unfold GetAddress, GetNetDevice, Ipv4Ifaces.GetInterface. rewrite Hifc. simpl. unfold if_GetAddress. change (Z.to_nat 0) with 0%nat.
  rewrite Ha. split; [done|]. unfold FindInterfaceForDevice in Hi. rewrite Hip in Hi. apply interface_for_lookup in Hi as (_ & ifc & Hifc' & Hdev).
  rewrite Z.sub_0_r in Hifc'. assert (ifc = e_interface e) as -> by congruence. unfold Ipv4Interface.GetDevice. by rewrite Hdev.
Qed.
Lemma across_between k d e e' : link_between w k d e e' -> exists d', across w' (Some d) = Ok (e_node e', d') /\
  link_dev w (e_node e') d' /\ end_at w d' = Some e'.
Proof using Hrt.
  intros ((_ & nd & _ & _ & Hnd & _) & _ & _ & d' & Hp & Ee' & Hd' & _). exists d'. split; [|done].
  unfold across, device, channel. rewrite (ag_devs _ _ (rn_agrees _ _ Hrt)), (ag_chans _ _ (rn_agrees _ _ Hrt)).
  unfold peer in Hp. rewrite Hnd in Hp. simpl in Hp. simpl. rewrite Hnd. simpl. destruct (nd_channel nd) as [c|]; [|done]. simpl in Hp |- *.
  destruct (n_chans w !! c) as [ch|]; [|done]. simpl in Hp |- *. destruct (GetAdjacent d ch) as [x|]; [|done]. injection Hp as ->. simpl.
  destruct (end_at_inv _ _ _ Ee') as (nd' & _ & _ & Hnd' & Hk' & _). rewrite Hnd'. simpl. by rewrite Hk'.
Qed.

(** The routes to the address of the node [t] at another node: those through the
    links from which the rest of the way is shortest *)
Lemma table_links k c : k <> t -> distance w k t c -> exists n ip r gr es,
  n_nodes w' !! k = Some n /\ rn_ipv4 n = Some ip /\ rn_router n = Some r /\ m_routingProtocol r = Some gr /\
  GlobalRouting.all_routes dest None ip gr = Ok es /\ es <> [] /\
  (forall x, x ∈ es -> exists d e e', on_shortest w k t c d e e' /\ e_ipv4 e = ip /\ m_interface x = e_index e) /\
  forall d e e', on_shortest w k t c d e e' -> exists x, x ∈ es /\ m_interface x = e_index e.
Proof using Hw Hrt Hdt Het.
  intros Hne Hdist.
  assert (exists n, n_nodes w !! k = Some n) as (n & Hn).
  { destruct Hdist as [Hway _]. by destruct (way_node _ _ _ _ Hway). }
  destruct (pn_node _ Hw k n Hn) as (ip & r & gr0 & Hip & Hr & Hgr0 & _).
  destruct (agrees_lookup _ _ _ _ (rn_agrees _ _ Hrt) Hn) as (n' & Hn' & Hs).
  destruct (rn_tables _ _ Hrt k n ip r Hn Hip Hr) as (gr1 & gr & Hgr & Hempty & Htab).
  unfold routes_at in Hgr. rewrite Hn' in Hgr. simpl in Hgr. destruct (rn_router n') as [r'|] eqn:Hr'; [|done]. simpl in Hgr.
  assert (id_of w k = Some (m_routerId r)) as Hidk by (unfold id_of; rewrite Hn; simpl; by rewrite Hr).
  destruct (pn_between _ _ _ Hw Hdt) as (et0 & et' & Hbt). assert (et0 = et) as -> by (destruct Hbt as (_ & ? & _); congruence).
  destruct (between_id _ Hw _ _ _ _ Hbt) as [Hidt _].
  assert (forall d e e', link_between w k d e e' -> e_ipv4 e = ip) as Hipk.
  { intros d e e' (Hd & Ee & _). pose proof (link_dev_node _ _ _ _ Hw Hd Ee) as Hk.
    destruct (end_at_inv _ _ _ Ee) as (_ & m & _ & _ & _ & Hm & _ & _ & Him & _). rewrite Hk in Hm. congruence. }
  assert (forall d e e' x, link_between w k d e e' -> uses ip (link_record e e') x <-> m_interface x = e_index e) as Huses.
  { intros d e e' x Hb. unfold uses. simpl. rewrite <- (Hipk _ _ _ Hb). destruct (between_outgoing _ _ _ _ Hb) as [-> ->]. tauto. }
  assert (forall d e e', link_between w k d e e' ->
    shortest (links_of (full_lsdb w)) m_linkId m_metric (e_router e') (e_router et) (c - e_metric e) <-> distance w (e_node e') t (c - e_metric e)) as Hsh.
  { intros d e e' Hb. destruct (between_id _ Hw _ _ _ _ Hb) as [_ Hid']. by apply (distance_shortest _ Hw (e_node e') t). }
  destruct (routes_nearer (full_lsdb w) ip (m_routerId r) (e_router et) c dest gr1 gr) as (es & Ees & Hes & Hnear & Hall); try done.
  - by apply lsdb_router_db.
  - intros E. apply Hne. eapply (id_of_inj _ Hw); [done|]. by rewrite E.
  - intros l (d & e & e' & Hb & ->)%(links_between _ Hw k _ _ Hidk). simpl. rewrite <- (Hipk _ _ _ Hb).
    destruct (between_outgoing _ _ _ _ Hb) as [-> _]. destruct Hb as (_ & _ & Hg & _). apply (ge_index _ Hg).
  - by apply (distance_shortest _ Hw k t).
  - exists (link_record et et'). split; [|done]. apply (links_between _ Hw t _ _ Hidt). by exists dt, et, et'.
  - intros x l Hl Hdata. pose proof Hl as (a & Ha & _)%links_of_elem. apply lsdb_lookup in Ha as (j & nj & rj & _ & Hnj & Hrj & <- & _); [|done..].
    assert (id_of w j = Some (m_routerId rj)) as Hidj by (unfold id_of; rewrite Hnj; simpl; by rewrite Hrj).
    apply (links_between _ Hw j _ _ Hidj) in Hl as (d & e & e' & Hb & ->). simpl in Hdata. pose proof Hb as (Hd & Ee & _).
    assert (d = dt) as -> by by eapply (pn_addresses _ Hw). assert (e = et) as -> by congruence.
    destruct (between_id _ Hw _ _ _ _ Hb) as [Hidj' _]. congruence.
  - exists n', ip, r', gr, es. rewrite <- (sn_ipv4 _ _ Hs). do 6 (split; [done|]). split.
    + intros x Hx. destruct (Hnear x Hx) as (l & Hl & Hd & Hu). apply (links_between _ Hw k _ _ Hidk) in Hl as (d & e & e' & Hb & ->).
      exists d, e, e'. split; [split; [done|by apply (Hsh d)]|]. split; [by eapply Hipk|by apply (Huses d e e')].
    + intros d e e' [Hb Hd]. destruct (Hall (link_record e e')) as (x & Hx & Hu).
      * apply (links_between _ Hw k _ _ Hidk). by exists d, e, e'.
      * by apply (Hsh d).
      * exists x. split; [done|by apply (Huses d e e')].
Qed.

(** Looking up the address of the node [t] at another node *)
Lemma lookup_nearer k c : k <> t -> distance w k t c -> exists n ip r gr,
  n_nodes w' !! k = Some n /\ rn_ipv4 n = Some ip /\ rn_router n = Some r /\ m_routingProtocol r = Some gr /\
  exists rt gr' d e e', GlobalRouting.LookupGlobal dest None ip gr = Ok (Some rt, gr') /\ rt_dev rt = Some d /\
    on_shortest w k t c d e e'.
Proof using All.
  intros Hne Hdist. destruct (table_links k c Hne Hdist) as (n & ip & r & gr & es & Hn & Hip & Hr & Hgr & Ees & Hes & Hnear & _).
  exists n, ip, r, gr. do 4 (split; [done|]).
  set (sel := if GlobalRouting.m_randomEcmpRouting gr
    then GlobalRouting.GetInteger 0 (Z.of_nat (length es) - 1) (GlobalRouting.m_rand gr) else (0, GlobalRouting.m_rand gr)).
  assert (0 < length es)%nat as Hlen by (destruct es; simpl; [done|lia]).
  assert (0 <= sel.1 < Z.of_nat (length es)) as Hsel.
  { unfold sel. destruct (GlobalRouting.m_randomEcmpRouting gr); [|simpl; lia].
    pose proof (draws 0 (Z.of_nat (length es) - 1) (GlobalRouting.m_rand gr) ltac:(lia)). lia. }
  destruct (lookup_lt_is_Some_2 es (Z.to_nat sel.1) ltac:(lia)) as (x & Hx).
  destruct (Hnear x (list_elem_of_lookup_2 _ _ _ Hx)) as (d & e & e' & Hon & Eip & Ei).
  destruct (link_routes d e ltac:(apply Hon)) as [Ea Ed]. rewrite Eip in Ea, Ed.
  exists (mkRoute (GetDest x) (e_local e) (GetGateway x) (Some d)), (GlobalRouting.set_rand sel.2 gr), d, e, e'.
  split; [|done]. unfold GlobalRouting.LookupGlobal. rewrite Ees. simpl. fold sel. destruct es as [|y es]; [done|].
  destruct sel as [i g]. simpl in Hx |- *.
  rewrite Hx. simpl. unfold GlobalRouting.make_route, Routing.GetInterface. rewrite Ei, Ea. simpl. by rewrite Ed.
Qed.

Hypothesis Hdest : destination_of w t dest.

Lemma way_nonneg k j c : way w k j c -> 0 <= c.
Proof using. induction 1 as [|j c d e e' _ IH (_ & _ & Hg & _)]; [done|]. pose proof (ge_metric _ Hg). lia. Qed.
Lemma distance_here c : distance w t t c -> c = 0.
Proof using. intros [Hway Hleast]. pose proof (way_nonneg _ _ _ Hway). pose proof (Hleast 0 (way_here w t)). lia. Qed.
Lemma cost_of_cons d e ds : end_at w d = Some e -> cost_of w (d :: ds) = e_metric e + cost_of w ds.
Proof using. intros E. simpl. by rewrite E. Qed.

(** [RouteInput] of the node [k], for a packet that came by the device [d] *)
Lemma RouteInput_arrives k d e p h gr : link_dev w k d -> end_at w d = Some e -> GetDestination h = dest -> k = t ->
  exists i, GlobalRouting.RouteInput (e_ipv4 e) p h (Some d) true gr = Ok (true, [CallLocalDeliver p h i], p, gr).
Proof using All.
  intros Hd Ee Hh Hk. destruct (pn_link _ Hw k d Hd) as (e2 & _ & _ & Ee2 & Hg & _). assert (e2 = e) as -> by congruence.
  exists (e_index e). unfold GlobalRouting.RouteInput, input_interface. simpl. rewrite (ds_registered _ _ _ Hdest _ _ _ Hd Ee).
  rewrite (proj2 (Z.leb_le _ _)) by apply (ge_index _ Hg). simpl. rewrite Hh, (ds_local _ _ _ Hdest _ _ _ Hd Ee). simpl.
  by rewrite bool_decide_eq_true_2.
Qed.
Lemma RouteInput_forwards k d e p h gr rt gr' : link_dev w k d -> end_at w d = Some e -> GetDestination h = dest -> k <> t ->
  GlobalRouting.LookupGlobal dest None (e_ipv4 e) gr = Ok (Some rt, gr') ->
  GlobalRouting.RouteInput (e_ipv4 e) p h (Some d) true gr = Ok (true, [CallForward rt p h], p, gr').
Proof using All.
  intros Hd Ee Hh Hk El. destruct (pn_link _ Hw k d Hd) as (e2 & _ & _ & Ee2 & Hg & _). assert (e2 = e) as -> by congruence.
  unfold GlobalRouting.RouteInput, input_interface. simpl. rewrite (ds_registered _ _ _ Hdest _ _ _ Hd Ee).
  rewrite (proj2 (Z.leb_le _ _)) by apply (ge_index _ Hg). simpl. rewrite Hh, (ds_local _ _ _ Hdest _ _ _ Hd Ee). simpl.
  rewrite bool_decide_eq_false_2 by done. unfold IsForwarding, Ipv4Ifaces.GetInterface.
  destruct (end_at_inv _ _ _ Ee) as (_ & _ & _ & _ & _ & _ & _ & _ & _ & _ & -> & _). simpl. unfold if_IsForwarding.
  rewrite (ge_forwarding _ Hg). simpl. by rewrite El.
Qed.

Lemma node_ready k d e : link_dev w k d -> end_at w d = Some e -> exists n gr r, n_nodes w' !! k = Some n /\
  rn_ipv4 n = Some (e_ipv4 e) /\ rn_router n = Some r /\ m_routingProtocol r = Some gr.
Proof using Hw Hrt.
  intros Hd Ee. pose proof (link_dev_node _ _ _ _ Hw Hd Ee) as Hk. destruct (end_at_inv _ _ _ Ee) as (_ & n & r & _ & _ & Hn & Hr & _ & Hip & _).
  rewrite Hk in Hn. destruct (agrees_lookup _ _ _ _ (rn_agrees _ _ Hrt) Hn) as (n' & Hn' & Hs).
  destruct (rn_tables _ _ Hrt k n (e_ipv4 e) r Hn Hip Hr) as (_ & gr & Hgr & _ & _). unfold routes_at in Hgr. rewrite Hn' in Hgr. simpl in Hgr.
  destruct (rn_router n') as [r'|] eqn:Hr'; [|done]. exists n', gr, r'. by rewrite <- (sn_ipv4 _ _ Hs).
Qed.
(** The link that a packet takes, and what is left of the way *)
Lemma next_hop k c : k <> t -> distance w k t c -> exists n ip r gr rt gr' d e j d' e',
  n_nodes w' !! k = Some n /\ rn_ipv4 n = Some ip /\ rn_router n = Some r /\ m_routingProtocol r = Some gr /\
  GlobalRouting.LookupGlobal dest None ip gr = Ok (Some rt, gr') /\ rt_dev rt = Some d /\ end_at w d = Some e /\
  across w' (Some d) = Ok (j, d') /\ link_dev w j d' /\ end_at w d' = Some e' /\
  distance w j t (c - e_metric e) /\ (Z.to_nat (c - e_metric e) < Z.to_nat c)%nat.
Proof using All.
  intros Hk Hc. destruct (lookup_nearer k c Hk Hc) as (n & ip & r & gr & Hn & Hip & Hr & Hgr & rt & gr' & d & e & e' & El & Erd & Hb & Hc').
  destruct (across_between _ _ _ _ Hb) as (d' & Ea & Hd' & Ee'). exists n, ip, r, gr, rt, gr', d, e, (e_node e'), d', e'.
  repeat split; try done; [apply Hb|apply Hc'..|]. pose proof (way_nonneg _ _ _ (proj1 Hc')). destruct Hb as (_ & _ & Hg & _).
  pose proof (ge_metric _ Hg). lia.
Qed.
Lemma carry_ok fuel : forall k d e c p h, link_dev w k d -> end_at w d = Some e -> distance w k t c -> (Z.to_nat c <= fuel)%nat ->
  GetDestination h = dest -> exists ds, carry fuel w' k d p h = Ok (Some (t, ds)) /\ cost_of w ds = c.
Proof using All.
  induction fuel as [fuel IH] using lt_wf_ind. intros k d e c p h Hd Ee Hc Hf Hh.
  destruct (decide (k = t)) as [Hk|Hk].
  - destruct (node_ready _ _ _ Hd Ee) as (n & gr & r & Hn & Hip & Hr & Hgr).
    destruct (RouteInput_arrives k d e p h gr Hd Ee Hh Hk) as (i & E). exists []. split; [|subst k; symmetry; by apply distance_here].
    destruct fuel; cbn [carry]; unfold node, ipv4_of; rewrite Hn; simpl; rewrite Hip; simpl; rewrite Hr; simpl; rewrite Hgr; simpl; rewrite E; by subst k.
  - destruct (next_hop k c Hk Hc) as (n & ip & r & gr & rt & gr' & d1 & e1 & j & d' & e' & Hn & Hip & Hr & Hgr & El & Erd & Ee1 & Ea & Hd' & Ee' & Hc' & Hlt).
    assert (ip = e_ipv4 e) as ->.
    { destruct (node_ready _ _ _ Hd Ee) as (n2 & _ & _ & Hn2 & Hip2 & _). congruence. }
    destruct fuel as [|fuel]; [lia|]. destruct (IH fuel ltac:(lia) j d' e' _ p h Hd' Ee' Hc' ltac:(lia) Hh) as (ds & Er & Ecost).
    exists (d1 :: ds). rewrite (cost_of_cons _ _ _ Ee1), Ecost. split; [|lia]. cbn [carry]. unfold node, ipv4_of.
    rewrite Hn. simpl. rewrite Hip. simpl. rewrite Hr. simpl. rewrite Hgr. simpl.
    rewrite (RouteInput_forwards k d e p h gr rt gr' Hd Ee Hh Hk El). simpl. rewrite Erd, Ea. simpl. by rewrite Er.
Qed.
Lemma send_ok fuel k c p h : k <> t -> distance w k t c -> (Z.to_nat c <= fuel)%nat -> GetDestination h = dest ->
  exists ds, send fuel w' k p h = Ok (Some (t, ds)) /\ cost_of w ds = c.
Proof using All.
  intros Hk Hc Hf Hh.
  destruct (next_hop k c Hk Hc) as (n & ip & r & gr & rt & gr' & d1 & e1 & j & d' & e' & Hn & Hip & Hr & Hgr & El & Erd & Ee1 & Ea & Hd' & Ee' & Hc' & Hlt).
  destruct (carry_ok fuel j d' e' _ p h Hd' Ee' Hc' ltac:(lia) Hh) as (ds & Er & Ecost).
  exists (d1 :: ds). rewrite (cost_of_cons _ _ _ Ee1), Ecost. split; [|lia]. unfold send, node, ipv4_of.
  rewrite Hn. simpl. rewrite Hip. simpl. rewrite Hr. simpl. rewrite Hgr. simpl. unfold GlobalRouting.RouteOutput.
  rewrite Hh, (ds_unicast _ _ _ Hdest), El. simpl. rewrite Erd, Ea. simpl. by rewrite Er.
Qed.
End forward.

Lemma distance_exists w k t c : p2p_net w -> way w k t c -> k <> t -> exists c', distance w k t c'.
Proof using.
  intros Hw Hway Hne.
  assert (forall j n, n_nodes w !! j = Some n -> exists x, id_of w j = Some x) as Hid.
  { intros j n Hn. destruct (pn_node _ Hw j n Hn) as (ip & r & gr & _ & Hr & _). unfold id_of. rewrite Hn. simpl. rewrite Hr. by eexists. }
  destruct (way_node _ _ _ _ Hway) as [|(n & Hn)]; [done|]. destruct (Hid _ _ Hn) as (x & Hx).
  assert (exists y, id_of w t = Some y) as (y & Hy).
  { destruct Hway as [|j c d e e' _ Hb]; [by exists x|]. destruct (between_id _ Hw _ _ _ _ Hb) as [_ Hy]. eauto. }
  pose proof (lsdb_router_db _ Hw) as Hdb.
  destruct (shortest_exists (links_of (full_lsdb w)) m_linkId m_metric (fun _ => (0, 0)) x) with
    (nodes := elements (dom (full_lsdb w))) (k := y) (d := c) as (c' & Hc').
  - intros z l Hl. apply (db_cost _ Hdb _ _ Hl).
  - intros z l _ Hl. apply elem_of_elements, elem_of_dom. apply (db_back _ Hdb _ _ Hl).
  - apply elem_of_elements, elem_of_dom. destruct (id_of_some _ _ _ Hx) as (n' & r & Hn' & Hr & <-).
    by rewrite (lsdb_at _ _ _ _ Hw Hn' Hr).
  - apply (path_way _ Hw k); [done|]. by exists t.
  - exists c'. by apply (distance_shortest _ Hw k t x y).
Qed.

(** Every packet from a node to an address of another one that it can reach is
    delivered there, and crosses links that cost the distance. *)
Definition delivers w w' : Prop := forall k t dt et c p h,
  link_dev w t dt -> end_at w dt = Some et -> destination_of w t (e_local et) -> k <> t -> way w k t c -> GetDestination h = e_local et ->
  exists c' ds, distance w k t c' /\ send (Z.to_nat c') w' k p h = Ok (Some (t, ds)) /\ cost_of w ds = c'.
Lemma routed_delivers w w' : p2p_net w -> routed_net w w' -> delivers w w'.
Proof using All.
  intros Hw Hrt k t dt et c p h Hdt Het Hdest Hk Hway Hh. destruct (distance_exists _ _ _ _ Hw Hway Hk) as (c' & Hc').
  destruct (send_ok w w' Hw Hrt t dt et Hdt Het Hdest (Z.to_nat c') k c' p h Hk Hc' ltac:(done) Hh) as (ds & Es & Ec).
  by exists c', ds.
Qed.

(** C9. Global routing takes packets along shortest paths: on a network of
    point-to-point links without routes, [PopulateRoutingTables] returns and leaves
    no vertex of its trees allocated, and afterwards a packet that any node sends
    to an address of another node it can reach is forwarded, by the routes of each
    router in turn, to that node, which delivers it; no way between the two nodes
    costs less than the links that the packet crossed. *)
Theorem packets_take_shortest_paths w systemId :
  p2p_net w -> one_system w systemId -> (forall k gr, routes_at w k = Some gr -> without_routes gr) ->
  exists s, PopulateRoutingTables systemId (new_manager w) = Ok (tt, s) /\ m_vertices s = ∅ /\ delivers w (m_net s).
Proof using All.
  intros Hw Hsys He. destruct (populate_routed w systemId (new_manager w) Hw Hsys He) as (s & E & Hv & Hrt); [done..|].
  exists s. split; [done|]. split; [done|]. by apply routed_delivers.
Qed.

(** C12. [RecomputeRoutingTables] leaves nothing of the past: whatever routes the
    nodes had, and whatever was in the database and in the last advertisements,
    the routes it leaves take packets along the shortest paths of the network as
    it is now. *)
Theorem recomputed_paths w systemId s :
  p2p_net w -> one_system w systemId -> countable w -> m_vertices s = ∅ -> m_net s = w ->
  exists s', RecomputeRoutingTables systemId s = Ok (tt, s') /\ m_vertices s' = ∅ /\ delivers w (m_net s').
Proof using All.
  intros Hw Hsys Hc Hv En. destruct (recompute_routed w systemId s Hw Hsys Hc Hv En) as (s' & E & Hv' & Hrt).
  exists s'. split; [done|]. split; [done|]. by apply routed_delivers.
Qed.

(** The interfaces of the routes of the node [k] for [dest] are those of the links
    with which a shortest way to the node [t] begins. *)
Definition exact_routes w w' (k t : nat) (c dest : Z) : Prop := exists n ip r gr es,
  n_nodes w' !! k = Some n /\ rn_ipv4 n = Some ip /\ rn_router n = Some r /\ m_routingProtocol r = Some gr /\
  GlobalRouting.all_routes dest None ip gr = Ok es /\
  forall i, (exists x, x ∈ es /\ m_interface x = i) <-> exists d e e', on_shortest w k t c d e e' /\ e_index e = i.
(** C10. The equal-cost routes are exact: after [PopulateRoutingTables], the routes
    that a node has for an address of another node leave by the interfaces of the
    links with which a shortest way there begins, and every such link has one. *)
Theorem equal_cost_routes w systemId :
  p2p_net w -> one_system w systemId -> (forall k gr, routes_at w k = Some gr -> without_routes gr) ->
  exists s, PopulateRoutingTables systemId (new_manager w) = Ok (tt, s) /\
  forall k t dt et c, link_dev w t dt -> end_at w dt = Some et -> k <> t -> distance w k t c -> exact_routes w (m_net s) k t c (e_local et).
Proof using.
  intros Hw Hsys He. destruct (populate_routed w systemId (new_manager w) Hw Hsys He) as (s & E & Hv & Hrt); [done..|].
  exists s. split; [done|]. intros k t dt et c Hdt Het Hk Hc.
  destruct (table_links w (m_net s) Hw Hrt t dt et Hdt Het k c Hk Hc) as (n & ip & r & gr & es & Hn & Hip & Hr & Hgr & Ees & _ & Hnear & Hall).
  exists n, ip, r, gr, es. do 5 (split; [done|]). intros i. split.
  - intros (x & Hx & <-). destruct (Hnear x Hx) as (d & e & e' & Hon & _ & ->). by exists d, e, e'.
  - intros (d & e & e' & Hon & <-). by apply (Hall d e e').
Qed.
End travel.

(** C11. [SPFCalculate], on the heap, is the calculation on values: for any database
    of routers (links lead to routers of the database, which have a link back, at
    a cost from 1 to 65535), it returns, the routes of the root's node become those
    of the exact tree of shortest paths, every vertex it allocated has been
    released, and only the marks of the database have changed. *)
Theorem SPFCalculate_refines {R} `{Allocator} (s : manager R) rid k n r ip gr a :
  index_of (is_router rid) (n_nodes (m_net s)) 0 = Some k -> n_nodes (m_net s) !! k = Some n ->
  rn_router n = Some r -> rn_ipv4 n = Some ip -> m_routingProtocol r = Some gr ->
  m_vertices s = ∅ -> m_extdatabase s = [] -> router_db (unexplored (m_database s)) ->
  unexplored (m_database s) !! rid = Some a -> m_node_id a = Z.of_nat k ->
  exists s' gr', SPFCalculate rid s = Ok (tt, s') /\ tables rid ip (unexplored (m_database s)) gr gr' /\
    m_net s' = with_routes (m_net s) k n r gr' /\ m_vertices s' = ∅ /\ unexplored (m_database s') = unexplored (m_database s).
Proof.
  intros Hk Hn Hr Hip Hgr Hv He Hdb Ha Hnode.
  destruct (SPFCalculate_ok (m_net s) rid k n r ip Hk Hn Hr Hip _ Hdb s gr a eq_refl Hgr Hv He eq_refl Ha Hnode)
    as (s' & gr' & E & Ht & En & Ev & _ & Ed).
  by exists s', gr'.
Qed.

(** ** A triangle

    Three routers; the direct link from the first to the last costs more than the
    way through the second. *)

Definition max_key (h : gmap Z SPFVertex) : Z := map_fold (fun k _ m => Z.max k m) 0 h.
Lemma max_key_bound h : 0 <= max_key h /\ forall k, is_Some (h !! k) -> k <= max_key h.
Proof.
  unfold max_key. apply (map_fold_weak_ind (fun m h => 0 <= m /\ forall k, is_Some (h !! k) -> k <= m)).
  - split; [done|]. intros k. rewrite lookup_empty. by intros [? ?].
  - intros k x h' m _ [IH1 IH2]. split; [lia|]. intros j. destruct (decide (j = k)) as [->|Hne]; [lia|].
    rewrite lookup_insert_ne by done. intros Hj. specialize (IH2 j Hj). lia.
Qed.
(** Addresses that grow *)
#[export] Program Instance bump_allocator : Allocator := {| fresh h := max_key h + 1 |}.
Next Obligation.
  intros h. destruct (h !! (max_key h + 1)) eqn:E; [|done]. destruct (max_key_bound h) as [_ Hb].
  specialize (Hb (max_key h + 1) ltac:(by rewrite E)). lia.
Qed.
Next Obligation. intros h. pose proof (max_key_bound h). lia. Qed.
(** The number drawn is the least. *)
#[export] Instance least_random : UniformRandom unit := fun lo _ g => (lo, g).

Lemma least_draws lo hi (g : unit) : lo <= hi -> lo <= (GlobalRouting.GetInteger lo hi g).1 <= hi.
Proof. unfold GlobalRouting.GetInteger, least_random. simpl. lia. Qed.

Section triangle.
(** The routes that every node has before *)
Variable gr : Ipv4GlobalRouting unit.

(** The interface of the device [d], with the address [a]/24 *)
Definition tri_if (d a metric : Z) : Ipv4Interface := mkIf true true metric [new_address a 0xffffff00] (Some 0) (Some d) false None.
(** The [k]-th node: a loopback device and its ends of two links *)
Definition tri_node (k : Z) (d1 a1 m1 d2 a2 m2 : Z) : rnode unit :=
  mkRnode 0 [20 + k; d1; d2]
    (Some (mkIpv4 [mkIf true true 1 [new_address 0x7f000001 0xff000000] (Some k) (Some (20 + k)) false None; tri_if d1 a1 m1; tri_if d2 a2 m2]
      {[20 + k := 0; d1 := 1; d2 := 2]} true true))
    (Some (mkRouter k [] [] (Some gr))).
Definition tri_device (k : nat) (c : Z) : NetDevice := mkDevice k (Some c) true true false None.
Definition tri_loopback (k : nat) : NetDevice := mkDevice k None false false true None.
Definition triangle : net unit :=
  mkNet {[10 := tri_device 0 100; 11 := tri_device 1 100; 12 := tri_device 1 101; 13 := tri_device 2 101;
          14 := tri_device 0 102; 15 := tri_device 2 102; 20 := tri_loopback 0; 21 := tri_loopback 1; 22 := tri_loopback 2]}
        {[100 := [10; 11]; 101 := [12; 13]; 102 := [14; 15]]}
        [tri_node 0 10 0x0a000101 1 14 0x0a000301 3; tri_node 1 11 0x0a000102 1 12 0x0a000201 1; tri_node 2 13 0x0a000202 1 15 0x0a000302 3].

Definition tri_ends : list (nat * Z) := [(0%nat, 10); (0%nat, 14); (1%nat, 11); (1%nat, 12); (2%nat, 13); (2%nat, 15)].
Lemma tri_link k d : link_dev triangle k d -> (k, d) ∈ tri_ends.
Proof.
  intros (n & nd & Hn & Hd & Hnd & Hlo). destruct k as [|[|[|k]]]; [injection Hn as <-..|discriminate Hn].
  all: repeat (apply elem_of_cons in Hd as [->|Hd]); try by apply elem_of_nil in Hd.
  all: try (vm_compute in Hnd; injection Hnd as <-; done).
  all: unfold tri_ends; set_solver.
Qed.
Ltac tri_cases H :=
  apply tri_link in H; unfold tri_ends in H; repeat (apply elem_of_cons in H as [[= -> ->]|H]); [..|by apply elem_of_nil in H].
Lemma tri_nodes k n : n_nodes triangle !! k = Some n -> (k < 3)%nat.
Proof. intros Hn. by apply lookup_lt_Some in Hn. Qed.

Lemma triangle_p2p : p2p_net triangle.
Proof.
  split.
  - intros k n Hn. destruct k as [|[|[|k]]]; [injection Hn as <-..|discriminate Hn]; eexists _, _, _; done.
  - intros k k' n n' r r' Hn Hn' Hr Hr' E.
    destruct k as [|[|[|k]]], k' as [|[|[|k']]]; simplify_eq/=; done.
  - intros k n d Hn Hd. destruct k as [|[|[|k]]]; [injection Hn as <-..|discriminate Hn];
    repeat (apply elem_of_cons in Hd as [->|Hd]); try (by apply elem_of_nil in Hd); eexists; by split; [reflexivity|].
  - intros k d Hd.
    assert (forall j x, (j, x) ∈ tri_ends -> link_dev triangle j x) as Hback.
    { intros j x Hx. unfold tri_ends in Hx. repeat (apply elem_of_cons in Hx as [[= -> ->]|Hx]); [..|by apply elem_of_nil in Hx].
      all: eexists _, _; split; [reflexivity|]; split; [set_solver|]; split; [reflexivity|done]. }
    tri_cases Hd; eexists _, _, _; (split; [reflexivity|]); (split; [by split; vm_compute|]); (split; [reflexivity|]);
      (split; [reflexivity|]); (split; [apply Hback; vm_compute; set_solver|reflexivity]).
  - intros k d e k' n' r' Hd Ee Hn' Hr'. tri_cases Hd; vm_compute in Ee; injection Ee as <-;
      (destruct k' as [|[|[|k']]]; [injection Hn' as <-..|discriminate Hn']); injection Hr' as <-; done.
  - intros k k' d d' e e' Hd Hd' Ee Ee' E. tri_cases Hd; vm_compute in Ee; injection Ee as <-;
      tri_cases Hd'; vm_compute in Ee'; injection Ee' as <-; done.
  - done.
Qed.

Definition tri_packet : tagged := mkTagged (Packet.mkPacket 0 []) None.
Definition tri_header : Ipv4Header := Ipv4Header.SetDestination 0x0a000302 Ipv4Header.new_Ipv4Header.
Lemma tri_end k d : link_dev triangle k d -> exists e, end_at triangle d = Some e.
Proof. intros Hd. destruct (pn_link _ triangle_p2p k d Hd) as (e & _ & _ & Ee & _). by exists e. Qed.
Lemma tri_destination : destination_of triangle 2 0x0a000302.
Proof.
  split; [..|done].
  - intros k d e Hd Ee. tri_cases Hd; vm_compute in Ee; by injection Ee as <-.
  - intros k d e Hd Ee. tri_cases Hd; vm_compute in Ee; by injection Ee as <-.
Qed.
Lemma tri_last : link_dev triangle 2 15.
Proof. eexists _, _. split; [reflexivity|]. split; [set_solver|]. split; [reflexivity|done]. Qed.
Lemma tri_way : exists c, way triangle 0 2 c.
Proof.
  assert (link_dev triangle 0 14) as Hd.
  { eexists _, _. split; [reflexivity|]. split; [set_solver|]. split; [reflexivity|done]. }
  destruct (pn_between _ _ _ triangle_p2p Hd) as (e & e' & Hb). exists (0 + e_metric e).
  assert (e_node e' = 2%nat) as <-; [|eapply way_link; [apply way_here|done]].
  destruct Hb as (_ & _ & _ & d' & Hp & Ee' & _). vm_compute in Hp. injection Hp as <-. vm_compute in Ee'. by injection Ee' as <-.
Qed.
(** The packet that the first router sends to the last one *)
Definition tri_delivered (w' : net unit) : Prop := exists c ds,
  distance triangle 0 2 c /\ send (Z.to_nat c) w' 0 tri_packet tri_header = Ok (Some (2%nat, ds)) /\ cost_of triangle ds = c.
Lemma tri_delivers w' : delivers triangle w' -> tri_delivered w'.
Proof.
  intros Hsend. destruct tri_way as (c & Hway). destruct (tri_end _ _ tri_last) as (e & Ee).
  assert (e_local e = 0x0a000302) as El by (vm_compute in Ee; injection Ee as <-; reflexivity).
  destruct (Hsend 0%nat 2%nat 15 e c tri_packet tri_header) as (c' & ds & Hc & Es & Ecost);
    [apply tri_last|exact Ee|rewrite El; apply tri_destination|lia|exact Hway|rewrite El; reflexivity|].
  exists c', ds. split; [exact Hc|]. split; [exact Es|exact Ecost].
Qed.
Lemma tri_system : one_system triangle 0.
Proof. intros k n Hn. destruct k as [|[|[|k]]]; [injection Hn as <-; done..|discriminate Hn]. Qed.
End triangle.

Definition fresh_triangle : net unit := triangle (GlobalRouting.new_global tt).
(** A triangle with a route that leads nowhere *)
Definition stale_triangle : net unit := triangle (GlobalRouting.AddHostRouteTo 0x0a000302 0 0 (GlobalRouting.new_global tt)).
Lemma packets_take_shortest_paths_witness : exists s,
  PopulateRoutingTables 0 (new_manager fresh_triangle) = Ok (tt, s) /\ m_vertices s = ∅ /\ tri_delivered (GlobalRouting.new_global tt) (m_net s).
Proof.
  destruct (packets_take_shortest_paths least_draws fresh_triangle 0) as (s & E & Hv & Hsend).
  - apply triangle_p2p.
  - apply tri_system.
  - intros k gr E. destruct k as [|[|[|k]]]; [injection E as <-; done..|discriminate E].
  - exists s. split; [exact E|]. split; [exact Hv|]. by apply tri_delivers.
Defined.
Lemma equal_cost_routes_witness : exists s c, PopulateRoutingTables 0 (new_manager fresh_triangle) = Ok (tt, s) /\
  exact_routes fresh_triangle (m_net s) 0 2 c 0x0a000302.
Proof.
  destruct (equal_cost_routes fresh_triangle 0) as (s & E & Hex).
  - apply triangle_p2p.
  - apply tri_system.
  - intros k gr E. destruct k as [|[|[|k]]]; [injection E as <-; done..|discriminate E].
  - destruct (tri_way (GlobalRouting.new_global tt)) as (c0 & Hway).
    destruct (distance_exists fresh_triangle 0 2 c0) as (c & Hc); [apply triangle_p2p|exact Hway|lia|].
    destruct (tri_end _ _ _ (tri_last (GlobalRouting.new_global tt))) as (e & Ee).
    assert (e_local e = 0x0a000302) as <- by (vm_compute in Ee; injection Ee as <-; reflexivity).
    exists s, c. split; [exact E|]. apply (Hex 0%nat 2%nat 15 e c); [apply tri_last|exact Ee|lia|exact Hc].
Defined.
(** The calculation for the second router, with the database of the triangle *)
Definition tri_manager : manager unit := set_database (lsdb fresh_triangle 3) (new_manager fresh_triangle).
Definition tri_second : rnode unit := tri_node (GlobalRouting.new_global tt) 1 11 0x0a000102 1 12 0x0a000201 1.
Lemma SPFCalculate_refines_witness : exists r ip s' gr', SPFCalculate 1 tri_manager = Ok (tt, s') /\
  tables 1 ip (lsdb fresh_triangle 3) (GlobalRouting.new_global tt) gr' /\
  m_net s' = with_routes fresh_triangle 1 tri_second r gr' /\ m_vertices s' = ∅ /\ unexplored (m_database s') = lsdb fresh_triangle 3.
Proof.
  assert (p2p_net fresh_triangle) as Hw by apply triangle_p2p.
  assert (unexplored (m_database tri_manager) = lsdb fresh_triangle 3) as Edb by apply lsdb_unexplored.
  destruct (pn_node _ Hw 1%nat tri_second eq_refl) as (ip & r & gr & Hip & Hr & _).
  destruct (SPFCalculate_refines tri_manager 1 1%nat tri_second r ip (GlobalRouting.new_global tt)
    (advertised fresh_triangle 1 tri_second r)) as (s' & gr' & E & Ht & En & Ev & Ed); try reflexivity; try assumption.
  - injection Hr as <-. reflexivity.
  - rewrite Edb. by apply lsdb_router_db.
  - rewrite Edb. pose proof (lsdb_at fresh_triangle 1 tri_second r Hw eq_refl Hr) as El. injection Hr as <-. exact El.
  - rewrite Edb in Ht, Ed. exists r, ip, s', gr'. split; [exact E|]. split; [exact Ht|]. split; [exact En|]. split; [exact Ev|exact Ed].
Defined.
Lemma recomputed_paths_witness : exists s, RecomputeRoutingTables 0 (new_manager stale_triangle) = Ok (tt, s) /\ m_vertices s = ∅ /\ tri_delivered (GlobalRouting.AddHostRouteTo 0x0a000302 0 0 (GlobalRouting.new_global tt)) (m_net s).
Proof.
  destruct (recomputed_paths least_draws stale_triangle 0 (new_manager stale_triangle)) as (s & E & Hv & Hsend).
  - apply triangle_p2p.
  - apply tri_system.
  - intros k gr E. destruct k as [|[|[|k]]]; [injection E as <-; done..|discriminate E].
  - done.
  - done.
  - exists s. split; [exact E|]. split; [exact Hv|]. by apply tri_delivers.
Defined.
(** The packet goes through the second router. *)
Example tri_route : (s ← PopulateRoutingTables 0 (new_manager fresh_triangle); send 2 (m_net s.2) 0 tri_packet tri_header) = Ok (Some (2%nat, [10; 12])).
Proof. vm_compute. reflexivity. Qed.
