(* ===== verification/RlRouting.v ===== *)
(** * The load balancer's routing protocol ([src/internet/model/aarl-ipv4-routing.cpp])

    [Ipv4RlRouting] holds a copy of the global host and network routes and, when
    several routes match, is meant to choose one by the distribution that the
    learning agent sets. *)

From S2P Require Import Prelude Bytes Packet Ipv4Ifaces Routing.
From S2P Require Ipv4Address Ipv4Header.
From S2P Require Import GlobalRouting.
From S2P Require StaticRouting.
Import Ipv4Header (Ipv4Header).

(** [GetIfIndex] and [GetNode ()->GetId ()] of a device handle. *)
Class DeviceIds := { dev_GetIfIndex : Z -> Z; dev_GetNodeId : Z -> Z }.

Section rl.
(** [float]: the weights are stored and counted, never computed with. *)
Context {W : Type} `{DeviceIds}.

Record Ipv4RlRouting := mkRl {
  m_ipv4 : bool;
  m_hostRoutes : list Ipv4RoutingTableEntry;
  m_networkRoutes : list Ipv4RoutingTableEntry;
  m_distribution : list W;
  stats : list Z }.

Definition new_rl : Ipv4RlRouting := mkRl false [] [] [] [0; 0].

(** [m_distribution.probabilities ().size ()]: a [std::discrete_distribution]
    made from fewer than two weights has one probability. *)
Definition n_probabilities (s : Ipv4RlRouting) : Z :=
  match m_distribution s with [] | [_] => 1 | l => Z.of_nat (length l) end.

Definition SetDistribution (dist : list W) (s : Ipv4RlRouting) : bool * Ipv4RlRouting :=
  (true, mkRl (m_ipv4 s) (m_hostRoutes s) (m_networkRoutes s) dist (stats s)).
Definition set_stats (l : list Z) (s : Ipv4RlRouting) : Ipv4RlRouting :=
  mkRl (m_ipv4 s) (m_hostRoutes s) (m_networkRoutes s) (m_distribution s) l.
Definition resetStats (s : Ipv4RlRouting) : Ipv4RlRouting := set_stats (<[0%nat := 0]> (<[1%nat := 0]> (stats s))) s.
Definition getStats (s : Ipv4RlRouting) : list Z := stats s.

(** Copies of the routes are appended; the metric and external routes are not copied. *)
Definition copy_host (r : Ipv4RoutingTableEntry) : Ipv4RoutingTableEntry :=
  CreateHostRouteTo (GetDest r) (GetGateway r) (GetInterface r).
Definition copy_network (r : Ipv4RoutingTableEntry) : Ipv4RoutingTableEntry :=
  CreateNetworkRouteTo (GetDestNetwork r) (GetDestNetworkMask r) (GetGateway r) (GetInterface r).
Definition init_routes (host_routes network_routes : list Ipv4RoutingTableEntry) (s : Ipv4RlRouting) : Ipv4RlRouting :=
  mkRl true (m_hostRoutes s ++ (copy_host <$> host_routes)) (m_networkRoutes s ++ (copy_network <$> network_routes))
    (m_distribution s) (stats s).

(** Every matching route, the network ones only when no host route matches. *)
Definition rl_routes (dest : Z) (oif : option Z) (ipv4 : Ipv4) (s : Ipv4RlRouting) :
    res (list Ipv4RoutingTableEntry) :=
  hosts ← collect (GlobalRouting.host_test dest) oif ipv4 (m_hostRoutes s);
  match hosts with
  | [] => collect (fun r => mret (matches dest r)) oif ipv4 (m_networkRoutes s)
  | _ => mret hosts
  end.

Fixpoint make_routes (ipv4 : Ipv4) (l : list Ipv4RoutingTableEntry) : res (list Ipv4Route) :=
  match l with
  | [] => mret []
  | r :: l' => rt ← GlobalRouting.make_route ipv4 r; rest ← make_routes ipv4 l'; mret (rt :: rest)
  end.

Definition Lookup (dest : Z) (oif : option Z) (ipv4 : Ipv4) (s : Ipv4RlRouting) : res (list Ipv4Route) :=
  allRoutes ← rl_routes dest oif ipv4 s; make_routes ipv4 allRoutes.

Definition RouteOutput (ipv4 : Ipv4) (header : Ipv4Header) (oif : option Z) (s : Ipv4RlRouting) :
    res (option Ipv4Route * option SocketErrno * Ipv4RlRouting) := mret (None, None, s).

(** The choice among several candidates: the index is the constant 0, the
    packet is tagged with the leaf and the interface, and the function goes on
    to its final [return false]. *)
Definition balance (candidates : list Ipv4Route) (p : tagged) (header : Ipv4Header) (s : Ipv4RlRouting) :
    routed Ipv4RlRouting :=
  _ ← ns_assert (Z.of_nat (length candidates) =? n_probabilities s);
  let index := 0%nat in
  n ← deref (stats s !! index);
  let s' := set_stats (<[index := u64 (n + 1)]> (stats s)) s in
  outputRoute ← deref (candidates !! index);
  dev ← deref (rt_dev outputRoute);
  p' ← AddPacketTag (dev_GetNodeId dev) (dev_GetIfIndex dev) p;
  mret (false, [CallForward outputRoute p' header], p', s').

Definition RouteInput (ipv4 : Ipv4) (p : tagged) (header : Ipv4Header) (idev : option Z) (lcb : bool)
    (s : Ipv4RlRouting) : routed Ipv4RlRouting :=
  _ ← deref (if m_ipv4 s then Some tt else None);
  iif ← input_interface ipv4 idev;
  let destAddress := Ipv4Header.GetDestination header in
  if Ipv4Address.IsMulticast destAddress || Ipv4Address.IsBroadcast destAddress then
    mret (false, [CallError p header ERROR_NOROUTETOHOST], p, s) else
  fwd ← IsForwarding iif ipv4;
  if negb (fwd : bool) then mret (false, [CallError p header ERROR_NOROUTETOHOST], p, s) else
  local ← IsDestinationAddress destAddress iif ipv4;
  if (local : bool) then
    if lcb then mret (true, [CallLocalDeliver p header iif], p, s) else mret (false, [], p, s)
  else
  candidates ← Lookup destAddress None ipv4 s;
  match candidates with
  | [] => mret (false, [], p, s)
  | [rt] => mret (true, [CallForward rt p header], p, s)
  | _ => balance candidates p header s
  end.

(** The notifications and [SetIpv4] do nothing. *)
#[export] Instance rl_protocol : RoutingProtocol Ipv4RlRouting := {|
  rp_RouteOutput := RouteOutput; rp_RouteInput := RouteInput;
  rp_NotifyInterfaceUp := fun _ _ s => mret s; rp_NotifyInterfaceDown := fun _ _ s => mret s;
  rp_NotifyAddAddress := fun _ _ _ s => mret s; rp_NotifyRemoveAddress := fun _ _ _ s => mret s;
  rp_SetIpv4 := fun _ s => mret s; rp_DoDispose := fun s => s |}.
End rl.
Arguments Ipv4RlRouting W : clear implicits.

(** * The routing protocols of a leaf switch

    The protocols of a leaf, in the order [InitRLRouting]
    ([scratch/loadbalancer/topology-builder.h]) consults them: the load balancer,
    static routing, global routing.  [protocol] stands for a pointer to any of
    them, as the list routing of the leaf holds it. *)

Section leaf.
Context {R W : Type} `{UniformRandom R} `{DeviceIds} (now : Z).

(** [Ptr<Ipv4RoutingProtocol>]: one of the protocols of a leaf *)
Inductive protocol :=
| PRl (s : Ipv4RlRouting W)
| PStatic (s : StaticRouting.Ipv4StaticRouting)
| PGlobal (s : Ipv4GlobalRouting R).

(** Runs a method of the protocol that is there. *)
Definition on_protocol {A} (rl : Ipv4RlRouting W -> res (A * Ipv4RlRouting W))
    (st : StaticRouting.Ipv4StaticRouting -> res (A * StaticRouting.Ipv4StaticRouting))
    (gl : Ipv4GlobalRouting R -> res (A * Ipv4GlobalRouting R)) (p : protocol) : res (A * protocol) :=
  match p with
  | PRl s => '(a, s') ← rl s; mret (a, PRl s')
  | PStatic s => '(a, s') ← st s; mret (a, PStatic s')
  | PGlobal s => '(a, s') ← gl s; mret (a, PGlobal s')
  end.

Definition update_protocol (rl : Ipv4RlRouting W -> res (Ipv4RlRouting W))
    (st : StaticRouting.Ipv4StaticRouting -> res StaticRouting.Ipv4StaticRouting)
    (gl : Ipv4GlobalRouting R -> res (Ipv4GlobalRouting R)) (p : protocol) : res protocol :=
  match p with
  | PRl s => s' ← rl s; mret (PRl s')
  | PStatic s => s' ← st s; mret (PStatic s')
  | PGlobal s => s' ← gl s; mret (PGlobal s')
  end.

#[export] Instance leaf_protocol : RoutingProtocol protocol := {|
  rp_RouteOutput ipv4 h oif :=
    on_protocol (RlRouting.RouteOutput ipv4 h oif) (StaticRouting.RouteOutput ipv4 h oif)
      (GlobalRouting.RouteOutput ipv4 h oif);
  rp_RouteInput ipv4 p h idev lcb :=
    on_protocol (RlRouting.RouteInput ipv4 p h idev lcb) (StaticRouting.RouteInput ipv4 p h idev lcb)
      (GlobalRouting.RouteInput ipv4 p h idev lcb);
  rp_NotifyInterfaceUp ipv4 i :=
    update_protocol mret (StaticRouting.NotifyInterfaceUp ipv4 i) (fun s => mret (NotifyInterfaceUp now i s));
  rp_NotifyInterfaceDown ipv4 i :=
    update_protocol mret (StaticRouting.NotifyInterfaceDown ipv4 i) (fun s => mret (NotifyInterfaceDown now i s));
  rp_NotifyAddAddress ipv4 i a :=
    update_protocol mret (StaticRouting.NotifyAddAddress ipv4 i a) (fun s => mret (NotifyAddAddress now i a s));
  rp_NotifyRemoveAddress ipv4 i a :=
    update_protocol mret (StaticRouting.NotifyRemoveAddress ipv4 i a) (fun s => mret (NotifyRemoveAddress now i a s));
  rp_SetIpv4 ipv4 := update_protocol mret (StaticRouting.SetIpv4 ipv4) SetIpv4;
  rp_DoDispose p :=
    match p with
    | PRl s => PRl s
    | PStatic s => PStatic (StaticRouting.DoDispose s)
    | PGlobal s => PGlobal (DoDispose s)
    end |}.

End leaf.
Arguments protocol R W : clear implicits.
