(* ===== verification/ListRouting.v ===== *)
(** * List routing ([src/internet/model/ipv4-list-routing.cc])

    A list of protocols ordered by decreasing priority: each call is offered to
    the protocols in turn until one accepts it.  Then the contracts of routing
    protocols, which the list keeps when its members do. *)

From S2P Require Import Prelude Bytes Packet Ipv4Ifaces Routing.
From S2P Require Ipv4Address Ipv4Header StaticRouting GlobalRouting RlRouting.
Import Ipv4Header (Ipv4Header).

Section list_routing.
Context {RP : Type} `{RoutingProtocol RP}.

Record Ipv4ListRouting := mkList {
  m_routingProtocols : list (Z * RP);
  m_ipv4 : bool }.

Definition new_list : Ipv4ListRouting := mkList [] false.

Definition Compare (a b : Z * RP) : bool := b.1 <? a.1.

(** [std::list::sort (Compare)]: a stable sort. *)
Fixpoint sort_insert (x : Z * RP) (l : list (Z * RP)) : list (Z * RP) :=
  match l with
  | [] => [x]
  | y :: l' => if Compare y x then y :: sort_insert x l' else x :: l
  end.
Definition sort (l : list (Z * RP)) : list (Z * RP) := foldr sort_insert [] l.

Definition AddRoutingProtocol (ipv4 : Ipv4) (rp : RP) (priority : Z) (s : Ipv4ListRouting) : res Ipv4ListRouting :=
  rp' ← (if m_ipv4 s then rp_SetIpv4 ipv4 rp else mret rp);
  mret (mkList (sort (m_routingProtocols s ++ [(priority, rp')])) (m_ipv4 s)).

Definition GetNRoutingProtocols (s : Ipv4ListRouting) : Z := Z.of_nat (length (m_routingProtocols s)).
(** Only an index above the size is fatal: the size itself gives a null protocol. *)
Definition GetRoutingProtocol (index : Z) (s : Ipv4ListRouting) : res (option (Z * RP)) :=
  if Z.of_nat (length (m_routingProtocols s)) <? index then Err FatalError
  else mret (m_routingProtocols s !! Z.to_nat index).

Definition DoDispose (s : Ipv4ListRouting) : Ipv4ListRouting := mkList [] false.

(** ** Routing *)

Fixpoint output_loop (ipv4 : Ipv4) (header : Ipv4Header) (oif : option Z) (l : list (Z * RP)) :
    res (option Ipv4Route * list (Z * RP)) :=
  match l with
  | [] => mret (None, [])
  | (prio, rp) :: l' =>
      '(route, _, rp') ← rp_RouteOutput ipv4 header oif rp;
      match route with
      | Some rt => mret (Some rt, (prio, rp') :: l')
      | None => '(rt, rest) ← output_loop ipv4 header oif l'; mret (rt, (prio, rp') :: rest)
      end
  end.

Definition RouteOutput (ipv4 : Ipv4) (header : Ipv4Header) (oif : option Z) (s : Ipv4ListRouting) :
    res (option Ipv4Route * option SocketErrno * Ipv4ListRouting) :=
  '(route, l) ← output_loop ipv4 header oif (m_routingProtocols s);
  mret (route, Some (match route with Some _ => ERROR_NOTERROR | None => ERROR_NOROUTETOHOST end),
        mkList l (m_ipv4 s)).

(** The protocols are tried in turn on the same packet. *)
Fixpoint input_loop (ipv4 : Ipv4) (p : tagged) (header : Ipv4Header) (idev : option Z) (lcb : bool)
    (l : list (Z * RP)) : routed (list (Z * RP)) :=
  match l with
  | [] => mret (false, [], p, [])
  | (prio, rp) :: l' =>
      '(accepted, calls, p1, rp') ← rp_RouteInput ipv4 p header idev lcb rp;
      if (accepted : bool) then mret (true, calls, p1, (prio, rp') :: l')
      else
        '(accepted, rest, p2, l'') ← input_loop ipv4 p1 header idev lcb l';
        mret (accepted, calls ++ rest, p2, (prio, rp') :: l'')
  end.

(** Calling the local delivery callback, which must not be null. *)
Definition call_lcb (lcb : bool) (p : tagged) (header : Ipv4Header) (iif : Z) : res (list rcall) :=
  if lcb then mret [CallLocalDeliver p header iif] else Err UndefinedBehaviour.

Definition RouteInput (ipv4 : Ipv4) (p : tagged) (header : Ipv4Header) (idev : option Z) (lcb : bool)
    (s : Ipv4ListRouting) : routed Ipv4ListRouting :=
  _ ← ns_assert (m_ipv4 s);
  iif ← input_interface ipv4 idev;
  let dest := Ipv4Header.GetDestination header in
  local ← IsDestinationAddress dest iif ipv4;
  let multicast := Ipv4Address.IsMulticast dest in
  delivered ← (if (local : bool) then call_lcb lcb p header iif else mret []);
  if local && negb multicast then mret (true, delivered, p, s) else
  fwd ← IsForwarding iif ipv4;
  if negb (fwd : bool) then mret (true, delivered ++ [CallError p header ERROR_NOROUTETOHOST], p, s) else
  '(accepted, calls, p', l) ← input_loop ipv4 p header idev (lcb && negb local) (m_routingProtocols s);
  mret (accepted || local, delivered ++ calls, p', mkList l (m_ipv4 s)).

(** ** Notifications: every protocol, in order *)

Fixpoint notify_each (f : RP -> res RP) (l : list (Z * RP)) : res (list (Z * RP)) :=
  match l with
  | [] => mret []
  | (prio, rp) :: l' => rp' ← f rp; rest ← notify_each f l'; mret ((prio, rp') :: rest)
  end.
Definition notify (f : RP -> res RP) (s : Ipv4ListRouting) : res Ipv4ListRouting :=
  l ← notify_each f (m_routingProtocols s); mret (mkList l (m_ipv4 s)).

Definition NotifyInterfaceUp (ipv4 : Ipv4) (i : Z) : Ipv4ListRouting -> res Ipv4ListRouting :=
  notify (rp_NotifyInterfaceUp ipv4 i).
Definition NotifyInterfaceDown (ipv4 : Ipv4) (i : Z) : Ipv4ListRouting -> res Ipv4ListRouting :=
  notify (rp_NotifyInterfaceDown ipv4 i).
Definition NotifyAddAddress (ipv4 : Ipv4) (i : Z) (a : Ipv4InterfaceAddress) : Ipv4ListRouting -> res Ipv4ListRouting :=
  notify (rp_NotifyAddAddress ipv4 i a).
Definition NotifyRemoveAddress (ipv4 : Ipv4) (i : Z) (a : Ipv4InterfaceAddress) :
    Ipv4ListRouting -> res Ipv4ListRouting :=
  notify (rp_NotifyRemoveAddress ipv4 i a).

Definition SetIpv4 (ipv4 : Ipv4) (s : Ipv4ListRouting) : res Ipv4ListRouting :=
  _ ← ns_assert (negb (m_ipv4 s));
  l ← notify_each (rp_SetIpv4 ipv4) (m_routingProtocols s);
  mret (mkList l true).

#[export] Instance list_protocol : RoutingProtocol Ipv4ListRouting := {|
  rp_RouteOutput := RouteOutput; rp_RouteInput := RouteInput;
  rp_NotifyInterfaceUp := NotifyInterfaceUp; rp_NotifyInterfaceDown := NotifyInterfaceDown;
  rp_NotifyAddAddress := NotifyAddAddress; rp_NotifyRemoveAddress := NotifyRemoveAddress;
  rp_SetIpv4 := SetIpv4; rp_DoDispose := DoDispose |}.
End list_routing.
Arguments Ipv4ListRouting RP : clear implicits.

(** ** What routing protocols promise, and what the load balancer breaks

    [RoutingProtocolLaws]: a protocol that accepts a packet disposes of it by
    exactly one callback; one that does not accept it makes none.  Static and
    global routing keep this promise; a list of such protocols keeps it for
    unicast packets; [Ipv4RlRouting] does not. *)

(** A callback for this packet and header. *)
Definition call_about (p : tagged) (h : Ipv4Header) (c : rcall) : Prop :=
  match c with
  | CallForward _ q h' | CallLocalDeliver q h' _ | CallError q h' _ => q = p /\ h' = h
  | CallMulticastForward _ q h' => q = p /\ h' = h /\ Ipv4Address.IsMulticast (Ipv4Header.GetDestination h) = true
  end.

(** One callback when the packet was accepted, none otherwise. *)
Definition disposed (p : tagged) (h : Ipv4Header) (accepted : bool) (calls : list rcall) : Prop :=
  (if accepted then length calls = 1%nat else calls = []) /\ Forall (call_about p h) calls.

Class RoutingProtocolLaws (RP : Type) `{RoutingProtocol RP} :=
  law_disposed ipv4 p h idev lcb rp b calls p' rp' :
    rp_RouteInput ipv4 p h idev lcb rp = Ok (b, calls, p', rp') -> p' = p /\ disposed p h b calls.

(** The same for unicast packets only. *)
Class UnicastLaws (RP : Type) `{RoutingProtocol RP} :=
  law_unicast ipv4 p h idev lcb rp b calls p' rp' :
    Ipv4Address.IsMulticast (Ipv4Header.GetDestination h) = false ->
    rp_RouteInput ipv4 p h idev lcb rp = Ok (b, calls, p', rp') -> p' = p /\ disposed p h b calls.

#[export] Instance laws_unicast {RP} `{RoutingProtocolLaws RP} : UnicastLaws RP.
Proof. intros ipv4 p h idev lcb rp b calls p' rp' _. apply law_disposed. Qed.

(** Much weaker: a unicast packet is not forwarded by multicast.  Every routing
    protocol keeps this, [Ipv4RlRouting] too. *)
Definition unicast_call (c : rcall) : Prop :=
  match c with CallMulticastForward _ _ _ => False | _ => True end.
Class UnicastOnly (RP : Type) `{RoutingProtocol RP} :=
  law_unicast_only ipv4 p h idev lcb rp b calls p' rp' :
    Ipv4Address.IsMulticast (Ipv4Header.GetDestination h) = false ->
    rp_RouteInput ipv4 p h idev lcb rp = Ok (b, calls, p', rp') -> Forall unicast_call calls.

#[export] Instance laws_unicast_only {RP} `{UnicastLaws RP} : UnicastOnly RP.
Proof.
  intros ipv4 p h idev lcb rp b calls p' rp' Hm E. apply law_unicast in E as [_ [_ Hc]]; [|done].
  eapply Forall_impl; [exact Hc|]. intros []; simpl; [done| |done..]. intros (_ & _ & ?). congruence.
Qed.

(** Peels the guards of a [RouteInput]. *)
Ltac route_cases H :=
  repeat match type of H with
  | _ ≫= _ = Ok _ => let x := fresh "x" in let E := fresh "E" in
      apply bind_ok in H as (x & E & H)
  | (if ?b then _ else _) = Ok _ => destruct b eqn:?
  | match ?x with _ => _ end = Ok _ => destruct x
  | mret _ = Ok _ => injection H as <- <- <- <-
  end.

#[export] Instance static_laws : RoutingProtocolLaws StaticRouting.Ipv4StaticRouting (H := StaticRouting.static_protocol).
Proof.
  intros ipv4 p h idev lcb s b calls p' s' H. simpl in H. unfold StaticRouting.RouteInput in H.
  route_cases H; (split; [done|]); split; try done; by repeat constructor.
Qed.

#[export] Instance global_laws {R} `{GlobalRouting.UniformRandom R} now :
  RoutingProtocolLaws (GlobalRouting.Ipv4GlobalRouting R) (H := GlobalRouting.global_protocol now).
Proof.
  intros ipv4 p h idev lcb s b calls p' s' E. simpl in E. unfold GlobalRouting.RouteInput in E.
  route_cases E; (split; [done|]); split; try done; by repeat constructor.
Qed.

Section list_laws.
Context {RP : Type} `{RoutingProtocolLaws RP}.

Lemma input_loop_disposed ipv4 p h idev lcb l b calls p' l' :
  input_loop ipv4 p h idev lcb l = Ok (b, calls, p', l') -> p' = p /\ disposed p h b calls.
Proof.
  revert p b calls p' l'. induction l as [|[prio rp] l IH]; intros p b calls p' l' E; simpl in E.
  { injection E as <- <- <- <-. by split_and!. }
  apply bind_ok in E as ([[[b1 calls1] p1] rp'] & E1 & E). apply law_disposed in E1 as [-> Hd].
  destruct b1; [by injection E as <- <- <- <-|].
  apply bind_ok in E as ([[[b2 calls2] p2] l2] & E2 & E). injection E as <- <- <- <-.
  destruct Hd as [-> _]. by apply IH in E2.
Qed.

Lemma list_unicast ipv4 p h idev lcb (s s' : Ipv4ListRouting RP) b calls p' :
  Ipv4Address.IsMulticast (Ipv4Header.GetDestination h) = false ->
  RouteInput ipv4 p h idev lcb s = Ok (b, calls, p', s') -> p' = p /\ disposed p h b calls.
Proof.
  intros Hm E. unfold RouteInput in E. rewrite Hm in E.
  apply bind_ok in E as ([] & _ & E). apply bind_ok in E as (iif & _ & E).
  apply bind_ok in E as (local & _ & E). apply bind_ok in E as (dl & Ed & E).
  assert (dl = if local then [CallLocalDeliver p h iif] else []) as ->.
  { destruct local; [|by injection Ed]. unfold call_lcb in Ed. destruct lcb; [by injection Ed|done]. }
  destruct local; simpl in E; [injection E as <- <- <- <-; repeat constructor|].
  apply bind_ok in E as (fwd & _ & E). destruct fwd; simpl in E; [|injection E as <- <- <- <-; repeat constructor].
  apply bind_ok in E as ([[[b1 calls1] p1] l1] & E1 & E). injection E as <- <- <- <-.
  apply input_loop_disposed in E1 as [-> Hd]. by rewrite orb_false_r.
Qed.

Lemma list_multicast ipv4 p h idev lcb (s s' : Ipv4ListRouting RP) b calls p' :
  Ipv4Address.IsMulticast (Ipv4Header.GetDestination h) = true ->
  RouteInput ipv4 p h idev lcb s = Ok (b, calls, p', s') ->
  p' = p /\ exists iif rest, b = true /\ calls = CallLocalDeliver p h iif :: rest /\ (length rest <= 1)%nat /\
    Forall (call_about p h) rest.
Proof.
  intros Hm E. unfold RouteInput in E. rewrite Hm in E.
  apply bind_ok in E as ([] & _ & E). apply bind_ok in E as (iif & _ & E). apply bind_ok in E as (local & El & E).
  assert (local = true) as ->.
  { apply bind_ok in El as (i & _ & El). rewrite Hm in El. injection El as <-. by destruct (existsb _ _). }
  apply bind_ok in E as (dl & Ed & E). unfold call_lcb in Ed. destruct lcb; [injection Ed as <-|done]. simpl in E.
  apply bind_ok in E as (fwd & _ & E). destruct fwd; simpl in E.
  - apply bind_ok in E as ([[[b1 calls1] p1] l1] & E1 & E). injection E as <- <- <- <-.
    apply input_loop_disposed in E1 as [-> [Hn Hc]]. split; [done|]. exists iif, calls1. rewrite orb_true_r.
    split_and!; try done. destruct b1; [lia|subst; simpl; lia].
  - injection E as <- <- <- <-. split; [done|]. exists iif, [CallError p h ERROR_NOROUTETOHOST].
    split_and!; try done. by repeat constructor.
Qed.
#[export] Instance list_unicast_laws : UnicastLaws (Ipv4ListRouting RP).
Proof. intros ipv4 p h idev lcb s b calls p' s'. apply list_unicast. Qed.

(** Adding a protocol keeps the list sorted by priority, after its equals. *)
Definition by_priority (l : list (Z * RP)) : Prop := StronglySorted (fun x y => y.1 <= x.1) l.

Lemma sort_insert_perm (x : Z * RP) l : sort_insert x l ≡ₚ x :: l.
Proof.
  induction l as [|y l IH]; simpl; [done|]. destruct (Compare y x); [|done]. by rewrite IH, Permutation_swap.
Qed.

Lemma sort_insert_sorted (x : Z * RP) l : by_priority l -> by_priority (sort_insert x l).
Proof.
  induction 1 as [|y l Hs IH Hy]; simpl; [repeat constructor|].
  unfold Compare. destruct (x.1 <? y.1) eqn:E; bool_to_Z; constructor.
  - done.
  - rewrite Forall_forall in *. intros z Hz. rewrite sort_insert_perm in Hz.
    apply elem_of_cons in Hz as [->|Hz]; [lia|auto].
  - by constructor.
  - constructor; [done|]. rewrite Forall_forall in *. intros z Hz. specialize (Hy z Hz). lia.
Qed.

Lemma sort_sorted l : by_priority (sort l).
Proof. induction l; simpl; [constructor|by apply sort_insert_sorted]. Qed.

Lemma sort_perm (l : list (Z * RP)) : sort l ≡ₚ l.
Proof. induction l as [|x l IH]; simpl; [done|]. by rewrite sort_insert_perm, IH. Qed.

(** Stability: the protocols of one priority keep their order. *)
Lemma sort_insert_stable (x : Z * RP) l k :
  filter (fun y => y.1 = k) (sort_insert x l) = filter (fun y => y.1 = k) (x :: l).
Proof.
  induction l as [|y l IH]; cbn [sort_insert]; [done|].
  unfold Compare. destruct (x.1 <? y.1) eqn:E; bool_to_Z; [|done].
  rewrite filter_cons, IH, !filter_cons.
  destruct (decide (y.1 = k)), (decide (x.1 = k)); try done. lia.
Qed.

Lemma sort_stable (l : list (Z * RP)) k : filter (fun x => x.1 = k) (sort l) = filter (fun x => x.1 = k) l.
Proof.
  induction l as [|x l IH]; [done|]. cbn [sort foldr].
  fold (sort l). by rewrite sort_insert_stable, !filter_cons, IH.
Qed.
End list_laws.

Section list_unicast_only.
Context {RP : Type} `{UnicastOnly RP}.

Lemma input_loop_unicast_only ipv4 p h idev lcb l b calls p' l' :
  Ipv4Address.IsMulticast (Ipv4Header.GetDestination h) = false ->
  input_loop ipv4 p h idev lcb l = Ok (b, calls, p', l') -> Forall unicast_call calls.
Proof.
  intros Hm. revert p b calls p' l'. induction l as [|[prio rp] l IH]; intros p b calls p' l' E; simpl in E.
  { injection E as <- <- <- <-. constructor. }
  apply bind_ok in E as ([[[b1 calls1] p1] rp'] & E1 & E). apply law_unicast_only in E1; [|done].
  destruct b1; [by injection E as <- <- <- <-|].
  apply bind_ok in E as ([[[b2 calls2] p2] l2] & E2 & E). injection E as <- <- <- <-.
  apply Forall_app. split; [done|]. by apply IH in E2.
Qed.

#[export] Instance list_unicast_only : UnicastOnly (Ipv4ListRouting RP).
Proof.
  intros ipv4 p h idev lcb s b calls p' s' Hm E. simpl in E. unfold RouteInput, call_lcb in E. rewrite Hm in E.
  apply bind_ok in E as ([] & _ & E). apply bind_ok in E as (iif & _ & E).
  apply bind_ok in E as (local & _ & E). apply bind_ok in E as (dl & Ed & E).
  assert (Forall unicast_call dl) as Hdl by (destruct local, lcb; simplify_eq Ed; intros; subst; repeat constructor).
  destruct (local && negb false); [by injection E as <- <- <- <-|].
  apply bind_ok in E as (fwd & _ & E). destruct fwd; cbn [negb] in E.
  - apply bind_ok in E as ([[[b1 calls1] p1] l1] & E1 & E). injection E as <- <- <- <-.
    apply Forall_app. split; [done|]. by eapply input_loop_unicast_only.
  - injection E as <- <- <- <-. apply Forall_app. split; [done|]. by repeat constructor.
Qed.
End list_unicast_only.

(** Protocols are consulted in decreasing order of priority, and in the order
    of their addition among equals: [AddRoutingProtocol] gives a list sorted by
    priority in which every protocol of one priority keeps its place. *)
Theorem AddRoutingProtocol_order {RP} `{RoutingProtocol RP} ipv4 rp prio (s s' : Ipv4ListRouting RP) :
  AddRoutingProtocol ipv4 rp prio s = Ok s' ->
  exists rp', (m_ipv4 s = false -> rp' = rp) /\ by_priority (m_routingProtocols s') /\
    m_routingProtocols s' ≡ₚ m_routingProtocols s ++ [(prio, rp')] /\
    forall k, filter (fun x => x.1 = k) (m_routingProtocols s') =
              filter (fun x => x.1 = k) (m_routingProtocols s ++ [(prio, rp')]).
Proof.
  intros E. apply bind_ok in E as (rp' & E1 & [= <-]). exists rp'. split.
  { intros Hf. rewrite Hf in E1. by injection E1. }
  simpl. split; [apply sort_sorted|]. split; [apply sort_perm|apply sort_stable].
Qed.

(** A list of lawful protocols disposes of a unicast packet exactly once: if
    [RouteInput] accepts the packet it makes one callback (delivery, forwarding
    or error), otherwise none; a multicast packet is delivered locally and
    offered to the protocols once more, without local delivery. *)
Theorem ListRouting_disposes_once {RP} `{RoutingProtocolLaws RP} ipv4 p h idev lcb
    (s s' : Ipv4ListRouting RP) b calls p' :
  RouteInput ipv4 p h idev lcb s = Ok (b, calls, p', s') ->
  p' = p /\
  (Ipv4Address.IsMulticast (Ipv4Header.GetDestination h) = false -> disposed p h b calls) /\
  (Ipv4Address.IsMulticast (Ipv4Header.GetDestination h) = true ->
     exists iif rest, b = true /\ calls = CallLocalDeliver p h iif :: rest /\ (length rest <= 1)%nat /\
       Forall (call_about p h) calls).
Proof.
  intros E. destruct (Ipv4Address.IsMulticast (Ipv4Header.GetDestination h)) eqn:Em.
  - destruct (list_multicast ipv4 p h idev lcb s s' b calls p' Em E) as (-> & iif & rest & -> & -> & Hr & Hc).
    split_and!; [done|done|]. intros _. exists iif, rest. split_and!; try done. by constructor.
  - destruct (list_unicast ipv4 p h idev lcb s s' b calls p' Em E) as [-> Hd]. by split_and!.
Qed.

(** ** Two static protocols *)

Definition idle : StaticRouting.Ipv4StaticRouting := StaticRouting.mkStatic [] [] true.
Definition example_list : Ipv4ListRouting StaticRouting.Ipv4StaticRouting := mkList [(10, idle); (0, idle)] true.
#[local] Existing Instance StaticRouting.static_protocol.

Definition unset : StaticRouting.Ipv4StaticRouting := StaticRouting.mkStatic [] [] false.
Lemma AddRoutingProtocol_order_witness :
  AddRoutingProtocol StaticRouting.example_ipv4 unset 5 (mkList [(10, unset); (0, unset)] false)
    = Ok (mkList [(10, unset); (5, unset); (0, unset)] false) /\
  by_priority [(10, unset); (5, unset); (0, unset)].
Proof.
  split; [reflexivity|].
  destruct (AddRoutingProtocol_order StaticRouting.example_ipv4 unset 5 (mkList [(10, unset); (0, unset)] false)
    (mkList [(10, unset); (5, unset); (0, unset)] false) eq_refl) as (rp & _ & Hs & _).
  exact Hs.
Defined.

Definition local_header : Ipv4Header := Ipv4Header.SetDestination 0x0a010101 Ipv4Header.new_Ipv4Header.
Definition local_packet : tagged := mkTagged (mkPacket 1 [1; 2; 3]) None.

Lemma ListRouting_disposes_once_witness :
  RouteInput StaticRouting.example_ipv4 local_packet local_header (Some 101) true example_list
    = Ok (true, [CallLocalDeliver local_packet local_header 1], local_packet, example_list) /\
  disposed local_packet local_header true [CallLocalDeliver local_packet local_header 1].
Proof.
  assert (RouteInput StaticRouting.example_ipv4 local_packet local_header (Some 101) true example_list
    = Ok (true, [CallLocalDeliver local_packet local_header 1], local_packet, example_list)) as E
    by (vm_compute; reflexivity).
  split; [exact E|].
  destruct (ListRouting_disposes_once (H0 := static_laws) _ _ _ _ _ _ _ _ _ _ E) as (_ & Hd & _).
  apply Hd. vm_compute. reflexivity.
Defined.
