(* ===== verification/RlRoutingSpec.v ===== *)
(** * The load balancer on a leaf switch

    With two or more candidate routes it forwards a packet and reports that it
    did not accept it; the agent's weights have no effect. *)

From S2P Require Import Prelude Bytes Packet Ipv4Ifaces Routing.
From S2P Require Ipv4Address Ipv4Header StaticRouting.
From S2P Require Import GlobalRouting RlRouting.
From S2P Require ListRouting StaticRouting.
Import Ipv4Header (Ipv4Header).

Section leaf.
Context {R W : Type} `{UniformRandom R} `{DeviceIds} (now : Z).

(** ** The copied tables *)

Lemma copy_host_id r : IsHost r = true -> copy_host r = r.
Proof. destruct r. unfold IsHost, copy_host, CreateHostRouteTo. simpl. intros ->%Z.eqb_eq. done. Qed.

Lemma copy_hosts_id (l : list Ipv4RoutingTableEntry) : Forall (fun r => IsHost r = true) l -> copy_host <$> l = l.
Proof. induction 1 as [|r l Hr _ IH]; [done|]. rewrite fmap_cons. by rewrite copy_host_id, IH. Qed.

Lemma copy_networks_id (l : list Ipv4RoutingTableEntry) : copy_network <$> l = l.
Proof. induction l as [|[] l IH]; [done|]. rewrite fmap_cons. by rewrite IH. Qed.

Lemma make_routes_head ipv4 l c cs :
  make_routes ipv4 l = Ok (c :: cs) -> exists r l', l = r :: l' /\ make_route ipv4 r = Ok c.
Proof.
  destruct l as [|r l]; simpl; [done|]. intros (rt & E & (rest & _ & [= <- <-])%bind_ok)%bind_ok. eauto.
Qed.

(** Global routing uses the first of the routes the load balancer sees. *)
Lemma LookupGlobal_first (g : Ipv4GlobalRouting R) rl dest ipv4 c cs :
  m_randomEcmpRouting g = false -> Forall (fun r => IsHost r = true) (GlobalRouting.m_hostRoutes g) ->
  RlRouting.m_hostRoutes rl = copy_host <$> GlobalRouting.m_hostRoutes g ->
  RlRouting.m_networkRoutes rl = copy_network <$> GlobalRouting.m_networkRoutes g ->
  Lookup (W := W) dest None ipv4 rl = Ok (c :: cs) -> exists g', LookupGlobal dest None ipv4 g = Ok (Some c, g').
Proof.
  intros Hr Hh Eh En E. unfold Lookup in E. apply bind_ok in E as (l & El & E).
  apply make_routes_head in E as (r & l' & -> & Er).
  unfold rl_routes in El. rewrite Eh, En, copy_hosts_id, copy_networks_id in El by done.
  unfold LookupGlobal, all_routes. apply bind_ok in El as (hosts & Eh' & El). rewrite Eh'. simpl.
  destruct hosts as [|h hosts]; simpl.
  - rewrite El. simpl. rewrite Hr. simpl. rewrite Er. simpl. eauto.
  - injection El as -> ->. simpl. rewrite Hr. simpl. rewrite Er. simpl. eauto.
Qed.

(** The load balancer with several candidates: the first one is used, the packet
    is tagged, and the packet is reported as not accepted. *)
Lemma RouteInput_candidates ipv4 p h idev lcb iif (rl : Ipv4RlRouting W) c0 c1 cs dev n :
  m_ipv4 rl = true -> input_interface ipv4 idev = Ok iif ->
  Ipv4Address.IsMulticast (Ipv4Header.GetDestination h) = false ->
  Ipv4Address.IsBroadcast (Ipv4Header.GetDestination h) = false ->
  IsForwarding iif ipv4 = Ok true -> IsDestinationAddress (Ipv4Header.GetDestination h) iif ipv4 = Ok false ->
  Lookup (Ipv4Header.GetDestination h) None ipv4 rl = Ok (c0 :: c1 :: cs) ->
  n_probabilities rl = Z.of_nat (length (c0 :: c1 :: cs)) -> stats rl !! 0%nat = Some n ->
  rt_dev c0 = Some dev -> t_tag p = None ->
  let p' := mkTagged (t_packet p) (Some (dev_GetNodeId dev, dev_GetIfIndex dev)) in
  exists rl', RlRouting.RouteInput ipv4 p h idev lcb rl = Ok (false, [CallForward c0 p' h], p', rl').
Proof.
  intros Hrl Hi Hm Hb Hf Hd Hl Hn Hs Hdev Ht p'. unfold RlRouting.RouteInput.
  rewrite Hrl. simpl. rewrite Hi. simpl. rewrite Hm, Hb. simpl. rewrite Hf. simpl. rewrite Hd. simpl. rewrite Hl. simpl.
  unfold balance. rewrite Hn, Z.eqb_refl. simpl. rewrite Hs. simpl. rewrite Hdev. simpl.
  unfold AddPacketTag. rewrite Ht. simpl. eauto.
Qed.

(** ** No protocol of a leaf forwards a unicast packet by multicast *)

#[local] Existing Instances ListRouting.static_laws ListRouting.global_laws ListRouting.laws_unicast.
#[export] Instance rl_unicast_only : ListRouting.UnicastOnly (Ipv4RlRouting W).
Proof.
  intros ipv4 p h idev lcb s b calls p' s' _ E. simpl in E. unfold RouteInput, balance in E.
  ListRouting.route_cases E; repeat constructor.
Qed.
#[export] Instance leaf_unicast_only : ListRouting.UnicastOnly (protocol R W) (H := leaf_protocol now).
Proof.
  intros ipv4 p h idev lcb [s|s|s] b calls p' s' Hm E; simpl in E;
    apply bind_ok in E as ([[[b1 calls1] p1] s1] & E & [= <- <- <- <-]).
  - by eapply rl_unicast_only.
  - exact (ListRouting.laws_unicast_only (H := StaticRouting.static_protocol) ipv4 p h idev lcb s _ _ _ _ Hm E).
  - exact (ListRouting.laws_unicast_only (H := global_protocol now) ipv4 p h idev lcb s _ _ _ _ Hm E).
Qed.
End leaf.

(** C38. The load balancer duplicates packets.  On a leaf whose load balancer was
    initialized with the routes of global routing and given one weight per
    candidate, a unicast packet with two or more candidate routes (and no
    static route) is forwarded twice over the same route, the first candidate:
    once by the load balancer, which then reports that it did not accept the
    packet, and once more by global routing. *)
Theorem RlRouting_forwards_twice {R W} `{UniformRandom R} `{DeviceIds} now ipv4 p h idev iif
    (g : Ipv4GlobalRouting R) (st : StaticRouting.Ipv4StaticRouting) (dist : list W) c0 c1 cs dev (k0 k1 k2 : Z) :
  let dest := Ipv4Header.GetDestination h in
  let rl := snd (SetDistribution dist (init_routes (GlobalRouting.m_hostRoutes g) (GlobalRouting.m_networkRoutes g) new_rl)) in
  input_interface ipv4 idev = Ok iif -> Ipv4Address.IsMulticast dest = false ->
  Ipv4Address.IsBroadcast dest = false -> IsForwarding iif ipv4 = Ok true ->
  IsDestinationAddress dest iif ipv4 = Ok false ->
  StaticRouting.m_ipv4 st = true -> StaticRouting.LookupStatic dest None ipv4 st = Ok None ->
  m_randomEcmpRouting g = false -> Forall (fun r => IsHost r = true) (GlobalRouting.m_hostRoutes g) ->
  Lookup dest None ipv4 rl = Ok (c0 :: c1 :: cs) -> length dist = length (c0 :: c1 :: cs) ->
  rt_dev c0 = Some dev -> t_tag p = None ->
  exists p' s', ListRouting.RouteInput (H := leaf_protocol now) ipv4 p h idev true
      (ListRouting.mkList [(k0, PRl rl); (k1, PStatic st); (k2, PGlobal g)] true)
    = Ok (true, [CallForward c0 p' h; CallForward c0 p' h], p', s').
Proof.
  intros dest rl Hi Hm Hb Hf Hd Hst Hsl Hr Hh Hl Hlen Hdev Ht.
  destruct (LookupGlobal_first g rl dest ipv4 c0 (c1 :: cs) Hr Hh eq_refl eq_refl Hl) as [g' Hg].
  destruct (RouteInput_candidates ipv4 p h idev true iif rl c0 c1 cs dev 0 eq_refl Hi Hm Hb Hf Hd Hl) as [rl' Hrl];
    [|done..|].
  { unfold rl, n_probabilities. simpl. destruct dist as [|? [|]]; [done..|]. simpl in *. lia. }
  set (p' := mkTagged (t_packet p) (Some (dev_GetNodeId dev, dev_GetIfIndex dev))) in *.
  exists p'. eexists. unfold ListRouting.RouteInput. simpl. rewrite Hi. simpl. fold dest. rewrite Hd. simpl.
  rewrite Hf. simpl. rewrite Hrl. simpl.
  unfold StaticRouting.RouteInput. rewrite Hst. simpl. rewrite Hi. simpl. fold dest. rewrite Hm, Hd. simpl.
  rewrite Hf. simpl. rewrite Hsl. simpl.
  unfold GlobalRouting.RouteInput. rewrite Hi. simpl. fold dest. rewrite Hd. simpl. rewrite Hf. simpl.
  rewrite Hg. simpl. reflexivity.
Qed.

(** What a caller of [RouteInput] observes. *)
Definition observed {RP} (r : routed RP) : res (bool * list rcall * tagged) :=
  match r with Ok (b, calls, p, _) => Ok (b, calls, p) | Err f => Err f end.

(** C40. The agent's weights have no effect on forwarding: whatever two lists of
    weights of the same length are set, [Ipv4RlRouting::RouteInput] does the
    same, and the second counter of the statistics never changes. *)
Theorem RlRouting_ignores_weights {W} `{DeviceIds} ipv4 p h idev lcb (rl : Ipv4RlRouting W) (d1 d2 : list W) :
  length d1 = length d2 ->
  observed (RlRouting.RouteInput ipv4 p h idev lcb (snd (SetDistribution d1 rl))) =
  observed (RlRouting.RouteInput ipv4 p h idev lcb (snd (SetDistribution d2 rl))) /\
  forall b calls p' rl', RlRouting.RouteInput ipv4 p h idev lcb rl = Ok (b, calls, p', rl') ->
    stats rl' !! 1%nat = stats rl !! 1%nat.
Proof.
  intros Hlen. split.
  - assert (n_probabilities (snd (SetDistribution d1 rl)) = n_probabilities (snd (SetDistribution d2 rl))) as Hn.
    { unfold n_probabilities. simpl. destruct d1 as [|? [|]], d2 as [|? [|]]; simpl in *; lia. }
    unfold RlRouting.RouteInput. simpl. destruct (m_ipv4 rl); [|done]. simpl.
    destruct (input_interface _ _) as [iif|]; [|done]. simpl. destruct (_ || _); [done|].
    destruct (IsForwarding _ _) as [[]|]; [|done..]. simpl. destruct (IsDestinationAddress _ _ _) as [[]|]; [by destruct lcb| |done].
    simpl. change (Lookup _ _ _ (mkRl _ _ _ d1 _)) with (Lookup (W := W) (Ipv4Header.GetDestination h) None ipv4 rl).
    change (Lookup _ _ _ (mkRl _ _ _ d2 _)) with (Lookup (W := W) (Ipv4Header.GetDestination h) None ipv4 rl).
    destruct (Lookup _ _ _ _) as [[|c0 [|c1 cs]]|]; try done. simpl.
    unfold balance, n_probabilities in *. simpl in *. rewrite Hn. destruct (ns_assert _); [|done]. simpl.
    destruct (deref _); [|done]. simpl. destruct (deref _); [|done]. simpl. by destruct (AddPacketTag _ _ _).
  - intros b calls p' rl' E. unfold RlRouting.RouteInput in E. ListRouting.route_cases E; try done.
    unfold balance in E. repeat (apply bind_ok in E as (? & ? & E)). injection E as <- <- <- <-.
    simpl. by rewrite list_lookup_insert_ne.
Qed.

(** ** A leaf with two uplinks *)

#[local] Instance no_random : UniformRandom unit := fun lo _ r => (lo, r).
#[local] Instance example_ids : DeviceIds := {| dev_GetIfIndex d := d - 100; dev_GetNodeId _ := 7 |}.

Definition example_global : Ipv4GlobalRouting unit :=
  AddNetworkRouteTo 0x0a030000 0xffff0000 0x0a0102fe 2
    (AddNetworkRouteTo 0x0a030000 0xffff0000 0x0a0101fe 1 (new_global tt)).
Definition example_header : Ipv4Header := Ipv4Header.SetDestination 0x0a030001 Ipv4Header.new_Ipv4Header.
Definition example_packet : tagged := mkTagged (mkPacket 1 [1; 2; 3]) None.
Definition example_route : Ipv4Route := mkRoute 0x0a030000 0x0a010101 0x0a0101fe (Some 101).
Definition example_route2 : Ipv4Route := mkRoute 0x0a030000 0x0a010201 0x0a0102fe (Some 102).
Definition example_static : StaticRouting.Ipv4StaticRouting := StaticRouting.mkStatic [] [] true.

Lemma RlRouting_forwards_twice_witness :
  exists p' s', ListRouting.RouteInput (H := leaf_protocol 0) StaticRouting.example_ipv4 example_packet
      example_header (Some 101) true
      (ListRouting.mkList
         [(0, PRl (snd (SetDistribution [1; 1] (init_routes (GlobalRouting.m_hostRoutes example_global)
                    (GlobalRouting.m_networkRoutes example_global) new_rl))));
          (0, PStatic example_static); (-10, PGlobal example_global)] true)
    = Ok (true, [CallForward example_route p' example_header; CallForward example_route p' example_header], p', s').
Proof.
  apply (RlRouting_forwards_twice 0 StaticRouting.example_ipv4 example_packet example_header (Some 101) 1
           example_global example_static [1; 1] example_route example_route2 [] 101 0 0 (-10)); try reflexivity.
  constructor.
Defined.

Definition example_rl (dist : list Z) : Ipv4RlRouting Z :=
  snd (SetDistribution dist
    (init_routes (GlobalRouting.m_hostRoutes example_global) (GlobalRouting.m_networkRoutes example_global) new_rl)).

Lemma RlRouting_ignores_weights_witness :
  observed (RlRouting.RouteInput StaticRouting.example_ipv4 example_packet example_header (Some 101) true
              (snd (SetDistribution [1; 0] (example_rl [1; 1])))) =
  observed (RlRouting.RouteInput StaticRouting.example_ipv4 example_packet example_header (Some 101) true
              (snd (SetDistribution [0; 1] (example_rl [1; 1])))).
Proof.
  apply (RlRouting_ignores_weights StaticRouting.example_ipv4 example_packet example_header (Some 101) true
           (example_rl [1; 1]) [1; 0] [0; 1]). reflexivity.
Defined.

(** ** Candidates are all the shortest-table matches *)

Lemma collect_ok test oif ipv4 l l' :
  collect test oif ipv4 l = Ok l' ->
  forall r, r ∈ l' <-> r ∈ l /\ test r = Ok true /\ on_device oif ipv4 r = Ok true.
Proof.
  revert l'. induction l as [|x l IH]; intros l' E r; simpl in E.
  { injection E as <-. split; [by intros ?%elem_of_nil|by intros [?%elem_of_nil _]]. }
  apply bind_ok in E as (t & Et & E). apply bind_ok in E as (here & Eh & E).
  apply bind_ok in E as (rest & Er & E). specialize (IH _ Er). injection E as <-.
  destruct t; [destruct here|injection Eh as <-]; rewrite ?elem_of_cons, IH; naive_solver congruence.
Qed.
