(* ===== verification/Fragment.v ===== *)
(** * IPv4 fragmentation and reassembly ([src/internet/model/ipv4-l3-protocol.cc])

    [DoFragmentation], the class [Fragments], [ProcessFragment] and the timers
    that discard incomplete datagrams. *)

From S2P Require Import Prelude Bytes Packet.
From S2P Require Ipv4Header.
Import Ipv4Header (Ipv4Header).

(** ** Fragmentation *)

Section fragmentation.
(** [Node::ChecksumEnabled ()] *)
Variable checksum : bool.

(** The header of one fragment. *)
Definition fragment_header (ipv4Header : Ipv4Header) (isLastFragment more : bool) (offset size : Z) : res Ipv4Header :=
  let h := if more then Ipv4Header.SetMoreFragments ipv4Header
           else if negb isLastFragment then Ipv4Header.SetMoreFragments ipv4Header
           else Ipv4Header.SetLastFragment ipv4Header in
  h ← Ipv4Header.SetFragmentOffset offset h;
  let h := Ipv4Header.SetPayloadSize size h in
  mret (if checksum then Ipv4Header.EnableChecksum h else h).

(** The do-while loop; [offset] is a [uint16_t]. *)
Fixpoint fragment_loop (fuel : nat) (p : Packet) (ipv4Header : Ipv4Header) (fragmentSize offset : Z) :
    res (list (Packet * Ipv4Header)) :=
  match fuel with
  | O => Err OutOfFuel
  | S n =>
      let moreFragment := u32 (offset + fragmentSize) <? GetSize p in
      let size := if moreFragment then fragmentSize else u32 (GetSize p - offset) in
      fragment ← CreateFragment offset size p;
      h ← fragment_header ipv4Header (Ipv4Header.IsLastFragment ipv4Header) moreFragment
            (offset + Ipv4Header.GetFragmentOffset ipv4Header) size;
      rest ← (if moreFragment then fragment_loop n p ipv4Header fragmentSize (u16 (offset + size)) else mret []);
      mret ((fragment, h) :: rest)
  end.

(** [(outIfaceMtu - ipv4Header.GetSerializedSize ()) & ~7] *)
Definition fragment_size (outIfaceMtu : Z) (h : Ipv4Header) : Z :=
  let n := u32 (outIfaceMtu - Ipv4Header.GetSerializedSize h) in n - n mod 8.

Definition DoFragmentation (fuel : nat) (packet : Packet) (ipv4Header : Ipv4Header) (outIfaceMtu : Z) :
    res (list (Packet * Ipv4Header)) :=
  _ ← ns_assert (Ipv4Header.GetSerializedSize ipv4Header =? 5 * 4);
  fragment_loop fuel packet ipv4Header (fragment_size outIfaceMtu ipv4Header) 0.

(** Enough iterations for the largest datagram in the smallest fragments. *)
Definition max_fragments : nat := Z.to_nat (2 ^ 13 + 1).

(** What [SendRealOut] sends for one packet over an interface with this MTU. *)
Definition fragments_for (fuel : nat) (packet : Packet) (ipHeader : Ipv4Header) (mtu : Z) :
    res (list (Packet * Ipv4Header)) :=
  if mtu <? u32 (GetSize packet + Ipv4Header.GetSerializedSize ipHeader)
  then DoFragmentation fuel packet ipHeader mtu
  else mret [(packet, ipHeader)].
End fragmentation.

(** ** [Fragments] *)

Record Fragments := mkFragments { m_moreFragment : bool; m_list : list (Packet * Z) }.

Definition new_fragments : Fragments := mkFragments false [].

(** Inserts before the first larger offset; tells whether that was at the end. *)
Fixpoint insert_fragment (x : Packet * Z) (l : list (Packet * Z)) : list (Packet * Z) * bool :=
  match l with
  | [] => ([x], true)
  | y :: l' => if x.2 <? y.2 then (x :: l, false)
               else let '(r, at_end) := insert_fragment x l' in (y :: r, at_end)
  end.
Definition AddFragment (fragment : Packet) (fragmentOffset : Z) (moreFragment : bool) (f : Fragments) : Fragments :=
  let '(l, at_end) := insert_fragment (fragment, fragmentOffset) (m_list f) in
  mkFragments (if at_end then moreFragment else m_moreFragment f) l.

(** No gap before the end of the last fragment. *)
Fixpoint covered (lastEndOffset : Z) (l : list (Packet * Z)) : bool :=
  match l with
  | [] => true
  | (p, off) :: l' =>
      if lastEndOffset <? off then false
      else covered (Z.max lastEndOffset (u16 (GetSize p + off))) l'
  end.
Definition IsEntire (f : Fragments) : bool :=
  negb (m_moreFragment f) && (0 <? Z.of_nat (length (m_list f))) && covered 0 (m_list f).

(** The fragments after the first are appended, without what overlaps. *)
Fixpoint join (p : Packet) (lastEndOffset : Z) (l : list (Packet * Z)) : res Packet :=
  match l with
  | [] => mret p
  | (q, off) :: l' =>
      p' ← (if off <? lastEndOffset then
              let newStart := lastEndOffset - off in
              if newStart <? GetSize q then
                t ← CreateFragment newStart (u32 (GetSize q - newStart)) q; mret (AddAtEnd t p)
              else mret p
            else mret (AddAtEnd q p));
      join p' (u16 (GetSize p')) l'
  end.
Definition GetPacket (f : Fragments) : res Packet :=
  match m_list f with
  | [] => Err UndefinedBehaviour
  | (p, _) :: l => join p (u16 (GetSize p)) l
  end.

(** The data before the first gap; [empty] is the new packet it starts from. *)
Fixpoint join_partial (p : Packet) (lastEndOffset : Z) (l : list (Packet * Z)) : res Packet :=
  match l with
  | [] => mret p
  | (q, off) :: l' =>
      p' ← (if off <? lastEndOffset then
              let newStart := lastEndOffset - off in
              t ← CreateFragment newStart (u32 (GetSize q - newStart)) q; mret (AddAtEnd t p)
            else if lastEndOffset =? off then mret (AddAtEnd q p)
            else mret p);
      join_partial p' (u16 (GetSize p')) l'
  end.
Definition GetPartialPacket (empty : Packet) (f : Fragments) : res Packet :=
  match m_list f with
  | [] => Err UndefinedBehaviour
  | (_, off) :: _ => if 0 <? off then mret empty else join_partial empty 0 (m_list f)
  end.

(** ** Reassembly *)

(** [FragmentKey_t]: (source and destination, identification and protocol) *)
Definition fragment_key (h : Ipv4Header) : Z * Z :=
  (Z.lor (u64 (Z.shiftl (Ipv4Header.GetSource h) 32)) (Ipv4Header.GetDestination h),
   Z.lor (u32 (Z.shiftl (Ipv4Header.GetIdentification h) 16)) (Ipv4Header.GetProtocol h)).

(** An entry of [m_timeoutEventList]; a key has at most one entry, so that the
    key stands for the list iterator that [Fragments] keeps. *)
Record timeout := mkTimeout { to_time : Z; to_key : Z * Z; to_header : Ipv4Header; to_iif : Z }.

Record reassembly := mkReassembly {
  m_fragments : gmap (Z * Z) Fragments;
  m_timeoutEventList : list timeout;
  m_timers : list Z (* the times at which HandleTimeout is scheduled *) }.

Section reassembly.
(** [m_fragmentExpirationTimeout] *)
Variable expiration : Z.

Definition SetTimeout (now : Z) (key : Z * Z) (ipHeader : Ipv4Header) (iif : Z) (r : reassembly) : reassembly :=
  mkReassembly (m_fragments r) (m_timeoutEventList r ++ [mkTimeout (now + expiration) key ipHeader iif])
    (match m_timeoutEventList r with [] => m_timers r ++ [now + expiration] | _ => m_timers r end).

Definition set_fragments (m : gmap (Z * Z) Fragments) (r : reassembly) : reassembly :=
  mkReassembly m (m_timeoutEventList r) (m_timers r).

Definition ProcessFragment (now : Z) (packet : Packet) (ipHeader : Ipv4Header) (iif : Z) (r : reassembly) :
    res (bool * Packet * reassembly) :=
  let key := fragment_key ipHeader in
  let '(fragments, r) :=
    match m_fragments r !! key with
    | None => (new_fragments, SetTimeout now key ipHeader iif (set_fragments (<[key := new_fragments]> (m_fragments r)) r))
    | Some f => (f, r)
    end in
  let fragments := AddFragment packet (Ipv4Header.GetFragmentOffset ipHeader)
                     (negb (Ipv4Header.IsLastFragment ipHeader)) fragments in
  if IsEntire fragments then
    whole ← GetPacket fragments;
    mret (true, whole,
          mkReassembly (delete key (m_fragments r))
            (filter (fun t => to_key t <> key) (m_timeoutEventList r)) (m_timers r))
  else mret (false, packet, set_fragments (<[key := fragments]> (m_fragments r)) r).

(** What a timeout does to other components. *)
Inductive timeout_call :=
| IcmpTimeExceeded (h : Ipv4Header) (p : Packet)
| DropFragmentTimeout (h : Ipv4Header) (p : Packet) (iif : Z).

Definition HandleFragmentsTimeout (empty : Packet) (key : Z * Z) (ipHeader : Ipv4Header) (iif : Z) (r : reassembly) :
    res (list timeout_call * reassembly) :=
  f ← deref (m_fragments r !! key);
  packet ← GetPartialPacket empty f;
  mret ((if 8 <? GetSize packet then [IcmpTimeExceeded ipHeader packet] else []) ++
        [DropFragmentTimeout ipHeader packet iif],
        set_fragments (delete key (m_fragments r)) r).

(** The loop of [HandleTimeout] over the entries that expire now. *)
Fixpoint expire_loop (empty : Packet) (now : Z) (l : list timeout) (r : reassembly) :
    res (list timeout_call * reassembly) :=
  match l with
  | t :: l' =>
      if to_time t =? now then
        '(calls, r) ← HandleFragmentsTimeout empty (to_key t) (to_header t) (to_iif t) r;
        '(rest, r) ← expire_loop empty now l' (mkReassembly (m_fragments r) l' (m_timers r));
        mret (calls ++ rest, r)
      else mret ([], r)
  | [] => mret ([], r)
  end.

(** Runs when one of the timers fires, at [now]. *)
Definition HandleTimeout (empty : Packet) (now : Z) (r : reassembly) : res (list timeout_call * reassembly) :=
  '(calls, r) ← expire_loop empty now (m_timeoutEventList r) r;
  mret (calls, match m_timeoutEventList r with
               | [] => r
               | t :: _ => mkReassembly (m_fragments r) (m_timeoutEventList r)
                             (m_timers r ++ [now + (to_time t - now)])
               end).
End reassembly.
