(* ===== verification/FragmentSpec.v ===== *)
(** * Reassembly of a split datagram

    A datagram's data is split into tiles; whatever the order in which tiles
    arrive, and however often, [Fragments] is entire exactly when every tile has
    arrived, and then holds the data. *)

From S2P Require Import Prelude Bytes Packet Fragment.
From S2P Require Ipv4Header.
Import Ipv4Header (Ipv4Header).


(** One fragment: its payload, offset and more-fragments flag. *)
Record tile := mkTile { t_packet : Packet; t_offset : Z; t_more : bool }.

Definition t_len (t : tile) : Z := Z.of_nat (length (p_data (t_packet t))).
Definition t_end (t : tile) : Z := t_offset t + t_len t.

(** [d], which starts at offset [o] and is followed by more data if [m], is split
    into the tiles [ts]. *)
Inductive split : Z -> bool -> bytes -> list tile -> Prop :=
| split_one o m p : p_data p <> [] -> split o m (p_data p) [mkTile p o m]
| split_app o m d1 d2 ts1 ts2 :
    split o true d1 ts1 -> split (o + Z.of_nat (length d1)) m d2 ts2 -> split o m (d1 ++ d2) (ts1 ++ ts2).

(** The facts about a split that reassembly relies on. *)
Record tiling (o : Z) (m : bool) (d : bytes) (ts : list tile) : Prop := {
  ti_bound t : t ∈ ts -> o <= t_offset t /\ 0 < t_len t /\ t_end t <= o + Z.of_nat (length d);
  ti_data t : t ∈ ts ->
    take (Z.to_nat (t_end t - o)) d = take (Z.to_nat (t_offset t - o)) d ++ p_data (t_packet t);
  ti_disjoint t u : t ∈ ts -> u ∈ ts -> t_offset t < t_offset u -> t_end t <= t_offset u;
  ti_same t u : t ∈ ts -> u ∈ ts -> t_offset t = t_offset u -> t = u;
  ti_pred u : u ∈ ts -> t_offset u <> o -> exists t, t ∈ ts /\ t_end t = t_offset u;
  ti_more t : t ∈ ts -> t_more t = (m || (t_end t <? o + Z.of_nat (length d)));
  ti_last : exists t, t ∈ ts /\ t_end t = o + Z.of_nat (length d) }.

Lemma split_tiling o m d ts : split o m d ts -> tiling o m d ts.
Proof.
  induction 1 as [o m p Hp|o m d1 d2 ts1 ts2 _ H1 _ H2].
  - split; intros; rewrite ?list_elem_of_singleton in *; subst; unfold t_end, t_len in *; simpl in *.
    + destruct (p_data p); [done|simpl; lia].
    + rewrite Z.sub_diag, take_0. simpl. rewrite take_ge by lia. done.
    + lia.
    + done.
    + done.
    + rewrite Z.ltb_irrefl. by rewrite orb_false_r.
    + eexists. rewrite list_elem_of_singleton. split; [done|]. done.
  - assert (Z.of_nat (length (d1 ++ d2)) = Z.of_nat (length d1) + Z.of_nat (length d2)) as EL
      by (rewrite length_app; lia).
    destruct H1 as [b1 d1' j1 s1 p1 m1 l1], H2 as [b2 d2' j2 s2 p2 m2 l2].
    assert (forall t u, t ∈ ts1 -> u ∈ ts2 -> t_offset t < t_offset u /\ t_end t <= t_offset u) as Hlt.
    { intros t u Ht Hu. specialize (b1 t Ht). specialize (b2 u Hu). unfold t_end in *. lia. }
    split; rewrite ?EL.
    + intros t [Ht|Ht]%elem_of_app; [specialize (b1 t Ht)|specialize (b2 t Ht)]; lia.
    + intros t [Ht|Ht]%elem_of_app.
      * specialize (b1 t Ht). unfold t_end in *.
        rewrite !take_app_le by lia. by apply d1'.
      * specialize (b2 t Ht). specialize (d2' t Ht). unfold t_end in *.
        rewrite !take_app_ge by lia. rewrite <- app_assoc. f_equal.
        replace (Z.to_nat (t_offset t + t_len t - o) - length d1)%nat
          with (Z.to_nat (t_offset t + t_len t - (o + Z.of_nat (length d1)))) by lia.
        replace (Z.to_nat (t_offset t - o) - length d1)%nat
          with (Z.to_nat (t_offset t - (o + Z.of_nat (length d1)))) by lia. done.
    + intros t u [Ht|Ht]%elem_of_app [Hu|Hu]%elem_of_app Hle; try by auto.
      * by destruct (Hlt t u Ht Hu).
      * destruct (Hlt u t Hu Ht). lia.
    + intros t u [Ht|Ht]%elem_of_app [Hu|Hu]%elem_of_app Hle; try by auto.
      * destruct (Hlt t u Ht Hu). lia.
      * destruct (Hlt u t Hu Ht). lia.
    + intros u [Hu|Hu]%elem_of_app Hne.
      * destruct (p1 u Hu Hne) as (t & Ht & E). exists t. rewrite elem_of_app. auto.
      * destruct (decide (t_offset u = o + Z.of_nat (length d1))) as [->|Hne'].
        -- destruct l1 as (t & Ht & E). exists t. rewrite elem_of_app. auto.
        -- destruct (p2 u Hu Hne') as (t & Ht & E). exists t. rewrite elem_of_app. auto.
    + intros t [Ht|Ht]%elem_of_app; [rewrite (m1 t Ht)|rewrite (m2 t Ht)].
      * destruct l2 as (u & Hu & _). specialize (b2 u Hu). specialize (b1 t Ht). unfold t_end in *.
        destruct (Z.ltb_spec (t_offset t + t_len t) (o + (Z.of_nat (length d1) + Z.of_nat (length d2))));
          [by rewrite orb_true_r|lia].
      * by rewrite Z.add_assoc.
    + destruct l2 as (t & Ht & E). exists t. rewrite elem_of_app. split; [by right|lia].
Qed.

Lemma split_NoDup o m d ts : split o m d ts -> NoDup ts.
Proof.
  induction 1 as [|o m d1 d2 ts1 ts2 H1 IH1 H2 IH2]; [apply NoDup_singleton|].
  apply NoDup_app. split; [done|]. split; [|done]. intros t Ht1 Ht2.
  destruct (ti_bound _ _ _ _ (split_tiling _ _ _ _ H1) t Ht1) as (_ & Hpos & Hend).
  destruct (ti_bound _ _ _ _ (split_tiling _ _ _ _ H2) t Ht2) as (Hoff & _). unfold t_end in Hend. lia.
Qed.

Lemma split_nonempty o m d ts : split o m d ts -> ts <> [].
Proof. induction 1; [done|]. by destruct ts1. Qed.

(** Splitting the tiles of a split again gives a split. *)
Lemma split_refine o m d ts : split o m d ts -> forall g,
  (forall t, t ∈ ts -> split (t_offset t) (t_more t) (p_data (t_packet t)) (g t)) ->
  split o m d (concat (g <$> ts)).
Proof.
  induction 1 as [o m p Hp|o m d1 d2 ts1 ts2 _ IH1 _ IH2]; intros g Hg.
  - simpl. rewrite app_nil_r. apply (Hg (mkTile p o m)). by apply list_elem_of_singleton.
  - rewrite fmap_app, concat_app. constructor.
    + apply IH1. intros t Ht. apply Hg, elem_of_app. by left.
    + apply IH2. intros t Ht. apply Hg, elem_of_app. by right.
Qed.

(** ** The list of received fragments *)

Definition offsets_sorted (l : list (Packet * Z)) : Prop := StronglySorted (fun x y => x.2 <= y.2) l.

Lemma insert_fragment_spec x l :
  offsets_sorted l ->
  let '(r, at_end) := insert_fragment x l in
  offsets_sorted r /\ r ≡ₚ x :: l /\ (at_end = true <-> forall y, y ∈ l -> y.2 <= x.2).
Proof.
  induction 1 as [|y l Hs IH Hy]; simpl.
  { split_and!; [repeat constructor|done|]. split; [|done]. by intros _ y ?%elem_of_nil. }
  rewrite Forall_forall in Hy. destruct (x.2 <? y.2) eqn:E; bool_to_Z.
  - split_and!; [|done|].
    + constructor; [by constructor; [|apply Forall_forall]|]. apply Forall_forall.
      intros z [->|Hz]%elem_of_cons; [lia|]. specialize (Hy z Hz). lia.
    + split; [done|]. intros H. assert (y.2 <= x.2) by (apply H; by left). lia.
  - destruct (insert_fragment x l) as [r at_end]. destruct IH as (Hr & Hp & Hend). split_and!.
    + constructor; [done|]. apply Forall_forall. intros z Hz. rewrite Hp in Hz.
      apply elem_of_cons in Hz as [->|Hz]; [lia|auto].
    + by rewrite Hp, Permutation_swap.
    + rewrite Hend. split; [|intros H z Hz; apply H; by right].
      intros H z [->|Hz]%elem_of_cons; [lia|auto].
Qed.

Definition entry (t : tile) : Packet * Z := (t_packet t, t_offset t).

(** The tiles of [ws] have arrived. *)
Record received (ws : list tile) (f : Fragments) : Prop := {
  rc_list : m_list f ≡ₚ entry <$> ws;
  rc_sorted : offsets_sorted (m_list f);
  rc_more t : t ∈ ws -> (forall u, u ∈ ws -> t_offset u <= t_offset t) ->
    (forall u, u ∈ ws -> t_offset u = t_offset t -> u = t) -> m_moreFragment f = t_more t }.

Lemma received_nil : received [] new_fragments.
Proof. split; [done|constructor|]. by intros t ?%elem_of_nil. Qed.

Lemma received_snoc ws f t :
  received ws f -> received (t :: ws) (AddFragment (t_packet t) (t_offset t) (t_more t) f).
Proof.
  intros [Hl Hs Hm]. unfold AddFragment. change (t_packet t, t_offset t) with (entry t).
  pose proof (insert_fragment_spec (entry t) (m_list f) Hs) as Hi.
  destruct (insert_fragment _ _) as [r at_end]. destruct Hi as (Hr & Hp & Hend). split; simpl; [|done|].
  { by rewrite Hp, Hl. }
  intros u Hu Hmax Huniq. destruct at_end.
  - assert (forall v, v ∈ ws -> t_offset v <= t_offset t) as Hle.
    { intros v Hv. apply (proj1 Hend eq_refl (entry v)). rewrite Hl. by apply list_elem_of_fmap_2. }
    apply elem_of_cons in Hu as [->|Hu]; [done|].
    assert (t = u) as ->; [|done]. apply Huniq; [by left|].
    specialize (Hle u Hu). assert (t_offset t <= t_offset u) by (apply Hmax; by left). lia.
  - assert (u ∈ ws) as Hu'.
    { apply elem_of_cons in Hu as [->|]; [|done]. exfalso. destruct (Bool.diff_false_true).
      apply Hend. intros y Hy. rewrite Hl in Hy. apply list_elem_of_fmap in Hy as (v & -> & Hv).
      apply Hmax. by right. }
    apply Hm; [done|intros v Hv; apply Hmax; by right|intros v Hv; apply Huniq; by right].
Qed.

Lemma max_offset (ws : list tile) :
  ws <> [] -> exists m, m ∈ ws /\ forall u, u ∈ ws -> t_offset u <= t_offset m.
Proof.
  induction ws as [|w ws IH]; [done|]. intros _. destruct ws as [|w' ws].
  - exists w. split; [by left|]. by intros u ->%list_elem_of_singleton.
  - destruct IH as (m & Hm & Hmax); [done|].
    destruct (Z.le_gt_cases (t_offset w) (t_offset m)).
    + exists m. split; [by right|]. intros u [->|Hu]%elem_of_cons; auto.
    + exists w. split; [by left|]. intros u [->|Hu]%elem_of_cons; [lia|]. specialize (Hmax u Hu). lia.
Qed.

(** ** When the received tiles are entire, and what they hold *)

Section entire.
Context (d : bytes) (ts : list tile).
Hypothesis Htiling : tiling 0 false d ts.
Hypothesis Hsize : Z.of_nat (length d) < 2 ^ 16.

(** Every element of the list is a tile. *)
Definition of_tiles (l : list (Packet * Z)) : Prop := forall x, x ∈ l -> exists t, t ∈ ts /\ x = entry t.

(** No tile straddles the offset [e]. *)
Definition boundary (e : Z) : Prop := forall t, t ∈ ts -> t_offset t < e -> t_end t <= e.

Lemma t_fields t : t ∈ ts ->
  GetSize (t_packet t) = t_len t /\ u16 (GetSize (t_packet t) + t_offset t) = t_end t /\
  0 <= t_offset t /\ 0 < t_len t /\ t_end t <= Z.of_nat (length d).
Proof.
  intros Ht. destruct (ti_bound _ _ _ _ Htiling t Ht) as (H0 & H1 & H2).
  assert (GetSize (t_packet t) = t_len t) as HG.
  { apply wrap_small. unfold in_range. unfold t_end in *. fold (t_len t). lia. }
  split_and!; try done. rewrite HG. unfold t_end in *. rewrite Z.add_comm. apply wrap_small. unfold in_range. lia.
Qed.

(** One step over a tile at or before the boundary [e]. *)
Lemma boundary_step e t : t ∈ ts -> boundary e -> t_offset t <= e ->
  (t_offset t < e /\ t_end t <= e /\ Z.max e (t_end t) = e) \/
  (t_offset t = e /\ Z.max e (t_end t) = t_end t /\ boundary (t_end t)).
Proof.
  intros Ht Hb Hle. destruct (decide (t_offset t < e)) as [Hlt|Hge].
  - left. specialize (Hb t Ht Hlt). lia.
  - right. destruct (t_fields t Ht) as (_ & _ & _ & Hpos & _). unfold t_end at 1.
    split; [lia|]. split; [unfold t_end; lia|]. intros u Hu Hlt.
    destruct (Z.lt_trichotomy (t_offset u) (t_offset t)) as [Hl|[He|Hg]].
    + pose proof (ti_disjoint _ _ _ _ Htiling u t Hu Ht Hl). unfold t_end in *. lia.
    + by rewrite (ti_same _ _ _ _ Htiling u t Hu Ht He).
    + pose proof (ti_disjoint _ _ _ _ Htiling t u Ht Hu Hg). lia.
Qed.

Lemma covered_complete l e :
  of_tiles l -> boundary e -> covered e l = true ->
  forall t, t ∈ ts -> e <= t_offset t -> (exists x, x ∈ l /\ t_offset t < x.2 + Z.of_nat (length (p_data x.1))) ->
    entry t ∈ l.
Proof.
  revert e. induction l as [|x l IH]; intros e Hl Hb Hc t Ht He (y & Hy & Hlt); [by apply elem_of_nil in Hy|].
  destruct (Hl x) as (u & Hu & ->); [by left|]. destruct (t_fields u Hu) as (_ & Hend & _).
  cbn [covered entry] in Hc. rewrite Hend in Hc. destruct (e <? t_offset u) eqn:E; [done|]. bool_to_Z.
  assert (of_tiles l) as Hl' by (intros x Hx; apply Hl; by right).
  destruct (boundary_step e u Hu Hb E) as [(Hs & Hle & Hmax)|(Hs & Hmax & Hb')]; rewrite Hmax in Hc.
  - apply elem_of_cons in Hy as [->|Hy].
    + simpl in Hlt. fold (t_len u) in Hlt. unfold t_end in Hle. lia.
    + right. by apply (IH e); [..|exists y].
  - destruct (decide (t_offset t = t_offset u)) as [Eo|Hne].
    + rewrite (ti_same _ _ _ _ Htiling t u Ht Hu Eo). by left.
    + assert (t_end u <= t_offset t) as Hle by (apply (ti_disjoint _ _ _ _ Htiling u t Hu Ht); lia).
      apply elem_of_cons in Hy as [->|Hy].
      * simpl in Hlt. fold (t_len u) in Hlt. unfold t_end in Hle. lia.
      * right. by apply (IH (t_end u)); [..|exists y].
Qed.

Lemma covered_all seen l e :
  offsets_sorted (seen ++ l) -> of_tiles (seen ++ l) -> (forall t, t ∈ ts -> entry t ∈ seen ++ l) ->
  (forall x, x ∈ seen -> x.2 + Z.of_nat (length (p_data x.1)) <= e) -> 0 <= e -> covered e l = true.
Proof.
  revert seen e. induction l as [|x l IH]; intros seen e Hs Hl Hall He H0; [done|].
  destruct (Hl x) as (u & Hu & ->); [by rewrite elem_of_app; right; left|].
  destruct (t_fields u Hu) as (_ & Hend & _). cbn [covered entry]. rewrite Hend.
  assert (t_offset u <= e) as Hle.
  { destruct (decide (t_offset u = 0)) as [|Hne]; [lia|].
    destruct (ti_pred _ _ _ _ Htiling u Hu Hne) as (t & Ht & Et).
    destruct (t_fields t Ht) as (_ & _ & _ & Hpos & _).
    assert (entry t ∈ seen) as Hts.
    { specialize (Hall t Ht). apply elem_of_app in Hall as [|Hin]; [done|].
      apply StronglySorted_app_1_r, StronglySorted_cons in Hs as [Hx _]. rewrite Forall_forall in Hx.
      exfalso. unfold t_end in Et. apply elem_of_cons in Hin as [[= _ E]|Hin]; [lia|].
      specialize (Hx _ Hin). simpl in Hx. lia. }
    specialize (He _ Hts). simpl in He. fold (t_len t) in He. unfold t_end in Et. lia. }
  rewrite (proj2 (Z.ltb_ge _ _) Hle).
  apply (IH (seen ++ [entry u])); rewrite <- ?app_assoc; simpl; try done; [|lia].
  intros y [Hy| ->%list_elem_of_singleton]%elem_of_app; [specialize (He y Hy); lia|].
  simpl. fold (t_len u). unfold t_end. lia.
Qed.

(** Joining keeps a prefix of the data. *)
Lemma join_prefix l p :
  of_tiles l -> boundary (Z.of_nat (length (p_data p))) -> p_data p = take (length (p_data p)) d ->
  covered (Z.of_nat (length (p_data p))) l = true ->
  exists p', join p (Z.of_nat (length (p_data p))) l = Ok p' /\ p_data p' = take (length (p_data p')) d /\
    p_uid p' = p_uid p /\ (length (p_data p) <= length (p_data p'))%nat /\
    forall x, x ∈ l -> x.2 + Z.of_nat (length (p_data x.1)) <= Z.of_nat (length (p_data p')).
Proof.
  revert p. induction l as [|x l IH]; intros p Hl Hb Hp Hc.
  { exists p. split_and!; try done. by intros x ?%elem_of_nil. }
  destruct (Hl x) as (u & Hu & ->); [by left|]. destruct (t_fields u Hu) as (Hsz & Hend & H0 & Hpos & Hn).
  cbn [covered entry] in Hc. rewrite Hend in Hc. set (e := Z.of_nat (length (p_data p))) in *.
  destruct (e <? t_offset u) eqn:E; [done|]. bool_to_Z.
  assert (of_tiles l) as Hl' by (intros y Hy; apply Hl; by right).
  assert (length (p_data p) <= length d)%nat as Hpd by (rewrite Hp, length_take; lia).
  destruct (boundary_step e u Hu Hb E) as [(Hs & Hle & Hmax)|(Hs & Hmax & Hb')]; rewrite Hmax in Hc; cbn [join entry].
  - rewrite (proj2 (Z.ltb_lt _ _) Hs). rewrite Hsz.
    destruct (e - t_offset u <? t_len u) eqn:E2; bool_to_Z; [unfold t_end in Hle; lia|]. simpl.
    assert (u16 (GetSize p) = e) as ->.
    { unfold GetSize. fold e. rewrite (wrap_small 32), (wrap_small 16) by (unfold in_range; lia). done. }
    destruct (IH p Hl' Hb Hp Hc) as (p' & Ej & Hd & Hu' & Hlen & Hall). exists p'. split_and!; try done.
    intros y [->|Hy]%elem_of_cons; [|by apply Hall]. simpl. fold (t_len u). unfold t_end in Hle. lia.
  - rewrite (proj2 (Z.ltb_ge (t_offset u) e)) by lia. simpl.
    pose proof (ti_data _ _ _ _ Htiling u Hu) as Hdata. rewrite !Z.sub_0_r in Hdata.
    assert (p_data (AddAtEnd (t_packet u) p) = take (Z.to_nat (t_end u)) d) as Hq.
    { rewrite Hdata, Hs. simpl. unfold e. rewrite Nat2Z.id. by rewrite <- Hp. }
    assert (length (p_data (AddAtEnd (t_packet u) p)) = Z.to_nat (t_end u)) as Hql.
    { rewrite Hq, length_take. lia. }
    assert (Z.of_nat (length (p_data (AddAtEnd (t_packet u) p))) = t_end u) as Hqz.
    { unfold t_end in *. lia. }
    assert (u16 (GetSize (AddAtEnd (t_packet u) p)) = Z.of_nat (length (p_data (AddAtEnd (t_packet u) p)))) as ->.
    { unfold GetSize. rewrite Hqz, (wrap_small 32), (wrap_small 16) by (unfold in_range, t_end in *; lia). done. }
    destruct (IH (AddAtEnd (t_packet u) p)) as (p' & Ej & Hd & Hu' & Hlen & Hall); [done|by rewrite Hqz| |by rewrite Hqz|].
    { by rewrite Hql. }
    exists p'. split_and!; try done; [unfold AddAtEnd in Hlen; simpl in Hlen; rewrite length_app in Hlen; lia|].
    intros y [->|Hy]%elem_of_cons; [|by apply Hall]. simpl. fold (t_len u). unfold t_end in Hqz. lia.
Qed.

Lemma of_received ws f : received ws f -> (forall t, t ∈ ws -> t ∈ ts) -> of_tiles (m_list f).
Proof. intros [Hl _ _] Hws x Hx. rewrite Hl in Hx. apply list_elem_of_fmap in Hx as (t & -> & Ht). eauto. Qed.

Lemma entry_inj t u : t ∈ ts -> u ∈ ts -> entry t = entry u -> t = u.
Proof. intros Ht Hu [= _ E]. by apply (ti_same _ _ _ _ Htiling). Qed.

Lemma boundary_0 : boundary 0.
Proof. intros t Ht. destruct (t_fields t Ht) as (_ & _ & ? & _). lia. Qed.

Lemma IsEntire_iff ws f : received ws f -> (forall t, t ∈ ws -> t ∈ ts) ->
  IsEntire f = true <-> forall t, t ∈ ts -> t ∈ ws.
Proof.
  intros Hrc Hws. pose proof (of_received ws f Hrc Hws) as Hof. destruct Hrc as [Hl Hs Hm].
  destruct (ti_last _ _ _ _ Htiling) as (z & Hz & Ez).
  assert (forall u, u ∈ ts -> t_end u = Z.of_nat (length d) -> forall v, v ∈ ts -> t_offset v <= t_offset u) as Hlast.
  { intros u Hu Eu v Hv. destruct (Z.le_gt_cases (t_offset v) (t_offset u)) as [|Hg]; [done|].
    pose proof (ti_disjoint _ _ _ _ Htiling u v Hu Hv Hg). destruct (t_fields v Hv) as (_ & _ & _ & ? & ?).
    unfold t_end in *. lia. }
  unfold IsEntire. rewrite !andb_true_iff, negb_true_iff. split.
  - intros [[Hmf Hne] Hc] t Ht. apply Z.ltb_lt in Hne.
    destruct (max_offset ws) as (m & Hmw & Hmax).
    { intros ->. rewrite Hl in Hne. simpl in Hne. lia. }
    rewrite (Hm m Hmw Hmax) in Hmf by (intros u Hu E; apply (ti_same _ _ _ _ Htiling); auto).
    rewrite (ti_more _ _ _ _ Htiling m (Hws m Hmw)) in Hmf. simpl in Hmf. bool_to_Z.
    assert (t_end m = Z.of_nat (length d)) as Em by (destruct (t_fields m (Hws m Hmw)) as (_ & _ & _ & _ & ?); lia).
    assert (entry t ∈ m_list f) as Hin.
    { destruct (t_fields t Ht) as (_ & _ & Ht0 & Htp & Htn).
      apply (covered_complete _ 0 Hof boundary_0 Hc t Ht Ht0). exists (entry m). split.
      - rewrite Hl. by apply list_elem_of_fmap_2.
      - simpl. fold (t_len m). unfold t_end in *. lia. }
    rewrite Hl in Hin. apply list_elem_of_fmap in Hin as (u & E & Hu).
    by rewrite (entry_inj t u Ht (Hws u Hu) E).
  - intros Hall. split_and!.
    + rewrite (Hm z (Hall z Hz)), (ti_more _ _ _ _ Htiling z Hz), Ez.
      * simpl. apply Z.ltb_irrefl.
      * intros u Hu. apply (Hlast z Hz Ez), Hws, Hu.
      * intros u Hu E. apply (ti_same _ _ _ _ Htiling); auto.
    + apply Z.ltb_lt. assert (entry z ∈ m_list f) as Hin by (rewrite Hl; apply list_elem_of_fmap_2; auto).
      destruct (m_list f); [by apply elem_of_nil in Hin|simpl; lia].
    + apply (covered_all []); try done; [|by intros x ?%elem_of_nil].
      intros t Ht. simpl. rewrite Hl. apply list_elem_of_fmap_2; auto.
Qed.

Lemma GetPacket_data ws f : received ws f -> (forall t, t ∈ ws -> t ∈ ts) -> IsEntire f = true ->
  exists p, GetPacket f = Ok p /\ p_data p = d.
Proof.
  intros Hrc Hws He. pose proof (proj1 (IsEntire_iff ws f Hrc Hws) He) as Hall.
  pose proof (of_received ws f Hrc Hws) as Hof.
  unfold IsEntire in He. rewrite !andb_true_iff in He. destruct He as [[_ _] Hc].
  destruct (ti_last _ _ _ _ Htiling) as (z & Hz & Ez). destruct Hrc as [Hl Hs _].
  assert (entry z ∈ m_list f) as Hzin by (rewrite Hl; apply list_elem_of_fmap_2; auto).
  unfold GetPacket. destruct (m_list f) as [|x l]; [by apply elem_of_nil in Hzin|].
  destruct (Hof x) as (u & Hu & ->); [by left|]. destruct (t_fields u Hu) as (Hsz & Hend & H0 & Hpos & Hn).
  cbn [covered entry] in Hc. rewrite Hend in Hc. destruct (0 <? t_offset u) eqn:E; [done|]. bool_to_Z.
  assert (t_offset u = 0) as Eo by lia. cbn [entry].
  assert (Z.of_nat (length (p_data (t_packet u))) = t_end u) as Eu by (unfold t_end, t_len in *; lia).
  assert (u16 (GetSize (t_packet u)) = Z.of_nat (length (p_data (t_packet u)))) as ->.
  { rewrite Hsz. unfold t_end, t_len in *. apply wrap_small. unfold in_range. lia. }
  destruct (boundary_step 0 u Hu boundary_0) as [(? & _)|(_ & Hmax & Hb)]; [lia..|].
  destruct (join_prefix l (t_packet u)) as (p & Ej & Hp & _ & Hlen & Hends).
  - intros y Hy. apply Hof. by right.
  - by rewrite Eu.
  - pose proof (ti_data _ _ _ _ Htiling u Hu) as Hdata. rewrite Eo, <- Eu, !Z.sub_0_r, Nat2Z.id in Hdata. by rewrite Hdata.
  - rewrite Eu. by rewrite Hmax in Hc.
  - exists p. split; [done|]. rewrite Hp. apply take_ge.
    apply elem_of_cons in Hzin as [E2|Hzin].
    + assert (z = u) as -> by (by apply entry_inj). unfold t_end in *. lia.
    + specialize (Hends _ Hzin). simpl in Hends. fold (t_len z) in Hends. unfold t_end in Ez. lia.
Qed.
End entire.

(** * Fragments reassemble

    [DoFragmentation] splits a datagram, [ProcessFragment] puts it together
    again, whatever happens to the order of the fragments in between. *)

(** ** [DoFragmentation] *)

Lemma IsLast_more h : Ipv4Header.IsLastFragment (Ipv4Header.SetMoreFragments h) = false.
Proof.
  unfold Ipv4Header.IsLastFragment, Ipv4Header.SetMoreFragments. simpl. apply Z.eqb_neq. intros E.
  apply (f_equal (fun z => Z.testbit z 1)) in E. rewrite Z.land_spec, Z.lor_spec, orb_true_r in E. done.
Qed.

Lemma IsLast_last h : Ipv4Header.IsLastFragment (Ipv4Header.SetLastFragment h) = true.
Proof.
  unfold Ipv4Header.IsLastFragment, Ipv4Header.SetLastFragment. simpl. apply Z.eqb_eq.
  rewrite <- Z.land_assoc. by rewrite Z.land_0_r.
Qed.

(** What distinguishes a fragment's header from the datagram's. *)
Definition same_datagram (h h' : Ipv4Header) : Prop :=
  Ipv4Header.GetSource h' = Ipv4Header.GetSource h /\ Ipv4Header.GetDestination h' = Ipv4Header.GetDestination h /\
  Ipv4Header.GetIdentification h' = Ipv4Header.GetIdentification h /\
  Ipv4Header.GetProtocol h' = Ipv4Header.GetProtocol h /\ Ipv4Header.GetTtl h' = Ipv4Header.GetTtl h /\
  Ipv4Header.GetTos h' = Ipv4Header.GetTos h /\ Ipv4Header.GetSerializedSize h' = Ipv4Header.GetSerializedSize h.

Lemma same_datagram_trans h1 h2 h3 : same_datagram h1 h2 -> same_datagram h2 h3 -> same_datagram h1 h3.
Proof. unfold same_datagram. naive_solver congruence. Qed.

Lemma same_datagram_key h h' : same_datagram h h' -> fragment_key h' = fragment_key h.
Proof. intros (E1 & E2 & E3 & E4 & _). unfold fragment_key. by rewrite E1, E2, E3, E4. Qed.

Lemma fragment_header_ok checksum h last more off size :
  off mod 8 = 0 -> in_range 16 off -> in_range 16 size ->
  exists h', fragment_header checksum h last more off size = Ok h' /\ same_datagram h h' /\
    Ipv4Header.GetFragmentOffset h' = off /\ Ipv4Header.GetPayloadSize h' = size /\
    Ipv4Header.IsLastFragment h' = (negb more && last).
Proof.
  intros Hmod Hoff Hsize. unfold fragment_header, Ipv4Header.SetFragmentOffset.
  rewrite (wrap_small 16 off) by done. change 7 with (Z.ones 3). rewrite Z.land_ones by lia. change (2 ^ 3) with 8.
  rewrite Hmod. simpl. eexists. split; [done|].
  assert (u16 size = size) as Es by (by apply wrap_small).
  destruct checksum, more, last; simpl; rewrite ?Es; split_and!; try done;
    solve [apply IsLast_more|apply IsLast_last].
Qed.

(** A fragment as a tile of the datagram. *)
Definition tile_of (f : Packet * Ipv4Header) : tile :=
  mkTile f.1 (Ipv4Header.GetFragmentOffset f.2) (negb (Ipv4Header.IsLastFragment f.2)).

(** What the loop makes of the data from [offset] on. *)
Definition fragments_of (p : Packet) (h : Ipv4Header) (fsize offset : Z) (fs : list (Packet * Ipv4Header)) : Prop :=
  split (offset + Ipv4Header.GetFragmentOffset h) (negb (Ipv4Header.IsLastFragment h))
    (drop (Z.to_nat offset) (p_data p)) (tile_of <$> fs) /\
  Forall (fun f => same_datagram h f.2 /\ Z.of_nat (length (p_data f.1)) <= fsize /\
                   Ipv4Header.GetPayloadSize f.2 = Z.of_nat (length (p_data f.1)) /\
                   Ipv4Header.GetFragmentOffset f.2 mod 8 = 0) fs.

(** One iteration cuts the octets [offset, offset + size) off the packet. *)
Lemma fragment_step checksum p h more offset size :
  Ipv4Header.GetFragmentOffset h mod 8 = 0 -> 0 <= Ipv4Header.GetFragmentOffset h ->
  Ipv4Header.GetFragmentOffset h + Z.of_nat (length (p_data p)) < 2 ^ 16 ->
  offset mod 8 = 0 -> 0 <= offset -> 0 < size -> offset + size <= Z.of_nat (length (p_data p)) ->
  exists q h', CreateFragment offset size p = Ok q /\
    fragment_header checksum h (Ipv4Header.IsLastFragment h) more (offset + Ipv4Header.GetFragmentOffset h) size = Ok h' /\
    Z.of_nat (length (p_data q)) = size /\
    drop (Z.to_nat offset) (p_data p) = p_data q ++ drop (Z.to_nat (offset + size)) (p_data p) /\
    tile_of (q, h') = mkTile q (offset + Ipv4Header.GetFragmentOffset h) (more || negb (Ipv4Header.IsLastFragment h)) /\
    same_datagram h h' /\ Ipv4Header.GetPayloadSize h' = Z.of_nat (length (p_data q)) /\
    Ipv4Header.GetFragmentOffset h' mod 8 = 0.
Proof.
  intros Hm0 H0 Hn Hmo Ho Hs Hsn. set (n := Z.of_nat (length (p_data p))) in *.
  destruct (CreateFragment_ok offset size p) as (q & Eq & _ & Hq); [lia|lia|fold n; lia|fold n; lia|].
  assert (Z.of_nat (length (p_data q)) = size) as Hql.
  { rewrite Hq, length_take, length_drop. fold n. lia. }
  destruct (fragment_header_ok checksum h (Ipv4Header.IsLastFragment h) more
              (offset + Ipv4Header.GetFragmentOffset h) size) as (h' & Eh & Hsame & Hoff & Hpay & Hl).
  { rewrite Z.add_mod, Hmo, Hm0 by lia. done. }
  { unfold in_range. lia. }
  { unfold in_range. lia. }
  exists q, h'. split_and!; try done.
  - rewrite Hq, <- (take_drop (Z.to_nat size) (drop (Z.to_nat offset) (p_data p))) at 1.
    rewrite drop_drop. do 2 f_equal. lia.
  - unfold tile_of. simpl. rewrite Hoff, Hl. f_equal. by destruct more, (Ipv4Header.IsLastFragment h).
  - by rewrite Hpay.
  - rewrite Hoff, Z.add_mod, Hmo, Hm0 by lia. done.
Qed.

Lemma fragment_loop_ok checksum p h fsize fuel : forall offset,
  Ipv4Header.GetFragmentOffset h mod 8 = 0 -> 0 <= Ipv4Header.GetFragmentOffset h ->
  Ipv4Header.GetFragmentOffset h + Z.of_nat (length (p_data p)) < 2 ^ 16 ->
  fsize mod 8 = 0 -> 8 <= fsize < 2 ^ 17 -> offset mod 8 = 0 -> 0 <= offset < Z.of_nat (length (p_data p)) ->
  (Z.of_nat (length (p_data p)) - offset) / 8 < Z.of_nat fuel ->
  exists fs, fragment_loop checksum fuel p h fsize offset = Ok fs /\ fragments_of p h fsize offset fs.
Proof.
  induction fuel as [|fuel IH]; intros offset Hm0 H0 Hn Hmf Hf Hmo Ho Hfuel.
  { assert (0 <= (Z.of_nat (length (p_data p)) - offset) / 8) by (apply Z.div_pos; lia). lia. }
  set (n := Z.of_nat (length (p_data p))) in *.
  assert (GetSize p = n) as Hsz by (apply wrap_small; unfold in_range; fold n; lia).
  cbn [fragment_loop]. rewrite Hsz, (wrap_small 32 (offset + fsize)) by (unfold in_range; lia).
  set (more := offset + fsize <? n). set (size := if more then fsize else u32 (n - offset)).
  assert (0 < size /\ size <= fsize /\ offset + size <= n /\ (more = false -> offset + size = n)
          /\ (more = true -> offset + size < n /\ size = fsize)) as (Hs & Hsf & Hsn & Hlast & Hmore).
  { unfold size, more. destruct (Z.ltb_spec (offset + fsize) n); [split_and!; lia|].
    rewrite wrap_small by (unfold in_range; lia). split_and!; lia || done. }
  destruct (fragment_step checksum p h more offset size) as
    (q & h' & Eq & Eh & Hql & Hdrop & Ht & Hsame & Hpay & Hmod); try done; [lia|].
  rewrite Eq. cbn [mbind res_bind]. rewrite Eh. cbn [mbind res_bind].
  assert (p_data q <> []) as Hne by (intros E; rewrite E in Hql; simpl in Hql; lia).
  assert (Z.of_nat (length (p_data q)) <= fsize) as Hle by lia.
  destruct more eqn:Emore.
  - destruct (Hmore eq_refl) as [Hlt Esz].
    assert (u16 (offset + size) = offset + size) as -> by (apply wrap_small; unfold in_range; lia).
    destruct (IH (offset + size)) as (fs & Efs & Hsplit & Hall); try done; [|lia| |].
    + rewrite Esz, Z.add_mod, Hmo, Hmf by lia. done.
    + assert ((n - offset) = (n - (offset + size)) + size) as E by lia. rewrite E in Hfuel.
      assert ((n - (offset + size)) / 8 + 1 <= (n - (offset + size) + size) / 8); [|lia].
      rewrite <- Z.div_add by lia. apply Z.div_le_mono; lia.
    + rewrite Efs. cbn [mbind res_bind]. eexists. split; [done|]. split; [|by constructor].
      rewrite fmap_cons, Ht, Hdrop. simpl. apply (split_app _ _ _ _ [_]); [by apply split_one|].
      rewrite Hql. replace (offset + Ipv4Header.GetFragmentOffset h + size)
        with (offset + size + Ipv4Header.GetFragmentOffset h) by lia. done.
  - specialize (Hlast eq_refl). eexists. split; [done|]. split; [|constructor; [done|constructor]].
    rewrite Hdrop, (drop_ge (p_data p)), app_nil_r by lia. simpl. rewrite Ht. by apply split_one.
Qed.

Lemma fragment_size_ok mtu h :
  28 <= mtu < 2 ^ 17 -> Ipv4Header.GetSerializedSize h = 20 ->
  fragment_size mtu h mod 8 = 0 /\ 8 <= fragment_size mtu h <= mtu - 20.
Proof.
  intros Hm Hh. unfold fragment_size. rewrite Hh, wrap_small by (unfold in_range; lia).
  pose proof (Z.mod_pos_bound (mtu - 20) 8). pose proof (Z.div_mod (mtu - 20) 8).
  assert (mtu - 20 - (mtu - 20) mod 8 = 8 * ((mtu - 20) / 8)) as E by lia.
  split; [rewrite E, Z.mul_comm; apply Z.mod_mul; lia|]. split; [|lia].
  rewrite E. assert (1 <= (mtu - 20) / 8) by (apply Z.div_le_lower_bound; lia). lia.
Qed.

(** The requirements of [DoFragmentation] on a datagram (or fragment) and an MTU. *)
Record fragmentable (p : Packet) (h : Ipv4Header) (mtu : Z) : Prop := {
  fg_header : Ipv4Header.GetSerializedSize h = 20;
  fg_mtu : 28 <= mtu < 2 ^ 17;
  fg_offset : Ipv4Header.GetFragmentOffset h mod 8 = 0 /\ 0 <= Ipv4Header.GetFragmentOffset h;
  fg_data : p_data p <> [];
  fg_size : Ipv4Header.GetFragmentOffset h + Z.of_nat (length (p_data p)) < 2 ^ 16 }.

Lemma DoFragmentation_ok checksum p h mtu :
  fragmentable p h mtu ->
  exists fs, DoFragmentation checksum max_fragments p h mtu = Ok fs /\
    fragments_of p h (fragment_size mtu h) 0 fs /\ fragment_size mtu h <= mtu - 20.
Proof.
  intros [Hh Hm [Ho H0] Hd Hn]. destruct (fragment_size_ok mtu h Hm Hh) as [Hf8 Hf].
  unfold DoFragmentation. rewrite Hh. cbn [Z.eqb ns_assert mbind res_bind Z.mul Pos.mul Pos.eqb Pos.add].
  assert (length (p_data p) <> 0)%nat by (by destruct (p_data p)).
  destruct (fragment_loop_ok checksum p h (fragment_size mtu h) max_fragments 0) as (fs & E & Hfs); try done; try lia.
  { unfold max_fragments. rewrite Z2Nat.id by lia.
    assert ((Z.of_nat (length (p_data p)) - 0) / 8 <= 2 ^ 13); [|lia].
    apply Z.div_le_upper_bound; lia. }
  exists fs. split; [exact E|]. split; [done|lia].
Qed.

(** ** Crossing a path of links *)

(** Every fragment is sent over a link with this MTU. *)
Fixpoint over_link (checksum : bool) (mtu : Z) (l : list (Packet * Ipv4Header)) : res (list (Packet * Ipv4Header)) :=
  match l with
  | [] => mret []
  | (p, h) :: l' =>
      fs ← fragments_for checksum max_fragments p h mtu;
      rest ← over_link checksum mtu l';
      mret (fs ++ rest)
  end.

Fixpoint over_path (checksum : bool) (mtus : list Z) (l : list (Packet * Ipv4Header)) :
    res (list (Packet * Ipv4Header)) :=
  match mtus with
  | [] => mret l
  | mtu :: r => l' ← over_link checksum mtu l; over_path checksum r l'
  end.

(** A set of fragments of the datagram [h] that holds the data [d]. *)
Record carries (h : Ipv4Header) (d : bytes) (fs : list (Packet * Ipv4Header)) : Prop := {
  ca_split : split 0 false d (tile_of <$> fs);
  ca_same f : f ∈ fs -> same_datagram h f.2 /\ Ipv4Header.GetFragmentOffset f.2 mod 8 = 0 }.

Lemma carries_member h d fs f :
  carries h d fs -> Z.of_nat (length d) < 2 ^ 16 -> f ∈ fs ->
  p_data f.1 <> [] /\ 0 <= Ipv4Header.GetFragmentOffset f.2 /\
  Ipv4Header.GetFragmentOffset f.2 + Z.of_nat (length (p_data f.1)) < 2 ^ 16.
Proof.
  intros [Hs _] Hd Hf. pose proof (ti_bound _ _ _ _ (split_tiling _ _ _ _ Hs) (tile_of f)) as Hb.
  destruct Hb as (H0 & Hp & He); [by apply list_elem_of_fmap_2|]. unfold t_end, t_len in *. simpl in *.
  split_and!; [|lia..]. intros E. rewrite E in Hp. simpl in Hp. lia.
Qed.

Lemma fragments_for_ok checksum h d fs f mtu :
  carries h d fs -> Z.of_nat (length d) < 2 ^ 16 -> Ipv4Header.GetSerializedSize h = 20 -> 28 <= mtu < 2 ^ 17 ->
  f ∈ fs ->
  exists g, fragments_for checksum max_fragments f.1 f.2 mtu = Ok g /\
    split (Ipv4Header.GetFragmentOffset f.2) (negb (Ipv4Header.IsLastFragment f.2)) (p_data f.1) (tile_of <$> g) /\
    forall x, x ∈ g -> same_datagram h x.2 /\ Ipv4Header.GetFragmentOffset x.2 mod 8 = 0 /\
      Z.of_nat (length (p_data x.1)) + 20 <= mtu.
Proof.
  intros Hc Hd Hh Hm Hf. destruct (carries_member h d fs f Hc Hd Hf) as (Hne & H0 & Hn).
  destruct (ca_same _ _ _ Hc f Hf) as [Hsame Hmod].
  assert (Ipv4Header.GetSerializedSize f.2 = 20) as Hh2 by (destruct Hsame as (_ & _ & _ & _ & _ & _ & E); congruence).
  unfold fragments_for. rewrite Hh2.
  assert (GetSize f.1 = Z.of_nat (length (p_data f.1))) as -> by (apply wrap_small; unfold in_range; lia).
  rewrite (wrap_small 32) by (unfold in_range; lia).
  destruct (Z.ltb_spec mtu (Z.of_nat (length (p_data f.1)) + 20)).
  - destruct (DoFragmentation_ok checksum f.1 f.2 mtu) as (g & E & [Hs Hall] & Hle); [by split|].
    exists g. split; [done|]. split; [done|]. rewrite Forall_forall in Hall. intros x Hx.
    destruct (Hall x Hx) as (Hsx & Hlen & _ & Hmx). split; [by eapply same_datagram_trans|]. split; [done|lia].
  - exists [f]. destruct f as [q hq]. split; [done|]. split; [by apply split_one|].
    intros x ->%list_elem_of_singleton. split; [done|]. split; [done|simpl in *; lia].
Qed.

Lemma split_refine_list o m d ts : split o m d ts -> forall gs,
  Forall2 (fun t g => split (t_offset t) (t_more t) (p_data (t_packet t)) g) ts gs -> split o m d (concat gs).
Proof.
  induction 1 as [o m p Hp|o m d1 d2 ts1 ts2 _ IH1 _ IH2]; intros gs Hg.
  - apply Forall2_cons_inv_l in Hg as (g & gs' & Hg & ->%Forall2_nil_inv_l & ->). simpl. by rewrite app_nil_r.
  - apply Forall2_app_inv_l in Hg as (g1 & g2 & H1 & H2 & ->). rewrite concat_app. constructor; auto.
Qed.

Lemma over_link_ok checksum h d fs mtu :
  carries h d fs -> Z.of_nat (length d) < 2 ^ 16 -> Ipv4Header.GetSerializedSize h = 20 -> 28 <= mtu < 2 ^ 17 ->
  exists gs, over_link checksum mtu fs = Ok gs /\ carries h d gs /\
    Forall (fun x => Z.of_nat (length (p_data x.1)) + 20 <= mtu) gs.
Proof.
  intros Hc Hd Hh Hm.
  assert (forall l, (forall f, f ∈ l -> f ∈ fs) ->
    exists gs, over_link checksum mtu l = Ok (concat gs) /\
      Forall2 (fun t g => split (t_offset t) (t_more t) (p_data (t_packet t)) (tile_of <$> g)) (tile_of <$> l) gs /\
      forall x, x ∈ concat gs -> same_datagram h x.2 /\ Ipv4Header.GetFragmentOffset x.2 mod 8 = 0 /\
        Z.of_nat (length (p_data x.1)) + 20 <= mtu) as Hl.
  { induction l as [|f l IH]; intros Hin.
    - exists []. split; [done|]. split; [constructor|]. by intros x ?%elem_of_nil.
    - destruct IH as (gs & E & Hgs & Hall); [intros x Hx; apply Hin; by right|].
      destruct (fragments_for_ok checksum h d fs f mtu) as (g & Eg & Hg & Hallg); [done..|apply Hin; by left|].
      exists (g :: gs). destruct f as [q hq]. simpl in *. rewrite Eg. simpl. rewrite E. split; [done|].
      split; [by constructor|]. intros x [Hx|Hx]%elem_of_app; auto. }
  destruct (Hl fs (fun _ H => H)) as (gs & E & Hgs & Hall). exists (concat gs). split; [done|]. split; [split|].
  - replace (tile_of <$> concat gs) with (concat (fmap (M:=list) (fmap (M:=list) tile_of) gs)) by
      (clear; induction gs as [|g gs IH]; [done|]; rewrite !fmap_cons; cbn [concat]; by rewrite fmap_app, IH).
    apply (split_refine_list _ _ _ _ (ca_split _ _ _ Hc)). by apply Forall2_fmap_r.
  - intros f Hf. destruct (Hall f Hf) as (? & ? & _). done.
  - apply Forall_forall. intros x Hx. by apply Hall.
Qed.

(** The fragments fit the last link of the path. *)
Definition fit (mtus : list Z) (gs : list (Packet * Ipv4Header)) : Prop :=
  forall mtu, last mtus = Some mtu -> Forall (fun x => Z.of_nat (length (p_data x.1)) + 20 <= mtu) gs.

Lemma over_path_ok checksum h d mtus : forall fs,
  carries h d fs -> Z.of_nat (length d) < 2 ^ 16 -> Ipv4Header.GetSerializedSize h = 20 ->
  Forall (fun mtu => 28 <= mtu < 2 ^ 17) mtus ->
  exists gs, over_path checksum mtus fs = Ok gs /\ carries h d gs /\ fit mtus gs.
Proof.
  induction mtus as [|mtu mtus IH]; intros fs Hc Hd Hh Hm; simpl; [by exists fs|].
  apply Forall_cons in Hm as [Hm Hms].
  destruct (over_link_ok checksum h d fs mtu) as (l & -> & Hl & Hfit); [done..|].
  destruct (IH l Hl Hd Hh Hms) as (gs & E & Hg & Hlast). exists gs. split; [done|]. split; [done|].
  destruct mtus as [|m mtus]; [|done]. injection E as ->. by intros ? [= <-].
Qed.

(** ** Arrivals *)

Record arrival := mkArrival { a_now : Z; a_packet : Packet; a_header : Ipv4Header; a_iif : Z }.

Definition a_key (a : arrival) : Z * Z := fragment_key (a_header a).
Definition a_fragment (a : arrival) : Packet * Ipv4Header := (a_packet a, a_header a).

(** Fragments of any datagrams arrive; for each, its key and the datagram that
    it completes, if any. *)
Fixpoint process_all (expiration : Z) (l : list arrival) (r : reassembly) :
    res (list ((Z * Z) * option bytes) * reassembly) :=
  match l with
  | [] => mret ([], r)
  | a :: l' =>
      '(done, p, r1) ← ProcessFragment expiration (a_now a) (a_packet a) (a_header a) (a_iif a) r;
      '(outs, r2) ← process_all expiration l' r1;
      mret ((a_key a, if (done : bool) then Some (p_data p) else None) :: outs, r2)
  end.

Lemma join_total l : forall p e, exists p', join p e l = Ok p'.
Proof.
  induction l as [|[q off] l IH]; intros p e; simpl; [by exists p|].
  destruct (Z.ltb_spec off e); simpl; [|apply IH].
  destruct (Z.ltb_spec (e - off) (GetSize q)); simpl; [|apply IH].
  assert (in_range 32 (GetSize q)) as Hq by (by apply wrap_range). unfold in_range in Hq.
  unfold CreateFragment. rewrite (wrap_small 32 (GetSize q - (e - off))) by (unfold in_range; lia).
  rewrite (wrap_small 32 (e - off + _)) by (unfold in_range; lia).
  rewrite (proj2 (Z.leb_le _ _)) by lia. simpl. apply IH.
Qed.

Lemma ProcessFragment_total expiration now p h iif r :
  exists b q r', ProcessFragment expiration now p h iif r = Ok (b, q, r').
Proof.
  unfold ProcessFragment. destruct (match _ !! _ with Some f => _ | None => _ end) as [f r0].
  destruct (IsEntire _) eqn:E; [|by eexists _, _, _].
  unfold GetPacket. destruct (m_list _) as [|[q off] l] eqn:El.
  - unfold IsEntire in E. rewrite El in E. simpl in E. by rewrite andb_false_r in E.
  - destruct (join_total l q (u16 (GetSize q))) as [p' ->]. by eexists _, _, _.
Qed.

(** The entry of a key, before and after a fragment. *)
Definition after_fragment (o : option Fragments) (p : Packet) (h : Ipv4Header) : Fragments :=
  AddFragment p (Ipv4Header.GetFragmentOffset h) (negb (Ipv4Header.IsLastFragment h)) (default new_fragments o).

Lemma ProcessFragment_entry expiration now p h iif r b q r' :
  ProcessFragment expiration now p h iif r = Ok (b, q, r') ->
  let f := after_fragment (m_fragments r !! fragment_key h) p h in
  b = IsEntire f /\ (b = true -> GetPacket f = Ok q) /\
  m_fragments r' !! fragment_key h = (if b then None else Some f) /\
  forall k, k <> fragment_key h -> m_fragments r' !! k = m_fragments r !! k.
Proof.
  intros E f. unfold ProcessFragment in E.
  assert (exists r0, (match m_fragments r !! fragment_key h with
            | Some g => (g, r)
            | None => (new_fragments, SetTimeout expiration now (fragment_key h) h iif
                (set_fragments (<[fragment_key h := new_fragments]> (m_fragments r)) r))
            end) = (default new_fragments (m_fragments r !! fragment_key h), r0) /\
            forall k, k <> fragment_key h -> m_fragments r0 !! k = m_fragments r !! k) as (r0 & Er & Hr0).
  { destruct (m_fragments r !! fragment_key h) as [g|]; eexists; split; try done.
    intros k Hk. simpl. by rewrite lookup_insert_ne. }
  rewrite Er in E. fold (after_fragment (m_fragments r !! fragment_key h) p h) in E. fold f in E.
  destruct (IsEntire f) eqn:Ef.
  - apply bind_ok in E as (w & Ew & E). injection E as <- <- <-. split_and!; try done.
    + simpl. by rewrite lookup_delete_eq.
    + intros k Hk. simpl. rewrite lookup_delete_ne by done. by apply Hr0.
  - injection E as <- <- <-. split_and!; try done.
    + simpl. by rewrite lookup_insert_eq.
    + intros k Hk. simpl. rewrite lookup_insert_ne by done. by apply Hr0.
Qed.

Section datagram.
Context (h : Ipv4Header) (d : bytes) (fs : list (Packet * Ipv4Header)).
Hypothesis Hc : carries h d fs.
Hypothesis Hd : Z.of_nat (length d) < 2 ^ 16.

Abbreviation ts := (tile_of <$> fs).

(** The entry of the datagram after the tiles [ws] have arrived. *)
Definition entry_holds (ws : list tile) (o : option Fragments) : Prop :=
  match ws with
  | [] => o = None
  | _ => exists f, o = Some f /\ received ws f
  end.

Lemma entry_received ws o : entry_holds ws o -> received ws (default new_fragments o).
Proof. destruct ws; [intros ->; apply received_nil|]. by intros (f & -> & ?). Qed.

Lemma tiles : tiling 0 false d ts.
Proof. apply split_tiling, (ca_split _ _ _ Hc). Qed.

Lemma after_received ws o p hp :
  entry_holds ws o -> received (tile_of (p, hp) :: ws) (after_fragment o p hp).
Proof. intros H. by apply (received_snoc ws _ (tile_of (p, hp))), entry_received. Qed.

(** A fragment that is not the last to arrive, and the last one. *)
Lemma step_more expiration a r b q r' ws rest :
  a_key a = fragment_key h -> entry_holds ws (m_fragments r !! fragment_key h) ->
  ws ++ tile_of (a_fragment a) :: rest ≡ₚ ts ->
  ProcessFragment expiration (a_now a) (a_packet a) (a_header a) (a_iif a) r = Ok (b, q, r') ->
  (rest <> [] -> b = false /\ entry_holds (tile_of (a_fragment a) :: ws) (m_fragments r' !! fragment_key h)) /\
  (rest = [] -> b = true /\ p_data q = d /\ m_fragments r' !! fragment_key h = None).
Proof.
  intros Hk He Hp E. destruct (ProcessFragment_entry _ _ _ _ _ _ _ _ _ E) as (Hb & Hq & Hr' & _).
  unfold a_key in Hk. rewrite Hk in *.
  pose proof (after_received _ _ (a_packet a) (a_header a) He) as Hrc. fold (a_fragment a) in Hrc.
  set (f := after_fragment _ _ _) in *. set (t := tile_of (a_fragment a)) in *.
  assert (forall u, u ∈ t :: ws -> u ∈ ts) as Hin.
  { intros u Hu. rewrite <- Hp, elem_of_app. apply elem_of_cons in Hu as [->|Hu]; [right; by left|by left]. }
  pose proof (IsEntire_iff d ts tiles Hd _ f Hrc Hin) as Hiff.
  split.
  - intros Hne. assert (b = false) as ->.
    { rewrite Hb. apply not_true_is_false. intros Ht. apply (proj1 Hiff) with (t := default t (head rest)) in Ht.
      - pose proof (split_NoDup _ _ _ _ (ca_split _ _ _ Hc)) as Hnd. rewrite <- Hp in Hnd.
        destruct rest as [|u rest]; [done|]. simpl in Ht.
        assert (NoDup (u :: t :: ws ++ rest)) as Hnd2.
        { assert (u :: t :: ws ++ rest ≡ₚ ws ++ t :: u :: rest) as ->; [|done]. solve_Permutation. }
        apply NoDup_cons in Hnd2 as [Hu _]. apply Hu.
        apply elem_of_cons in Ht as [->|Ht]; [by left|]. right. apply elem_of_app. by left.
      - rewrite <- Hp, elem_of_app. right. right. destruct rest; [done|by left]. }
    split; [done|]. rewrite Hr'. simpl. by exists f.
  - intros ->. assert (b = true) as ->.
    { rewrite Hb. apply Hiff. intros u Hu. rewrite <- Hp, elem_of_app in Hu.
      destruct Hu as [Hu| ->%list_elem_of_singleton]; [by right|by left]. }
    split; [done|]. split; [|done].
    destruct (GetPacket_data d ts tiles Hd _ f Hrc Hin) as (q' & Eq & Hqd); [done|].
    rewrite (Hq eq_refl) in Eq. by injection Eq as ->.
Qed.

Lemma process_all_ok expiration l : forall r ws,
  entry_holds ws (m_fragments r !! fragment_key h) ->
  (ws = [] \/ filter (fun a => a_key a = fragment_key h) l <> []) ->
  (filter (fun a => a_key a = fragment_key h) l = [] \/
   ws ++ (tile_of ∘ a_fragment <$> filter (fun a => a_key a = fragment_key h) l) ≡ₚ ts) ->
  exists outs r', process_all expiration l r = Ok (outs, r') /\
    filter (fun o => o.1 = fragment_key h) outs =
      (match length (filter (fun a => a_key a = fragment_key h) l) with
       | O => []
       | S n => replicate n (fragment_key h, None) ++ [(fragment_key h, Some d)]
       end) /\
    m_fragments r' !! fragment_key h = None.
Proof.
  induction l as [|a l IH]; intros r ws He Hws Hp.
  { exists [], r. split; [done|]. split; [done|]. destruct Hws as [->|]; [done|done]. }
  destruct (ProcessFragment_total expiration (a_now a) (a_packet a) (a_header a) (a_iif a) r) as (b & q & r1 & E).
  cbn [process_all]. rewrite E. cbn [mbind res_bind].
  destruct (decide (a_key a = fragment_key h)) as [Hk|Hk].
  - rewrite filter_cons_True in Hp by done. destruct Hp as [|Hp]; [done|]. rewrite fmap_cons in Hp.
    destruct (step_more expiration a r b q r1 ws _ Hk He Hp E) as [Hmore Hlast].
    rewrite (filter_cons_True _ a l) by done. cbn [length].
    destruct (filter (fun a => a_key a = fragment_key h) l) as [|a' l'] eqn:El.
    + destruct (Hlast eq_refl) as (-> & Hq & Hnone). destruct (IH r1 []) as (outs & r' & -> & Ho & Hn);
        [done|by left|by left|].
      eexists _, _. split; [done|]. rewrite filter_cons_True by done. rewrite Ho, Hk. simpl. by rewrite Hq.
    + destruct Hmore as [-> He']; [done|]. destruct (IH r1 (tile_of (a_fragment a) :: ws)) as (outs & r' & -> & Ho & Hn).
      * done.
      * by right.
      * right. rewrite <- Hp. solve_Permutation.
      * eexists _, _. split; [done|]. rewrite filter_cons_True by done. rewrite Ho, Hk. done.
  - rewrite filter_cons_False in * by done.
    destruct (ProcessFragment_entry _ _ _ _ _ _ _ _ _ E) as (_ & _ & _ & Hoth).
    destruct (IH r1 ws) as (outs & r' & -> & Ho & Hn); [by rewrite Hoth by done|done|done|].
    eexists _, _. split; [done|]. rewrite filter_cons_False by done. done.
Qed.
End datagram.

(** What the receiver observes of the datagram [h]. *)
Definition completions (h : Ipv4Header) (outs : list ((Z * Z) * option bytes)) : list (option bytes) :=
  snd <$> filter (fun o => o.1 = fragment_key h) outs.

(** The arrivals of the fragments [fs] of the datagram [h], in any order and mixed
    with fragments of other datagrams. *)
Definition mixed_arrivals (h : Ipv4Header) (fs : list (Packet * Ipv4Header)) (l : list arrival) : Prop :=
  a_fragment <$> filter (fun a => a_key a = fragment_key h) l ≡ₚ fs.

(** C23. A datagram survives fragmentation.  Sent over any path of links with MTUs
    of at least 28 octets, a datagram is fragmented and its fragments are
    fragmented again until they fit the last link; when the fragments arrive,
    in any order and interleaved with fragments of any other datagrams, the
    receiver never fails, completes this datagram exactly once, at its last
    fragment, with the data that was sent, and forgets it. *)
Theorem datagram_survives_path checksum expiration p h mtus :
  p_data p <> [] -> Z.of_nat (length (p_data p)) < 2 ^ 16 -> Ipv4Header.GetSerializedSize h = 20 ->
  Ipv4Header.GetFragmentOffset h = 0 -> Ipv4Header.IsLastFragment h = true ->
  Forall (fun mtu => 28 <= mtu < 2 ^ 17) mtus ->
  exists fs, over_path checksum mtus [(p, h)] = Ok fs /\ fit mtus fs /\
    forall l r, mixed_arrivals h fs l -> m_fragments r !! fragment_key h = None ->
      exists outs r', process_all expiration l r = Ok (outs, r') /\
        completions h outs = replicate (length fs - 1) None ++ [Some (p_data p)] /\
        m_fragments r' !! fragment_key h = None.
Proof.
  intros Hne Hlen Hh Ho Hl Hm.
  assert (carries h (p_data p) [(p, h)]) as Hc0.
  { split; [|intros f ->%list_elem_of_singleton; simpl; by rewrite Ho].
    unfold tile_of. simpl. rewrite Ho, Hl. by apply split_one. }
  destruct (over_path_ok checksum h (p_data p) mtus _ Hc0 Hlen Hh Hm) as (fs & E & Hc & Hfit).
  exists fs. split; [done|]. split; [done|]. intros l r Hp Hr.
  destruct (process_all_ok h (p_data p) fs Hc Hlen expiration l r []) as (outs & r' & Eo & Hout & Hnone);
    [done|by left|right; rewrite list_fmap_compose; by apply fmap_Permutation|].
  exists outs, r'. split; [done|]. split; [|done]. unfold completions. rewrite Hout.
  pose proof (Permutation_length Hp) as HL. rewrite length_fmap in HL. rewrite HL.
  destruct fs as [|f fs]; [by destruct (split_nonempty _ _ _ _ (ca_split _ _ _ Hc))|].
  simpl. rewrite fmap_app, fmap_replicate, Nat.sub_0_r. done.
Qed.

(** ** A datagram of 48 octets over links with MTUs 44 and 36 *)

Definition sent_data : bytes := Z.of_nat <$> seq 0 48.
Definition sent_header : Ipv4Header :=
  Ipv4Header.SetIdentification 7 (Ipv4Header.SetDestination 9 (Ipv4Header.SetSource 8 Ipv4Header.new_Ipv4Header)).
Definition sent_fragments : list (Packet * Ipv4Header) :=
  match over_path true [44; 36] [(mkPacket 1 sent_data, sent_header)] with Ok fs => fs | Err _ => [] end.
Definition other_fragment : arrival :=
  mkArrival 0 (mkPacket 2 [1; 2]) (Ipv4Header.SetMoreFragments (Ipv4Header.SetIdentification 8 sent_header)) 1.
Definition arrivals : list arrival :=
  other_fragment :: reverse ((fun f => mkArrival 1 f.1 f.2 1) <$> sent_fragments).

Lemma datagram_survives_path_witness :
  length sent_fragments = 4%nat /\
  exists outs r', process_all 30 arrivals (mkReassembly ∅ [] []) = Ok (outs, r') /\
    completions sent_header outs = [None; None; None; Some sent_data].
Proof.
  split; [vm_compute; reflexivity|].
  destruct (datagram_survives_path true 30 (mkPacket 1 sent_data) sent_header [44; 36]) as (fs & E & _ & Hall);
    [done|done|done|done|done|repeat constructor; done|].
  assert (fs = sent_fragments) as -> by (unfold sent_fragments; by rewrite E).
  destruct (Hall arrivals (mkReassembly ∅ [] [])) as (outs & r' & Eo & Hc & _); [|done|].
  - unfold mixed_arrivals.
    assert (a_fragment <$> filter (fun a => a_key a = fragment_key sent_header) arrivals = reverse sent_fragments) as ->
      by (vm_compute; reflexivity).
    apply reverse_Permutation.
  - exists outs, r'. split; [exact Eo|exact Hc].
Defined.
