(* ===== verification/ReassemblyTimers.v ===== *)
(** * Incomplete datagrams expire

    Arrivals and timer events as a step relation on the clock and the reassembly
    state; the invariant that ties the fragment map, the list of timeouts and
    the scheduled timers together. *)

From S2P Require Import Prelude Bytes Packet Fragment FragmentSpec.
From S2P Require Ipv4Header.
Import Ipv4Header (Ipv4Header).

Section timers.
Context (expiration : Z).

(** The state after one of the timers, at time [t], has left the event list. *)
Definition without_timer (l1 l2 : list Z) (r : reassembly) : reassembly :=
  mkReassembly (m_fragments r) (m_timeoutEventList r) (l1 ++ l2).

(** A fragment arrives no later than the next timer; the next timer fires. *)
Inductive rstep : Z * reassembly -> Z * reassembly -> Prop :=
| rs_arrive now now' p h iif r b q r' :
    now <= now' -> (forall t, t ∈ m_timers r -> now' <= t) ->
    ProcessFragment expiration now' p h iif r = Ok (b, q, r') -> rstep (now, r) (now', r')
| rs_fire now t l1 l2 empty r calls r' :
    m_timers r = l1 ++ t :: l2 -> (forall t', t' ∈ m_timers r -> t <= t') ->
    HandleTimeout empty t (without_timer l1 l2 r) = Ok (calls, r') -> rstep (now, r) (t, r').

Definition by_time (l : list timeout) : Prop := StronglySorted (fun x y => to_time x <= to_time y) l.

(** The part of the invariant that does not mention the timers. *)
Record entries_inv (now : Z) (m : gmap (Z * Z) Fragments) (l : list timeout) : Prop := {
  ei_keys k : is_Some (m !! k) <-> k ∈ to_key <$> l;
  ei_nodup : NoDup (to_key <$> l);
  ei_fragments k f : m !! k = Some f -> m_list f <> [];
  ei_sorted : by_time l;
  ei_now t : t ∈ l -> now <= to_time t <= now + expiration }.

Record timers_inv (now : Z) (r : reassembly) : Prop := {
  ti_entries : entries_inv now (m_fragments r) (m_timeoutEventList r);
  ti_future t : t ∈ m_timers r -> now <= t;
  ti_timer e l : m_timeoutEventList r = e :: l -> exists t, t ∈ m_timers r /\ t <= to_time e }.

Lemma join_partial_total l : forall p e, exists p', join_partial p e l = Ok p'.
Proof.
  induction l as [|[q off] l IH]; intros p e; simpl; [by exists p|].
  destruct (Z.ltb_spec off e); simpl; [|destruct (e =? off); apply IH].
  unfold CreateFragment. rewrite (wrap_add_r 32), Zplus_minus.
  rewrite (wrap_small 32 (GetSize q)) by (by apply wrap_range). rewrite Z.leb_refl. simpl. apply IH.
Qed.

Lemma GetPartialPacket_total empty f : m_list f <> [] -> exists p, GetPartialPacket empty f = Ok p.
Proof.
  unfold GetPartialPacket. destruct (m_list f) as [|[q off] l]; [done|]. intros _.
  destruct (0 <? off); [by exists empty|]. apply join_partial_total.
Qed.

Lemma AddFragment_nonempty p off more f : m_list (AddFragment p off more f) <> [].
Proof.
  unfold AddFragment. destruct (m_list f) as [|y l]; simpl; [done|].
  destruct (_ <? _); simpl; [done|]. by destruct (insert_fragment (p, off) l).
Qed.

(** ** The loop over the expired entries *)

Lemma entries_inv_tail now m e l :
  entries_inv now m (e :: l) -> entries_inv now (delete (to_key e) m) l.
Proof.
  intros [Hk Hn Hf Hs Ht]. rewrite fmap_cons in *. apply NoDup_cons in Hn as [Hne Hn].
  apply StronglySorted_cons in Hs as [_ Hs]. split; try done.
  - intros k. destruct (decide (k = to_key e)) as [->|Hne'].
    + rewrite lookup_delete_eq. split; [by intros []|]. intros; by destruct Hne.
    + rewrite lookup_delete_ne, Hk, elem_of_cons by done. naive_solver.
  - intros k f. rewrite lookup_delete_Some. intros [_ ?]. by eapply Hf.
  - intros t Hin. apply Ht. by right.
Qed.

Lemma expire_loop_ok empty now l : forall r,
  m_timeoutEventList r = l -> entries_inv now (m_fragments r) l ->
  exists calls r', expire_loop empty now l r = Ok (calls, r') /\
    entries_inv now (m_fragments r') (m_timeoutEventList r') /\ m_timers r' = m_timers r /\
    (forall t, t ∈ m_timeoutEventList r' -> now < to_time t).
Proof.
  induction l as [|e l IH]; intros r Hl Hinv; cbn [expire_loop].
  { exists [], r. rewrite Hl. split_and!; try done. by intros t ?%elem_of_nil. }
  destruct (Z.eqb_spec (to_time e) now) as [He|He].
  - assert (is_Some (m_fragments r !! to_key e)) as [f Hf].
    { apply (ei_keys _ _ _ Hinv). rewrite fmap_cons. by left. }
    destruct (GetPartialPacket_total empty f) as [p Hp]; [by eapply (ei_fragments _ _ _ Hinv)|].
    unfold HandleFragmentsTimeout. rewrite Hf. simpl. rewrite Hp. simpl.
    destruct (IH (mkReassembly (delete (to_key e) (m_fragments r)) l (m_timers r))) as (calls & r' & E & Hi & Ht & Hgt);
      [done|by apply entries_inv_tail|].
    rewrite E. simpl. by eexists _, r'.
  - exists [], r. rewrite Hl. split_and!; try done.
    assert (now < to_time e) as Hlt.
    { destruct (ei_now _ _ _ Hinv e) as [? _]; [by left|]. lia. }
    intros t [->|Hin]%elem_of_cons; [done|].
    pose proof (ei_sorted _ _ _ Hinv) as Hs. apply StronglySorted_cons in Hs as [Hs _].
    rewrite Forall_forall in Hs. specialize (Hs t Hin). simpl in Hs. lia.
Qed.

Lemma entries_later now t m l :
  entries_inv now m l -> now <= t -> (forall e, e ∈ l -> t <= to_time e) -> entries_inv t m l.
Proof.
  intros [Hk Hn Hf Hs Ht] Hle Hge. split; try done. intros e He. specialize (Ht e He). specialize (Hge e He). lia.
Qed.

(** Before the next timer nothing expires. *)
Lemma timers_before now t r :
  timers_inv now r -> (forall t', t' ∈ m_timers r -> t <= t') ->
  forall e, e ∈ m_timeoutEventList r -> t <= to_time e.
Proof.
  intros [He _ Ht] Hmin e Hin. destruct (m_timeoutEventList r) as [|e0 l]; [by apply elem_of_nil in Hin|].
  destruct (Ht e0 l eq_refl) as (t' & Ht' & Hle). specialize (Hmin t' Ht').
  apply elem_of_cons in Hin as [->|Hin]; [lia|].
  pose proof (ei_sorted _ _ _ He) as Hs. apply StronglySorted_cons in Hs as [Hs _].
  rewrite Forall_forall in Hs. specialize (Hs e Hin). simpl in Hs. lia.
Qed.

(** The earliest timer runs without failing and leaves nothing expired. *)
Lemma HandleTimeout_ok now t l1 l2 empty r :
  timers_inv now r -> m_timers r = l1 ++ t :: l2 -> (forall t', t' ∈ m_timers r -> t <= t') ->
  exists calls r', HandleTimeout empty t (without_timer l1 l2 r) = Ok (calls, r') /\ timers_inv t r' /\
    forall e, e ∈ m_timeoutEventList r' -> t < to_time e.
Proof.
  intros Hinv Htm Hmin. assert (now <= t) as Hle.
  { apply (ti_future _ _ Hinv). rewrite Htm, elem_of_app. right. by left. }
  pose proof (entries_later now t _ _ (ti_entries _ _ Hinv) Hle (timers_before now t r Hinv Hmin)) as He.
  destruct (expire_loop_ok empty t (m_timeoutEventList r) (without_timer l1 l2 r)) as (calls & r' & E & Hi & Ht & Hgt);
    [done|done|].
  unfold HandleTimeout. cbn [m_timeoutEventList without_timer]. rewrite E. simpl.
  assert (forall t', t' ∈ m_timers r' -> t <= t') as Hfut.
  { intros t' Hin. rewrite Ht in Hin. apply Hmin. rewrite Htm. simpl in Hin. set_solver. }
  eexists _, _. split; [done|]. destruct (m_timeoutEventList r') as [|e l] eqn:El.
  - split; [|intros e Hin; rewrite El in Hin; by apply elem_of_nil in Hin]. split; [by rewrite El|done|by rewrite El].
  - assert (t < to_time e) as Hlt by (apply Hgt; by left). split; [split; simpl|done].
    + done.
    + intros t' [Hin| ->%list_elem_of_singleton]%elem_of_app; [by apply Hfut|lia].
    + intros e' l' [= <- <-]. exists (t + (to_time e - t)). split; [apply elem_of_app; right; by left|lia].
Qed.

(** ** Arrivals *)

Lemma entries_set now m l k f :
  entries_inv now m l -> is_Some (m !! k) -> m_list f <> [] -> entries_inv now (<[k := f]> m) l.
Proof.
  intros [Hk Hn Hf Hs Ht] Hin Hne. split; try done.
  - intros k'. rewrite lookup_insert_is_Some, <- Hk. destruct (decide (k = k')) as [<-|]; naive_solver.
  - intros k' f'. rewrite lookup_insert_Some. naive_solver.
Qed.

Lemma entries_delete now m l k :
  entries_inv now m l -> entries_inv now (delete k m) (filter (fun t => to_key t <> k) l).
Proof.
  intros [Hk Hn Hf Hs Ht]. split.
  - intros k'. rewrite lookup_delete_is_Some, Hk, !list_elem_of_fmap. setoid_rewrite list_elem_of_filter. naive_solver.
  - eapply sublist_NoDup; [exact Hn|]. apply fmap_sublist, sublist_filter.
  - intros k' f. rewrite lookup_delete_Some. intros [_ ?]. by eapply Hf.
  - clear -Hs. induction Hs as [|e l Hs IH He]; [constructor|]. rewrite filter_cons. destruct (decide _); [|done].
    constructor; [done|]. rewrite Forall_forall in *. intros t [_ Hin]%list_elem_of_filter. auto.
  - intros t [_ Hin]%list_elem_of_filter. auto.
Qed.

Lemma entries_new now m l k h iif f :
  0 <= expiration -> entries_inv now m l -> m !! k = None -> m_list f <> [] ->
  entries_inv now (<[k := f]> m) (l ++ [mkTimeout (now + expiration) k h iif]).
Proof.
  intros H0 [Hk Hn Hf Hs Ht] Hnone Hne. split.
  - intros k'. rewrite lookup_insert_is_Some, fmap_app, elem_of_app, <- Hk. simpl.
    rewrite list_elem_of_singleton. destruct (decide (k = k')); naive_solver.
  - rewrite fmap_app. apply NoDup_app. split; [done|]. split; [|apply NoDup_singleton].
    simpl. intros k' Hin ->%list_elem_of_singleton. apply Hk in Hin as [? ?]. simpl in *. congruence.
  - intros k' f'. rewrite lookup_insert_Some. naive_solver.
  - apply StronglySorted_app. split_and!; [|done|repeat constructor].
    intros x y Hx ->%list_elem_of_singleton. simpl. specialize (Ht x Hx). lia.
  - intros t [Hin| ->%list_elem_of_singleton]%elem_of_app; [auto|simpl; lia].
Qed.

Lemma arrive_inv now now' p h iif r b q r' :
  0 <= expiration -> timers_inv now r -> now <= now' -> (forall t, t ∈ m_timers r -> now' <= t) ->
  ProcessFragment expiration now' p h iif r = Ok (b, q, r') -> timers_inv now' r'.
Proof.
  intros H0 Hinv Hle Hmin E.
  pose proof (entries_later now now' _ _ (ti_entries _ _ Hinv) Hle (timers_before now now' r Hinv Hmin)) as He.
  unfold ProcessFragment in E. set (k := fragment_key h) in *.
  set (f := AddFragment p (Ipv4Header.GetFragmentOffset h) (negb (Ipv4Header.IsLastFragment h))
              (default new_fragments (m_fragments r !! k))).
  assert (m_list f <> []) as Hne by apply AddFragment_nonempty.
  (* the state with the fragment added, before an entire datagram is taken out *)
  assert (exists r1, timers_inv now' (set_fragments (<[k := f]> (m_fragments r1)) r1) /\
    (if IsEntire f then whole ← GetPacket f;
       mret (true, whole, mkReassembly (delete k (m_fragments r1))
               (filter (fun t => to_key t <> k) (m_timeoutEventList r1)) (m_timers r1))
     else mret (false, p, set_fragments (<[k := f]> (m_fragments r1)) r1)) = Ok (b, q, r')) as (r1 & Hi & E1).
  { destruct (m_fragments r !! k) as [g|] eqn:Eg.
    - exists r. split; [|exact E]. split; simpl; [by apply entries_set|done|apply (ti_timer _ _ Hinv)].
    - eexists. split; [|exact E]. split; simpl.
      + rewrite insert_insert_eq. by apply entries_new.
      + destruct (m_timeoutEventList r); [|by apply Hmin]. intros t [Hin| ->%list_elem_of_singleton]%elem_of_app;
          [by apply Hmin|lia].
      + destruct (m_timeoutEventList r) as [|e0 l0] eqn:El; simpl; intros e l [= <- <-].
        * simpl. exists (now' + expiration). split; [apply elem_of_app; right; by left|lia].
        * by apply (ti_timer _ _ Hinv e0 l0). }
  destruct (IsEntire f); [|by injection E1 as <- <- <-].
  apply bind_ok in E1 as (w & _ & E1). injection E1 as <- <- <-. destruct Hi as [Hie Hif Hit]. simpl in *.
  split; simpl; [|done|].
  - rewrite <- (delete_insert_eq _ k f). by apply entries_delete.
  - intros e l Hel. destruct (m_timeoutEventList r1) as [|e0 l0]; [done|].
    destruct (Hit e0 l0 eq_refl) as (t & Ht & Htle). exists t. split; [done|].
    assert (e ∈ e0 :: l0) as Hin.
    { apply (list_elem_of_filter (fun t => to_key t <> k)). rewrite Hel. by left. }
    apply elem_of_cons in Hin as [->|Hin]; [done|].
    pose proof (ei_sorted _ _ _ Hie) as Hs. apply StronglySorted_cons in Hs as [Hs _].
    rewrite Forall_forall in Hs. specialize (Hs e Hin). simpl in Hs. lia.
Qed.

Lemma rstep_inv now r now' r' :
  0 <= expiration -> timers_inv now r -> rstep (now, r) (now', r') -> timers_inv now' r'.
Proof.
  intros H0 Hinv Hs. inversion Hs; subst; [by eapply arrive_inv|].
  destruct (HandleTimeout_ok now now' l1 l2 empty r) as (? & ? & E & Hi & _); [done..|]. congruence.
Qed.

Lemma rsteps_inv x y :
  0 <= expiration -> rtc rstep x y -> timers_inv x.1 x.2 -> timers_inv y.1 y.2.
Proof.
  intros H0. induction 1 as [|[now r] [now' r'] y Hs _ IH]; [done|]. intros Hi. apply IH. by eapply rstep_inv.
Qed.

Lemma empty_inv t0 : timers_inv t0 (mkReassembly ∅ [] []).
Proof.
  split; [split| |]; simpl.
  - intros k. rewrite lookup_empty. split; [by intros []|by intros ?%elem_of_nil].
  - constructor.
  - intros k f. by rewrite lookup_empty.
  - constructor.
  - by intros t ?%elem_of_nil.
  - by intros t ?%elem_of_nil.
  - done.
Qed.
End timers.

(** C39. Incomplete datagrams expire.  Whatever fragments arrive, in every reachable
    state each incomplete datagram has exactly one timeout, which lies between
    now and [expiration] from now; the next timer of the simulation never fires
    after it, runs without failing, and discards every datagram that has
    reached its timeout. *)
Theorem reassembly_expires expiration t0 now r :
  0 <= expiration -> rtc (rstep expiration) (t0, mkReassembly ∅ [] []) (now, r) ->
  (forall k, is_Some (m_fragments r !! k) -> exists e, e ∈ m_timeoutEventList r /\ to_key e = k /\
     now <= to_time e <= now + expiration /\ exists t, t ∈ m_timers r /\ now <= t <= to_time e) /\
  NoDup (to_key <$> m_timeoutEventList r) /\
  forall t l1 l2 empty, m_timers r = l1 ++ t :: l2 -> (forall t', t' ∈ m_timers r -> t <= t') ->
    exists calls r', HandleTimeout empty t (without_timer l1 l2 r) = Ok (calls, r') /\
      forall e, e ∈ m_timeoutEventList r' -> t < to_time e.
Proof.
  intros H0 Hs. pose proof (rsteps_inv expiration _ _ H0 Hs (empty_inv expiration t0)) as Hinv. simpl in Hinv.
  pose proof (ti_entries _ _ _ Hinv) as He. split; [|split].
  - intros k Hk. apply (ei_keys _ _ _ _ He) in Hk. apply list_elem_of_fmap in Hk as (e & -> & Hin). exists e.
    pose proof (ei_now _ _ _ _ He e Hin). split_and!; try done; [lia..|].
    destruct (m_timeoutEventList r) as [|e0 l] eqn:El; [by apply elem_of_nil in Hin|].
    destruct (ti_timer _ _ _ Hinv e0 l El) as (t & Ht & Hle). exists t. pose proof (ti_future _ _ _ Hinv t Ht).
    split; [done|]. split; [done|]. apply elem_of_cons in Hin as [->|Hin]; [done|].
    pose proof (ei_sorted _ _ _ _ He) as Hsrt. apply StronglySorted_cons in Hsrt as [Hsrt _].
    rewrite Forall_forall in Hsrt. specialize (Hsrt e Hin). simpl in Hsrt. lia.
  - apply (ei_nodup _ _ _ _ He).
  - intros t l1 l2 empty Htm Hmin.
    destruct (HandleTimeout_ok expiration now t l1 l2 empty r Hinv Htm Hmin) as (calls & r' & E & _ & Hgt). eauto.
Qed.

(** ** A fragment that waits for the rest of its datagram *)

Definition lone_fragment : Ipv4Header := Ipv4Header.SetMoreFragments Ipv4Header.new_Ipv4Header.
Definition waiting : reassembly :=
  match ProcessFragment 30 5 (mkPacket 1 [1; 2; 3; 4; 5; 6; 7; 8]) lone_fragment 0 (mkReassembly ∅ [] []) with
  | Ok (_, _, r) => r
  | Err _ => mkReassembly ∅ [] []
  end.

Lemma reassembly_expires_witness :
  m_timers waiting = [35] /\ is_Some (m_fragments waiting !! fragment_key lone_fragment) /\
  exists calls r', HandleTimeout (mkPacket 2 []) 35 (without_timer [] [] waiting) = Ok (calls, r') /\
    forall e, e ∈ m_timeoutEventList r' -> 35 < to_time e.
Proof.
  assert (m_timers waiting = [35]) as E by (vm_compute; reflexivity).
  split; [exact E|]. split; [vm_compute; by eexists|].
  apply (reassembly_expires 30 0 5 waiting); [done| |exact E|].
  - apply rtc_once, (rs_arrive 30 0 5 (mkPacket 1 [1; 2; 3; 4; 5; 6; 7; 8]) lone_fragment 0 _ false
      (mkPacket 1 [1; 2; 3; 4; 5; 6; 7; 8]) waiting); [lia| |vm_compute; reflexivity].
    simpl. intros t Ht. by apply elem_of_nil in Ht.
  - intros t'. rewrite E. intros ->%list_elem_of_singleton. done.
Defined.
