(* ===== verification/Dpd.v ===== *)
(** * Duplicate packet detection ([src/internet/model/ipv4-l3-protocol.cc])

    The table of recently seen multicast packets (RFC 6621) and the event that
    purges it: [UpdateDuplicate] and [RemoveDuplicates]. *)

From S2P Require Import Prelude Bytes Packet.
From S2P Require Ipv4Header.
Import Ipv4Header (Ipv4Header).

(** [Packet::AddHeader]: room for the size the header claims, over which it writes. *)
Definition AddIpv4Header (h : Ipv4Header) (p : Packet) : res Packet :=
  w ← Ipv4Header.Serialize h;
  mret (with_data p (w ++ drop (length w) (replicate (Z.to_nat (Ipv4Header.GetSerializedSize h)) 0 ++ p_data p))).

(** [Packet::RemoveHeader] *)
Definition RemoveIpv4Header (h : Ipv4Header) (p : Packet) : res (Ipv4Header * Packet) :=
  '(h', n) ← Ipv4Header.Deserialize h (p_data p); mret (h', RemoveAtStart n p).

(** [DupTuple_t]: hash, protocol, source, destination *)
Definition dup_key : Type := Z * Z * Z * Z.

Record dpd := mkDpd {
  m_dups : gmap dup_key Z;     (* until when a packet counts as a duplicate *)
  m_cleanDpd : option Z        (* when the scheduled purge runs *) }.

Section dpd.
(** [Hash32] of [src/core/model/hash.h], and the attributes [DuplicateExpire] and
    [PurgeExpiredPeriod]. *)
Variables (Hash32 : bytes -> Z) (m_expire m_purge : Z).

(** Octets that routers change are zeroed before hashing. *)
Definition zero_mutable (b : bytes) : bytes :=
  <[11%nat := 0]> (<[10%nat := 0]> (<[8%nat := 0]> (<[7%nat := 0]> (<[6%nat := 0]> (<[1%nat := 0]> b))))).

(** The options of a header longer than 20 octets are zeroed. *)
Definition zero_options (size : Z) (b : bytes) : bytes :=
  if 20 <? size then take 20 b ++ replicate (Z.to_nat (size - 20)) 0 ++ drop (Z.to_nat size) b else b.

Definition packet_hash (p : Packet) (header : Ipv4Header) : res Z :=
  let id := u64 (Z.shiftl (Ipv4Header.GetIdentification header) 32) in
  if negb (Ipv4Header.GetFragmentOffset header =? 0) || negb (Ipv4Header.IsLastFragment header)
  then mret (Z.lor id (Ipv4Header.GetFragmentOffset header))
  else
    pkt ← AddIpv4Header header p;
    let octets := p_data pkt in
    _ ← ns_assert (20 <=? Z.of_nat (length octets));
    mret (Z.lor id (Hash32 (zero_options (Ipv4Header.GetSerializedSize header) (zero_mutable octets)))).

Definition packet_key (p : Packet) (header : Ipv4Header) : res dup_key :=
  hash ← packet_hash p header;
  mret (hash, Ipv4Header.GetProtocol header, Ipv4Header.GetSource header, Ipv4Header.GetDestination header).

(** What [UpdateDuplicate] does with the key of the packet. *)
Definition see (now : Z) (key : dup_key) (d : dpd) : bool * dpd :=
  let clean := match m_cleanDpd d with
               | Some t => Some t
               | None => if 0 <? m_purge then Some (now + m_expire) else None
               end in
  let isDup := match m_dups d !! key with Some t => now <? t | None => false end in
  (isDup, mkDpd (<[key := now + m_expire]> (m_dups d)) clean).

Definition UpdateDuplicate (now : Z) (p : Packet) (header : Ipv4Header) (d : dpd) : res (bool * dpd) :=
  key ← packet_key p header; mret (see now key d).

(** Runs when the purge event fires. *)
Definition RemoveDuplicates (now : Z) (d : dpd) : dpd :=
  let dups := filter (fun e => now <= e.2) (m_dups d) in
  mkDpd dups (if negb (bool_decide (dups = ∅)) && (0 <? m_purge) then Some (now + m_purge) else None).
End dpd.

(** * Duplicates are recognized

    Packets that arrive and purges that fire, as a step relation; the table
    answers like one that remembers every packet for ever. *)

Section dpd.
Context (m_expire m_purge : Z).

(** When the packets of a key were seen last; the newest entry comes first. *)
Fixpoint last_seen (key : dup_key) (log : list (Z * dup_key)) : option Z :=
  match log with
  | [] => None
  | (t, k) :: log' => if decide (k = key) then Some t else last_seen key log'
  end.

Record dstate := mkDState { d_now : Z; d_table : dpd; d_log : list (Z * dup_key) }.

(** A packet is seen no later than the scheduled purge, which then fires. *)
Inductive dstep : dstate -> dstate -> Prop :=
| d_see s now key :
    d_now s <= now -> (forall c, m_cleanDpd (d_table s) = Some c -> now <= c) ->
    dstep s (mkDState now (see m_expire m_purge now key (d_table s)).2 ((now, key) :: d_log s))
| d_purge s c :
    m_cleanDpd (d_table s) = Some c -> d_now s <= c ->
    dstep s (mkDState c (RemoveDuplicates m_purge c (d_table s)) (d_log s)).

Definition dstart (now : Z) : dstate := mkDState now (mkDpd ∅ None) [].

Record dpd_inv (s : dstate) : Prop := {
  di_entry k e : m_dups (d_table s) !! k = Some e -> exists t, last_seen k (d_log s) = Some t /\ e = t + m_expire;
  di_missing k t : m_dups (d_table s) !! k = None -> last_seen k (d_log s) = Some t -> t + m_expire < d_now s;
  di_clean : 0 < m_purge -> m_dups (d_table s) <> ∅ -> is_Some (m_cleanDpd (d_table s)) }.

Lemma see_inv s now key :
  d_now s <= now -> dpd_inv s ->
  dpd_inv (mkDState now (see m_expire m_purge now key (d_table s)).2 ((now, key) :: d_log s)).
Proof.
  intros Hle [He Hm Hc]. split; simpl.
  - intros k e. destruct (decide (key = k)) as [<-|Hne].
    + rewrite lookup_insert_eq. intros [= <-]. eauto.
    + rewrite lookup_insert_ne by done. apply He.
  - intros k t. destruct (decide (key = k)) as [<-|Hne]; [by rewrite lookup_insert_eq|].
    rewrite lookup_insert_ne by done. intros Hn Hl. specialize (Hm k t Hn Hl). lia.
  - intros Hp _. destruct (m_cleanDpd _); [done|]. destruct (Z.ltb_spec 0 m_purge); [done|lia].
Qed.

Lemma purge_inv s c :
  d_now s <= c -> dpd_inv s -> dpd_inv (mkDState c (RemoveDuplicates m_purge c (d_table s)) (d_log s)).
Proof.
  intros Hle [He Hm Hc]. split; simpl.
  - intros k e [Hk _]%map_lookup_filter_Some. by apply He.
  - intros k t Hn Hl. rewrite map_lookup_filter_None in Hn.
    destruct (m_dups (d_table s) !! k) as [e|] eqn:Ek; [|specialize (Hm k t Ek Hl); lia].
    destruct Hn as [Hn|Hn]; [done|]. specialize (Hn e eq_refl). simpl in Hn.
    destruct (He k e Ek) as (t' & Hl' & ->). rewrite Hl in Hl'. injection Hl' as <-. lia.
  - intros Hp Hne. rewrite bool_decide_eq_false_2 by done. destruct (Z.ltb_spec 0 m_purge); [done|lia].
Qed.

Lemma dsteps_inv now s : rtc dstep (dstart now) s -> dpd_inv s.
Proof.
  assert (dpd_inv (dstart now)) as H0.
  { split; simpl; [intros k e; by rewrite lookup_empty|done|by intros]. }
  revert H0. generalize (dstart now). intros s0 H0. induction 1 as [|x y z Hs _ IH]; [done|].
  apply IH. destruct Hs; [by apply see_inv|by apply purge_inv].
Qed.
End dpd.

(** C29. Duplicate detection is exact.  In every reachable state [UpdateDuplicate]
    reports a packet as a duplicate exactly when a packet with the same key was
    seen less than [DuplicateExpire] ago, although expired entries are purged;
    and while entries remain and purging is enabled a purge is scheduled. *)
Theorem UpdateDuplicate_exact m_expire m_purge t0 s now key :
  rtc (dstep m_expire m_purge) (dstart t0) s -> d_now s <= now ->
  ((see m_expire m_purge now key (d_table s)).1 = true <->
   exists t, last_seen key (d_log s) = Some t /\ now < t + m_expire) /\
  (0 < m_purge -> m_dups (d_table s) <> ∅ -> is_Some (m_cleanDpd (d_table s))).
Proof.
  intros Hs Hle. apply dsteps_inv in Hs as [He Hm Hc]. split; [|exact Hc]. simpl.
  destruct (m_dups (d_table s) !! key) as [e|] eqn:Ek.
  - destruct (He key e Ek) as (t & Hl & ->). rewrite Z.ltb_lt. split; [by eauto|].
    intros (t' & Hl' & Hlt). rewrite Hl in Hl'. by injection Hl' as <-.
  - split; [done|]. intros (t & Hl & Hlt). specialize (Hm key t Ek Hl). lia.
Qed.

Definition one_key : dup_key := (1, 17, 8, 9).
Definition after_one : dstate := mkDState 10 (see 5 20 10 one_key (mkDpd ∅ None)).2 [(10, one_key)].

Lemma UpdateDuplicate_exact_witness :
  (see 5 20 14 one_key (d_table after_one)).1 = true /\ (see 5 20 15 one_key (d_table after_one)).1 = false.
Proof.
  assert (rtc (dstep 5 20) (dstart 0) after_one) as Hr by (apply rtc_once, (d_see 5 20 (dstart 0)); simpl; [lia|done]).
  split.
  - apply (UpdateDuplicate_exact 5 20 0 after_one 14 one_key Hr); [simpl; lia|]. exists 10. split; [done|lia].
  - destruct (UpdateDuplicate_exact 5 20 0 after_one 15 one_key Hr) as [[Hd _] _]; [simpl; lia|].
    destruct (see 5 20 15 one_key (d_table after_one)).1 eqn:E; [|done].
    destruct (Hd eq_refl) as (t & Ht & Hlt). injection Ht as <-. lia.
Defined.
