(* ===== verification/Ipv4L3Protocol.v ===== *)
(** * The IPv4 stack of a node ([src/internet/model/ipv4-l3-protocol.cc])

    Reception, local delivery, forwarding and sending over the interfaces
    ([Ipv4Ifaces]), the routing protocol (an instance of [RoutingProtocol]), the
    reassembly buffers ([Fragment]) and the duplicate table ([Dpd]).  What the
    stack does to other components (interfaces, upper protocols, ICMP, trace
    sinks) is recorded in order in [l3_log].

    [Receive] runs the callbacks that the routing protocol requests after
    [RouteInput] has returned: the two agree because the callbacks change
    neither the interfaces nor the routing protocol.  What an upper protocol
    sends in answer to a packet is a later [Send]. *)

From S2P Require Import Prelude Bytes Packet Ipv4Ifaces Routing Fragment Dpd.
From S2P Require Ipv4Address Ipv4Header.
Import Ipv4Header (Ipv4Header).

Inductive DropReason :=
| DROP_TTL_EXPIRED | DROP_NO_ROUTE | DROP_BAD_CHECKSUM | DROP_INTERFACE_DOWN
| DROP_ROUTE_ERROR | DROP_FRAGMENT_TIMEOUT | DROP_DUPLICATE.

(** [IpL4Protocol::RxStatus] *)
Inductive RxStatus := RX_OK | RX_CSUM_FAILED | RX_ENDPOINT_CLOSED | RX_ENDPOINT_UNREACH.
#[export] Instance RxStatus_eq_dec : EqDecision RxStatus.
Proof. solve_decision. Defined.

(** What the stack does to other components. *)
Inductive l3_event :=
| RxTrace (p : Packet) (interface : Z)
| TxTrace (p : Packet) (interface : Z)
| DropTrace (h : Ipv4Header) (p : Packet) (reason : DropReason) (interface : Z)
| SendOutgoing (h : Ipv4Header) (p : Packet) (interface : Z)
| UnicastForward (h : Ipv4Header) (p : Packet) (interface : Z) (priority : option Z)
| MulticastForward (h : Ipv4Header) (p : Packet) (interface : Z)
| LocalDeliverTrace (h : Ipv4Header) (p : Packet) (iif : Z)
| ToInterface (interface : Z) (tag : option (Z * Z)) (calls : list if_call)
| ToProtocol (protocol : Z) (h : Ipv4Header) (p : Packet) (iif : Z)
| ToRawSocket (socket : Z) (h : Ipv4Header) (p : Packet)
| ArpSeen (cache source from : Z)
| IcmpTimeExceededTtl (h : Ipv4Header) (p : Packet) (isFragment : bool)
| IcmpDestUnreachPort (h : Ipv4Header) (p : Packet)
| RegisterHandlers (device : Z).

(** The transport protocols: handles, and what receiving does to their state. *)
Class IpL4Protocol (P : Type) := {
  l4_GetProtocolNumber : Z -> Z;
  l4_Receive : Z -> Packet -> Ipv4Header -> option Ipv4Interface -> P -> res (RxStatus * P) }.

(** A packet to send, with its SocketIpTtlTag and SocketIpTosTag. *)
Record outgoing := mkOutgoing { og_packet : tagged; og_ttl : option Z; og_tos : option Z }.

(** A route with the flag that tells whether its gateway was ever set. *)
Definition out_route : Type := Ipv4Route * bool.

Record l3 (RP P : Type) := mkL3 {
  l3_ipv4 : Ipv4;
  m_protocols : gmap (Z * Z) Z;
  m_defaultTtl : Z;
  m_identification : gmap (Z * Z) Z;
  m_node : option Z;
  m_routingProtocol : option RP;
  m_sockets : list Z;
  l3_reassembly : reassembly;
  l3_dpd : dpd;
  l3_l4 : P;
  l3_log : list l3_event }.
Arguments mkL3 {RP P}.
Arguments l3_ipv4 {RP P}.
Arguments m_protocols {RP P}.
Arguments m_defaultTtl {RP P}.
Arguments m_identification {RP P}.
Arguments m_node {RP P}.
Arguments m_routingProtocol {RP P}.
Arguments m_sockets {RP P}.
Arguments l3_reassembly {RP P}.
Arguments l3_dpd {RP P}.
Arguments l3_l4 {RP P}.
Arguments l3_log {RP P}.

Section setters.
Context {RP P : Type}.
Implicit Type s : l3 RP P.

Definition set_ipv4 (v : Ipv4) s : l3 RP P :=
  mkL3 v (m_protocols s) (m_defaultTtl s) (m_identification s) (m_node s) (m_routingProtocol s) (m_sockets s)
    (l3_reassembly s) (l3_dpd s) (l3_l4 s) (l3_log s).
Definition set_protocols (v : gmap (Z * Z) Z) s : l3 RP P :=
  mkL3 (l3_ipv4 s) v (m_defaultTtl s) (m_identification s) (m_node s) (m_routingProtocol s) (m_sockets s)
    (l3_reassembly s) (l3_dpd s) (l3_l4 s) (l3_log s).
Definition set_defaultTtl (v : Z) s : l3 RP P :=
  mkL3 (l3_ipv4 s) (m_protocols s) v (m_identification s) (m_node s) (m_routingProtocol s) (m_sockets s)
    (l3_reassembly s) (l3_dpd s) (l3_l4 s) (l3_log s).
Definition set_identification (v : gmap (Z * Z) Z) s : l3 RP P :=
  mkL3 (l3_ipv4 s) (m_protocols s) (m_defaultTtl s) v (m_node s) (m_routingProtocol s) (m_sockets s)
    (l3_reassembly s) (l3_dpd s) (l3_l4 s) (l3_log s).
Definition set_node (v : option Z) s : l3 RP P :=
  mkL3 (l3_ipv4 s) (m_protocols s) (m_defaultTtl s) (m_identification s) v (m_routingProtocol s) (m_sockets s)
    (l3_reassembly s) (l3_dpd s) (l3_l4 s) (l3_log s).
Definition set_routing (v : option RP) s : l3 RP P :=
  mkL3 (l3_ipv4 s) (m_protocols s) (m_defaultTtl s) (m_identification s) (m_node s) v (m_sockets s)
    (l3_reassembly s) (l3_dpd s) (l3_l4 s) (l3_log s).
Definition set_sockets (v : list Z) s : l3 RP P :=
  mkL3 (l3_ipv4 s) (m_protocols s) (m_defaultTtl s) (m_identification s) (m_node s) (m_routingProtocol s) v
    (l3_reassembly s) (l3_dpd s) (l3_l4 s) (l3_log s).
Definition set_reassembly (v : reassembly) s : l3 RP P :=
  mkL3 (l3_ipv4 s) (m_protocols s) (m_defaultTtl s) (m_identification s) (m_node s) (m_routingProtocol s)
    (m_sockets s) v (l3_dpd s) (l3_l4 s) (l3_log s).
Definition set_dpd (v : dpd) s : l3 RP P :=
  mkL3 (l3_ipv4 s) (m_protocols s) (m_defaultTtl s) (m_identification s) (m_node s) (m_routingProtocol s)
    (m_sockets s) (l3_reassembly s) v (l3_l4 s) (l3_log s).
Definition set_l4 (v : P) s : l3 RP P :=
  mkL3 (l3_ipv4 s) (m_protocols s) (m_defaultTtl s) (m_identification s) (m_node s) (m_routingProtocol s)
    (m_sockets s) (l3_reassembly s) (l3_dpd s) v (l3_log s).
Definition add_log (e : l3_event) s : l3 RP P :=
  mkL3 (l3_ipv4 s) (m_protocols s) (m_defaultTtl s) (m_identification s) (m_node s) (m_routingProtocol s)
    (m_sockets s) (l3_reassembly s) (l3_dpd s) (l3_l4 s) (l3_log s ++ [e]).

Definition log (e : l3_event) : st (l3 RP P) unit := update (add_log e).
Definition ipv4 : st (l3 RP P) Ipv4 := gets l3_ipv4.
(** A query on the interfaces. *)
Definition ask {A} (f : Ipv4 -> res A) : st (l3 RP P) A := i ← ipv4; lift (f i).
End setters.

(** [Node::ChecksumEnabled ()] and the attributes of the stack. *)
Record attributes := mkAttributes {
  ChecksumEnabled : bool;
  m_fragmentExpirationTimeout : Z;
  m_enableDpd : bool;
  m_expire : Z;
  m_purge : Z }.

(** [Icmpv4L4Protocol::PROT_NUMBER] *)
Definition ICMP_PROT_NUMBER : Z := 1.

(** [Socket::IpTos2Priority]: best effort, bulk, interactive, interactive bulk *)
Definition IpTos2Priority (ipTos : Z) : Z :=
  let c := Z.shiftr (Z.land ipTos 0x1e) 1 in
  if c <? 4 then 0 else if c <? 8 then 2 else if c <? 12 then 6 else 4.

Definition initial_l3 {RP P} (l4 : P) : l3 RP P :=
  mkL3 (mkIpv4 [] ∅ true true) ∅ 64 ∅ None None [] (mkReassembly ∅ [] []) (mkDpd ∅ None) l4 [].

Section l3.
Context {RP P : Type} `{RoutingProtocol RP} `{NetDevices} `{IpL4Protocol P}.
Variables (at_ : attributes) (Hash32 : bytes -> Z) (CreateCache : Z -> Z).
(** [Simulator::Now ()] *)
Variable now : Z.
Notation M := (st (l3 RP P)).

(** ** Transport protocols *)

Definition Insert (protocol : Z) : M unit :=
  update (fun s => set_protocols (<[(l4_GetProtocolNumber protocol, -1) := protocol]> (m_protocols s)) s).
Definition InsertOn (protocol interfaceIndex : Z) : M unit :=
  update (fun s => set_protocols (<[(l4_GetProtocolNumber protocol, interfaceIndex) := protocol]> (m_protocols s)) s).
Definition Remove (protocol : Z) : M unit :=
  update (fun s => set_protocols (delete (l4_GetProtocolNumber protocol, -1) (m_protocols s)) s).
Definition RemoveOn (protocol interfaceIndex : Z) : M unit :=
  update (fun s => set_protocols (delete (l4_GetProtocolNumber protocol, interfaceIndex) (m_protocols s)) s).

(** The protocol of the interface before the one for all interfaces. *)
Definition GetProtocol (protocolNumber interfaceIndex : Z) (s : l3 RP P) : option Z :=
  match (if 0 <=? interfaceIndex then m_protocols s !! (protocolNumber, interfaceIndex) else None) with
  | Some p => Some p
  | None => m_protocols s !! (protocolNumber, -1)
  end.
Definition GetIcmp (s : l3 RP P) : option Z := GetProtocol ICMP_PROT_NUMBER (-1) s.

(** A call of ICMP through the pointer [GetIcmp] returns. *)
Definition icmp (e : l3_event) : M unit := p ← gets GetIcmp; _ ← lift (deref p); log e.

Definition CreateRawSocket (socket : Z) : M unit := update (fun s => set_sockets (m_sockets s ++ [socket]) s).
Fixpoint remove_first (x : Z) (l : list Z) : list Z :=
  match l with [] => [] | y :: l' => if y =? x then l' else y :: remove_first x l' end.
Definition DeleteRawSocket (socket : Z) : M unit := update (fun s => set_sockets (remove_first socket (m_sockets s)) s).
Definition SetDefaultTtl (ttl : Z) : M unit := update (set_defaultTtl (u8 ttl)).

(** ** Interfaces, with the notification of the routing protocol *)

(** Updates the routing protocol, if there is one, for the interfaces as they are now. *)
Definition notify (f : Ipv4 -> RP -> res RP) : M unit :=
  rp ← gets m_routingProtocol;
  match rp with
  | None => mret tt
  | Some r => i ← ipv4; r' ← lift (f i r); update (set_routing (Some r'))
  end.

(** Runs an operation on interface [i]; [GetInterface] of a bad index is null. *)
Definition on_interface {A} (i : Z) (f : Ipv4Interface -> res (A * Ipv4Interface)) : M A :=
  s ← ipv4;
  ifc ← lift (deref (Ipv4Ifaces.GetInterface i s));
  '(a, ifc') ← lift (f ifc);
  _ ← update (set_ipv4 (update_interface i ifc' s));
  mret a.

Definition SetRoutingProtocol (rp : RP) : M unit :=
  i ← ipv4; rp' ← lift (rp_SetIpv4 i rp); update (set_routing (Some rp')).

Definition AddAddress (i : Z) (address : Ipv4InterfaceAddress) : M bool :=
  b ← on_interface i (fun ifc => mret (if_AddAddress address ifc));
  _ ← notify (fun s => rp_NotifyAddAddress s i address);
  mret b.

(** After the removal: the address that was not there is the default one. *)
Definition removed (i : Z) (address : Ipv4InterfaceAddress) : M bool :=
  if address_neb address default_address then
    _ ← notify (fun s => rp_NotifyRemoveAddress s i address); mret true
  else mret false.
Definition RemoveAddressAt (i addressIndex : Z) : M bool :=
  address ← on_interface i (if_RemoveAddressAt addressIndex); removed i address.
Definition RemoveAddress (i address : Z) : M bool :=
  if address =? Ipv4Address.GetLoopback then mret false
  else ifAddr ← on_interface i (fun ifc => mret (if_RemoveAddress address ifc)); removed i ifAddr.

(** Interfaces with an MTU under 68 octets stay down. *)
Definition SetUp (i : Z) : M unit :=
  s ← ipv4;
  ifc ← lift (deref (Ipv4Ifaces.GetInterface i s));
  d ← lift (deref (GetDevice ifc));
  if 68 <=? u16 (dev_GetMtu d) then
    _ ← on_interface i (fun ifc => mret (tt, if_SetUp ifc));
    notify (fun s => rp_NotifyInterfaceUp s i)
  else mret tt.
Definition SetDown (i : Z) : M unit :=
  _ ← on_interface i (fun ifc => mret (tt, if_SetDown ifc));
  notify (fun s => rp_NotifyInterfaceDown s i).
Definition GetMtu (i : Z) : M Z :=
  ifc ← ask (fun s => deref (Ipv4Ifaces.GetInterface i s)); d ← lift (deref (GetDevice ifc)); mret (u16 (dev_GetMtu d)).

Definition add_interface (ifc : Ipv4Interface) : M Z :=
  s ← ipv4; '(index, s') ← lift (AddIpv4Interface ifc s); _ ← update (set_ipv4 s'); mret index.

Definition AddInterface (device : Z) : M Z :=
  n ← gets m_node;
  node ← lift (match n with Some x => Ok x | None => Err AssertFailed end);
  _ ← log (RegisterHandlers device);
  s ← ipv4;
  add_interface (if_SetForwarding (m_ipForward s)
    (SetTrafficControl (SetDevice CreateCache device (SetNode CreateCache node new_interface)))).

(** [device]: the loopback device of the node, found or created *)
Definition SetupLoopback (device : Z) : M unit :=
  n ← gets m_node;
  node ← lift (deref n);
  let ifc := SetNode CreateCache node (SetDevice CreateCache device new_interface) in
  let '(_, ifc) := if_AddAddress (new_address Ipv4Address.GetLoopback Ipv4Address.mask_GetLoopback) ifc in
  index ← add_interface ifc;
  _ ← log (RegisterHandlers device);
  _ ← on_interface index (fun ifc => mret (tt, if_SetUp ifc));
  notify (fun s => rp_NotifyInterfaceUp s index).
Definition SetNode_ (node device : Z) : M unit :=
  _ ← update (set_node (Some node)); SetupLoopback device.

Definition DoDispose : M unit :=
  update (fun s => mkL3 (mkIpv4 [] ∅ (m_ipForward (l3_ipv4 s)) (m_weakEsModel (l3_ipv4 s))) ∅ (m_defaultTtl s)
    (m_identification s) None None [] (mkReassembly ∅ [] []) (mkDpd ∅ None) (l3_l4 s) (l3_log s)).

(** ** Sending *)

(** [m_identification] is indexed by source, destination and protocol. *)
Definition identification_key (source destination protocol : Z) : Z * Z :=
  (Z.lor destination (u64 (Z.shiftl source 32)), u8 protocol).
Definition identification (key : Z * Z) (s : l3 RP P) : Z := default 0 (m_identification s !! key).
Definition DecreaseIdentification (source destination protocol : Z) : M unit :=
  let key := identification_key source destination protocol in
  update (fun s => set_identification (<[key := u16 (identification key s - 1)]> (m_identification s)) s).

Definition BuildHeader (source destination protocol payloadSize ttl tos : Z) (mayFragment : bool) : M Ipv4Header :=
  let h := Ipv4Header.SetTos tos (Ipv4Header.SetTtl ttl (Ipv4Header.SetPayloadSize payloadSize
             (Ipv4Header.SetProtocol protocol (Ipv4Header.SetDestination destination
               (Ipv4Header.SetSource source Ipv4Header.new_Ipv4Header))))) in
  let key := identification_key source destination protocol in
  id ← gets (identification key);
  let h := if mayFragment then Ipv4Header.SetMayFragment h else Ipv4Header.SetDontFragment h in
  let h := Ipv4Header.SetIdentification id h in
  _ ← update (fun s => set_identification (<[key := u16 (id + 1)]> (m_identification s)) s);
  mret (if ChecksumEnabled at_ then Ipv4Header.EnableChecksum h else h).

Definition CallTxTrace (h : Ipv4Header) (p : Packet) (interface : Z) : M unit :=
  p' ← lift (AddIpv4Header h p); log (TxTrace p' interface).

(** One packet or fragment to the interface. *)
Definition send_one (interface target : Z) (tag : option (Z * Z)) (ifc : Ipv4Interface)
    (f : Packet * Ipv4Header) : M unit :=
  _ ← CallTxTrace f.2 f.1 interface;
  calls ← lift (if_Send f.1 f.2 target ifc);
  log (ToInterface interface tag calls).

Definition SendRealOut (route : option Ipv4Route) (packet : tagged) (ipHeader : Ipv4Header) : M unit :=
  match route with
  | None => log (DropTrace ipHeader (t_packet packet) DROP_NO_ROUTE 0)
  | Some rt =>
      i ← ipv4;
      let interface := GetInterfaceForDevice (rt_dev rt) i in
      _ ← lift (ns_assert (0 <=? interface));
      outInterface ← lift (deref (Ipv4Ifaces.GetInterface interface i));
      let target := if Ipv4Address.IsAny (rt_gateway rt) then Ipv4Header.GetDestination ipHeader else rt_gateway rt in
      if if_IsUp outInterface then
        d ← lift (deref (GetDevice outInterface));
        fs ← lift (fragments_for (ChecksumEnabled at_) max_fragments (t_packet packet) ipHeader (u16 (dev_GetMtu d)));
        each (send_one interface target (t_tag packet) outInterface) fs
      else mret tt
  end.

Definition SendWithHeader (packet : tagged) (ipHeader : Ipv4Header) (route : option Ipv4Route) : M unit :=
  SendRealOut route packet (if ChecksumEnabled at_ then Ipv4Header.EnableChecksum ipHeader else ipHeader).

Definition update_duplicate (p : Packet) (h : Ipv4Header) : M bool :=
  d ← gets l3_dpd;
  '(dup, d') ← lift (UpdateDuplicate Hash32 (m_expire at_) (m_purge at_) now p h d);
  _ ← update (set_dpd d');
  mret dup.
(** The purge event. *)
Definition purge_duplicates : M unit := update (fun s => set_dpd (RemoveDuplicates (m_purge at_) now (l3_dpd s)) s).

Definition build (o : outgoing) (source destination protocol : Z) : M Ipv4Header :=
  dttl ← gets m_defaultTtl;
  BuildHeader source destination protocol (u16 (GetSize (t_packet (og_packet o)))) (default dttl (og_ttl o))
    (default 0 (og_tos o)) true.

(** [Send] with a route. *)
Definition send_on_route (o : outgoing) (source destination protocol : Z) (route : out_route) : M unit :=
  ipHeader ← build o source destination protocol;
  _ ← lift (if route.2 then Ok tt else Err FatalError);
  i ← ipv4;
  _ ← log (SendOutgoing ipHeader (t_packet (og_packet o)) (GetInterfaceForDevice (rt_dev route.1) i));
  _ ← (if m_enableDpd at_ && Ipv4Address.IsMulticast (Ipv4Header.GetDestination ipHeader)
       then _ ← update_duplicate (t_packet (og_packet o)) ipHeader; mret tt else mret tt);
  SendRealOut (Some route.1) (og_packet o) ipHeader.

(** The proxy route out of one device. *)
Definition proxy_route (source destination : Z) (device : option Z) : out_route :=
  (mkRoute destination source Ipv4Address.GetAny device, true).

(** The recursive call with a route found by [Send]: the identification taken
    for the header that is thrown away is given back first. *)
Definition resend (o : outgoing) (source destination protocol : Z) (route : out_route) : M unit :=
  _ ← DecreaseIdentification source destination protocol;
  send_on_route o source destination protocol route.

(** Case 2: the interfaces that have the source address, all of them for 0.0.0.0. *)
Definition has_source (source : Z) (ifc : Ipv4Interface) : bool :=
  Ipv4Address.IsAny source || existsb (fun a => m_local a =? source) (m_ifaddrs ifc).

(** Case 3: the device of the first interface whose subnet [destination] broadcasts to. *)
Fixpoint directed_device (destination : Z) (i : Ipv4) (l : list Ipv4Interface) : res (option (option Z)) :=
  match l with
  | [] => mret None
  | out :: l' =>
      let index := GetInterfaceForDevice (GetDevice out) i in
      ifc ← (if index <? 0 then Err UndefinedBehaviour else deref (Ipv4Ifaces.GetInterface index i));
      if existsb (fun a => Ipv4Address.IsSubnetDirectedBroadcast destination (m_mask a) &&
           (Ipv4Address.CombineMask destination (m_mask a) =? Ipv4Address.CombineMask (m_local a) (m_mask a)))
           (m_ifaddrs ifc)
      then mret (Some (GetDevice out))
      else directed_device destination i l'
  end.

Definition Send (o : outgoing) (source destination protocol : Z) (route : option out_route) : M unit :=
  match route with
  | Some r => send_on_route o source destination protocol r
  | None =>
      ipHeader ← build o source destination protocol;
      i ← ipv4;
      if Ipv4Address.IsBroadcast destination || Ipv4Address.IsLocalMulticast destination then
        each (fun out => if has_source source out
                         then resend o source destination protocol (proxy_route source destination (GetDevice out))
                         else mret tt) (m_interfaces i)
      else
      directed ← lift (directed_device destination i (m_interfaces i));
      match directed with
      | Some d => resend o source destination protocol (proxy_route source destination d)
      | None =>
          rp ← gets m_routingProtocol;
          newRoute ← match rp with
                     | None => mret None
                     | Some r =>
                         '(rt, _, r') ← lift (rp_RouteOutput i ipHeader None r);
                         _ ← update (set_routing (Some r'));
                         mret rt
                     end;
          match newRoute with
          | Some rt => resend o source destination protocol (rt, true)
          | None =>
              _ ← log (DropTrace ipHeader (t_packet (og_packet o)) DROP_NO_ROUTE 0);
              DecreaseIdentification source destination protocol
          end
      end
  end.

(** ** Forwarding *)

Definition RouteInputError (p : tagged) (h : Ipv4Header) : M unit :=
  log (DropTrace h (t_packet p) DROP_ROUTE_ERROR 0).

(** A packet whose header is [header] arrives with one hop more than its TTL allows. *)
Definition IpForward (rtentry : Ipv4Route) (p : tagged) (header : Ipv4Header) : M unit :=
  i ← ipv4;
  let interface := GetInterfaceForDevice (rt_dev rtentry) i in
  let ipHeader := Ipv4Header.SetTtl (Ipv4Header.GetTtl header - 1) header in
  if Ipv4Header.GetTtl ipHeader =? 0 then
    _ ← (if negb (Ipv4Address.IsBroadcast (Ipv4Header.GetDestination ipHeader)) &&
            negb (Ipv4Address.IsMulticast (Ipv4Header.GetDestination ipHeader))
         then icmp (IcmpTimeExceededTtl ipHeader (t_packet p) false) else mret tt);
    log (DropTrace header (t_packet p) DROP_TTL_EXPIRED interface)
  else
    let priority := IpTos2Priority (Ipv4Header.GetTos ipHeader) in
    _ ← log (UnicastForward ipHeader (t_packet p) interface (if priority =? 0 then None else Some priority));
    SendRealOut (Some rtentry) p ipHeader.

(** The loop over the output interfaces, in increasing order; it ends when the TTL expires. *)
Fixpoint multicast_loop (interfaces : list Z) (p : tagged) (header : Ipv4Header) : M unit :=
  match interfaces with
  | [] => mret tt
  | interface :: rest =>
      let ipHeader := Ipv4Header.SetTtl (Ipv4Header.GetTtl header - 1) header in
      if Ipv4Header.GetTtl ipHeader =? 0 then log (DropTrace header (t_packet p) DROP_TTL_EXPIRED interface)
      else
        d ← ask (GetNetDevice interface);
        _ ← log (MulticastForward ipHeader (t_packet p) interface);
        _ ← SendRealOut (Some (mkRoute (Ipv4Header.GetDestination ipHeader) (Ipv4Header.GetSource ipHeader)
                                 Ipv4Address.GetAny d)) p ipHeader;
        multicast_loop rest p header
  end.
Definition IpMulticastForward (mrtentry : Ipv4MulticastRoute) (p : tagged) (header : Ipv4Header) : M unit :=
  multicast_loop (merge_sort Z.le (map_to_list (mrt_ttls mrtentry)).*1) p header.

(** ** Local delivery *)

(** The destination is the directed broadcast address of a subnet of the interface. *)
Definition subnet_directed (destination : Z) (ifc : Ipv4Interface) : bool :=
  existsb (fun a => (Ipv4Address.CombineMask (m_local a) (m_mask a) =? Ipv4Address.CombineMask destination (m_mask a)) &&
                    Ipv4Address.IsSubnetDirectedBroadcast destination (m_mask a)) (m_ifaddrs ifc).

(** A whole packet to its transport protocol. *)
Definition deliver_up (p : Packet) (h : Ipv4Header) (iif : Z) : M unit :=
  _ ← log (LocalDeliverTrace h p iif);
  protocol ← gets (GetProtocol (Ipv4Header.GetProtocol h) iif);
  match protocol with
  | None => mret tt
  | Some proto =>
      _ ← log (ToProtocol proto h p iif);
      l4 ← gets l3_l4;
      interface ← gets (fun s => Ipv4Ifaces.GetInterface iif (l3_ipv4 s));
      '(status, l4') ← lift (l4_Receive proto p h interface l4);
      _ ← update (set_l4 l4');
      if bool_decide (status = RX_ENDPOINT_UNREACH) then
        let dest := Ipv4Header.GetDestination h in
        if Ipv4Address.IsBroadcast dest || Ipv4Address.IsMulticast dest then mret tt
        else
          ifc ← ask (fun s => deref (Ipv4Ifaces.GetInterface iif s));
          if subnet_directed dest ifc then mret tt else icmp (IcmpDestUnreachPort h p)
      else mret tt
  end.

Definition LocalDeliver (p : tagged) (ip : Ipv4Header) (iif : Z) : M unit :=
  if negb (Ipv4Header.IsLastFragment ip) || negb (Ipv4Header.GetFragmentOffset ip =? 0) then
    r ← gets l3_reassembly;
    '(complete, whole, r') ← lift (ProcessFragment (m_fragmentExpirationTimeout at_) now (t_packet p) ip iif r);
    _ ← update (set_reassembly r');
    if (complete : bool) then
      h ← lift (Ipv4Header.SetFragmentOffset 0 ip);
      deliver_up whole (Ipv4Header.SetPayloadSize (GetSize whole) h) iif
    else mret tt
  else deliver_up (t_packet p) ip iif.

(** The event [HandleTimeout], and what it asks of ICMP and the trace sinks. *)
Definition timeout_effect (c : timeout_call) : M unit :=
  match c with
  | IcmpTimeExceeded h p => icmp (IcmpTimeExceededTtl h p true)
  | DropFragmentTimeout h p iif => log (DropTrace h p DROP_FRAGMENT_TIMEOUT iif)
  end.
Definition handle_timeout (empty : Packet) : M unit :=
  r ← gets l3_reassembly;
  '(calls, r') ← lift (HandleTimeout empty now r);
  _ ← update (set_reassembly r');
  each timeout_effect calls.

(** ** Reception *)

Definition run_call (c : rcall) : M unit :=
  match c with
  | CallForward rt p h => IpForward rt p h
  | CallMulticastForward rt p h => IpMulticastForward rt p h
  | CallLocalDeliver p h iif => LocalDeliver p h iif
  | CallError p h _ => RouteInputError p h
  end.

(** Residual padding of the frame is trimmed. *)
Definition trim (h : Ipv4Header) (p : Packet) : Packet :=
  if Ipv4Header.GetPayloadSize h <? GetSize p then RemoveAtEnd (GetSize p - Ipv4Header.GetPayloadSize h) p else p.

(** Routes a packet whose header was accepted. *)
Definition route_input (device : Z) (interface : Z) (p : tagged) (h : Ipv4Header) : M unit :=
  rp ← gets m_routingProtocol;
  r ← lift (match rp with Some r => Ok r | None => Err AssertFailed end);
  i ← ipv4;
  '(accepted, calls, p', r') ← lift (rp_RouteInput i p h (Some device) true r);
  _ ← update (set_routing (Some r'));
  _ ← each run_call calls;
  if (accepted : bool) then mret tt else log (DropTrace h (t_packet p') DROP_NO_ROUTE interface).

Definition Receive (device : Z) (p : tagged) (from : Z) : M unit :=
  i ← ipv4;
  let interface := GetInterfaceForDevice (Some device) i in
  _ ← lift (ns_assert (negb (interface =? -1)));
  ifc ← lift (deref (Ipv4Ifaces.GetInterface interface i));
  if negb (if_IsUp ifc) then
    '(h, q) ← lift (RemoveIpv4Header Ipv4Header.new_Ipv4Header (t_packet p));
    log (DropTrace h q DROP_INTERFACE_DOWN interface)
  else
  _ ← log (RxTrace (t_packet p) interface);
  let h0 := if ChecksumEnabled at_ then Ipv4Header.EnableChecksum Ipv4Header.new_Ipv4Header
            else Ipv4Header.new_Ipv4Header in
  '(h, q) ← lift (RemoveIpv4Header h0 (t_packet p));
  let q := trim h q in
  if negb (Ipv4Header.IsChecksumOk h) then log (DropTrace h q DROP_BAD_CHECKSUM interface) else
  _ ← match GetArpCache ifc with
      | Some c => log (ArpSeen c (Ipv4Header.GetSource h) from)
      | None => mret tt
      end;
  sockets ← gets m_sockets;
  _ ← each (fun s => log (ToRawSocket s h q)) sockets;
  dup ← (if m_enableDpd at_ && Ipv4Address.IsMulticast (Ipv4Header.GetDestination h)
         then update_duplicate q h else mret false);
  if (dup : bool) then log (DropTrace h q DROP_DUPLICATE interface)
  else route_input device interface (mkTagged q (t_tag p)) h.
End l3.
