(* ===== verification/L3Spec.v ===== *)
(** * Correctness of the IPv4 stack: sending and forwarding

    What each operation of [Ipv4L3Protocol] adds to the log and leaves
    unchanged; the identification of datagrams; what becomes of a received
    packet, by the answer of the routing protocol, and where reception stops;
    the hop limit. *)

From S2P Require Import Prelude Bytes Packet Ipv4Ifaces Fragment FragmentSpec Routing Dpd Ipv4L3Protocol.
From S2P Require Ipv4Address Ipv4Header ListRouting.
Import Ipv4Header (Ipv4Header).
Import ListRouting (UnicastOnly, law_unicast_only, unicast_call, disposed, call_about).


(** Inverts one step of a computation that returned. *)
Ltac step_in E :=
  let x := fresh "x" in let s := fresh "s" in let E1 := fresh "E" in
  apply st_bind_ok in E as (x & s & E1 & E); cbv beta in E.

Section spec.
Context {RP P : Type} `{RoutingProtocol RP} `{NetDevices} `{IpL4Protocol P}.
Context (at_ : attributes) (Hash32 : bytes -> Z) (now : Z).
Implicit Types s : l3 RP P.

(** The state after some events: nothing else changes. *)
Definition add_logs (l : list l3_event) s : l3 RP P :=
  mkL3 (l3_ipv4 s) (m_protocols s) (m_defaultTtl s) (m_identification s) (m_node s) (m_routingProtocol s)
    (m_sockets s) (l3_reassembly s) (l3_dpd s) (l3_l4 s) (l3_log s ++ l).

Lemma add_logs_nil s : add_logs [] s = s.
Proof. destruct s. unfold add_logs. simpl. by rewrite app_nil_r. Qed.
Lemma add_logs_app l1 l2 s : add_logs l2 (add_logs l1 s) = add_logs (l1 ++ l2) s.
Proof. unfold add_logs. simpl. by rewrite app_assoc. Qed.
Lemma add_log_logs e s : add_log e s = add_logs [e] s.
Proof. done. Qed.

Lemma run_log {B} e (k : unit -> st (l3 RP P) B) s : (log e ≫= k) s = k tt (add_logs [e] s).
Proof. done. Qed.

(** ** [SendRealOut] *)

(** The header a call on an interface carries. *)
Definition call_header (c : if_call) : Ipv4Header :=
  match c with OutDeviceSend _ _ h _ | OutTcReceive _ _ h | OutTcSend _ _ h _ | OutArpLookup _ _ h _ => h end.
Definition call_packet (c : if_call) : Packet :=
  match c with OutDeviceSend _ p _ _ | OutTcReceive _ p _ | OutTcSend _ p _ _ | OutArpLookup _ p _ _ => p end.

(** Sending one packet makes at most one call, which carries it. *)
Lemma if_Send_calls p h dest ifc calls :
  if_Send p h dest ifc = Ok calls ->
  (length calls <= 1)%nat /\ forall c, c ∈ calls -> call_header c = h /\ call_packet c = p.
Proof.
  unfold if_Send. intros E.
  assert (forall c cs, Ok [c] = Ok cs -> call_header c = h -> call_packet c = p ->
    (length cs <= 1)%nat /\ forall c', c' ∈ cs -> call_header c' = h /\ call_packet c' = p) as Hone.
  { intros c cs [= <-] Hh Hp. split; [done|]. by intros c' ->%list_elem_of_singleton. }
  destruct (negb (if_IsUp ifc)); [injection E as <-; split; [simpl; lia|by intros c ?%elem_of_nil]|].
  apply bind_ok in E as (d & _ & E). destruct (dev_IsLoopback d); [by eapply Hone|].
  apply bind_ok in E as ([] & _ & E). destruct (existsb _ _); [by eapply Hone|].
  destruct (dev_NeedsArp d); [|by eapply Hone].
  apply bind_ok in E as (hw & _ & E). destruct hw; by eapply Hone.
Qed.

(** Events that hand parts of the datagram [h] to an interface. *)
Definition output_of (h : Ipv4Header) (e : l3_event) : Prop :=
  match e with
  | TxTrace _ _ => True
  | ToInterface _ _ calls => forall c, c ∈ calls -> same_datagram h (call_header c)
  | _ => False
  end.

Lemma same_datagram_refl h : same_datagram h h.
Proof. by split_and!. Qed.

Lemma send_one_log interface target tag ifc f s u s' :
  send_one interface target tag ifc f s = Ok (u, s') ->
  exists p' calls, AddIpv4Header f.2 f.1 = Ok p' /\ if_Send f.1 f.2 target ifc = Ok calls /\
    s' = add_logs [TxTrace p' interface; ToInterface interface tag calls] s.
Proof.
  unfold send_one, CallTxTrace. intros E. do 2 step_in E. apply lift_ok in E1 as [E1 ->].
  step_in E0. apply lift_ok in E2 as [E2 ->]. injection E0 as <- <-. injection E as <- <-.
  exists x1, x0. split; [done|]. split; [done|]. by rewrite !add_log_logs, add_logs_app.
Qed.

Lemma fragment_loop_same checksum fuel p h fsize : forall off fs,
  fragment_loop checksum fuel p h fsize off = Ok fs -> forall f, f ∈ fs -> same_datagram h f.2.
Proof.
  induction fuel as [|n IH]; intros off fs E f Hf; [done|]. cbn [fragment_loop] in E.
  apply bind_ok in E as (q & _ & E). apply bind_ok in E as (h' & Eh & E).
  apply bind_ok in E as (rest & Er & E). injection E as <-. apply elem_of_cons in Hf as [->|Hf].
  - unfold fragment_header, Ipv4Header.SetFragmentOffset in Eh. apply bind_ok in Eh as (h1 & Eh1 & Eh).
    apply bind_ok in Eh1 as ([] & _ & Eh1). injection Eh1 as <-. injection Eh as <-.
    destruct checksum, (_ <? _), (Ipv4Header.IsLastFragment h); by split_and!.
  - destruct (_ <? _); [by eapply IH|]. injection Er as <-. by apply elem_of_nil in Hf.
Qed.

Lemma fragments_for_same checksum fuel p h mtu fs :
  fragments_for checksum fuel p h mtu = Ok fs -> forall f, f ∈ fs -> same_datagram h f.2.
Proof.
  unfold fragments_for, DoFragmentation. intros E f Hf. destruct (mtu <? _).
  - apply bind_ok in E as ([] & _ & E). by eapply fragment_loop_same.
  - injection E as <-. apply list_elem_of_singleton in Hf as ->. apply same_datagram_refl.
Qed.

Lemma send_all_log interface target tag ifc h fs : (forall f, f ∈ fs -> same_datagram h f.2) ->
  forall s u s', each (send_one interface target tag ifc) fs s = Ok (u, s') ->
  exists l, s' = add_logs l s /\ Forall (output_of h) l.
Proof.
  induction fs as [|f fs IH]; intros Hfs s u s' E; simpl in E.
  { injection E as <- <-. exists []. by rewrite add_logs_nil. }
  step_in E. apply send_one_log in E0 as (p' & calls & _ & Ec & ->).
  destruct (IH (fun g Hg => Hfs g (list_elem_of_further _ _ _ Hg)) _ _ _ E) as (l & -> & Hl).
  eexists. rewrite add_logs_app. split; [done|]. simpl. constructor; [done|]. constructor; [|done].
  intros c Hc. apply if_Send_calls in Ec as [_ Hcalls]. destruct (Hcalls c Hc) as [-> _].
  apply Hfs. by left.
Qed.

Lemma SendRealOut_log rt p h s u s' :
  SendRealOut at_ (Some rt) p h s = Ok (u, s') -> exists l, s' = add_logs l s /\ Forall (output_of h) l.
Proof.
  unfold SendRealOut, ipv4. intros E. rewrite run_gets in E. step_in E. apply lift_ok in E0 as [_ ->].
  step_in E. apply lift_ok in E0 as [_ ->]. destruct (if_IsUp x0).
  - step_in E. apply lift_ok in E0 as [_ ->]. step_in E. apply lift_ok in E0 as [E0 ->].
    eapply send_all_log; [|exact E]. by eapply fragments_for_same.
  - injection E as <- <-. exists []. by rewrite add_logs_nil.
Qed.

Lemma update_duplicate_frame p h s b s' :
  update_duplicate at_ Hash32 now p h s = Ok (b, s') -> exists d, s' = set_dpd d s.
Proof.
  unfold update_duplicate. rewrite run_gets. intros E. step_in E. apply lift_ok in E0 as [_ ->].
  destruct x as [b' d]. rewrite run_update in E. injection E as <- <-. eauto.
Qed.

(** ** What sending leaves alone: the interfaces and the transport protocols *)

Definition same_net s s' : Prop := l3_ipv4 s' = l3_ipv4 s /\ l3_l4 s' = l3_l4 s.

#[local] Instance same_net_trans : Transitive same_net.
Proof. intros s1 s2 s3 [E1 E2] [E3 E4]. split; congruence. Qed.

Lemma send_on_route_net o src dst proto r s u s' :
  send_on_route at_ Hash32 now o src dst proto r s = Ok (u, s') -> same_net s s'.
Proof.
  unfold send_on_route. intros E. step_in E. assert (same_net s s0) as H0d.
  { unfold build, BuildHeader in E0. rewrite !run_gets, run_update in E0. destruct (ChecksumEnabled at_); by injection E0 as <- <-. }
  clear E0. step_in E. apply lift_ok in E0 as [_ ->]. unfold ipv4 in E. rewrite run_gets, run_log in E.
  step_in E. apply SendRealOut_log in E as (l & -> & _). transitivity s0; [done|]. destruct (_ && _).
  - apply st_bind_ok in E0 as (b & s2 & [d ->]%update_duplicate_frame & E0). by injection E0 as <- <-.
  - by injection E0 as <- <-.
Qed.

Lemma resend_net o src dst proto r s u s' :
  resend at_ Hash32 now o src dst proto r s = Ok (u, s') -> same_net s s'.
Proof. unfold resend, DecreaseIdentification. rewrite run_update. by intros ?%send_on_route_net. Qed.

Lemma Send_net o src dst proto route s u s' :
  Send at_ Hash32 now o src dst proto route s = Ok (u, s') -> same_net s s'.
Proof.
  destruct route as [r|]; [apply send_on_route_net|]. cbn [Send]. intros E. step_in E.
  assert (same_net s s0) as H0d.
  { unfold build, BuildHeader in E0. rewrite !run_gets, run_update in E0. destruct (ChecksumEnabled at_); by injection E0 as <- <-. }
  clear E0. transitivity s0; [done|]. unfold ipv4 in E. rewrite run_gets in E. destruct (_ || _).
  { eapply (each_inv (same_net s0)); [|by split|exact E]. intros ifc s1 u1 s2 _ H1d E1. transitivity s1; [done|].
    cbv beta in E1. destruct (has_source src ifc); [by eapply resend_net|]. injection E1 as <- <-. by split. }
  step_in E. apply lift_ok in E0 as [_ ->]. destruct x0 as [d|]; [by eapply resend_net|].
  rewrite run_gets in E. step_in E. assert (same_net s0 s1) as H1d.
  { destruct (m_routingProtocol s0); [|by injection E0 as <- <-]. step_in E0. apply lift_ok in E1 as [_ ->].
    destruct x1 as [[? ?] ?]. rewrite run_update in E0. by injection E0 as <- <-. }
  transitivity s1; [done|]. destruct x0; [by eapply resend_net|]. unfold DecreaseIdentification in E.
  rewrite run_log in E. by injection E as <- <-.
Qed.

(** ** Identification *)

Definition ids_ok s : Prop := forall k v, m_identification s !! k = Some v -> in_range 16 v.

Lemma identification_range k s : ids_ok s -> in_range 16 (identification k s).
Proof.
  intros Hs. unfold identification. destruct (m_identification s !! k) eqn:E; [by eapply Hs|].
  simpl. unfold in_range. lia.
Qed.

(** What a datagram with this identification and these addresses adds to the log. *)
Definition originates (id src dst proto : Z) (e : l3_event) : Prop :=
  let ok h := Ipv4Header.GetIdentification h = id /\ Ipv4Header.GetSource h = src /\
              Ipv4Header.GetDestination h = dst /\ Ipv4Header.GetProtocol h = proto in
  match e with
  | SendOutgoing h _ _ => ok h
  | TxTrace _ _ => True
  | ToInterface _ _ calls => forall c, c ∈ calls -> ok (call_header c)
  | _ => False
  end.

Lemma build_ok o src dst proto s h s' :
  build at_ o src dst proto s = Ok (h, s') ->
  let k := identification_key src dst proto in
  Ipv4Header.GetIdentification h = u16 (identification k s) /\ Ipv4Header.GetSource h = src /\
  Ipv4Header.GetDestination h = dst /\ Ipv4Header.GetProtocol h = u8 proto /\
  s' = set_identification (<[k := u16 (identification k s + 1)]> (m_identification s)) s.
Proof.
  unfold build, BuildHeader. rewrite !run_gets, run_update. intros [= <- <-].
  by destruct (ChecksumEnabled at_).
Qed.

(** The state of the identifications after one datagram, and what was logged. *)
Definition sent (o : list l3_event) (k : Z * Z) (v : Z) s s' : Prop :=
  l3_log s' = l3_log s ++ o /\ m_identification s' = <[k := v]> (m_identification s).

Lemma send_on_route_sent o src dst proto r s u s' :
  let k := identification_key src dst proto in let id := identification k s in
  in_range 16 id -> send_on_route at_ Hash32 now o src dst proto r s = Ok (u, s') ->
  exists l, sent l k (u16 (id + 1)) s s' /\ Forall (originates id src dst (u8 proto)) l.
Proof.
  intros k id Hid E. unfold send_on_route in E. step_in E.
  apply build_ok in E0 as (Hi & Hs & Hd & Hp & ->). fold k in Hi. rewrite wrap_small in Hi by done.
  step_in E. apply lift_ok in E0 as [_ ->]. unfold ipv4 in E. rewrite run_gets in E. unfold log in E. rewrite run_update in E.
  step_in E. apply SendRealOut_log in E as (l & -> & Hl).
  assert (exists s1, s0 = s1 /\ l3_log s1 = l3_log s ++ [SendOutgoing x (t_packet (og_packet o))
      (GetInterfaceForDevice (rt_dev r.1) (l3_ipv4 s))] /\
    m_identification s1 = <[k := u16 (id + 1)]> (m_identification s)) as (s1 & -> & Hlog & Hids).
  { eexists. split; [done|]. destruct (_ && _).
    - apply st_bind_ok in E0 as (b & s1 & [d ->]%update_duplicate_frame & E0). injection E0 as <- <-. done.
    - by injection E0 as <- <-. }
  eexists. split.
  - split; simpl; [by rewrite Hlog, <- app_assoc|done].
  - constructor; [done|]. eapply Forall_impl; [exact Hl|]. intros []; simpl; try done.
    intros Hc c Hin. destruct (Hc c Hin) as (Q1 & Q2 & Q3 & Q4 & _). rewrite Q1, Q2, Q3, Q4. by split_and!.
Qed.

Lemma u16_pred_succ id : in_range 16 id -> u16 (u16 (id + 1) - 1) = id.
Proof. intros Hid. rewrite wrap_sub_l, Z.add_simpl_r. by apply wrap_small. Qed.

(** After the decrement the same identification is taken again. *)
Lemma resend_sent o src dst proto r id m s u s' :
  let k := identification_key src dst proto in
  in_range 16 id -> m_identification s = <[k := u16 (id + 1)]> m ->
  resend at_ Hash32 now o src dst proto r s = Ok (u, s') ->
  exists l, l3_log s' = l3_log s ++ l /\ m_identification s' = <[k := u16 (id + 1)]> m /\
    Forall (originates id src dst (u8 proto)) l.
Proof.
  intros k Hid Hm E. unfold resend, DecreaseIdentification in E. rewrite run_update in E.
  assert (identification k s = u16 (id + 1)) as Hk by (unfold identification; by rewrite Hm, lookup_insert_eq).
  fold k in E. rewrite Hk, u16_pred_succ in E by done.
  set (s1 := set_identification (<[k := id]> (m_identification s)) s) in E.
  assert (identification k s1 = id) as H1d by (unfold identification; simpl; by rewrite lookup_insert_eq).
  apply send_on_route_sent in E; fold k in E |- *; rewrite H1d in *; [|done].
  destruct E as (l & [Hlog Hids] & Hl). exists l. split; [done|]. split; [|done].
  simpl in Hids. by rewrite Hids, Hm, !insert_insert_eq.
Qed.

(** A datagram that found no route. *)
Definition no_route (e : l3_event) : bool :=
  match e with DropTrace _ _ DROP_NO_ROUTE _ => true | _ => false end.

Lemma originates_routed id src dst proto l : Forall (originates id src dst proto) l -> existsb no_route l = false.
Proof. induction 1 as [|e l He _ IH]; [done|]. simpl. rewrite IH. by destruct e. Qed.

(** The copies of one broadcast. *)
Lemma broadcast_sent o src dst proto id m ifs : in_range 16 id ->
  let k := identification_key src dst proto in
  forall s u s', m_identification s = <[k := u16 (id + 1)]> m ->
  each (fun out => if has_source src out
                   then resend at_ Hash32 now o src dst proto (proxy_route src dst (GetDevice out))
                   else mret tt) ifs s = Ok (u, s') ->
  exists l, l3_log s' = l3_log s ++ l /\ m_identification s' = <[k := u16 (id + 1)]> m /\
    Forall (originates id src dst (u8 proto)) l.
Proof.
  intros Hid k. induction ifs as [|ifc ifs IH]; intros s u s' Hm E; simpl in E.
  { injection E as <- <-. exists []. rewrite app_nil_r. by split_and!. }
  apply st_bind_ok in E as (? & s1 & E1 & E).
  assert (exists l, l3_log s1 = l3_log s ++ l /\ m_identification s1 = <[k := u16 (id + 1)]> m /\
    Forall (originates id src dst (u8 proto)) l) as (l1 & Hl1 & Hm1 & Hf1).
  { destruct (has_source src ifc); [by eapply resend_sent|]. injection E1 as <- <-. exists []. rewrite app_nil_r. by split_and!. }
  destruct (IH s1 u s' Hm1 E) as (l2 & Hl2 & Hm2 & Hf2). exists (l1 ++ l2).
  rewrite Hl2, Hl1, app_assoc. split_and!; [done|done|by apply Forall_app].
Qed.

(** Case 4: by the routing protocol, or dropped. *)
Lemma routed_sent o src dst proto id m h rt s u s' :
  let k := identification_key src dst proto in
  in_range 16 id -> m_identification s = <[k := u16 (id + 1)]> m ->
  match rt with
  | Some rt => resend at_ Hash32 now o src dst proto (rt, true)
  | None => _ ← log (DropTrace h (t_packet (og_packet o)) DROP_NO_ROUTE 0); DecreaseIdentification src dst proto
  end s = Ok (u, s') ->
  exists l, l3_log s' = l3_log s ++ l /\
    m_identification s' = <[k := if existsb no_route l then id else u16 (id + 1)]> m /\
    (Forall (originates id src dst (u8 proto)) l \/ exists h p, l = [DropTrace h p DROP_NO_ROUTE 0]).
Proof.
  intros k Hid Hm E. destruct rt as [rt|].
  - apply (resend_sent _ _ _ _ _ id m) in E as (l & Hl & Hm' & Hf); [|done..]. exists l.
    rewrite (originates_routed _ _ _ _ l Hf). split_and!; [done..|]. by left.
  - unfold log, DecreaseIdentification in E. rewrite run_update in E. injection E as <- <-. eexists. split; [done|].
    simpl. fold k. unfold identification. simpl. rewrite Hm, lookup_insert_eq. simpl.
    rewrite u16_pred_succ by done. rewrite insert_insert_eq. split; [done|]. right. eauto.
Qed.

Lemma Send_sent o src dst proto route s u s' :
  let k := identification_key src dst proto in let id := identification k s in
  in_range 16 id -> Send at_ Hash32 now o src dst proto route s = Ok (u, s') ->
  exists l, l3_log s' = l3_log s ++ l /\
    m_identification s' = <[k := if existsb no_route l then id else u16 (id + 1)]> (m_identification s) /\
    (Forall (originates id src dst (u8 proto)) l \/ exists h p, l = [DropTrace h p DROP_NO_ROUTE 0]).
Proof.
  intros k id Hid E.
  assert (forall l, Forall (originates id src dst (u8 proto)) l -> existsb no_route l = false /\
    (Forall (originates id src dst (u8 proto)) l \/ exists h p, l = [DropTrace h p DROP_NO_ROUTE 0])) as Hall.
  { intros l Hl. split; [by eapply originates_routed|by left]. }
  destruct route as [r|]; unfold Send in E.
  { apply send_on_route_sent in E as (l & [Hl Hm] & Hf); [|done]. exists l.
    destruct (Hall l Hf) as [-> ?]. by split_and!. }
  apply st_bind_ok in E as (h & s1 & (_ & _ & _ & _ & ->)%build_ok & E). fold k id in E.
  unfold ipv4 in E. rewrite run_gets in E. destruct (_ || _).
  { apply (broadcast_sent _ _ _ _ id (m_identification s)) in E as (l & Hl & Hm & Hf); [|done..]. exists l.
    destruct (Hall l Hf) as [-> ?]. by split_and!. }
  apply st_bind_ok in E as (directed & s1 & [_ ->]%lift_ok & E). destruct directed as [d|].
  { apply (resend_sent _ _ _ _ _ id (m_identification s)) in E as (l & Hl & Hm & Hf); [|done..]. exists l.
    destruct (Hall l Hf) as [-> ?]. by split_and!. }
  rewrite run_gets in E. apply st_bind_ok in E as (rt & s1 & E1 & E).
  assert (l3_log s1 = l3_log s /\ m_identification s1 = <[k := u16 (id + 1)]> (m_identification s)) as [Hlog Hids].
  { destruct (m_routingProtocol _); [|by injection E1 as <- <-].
    apply st_bind_ok in E1 as ([[rt' e] rp'] & s2 & [_ ->]%lift_ok & E1).
    rewrite run_update in E1. by injection E1 as <- <-. }
  apply (routed_sent _ _ _ _ id (m_identification s)) in E as (l & Hl & Hm & Hf); [|done..]. exists l.
  by rewrite <- Hlog.
Qed.

Lemma Send_ids_ok o src dst proto route s u s' :
  ids_ok s -> Send at_ Hash32 now o src dst proto route s = Ok (u, s') -> ids_ok s'.
Proof.
  intros Hok E. apply Send_sent in E as (l & _ & Hm & _); [|by apply identification_range].
  intros k v. rewrite Hm, lookup_insert_Some. intros [[_ <-]|[_ Hv]]; [|by eapply Hok].
  destruct (existsb _ _); [by apply identification_range|by apply wrap_range].
Qed.

(** ** Sequences of datagrams *)

Record send_call := mkSend { sc_packet : outgoing; sc_src : Z; sc_dst : Z; sc_proto : Z; sc_route : option out_route }.
Definition flow (c : send_call) : Z * Z := identification_key (sc_src c) (sc_dst c) (sc_proto c).

(** Calls of [Send], each with the events it logged. *)
Inductive sends : l3 RP P -> list (send_call * list l3_event) -> l3 RP P -> Prop :=
| sends_nil s : sends s [] s
| sends_cons s c l u s1 tr s' :
    Send at_ Hash32 now (sc_packet c) (sc_src c) (sc_dst c) (sc_proto c) (sc_route c) s = Ok (u, s1) ->
    l3_log s1 = l3_log s ++ l -> sends s1 tr s' -> sends s ((c, l) :: tr) s'.

(** The datagrams of a flow that were not dropped for lack of a route. *)
Fixpoint sent_in (k : Z * Z) (tr : list (send_call * list l3_event)) : Z :=
  match tr with
  | [] => 0
  | (c, l) :: tr' => (if bool_decide (flow c = k) && negb (existsb no_route l) then 1 else 0) + sent_in k tr'
  end.

Lemma sent_in_bounds k tr : 0 <= sent_in k tr <= Z.of_nat (length tr).
Proof. induction tr as [|[c l] tr IH]; cbn [sent_in length]; [lia|]. destruct (_ && _); lia. Qed.

Lemma send_step c l s u s1 :
  ids_ok s -> Send at_ Hash32 now (sc_packet c) (sc_src c) (sc_dst c) (sc_proto c) (sc_route c) s = Ok (u, s1) ->
  l3_log s1 = l3_log s ++ l ->
  (forall k, identification k s1 = u16 (identification k s + sent_in k [(c, l)])) /\
  (forall h p i, SendOutgoing h p i ∈ l ->
     Ipv4Header.GetIdentification h = identification (flow c) s /\ existsb no_route l = false).
Proof.
  intros Hok E Hl. apply Send_sent in E as (l' & Hl' & Hm & Hf); [|by apply identification_range].
  rewrite Hl in Hl'. apply app_inv_head in Hl' as <-. fold (flow c) in Hm, Hf. split.
  - intros k. cbn [sent_in]. unfold identification at 1. rewrite Hm.
    destruct (bool_decide_reflect (flow c = k)) as [<-|Hne]; simpl.
    + rewrite lookup_insert_eq. simpl. destruct (existsb no_route l); simpl; [|done].
      rewrite Z.add_0_r. symmetry. apply wrap_small. by apply identification_range.
    + rewrite lookup_insert_ne by done. rewrite Z.add_0_r. symmetry. apply wrap_small. by apply identification_range.
  - intros h p i Hin. destruct Hf as [Hf|(h' & p' & ->)]; [|by apply list_elem_of_singleton in Hin].
    split; [|by eapply originates_routed]. rewrite Forall_forall in Hf. by destruct (Hf _ Hin).
Qed.

Lemma sends_counted s tr s' : sends s tr s' -> ids_ok s ->
  forall k, identification k s' = u16 (identification k s + sent_in k tr).
Proof.
  induction 1 as [s|s c l u s1 tr s' E Hl _ IH]; intros Hok k.
  - cbn [sent_in]. rewrite Z.add_0_r. symmetry. apply wrap_small. by apply identification_range.
  - destruct (send_step c l s u s1 Hok E Hl) as [Hk _]. rewrite IH by (by eapply Send_ids_ok). rewrite Hk.
    rewrite wrap_add_l. f_equal. cbn [sent_in]. lia.
Qed.

Lemma sends_last s tr c l s' : ids_ok s -> sends s (tr ++ [(c, l)]) s' ->
  exists s1 u, sends s tr s1 /\ ids_ok s1 /\ l3_log s' = l3_log s1 ++ l /\
    Send at_ Hash32 now (sc_packet c) (sc_src c) (sc_dst c) (sc_proto c) (sc_route c) s1 = Ok (u, s').
Proof.
  revert s. induction tr as [|[c0 l0] tr IH]; intros s Hok Hs; inversion Hs as [|? ? ? u s1 ? ? E Hl Hrest]; subst.
  - inversion Hrest; subst. exists s, u. split; [constructor|]. done.
  - destruct (IH s1) as (s2 & u2 & H1s & H2s); [by eapply Send_ids_ok|done|].
    exists s2, u2. split; [by econstructor|done].
Qed.
End spec.

(** Identifications are distinct.  Between two datagrams with the same source,
    destination and protocol, fewer than 65535 other datagrams apart, whatever
    is sent in between and by whichever case of [Send] (explicit route, limited
    or directed broadcast, routing protocol) the two are sent, every header of
    the first carries a different identification from every header of the
    second, so their fragments are never reassembled together. *)
Theorem Send_identification {RP P} `{RoutingProtocol RP} `{NetDevices} `{IpL4Protocol P}
    at_ Hash32 now (s s' : l3 RP P) c1 l1 tr c2 l2 h1 h2 p1 p2 i1 i2 :
  ids_ok s -> sends at_ Hash32 now s ((c1, l1) :: tr ++ [(c2, l2)]) s' ->
  flow c1 = flow c2 -> Z.of_nat (length tr) < 2 ^ 16 - 1 ->
  SendOutgoing h1 p1 i1 ∈ l1 -> SendOutgoing h2 p2 i2 ∈ l2 ->
  Ipv4Header.GetIdentification h1 <> Ipv4Header.GetIdentification h2.
Proof.
  intros Hok Hs Hflow Hlen Hin1 Hin2. inversion Hs as [|? ? ? u s1 ? ? E Hl Hrest]; subst.
  assert (ids_ok s1) as Hok1 by (eapply Send_ids_ok; [exact Hok|exact E]).
  destruct (send_step at_ Hash32 now c1 l1 s u s1 Hok E Hl) as [Hk1 Hh1]. destruct (Hh1 _ _ _ Hin1) as [-> Hr1].
  destruct (sends_last at_ Hash32 now s1 tr c2 l2 s') as (s2 & u2 & Hs2 & Hok2 & Hl2 & E2); [done..|].
  destruct (send_step at_ Hash32 now c2 l2 s2 u2 s' Hok2 E2 Hl2) as [_ Hh2]. destruct (Hh2 _ _ _ Hin2) as [-> _].
  rewrite <- Hflow, (sends_counted at_ Hash32 now s1 tr s2 Hs2 Hok1).
  rewrite Hk1, wrap_add_l. cbn [sent_in]. rewrite Hr1, bool_decide_eq_true_2 by done. cbn [negb andb].
  pose proof (identification_range (flow c1) s Hok) as Hr. pose proof (sent_in_bounds (flow c1) tr).
  unfold in_range in Hr. unfold wrap. intros Heq.
  apply (f_equal (fun z => (z - identification (flow c1) s) mod 2 ^ 16)) in Heq.
  rewrite Z.sub_diag, Zminus_mod_idemp_l, Z.mod_small in Heq by lia.
  rewrite Z.mod_small in Heq; lia.
Qed.

(** * Correctness of the IPv4 stack: reception

    Every received unicast packet meets exactly one fate; packets do not
    circulate for ever. *)

(** The packet is dropped, forwarded or handed to the transport protocols. *)
Definition disposal (e : l3_event) : bool :=
  match e with DropTrace _ _ _ _ | UnicastForward _ _ _ _ | LocalDeliverTrace _ _ _ => true | _ => false end.
Definition disposals (l : list l3_event) : nat := length (List.filter disposal l).

Lemma disposals_app l1 l2 : disposals (l1 ++ l2) = (disposals l1 + disposals l2)%nat.
Proof. unfold disposals. by rewrite List.filter_app, length_app. Qed.

Definition is_fragment (h : Ipv4Header) : bool :=
  negb (Ipv4Header.IsLastFragment h) || negb (Ipv4Header.GetFragmentOffset h =? 0).

Section props.
Context {RP P : Type} `{RoutingProtocol RP} `{NetDevices} `{IpL4Protocol P}.
Context (at_ : attributes) (Hash32 : bytes -> Z) (now : Z).
Implicit Types s : l3 RP P.

(** [n] disposals are logged between the two states. *)
Definition disposes (n : nat) s s' : Prop := exists l, l3_log s' = l3_log s ++ l /\ disposals l = n.

Lemma disposes_trans n m s1 s2 s3 : disposes n s1 s2 -> disposes m s2 s3 -> disposes (n + m) s1 s3.
Proof.
  intros (l1 & E1 & <-) (l2 & E2 & <-). exists (l1 ++ l2). by rewrite E2, E1, disposals_app, app_assoc.
Qed.
Lemma disposes_none s s' : l3_log s' = l3_log s -> disposes 0 s s'.
Proof. exists []. by rewrite app_nil_r. Qed.
Lemma disposes_one e s : disposal e = true -> disposes 1 s (add_log e s).
Proof. intros He. exists [e]. split; [done|]. unfold disposals. simpl. by rewrite He. Qed.
Lemma disposes_other e s : disposal e = false -> disposes 0 s (add_log e s).
Proof. intros He. exists [e]. split; [done|]. unfold disposals. simpl. by rewrite He. Qed.

Lemma SendRealOut_disposes rt p h s u s' : SendRealOut at_ (Some rt) p h s = Ok (u, s') -> disposes 0 s s'.
Proof.
  intros (l & -> & Hl)%SendRealOut_log. exists l. split; [done|].
  induction Hl as [|e l He _ IH]; [done|]. unfold disposals in *. simpl. by destruct e.
Qed.

Lemma icmp_log e s u s' : icmp e s = Ok (u, s') -> s' = add_log e s.
Proof.
  unfold icmp. rewrite run_gets. intros (? & s1 & [_ ->]%lift_ok & E)%st_bind_ok. by injection E as <- <-.
Qed.

Lemma IpForward_disposes rt p h s u s' : IpForward at_ rt p h s = Ok (u, s') -> disposes 1 s s'.
Proof.
  unfold IpForward, ipv4. rewrite run_gets. destruct (_ =? 0).
  - intros (x & s1 & E1 & E)%st_bind_ok. injection E as <- <-.
    apply (disposes_trans 0 1 s s1); [|by apply disposes_one].
    destruct (_ && _); [|by injection E1 as <- <-; apply disposes_none].
    apply icmp_log in E1 as ->. by apply disposes_other.
  - unfold log. rewrite run_update. intros E%SendRealOut_disposes.
    eapply (disposes_trans 1 0); [|exact E]. by apply disposes_one.
Qed.

Lemma deliver_up_disposes p h iif s u s' : deliver_up p h iif s = Ok (u, s') -> disposes 1 s s'.
Proof.
  unfold deliver_up, log. rewrite run_update, run_gets.
  pose proof (disposes_one (LocalDeliverTrace h p iif) s eq_refl) as H1d.
  destruct (GetProtocol _ _ _) as [proto|]; [|by intros [= <- <-]].
  rewrite run_update, run_gets. rewrite run_gets. simpl l3_l4.
  destruct (l4_Receive _ _ _ _ _) as [[status l4']|]; [|done]. rewrite run_lifted. cbv beta iota. rewrite run_update.
  intros E. apply (disposes_trans 1 0 _ _ _ H1d).
  apply (disposes_trans 0 0 _ _ _ (disposes_other (ToProtocol proto h p iif) _ eq_refl)).
  destruct (bool_decide _); [|by injection E as <- <-; apply disposes_none].
  destruct (_ || _); [by injection E as <- <-; apply disposes_none|].
  unfold ask, ipv4 in E. apply st_bind_ok in E as (ifc & s1 & E1 & E).
  rewrite run_gets in E1. apply lift_ok in E1 as [_ ->].
  destruct (subnet_directed _ _); [by injection E as <- <-; apply disposes_none|].
  apply icmp_log in E as ->. apply (disposes_trans 0 0 _ (set_l4 l4' (add_log (ToProtocol proto h p iif)
    (add_log (LocalDeliverTrace h p iif) s)))); [by apply disposes_none|by apply disposes_other].
Qed.

Lemma LocalDeliver_disposes p h iif s u s' :
  LocalDeliver at_ now p h iif s = Ok (u, s') -> disposes 1 s s' \/ (is_fragment h = true /\ disposes 0 s s').
Proof.
  unfold LocalDeliver. fold (is_fragment h). destruct (is_fragment h); [|by intros ?%deliver_up_disposes; left].
  rewrite run_gets. intros ([[complete whole] r'] & s1 & [_ ->]%lift_ok & E)%st_bind_ok. rewrite run_update in E.
  destruct complete; [|injection E as <- <-; right; split; [done|by apply disposes_none]].
  apply st_bind_ok in E as (h' & s1 & [_ ->]%lift_ok & E). apply deliver_up_disposes in E. left.
  eapply (disposes_trans 0 1); [by apply disposes_none|exact E].
Qed.

(** A fragment for local delivery, which may be put aside for reassembly. *)
Definition fragment_call (c : rcall) : bool :=
  match c with CallLocalDeliver _ h _ => is_fragment h | _ => false end.
Definition fragments (calls : list rcall) : nat := length (List.filter fragment_call calls).

(** One of the callbacks. *)
Lemma run_call_disposes c s u s' :
  unicast_call c -> run_call at_ now c s = Ok (u, s') -> disposes 1 s s' \/ (fragment_call c = true /\ disposes 0 s s').
Proof.
  intros Hc E. destruct c as [rt q h'|rt q h'|q h' iif|q h' e]; [| done| |]; simpl in E.
  - left. by eapply IpForward_disposes.
  - by eapply LocalDeliver_disposes.
  - left. injection E as <- <-. by apply disposes_one.
Qed.

(** All of them: one fate each, or put aside. *)
Lemma run_calls_dispose calls : forall s u s',
  Forall unicast_call calls -> each (run_call at_ now) calls s = Ok (u, s') ->
  exists n aside, disposes n s s' /\ (n + aside = length calls)%nat /\ (aside <= fragments calls)%nat.
Proof.
  induction calls as [|c calls IH]; intros s u s' Hc E; cbn [each] in E.
  { injection E as <- <-. exists 0%nat, 0%nat. split; [by apply disposes_none|done]. }
  apply Forall_cons in Hc as [Hc Hcs]. apply st_bind_ok in E as (? & s1 & E1 & E).
  destruct (IH _ _ _ Hcs E) as (n & aside & Hd & Hsum & Hle).
  destruct (run_call_disposes _ _ _ _ Hc E1) as [H1d|[Hf H0d]].
  - exists (1 + n)%nat, aside. split; [by eapply disposes_trans|]. unfold fragments in *. simpl.
    destruct (fragment_call c); simpl; lia.
  - exists (0 + n)%nat, (S aside). split; [by eapply disposes_trans|]. unfold fragments in *. simpl. rewrite Hf. simpl. lia.
Qed.

(** What the routing protocol says of the packet in the state [s]. *)
Definition answer (device : Z) (p : tagged) (h : Ipv4Header) s (b : bool) (calls : list rcall) (p' : tagged) (rp' : RP) : Prop :=
  exists rp, m_routingProtocol s = Some rp /\ rp_RouteInput (l3_ipv4 s) p h (Some device) true rp = Ok (b, calls, p', rp').

(** The fate of a packet that was routed: one for each callback, unless it is a
    fragment put aside, and a drop if the routing protocol did not accept it. *)
Definition routed_fate (device : Z) (p : tagged) (h : Ipv4Header) s (l : list l3_event) : Prop :=
  exists b calls p' rp' aside, answer device p h s b calls p' rp' /\
    (disposals l + aside = length calls + (if b then 0 else 1))%nat /\ (aside <= fragments calls)%nat.

(** Why routing the packet stopped: there is no routing protocol, it stopped, or
    one of the callbacks did, after the ones before it. *)
Inductive routing_stops (device : Z) (p : tagged) (h : Ipv4Header) s : fault -> Prop :=
| NoProtocol : m_routingProtocol s = None -> routing_stops device p h s AssertFailed
| RouteInputStops rp x : m_routingProtocol s = Some rp ->
    rp_RouteInput (l3_ipv4 s) p h (Some device) true rp = Err x -> routing_stops device p h s x
| CallbackStops b pre c post p' rp' l s1 x : answer device p h s b (pre ++ c :: post) p' rp' -> disposals l = 0%nat ->
    each (run_call at_ now) pre (set_routing (Some rp') (add_logs l s)) = Ok (tt, s1) ->
    run_call at_ now c s1 = Err x -> routing_stops device p h s x.

Lemma route_input_fate `{!UnicastOnly RP} device interface p h s l0 :
  Ipv4Address.IsMulticast (Ipv4Header.GetDestination h) = false -> disposals l0 = 0%nat ->
  match route_input at_ now device interface p h (add_logs l0 s) with
  | Ok (_, s') => exists l, l3_log s' = l3_log s ++ l /\ routed_fate device p h s l
  | Err x => routing_stops device p h s x
  end.
Proof.
  intros Hm Hl0. unfold route_input, ipv4. rewrite run_gets. simpl m_routingProtocol.
  destruct (m_routingProtocol s) as [rp|] eqn:Er; [|by apply NoProtocol].
  rewrite run_lifted, run_gets. simpl l3_ipv4.
  destruct (rp_RouteInput (l3_ipv4 s) p h (Some device) true rp) as [[[[b calls] p'] rp']|x] eqn:Ei;
    [|by apply (RouteInputStops _ _ _ _ rp)].
  rewrite run_lifted. cbv beta iota. rewrite run_update. set (s0 := set_routing _ _).
  assert (answer device p h s b calls p' rp') as Hans by (by exists rp).
  pose proof (law_unicast_only _ _ _ _ _ _ _ _ _ _ Hm Ei) as Hc.
  unfold mbind at 1, st_bind at 1. destruct (each _ calls s0) as [[u s1]|x] eqn:Ec.
  - destruct (run_calls_dispose calls s0 u s1 Hc Ec) as (n & aside & (l & El & Hn) & Hsum & Hle).
    assert (l3_log s1 = l3_log s ++ (l0 ++ l)) as El1 by (rewrite El; simpl; by rewrite app_assoc).
    destruct b.
    + exists (l0 ++ l). split; [done|]. exists true, calls, p', rp', aside. rewrite disposals_app. split_and!; [done|lia|done].
    + exists ((l0 ++ l) ++ [DropTrace h (t_packet p') DROP_NO_ROUTE interface]). split; [simpl; by rewrite El1, <- app_assoc|].
      exists false, calls, p', rp', aside. rewrite !disposals_app. split; [done|]. split; [|done].
      change (disposals [_]) with 1%nat. lia.
  - apply each_err in Ec as (pre & c & post & s1 & -> & E1 & E2). by eapply CallbackStops.
Qed.

(** A protocol that disposes of the packet by one callback if it accepts it, and
    by none otherwise, gives it one fate. *)
Lemma disposed_once p h b calls n aside :
  disposed p h b calls -> (n + aside = length calls + (if b then 0 else 1))%nat -> (aside <= fragments calls)%nat ->
  n = 1%nat \/ (n = 0%nat /\ is_fragment h = true).
Proof.
  intros [Hb Hc] Hsum Hle. destruct b; [|subst; simpl in *; unfold fragments in Hle; simpl in Hle; lia].
  destruct calls as [|c [|]]; [done| |done]. apply Forall_cons in Hc as [Hc _]. unfold fragments in Hle. simpl in *.
  destruct (fragment_call c) eqn:Ef; simpl in Hle; [|lia].
  destruct c as [| |q' h' iif|]; try done. destruct Hc as [-> ->]. simpl in Ef. rewrite Ef. lia.
Qed.

(** The header that [Receive] starts from. *)
Definition fresh_header : Ipv4Header :=
  if ChecksumEnabled at_ then Ipv4Header.EnableChecksum Ipv4Header.new_Ipv4Header else Ipv4Header.new_Ipv4Header.

Lemma each_raw_logs h q l : forall s,
  each (fun k => log (ToRawSocket k h q)) l s = Ok (tt, add_logs ((fun k => ToRawSocket k h q) <$> l) s).
Proof.
  induction l as [|k l IH]; intros s; simpl; [by rewrite add_logs_nil|].
  unfold log. rewrite run_update, IH, add_log_logs, add_logs_app. done.
Qed.
Lemma raw_disposals h q l : disposals ((fun k => ToRawSocket k h q) <$> l) = 0%nat.
Proof. induction l; done. Qed.

(** Without the checksum the same header is read. *)
Lemma plain_header p h q :
  RemoveIpv4Header fresh_header p = Ok (h, q) -> exists h', RemoveIpv4Header Ipv4Header.new_Ipv4Header p = Ok (h', q).
Proof.
  unfold fresh_header. destruct (ChecksumEnabled at_); [|eauto]. unfold RemoveIpv4Header, Ipv4Header.Deserialize.
  intros ([h1 n] & E & [= <- <-])%bind_ok.
  apply bind_ok in E as ([v i] & E0 & E). rewrite E0. cbn [mbind res_bind] in *. destruct (negb _); [injection E as <- <-; eauto|].
  do 10 (apply bind_ok in E as ([? ?] & ?E & E); rewrite E1; clear E1; cbn [mbind res_bind] in * ).
  apply bind_ok in E as (g & _ & [= <- <-]). simpl. eauto.
Qed.

(** The packet does not reach the routing protocol. *)
Definition refused (device : Z) (h : Ipv4Header) s : Prop :=
  (exists ifc, Ipv4Ifaces.GetInterface (GetInterfaceForDevice (Some device) (l3_ipv4 s)) (l3_ipv4 s) = Some ifc /\ if_IsUp ifc = false) \/
  Ipv4Header.IsChecksumOk h = false.

(** Why [Receive] stops. *)
Inductive receive_stops (device : Z) (p : tagged) (h : Ipv4Header) s : fault -> Prop :=
| NoInterface : GetInterfaceForDevice (Some device) (l3_ipv4 s) = -1 -> receive_stops device p h s AssertFailed
| BadInterface : Ipv4Ifaces.GetInterface (GetInterfaceForDevice (Some device) (l3_ipv4 s)) (l3_ipv4 s) = None ->
    receive_stops device p h s UndefinedBehaviour
| RoutingStops x : routing_stops device p h s x -> receive_stops device p h s x.

(** Reception up to routing. *)
Lemma Receive_cases device p from s h q :
  RemoveIpv4Header fresh_header (t_packet p) = Ok (h, q) ->
  Ipv4Address.IsMulticast (Ipv4Header.GetDestination h) = false ->
  let r := Receive at_ Hash32 now device p from s in let p' := mkTagged (trim h q) (t_tag p) in
  (exists x, r = Err x /\ receive_stops device p' h s x) \/
  (refused device h s /\ exists s', r = Ok (tt, s') /\ disposes 1 s s') \/
  exists l0, disposals l0 = 0%nat /\
    r = route_input at_ now device (GetInterfaceForDevice (Some device) (l3_ipv4 s)) p' h (add_logs l0 s).
Proof.
  intros Eh Hm. cbv zeta. unfold Receive, ipv4. rewrite run_gets. set (interface := GetInterfaceForDevice _ _).
  destruct (Z.eqb_spec interface (-1)) as [Hi|Hi].
  { left. exists AssertFailed. split; [done|by apply NoInterface]. }
  rewrite run_assert by done. destruct (Ipv4Ifaces.GetInterface interface (l3_ipv4 s)) as [ifc|] eqn:Ei.
  2:{ left. exists UndefinedBehaviour. split; [done|by apply BadInterface]. }
  simpl (deref _). rewrite run_lifted. destruct (if_IsUp ifc) eqn:Eu; simpl (negb _); cbv iota.
  2:{ right. left. split; [left; by exists ifc|]. destruct (plain_header _ _ _ Eh) as [h' ->]. rewrite run_lifted.
      eexists. split; [reflexivity|by apply disposes_one]. }
  rewrite run_log. fold fresh_header. rewrite Eh, run_lifted. cbv beta iota zeta.
  set (s0 := add_logs [RxTrace _ _] s). destruct (Ipv4Header.IsChecksumOk h) eqn:Ec; simpl (negb _); cbv iota.
  2:{ right. left. split; [by right|]. eexists. split; [reflexivity|].
      apply (disposes_trans 0 1 s s0); [by apply (disposes_other (RxTrace _ _))|by apply disposes_one]. }
  right. right. set (arp := match GetArpCache ifc with Some c => [ArpSeen c (Ipv4Header.GetSource h) from] | None => [] end).
  assert (forall B (k : unit -> st (l3 RP P) B), ((match GetArpCache ifc with
    | Some c => log (ArpSeen c (Ipv4Header.GetSource h) from) | None => mret tt end) ≫= k) s0 = k tt (add_logs arp s0)) as Earp.
  { intros B k. unfold arp. destruct (GetArpCache ifc); [done|]. by rewrite run_mret, add_logs_nil. }
  rewrite Earp, run_gets. rewrite (run_bind _ _ _ _ _ (each_raw_logs h (trim h q) _ _)).
  rewrite Hm, andb_false_r, run_mret. cbv iota. unfold s0. rewrite !add_logs_app.
  eexists. split; [|reflexivity]. rewrite !disposals_app, raw_disposals. unfold arp. by destruct (GetArpCache ifc).
Qed.
End props.

(** C25. Every received unicast packet is accounted for.  Whatever the state of
    the stack and whatever its routing protocol (it need only not forward a
    unicast packet by multicast, as none of this repository does), when
    [Receive] returns from a frame with a unicast IPv4 header it has logged
    exactly one drop if it refused the packet (interface down, bad checksum);
    otherwise it has logged one forwarding, delivery or drop for each callback
    of the routing protocol, except fragments put aside for reassembly, and
    one drop more if the protocol did not accept the packet.  So a protocol
    that disposes of the packet once ([disposed], as lists of static and
    global routing do) gives it exactly one fate, and the load balancer, which
    forwards it and does not accept it, does not.  [Receive] stops only where
    the device has no interface, the stack no routing protocol, or the routing
    protocol or one of its callbacks stops. *)
Theorem Receive_disposes_once {RP P} `{UnicastOnly RP} `{NetDevices} `{IpL4Protocol P} at_ Hash32 now
    device p from (s : l3 RP P) h q :
  RemoveIpv4Header (fresh_header at_) (t_packet p) = Ok (h, q) ->
  Ipv4Address.IsMulticast (Ipv4Header.GetDestination h) = false ->
  let p' := mkTagged (trim h q) (t_tag p) in
  match Receive at_ Hash32 now device p from s with
  | Ok (_, s') => exists l, l3_log s' = l3_log s ++ l /\
      (refused device h s /\ disposals l = 1%nat \/ routed_fate device p' h s l) /\
      ((forall b calls r rp', answer device p' h s b calls r rp' -> disposed p' h b calls) ->
       disposals l = 1%nat \/ (disposals l = 0%nat /\ is_fragment h = true))
  | Err x => receive_stops at_ now device p' h s x
  end.
Proof.
  intros Eh Hm p'.
  destruct (Receive_cases at_ Hash32 now device p from s h q Eh Hm)
    as [(x & -> & Hx)|[(Href & s' & -> & l & El & Hl)|(l0 & Hl0 & ->)]]; [done|exists l; auto|].
  pose proof (route_input_fate at_ now device (GetInterfaceForDevice (Some device) (l3_ipv4 s)) p' h s l0 Hm Hl0) as Hr.
  destruct (route_input _ _ _ _ _ _ _) as [[u s']|x]; [|by apply RoutingStops].
  destruct Hr as (l & El & Hfate). exists l. split; [done|]. split; [by right|].
  destruct Hfate as (b & calls & r & rp' & aside & Hans & Hsum & Hle). intros Hlaw.
  by eapply disposed_once; [by eapply Hlaw|..].
Qed.

(** ** The hop limit *)

Section hops.
Context {RP P : Type} `{RoutingProtocol RP} `{NetDevices} `{IpL4Protocol P}.
Implicit Types s : l3 RP P.

(** Some stack forwards a packet with header [h] and hands to an interface a
    packet (the whole or a fragment) whose TTL the next router reads in [h']. *)
Inductive relays (h h' : Ipv4Header) : Prop :=
| relay at_ rt p s u s' l i tag calls c :
    IpForward at_ rt p h s = Ok (u, s') -> l3_log s' = l3_log s ++ l ->
    ToInterface i tag calls ∈ l -> c ∈ calls ->
    Ipv4Header.GetTtl h' = Ipv4Header.GetTtl (call_header c) -> relays h h'.

(** [n] routers in a row. *)
Inductive hops (h : Ipv4Header) : nat -> Ipv4Header -> Prop :=
| hops_0 : hops h 0 h
| hops_S n h1 h2 : hops h n h1 -> relays h1 h2 -> hops h (S n) h2.

Lemma IpForward_outputs at_ rt p h s u s' l i tag calls c :
  IpForward at_ rt p h s = Ok (u, s') -> l3_log s' = l3_log s ++ l -> ToInterface i tag calls ∈ l -> c ∈ calls ->
  u8 (Ipv4Header.GetTtl h - 1) <> 0 /\ Ipv4Header.GetTtl (call_header c) = u8 (Ipv4Header.GetTtl h - 1).
Proof.
  unfold IpForward, ipv4. rewrite run_gets. set (h1 := Ipv4Header.SetTtl _ h). intros E Hl Hin Hc.
  change (u8 (Ipv4Header.GetTtl h - 1)) with (Ipv4Header.GetTtl h1).
  destruct (Z.eqb_spec (Ipv4Header.GetTtl h1) 0) as [Hz|Hz].
  - exfalso. apply st_bind_ok in E as (x & s1 & E1 & E). injection E as <- <-. simpl in Hl.
    assert (exists l1, l3_log s1 = l3_log s ++ l1 /\ ToInterface i tag calls ∉ l1) as (l1 & Hl1 & Hn).
    { destruct (_ && _).
      - apply icmp_log in E1 as ->. eexists. split; [done|]. by intros ?%list_elem_of_singleton.
      - injection E1 as <- <-. exists []. rewrite app_nil_r. split; [done|]. by intros ?%elem_of_nil. }
    rewrite Hl1, <- app_assoc in Hl. apply app_inv_head in Hl as <-.
    apply elem_of_app in Hin as [Hin|Hin]; [done|]. by apply list_elem_of_singleton in Hin.
  - split; [done|]. unfold log in E. rewrite run_update in E. apply SendRealOut_log in E as (l1 & -> & Hf).
    simpl in Hl. rewrite <- app_assoc in Hl. apply app_inv_head in Hl as <-.
    apply elem_of_app in Hin as [Hin|Hin]; [by apply list_elem_of_singleton in Hin|].
    rewrite Forall_forall in Hf. destruct (Hf _ Hin c Hc) as (_ & _ & _ & _ & E & _). done.
Qed.

Lemma relays_ttl h h' :
  1 <= Ipv4Header.GetTtl h < 256 -> relays h h' ->
  Ipv4Header.GetTtl h' = Ipv4Header.GetTtl h - 1 /\ 1 <= Ipv4Header.GetTtl h'.
Proof.
  intros Hr [at_ rt p s u s' l i tag calls c E Hl Hin Hc ->].
  destruct (IpForward_outputs _ _ _ _ _ _ _ _ _ _ _ _ E Hl Hin Hc) as [Hne ->].
  rewrite wrap_small in * by (unfold in_range; lia). lia.
Qed.
End hops.

(** Packets do not circulate for ever: a packet sent with a TTL of 1 to 255 is
    forwarded fewer times than its TTL, by whatever sequence of routers with
    whatever routes and interfaces, and each router takes exactly one off. *)
Theorem hop_limit {RP P} `{RoutingProtocol RP} `{NetDevices} `{IpL4Protocol P} h n h' :
  1 <= Ipv4Header.GetTtl h < 256 -> hops (RP := RP) (P := P) h n h' ->
  Z.of_nat n < Ipv4Header.GetTtl h /\ Ipv4Header.GetTtl h' = Ipv4Header.GetTtl h - Z.of_nat n.
Proof.
  intros Hr. induction 1 as [|n h1 h2 Hh [IH1 IH2] Hrel]; [lia|].
  apply relays_ttl in Hrel; lia.
Qed.

(** A TTL of zero wraps: a packet that arrives with TTL 0 is not dropped but
    forwarded with TTL 255. *)
Theorem IpForward_wraps_zero {RP P} `{RoutingProtocol RP} `{NetDevices} `{IpL4Protocol P} at_ rt p h (s s' : l3 RP P) :
  Ipv4Header.GetTtl h = 0 -> IpForward at_ rt p h s = Ok (tt, s') ->
  exists i prio l, l3_log s' = l3_log s ++ UnicastForward (Ipv4Header.SetTtl 255 h) (t_packet p) i prio :: l /\
    existsb disposal l = false.
Proof.
  intros Ht E. unfold IpForward, ipv4 in E. rewrite run_gets, Ht in E. unfold log in E.
  replace (Ipv4Header.SetTtl (0 - 1) h) with (Ipv4Header.SetTtl 255 h) in E by done.
  change (Ipv4Header.GetTtl (Ipv4Header.SetTtl 255 h) =? 0) with false in E. cbv iota in E.
  rewrite run_update in E. apply SendRealOut_log in E as (l & -> & Hl). do 2 eexists. exists l. split.
  - simpl. by rewrite <- app_assoc.
  - induction Hl as [|e l He _ IH]; [done|]. simpl. rewrite IH. by destruct e.
Qed.
