(* ===== verification/L3Path.v ===== *)
(** * Datagrams cross routers unchanged

    One router: the frame that arrives is read, routed and sent on with a TTL
    one smaller.  A path of routers: by induction, down to the delivery to the
    transport protocol of the destination. *)

From S2P Require Import Prelude Bytes Packet Ipv4Ifaces Fragment FragmentSpec Routing.
From S2P Require Import Dpd Ipv4L3Protocol L3Spec.
From S2P Require Ipv4Address Ipv4Header StaticRouting ListRouting.
Import Ipv4Header (Ipv4Header).

(** The frame [x] carries the datagram: a valid header and the data [d]. *)
Record on_wire (checksum : bool) (h : Ipv4Header) (d : bytes) (x : Packet) : Prop := {
  ow_valid : Ipv4Header.valid h;
  ow_calc : Ipv4Header.m_calcChecksum h = checksum;
  ow_size : Ipv4Header.GetPayloadSize h = Z.of_nat (length d);
  ow_data : exists w, Ipv4Header.Serialize h = Ok w /\ p_data x = w ++ d }.

(** The fields routers must not change. *)
Definition fixed_fields (h : Ipv4Header) :=
  (Ipv4Header.GetSource h, Ipv4Header.GetDestination h, Ipv4Header.GetProtocol h, Ipv4Header.GetIdentification h,
   Ipv4Header.GetTos h, Ipv4Header.GetPayloadSize h, Ipv4Header.GetFragmentOffset h, Ipv4Header.m_flags h).

Lemma fixed_destination h h' : fixed_fields h = fixed_fields h' -> Ipv4Header.GetDestination h = Ipv4Header.GetDestination h'.
Proof. by intros [=]. Qed.
Lemma fixed_size h h' : fixed_fields h = fixed_fields h' -> Ipv4Header.GetPayloadSize h = Ipv4Header.GetPayloadSize h'.
Proof. by intros [=]. Qed.

Section wire.
Context (at_ : attributes).
Notation checksum := (ChecksumEnabled at_).

(** Reading the frame gives the header, accepted, and the data. *)
Lemma read_frame h d x : on_wire checksum h d x ->
  exists hr, RemoveIpv4Header (fresh_header at_) x = Ok (hr, with_data x d) /\
    fixed_fields hr = fixed_fields h /\ Ipv4Header.GetTtl hr = Ipv4Header.GetTtl h /\
    Ipv4Header.valid hr /\ Ipv4Header.m_calcChecksum hr = checksum /\ Ipv4Header.IsChecksumOk hr = true.
Proof.
  intros [Hv Hc Hs (w & Ew & Ed)].
  destruct (Ipv4Header.header_roundtrip h (fresh_header at_) d Hv) as (w' & c & good & Ew' & Hl & _ & Er & Hg & Hn).
  rewrite Ew in Ew'. injection Ew' as <-.
  exists (Ipv4Header.read_header h (fresh_header at_) c good). split_and!.
  - unfold RemoveIpv4Header. rewrite Ed, Er. simpl. unfold RemoveAtStart. rewrite Ed.
    by rewrite drop_app_length' by done.
  - done.
  - done.
  - destruct Hv. by constructor.
  - unfold fresh_header. simpl. by destruct checksum.
  - simpl. unfold fresh_header in *. destruct checksum; [by apply Hg|by apply Hn].
Qed.

(** Sending on with another TTL. *)
Lemma write_frame h d t q :
  Ipv4Header.valid h -> Ipv4Header.m_calcChecksum h = checksum ->
  Ipv4Header.GetPayloadSize h = Z.of_nat (length d) -> octet t -> p_data q = d ->
  exists x, AddIpv4Header (Ipv4Header.SetTtl t h) q = Ok x /\ on_wire checksum (Ipv4Header.SetTtl t h) d x.
Proof.
  intros Hv Hc Hs Ht Hq.
  assert (u8 t = t) as Hu by (by apply wrap_small).
  assert (Ipv4Header.valid (Ipv4Header.SetTtl t h)) as Hv'.
  { destruct Hv. constructor; try done. simpl. by rewrite Hu. }
  destruct (Ipv4Header.header_roundtrip (Ipv4Header.SetTtl t h) h [] Hv') as (w & c & good & Ew & Hl & _).
  unfold AddIpv4Header. rewrite Ew. simpl. eexists. split; [done|]. split; [done|done|done|].
  exists w. split; [done|]. simpl. destruct Hv. rewrite v_size, Hl. rewrite drop_app_length' by done. by rewrite Hq.
Qed.
End wire.

(** What the stack handed to its interfaces. *)
Definition outputs (l : list l3_event) : list (list if_call) :=
  omap (fun e => match e with ToInterface _ _ calls => Some calls | _ => None end) l.

(** What the transport protocols were given. *)
Definition delivered (l : list l3_event) : list (Z * Ipv4Header * Packet) :=
  omap (fun e => match e with ToProtocol proto h p _ => Some (proto, h, p) | _ => None end) l.

Section router.
Context {RP P : Type} `{RoutingProtocol RP} `{NetDevices} `{IpL4Protocol P}.
Context (at_ : attributes) (Hash32 : bytes -> Z) (now : Z).
Notation checksum := (ChecksumEnabled at_).
Implicit Types s : l3 RP P.

(** Interface [k] belongs to the device and is up. *)
Record up_interface (i : Ipv4) (dev k : Z) (ifc : Ipv4Interface) : Prop := {
  up_index : GetInterfaceForDevice (Some dev) i = k;
  up_nonneg : 0 <= k;
  up_get : Ipv4Ifaces.GetInterface k i = Some ifc;
  up_up : if_IsUp ifc = true;
  up_dev : GetDevice ifc = Some dev }.

(** A point-to-point interface that takes packets of [size] octets for [target]. *)
Record sends_to (i : Ipv4) (dev size target : Z) : Prop := {
  st_up : exists k ifc, up_interface i dev k ifc /\ m_tc ifc = true /\
            existsb (fun a => target =? m_local a) (m_ifaddrs ifc) = false;
  st_loopback : dev_IsLoopback dev = false;
  st_arp : dev_NeedsArp dev = false;
  st_mtu : size + 20 <= u16 (dev_GetMtu dev) }.

(** The stack routes what comes from [din] for [dst] out of [dout]. *)
Record router (dst size din dout : Z) (s : l3 RP P) : Prop := {
  ro_in : exists k ifc, up_interface (l3_ipv4 s) din k ifc;
  ro_route : exists rp rt, m_routingProtocol s = Some rp /\ rt_dev rt = Some dout /\
    (forall q h, Ipv4Header.GetDestination h = dst -> exists rp',
       rp_RouteInput (l3_ipv4 s) q h (Some din) true rp = Ok (true, [CallForward rt q h], q, rp')) /\
    sends_to (l3_ipv4 s) dout size (if Ipv4Address.IsAny (rt_gateway rt) then dst else rt_gateway rt) }.

Lemma raw_sockets_run h q l : forall s,
  each (fun k => log (ToRawSocket k h q)) l s = Ok (tt, add_logs ((fun k => ToRawSocket k h q) <$> l) s).
Proof.
  induction l as [|k l IH]; intros s; simpl; [by rewrite add_logs_nil|].
  unfold log. rewrite run_update. fold (@log RP P). rewrite IH. by rewrite add_log_logs, add_logs_app.
Qed.

(** Events before the packet is routed. *)
Definition quiet (e : l3_event) : Prop :=
  match e with RxTrace _ _ | ArpSeen _ _ _ | ToRawSocket _ _ _ => True | _ => False end.

Lemma quiet_outputs l : Forall quiet l -> outputs l = [].
Proof. induction 1 as [|e l He _ IH]; [done|]. by destruct e. Qed.
Lemma quiet_delivered l : Forall quiet l -> delivered l = [].
Proof. induction 1 as [|e l He _ IH]; [done|]. by destruct e. Qed.
Lemma quiet_raw h q (l : list Z) : Forall quiet ((fun k => ToRawSocket k h q) <$> l).
Proof. induction l; by constructor. Qed.

Lemma outputs_app l1 l2 : outputs (l1 ++ l2) = outputs l1 ++ outputs l2.
Proof. apply omap_app. Qed.

(** Sending over a point-to-point interface. *)
Lemma SendRealOut_run s dev rt h d (p : tagged) x :
  rt_dev rt = Some dev -> Z.of_nat (length d) < 2 ^ 16 ->
  sends_to (l3_ipv4 s) dev (Z.of_nat (length d)) (if Ipv4Address.IsAny (rt_gateway rt) then Ipv4Header.GetDestination h else rt_gateway rt) ->
  Ipv4Header.GetSerializedSize h = 20 -> p_data (t_packet p) = d -> AddIpv4Header h (t_packet p) = Ok x ->
  exists l, SendRealOut at_ (Some rt) p h s = Ok (tt, add_logs l s) /\
    outputs l = [[OutTcSend dev (t_packet p) h (dev_GetBroadcast dev)]].
Proof.
  intros Hdev Hd [(k & ifc & [Hk H0k Hget Hup Hd2] & Htc & Hlocal) Hlo Harp Hmtu] Hsize Hp Hx.
  unfold SendRealOut, ipv4. rewrite run_gets, Hdev. cbv zeta. rewrite Hk.
  destruct (Z.leb_spec 0 k) as [_|]; [|lia]. simpl ns_assert. rewrite run_lifted, Hget. simpl deref. rewrite run_lifted.
  rewrite Hup, Hd2. simpl deref. rewrite run_lifted. unfold fragments_for. rewrite Hsize.
  assert (GetSize (t_packet p) = Z.of_nat (length d)) as -> by (rewrite <- Hp; apply wrap_small; unfold in_range; rewrite Hp; lia).
  rewrite (wrap_small 32) by (unfold in_range; lia).
  destruct (Z.ltb_spec (u16 (dev_GetMtu dev)) (Z.of_nat (length d) + 20)); [lia|]. change (mret ?y : res _) with (Ok y).
  rewrite run_lifted. simpl. unfold send_one, CallTxTrace. simpl. rewrite Hx.
  unfold mbind, st_bind. simpl. unfold if_Send. unfold GetDevice in Hd2.
  rewrite Hup, Hd2. simpl. rewrite Hlo, Htc. simpl. rewrite Hlocal, Harp. simpl.
  eexists. split; [by rewrite !add_log_logs, add_logs_app|]. done.
Qed.

(** A forwarded packet. *)
Lemma IpForward_run s dev rt h d (p : tagged) x :
  let h' := Ipv4Header.SetTtl (Ipv4Header.GetTtl h - 1) h in
  2 <= Ipv4Header.GetTtl h < 256 -> rt_dev rt = Some dev -> Z.of_nat (length d) < 2 ^ 16 ->
  sends_to (l3_ipv4 s) dev (Z.of_nat (length d)) (if Ipv4Address.IsAny (rt_gateway rt) then Ipv4Header.GetDestination h else rt_gateway rt) ->
  Ipv4Header.GetSerializedSize h = 20 -> p_data (t_packet p) = d -> AddIpv4Header h' (t_packet p) = Ok x ->
  exists l, IpForward at_ rt p h s = Ok (tt, add_logs l s) /\
    outputs l = [[OutTcSend dev (t_packet p) h' (dev_GetBroadcast dev)]].
Proof.
  intros h' Ht Hdev Hd Hs Hsize Hp Hx. unfold IpForward, ipv4. rewrite run_gets. cbv zeta. fold h'.
  assert (Ipv4Header.GetTtl h' = Ipv4Header.GetTtl h - 1) as -> by (apply wrap_small; unfold in_range; lia).
  destruct (Z.eqb_spec (Ipv4Header.GetTtl h - 1) 0); [lia|]. rewrite run_log.
  set (s1 := add_logs _ s). destruct (SendRealOut_run s1 dev rt h' d p x) as (l & E & Hl); try done.
  exists (UnicastForward h' (t_packet p) (GetInterfaceForDevice (rt_dev rt) (l3_ipv4 s))
    (if IpTos2Priority (Ipv4Header.GetTos h') =? 0 then None else Some (IpTos2Priority (Ipv4Header.GetTos h'))) :: l).
  split; [|exact Hl]. rewrite E. unfold s1. by rewrite add_logs_app.
Qed.

(** Reception of a good frame: what is left is to route the packet. *)
Lemma Receive_accepts dev k ifc s h d p from :
  up_interface (l3_ipv4 s) dev k ifc -> on_wire checksum h d (t_packet p) ->
  Ipv4Address.IsMulticast (Ipv4Header.GetDestination h) = false ->
  exists hr l, Receive at_ Hash32 now dev p from s =
      route_input at_ now dev k (mkTagged (with_data (t_packet p) d) (t_tag p)) hr (add_logs l s) /\
    Forall quiet l /\ fixed_fields hr = fixed_fields h /\ Ipv4Header.GetTtl hr = Ipv4Header.GetTtl h /\
    Ipv4Header.valid hr /\ Ipv4Header.m_calcChecksum hr = checksum.
Proof.
  intros [Hk H0k Hget Hup Hdev] Hw Hm.
  destruct (read_frame at_ h d (t_packet p) Hw) as (hr & Er & Hfix & Ht & Hv & Hc & Hok).
  assert (Ipv4Header.GetDestination hr = Ipv4Header.GetDestination h) as Hd by (by apply fixed_destination).
  assert (trim hr (with_data (t_packet p) d) = with_data (t_packet p) d) as Htrim.
  { unfold trim. destruct Hw as [_ _ Hsz _]. assert (Ipv4Header.GetPayloadSize hr = Z.of_nat (length d)) as -> by
      (rewrite <- Hsz; by apply fixed_size). unfold GetSize. simpl. destruct (Z.ltb_spec (Z.of_nat (length d)) (u32 (Z.of_nat (length d)))); [|done].
    pose proof (Z.mod_le (Z.of_nat (length d)) (2 ^ 32)). unfold wrap in *. lia. }
  exists hr, (RxTrace (t_packet p) k ::
    match GetArpCache ifc with Some c => [ArpSeen c (Ipv4Header.GetSource hr) from] | None => [] end ++
    ((fun n => ToRawSocket n hr (with_data (t_packet p) d)) <$> m_sockets s)).
  split; [|split_and!; try done].
  - unfold Receive, ipv4. rewrite run_gets. cbv zeta. rewrite Hk. destruct (Z.eqb_spec k (-1)); [lia|].
    simpl ns_assert. rewrite run_lifted, Hget. simpl deref. rewrite run_lifted, Hup. cbn [negb].
    rewrite run_log. fold (fresh_header at_). rewrite Er, run_lifted, Htrim, Hok. cbn [negb].
    destruct (GetArpCache ifc); [rewrite run_log|rewrite run_mret]; rewrite run_gets;
      rewrite (run_bind _ _ _ _ _ (raw_sockets_run _ _ _ _)), Hd, Hm, andb_false_r, run_mret, !add_logs_app; done.
  - constructor; [done|]. apply Forall_app. split; [|apply quiet_raw]. destruct (GetArpCache ifc); by repeat constructor.
Qed.

(** One hop. *)
Lemma Receive_forwards dst din dout s h d p from :
  router dst (Z.of_nat (length d)) din dout s -> on_wire checksum h d (t_packet p) ->
  Ipv4Header.GetDestination h = dst -> Ipv4Address.IsMulticast dst = false -> 2 <= Ipv4Header.GetTtl h ->
  exists l s' h' x, Receive at_ Hash32 now din p from s = Ok (tt, s') /\ l3_log s' = l3_log s ++ l /\
    outputs l = [[OutTcSend dout (with_data (t_packet p) d) h' (dev_GetBroadcast dout)]] /\
    AddIpv4Header h' (with_data (t_packet p) d) = Ok x /\ on_wire checksum h' d x /\
    fixed_fields h' = fixed_fields h /\ Ipv4Header.GetTtl h' = Ipv4Header.GetTtl h - 1.
Proof.
  intros [(k & ifc & Hin) (rp & rt & Hrp & Hout & Hroute & Hsend)] Hw Hdst Hm Httl.
  destruct (Receive_accepts din k ifc s h d p from Hin Hw) as (hr & la & -> & Hla%quiet_outputs & Hfix & Ht & Hv & Hc); [by rewrite Hdst|].
  destruct Hw as [Hvh _ Hsz _]. pose proof (Ipv4Header.v_ttl h Hvh) as Hot. unfold octet, Ipv4Header.GetTtl in *.
  pose proof (Ipv4Header.v_pay h Hvh) as Hpay. unfold Ipv4Header.GetPayloadSize in Hsz.
  assert (Ipv4Header.GetDestination hr = dst) as Hdr by (by rewrite <- Hdst; apply fixed_destination).
  set (q := mkTagged (with_data (t_packet p) d) (t_tag p)). destruct (Hroute q hr Hdr) as [rp' Erp].
  destruct (write_frame at_ hr d (Ipv4Header.m_ttl h - 1) (t_packet q) Hv Hc) as (x & Ex & Hx);
    [rewrite <- Hsz; by apply fixed_size|unfold octet; lia|done|].
  unfold route_input, ipv4. rewrite run_gets. simpl m_routingProtocol. rewrite Hrp. cbv iota.
  rewrite run_lifted, run_gets. simpl l3_ipv4. rewrite Erp, run_lifted, run_update.
  destruct (IpForward_run (set_routing (Some rp') (add_logs la s)) dout rt hr d q x) as (lo & Ef & Hlo); try done.
  { unfold Ipv4Header.GetTtl. lia. }
  { lia. }
  { by rewrite Hdr. }
  { by destruct Hv. }
  { unfold Ipv4Header.GetTtl. by rewrite Ht. }
  simpl each. rewrite (run_bind (_ ← IpForward _ _ _ _; mret tt) _ _ tt _ (run_bind _ _ _ _ _ Ef)).
  exists (la ++ lo). eexists. exists (Ipv4Header.SetTtl (Ipv4Header.m_ttl h - 1) hr), x.
  split; [reflexivity|]. split; [simpl; by rewrite <- app_assoc|]. rewrite outputs_app, Hla, Hlo. simpl.
  unfold Ipv4Header.GetTtl. rewrite Ht. split; [done|]. split; [done|]. split; [done|].
  split; [done|]. apply wrap_small. unfold in_range. lia.
Qed.

(** ** The source *)

(** The attributes of a datagram that fit an IPv4 header. *)
Record sendable_as (o : outgoing) (d : bytes) (src dst proto : Z) (s : l3 RP P) : Prop := {
  sa_data : p_data (t_packet (og_packet o)) = d;
  sa_size : Z.of_nat (length d) < 65536 - 20;
  sa_addresses : in_range 32 src /\ in_range 32 dst /\ octet proto;
  sa_ttl : octet (default (m_defaultTtl s) (og_ttl o));
  sa_tos : octet (default 0 (og_tos o));
  sa_ids : ids_ok s }.

Lemma build_run o d src dst proto s : sendable_as o d src dst proto s ->
  exists h, build at_ o src dst proto s =
      Ok (h, set_identification (<[identification_key src dst proto :=
               u16 (identification (identification_key src dst proto) s + 1)]> (m_identification s)) s) /\
    Ipv4Header.valid h /\ Ipv4Header.m_calcChecksum h = checksum /\
    Ipv4Header.GetPayloadSize h = Z.of_nat (length d) /\ Ipv4Header.GetSource h = src /\
    Ipv4Header.GetDestination h = dst /\ Ipv4Header.GetProtocol h = proto /\
    Ipv4Header.GetTtl h = default (m_defaultTtl s) (og_ttl o) /\ is_fragment h = false.
Proof.
  intros [Hd Hsize (Hsrc & Hdst & Hproto) Httl Htos Hids].
  assert (u16 (GetSize (t_packet (og_packet o))) = Z.of_nat (length d)) as Hsz.
  { unfold GetSize. rewrite Hd. rewrite (wrap_small 32), wrap_small by (unfold in_range; lia). done. }
  pose proof (identification_range (identification_key src dst proto) s Hids) as Hid.
  unfold octet in *. assert (forall x, 0 <= x < 256 -> u8 x = x) as H8 by (intros; by apply wrap_small).
  unfold build, BuildHeader. rewrite !run_gets, Hsz, run_update.
  destruct checksum; (eexists; split; [reflexivity|]); split_and!; try done;
    unfold Ipv4Header.GetPayloadSize, Ipv4Header.GetTtl, Ipv4Header.GetProtocol; simpl;
    try (rewrite ?H8, ?(wrap_small 16) by (done || (unfold in_range; lia)); done);
    constructor; simpl; rewrite ?H8, ?(wrap_small 16) by (done || (unfold in_range; lia));
    unfold octet, in_range in *; try done; lia.
Qed.

Lemma v_ttl_same h : Ipv4Header.valid h -> Ipv4Header.SetTtl (Ipv4Header.m_ttl h) h = h.
Proof.
  intros [? ? ? Ht ? ? ? ? ? ?]. unfold Ipv4Header.SetTtl, Ipv4Header.set_fields.
  rewrite wrap_small by done. by destruct h.
Qed.

(** A datagram sent over a point-to-point interface. *)
Lemma send_on_route_run o d src dst proto rt dev s :
  sendable_as o d src dst proto s -> rt_dev rt = Some dev -> Ipv4Address.IsMulticast dst = false ->
  sends_to (l3_ipv4 s) dev (Z.of_nat (length d)) (if Ipv4Address.IsAny (rt_gateway rt) then dst else rt_gateway rt) ->
  exists h l s' x, send_on_route at_ Hash32 now o src dst proto (rt, true) s = Ok (tt, s') /\
    l3_log s' = l3_log s ++ l /\ l3_l4 s' = l3_l4 s /\
    outputs l = [[OutTcSend dev (t_packet (og_packet o)) h (dev_GetBroadcast dev)]] /\
    AddIpv4Header h (t_packet (og_packet o)) = Ok x /\ on_wire checksum h d x /\
    Ipv4Header.GetSource h = src /\ Ipv4Header.GetDestination h = dst /\ Ipv4Header.GetProtocol h = proto /\
    Ipv4Header.GetTtl h = default (m_defaultTtl s) (og_ttl o) /\ is_fragment h = false.
Proof.
  intros Hs Hdev Hm Hto. destruct (build_run o d src dst proto s Hs) as (h & Eb & Hv & Hc & Hp & Hsrc & Hdst & Hproto & Ht & Hf).
  pose proof (v_ttl_same h Hv) as Hsame. pose proof Hs as [Hd Hsize _ _ _ _].
  destruct (write_frame at_ h d (Ipv4Header.m_ttl h) (t_packet (og_packet o)) Hv Hc Hp) as (x & Ex & Hx);
    [apply Hv|done|]. rewrite Hsame in Ex, Hx.
  unfold send_on_route. rewrite (run_bind _ _ _ _ _ Eb). cbn [snd fst]. rewrite run_lifted. unfold ipv4.
  rewrite run_gets, run_log, Hdst, Hm, andb_false_r, run_mret.
  set (s1 := add_logs _ _). destruct (SendRealOut_run s1 dev rt h d (og_packet o) x) as (l & E & Hl); try done.
  { lia. }
  { by rewrite Hdst. }
  { apply Hv. }
  exists h, (SendOutgoing h (t_packet (og_packet o)) (GetInterfaceForDevice (rt_dev rt) (l3_ipv4 s)) :: l).
  eexists. exists x. split; [exact E|]. unfold s1. simpl. rewrite <- app_assoc. split; [done|]. split; [done|].
  split; [exact Hl|]. split_and!; done.
Qed.

(** ** The destination *)

(** The stack delivers the datagram [h] with the data [d], when it comes from [dev],
    to the protocol handle [proto], which finds an end point for it. *)
Record destination (h : Ipv4Header) (d : bytes) (dev proto : Z) (s : l3 RP P) : Prop := {
  de_in : exists k ifc, up_interface (l3_ipv4 s) dev k ifc /\ GetProtocol (Ipv4Header.GetProtocol h) k s = Some proto /\
    (exists rp, m_routingProtocol s = Some rp /\ forall q h',
      Ipv4Header.GetDestination h' = Ipv4Header.GetDestination h -> exists rp',
      rp_RouteInput (l3_ipv4 s) q h' (Some dev) true rp = Ok (true, [CallLocalDeliver q h' k], q, rp')) /\
    forall p' h', p_data p' = d -> fixed_fields h' = fixed_fields h ->
      exists status l4', l4_Receive proto p' h' (Some ifc) (l3_l4 s) = Ok (status, l4') /\ status <> RX_ENDPOINT_UNREACH }.

Lemma LocalDeliver_run proto k ifc s h (p : tagged) status l4' :
  is_fragment h = false -> GetProtocol (Ipv4Header.GetProtocol h) k s = Some proto ->
  Ipv4Ifaces.GetInterface k (l3_ipv4 s) = Some ifc ->
  l4_Receive proto (t_packet p) h (Some ifc) (l3_l4 s) = Ok (status, l4') -> status <> RX_ENDPOINT_UNREACH ->
  exists s', LocalDeliver at_ now p h k s = Ok (tt, s') /\ l3_l4 s' = l4' /\
    l3_log s' = l3_log s ++ [LocalDeliverTrace h (t_packet p) k; ToProtocol proto h (t_packet p) k].
Proof.
  intros Hf Hg Hi E Hacc. unfold LocalDeliver. fold (is_fragment h). rewrite Hf. unfold deliver_up.
  rewrite run_log, run_gets. change (GetProtocol _ _ (add_logs _ s)) with (GetProtocol (Ipv4Header.GetProtocol h) k s).
  rewrite Hg, run_log, run_gets, run_gets. simpl l3_l4. simpl l3_ipv4. rewrite Hi, E, run_lifted. cbv beta iota.
  rewrite run_update. rewrite bool_decide_eq_false_2 by done. eexists. split; [reflexivity|]. split; [done|].
  simpl. by rewrite <- app_assoc.
Qed.

Lemma Receive_delivers dst dev proto s h d p from :
  destination h d dev proto s -> on_wire checksum h d (t_packet p) ->
  Ipv4Header.GetDestination h = dst -> Ipv4Address.IsMulticast dst = false -> is_fragment h = false ->
  exists l s' h' ifc status, Receive at_ Hash32 now dev p from s = Ok (tt, s') /\ l3_log s' = l3_log s ++ l /\
    delivered l = [(proto, h', with_data (t_packet p) d)] /\ fixed_fields h' = fixed_fields h /\
    (exists k, up_interface (l3_ipv4 s) dev k ifc) /\
    l4_Receive proto (with_data (t_packet p) d) h' (Some ifc) (l3_l4 s) = Ok (status, l3_l4 s').
Proof.
  intros [(k & ifc & Hin & Hg & (rp & Hrp & Hroute) & Hacc)] Hw Hdst Hm Hf.
  destruct (Receive_accepts dev k ifc s h d p from Hin Hw) as (hr & la & -> & Hla%quiet_delivered & Hfix & _); [by rewrite Hdst|].
  set (q := mkTagged (with_data (t_packet p) d) (t_tag p)).
  destruct (Hroute q hr) as [rp' Erp]; [by apply fixed_destination|].
  destruct (Hacc (t_packet q) hr eq_refl Hfix) as (status & l4' & E4 & Hst).
  unfold route_input, ipv4. rewrite run_gets. simpl m_routingProtocol. rewrite Hrp. cbv iota.
  rewrite run_lifted, run_gets. simpl l3_ipv4. rewrite Erp, run_lifted, run_update.
  destruct (LocalDeliver_run proto k ifc (set_routing (Some rp') (add_logs la s)) hr q status l4')
    as (s' & E & El4 & Hlog); [|  |by destruct Hin|exact E4|done|].
  - unfold is_fragment, Ipv4Header.IsLastFragment in *. by injection Hfix as _ _ _ _ _ _ -> ->.
  - injection Hfix as _ _ -> _ _ _ _ _. exact Hg.
  - simpl each. rewrite (run_bind (_ ← LocalDeliver _ _ _ _ _; mret tt) _ _ tt _ (run_bind _ _ _ _ _ E)).
    eexists (la ++ _), s', hr, ifc, status. split; [reflexivity|]. simpl in Hlog. rewrite Hlog, <- app_assoc.
    split; [reflexivity|]. split; [unfold delivered in *; by rewrite omap_app, Hla|].
    split; [done|]. split; [by exists k|]. by rewrite El4.
Qed.

(** ** A path *)

(** A router with the device that frames arrive at and the one they leave by. *)
Record hop := mkHop { hop_stack : l3 RP P; hop_in : Z; hop_out : Z }.

(** Runs the routers one after the other; each frame is what the previous router
    sent, with its header in front. *)
Fixpoint cross (rs : list hop) (p : tagged) : res tagged :=
  match rs with
  | [] => mret p
  | r :: rs' =>
      '(_, s') ← Receive at_ Hash32 now (hop_in r) p 0 (hop_stack r);
      match outputs (drop (length (l3_log (hop_stack r))) (l3_log s')) with
      | [[OutTcSend dev q h _]] =>
          _ ← ns_assert (dev =? hop_out r);
          x ← AddIpv4Header h q;
          cross rs' (mkTagged x (t_tag p))
      | _ => Err UndefinedBehaviour
      end
  end.

Lemma cross_ok dst d rs : forall h p,
  Forall (fun r => router dst (Z.of_nat (length d)) (hop_in r) (hop_out r) (hop_stack r)) rs ->
  on_wire checksum h d (t_packet p) -> Ipv4Header.GetDestination h = dst -> Ipv4Address.IsMulticast dst = false ->
  Z.of_nat (length rs) < Ipv4Header.GetTtl h ->
  exists h' p', cross rs p = Ok p' /\ on_wire checksum h' d (t_packet p') /\ fixed_fields h' = fixed_fields h /\
    Ipv4Header.GetTtl h' = Ipv4Header.GetTtl h - Z.of_nat (length rs).
Proof.
  induction rs as [|r rs IH]; intros h p Hrs Hw Hdst Hm Ht; simpl.
  { exists h, p. split_and!; try done. lia. }
  apply Forall_cons in Hrs as [Hr Hrs]. simpl length in Ht.
  destruct (Receive_forwards dst (hop_in r) (hop_out r) (hop_stack r) h d p 0 Hr Hw Hdst Hm)
    as (l & s' & h1 & x & -> & El & Ho & Ex & Hx & Hf & Ht1); [lia|].
  simpl. rewrite El, drop_app_length, Ho. rewrite Z.eqb_refl. simpl. rewrite Ex. simpl.
  destruct (IH h1 (mkTagged x (t_tag p)) Hrs Hx) as (h' & p' & E & Hw' & Hf' & Ht'); [|done|lia|].
  { rewrite <- Hdst. by apply fixed_destination. }
  exists h', p'. split; [exact E|]. split; [exact Hw'|]. split; [congruence|lia].
Qed.

Lemma cross_delivers dst dev proto rs s h d p from :
  Forall (fun r => router dst (Z.of_nat (length d)) (hop_in r) (hop_out r) (hop_stack r)) rs ->
  destination h d dev proto s ->
  on_wire checksum h d (t_packet p) -> Ipv4Header.GetDestination h = dst ->
  Ipv4Address.IsMulticast dst = false -> is_fragment h = false -> Z.of_nat (length rs) < Ipv4Header.GetTtl h ->
  exists p' l s' h' ifc status, cross rs p = Ok p' /\
    Receive at_ Hash32 now dev p' from s = Ok (tt, s') /\ l3_log s' = l3_log s ++ l /\
    delivered l = [(proto, h', with_data (t_packet p') d)] /\ fixed_fields h' = fixed_fields h /\
    (exists k, up_interface (l3_ipv4 s) dev k ifc) /\
    l4_Receive proto (with_data (t_packet p') d) h' (Some ifc) (l3_l4 s) = Ok (status, l3_l4 s').
Proof.
  intros Hrs Hde Hw Hdst Hm Hf Ht.
  destruct (cross_ok dst d rs h p Hrs Hw Hdst Hm Ht) as (h1 & p' & Ec & Hw1 & Hfix & _).
  destruct (Receive_delivers dst dev proto s h1 d p' from) as (l & s' & h2 & ifc & status & E & El & Hd & Hf2 & Hin & E4).
  - destruct Hde as [(k & ifc & Hin & Hg & (rp & Hrp & Hro) & Hacc)]. constructor. exists k, ifc. split; [done|].
    injection Hfix as E1 E2 E3 E4 E5 E6 E7 E8.
    split; [by rewrite E3|]. split; [exists rp; split; [done|]; by rewrite E2|].
    intros p2 h2 Hp2 Hf2. apply Hacc; [done|]. rewrite Hf2. unfold fixed_fields. congruence.
  - done.
  - rewrite <- Hdst. by apply fixed_destination.
  - done.
  - unfold is_fragment, Ipv4Header.IsLastFragment in *. by injection Hfix as _ _ _ _ _ _ -> ->.
  - exists p', l, s', h2, ifc, status. split_and!; [done..|congruence|done|done].
Qed.
End router.

(** C24. Datagrams are delivered unchanged.  A datagram whose frame crosses any
    number of routers, fewer than its TTL, each with a route to the destination
    over a point-to-point interface whose MTU it fits, is handed by the
    destination's stack exactly once, to the transport protocol registered for
    it, with the same data and the same source, destination, protocol,
    identification, service class and length; no step fails. *)
Theorem datagram_delivered {RP P} `{RoutingProtocol RP} `{NetDevices} `{IpL4Protocol P} at_ Hash32 now
    dst dev proto rs (s : l3 RP P) h d p from :
  Forall (fun r => router dst (Z.of_nat (length d)) (hop_in r) (hop_out r) (hop_stack r)) rs ->
  destination h d dev proto s ->
  on_wire (ChecksumEnabled at_) h d (t_packet p) -> Ipv4Header.GetDestination h = dst ->
  Ipv4Address.IsMulticast dst = false -> is_fragment h = false -> Z.of_nat (length rs) < Ipv4Header.GetTtl h ->
  exists p' l s' h', cross at_ Hash32 now rs p = Ok p' /\
    Receive at_ Hash32 now dev p' from s = Ok (tt, s') /\ l3_log s' = l3_log s ++ l /\
    delivered l = [(proto, h', with_data (t_packet p') d)] /\ fixed_fields h' = fixed_fields h.
Proof.
  intros Hrs Hde Hw Hdst Hm Hf Ht.
  destruct (cross_delivers at_ Hash32 now dst dev proto rs s h d p from) as (p' & l & s' & h' & ifc & status & ? & ? & ? & ? & ? & _ & _);
    [done..|]. by exists p', l, s', h'.
Qed.

(** * Concrete stacks

    A router with two point-to-point interfaces and static routes, a host, and
    the instances of the theorems about the IPv4 stack on them. *)

#[local] Instance example_devices : NetDevices := {|
  dev_GetMtu _ := 1500; dev_NeedsArp _ := false; dev_IsLoopback d := d =? 100; dev_IsMulticast _ := true;
  dev_GetBroadcast _ := 0xffffffffffff; dev_GetMulticast _ _ := 0x01005e000000 |}.
#[local] Instance example_l4 : IpL4Protocol Z := {|
  l4_GetProtocolNumber x := x; l4_Receive _ _ _ _ n := Ok (RX_OK, n + 1) |}.
#[local] Existing Instance StaticRouting.static_protocol.
#[local] Existing Instance ListRouting.static_laws.
#[local] Existing Instance ListRouting.laws_unicast.
#[local] Existing Instance ListRouting.laws_unicast_only.
Notation stack := (l3 StaticRouting.Ipv4StaticRouting Z).

Definition example_attributes : attributes := mkAttributes true 30 false 5 20.
Definition no_hash (b : bytes) : Z := 0.

(** Routes 10.3.0.0/16 over the second interface. *)
Definition router_table : StaticRouting.Ipv4StaticRouting :=
  StaticRouting.AddNetworkRouteTo 0x0a030000 0xffff0000 0x0a0102fe 2 0 (StaticRouting.mkStatic [] [] true).
Definition example_router : stack :=
  set_protocols {[ (1, -1) := 1 ]} (set_routing (Some router_table) (set_ipv4 StaticRouting.example_ipv4 (initial_l3 0))).

Definition host_ipv4 : Ipv4 :=
  mkIpv4 [StaticRouting.if_with 100 0x7f000001; StaticRouting.if_with 201 0x0a030001]
    (<[100 := 0]> (<[201 := 1]> ∅)) true true.
Definition example_host : stack :=
  set_protocols {[ (17, -1) := 17 ]}
    (set_routing (Some (StaticRouting.mkStatic [] [] true)) (set_ipv4 host_ipv4 (initial_l3 0))).

(** A UDP datagram from 10.1.1.2 to 10.3.0.1. *)
Definition udp_header : Ipv4Header :=
  Ipv4Header.EnableChecksum (Ipv4Header.SetPayloadSize 5 (Ipv4Header.SetProtocol 17 (Ipv4Header.SetTtl 64
    (Ipv4Header.SetDestination 0x0a030001 (Ipv4Header.SetSource 0x0a010102 Ipv4Header.new_Ipv4Header))))).
Definition udp_data : bytes := [10; 20; 30; 40; 50].
Definition udp_frame : tagged :=
  mkTagged (match AddIpv4Header udp_header (mkPacket 7 udp_data) with Ok x => x | Err _ => mkPacket 7 [] end) None.

Lemma udp_on_wire : on_wire (ChecksumEnabled example_attributes) udp_header udp_data (t_packet udp_frame).
Proof.
  split.
  - constructor; unfold in_range, octet; simpl; try lia; done.
  - done.
  - done.
  - eexists. split; vm_compute; reflexivity.
Qed.

Lemma router_routes : router 0x0a030001 5 101 102 example_router.
Proof.
  split.
  - exists 1, (StaticRouting.if_with 101 0x0a010101). by split.
  - exists router_table, (mkRoute 0x0a030000 0x0a010201 0x0a0102fe (Some 102)).
    split; [done|]. split; [done|]. split.
    + intros q h Hd. exists router_table. simpl. unfold StaticRouting.RouteInput. rewrite Hd. reflexivity.
    + split; [|done..|done]. exists 2, (StaticRouting.if_with 102 0x0a010201). split; [by split|done].
Qed.

Lemma host_receives : destination udp_header udp_data 201 17 example_host.
Proof.
  split. exists 1, (StaticRouting.if_with 201 0x0a030001). split; [by split|]. split; [done|]. split.
  - eexists. split; [done|]. intros q h Hd. eexists. simpl. unfold StaticRouting.RouteInput. rewrite Hd. reflexivity.
  - intros p' h' _ _. by do 2 eexists.
Qed.

Definition two_routers : list (hop (RP := StaticRouting.Ipv4StaticRouting) (P := Z)) :=
  [mkHop example_router 101 102; mkHop example_router 101 102].

Lemma datagram_delivered_witness :
  exists p' l s' h', cross example_attributes no_hash 0 two_routers udp_frame = Ok p' /\
    Receive example_attributes no_hash 0 201 p' 0 example_host = Ok (tt, s') /\
    l3_log s' = l3_log example_host ++ l /\
    delivered l = [(17, h', with_data (t_packet p') udp_data)] /\ fixed_fields h' = fixed_fields udp_header.
Proof.
  apply (datagram_delivered example_attributes no_hash 0 0x0a030001); try done.
  - constructor; [apply router_routes|constructor; [apply router_routes|constructor]].
  - apply host_receives.
  - apply udp_on_wire.
Defined.

(** ** One fate *)

Definition after_receive : stack :=
  match Receive example_attributes no_hash 0 101 udp_frame 0 example_router with Ok (_, s) => s | Err _ => example_router end.

Lemma Receive_disposes_once_witness :
  exists l, Receive example_attributes no_hash 0 101 udp_frame 0 example_router = Ok (tt, after_receive) /\
    l3_log after_receive = l3_log example_router ++ l /\ disposals l = 1%nat.
Proof.
  destruct (read_frame example_attributes udp_header udp_data (t_packet udp_frame) udp_on_wire) as (hr & Er & Hf & _).
  assert (Receive example_attributes no_hash 0 101 udp_frame 0 example_router = Ok (tt, after_receive)) as E
    by (vm_compute; reflexivity).
  assert (Ipv4Address.IsMulticast (Ipv4Header.GetDestination hr) = false) as Hm
    by (unfold fixed_fields in Hf; injection Hf as _ -> _ _ _ _ _ _; reflexivity).
  pose proof (Receive_disposes_once example_attributes no_hash 0 101 udp_frame 0 example_router hr
    (with_data (t_packet udp_frame) udp_data) Er Hm) as H.
  rewrite E in H. destruct H as (l & El & _ & Hl). exists l. split; [done|]. split; [exact El|].
  destruct Hl as [Hl|[_ Hl]].
  - intros b calls r rp' (rp & _ & Ea). by destruct (ListRouting.law_unicast _ _ _ _ _ _ _ _ _ _ Hm Ea) as [_ ?].
  - exact Hl.
  - exfalso. unfold is_fragment, Ipv4Header.IsLastFragment in Hl. injection Hf as _ _ _ _ _ _ Ho Hfl.
    unfold Ipv4Header.GetFragmentOffset in *. rewrite Ho, Hfl in Hl. discriminate.
Defined.

(** ** The hop limit *)

Definition example_route : Ipv4Route := mkRoute 0x0a030000 0x0a010201 0x0a0102fe (Some 102).
Definition after_forward (h : Ipv4Header) : stack :=
  match IpForward example_attributes example_route (mkTagged (mkPacket 7 udp_data) None) h example_router with
  | Ok (_, s) => s
  | Err _ => example_router
  end.

Lemma hop_limit_witness :
  hops (RP := StaticRouting.Ipv4StaticRouting) (P := Z) (Ipv4Header.SetTtl 2 udp_header) 1 (Ipv4Header.SetTtl 1 udp_header) /\
  Z.of_nat 1 < Ipv4Header.GetTtl (Ipv4Header.SetTtl 2 udp_header).
Proof.
  assert (hops (RP := StaticRouting.Ipv4StaticRouting) (P := Z) (Ipv4Header.SetTtl 2 udp_header) 1
            (Ipv4Header.SetTtl 1 udp_header)) as Hh.
  { eapply hops_S; [apply hops_0|].
    apply (relay (RP := StaticRouting.Ipv4StaticRouting) (P := Z) _ _ example_attributes example_route
      (mkTagged (mkPacket 7 udp_data) None) example_router tt (after_forward (Ipv4Header.SetTtl 2 udp_header))
      (l3_log (after_forward (Ipv4Header.SetTtl 2 udp_header))) 2 None
      [OutTcSend 102 (mkPacket 7 udp_data) (Ipv4Header.SetTtl 1 udp_header) 0xffffffffffff]
      (OutTcSend 102 (mkPacket 7 udp_data) (Ipv4Header.SetTtl 1 udp_header) 0xffffffffffff)).
    - vm_compute. reflexivity.
    - reflexivity.
    - assert (l3_log (after_forward (Ipv4Header.SetTtl 2 udp_header)) !! 2%nat = Some (ToInterface 2 None
        [OutTcSend 102 (mkPacket 7 udp_data) (Ipv4Header.SetTtl 1 udp_header) 0xffffffffffff])) as E by
        (vm_compute; reflexivity).
      by eapply list_elem_of_lookup_2.
    - by left.
    - reflexivity. }
  split; [exact Hh|].
  destruct (hop_limit (RP := StaticRouting.Ipv4StaticRouting) (P := Z) (Ipv4Header.SetTtl 2 udp_header) 1
    (Ipv4Header.SetTtl 1 udp_header)) as [Hlt _]; [vm_compute; split; [discriminate|reflexivity]|exact Hh|exact Hlt].
Defined.

Lemma IpForward_wraps_zero_witness :
  exists i prio l, l3_log (after_forward (Ipv4Header.SetTtl 0 udp_header)) =
      l3_log example_router ++
        UnicastForward (Ipv4Header.SetTtl 255 (Ipv4Header.SetTtl 0 udp_header)) (mkPacket 7 udp_data) i prio :: l /\
    existsb disposal l = false.
Proof.
  apply (IpForward_wraps_zero example_attributes example_route (mkTagged (mkPacket 7 udp_data) None)).
  - reflexivity.
  - vm_compute. reflexivity.
Defined.

(** ** Identification *)

Definition to_host : send_call := mkSend (mkOutgoing (mkTagged (mkPacket 7 udp_data) None) None None) 0x0a010102 0x0a030001 17 None.
Definition send_again (s : stack) : stack :=
  match Send example_attributes no_hash 0 (sc_packet to_host) (sc_src to_host) (sc_dst to_host) (sc_proto to_host) None s with
  | Ok (_, s') => s'
  | Err _ => s
  end.
Definition sent_header (id : Z) : Ipv4Header := Ipv4Header.SetIdentification id udp_header.

Lemma Send_identification_witness :
  Ipv4Header.GetIdentification (sent_header 0) <> Ipv4Header.GetIdentification (sent_header 1).
Proof.
  set (s1 := send_again example_router). set (s2 := send_again s1).
  apply (Send_identification example_attributes no_hash 0 example_router s2 to_host (l3_log s1) []
    to_host (drop (length (l3_log s1)) (l3_log s2)) (sent_header 0) (sent_header 1)
    (mkPacket 7 udp_data) (mkPacket 7 udp_data) 2 2).
  - intros k v. unfold example_router. simpl. by rewrite lookup_empty.
  - eapply (sends_cons _ _ _ _ _ _ tt s1); [vm_compute; reflexivity|reflexivity|].
    eapply (sends_cons _ _ _ _ _ _ tt s2); [vm_compute; reflexivity|vm_compute; reflexivity|constructor].
  - reflexivity.
  - simpl. lia.
  - assert (l3_log s1 !! 0%nat = Some (SendOutgoing (sent_header 0) (mkPacket 7 udp_data) 2)) as E by (vm_compute; reflexivity).
    by eapply list_elem_of_lookup_2.
  - assert (drop (length (l3_log s1)) (l3_log s2) !! 0%nat =
      Some (SendOutgoing (sent_header 1) (mkPacket 7 udp_data) 2)) as E by (vm_compute; reflexivity).
    by eapply list_elem_of_lookup_2.
Defined.
