(* ===== verification/AddressGenerator.v ===== *)
(** * The address generator ([src/internet/model/ipv4-address-generator.cc])

    [Ipv4AddressGeneratorImpl] keeps, for every mask length, the network number
    and the host number to hand out next, and the list of the ranges of
    addresses handed out so far.  A [uint32_t] is its value; the 32 entries of
    [m_netTable] are a list. *)

From S2P Require Import Prelude Bytes Ipv4Address.

Definition N_BITS : Z := 32.
Definition MOST_SIGNIFICANT_BIT : Z := 0x80000000.

Record NetworkState := mkNet { n_mask : Z; n_shift : Z; n_network : Z; n_addr : Z; n_addrMax : Z }.

(** An [Entry] is the pair of its [addrLow] and [addrHigh]. *)
Record Generator := mkGen { m_netTable : list NetworkState; m_entries : list (Z * Z); m_test : bool }.

Definition set_entries (l : list (Z * Z)) (g : Generator) : Generator := mkGen (m_netTable g) l (m_test g).

(** The loop of [Reset] from the index [i]. *)
Fixpoint reset_loop (n : nat) (i mask : Z) : list NetworkState :=
  match n with
  | O => []
  | S n =>
      mkNet mask (N_BITS - i) 1 1 (u32 (Z.lnot mask)) ::
      reset_loop n (i + 1) (Z.lor (Z.shiftr mask 1) MOST_SIGNIFICANT_BIT)
  end.
Definition Reset : Generator := mkGen (reset_loop 32 0 0) [] false.

Fixpoint mask_loop (n : nat) (i maskBits : Z) : res Z :=
  match n with
  | O => Err AssertFailed
  | S n =>
      if Z.odd maskBits then
        let index := N_BITS - i in
        _ ← ns_require ((0 <? index) && (index <? N_BITS));
        mret index
      else mask_loop n (i + 1) (Z.shiftr maskBits 1)
  end.
Definition MaskToIndex (mask : Z) : res Z := mask_loop 32 0 mask.

(** The entry of the table for [mask]. *)
Definition net_state (mask : Z) (g : Generator) : res (Z * NetworkState) :=
  index ← MaskToIndex mask;
  n ← deref (m_netTable g !! Z.to_nat index);
  mret (index, n).
Definition set_net (index : Z) (n : NetworkState) (g : Generator) : Generator :=
  mkGen (<[Z.to_nat index := n]> (m_netTable g)) (m_entries g) (m_test g).
Definition set_addr (a : Z) (n : NetworkState) : NetworkState :=
  mkNet (n_mask n) (n_shift n) (n_network n) a (n_addrMax n).
Definition set_network (k : Z) (n : NetworkState) : NetworkState :=
  mkNet (n_mask n) (n_shift n) k (n_addr n) (n_addrMax n).
(** [network << shift] *)
Definition network_of (n : NetworkState) : Z := u32 (Z.shiftl (n_network n) (n_shift n)).

Definition Init (net mask addr : Z) (g : Generator) : res Generator :=
  _ ← ns_require (Z.land net (u32 (Z.lnot mask)) =? 0);
  _ ← ns_require (Z.land addr mask =? 0);
  '(index, n) ← net_state mask g;
  let n := set_network (Z.shiftr net (n_shift n)) n in
  _ ← ns_require (addr <=? n_addrMax n);
  mret (set_net index (set_addr addr n) g).

Definition GetNetwork (mask : Z) (g : Generator) : res Z :=
  '(_, n) ← net_state mask g; mret (network_of n).

Definition NextNetwork (mask : Z) (g : Generator) : res (Z * Generator) :=
  '(index, n) ← net_state mask g;
  let n := set_network (u32 (n_network n + 1)) n in
  mret (network_of n, set_net index n g).

Definition InitAddress (addr mask : Z) (g : Generator) : res Generator :=
  '(index, n) ← net_state mask g;
  _ ← ns_require (addr <=? n_addrMax n);
  mret (set_net index (set_addr addr n) g).

Definition GetAddress (mask : Z) (g : Generator) : res Z :=
  '(_, n) ← net_state mask g; mret (Z.lor (network_of n) (n_addr n)).

(** The loop of [AddAllocated]: [None] when the address is in a range. *)
Fixpoint add_entry (addr : Z) (l : list (Z * Z)) : option (list (Z * Z)) :=
  match l with
  | [] => Some [(addr, addr)]
  | (low, high) :: r =>
      if (low <=? addr) && (addr <=? high) then None
      else if addr <? u32 (low - 1) then Some ((addr, addr) :: l)
      else if addr =? u32 (high + 1) then
        if match r with (low', _) :: _ => addr =? low' | [] => false end then None
        else Some ((low, addr) :: r)
      else if addr =? u32 (low - 1) then Some ((addr, high) :: r)
      else r' ← add_entry addr r; Some ((low, high) :: r')
  end.

(** A collision is fatal, unless [TestMode] was called. *)
Definition AddAllocated (addr : Z) (g : Generator) : res (bool * Generator) :=
  _ ← ns_require (negb (addr =? 0));
  match add_entry addr (m_entries g) with
  | Some l => mret (true, set_entries l g)
  | None => if m_test g then mret (false, g) else Err FatalError
  end.

Definition NextAddress (mask : Z) (g : Generator) : res (Z * Generator) :=
  '(index, n) ← net_state mask g;
  _ ← ns_require (n_addr n <=? n_addrMax n);
  let addr := Z.lor (network_of n) (n_addr n) in
  '(_, g) ← AddAllocated addr (set_net index (set_addr (u32 (n_addr n + 1)) n) g);
  mret (addr, g).

Definition IsAddressAllocated (addr : Z) (g : Generator) : res bool :=
  _ ← ns_require (negb (addr =? 0));
  mret (negb (existsb (fun e => (e.1 <=? addr) && (addr <=? e.2)) (m_entries g))).

Definition IsNetworkAllocated (address mask : Z) (g : Generator) : res bool :=
  _ ← ns_require (address =? CombineMask address mask);
  mret (negb (existsb (fun e => (address =? CombineMask e.1 mask) || (address =? CombineMask e.2 mask))
          (m_entries g))).

Definition TestMode (g : Generator) : Generator := mkGen (m_netTable g) (m_entries g) true.

(** ** The abstract generator: a set of addresses *)

(** [x] is in one of the ranges. *)
Definition allocated (l : list (Z * Z)) (x : Z) : Prop := exists e, e ∈ l /\ e.1 <= x <= e.2.

(** The ranges are non-empty, disjoint, increasing and above [b]. *)
Fixpoint ranges_above (b : Z) (l : list (Z * Z)) : Prop :=
  match l with
  | [] => True
  | (low, high) :: r => b < low <= high /\ high < 2 ^ 32 /\ ranges_above high r
  end.

Lemma allocated_nil x : ~ allocated [] x.
Proof. intros (e & H & _). by apply elem_of_nil in H. Qed.

Lemma allocated_cons e l x : allocated (e :: l) x <-> e.1 <= x <= e.2 \/ allocated l x.
Proof.
  unfold allocated. split.
  - intros (e' & [->|H]%elem_of_cons & Hx); [by left|right; by exists e'].
  - intros [H|(e' & He & Hx)]; [exists e|exists e']; rewrite elem_of_cons; tauto.
Qed.

Lemma ranges_lower b l x : ranges_above b l -> allocated l x -> b < x < 2 ^ 32.
Proof.
  revert b. induction l as [|[low high] r IH]; intros b H Hx; [by apply allocated_nil in Hx|].
  destruct H as (? & ? & Hr). apply allocated_cons in Hx as [?|Hx]; [simpl in *; lia|].
  specialize (IH _ Hr Hx). lia.
Qed.

Lemma ranges_weaken b b' l : b' <= b -> ranges_above b l -> ranges_above b' l.
Proof. destruct l as [|[low high] r]; simpl; intuition lia. Qed.

(** One insertion: it is refused exactly for the addresses in a range, and
    otherwise adds the address and nothing else. *)
Lemma add_entry_spec l : forall b addr,
  0 <= b < addr -> addr < 2 ^ 32 -> ranges_above b l ->
  (allocated l addr -> add_entry addr l = None) /\
  (~ allocated l addr -> exists l', add_entry addr l = Some l' /\ ranges_above b l' /\
     forall x, allocated l' x <-> x = addr \/ allocated l x).
Proof.
  induction l as [|[low high] r IH]; intros b addr Hb Ha Hl.
  { split; [by intros ?%allocated_nil|]. intros _. eexists. split; [done|]. split; [simpl; lia|].
    intros x. rewrite allocated_cons. simpl. pose proof (allocated_nil x). intuition lia. }
  destruct Hl as (Hlow & Hhigh & Hr).
  assert (u32 (low - 1) = low - 1) as El by (apply wrap_small; unfold in_range; lia).
  assert (high + 1 = 2 ^ 32 \/ u32 (high + 1) = high + 1) as Eh.
  { destruct (decide (high + 1 = 2 ^ 32)); [by left|right]. apply wrap_small. unfold in_range. lia. }
  cbn [add_entry]. setoid_rewrite allocated_cons. cbn [fst snd]. rewrite El.
  destruct ((low <=? addr) && (addr <=? high)) eqn:E1; bool_to_Z.
  { split; [done|]. intros Hc. destruct Hc. left. lia. }
  apply andb_false_iff in E1. rewrite !Z.leb_gt in E1.
  destruct (addr <? low - 1) eqn:E2; bool_to_Z.
  { split.
    - intros [?|Hx]; [lia|]. pose proof (ranges_lower _ _ _ Hr Hx). lia.
    - intros _. eexists. split; [done|]. split; [simpl; intuition lia|]. intros x.
      rewrite !allocated_cons. simpl. intuition lia. }
  destruct (addr =? u32 (high + 1)) eqn:E3; bool_to_Z.
  { assert (addr = high + 1) as Eaddr.
    { destruct Eh as [E|E]; [|lia]. rewrite E in E3. vm_compute in E3. lia. }
    assert (allocated r addr <-> match r with (low', _) :: _ => addr =? low' | [] => false end = true) as Hr'.
    { destruct r as [|[low' high'] r']; [split; [by intros ?%allocated_nil|done]|].
      destruct Hr as (? & ? & ?). rewrite allocated_cons. simpl. rewrite Z.eqb_eq. split.
      - intros [?|Hx]; [lia|]. pose proof (ranges_lower high' r' addr ltac:(done) Hx). lia.
      - intros ->. left. lia. }
    destruct (match r with (low', _) :: _ => addr =? low' | [] => false end) eqn:E4.
    - split; [done|]. intros Hc. destruct Hc. right. by apply Hr'.
    - split; [intros [?|Hx%Hr']; [lia|done]|]. intros _. eexists. split; [done|]. split.
      + simpl. split; [lia|]. split; [lia|]. destruct r as [|[low' high'] r']; [done|].
        destruct Hr as (? & ? & ?). bool_to_Z. simpl. intuition lia.
      + intros x. rewrite !allocated_cons. simpl. intuition lia. }
  destruct (addr =? low - 1) eqn:E5; bool_to_Z.
  { split.
    - intros [?|Hx]; [lia|]. pose proof (ranges_lower _ _ _ Hr Hx). lia.
    - intros _. eexists. split; [done|]. split; [simpl; intuition lia|]. intros x.
      rewrite !allocated_cons. simpl. intuition lia. }
  destruct (IH high addr ltac:(lia) Ha Hr) as [IHn IHs]. split.
  - intros [?|Hx]; [lia|]. by rewrite IHn.
  - intros Hn. destruct IHs as (l' & -> & Hl' & Hx); [tauto|]. eexists. split; [done|].
    split; [simpl; intuition lia|]. intros x. rewrite !allocated_cons, Hx. simpl. tauto.
Qed.

(** The state of a generator whose ranges are in order. *)
Definition wf_gen (g : Generator) : Prop := ranges_above 0 (m_entries g).

Lemma Reset_wf : wf_gen Reset.
Proof. done. Qed.

Lemma AddAllocated_spec addr g :
  0 < addr < 2 ^ 32 -> wf_gen g ->
  (allocated (m_entries g) addr ->
     AddAllocated addr g = if m_test g then Ok (false, g) else Err FatalError) /\
  (~ allocated (m_entries g) addr -> exists g', AddAllocated addr g = Ok (true, g') /\ wf_gen g' /\
     m_netTable g' = m_netTable g /\ m_test g' = m_test g /\
     forall x, allocated (m_entries g') x <-> x = addr \/ allocated (m_entries g) x).
Proof.
  intros Ha Hg. destruct (add_entry_spec (m_entries g) 0 addr ltac:(lia) ltac:(lia) Hg) as [Hn Hs].
  unfold AddAllocated. replace (addr =? 0) with false by (symmetry; apply Z.eqb_neq; lia). cbn [negb].
  split; intros H.
  - by rewrite (Hn H).
  - destruct (Hs H) as (l' & E & Hl' & Hx). rewrite E. eexists. split; [done|]. split_and!; done.
Qed.

Lemma existsb_allocated addr g :
  existsb (fun e => (e.1 <=? addr) && (addr <=? e.2)) (m_entries g) = true <-> allocated (m_entries g) addr.
Proof.
  rewrite existsb_exists. unfold allocated. setoid_rewrite list_elem_of_In.
  setoid_rewrite andb_true_iff. setoid_rewrite Z.leb_le. done.
Qed.
