(* ===== verification/AddressHelper.v ===== *)
(** * The address helper ([src/internet/helper/ipv4-address-helper.cc])

    [Ipv4AddressHelper] hands out the addresses of one network after another
    and records each of them in the simulation's [Ipv4AddressGenerator]. *)

From S2P Require Import Prelude Bytes Ipv4Address AddressGenerator.



Record Ipv4AddressHelper := mkHelper {
  m_network : Z; m_mask : Z; m_address : Z; m_base : Z; m_shift : Z; m_max : Z }.

(** [Ipv4AddressHelper ()] *)
Definition new_helper : Ipv4AddressHelper :=
  mkHelper 0xffffffff 0 0xffffffff 0xffffffff 0xffffffff 0xffffffff.

Fixpoint num_bits_loop (n : nat) (i maskbits : Z) : res Z :=
  match n with
  | O => Err AssertFailed
  | S n => if Z.odd maskbits then mret i else num_bits_loop n (i + 1) (Z.shiftr maskbits 1)
  end.
Definition NumAddressBits (maskbits : Z) : res Z := num_bits_loop 32 0 maskbits.

(** [1 << shift] in [int], minus 2, converted to [uint32_t] *)
Definition max_address (shift : Z) : res Z :=
  if shift <? 31 then mret (u32 (2 ^ shift - 2)) else Err UndefinedBehaviour.

Definition SetBase (network mask address : Z) : res Ipv4AddressHelper :=
  _ ← ns_assert (Z.land network (u32 (Z.lnot mask)) =? 0);
  shift ← NumAddressBits mask;
  max ← max_address shift;
  _ ← ns_assert (shift <=? 32);
  mret (mkHelper (Z.shiftr network shift) mask address address shift max).

(** [x << m_shift]: undefined from 32 on *)
Definition shift_up (x shift : Z) : res Z :=
  if shift <? 32 then mret (u32 (Z.shiftl x shift)) else Err UndefinedBehaviour.

Definition NewAddress (h : Ipv4AddressHelper) (g : Generator) : res (Z * Ipv4AddressHelper * Generator) :=
  _ ← ns_assert (m_address h <=? m_max h);
  net ← shift_up (m_network h) (m_shift h);
  let addr := Z.lor net (m_address h) in
  let h := mkHelper (m_network h) (m_mask h) (u32 (m_address h + 1)) (m_base h) (m_shift h) (m_max h) in
  '(_, g) ← AddAllocated addr g;
  mret (addr, h, g).

Definition NewNetwork (h : Ipv4AddressHelper) : res (Z * Ipv4AddressHelper) :=
  let network := u32 (m_network h + 1) in
  net ← shift_up network (m_shift h);
  mret (net, mkHelper network (m_mask h) (m_base h) (m_base h) (m_shift h) (m_max h)).

(** The addresses [Assign] takes for a container of [k] devices. *)
Fixpoint new_addresses (k : nat) (h : Ipv4AddressHelper) (g : Generator) :
    res (list Z * Ipv4AddressHelper * Generator) :=
  match k with
  | O => mret ([], h, g)
  | S k =>
      '(a, h, g) ← NewAddress h g;
      '(l, h, g) ← new_addresses k h g;
      mret (a :: l, h, g)
  end.

(** A container after the other, each on a network of its own. *)
Fixpoint number_links (sizes : list nat) (h : Ipv4AddressHelper) (g : Generator) :
    res (list (list Z) * Ipv4AddressHelper * Generator) :=
  match sizes with
  | [] => mret ([], h, g)
  | k :: r =>
      '(l, h, g) ← new_addresses k h g;
      '(_, h) ← NewNetwork h;
      '(ls, h, g) ← number_links r h g;
      mret (l :: ls, h, g)
  end.

(** ** Masks and shifts *)

Lemma lor_shiftl a s b : 0 <= s -> 0 <= b < 2 ^ s -> Z.lor (Z.shiftl a s) b = a * 2 ^ s + b.
Proof.
  intros Hs Hb. rewrite <- Z.shiftl_mul_pow2 by done.
  assert (Z.land (Z.shiftl a s) b = 0) as H.
  { apply Z.bits_inj'. intros n Hn. rewrite Z.land_spec, Z.bits_0.
    destruct (decide (n < s)) as [Hlt|Hge]; [by rewrite Z.shiftl_spec_low|].
    rewrite <- (Z.mod_small b (2 ^ s)), Z.mod_pow2_bits_high by lia. apply andb_false_r. }
  by rewrite Z.add_nocarry_lxor, Z.lxor_lor.
Qed.

(** The mask of the networks of [2^s] addresses. *)
Definition mask_of (s : Z) : Z := 2 ^ 32 - 2 ^ s.

Lemma land_mask_of s a : 0 <= s <= 32 -> in_range 32 a -> Z.land a (mask_of s) = a / 2 ^ s * 2 ^ s.
Proof.
  intros Hs Ha. unfold in_range in Ha.
  assert (mask_of s = Z.shiftl (Z.ones (32 - s)) s) as ->.
  { unfold mask_of. rewrite Z.shiftl_mul_pow2, Z.ones_equiv by lia.
    assert (2 ^ 32 = 2 ^ (32 - s) * 2 ^ s) as -> by (rewrite <- Z.pow_add_r by lia; f_equal; lia). lia. }
  rewrite <- Z.shiftl_mul_pow2, <- Z.shiftr_div_pow2 by lia. apply Z.bits_inj'. intros n Hn.
  rewrite Z.land_spec. destruct (decide (n < s)) as [Hlt|Hge].
  { rewrite !Z.shiftl_spec_low by lia. apply andb_false_r. }
  rewrite !Z.shiftl_spec, Z.shiftr_spec by lia. replace (n - s + s) with n by lia.
  destruct (decide (n < 32)).
  - rewrite Z.ones_spec_low by lia. apply andb_true_r.
  - rewrite <- (Z.mod_small a (2 ^ 32)), Z.mod_pow2_bits_high by lia. done.
Qed.

Lemma lnot_mask_of s : 0 <= s < 32 -> u32 (Z.lnot (mask_of s)) = 2 ^ s - 1.
Proof.
  intros Hs. pose proof (Z.pow_lt_mono_r 2 s 32 ltac:(lia) ltac:(lia) ltac:(lia)).
  unfold mask_of, wrap, Z.lnot. symmetry. apply Z.mod_unique with (q := -1); lia.
Qed.

Lemma NumAddressBits_mask s : 0 <= s < 32 -> NumAddressBits (mask_of s) = Ok s.
Proof.
  intros Hs. assert (forall n : nat, (n < 32)%nat -> NumAddressBits (mask_of (Z.of_nat n)) = Ok (Z.of_nat n)) as H.
  { intros n Hn. do 32 (destruct n as [|n]; [reflexivity|]). lia. }
  specialize (H (Z.to_nat s) ltac:(lia)). by rewrite Z2Nat.id in H by lia.
Qed.

(** ** What the helper hands out *)

(** [h] stands at address [a] of network [n], the networks having [2^s]
    addresses and the first address of each being [base]. *)
Record at_address (s base n a : Z) (h : Ipv4AddressHelper) : Prop := {
  aa_network : m_network h = n; aa_mask : m_mask h = mask_of s; aa_address : m_address h = a;
  aa_base : m_base h = base; aa_shift : m_shift h = s; aa_max : m_max h = 2 ^ s - 2 }.

Lemma SetBase_at s base network : 1 <= s < 31 -> in_range 32 network -> (2 ^ s | network) ->
  exists h, SetBase network (mask_of s) base = Ok h /\ at_address s base (network / 2 ^ s) base h.
Proof.
  intros Hs Hn Hdiv. pose proof (Z.pow_lt_mono_r 2 s 31 ltac:(lia) ltac:(lia) ltac:(lia)).
  pose proof (Z.pow_le_mono_r 2 1 s ltac:(lia) ltac:(lia)).
  unfold SetBase. rewrite lnot_mask_of by lia.
  assert (Z.land network (2 ^ s - 1) = 0) as ->.
  { replace (2 ^ s - 1) with (Z.ones s) by (rewrite Z.ones_equiv; lia). rewrite Z.land_ones by lia.
    apply Z.mod_divide; [lia|done]. }
  rewrite NumAddressBits_mask by lia. cbn [mbind res_bind ns_assert Z.eqb]. unfold max_address.
  replace (s <? 31) with true by (symmetry; apply Z.ltb_lt; lia). cbn [mbind res_bind mret res_ret].
  replace (s <=? 32) with true by (symmetry; apply Z.leb_le; lia). cbn [ns_assert].
  eexists. split; [done|]. split; simpl; try done.
  - apply Z.shiftr_div_pow2. lia.
  - apply wrap_small. unfold in_range. lia.
Qed.

Definition fresh (g : Generator) (l : list Z) : Prop := forall x, x ∈ l -> ~ allocated (m_entries g) x.

(** [g'] has handed out the addresses [l] besides those of [g]. *)
Definition extends (g : Generator) (l : list Z) (g' : Generator) : Prop :=
  wf_gen g' /\ forall x, allocated (m_entries g') x <-> x ∈ l \/ allocated (m_entries g) x.

Lemma extends_app g l g' l' g'' : extends g l g' -> extends g' l' g'' -> extends g (l ++ l') g''.
Proof.
  intros [_ H] [Hw H']. split; [done|]. intros x. rewrite H', H, elem_of_app. tauto.
Qed.

Lemma NewAddress_spec s base n a h g :
  1 <= s < 31 -> at_address s base n a h -> 0 <= a <= 2 ^ s - 2 -> 0 <= n < 2 ^ (32 - s) -> 0 < n * 2 ^ s + a ->
  wf_gen g -> ~ allocated (m_entries g) (n * 2 ^ s + a) ->
  exists h' g', NewAddress h g = Ok (n * 2 ^ s + a, h', g') /\ at_address s base n (a + 1) h' /\
    extends g [n * 2 ^ s + a] g'.
Proof.
  intros Hs [En Em Ea Eb Es Ex] Ha Hn Hpos Hw Hfresh.
  assert (n * 2 ^ s + 2 ^ s <= 2 ^ 32) as Hle.
  { assert (2 ^ 32 = 2 ^ (32 - s) * 2 ^ s) as -> by (rewrite <- Z.pow_add_r by lia; f_equal; lia). nia. }
  unfold NewAddress, shift_up. rewrite Ea, En, Es, Ex.
  replace (a <=? 2 ^ s - 2) with true by (symmetry; apply Z.leb_le; lia).
  replace (s <? 32) with true by (symmetry; apply Z.ltb_lt; lia).
  cbn [mbind res_bind ns_assert mret res_ret]. cbv zeta.
  rewrite wrap_small by (unfold in_range; rewrite Z.shiftl_mul_pow2; lia). rewrite lor_shiftl by lia.
  destruct (AddAllocated_spec (n * 2 ^ s + a) g ltac:(lia) Hw) as [_ H].
  destruct (H Hfresh) as (g' & -> & Hw' & _ & _ & Hx). eexists _, g'. split; [done|]. split.
  - split; simpl; try done. apply wrap_small. unfold in_range. lia.
  - split; [done|]. intros x. by rewrite Hx, list_elem_of_singleton.
Qed.

Lemma new_addresses_spec s base n k : forall a h g,
  1 <= s < 31 -> at_address s base n a h -> 0 <= a -> a + Z.of_nat k <= 2 ^ s - 1 ->
  0 <= n < 2 ^ (32 - s) -> 0 < n * 2 ^ s + a ->
  wf_gen g -> fresh g (seqZ (n * 2 ^ s + a) (Z.of_nat k)) ->
  exists h' g', new_addresses k h g = Ok (seqZ (n * 2 ^ s + a) (Z.of_nat k), h', g') /\
    at_address s base n (a + Z.of_nat k) h' /\ extends g (seqZ (n * 2 ^ s + a) (Z.of_nat k)) g'.
Proof.
  induction k as [|k IH]; intros a h g Hs Hh Ha Hk Hn Hpos Hw Hf.
  { exists h, g. split; [done|]. rewrite Z.add_0_r. split; [done|]. split; [done|]. intros x. simpl.
    rewrite elem_of_nil. tauto. }
  assert (seqZ (n * 2 ^ s + a) (Z.of_nat (S k)) =
    (n * 2 ^ s + a) :: seqZ (n * 2 ^ s + (a + 1)) (Z.of_nat k)) as Eseq.
  { rewrite seqZ_cons by lia. repeat f_equal; lia. }
  rewrite Eseq in *.
  destruct (NewAddress_spec s base n a h g) as (h1 & g1 & E1 & Hh1 & Hg1); try done; try lia.
  { apply Hf. by left. }
  destruct (IH (a + 1) h1 g1) as (h2 & g2 & E2 & Hh2 & Hg2); try done; try lia; try apply Hg1.
  { intros x Hx. rewrite (proj2 Hg1), list_elem_of_singleton. intros [->|H].
    - apply elem_of_seqZ in Hx. lia.
    - by apply (Hf x); [right|]. }
  exists h2, g2. cbn [new_addresses]. rewrite E1. cbn [mbind res_bind]. rewrite E2.
  split; [done|]. split; [by replace (a + Z.of_nat (S k)) with (a + 1 + Z.of_nat k) by lia|].
  apply (extends_app _ [_] _ _ _ Hg1 Hg2).
Qed.

(** The addresses expected from network [n] on. *)
Fixpoint plan (s base n : Z) (sizes : list nat) : list (list Z) :=
  match sizes with
  | [] => []
  | k :: r => seqZ (n * 2 ^ s + base) (Z.of_nat k) :: plan s base (n + 1) r
  end.

(** Each container fits between the base and the broadcast address. *)
Definition fits (s base : Z) (sizes : list nat) : Prop :=
  Forall (fun k => base + Z.of_nat k <= 2 ^ s - 1) sizes.

Lemma plan_lookup s base sizes : forall n i l,
  plan s base n sizes !! i = Some l ->
  exists k, sizes !! i = Some k /\ l = seqZ ((n + Z.of_nat i) * 2 ^ s + base) (Z.of_nat k).
Proof.
  induction sizes as [|k r IH]; intros n i l; simpl; [done|]. destruct i as [|i]; simpl.
  - intros [= <-]. exists k. by rewrite Z.add_0_r.
  - intros (k' & Hk & ->)%IH. exists k'. split; [done|].
    by replace (n + Z.of_nat (S i)) with (n + 1 + Z.of_nat i) by lia.
Qed.

Lemma plan_lookup_some s base sizes : forall n i k,
  sizes !! i = Some k ->
  plan s base n sizes !! i = Some (seqZ ((n + Z.of_nat i) * 2 ^ s + base) (Z.of_nat k)).
Proof.
  induction sizes as [|k' r IH]; intros n i k Hk; [done|]. destruct i as [|i]; simpl in *.
  - by simplify_eq; rewrite Z.add_0_r.
  - rewrite (IH (n + 1) i k Hk). by replace (n + Z.of_nat (S i)) with (n + 1 + Z.of_nat i) by lia.
Qed.

Lemma plan_above s base n sizes x :
  0 <= s -> 0 <= base -> x ∈ mjoin (plan s base n sizes) -> n * 2 ^ s <= x.
Proof.
  intros Hs Hb (l & Hx & Hl)%list_elem_of_join. apply list_elem_of_lookup in Hl as [i Hi].
  apply plan_lookup in Hi as (k & _ & ->). apply elem_of_seqZ in Hx.
  pose proof (Z.pow_pos_nonneg 2 s ltac:(lia) Hs).
  pose proof (Z.mul_nonneg_nonneg (Z.of_nat i) (2 ^ s) ltac:(lia) ltac:(lia)). lia.
Qed.

Lemma plan_nodup s base sizes : forall n,
  0 <= s -> 0 <= base -> fits s base sizes -> NoDup (mjoin (plan s base n sizes)).
Proof.
  induction sizes as [|k r IH]; intros n Hs Hb Hf; [apply NoDup_nil_2|].
  apply Forall_cons in Hf as [Hk Hf]. simpl. apply NoDup_app. split_and!.
  - apply NoDup_seqZ.
  - intros x Hx%elem_of_seqZ Hx'%plan_above; [|done|done]. lia.
  - by apply IH.
Qed.

Lemma number_links_spec s base sizes : forall n h g,
  1 <= s < 31 -> at_address s base n base h -> 0 <= base -> fits s base sizes ->
  0 <= n -> n + Z.of_nat (length sizes) <= 2 ^ (32 - s) -> 0 < n * 2 ^ s + base ->
  wf_gen g -> fresh g (mjoin (plan s base n sizes)) ->
  exists h' g', number_links sizes h g = Ok (plan s base n sizes, h', g') /\
    at_address s base (n + Z.of_nat (length sizes)) base h' /\ extends g (mjoin (plan s base n sizes)) g'.
Proof.
  induction sizes as [|k r IH]; intros n h g Hs Hh Hb Hfit Hn Hlen Hpos Hw Hf.
  { exists h, g. simpl. rewrite Z.add_0_r. split; [done|]. split; [done|]. split; [done|].
    intros x. rewrite elem_of_nil. tauto. }
  apply Forall_cons in Hfit as [Hk Hfit]. cbn [length plan] in *.
  assert (2 ^ (32 - s) <= 2 ^ 31) as Hmax by (apply Z.pow_le_mono_r; lia).
  destruct (new_addresses_spec s base n k base h g) as (h1 & g1 & E1 & Hh1 & Hg1); try done; try lia.
  { intros x Hx. apply Hf. simpl. rewrite elem_of_app. by left. }
  cbn [number_links]. rewrite E1. cbn [mbind res_bind]. unfold NewNetwork, shift_up.
  rewrite (aa_network _ _ _ _ _ Hh1), (aa_shift _ _ _ _ _ Hh1), (aa_base _ _ _ _ _ Hh1),
    (aa_mask _ _ _ _ _ Hh1), (aa_max _ _ _ _ _ Hh1).
  replace (s <? 32) with true by (symmetry; apply Z.ltb_lt; lia). cbn [mbind res_bind mret res_ret].
  rewrite (wrap_small 32 (n + 1)) by (unfold in_range; lia).
  destruct (IH (n + 1) (mkHelper (n + 1) (mask_of s) base base s (2 ^ s - 2)) g1)
    as (h2 & g2 & E2 & Hh2 & Hg2); try done; try lia; try apply Hg1.
  { intros x Hx. rewrite (proj2 Hg1). intros [H|H].
    - apply elem_of_seqZ in H. apply plan_above in Hx; lia.
    - apply (Hf x); [|done]. simpl. rewrite elem_of_app. by right. }
  exists h2, g2. rewrite E2. split; [done|]. split; [|apply (extends_app _ _ _ _ _ Hg1 Hg2)].
  by replace (n + Z.of_nat (S (length r))) with (n + 1 + Z.of_nat (length r)) by lia.
Qed.

(** * Properties of address assignment

    The generator is a set of addresses; the helper never hands out an address
    twice and stays on the network it was given. *)

(** ** The generator refines a set *)

Fixpoint add_all (addrs : list Z) (g : Generator) : res (list bool * Generator) :=
  match addrs with
  | [] => mret ([], g)
  | a :: r => '(b, g) ← AddAllocated a g; '(bs, g) ← add_all r g; mret (b :: bs, g)
  end.

(** The abstract generator in test mode or not. *)
Fixpoint add_all_spec (test : bool) (addrs : list Z) (s : gset Z) : res (list bool * gset Z) :=
  match addrs with
  | [] => mret ([], s)
  | a :: r =>
      if decide (a ∈ s) then
        if test then '(bs, s) ← add_all_spec test r s; mret (false :: bs, s) else Err FatalError
      else '(bs, s) ← add_all_spec test r ({[a]} ∪ s); mret (true :: bs, s)
  end.

Definition represents (g : Generator) (s : gset Z) : Prop :=
  wf_gen g /\ forall x, allocated (m_entries g) x <-> x ∈ s.

Lemma add_all_refines addrs : forall g s,
  Forall (fun a => 0 < a < 2 ^ 32) addrs -> represents g s ->
  match add_all addrs g, add_all_spec (m_test g) addrs s with
  | Ok (bs, g'), Ok (bs', s') => bs = bs' /\ represents g' s'
  | Err f, Err f' => f = f'
  | _, _ => False
  end.
Proof.
  induction addrs as [|a r IH]; intros g s Hv [Hw Hs]; [done|].
  apply Forall_cons in Hv as [Ha Hv]. cbn [add_all add_all_spec].
  destruct (AddAllocated_spec a g Ha Hw) as [Hin Hout]. destruct (decide (a ∈ s)) as [H|H].
  - rewrite Hin by (by apply Hs). destruct (m_test g) eqn:Et; [|done]. cbn [mbind res_bind].
    specialize (IH g s Hv (conj Hw Hs)). rewrite Et in IH.
    destruct (add_all r g) as [[bs g']|], (add_all_spec true r s) as [[bs' s']|]; cbn; naive_solver.
  - destruct Hout as (g1 & -> & Hw1 & _ & Et & Hx); [by rewrite Hs|]. cbn [mbind res_bind].
    assert (represents g1 ({[a]} ∪ s)) as Hr1.
    { split; [done|]. intros x. rewrite Hx, Hs. set_solver. }
    specialize (IH g1 _ Hv Hr1). rewrite Et in IH.
    destruct (add_all r g1) as [[bs g']|], (add_all_spec (m_test g) r ({[a]} ∪ s)) as [[bs' s']|];
      cbn; naive_solver.
Qed.

Lemma IsAddressAllocated_spec x g s :
  0 < x -> represents g s -> IsAddressAllocated x g = Ok (bool_decide (x ∉ s)).
Proof.
  intros Hx [_ Hs]. unfold IsAddressAllocated.
  replace (x =? 0) with false by (symmetry; apply Z.eqb_neq; lia). cbn [negb ns_require mbind res_bind mret res_ret].
  f_equal. destruct (existsb _ _) eqn:E.
  - apply existsb_allocated, Hs in E. symmetry. apply bool_decide_eq_false_2. tauto.
  - symmetry. apply bool_decide_eq_true_2. rewrite <- Hs, <- existsb_allocated. by rewrite E.
Qed.

(** C31. Recording any sequence of addresses in a fresh generator behaves as
    adding them to a set: an address is refused exactly when it was recorded
    before, which stops the program unless test mode is on, whatever ranges were
    opened and extended on the way. Afterwards [IsAddressAllocated] answers, for
    every address, whether it is NOT in the set. *)
Theorem generator_is_a_set test addrs :
  Forall (fun a => 0 < a < 2 ^ 32) addrs ->
  match add_all addrs (if (test : bool) then TestMode Reset else Reset), add_all_spec test addrs ∅ with
  | Ok (bs, g), Ok (bs', s) =>
      bs = bs' /\ forall x, 0 < x -> IsAddressAllocated x g = Ok (bool_decide (x ∉ s))
  | Err f, Err f' => f = f'
  | _, _ => False
  end.
Proof.
  intros Hv. set (g0 := if test then TestMode Reset else Reset).
  assert (m_test g0 = test) as Et by (by destruct test).
  assert (represents g0 ∅) as Hr.
  { assert (m_entries g0 = []) as E by (by destruct test). split; unfold wf_gen; rewrite E; [done|].
    intros x. split; [by intros ?%allocated_nil|set_solver]. }
  pose proof (add_all_refines addrs g0 ∅ Hv Hr) as H. rewrite Et in H.
  destruct (add_all addrs g0) as [[bs g]|], (add_all_spec test addrs ∅) as [[bs' s]|]; try done.
  destruct H as [-> Hr']. split; [done|]. intros x Hx. by apply IsAddressAllocated_spec.
Qed.

Lemma generator_is_a_set_witness :
  match add_all [5; 9; 6; 8; 7; 6] (TestMode Reset), add_all_spec true [5; 9; 6; 8; 7; 6] ∅ with
  | Ok (bs, g), Ok (bs', s) =>
      bs = bs' /\ forall x, 0 < x -> IsAddressAllocated x g = Ok (bool_decide (x ∉ s))
  | Err f, Err f' => f = f'
  | _, _ => False
  end.
Proof. apply (generator_is_a_set true). repeat constructor. Defined.

(** [IsNetworkAllocated] looks at the ends of the ranges only: a network in the
    middle of a range is reported free. *)
Example network_inside_range :
  (g ← add_all [3; 4; 5; 6; 7; 8] Reset; IsNetworkAllocated 4 (mask_of 2) g.2) = Ok true.
Proof. reflexivity. Qed.

(** ** The helper *)

(** C30. From any base within a network of [2^s] addresses, giving each of a
    sequence of containers a network of its own never fails while the containers
    fit their networks, the networks fit 32 bits and none of these addresses was
    recorded before: the [j]-th address of the [i]-th container is [base + j] on
    the [i]-th network, all addresses are different, each lies in the network of
    its container, and the generator has recorded them and nothing else. *)
Theorem links_numbered_apart s base network sizes g :
  1 <= s < 31 -> in_range 32 network -> (2 ^ s | network) -> 0 <= base -> 0 < network + base ->
  fits s base sizes -> network / 2 ^ s + Z.of_nat (length sizes) <= 2 ^ (32 - s) ->
  wf_gen g -> fresh g (mjoin (plan s base (network / 2 ^ s) sizes)) ->
  exists h h' nets g',
    SetBase network (mask_of s) base = Ok h /\ number_links sizes h g = Ok (nets, h', g') /\
    NoDup (mjoin nets) /\ (forall x, allocated (m_entries g') x <-> x ∈ mjoin nets \/ allocated (m_entries g) x) /\
    (forall i k, sizes !! i = Some k ->
       exists l, nets !! i = Some l /\ length l = k /\
         forall j a, l !! j = Some a ->
           a = network + Z.of_nat i * 2 ^ s + base + Z.of_nat j /\
           CombineMask a (mask_of s) = network + Z.of_nat i * 2 ^ s).
Proof.
  intros Hs Hn [q ->] Hb Hpos Hfit Hlen Hw Hf.
  assert (0 < 2 ^ s) as Hp by (apply Z.pow_pos_nonneg; lia).
  rewrite Z.div_mul in Hlen, Hf by lia. unfold in_range in Hn.
  assert (2 ^ 32 = 2 ^ (32 - s) * 2 ^ s) as E32 by (rewrite <- Z.pow_add_r by lia; f_equal; lia).
  destruct (SetBase_at s base (q * 2 ^ s)) as (h & Eh & Hh); [done|done|by exists q|].
  rewrite Z.div_mul in Hh by lia.
  destruct (number_links_spec s base sizes q h g) as (h' & g' & E & _ & Hext); try done; [nia|].
  exists h, h', (plan s base q sizes), g'. split; [done|]. split; [done|].
  split; [apply plan_nodup; done || lia|]. split; [apply Hext|].
  intros i k Hk. pose proof (lookup_lt_Some _ _ _ Hk) as Hi.
  exists (seqZ ((q + Z.of_nat i) * 2 ^ s + base) (Z.of_nat k)). split_and!.
  - by apply plan_lookup_some.
  - rewrite length_seqZ. lia.
  - intros j a (-> & Hj)%lookup_seqZ. split; [lia|].
    assert (base + Z.of_nat k <= 2 ^ s - 1) as Hfk by (by eapply Forall_lookup_1 in Hfit).
    unfold CombineMask. rewrite land_mask_of by (unfold in_range; nia).
    assert (((q + Z.of_nat i) * 2 ^ s + base + Z.of_nat j) / 2 ^ s = q + Z.of_nat i) as ->; [|lia].
    symmetry. apply Z.div_unique with (r := base + Z.of_nat j); lia.
Qed.

(** The two ends of the eight leaf-spine links of two spines and four leaves,
    numbered from 192.168.0.0/24. *)
Lemma links_numbered_apart_witness :
  exists h h' nets g',
    SetBase 0xc0a80000 (mask_of 8) 1 = Ok h /\
    number_links [2; 2; 2; 2; 2; 2; 2; 2]%nat h Reset = Ok (nets, h', g') /\
    NoDup (mjoin nets) /\
    (forall x, allocated (m_entries g') x <-> x ∈ mjoin nets \/ allocated (m_entries Reset) x) /\
    (forall i k, [2; 2; 2; 2; 2; 2; 2; 2]%nat !! i = Some k ->
       exists l, nets !! i = Some l /\ length l = k /\
         forall j a, l !! j = Some a ->
           a = 0xc0a80000 + Z.of_nat i * 2 ^ 8 + 1 + Z.of_nat j /\
           CombineMask a (mask_of 8) = 0xc0a80000 + Z.of_nat i * 2 ^ 8).
Proof.
  apply (links_numbered_apart 8 1 0xc0a80000).
  - done.
  - done.
  - exists 12625920. reflexivity.
  - done.
  - done.
  - repeat constructor; discriminate.
  - vm_compute. discriminate.
  - done.
  - intros x _. apply allocated_nil.
Defined.
