(* ===== verification/Node.v ===== *)
(** * Nodes ([src/network/model/node.cc], [node-list.cc],
      [src/network/helper/node-container.cc])

    A node holds handles of devices and applications and dispatches received
    frames to protocol handlers.  Handlers and listeners are named by integers;
    what a node does to other objects is returned as a list of [node_call]. *)

From S2P Require Import Prelude Bytes Packet.

Inductive node_type := SPINE | LEAF | SERVER.

#[export] Instance node_type_eq_dec : EqDecision node_type.
Proof. solve_decision. Defined.

Record ProtocolHandlerEntry := mkHandler {
  ph_handler : Z; ph_device : option Z; ph_protocol : Z; ph_promiscuous : bool }.

(** [m_type] has no value until [SetType]. *)
Record node := mkNode {
  m_id : Z; m_sid : Z; m_type : option node_type; m_devices : list Z; m_applications : list Z;
  m_handlers : list ProtocolHandlerEntry; m_deviceAdditionListeners : list Z }.

Inductive node_call :=
| DevSetNode (device node : Z)
| DevSetIfIndex (device index : Z)
| DevSetReceiveCallback (device : Z)
| DevSetPromiscReceiveCallback (device : Z)
| DevDispose (device : Z)
| AppSetNode (app node : Z)
| AppDispose (app : Z)
| ScheduleInitialize (context object : Z)       (* at the current time *)
| Initialize (object : Z)
| Listener (listener device : Z)
| Handler (handler device : Z) (p : Packet) (protocol from to packetType : Z).

Definition new_node (id sid : Z) : node := mkNode id sid None [] [] [] [].

Definition GetId (n : node) : Z := m_id n.
Definition GetSystemId (n : node) : Z := m_sid n.
Definition GetType (n : node) : res node_type := deref (m_type n).
Definition SetType (t : node_type) (n : node) : node :=
  mkNode (m_id n) (m_sid n) (Some t) (m_devices n) (m_applications n) (m_handlers n) (m_deviceAdditionListeners n).
Definition set_devices (l : list Z) (n : node) : node :=
  mkNode (m_id n) (m_sid n) (m_type n) l (m_applications n) (m_handlers n) (m_deviceAdditionListeners n).
Definition set_applications (l : list Z) (n : node) : node :=
  mkNode (m_id n) (m_sid n) (m_type n) (m_devices n) l (m_handlers n) (m_deviceAdditionListeners n).
Definition set_handlers (l : list ProtocolHandlerEntry) (n : node) : node :=
  mkNode (m_id n) (m_sid n) (m_type n) (m_devices n) (m_applications n) l (m_deviceAdditionListeners n).
Definition set_listeners (l : list Z) (n : node) : node :=
  mkNode (m_id n) (m_sid n) (m_type n) (m_devices n) (m_applications n) (m_handlers n) l.

Definition NotifyDeviceAdded (device : Z) (n : node) : list node_call :=
  (fun l => Listener l device) <$> m_deviceAdditionListeners n.

Definition AddDevice (device : Z) (n : node) : Z * node * list node_call :=
  let index := u32 (Z.of_nat (length (m_devices n))) in
  (index, set_devices (m_devices n ++ [device]) n,
   [DevSetNode device (m_id n); DevSetIfIndex device index; DevSetReceiveCallback device;
    ScheduleInitialize (GetId n) device] ++ NotifyDeviceAdded device n).
Definition GetDevice (index : Z) (n : node) : res Z :=
  _ ← ns_assert (index <? Z.of_nat (length (m_devices n))); deref (m_devices n !! Z.to_nat index).
Definition GetNDevices (n : node) : Z := u32 (Z.of_nat (length (m_devices n))).

Definition AddApplication (app : Z) (n : node) : Z * node * list node_call :=
  let index := u32 (Z.of_nat (length (m_applications n))) in
  (index, set_applications (m_applications n ++ [app]) n,
   [AppSetNode app (m_id n); ScheduleInitialize (GetId n) app]).
Definition GetApplication (index : Z) (n : node) : res Z :=
  _ ← ns_assert (index <? Z.of_nat (length (m_applications n))); deref (m_applications n !! Z.to_nat index).
Definition GetNApplications (n : node) : Z := u32 (Z.of_nat (length (m_applications n))).

Definition DoDispose (n : node) : node * list node_call :=
  (mkNode (m_id n) (m_sid n) (m_type n) [] [] [] [],
   (DevDispose <$> m_devices n) ++ (AppDispose <$> m_applications n)).
Definition DoInitialize (n : node) : list node_call :=
  (Initialize <$> m_devices n) ++ (Initialize <$> m_applications n).

Definition RegisterProtocolHandler (handler protocolType : Z) (device : option Z) (promiscuous : bool) (n : node) :
    node * list node_call :=
  (set_handlers (m_handlers n ++ [mkHandler handler device protocolType promiscuous]) n,
   if promiscuous then
     match device with
     | None => DevSetPromiscReceiveCallback <$> m_devices n
     | Some d => [DevSetPromiscReceiveCallback d]
     end
   else []).

(** The first entry that satisfies [f] is removed. *)
Fixpoint erase_first {A} (f : A -> bool) (l : list A) : list A :=
  match l with
  | [] => []
  | x :: r => if f x then r else x :: erase_first f r
  end.
Definition UnregisterProtocolHandler (handler : Z) (n : node) : node :=
  set_handlers (erase_first (fun e => ph_handler e =? handler) (m_handlers n)) n.

Definition entry_matches (device protocol : Z) (promiscuous : bool) (e : ProtocolHandlerEntry) : bool :=
  match ph_device e with None => true | Some d => d =? device end &&
  ((ph_protocol e =? 0) || (ph_protocol e =? protocol)) &&
  Bool.eqb promiscuous (ph_promiscuous e).

(** The loop over the handlers: the calls made and [found]. *)
Fixpoint dispatch (device : Z) (p : Packet) (protocol from to packetType : Z) (promiscuous : bool)
    (l : list ProtocolHandlerEntry) : list node_call * bool :=
  match l with
  | [] => ([], false)
  | e :: r =>
      let '(calls, found) := dispatch device p protocol from to packetType promiscuous r in
      if entry_matches device protocol promiscuous e then
        (Handler (ph_handler e) device p protocol from to packetType :: calls, true)
      else (calls, found)
  end.
(** [context]: the simulator's context *)
Definition ReceiveFromDevice (context device : Z) (p : Packet) (protocol from to packetType : Z)
    (promiscuous : bool) (n : node) : res (list node_call * bool) :=
  _ ← ns_assert (context =? GetId n);
  mret (dispatch device p protocol from to packetType promiscuous (m_handlers n)).
Definition PromiscReceiveFromDevice (context device : Z) (p : Packet) (protocol from to packetType : Z) (n : node) :=
  ReceiveFromDevice context device p protocol from to packetType true n.
(** [address]: the address of the device, which [NonPromiscReceiveFromDevice] reads *)
Definition NonPromiscReceiveFromDevice (context device address : Z) (p : Packet) (protocol from : Z) (n : node) :=
  ReceiveFromDevice context device p protocol from address 0 false n.

Definition RegisterDeviceAdditionListener (listener : Z) (n : node) : node * list node_call :=
  (set_listeners (m_deviceAdditionListeners n ++ [listener]) n, Listener listener <$> m_devices n).
Definition UnregisterDeviceAdditionListener (listener : Z) (n : node) : node :=
  set_listeners (erase_first (fun l => l =? listener) (m_deviceAdditionListeners n)) n.

(** ** [NodeList] and [NodeContainer] *)

(** The list of all nodes; a node's reference is its index. *)
Definition NodeList_Add (sid : Z) (l : list node) : Z * list node :=
  let index := u32 (Z.of_nat (length l)) in (index, l ++ [new_node index sid]).
Definition NodeList_GetNode (k : Z) (l : list node) : res node :=
  _ ← ns_assert (k <? Z.of_nat (length l)); deref (l !! Z.to_nat k).
Definition NodeList_GetNNodes (l : list node) : Z := u32 (Z.of_nat (length l)).

(** A container is the list of the references of its nodes. *)
Fixpoint Create (n : nat) (systemId : Z) (c : list Z) (l : list node) : list Z * list node :=
  match n with
  | O => (c, l)
  | S n => let '(id, l) := NodeList_Add systemId l in Create n systemId (c ++ [id]) l
  end.

(** [Create (n, type)]: round [i] adds a node and sets the type of the [i]-th
    node of the container. *)
Fixpoint create_typed (n : nat) (i : nat) (type : node_type) (c : list Z) (l : list node) :
    res (list Z * list node) :=
  match n with
  | O => mret (c, l)
  | S n =>
      let '(id, l) := NodeList_Add 0 l in
      let c := c ++ [id] in
      k ← deref (c !! i);
      nd ← deref (l !! Z.to_nat k);
      create_typed n (i + 1) type c (<[Z.to_nat k := SetType type nd]> l)
  end.
Definition CreateTyped (n : nat) (type : node_type) (c : list Z) (l : list node) : res (list Z * list node) :=
  create_typed n 0 type c l.

Definition Add (other c : list Z) : list Z := c ++ other.
Definition Contains (id : Z) (c : list Z) (l : list node) : res bool :=
  ids ← foldr (fun k r => r ← r; nd ← deref (l !! Z.to_nat k); mret (GetId nd :: r)) (mret []) c;
  mret (existsb (fun x => x =? id) ids).
Definition Get (i : Z) (c : list Z) : res Z := deref (c !! Z.to_nat i).
Definition GetN (c : list Z) : Z := u32 (Z.of_nat (length c)).

(** ** Lemmas *)

Lemma dispatch_spec device p protocol from to packetType promiscuous l :
  dispatch device p protocol from to packetType promiscuous l =
  ((fun e => Handler (ph_handler e) device p protocol from to packetType) <$>
     List.filter (entry_matches device protocol promiscuous) l,
   existsb (entry_matches device protocol promiscuous) l).
Proof.
  induction l as [|e r IH]; simpl; [done|]. rewrite IH. by destruct (entry_matches _ _ _ e).
Qed.

(** Creating nodes in an empty container gives them all the type. *)
Definition typed_nodes (type : node_type) (from : nat) (n : nat) : list node :=
  (fun i => SetType type (new_node (u32 (Z.of_nat i)) 0)) <$> seq from n.

Lemma create_typed_spec n : forall i type c l,
  Z.of_nat (length l + n) < 2 ^ 32 -> length c = i ->
  create_typed n i type c l =
  Ok (c ++ (Z.of_nat <$> seq (length l) n), l ++ typed_nodes type (length l) n).
Proof.
  induction n as [|n IH]; intros i type c l Hl Hc; cbn [create_typed seq].
  { by rewrite fmap_nil, !app_nil_r. }
  unfold NodeList_Add. rewrite (wrap_small 32) by (unfold in_range; lia).
  rewrite list_lookup_middle by done. cbn [deref mbind res_bind]. rewrite Nat2Z.id.
  rewrite list_lookup_middle by done. cbn [deref mbind res_bind].
  rewrite insert_app_r_alt, Nat.sub_diag by done. cbn [list_insert insert].
  rewrite IH; [|rewrite length_app; simpl; lia|rewrite length_app; simpl; lia].
  rewrite length_app. cbn [length]. rewrite <- !app_assoc. cbn [app fmap list_fmap].
  f_equal. f_equal; [by rewrite Nat.add_1_r|]. f_equal. unfold typed_nodes. cbn [seq fmap list_fmap].
  rewrite (wrap_small 32) by (unfold in_range; lia). by rewrite Nat.add_1_r.
Qed.

(** In a container that has nodes already, the types go to the first ones. *)
Example Create_types_the_wrong_nodes :
  ('(c, l) ← CreateTyped 1 SPINE [] []; '(c, l) ← CreateTyped 1 LEAF c l; Ok (map m_type l)) =
  Ok [Some LEAF; None].
Proof. reflexivity. Qed.
