(* ===== verification/Topology.v ===== *)
(** * Building the network ([src/point-to-point/helper/point-to-point-helper.cc],
      [scratch/loadbalancer/topology-builder.h])

    The store of the scenario while [BuildTopology] runs: the devices and
    channels of [PointToPoint], the list of nodes, and the calls that nodes made
    to objects other than point-to-point devices.  A device's handle is the
    number of its reference in the store; the loopback devices are numbered too. *)

From S2P Require Import Prelude Bytes Packet Node.
From S2P Require Queue PointToPoint.
Import PointToPoint (world, device, w_devs, w_chans, ErrorModel).

(** [m[i][j]] of a vector of vectors *)
Definition cell {A} (i j : nat) (m : list (list A)) : option A :=
  match m !! i with Some row => row !! j | None => None end.

Section topology.
Context {EM : Type} `{ErrorModel EM}.

Record topo := mkTopo {
  t_world : world (EM := EM);
  t_nodes : list node;
  t_nextDevice : nat;
  t_nextChannel : nat;
  t_macs : Z;                     (* the static counter of [Mac48Address::Allocate] *)
  t_loopbacks : list Z;
  t_calls : list node_call }.

Abbreviation M := (st topo).

Definition set_world (w : world) t : topo :=
  mkTopo w (t_nodes t) (t_nextDevice t) (t_nextChannel t) (t_macs t) (t_loopbacks t) (t_calls t).
Definition set_nodes (l : list node) t : topo :=
  mkTopo (t_world t) l (t_nextDevice t) (t_nextChannel t) (t_macs t) (t_loopbacks t) (t_calls t).
Definition set_devs (f : gmap nat device -> gmap nat device) t : topo :=
  set_world (PointToPoint.mkWorld (PointToPoint.w_now (t_world t)) (PointToPoint.w_pending (t_world t))
    (f (w_devs (t_world t))) (w_chans (t_world t))) t.
Definition on_world {A} (m : PointToPoint.M A) : M A := fun t =>
  match m (t_world t) with Ok (a, w) => Ok (a, set_world w t) | Err f => Err f end.

(** What a node asks of a device; the initialization events are recorded. *)
Definition apply_call (c : node_call) t : topo :=
  match c with
  | DevSetNode d n => set_devs (alter (PointToPoint.SetNode n) (Z.to_nat d)) t
  | DevSetIfIndex d i => set_devs (alter (PointToPoint.SetIfIndex i) (Z.to_nat d)) t
  | c => mkTopo (t_world t) (t_nodes t) (t_nextDevice t) (t_nextChannel t) (t_macs t) (t_loopbacks t)
           (t_calls t ++ [c])
  end.
Definition node_AddDevice (n : Z) (d : Z) : M Z :=
  nd ← (t ← gets t_nodes; lift (deref (t !! Z.to_nat n)));
  let '(index, nd', calls) := AddDevice d nd in
  _ ← update (fun t => set_nodes (<[Z.to_nat n := nd']> (t_nodes t)) t);
  _ ← update (fun t => fold_left (fun t c => apply_call c t) calls t);
  mret index.

(** ** [PointToPointHelper] *)

(** The attributes its factories were given. *)
Record PointToPointHelper := mkP2PHelper {
  h_queue : Queue.queue Packet; h_mtu : Z; h_bps : Z; h_gap : Z; h_delay : Z; h_enableFlowControl : bool }.

(** The defaults of the attributes; the default queue holds 100 packets. *)
Definition new_p2p : PointToPointHelper :=
  mkP2PHelper Queue.DropTailQueue 1500 32768 0 0 true.
Definition DisableFlowControl (h : PointToPointHelper) : PointToPointHelper :=
  mkP2PHelper (h_queue h) (h_mtu h) (h_bps h) (h_gap h) (h_delay h) false.
Definition SetQueue (max : Queue.QueueSize) (h : PointToPointHelper) : PointToPointHelper :=
  mkP2PHelper (Queue.set_max max Queue.DropTailQueue) (h_mtu h) (h_bps h) (h_gap h) (h_delay h)
    (h_enableFlowControl h).
Definition SetDelay (d : Z) (h : PointToPointHelper) : PointToPointHelper :=
  mkP2PHelper (h_queue h) (h_mtu h) (h_bps h) (h_gap h) d (h_enableFlowControl h).
Definition SetDataRate (bps : Z) (h : PointToPointHelper) : PointToPointHelper :=
  mkP2PHelper (h_queue h) (h_mtu h) bps (h_gap h) (h_delay h) (h_enableFlowControl h).

Definition Mac48Address_Allocate : M Z := fun t =>
  let id := u64 (t_macs t + 1) in
  Ok (wrap 48 id, mkTopo (t_world t) (t_nodes t) (t_nextDevice t) (t_nextChannel t) id (t_loopbacks t) (t_calls t)).

Definition create_device (dev : device) : M nat := fun t =>
  let d := t_nextDevice t in
  Ok (d, mkTopo (t_world (set_devs (<[d := dev]>) t)) (t_nodes t) (S d) (t_nextChannel t) (t_macs t)
           (t_loopbacks t) (t_calls t)).
Definition create_channel (delay : Z) : M nat := fun t =>
  let c := t_nextChannel t in
  let w := t_world t in
  Ok (c, mkTopo (PointToPoint.mkWorld (PointToPoint.w_now w) (PointToPoint.w_pending w) (w_devs w)
                   (<[c := PointToPoint.PointToPointChannel delay]> (w_chans w)))
           (t_nodes t) (t_nextDevice t) (S c) (t_macs t) (t_loopbacks t) (t_calls t)).

(** One end: the device is created, added to its node and given its queue. *)
Definition install_end (h : PointToPointHelper) (n : Z) : M nat :=
  d ← create_device (PointToPoint.PointToPointNetDevice (h_mtu h) 0xffffffffffff (h_bps h) (h_gap h) None);
  a ← Mac48Address_Allocate;
  _ ← update (set_devs (alter (PointToPoint.SetAddress a) d));
  _ ← node_AddDevice n (Z.of_nat d);
  _ ← update (set_devs (alter (PointToPoint.SetQueue (h_queue h)) d));
  mret d.

(** Without MPI.  The queue interface that flow control aggregates to each
    device belongs to traffic control. *)
Definition Install (h : PointToPointHelper) (a b : Z) : M (nat * nat) :=
  devA ← install_end h a;
  devB ← install_end h b;
  c ← create_channel (h_delay h);
  _ ← on_world (PointToPoint.Attach c devA);
  _ ← on_world (PointToPoint.Attach c devB);
  mret (devA, devB).

(** ** [TopologyBuilder::BuildTopology] *)

Definition create_nodes (n : nat) (type : node_type) : M (list Z) := fun t =>
  '(c, l) ← CreateTyped n type [] (t_nodes t); Ok (c, set_nodes l t).

Definition create_loopback : M Z := fun t =>
  let d := Z.of_nat (t_nextDevice t) in
  Ok (d, mkTopo (t_world t) (t_nodes t) (S (t_nextDevice t)) (t_nextChannel t) (t_macs t)
           (t_loopbacks t ++ [d]) (t_calls t)).

(** The device that [Ipv4L3Protocol::SetupLoopback] finds or creates on a node
    when the internet stack is installed. *)
Definition loopback (n : Z) : M Z :=
  nd ← (t ← gets t_nodes; lift (deref (t !! Z.to_nat n)));
  lo ← gets t_loopbacks;
  match List.find (fun d => bool_decide (d ∈ lo)) (m_devices nd) with
  | Some d => mret d
  | None => d ← create_loopback; _ ← node_AddDevice n d; mret d
  end.

(** [MilliSeconds (1)], [100Mbps] *)
Definition LEAF_SPINE_DELAY : Z := 1000000.
Definition LEAF_SPINE_DATA_RATE : Z := 100000000.
Definition SERVER_LEAF_DELAY : Z := 1000000.
Definition SERVER_LEAF_DATA_RATE : Z := 100000000.

Definition p2p_leaf_spine : PointToPointHelper :=
  SetDataRate LEAF_SPINE_DATA_RATE (SetDelay LEAF_SPINE_DELAY
    (SetQueue (Queue.mkQueueSize Queue.PACKETS 1500) (DisableFlowControl new_p2p))).
Definition p2p_server_leaf : PointToPointHelper :=
  SetDataRate SERVER_LEAF_DATA_RATE (SetDelay SERVER_LEAF_DELAY p2p_leaf_spine).

(** The links of a spine: for each leaf the device of the leaf and the one of
    the spine. *)
Fixpoint spine_links (leaves : list Z) (spine : Z) : M (list (nat * nat)) :=
  match leaves with
  | [] => mret []
  | leaf :: r =>
      l ← Install p2p_leaf_spine leaf spine;
      ls ← spine_links r spine;
      mret (l :: ls)
  end.
Fixpoint all_spine_links (leaves spines : list Z) : M (list (list (nat * nat))) :=
  match spines with
  | [] => mret []
  | spine :: r => row ← spine_links leaves spine; rows ← all_spine_links leaves r; mret (row :: rows)
  end.

(** The links of a leaf to its servers, [servers_count] from index [k]. *)
Fixpoint server_links (n : nat) (k : Z) (servers : list Z) (leaf : Z) : M (list (nat * nat)) :=
  match n with
  | O => mret []
  | S n =>
      s ← lift (Get k servers);
      l ← Install p2p_server_leaf s leaf;
      ls ← server_links n (u32 (k + 1)) servers leaf;
      mret (l :: ls)
  end.
Fixpoint all_server_links (servers_count : nat) (i_leaf : Z) (servers leaves : list Z) : M (list (nat * nat)) :=
  match leaves with
  | [] => mret []
  | leaf :: r =>
      ls ← server_links servers_count (u32 (i_leaf * Z.of_nat servers_count)) servers leaf;
      rest ← all_server_links servers_count (u32 (i_leaf + 1)) servers r;
      mret (ls ++ rest)
  end.

(** What [BuildTopology] makes before it assigns addresses: the containers, the
    device pairs in the order of creation and the two static vectors, both
    indexed by the spine first. *)
Record built := mkBuilt {
  b_spine : list Z; b_leaf : list Z; b_servers : list Z;
  leaf_spine_netDevContainer : list (nat * nat);
  server_leaf_netDevContainer : list (nat * nat);
  p2pSpinesLeavesNetdevs : list (list nat);
  p2pLeavesSpinesNetdevs : list (list nat) }.

(** The nodes, and the loopback devices of their stacks. *)
Definition install_nodes (spine_count leaf_count servers_count : nat) : M (list Z * list Z * list Z) :=
  spine ← create_nodes spine_count SPINE;
  leaf ← create_nodes leaf_count LEAF;
  servers ← create_nodes (Z.to_nat (u32 (Z.of_nat servers_count * Z.of_nat leaf_count))) SERVER;
  _ ← each (fun n => _ ← loopback n; mret tt) leaf;
  _ ← each (fun n => _ ← loopback n; mret tt) spine;
  _ ← each (fun n => _ ← loopback n; mret tt) servers;
  mret (spine, leaf, servers).

Definition connect (servers_count : nat) (nodes : list Z * list Z * list Z) : M built :=
  let '(spine, leaf, servers) := nodes in
  rows ← all_spine_links leaf spine;
  pairs ← all_server_links servers_count 0 servers leaf;
  mret (mkBuilt spine leaf servers (mjoin rows) pairs ((fun row => row.*2) <$> rows) ((fun row => row.*1) <$> rows)).

Definition build_links (spine_count leaf_count servers_count : nat) : M built :=
  nodes ← install_nodes spine_count leaf_count servers_count;
  connect servers_count nodes.

Definition empty_topo : topo :=
  mkTopo (PointToPoint.mkWorld 0 [] ∅ ∅) [] 0 0 0 [] [].
End topology.
Arguments topo EM : clear implicits.
