(* ===== verification/TopologySpec.v ===== *)
(** * Properties of the network that [BuildTopology] makes

    [Install] only adds to the store: devices and links once made are never
    touched again ([grows]).  [topo_inv] says which nodes there are, how many
    devices each has, and that the links are as [PointToPointSpec] wants them
    before the first packet; the loops of [BuildTopology] are followed by
    counting the devices of each node. *)

From S2P Require Import Prelude Bytes Packet Node PointToPoint PointToPointSpec Topology.
From S2P Require Queue QueueSpec.

Section spec.
Context {EM : Type} `{ErrorModel EM}.
Implicit Types (t : topo EM) (w : world (EM := EM)) (h : PointToPointHelper).

(** ** The store only grows *)

Definition grows w w' : Prop := w_devs w ⊆ w_devs w' /\ w_chans w ⊆ w_chans w'.

Lemma grows_refl w : grows w w.
Proof using. by split. Qed.
Lemma grows_trans w1 w2 w3 : grows w1 w2 -> grows w2 w3 -> grows w1 w3.
Proof using. intros [? ?] [? ?]. split; by etrans. Qed.

(** Device [d] is the device number [k] of node [n]. *)
Definition located w (d : nat) (n k : Z) : Prop :=
  exists dev, w_devs w !! d = Some dev /\ m_node dev = Some n /\ m_ifIndex dev = k /\ GetMtu dev = 1500.

Lemma located_fun w d n k n' k' : located w d n k -> located w d n' k' -> n = n' /\ k = k'.
Proof using. intros (dev & ? & ? & ? & _) (dev' & ? & ? & ? & _). split; congruence. Qed.

(** [a] and [b] are the two ends of one link. *)
Definition linked w (a b : nat) : Prop :=
  exists c ch, attached w a b c ch /\ attached w b a c ch /\ m_delay ch = 1000000.

Lemma located_grows w w' d n k : grows w w' -> located w d n k -> located w' d n k.
Proof using. intros [Hd _] (dev & Hdev & ?). exists dev. split; [by eapply lookup_weaken|done]. Qed.

Lemma attached_grows w w' a b c ch : grows w w' -> attached w a b c ch -> attached w' a b c ch.
Proof using.
  intros [Hd Hc] [(da & Ha & Ha') (db & Hb & Hb') Hne Hch H2 Hdl Hl].
  constructor; try done.
  - exists da. split; [by eapply lookup_weaken|done].
  - exists db. split; [by eapply lookup_weaken|done].
  - by eapply lookup_weaken.
Qed.

Lemma linked_grows w w' a b : grows w w' -> linked w a b -> linked w' a b.
Proof using. intros Hg (c & ch & H1 & H2 & H3). exists c, ch. split_and!; [by eapply attached_grows..|done]. Qed.

(** ** Adding a device to a node *)

Lemma apply_calls_listeners d l t :
  t_world (fold_left (fun t c => apply_call c t) ((fun x => Listener x d) <$> l) t) = t_world t /\
  t_nodes (fold_left (fun t c => apply_call c t) ((fun x => Listener x d) <$> l) t) = t_nodes t /\
  t_nextDevice (fold_left (fun t c => apply_call c t) ((fun x => Listener x d) <$> l) t) = t_nextDevice t /\
  t_nextChannel (fold_left (fun t c => apply_call c t) ((fun x => Listener x d) <$> l) t) = t_nextChannel t /\
  t_loopbacks (fold_left (fun t c => apply_call c t) ((fun x => Listener x d) <$> l) t) = t_loopbacks t.
Proof using. revert t. induction l as [|x l IH]; intros t; simpl; [done|].
  match goal with |- context [fold_left _ _ ?x] => exact (IH x) end.
Qed.

(** [t'] is [t] with the devices [f devs] and the node [n] replaced by [nd]. *)
Record device_added (f : gmap nat device -> gmap nat device) (n : nat) (nd : node) t t' : Prop := {
  da_devs : w_devs (t_world t') = f (w_devs (t_world t));
  da_chans : w_chans (t_world t') = w_chans (t_world t);
  da_pending : w_pending (t_world t') = w_pending (t_world t);
  da_now : w_now (t_world t') = w_now (t_world t);
  da_nodes : t_nodes t' = <[n := nd]> (t_nodes t);
  da_next : t_nextDevice t' = t_nextDevice t;
  da_nextc : t_nextChannel t' = t_nextChannel t;
  da_loop : t_loopbacks t' = t_loopbacks t }.

Lemma node_AddDevice_spec n nd d t :
  t_nodes t !! n = Some nd ->
  let index := u32 (Z.of_nat (length (m_devices nd))) in
  exists t', node_AddDevice (Z.of_nat n) d t = Ok (index, t') /\
    device_added (alter (SetIfIndex index) (Z.to_nat d) ∘ alter (SetNode (Node.m_id nd)) (Z.to_nat d))
      n (set_devices (m_devices nd ++ [d]) nd) t t'.
Proof using.
  intros Hn index. unfold node_AddDevice. rewrite (run_bind _ _ _ nd t); cycle 1.
  { unfold mbind, st_bind, gets. simpl. rewrite Nat2Z.id, Hn. done. }
  cbn [AddDevice]. run. rewrite Nat2Z.id. eexists. split; [done|].
  cbn [app fold_left]. unfold NotifyDeviceAdded.
  match goal with |- device_added _ _ _ _ (fold_left _ (_ <$> ?l) ?x) =>
    pose proof (apply_calls_listeners d l x) as (E1 & E2 & E3 & E4 & E5) end.
  by constructor; rewrite ?E1, ?E2, ?E3, ?E4, ?E5.
Qed.

(** ** One link *)

(** What the helper must be configured with. *)
Record good_helper h : Prop := {
  gh_mtu : h_mtu h = 1500; gh_bps : 0 < h_bps h; gh_gap : 0 <= h_gap h; gh_delay : h_delay h = 1000000;
  gh_packets : Queue.m_packets (h_queue h) = []; gh_traces : Queue.m_traces (h_queue h) = [];
  gh_queue : QueueSpec.good GetSize 1502 (h_queue h) }.

Lemma good_leaf_spine : good_helper p2p_leaf_spine.
Proof using. by split. Qed.

(** The device that [install_end] leaves. *)
Definition end_device h (address node index : Z) : device (EM := EM) :=
  PointToPoint.SetQueue (h_queue h) (SetIfIndex index (SetNode node (SetAddress address
    (PointToPointNetDevice (h_mtu h) 0xffffffffffff (h_bps h) (h_gap h) None)))).

Lemma end_device_fresh h a n i c : good_helper h -> fresh 1502 (linked_up c (end_device h a n i)).
Proof using. intros [? ? ? ? ? ? ?]. constructor; try done. simpl. eauto. Qed.

Lemma install_end_spec h n nd t :
  t_nodes t !! n = Some nd ->
  exists a t', install_end h (Z.of_nat n) t = Ok (t_nextDevice t, t') /\
    w_devs (t_world t') =
      <[t_nextDevice t := end_device h a (Node.m_id nd) (u32 (Z.of_nat (length (m_devices nd))))]> (w_devs (t_world t)) /\
    w_chans (t_world t') = w_chans (t_world t) /\ w_pending (t_world t') = w_pending (t_world t) /\
    w_now (t_world t') = w_now (t_world t) /\
    t_nodes t' = <[n := set_devices (m_devices nd ++ [Z.of_nat (t_nextDevice t)]) nd]> (t_nodes t) /\
    t_nextDevice t' = S (t_nextDevice t) /\ t_nextChannel t' = t_nextChannel t /\ t_loopbacks t' = t_loopbacks t.
Proof using.
  intros Hn. unfold install_end. rewrite (run_bind _ _ t _ _ eq_refl), (run_bind _ _ _ _ _ eq_refl). run.
  match goal with |- context [(node_AddDevice _ _ ≫= _) ?x] =>
    destruct (node_AddDevice_spec n nd (Z.of_nat (t_nextDevice t)) x Hn) as (t' & E & Hadd) end.
  rewrite (run_bind _ _ _ _ _ E). run. destruct Hadd as [E1 E2 E3 E4 E5 E6 E7 E8]. simpl in *.
  eexists _, _. split; [done|]. simpl. split_and!; try done. rewrite E1, Nat2Z.id. simpl.
  rewrite !alter_insert_eq. done.
Qed.

(** Every device is in the list of its node, and of no other one; what is listed
    is a device or one of the loopback devices [los]. *)
Record listing (los : list Z) (nodes : list node) (devs : gmap nat (device (EM := EM))) (next : nat) : Prop := {
  li_listed n nd d : nodes !! n = Some nd -> d ∈ m_devices nd -> 0 <= d < Z.of_nat next /\
    (d ∈ los \/ exists dev, devs !! Z.to_nat d = Some dev /\ m_node dev = Some (Z.of_nat n));
  li_once n n' nd nd' d : nodes !! n = Some nd -> nodes !! n' = Some nd' -> d ∈ m_devices nd -> d ∈ m_devices nd' -> n = n';
  li_system n nd : nodes !! n = Some nd -> m_sid nd = 0;
  li_back d dev : devs !! d = Some dev ->
    exists n nd, m_node dev = Some (Z.of_nat n) /\ nodes !! n = Some nd /\ Z.of_nat d ∈ m_devices nd }.

Lemma listing_add los los' nodes devs devs' next n nd :
  listing los nodes devs next -> nodes !! n = Some nd -> (forall d, is_Some (devs !! d) -> (d < next)%nat) ->
  (los' = los ++ [Z.of_nat next] /\ devs' = devs) \/
  (los' = los /\ exists dev, devs' = <[next := dev]> devs /\ m_node dev = Some (Z.of_nat n)) ->
  listing los' (<[n := set_devices (m_devices nd ++ [Z.of_nat next]) nd]> nodes) devs' (S next).
Proof using.
  intros [Hl Ho Hs Hb] Hn Hlt Hcase.
  assert (forall m x d, <[n := set_devices (m_devices nd ++ [Z.of_nat next]) nd]> nodes !! m = Some x -> d ∈ m_devices x ->
    (exists x0, nodes !! m = Some x0 /\ d ∈ m_devices x0 /\ d < Z.of_nat next) \/ (m = n /\ d = Z.of_nat next)) as Hcases.
  { intros m x d [(-> & <- & _)|(_ & Hm)]%list_lookup_insert_Some Hd; simpl in *.
    - apply elem_of_app in Hd as [Hd| ->%list_elem_of_singleton]; [left|by right].
      exists nd. split; [done|]. split; [done|]. apply (Hl _ _ _ Hn Hd).
    - left. exists x. split; [done|]. split; [done|]. apply (Hl _ _ _ Hm Hd). }
  split.
  - intros m x d Hm Hd. destruct (Hcases m x d Hm Hd) as [(x0 & Hx0 & Hd0 & _)|[-> ->]].
    + destruct (Hl _ _ _ Hx0 Hd0) as [? Hw]. split; [lia|]. destruct Hw as [Hlo|(dev & Hdev & Hnode)].
      * left. destruct Hcase as [[-> _]|[-> _]]; [|done]. apply elem_of_app. by left.
      * right. destruct Hcase as [[_ ->]|(_ & dev' & -> & _)]; [by exists dev|]. exists dev. rewrite lookup_insert_ne by lia. done.
    + split; [lia|]. rewrite Nat2Z.id. destruct Hcase as [[-> _]|(_ & dev' & -> & ?)]; [left; set_solver|right].
      exists dev'. by rewrite lookup_insert_eq.
  - intros m m' x x' d Hm Hm' Hd Hd'.
    destruct (Hcases m x d Hm Hd) as [(x0 & Hx0 & Hd0 & ?)|[-> ->]], (Hcases m' x' _ Hm' Hd') as [(x1 & Hx1 & Hd1 & ?)|[-> ?]]; try done; try lia.
    by eapply Ho.
  - intros m x [(-> & <- & _)|(_ & Hm)]%list_lookup_insert_Some; [apply (Hs _ _ Hn)|by eapply Hs].
  - intros d dev Hd. assert (forall m x, nodes !! m = Some x -> Z.of_nat d ∈ m_devices x ->
      exists x', <[n := set_devices (m_devices nd ++ [Z.of_nat next]) nd]> nodes !! m = Some x' /\ Z.of_nat d ∈ m_devices x') as Hup.
    { intros m x Hm Hx. destruct (decide (m = n)) as [->|Hne].
      - eexists. rewrite list_lookup_insert_eq by by eapply lookup_lt_Some. split; [done|]. simpl. assert (x = nd) as -> by congruence. set_solver.
      - exists x. by rewrite list_lookup_insert_ne. }
    assert (devs !! d = Some dev \/ (d = next /\ m_node dev = Some (Z.of_nat n))) as [Hd'|[-> Hnode]].
    { destruct Hcase as [[_ ->]|(_ & dev' & -> & ?)]; [by left|]. apply lookup_insert_Some in Hd as [[<- <-]|[_ ?]]; [by right|by left]. }
    + destruct (Hb _ _ Hd') as (m & x & Hm & Hx & Hin). destruct (Hup m x Hx Hin) as (x' & ? & ?). by exists m, x'.
    + eexists n, _. rewrite list_lookup_insert_eq by by eapply lookup_lt_Some. split; [done|]. split; [done|]. simpl. set_solver.
Qed.

(** [N] nodes, of which node [n] has [cnt n] devices, the loopback devices [los],
    and links as the helper leaves them. *)
Record topo_inv_ (los : list Z) (N : nat) (cnt : nat -> nat) t : Prop := {
  ti_length : length (t_nodes t) = N;
  ti_node : forall n nd, t_nodes t !! n = Some nd -> Node.m_id nd = Z.of_nat n /\ length (m_devices nd) = cnt n;
  ti_devs : forall d, is_Some (w_devs (t_world t) !! d) -> (d < t_nextDevice t)%nat;
  ti_chans : forall c, is_Some (w_chans (t_world t) !! c) -> (c < t_nextChannel t)%nat;
  ti_fresh : fresh_world 1502 (t_world t);
  ti_los : t_loopbacks t = los;
  ti_lo : Forall (fun d => 0 <= d < Z.of_nat (t_nextDevice t) /\ w_devs (t_world t) !! Z.to_nat d = None) los;
  ti_listing : listing los (t_nodes t) (w_devs (t_world t)) (t_nextDevice t) }.

Definition bump (n : nat) (cnt : nat -> nat) (m : nat) : nat := if decide (m = n) then S (cnt m) else cnt m.

Lemma fresh_lookup {A} (m : gmap nat A) k n :
  (forall d, is_Some (m !! d) -> (d < n)%nat) -> (n <= k)%nat -> m !! k = None.
Proof using. intros Hm Hk. destruct (m !! k) eqn:E; [|done]. specialize (Hm k (mk_is_Some _ _ E)). lia. Qed.

Section links.
Variable los : list Z.
Abbreviation topo_inv := (topo_inv_ los).

Lemma topo_inv_ext N cnt cnt' t :
  (forall n, (n < N)%nat -> cnt n = cnt' n) -> topo_inv N cnt t -> topo_inv N cnt' t.
Proof using.
  intros Hc [Hl Hn ? ? ? ? ? ?]. constructor; try done. intros n nd Hnd. destruct (Hn n nd Hnd).
  split; [done|]. rewrite <- Hc; [done|]. rewrite <- Hl. by eapply lookup_lt_Some.
Qed.

Lemma bump_nodes N cnt l n nd d :
  (forall m x, l !! m = Some x -> Node.m_id x = Z.of_nat m /\ length (m_devices x) = cnt m) ->
  length l = N -> l !! n = Some nd ->
  length (<[n := set_devices (m_devices nd ++ [d]) nd]> l) = N /\
  forall m x, <[n := set_devices (m_devices nd ++ [d]) nd]> l !! m = Some x ->
    Node.m_id x = Z.of_nat m /\ length (m_devices x) = bump n cnt m.
Proof using.
  intros Hl Hlen Hn. rewrite length_insert. split; [done|]. intros m x. unfold bump.
  rewrite list_lookup_insert_Some. intros [(<- & <- & _)|(Hne & Hm)].
  - destruct (Hl _ _ Hn) as [? E]. split; [done|]. simpl. rewrite decide_True by done.
    rewrite length_app, E. simpl. lia.
  - rewrite decide_False by done. by apply Hl.
Qed.

Lemma on_world_two {A B C} (m1 : PointToPoint.M A) (m2 : PointToPoint.M B) b (r : C) t w' :
  PointToPoint.M_bind _ _ (fun _ => m2) m1 (t_world t) = Ok (b, w') ->
  (on_world m1 ≫= fun _ => on_world m2 ≫= fun _ => mret r) t = Ok (r, set_world w' t).
Proof using.
  unfold PointToPoint.M_bind, mbind, st_bind, on_world. destruct (m1 (t_world t)) as [[x w1]|]; [|done].
  simpl. intros ->. done.
Qed.

(** What [Install] leaves when the next references are free. *)
Lemma Install_run h a b na nb t :
  good_helper h -> t_nodes t !! a = Some na -> t_nodes t !! b = Some nb -> a <> b ->
  let d := t_nextDevice t in let c := t_nextChannel t in
  exists ma mb ch t', Install h (Z.of_nat a) (Z.of_nat b) t = Ok ((d, S d), t') /\
    t_world t' = mkWorld (w_now (t_world t)) (w_pending (t_world t))
      (<[S d := linked_up c (end_device h mb (Node.m_id nb) (u32 (Z.of_nat (length (m_devices nb)))))]>
        (<[d := linked_up c (end_device h ma (Node.m_id na) (u32 (Z.of_nat (length (m_devices na)))))]>
          (w_devs (t_world t)))) (<[c := ch]> (w_chans (t_world t))) /\
    attached (t_world t') d (S d) c ch /\ attached (t_world t') (S d) d c ch /\ m_delay ch = 1000000 /\
    t_nodes t' = <[b := set_devices (m_devices nb ++ [Z.of_nat (S d)]) nb]>
                   (<[a := set_devices (m_devices na ++ [Z.of_nat d]) na]> (t_nodes t)) /\
    t_nextDevice t' = S (S d) /\ t_nextChannel t' = S c /\ t_loopbacks t' = t_loopbacks t.
Proof using.
  intros Hh Ea Eb Hne d c. unfold Install.
  destruct (install_end_spec h a na t Ea) as (ma & t1 & E1 & D1 & C1 & P1 & N1 & L1 & X1 & Y1 & Lo1).
  rewrite (run_bind _ _ _ _ _ E1).
  destruct (install_end_spec h b nb t1) as (mb & t2 & E2 & D2 & C2 & P2 & N2 & L2 & X2 & Y2 & Lo2).
  { by rewrite L1, list_lookup_insert_ne. }
  rewrite (run_bind _ _ _ _ _ E2). rewrite X1 in *. fold d in D1, D2, L1, L2, X2 |- *.
  assert (t_nextChannel t2 = c) as Ec by (unfold c; congruence).
  rewrite (run_bind _ _ t2 _ _ eq_refl). cbv zeta. rewrite Ec, (gh_delay _ Hh).
  match goal with |- context [_ ?x = Ok (_, _)] =>
    destruct (Attach_two (t_world x) d (S d) c 1000000
      (end_device h ma (Node.m_id na) (u32 (Z.of_nat (length (m_devices na)))))
      (end_device h mb (Node.m_id nb) (u32 (Z.of_nat (length (m_devices nb))))))
      as (w' & ch & E & A1 & A2 & Edl & Ew) end; try apply Hh; try done; simpl.
  { rewrite D2, D1, lookup_insert_ne, lookup_insert_eq by lia. done. }
  { by rewrite D2, lookup_insert_eq. }
  { by rewrite lookup_insert_eq. }
  erewrite on_world_two by exact E. exists ma, mb, ch. eexists. split; [done|]. cbn [set_world t_world t_nodes t_loopbacks].
  split_and!; try done.
  - rewrite Ew. simpl. rewrite C2, C1, P2, P1, N2, N1, D2, D1, insert_insert_eq. f_equal.
    rewrite (insert_insert_ne _ d (S d)) by lia. by rewrite !insert_insert_eq.
  - by rewrite L2, L1.
  - by rewrite Lo2, Lo1.
Qed.

Lemma Install_spec N cnt h a b t :
  good_helper h -> topo_inv N cnt t -> (a < N)%nat -> (b < N)%nat -> a <> b ->
  Z.of_nat (cnt a) < 2 ^ 32 -> Z.of_nat (cnt b) < 2 ^ 32 ->
  exists da db t', Install h (Z.of_nat a) (Z.of_nat b) t = Ok ((da, db), t') /\
    topo_inv N (bump b (bump a cnt)) t' /\ grows (t_world t) (t_world t') /\ linked (t_world t') da db /\
    located (t_world t') da (Z.of_nat a) (Z.of_nat (cnt a)) /\
    located (t_world t') db (Z.of_nat b) (Z.of_nat (cnt b)).
Proof using.
  intros Hh [Hlen Hnd Hdev Hch [Hp Hf Hat] Hlos Hlo Hli] Ha Hb Hne Hca Hcb.
  destruct (lookup_lt_is_Some_2 (t_nodes t) a ltac:(lia)) as [na Ena].
  destruct (lookup_lt_is_Some_2 (t_nodes t) b ltac:(lia)) as [nb Enb].
  destruct (Hnd _ _ Ena) as [Eia Eca]. destruct (Hnd _ _ Enb) as [Eib Ecb].
  destruct (Install_run h a b na nb t Hh Ena Enb Hne) as (ma & mb & ch & t' & E & Ew & A1 & A2 & Edl & El & Ex & Ey & Elo).
  rewrite Eia, Eib, Eca, Ecb, !(wrap_small 32) in Ew by (unfold in_range; lia).
  set (d := t_nextDevice t) in *. set (c := t_nextChannel t) in *.
  pose proof (fresh_lookup _ d d Hdev ltac:(lia)) as Hd0.
  pose proof (fresh_lookup _ (S d) d Hdev ltac:(lia)) as Hd1.
  pose proof (fresh_lookup _ c c Hch ltac:(lia)) as Hc0.
  assert (grows (t_world t) (t_world t')) as Hg.
  { rewrite Ew. split; simpl; repeat (apply insert_subseteq_r; [done|]); done. }
  exists d, (S d), t'. split; [done|]. split_and!; [|done|by exists c, ch|..].
  - destruct (bump_nodes N cnt (t_nodes t) a na (Z.of_nat d) Hnd Hlen Ena) as [Hl1 Hn1].
    destruct (bump_nodes N (bump a cnt) _ b nb (Z.of_nat (S d)) Hn1 Hl1) as [Hl2 Hn2];
      [by rewrite list_lookup_insert_ne|].
    assert (w_devs (t_world t') = <[S d := linked_up c (end_device h mb (Z.of_nat b) (Z.of_nat (cnt b)))]>
      (<[d := linked_up c (end_device h ma (Z.of_nat a) (Z.of_nat (cnt a)))]> (w_devs (t_world t)))) as Ed
      by (by rewrite Ew).
    constructor; rewrite ?El, ?Ex, ?Ey, ?Elo, ?Ed; try done.
    + intros x. rewrite !lookup_insert_is_Some'. intros [<-|[<-|Hx]]; [lia..|]. specialize (Hdev x Hx). lia.
    + intros x. rewrite Ew. simpl. rewrite lookup_insert_is_Some'. intros [<-|Hx]; [lia|].
      specialize (Hch x Hx). lia.
    + constructor; [by rewrite Ew|..]; intros x dev; rewrite Ed, !lookup_insert_Some.
      * intros [[_ <-]|[_ [[_ <-]|[_ Hx]]]]; [by apply end_device_fresh..|by eapply Hf].
      * intros [[<- _]|[_ [[<- _]|[_ Hx]]]]; [by exists d, c, ch|by exists (S d), c, ch|].
        destruct (Hat _ _ Hx) as (b' & c' & ch' & Hx'). exists b', c', ch'. by eapply attached_grows.
    + eapply Forall_impl; [exact Hlo|]. simpl. intros x [? Hx]. split; [lia|].
      rewrite !lookup_insert_ne by lia. done.
    + set (da := linked_up c (end_device h ma (Z.of_nat a) (Z.of_nat (cnt a)))).
      assert (listing los (<[a := set_devices (m_devices na ++ [Z.of_nat d]) na]> (t_nodes t)) (<[d := da]> (w_devs (t_world t))) (S d)) as Hli1.
      { eapply listing_add; [exact Hli|done|done|]. right. split; [done|]. by exists da. }
      eapply listing_add; [exact Hli1|by rewrite list_lookup_insert_ne| |].
      * intros x [<-|Hx]%lookup_insert_is_Some'; [lia|]. specialize (Hdev x Hx). lia.
      * right. split; [done|]. by eexists.
  - rewrite Ew. eexists. simpl. rewrite lookup_insert_ne, lookup_insert_eq by lia.
    split_and!; [done..|]. unfold GetMtu. simpl. by rewrite (gh_mtu _ Hh).
  - rewrite Ew. eexists. simpl. rewrite lookup_insert_eq.
    split_and!; [done..|]. unfold GetMtu. simpl. by rewrite (gh_mtu _ Hh).
Qed.

(** ** The links of the spines *)

(** [pairs] are links between the nodes [ends], the first end being the device
    number [ca] of its node and the second the next device of node [hub]. *)
Definition links_ok w (ca : nat -> nat) (hub ch : nat) (ends : list nat) (pairs : list (nat * nat)) : Prop :=
  length pairs = length ends /\
  forall j n a b, ends !! j = Some n -> pairs !! j = Some (a, b) ->
    linked w a b /\ located w a (Z.of_nat n) (Z.of_nat (ca n)) /\
    located w b (Z.of_nat hub) (Z.of_nat (ch + j)).

Lemma links_ok_grows w w' ca hub ch ends pairs :
  grows w w' -> links_ok w ca hub ch ends pairs -> links_ok w' ca hub ch ends pairs.
Proof using.
  intros Hg [Hl Hp]. split; [done|]. intros j n a b Hn Hj. destruct (Hp j n a b Hn Hj) as (? & ? & ?).
  split_and!; [by eapply linked_grows|by eapply located_grows..].
Qed.

Lemma links_ok_cons w ca ca' hub ch n ends a b pairs :
  linked w a b -> located w a (Z.of_nat n) (Z.of_nat (ca n)) -> located w b (Z.of_nat hub) (Z.of_nat ch) ->
  (forall m, m ∈ ends -> ca' m = ca m) -> links_ok w ca' hub (S ch) ends pairs ->
  links_ok w ca hub ch (n :: ends) ((a, b) :: pairs).
Proof using.
  intros Hl Ha Hb Hc [Hlen Hp]. split; [by simpl; rewrite Hlen|]. intros [|j] m a' b' Hm Hj; simpl in *.
  - simplify_eq. rewrite Nat.add_0_r. done.
  - destruct (Hp j m a' b' Hm Hj) as (? & ? & ?). rewrite <- Nat.add_succ_comm, <- Hc; [done|].
    by eapply list_elem_of_lookup_2.
Qed.

(** The counts after links between the nodes [ends] and the node [hub]. *)
Definition star (hub : nat) (ends : list nat) (cnt : nat -> nat) (n : nat) : nat :=
  if decide (n = hub) then cnt n + length ends else if decide (n ∈ ends) then S (cnt n) else cnt n.

Lemma star_cons hub n ends cnt m :
  n <> hub -> n ∉ ends -> star hub ends (bump hub (bump n cnt)) m = star hub (n :: ends) cnt m.
Proof using.
  intros Hn Hin. unfold star, bump. repeat case_decide; subst; simpl; try done; try lia; set_solver.
Qed.

Lemma spine_links_spec N hub ends : forall cnt t,
  topo_inv N cnt t -> (hub < N)%nat -> Forall (fun n => (n < N)%nat) ends -> NoDup ends -> hub ∉ ends ->
  Forall (fun n => Z.of_nat (cnt n) < 2 ^ 32) ends -> Z.of_nat (cnt hub + length ends) <= 2 ^ 32 ->
  exists row t', spine_links (Z.of_nat <$> ends) (Z.of_nat hub) t = Ok (row, t') /\
    topo_inv N (star hub ends cnt) t' /\ grows (t_world t) (t_world t') /\
    links_ok (t_world t') cnt hub (cnt hub) ends row.
Proof using.
  induction ends as [|n ends IH]; intros cnt t Hinv Hhub HN Hnd Hin Hcnt Hmax.
  { exists [], t. split; [done|]. split; [|split; [apply grows_refl|by split]].
    eapply topo_inv_ext; [|exact Hinv]. intros m _. unfold star. case_decide; simpl; [lia|done]. }
  apply Forall_cons in HN as [HnN HN]. apply NoDup_cons in Hnd as [Hn Hnd]. cbn [length] in Hmax.
  apply not_elem_of_cons in Hin as [Hne Hin]. apply Forall_cons in Hcnt as [Hcn Hcnt].
  destruct (Install_spec N cnt p2p_leaf_spine n hub t) as (a & b & t1 & E1 & Hinv1 & Hg1 & Hl1 & Ha & Hb);
    try done; try lia.
  assert (bump hub (bump n cnt) hub = S (cnt hub)) as Eh.
  { unfold bump. rewrite decide_True, decide_False by done. done. }
  assert (forall m, m ∈ ends -> bump hub (bump n cnt) m = cnt m) as Em.
  { intros m Hm. unfold bump. rewrite !decide_False; [done|set_solver..]. }
  destruct (IH (bump hub (bump n cnt)) t1) as (row & t2 & E2 & Hinv2 & Hg2 & Hrow); try done.
  { apply Forall_forall. intros m Hm. rewrite Em by done. by eapply Forall_forall in Hcnt. }
  { rewrite Eh. lia. }
  exists ((a, b) :: row), t2. cbn [fmap list_fmap spine_links].
  rewrite (run_bind _ _ _ _ _ E1), (run_bind _ _ _ _ _ E2). split; [done|].
  split; [eapply topo_inv_ext; [|exact Hinv2]; intros m _; by apply star_cons|].
  split; [by eapply grows_trans|]. rewrite Eh in Hrow.
  eapply links_ok_cons; [by eapply linked_grows|by eapply located_grows..|exact Em|done].
Qed.

(** The counts after links between every end and every hub. *)
Definition grid (hubs ends : list nat) (cnt : nat -> nat) (n : nat) : nat :=
  if decide (n ∈ hubs) then cnt n + length ends else if decide (n ∈ ends) then cnt n + length hubs else cnt n.

Lemma grid_cons hub hubs ends cnt m :
  hub ∉ hubs -> hub ∉ ends -> (forall x, x ∈ hubs -> x ∉ ends) ->
  grid hubs ends (star hub ends cnt) m = grid (hub :: hubs) ends cnt m.
Proof using.
  intros Hh He Hd. unfold grid, star. repeat case_decide; subst; simpl; try done; try lia; set_solver.
Qed.

Lemma all_spine_links_spec N ends hubs : forall cnt t,
  topo_inv N cnt t -> Forall (fun n => (n < N)%nat) hubs -> Forall (fun n => (n < N)%nat) ends ->
  NoDup hubs -> NoDup ends -> (forall x, x ∈ hubs -> x ∉ ends) ->
  Forall (fun n => Z.of_nat (cnt n + length hubs) <= 2 ^ 32) ends ->
  Forall (fun n => Z.of_nat (cnt n + length ends) <= 2 ^ 32) hubs ->
  exists rows t', all_spine_links (Z.of_nat <$> ends) (Z.of_nat <$> hubs) t = Ok (rows, t') /\
    topo_inv N (grid hubs ends cnt) t' /\ grows (t_world t) (t_world t') /\ length rows = length hubs /\
    forall i hub row, hubs !! i = Some hub -> rows !! i = Some row ->
      links_ok (t_world t') (fun n => cnt n + i)%nat hub (cnt hub) ends row.
Proof using.
  induction hubs as [|hub hubs IH]; intros cnt t Hinv HhN HeN Hh He Hd Hce Hch.
  { exists [], t. split; [done|]. split; [|split; [apply grows_refl|split; [done|by intros]]].
    eapply topo_inv_ext; [|exact Hinv]. intros m _. unfold grid. case_decide; [set_solver|].
    simpl. case_decide; lia. }
  apply Forall_cons in HhN as [HhubN HhN]. apply NoDup_cons in Hh as [Hhub Hh]. cbn [length] in Hce.
  apply Forall_cons in Hch as [Hchub Hch].
  assert (hub ∉ ends) as Hne by (apply Hd; set_solver).
  destruct (spine_links_spec N hub ends cnt t) as (row & t1 & E1 & Hinv1 & Hg1 & Hrow); try done.
  { eapply Forall_impl; [exact Hce|]. simpl. lia. }
  assert (forall m, m ∈ ends -> star hub ends cnt m = S (cnt m)) as Ee.
  { intros m Hm. unfold star. rewrite decide_False, decide_True by set_solver. done. }
  assert (forall m, m ∈ hubs -> star hub ends cnt m = cnt m) as Eh.
  { intros m Hm. unfold star. rewrite !decide_False; [done|set_solver..]. }
  destruct (IH (star hub ends cnt) t1) as (rows & t2 & E2 & Hinv2 & Hg2 & Hlen & Hrows); try done.
  { set_solver. }
  { apply Forall_forall. intros m Hm. rewrite Ee by done. eapply Forall_forall in Hce; [|done]. simpl in *. lia. }
  { apply Forall_forall. intros m Hm. rewrite Eh by done. by eapply Forall_forall in Hch. }
  exists (row :: rows), t2. cbn [fmap list_fmap all_spine_links].
  rewrite (run_bind _ _ _ _ _ E1), (run_bind _ _ _ _ _ E2). split; [done|].
  split; [eapply topo_inv_ext; [|exact Hinv2]; intros m _; apply grid_cons; set_solver|].
  split; [by eapply grows_trans|]. split; [by simpl; rewrite Hlen|].
  intros [|i] hub' row' Hi Hr; simpl in *; simplify_eq.
  - eapply links_ok_grows; [exact Hg2|]. destruct Hrow as [? Hrow]. split; [done|]. intros j n a b Hn Hj.
    rewrite Nat.add_0_r. by apply Hrow.
  - destruct (Hrows i hub' row' Hi Hr) as [? Hp]. split; [done|]. intros j n a b Hn Hj.
    destruct (Hp j n a b Hn Hj) as (? & Ha & Hb).
    rewrite Ee in Ha by (by eapply list_elem_of_lookup_2). rewrite Eh in Hb by (by eapply list_elem_of_lookup_2).
    by rewrite Nat.add_succ_comm in Ha.
Qed.

(** ** The links of the servers *)

Lemma server_links_spec N hub servers n : forall k cnt t ends,
  topo_inv N cnt t -> (hub < N)%nat -> Forall (fun n => (n < N)%nat) ends -> NoDup ends -> hub ∉ ends ->
  length ends = n -> (forall j m, ends !! j = Some m -> servers !! (k + j)%nat = Some m) ->
  Forall (fun n => Z.of_nat (cnt n) < 2 ^ 32) ends -> Z.of_nat (cnt hub + n) <= 2 ^ 32 ->
  Z.of_nat (k + n) < 2 ^ 32 ->
  exists row t', server_links n (Z.of_nat k) (Z.of_nat <$> servers) (Z.of_nat hub) t = Ok (row, t') /\
    topo_inv N (star hub ends cnt) t' /\ grows (t_world t) (t_world t') /\
    links_ok (t_world t') cnt hub (cnt hub) ends row.
Proof using.
  induction n as [|n IH]; intros k cnt t ends Hinv Hhub HN Hnd Hin Hlen Hget Hcnt Hmax Hk.
  { apply nil_length_inv in Hlen as ->.
    exists [], t. split; [done|]. split; [|split; [apply grows_refl|by split]].
    eapply topo_inv_ext; [|exact Hinv]. intros m _. unfold star. case_decide; simpl; [lia|done]. }
  destruct ends as [|s ends]; [done|]. injection Hlen as Hlen.
  apply Forall_cons in HN as [HnN HN]. apply NoDup_cons in Hnd as [Hn Hnd].
  apply not_elem_of_cons in Hin as [Hne Hin]. apply Forall_cons in Hcnt as [Hcn Hcnt].
  assert (Prelude.lift (Get (Z.of_nat k) (Z.of_nat <$> servers)) t = Ok (Z.of_nat s, t)) as Eg.
  { specialize (Hget 0%nat s eq_refl). rewrite Nat.add_0_r in Hget.
    unfold Prelude.lift, Get. by rewrite Nat2Z.id, list_lookup_fmap, Hget. }
  destruct (Install_spec N cnt p2p_server_leaf s hub t) as (a & b & t1 & E1 & Hinv1 & Hg1 & Hl1 & Ha & Hb);
    try done; try lia.
  assert (bump hub (bump s cnt) hub = S (cnt hub)) as Eh.
  { unfold bump. rewrite decide_True, decide_False by done. done. }
  assert (forall m, m ∈ ends -> bump hub (bump s cnt) m = cnt m) as Em.
  { intros m Hm. unfold bump. rewrite !decide_False; [done|set_solver..]. }
  destruct (IH (S k) (bump hub (bump s cnt)) t1 ends) as (row & t2 & E2 & Hinv2 & Hg2 & Hrow); try done; try lia.
  { intros j m Hj. rewrite Nat.add_succ_comm. by apply Hget. }
  { apply Forall_forall. intros m Hm. rewrite Em by done. by eapply Forall_forall in Hcnt. }
  exists ((a, b) :: row), t2. cbn [server_links].
  rewrite (run_bind _ _ _ _ _ Eg), (run_bind _ _ _ _ _ E1).
  replace (u32 (Z.of_nat k + 1)) with (Z.of_nat (S k)) by (rewrite wrap_small by (unfold in_range; lia); lia).
  rewrite (run_bind _ _ _ _ _ E2). split; [done|].
  split; [eapply topo_inv_ext; [|exact Hinv2]; intros m _; by apply star_cons|].
  split; [by eapply grows_trans|]. rewrite Eh in Hrow.
  eapply links_ok_cons; [by eapply linked_grows|by eapply located_grows..|exact Em|done].
Qed.

(** The servers of the [i]-th leaf. *)
Definition group (K i : nat) (servers : list nat) : list nat := take K (drop (i * K) servers).

Lemma group_lookup K i servers j m :
  group K i servers !! j = Some m -> servers !! (i * K + j)%nat = Some m /\ (j < K)%nat.
Proof using.
  unfold group. intros E. assert (j < K)%nat by (apply lookup_lt_Some in E; rewrite length_take in E; lia).
  rewrite lookup_take_lt, lookup_drop in E by done. done.
Qed.

Lemma all_server_links_spec N K servers leaves : forall i cnt t,
  topo_inv N cnt t -> Forall (fun n => (n < N)%nat) leaves -> Forall (fun n => (n < N)%nat) servers ->
  NoDup leaves -> NoDup servers -> (forall x, x ∈ leaves -> x ∉ servers) ->
  ((i + length leaves) * K <= length servers)%nat -> Z.of_nat (length servers) < 2 ^ 32 ->
  Z.of_nat (i + length leaves) < 2 ^ 32 ->
  Forall (fun n => Z.of_nat (cnt n + K) <= 2 ^ 32) leaves ->
  (forall x j, servers !! j = Some x -> (i * K <= j)%nat -> Z.of_nat (cnt x) < 2 ^ 32) ->
  exists pairs t', all_server_links K (Z.of_nat i) (Z.of_nat <$> servers) (Z.of_nat <$> leaves) t = Ok (pairs, t') /\
    (exists cnt', topo_inv N cnt' t') /\ grows (t_world t) (t_world t') /\
    length pairs = (length leaves * K)%nat /\
    forall k leaf, leaves !! k = Some leaf ->
      links_ok (t_world t') cnt leaf (cnt leaf) (group K (i + k) servers) (take K (drop (k * K) pairs)).
Proof using.
  induction leaves as [|leaf leaves IH]; intros i cnt t Hinv HlN HsN Hl Hs Hd Hlen H32 Hi32 Hcl Hcs.
  { exists [], t. split; [done|]. split; [by exists cnt|]. split; [apply grows_refl|]. by split. }
  apply Forall_cons in HlN as [HleafN HlN]. apply NoDup_cons in Hl as [Hleaf Hl].
  apply Forall_cons in Hcl as [Hcleaf Hcl]. cbn [length] in Hlen, Hi32.
  assert (length (group K i servers) = K) as Eg.
  { unfold group. rewrite length_take, length_drop. nia. }
  assert (forall m, m ∈ group K i servers -> m ∈ servers /\ Z.of_nat (cnt m) < 2 ^ 32) as Hgm.
  { intros m (j & Hj)%list_elem_of_lookup. apply group_lookup in Hj as [Hj _]. split.
    - by eapply list_elem_of_lookup_2.
    - eapply Hcs; [exact Hj|lia]. }
  destruct (server_links_spec N leaf servers K (i * K) cnt t (group K i servers))
    as (row & t1 & E1 & Hinv1 & Hg1 & Hrow); try done; try nia.
  { apply Forall_forall. intros m Hm. apply Hgm in Hm as [Hm _]. by eapply Forall_forall in HsN. }
  { unfold group. eapply sublist_NoDup; [|apply sublist_take]. eapply sublist_NoDup; [exact Hs|apply sublist_drop]. }
  { intros Hm. apply Hgm in Hm as [Hm _]. eapply Hd; [|exact Hm]. set_solver. }
  { intros j m Hj. by apply group_lookup in Hj as [Hj _]. }
  { apply Forall_forall. intros m Hm. by apply Hgm. }
  assert (forall m, m ∈ leaves -> star leaf (group K i servers) cnt m = cnt m) as El.
  { intros m Hm. unfold star. rewrite !decide_False; [done| |set_solver].
    intros Hg. apply Hgm in Hg as [Hg _]. eapply Hd; [|exact Hg]. set_solver. }
  assert (forall x j, servers !! j = Some x -> (S i * K <= j)%nat ->
    star leaf (group K i servers) cnt x = cnt x) as Es.
  { intros x j Hj Hle. unfold star. rewrite !decide_False; [done|..].
    - intros (j' & Hj')%list_elem_of_lookup. apply group_lookup in Hj' as [Hj' Hlt].
      assert (j = i * K + j')%nat by (by eapply NoDup_lookup). lia.
    - intros ->. apply (Hd leaf); [by left|]. by eapply list_elem_of_lookup_2. }
  destruct (IH (S i) (star leaf (group K i servers) cnt) t1) as (rest & t2 & E2 & Hinv2 & Hg2 & Hrl & Hrest);
    try done; try nia.
  { set_solver. }
  { apply Forall_forall. intros m Hm. rewrite El by done. by eapply Forall_forall in Hcl. }
  { intros x j Hj Hle. erewrite Es by done. eapply Hcs; [exact Hj|lia]. }
  exists (row ++ rest), t2. cbn [fmap list_fmap all_server_links].
  replace (u32 (Z.of_nat i * Z.of_nat K)) with (Z.of_nat (i * K))
    by (rewrite wrap_small by (unfold in_range; nia); lia).
  replace (u32 (Z.of_nat i + 1)) with (Z.of_nat (S i)) by (rewrite wrap_small by (unfold in_range; lia); lia).
  rewrite (run_bind _ _ _ _ _ E1), (run_bind _ _ _ _ _ E2). split; [done|]. split; [done|].
  split; [by eapply grows_trans|]. pose proof (proj1 Hrow) as Erow. rewrite Eg in Erow.
  split; [rewrite length_app, Hrl, Erow; simpl; lia|].
  intros [|k] leaf' Hk; simpl in Hk.
  - injection Hk as <-. rewrite Nat.add_0_r. simpl. rewrite drop_0, take_app_le, take_ge by lia.
    by eapply links_ok_grows.
  - rewrite <- Nat.add_succ_comm. simpl. rewrite drop_app_ge by lia.
    replace (K + k * K - length row)%nat with (k * K)%nat by lia.
    destruct (Hrest k leaf' Hk) as [? Hp]. split; [done|]. intros j n a b Hn Hj.
    destruct (Hp j n a b Hn Hj) as (? & Ha & Hb). rewrite El in Hb by (by eapply list_elem_of_lookup_2).
    apply group_lookup in Hn as [Hn _]. by erewrite Es in Ha by (eassumption || lia).
Qed.

End links.

(** ** Loopback devices *)

Lemma loopback_spec los N cnt n t :
  topo_inv_ los N cnt t -> (n < N)%nat -> cnt n = 0%nat ->
  exists d t', loopback (Z.of_nat n) t = Ok (d, t') /\ topo_inv_ (los ++ [d]) N (bump n cnt) t' /\ d ∉ los.
Proof using.
  intros [Hlen Hnd Hdev Hch Hf Hlos Hlo Hli] Hn Hc. destruct (lookup_lt_is_Some_2 (t_nodes t) n ltac:(lia)) as [nd En].
  destruct (Hnd _ _ En) as [Ei Ec]. rewrite Hc in Ec. apply nil_length_inv in Ec.
  unfold loopback. rewrite (run_bind _ _ _ nd t); cycle 1.
  { unfold mbind, st_bind, gets. simpl. rewrite Nat2Z.id, En. done. }
  run. rewrite Ec. cbn [List.find]. rewrite (run_bind create_loopback _ t _ _ eq_refl).
  match goal with |- context [(node_AddDevice _ _ ≫= _) ?x] =>
    destruct (node_AddDevice_spec n nd (Z.of_nat (t_nextDevice t)) x En) as (t' & E & Hadd) end.
  rewrite (run_bind _ _ _ _ _ E). destruct Hadd as [E1 E2 E3 E4 E5 E6 E7 E8]. simpl in *.
  pose proof (fresh_lookup _ _ _ Hdev (Nat.le_refl _)) as Hd0. rewrite Nat2Z.id in E1.
  assert (forall f, alter f (t_nextDevice t) (w_devs (t_world t)) = w_devs (t_world t)) as Ealt.
  { intros f. apply alter_id. intros x Hx. by rewrite Hd0 in Hx. }
  rewrite !Ealt in E1.
  eexists _, t'. split; [done|]. split; cycle 1.
  { intros Hin. eapply Forall_forall in Hlo; [|exact Hin]. lia. }
  destruct (bump_nodes N cnt (t_nodes t) n nd (Z.of_nat (t_nextDevice t)) Hnd Hlen En) as [Hl Hn'].
  assert (t_world t' = t_world t) as Ew.
  { clear - E1 E2 E3 E4. destruct (t_world t'), (t_world t). simpl in *. by subst. }
  constructor; rewrite ?E5, ?E6, ?E7, ?Ew; try done.
  - intros x Hx. specialize (Hdev x Hx). lia.
  - by rewrite E8, Hlos.
  - apply Forall_app. split; [eapply Forall_impl; [exact Hlo|]; simpl; intros x [? ?]; split; [lia|done]|].
    constructor; [|done]. rewrite Nat2Z.id. split; [lia|done].
  - eapply listing_add; [exact Hli|done|done|by left].
Qed.

Definition bump_all (l : list nat) (cnt : nat -> nat) (n : nat) : nat :=
  if decide (n ∈ l) then S (cnt n) else cnt n.

Lemma loopbacks_spec N l : forall los cnt t,
  topo_inv_ los N cnt t -> Forall (fun n => (n < N)%nat) l -> NoDup l -> Forall (fun n => cnt n = 0%nat) l ->
  exists t', each (fun n => _ ← loopback n; mret tt) (Z.of_nat <$> l) t = Ok (tt, t') /\
    exists los', topo_inv_ los' N (bump_all l cnt) t'.
Proof using.
  induction l as [|n l IH]; intros los cnt t Hinv HN Hnd Hc.
  { exists t. split; [done|]. exists los. by eapply topo_inv_ext; [|exact Hinv]. }
  apply Forall_cons in HN as [HnN HN]. apply NoDup_cons in Hnd as [Hn Hnd]. apply Forall_cons in Hc as [Hcn Hc].
  destruct (loopback_spec los N cnt n t Hinv HnN Hcn) as (d & t1 & E1 & Hinv1 & _).
  destruct (IH (los ++ [d]) (bump n cnt) t1) as (t2 & E2 & los2 & Hinv2); try done.
  { apply Forall_forall. intros m Hm. unfold bump. rewrite decide_False by set_solver.
    by eapply Forall_forall in Hc. }
  exists t2. cbn [fmap list_fmap each].
  rewrite (run_bind _ _ t tt t1) by (by rewrite (run_bind _ _ _ _ _ E1)). split; [done|].
  exists los2. eapply topo_inv_ext; [|exact Hinv2]. intros m _. unfold bump_all, bump.
  repeat case_decide; subst; try done; set_solver.
Qed.

(** ** The whole construction *)

(** The store when there are nodes only. *)
Definition nodes_topo (l : list node) : topo EM := set_nodes l empty_topo.

Lemma create_nodes_spec n type l :
  Z.of_nat (length l + n) < 2 ^ 32 ->
  create_nodes n type (nodes_topo l) =
  Ok (Z.of_nat <$> seq (length l) n, nodes_topo (l ++ typed_nodes type (length l) n)).
Proof using. intros Hn. unfold create_nodes, CreateTyped. cbn [nodes_topo t_nodes set_nodes]. by rewrite create_typed_spec. Qed.

Lemma length_typed type from n : length (typed_nodes type from n) = n.
Proof using. unfold typed_nodes. by rewrite length_fmap, length_seq. Qed.

Lemma typed_nodes_lookup type from n k nd :
  Z.of_nat (from + n) < 2 ^ 32 -> typed_nodes type from n !! k = Some nd ->
  Node.m_id nd = Z.of_nat (from + k) /\ m_devices nd = [] /\ m_sid nd = 0.
Proof using.
  unfold typed_nodes. intros Hn. rewrite list_lookup_fmap_Some. intros (i & -> & Hi%lookup_seq). simpl.
  split; [|done]. destruct Hi as [-> ?]. apply wrap_small. unfold in_range. lia.
Qed.

(** The nodes after the three calls of [Create], and after the loopbacks. *)
Lemma created_spec (S L K : nat) :
  Z.of_nat (S + L + K * L) < 2 ^ 32 ->
  exists t1 t2 t3, create_nodes S SPINE (empty_topo (EM := EM)) = Ok (Z.of_nat <$> seq 0 S, t1) /\
    create_nodes L LEAF t1 = Ok (Z.of_nat <$> seq S L, t2) /\
    create_nodes (Z.to_nat (u32 (Z.of_nat K * Z.of_nat L))) SERVER t2 = Ok (Z.of_nat <$> seq (S + L) (K * L), t3) /\
    topo_inv_ [] (S + L + K * L) (fun _ => 0%nat) t3.
Proof using.
  intros HN. change empty_topo with (nodes_topo []).
  set (l1 := typed_nodes SPINE 0 S). set (l2 := l1 ++ typed_nodes LEAF S L).
  set (l3 := l2 ++ typed_nodes SERVER (S + L) (K * L)).
  assert (length l1 = S) as E1 by apply length_typed.
  assert (length l2 = S + L)%nat as E2 by (unfold l2; by rewrite length_app, E1, length_typed).
  assert (length l3 = S + L + K * L)%nat as E3 by (unfold l3; by rewrite length_app, E2, length_typed).
  exists (nodes_topo l1), (nodes_topo l2), (nodes_topo l3). split_and!.
  - by rewrite (create_nodes_spec S SPINE []) by (simpl; lia).
  - by rewrite (create_nodes_spec L LEAF l1), E1 by lia.
  - rewrite wrap_small by (unfold in_range; lia). rewrite <- Nat2Z.inj_mul, Nat2Z.id.
    by rewrite (create_nodes_spec (K * L) SERVER l2), E2 by lia.
  - assert (forall n nd, l3 !! n = Some nd -> Node.m_id nd = Z.of_nat n /\ m_devices nd = [] /\ m_sid nd = 0) as Hnodes.
    { intros n nd. unfold l3. rewrite lookup_app_Some, E2. unfold l2. rewrite lookup_app_Some, E1.
      intros [[Hn|[Hge Hn]]|[Hge Hn]]; apply typed_nodes_lookup in Hn as (-> & -> & ->); try lia; split; lia || done. }
    constructor; try done; try (by intros x [y Hy]).
    + intros n nd Hn. destruct (Hnodes n nd Hn) as (-> & -> & _). done.
    + split; [|..|done].
      * intros n nd d Hn. destruct (Hnodes n nd Hn) as (_ & -> & _). by intros ?%elem_of_nil.
      * intros n n' nd nd' d Hn _. destruct (Hnodes n nd Hn) as (_ & -> & _). by intros ?%elem_of_nil.
      * intros n nd Hn. apply (Hnodes n nd Hn).
Qed.

Lemma nodes_spec (S L K : nat) :
  Z.of_nat (S + L + K * L) < 2 ^ 32 ->
  exists t, install_nodes S L K (empty_topo (EM := EM)) =
    Ok ((Z.of_nat <$> seq 0 S, Z.of_nat <$> seq S L, Z.of_nat <$> seq (S + L) (K * L)), t) /\
    exists los, topo_inv_ los (S + L + K * L) (fun _ => 1%nat) t.
Proof using.
  intros HN. unfold install_nodes. destruct (created_spec S L K HN) as (t1 & t2 & t3 & E1 & E2 & E3 & Hinv).
  rewrite (run_bind _ _ _ _ _ E1), (run_bind _ _ _ _ _ E2), (run_bind _ _ _ _ _ E3). clear t1 t2 E1 E2 E3.
  assert (forall from n, (from + n <= S + L + K * L)%nat -> Forall (fun n => (n < S + L + K * L)%nat) (seq from n)) as HF.
  { intros from n Hle. apply Forall_forall. intros x Hx%elem_of_seq. lia. }
  destruct (loopbacks_spec (S + L + K * L) (seq S L) _ _ _ Hinv) as (u1 & R1 & los1 & Hinv1);
    [apply HF; lia|apply NoDup_seq|by apply Forall_true|].
  destruct (loopbacks_spec (S + L + K * L) (seq 0 S) _ _ _ Hinv1) as (u2 & R2 & los2 & Hinv2);
    [apply HF; lia|apply NoDup_seq| |].
  { apply Forall_forall. intros x Hx%elem_of_seq. unfold bump_all. rewrite decide_False; [done|].
    rewrite elem_of_seq. lia. }
  destruct (loopbacks_spec (S + L + K * L) (seq (S + L) (K * L)) _ _ _ Hinv2) as (u3 & R3 & los3 & Hinv3);
    [apply HF; lia|apply NoDup_seq| |].
  { apply Forall_forall. intros x Hx%elem_of_seq. unfold bump_all. rewrite !decide_False; [done|..];
      rewrite elem_of_seq; lia. }
  rewrite (run_bind _ _ _ _ _ R1), (run_bind _ _ _ _ _ R2), (run_bind _ _ _ _ _ R3).
  exists u3. split; [done|]. exists los3. eapply topo_inv_ext; [|exact Hinv3]. intros n Hn. unfold bump_all.
  repeat case_decide; rewrite ?elem_of_seq in *; lia.
Qed.

(** Where the ends of a link are. *)
Definition link_between w (a b : nat) (na ia nb ib : nat) : Prop :=
  linked w a b /\ located w a (Z.of_nat na) (Z.of_nat ia) /\ located w b (Z.of_nat nb) (Z.of_nat ib).

Lemma cell_fmap {A B} (f : A -> B) (rows : list (list A)) i j x :
  cell i j rows = Some x -> cell i j (fmap (M := list) (fmap (M := list) f) rows) = Some (f x).
Proof using.
  unfold cell. destruct (rows !! i) as [row|] eqn:Hi; [|done]. intros Hj. rewrite list_lookup_fmap, Hi. simpl. by rewrite list_lookup_fmap, Hj.
Qed.

Definition sized_matrix {A} (r c : nat) (m : list (list A)) : Prop :=
  length m = r /\ Forall (fun row => length row = c) m.

Lemma sized_fmap {A B} (f : A -> B) r c (m : list (list A)) :
  sized_matrix r c m -> sized_matrix r c (fmap (M := list) (fmap (M := list) f) m).
Proof using.
  intros [Hr Hc]. split; [by rewrite length_fmap|]. apply Forall_fmap. eapply Forall_impl; [exact Hc|].
  simpl. intros row ?. by rewrite length_fmap.
Qed.

Lemma join_sized {A} c (m : list (list A)) : forall r, sized_matrix r c m ->
  length (mjoin m) = (r * c)%nat /\
  forall i j x, (j < c)%nat -> cell i j m = Some x -> mjoin m !! (i * c + j)%nat = Some x.
Proof using.
  induction m as [|row m IH]; intros r [<- Hc].
  - split; [done|]. intros i j x _ E. unfold cell in E. by destruct i.
  - apply Forall_cons in Hc as [Hrow Hc]. destruct (IH _ (conj eq_refl Hc)) as [Hl Hget].
    change (mjoin (row :: m)) with (row ++ mjoin m). split; [rewrite length_app, Hl; simpl; lia|].
    intros [|i] j x Hj E; unfold cell in E; simpl in E.
    + rewrite lookup_app_l by (simpl; lia). done.
    + rewrite lookup_app_r by (simpl; lia). replace (S i * c + j - length row)%nat with (i * c + j)%nat by (simpl; lia).
      by apply Hget.
Qed.

(** What the containers say once the links are made. *)
Record connected (S L K : nat) (b : built) w : Prop := {
  cn_leaf : b_leaf b = Z.of_nat <$> seq S L;
  cn_ls : sized_matrix S L (p2pLeavesSpinesNetdevs b);
  cn_sl : sized_matrix S L (p2pSpinesLeavesNetdevs b);
  cn_spine i l : (i < S)%nat -> (l < L)%nat -> exists dl ds,
    cell i l (p2pLeavesSpinesNetdevs b) = Some dl /\ cell i l (p2pSpinesLeavesNetdevs b) = Some ds /\
    leaf_spine_netDevContainer b !! (i * L + l)%nat = Some (dl, ds) /\
    link_between w dl ds (S + l) (1 + i) i (1 + l);
  cn_links : length (leaf_spine_netDevContainer b) = (S * L)%nat /\
    length (server_leaf_netDevContainer b) = (K * L)%nat;
  cn_server l k : (l < L)%nat -> (k < K)%nat -> exists dv dl,
    server_leaf_netDevContainer b !! (l * K + k)%nat = Some (dv, dl) /\
    link_between w dv dl (S + L + (l * K + k)) 1 (S + l) (1 + S + k) }.

Lemma connect_spec los (S L K : nat) t0 :
  Z.of_nat (S + L + K * L) < 2 ^ 32 -> topo_inv_ los (S + L + K * L) (fun _ => 1%nat) t0 ->
  exists b t, connect K (Z.of_nat <$> seq 0 S, Z.of_nat <$> seq S L, Z.of_nat <$> seq (S + L) (K * L)) t0 = Ok (b, t) /\
    (exists cnt, topo_inv_ los (S + L + K * L) cnt t) /\ fresh_world 1502 (t_world t) /\ connected S L K b (t_world t).
Proof using.
  intros HN Hinv0. unfold connect.
  assert (forall from n, (from + n <= S + L + K * L)%nat -> Forall (fun n => (n < S + L + K * L)%nat) (seq from n)) as HF.
  { intros from n Hle. apply Forall_forall. intros x Hx%elem_of_seq. lia. }
  destruct (all_spine_links_spec los (S + L + K * L) (seq S L) (seq 0 S) _ t0 Hinv0)
    as (rows & t1 & E1 & Hinv1 & Hg1 & Hlr & Hrows); try apply NoDup_seq; try (apply HF; lia).
  { intros x Hx%elem_of_seq. rewrite elem_of_seq. lia. }
  { apply Forall_forall. intros x _. rewrite length_seq. lia. }
  { apply Forall_forall. intros x _. rewrite length_seq. lia. }
  rewrite (run_bind _ _ _ _ _ E1).
  set (cnt1 := grid (seq 0 S) (seq S L) (fun _ => 1%nat)) in Hinv1.
  assert (forall l, (l < L)%nat -> cnt1 (S + l)%nat = (1 + S)%nat) as Hc1.
  { intros l Hl. unfold cnt1, grid. rewrite decide_False, decide_True by (rewrite elem_of_seq; lia).
    by rewrite length_seq. }
  assert (forall x, (S + L <= x)%nat -> cnt1 x = 1%nat) as Hc2.
  { intros x Hx. unfold cnt1, grid. rewrite !decide_False by (rewrite elem_of_seq; lia). done. }
  destruct (all_server_links_spec los (S + L + K * L) K (seq (S + L) (K * L)) (seq S L) 0 cnt1 t1 Hinv1)
    as (pairs & t2 & E2 & (cnt2 & Hinv2) & Hg2 & Hlp & Hpairs); try apply NoDup_seq; try (apply HF; lia).
  { intros x Hx%elem_of_seq. rewrite elem_of_seq. lia. }
  { rewrite !length_seq. lia. }
  { rewrite length_seq. lia. }
  { rewrite length_seq. lia. }
  { apply Forall_forall. intros x Hx%elem_of_seq. replace x with (S + (x - S))%nat by lia. rewrite Hc1 by lia. nia. }
  { intros x j [-> Hj]%lookup_seq _. rewrite Hc2 by lia. lia. }
  assert (sized_matrix S L rows) as Hrsz.
  { split; [by rewrite Hlr, length_seq|]. apply Forall_lookup. intros i row Hrow.
    pose proof (lookup_lt_Some _ _ _ Hrow) as Hi. rewrite Hlr, length_seq in Hi.
    destruct (Hrows i i row) as [Hlen _]; [by rewrite lookup_seq_lt|done|]. by rewrite Hlen, length_seq. }
  rewrite (run_bind _ _ _ _ _ E2). eexists _, t2. split; [done|]. split; [by exists cnt2|]. split; [apply Hinv2|].
  destruct (join_sized L rows S Hrsz) as [Hjl Hjget].
  constructor; simpl; [done|by apply (sized_fmap fst)|by apply (sized_fmap snd)| |split; [done|]|].
  - intros i l Hi Hl.
    destruct (lookup_lt_is_Some_2 rows i) as [row Hrow]; [by rewrite Hlr, length_seq|].
    assert (seq 0 S !! i = Some i) as Hsi by (by rewrite lookup_seq_lt).
    assert (seq S L !! l = Some (S + l)%nat) as Hsl by (by rewrite lookup_seq_lt).
    destruct (Hrows i i row Hsi Hrow) as [Hlen Hrow'].
    destruct (lookup_lt_is_Some_2 row l) as [[a b] Hab]; [by rewrite Hlen, length_seq|].
    destruct (Hrow' l (S + l)%nat a b Hsl Hab) as (H1 & H2 & H3).
    assert (cell i l rows = Some (a, b)) as Eab by (unfold cell; by rewrite Hrow).
    exists a, b. split; [by apply (cell_fmap fst) in Eab|]. split; [by apply (cell_fmap snd) in Eab|].
    split; [by apply Hjget|]. split_and!; [by eapply linked_grows|by eapply located_grows..].
  - rewrite Hlp, length_seq. lia.
  - intros l k Hl Hk.
    assert (seq S L !! l = Some (S + l)%nat) as Hsl by (by rewrite lookup_seq_lt).
    destruct (Hpairs l (S + l)%nat Hsl) as [Hlen Hp].
    assert (group K l (seq (S + L) (K * L)) !! k = Some (S + L + (l * K + k))%nat) as Hg.
    { unfold group. rewrite lookup_take_lt, lookup_drop, lookup_seq_lt by nia. done. }
    destruct (lookup_lt_is_Some_2 (take K (drop (l * K) pairs)) k) as [[a b] Hab].
    { rewrite Hlen. by eapply lookup_lt_Some. }
    destruct (Hp k _ a b Hg Hab) as (H1 & H2 & H3).
    rewrite lookup_take_lt, lookup_drop in Hab by done. exists a, b. split; [done|].
    rewrite Hc2 in H2 by lia. rewrite Hc1 in H3 by done. done.
Qed.

Lemma build_links_spec (S L K : nat) :
  Z.of_nat (S + L + K * L) < 2 ^ 32 ->
  exists b t, build_links S L K (empty_topo (EM := EM)) = Ok (b, t) /\ fresh_world 1502 (t_world t) /\
    connected S L K b (t_world t).
Proof using.
  intros HN. destruct (nodes_spec S L K HN) as (t0 & E0 & los & Hinv0). unfold build_links.
  rewrite (run_bind _ _ _ _ _ E0). destruct (connect_spec los S L K t0 HN Hinv0) as (b & t & E & _ & Hb). by exists b, t.
Qed.
End spec.

(** * The spine/leaf network: the claims *)

(** For any numbers of spines, leaves and servers whose nodes fit 32 bits,
    [BuildTopology] wires the network without failing: the link of leaf [l] to
    spine [i] is device [1 + i] of node [S + l] and device [1 + l] of node [i]
    and is found under [i][l] in both static vectors; server [k] of leaf [l] has
    its device 1 linked to device [1 + S + k] of the leaf.  The links then carry
    any sequence of sends and events without failing an assertion, keeping the
    link invariant. *)
Theorem topology_wired {EM} `{ErrorModel EM} (S L K : nat) :
  Z.of_nat (S + L + K * L) < 2 ^ 32 ->
  exists b t, build_links S L K (empty_topo (EM := EM)) = Ok (b, t) /\
    (forall i l, (i < S)%nat -> (l < L)%nat -> exists dl ds,
       cell i l (p2pLeavesSpinesNetdevs b) = Some dl /\ cell i l (p2pSpinesLeavesNetdevs b) = Some ds /\
       link_between (t_world t) dl ds (S + l) (1 + i) i (1 + l)) /\
    (forall l k, (l < L)%nat -> (k < K)%nat -> exists dv dl,
       server_leaf_netDevContainer b !! (l * K + k)%nat = Some (dv, dl) /\
       link_between (t_world t) dv dl (S + L + (l * K + k)) 1 (S + l) (1 + S + k)) /\
    (forall ins, Forall (allowed 1502 (w_devs (t_world t))) ins ->
       exists os w', steps ins (t_world t) = Ok (os, w') /\ world_inv 1502 w').
Proof.
  intros HN. destruct (build_links_spec (EM := EM) S L K HN) as (b & t & E & Hfresh & [_ _ _ Hsp _ Hsv]).
  exists b, t. split; [done|].
  split. { intros i l Hi Hl. destruct (Hsp i l Hi Hl) as (dl & ds & ? & ? & _ & ?). by exists dl, ds. } split; [done|]. intros ins Hins.
  destruct (steps_ok 1502 ins (t_world t)) as (os & w' & Es & Hw' & _); [lia|by apply fresh_inv|done|].
  by exists os, w'.
Qed.

#[local] Instance no_errors : ErrorModel unit := fun s _ => (false, s).

(** The default network: two spines, four leaves, one server for each leaf. *)
Lemma topology_wired_witness :
  exists b t, build_links 2 4 1 (empty_topo (EM := unit)) = Ok (b, t) /\
    (forall i l, (i < 2)%nat -> (l < 4)%nat -> exists dl ds,
       cell i l (p2pLeavesSpinesNetdevs b) = Some dl /\ cell i l (p2pSpinesLeavesNetdevs b) = Some ds /\
       link_between (t_world t) dl ds (2 + l) (1 + i) i (1 + l)) /\
    (forall l k, (l < 4)%nat -> (k < 1)%nat -> exists dv dl,
       server_leaf_netDevContainer b !! (l * 1 + k)%nat = Some (dv, dl) /\
       link_between (t_world t) dv dl (2 + 4 + (l * 1 + k)) 1 (2 + l) (1 + 2 + k)) /\
    (forall ins, Forall (allowed 1502 (w_devs (t_world t))) ins ->
       exists os w', steps ins (t_world t) = Ok (os, w') /\ world_inv 1502 w').
Proof. apply (topology_wired 2 4 1). lia. Defined.
