(* ===== verification/InternetStack.v ===== *)
(** * Installing the IPv4 stacks and addressing the links
      ([src/internet/helper/internet-stack-helper.cc], [ipv4-list-routing-helper.cc],
      [ipv4-global-routing-helper.cc],
      [ipv4-address-helper.cc], [scratch/loadbalancer/topology-builder.h])

    [site] is the program while [BuildTopology] runs: the nodes, devices and
    links of [Topology], the IPv4 stack and the global router aggregated to each
    node, the address helper and the address generator, and the next identifier
    of a router.  The IPv6 half of the stack and the packet
    socket factory do not touch this state; [PopulateRoutingTables] comes after. *)

From S2P Require Import Prelude Bytes Packet Ipv4Ifaces Routing RlRouting.
From S2P Require Ipv4Address AddressGenerator AddressHelper.
From S2P Require StaticRouting GlobalRouting GlobalRouter ListRouting PointToPoint.
From S2P Require Import Ipv4L3Protocol Node Topology.
Import PointToPoint (ErrorModel, w_devs).
Import AddressHelper (Ipv4AddressHelper).
Import ListRouting (Ipv4ListRouting).

(** ** Routing helpers *)

(** [Ipv4ListRoutingHelper::Create] for the protocols that the helpers of its
    list create, and the protocol that [rl_enable] adds. *)
Fixpoint list_Create {RP} `{RoutingProtocol RP} (ipv4 : Ipv4) (l : list (RP * Z)) (s : Ipv4ListRouting RP) :
    res (Ipv4ListRouting RP) :=
  match l with
  | [] => mret s
  | (rp, prio) :: r => s' ← ListRouting.AddRoutingProtocol ipv4 rp prio s; list_Create ipv4 r s'
  end.

Section routing.
Context {R W : Type} `{GlobalRouting.UniformRandom R} `{DeviceIds} (now : Z).
#[local] Instance protocols_of_a_node : RoutingProtocol (protocol R W) := leaf_protocol now.

(** [InternetStackHelper::Initialize]: static routing with priority 1, global routing with -10. *)
Definition default_routing (rand : R) : list (protocol R W * Z) :=
  [(PStatic StaticRouting.new_static, 1); (PGlobal (GlobalRouting.new_global rand), -10)].

Definition create_routing (rl_enable : bool) (rand : R) (ipv4 : Ipv4) : res (Ipv4ListRouting (protocol R W)) :=
  l ← list_Create ipv4 (default_routing rand) ListRouting.new_list;
  if rl_enable then ListRouting.AddRoutingProtocol ipv4 (PRl new_rl) 10 l else mret l.
End routing.

(** ** Stacks *)

(** The devices of the network as IPv4 sees them: those that are not
    point-to-point devices are the loopback devices. *)
Definition devices_of {EM} `{ErrorModel EM} (t : topo EM) : NetDevices := {|
  dev_GetMtu d := match w_devs (t_world t) !! Z.to_nat d with Some x => PointToPoint.GetMtu x | None => 0xffff end;
  dev_NeedsArp d := match w_devs (t_world t) !! Z.to_nat d with Some x => PointToPoint.NeedsArp x | None => false end;
  dev_IsLoopback d := bool_decide (d ∈ t_loopbacks t);
  dev_IsMulticast d :=
    match w_devs (t_world t) !! Z.to_nat d with Some x => PointToPoint.IsMulticast x | None => false end;
  dev_GetBroadcast d :=
    match w_devs (t_world t) !! Z.to_nat d with Some x => PointToPoint.GetBroadcast x | None => 0 end;
  dev_GetMulticast d g :=
    match w_devs (t_world t) !! Z.to_nat d with
    | Some x => PointToPoint.GetMulticast x
    | None => Z.lor 0x01005e000000 (Z.land g 0x7fffff)
    end |}.

Section stack.
Context {EM R W P : Type} `{ErrorModel EM} `{GlobalRouting.UniformRandom R} `{DeviceIds} `{IpL4Protocol P}.
(** The generators of the routing protocols, the handles of ICMP, UDP and TCP
    and their state, the caches that ARP makes. *)
Variables (rand : Z -> R) (icmp udp tcp : Z) (l4 : P) (CreateCache : Z -> Z).
#[local] Instance node_protocols : RoutingProtocol (protocol R W) := leaf_protocol 0.
Abbreviation RP := (Ipv4ListRouting (protocol R W)).
#[local] Instance node_routing : RoutingProtocol RP := ListRouting.list_protocol.

Record site := mkSite {
  s_topo : topo EM;
  s_stacks : gmap Z (l3 RP P);
  s_routers : gmap Z (GlobalRouter.GlobalRouter R);
  s_routerId : Z;                (* the static counter of [GlobalRouteManager::AllocateRouterId] *)
  s_helper : Ipv4AddressHelper;
  s_gen : AddressGenerator.Generator }.
Abbreviation M := (st site).

Definition set_topo (t : topo EM) (s : site) : site := 
  mkSite t (s_stacks s) (s_routers s) (s_routerId s) (s_helper s) (s_gen s).
Definition set_stack (n : Z) (x : l3 RP P) (s : site) : site :=
  mkSite (s_topo s) (<[n := x]> (s_stacks s)) (s_routers s) (s_routerId s) (s_helper s) (s_gen s).
Definition set_helper (h : Ipv4AddressHelper) (s : site) : site :=
  mkSite (s_topo s) (s_stacks s) (s_routers s) (s_routerId s) h (s_gen s).
Definition set_gen (g : AddressGenerator.Generator) (s : site) : site :=
  mkSite (s_topo s) (s_stacks s) (s_routers s) (s_routerId s) (s_helper s) g.

Definition on_topo {A} (m : st (topo EM) A) : M A := fun s =>
  match m (s_topo s) with Ok (a, t) => Ok (a, set_topo t s) | Err f => Err f end.
(** Runs a method of the stack of a node. *)
Definition on_stack {A} (n : Z) (m : st (l3 RP P) A) : M A := fun s =>
  match s_stacks s !! n with
  | Some x => match m x with Ok (a, x') => Ok (a, set_stack n x' s) | Err f => Err f end
  | None => Err AssertFailed
  end.

(** What [Ipv4GlobalRoutingHelper::Create] aggregates to the node: a router, with
    the next identifier.  Its pointer to the routing protocol is the one that the
    list routing of the node holds. *)
Definition create_router (n : Z) (s : site) : site :=
  let '(id, next) := GlobalRouter.AllocateRouterId (s_routerId s) in
  mkSite (s_topo s) (s_stacks s) (<[n := GlobalRouter.new_router id]> (s_routers s)) next (s_helper s) (s_gen s).

(** What aggregating the protocols of [InternetStackHelper::Install] to a node
    does to its stack, in order. *)
Definition aggregate (devs : NetDevices) (rl_enable : bool) (n lo : Z) : st (l3 RP P) unit :=
  _ ← SetNode_ CreateCache n lo;
  _ ← Insert icmp;
  i ← ipv4;
  rp ← lift (create_routing 0 rl_enable (rand n) i);
  _ ← SetRoutingProtocol rp;
  _ ← Insert udp;
  Insert tcp.

Definition stack_Install (rl_enable : bool) (n : Z) : M unit :=
  old ← gets (fun s => s_stacks s !! n);
  match old with
  | Some _ => lift (Err FatalError)
  | None =>
      lo ← on_topo (loopback n);
      _ ← update (create_router n);
      t ← gets s_topo;
      '(_, x) ← lift (aggregate (devices_of t) rl_enable n lo (initial_l3 l4));
      update (set_stack n x)
  end.

(** ** Addresses *)

Definition NewAddress : M Z :=
  h ← gets s_helper;
  g ← gets s_gen;
  '(a, h', g') ← lift (AddressHelper.NewAddress h g);
  _ ← update (set_helper h');
  _ ← update (set_gen g');
  mret a.
Definition NewNetwork : M unit :=
  h ← gets s_helper; '(_, h') ← lift (AddressHelper.NewNetwork h); update (set_helper h').

Definition SetMetric (i metric : Z) : st (l3 RP P) unit :=
  s ← ipv4; s' ← lift (Ipv4Ifaces.SetMetric i metric s); update (set_ipv4 s').

(** The interface of the device, which is added when there is none. *)
Definition interface_of (devs : NetDevices) (device : Z) : st (l3 RP P) Z :=
  s ← ipv4;
  let i := GetInterfaceForDevice (Some device) s in
  i ← (if i =? -1 then AddInterface CreateCache device else mret i);
  _ ← lift (ns_assert (0 <=? i));
  mret i.
Definition configure (devs : NetDevices) (i address mask : Z) : st (l3 RP P) unit :=
  _ ← AddAddress i (new_address address mask);
  _ ← SetMetric i 1;
  SetUp i.

(** The body of the loop of [Ipv4AddressHelper::Assign]: a device and its node.
    The devices have no queue interface, so no queue disc is installed. *)
Definition assign_device (device : nat) : M (Z * Z) :=
  t ← gets s_topo;
  dev ← lift (deref (w_devs (t_world t) !! device));
  n ← lift (match PointToPoint.m_node dev with Some n => Ok n | None => Err AssertFailed end);
  i ← on_stack n (interface_of (devices_of t) (Z.of_nat device));
  a ← NewAddress;
  mask ← gets (fun s => AddressHelper.m_mask (s_helper s));
  _ ← on_stack n (configure (devices_of t) i a mask);
  mret (n, i).
(** Containers of two devices: the interface container they give. *)
Definition Assign (c : nat * nat) : M (list (Z * Z)) :=
  a ← assign_device c.1;
  b ← assign_device c.2;
  mret [a; b].

(** [for (uint16_t i = 0; i < c.size (); i++)]: each link gets a network. *)
Fixpoint assign_all (fuel : nat) (i : Z) (c : list (nat * nat)) : M (list (list (Z * Z))) :=
  if i <? Z.of_nat (length c) then
    match fuel with
    | O => lift (Err OutOfFuel)
    | S fuel =>
        link ← lift (deref (c !! Z.to_nat i));
        l ← Assign link;
        _ ← NewNetwork;
        ls ← assign_all fuel (u16 (i + 1)) c;
        mret (l :: ls)
    end
  else mret [].

(** ** [TopologyBuilder::BuildTopology] *)

(** "192.168.0.0", "255.255.255.0" *)
Definition BASE_NETWORK : Z := 0xc0a80000.
Definition BASE_NETWORK_MASK : Z := 0xffffff00.

Definition BuildTopology (spine_count leaf_count servers_count : nat) : M built :=
  spine ← on_topo (create_nodes spine_count SPINE);
  leaf ← on_topo (create_nodes leaf_count LEAF);
  servers ← on_topo (create_nodes (Z.to_nat (u32 (Z.of_nat servers_count * Z.of_nat leaf_count))) SERVER);
  _ ← each (stack_Install true) leaf;
  _ ← each (stack_Install false) spine;
  _ ← each (stack_Install false) servers;
  b ← on_topo (connect servers_count (spine, leaf, servers));
  h ← lift (AddressHelper.SetBase BASE_NETWORK BASE_NETWORK_MASK 1);
  _ ← update (set_helper h);
  _ ← assign_all (Z.to_nat 65536) 0 (server_leaf_netDevContainer b);
  _ ← assign_all (Z.to_nat 65536) 0 (leaf_spine_netDevContainer b);
  mret b.

(** The start of the program: the generator is the simulation's singleton. *)
Definition empty_site : site := mkSite empty_topo ∅ ∅ 0 AddressHelper.new_helper AddressGenerator.Reset.
End stack.
Arguments site EM R W P : clear implicits.
