(* ===== verification/InternetStackSpec.v ===== *)
(** * Properties of the addressed network

    [aggregate] leaves a stack with a loopback interface and the routing
    protocols its node should have ([good_stack]); [assign_device] adds one
    interface, up, with the next address and a route to its network
    ([configured]) and leaves the other interfaces as they were. *)

From S2P Require Import Prelude Bytes Packet Ipv4Ifaces Routing RlRouting.
From S2P Require Ipv4Address AddressGenerator AddressHelper StaticRouting GlobalRouting ListRouting.
From S2P Require Import Ipv4L3Protocol Node Topology TopologySpec InternetStack.
From S2P Require PointToPoint.
Import PointToPoint (ErrorModel, w_devs).
Import ListRouting (Ipv4ListRouting).
Import AddressHelper (at_address, extends).
Import AddressGenerator (wf_gen, allocated, m_entries).

Section routing.
Context {R W : Type} `{GlobalRouting.UniformRandom R} `{DeviceIds}.
#[local] Instance spec_protocols : RoutingProtocol (protocol R W) := leaf_protocol 0.
Abbreviation RP := (Ipv4ListRouting (protocol R W)).
#[local] Instance spec_routing : RoutingProtocol RP := ListRouting.list_protocol.
(** ** The protocols of a node *)

Inductive kind := KRl | KStatic | KGlobal.
Definition kind_of (p : protocol R W) : kind :=
  match p with PRl _ => KRl | PStatic _ => KStatic | PGlobal _ => KGlobal end.
Definition node_shape (rl : bool) : list (Z * kind) :=
  if rl then [(10, KRl); (1, KStatic); (-10, KGlobal)] else [(1, KStatic); (-10, KGlobal)].
Definition shape_of (l : RP) : list (Z * kind) :=
  (fun e => (e.1, kind_of e.2)) <$> ListRouting.m_routingProtocols l.

Definition routes_of (p : protocol R W) : list (Ipv4RoutingTableEntry * Z) :=
  match p with PStatic s => StaticRouting.m_networkRoutes s | _ => [] end.
(** Static routing knows the route. *)
Definition knows (r : Ipv4RoutingTableEntry * Z) (l : RP) : Prop :=
  exists e, e ∈ ListRouting.m_routingProtocols l /\ r ∈ routes_of e.2.

(** Global routing has no routes yet. *)
Definition clean_protocol (p : protocol R W) : Prop :=
  match p with PGlobal g => GlobalRouting.m_hostRoutes g = [] /\ GlobalRouting.m_networkRoutes g = [] | _ => True end.
Definition clean (l : RP) : Prop := Forall (fun e => clean_protocol e.2) (ListRouting.m_routingProtocols l).

(** [p'] is [p] with more routes, those of [Q] included if it is static routing. *)
Definition ext (Q : list (Ipv4RoutingTableEntry * Z)) (p p' : protocol R W) : Prop :=
  kind_of p' = kind_of p /\ (forall r, r ∈ routes_of p -> r ∈ routes_of p') /\
  (kind_of p = KStatic -> forall r, r ∈ Q -> r ∈ routes_of p') /\ (clean_protocol p -> clean_protocol p').
Definition ext_list Q (l l' : RP) : Prop :=
  Forall2 (fun e e' => e'.1 = e.1 /\ ext Q e.2 e'.2) (ListRouting.m_routingProtocols l)
    (ListRouting.m_routingProtocols l').

Lemma ext_refl p : ext [] p p.
Proof using. split_and!; [done..| |done]. intros _ r Hr. by apply elem_of_nil in Hr. Qed.

Lemma notify_ext Q f (l : RP) :
  (forall p, exists p', f p = Ok p' /\ ext Q p p') ->
  exists l', ListRouting.notify f l = Ok l' /\ ext_list Q l l'.
Proof using.
  intros Hf. unfold ListRouting.notify, ext_list.
  assert (forall ps, exists ps', ListRouting.notify_each f ps = Ok ps' /\
    Forall2 (fun e e' => e'.1 = e.1 /\ ext Q e.2 e'.2) ps ps') as Hps.
  { induction ps as [|[prio p] ps (ps' & E & IH)]; [by exists []|].
    destruct (Hf p) as (p' & Ep & Hp). exists ((prio, p') :: ps'). simpl. rewrite Ep. simpl. rewrite E.
    split; [done|]. by constructor. }
  destruct (Hps (ListRouting.m_routingProtocols l)) as (ps' & -> & Hl). eexists. split; [done|]. exact Hl.
Qed.

Lemma ext_list_shape Q l l' : ext_list Q l l' -> shape_of l' = shape_of l.
Proof using.
  unfold ext_list, shape_of. intros Hl. induction Hl as [|e e' l1 l2 [E [Ek _]] _ IH]; [done|]. csimpl.
  by rewrite E, Ek, IH.
Qed.
Lemma ext_list_clean Q l l' : ext_list Q l l' -> clean l -> clean l'.
Proof using.
  unfold ext_list, clean. intros Hl. induction Hl as [|e e' l1 l2 [_ (_ & _ & _ & Hc)] _ IH]; [done|].
  intros [? ?]%Forall_cons. constructor; auto.
Qed.
Lemma ext_list_knows Q l l' r : ext_list Q l l' -> knows r l -> knows r l'.
Proof using.
  intros Hl (e & He & Hr). unfold ext_list in Hl. apply list_elem_of_lookup in He as [i Hi].
  destruct (Forall2_lookup_l _ _ _ _ _ Hl Hi) as (e' & Hi' & _ & _ & Hmono & _). exists e'.
  split; [by eapply list_elem_of_lookup_2|auto].
Qed.
Lemma ext_list_new Q l l' prio r : ext_list Q l l' -> (prio, KStatic) ∈ shape_of l -> r ∈ Q -> knows r l'.
Proof using.
  intros Hl Hk Hr. unfold ext_list, shape_of in *. apply list_elem_of_fmap in Hk as (e & [= -> Ek] & He).
  apply list_elem_of_lookup in He as [i Hi].
  destruct (Forall2_lookup_l _ _ _ _ _ Hl Hi) as (e' & Hi' & _ & _ & _ & Hnew & _). exists e'.
  split; [by eapply list_elem_of_lookup_2|auto].
Qed.

Lemma add_route_spec r m s :
  (r, m) ∈ StaticRouting.m_networkRoutes (StaticRouting.add_route r m s) /\
  forall q, q ∈ StaticRouting.m_networkRoutes s -> q ∈ StaticRouting.m_networkRoutes (StaticRouting.add_route r m s).
Proof using.
  unfold StaticRouting.add_route. destruct (StaticRouting.LookupRoute r m s) eqn:E.
  - split; [|done]. unfold StaticRouting.LookupRoute in E. apply existsb_exists in E as ([r' m'] & Hin & E).
    apply list_elem_of_In in Hin. destruct r, r'. unfold GetDest, GetDestNetworkMask, GetGateway, GetInterface in E.
    simpl in *. bool_to_Z. destruct_and?. by subst.
  - simpl. split; [|intros q Hq]; rewrite elem_of_app; [right; by left|by left].
Qed.

(** The route to the network of address [a] on interface [i]. *)
Definition link_route (i a mask : Z) : Ipv4RoutingTableEntry * Z :=
  (CreateNetworkRouteOn (Ipv4Address.CombineMask a mask) mask i, 0).
Definition usable (a mask : Z) : Prop :=
  a <> UNINITIALIZED /\ mask <> UNINITIALIZED /\ mask <> Ipv4Address.mask_GetOnes.

Lemma clean_recompute now g : clean_protocol (PGlobal g) -> clean_protocol (PGlobal (GlobalRouting.recompute now g)).
Proof using. unfold GlobalRouting.recompute. by destruct (_ && _). Qed.

Lemma up_ext s i ifc a mask p :
  Ipv4Ifaces.GetInterface i s = Some ifc -> m_ifaddrs ifc = [new_address a mask] -> usable a mask ->
  exists p', rp_NotifyInterfaceUp s i p = Ok p' /\ ext [link_route i a mask] p p'.
Proof using.
  intros Hi Ha (H1 & H2 & H3). destruct p as [p|p|p]; simpl.
  - exists (PRl p). split; [done|]. by split_and!.
  - unfold StaticRouting.NotifyInterfaceUp. rewrite Hi. simpl. rewrite Ha. simpl.
    eexists. split; [done|]. unfold StaticRouting.up_address. simpl.
    rewrite (proj2 (Z.eqb_neq _ _) H1), (proj2 (Z.eqb_neq _ _) H2), (proj2 (Z.eqb_neq _ _) H3). simpl.
    unfold StaticRouting.AddNetworkRouteOn.
    destruct (add_route_spec (CreateNetworkRouteOn (Ipv4Address.CombineMask a mask) mask i) 0 p) as [Hin Hmono].
    split_and!; [done|done| |done]. intros _ r ->%list_elem_of_singleton. exact Hin.
  - eexists. split; [done|]. split_and!; [done..|apply clean_recompute].
Qed.

Lemma add_ext s i ifc a p :
  Ipv4Ifaces.GetInterface i s = Some ifc -> m_ifup ifc = false ->
  exists p', rp_NotifyAddAddress s i a p = Ok p' /\ ext [] p p'.
Proof using.
  intros Hi Hd. destruct p as [p|p|p]; simpl.
  - exists (PRl p). split; [done|apply ext_refl].
  - unfold StaticRouting.NotifyAddAddress, IsUp. rewrite Hi. simpl. unfold if_IsUp. rewrite Hd. simpl.
    exists (PStatic p). split; [done|apply ext_refl].
  - eexists. split; [done|]. split_and!; [done..| |apply clean_recompute]. intros _ r Hr. by apply elem_of_nil in Hr.
Qed.
End routing.

Section stack.
Context {EM R W P : Type} `{ErrorModel EM} `{GlobalRouting.UniformRandom R} `{DeviceIds} `{IpL4Protocol P}.
Variables (rand : Z -> R) (icmp udp tcp : Z) (l4 : P) (CreateCache : Z -> Z).
Abbreviation RP := (Ipv4ListRouting (protocol R W)).
#[local] Existing Instance node_protocols.
#[local] Existing Instance node_routing.
Implicit Types x y z : l3 RP P.

(** ** The stack of a node *)

Abbreviation rev x := (m_reverseInterfacesContainer (l3_ipv4 x)).

(** The loopback interface, and the interface that [AddInterface] makes. *)
Definition loopback_interface (n lo : Z) : Ipv4Interface :=
  mkIf true true 1 [new_address Ipv4Address.GetLoopback Ipv4Address.mask_GetLoopback] (Some n) (Some lo) false None.

(** The stack of node [n]: interface 0 is the loopback interface, every interface
    is registered under its device, and new interfaces will forward. *)
Record good_stack (rl : bool) (n : Z) x : Prop := {
  gs_wf : wf_ipv4 (l3_ipv4 x);
  gs_node : m_node x = Some n;
  gs_routing : exists rp, m_routingProtocol x = Some rp /\ shape_of rp = node_shape rl /\ clean rp;
  gs_forward : m_ipForward (l3_ipv4 x) = true;
  gs_weak : m_weakEsModel (l3_ipv4 x) = true;
  gs_lo : exists lo, m_interfaces (l3_ipv4 x) !! 0%nat = Some (loopback_interface n lo);
  gs_registered j ifc d : m_interfaces (l3_ipv4 x) !! j = Some ifc -> m_device ifc = Some d -> rev x !! d = Some (Z.of_nat j) }.

Lemma SetNode_eq (devs : NetDevices) n lo :
  dev_NeedsArp lo = false ->
  SetNode_ CreateCache n lo (initial_l3 (RP := RP) l4) =
  Ok (tt, set_ipv4 (mkIpv4 [loopback_interface n lo] {[lo := 0]} true true)
            (add_log (RegisterHandlers lo) (set_node (Some n) (initial_l3 l4)))).
Proof using.
  intros Hlo. unfold SetNode_, SetupLoopback, SetNode, SetDevice, DoSetup, mbind, st_bind. cbn. rewrite Hlo.
  reflexivity.
Qed.

Lemma SetIpv4_eq rl n lo r i :
  m_interfaces i = [loopback_interface n lo] ->
  exists rp rp', create_routing (W := W) 0 rl r i = Ok rp /\ ListRouting.SetIpv4 i rp = Ok rp' /\
    shape_of rp' = node_shape rl /\ clean rp'.
Proof using.
  intros Hi. destruct i as [ifs rv fw weak]. simpl in Hi. subst.
  destruct rl; eexists _, _; (split; [reflexivity|]); (split; [reflexivity|]); (split; [reflexivity|]); by repeat constructor.
Qed.

Lemma aggregate_ok (devs : NetDevices) rl n lo :
  dev_NeedsArp lo = false ->
  exists x, aggregate (W := W) rand icmp udp tcp CreateCache devs rl n lo (initial_l3 l4) = Ok (tt, x) /\
    good_stack rl n x /\ (forall d i, rev x !! d = Some i -> d = lo /\ i = 0).
Proof using.
  intros Hlo. unfold aggregate. rewrite (run_bind _ _ _ _ _ (SetNode_eq devs n lo Hlo)).
  rewrite (run_bind _ _ _ _ _ eq_refl). unfold ipv4. rewrite run_gets.
  match goal with |- context [create_routing _ _ _ (l3_ipv4 ?y)] => set (s1 := y) end.
  destruct (SetIpv4_eq rl n lo (rand n) (l3_ipv4 s1) eq_refl) as (rp & rp' & E1 & E2 & Hs & Hcl). rewrite E1, run_lifted.
  rewrite (run_bind _ _ s1 tt (set_routing (Some rp') s1)).
  2: { unfold SetRoutingProtocol, ipv4. rewrite run_gets. change (rp_SetIpv4 (l3_ipv4 s1) rp) with (ListRouting.SetIpv4 (l3_ipv4 s1) rp).
       by rewrite E2. }
  eexists. split; [reflexivity|]. split; [split|]; simpl.
  - split; simpl.
    + intros i ifc [-> <-]%list_lookup_singleton_Some. by exists lo.
    + intros d k [<- <-]%lookup_singleton_Some. split; [done|]. by exists (loopback_interface n lo).
  - done.
  - by exists rp'.
  - done.
  - done.
  - by exists lo.
  - intros j ifc d [-> <-]%list_lookup_singleton_Some. simpl. intros [= <-]. by rewrite lookup_singleton_eq.
  - intros d i [<- <-]%lookup_singleton_Some. done.
Qed.

Lemma run_on_interface {A} i (f : Ipv4Interface -> res (A * Ipv4Interface)) a ifc ifc' x :
  Ipv4Ifaces.GetInterface i (l3_ipv4 x) = Some ifc -> f ifc = Ok (a, ifc') ->
  on_interface i f x = Ok (a, set_ipv4 (update_interface i ifc' (l3_ipv4 x)) x).
Proof using. intros Hi Hf. unfold on_interface, ipv4. run. rewrite Hi. cbn [deref]. run. rewrite Hf. by run. Qed.

Lemma run_notify (f : Ipv4 -> RP -> res RP) rp rp' x :
  m_routingProtocol x = Some rp -> f (l3_ipv4 x) rp = Ok rp' ->
  Ipv4L3Protocol.notify f x = Ok (tt, set_routing (Some rp') x).
Proof using. intros Hr Hf. unfold Ipv4L3Protocol.notify, ipv4. run. rewrite Hr. run. by rewrite Hf. Qed.

Lemma GetInterface_update i ifc ifc' s :
  Ipv4Ifaces.GetInterface i s = Some ifc -> Ipv4Ifaces.GetInterface i (update_interface i ifc' s) = Some ifc'.
Proof using.
  unfold Ipv4Ifaces.GetInterface. intros Hi. simpl. apply list_lookup_insert_eq. by eapply lookup_lt_Some.
Qed.

(** The interface of [device], as [AddInterface] makes it. *)
Definition fresh_interface (n d : Z) (fw : bool) : Ipv4Interface := mkIf false fw 1 [] (Some n) (Some d) true None.

Lemma interface_of_eq (devs : NetDevices) n d x :
  m_node x = Some n -> rev x !! d = None -> dev_NeedsArp d = false ->
  let s := l3_ipv4 x in
  let i := Z.of_nat (length (m_interfaces s)) in
  exists y, interface_of (W := W) CreateCache devs d x = Ok (i, y) /\ m_node y = Some n /\
    m_routingProtocol y = m_routingProtocol x /\
    l3_ipv4 y = mkIpv4 (m_interfaces s ++ [fresh_interface n d (m_ipForward s)]) (<[d := i]> (rev x))
                  (m_ipForward s) (m_weakEsModel s).
Proof using.
  intros Hn Hd Harp s i. unfold interface_of, ipv4. run. unfold GetInterfaceForDevice. rewrite Hd.
  cbn [Z.eqb Pos.eqb].
  assert (SetTrafficControl (SetDevice CreateCache d (SetNode CreateCache n new_interface)) =
    mkIf false true 1 [] (Some n) (Some d) true None) as Eifc.
  { unfold SetDevice, SetNode, DoSetup. simpl. by rewrite Harp. }
  rewrite (run_bind _ _ _ i (set_ipv4 (mkIpv4 (m_interfaces s ++ [fresh_interface n d (m_ipForward s)])
    (<[d := i]> (rev x)) (m_ipForward s) (m_weakEsModel s)) (add_log (RegisterHandlers d) x))).
  2: { unfold AddInterface, ipv4. run. rewrite Hn. run. unfold log. rewrite run_update, run_gets.
       unfold add_interface, ipv4. rewrite Eifc. reflexivity. }
  assert ((0 <=? i) = true) as -> by (apply Z.leb_le; lia). cbn [ns_assert].
  eexists. split; [reflexivity|]. done.
Qed.

(** Device [d] has an interface of the stack, up, with the address [a], and
    static routing knows the way to its network. *)
Definition configured (mask d a : Z) x : Prop :=
  exists i ifc rp, rev x !! d = Some i /\ Ipv4Ifaces.GetInterface i (l3_ipv4 x) = Some ifc /\ m_device ifc = Some d /\
    m_ifup ifc = true /\ m_forwarding ifc = true /\ m_metric ifc = 1 /\ m_ifaddrs ifc = [new_address a mask] /\
    m_routingProtocol x = Some rp /\ knows (link_route i a mask) rp.

Lemma update_update i a b s : update_interface i a (update_interface i b s) = update_interface i a s.
Proof using. unfold update_interface. simpl. by rewrite list_insert_insert_eq. Qed.

(** The interface once it is configured. *)
Definition final_interface (n d a mask : Z) (fw : bool) : Ipv4Interface :=
  mkIf true fw 1 [new_address a mask] (Some n) (Some d) true None.

Lemma configure_eq (devs : NetDevices) n d i a mask fw rp y :
  Ipv4Ifaces.GetInterface i (l3_ipv4 y) = Some (fresh_interface n d fw) -> m_routingProtocol y = Some rp ->
  68 <= u16 (dev_GetMtu d) -> usable a mask ->
  exists z rp1 rp2, configure (W := W) devs i a mask y = Ok (tt, z) /\ m_node z = m_node y /\
    l3_ipv4 z = update_interface i (final_interface n d a mask fw) (l3_ipv4 y) /\
    m_routingProtocol z = Some rp2 /\ ext_list [] rp rp1 /\ ext_list [link_route i a mask] rp1 rp2.
Proof using.
  intros Hi Hrp Hmtu Huse. unfold configure, AddAddress.
  set (ifc1 := mkIf false fw 1 [new_address a mask] (Some n) (Some d) true None).
  set (y1 := set_ipv4 (update_interface i ifc1 (l3_ipv4 y)) y).
  assert (Ipv4Ifaces.GetInterface i (l3_ipv4 y1) = Some ifc1) as Hi1 by (by eapply GetInterface_update).
  destruct (notify_ext [] (rp_NotifyAddAddress (l3_ipv4 y1) i (new_address a mask)) rp) as (rp1 & E1 & Hx1).
  { intros p. by eapply add_ext. }
  set (y2 := set_routing (Some rp1) y1).
  rewrite (run_bind _ _ _ true y2); cycle 1.
  { rewrite (run_bind _ _ _ true y1) by (by eapply run_on_interface).
    rewrite (run_bind _ _ _ tt y2); [done|]. by eapply run_notify. }
  rewrite (run_bind _ _ y2 tt (set_ipv4 (update_interface i ifc1 (l3_ipv4 y1)) y2)); cycle 1.
  { unfold SetMetric, ipv4. run. unfold Ipv4Ifaces.SetMetric. change (l3_ipv4 y2) with (l3_ipv4 y1). by rewrite Hi1. }
  set (y3 := set_ipv4 (update_interface i ifc1 (l3_ipv4 y1)) y2).
  assert (Ipv4Ifaces.GetInterface i (l3_ipv4 y3) = Some ifc1) as Hi3 by (by eapply GetInterface_update).
  set (ifc4 := final_interface n d a mask fw).
  set (y4 := set_ipv4 (update_interface i ifc4 (l3_ipv4 y3)) y3).
  assert (Ipv4Ifaces.GetInterface i (l3_ipv4 y4) = Some ifc4) as Hi4 by (by eapply GetInterface_update).
  destruct (notify_ext [link_route i a mask] (rp_NotifyInterfaceUp (l3_ipv4 y4) i) rp1) as (rp2 & E2 & Hx2).
  { intros p. by eapply up_ext. }
  exists (set_routing (Some rp2) y4), rp1, rp2. split_and!; try done.
  - unfold SetUp, ipv4. rewrite run_gets, Hi3. cbn [deref]. run. change (deref (Ipv4Interface.GetDevice ifc1)) with (Ok d : res Z). run.
    rewrite (proj2 (Z.leb_le 68 _) Hmtu). rewrite (run_bind _ _ _ tt y4); cycle 1.
    { by eapply run_on_interface. }
    eapply run_notify; [done|exact E2].
  - simpl. by rewrite !update_update.
Qed.

(** ** Assigning an address to a device *)

Lemma assign_stack (devs : NetDevices) rl n x d a mask :
  good_stack rl n x -> rev x !! d = None -> dev_NeedsArp d = false -> 68 <= u16 (dev_GetMtu d) -> usable a mask ->
  exists i y z, interface_of (W := W) CreateCache devs d x = Ok (i, y) /\ configure devs i a mask y = Ok (tt, z) /\
    good_stack rl n z /\ configured mask d a z /\ rev z = <[d := i]> (rev x) /\
    (forall d' a', configured mask d' a' x -> configured mask d' a' z).
Proof using.
  clear rand icmp udp tcp l4. intros [Hwf Hn (rp & Hrp & Hs & Hcl) Hfw Hwk (lo & Hlo) Hreg] Hd Harp Hmtu Huse.
  destruct (interface_of_eq devs n d x Hn Hd Harp) as (y & Ey & Hny & Hry & Hy).
  set (i := Z.of_nat (length (m_interfaces (l3_ipv4 x)))) in *.
  assert (Ipv4Ifaces.GetInterface i (l3_ipv4 y) = Some (fresh_interface n d (m_ipForward (l3_ipv4 x)))) as Hi.
  { rewrite Hy. unfold Ipv4Ifaces.GetInterface. simpl. unfold i. by rewrite Nat2Z.id, list_lookup_middle. }
  destruct (configure_eq devs n d i a mask (m_ipForward (l3_ipv4 x)) rp y Hi) as (z & rp1 & rp2 & Ez & Hnz & Hz & Hrz & Hx1 & Hx2);
    [congruence|done|done|].
  assert (shape_of rp2 = node_shape rl) as Hs2.
  { by rewrite (ext_list_shape _ _ _ Hx2), (ext_list_shape _ _ _ Hx1). }
  assert (rev z = <[d := i]> (rev x)) as Hrev by (by rewrite Hz, Hy).
  assert (m_interfaces (l3_ipv4 z) = m_interfaces (l3_ipv4 x) ++ [final_interface n d a mask (m_ipForward (l3_ipv4 x))]) as Hifs.
  { rewrite Hz, Hy. simpl. unfold i. by rewrite Nat2Z.id, insert_app_r_alt, Nat.sub_diag by lia. }
  exists i, y, z. split_and!; [done|done|constructor|..].
  - rewrite Hz. eapply update_interface_wf; [|exact Hi|done]. rewrite Hy.
    destruct (AddIpv4Interface_wf (fresh_interface n d (m_ipForward (l3_ipv4 x))) (l3_ipv4 x) i
      (mkIpv4 (m_interfaces (l3_ipv4 x) ++ [fresh_interface n d (m_ipForward (l3_ipv4 x))]) (<[d := i]> (rev x))
        (m_ipForward (l3_ipv4 x)) (m_weakEsModel (l3_ipv4 x))) Hwf) as [? _]; done.
  - congruence.
  - exists rp2. split; [done|]. split; [done|]. eapply ext_list_clean; [exact Hx2|]. by eapply ext_list_clean.
  - by rewrite Hz, Hy.
  - by rewrite Hz, Hy.
  - exists lo. rewrite Hifs. by apply lookup_app_l_Some.
  - intros j ifc d'. rewrite Hifs, Hrev. intros [Hj|[Hge Hj]]%lookup_app_Some Hd'.
    + rewrite lookup_insert_ne; [by eapply Hreg|]. intros ->. rewrite (Hreg _ _ _ Hj Hd') in Hd. done.
    + apply list_lookup_singleton_Some in Hj as [Hj <-]. injection Hd' as <-. rewrite lookup_insert_eq. unfold i. f_equal. lia.
  - exists i, (final_interface n d a mask (m_ipForward (l3_ipv4 x))), rp2. rewrite Hrev, lookup_insert_eq, Hz.
    split_and!; try done.
    + by eapply GetInterface_update.
    + eapply (ext_list_new _ _ _ 1); [exact Hx2| |by left].
      rewrite (ext_list_shape _ _ _ Hx1), Hs. destruct rl; simpl; set_solver.
  - done.
  - intros d' a' (j & ifc & rp0 & Hj & Hifc & Hdev & Hup & Hf & Hm & Hads & Hrp0 & Hk). exists j, ifc, rp2.
    rewrite Hrev, lookup_insert_ne by congruence. assert (rp0 = rp) as -> by congruence.
    assert (Z.to_nat j < length (m_interfaces (l3_ipv4 x)))%nat as Hlt by (by eapply lookup_lt_Some).
    split_and!; try done.
    + rewrite Hz, Hy. unfold Ipv4Ifaces.GetInterface, i. simpl. rewrite Nat2Z.id, list_lookup_insert_ne by lia.
      by apply lookup_app_l_Some.
    + eapply ext_list_knows; [exact Hx2|]. eapply ext_list_knows; [exact Hx1|done].
Qed.
End stack.

(** * The network that [BuildTopology] leaves

    The loops of [BuildTopology] over the nodes (a stack each) and over the
    links (a network each).  [site_ok] says which devices have an interface so
    far, [numbering] where the address helper stands: every address handed out
    is below the next one. *)

Section network.
Context {EM R W P : Type} `{ErrorModel EM} `{GlobalRouting.UniformRandom R} `{DeviceIds} `{IpL4Protocol P}.
Variable CreateCache : Z -> Z.
Implicit Types (x : l3 (ListRouting.Ipv4ListRouting (protocol R W)) P) (s : site EM R W P) (t : topo EM).

Lemma run_on_stack {A} n (m : st (l3 (ListRouting.Ipv4ListRouting (protocol R W)) P) A) x a x' s :
  s_stacks s !! n = Some x -> m x = Ok (a, x') -> on_stack n m s = Ok (a, set_stack n x' s).
Proof using. intros Hx E. unfold on_stack. by rewrite Hx, E. Qed.

(** ** Numbering *)

Record numbering (net a : Z) s : Prop := {
  nb_helper : at_address 8 1 net a (s_helper s);
  nb_gen : wf_gen (s_gen s);
  nb_below y : allocated (m_entries (s_gen s)) y -> y < net * 256 + a }.

(** What the numbering leaves alone. *)
Definition same_nodes s s' : Prop := s_topo s' = s_topo s /\ s_stacks s' = s_stacks s.

Lemma NewAddress_step net a s :
  1 <= a <= 254 -> 0 < net < 2 ^ 24 -> numbering net a s ->
  exists s', NewAddress s = Ok (net * 256 + a, s') /\ same_nodes s s' /\ numbering net (a + 1) s'.
Proof using.
  intros Ha Hn [Hh Hg Hb].
  destruct (AddressHelper.NewAddress_spec 8 1 net a (s_helper s) (s_gen s)) as (h' & g' & E & Hh' & Hw' & Hg');
    try done; try lia.
  { intros Hin. specialize (Hb _ Hin). change (2 ^ 8) with 256 in Hb. lia. }
  change (2 ^ 8) with 256 in *. eexists. unfold NewAddress. run. rewrite E. run. split; [done|].
  split; [done|]. split; [done|done|]. simpl. intros y. rewrite Hg', list_elem_of_singleton.
  intros [->|Hy]; [lia|]. specialize (Hb _ Hy). lia.
Qed.

Lemma NewNetwork_step net a s :
  1 <= a -> a <= 257 -> 0 < net -> net + 1 < 2 ^ 32 -> numbering net a s ->
  exists s', NewNetwork s = Ok (tt, s') /\ same_nodes s s' /\ numbering (net + 1) 1 s'.
Proof using.
  intros Ha Ha' Hn Hmax [Hh Hg Hb]. unfold NewNetwork. run. unfold AddressHelper.NewNetwork.
  destruct Hh as [En Em Ea Eb Es Ex]. rewrite En, Em, Eb, Es, Ex.
  rewrite (wrap_small 32) by (unfold in_range; lia). cbn [mbind res_bind AddressHelper.shift_up]. run.
  eexists. split; [reflexivity|]. split; [done|]. split; [done|done|]. simpl. intros y Hy. specialize (Hb _ Hy). lia.
Qed.

(** ** One device *)

Abbreviation rev x := (m_reverseInterfacesContainer (l3_ipv4 x)).
Definition is_loopback t (d : nat) : Prop := Z.of_nat d ∈ t_loopbacks t.

(** The device [d] of the stack is one of the devices [done] of the node [n]. *)
Definition own_device t (n : Z) (done : list nat) (d : Z) : Prop := exists d' dev,
  d = Z.of_nat d' /\ d' ∈ done /\ w_devs (t_world t) !! d' = Some dev /\ PointToPoint.m_node dev = Some n.
Lemma own_device_weaken t n done done' d :
  (forall y, y ∈ done -> y ∈ done') -> own_device t n done d -> own_device t n done' d.
Proof using. intros Hd (d' & dev & -> & Hin & ?). exists d', dev. auto. Qed.

(** The nodes below [N] have their stack, those of [rl] with the load balancer,
    and only loopback devices and their own devices among [done] have an interface. *)
Record site_ok t (rl : Z -> bool) (N : Z) (done : list nat) s : Prop := {
  so_topo : s_topo s = t;
  so_stack n : 0 <= n < N -> exists x, s_stacks s !! n = Some x /\ good_stack (rl n) n x /\
    forall d i, rev x !! d = Some i -> own_device t n done d \/ (d ∈ t_loopbacks t /\ i = 0) }.

(** The device has an interface on its node, with the address. *)
Definition addressed t s (d : nat) (a : Z) : Prop :=
  exists dev n x, w_devs (t_world t) !! d = Some dev /\ PointToPoint.m_node dev = Some n /\
    s_stacks s !! n = Some x /\ configured BASE_NETWORK_MASK (Z.of_nat d) a x.
Definition keeps t s s' : Prop := forall d a, addressed t s d a -> addressed t s' d a.

Lemma keeps_trans t s1 s2 s3 : keeps t s1 s2 -> keeps t s2 s3 -> keeps t s1 s3.
Proof using. unfold keeps. auto. Qed.

Lemma same_site_ok t rl N done s s' : same_nodes s s' -> site_ok t rl N done s -> site_ok t rl N done s' /\ keeps t s s'.
Proof using.
  intros [Et Es] [Ht Hs]. split; [split; [congruence|]|].
  - intros n Hn. rewrite Es. by apply Hs.
  - intros d a (dev & n & x & ?). exists dev, n, x. by rewrite Es.
Qed.

Lemma usable_base net a : 0xc0a800 <= net -> 0 <= a -> usable (net * 256 + a) BASE_NETWORK_MASK.
Proof using. intros Hn Ha. unfold usable, UNINITIALIZED. split_and!; [lia|done..]. Qed.

Lemma set_stack_ok t rl N done d dev n x z i s :
  site_ok t rl N done s -> w_devs (t_world t) !! d = Some dev -> PointToPoint.m_node dev = Some n -> s_stacks s !! n = Some x -> good_stack (rl n) n z ->
  rev z = <[Z.of_nat d := i]> (rev x) ->
  (forall d' a', configured BASE_NETWORK_MASK d' a' x -> configured BASE_NETWORK_MASK d' a' z) ->
  0 <= n < N -> site_ok t rl N (d :: done) (set_stack n z s) /\ keeps t s (set_stack n z s).
Proof using.
  intros [Ht Hs] Hdev Hnode Hx Hz Hrev Hkeep Hn.
  assert (forall m d', own_device t m done d' -> own_device t m (d :: done) d') as Hmore.
  { intros m d'. apply own_device_weaken. intros y Hy. by right. } split; [split; [done|]|].
  - intros m Hm. simpl. destruct (decide (m = n)) as [->|Hne].
    + exists z. rewrite lookup_insert_eq. split; [done|]. split; [done|]. intros d' j. rewrite Hrev.
      destruct (Hs n Hm) as (x' & Hx' & _ & Hd). assert (x' = x) as -> by congruence.
      intros [[<- _]|[_ Hd']]%lookup_insert_Some; [left; exists d, dev; split_and!; [done|by left|done..]|].
      destruct (Hd d' j Hd'); [left; by apply Hmore|by right].
    + rewrite lookup_insert_ne by done. destruct (Hs m Hm) as (x' & Hx' & Hg & Hd). exists x'.
      split; [done|]. split; [done|]. intros d' j Hd'. destruct (Hd d' j Hd'); [left; by apply Hmore|by right].
  - intros d' a' (dev' & m & y & Hdev' & Hm & Hy & Hc). exists dev', m. simpl. destruct (decide (m = n)) as [->|Hne].
    + exists z. rewrite lookup_insert_eq. assert (y = x) as -> by congruence. auto.
    + exists y. by rewrite lookup_insert_ne.
Qed.

Lemma assign_device_spec t rl N done net a d n k s :
  site_ok t rl N done s -> located (t_world t) d n k -> 0 <= n < N -> d ∉ done -> ~ is_loopback t d ->
  0xc0a800 <= net < 2 ^ 24 -> 1 <= a <= 254 -> numbering net a s ->
  exists i s', assign_device CreateCache d s = Ok ((n, i), s') /\ site_ok t rl N (d :: done) s' /\
    addressed t s' d (net * 256 + a) /\ keeps t s s' /\ numbering net (a + 1) s'.
Proof using.
  intros Hok (dev & Hdev & Hnode & Hk & Hmtu) Hn Hd Hlo Hnet Ha Hnum.
  pose proof Hok as [Ht Hs]. destruct (Hs n Hn) as (x & Hx & Hg & Hrev).
  assert (rev x !! Z.of_nat d = None) as Hnone.
  { destruct (rev x !! Z.of_nat d) eqn:E; [|done]. destruct (Hrev _ _ E) as [(d' & _ & ->%Nat2Z.inj & ? & _)|[? _]]; contradiction. }
  destruct (assign_stack CreateCache (devices_of t) (rl n) n x (Z.of_nat d) (net * 256 + a) BASE_NETWORK_MASK)
    as (i & y & z & E1 & E2 & Hgz & Hc & Hrz & Hkeep); try done.
  { simpl. by rewrite Nat2Z.id, Hdev. }
  { simpl. by rewrite Nat2Z.id, Hdev, Hmtu. }
  { apply usable_base; lia. }
  unfold assign_device. run. rewrite Ht, Hdev. cbn [deref]. run. rewrite Hnode. run.
  rewrite (run_bind _ _ _ i (set_stack n y s)) by (by eapply run_on_stack).
  destruct (NewAddress_step net a (set_stack n y s)) as (s1 & E3 & Hsame & Hnum1); [lia|lia|by destruct Hnum|].
  rewrite (run_bind _ _ _ _ _ E3). run.
  rewrite (AddressHelper.aa_mask _ _ _ _ _ (nb_helper _ _ _ Hnum1)).
  change (AddressHelper.mask_of 8) with BASE_NETWORK_MASK.
  assert (s_stacks s1 !! n = Some y) as Hy1 by (destruct Hsame as [_ ->]; apply lookup_insert_eq).
  rewrite (run_bind _ _ s1 tt (set_stack n z s1)) by (by eapply run_on_stack).
  assert (set_stack n z s1 = mkSite (s_topo s) (<[n := z]> (s_stacks s)) (s_routers s1) (s_routerId s1) (s_helper s1) (s_gen s1)) as Es.
  { destruct Hsame as [E4 E5]. unfold set_stack. rewrite E4, E5. simpl. by rewrite insert_insert_eq. }
  destruct (set_stack_ok t rl N done d dev n x z i s Hok Hdev Hnode Hx Hgz Hrz Hkeep Hn) as [Hok2 Hkeeps].
  exists i, (set_stack n z s1). rewrite Es in *. split; [reflexivity|].
  assert (same_nodes (set_stack n z s) (mkSite (s_topo s) (<[n := z]> (s_stacks s)) (s_routers s1) (s_routerId s1) (s_helper s1) (s_gen s1))) as Hsn
    by done.
  destruct (same_site_ok _ _ _ _ _ _ Hsn Hok2) as [Hok3 Hk3]. split_and!; [done| |by eapply keeps_trans|by destruct Hnum1].
  exists dev, n, z. split_and!; [done|done| |done]. simpl. apply lookup_insert_eq.
Qed.

(** ** The links *)

Definition ends (l : list (nat * nat)) : list nat := l ≫= (fun p => [p.1; p.2]).
Definition end_ok t (N : Z) (d : nat) : Prop :=
  ~ is_loopback t d /\ exists n k, 0 <= n < N /\ located (t_world t) d n k.

Lemma site_ok_weaken t rl N done done' s :
  (forall d, d ∈ done -> d ∈ done') -> site_ok t rl N done s -> site_ok t rl N done' s.
Proof using.
  intros Hd [Ht Hs]. split; [done|]. intros n Hn. destruct (Hs n Hn) as (x & ? & ? & Hx). exists x.
  split; [done|]. split; [done|]. intros d i Hd'. destruct (Hx d i Hd') as [?|]; [left; by eapply own_device_weaken|by right].
Qed.

(** A link: its two ends take the addresses 1 and 2 of the network. *)
Lemma assign_link t rl N done net a b s :
  site_ok t rl N done s -> numbering net 1 s -> 0xc0a800 <= net -> net + 1 < 2 ^ 24 ->
  end_ok t N a -> end_ok t N b -> a ∉ done -> b ∉ done -> a <> b ->
  exists l s1 s', Assign CreateCache (a, b) s = Ok (l, s1) /\ NewNetwork s1 = Ok (tt, s') /\
    site_ok t rl N (b :: a :: done) s' /\ numbering (net + 1) 1 s' /\ keeps t s s' /\
    addressed t s' a (net * 256 + 1) /\ addressed t s' b (net * 256 + 2).
Proof using.
  intros Hok Hnum Hn Hmax (Hla & na & ka & Hna & Ha) (Hlb & nb & kb & Hnb & Hb) Hda Hdb Hne.
  destruct (assign_device_spec t rl N done net 1 a na ka s) as (ia & s1 & E1 & Hok1 & Ha1 & Hk1 & Hnum1); try done; try lia.
  destruct (assign_device_spec t rl N (a :: done) net 2 b nb kb s1) as (ib & s2 & E2 & Hok2 & Hb2 & Hk2 & Hnum2);
    try done; try lia.
  { set_solver. }
  destruct (NewNetwork_step net 3 s2) as (s3 & E3 & Hsame & Hnum3); try done; try lia.
  destruct (same_site_ok _ _ _ _ _ _ Hsame Hok2) as [Hok3 Hk3].
  exists [(na, ia); (nb, ib)], s2, s3. split.
  { unfold Assign. cbn [fst snd]. by rewrite (run_bind _ _ _ _ _ E1), (run_bind _ _ _ _ _ E2). }
  split_and!; try done.
  - eapply keeps_trans; [exact Hk1|]. by eapply keeps_trans.
  - apply Hk3, Hk2, Ha1.
  - by apply Hk3.
Qed.

Lemma assign_all_spec t rl N c : forall rest fuel pre done net s,
  c = pre ++ rest -> Z.of_nat (length c) <= 65535 -> (length rest <= fuel)%nat ->
  site_ok t rl N done s -> numbering net 1 s -> 0xc0a800 <= net -> net + Z.of_nat (length rest) < 2 ^ 24 ->
  Forall (end_ok t N) (ends rest) -> NoDup (ends rest) -> (forall d, d ∈ ends rest -> d ∉ done) ->
  exists ls s', assign_all CreateCache fuel (Z.of_nat (length pre)) c s = Ok (ls, s') /\
    site_ok t rl N (ends rest ++ done) s' /\ numbering (net + Z.of_nat (length rest)) 1 s' /\ keeps t s s' /\
    forall j a b, rest !! j = Some (a, b) ->
      addressed t s' a ((net + Z.of_nat j) * 256 + 1) /\ addressed t s' b ((net + Z.of_nat j) * 256 + 2).
Proof using.
  induction rest as [|[a b] rest IH]; intros fuel pre done net s Hc Hlen Hfuel Hok Hnum Hn Hmax Hends Hnd Hdone.
  - exists [], s. rewrite app_nil_r in Hc. subst c. rewrite Z.add_0_r. split.
    { destruct fuel; cbn [assign_all]; by rewrite Z.ltb_irrefl. }
    split_and!; [done|done|by intros ??|by intros ???].
  - change (ends ((a, b) :: rest)) with (a :: b :: ends rest) in *.
    apply Forall_cons in Hends as [Ha Hends]. apply Forall_cons in Hends as [Hb Hends].
    apply NoDup_cons in Hnd as [Hna Hnd]. apply NoDup_cons in Hnd as [Hnb Hnd].
    destruct fuel as [|fuel]; [simpl in Hfuel; lia|]. cbn [length] in *.
    destruct (assign_link t rl N done net a b s) as (l & s1 & s2 & E1 & E2 & Hok2 & Hnum2 & Hk2 & Ha2 & Hb2);
      try done; try lia; try (apply Hdone; set_solver); [set_solver|].
    destruct (IH fuel (pre ++ [(a, b)]) (b :: a :: done) (net + 1) s2) as (ls & s3 & E3 & Hok3 & Hnum3 & Hk3 & Hall);
      try done; try lia.
    { by rewrite <- app_assoc. }
    { intros d Hd. pose proof (Hdone d ltac:(set_solver)). set_solver. }
    exists (l :: ls), s3. split.
    { cbn [assign_all]. rewrite (proj2 (Z.ltb_lt _ _)) by (subst c; rewrite length_app; simpl; lia).
      rewrite Nat2Z.id. subst c. rewrite list_lookup_middle by done. cbn [deref]. run.
      rewrite (run_bind _ _ _ _ _ E1), (run_bind _ _ _ _ _ E2).
      rewrite length_app in Hlen. cbn [length] in Hlen.
      replace (u16 (Z.of_nat (length pre) + 1)) with (Z.of_nat (length (pre ++ [(a, b)])))
        by (rewrite length_app, wrap_small by (unfold in_range; lia); simpl; lia).
      by rewrite (run_bind _ _ _ _ _ E3). }
    split; [eapply site_ok_weaken; [|exact Hok3]; set_solver|].
    split; [by replace (net + Z.of_nat (S (length rest))) with (net + 1 + Z.of_nat (length rest)) by lia|].
    split; [by eapply keeps_trans|]. intros [|j] a' b' Hj; simpl in Hj.
    + simplify_eq. rewrite Z.add_0_r. split; by apply Hk3.
    + replace (net + Z.of_nat (S j)) with (net + 1 + Z.of_nat j) by lia. by apply Hall.
Qed.
End network.
