(* ===== verification/BuildSpec.v ===== *)
(** * [BuildTopology], from the empty program to the addressed network

    What [BuildTopology] leaves of each link, and then of the network as a whole:
    every point-to-point device is the end of a link of the two containers,
    every node has a router of its own, and the interfaces of a stack are the
    loopback interface and one for each end of a link on the node, with the
    address of that end.  The links are numbered through, those of the servers
    first. *)

From S2P Require Import Prelude Bytes Packet Ipv4Ifaces Routing RlRouting.
From S2P Require Ipv4Address AddressGenerator AddressHelper StaticRouting GlobalRouting GlobalRouter ListRouting.
From S2P Require Import Ipv4L3Protocol Node Topology TopologySpec InternetStack InternetStackSpec.
From S2P Require PointToPoint PointToPointSpec.
Import PointToPoint (ErrorModel, w_devs, w_chans).

Section ends.
Context {EM : Type} `{ErrorModel EM}.
Implicit Types t : topo EM.

(** ** The ends of the links *)

Lemma ends_lookup c : forall i d, ends c !! i = Some d ->
  exists j a b, c !! j = Some (a, b) /\ ((i = 2 * j /\ d = a) \/ (i = 2 * j + 1 /\ d = b))%nat.
Proof using.
  induction c as [|[a b] c IH]; intros i d Hi; [done|]. change (ends ((a, b) :: c)) with (a :: b :: ends c) in Hi.
  destruct i as [|[|i]]; simpl in Hi.
  - exists 0%nat, a, b. naive_solver.
  - exists 0%nat, a, b. naive_solver.
  - destruct (IH i d Hi) as (j & a' & b' & Hj & Hc). exists (S j), a', b'. split; [done|]. destruct Hc as [[-> ->]|[-> ->]]; [left|right]; split; done || lia.
Qed.

(** The devices of link [j] are at [f j] and at [g j]. *)
Definition placed t (f g : nat -> nat * nat) (c : list (nat * nat)) : Prop :=
  forall j a b, c !! j = Some (a, b) ->
    located (t_world t) a (Z.of_nat (f j).1) (Z.of_nat (f j).2) /\
    located (t_world t) b (Z.of_nat (g j).1) (Z.of_nat (g j).2).
Definition apart (n : nat) (f g : nat -> nat * nat) : Prop :=
  forall i j, (i < n)%nat -> (j < n)%nat -> (f i = f j -> i = j) /\ (g i = g j -> i = j) /\ f i <> g j.

Lemma located_pair t d p q :
  located (t_world t) d (Z.of_nat p.1) (Z.of_nat p.2) -> located (t_world t) d (Z.of_nat q.1) (Z.of_nat q.2) -> p = q.
Proof using.
  intros H1' H2'. destruct (located_fun _ _ _ _ _ _ H1' H2') as [E1%Nat2Z.inj E2%Nat2Z.inj].
  destruct p, q; simpl in *. congruence.
Qed.

Lemma placed_end t f g c d :
  placed t f g c -> d ∈ ends c ->
  exists j, (j < length c)%nat /\ (located (t_world t) d (Z.of_nat (f j).1) (Z.of_nat (f j).2) \/
                                   located (t_world t) d (Z.of_nat (g j).1) (Z.of_nat (g j).2)).
Proof using.
  intros Hp (i & Hi)%list_elem_of_lookup. apply ends_lookup in Hi as (j & a & b & Hj & Hd).
  exists j. split; [by eapply lookup_lt_Some|]. destruct (Hp j a b Hj). destruct Hd as [[_ ->]|[_ ->]]; auto.
Qed.

Lemma ends_NoDup t f g c : placed t f g c -> apart (length c) f g -> NoDup (ends c).
Proof using.
  intros Hp Hap. apply NoDup_alt. intros i i' d Hi Hi'.
  apply ends_lookup in Hi as (j & a & b & Hj & Hd). apply ends_lookup in Hi' as (j' & a' & b' & Hj' & Hd').
  pose proof (lookup_lt_Some _ _ _ Hj) as Hlt. pose proof (lookup_lt_Some _ _ _ Hj') as Hlt'.
  destruct (Hp j a b Hj) as [Ha Hb], (Hp j' a' b' Hj') as [Ha' Hb'].
  destruct (Hap j j' Hlt Hlt') as (Hf & Hg & Hfg). destruct (Hap j' j Hlt' Hlt) as (_ & _ & Hfg').
  destruct Hd as [[-> ->]|[-> ->]], Hd' as [[-> <-]|[-> <-]].
  - by rewrite (Hf (located_pair _ _ _ _ Ha Ha')).
  - destruct (Hfg (located_pair _ _ _ _ Ha Hb')).
  - destruct (Hfg' (located_pair _ _ _ _ Ha' Hb)).
  - by rewrite (Hg (located_pair _ _ _ _ Hb Hb')).
Qed.

Lemma ends_ok t f g c N :
  placed t f g c -> (forall j, (j < length c)%nat -> ((f j).1 < N /\ (g j).1 < N)%nat) ->
  (forall d, is_Some (w_devs (t_world t) !! d) -> ~ is_loopback t d) ->
  Forall (end_ok t (Z.of_nat N)) (ends c).
Proof using.
  intros Hp HN Hlo. apply Forall_forall. intros d Hd. destruct (placed_end t f g c d Hp Hd) as (j & Hj & Hl).
  destruct (HN j Hj). split.
  - apply Hlo. destruct Hl as [(dev & ? & _)|(dev & ? & _)]; eauto.
  - destruct Hl; eexists _, _; (split; [|done]); lia.
Qed.

(** Where the devices of the links are, in the order of the containers. *)
Definition server_end (S L K j : nat) : nat * nat := (S + L + j, 1)%nat.
Definition server_leaf_end (S L K j : nat) : nat * nat := (S + j / K, 1 + S + j mod K)%nat.
Definition leaf_end (S L j : nat) : nat * nat := (S + j mod L, 1 + j / L)%nat.
Definition spine_end (S L j : nat) : nat * nat := (j / L, 1 + j mod L)%nat.

Lemma index_split j n m : (j < n * m)%nat -> j = (j / n * n + j mod n)%nat /\ (j / n < m)%nat /\ (j mod n < n)%nat.
Proof using.
  intros Hj. assert (n <> 0)%nat by lia. split_and!.
  - rewrite (Nat.mul_comm (j / n)). by apply Nat.div_mod.
  - apply Nat.Div0.div_lt_upper_bound. lia.
  - by apply Nat.mod_upper_bound.
Qed.

Lemma same_index n i j :
  i = (i / n * n + i mod n)%nat -> j = (j / n * n + j mod n)%nat -> (i / n = j / n)%nat -> (i mod n = j mod n)%nat -> i = j.
Proof using. intros Ei Ej E1 E2. rewrite E1, E2 in Ei. by rewrite Ei, <- Ej. Qed.

Lemma servers_placed S L K b t :
  connected S L K b (t_world t) ->
  placed t (server_end S L K) (server_leaf_end S L K) (server_leaf_netDevContainer b).
Proof using.
  intros Hc j da db Hj. pose proof (lookup_lt_Some _ _ _ Hj) as Hlt. rewrite (proj2 (cn_links _ _ _ _ _ Hc)) in Hlt.
  destruct (index_split j K L Hlt) as (E & Hl & Hk).
  destruct (cn_server _ _ _ _ _ Hc (j / K)%nat (j mod K)%nat Hl Hk) as (dv & dl & Hlk & _ & Ha & Hb).
  rewrite <- E in Hlk, Ha. simplify_eq. by split.
Qed.

Lemma spines_placed S L K b t :
  connected S L K b (t_world t) -> placed t (leaf_end S L) (spine_end S L) (leaf_spine_netDevContainer b).
Proof using.
  intros Hc j da db Hj. pose proof (lookup_lt_Some _ _ _ Hj) as Hlt. rewrite (proj1 (cn_links _ _ _ _ _ Hc)) in Hlt.
  destruct (index_split j L S ltac:(lia)) as (E & Hi & Hl).
  destruct (cn_spine _ _ _ _ _ Hc (j / L)%nat (j mod L)%nat Hi Hl) as (dl & ds & _ & _ & Hlk & _ & Ha & Hb).
  rewrite <- E in Hlk. simplify_eq. by split.
Qed.

Lemma servers_apart S L K : apart (K * L) (server_end S L K) (server_leaf_end S L K).
Proof using.
  intros i j Hi Hj. destruct (index_split i K L Hi) as (Ei & Hi1 & Hi2), (index_split j K L Hj) as (Ej & Hj1 & Hj2).
  unfold server_end, server_leaf_end. split_and!; intros [E1 E2]%pair_equal_spec.
  - lia.
  - apply (same_index K i j Ei Ej); lia.
  - lia.
Qed.

Lemma spines_apart S L : apart (S * L) (leaf_end S L) (spine_end S L).
Proof using.
  intros i j Hi Hj. destruct (index_split i L S ltac:(lia)) as (Ei & Hi1 & Hi2), (index_split j L S ltac:(lia)) as (Ej & Hj1 & Hj2).
  unfold leaf_end, spine_end. split_and!; intros [E1 E2]%pair_equal_spec.
  - apply (same_index L i j Ei Ej); lia.
  - apply (same_index L i j Ei Ej); lia.
  - lia.
Qed.

(** A link of a server is not a link of a spine. *)
Lemma links_disjoint S L K b t d :
  connected S L K b (t_world t) ->
  d ∈ ends (server_leaf_netDevContainer b) -> d ∉ ends (leaf_spine_netDevContainer b).
Proof using.
  intros Hc Hd Hd'. pose proof (cn_links _ _ _ _ _ Hc) as [Hl1 Hl2].
  destruct (placed_end t _ _ _ d (servers_placed _ _ _ _ _ Hc) Hd) as (i & Hi & Hloc).
  destruct (placed_end t _ _ _ d (spines_placed _ _ _ _ _ Hc) Hd') as (j & Hj & Hloc').
  rewrite Hl2 in Hi. rewrite Hl1 in Hj.
  destruct (index_split i K L Hi) as (Ei & Hi1 & Hi2), (index_split j L S ltac:(lia)) as (Ej & Hj1 & Hj2).
  unfold server_end, server_leaf_end, leaf_end, spine_end in *.
  destruct Hloc as [H1|H1], Hloc' as [H2|H2]; pose proof (located_pair _ _ _ _ H1 H2) as [E1 E2]%pair_equal_spec; lia.
Qed.
End ends.

Section build.
Context {EM R W P : Type} `{ErrorModel EM} `{GlobalRouting.UniformRandom R} `{DeviceIds} `{IpL4Protocol P}.
Variables (rand : Z -> R) (icmp udp tcp : Z) (l4 : P) (CreateCache : Z -> Z).
Implicit Types (x : l3 (ListRouting.Ipv4ListRouting (protocol R W)) P) (s : site EM R W P) (t : topo EM).
Abbreviation stack_Install := (stack_Install (EM := EM) (W := W) rand icmp udp tcp l4 CreateCache).
Abbreviation rev x := (m_reverseInterfacesContainer (l3_ipv4 x)).

(** ** The stacks *)

(** The nodes of [done] have a stack, the others none. *)
Record stacked (rl : nat -> bool) (los : list Z) (done : list nat) s : Prop := {
  sk_done n : n ∈ done -> exists x, s_stacks s !! Z.of_nat n = Some x /\ good_stack (rl n) (Z.of_nat n) x /\
    forall d i, rev x !! d = Some i -> d ∈ los /\ i = 0;
  sk_other n : n ∉ done -> s_stacks s !! Z.of_nat n = None }.

Lemma stack_Install_spec los N cnt b n s :
  topo_inv_ los N cnt (s_topo s) -> (n < N)%nat -> cnt n = 0%nat -> s_stacks s !! Z.of_nat n = None ->
  exists d x t', stack_Install b (Z.of_nat n) s = Ok (tt, set_stack (Z.of_nat n) x (create_router (Z.of_nat n) (set_topo t' s))) /\
    topo_inv_ (los ++ [d]) N (bump n cnt) t' /\ good_stack b (Z.of_nat n) x /\
    forall d' i, rev x !! d' = Some i -> d' = d /\ i = 0.
Proof using.
  intros Hinv Hn Hc Hx. destruct (loopback_spec los N cnt n (s_topo s) Hinv Hn Hc) as (d & t' & E & Hinv' & _).
  unfold InternetStack.stack_Install. run. rewrite Hx.
  rewrite (run_bind _ _ s d (set_topo t' s)) by (unfold on_topo; by rewrite E). run.
  destruct (aggregate_ok (W := W) rand icmp udp tcp l4 CreateCache (devices_of t') b (Z.of_nat n) d) as (x & Ex & Hg & Hrev).
  { pose proof (ti_lo _ _ _ _ Hinv') as Hlo. apply Forall_app in Hlo as [_ Hlo]. apply Forall_cons in Hlo as [[_ Hd] _].
    simpl. by rewrite Hd. }
  change (s_topo (create_router (Z.of_nat n) (set_topo t' s))) with t'. rewrite Ex. run. by exists d, x, t'.
Qed.

Lemma stacked_cons rl los d b n x t' done s :
  stacked rl los done s -> n ∉ done -> rl n = b -> good_stack b (Z.of_nat n) x ->
  (forall d' i, rev x !! d' = Some i -> d' = d /\ i = 0) ->
  stacked rl (los ++ [d]) (n :: done) (set_stack (Z.of_nat n) x (create_router (Z.of_nat n) (set_topo t' s))).
Proof using.
  clear rand CreateCache. intros [Hd Ho] Hn <- Hx Hrev. split; simpl.
  - intros m [->|Hm]%elem_of_cons.
    + exists x. rewrite lookup_insert_eq. split_and!; [done|done|]. intros d' i [-> ->]%Hrev. split; [set_solver|done].
    + rewrite lookup_insert_ne by (intros ->%Nat2Z.inj; contradiction).
      destruct (Hd m Hm) as (y & Hy & Hg & Hr). exists y. split_and!; [done|done|]. intros d' i [? ->]%Hr. split; [set_solver|done].
  - intros m [Hne Hm]%not_elem_of_cons. rewrite lookup_insert_ne by lia. by apply Ho.
Qed.

Lemma install_each N rl b l : forall los cnt done s,
  topo_inv_ los N cnt (s_topo s) -> Forall (fun n => (n < N)%nat) l -> NoDup l -> Forall (fun n => cnt n = 0%nat) l ->
  stacked rl los done s -> (forall n, n ∈ l -> n ∉ done /\ rl n = b) ->
  exists los' s', each (stack_Install b) (Z.of_nat <$> l) s = Ok (tt, s') /\
    topo_inv_ los' N (bump_all l cnt) (s_topo s') /\ stacked rl los' (l ++ done) s' /\
    s_helper s' = s_helper s /\ s_gen s' = s_gen s.
Proof using.
  induction l as [|n l IH]; intros los cnt done s Hinv HN Hnd Hc Hs Hl.
  { exists los, s. split; [done|]. split_and!; [|done..]. by eapply topo_inv_ext; [|exact Hinv]. }
  apply Forall_cons in HN as [HnN HN]. apply NoDup_cons in Hnd as [Hn Hnd]. apply Forall_cons in Hc as [Hcn Hc].
  destruct (Hl n ltac:(by left)) as [Hnd' Hrl].
  destruct (stack_Install_spec los N cnt b n s Hinv HnN Hcn) as (d & x & t' & E & Hinv' & Hg & Hrev).
  { by apply (sk_other _ _ _ _ Hs). }
  destruct (IH (los ++ [d]) (bump n cnt) (n :: done) (set_stack (Z.of_nat n) x (create_router (Z.of_nat n) (set_topo t' s))))
    as (los' & s' & E' & Hinv2 & Hs2 & Eh & Eg); try done.
  { apply Forall_forall. intros m Hm. unfold bump. rewrite decide_False by set_solver. by eapply Forall_forall in Hc. }
  { by eapply stacked_cons. }
  { intros m Hm. destruct (Hl m ltac:(by right)). split; [set_solver|done]. }
  exists los', s'. cbn [fmap list_fmap each]. rewrite (run_bind _ _ _ _ _ E). split; [done|]. split_and!; [| |done..].
  - eapply topo_inv_ext; [|exact Hinv2]. intros m _. unfold bump_all, bump.
    repeat case_decide; subst; try done; set_solver.
  - destruct Hs2 as [Hd Ho]. split; [intros m Hm; apply Hd; set_solver|intros m Hm; apply Ho; set_solver].
Qed.

(** ** All of it *)

Definition is_leaf (S L n : nat) : bool := bool_decide (S <= n < S + L)%nat.

Lemma stacks_installed (S L K : nat) :
  Z.of_nat (S + L + K * L) < 2 ^ 32 ->
  exists t1 t2 t3 los s1 s2 s3,
    create_nodes S SPINE (empty_topo (EM := EM)) = Ok (Z.of_nat <$> seq 0 S, t1) /\
    create_nodes L LEAF t1 = Ok (Z.of_nat <$> seq S L, t2) /\
    create_nodes (Z.to_nat (u32 (Z.of_nat K * Z.of_nat L))) SERVER t2 = Ok (Z.of_nat <$> seq (S + L) (K * L), t3) /\
    each (stack_Install true) (Z.of_nat <$> seq S L) (set_topo t3 empty_site) = Ok (tt, s1) /\
    each (stack_Install false) (Z.of_nat <$> seq 0 S) s1 = Ok (tt, s2) /\
    each (stack_Install false) (Z.of_nat <$> seq (S + L) (K * L)) s2 = Ok (tt, s3) /\
    topo_inv_ los (S + L + K * L) (fun _ => 1%nat) (s_topo s3) /\
    stacked (is_leaf S L) los (seq 0 (S + L + K * L)) s3 /\
    s_helper s3 = AddressHelper.new_helper /\ s_gen s3 = AddressGenerator.Reset.
Proof using.
  intros HN. destruct (created_spec (EM := EM) S L K HN) as (t1 & t2 & t3 & E1 & E2 & E3 & Hinv).
  assert (forall from n, (from + n <= S + L + K * L)%nat -> Forall (fun n => (n < S + L + K * L)%nat) (seq from n)) as HF.
  { intros from n Hle. apply Forall_forall. intros x Hx%elem_of_seq. lia. }
  destruct (install_each (S + L + K * L) (is_leaf S L) true (seq S L) [] (fun _ => 0%nat) [] (set_topo t3 empty_site))
    as (los1 & s1 & R1 & Hinv1 & Hs1 & Eh1 & Eg1); [done|apply HF; lia|apply NoDup_seq|by apply Forall_true| | |].
  { split; [intros n Hn; by apply elem_of_nil in Hn|done]. }
  { intros n Hn%elem_of_seq. split; [apply not_elem_of_nil|]. by apply bool_decide_eq_true. }
  destruct (install_each (S + L + K * L) (is_leaf S L) false (seq 0 S) los1 (bump_all (seq S L) (fun _ => 0%nat))
    (seq S L ++ []) s1) as (los2 & s2 & R2 & Hinv2 & Hs2 & Eh2 & Eg2); [done|apply HF; lia|apply NoDup_seq| |done| |].
  { apply Forall_forall. intros x Hx%elem_of_seq. unfold bump_all. rewrite decide_False; [done|]. rewrite elem_of_seq. lia. }
  { intros n Hn%elem_of_seq. rewrite app_nil_r, elem_of_seq. split; [lia|]. apply bool_decide_eq_false. lia. }
  destruct (install_each (S + L + K * L) (is_leaf S L) false (seq (S + L) (K * L)) los2
    (bump_all (seq 0 S) (bump_all (seq S L) (fun _ => 0%nat))) (seq 0 S ++ seq S L ++ []) s2)
    as (los3 & s3 & R3 & Hinv3 & Hs3 & Eh3 & Eg3); [done|apply HF; lia|apply NoDup_seq| |done| |].
  { apply Forall_forall. intros x Hx%elem_of_seq. unfold bump_all. rewrite !decide_False; [done|..];
      rewrite elem_of_seq; lia. }
  { intros n Hn%elem_of_seq. rewrite app_nil_r, elem_of_app, !elem_of_seq. split; [lia|]. apply bool_decide_eq_false. lia. }
  exists t1, t2, t3, los3, s1, s2, s3. split_and!; try done.
  - eapply topo_inv_ext; [|exact Hinv3]. intros n Hn. unfold bump_all. repeat case_decide; rewrite ?elem_of_seq in *; lia.
  - destruct Hs3 as [Hd Ho]. split; intros n Hn; [apply Hd|apply Ho];
      rewrite !elem_of_app, elem_of_nil, !elem_of_seq in *; lia.
  - by rewrite Eh3, Eh2, Eh1.
  - by rewrite Eg3, Eg2, Eg1.
Qed.

Lemma stacked_site_ok rl los N s :
  stacked rl los (seq 0 N) s -> t_loopbacks (s_topo s) = los ->
  site_ok (s_topo s) (fun n => rl (Z.to_nat n)) (Z.of_nat N) [] s.
Proof using.
  clear rand CreateCache. intros [Hd _] Hl. split; [done|]. intros n Hn. destruct (Hd (Z.to_nat n)) as (x & Hx & Hg & Hr).
  { apply elem_of_seq. lia. }
  rewrite Z2Nat.id in Hx, Hg by lia. exists x. split_and!; [done|done|]. intros d i [? ->]%Hr. right. by rewrite Hl.
Qed.

Lemma loopback_not_device los N cnt t d :
  topo_inv_ los N cnt t -> is_Some (w_devs (t_world t) !! d) -> ~ is_loopback t d.
Proof using.
  intros [_ _ _ _ _ Hl Hlo] [dev Hd]. unfold is_loopback. rewrite Hl. intros Hin.
  eapply Forall_forall in Hlo; [|exact Hin]. simpl in Hlo. rewrite Nat2Z.id in Hlo. destruct Hlo. congruence.
Qed.

(** Both loops over the links, from the helper that [SetBase] sets. *)
Lemma links_addressed (S L K : nat) rl b s :
  Z.of_nat (K * L) <= 65535 -> Z.of_nat (S * L) <= 65535 -> connected S L K b (t_world (s_topo s)) ->
  (forall d, is_Some (w_devs (t_world (s_topo s)) !! d) -> ~ is_loopback (s_topo s) d) ->
  site_ok (s_topo s) rl (Z.of_nat (S + L + K * L)) [] s -> numbering 0xc0a800 1 s ->
  exists l1 s1 l2 s2, assign_all CreateCache (Z.to_nat 65536) 0 (server_leaf_netDevContainer b) s = Ok (l1, s1) /\
    assign_all CreateCache (Z.to_nat 65536) 0 (leaf_spine_netDevContainer b) s1 = Ok (l2, s2) /\
    site_ok (s_topo s) rl (Z.of_nat (S + L + K * L)) (ends (leaf_spine_netDevContainer b) ++ ends (server_leaf_netDevContainer b)) s2 /\
    (forall j a a', server_leaf_netDevContainer b !! j = Some (a, a') ->
       addressed (s_topo s) s2 a ((0xc0a800 + Z.of_nat j) * 256 + 1) /\
       addressed (s_topo s) s2 a' ((0xc0a800 + Z.of_nat j) * 256 + 2)) /\
    (forall j a a', leaf_spine_netDevContainer b !! j = Some (a, a') ->
       addressed (s_topo s) s2 a ((0xc0a800 + Z.of_nat (K * L) + Z.of_nat j) * 256 + 1) /\
       addressed (s_topo s) s2 a' ((0xc0a800 + Z.of_nat (K * L) + Z.of_nat j) * 256 + 2)).
Proof using.
  clear rand. intros HK HS Hc Hlo Hok Hnum. pose proof (cn_links _ _ _ _ _ Hc) as [Hl1 Hl2].
  assert (Forall (end_ok (s_topo s) (Z.of_nat (S + L + K * L))) (ends (server_leaf_netDevContainer b))) as Hend2.
  { eapply ends_ok; [by eapply servers_placed| |done]. rewrite Hl2. intros j Hj. unfold server_end, server_leaf_end. simpl.
    destruct (index_split j K L Hj) as (? & ? & ?). lia. }
  assert (Forall (end_ok (s_topo s) (Z.of_nat (S + L + K * L))) (ends (leaf_spine_netDevContainer b))) as Hend1.
  { eapply ends_ok; [by eapply spines_placed| |done]. rewrite Hl1. intros j Hj. unfold leaf_end, spine_end. simpl.
    destruct (index_split j L S ltac:(lia)) as (? & ? & ?). lia. }
  destruct (assign_all_spec CreateCache (s_topo s) rl (Z.of_nat (S + L + K * L)) (server_leaf_netDevContainer b)
    (server_leaf_netDevContainer b) (Z.to_nat 65536) [] [] 0xc0a800 s) as (l1 & s1 & E1 & Hok1 & Hnum1 & Hk1 & H1'); try done; try lia.
  { eapply ends_NoDup; [by eapply servers_placed|rewrite Hl2; apply servers_apart]. }
  { intros d _. apply not_elem_of_nil. }
  rewrite app_nil_r in Hok1. rewrite Hl2 in Hnum1.
  destruct (assign_all_spec CreateCache (s_topo s) rl (Z.of_nat (S + L + K * L)) (leaf_spine_netDevContainer b)
    (leaf_spine_netDevContainer b) (Z.to_nat 65536) [] (ends (server_leaf_netDevContainer b)) (0xc0a800 + Z.of_nat (K * L)) s1)
    as (l2 & s2 & E2 & Hok2 & Hnum2 & Hk2 & H2'); try done; try lia.
  { eapply ends_NoDup; [by eapply spines_placed|rewrite Hl1; apply spines_apart]. }
  { intros d Hd Hd'. by eapply (links_disjoint S L K b). }
  exists l1, s1, l2, s2. split_and!; [done|done|done| |exact H2'].
  intros j a a' Hj. destruct (H1' j a a' Hj). split; by apply Hk2.
Qed.

Lemma BuildTopology_ok (S L K : nat) :
  Z.of_nat (S + L + K * L) < 2 ^ 32 -> Z.of_nat (K * L) <= 65535 -> Z.of_nat (S * L) <= 65535 ->
  exists b s, BuildTopology (W := W) rand icmp udp tcp l4 CreateCache S L K empty_site = Ok (b, s) /\
    connected S L K b (t_world (s_topo s)) /\ PointToPointSpec.fresh_world 1502 (t_world (s_topo s)) /\
    (exists los cnt, topo_inv_ los (S + L + K * L) cnt (s_topo s)) /\
    site_ok (s_topo s) (fun n => is_leaf S L (Z.to_nat n)) (Z.of_nat (S + L + K * L))
      (ends (leaf_spine_netDevContainer b) ++ ends (server_leaf_netDevContainer b)) s /\
    (forall j a a', server_leaf_netDevContainer b !! j = Some (a, a') ->
       addressed (s_topo s) s a ((0xc0a800 + Z.of_nat j) * 256 + 1) /\
       addressed (s_topo s) s a' ((0xc0a800 + Z.of_nat j) * 256 + 2)) /\
    (forall j a a', leaf_spine_netDevContainer b !! j = Some (a, a') ->
       addressed (s_topo s) s a ((0xc0a800 + Z.of_nat (K * L) + Z.of_nat j) * 256 + 1) /\
       addressed (s_topo s) s a' ((0xc0a800 + Z.of_nat (K * L) + Z.of_nat j) * 256 + 2)).
Proof using.
  intros HN HK HS.
  destruct (stacks_installed S L K HN) as (t1 & t2 & t3 & los & s1 & s2 & s3 & E1 & E2 & E3 & R1 & R2 & R3 & Hinv & Hst & Eh & Eg).
  destruct (connect_spec los S L K (s_topo s3) HN Hinv) as (b & t & Ec & (cnt & Hinv') & Hfresh & Hc).
  destruct (AddressHelper.SetBase_at 8 1 BASE_NETWORK) as (h & Eb & Hh); [lia|done|by exists 12625920|].
  set (s4 := set_helper h (set_topo t s3)).
  assert (stacked (is_leaf S L) los (seq 0 (S + L + K * L)) s4) as Hst4 by (destruct Hst; by split).
  destruct (links_addressed S L K (fun n => is_leaf S L (Z.to_nat n)) b s4) as (l1 & s5 & l2 & s6 & E5 & E6 & Hd & A1 & A2); try done.
  { intros d. by eapply loopback_not_device. }
  { eapply stacked_site_ok; [exact Hst4|]. by apply (ti_los _ _ _ _ Hinv'). }
  { split; simpl; [exact Hh| |]; rewrite Eg; [apply AddressGenerator.Reset_wf|]. intros y Hy.
    by apply AddressGenerator.allocated_nil in Hy. }
  assert (s_topo s6 = t) as Et by apply Hd.
  exists b, s6. rewrite Et. split; [|split; [done|split; [done|split; [by exists los, cnt|done]]]]. unfold BuildTopology.
  rewrite (run_bind _ _ _ (Z.of_nat <$> seq 0 S) (set_topo t1 empty_site)) by (unfold on_topo; simpl; by rewrite E1).
  rewrite (run_bind _ _ _ (Z.of_nat <$> seq S L) (set_topo t2 empty_site)) by (unfold on_topo; simpl; by rewrite E2).
  rewrite (run_bind _ _ _ (Z.of_nat <$> seq (S + L) (K * L)) (set_topo t3 empty_site)) by (unfold on_topo; simpl; by rewrite E3).
  rewrite (run_bind _ _ _ _ _ R1), (run_bind _ _ _ _ _ R2), (run_bind _ _ _ _ _ R3).
  rewrite (run_bind _ _ s3 b (set_topo t s3)) by (unfold on_topo; by rewrite Ec).
  change BASE_NETWORK_MASK with (AddressHelper.mask_of 8). rewrite Eb. run. fold s4.
  by rewrite (run_bind _ _ _ _ _ E5), (run_bind _ _ _ _ _ E6).
Qed.
End build.

(** * The addressed network: the claims *)

(** The stack of node [n] has an interface for the device, with the address. *)
Definition at_node {EM R W P} (s : site EM R W P) (n d : nat) (a : Z) : Prop :=
  exists x, s_stacks s !! Z.of_nat n = Some x /\ configured BASE_NETWORK_MASK (Z.of_nat d) a x.

Lemma addressed_at {EM R W P} `{ErrorModel EM} t (s : site EM R W P) d a n k :
  addressed t s d a -> located (t_world t) d (Z.of_nat n) k -> at_node s n d a.
Proof.
  intros (dev & m & x & Hd & Hm & Hx & Hc) (dev' & Hd' & Hm' & _). exists x. split; [|done]. congruence.
Qed.

(** C3. For any numbers of spines, leaves and servers whose links number fewer
    than 2^16, [BuildTopology] gives every node a stack and every link a network
    of its own: the link of server [k] of leaf [l] is the network 192.168.0.0/24
    plus [l K + k], with the server at address 1 and the leaf at 2; the networks
    of the leaf/spine links follow, with the leaf at 1 and the spine at 2.  Each
    end has an interface for its device that is up, has this one address, and
    whose network is in the static routes of the node.  Leaf switches consult
    the load balancer, then static, then global routing; other nodes the last two. *)
Theorem network_addressed {EM R W P} `{ErrorModel EM} `{GlobalRouting.UniformRandom R} `{DeviceIds} `{IpL4Protocol P}
    (rand : Z -> R) (icmp udp tcp : Z) (l4 : P) (CreateCache : Z -> Z) (S L K : nat) :
  Z.of_nat (S + L + K * L) < 2 ^ 32 -> Z.of_nat (K * L) <= 65535 -> Z.of_nat (S * L) <= 65535 ->
  exists b (s : site EM R W P), BuildTopology rand icmp udp tcp l4 CreateCache S L K empty_site = Ok (b, s) /\
    (forall l k, (l < L)%nat -> (k < K)%nat -> exists dv dl, let net := 0xc0a800 + Z.of_nat (l * K + k) in
       server_leaf_netDevContainer b !! (l * K + k)%nat = Some (dv, dl) /\
       link_between (t_world (s_topo s)) dv dl (S + L + (l * K + k)) 1 (S + l) (1 + S + k) /\
       at_node s (S + L + (l * K + k)) dv (net * 256 + 1) /\ at_node s (S + l) dl (net * 256 + 2)) /\
    (forall i l, (i < S)%nat -> (l < L)%nat -> exists dl ds, let net := 0xc0a800 + Z.of_nat (K * L) + Z.of_nat (i * L + l) in
       leaf_spine_netDevContainer b !! (i * L + l)%nat = Some (dl, ds) /\
       link_between (t_world (s_topo s)) dl ds (S + l) (1 + i) i (1 + l) /\
       at_node s (S + l) dl (net * 256 + 1) /\ at_node s i ds (net * 256 + 2)) /\
    (forall n, (n < S + L + K * L)%nat -> exists x rp, s_stacks s !! Z.of_nat n = Some x /\ wf_ipv4 (l3_ipv4 x) /\
       m_routingProtocol x = Some rp /\ shape_of rp = node_shape (is_leaf S L n)).
Proof.
  intros HN HK HS.
  destruct (BuildTopology_ok (EM := EM) (W := W) rand icmp udp tcp l4 CreateCache S L K HN HK HS)
    as (b & s & E & Hc & _ & _ & [_ Hst] & A1 & A2).
  exists b, s. split; [done|]. split_and!.
  - intros l k Hl Hk. destruct (cn_server _ _ _ _ _ Hc l k Hl Hk) as (dv & dl & Hj & Hlink & Ha & Hb).
    exists dv, dl. destruct (A1 _ _ _ Hj). split_and!; [done..| |]; by eapply addressed_at.
  - intros i l Hi Hl. destruct (cn_spine _ _ _ _ _ Hc i l Hi Hl) as (dl & ds & _ & _ & Hj & Hlink & Ha & Hb).
    exists dl, ds. destruct (A2 _ _ _ Hj). split_and!; [done..| |]; by eapply addressed_at.
  - intros n Hn. destruct (Hst (Z.of_nat n)) as (x & Hx & [Hwf _ (rp & Hrp & Hs & _) _ _ _ _] & _); [lia|].
    rewrite Nat2Z.id in Hs. by exists x, rp.
Qed.

#[local] Instance no_errors : ErrorModel unit := fun s _ => (false, s).
#[local] Instance no_random : GlobalRouting.UniformRandom unit := fun lo _ r => (lo, r).
#[local] Instance no_ids : DeviceIds := {| dev_GetIfIndex d := d; dev_GetNodeId d := d |}.
#[local] Instance no_l4 : IpL4Protocol unit := {| l4_GetProtocolNumber p := p; l4_Receive _ _ _ _ s := Ok (RX_OK, s) |}.

(** The default network: two spines, four leaves, one server for each leaf. *)
Lemma network_addressed_witness :
  exists b (s : site unit unit unit unit), BuildTopology (fun _ => tt) 1 17 6 tt id 2 4 1 empty_site = Ok (b, s) /\
    (forall l k, (l < 4)%nat -> (k < 1)%nat -> exists dv dl, let net := 0xc0a800 + Z.of_nat (l * 1 + k) in
       server_leaf_netDevContainer b !! (l * 1 + k)%nat = Some (dv, dl) /\
       link_between (t_world (s_topo s)) dv dl (2 + 4 + (l * 1 + k)) 1 (2 + l) (1 + 2 + k) /\
       at_node s (2 + 4 + (l * 1 + k)) dv (net * 256 + 1) /\ at_node s (2 + l) dl (net * 256 + 2)) /\
    (forall i l, (i < 2)%nat -> (l < 4)%nat -> exists dl ds, let net := 0xc0a800 + Z.of_nat (1 * 4) + Z.of_nat (i * 4 + l) in
       leaf_spine_netDevContainer b !! (i * 4 + l)%nat = Some (dl, ds) /\
       link_between (t_world (s_topo s)) dl ds (2 + l) (1 + i) i (1 + l) /\
       at_node s (2 + l) dl (net * 256 + 1) /\ at_node s i ds (net * 256 + 2)) /\
    (forall n, (n < 2 + 4 + 1 * 4)%nat -> exists x rp, s_stacks s !! Z.of_nat n = Some x /\ wf_ipv4 (l3_ipv4 x) /\
       m_routingProtocol x = Some rp /\ shape_of rp = node_shape (is_leaf 2 4 n)).
Proof. apply (network_addressed (fun _ => tt) 1 17 6 tt id 2 4 1); lia. Defined.

(** ** The devices are the ends of the links *)

(** The ends of the link [p] are those of index [2p] and [2p + 1]. *)
Lemma end_index p r : (r < 2)%nat -> ((2 * p + r) / 2 = p /\ (2 * p + r) mod 2 = r)%nat.
Proof. intros Hr. split; [symmetry; by apply (Nat.div_unique _ 2 p r)|symmetry; by apply (Nat.mod_unique _ 2 p r)]. Qed.
Lemma end_links l i d : ends l !! i = Some d -> exists a b, l !! (i / 2)%nat = Some (a, b) /\
  ((i mod 2 = 0 /\ d = a) \/ (i mod 2 = 1 /\ d = b))%nat.
Proof.
  intros (j & a & b & Hj & Hd)%ends_lookup. assert (i / 2 = j /\ (i mod 2 = 0 /\ d = a \/ i mod 2 = 1 /\ d = b))%nat as [-> ?]; [|by exists a, b].
  destruct (end_index j 0 ltac:(lia)) as [D0 M0], (end_index j 1 ltac:(lia)) as [D1 M1]. rewrite Nat.add_0_r in D0, M0.
  destruct Hd as [[-> ->]|[-> ->]]; [rewrite D0, M0|rewrite D1, M1]; tauto.
Qed.

Section devices.
Context {EM : Type} `{ErrorModel EM}.
Implicit Types t : topo EM.

(** The devices of [t'] are those of [t] and [l]. *)
Definition adds (l : list nat) t t' : Prop :=
  forall d, is_Some (w_devs (t_world t') !! d) -> is_Some (w_devs (t_world t) !! d) \/ d ∈ l.

Lemma adds_refl t : adds [] t t.
Proof using. by left. Qed.
Lemma adds_trans l1 l2 t1 t2 t3 : adds l1 t1 t2 -> adds l2 t2 t3 -> adds (l1 ++ l2) t1 t3.
Proof using. intros Ha Hb d Hd. rewrite elem_of_app. destruct (Hb d Hd) as [Hd'|]; [destruct (Ha d Hd')|]; auto. Qed.
Lemma adds_alter l t1 t2 t3 : adds l t1 t2 -> adds [] t2 t3 -> adds l t1 t3.
Proof using. intros Ha Hb. rewrite <- (app_nil_r l). by eapply adds_trans. Qed.

Lemma set_devs_alter d f t : adds [] t (set_devs (alter f d) t).
Proof using. intros x. simpl. rewrite lookup_alter_is_Some. by left. Qed.
Lemma apply_calls_adds l : forall t, adds [] t (fold_left (fun t c => apply_call c t) l t).
Proof using.
  induction l as [|c l IH]; intros t; [apply adds_refl|]. cbn [fold_left]. eapply adds_alter; [|apply IH].
  destruct c; first [exact (set_devs_alter _ _ _)|intros d Hd; left; exact Hd].
Qed.
Lemma node_AddDevice_adds n d t i t' : node_AddDevice n d t = Ok (i, t') -> adds [] t t'.
Proof using.
  unfold node_AddDevice. intros (nd & t1 & E1 & E)%st_bind_ok.
  assert (t1 = t) as -> by (apply st_bind_ok in E1 as (l & t2 & [= <- <-] & [_ ->]%lift_ok); done).
  cbn [AddDevice] in E. rewrite !run_update in E. injection E as _ <-.
  intros x Hx. apply apply_calls_adds in Hx as [Hx|Hx]; [left|by apply elem_of_nil in Hx].
  simpl in Hx. by rewrite !lookup_alter_is_Some in Hx.
Qed.
Lemma install_end_adds h n t d t' : install_end h n t = Ok (d, t') -> adds [d] t t'.
Proof using.
  unfold install_end. intros (d0 & t1 & [= <- <-] & (a & t2 & [= <- <-] & E)%st_bind_ok)%st_bind_ok.
  rewrite run_update in E. apply st_bind_ok in E as (i & t3 & E1%node_AddDevice_adds & E). rewrite run_update in E.
  injection E as <- <-. eapply adds_alter; [|apply set_devs_alter]. eapply adds_alter; [|exact E1].
  eapply adds_alter; [|apply set_devs_alter]. intros x. simpl. rewrite lookup_insert_is_Some'. intros [->|Hx]; [right; by left|by left].
Qed.
Lemma on_world_Attach_adds c d t (b : bool) t' : on_world (PointToPoint.Attach c d) t = Ok (b, t') -> adds [] t t'.
Proof using.
  unfold on_world. destruct (PointToPoint.Attach c d (t_world t)) as [[x w]|] eqn:E; [|done]. intros [= <- <-].
  unfold PointToPoint.Attach, mbind, PointToPoint.M_bind, PointToPoint.chan in E. destruct (w_chans (t_world t) !! c) as [ch|]; [|done].
  unfold PointToPoint.lift in E. destruct (PointToPoint.channel_Attach d ch); [|done]. cbn in E. injection E as <- <-.
  intros y. simpl. rewrite lookup_alter_is_Some. by left.
Qed.
Lemma Install_adds h a b t p t' : Install h a b t = Ok (p, t') -> adds [p.1; p.2] t t'.
Proof using.
  unfold Install. intros (da & t1 & E1%install_end_adds & (db & t2 & E2%install_end_adds & E)%st_bind_ok)%st_bind_ok.
  apply st_bind_ok in E as (c & t3 & [= <- <-] & (x & t4 & E3%on_world_Attach_adds & (y & t5 & E4%on_world_Attach_adds & E)%st_bind_ok)%st_bind_ok).
  injection E as <- <-. simpl. change [da; db] with ([da] ++ [db]). eapply adds_alter; [|exact E4]. eapply adds_alter; [|exact E3].
  eapply adds_alter; [|intros z Hz; left; exact Hz]. by eapply adds_trans.
Qed.

Lemma spine_links_adds leaves spine : forall t row t', spine_links leaves spine t = Ok (row, t') -> adds (ends row) t t'.
Proof using.
  induction leaves as [|leaf l IH]; intros t row t' E; cbn [spine_links] in E; [injection E as <- <-; apply adds_refl|].
  apply st_bind_ok in E as (p & t1 & E1%Install_adds & (ls & t2 & E2%IH & [= <- <-])%st_bind_ok).
  exact (adds_trans [p.1; p.2] _ _ _ _ E1 E2).
Qed.
Lemma ends_app l1 l2 : ends (l1 ++ l2) = ends l1 ++ ends l2.
Proof using. apply bind_app. Qed.
Lemma all_spine_links_adds leaves spines : forall t rows t',
  all_spine_links leaves spines t = Ok (rows, t') -> adds (ends (mjoin rows)) t t'.
Proof using.
  induction spines as [|s l IH]; intros t rows t' E; cbn [all_spine_links] in E; [injection E as <- <-; apply adds_refl|].
  apply st_bind_ok in E as (row & t1 & E1%spine_links_adds & (rest & t2 & E2%IH & [= <- <-])%st_bind_ok).
  cbn [mjoin list_join]. rewrite ends_app. by eapply adds_trans.
Qed.
Lemma server_links_adds n servers leaf : forall k t row t', server_links n k servers leaf t = Ok (row, t') -> adds (ends row) t t'.
Proof using.
  induction n as [|n IH]; intros k t row t' E; cbn [server_links] in E; [injection E as <- <-; apply adds_refl|].
  apply st_bind_ok in E as (s & t0 & [_ ->]%lift_ok & (p & t1 & E1%Install_adds & (ls & t2 & E2%IH & [= <- <-])%st_bind_ok)%st_bind_ok).
  exact (adds_trans [p.1; p.2] _ _ _ _ E1 E2).
Qed.
Lemma all_server_links_adds K servers leaves : forall i t pairs t',
  all_server_links K i servers leaves t = Ok (pairs, t') -> adds (ends pairs) t t'.
Proof using.
  induction leaves as [|leaf l IH]; intros i t pairs t' E; cbn [all_server_links] in E; [injection E as <- <-; apply adds_refl|].
  apply st_bind_ok in E as (row & t1 & E1%server_links_adds & (rest & t2 & E2%IH & [= <- <-])%st_bind_ok).
  rewrite ends_app. by eapply adds_trans.
Qed.

(** The links in the order in which they are given networks. *)
Definition link_list (b : built) : list (nat * nat) := server_leaf_netDevContainer b ++ leaf_spine_netDevContainer b.
Lemma connect_adds K nodes t b t' : connect K nodes t = Ok (b, t') -> adds (ends (link_list b)) t t'.
Proof using.
  destruct nodes as [[spine leaf] servers]. unfold connect, link_list.
  intros (rows & t1 & E1%all_spine_links_adds & (pairs & t2 & E2%all_server_links_adds & [= <- <-])%st_bind_ok)%st_bind_ok.
  intros d Hd. cbn [server_leaf_netDevContainer leaf_spine_netDevContainer]. rewrite ends_app, elem_of_app.
  destruct (adds_trans _ _ _ _ _ E1 E2 d Hd) as [|Hin]; [by left|]. right. apply elem_of_app in Hin. tauto.
Qed.
Lemma create_nodes_adds n ty t l t' : create_nodes n ty t = Ok (l, t') -> adds [] t t'.
Proof using.
  unfold create_nodes. intros ([c nodes] & _ & [= <- <-])%bind_ok. intros d Hd. by left.
Qed.
Lemma loopback_adds n t d t' : loopback n t = Ok (d, t') -> adds [] t t'.
Proof using.
  unfold loopback. intros (nd & t1 & E1 & E)%st_bind_ok.
  assert (t1 = t) as -> by (apply st_bind_ok in E1 as (l & t2 & [= <- <-] & [_ ->]%lift_ok); done).
  rewrite run_gets in E. destruct (List.find _ _); [injection E as <- <-; apply adds_refl|].
  apply st_bind_ok in E as (x & t2 & [= <- <-] & (i & t3 & E1'%node_AddDevice_adds & [= <- <-])%st_bind_ok).
  eapply adds_alter; [|exact E1']. intros z Hz. left. exact Hz.
Qed.
End devices.

(** ** The routers *)

Section site.
Context {EM R W P : Type} `{ErrorModel EM} `{GlobalRouting.UniformRandom R} `{DeviceIds} `{IpL4Protocol P}.
Variables (rand : Z -> R) (icmp udp tcp : Z) (l4 : P) (CreateCache : Z -> Z).
Implicit Types (s : site EM R W P).
Abbreviation M := (st (site EM R W P)).
Abbreviation stack_Install := (stack_Install (EM := EM) (W := W) rand icmp udp tcp l4 CreateCache).

(** An operation that makes no device and no router *)
Definition same_places s s' : Prop :=
  s_topo s' = s_topo s /\ s_routers s' = s_routers s /\ s_routerId s' = s_routerId s /\ dom (s_stacks s') = dom (s_stacks s).
Definition stable {A} (m : M A) : Prop := forall s a s', m s = Ok (a, s') -> same_places s s'.

Lemma stable_bind {A B} (m : M A) (k : A -> M B) : stable m -> (forall a, stable (k a)) -> stable (m ≫= k).
Proof using.
  intros Hm Hk s b s' (a & s1 & (E1 & E2 & E3 & E4)%Hm & (E5 & E6 & E7 & E8)%Hk)%st_bind_ok. split_and!; congruence.
Qed.
Lemma stable_ret {A} (a : A) : stable (mret a).
Proof using. by intros s x s' [= <- <-]. Qed.
Lemma stable_gets {A} (f : site EM R W P -> A) : stable (gets f).
Proof using. by intros s x s' [= <- <-]. Qed.
Lemma stable_lift {A} (r : res A) : stable (lift r).
Proof using. by intros s x s' [_ ->]%lift_ok. Qed.
Lemma stable_update (f : site EM R W P -> site EM R W P) : (forall s, same_places s (f s)) -> stable (update f).
Proof using. intros Hf s x s' [= <- <-]. apply Hf. Qed.
Lemma stable_on_stack {A} n (m : st (l3 (ListRouting.Ipv4ListRouting (protocol R W)) P) A) : stable (on_stack n m).
Proof using.
  intros s a s'. unfold on_stack. destruct (s_stacks s !! n) eqn:Hn; [|done]. destruct (m _) as [[x y]|]; [|done]. intros [= <- <-].
  split_and!; try done. simpl. by rewrite dom_insert_lookup_L by by eexists.
Qed.
#[local] Hint Resolve stable_ret stable_gets stable_lift stable_on_stack : stable.
Ltac stable := repeat match goal with
  | |- stable (_ ≫= _) => apply stable_bind; [|intros ?]
  | |- stable (update _) => by apply stable_update
  | |- stable (match ?x with pair _ _ => _ end) => destruct x
  | |- stable (if ?b then _ else _) => destruct b
  | _ => progress eauto with stable
  end.

Lemma assign_device_stable d : stable (assign_device CreateCache d).
Proof using. unfold assign_device, NewAddress. stable. Qed.
Lemma assign_all_stable c : forall fuel i, stable (assign_all CreateCache fuel i c).
Proof using.
  induction fuel as [|fuel IH]; intros i; cbn [assign_all]; stable.
  all: unfold Assign, NewNetwork; stable; apply assign_device_stable.
Qed.

(** Every stack comes with a router, whose identifier is its own. *)
Record routers_ok s : Prop := {
  ro_router n r : s_routers s !! n = Some r -> exists id, r = GlobalRouter.new_router id /\ 0 <= id < s_routerId s;
  ro_inj n n' id : s_routers s !! n = Some (GlobalRouter.new_router id) -> s_routers s !! n' = Some (GlobalRouter.new_router id) -> n = n';
  ro_stacks : dom (s_routers s) = dom (s_stacks s);
  ro_next : s_routerId s = Z.of_nat (size (dom (s_stacks s))) }.

Lemma stack_Install_routers b n s u s' : Z.of_nat (size (dom (s_stacks s))) + 1 < 2 ^ 32 ->
  routers_ok s -> stack_Install b n s = Ok (u, s') ->
  routers_ok s' /\ (exists x, s_stacks s' = <[n := x]> (s_stacks s)) /\ adds [] (s_topo s) (s_topo s').
Proof using.
  intros Hsize [Hr Hinj Hst Hnext]. unfold InternetStack.stack_Install. rewrite run_gets. destruct (s_stacks s !! n) as [x|] eqn:Hn; [done|].
  intros (lo & s1 & E1 & E)%st_bind_ok. unfold on_topo in E1. destruct (loopback n (s_topo s)) as [[d t]|] eqn:El; [|done].
  injection E1 as <- <-. rewrite run_update, run_gets in E. apply st_bind_ok in E as ([v y] & s2 & [_ ->]%lift_ok & [= <- <-]).
  assert (s_routers s !! n = None) as Hnr.
  { apply not_elem_of_dom. rewrite Hst. by apply not_elem_of_dom. }
  cbn [set_stack create_router set_topo s_topo s_stacks s_routers s_routerId GlobalRouter.AllocateRouterId].
  split; [|split; [by exists y|by apply (loopback_adds _ _ _ _ El)]].
  rewrite (wrap_small 32) by (unfold in_range; lia). split; cbn [set_stack create_router set_topo s_topo s_stacks s_routers s_routerId].
  - intros m r [[<- <-]|[_ Hm]]%lookup_insert_Some; [exists (s_routerId s); split; [done|lia]|].
    destruct (Hr m r Hm) as (id & -> & ?). exists id. split; [done|lia].
  - intros m m' id [[<- Em]|[_ Hm]]%lookup_insert_Some [[<- Em']|[_ Hm']]%lookup_insert_Some; [done| | |by eapply Hinj].
    + injection Em as <-. destruct (Hr _ _ Hm') as (id' & E' & ?). injection E' as <-. lia.
    + injection Em' as <-. destruct (Hr _ _ Hm) as (id' & E' & ?). injection E' as <-. lia.
  - by rewrite !dom_insert_L, Hst.
  - rewrite dom_insert_L, size_union, size_singleton by (apply disjoint_singleton_l; by apply not_elem_of_dom). lia.
Qed.

(** The stacks of the nodes below [N] *)
Definition below (N : nat) s : Prop := forall n, is_Some (s_stacks s !! n) -> n ∈ (Z.of_nat <$> seq 0 N).
Lemma below_size N s : below N s -> (size (dom (s_stacks s)) <= N)%nat.
Proof using.
  intros Hb. etrans; [apply (subseteq_size _ (list_to_set (Z.of_nat <$> seq 0 N)))|].
  - intros n Hn%elem_of_dom. apply elem_of_list_to_set. by apply Hb.
  - rewrite size_list_to_set; [by rewrite length_fmap, length_seq|]. apply NoDup_fmap; [apply _|apply NoDup_seq].
Qed.
Lemma stacks_routers N b l s u s' : Z.of_nat N + 1 < 2 ^ 32 -> l ⊆ (Z.of_nat <$> seq 0 N) ->
  routers_ok s -> below N s -> each (stack_Install b) l s = Ok (u, s') ->
  routers_ok s' /\ below N s' /\ adds [] (s_topo s) (s_topo s').
Proof using.
  intros HN Hl Hr Hb E.
  refine (each_inv (fun s1 => routers_ok s1 /\ below N s1 /\ adds [] (s_topo s) (s_topo s1)) (stack_Install b) l _ s u s' _ E).
  - intros n s1 v s2 Hn (Hr1 & Hb1 & Ha1) E1. pose proof (below_size N s1 Hb1).
    destruct (stack_Install_routers b n s1 v s2 ltac:(lia) Hr1 E1) as (Hr2 & (x & Ex) & Ha2).
    split; [done|]. split; [|by eapply adds_alter]. intros m. rewrite Ex, lookup_insert_is_Some'. intros [<-|Hm]; [by apply Hl|by apply Hb1].
  - split; [done|]. split; [done|apply adds_refl].
Qed.

(** ** Everything that [BuildTopology] leaves *)

(** The address of the [i]-th end of the links: each link has a network. *)
Definition end_address (i : nat) : Z := (0xc0a800 + Z.of_nat (i / 2)) * 256 + (1 + Z.of_nat (i mod 2)).

Record spine_leaf (S L K : nat) (b : built) s : Prop := {
  sn_connected : connected S L K b (t_world (s_topo s));
  sn_fresh : PointToPointSpec.fresh_world 1502 (t_world (s_topo s));
  sn_topo : exists los cnt, topo_inv_ los (S + L + K * L) cnt (s_topo s);
  sn_stack n : 0 <= n < Z.of_nat (S + L + K * L) -> exists x, s_stacks s !! n = Some x /\
    good_stack (is_leaf S L (Z.to_nat n)) n x /\
    forall d i, m_reverseInterfacesContainer (l3_ipv4 x) !! d = Some i ->
      own_device (s_topo s) n (ends (link_list b)) d \/ (d ∈ t_loopbacks (s_topo s) /\ i = 0);
  sn_routers : routers_ok s;
  sn_ids : s_routerId s <= Z.of_nat (S + L + K * L);
  sn_ends d : is_Some (w_devs (t_world (s_topo s)) !! d) -> d ∈ ends (link_list b);
  sn_nodup : NoDup (ends (link_list b));
  sn_length : length (link_list b) = (K * L + S * L)%nat;
  sn_address i d : ends (link_list b) !! i = Some d -> addressed (s_topo s) s d (end_address i) }.

Lemma BuildTopology_places S L K b s : Z.of_nat (S + L + K * L) + 1 < 2 ^ 32 ->
  BuildTopology (W := W) rand icmp udp tcp l4 CreateCache S L K empty_site = Ok (b, s) ->
  routers_ok s /\ s_routerId s <= Z.of_nat (S + L + K * L) /\
  forall d, is_Some (w_devs (t_world (s_topo s)) !! d) -> d ∈ ends (link_list b).
Proof using.
  intros HN E. destruct (created_spec (EM := EM) S L K ltac:(lia)) as (t1 & t2 & t3 & E1 & E2 & E3 & Hinv). unfold BuildTopology in E.
  rewrite (run_bind _ _ _ (Z.of_nat <$> seq 0 S) (set_topo t1 empty_site)) in E by (unfold on_topo; simpl; by rewrite E1).
  rewrite (run_bind _ _ _ (Z.of_nat <$> seq S L) (set_topo t2 empty_site)) in E by (unfold on_topo; simpl; by rewrite E2).
  rewrite (run_bind _ _ _ (Z.of_nat <$> seq (S + L) (K * L)) (set_topo t3 empty_site)) in E by (unfold on_topo; simpl; by rewrite E3).
  assert (forall from n, (from + n <= S + L + K * L)%nat -> (Z.of_nat <$> seq from n) ⊆ (Z.of_nat <$> seq 0 (S + L + K * L))) as Hsub.
  { intros from n Hle x (y & -> & Hy%elem_of_seq)%list_elem_of_fmap. apply list_elem_of_fmap_2, elem_of_seq. lia. }
  apply st_bind_ok in E as ([] & s1 & F1 & E). apply st_bind_ok in E as ([] & s2 & F2 & E). apply st_bind_ok in E as ([] & s3 & F3 & E).
  assert (routers_ok (set_topo t3 (empty_site (EM := EM) (R := R) (W := W) (P := P)))) as Hr0.
  { split; simpl; by intros n r || by intros n n' id || done. }
  assert (below (S + L + K * L) (set_topo t3 (empty_site (EM := EM) (R := R) (W := W) (P := P)))) as Hb0 by (intros n [x Hx]; done).
  destruct (stacks_routers _ _ _ _ _ _ HN (Hsub S L ltac:(lia)) Hr0 Hb0 F1) as (Hr1 & Hb1 & Ha1).
  destruct (stacks_routers _ _ _ _ _ _ HN (Hsub 0%nat S ltac:(lia)) Hr1 Hb1 F2) as (Hr2 & Hb2 & Ha2).
  destruct (stacks_routers _ _ _ _ _ _ HN (Hsub (S + L)%nat (K * L)%nat ltac:(lia)) Hr2 Hb2 F3) as (Hr3 & Hb3%below_size & Ha3).
  apply st_bind_ok in E as (b' & s4 & F4 & E). unfold on_topo in F4. destruct (connect _ _ (s_topo s3)) as [[b2 t4]|] eqn:Ec; [|done].
  injection F4 as -> <-. apply connect_adds in Ec. apply st_bind_ok in E as (h & s5 & [_ ->]%lift_ok & E). rewrite run_update in E.
  apply st_bind_ok in E as (l1 & s6 & (P1 & P2 & P3 & P4)%assign_all_stable & E). apply st_bind_ok in E as (l2 & s7 & (P5 & P6 & P7 & P8)%assign_all_stable & E).
  injection E as -> <-. cbn [set_helper set_topo s_topo s_routers s_routerId s_stacks] in *. split_and!.
  - destruct Hr3 as [Hr Hinj Hst Hnext]. split; rewrite ?P8, ?P7, ?P6, ?P4, ?P3, ?P2; done.
  - rewrite P7, P3, (ro_next _ Hr3). lia.
  - intros d. rewrite P5, P1. intros Hd. destruct (Ec d Hd) as [Hd3|]; [|done]. destruct (Ha3 d Hd3) as [Hd2|?%elem_of_nil]; [|done].
    destruct (Ha2 d Hd2) as [Hd1|?%elem_of_nil]; [|done]. destruct (Ha1 d Hd1) as [Hd0|?%elem_of_nil]; [|done].
    destruct (adds_alter _ _ _ _ (adds_alter _ _ _ _ (create_nodes_adds _ _ _ _ _ E1) (create_nodes_adds _ _ _ _ _ E2))
      (create_nodes_adds _ _ _ _ _ E3) d Hd0) as [[x Hx]|?%elem_of_nil]; done.
Qed.

Lemma BuildTopology_spine_leaf (S L K : nat) :
  Z.of_nat (S + L + K * L) + 1 < 2 ^ 32 -> Z.of_nat (K * L) <= 65535 -> Z.of_nat (S * L) <= 65535 ->
  exists b s, BuildTopology (W := W) rand icmp udp tcp l4 CreateCache S L K empty_site = Ok (b, s) /\ spine_leaf S L K b s.
Proof using.
  intros HN HK HS. destruct (BuildTopology_ok (EM := EM) (W := W) rand icmp udp tcp l4 CreateCache S L K ltac:(lia) HK HS)
    as (b & s & E & Hc & Hf & Ht & [_ Hst] & A1 & A2).
  destruct (BuildTopology_places S L K b s HN E) as (Hr & Hid & Hd). exists b, s. split; [done|].
  pose proof (cn_links _ _ _ _ _ Hc) as [Hl1 Hl2]. split; try done.
  - intros n Hn. destruct (Hst n Hn) as (x & Hx & Hg & Hrev). exists x. split; [done|]. split; [done|].
    intros d i Hdi. destruct (Hrev d i Hdi) as [Ho|]; [left|by right]. eapply own_device_weaken; [|exact Ho].
    intros y. unfold link_list. rewrite ends_app, !elem_of_app. tauto.
  - unfold link_list. rewrite ends_app. apply NoDup_app. split; [|split].
    + eapply ends_NoDup; [by eapply servers_placed|rewrite Hl2; apply servers_apart].
    + intros d Hd1 Hd2. by eapply (links_disjoint S L K b).
    + eapply ends_NoDup; [by eapply spines_placed|rewrite Hl1; apply spines_apart].
  - unfold link_list. rewrite length_app. lia.
  - intros i d Hi. destruct (end_links _ _ _ Hi) as (a & a' & Hj & Hside). unfold end_address.
    assert (addressed (s_topo s) s a ((0xc0a800 + Z.of_nat (i / 2)) * 256 + 1) /\
            addressed (s_topo s) s a' ((0xc0a800 + Z.of_nat (i / 2)) * 256 + 2)) as [Ha Ha'].
    { unfold link_list in Hj. apply lookup_app_Some in Hj as [Hj|[Hge Hj]]; [by apply A1|]. destruct (A2 _ _ _ Hj) as [B1 B2].
      rewrite Hl2 in B1, B2, Hge.
      replace (0xc0a800 + Z.of_nat (i / 2)) with (0xc0a800 + Z.of_nat (K * L) + Z.of_nat (i / 2 - K * L)) by lia. done. }
    destruct Hside as [[-> ->]|[-> ->]]; done.
Qed.

(** ** The interfaces of a stack *)

(** The interface [j] of the stack is that of the [i]-th end of the links, the device [d]. *)
Record link_interface b (i d j : nat) (ifc : Ipv4Interface) (x : l3 (ListRouting.Ipv4ListRouting (protocol R W)) P) : Prop := {
  lf_end : ends (link_list b) !! i = Some d;
  lf_interface : m_interfaces (l3_ipv4 x) !! j = Some ifc;
  lf_registered : m_reverseInterfacesContainer (l3_ipv4 x) !! Z.of_nat d = Some (Z.of_nat j);
  lf_device : m_device ifc = Some (Z.of_nat d);
  lf_up : m_ifup ifc = true;
  lf_forwarding : m_forwarding ifc = true;
  lf_metric : m_metric ifc = 1;
  lf_address : m_ifaddrs ifc = [new_address (end_address i) BASE_NETWORK_MASK] }.
Definition device_of s (d : nat) (n : nat) : Prop := exists dev,
  w_devs (t_world (s_topo s)) !! d = Some dev /\ PointToPoint.m_node dev = Some (Z.of_nat n).

Section summary.
Context (S L K : nat) (b : built) s (Hs : spine_leaf S L K b s).
Abbreviation N := (S + L + K * L)%nat.

Lemma device_interface i d n x : ends (link_list b) !! i = Some d -> device_of s d n -> s_stacks s !! Z.of_nat n = Some x ->
  exists j ifc, link_interface b i d j ifc x.
Proof using Hs.
  intros Hi (dev & Hd & Hn) Hx. destruct (sn_address _ _ _ _ _ Hs i d Hi) as (dev' & n' & x' & Hd' & Hn' & Hx' & Hc).
  assert (dev' = dev) as -> by congruence. assert (n' = Z.of_nat n) as -> by congruence. assert (x' = x) as -> by congruence.
  destruct Hc as (k & ifc & rp & Hk & Hifc & Hdev & Hup & Hf & Hm & Ha & _). exists (Z.to_nat k), ifc.
  split; try done. destruct (decide (0 <= k)) as [|Hneg]; [by rewrite Z2Nat.id|]. exfalso.
  assert (0 <= Z.of_nat n < Z.of_nat N) as HnN.
  { destruct (sn_topo _ _ _ _ _ Hs) as (los & cnt & Ht). destruct (li_back _ _ _ _ (ti_listing _ _ _ _ Ht) d dev Hd) as (m & nd & Em & Hnd & _).
    assert (m = n) as -> by (rewrite Hn in Em; injection Em; lia). apply lookup_lt_Some in Hnd. rewrite (ti_length _ _ _ _ Ht) in Hnd. lia. }
  destruct (sn_stack _ _ _ _ _ Hs _ HnN) as (x' & Hx2 & Hg & _). assert (x' = x) as -> by congruence.
  destruct (wf_rev _ (gs_wf _ _ _ Hg) _ _ Hk). lia.
Qed.

Lemma stack_interface n x j ifc : (n < N)%nat -> s_stacks s !! Z.of_nat n = Some x -> m_interfaces (l3_ipv4 x) !! j = Some ifc ->
  (j = 0%nat /\ exists lo, ifc = loopback_interface (Z.of_nat n) lo) \/
  exists i d, device_of s d n /\ link_interface b i d j ifc x.
Proof using Hs.
  intros Hn Hx Hj. destruct (sn_stack _ _ _ _ _ Hs (Z.of_nat n) ltac:(lia)) as (x' & Hx2 & Hg & Hrev). assert (x' = x) as -> by congruence.
  destruct (wf_dev _ (gs_wf _ _ _ Hg) _ _ Hj) as (d & Hd). pose proof (gs_registered _ _ _ Hg _ _ _ Hj Hd) as Hr.
  destruct (Hrev d _ Hr) as [(d' & dev & -> & (i & Hi)%list_elem_of_lookup & Hdev & Hnode)|[_ Hj0]].
  - right. exists i, d'. assert (device_of s d' n) as Ho by by exists dev. split; [done|].
    destruct (device_interface i d' n x Hi Ho Hx) as (j' & ifc' & Hl). assert (j' = j) as ->.
    { pose proof (lf_registered _ _ _ _ _ _ Hl) as Hr'. rewrite Hr in Hr'. injection Hr'. lia. }
    pose proof (lf_interface _ _ _ _ _ _ Hl) as Hj'. assert (ifc' = ifc) as -> by congruence. done.
  - left. assert (j = 0%nat) as -> by lia. split; [done|]. destruct (gs_lo _ _ _ Hg) as (lo & Hlo). exists lo. congruence.
Qed.

Lemma length_ends l : length (ends l) = (2 * length l)%nat.
Proof using. induction l as [|p l IH]; [done|]. change (length (ends (p :: l))) with (2 + length (ends l))%nat. rewrite IH. simpl. lia. Qed.
(** A stack has fewer interfaces than the links have ends. *)
Lemma interfaces_bound n x : (n < N)%nat -> s_stacks s !! Z.of_nat n = Some x ->
  (length (m_interfaces (l3_ipv4 x)) <= 1 + 2 * (K * L + S * L))%nat.
Proof using Hs.
  intros Hn Hx. rewrite <- (sn_length _ _ _ _ _ Hs), <- length_ends.
  set (ifs := m_interfaces (l3_ipv4 x)). set (dev ifc := match m_device ifc with Some d => Z.to_nat d | None => 0%nat end).
  assert (length (drop 1 ifs) <= length (ends (link_list b)))%nat as Hle.
  { rewrite <- (length_fmap dev). apply submseteq_length, NoDup_submseteq.
    - apply NoDup_alt. intros i j d Hi Hj. apply list_lookup_fmap_Some in Hi as (ifc & -> & Hi). apply list_lookup_fmap_Some in Hj as (ifc' & E & Hj).
      rewrite lookup_drop in Hi, Hj.
      destruct (stack_interface n x _ _ Hn Hx Hi) as [[? _]|(a & d & _ & H1')]; [lia|].
      destruct (stack_interface n x _ _ Hn Hx Hj) as [[? _]|(a' & d' & _ & H2')]; [lia|].
      unfold dev in E. rewrite (lf_device _ _ _ _ _ _ H1'), (lf_device _ _ _ _ _ _ H2'), !Nat2Z.id in E. subst d'.
      pose proof (lf_registered _ _ _ _ _ _ H1') as R1. rewrite (lf_registered _ _ _ _ _ _ H2') in R1. injection R1. lia.
    - intros y (ifc & -> & (j & Hj)%list_elem_of_lookup)%list_elem_of_fmap. rewrite lookup_drop in Hj.
      destruct (stack_interface n x _ _ Hn Hx Hj) as [[? _]|(a & d & _ & Hl)]; [lia|].
      unfold dev. rewrite (lf_device _ _ _ _ _ _ Hl), Nat2Z.id. eapply list_elem_of_lookup_2, (lf_end _ _ _ _ _ _ Hl). }
  rewrite length_drop in Hle. lia.
Qed.

(** Which end of which link a device is determines its address. *)
Lemma end_address_inj i j : end_address i = end_address j -> i = j.
Proof using.
  unfold end_address. intros E. pose proof (Nat.mod_upper_bound i 2 ltac:(lia)). pose proof (Nat.mod_upper_bound j 2 ltac:(lia)).
  rewrite (Nat.div_mod_eq i 2), (Nat.div_mod_eq j 2). lia.
Qed.
End summary.
End site.
