(* ===== verification/SpineLeaf.v ===== *)
(** * Routing the spine/leaf network
      ([scratch/loadbalancer/main-loadbalancer.cc], [src/internet/helper/ipv4-global-routing-helper.cc])

    [as_net] is the network that [BuildTopology] made, as the route computation
    reads it: the same devices, channels, nodes, stacks and routers.  It is a
    network of point-to-point links ([p2p_net]), so what [GlobalPaths] shows of
    [PopulateRoutingTables] holds of it. *)

From S2P Require Import Prelude Bytes Packet Ipv4Ifaces Routing RlRouting GlobalRouter RouteManager PopulateRoutes GlobalPaths.
From S2P Require Ipv4Address Ipv4Header GlobalRouting ListRouting PointToPoint PointToPointSpec Node Topology TopologySpec.
From S2P Require Ipv4L3Protocol InternetStack InternetStackSpec BuildSpec.
Import GlobalRouting (Ipv4GlobalRouting, UniformRandom).
Import PointToPoint (ErrorModel, w_devs, w_chans).
Import ListRouting (Ipv4ListRouting, m_routingProtocols).
Import Ipv4L3Protocol (l3, l3_ipv4, IpL4Protocol).
Import Node (m_devices, m_sid).
Import Topology (topo, t_world, t_nodes, t_loopbacks, built).
Import InternetStack (site, s_topo, s_stacks, s_routers).
Import InternetStackSpec (good_stack, loopback_interface, own_device, ends).
Import BuildSpec (spine_leaf, link_list, link_interface, device_of, end_address).

(** ** The network as the route computation reads it *)

Section view.
Context {EM R W P : Type} `{ErrorModel EM} `{UniformRandom R} `{DeviceIds} `{IpL4Protocol P}.
Implicit Types (t : topo EM) (s : site EM R W P).

(** [GetNode], [GetChannel], [IsBroadcast], [IsPointToPoint] and [IsBridge] of both kinds of device *)
Definition p2p_device (dev : PointToPoint.device (EM := EM)) : NetDevice :=
  mkDevice (Z.to_nat (default 0 (PointToPoint.m_node dev))) (Z.of_nat <$> PointToPoint.GetChannel dev)
    (PointToPoint.IsBroadcast dev) (PointToPoint.IsPointToPoint dev) false None.
Definition node_of t (d : Z) : nat :=
  match list_find (fun nd => d ∈ m_devices nd) (t_nodes t) with Some (k, _) => k | None => 0%nat end.
Definition loopback_device t (d : Z) : NetDevice := mkDevice (node_of t d) None true false true None.
Definition as_devices t : gmap Z NetDevice :=
  kmap Z.of_nat (p2p_device <$> w_devs (t_world t)) ∪ list_to_map ((fun d => (d, loopback_device t d)) <$> t_loopbacks t).

(** [GetNDevices] and [GetDevice] of a channel *)
Definition channel_devices (ch : PointToPoint.channel) : list Z :=
  omap (fun i => match PointToPoint.GetDevice i ch with Ok (Some d) => Some (Z.of_nat d) | _ => None end)
    (seq 0 (PointToPoint.GetNDevices ch)).
Definition as_channels t : gmap Z (list Z) := kmap Z.of_nat (channel_devices <$> w_chans (t_world t)).

(** The global routing protocol in the list of a node: the router of the node points to it. *)
Definition global_of (l : Ipv4ListRouting (protocol R W)) : option (Ipv4GlobalRouting R) :=
  head (omap (fun e => match e.2 with PGlobal g => Some g | _ => None end) (m_routingProtocols l)).
Definition as_router s (k : nat) : option (GlobalRouter R) :=
  r ← s_routers s !! Z.of_nat k;
  Some (match x ← s_stacks s !! Z.of_nat k; rp ← Ipv4L3Protocol.m_routingProtocol x; global_of rp with
        | Some g => SetRoutingProtocol g r
        | None => r
        end).
Definition as_node s (k : nat) (nd : Node.node) : rnode R :=
  mkRnode (m_sid nd) (m_devices nd) (l3_ipv4 <$> s_stacks s !! Z.of_nat k) (as_router s k).
Definition as_net s : net R :=
  mkNet (as_devices (s_topo s)) (as_channels (s_topo s)) (imap (as_node s) (t_nodes (s_topo s))).

(** ** It is a network of point-to-point links *)

Lemma p2p_device_at t (d : nat) dev : w_devs (t_world t) !! d = Some dev -> as_devices t !! Z.of_nat d = Some (p2p_device dev).
Proof using.
  intros Hd. unfold as_devices. apply lookup_union_Some_l. rewrite lookup_kmap by apply _. by rewrite lookup_fmap, Hd.
Qed.
Lemma loopback_device_at t (d : Z) : d ∈ t_loopbacks t -> 0 <= d -> w_devs (t_world t) !! Z.to_nat d = None ->
  as_devices t !! d = Some (loopback_device t d).
Proof using.
  intros Hin Hd Hnone. unfold as_devices. rewrite lookup_union_r.
  - revert Hin. generalize (t_loopbacks t). induction l as [|x l IH]; intros Hin; [by apply elem_of_nil in Hin|]. simpl.
    destruct (decide (x = d)) as [->|Hne]; [by rewrite lookup_insert_eq|]. rewrite lookup_insert_ne by done. apply IH.
    apply elem_of_cons in Hin as [?|?]; [congruence|done].
  - apply lookup_kmap_None; [apply _|]. intros i ->. rewrite Nat2Z.id in Hnone. by rewrite lookup_fmap, Hnone.
Qed.
Lemma as_net_node s k : n_nodes (as_net s) !! k = as_node s k <$> t_nodes (s_topo s) !! k.
Proof using. simpl. apply list_lookup_imap. Qed.

(** *** The protocols of a node *)

Lemma global_shape (l : Ipv4ListRouting (protocol R W)) rl :
  InternetStackSpec.shape_of l = InternetStackSpec.node_shape rl -> InternetStackSpec.clean l ->
  exists g, global_of l = Some g /\ without_routes g.
Proof using.
  destruct l as [ps ip]. unfold InternetStackSpec.shape_of, InternetStackSpec.clean, global_of. simpl. intros Hs Hc. destruct rl.
  - destruct ps as [|[p1 [?|?|?]] [|[p2 [?|?|?]] [|[p3 [?|?|g]] [|? ?]]]]; try discriminate.
    exists g. split; [done|]. do 2 apply Forall_cons in Hc as [_ Hc]. apply Forall_cons in Hc as [Hc _]. exact Hc.
  - destruct ps as [|[p1 [?|?|?]] [|[p2 [?|?|g]] [|? ?]]]; try discriminate.
    exists g. split; [done|]. apply Forall_cons in Hc as [_ Hc]. apply Forall_cons in Hc as [Hc _]. exact Hc.
Qed.

Section net.
Context (S L K : nat) (b : built) s (Hs : spine_leaf S L K b s).
Abbreviation N := (S + L + K * L)%nat.
Abbreviation w := (as_net s).
Abbreviation t := (s_topo s).
Abbreviation E := (ends (link_list b)).

(** What the route computation sees of a node *)
Record seen (k : nat) (n : rnode R) (nd : Node.node) (x : l3 (Ipv4ListRouting (protocol R W)) P) (rid : Z) (g : Ipv4GlobalRouting R) : Prop := {
  se_below : (k < N)%nat;
  se_node : t_nodes t !! k = Some nd;
  se_stack : s_stacks s !! Z.of_nat k = Some x;
  se_good : good_stack (BuildSpec.is_leaf S L k) (Z.of_nat k) x;
  se_router : s_routers s !! Z.of_nat k = Some (new_router rid);
  se_id : 0 <= rid < Z.of_nat N;
  se_routes : without_routes g;
  se_view : n = mkRnode 0 (m_devices nd) (Some (l3_ipv4 x)) (Some (SetRoutingProtocol g (new_router rid))) }.

Lemma node_seen k : (k < N)%nat -> exists n nd x rid g, n_nodes w !! k = Some n /\ seen k n nd x rid g.
Proof using Hs.
  intros Hk. destruct (BuildSpec.sn_topo _ _ _ _ _ Hs) as (los & cnt & Ht).
  destruct (lookup_lt_is_Some_2 (t_nodes t) k) as (nd & Hnd); [by rewrite (TopologySpec.ti_length _ _ _ _ Ht)|].
  destruct (BuildSpec.sn_stack _ _ _ _ _ Hs (Z.of_nat k) ltac:(lia)) as (x & Hx & Hg & _). rewrite Nat2Z.id in Hg.
  destruct (InternetStackSpec.gs_routing _ _ _ Hg) as (rp & Hrp & Hsh & Hcl). destruct (global_shape rp _ Hsh Hcl) as (g & Eg & Hg0).
  pose proof (BuildSpec.sn_routers _ _ _ _ _ Hs) as Hro.
  assert (is_Some (s_routers s !! Z.of_nat k)) as (r & Hr).
  { apply elem_of_dom. rewrite (BuildSpec.ro_stacks _ Hro). apply elem_of_dom. by eexists. }
  destruct (BuildSpec.ro_router _ Hro _ _ Hr) as (rid & -> & Hid). pose proof (BuildSpec.sn_ids _ _ _ _ _ Hs).
  exists (as_node s k nd), nd, x, rid, g. split; [by rewrite as_net_node, Hnd|]. split; try done; [lia|].
  unfold as_node, as_router. rewrite Hx, Hr. simpl. rewrite Hrp. simpl. rewrite Eg.
  by rewrite (TopologySpec.li_system _ _ _ _ (TopologySpec.ti_listing _ _ _ _ Ht) _ _ Hnd).
Qed.
Lemma node_below k n : n_nodes w !! k = Some n -> (k < N)%nat.
Proof using Hs.
  destruct (BuildSpec.sn_topo _ _ _ _ _ Hs) as (los & cnt & Ht). rewrite as_net_node. intros (nd & Hnd & _)%fmap_Some_1.
  apply lookup_lt_Some in Hnd. by rewrite (TopologySpec.ti_length _ _ _ _ Ht) in Hnd.
Qed.
Lemma node_seen' k n : n_nodes w !! k = Some n -> exists nd x rid g, seen k n nd x rid g.
Proof using Hs.
  intros Hn. destruct (node_seen k (node_below _ _ Hn)) as (n' & nd & x & rid & g & Hn' & Hse).
  assert (n' = n) as -> by congruence. by exists nd, x, rid, g.
Qed.
Lemma seen_ids k k' n n' nd nd' x x' rid g g' : seen k n nd x rid g -> seen k' n' nd' x' rid g' -> k = k'.
Proof using Hs.
  intros Ha Hb. apply Nat2Z.inj. eapply (BuildSpec.ro_inj _ (BuildSpec.sn_routers _ _ _ _ _ Hs)); [apply (se_router _ _ _ _ _ _ Ha)|apply (se_router _ _ _ _ _ _ Hb)].
Qed.

(** *** The devices *)

Lemma device_below d k : device_of s d k -> (k < N)%nat /\ exists nd, t_nodes t !! k = Some nd /\ Z.of_nat d ∈ m_devices nd.
Proof using Hs.
  intros (dev & Hd & Hk). destruct (BuildSpec.sn_topo _ _ _ _ _ Hs) as (los & cnt & Ht).
  destruct (TopologySpec.li_back _ _ _ _ (TopologySpec.ti_listing _ _ _ _ Ht) d dev Hd) as (m & nd & Em & Hnd & Hin).
  assert (m = k) as -> by (rewrite Hk in Em; injection Em; lia). pose proof (lookup_lt_Some _ _ _ Hnd) as Hlt.
  rewrite (TopologySpec.ti_length _ _ _ _ Ht) in Hlt. split; [done|]. by exists nd.
Qed.
(** Every device in the list of a node is a loopback device or the end of a link. *)
Lemma listed_device k nd d : t_nodes t !! k = Some nd -> d ∈ m_devices nd ->
  (n_devs w !! d = Some (loopback_device t d) /\ node_of t d = k) \/ exists d', d = Z.of_nat d' /\ device_of s d' k.
Proof using Hs.
  intros Hnd Hin. destruct (BuildSpec.sn_topo _ _ _ _ _ Hs) as (los & cnt & Ht). pose proof (TopologySpec.ti_listing _ _ _ _ Ht) as Hli.
  destruct (TopologySpec.li_listed _ _ _ _ Hli _ _ _ Hnd Hin) as [Hd [Hlo|(dev & Hdev & Hk)]].
  - left. pose proof (TopologySpec.ti_lo _ _ _ _ Ht) as Hnone. eapply Forall_forall in Hnone as [_ Hnone]; [|exact Hlo]. split.
    + apply loopback_device_at; [by rewrite (TopologySpec.ti_los _ _ _ _ Ht)|lia|done].
    + unfold node_of. destruct (list_find _ _) as [[j nd']|] eqn:Ef.
      * apply list_find_Some in Ef as (Hj & Hin' & _). by eapply (TopologySpec.li_once _ _ _ _ Hli).
      * exfalso. eapply list_find_None in Ef. eapply Forall_forall in Ef; [|by eapply list_elem_of_lookup_2]. done.
  - right. exists (Z.to_nat d). rewrite Z2Nat.id by lia. split; [done|]. by exists dev.
Qed.
Lemma device_view d k : device_of s d k -> exists dev, w_devs (t_world t) !! d = Some dev /\
  n_devs w !! Z.of_nat d = Some (mkDevice k (Z.of_nat <$> PointToPoint.m_channel dev) true true false None).
Proof using.
  intros (dev & Hd & Hk). exists dev. split; [done|]. simpl. rewrite (p2p_device_at _ _ _ Hd). unfold p2p_device. rewrite Hk. simpl. by rewrite Nat2Z.id.
Qed.
Lemma link_dev_device k d : link_dev w k d <-> exists d', d = Z.of_nat d' /\ device_of s d' k.
Proof using Hs.
  split.
  - intros (n & nd & Hn & Hd & Hnd & Hlo). destruct (node_seen' _ _ Hn) as (no & x & rid & g & Hse).
    rewrite (se_view _ _ _ _ _ _ Hse) in Hd. simpl in Hd.
    destruct (listed_device _ _ _ (se_node _ _ _ _ _ _ Hse) Hd) as [[Hv _]|?]; [|done]. rewrite Hv in Hnd. by injection Hnd as <-.
  - intros (d' & -> & Hd). destruct (device_below _ _ Hd) as (Hk & nd & Hnd & Hin). destruct (device_view _ _ Hd) as (dev & _ & Hv).
    destruct (node_seen k Hk) as (n & nd' & x & rid & g & Hn & Hse). exists n. eexists. split; [done|].
    rewrite (se_view _ _ _ _ _ _ Hse). assert (nd' = nd) as -> by (pose proof (se_node _ _ _ _ _ _ Hse); congruence). by split_and!.
Qed.

(** *** The ends of the links *)

(** What the route computation sees of the [i]-th end of the links, the device [d] of the node [k] *)
Definition the_end (i d k : nat) (e : link_end) : Prop := exists j ifc x rid g n nd,
  n_nodes w !! k = Some n /\ seen k n nd x rid g /\ link_interface b i d j ifc x /\
  e = mkEnd k rid (l3_ipv4 x) (Z.of_nat j) ifc (new_address (end_address i) InternetStack.BASE_NETWORK_MASK).
Lemma interface_for_found d (l : list Ipv4Interface) j ifc : l !! j = Some ifc -> Ipv4Interface.m_device ifc = Some d ->
  (forall j' ifc', l !! j' = Some ifc' -> Ipv4Interface.m_device ifc' = Some d -> j' = j) -> interface_for d l 0 = Some (Z.of_nat j).
Proof using.
  intros Hj Hd Huniq. destruct (interface_for d l 0) as [m|] eqn:Ef.
  - apply interface_for_lookup in Ef as (Hm & ifc' & Hj' & Hd'). rewrite Z.sub_0_r in Hj'. specialize (Huniq _ _ Hj' Hd'). f_equal. lia.
  - exfalso. clear Huniq. revert Ef. generalize 0. revert j Hj. induction l as [|y l IH]; intros j Hj m; simpl; [done|].
    case_bool_decide; [done|]. destruct j as [|j]; [injection Hj as <-; contradiction|]. by apply (IH j).
Qed.
Lemma find_interface_found f (l : list Ipv4Interface) j ifc : l !! j = Some ifc -> existsb f (m_ifaddrs ifc) = true ->
  (forall j' ifc', l !! j' = Some ifc' -> existsb f (m_ifaddrs ifc') = true -> j' = j) -> find_interface f l 0 = Z.of_nat j.
Proof using.
  intros Hj Hf Huniq. assert (forall m, find_interface f l m = m + Z.of_nat j) as Hm; [|by rewrite Hm].
  revert j Hj Huniq. induction l as [|y l IH]; intros j Hj Huniq m; [done|]. simpl. destruct (existsb f (m_ifaddrs y)) eqn:Ey.
  - specialize (Huniq 0%nat y eq_refl Ey). lia.
  - destruct j as [|j]; [injection Hj as <-; congruence|]. rewrite (IH j Hj); [lia|].
    intros j' ifc' Hj' Hf'. specialize (Huniq (Datatypes.S j') ifc' Hj' Hf'). lia.
Qed.
Lemma land_ones x : 0 <= x < 2 ^ 32 -> Ipv4Address.CombineMask x Ipv4Address.mask_GetOnes = x.
Proof using. intros Hx. unfold Ipv4Address.CombineMask, Ipv4Address.mask_GetOnes. change 0xffffffff with (Z.ones 32). rewrite Z.land_ones by lia. by apply Z.mod_small. Qed.
Lemma end_at_device i d k : E !! i = Some d -> device_of s d k -> exists e, end_at w (Z.of_nat d) = Some e /\ the_end i d k e.
Proof using Hs.
  intros Hi Hd. destruct (device_below _ _ Hd) as (Hk & _). destruct (device_view _ _ Hd) as (dev & Hdev & Hv).
  destruct (node_seen k Hk) as (n & nd & x & rid & g & Hn & Hse).
  destruct (BuildSpec.device_interface S L K b s Hs i d k x Hi Hd (se_stack _ _ _ _ _ _ Hse)) as (j & ifc & Hl).
  pose proof Hl as [_ Li Lr Ld _ _ _ La].
  eexists. split; [|by exists j, ifc, x, rid, g, n, nd]. unfold end_at. rewrite Hv. cbn [mbind option_bind nd_node]. rewrite Hn.
  rewrite (se_view _ _ _ _ _ _ Hse). simpl.
  unfold FindInterfaceForDevice. cbn [rn_ipv4]. rewrite (interface_for_found _ _ j ifc Li Ld).
  - simpl. rewrite Nat2Z.id, Li. simpl. by rewrite La.
  - intros j' ifc' Hj' Hd'. pose proof (InternetStackSpec.gs_registered _ _ _ (se_good _ _ _ _ _ _ Hse) _ _ _ Hj' Hd') as Hr.
    rewrite Lr in Hr. injection Hr. lia.
Qed.

(** *** The links *)

Lemma linked_peers a c : TopologySpec.linked (t_world t) a c -> peer w (Z.of_nat a) = Some (Z.of_nat c) /\ peer w (Z.of_nat c) = Some (Z.of_nat a).
Proof using.
  intros (ch & x & [(da & Ha & Hca & _) (dc & Hc & Hcc & _) Hne Hch Htwo _ Hlk] & _ & _).
  assert (n_chans w !! Z.of_nat ch = Some (channel_devices x)) as Hdevs.
  { simpl. unfold as_channels. rewrite lookup_kmap by apply _. by rewrite lookup_fmap, Hch. }
  assert (channel_devices x = [Z.of_nat a; Z.of_nat c] \/ channel_devices x = [Z.of_nat c; Z.of_nat a]) as Hx.
  { unfold channel_devices, PointToPoint.GetNDevices, PointToPoint.GetDevice, PointToPoint.GetPointToPointDevice. rewrite Htwo. simpl.
    destruct Hlk as [[-> ->]|[-> ->]]; simpl; auto. }
  assert (forall d dev, w_devs (t_world t) !! d = Some dev -> PointToPoint.m_channel dev = Some ch ->
    peer w (Z.of_nat d) = match GetAdjacent (Z.of_nat d) (channel_devices x) with Ok d' => Some d' | Err _ => None end) as Hpeer.
  { intros d dev Hd Hcd. unfold peer. cbn [n_devs as_net]. rewrite (p2p_device_at _ _ _ Hd). unfold p2p_device, PointToPoint.GetChannel. rewrite Hcd.
    cbn [mbind option_bind nd_channel fmap option_fmap option_map]. rewrite Hdevs. done. }
  rewrite (Hpeer a da Ha Hca), (Hpeer c dc Hc Hcc). unfold GetAdjacent.
  destruct Hx as [-> | ->]; rewrite ?Z.eqb_refl, ?(proj2 (Z.eqb_neq (Z.of_nat a) (Z.of_nat c))), ?(proj2 (Z.eqb_neq (Z.of_nat c) (Z.of_nat a))) by lia; done.
Qed.

(** The nodes of the link [p] *)
Definition first_node (p : nat) : nat := if (p <? K * L)%nat then S + L + p else S + (p - K * L) mod L.
Definition second_node (p : nat) : nat := if (p <? K * L)%nat then S + p / K else (p - K * L) / L.
Lemma link_at p a c : link_list b !! p = Some (a, c) ->
  TopologySpec.linked (t_world t) a c /\ device_of s a (first_node p) /\ device_of s c (second_node p) /\ (p < K * L + S * L)%nat.
Proof using Hs.
  pose proof (BuildSpec.sn_connected _ _ _ _ _ Hs) as Hc. destruct (TopologySpec.cn_links _ _ _ _ _ Hc) as [Hl1 Hl2]. unfold link_list, first_node, second_node.
  intros Hp. destruct (Nat.ltb_spec p (K * L)) as [Hlt|Hge].
  - rewrite lookup_app_l in Hp by lia. destruct (BuildSpec.index_split p K L Hlt) as (Ep & H1' & H2').
    destruct (TopologySpec.cn_server _ _ _ _ _ Hc _ _ H1' H2') as (dv & dl & Hq & Hlk & (dev1 & ? & ? & _) & (dev2 & ? & ? & _)).
    rewrite <- Ep in *. simplify_eq. split; [done|]. split; [by exists dev1|]. split; [by exists dev2|lia].
  - rewrite lookup_app_r, Hl2 in Hp by lia. pose proof (lookup_lt_Some _ _ _ Hp) as Hlt. rewrite Hl1 in Hlt.
    destruct (BuildSpec.index_split (p - K * L) L S ltac:(lia)) as (Ep & H1' & H2').
    destruct (TopologySpec.cn_spine _ _ _ _ _ Hc _ _ H1' H2') as (dl & ds & _ & _ & Hq & Hlk & (dev1 & ? & ? & _) & (dev2 & ? & ? & _)).
    rewrite <- Ep in *. simplify_eq. split; [done|]. split; [by exists dev1|]. split; [by exists dev2|lia].
Qed.
Lemma device_node d k k' : device_of s d k -> device_of s d k' -> k = k'.
Proof using. intros (dev & Hd & Hk) (dev' & Hd' & Hk'). assert (dev' = dev) as -> by congruence. rewrite Hk in Hk'. injection Hk'. lia. Qed.

(** The [i]-th end is the device [d] of [k], and the other end of its link the
    device [d'] of [k'], of index [i']. *)
Record wired (i d k i' d' k' : nat) : Prop := {
  wi_end : E !! i = Some d;
  wi_end' : E !! i' = Some d';
  wi_device : device_of s d k;
  wi_device' : device_of s d' k';
  wi_peer : peer w (Z.of_nat d) = Some (Z.of_nat d');
  wi_peer' : peer w (Z.of_nat d') = Some (Z.of_nat d);
  wi_link : (i / 2 < K * L + S * L)%nat;
  wi_other : (i' / 2 = i / 2)%nat;
  wi_nodes : (i mod 2 = 0 /\ k = first_node (i / 2) /\ k' = second_node (i / 2))%nat \/
             (i mod 2 = 1 /\ k = second_node (i / 2) /\ k' = first_node (i / 2))%nat }.

Lemma ends_at (l : list (nat * nat)) : forall p a c, l !! p = Some (a, c) -> ends l !! (2 * p)%nat = Some a /\ ends l !! (2 * p + 1)%nat = Some c.
Proof using.
  induction l as [|[x y] l IH]; intros p a c Hp; [done|]. change (ends ((x, y) :: l)) with (x :: y :: ends l). destruct p as [|p].
  - by injection Hp as <- <-.
  - replace (2 * Datatypes.S p)%nat with (Datatypes.S (Datatypes.S (2 * p))) by lia. simpl in Hp. apply IH in Hp. exact Hp.
Qed.
Lemma end_wired i d : E !! i = Some d -> exists k i' d' k', wired i d k i' d' k'.
Proof using Hs.
  intros Hi. destruct (BuildSpec.end_links _ _ _ Hi) as (a & c & Hp & Hside). destruct (link_at _ _ _ Hp) as (Hlk & Ha & Hc & Hlt).
  destruct (linked_peers _ _ Hlk) as [Hpa Hpc]. destruct (ends_at _ _ _ _ Hp) as [Ea Ec].
  destruct (BuildSpec.end_index (i / 2) 0 ltac:(lia)) as [D1 _], (BuildSpec.end_index (i / 2) 1 ltac:(lia)) as [D2 _]. rewrite Nat.add_0_r in D1.
  destruct Hside as [[Hm ->]|[Hm ->]].
  - exists (first_node (i / 2)), (2 * (i / 2) + 1)%nat, c, (second_node (i / 2)). split; try done. by left.
  - exists (second_node (i / 2)), (2 * (i / 2))%nat, a, (first_node (i / 2)). split; try done. by right.
Qed.

(** *** The network *)

Hypothesis HK : Z.of_nat (K * L) <= 65535.
Hypothesis HS : Z.of_nat (S * L) <= 65535.

Lemma end_bound i d : E !! i = Some d -> 0xc0a80001 <= end_address i < 0xc2a80000 /\ 1 <= end_address i mod 256 <= 2.
Proof using Hs HK HS.
  intros Hi. destruct (end_wired _ _ Hi) as (k & i' & d' & k' & Hw). pose proof (wi_link _ _ _ _ _ _ Hw). unfold end_address.
  pose proof (Nat.mod_upper_bound i 2 ltac:(lia)).
  split; [lia|]. rewrite Z.add_comm, Z.mod_add, Z.mod_small by lia. lia.
Qed.
Lemma the_end_good i d k e : the_end i d k e -> good_end e.
Proof using Hs HK HS.
  intros (j & ifc & x & rid & g & n & nd & Hn & Hse & Hl & ->). pose proof Hl as [Le Li Lr Ld Lu Lf Lm La].
  pose proof (BuildSpec.interfaces_bound S L K b s Hs k x (se_below _ _ _ _ _ _ Hse) (se_stack _ _ _ _ _ _ Hse)) as Hlen.
  pose proof (lookup_lt_Some _ _ _ Li). split; simpl; rewrite ?Lm; try done; [lia|].
  destruct (end_bound _ _ Le) as [Hb _]. unfold GetInterfaceForPrefix. rewrite land_ones by lia. eapply find_interface_found; [exact Li| |].
  - rewrite La. simpl. by rewrite land_ones, Z.eqb_refl by lia.
  - intros j' ifc' Hj' Hf.
    destruct (BuildSpec.stack_interface S L K b s Hs k x j' ifc' (se_below _ _ _ _ _ _ Hse) (se_stack _ _ _ _ _ _ Hse) Hj')
      as [(_ & lo & ->)|(i' & d' & _ & [Le' _ Lr' _ _ _ _ La'])].
    + apply List.existsb_exists in Hf as (y & [<-|[]] & Hf). cbv beta in Hf.
      apply Z.eqb_eq in Hf. change (0x7f000001 = end_address i) in Hf. lia.
    + rewrite La' in Hf. apply List.existsb_exists in Hf as (y & [<-|[]] & Hf). cbn [m_local new_address] in Hf.
      destruct (end_bound _ _ Le') as [Hb' _]. rewrite !land_ones in Hf by lia. bool_to_Z. assert (i' = i) as -> by (apply BuildSpec.end_address_inj; lia). assert (d' = d) as -> by congruence. rewrite Lr in Lr'. injection Lr'. lia.
Qed.

Lemma end_at_the_end d k e : device_of s d k -> end_at w (Z.of_nat d) = Some e -> exists i, E !! i = Some d /\ the_end i d k e.
Proof using Hs.
  intros Hd He. pose proof Hd as (dev & Hdev & _). assert (is_Some (w_devs (t_world t) !! d)) as Hsome by by eexists.
  apply (BuildSpec.sn_ends _ _ _ _ _ Hs) in Hsome as (i & Hi)%list_elem_of_lookup.
  destruct (end_at_device _ _ _ Hi Hd) as (e' & He' & Hte). assert (e' = e) as -> by congruence. by exists i.
Qed.
Lemma as_net_p2p : Z.of_nat N <= 2 ^ 16 -> p2p_net w.
Proof using Hs HK HS.
  intros HN. split.
  - intros k n Hn. destruct (node_seen' _ _ Hn) as (nd & x & rid & g & Hse). rewrite (se_view _ _ _ _ _ _ Hse). by eexists _, _, _.
  - intros k k' n n' r r' Hn Hn' Hr Hr' Eid. destruct (node_seen' _ _ Hn) as (nd & x & rid & g & Hse), (node_seen' _ _ Hn') as (nd' & x' & rid' & g' & Hse').
    rewrite (se_view _ _ _ _ _ _ Hse) in Hr. rewrite (se_view _ _ _ _ _ _ Hse') in Hr'. injection Hr as <-. injection Hr' as <-. simpl in Eid. subst rid'.
    by eapply seen_ids.
  - intros k n d Hn Hd. destruct (node_seen' _ _ Hn) as (nd & x & rid & g & Hse). rewrite (se_view _ _ _ _ _ _ Hse) in Hd.
    destruct (listed_device _ _ _ (se_node _ _ _ _ _ _ Hse) Hd) as [[Hv Hk]|(d' & -> & Hd')].
    + eexists. split; [exact Hv|]. by simpl.
    + destruct (device_view _ _ Hd') as (dev & _ & Hv). eexists. split; [exact Hv|]. done.
  - intros k d (d1 & -> & Hd)%link_dev_device. pose proof Hd as (dev & Hdev & _).
    assert (is_Some (w_devs (t_world t) !! d1)) as Hsome by by eexists.
    apply (BuildSpec.sn_ends _ _ _ _ _ Hs) in Hsome as (i & Hi)%list_elem_of_lookup.
    destruct (end_at_device _ _ _ Hi Hd) as (e & He & Hte). destruct (end_wired _ _ Hi) as (k1 & i' & d' & k' & [_ Hi' Hd1 Hd' Hp Hp' _ _ _]).
    destruct (end_at_device _ _ _ Hi' Hd') as (e' & He' & Hte'). exists e, (Z.of_nat d'), e'. split; [done|]. split; [by eapply the_end_good|].
    split; [done|]. split; [done|]. split; [|done]. destruct Hte' as (j & ifc & x & rid & g & n & nd & _ & _ & _ & ->). simpl. apply link_dev_device. by exists d'.
  - intros k d e k' n' r' (d1 & -> & Hd)%link_dev_device He Hn' Hr'. destruct (end_at_the_end _ _ _ Hd He) as (i & Hi & (j & ifc & x & rid & g & n & nd & _ & _ & _ & ->)).
    simpl. destruct (node_seen' _ _ Hn') as (nd' & x' & rid' & g' & Hse'). rewrite (se_view _ _ _ _ _ _ Hse') in Hr'. injection Hr' as <-. simpl.
    pose proof (se_id _ _ _ _ _ _ Hse'). destruct (end_bound _ _ Hi). lia.
  - intros k k' d d' e e' (d1 & -> & Hd)%link_dev_device (d2 & -> & Hd')%link_dev_device He He' Eloc.
    destruct (end_at_the_end _ _ _ Hd He) as (i & Hi & (j & ifc & x & rid & g & n & nd & _ & _ & _ & ->)).
    destruct (end_at_the_end _ _ _ Hd' He') as (i' & Hi' & (j' & ifc' & x' & rid' & g' & n' & nd' & _ & _ & _ & ->)).
    simpl in Eloc. apply BuildSpec.end_address_inj in Eloc as ->. congruence.
  - destruct (BuildSpec.sn_topo _ _ _ _ _ Hs) as (los & cnt & Ht). simpl. rewrite length_imap, (TopologySpec.ti_length _ _ _ _ Ht). done.
Qed.

Lemma as_net_system : one_system w 0.
Proof using Hs. intros k n Hn. destruct (node_seen' _ _ Hn) as (nd & x & rid & g & Hse). by rewrite (se_view _ _ _ _ _ _ Hse). Qed.
Lemma as_net_empty k g : routes_at w k = Some g -> without_routes g.
Proof using Hs.
  unfold routes_at. destruct (n_nodes w !! k) as [n|] eqn:Hn; [|done]. destruct (node_seen' _ _ Hn) as (nd & x & rid & g' & Hse).
  rewrite (se_view _ _ _ _ _ _ Hse). simpl. intros [= <-]. apply (se_routes _ _ _ _ _ _ Hse).
Qed.

(** *** The addresses *)

Lemma broadcast_end i : (Z.lor (end_address i) (u32 (Z.lnot InternetStack.BASE_NETWORK_MASK))) mod 256 = 255.
Proof using.
  clear - i. change (u32 (Z.lnot InternetStack.BASE_NETWORK_MASK)) with (Z.ones 8). change 256 with (2 ^ 8). rewrite <- Z.land_ones by lia.
  change 255 with (Z.ones 8). apply Z.bits_inj. intros n. rewrite Z.land_spec, Z.lor_spec. by destruct (Z.testbit (Z.ones 8) n), (Z.testbit (end_address i) n).
Qed.
(** The interface that has the address of an end is the one of the end. *)
Lemma address_holder i d k x j ifc : E !! i = Some d -> (k < N)%nat -> s_stacks s !! Z.of_nat k = Some x -> m_interfaces (l3_ipv4 x) !! j = Some ifc ->
  existsb (matches_address (end_address i)) (m_ifaddrs ifc) = true -> device_of s d k.
Proof using Hs HK HS.
  intros Hi Hk Hx Hj (y & Hy & Hm)%List.existsb_exists. destruct (end_bound _ _ Hi) as [Hb Hmod]. unfold matches_address in Hm.
  destruct (BuildSpec.stack_interface S L K b s Hs k x j ifc Hk Hx Hj) as [(_ & lo & ->)|(i' & d' & Hd' & [Le' _ _ _ _ _ _ La'])].
  - destruct Hy as [<-|[]]. apply orb_true_iff in Hm as [Hm|Hm]; apply Z.eqb_eq in Hm.
    + change (end_address i = 0x7f000001) in Hm. lia.
    + change (end_address i = 0x7fffffff) in Hm. lia.
  - rewrite La' in Hy. destruct Hy as [<-|[]]. cbn [m_local m_broadcast new_address] in Hm.
    apply orb_true_iff in Hm as [Hm|Hm]; apply Z.eqb_eq in Hm.
    + apply BuildSpec.end_address_inj in Hm as <-. by assert (d' = d) as <- by congruence.
    + rewrite Hm, broadcast_end in Hmod. lia.
Qed.
Lemma end_destination i d kt : E !! i = Some d -> device_of s d kt -> destination_of w kt (end_address i).
Proof using Hs HK HS.
  intros Hi Hd. destruct (end_bound _ _ Hi) as [Hb _].
  assert (Ipv4Address.IsMulticast (end_address i) = false) as Hmc.
  { unfold Ipv4Address.IsMulticast. by rewrite (proj2 (Z.leb_gt 0xe0000000 (end_address i))) by lia. }
  split; [..|done].
  - intros k d' e (d1 & -> & Hd1)%link_dev_device He. destruct (end_at_the_end _ _ _ Hd1 He) as (i' & _ & (j & ifc & x & rid & g & n & nd & _ & _ & [_ _ Lr _ _ _ _ _] & ->)). done.
  - intros k d' e (d1 & -> & Hd1)%link_dev_device He.
    destruct (end_at_the_end _ _ _ Hd1 He) as (i' & Hi' & (j & ifc & x & rid & g & n & nd & Hn & Hse & Hl & ->)). pose proof Hl as [_ Li _ _ _ _ _ _].
    pose proof (se_below _ _ _ _ _ _ Hse) as Hk. pose proof (se_stack _ _ _ _ _ _ Hse) as Hx.
    cbn [e_index e_ipv4]. unfold IsDestinationAddress, Ipv4Ifaces.GetInterface. rewrite Nat2Z.id, Li. cbn [deref mbind res_bind mret res_ret].
    rewrite Hmc. unfold Ipv4Address.IsBroadcast. rewrite (proj2 (Z.eqb_neq _ _)) by lia. unfold GetWeakEsModel.
    rewrite (InternetStackSpec.gs_weak _ _ _ (se_good _ _ _ _ _ _ Hse)). f_equal.
    assert (forall j' ifc', m_interfaces (l3_ipv4 x) !! j' = Some ifc' -> existsb (matches_address (end_address i)) (m_ifaddrs ifc') = true -> k = kt) as Hown.
    { intros j' ifc' Hj' Hm. eapply device_node; [by eapply (address_holder i d k x j')|done]. }
    case_bool_decide as Hkt.
    + subst kt. destruct (BuildSpec.device_interface S L K b s Hs i d k x Hi Hd Hx) as (j0 & ifc0 & [_ Li0 _ _ _ _ _ La0]).
      assert (existsb (matches_address (end_address i)) (m_ifaddrs ifc0) = true) as Hm0.
      { rewrite La0. simpl. unfold matches_address. simpl. by rewrite Z.eqb_refl. }
      destruct (existsb _ (m_ifaddrs ifc)) eqn:Em; [done|]. apply List.existsb_exists. exists ifc0. split; [|done].
      apply list_elem_of_In. destruct (decide (j0 = j)) as [->|Hne]; [congruence|].
      destruct (decide (j0 < j)%nat) as [Hlt|Hge].
      * apply (list_elem_of_lookup_2 _ j0). by rewrite list_lookup_delete_lt.
      * apply (list_elem_of_lookup_2 _ (Nat.pred j0)). rewrite list_lookup_delete_ge by lia. by replace (Datatypes.S (Nat.pred j0)) with j0 by lia.
    + destruct (existsb _ (m_ifaddrs ifc)) eqn:Em; [destruct Hkt; by eapply Hown|]. apply not_true_iff_false. intros (y & Hy & Hm)%List.existsb_exists.
      apply Hkt. apply list_elem_of_In, list_elem_of_lookup in Hy as (m & Hy). destruct (decide (m < j)%nat) as [Hlt|Hge].
      * rewrite list_lookup_delete_lt in Hy by done. by eapply Hown.
      * rewrite list_lookup_delete_ge in Hy by lia. by eapply Hown.
Qed.

(** ** Distances *)

Hypothesis HN : Z.of_nat N <= 2 ^ 16.

(** A link of the network is a link of the list, in one of its directions. *)
Lemma between_wired k d e e' : link_between w k d e e' -> exists i d1 i' d1', d = Z.of_nat d1 /\ wired i d1 k i' d1' (e_node e') /\ the_end i d1 k e.
Proof using Hs.
  intros (Hd & He & _ & d' & Hp & He' & Hd' & _). apply link_dev_device in Hd as (d1 & -> & Hd1). apply link_dev_device in Hd' as (d1' & -> & Hd1').
  destruct (end_at_the_end _ _ _ Hd1 He) as (i & Hi & Hte). destruct (end_wired _ _ Hi) as (k1 & i' & d2 & k2 & Hw).
  assert (k1 = k) as -> by (eapply device_node; [apply (wi_device _ _ _ _ _ _ Hw)|done]).
  assert (d2 = d1') as -> by (pose proof (wi_peer _ _ _ _ _ _ Hw) as E; rewrite Hp in E; injection E as E; by apply Nat2Z.inj in E).
  assert (k2 = e_node e') as -> by (eapply device_node; [apply (wi_device' _ _ _ _ _ _ Hw)|done]).
  by exists i, d1, i', d1'.
Qed.
Lemma wired_between i d k i' d' k' : wired i d k i' d' k' -> exists e e', link_between w k (Z.of_nat d) e e' /\ e_node e' = k' /\ the_end i d k e.
Proof using All.
  intros Hw. destruct (pn_between w k (Z.of_nat d) (as_net_p2p HN)) as (e & e' & Hb).
  { apply link_dev_device. exists d. split; [done|apply (wi_device _ _ _ _ _ _ Hw)]. }
  exists e, e'. split; [done|]. destruct (between_wired _ _ _ _ Hb) as (j & d1 & j' & d1' & Ed%Nat2Z.inj & Hw' & Hte). subst d1. split.
  - eapply device_node; [apply (wi_device' _ _ _ _ _ _ Hw')|]. assert (d1' = d') as ->; [|apply (wi_device' _ _ _ _ _ _ Hw)].
    pose proof (wi_peer _ _ _ _ _ _ Hw) as E1. rewrite (wi_peer _ _ _ _ _ _ Hw') in E1. injection E1. lia.
  - assert (j = i) as <-; [|done]. eapply NoDup_lookup; [apply (BuildSpec.sn_nodup _ _ _ _ _ Hs)|apply (wi_end _ _ _ _ _ _ Hw')|apply (wi_end _ _ _ _ _ _ Hw)].
Qed.
Lemma the_end_metric i d k e : the_end i d k e -> e_metric e = 1.
Proof using. by intros (j & ifc & x & rid & g & n & nd & _ & _ & [_ _ _ _ _ _ Lm _] & ->). Qed.

(** The number of links from the node [k] to the server [j] *)
Definition hops (j k : nat) : Z :=
  if (k <? S)%nat then 2
  else if (k <? S + L)%nat then if (k =? S + j / K)%nat then 1 else 3
  else if (k =? S + L + j)%nat then 0
  else if ((k - (S + L)) / K =? j / K)%nat then 2 else 4.
Lemma hops_link j p : (j < K * L)%nat -> (p < K * L + S * L)%nat ->
  hops j (first_node p) <= hops j (second_node p) + 1 /\ hops j (second_node p) <= hops j (first_node p) + 1.
Proof using.
  clear Hs HK HS HN. intros Hj Hp. unfold hops, first_node, second_node. destruct (BuildSpec.index_split j K L Hj) as (_ & Hl & _).
  destruct (Nat.ltb_spec p (K * L)) as [Hlt|Hge].
  - destruct (BuildSpec.index_split p K L Hlt) as (_ & Hl' & _).
    rewrite (proj2 (Nat.ltb_ge (S + L + p) S)), (proj2 (Nat.ltb_ge (S + L + p) (S + L))), (proj2 (Nat.ltb_ge (S + p / K) S)), (proj2 (Nat.ltb_lt (S + p / K) (S + L))) by lia.
    replace (S + L + p - (S + L))%nat with p by lia.
    destruct (Nat.eqb_spec (S + L + p) (S + L + j)), (Nat.eqb_spec (S + p / K) (S + j / K)), (Nat.eqb_spec (p / K) (j / K)); try lia.
    assert (p = j) as -> by lia. lia.
  - destruct (BuildSpec.index_split (p - K * L) L S ltac:(lia)) as (_ & Hl1 & Hl2).
    rewrite (proj2 (Nat.ltb_ge (S + (p - K * L) mod L) S)), (proj2 (Nat.ltb_lt (S + (p - K * L) mod L) (S + L))), (proj2 (Nat.ltb_lt ((p - K * L) / L) S)) by lia.
    destruct (Nat.eqb_spec (S + (p - K * L) mod L) (S + j / K)); lia.
Qed.

Lemma way_hops j k m c : (j < K * L)%nat -> way w k m c -> hops j k <= hops j m + c.
Proof using Hs HK HS HN.
  intros Hj. induction 1 as [|m c d e e' _ IH Hb]; [lia|].
  destruct (between_wired _ _ _ _ Hb) as (i & d1 & i' & d1' & _ & Hw & Hte). rewrite (the_end_metric _ _ _ _ Hte).
  destruct (hops_link j (i / 2) Hj (wi_link _ _ _ _ _ _ Hw)). destruct (wi_nodes _ _ _ _ _ _ Hw) as [(_ & -> & ->)|(_ & -> & ->)]; lia.
Qed.

(** Ways along a link, in both directions *)
Lemma way_along k p c : (p < K * L + S * L)%nat ->
  (way w k (first_node p) c -> way w k (second_node p) (c + 1)) /\ (way w k (second_node p) c -> way w k (first_node p) (c + 1)).
Proof using All.
  intros Hp. destruct (lookup_lt_is_Some_2 (link_list b) p) as [[a a'] Hl]; [by rewrite (BuildSpec.sn_length _ _ _ _ _ Hs)|].
  destruct (ends_at _ _ _ _ Hl) as [Ha Ha'].
  destruct (BuildSpec.end_index p 0 ltac:(lia)) as [D1 M1], (BuildSpec.end_index p 1 ltac:(lia)) as [D2 M2]. rewrite Nat.add_0_r in D1, M1.
  assert (forall i d k1 k1', E !! i = Some d -> (i / 2 = p)%nat ->
    (i mod 2 = 0 /\ k1 = first_node p /\ k1' = second_node p)%nat \/ (i mod 2 = 1 /\ k1 = second_node p /\ k1' = first_node p)%nat ->
    way w k k1 c -> way w k k1' (c + 1)) as Hgo.
  { intros i d k1 k1' Hi Ei Hn Hway. destruct (end_wired _ _ Hi) as (k2 & i' & d' & k2' & Hw).
    assert (k2 = k1 /\ k2' = k1') as [-> ->].
    { destruct (wi_nodes _ _ _ _ _ _ Hw) as [(? & -> & ->)|(? & -> & ->)], Hn as [(? & -> & ->)|(? & -> & ->)]; rewrite ?Ei; lia || done. }
    destruct (wired_between _ _ _ _ _ _ Hw) as (e & e' & Hb & <- & Hte). rewrite <- (the_end_metric _ _ _ _ Hte). by eapply way_link. }
  split; [apply (Hgo _ _ _ _ Ha D1); by left|apply (Hgo _ _ _ _ Ha' D2); by right].
Qed.

Lemma server_link q : (q < K * L)%nat -> first_node q = (S + L + q)%nat /\ second_node q = (S + q / K)%nat.
Proof using. intros Hq. unfold first_node, second_node. by rewrite (proj2 (Nat.ltb_lt _ _) Hq). Qed.
Lemma spine_link sp l : (sp < S)%nat -> (l < L)%nat -> let p := (K * L + (sp * L + l))%nat in
  first_node p = (S + l)%nat /\ second_node p = sp /\ (p < K * L + S * L)%nat.
Proof using.
  clear Hs HK HS HN. intros Hsp Hl p. unfold first_node, second_node, p. rewrite (proj2 (Nat.ltb_ge _ _)) by lia.
  replace (K * L + (sp * L + l) - K * L)%nat with (L * sp + l)%nat by lia.
  split; [|split]; [f_equal; symmetry; by apply (Nat.mod_unique _ L sp l)|symmetry; by apply (Nat.div_unique _ L sp l)|nia].
Qed.
Lemma way_server k q c : (q < K * L)%nat ->
  (way w k (S + L + q) c -> way w k (S + q / K) (c + 1)) /\ (way w k (S + q / K) c -> way w k (S + L + q) (c + 1)).
Proof using All. intros Hq. destruct (server_link q Hq) as [E1 E2]. destruct (way_along k q c ltac:(lia)) as [H1' H2']. by rewrite E1, E2 in H1', H2'. Qed.
Lemma way_spine k sp l c : (sp < S)%nat -> (l < L)%nat ->
  (way w k (S + l) c -> way w k sp (c + 1)) /\ (way w k sp c -> way w k (S + l) (c + 1)).
Proof using All.
  intros Hsp Hl. destruct (spine_link sp l Hsp Hl) as (E1 & E2 & Hp). destruct (way_along k _ c Hp) as [H1' H2']. by rewrite E1, E2 in H1', H2'.
Qed.

Lemma hops_way j k : (0 < S)%nat -> (j < K * L)%nat -> (k < N)%nat -> way w k (S + L + j) (hops j k).
Proof using All.
  intros H0S Hj Hk. destruct (BuildSpec.index_split j K L Hj) as (_ & Hl & _).
  assert (forall c, way w k (S + j / K) c -> way w k (S + L + j) (c + 1)) as Hlast by (intros c; by apply way_server).
  assert (forall l c, (l < L)%nat -> way w k (S + l) c -> way w k (S + L + j) (c + 3)) as Hleaf.
  { intros l c Hl' Hway. replace (c + 3) with (c + 1 + 1 + 1) by lia. apply Hlast.
    apply (way_spine k 0 (j / K)); [done|done|]. by apply (way_spine k 0 l). }
  unfold hops. destruct (Nat.ltb_spec k S) as [Hsp|Hsp].
  { apply (Hlast 1), (way_spine k k (j / K) 0 Hsp Hl), way_here. }
  destruct (Nat.ltb_spec k (S + L)) as [Hlf|Hlf].
  { destruct (Nat.eqb_spec k (S + j / K)) as [->|Hne]; [apply (Hlast 0), way_here|].
    apply (Hleaf (k - S)%nat 0); [lia|]. replace (S + (k - S))%nat with k by lia. apply way_here. }
  destruct (Nat.eqb_spec k (S + L + j)) as [->|Hne]; [apply way_here|].
  set (q := (k - (S + L))%nat). assert (q < K * L)%nat as Hq by lia. destruct (BuildSpec.index_split q K L Hq) as (_ & Hl' & _).
  assert (way w k (S + q / K) 1) as Hup.
  { apply (way_server k q 0 Hq). replace (S + L + q)%nat with k by lia. apply way_here. }
  destruct (Nat.eqb_spec (q / K) (j / K)) as [Eq|_]; [rewrite Eq in Hup; by apply (Hlast 1)|by apply (Hleaf (q / K)%nat 1)].
Qed.
Lemma distance_hops j k c : (0 < S)%nat -> (j < K * L)%nat -> (k < N)%nat -> distance w k (S + L + j) c <-> c = hops j k.
Proof using All.
  intros H0S Hj Hk. assert (hops j (S + L + j) = 0) as E0.
  { unfold hops. rewrite (proj2 (Nat.ltb_ge _ _)), (proj2 (Nat.ltb_ge _ _)) by lia. by rewrite Nat.eqb_refl. }
  assert (forall c', way w k (S + L + j) c' -> hops j k <= c') as Hleast.
  { intros c' Hway. pose proof (way_hops j k _ c' Hj Hway). lia. }
  pose proof (hops_way j k H0S Hj Hk) as Hway. split.
  - intros [Hc Hmin]. pose proof (Hmin _ Hway). pose proof (Hleast _ Hc). lia.
  - intros ->. by split.
Qed.

(** The address of the server [j]: its end of its link *)
Definition server_address (j : nat) : Z := (0xc0a800 + Z.of_nat j) * 256 + 1.
Lemma server_end j : (j < K * L)%nat -> exists d, link_dev w (S + L + j) (Z.of_nat d) /\ E !! (2 * j)%nat = Some d /\ device_of s d (S + L + j) /\
  end_address (2 * j) = server_address j.
Proof using All.
  intros Hj. destruct (lookup_lt_is_Some_2 (link_list b) j) as [[a a'] Hl]; [rewrite (BuildSpec.sn_length _ _ _ _ _ Hs); lia|].
  destruct (ends_at _ _ _ _ Hl) as [Ha _]. destruct (link_at _ _ _ Hl) as (_ & Hd & _). destruct (server_link j Hj) as [E1 _]. rewrite E1 in Hd.
  exists a. split; [apply link_dev_device; by exists a|]. split; [done|]. split; [done|].
  destruct (BuildSpec.end_index j 0 ltac:(lia)) as [D1 M1]. rewrite Nat.add_0_r in D1, M1. unfold end_address, server_address. rewrite D1, M1. lia.
Qed.

(** The device of the leaf [l] towards the spine [sp] *)
Lemma leaf_device sp l dl : (sp < S)%nat -> (l < L)%nat -> Topology.cell sp l (Topology.p2pLeavesSpinesNetdevs b) = Some dl ->
  E !! (2 * (K * L + (sp * L + l)))%nat = Some dl.
Proof using All.
  intros Hsp Hl Hcell. pose proof (BuildSpec.sn_connected _ _ _ _ _ Hs) as Hc. destruct (TopologySpec.cn_links _ _ _ _ _ Hc) as [_ Hl2].
  destruct (TopologySpec.cn_spine _ _ _ _ _ Hc sp l Hsp Hl) as (dl' & ds & Hdl & _ & Hq & _). assert (dl' = dl) as -> by congruence.
  assert (link_list b !! (K * L + (sp * L + l))%nat = Some (dl, ds)) as (He & _)%ends_at; [|done].
  unfold link_list. rewrite lookup_app_r, Hl2 by lia. by replace (K * L + (sp * L + l) - K * L)%nat with (sp * L + l)%nat by lia.
Qed.
(** The links of the leaf [l] with which the shortest ways to a server of another
    leaf begin are those to the spines. *)
Lemma leaf_shortest j l d e e' : (0 < S)%nat -> (j < K * L)%nat -> (l < L)%nat -> (j / K <> l)%nat -> link_between w (S + l) d e e' ->
  on_shortest w (S + l) (S + L + j) 3 d e e' <->
  exists sp dl, (sp < S)%nat /\ Topology.cell sp l (Topology.p2pLeavesSpinesNetdevs b) = Some dl /\ d = Z.of_nat dl.
Proof using All.
  intros H0S Hj Hl Hjl Hb. destruct (between_wired _ _ _ _ Hb) as (i & d1 & i' & d1' & -> & Hw & Hte).
  destruct (device_below _ _ (wi_device' _ _ _ _ _ _ Hw)) as [Hbelow _]. pose proof (wi_link _ _ _ _ _ _ Hw) as Hp.
  assert (on_shortest w (S + l) (S + L + j) 3 (Z.of_nat d1) e e' <-> hops j (e_node e') = 2) as ->.
  { unfold on_shortest. rewrite (the_end_metric _ _ _ _ Hte), (distance_hops j) by done. split; [intros [_ ?]; lia|intros ->; done]. }
  split.
  - intros Hh. destruct (wi_nodes _ _ _ _ _ _ Hw) as [(Hm & E1 & E2)|(Hm & E1 & E2)]; unfold first_node, second_node in *; destruct (Nat.ltb_spec (i / 2) (K * L)) as [Hlt|Hge].
    + lia.
    + set (q := (i / 2 - K * L)%nat) in *. destruct (BuildSpec.index_split q L S ltac:(lia)) as (Eq & Hq & Hql). assert (q mod L = l)%nat as El by lia.
      destruct (TopologySpec.cn_spine _ _ _ _ _ (BuildSpec.sn_connected _ _ _ _ _ Hs) (q / L) l Hq Hl) as (dl & _ & Hdl & _).
      exists (q / L)%nat, dl. split; [done|]. split; [done|]. f_equal.
      pose proof (leaf_device _ _ _ Hq Hl Hdl) as He. pose proof (wi_end _ _ _ _ _ _ Hw) as Hi.
      replace (2 * (K * L + (q / L * L + l)))%nat with i in He; [congruence|]. rewrite (Nat.div_mod_eq i 2) at 1. lia.
    + exfalso. destruct (BuildSpec.index_split (i / 2) K L Hlt) as (_ & Hl2 & _). rewrite E2 in Hh. unfold hops in Hh.
      rewrite (proj2 (Nat.ltb_ge _ _)), (proj2 (Nat.ltb_ge _ _)) in Hh by lia. replace (S + L + i / 2 - (S + L))%nat with (i / 2)%nat in Hh by lia.
      rewrite (proj2 (Nat.eqb_neq (i / 2 / K) (j / K))) in Hh by lia. destruct (Nat.eqb_spec (S + L + i / 2) (S + L + j)); lia.
    + destruct (BuildSpec.index_split (i / 2 - K * L) L S ltac:(lia)) as (_ & Hq & _). lia.
  - intros (sp & dl & Hsp & Hcell & ->%Nat2Z.inj). pose proof (leaf_device _ _ _ Hsp Hl Hcell) as He.
    assert (i = 2 * (K * L + (sp * L + l)))%nat as ->.
    { eapply NoDup_lookup; [apply (BuildSpec.sn_nodup _ _ _ _ _ Hs)|apply (wi_end _ _ _ _ _ _ Hw)|done]. }
    destruct (BuildSpec.end_index (K * L + (sp * L + l)) 0 ltac:(lia)) as [D M]. rewrite Nat.add_0_r in D, M.
    destruct (spine_link sp l Hsp Hl) as (_ & E2 & _). destruct (wi_nodes _ _ _ _ _ _ Hw) as [(_ & _ & En)|(? & _)]; [|lia].
    rewrite En, D, E2. unfold hops. by rewrite (proj2 (Nat.ltb_lt _ _)).
Qed.
Lemma between_stack k d e e' : link_between w k d e e' ->
  exists x, s_stacks s !! Z.of_nat k = Some x /\ e_ipv4 e = l3_ipv4 x /\ GetInterfaceForDevice (Some d) (l3_ipv4 x) = e_index e.
Proof using Hs.
  intros Hb. destruct (between_wired _ _ _ _ Hb) as (i & d1 & i' & d1' & -> & _ & (j & ifc & x & rid & g & n & nd & _ & Hse & [_ _ Lr _ _ _ _ _] & ->)).
  exists x. split; [apply (se_stack _ _ _ _ _ _ Hse)|]. split; [done|]. unfold GetInterfaceForDevice. by rewrite Lr.
Qed.
End net.
End view.

(** ** The routes *)

Section routes.
Context {EM R W P : Type} `{HEM : ErrorModel EM} `{HR : UniformRandom R} `{HI : DeviceIds} `{HP : IpL4Protocol P} `{Allocator}.
Variables (rand : Z -> R) (icmp udp tcp : Z) (l4 : P) (CreateCache : Z -> Z).
Implicit Types (s : site EM R W P).
Abbreviation BuildTopology := (InternetStack.BuildTopology (EM := EM) (W := W) rand icmp udp tcp l4 CreateCache).
(** The networks considered: the links of a kind number fewer than 2^16, and the nodes at most that. *)
Definition fits (S L K : nat) : Prop :=
  Z.of_nat (K * L) <= 65535 /\ Z.of_nat (S * L) <= 65535 /\ Z.of_nat (S + L + K * L) <= 2 ^ 16.

Lemma spine_leaf_populated (S L K : nat) : fits S L K ->
  exists b s m, BuildTopology S L K InternetStack.empty_site = Ok (b, s) /\ spine_leaf S L K b s /\
    PopulateRoutingTables 0 (new_manager (as_net s)) = Ok (tt, m) /\ m_vertices m = ∅ /\
    p2p_net (as_net s) /\ routed_net (as_net s) (m_net m).
Proof using.
  intros (HK & HS & HN). destruct (BuildSpec.BuildTopology_spine_leaf (EM := EM) (W := W) rand icmp udp tcp l4 CreateCache S L K ltac:(lia) HK HS) as (b & s & E & Hs).
  pose proof (as_net_p2p S L K b s Hs HK HS HN) as Hw.
  destruct (populate_routed (as_net s) 0 (new_manager (as_net s)) Hw) as (m & Em & Hv & Hr); [by eapply as_net_system| |done..|by exists b, s, m].
  intros k g. by eapply as_net_empty.
Qed.

(** The routes of the leaf [l] for the address leave by the interfaces of its
    links to the spines, all of them. *)
Definition spine_routes (S l : nat) (b : built) (w' : net R) (dest : Z) : Prop := exists n ip r gr es,
  n_nodes w' !! (S + l)%nat = Some n /\ rn_ipv4 n = Some ip /\ rn_router n = Some r /\ GlobalRouter.m_routingProtocol r = Some gr /\
  GlobalRouting.all_routes dest None ip gr = Ok es /\
  forall i, (exists x, x ∈ es /\ m_interface x = i) <->
    exists sp dl, (sp < S)%nat /\ Topology.cell sp l (Topology.p2pLeavesSpinesNetdevs b) = Some dl /\ GetInterfaceForDevice (Some (Z.of_nat dl)) ip = i.
Lemma spine_routes_ok S L K b s w' j l : fits S L K -> spine_leaf S L K b s -> p2p_net (as_net s) -> routed_net (as_net s) w' ->
  (0 < S)%nat -> (j < K * L)%nat -> (l < L)%nat -> (j / K <> l)%nat -> spine_routes S l b w' (server_address j).
Proof using HEM HR HI HP.
  intros (HK & HS & HN) Hs Hw Hr H0S Hj Hl Hjl.
  destruct (server_end S L K b s Hs HK HS HN j Hj) as (dt & Hdt & Hi & Hdev & Ea). destruct (end_at_device S L K b s Hs _ _ _ Hi Hdev) as (et & Het & Hte).
  assert (e_local et = server_address j) as El by (destruct Hte as (? & ? & ? & ? & ? & ? & ? & _ & _ & _ & ->); exact Ea).
  assert (distance (as_net s) (S + l) (S + L + j) 3) as Hdist.
  { apply (distance_hops S L K b s Hs HK HS HN); [done..|lia|]. unfold hops. rewrite (proj2 (Nat.ltb_ge _ _)), (proj2 (Nat.ltb_lt _ _)) by lia.
    by rewrite (proj2 (Nat.eqb_neq _ _)) by lia. }
  destruct (table_links (as_net s) w' Hw Hr (S + L + j) (Z.of_nat dt) et Hdt Het (S + l) 3 ltac:(lia) Hdist)
    as (n & ip & r & gr & es & Hn & Hip & Hrt & Hgr & Ees & Hes & Hnear & Hall). rewrite El in Ees.
  assert (exists x, s_stacks s !! Z.of_nat (S + l) = Some x /\ ip = l3_ipv4 x) as (x & Hx & ->).
  { destruct es as [|y es]; [done|]. destruct (Hnear y ltac:(by left)) as (d & e & e' & [Hb _] & <- & _).
    destruct (between_stack S L K b s Hs _ _ _ _ Hb) as (x & Hx & -> & _). by exists x. }
  exists n, (l3_ipv4 x), r, gr, es. do 5 (split; [done|]). intros i. split.
  - intros (y & Hy & <-). destruct (Hnear y Hy) as (d & e & e' & Hon & _ & ->). pose proof Hon as [Hb _].
    apply (leaf_shortest S L K b s Hs HK HS HN) in Hon as (sp & dl & Hsp & Hcell & ->); [|done..]. exists sp, dl. split; [done|]. split; [done|].
    destruct (between_stack S L K b s Hs _ _ _ _ Hb) as (x' & Hx' & _ & E). assert (x' = x) as -> by congruence. done.
  - intros (sp & dl & Hsp & Hcell & <-). pose proof (leaf_device S L K b s Hs HK HS HN _ _ _ Hsp Hl Hcell) as Hdl.
    destruct (end_wired S L K b s Hs _ _ Hdl) as (k & i' & d' & k' & Hwi). assert (k = (S + l)%nat) as ->.
    { destruct (BuildSpec.end_index (K * L + (sp * L + l)) 0 ltac:(lia)) as [D M]. rewrite Nat.add_0_r in D, M.
      destruct (spine_link S L K sp l Hsp Hl) as (E1 & _ & _). destruct (wi_nodes _ _ _ _ _ _ _ _ _ _ _ Hwi) as [(_ & -> & _)|(? & _)]; [by rewrite D|lia]. }
    destruct (wired_between S L K b s Hs HK HS HN _ _ _ _ _ _ Hwi) as (e & e' & Hb & _ & _).
    destruct (Hall (Z.of_nat dl) e e') as (y & Hy & Ey).
    { apply (leaf_shortest S L K b s Hs HK HS HN); [done..|]. by exists sp, dl. }
    exists y. split; [done|]. rewrite Ey. destruct (between_stack S L K b s Hs _ _ _ _ Hb) as (x' & Hx' & _ & E). assert (x' = x) as -> by congruence. done.
Qed.

(** C4. The scenario's network routes: for any numbers of spines (at least one),
    leaves and servers that fit, [BuildTopology] followed by [PopulateRoutingTables]
    returns, and then a packet that any node sends to the address of any other
    node's server is forwarded, by the computed routes of each node in turn, to
    that server; between servers of one leaf it crosses two links, between servers
    of two leaves four, and no way is shorter. *)
Theorem spine_leaf_delivers (S L K : nat) :
  (forall lo hi (g : R), lo <= hi -> lo <= (GlobalRouting.GetInteger lo hi g).1 <= hi) -> fits S L K -> (0 < S)%nat ->
  exists b s m, BuildTopology S L K InternetStack.empty_site = Ok (b, s) /\ PopulateRoutingTables 0 (new_manager (as_net s)) = Ok (tt, m) /\
  forall j k p h, (j < K * L)%nat -> (k < S + L + K * L)%nat -> k <> (S + L + j)%nat -> Ipv4Header.GetDestination h = server_address j ->
    distance (as_net s) k (S + L + j) (hops S L K j k) /\
    exists ds, send 4 (m_net m) k p h = Ok (Some ((S + L + j)%nat, ds)) /\ cost_of (as_net s) ds = hops S L K j k.
Proof using.
  intros draws Hfits H0S. destruct (spine_leaf_populated S L K Hfits) as (b & s & m & E & Hs & Em & _ & Hw & Hr). exists b, s, m.
  split; [done|]. split; [done|]. intros j k p h Hj Hk Hne Hh. destruct Hfits as (HK & HS & HN).
  destruct (server_end S L K b s Hs HK HS HN j Hj) as (dt & Hdt & Hi & Hdev & Ea). destruct (end_at_device S L K b s Hs _ _ _ Hi Hdev) as (et & Het & Hte).
  assert (e_local et = server_address j) as El by (destruct Hte as (? & ? & ? & ? & ? & ? & ? & _ & _ & _ & ->); exact Ea).
  assert (distance (as_net s) k (S + L + j) (hops S L K j k)) as Hd by by apply (distance_hops S L K b s Hs HK HS HN).
  split; [done|]. apply (send_ok draws (as_net s) (m_net m) Hw Hr _ _ _ Hdt Het); [|done|done| |by rewrite El].
  - rewrite El, <- Ea. by eapply end_destination.
  - unfold hops. repeat case_match; lia.
Qed.

(** C5. Equal-cost routing uses every spine: after [BuildTopology] and
    [PopulateRoutingTables], the routes of each leaf for the server of another leaf
    leave by the interfaces of its links to the spines, and every spine has one. *)
Theorem leaf_uses_every_spine (S L K : nat) : fits S L K -> (0 < S)%nat ->
  exists b s m, BuildTopology S L K InternetStack.empty_site = Ok (b, s) /\ PopulateRoutingTables 0 (new_manager (as_net s)) = Ok (tt, m) /\
  forall j l, (j < K * L)%nat -> (l < L)%nat -> (j / K <> l)%nat -> spine_routes S l b (m_net m) (server_address j).
Proof using.
  intros Hfits H0S. destruct (spine_leaf_populated S L K Hfits) as (b & s & m & E & Hs & Em & _ & Hw & Hr). exists b, s, m.
  split; [done|]. split; [done|]. intros j l Hj Hl Hjl. by apply (spine_routes_ok S L K b s).
Qed.
End routes.

#[local] Instance no_errors : ErrorModel unit := fun s _ => (false, s).
#[local] Instance no_ids : DeviceIds := {| dev_GetIfIndex d := d; dev_GetNodeId d := d |}.
#[local] Instance no_l4 : IpL4Protocol unit :=
  {| Ipv4L3Protocol.l4_GetProtocolNumber p := p; Ipv4L3Protocol.l4_Receive _ _ _ _ s := Ok (Ipv4L3Protocol.RX_OK, s) |}.
(** The header of a packet for the server [j] *)
Definition header_to (j : nat) : Ipv4Header.Ipv4Header := Ipv4Header.SetDestination (server_address j) Ipv4Header.new_Ipv4Header.
Definition default_network : res (built * site unit unit unit unit) :=
  InternetStack.BuildTopology (fun _ => tt) 1 17 6 tt id 2 4 1 InternetStack.empty_site.

(** The default network, from the first server to the last *)
Lemma spine_leaf_delivers_witness : exists b s m, default_network = Ok (b, s) /\ PopulateRoutingTables 0 (new_manager (as_net s)) = Ok (tt, m) /\
  exists ds, send 4 (m_net m) 6 tri_packet (header_to 3) = Ok (Some (9%nat, ds)) /\ cost_of (as_net s) ds = 4.
Proof.
  destruct (spine_leaf_delivers (EM := unit) (W := unit) (fun _ => tt) 1 17 6 tt id 2 4 1) as (b & s & m & E & Em & Hsend).
  - intros lo hi g Hle. by apply least_draws.
  - unfold fits. simpl. lia.
  - lia.
  - exists b, s, m. split; [exact E|]. split; [exact Em|].
    destruct (Hsend 3%nat 6%nat tri_packet (header_to 3)) as (_ & Hds); [simpl; lia..|reflexivity|]. exact Hds.
Defined.
Lemma leaf_uses_every_spine_witness : exists b s m, default_network = Ok (b, s) /\ PopulateRoutingTables 0 (new_manager (as_net s)) = Ok (tt, m) /\
  spine_routes 2 0 b (m_net m) (server_address 3).
Proof.
  destruct (leaf_uses_every_spine (EM := unit) (W := unit) (R := unit) (fun _ => tt) 1 17 6 tt id 2 4 1) as (b & s & m & E & Em & Hr).
  - unfold fits. simpl. lia.
  - lia.
  - exists b, s, m. split; [exact E|]. split; [exact Em|]. apply (Hr 3%nat 0%nat); [simpl; lia|simpl; lia|discriminate].
Defined.
(** Through the first spine *)
Example default_route : ('(b, s) ← default_network; '(_, m) ← PopulateRoutingTables 0 (new_manager (as_net s));
  send 4 (m_net m) 6 tri_packet (header_to 3)) = Ok (Some (9%nat, [26; 10; 17; 33])).
Proof. vm_compute. reflexivity. Qed.
