(* ===== verification/LoadBalancer.v ===== *)
(** * The load-balancing environment ([scratch/loadbalancer/globals.h],
      [spine-leaf.{h,cc}], [mygym.cc], the rest of [topology-builder.h])

    The agent's view of the network: [GetData] samples every spine/leaf port
    into matrices that were sized when the program started, [GetObservation]
    hands them out, [ExecuteActions] changes the weights of a router, and
    [TraceP2PDevQueueDrop] counts the drops of each path.  A vector index out of
    range is [UndefinedBehaviour].  Floating-point numbers are opaque: [F] is
    [float]/[double]/[long double], [W] the [float] of the weights. *)

From S2P Require Import Prelude Bytes Packet Routing RlRouting.
From S2P Require Queue Ipv4Header ListRouting GlobalRouting PointToPoint.
Import PointToPoint (ErrorModel, world, mkWorld, w_now, w_pending, w_devs, w_chans, device, m_queue, set_queue,
  time_slot).

(** ** Vectors *)

Definition vec_at {A} (i : Z) (v : list A) : res A :=
  if (0 <=? i) && (i <? Z.of_nat (length v)) then deref (v !! Z.to_nat i) else Err UndefinedBehaviour.
(** [m[i][j]] and [m[i][j] = x] *)
Definition mat_at {A} (i j : Z) (m : list (list A)) : res A := row ← vec_at i m; vec_at j row.
Definition mat_set {A} (i j : Z) (x : A) (m : list (list A)) : res (list (list A)) :=
  row ← vec_at i m; _ ← vec_at j row; mret (<[Z.to_nat i := <[Z.to_nat j := x]> row]> m).

(** The floating-point operations of the sources. *)
Class Floats (F : Type) := {
  f_of_Z : Z -> F;
  f_is_zero : F -> bool;
  nano_to_sec : Z -> F;           (* a / 1000000000.0 *)
  f_times : F -> Z -> F;
  f_div_8000 : F -> F;
  f_incr : F -> F }.

Record Globals := mkGlobals {
  simulationTime : Z; action_space : Z; openGymPort : Z; simSeed : Z; serverCount : Z; leafCount : Z; spineCount : Z }.
Definition default_globals : Globals := mkGlobals 5 2 5555 1 1 4 2.

(** A pointer to a routing protocol held by the list routing of a node. *)
Record rl_ref := mkRef { ref_node : Z; ref_index : nat }.

Section lb.
Context {EM R W F : Type} `{ErrorModel EM} `{Floats F}.
(** The weight 0.5 *)
Variable half : W.

(** *** [StateActionManager]: its static members *)

Record StateActionManager := mkSam {
  m_q_drops_spines : list (list Z); m_q_drops_leaves : list (list Z);
  m_bandwidths_spines : list (list F); m_bandwidths_leaves : list (list F);
  m_q_size_spines : list (list Z); m_q_size_leaves : list (list Z);
  m_path_drops : list (list Z) }.

Definition matrix {A} (x : A) (rows cols : Z) : list (list A) :=
  replicate (Z.to_nat rows) (replicate (Z.to_nat cols) x).

(** The static members are initialized from the static values of [Globals]. *)
Definition initial_sam (g : Globals) : StateActionManager :=
  mkSam (matrix 0 (spineCount g) (leafCount g)) (matrix 0 (leafCount g) (spineCount g))
    (matrix (f_of_Z 0) (spineCount g) (leafCount g)) (matrix (f_of_Z 0) (leafCount g) (spineCount g))
    (matrix 0 (spineCount g) (leafCount g)) (matrix 0 (leafCount g) (spineCount g))
    (matrix 0 (spineCount g) (leafCount g)).

Record env := mkEnv {
  e_globals : Globals;
  e_world : world (EM := EM);
  e_routing : gmap Z (ListRouting.Ipv4ListRouting (protocol R W));
  e_sam : StateActionManager;
  e_spinesLeaves : list (list nat);        (* p2pSpinesLeavesNetdevs *)
  e_leavesSpines : list (list nat);        (* p2pLeavesSpinesNetdevs *)
  leaf_rl_routers : list rl_ref;
  e_reward : F; e_stepCounter : F }.

Abbreviation M := (st env).

Definition set_sam (s : StateActionManager) (e : env) : env :=
  mkEnv (e_globals e) (e_world e) (e_routing e) s (e_spinesLeaves e) (e_leavesSpines e) (leaf_rl_routers e)
    (e_reward e) (e_stepCounter e).
Definition set_world (w : world) (e : env) : env :=
  mkEnv (e_globals e) w (e_routing e) (e_sam e) (e_spinesLeaves e) (e_leavesSpines e) (leaf_rl_routers e)
    (e_reward e) (e_stepCounter e).
Definition set_routing (m : gmap Z (ListRouting.Ipv4ListRouting (protocol R W))) (e : env) : env :=
  mkEnv (e_globals e) (e_world e) m (e_sam e) (e_spinesLeaves e) (e_leavesSpines e) (leaf_rl_routers e)
    (e_reward e) (e_stepCounter e).
Definition set_routers (l : list rl_ref) (e : env) : env :=
  mkEnv (e_globals e) (e_world e) (e_routing e) (e_sam e) (e_spinesLeaves e) (e_leavesSpines e) l
    (e_reward e) (e_stepCounter e).
Definition set_counters (r s : F) (e : env) : env :=
  mkEnv (e_globals e) (e_world e) (e_routing e) (e_sam e) (e_spinesLeaves e) (e_leavesSpines e) (leaf_rl_routers e) r s.

Definition set_drops_spines m (s : StateActionManager) : StateActionManager :=
  mkSam m (m_q_drops_leaves s) (m_bandwidths_spines s) (m_bandwidths_leaves s) (m_q_size_spines s)
    (m_q_size_leaves s) (m_path_drops s).
Definition set_drops_leaves m (s : StateActionManager) : StateActionManager :=
  mkSam (m_q_drops_spines s) m (m_bandwidths_spines s) (m_bandwidths_leaves s) (m_q_size_spines s)
    (m_q_size_leaves s) (m_path_drops s).
Definition set_bandwidths_spines m (s : StateActionManager) : StateActionManager :=
  mkSam (m_q_drops_spines s) (m_q_drops_leaves s) m (m_bandwidths_leaves s) (m_q_size_spines s)
    (m_q_size_leaves s) (m_path_drops s).
Definition set_bandwidths_leaves m (s : StateActionManager) : StateActionManager :=
  mkSam (m_q_drops_spines s) (m_q_drops_leaves s) (m_bandwidths_spines s) m (m_q_size_spines s)
    (m_q_size_leaves s) (m_path_drops s).
Definition set_q_size_spines m (s : StateActionManager) : StateActionManager :=
  mkSam (m_q_drops_spines s) (m_q_drops_leaves s) (m_bandwidths_spines s) (m_bandwidths_leaves s) m
    (m_q_size_leaves s) (m_path_drops s).
Definition set_q_size_leaves m (s : StateActionManager) : StateActionManager :=
  mkSam (m_q_drops_spines s) (m_q_drops_leaves s) (m_bandwidths_spines s) (m_bandwidths_leaves s)
    (m_q_size_spines s) m (m_path_drops s).
Definition set_path_drops m (s : StateActionManager) : StateActionManager :=
  mkSam (m_q_drops_spines s) (m_q_drops_leaves s) (m_bandwidths_spines s) (m_bandwidths_leaves s)
    (m_q_size_spines s) (m_q_size_leaves s) m.

(** [field[i][j] = x] *)
Definition store {A} (get : StateActionManager -> list (list A))
    (set : list (list A) -> StateActionManager -> StateActionManager) (i j : Z) (x : A) : M unit :=
  s ← gets e_sam;
  m ← lift (mat_set i j x (get s));
  update (set_sam (set m s)).

(** *** Ports *)

Definition port (d : nat) : M device :=
  w ← gets e_world; lift (deref (w_devs w !! d)).
Definition set_port (d : nat) (dev : device) : M unit :=
  update (fun e => set_world (mkWorld (w_now (e_world e)) (w_pending (e_world e))
    (<[d := dev]> (w_devs (e_world e))) (w_chans (e_world e))) e).

(** Samples a port and writes its three values with the given stores. *)
Definition sample (d : nat) (drops size : Z -> M unit) (bandwidth : F -> M unit) : M unit :=
  dev ← port d;
  q ← lift (deref (m_queue dev));
  _ ← drops (Queue.GetTotalDroppedPacketsBeforeEnqueue q);
  _ ← set_port d (set_queue (Some (Queue.resetStats q)) dev);
  _ ← size (Queue.m_value (Queue.GetCurrentSize q));
  dev ← port d;
  w ← gets e_world;
  let '((up, bps), dev) := time_slot (w_now w) dev in
  _ ← set_port d dev;
  let dura := nano_to_sec up in
  bandwidth (if f_is_zero dura then f_of_Z 0 else f_times dura bps).

Definition spine_port (i j : Z) : M unit :=
  d ← (m ← gets e_spinesLeaves; lift (mat_at i j m));
  sample d (store m_q_drops_spines set_drops_spines i j) (store m_q_size_spines set_q_size_spines i j)
    (store m_bandwidths_spines set_bandwidths_spines i j).
Definition leaf_port (j leaf : Z) : M unit :=
  d ← (m ← gets e_leavesSpines; lift (mat_at j leaf m));
  sample d (store m_q_drops_leaves set_drops_leaves j leaf) (store m_q_size_leaves set_q_size_leaves j leaf)
    (store m_bandwidths_leaves set_bandwidths_leaves j leaf).

(** *** Routers *)

Definition find_router (r : rl_ref) (m : gmap Z (ListRouting.Ipv4ListRouting (protocol R W))) :
    res (ListRouting.Ipv4ListRouting (protocol R W) * Z * Ipv4RlRouting W) :=
  l ← deref (m !! ref_node r);
  e ← deref (ListRouting.m_routingProtocols l !! ref_index r);
  match e.2 with PRl s => mret (l, e.1, s) | _ => Err UndefinedBehaviour end.
Definition router (k : Z) : M (rl_ref * Ipv4RlRouting W) :=
  l ← gets leaf_rl_routers;
  r ← lift (vec_at k l);
  m ← gets e_routing;
  '(_, _, s) ← lift (find_router r m);
  mret (r, s).
Definition update_router (r : rl_ref) (f : Ipv4RlRouting W -> Ipv4RlRouting W) : M unit :=
  m ← gets e_routing;
  '(l, prio, s) ← lift (find_router r m);
  update (set_routing (<[ref_node r :=
    ListRouting.mkList (<[ref_index r := (prio, PRl (f s))]> (ListRouting.m_routingProtocols l))
      (ListRouting.m_ipv4 l)]> m)).

(** *** [StateActionManager] *)

Definition GetData : M unit :=
  g ← gets e_globals;
  _ ← each (fun i =>
        if i <? spineCount g then each (fun j => spine_port i j) (seqZ 0 (leafCount g))
        else each (fun j => leaf_port j (u32 (i - 2))) (seqZ 0 (spineCount g)))
      (seqZ 0 (u32 (spineCount g + leafCount g)));
  each (fun i => _ ← router i; mret tt) (seqZ 0 (leafCount g)).

(** Only the first router is given the first two weights. *)
Definition ApplyNewAction (actions : list W) : M unit :=
  g ← gets e_globals;
  _ ← (if action_space g =? 0 then lift (Err UndefinedBehaviour) else mret tt);
  _ ← lift (ns_assert (Z.of_nat (length actions) mod action_space g =? 0));
  _ ← lift (ns_assert (Z.of_nat (length actions) / action_space g =? leafCount g));
  a0 ← lift (vec_at 0 actions);
  a1 ← lift (vec_at 1 actions);
  '(r, _) ← router 0;
  _ ← update_router r resetStats;
  update_router r (fun s => (SetDistribution [a0; a1] s).2).

(** [MyTag ()]: the tag when the packet has none *)
Definition NO_LEAF : Z := 99999.
Definition TraceP2PDevQueueDrop (p : tagged) : M unit :=
  let '(leafId, interfaceId) := default (NO_LEAF, NO_LEAF) (t_tag p) in
  if negb (leafId =? NO_LEAF) then
    '(_, _, copy) ← lift (RemoveHeader (mkPppHeader 0) (Copy (t_packet p)));
    _ ← lift (Ipv4Header.Deserialize Ipv4Header.new_Ipv4Header (p_data copy));
    g ← gets e_globals;
    let i := u32 (interfaceId - 1) in
    let j := u32 (leafId - spineCount g) in
    s ← gets e_sam;
    n ← lift (mat_at i j (m_path_drops s));
    store m_path_drops set_path_drops i j (u64 (n + 1))
  else mret tt.

(** *** [DataCenterEnv] *)

(** The values added to the box; the loop over the path drops resets those of a
    copy. *)
Definition GetObservation : M (list F) :=
  _ ← GetData;
  s ← gets e_sam;
  mret (mjoin (fmap (M := list) f_of_Z <$> m_q_drops_spines s) ++
        mjoin (fmap (M := list) f_of_Z <$> m_q_drops_leaves s) ++
        mjoin (fmap (M := list) f_of_Z <$> m_q_size_spines s) ++
        mjoin (fmap (M := list) f_of_Z <$> m_q_size_leaves s) ++
        mjoin (fmap (M := list) f_div_8000 <$> m_bandwidths_spines s) ++
        mjoin (fmap (M := list) f_div_8000 <$> m_bandwidths_leaves s) ++
        mjoin (fmap (M := list) f_of_Z <$> m_path_drops s)).

(** The shapes of the spaces *)
Definition GetObservationSpace (g : Globals) : Z := u32 (u32 (spineCount g * leafCount g) * 7).
Definition GetActionSpace (g : Globals) : Z := u32 (spineCount g * leafCount g).

(** The result of the cast is null when the container is not a box of floats. *)
Definition ExecuteActions (box : option (list W)) : M bool :=
  actions ← lift (match box with Some a => Ok a | None => Err AssertFailed end);
  _ ← ApplyNewAction actions;
  mret true.
Definition GetReward : M F :=
  r ← gets e_reward;
  _ ← update (fun e => set_counters (f_incr r) (e_stepCounter e) e);
  mret (f_incr r).
Definition GetGameOver : M bool :=
  _ ← update (fun e => set_counters (e_reward e) (f_incr (e_stepCounter e)) e);
  mret false.

(** *** [TopologyBuilder] *)

Definition init_router (n : Z) : M unit :=
  m ← gets e_routing;
  l ← lift (deref (m !! n));
  rl ← lift (ListRouting.GetRoutingProtocol 0 l);
  gl ← lift (ListRouting.GetRoutingProtocol 2 l);
  match rl, gl with
  | Some (_, PRl _), Some (_, PGlobal gr) =>
      let r := mkRef n 0 in
      _ ← update (fun e => set_routers (leaf_rl_routers e ++ [r]) e);
      _ ← update_router r (init_routes (GlobalRouting.m_hostRoutes gr) (GlobalRouting.m_networkRoutes gr));
      update_router r (fun s => (SetDistribution [half; half] s).2)
  | _, _ => lift (Err FatalError)           (* exit (1) *)
  end.
Definition InitRLRouting (leaf : list Z) : M unit := each init_router leaf.

(** The cells [i][j], [i] below the number of spines and [j] below the number of leaves. *)
Fixpoint read_row {A} (m : list (list A)) (i : Z) (js : list Z) : res (list A) :=
  match js with
  | [] => mret []
  | j :: r => x ← mat_at i j m; l ← read_row m i r; mret (x :: l)
  end.
Fixpoint read_rows {A} (m : list (list A)) (js is_ : list Z) : res (list (list A)) :=
  match is_ with
  | [] => mret []
  | i :: r => row ← read_row m i js; rows ← read_rows m js r; mret (row :: rows)
  end.
Definition print_matrix {A} (g : Globals) (m : list (list A)) : res (list (list A)) :=
  read_rows m (seqZ 0 (leafCount g)) (seqZ 0 (spineCount g)).
(** The matrices printed, integers first, and the delay after which it runs again. *)
Definition GetStats : M (list (list (list Z)) * list (list (list F)) * Z) :=
  _ ← GetData;
  g ← gets e_globals;
  s ← gets e_sam;
  sl ← lift (print_matrix g (m_q_size_leaves s));
  ss ← lift (print_matrix g (m_q_size_spines s));
  dl ← lift (print_matrix g (m_q_drops_leaves s));
  ds ← lift (print_matrix g (m_q_drops_spines s));
  bl ← lift (print_matrix g (m_bandwidths_leaves s));
  bs ← lift (print_matrix g (m_bandwidths_spines s));
  mret ([sl; ss; dl; ds], [bl; bs], 1000000000).
End lb.
Arguments env EM R W F : clear implicits.
Arguments StateActionManager F : clear implicits.
