(* ===== verification/LoadBalancerSpec.v ===== *)
(** * Properties of the load-balancing environment

    [sized] is the invariant of the environment once the network is built and
    the routers are initialized: the device matrices have the shape of the
    network, the statistics the shape they got from the default globals. *)

From S2P Require Import Prelude Bytes Packet Routing RlRouting LoadBalancer.
From S2P Require Queue Ipv4Header ListRouting GlobalRouting PointToPoint.
Import PointToPoint (ErrorModel, world, mkWorld, w_now, w_pending, w_devs, w_chans, device, m_queue, set_queue,
  time_slot).

(** ** Matrices *)

Definition shape {A} (r c : Z) (m : list (list A)) : Prop :=
  Z.of_nat (length m) = r /\ Forall (fun row => Z.of_nat (length row) = c) m.

Lemma vec_at_in {A} i (v : list A) : 0 <= i < Z.of_nat (length v) -> exists x, vec_at i v = Ok x /\ v !! Z.to_nat i = Some x.
Proof.
  intros Hi. unfold vec_at. rewrite (proj2 (Z.leb_le 0 i)), (proj2 (Z.ltb_lt i _)) by lia. simpl.
  destruct (lookup_lt_is_Some_2 v (Z.to_nat i)) as [x Hx]; [lia|]. rewrite Hx. by exists x.
Qed.

Lemma vec_at_out {A} i (v : list A) : ~ 0 <= i < Z.of_nat (length v) -> vec_at i v = Err UndefinedBehaviour.
Proof.
  intros Hi. unfold vec_at. destruct ((0 <=? i) && (i <? Z.of_nat (length v))) eqn:E; [|done].
  bool_to_Z. lia.
Qed.

Lemma mat_at_in {A} r c i j (m : list (list A)) :
  shape r c m -> 0 <= i < r -> 0 <= j < c -> exists x, mat_at i j m = Ok x.
Proof.
  intros [Hr Hc] Hi Hj. unfold mat_at. destruct (vec_at_in i m) as (row & -> & Hrow); [lia|]. simpl.
  assert (Z.of_nat (length row) = c) as Hl by (by eapply Forall_lookup_1 in Hc).
  destruct (vec_at_in j row) as (x & -> & _); [lia|]. by exists x.
Qed.

Lemma mat_at_out {A} r c i j (m : list (list A)) :
  shape r c m -> ~ (0 <= i < r /\ 0 <= j < c) -> mat_at i j m = Err UndefinedBehaviour.
Proof.
  intros [Hr Hc] Hij. unfold mat_at. destruct (decide (0 <= i < r)) as [Hi|Hi].
  - destruct (vec_at_in i m) as (row & -> & Hrow); [lia|]. simpl.
    assert (Z.of_nat (length row) = c) as Hl by (by eapply Forall_lookup_1 in Hc).
    apply vec_at_out. lia.
  - by rewrite vec_at_out by lia.
Qed.

Lemma mat_set_in {A} r c i j x (m : list (list A)) :
  shape r c m -> 0 <= i < r -> 0 <= j < c -> exists m', mat_set i j x m = Ok m' /\ shape r c m' /\
    forall i' j', 0 <= i' -> 0 <= j' -> mat_at i' j' m' = if decide (i' = i /\ j' = j) then Ok x else mat_at i' j' m.
Proof.
  intros [Hr Hc] Hi Hj. unfold mat_set. destruct (vec_at_in i m) as (row & E1 & Hrow); [lia|]. rewrite E1. simpl.
  assert (Z.of_nat (length row) = c) as Hl by (by eapply Forall_lookup_1 in Hc).
  destruct (vec_at_in j row) as (y & E2 & _); [lia|]. rewrite E2. simpl. eexists. split; [done|]. split.
  - split; [by rewrite length_insert|]. apply Forall_insert; [done|]. by rewrite length_insert.
  - intros i' j' Hi' Hj'. unfold mat_at, vec_at. rewrite length_insert.
    destruct (decide (i' = i)) as [->|Hne].
    + rewrite (proj2 (Z.leb_le 0 i)), (proj2 (Z.ltb_lt i _)) by lia. simpl.
      rewrite list_lookup_insert_eq, Hrow by lia. simpl. rewrite length_insert.
      destruct (decide (j' = j)) as [->|Hnej].
      * rewrite decide_True by done. rewrite (proj2 (Z.leb_le 0 j)), (proj2 (Z.ltb_lt j _)) by lia. simpl.
        by rewrite list_lookup_insert_eq by lia.
      * rewrite decide_False by tauto. rewrite list_lookup_insert_ne by lia. done.
    + rewrite decide_False by tauto. by rewrite list_lookup_insert_ne by lia.
Qed.

Lemma mat_set_out {A} r c i j x (m : list (list A)) :
  shape r c m -> ~ (0 <= i < r /\ 0 <= j < c) -> mat_set i j x m = Err UndefinedBehaviour.
Proof.
  intros Hs Hij. pose proof (mat_at_out r c i j m Hs Hij) as E. unfold mat_at, mat_set in *.
  destruct (vec_at i m) as [row|]; simpl in *; [|congruence]. by rewrite E.
Qed.

Lemma shape_matrix {A} (x : A) r c : 0 <= r -> 0 <= c -> shape r c (matrix x r c).
Proof.
  intros Hr Hc. unfold matrix. split; [rewrite length_replicate; lia|]. apply Forall_replicate.
  rewrite length_replicate. lia.
Qed.

Section spec.
Context {EM R W F : Type} `{ErrorModel EM} `{Floats F}.
Abbreviation env := (env EM R W F).
Implicit Types e : env.

(** ** The invariant *)

(** Every port of the network exists and has a queue. *)
Definition ports_ok (w : world (EM := EM)) (m : list (list nat)) : Prop :=
  forall i j d, mat_at i j m = Ok d -> exists dev q, w_devs w !! d = Some dev /\ m_queue dev = Some q.

Definition routers_ok e : Prop :=
  Z.of_nat (length (leaf_rl_routers e)) = leafCount (e_globals e) /\
  forall r, r ∈ leaf_rl_routers e -> exists x, find_router r (e_routing e) = Ok x.

Record sam_ok (s : StateActionManager F) : Prop := {
  so_ds : shape 2 4 (m_q_drops_spines s); so_dl : shape 4 2 (m_q_drops_leaves s);
  so_bs : shape 2 4 (m_bandwidths_spines s); so_bl : shape 4 2 (m_bandwidths_leaves s);
  so_ss : shape 2 4 (m_q_size_spines s); so_sl : shape 4 2 (m_q_size_leaves s);
  so_pd : shape 2 4 (m_path_drops s) }.

Record sized (S L : Z) e : Prop := {
  sz_spines : spineCount (e_globals e) = S;
  sz_leaves : leafCount (e_globals e) = L;
  sz_sam : sam_ok (e_sam e);
  sz_sl : shape S L (e_spinesLeaves e);
  sz_ls : shape S L (e_leavesSpines e);
  sz_psl : ports_ok (e_world e) (e_spinesLeaves e);
  sz_pls : ports_ok (e_world e) (e_leavesSpines e);
  sz_routers : routers_ok e }.

Lemma initial_sam_ok : sam_ok (initial_sam default_globals).
Proof using. constructor; by apply shape_matrix. Qed.

(** What sampling may change. *)
Definition same_but_sam (e e' : env) : Prop :=
  e_globals e' = e_globals e /\ e_routing e' = e_routing e /\ leaf_rl_routers e' = leaf_rl_routers e /\
  e_spinesLeaves e' = e_spinesLeaves e /\ e_leavesSpines e' = e_leavesSpines e /\
  m_path_drops (e_sam e') = m_path_drops (e_sam e) /\
  (forall d dev, w_devs (e_world e) !! d = Some dev -> exists dev', w_devs (e_world e') !! d = Some dev' /\
     (is_Some (m_queue dev) -> is_Some (m_queue dev'))).

Lemma same_but_sam_refl e : same_but_sam e e.
Proof using. unfold same_but_sam. naive_solver. Qed.
Lemma same_but_sam_trans e1 e2 e3 : same_but_sam e1 e2 -> same_but_sam e2 e3 -> same_but_sam e1 e3.
Proof using.
  intros (? & ? & ? & ? & ? & ? & Ha) (? & ? & ? & ? & ? & ? & Hb).
  unfold same_but_sam. split_and!; try congruence.
  intros d dev Hd. destruct (Ha d dev Hd) as (dev1 & Hd1 & ?). destruct (Hb d dev1 Hd1) as (dev2 & Hd2 & ?).
  exists dev2. naive_solver.
Qed.

Lemma sized_same S L e e' : sized S L e -> same_but_sam e e' -> sam_ok (e_sam e') -> sized S L e'.
Proof using.
  intros [] (Eg & Er & El & E1 & E2 & _ & Hd) Hs. unfold routers_ok in *.
  constructor; unfold routers_ok; rewrite ?Eg, ?Er, ?El, ?E1, ?E2; try done.
  - intros i j d Hij. destruct (sz_psl0 i j d Hij) as (dev & q & Hdev & Hq).
    destruct (Hd d dev Hdev) as (dev' & ? & Hs'). rewrite Hq in Hs'.
    destruct (Hs' ltac:(eauto)) as [q' ?]. eauto.
  - intros i j d Hij. destruct (sz_pls0 i j d Hij) as (dev & q & Hdev & Hq).
    destruct (Hd d dev Hdev) as (dev' & ? & Hs'). rewrite Hq in Hs'.
    destruct (Hs' ltac:(eauto)) as [q' ?]. eauto.
Qed.

(** ** Sampling a port *)

Definition storing {A} (f : A -> st env unit) : Prop :=
  forall x e, sam_ok (e_sam e) -> exists s, f x e = Ok (tt, set_sam s e) /\ sam_ok s /\
    m_path_drops s = m_path_drops (e_sam e).
Definition faulting {A} (f : A -> st env unit) : Prop :=
  forall x e, sam_ok (e_sam e) -> f x e = Err UndefinedBehaviour.

Lemma store_in {A} r c (get : StateActionManager F -> list (list A)) set i j :
  (forall s, sam_ok s -> shape r c (get s)) ->
  (forall s m, sam_ok s -> shape r c m -> sam_ok (set m s) /\ m_path_drops (set m s) = m_path_drops s) ->
  0 <= i < r -> 0 <= j < c -> storing (store (EM := EM) (R := R) (W := W) get set i j).
Proof using.
  intros Hget Hset Hi Hj x e Hs. unfold store. run.
  destruct (mat_set_in r c i j x (get (e_sam e)) (Hget _ Hs) Hi Hj) as (m' & -> & Hm' & _). run.
  exists (set m' (e_sam e)). split; [done|]. by apply Hset.
Qed.

Lemma store_out {A} r c (get : StateActionManager F -> list (list A)) set i j :
  (forall s, sam_ok s -> shape r c (get s)) -> ~ (0 <= i < r /\ 0 <= j < c) ->
  faulting (store (EM := EM) (R := R) (W := W) get set i j).
Proof using.
  intros Hget Hij x e Hs. unfold store. run. by rewrite (mat_set_out r c) by (by auto).
Qed.

Lemma set_port_same d dev dev' e :
  w_devs (e_world e) !! d = Some dev -> (is_Some (m_queue dev) -> is_Some (m_queue dev')) ->
  exists e', set_port d dev' e = Ok (tt, e') /\ same_but_sam e e' /\ e_sam e' = e_sam e /\
    w_devs (e_world e') !! d = Some dev'.
Proof using.
  intros Hd Hq. eexists. split; [done|]. split; [|split; [done|apply lookup_insert_eq]].
  unfold same_but_sam. simpl. split_and!; try done. intros d' x Hx.
  destruct (decide (d' = d)) as [->|Hne].
  - simplify_eq. exists dev'. by rewrite lookup_insert_eq.
  - exists x. by rewrite lookup_insert_ne.
Qed.

Lemma same_set_sam s e : m_path_drops s = m_path_drops (e_sam e) -> same_but_sam e (set_sam s e).
Proof using. intros E. unfold same_but_sam. simpl. split_and!; try done. eauto. Qed.

Lemma run_port {A} d dev e (k : device -> st env A) :
  w_devs (e_world e) !! d = Some dev -> (port d ≫= k) e = k dev e.
Proof using. intros Hd. unfold port. unfold mbind, st_bind, gets, lift. by rewrite Hd. Qed.

Lemma sample_ok d dev q fd fs fb e :
  storing fd -> storing fs -> storing fb -> sam_ok (e_sam e) ->
  w_devs (e_world e) !! d = Some dev -> m_queue dev = Some q ->
  exists e', sample d fd fs fb e = Ok (tt, e') /\ same_but_sam e e' /\ sam_ok (e_sam e').
Proof using.
  intros Hfd Hfs Hfb Hs Hd Hq. unfold sample. rewrite (run_port _ _ _ _ Hd), Hq. cbn [deref]. run.
  destruct (Hfd (Queue.GetTotalDroppedPacketsBeforeEnqueue q) e Hs) as (s1 & E1 & Hs1 & P1).
  rewrite (run_bind _ _ _ _ _ E1). set (e1 := set_sam s1 e).
  destruct (set_port_same d dev (set_queue (Some (Queue.resetStats q)) dev) e1 Hd) as (e2 & E2 & Hsame2 & Hsam2 & Hd2).
  { simpl. eauto. }
  rewrite (run_bind _ _ _ _ _ E2).
  destruct (Hfs (Queue.m_value (Queue.GetCurrentSize q)) e2) as (s3 & E3 & Hs3 & P3); [by rewrite Hsam2|].
  rewrite (run_bind _ _ _ _ _ E3). set (e3 := set_sam s3 e2).
  erewrite (run_port d _ e3) by exact Hd2. rewrite run_gets.
  destruct (time_slot _ _) as [[up bps] dev4] eqn:Ets.
  assert (m_queue dev4 = Some (Queue.resetStats q)) as Hq4.
  { unfold time_slot in Ets. injection Ets as _ _ <-. done. }
  destruct (set_port_same d _ dev4 e3 Hd2) as (e4 & E4 & Hsame4 & Hsam4 & _); [by rewrite Hq4; eauto|].
  rewrite (run_bind _ _ _ _ _ E4). cbv zeta.
  match goal with |- context [fb ?x e4] => destruct (Hfb x e4) as (s5 & E5 & Hs5 & P5); [by rewrite Hsam4|] end.
  rewrite E5. eexists. split; [done|]. split; [|done].
  apply (same_but_sam_trans e e1); [by apply same_set_sam|]. apply (same_but_sam_trans e1 e2); [done|].
  apply (same_but_sam_trans e2 e3); [by apply same_set_sam|]. apply (same_but_sam_trans e3 e4); [done|].
  by apply same_set_sam.
Qed.

Lemma sample_fault d dev q fd fs fb e :
  faulting fd -> sam_ok (e_sam e) -> w_devs (e_world e) !! d = Some dev -> m_queue dev = Some q ->
  sample d fd fs fb e = Err UndefinedBehaviour.
Proof using.
  intros Hfd Hs Hd Hq. unfold sample. rewrite (run_port _ _ _ _ Hd), Hq. cbn [deref]. run.
  unfold mbind at 1, st_bind at 1. by rewrite Hfd.
Qed.

(** ** The loops of [GetData] *)

Ltac storing r c := apply (store_in r c); [by intros ? []|intros ? ? [] ?; split; [by constructor|done]|lia|lia].

Definition step_ok (S L : Z) (e e' : env) : Prop := sized S L e' /\ same_but_sam e e'.

Lemma spine_port_ok S L i j e :
  sized S L e -> 0 <= i < S -> 0 <= j < L -> i < 2 -> j < 4 ->
  exists e', spine_port i j e = Ok (tt, e') /\ step_ok S L e e'.
Proof using.
  intros He Hi Hj Hi2 Hj4. destruct (mat_at_in S L i j _ (sz_sl _ _ _ He) Hi Hj) as [d Ed].
  destruct (sz_psl _ _ _ He i j d Ed) as (dev & q & Hd & Hq).
  unfold spine_port. rewrite (run_bind _ _ _ d e) by (unfold mbind, st_bind, gets, lift; by rewrite Ed).
  destruct (sample_ok d dev q (store m_q_drops_spines set_drops_spines i j)
    (store m_q_size_spines set_q_size_spines i j) (store m_bandwidths_spines set_bandwidths_spines i j) e)
    as (e' & E & Hsame & Hs); [storing 2 4..|apply (sz_sam _ _ _ He)|exact Hd|exact Hq|]. exists e'. split; [exact E|]. split; [by eapply sized_same|done].
Qed.

Lemma spine_port_fault S L i j e :
  sized S L e -> 0 <= i < S -> 0 <= j < L -> ~ (i < 2 /\ j < 4) -> spine_port i j e = Err UndefinedBehaviour.
Proof using.
  intros He Hi Hj Hij. destruct (mat_at_in S L i j _ (sz_sl _ _ _ He) Hi Hj) as [d Ed].
  destruct (sz_psl _ _ _ He i j d Ed) as (dev & q & Hd & Hq).
  unfold spine_port. rewrite (run_bind _ _ _ d e) by (unfold mbind, st_bind, gets, lift; by rewrite Ed).
  eapply sample_fault; [|apply (sz_sam _ _ _ He)|done|done].
  apply (store_out 2 4); [by intros ? []|lia].
Qed.

Lemma leaf_port_ok S L j leaf e :
  sized S L e -> 0 <= j < S -> 0 <= leaf < L -> j < 4 -> leaf < 2 ->
  exists e', leaf_port j leaf e = Ok (tt, e') /\ step_ok S L e e'.
Proof using.
  intros He Hi Hj Hi2 Hj4. destruct (mat_at_in S L j leaf _ (sz_ls _ _ _ He) Hi Hj) as [d Ed].
  destruct (sz_pls _ _ _ He j leaf d Ed) as (dev & q & Hd & Hq).
  unfold leaf_port. rewrite (run_bind _ _ _ d e) by (unfold mbind, st_bind, gets, lift; by rewrite Ed).
  destruct (sample_ok d dev q (store m_q_drops_leaves set_drops_leaves j leaf)
    (store m_q_size_leaves set_q_size_leaves j leaf) (store m_bandwidths_leaves set_bandwidths_leaves j leaf) e)
    as (e' & E & Hsame & Hs); [storing 4 2..|apply (sz_sam _ _ _ He)|exact Hd|exact Hq|]. exists e'. split; [exact E|]. split; [by eapply sized_same|done].
Qed.

Lemma leaf_port_fault S L j leaf e :
  sized S L e -> 0 <= j < S -> ~ (0 <= leaf < L /\ j < 4 /\ leaf < 2) -> leaf_port j leaf e = Err UndefinedBehaviour.
Proof using.
  intros He Hj Hout. unfold leaf_port. destruct (decide (0 <= leaf < L)) as [Hl|Hl].
  - destruct (mat_at_in S L j leaf _ (sz_ls _ _ _ He) Hj Hl) as [d Ed].
    destruct (sz_pls _ _ _ He j leaf d Ed) as (dev & q & Hd & Hq).
    rewrite (run_bind _ _ _ d e) by (unfold mbind, st_bind, gets, lift; by rewrite Ed).
    eapply sample_fault; [|apply (sz_sam _ _ _ He)|done|done].
    apply (store_out 4 2); [by intros ? []|lia].
  - unfold mbind at 1, st_bind at 1. unfold mbind, st_bind, gets, lift.
    by rewrite (mat_at_out S L) by (try apply (sz_ls _ _ _ He); lia).
Qed.

(** The body of the outer loop. *)
Definition round (S L i : Z) : st env unit :=
  if i <? S then each (fun j => spine_port i j) (seqZ 0 L)
  else each (fun j => leaf_port j (u32 (i - 2))) (seqZ 0 S).

Lemma round_cases S L e0 i e :
  0 <= i -> step_ok S L e0 e ->
  (exists e', round S L i e = Ok (tt, e') /\ step_ok S L e0 e') \/ round S L i e = Err UndefinedBehaviour.
Proof using.
  intros Hi. unfold round.
  assert (forall f : Z -> st env unit, (forall j e, sized S L e ->
      (exists e', f j e = Ok (tt, e') /\ step_ok S L e e') \/ f j e = Err UndefinedBehaviour) ->
    forall j e, step_ok S L e0 e ->
      (exists e', f j e = Ok (tt, e') /\ step_ok S L e0 e') \/ f j e = Err UndefinedBehaviour) as Hlift.
  { intros f Hf j e1 [Hs1 Hsame1]. destruct (Hf j e1 Hs1) as [(e2 & E & Hs2 & Hsame2)|E]; [left|by right].
    exists e2. split; [done|]. split; [done|by eapply same_but_sam_trans]. }
  destruct (i <? S) eqn:E; bool_to_Z; intros He; (eapply each_cases; [|exact He]); intros j e1 Hj%elem_of_seqZ He1.
  - apply (Hlift (fun j => if decide (0 <= j < L) then spine_port i j else lift (Err UndefinedBehaviour)) ) with (j := j) in He1.
    { by rewrite decide_True in He1 by lia. }
    intros j' e2 He2. case_decide; [|by right]. destruct (decide (i < 2 /\ j' < 4)).
    + left. apply spine_port_ok; done || lia.
    + right. eapply spine_port_fault; done || lia.
  - apply (Hlift (fun j => if decide (0 <= j < S) then leaf_port j (u32 (i - 2)) else lift (Err UndefinedBehaviour))) with (j := j) in He1.
    { by rewrite decide_True in He1 by lia. }
    intros j' e2 He2. case_decide; [|by right].
    destruct (decide (0 <= u32 (i - 2) < L /\ j' < 4 /\ u32 (i - 2) < 2)).
    + left. apply leaf_port_ok; done || lia.
    + right. eapply leaf_port_fault; done || lia.
Qed.

(** Every router pointer is good. *)
Lemma read_routers_ok S L e0 e :
  step_ok S L e0 e ->
  exists e', each (fun i => _ ← router i; mret tt) (seqZ 0 L) e = Ok (tt, e') /\ step_ok S L e0 e'.
Proof using.
  apply (each_total (step_ok S L e0)). intros i s Hi%elem_of_seqZ Hs. exists s. split; [|done].
  destruct Hs as [Hs _]. destruct (sz_routers _ _ _ Hs) as [Hlen Hr]. rewrite (sz_leaves _ _ _ Hs) in Hlen.
  destruct (vec_at_in i (leaf_rl_routers s)) as (r & Er & Hr'); [lia|].
  destruct (Hr r) as [[[l prio] x] Ex]; [by eapply list_elem_of_lookup_2|].
  unfold router, mbind, st_bind, gets, lift. rewrite Er, Ex. done.
Qed.

Lemma GetData_unfold S L e :
  sized S L e ->
  GetData e = (_ ← each (round S L) (seqZ 0 (u32 (S + L))); each (fun i => _ ← router i; mret tt) (seqZ 0 L)) e.
Proof using. intros []. unfold GetData. run. by rewrite sz_spines0, sz_leaves0. Qed.

(** The configurations in which every index is in range. *)
Definition in_bounds (S L : Z) : bool := (S =? 0) || (L =? 0) || ((S =? 2) && (L <=? 2)).

Lemma round_ok S L e0 i e :
  0 <= S -> 0 <= L -> S + L < 2 ^ 32 -> in_bounds S L = true -> 0 <= i < S + L -> step_ok S L e0 e ->
  exists e', round S L i e = Ok (tt, e') /\ step_ok S L e0 e'.
Proof using.
  intros HS HL Hmax Hb Hi He. unfold round, in_bounds in *.
  destruct (i <? S) eqn:Ei; bool_to_Z; (eapply (each_total (step_ok S L e0)); [|exact He]);
    intros j s Hj%elem_of_seqZ [Hs Hsame].
  - assert (S = 2 /\ L <= 2) as [-> HL2] by (destruct (S =? 0) eqn:?, (L =? 0) eqn:?; simpl in Hb; bool_to_Z; lia).
    destruct (spine_port_ok 2 L i j s Hs) as (s' & E & Hs' & Hsame'); try lia.
    exists s'. split; [done|]. split; [done|by eapply same_but_sam_trans].
  - assert (S = 2 /\ L <= 2) as [-> HL2] by (destruct (S =? 0) eqn:?, (L =? 0) eqn:?; simpl in Hb; bool_to_Z; lia).
    rewrite wrap_small by (unfold in_range; lia).
    destruct (leaf_port_ok 2 L j (i - 2) s Hs) as (s' & E & Hs' & Hsame'); try lia.
    exists s'. split; [done|]. split; [done|by eapply same_but_sam_trans].
Qed.

Lemma GetData_ok S L e :
  0 <= S -> 0 <= L -> S + L < 2 ^ 32 -> in_bounds S L = true -> sized S L e ->
  exists e', GetData e = Ok (tt, e') /\ step_ok S L e e'.
Proof using.
  intros HS HL Hmax Hb He. rewrite (GetData_unfold S L) by done. rewrite wrap_small by (unfold in_range; lia).
  assert (step_ok S L e e) as Hstep by (split; [done|apply same_but_sam_refl]).
  destruct (each_total (step_ok S L e) (round S L) (seqZ 0 (S + L))) with (s := e) as (e1 & E1 & He1); [|done|].
  { intros i s Hi%elem_of_seqZ Hs. apply round_ok; done || lia. }
  rewrite (run_bind _ _ _ _ _ E1). by apply read_routers_ok.
Qed.

(** A round for a leaf stops at its first port when the index is out of range. *)
Lemma round_fault S L e0 i e :
  0 < S -> S <= i -> ~ (0 <= u32 (i - 2) < L /\ u32 (i - 2) < 2) -> step_ok S L e0 e ->
  round S L i e = Err UndefinedBehaviour.
Proof using.
  intros HS Hi Hout [He _]. unfold round. rewrite (proj2 (Z.ltb_ge i S)) by lia.
  rewrite seqZ_cons by lia. cbn [each]. unfold mbind at 1, st_bind at 1.
  rewrite (leaf_port_fault S L); [done|done|lia|lia].
Qed.

Lemma bad_round S L :
  0 <= S -> 0 <= L -> S + L < 2 ^ 32 -> in_bounds S L = false ->
  0 < S /\ exists i, S <= i < S + L /\ ~ (0 <= u32 (i - 2) < L /\ u32 (i - 2) < 2).
Proof using.
  intros HS HL Hmax Hb. unfold in_bounds in Hb.
  destruct (S =? 0) eqn:E1, (L =? 0) eqn:E2; simpl in Hb; try done. bool_to_Z. split; [lia|].
  destruct (decide (S = 1)) as [->|Hne1].
  - exists 1. split; [lia|]. replace (u32 (1 - 2)) with (2 ^ 32 - 1) by done. lia.
  - destruct (decide (S = 2)) as [->|Hne2].
    + simpl in Hb. bool_to_Z. exists 4. split; [lia|]. replace (u32 (4 - 2)) with 2 by done. lia.
    + exists (S + L - 1). split; [lia|]. rewrite wrap_small by (unfold in_range; lia). lia.
Qed.

Lemma GetData_fault S L e :
  0 <= S -> 0 <= L -> S + L < 2 ^ 32 -> in_bounds S L = false -> sized S L e -> GetData e = Err UndefinedBehaviour.
Proof using.
  intros HS HL Hmax Hb He. rewrite (GetData_unfold S L) by done. rewrite wrap_small by (unfold in_range; lia).
  destruct (bad_round S L HS HL Hmax Hb) as (HS' & i & Hi & Hout).
  unfold mbind, st_bind. rewrite (each_fault (step_ok S L e) UndefinedBehaviour (round S L) (seqZ 0 (S + L)) i); [done|..].
  - intros j s Hj%elem_of_seqZ Hs. apply round_cases; [lia|done].
  - apply elem_of_seqZ. lia.
  - intros s Hs. eapply round_fault; done || lia.
  - split; [done|apply same_but_sam_refl].
Qed.

(** Both cases. *)
Lemma GetData_bounds S L e :
  0 <= S -> 0 <= L -> S + L < 2 ^ 32 -> sized S L e ->
  if in_bounds S L then exists e', GetData e = Ok (tt, e') /\ sized S L e' /\ same_but_sam e e'
  else GetData e = Err UndefinedBehaviour.
Proof using.
  intros HS HL Hmax He. destruct (in_bounds S L) eqn:Hb; [by apply GetData_ok|by eapply (GetData_fault S L)].
Qed.

(** ** A session of the agent *)

Inductive agent_step :=
| Drop (p : tagged)                    (* a device queue dropped the packet *)
| Observe
| Act (box : option (list W)).

Definition agent (a : agent_step) : st env unit :=
  match a with
  | Drop p => TraceP2PDevQueueDrop p
  | Observe => _ ← GetObservation; mret tt
  | Act box => _ ← ExecuteActions box; mret tt
  end.

(** The packet starts with a PPP header and an IPv4 header. *)
Definition framed (p : Packet) : Prop :=
  exists h n q, RemoveHeader (mkPppHeader 0) (Copy p) = Ok (h, n, q) /\
    exists x, Ipv4Header.Deserialize Ipv4Header.new_Ipv4Header (p_data q) = Ok x.

(** What may happen: dropped packets carry no tag or that of a path, actions have
    the shape of the action space. *)
Definition may_happen (S L : Z) (g : Globals) (a : agent_step) : Prop :=
  match a with
  | Drop p => match t_tag p with
              | None => True
              | Some (leafId, interfaceId) =>
                  S <= leafId < S + L /\ 1 <= interfaceId <= S /\ leafId <> NO_LEAF /\ framed (t_packet p)
              end
  | Observe => True
  | Act (Some acts) =>
      0 < L /\ 0 < action_space g /\ Z.of_nat (length acts) = L * action_space g /\ 2 <= Z.of_nat (length acts)
  | Act None => False
  end.

(** The drops of the path from leaf [l] through spine [i]. *)
Definition on_path (S i l : Z) (a : agent_step) : bool :=
  match a with Drop p => bool_decide (t_tag p = Some (S + l, 1 + i)) | _ => false end.
Definition path_drops (S i l : Z) (steps : list agent_step) : Z :=
  Z.of_nat (length (filter (fun a => on_path S i l a = true) steps)).

Lemma in_bounds_drops S L i l : in_bounds S L = true -> 0 <= i < S -> 0 <= l < L -> S = 2 /\ L <= 2.
Proof using.
  unfold in_bounds. intros Hb Hi Hl. destruct (S =? 0) eqn:?, (L =? 0) eqn:?; simpl in Hb; bool_to_Z; lia.
Qed.

(** What a step leaves: the invariant, the globals and the counters it does not count in. *)
Definition counts (S L : Z) (n : Z -> Z -> Z) e e' : Prop :=
  sized S L e' /\ e_globals e' = e_globals e /\
  forall i l d, 0 <= i < S -> 0 <= l < L -> mat_at i l (m_path_drops (e_sam e)) = Ok d ->
    mat_at i l (m_path_drops (e_sam e')) = Ok (if n i l =? 0 then d else u64 (d + n i l)).

Lemma drop_counts S L p e :
  in_bounds S L = true -> S + L < 2 ^ 32 -> sized S L e -> may_happen S L (e_globals e) (Drop p) ->
  exists e', agent (Drop p) e = Ok (tt, e') /\
    counts S L (fun i l => if on_path S i l (Drop p) then 1 else 0) e e'.
Proof using.
  intros Hb Hmax He Hp. unfold agent, TraceP2PDevQueueDrop. simpl in *. destruct (t_tag p) as [[lf itf]|] eqn:Etag; simpl.
  - destruct Hp as (Hl & Hi & Hne & h & n & q & Eq & x & Ex). unfold negb.
    rewrite (proj2 (Z.eqb_neq _ _) Hne), Eq. run. rewrite Ex. run. rewrite (sz_spines _ _ _ He).
    rewrite !(wrap_small 32) by (unfold in_range; lia).
    destruct (in_bounds_drops S L (itf - 1) (lf - S) Hb) as [HS2 HL2]; [lia..|].
    destruct (mat_at_in 2 4 (itf - 1) (lf - S) _ (so_pd _ (sz_sam _ _ _ He))) as [c Ec]; [lia..|]. rewrite Ec. run.
    unfold store. run.
    destruct (mat_set_in 2 4 (itf - 1) (lf - S) (u64 (c + 1)) _ (so_pd _ (sz_sam _ _ _ He))) as (m' & Em & Hm & Hget);
      [lia..|]. rewrite Em. run. eexists. split; [reflexivity|]. split; [|split; [done|]].
    + destruct He. constructor; try done. simpl. destruct sz_sam0. by constructor.
    + simpl. intros i l d Hi' Hl' Hd. rewrite Hget by lia. destruct (decide (i = itf - 1 /\ l = lf - S)) as [[-> ->]|Hno].
      * rewrite bool_decide_eq_true_2 by (do 2 f_equal; lia). simpl. congruence.
      * rewrite bool_decide_eq_false_2; [done|]. intros [= -> ->]. lia.
  - exists e. split; [done|]. split; [done|]. split; [done|]. intros i l d _ _ Hd. done.
Qed.

Lemma observe_counts S L e :
  0 <= S -> 0 <= L -> S + L < 2 ^ 32 -> in_bounds S L = true -> sized S L e ->
  exists e', agent Observe e = Ok (tt, e') /\ counts S L (fun _ _ => 0) e e'.
Proof using.
  intros HS HL Hmax Hb He. destruct (GetData_ok S L e HS HL Hmax Hb He) as (e' & E & Hs & (Eg & _ & _ & _ & _ & Ep & _)).
  exists e'. split; [|split; [done|split; [done|]]].
  - unfold agent, GetObservation, mbind, st_bind. by rewrite E.
  - intros i l d _ _ Hd. by rewrite Ep.
Qed.

Lemma find_router_update m r l prio s f r' x :
  find_router (R := R) (W := W) r m = Ok (l, prio, s) -> find_router r' m = Ok x ->
  exists x', find_router r' (<[ref_node r := ListRouting.mkList (<[ref_index r := (prio, PRl f)]>
    (ListRouting.m_routingProtocols l)) (ListRouting.m_ipv4 l)]> m) = Ok x'.
Proof using.
  unfold find_router. intros Hr Hr'. apply bind_ok in Hr as (l0 & Hl0%deref_ok & Hr).
  apply bind_ok in Hr as (en & Hen%deref_ok & Hr). apply bind_ok in Hr' as (l1 & Hl1%deref_ok & Hr').
  apply bind_ok in Hr' as (en' & Hen'%deref_ok & Hr').
  destruct en as [pr [q|q|q]]; simpl in Hr; try done. injection Hr as -> -> ->.
  destruct en' as [pr' [q'|q'|q']]; simpl in Hr'; try done.
  destruct (decide (ref_node r' = ref_node r)) as [E|Hne].
  - rewrite E, lookup_insert_eq. simpl. assert (l1 = l) as -> by congruence.
    destruct (decide (ref_index r' = ref_index r)) as [Ei|Hnei].
    + rewrite Ei, list_lookup_insert_eq by (by eapply lookup_lt_Some). simpl. eauto.
    + rewrite list_lookup_insert_ne by done. rewrite Hen'. simpl. eauto.
  - rewrite lookup_insert_ne by done. rewrite Hl1. simpl. rewrite Hen'. simpl. eauto.
Qed.

Lemma update_router_sized S L r f e :
  sized S L e -> r ∈ leaf_rl_routers e ->
  exists m, update_router r f e = Ok (tt, set_routing m e) /\ sized S L (set_routing m e).
Proof using.
  intros He Hr. pose proof (sz_routers _ _ _ He) as [Hlen Hall]. destruct (Hall r Hr) as [[[l prio] s] E].
  unfold update_router. run. rewrite E. run. eexists. split; [reflexivity|].
  destruct He. constructor; try done. split; [done|]. simpl. intros r' Hr'. destruct (Hall r' Hr') as [x Ex].
  by eapply find_router_update.
Qed.

Lemma ApplyNewAction_ok S L acts e :
  sized S L e -> may_happen S L (e_globals e) (Act (Some acts)) ->
  exists m, ApplyNewAction acts e = Ok (tt, set_routing m e) /\ sized S L (set_routing m e).
Proof using.
  intros He (HL & Ha & Hlen & H2). unfold ApplyNewAction. run. rewrite (proj2 (Z.eqb_neq (action_space (e_globals e)) 0)) by lia.
  run. rewrite Hlen, Z.mod_mul, Z.div_mul, (sz_leaves _ _ _ He), Z.eqb_refl by lia. run. cbn [Z.eqb ns_assert]. run.
  destruct (vec_at_in 0 acts) as (a0 & E0 & _); [lia|]. destruct (vec_at_in 1 acts) as (a1 & E1 & _); [lia|].
  rewrite E0. run. rewrite E1. run. pose proof (sz_routers _ _ _ He) as [Hl Hall]. rewrite (sz_leaves _ _ _ He) in Hl.
  destruct (vec_at_in 0 (leaf_rl_routers e)) as (r & Er & Hr); [lia|]. apply list_elem_of_lookup_2 in Hr.
  destruct (Hall r Hr) as [[[l prio] x] Ex].
  rewrite (run_bind (router 0) _ e (r, x) e) by (unfold router; run; rewrite Er; run; by rewrite Ex).
  destruct (update_router_sized S L r resetStats e He Hr) as (m1 & U1 & He1). rewrite (run_bind _ _ _ _ _ U1).
  destruct (update_router_sized S L r (fun s => (SetDistribution [a0; a1] s).2) (set_routing m1 e) He1 Hr) as (m2 & U2 & He2).
  exists m2. rewrite U2. done.
Qed.

Lemma act_counts S L box e :
  sized S L e -> may_happen S L (e_globals e) (Act box) ->
  exists e', agent (Act box) e = Ok (tt, e') /\ counts S L (fun _ _ => 0) e e'.
Proof using.
  intros He Hbox. destruct box as [acts|]; [|done]. destruct (ApplyNewAction_ok S L acts e He Hbox) as (m & E & He').
  exists (set_routing m e). split; [|done]. unfold agent, ExecuteActions, lift, mbind, st_bind. by rewrite E.
Qed.

Lemma counts_trans S L n1 n2 e1 e2 e3 :
  (forall i l, 0 <= n1 i l) -> (forall i l, 0 <= n2 i l) ->
  counts S L n1 e1 e2 -> counts S L n2 e2 e3 -> counts S L (fun i l => n1 i l + n2 i l) e1 e3.
Proof using.
  intros H1 H2 (_ & Eg1 & C1) (Hs & Eg2 & C2). split; [done|]. split; [congruence|]. intros i l d Hi Hl Hd.
  rewrite (C2 _ _ _ Hi Hl (C1 _ _ _ Hi Hl Hd)). f_equal. specialize (H1 i l). specialize (H2 i l).
  destruct (Z.eqb_spec (n1 i l) 0) as [E1|E1], (Z.eqb_spec (n2 i l) 0) as [E2|E2],
    (Z.eqb_spec (n1 i l + n2 i l) 0); try lia; rewrite ?E1, ?E2, ?Z.add_0_r; try done.
  unfold wrap. rewrite Zplus_mod_idemp_l. f_equal. lia.
Qed.

(** The drops of a session are all counted, whatever else the agent does. *)
Lemma agents_count S L steps : forall e,
  0 <= S -> 0 <= L -> S + L < 2 ^ 32 -> in_bounds S L = true -> sized S L e ->
  Forall (may_happen S L (e_globals e)) steps ->
  exists e', each agent steps e = Ok (tt, e') /\ counts S L (fun i l => path_drops S i l steps) e e'.
Proof using.
  induction steps as [|a steps IH]; intros e HS HL Hmax Hb He Hall.
  { exists e. split; [done|]. split; [done|]. split; [done|]. by intros. }
  apply Forall_cons in Hall as [Ha Hall].
  assert (exists e1, agent a e = Ok (tt, e1) /\ counts S L (fun i l => if on_path S i l a then 1 else 0) e e1)
    as (e1 & E1 & C1).
  { destruct a as [p| |box]; [by apply drop_counts|by apply observe_counts|by apply act_counts]. }
  pose proof C1 as (He1 & Eg & _). rewrite <- Eg in Hall.
  destruct (IH e1 HS HL Hmax Hb He1 Hall) as (e2 & E2 & C2). exists e2. cbn [each].
  rewrite (run_bind _ _ _ _ _ E1). split; [done|].
  assert (counts S L (fun i l => (if on_path S i l a then 1 else 0) + path_drops S i l steps) e e2) as C.
  { eapply counts_trans; [..|exact C1|exact C2]; intros i l; [case_match; lia|unfold path_drops; lia]. }
  destruct C as (H1 & H2 & H3). split; [done|]. split; [done|]. intros i l d Hi Hl Hd. rewrite (H3 i l d Hi Hl Hd).
  assert (path_drops S i l (a :: steps) = (if on_path S i l a then 1 else 0) + path_drops S i l steps) as ->; [|done].
  unfold path_drops. rewrite filter_cons. destruct (on_path S i l a); simpl; [|done]. lia.
Qed.
End spec.
