(* ===== verification/Scenario.v ===== *)
(** * The scenario ([scratch/loadbalancer/main-loadbalancer.cc])

    From the network that [BuildTopology] made and [PopulateRoutingTables] gave
    its routes to the environment of the agent, and the initialization of the
    routers of the leaves. *)

From S2P Require Import Prelude Bytes Packet Routing RlRouting.
From S2P Require GlobalRouting GlobalRouter RouteManager PopulateRoutes ListRouting PointToPoint.
From S2P Require Import Ipv4L3Protocol Topology InternetStack LoadBalancer Ipv4Ifaces.
From S2P Require PointToPointSpec Queue SpineLeaf GlobalPaths.
From S2P Require Import TopologySpec InternetStackSpec BuildSpec LoadBalancerSpec.
Import PointToPoint (ErrorModel).
Import ListRouting (Ipv4ListRouting, mkList, m_routingProtocols).
Import PointToPoint (ErrorModel, w_devs, m_queue).
Import GlobalRouter (net).
Import RouteManager (Allocator, PopulateRoutingTables, new_manager, m_net).
Import SpineLeaf (as_net, fits).

Section scenario.
Context {EM R W P F : Type} `{ErrorModel EM} `{Floats F}.
(** The list of a node once the global routing it points to has the routes of [w]. *)
Definition populate_list (w : net R) (n : Z) (l : Ipv4ListRouting (protocol R W)) : Ipv4ListRouting (protocol R W) :=
  mkList ((fun e => (e.1, match e.2 with PGlobal g => PGlobal (default g (PopulateRoutes.routes_at w (Z.to_nat n))) | p => p end)) <$> m_routingProtocols l)
    (ListRouting.m_ipv4 l).

(** The environment after [BuildTopology] and [PopulateRoutingTables], which
    leaves the network [w]: the statistics have the sizes that the
    defaults of [Globals] gave them before the command line was parsed. *)
Definition start (g : Globals) (b : built) (s : site EM R W P) (w : net R) : env EM R W F :=
  mkEnv g (t_world (s_topo s)) (map_imap (fun n x => populate_list w n <$> m_routingProtocol x) (s_stacks s))
    (initial_sam default_globals) (p2pSpinesLeavesNetdevs b) (p2pLeavesSpinesNetdevs b) []
    (f_of_Z 0) (f_of_Z 0).
End scenario.

(** * The agent's view of the network that [BuildTopology] made *)

Section scenario.
Context {EM R W P F : Type} `{ErrorModel EM} `{Floats F}.
Variable half : W.
Abbreviation env := (env EM R W F).
Implicit Types e : env.

(** ** The routers of the leaves *)

Lemma leaf_shape (l : Ipv4ListRouting (protocol R W)) :
  shape_of l = node_shape true ->
  exists r st gl ip, l = mkList [(10, PRl r); (1, PStatic st); (-10, PGlobal gl)] ip.
Proof using.
  destruct l as [ps ip]. unfold shape_of. simpl. intros Hs.
  destruct ps as [|[p1 [r|?|?]] [|[p2 [?|st|?]] [|[p3 [?|?|gl]] [|? ?]]]]; try discriminate. injection Hs as -> -> ->.
  by exists r, st, gl, ip.
Qed.

Lemma populate_shape w n (l : Ipv4ListRouting (protocol R W)) : shape_of (populate_list w n l) = shape_of l.
Proof using.
  unfold shape_of, populate_list. simpl. rewrite <- list_fmap_compose. apply list_fmap_ext.
  intros i [prio [r|st|g]] _; done.
Qed.

(** The leaves have their three protocols, and the routers of [done] are known. *)
Record routers_inv (leaves done : list Z) e : Prop := {
  ri_routers : leaf_rl_routers e = (fun n => mkRef n 0) <$> done;
  ri_routing n : n ∈ leaves -> exists l, e_routing e !! n = Some l /\ shape_of l = node_shape true }.

(** Nothing but the routing and the pointers to the routers changed. *)
Definition same_network e e' : Prop :=
  e_globals e' = e_globals e /\ e_world e' = e_world e /\ e_sam e' = e_sam e /\
  e_spinesLeaves e' = e_spinesLeaves e /\ e_leavesSpines e' = e_leavesSpines e.

Lemma update_router_run n (f : Ipv4RlRouting W -> Ipv4RlRouting W) r st gl ip e :
  e_routing e !! n = Some (mkList [(10, PRl r); (1, PStatic st); (-10, PGlobal gl)] ip) ->
  update_router (mkRef n 0) f e =
  Ok (tt, set_routing (<[n := mkList [(10, PRl (f r)); (1, PStatic st); (-10, PGlobal gl)] ip]> (e_routing e)) e).
Proof using.
  intros Hn. unfold update_router. run. unfold find_router. simpl. rewrite Hn. cbn [deref mbind res_bind]. simpl. by run.
Qed.

Lemma init_router_ok leaves done n e :
  routers_inv leaves done e -> n ∈ leaves ->
  exists e', init_router half n e = Ok (tt, e') /\ routers_inv leaves (done ++ [n]) e' /\ same_network e e'.
Proof using.
  intros [Hr Hl] Hn. destruct (Hl n Hn) as (l & El & Hs). destruct (leaf_shape l Hs) as (r & st & gl & ip & ->).
  unfold init_router. run. rewrite El. cbn [deref]. run.
  rewrite (run_bind _ _ e (Some (10, PRl r)) e eq_refl), (run_bind _ _ e (Some (-10, PGlobal gl)) e eq_refl).
  cbv beta iota zeta. run.
  erewrite (run_bind (update_router _ _)) by (apply update_router_run; exact El).
  erewrite update_router_run by apply lookup_insert_eq. eexists. split; [reflexivity|]. split; [split|done].
  - simpl. by rewrite Hr, fmap_app.
  - intros m Hm. simpl. destruct (decide (m = n)) as [->|Hne].
    + rewrite lookup_insert_eq. eexists. split; [reflexivity|]. reflexivity.
    + rewrite !lookup_insert_ne by done. by apply Hl.
Qed.

Lemma InitRLRouting_ok leaves l : forall done e,
  routers_inv leaves done e -> (forall n, n ∈ l -> n ∈ leaves) ->
  exists e', InitRLRouting half l e = Ok (tt, e') /\ routers_inv leaves (done ++ l) e' /\ same_network e e'.
Proof using.
  unfold InitRLRouting. induction l as [|n l IH]; intros done e Hinv Hl.
  { exists e. rewrite app_nil_r. done. }
  destruct (init_router_ok leaves done n e Hinv ltac:(apply Hl; by left)) as (e1 & E1 & Hinv1 & Hs1).
  destruct (IH (done ++ [n]) e1 Hinv1) as (e2 & E2 & Hinv2 & Hs2); [intros m Hm; apply Hl; by right|].
  exists e2. cbn [each]. rewrite (run_bind _ _ _ _ _ E1). split; [done|]. rewrite <- app_assoc in Hinv2. split; [done|].
  unfold same_network in *. naive_solver congruence.
Qed.

(** ** The environment once the routers are initialized *)

Lemma sized_shape {A} (r c : nat) (m : list (list A)) :
  sized_matrix r c m -> shape (Z.of_nat r) (Z.of_nat c) m.
Proof using.
  intros [Hr Hc]. split; [by rewrite Hr|]. eapply Forall_impl; [exact Hc|]. simpl. intros row Hrow. by rewrite Hrow.
Qed.

Lemma mat_at_cell {A} (r c : nat) i j (m : list (list A)) d :
  sized_matrix r c m -> mat_at i j m = Ok d ->
  (Z.to_nat i < r /\ Z.to_nat j < c)%nat /\ cell (Z.to_nat i) (Z.to_nat j) m = Some d.
Proof using.
  intros [Hr Hc]. unfold mat_at, vec_at, cell. destruct (_ && _) eqn:Ei; [|done]. bool_to_Z.
  destruct (m !! Z.to_nat i) as [row|] eqn:Erow; [|done]. simpl. destruct (_ && _) eqn:Ej; [|done]. bool_to_Z.
  destruct (row !! Z.to_nat j) eqn:Ex; [|done]. intros [= ->]. split; [|done].
  pose proof (Forall_lookup_1 _ _ _ _ Hc Erow) as Hlen. simpl in Hlen. lia.
Qed.

Lemma queues_ok (S L K : nat) b (w : PointToPoint.world (EM := EM)) :
  connected S L K b w -> PointToPointSpec.fresh_world 1502 w ->
  ports_ok w (p2pSpinesLeavesNetdevs b) /\ ports_ok w (p2pLeavesSpinesNetdevs b).
Proof using.
  intros Hc Hf. assert (forall d n k, located w d n k -> exists dev q, w_devs w !! d = Some dev /\ m_queue dev = Some q) as Hq.
  { intros d n k (dev & Hd & _). destruct (PointToPointSpec.fw_fresh _ _ Hf d dev Hd) as [_ _ _ _ (q & Hq & _)]. eauto. }
  split; intros i j d Hd.
  - destruct (mat_at_cell S L _ _ _ _ (cn_sl _ _ _ _ _ Hc) Hd) as [[Hi Hj] Hcell].
    destruct (cn_spine _ _ _ _ _ Hc _ _ Hi Hj) as (dl & ds & _ & Hds & _ & _ & _ & Hloc).
    assert (d = ds) as -> by congruence. by eapply Hq.
  - destruct (mat_at_cell S L _ _ _ _ (cn_ls _ _ _ _ _ Hc) Hd) as [[Hi Hj] Hcell].
    destruct (cn_spine _ _ _ _ _ Hc _ _ Hi Hj) as (dl & ds & Hdl & _ & _ & _ & Hloc & _).
    assert (d = dl) as -> by congruence. by eapply Hq.
Qed.

Lemma routers_inv_ok e leaves :
  routers_inv leaves leaves e -> Z.of_nat (length leaves) = leafCount (e_globals e) -> routers_ok e.
Proof using.
  intros [Hr Hl] Hlen. split; [by rewrite Hr, length_fmap|]. intros r Hin. rewrite Hr in Hin.
  apply list_elem_of_fmap in Hin as (n & -> & Hn). destruct (Hl n Hn) as (l & El & Hs).
  destruct (leaf_shape l Hs) as (r & st & gl & ip & ->). eexists. unfold find_router. simpl. by rewrite El.
Qed.
End scenario.

Section start.
Context {EM R W P F : Type} `{ErrorModel EM} `{Floats F} `{GlobalRouting.UniformRandom R} `{DeviceIds} `{IpL4Protocol P} `{Allocator}.
Variable half : W.
Variables (rand : Z -> R) (icmp udp tcp : Z) (l4 : P) (CreateCache : Z -> Z).

(** The routers can be initialized, and the environment has the right sizes. *)
Lemma start_sized (g : Globals) (S L K : nat) :
  fits S L K -> spineCount g = Z.of_nat S -> leafCount g = Z.of_nat L ->
  exists b (s : site EM R W P) m e, BuildTopology rand icmp udp tcp l4 CreateCache S L K empty_site = Ok (b, s) /\
    PopulateRoutingTables 0 (new_manager (as_net s)) = Ok (tt, m) /\
    InitRLRouting (F := F) half (b_leaf b) (start g b s (m_net m)) = Ok (tt, e) /\
    e_globals e = g /\ e_sam e = initial_sam default_globals /\ sized (Z.of_nat S) (Z.of_nat L) e.
Proof using.
  intros Hfits Eg1 Eg2.
  destruct (SpineLeaf.spine_leaf_populated (EM := EM) (W := W) rand icmp udp tcp l4 CreateCache S L K Hfits)
    as (b & s & m & E & Hs & Em & _). destruct Hs as [Hc Hf _ Hst _ _ _ _ _ _].
  assert (routers_inv (b_leaf b) [] (start (F := F) g b s (m_net m))) as Hinv.
  { split; [done|]. intros n Hn. rewrite (cn_leaf _ _ _ _ _ Hc) in Hn. apply list_elem_of_fmap in Hn as (k & -> & Hk%elem_of_seq).
    destruct (Hst (Z.of_nat k)) as (x & Hx & [_ _ (rp & Hrp & Hs & _) _ _ _ _] & _); [lia|]. rewrite Nat2Z.id in Hs.
    exists (populate_list (m_net m) (Z.of_nat k) rp). split; [|rewrite populate_shape, Hs; unfold is_leaf; by rewrite bool_decide_eq_true_2 by lia].
    simpl. rewrite map_lookup_imap, Hx. simpl. by rewrite Hrp. }
  destruct (InitRLRouting_ok half (b_leaf b) (b_leaf b) [] _ Hinv) as (e & Ee & Hinv' & (G1 & G2 & G3 & G4 & G5)); [done|].
  exists b, s, m, e. do 5 (split; [done|]).
  destruct (queues_ok S L K b _ Hc Hf) as [Hq1 Hq2].
  constructor; rewrite ?G1, ?G2, ?G3, ?G4, ?G5; try done.
  - apply initial_sam_ok.
  - apply sized_shape, (cn_sl _ _ _ _ _ Hc).
  - apply sized_shape, (cn_ls _ _ _ _ _ Hc).
  - apply (routers_inv_ok e (b_leaf b)); [done|]. rewrite G1, (cn_leaf _ _ _ _ _ Hc), length_fmap, length_seq. simpl. lia.
Qed.
End start.

(** * The agent's view of the network: the claims *)

Section props.
Context {EM R W P F : Type} `{ErrorModel EM} `{Floats F} `{GlobalRouting.UniformRandom R} `{DeviceIds} `{IpL4Protocol P} `{Allocator}.
Variable half : W.
Variables (rand : Z -> R) (icmp udp tcp : Z) (l4 : P) (CreateCache : Z -> Z).

(** C6. The scenario is in bounds for small networks only.  For any numbers of
    spines, leaves and servers that fit, the network is built, its routes are
    computed and the router of every leaf is initialized; then [GetData] samples every
    port and stays within its matrices exactly when there is no spine, no leaf,
    or two spines and at most two leaves.  In every other configuration, the
    default one of two spines and four leaves included, it indexes a vector out
    of range. *)
Theorem GetData_in_bounds (g : Globals) (S L K : nat) :
  fits S L K -> spineCount g = Z.of_nat S -> leafCount g = Z.of_nat L ->
  exists b (s : site EM R W P) m e, BuildTopology rand icmp udp tcp l4 CreateCache S L K empty_site = Ok (b, s) /\
    PopulateRoutingTables 0 (new_manager (as_net s)) = Ok (tt, m) /\
    InitRLRouting (F := F) half (b_leaf b) (start g b s (m_net m)) = Ok (tt, e) /\
    if in_bounds (Z.of_nat S) (Z.of_nat L)
    then exists e', GetData e = Ok (tt, e') /\ same_but_sam e e' else GetData e = Err UndefinedBehaviour.
Proof using.
  intros Hfits Eg1 Eg2.
  destruct (start_sized (F := F) half rand icmp udp tcp l4 CreateCache g S L K Hfits) as (b & s & m & e & E1 & Em & E2 & _ & _ & He);
    try done.
  exists b, s, m, e. do 3 (split; [done|]). destruct Hfits as (HK & HS & HN).
  pose proof (GetData_bounds (Z.of_nat S) (Z.of_nat L) e ltac:(lia) ltac:(lia) ltac:(lia) He) as Hg.
  destruct (in_bounds _ _); [|done]. destruct Hg as (e' & E & _ & Hsame). by exists e'.
Qed.

(** C7. The path drops that the agent observes are cumulative: in a network of
    two spines and at most two leaves, after any session of drops, observations
    and actions, the counter of the path from leaf [l] through spine [i] holds
    the number of all packets dropped with the tag of this path since the start,
    modulo 2^64; observing does not reset it. *)
Theorem path_drops_cumulative (g : Globals) (L K : nat) steps :
  (L <= 2)%nat -> fits 2 L K -> spineCount g = 2 -> leafCount g = Z.of_nat L ->
  Forall (may_happen 2 (Z.of_nat L) g) steps ->
  exists b (s : site EM R W P) m e e', BuildTopology rand icmp udp tcp l4 CreateCache 2 L K empty_site = Ok (b, s) /\
    PopulateRoutingTables 0 (new_manager (as_net s)) = Ok (tt, m) /\
    InitRLRouting (F := F) half (b_leaf b) (start g b s (m_net m)) = Ok (tt, e) /\
    each agent steps e = Ok (tt, e') /\
    forall i l, 0 <= i < 2 -> 0 <= l < Z.of_nat L ->
      mat_at i l (m_path_drops (e_sam e')) = Ok (u64 (path_drops 2 i l steps)).
Proof using.
  intros HL Hfits Eg1 Eg2 Hsteps.
  destruct (start_sized (F := F) half rand icmp udp tcp l4 CreateCache g 2 L K Hfits) as (b & s & m & e & E1 & Em & E2 & Eg & Es & He);
    try done.
  rewrite <- Eg in Hsteps.
  assert (in_bounds 2 (Z.of_nat L) = true) as Hb.
  { unfold in_bounds. rewrite (proj2 (Z.leb_le (Z.of_nat L) 2)) by lia. by rewrite orb_true_r. }
  destruct (agents_count 2 (Z.of_nat L) steps e ltac:(lia) ltac:(lia) ltac:(lia) Hb He Hsteps) as (e' & E & _ & _ & Hc).
  exists b, s, m, e, e'. do 4 (split; [done|]). intros i l Hi Hl. rewrite (Hc i l 0); [|lia|lia|].
  - destruct (Z.eqb_spec (path_drops 2 i l steps) 0) as [->|]; done.
  - rewrite Es. change (m_path_drops (initial_sam default_globals)) with (matrix 0 2 4).
    destruct (decide (i = 0)) as [->|]; [|replace i with 1 by lia].
    + destruct (decide (l = 0)) as [->|]; [done|replace l with 1 by lia; done].
    + destruct (decide (l = 0)) as [->|]; [done|replace l with 1 by lia; done].
Qed.
End props.

#[local] Instance no_errors : ErrorModel unit := fun s _ => (false, s).
#[local] Instance no_random : GlobalRouting.UniformRandom unit := fun lo _ r => (lo, r).
#[local] Existing Instance GlobalPaths.bump_allocator.
#[local] Instance no_ids : DeviceIds := {| dev_GetIfIndex d := d; dev_GetNodeId d := d |}.
#[local] Instance no_l4 : IpL4Protocol unit := {| l4_GetProtocolNumber p := p; l4_Receive _ _ _ _ s := Ok (RX_OK, s) |}.
(** Fractions, as a numerator and a denominator. *)
#[local] Instance fractions : Floats (Z * Z) := {|
  f_of_Z z := (z, 1); f_is_zero f := f.1 =? 0; nano_to_sec z := (z, 1000000000); f_times f z := (f.1 * z, f.2);
  f_div_8000 f := (f.1, f.2 * 8000); f_incr f := (f.1 + f.2, f.2) |}.

(** The default network fails; the network of two leaves works. *)
Lemma GetData_in_bounds_witness :
  (exists b (s : site unit unit Z unit) m e, BuildTopology (fun _ => tt) 1 17 6 tt id 2 4 1 empty_site = Ok (b, s) /\
    PopulateRoutingTables 0 (new_manager (as_net s)) = Ok (tt, m) /\
    InitRLRouting (F := Z * Z) 1 (b_leaf b) (start default_globals b s (m_net m)) = Ok (tt, e) /\
    GetData e = Err UndefinedBehaviour) /\
  (exists b (s : site unit unit Z unit) m e, BuildTopology (fun _ => tt) 1 17 6 tt id 2 2 1 empty_site = Ok (b, s) /\
    PopulateRoutingTables 0 (new_manager (as_net s)) = Ok (tt, m) /\
    InitRLRouting (F := Z * Z) 1 (b_leaf b) (start (mkGlobals 5 2 5555 1 1 2 2) b s (m_net m)) = Ok (tt, e) /\
    exists e', GetData e = Ok (tt, e') /\ same_but_sam e e').
Proof.
  split.
  - apply (GetData_in_bounds 1 (fun _ => tt) 1 17 6 tt id default_globals 2 4 1); done.
  - apply (GetData_in_bounds 1 (fun _ => tt) 1 17 6 tt id (mkGlobals 5 2 5555 1 1 2 2) 2 2 1); done.
Defined.

(** A dropped frame: PPP, then an IPv4 header. *)
Definition dropped_frame (tag : option (Z * Z)) : tagged :=
  mkTagged (mkPacket 9 ([0; 33] ++ [69; 0; 0; 20; 0; 1; 0; 0; 63; 17; 0; 0; 192; 168; 1; 1; 192; 168; 0; 1])) tag.
Definition example_session : list (agent_step (W := Z)) :=
  [Drop (dropped_frame (Some (3, 1))); Observe; Drop (dropped_frame None); Act (Some [1; 3; 2; 2]);
   Drop (dropped_frame (Some (2, 2))); Observe; Drop (dropped_frame (Some (3, 1)))].

(** Two packets of leaf 1 through spine 0 were dropped, one of leaf 0 through spine 1. *)
Lemma path_drops_cumulative_witness :
  (path_drops 2 0 1 example_session = 2 /\ path_drops 2 1 0 example_session = 1) /\
  exists b (s : site unit unit Z unit) m e e', BuildTopology (fun _ => tt) 1 17 6 tt id 2 2 1 empty_site = Ok (b, s) /\
    PopulateRoutingTables 0 (new_manager (as_net s)) = Ok (tt, m) /\
    InitRLRouting (F := Z * Z) 1 (b_leaf b) (start (mkGlobals 5 2 5555 1 1 2 2) b s (m_net m)) = Ok (tt, e) /\
    each agent example_session e = Ok (tt, e') /\
    forall i l, 0 <= i < 2 -> 0 <= l < Z.of_nat 2 ->
      mat_at i l (m_path_drops (e_sam e')) = Ok (u64 (path_drops 2 i l example_session)).
Proof.
  split; [by split|].
  apply (path_drops_cumulative 1 (fun _ => tt) 1 17 6 tt id (mkGlobals 5 2 5555 1 1 2 2) 2 1 example_session);
    [lia|done|done|done|].
  assert (forall t, framed (t_packet (dropped_frame t))) as Hf.
  { intros t. do 3 eexists. split; [vm_compute; reflexivity|]. eexists. vm_compute. reflexivity. }
  repeat (constructor; [first [done | simpl; split_and!; try apply Hf; unfold NO_LEAF; lia]|]). constructor.
Defined.
