(* ===== verification/UdpHeader.v ===== *)
(** * The UDP header ([src/internet/model/udp-header.cc])

    The checksum covers a pseudo header with the IPv4 addresses and the whole
    packet, so the header is written in front of its payload. *)

From S2P Require Import Prelude Bytes Packet.



Record UdpHeader := mkUdpHeader {
  m_sourcePort : Z; m_destinationPort : Z; m_payloadSize : Z;
  m_addresses : option (Z * Z);    (* m_source and m_destination, once initialized *)
  m_protocol : Z;
  m_checksum : Z; m_calcChecksum : bool; m_goodChecksum : bool }.

(** The protocol has no value until [InitializeChecksum]. *)
Definition new_UdpHeader : UdpHeader := mkUdpHeader 0xfffd 0xfffd 0 None 17 0 false true.

Definition EnableChecksums (h : UdpHeader) : UdpHeader :=
  mkUdpHeader (m_sourcePort h) (m_destinationPort h) (m_payloadSize h) (m_addresses h) (m_protocol h)
    (m_checksum h) true (m_goodChecksum h).
Definition SetDestinationPort (port : Z) (h : UdpHeader) : UdpHeader :=
  mkUdpHeader (m_sourcePort h) port (m_payloadSize h) (m_addresses h) (m_protocol h)
    (m_checksum h) (m_calcChecksum h) (m_goodChecksum h).
Definition SetSourcePort (port : Z) (h : UdpHeader) : UdpHeader :=
  mkUdpHeader port (m_destinationPort h) (m_payloadSize h) (m_addresses h) (m_protocol h)
    (m_checksum h) (m_calcChecksum h) (m_goodChecksum h).
Definition GetSourcePort (h : UdpHeader) : Z := m_sourcePort h.
Definition GetDestinationPort (h : UdpHeader) : Z := m_destinationPort h.
Definition InitializeChecksum (source destination protocol : Z) (h : UdpHeader) : UdpHeader :=
  mkUdpHeader (m_sourcePort h) (m_destinationPort h) (m_payloadSize h) (Some (source, destination)) protocol
    (m_checksum h) (m_calcChecksum h) (m_goodChecksum h).
Definition IsChecksumOk (h : UdpHeader) : bool := m_goodChecksum h.
Definition ForceChecksum (checksum : Z) (h : UdpHeader) : UdpHeader :=
  mkUdpHeader (m_sourcePort h) (m_destinationPort h) (m_payloadSize h) (m_addresses h) (m_protocol h)
    checksum (m_calcChecksum h) (m_goodChecksum h).
Definition ForcePayloadSize (payloadSize : Z) (h : UdpHeader) : UdpHeader :=
  mkUdpHeader (m_sourcePort h) (m_destinationPort h) payloadSize (m_addresses h) (m_protocol h)
    (m_checksum h) (m_calcChecksum h) (m_goodChecksum h).
Definition GetSerializedSize (h : UdpHeader) : Z := 8.
Definition GetChecksum (h : UdpHeader) : Z := m_checksum h.

(** The twelve octets of the pseudo header, none without IPv4 addresses; their
    sum is not complemented. *)
Definition pseudo_header (h : UdpHeader) (size : Z) : bytes :=
  match m_addresses h with
  | Some (source, destination) =>
      WriteHtonU32 source ++ WriteHtonU32 destination ++ WriteU8 0 ++ WriteU8 (m_protocol h) ++
      WriteU8 (Z.shiftr size 8) ++ WriteU8 (Z.land size 0xff)
  | None => []
  end.
Definition CalculateHeaderChecksum (size : Z) (h : UdpHeader) : res Z :=
  let pseudo := pseudo_header h size in
  c ← CalculateIpChecksum (Z.of_nat (length pseudo)) 0 pseudo;
  mret (u16 (Z.lnot c)).

(** What [Serialize] writes in front of [payload]; the sizes that the checksum
    functions take are of 16 bits. *)
Definition udp_front (h : UdpHeader) (size : Z) : bytes :=
  WriteHtonU16 (m_sourcePort h) ++ WriteHtonU16 (m_destinationPort h) ++
  WriteHtonU16 (if m_payloadSize h =? 0 then size else m_payloadSize h).
Definition Serialize (h : UdpHeader) (payload : bytes) : res bytes :=
  let size := u32 (8 + Z.of_nat (length payload)) in
  let front := udp_front h size in
  if m_checksum h =? 0 then
    if m_calcChecksum h then
      headerChecksum ← CalculateHeaderChecksum (u16 size) h;
      checksum ← CalculateIpChecksum (u16 size) headerChecksum (front ++ WriteU16 0 ++ payload);
      mret (front ++ WriteU16 checksum ++ payload)
    else mret (front ++ WriteU16 0 ++ payload)
  else mret (front ++ WriteU16 (m_checksum h) ++ payload).

Definition Deserialize (h0 : UdpHeader) (start : bytes) : res (UdpHeader * Z) :=
  let i := start in
  '(sourcePort, i) ← ReadNtohU16 i;
  '(destinationPort, i) ← ReadNtohU16 i;
  '(length_, i) ← ReadNtohU16 i;
  '(checksum, i) ← ReadU16 i;
  good ← (if m_calcChecksum h0 then
            let size := u16 (u32 (Z.of_nat (length start))) in
            headerChecksum ← CalculateHeaderChecksum size h0;
            c ← CalculateIpChecksum size headerChecksum start; mret (c =? 0)
          else mret (m_goodChecksum h0));
  mret (mkUdpHeader sourcePort destinationPort (u16 (length_ - 8)) (m_addresses h0) (m_protocol h0)
          checksum (m_calcChecksum h0) good, 8).

(** [Packet::AddHeader], [PeekHeader] and [RemoveHeader] with this header. *)
Definition AddUdpHeader (h : UdpHeader) (p : Packet) : res Packet :=
  d ← Serialize h (p_data p); mret (with_data p d).
Definition PeekUdpHeader (h : UdpHeader) (p : Packet) : res UdpHeader :=
  '(h', _) ← Deserialize h (p_data p); mret h'.
Definition RemoveUdpHeader (h : UdpHeader) (p : Packet) : res (UdpHeader * Packet) :=
  '(h', n) ← Deserialize h (p_data p); mret (h', RemoveAtStart n p).

(** * Correctness of the UDP header

    A datagram that was sent with its checksum is read back and accepted, and
    one octet changed on the way is noticed. *)

(** A header as a socket sends it: the length and the checksum are left to
    [Serialize]. *)
Record sendable (h : UdpHeader) : Prop := {
  s_ports : in_range 16 (m_sourcePort h) /\ in_range 16 (m_destinationPort h);
  s_size : m_payloadSize h = 0;
  s_checksum : m_checksum h = 0 }.

(** ** Octets *)

Lemma u8_octets x : Forall octet (WriteU8 x).
Proof. repeat constructor; apply byte_at_octet. Qed.
Lemma n16_octets x : Forall octet (WriteHtonU16 x).
Proof. repeat constructor; apply byte_at_octet. Qed.
Lemma n32_octets x : Forall octet (WriteHtonU32 x).
Proof. repeat constructor; apply byte_at_octet. Qed.

Lemma pseudo_octets h size : Forall octet (pseudo_header h size).
Proof.
  unfold pseudo_header. destruct (m_addresses h) as [[s d]|]; [|constructor].
  repeat (apply Forall_app; split); auto using u8_octets, n32_octets.
Qed.
Lemma pseudo_length h size :
  length (pseudo_header h size) = 12%nat \/ length (pseudo_header h size) = 0%nat.
Proof. unfold pseudo_header. destruct (m_addresses h) as [[s d]|]; [by left|by right]. Qed.

Lemma front_octets h size : Forall octet (udp_front h size).
Proof. unfold udp_front. repeat (apply Forall_app; split); apply n16_octets. Qed.

(** ** The sum of the pseudo header *)

Lemma sum16_even bs : Nat.Even (length bs) -> sum16 bs = word_sum bs.
Proof. intros H. rewrite <- (app_nil_r bs) at 1. rewrite sum16_app by done. change (sum16 []) with 0. lia. Qed.

Lemma CalculateHeaderChecksum_ok size h :
  exists f k, CalculateHeaderChecksum size h = Ok f /\ in_range 16 f /\
    sum16 (pseudo_header h size) = 65535 * k + f /\ (0 < sum16 (pseudo_header h size) -> 0 < f).
Proof.
  unfold CalculateHeaderChecksum. pose proof (pseudo_length h size) as Hl.
  destruct (CalculateIpChecksum_sum16 0 (pseudo_header h size)) as (f & k & -> & Hf & E & Hp);
    [destruct Hl as [-> | ->]; done|done|apply pseudo_octets|].
  cbn [mbind res_bind mret res_ret]. exists f, k. rewrite u16_lnot by lia.
  replace (65535 - (65535 - f)) with f by lia. unfold in_range. repeat split; lia || done.
Qed.

(** The pseudo header followed by the datagram: what the checksum covers. *)
Definition covered (h : UdpHeader) (size : Z) (bs : bytes) : Z := sum16 (pseudo_header h size ++ bs).

Lemma covered_app h size bs : covered h size bs = sum16 (pseudo_header h size) + sum16 bs.
Proof.
  unfold covered. assert (Nat.Even (length (pseudo_header h size))) as He.
  { destruct (pseudo_length h size) as [-> | ->]; [by exists 6%nat|by exists 0%nat]. }
  rewrite sum16_app by done. by rewrite (sum16_even (pseudo_header h size)).
Qed.

(** The two checksums together: the complement of a number congruent to what is
    covered. *)
Lemma checksums_ok h size bs :
  size = Z.of_nat (length bs) -> size < 65536 -> Forall octet bs ->
  exists hc f k, CalculateHeaderChecksum size h = Ok hc /\ CalculateIpChecksum size hc bs = Ok (65535 - f) /\
    0 <= f < 65536 /\ covered h size bs = 65535 * k + f /\ (0 < covered h size bs -> 0 < f).
Proof.
  intros -> Hs Hb. destruct (CalculateHeaderChecksum_ok (Z.of_nat (length bs)) h) as (hc & k & Eh & Hr & E & Hp).
  destruct (CalculateIpChecksum_sum16 hc bs) as (f & k' & Ec & Hf & E' & Hp'); [done..|].
  exists hc, f, (k + k'). split; [done|]. split; [done|]. split; [done|]. rewrite covered_app. split; [lia|].
  intros Hpos. apply Hp'. pose proof (sum16_nonneg bs Hb).
  pose proof (sum16_nonneg _ (pseudo_octets h (Z.of_nat (length bs)))). unfold in_range in Hr. lia.
Qed.

(** Nothing is covered by chance: the protocol number is there. *)
Lemma covered_pos h size bs :
  m_addresses h <> None -> 0 < m_protocol h < 256 -> Forall octet bs -> 0 < covered h size bs.
Proof.
  intros Ha Hp Hb. rewrite covered_app. pose proof (sum16_nonneg bs Hb). unfold pseudo_header.
  destruct (m_addresses h) as [[s d]|]; [|done].
  rewrite (app_assoc (WriteHtonU32 s)), (app_assoc (WriteU8 0)), sum16_app by (by exists 4%nat).
  rewrite sum16_app by (by exists 1%nat).
  assert (word_sum (WriteU8 0 ++ WriteU8 (m_protocol h)) = 256 * m_protocol h) as ->.
  { simpl. rewrite !byte_at_eq by lia. change (2 ^ 0) with 1. rewrite !Z.div_1_r, (Z.mod_small (m_protocol h)) by lia.
    change (0 mod 256) with 0. lia. }
  pose proof (word_sum_nonneg (WriteHtonU32 s ++ WriteHtonU32 d) ltac:(apply Forall_app; auto using n32_octets)).
  pose proof (sum16_nonneg (WriteU8 (Z.shiftr size 8) ++ WriteU8 (Z.land size 0xff))
    ltac:(apply Forall_app; auto using u8_octets)). unfold octet. lia.
Qed.

(** ** Receiving *)

(** Every datagram of at least eight octets is read, and its checksum is good
    exactly when what it covers is a multiple of 65535. *)
Lemma Deserialize_any h0 bs :
  Forall octet bs -> 8 <= Z.of_nat (length bs) < 65536 ->
  exists h', Deserialize h0 bs = Ok (h', 8) /\
    (m_calcChecksum h0 = false -> IsChecksumOk h' = m_goodChecksum h0) /\
    (m_calcChecksum h0 = true -> 0 < covered h0 (Z.of_nat (length bs)) bs ->
       IsChecksumOk h' = true <-> exists k, covered h0 (Z.of_nat (length bs)) bs = 65535 * k).
Proof.
  intros Hb Hlen.
  destruct (checksums_ok h0 (Z.of_nat (length bs)) bs) as (hc & f & k & Ehc & Ec & Hf & E & Hpos); [done|lia|done|].
  unfold Deserialize. rewrite (wrap_small 32), (wrap_small 16), Ehc by (unfold in_range; lia).
  cbn [mbind res_bind]. rewrite Ec. set (C := covered _ _ _) in *. clearbody C. clear Hb Ec.
  do 8 (destruct bs as [|? bs]; [simpl in Hlen; lia|]).
  destruct (m_calcChecksum h0) eqn:Eh; (eexists; split; [reflexivity|]); cbn [IsChecksumOk m_goodChecksum]; split; try done.
  intros _ Hcov. specialize (Hpos Hcov). rewrite Z.eqb_eq. split.
  - intros. exists (k + 1). lia.
  - intros [k' Hk']. nia.
Qed.

(** What [Deserialize] makes of four fields in front of a payload. *)
Definition read_udp (h0 : UdpHeader) (sport dport len c : Z) (good : bool) : UdpHeader :=
  mkUdpHeader sport dport (u16 (len - 8)) (m_addresses h0) (m_protocol h0) c (m_calcChecksum h0) good.

(** ** Sending *)

Definition octets_of (h : UdpHeader) (c : Z) (payload : bytes) : bytes :=
  udp_front h (u32 (8 + Z.of_nat (length payload))) ++ WriteU16 c ++ payload.

Lemma octets_of_octets h c payload : Forall octet payload -> Forall octet (octets_of h c payload).
Proof. intros. repeat (apply Forall_app; split); auto using n16_octets, u16_octets. Qed.
Lemma octets_of_length h c payload : length (octets_of h c payload) = (8 + length payload)%nat.
Proof. reflexivity. Qed.

Lemma sum16_octets_of h c payload :
  in_range 16 c -> sum16 (octets_of h c payload) = sum16 (octets_of h 0 payload) + c.
Proof.
  intros Hc. unfold octets_of. rewrite !sum16_app; [|by exists 1%nat|by exists 3%nat|by exists 1%nat|by exists 3%nat].
  rewrite !word_sum_u16 by (done || (unfold in_range; lia)). lia.
Qed.

(** What is sent carries a checksum that makes the covered octets a multiple of
    65535. *)
Lemma Serialize_ok h payload :
  sendable h -> m_calcChecksum h = true -> Forall octet payload -> 8 + Z.of_nat (length payload) < 65536 ->
  exists c k, Serialize h payload = Ok (octets_of h c payload) /\ in_range 16 c /\
    covered h (8 + Z.of_nat (length payload)) (octets_of h c payload) = 65535 * k.
Proof.
  intros [_ _ Hc] Hcalc Hp Hlen. unfold Serialize. rewrite Hc, Hcalc. cbn [Z.eqb].
  pose proof (octets_of_octets h 0 payload Hp) as Ho. pose proof (octets_of_length h 0 payload) as Hl.
  destruct (checksums_ok h (8 + Z.of_nat (length payload)) (octets_of h 0 payload)) as (hc & f & k & Eh & Ec & Hf & E & _);
    [lia..|done|].
  rewrite !(wrap_small 32), (wrap_small 16), Eh by (unfold in_range; lia). cbn [mbind res_bind].
  unfold octets_of in Ec. rewrite (wrap_small 32) in Ec by (unfold in_range; lia). rewrite Ec. cbn [mbind res_bind mret res_ret].
  exists (65535 - f), (k + 1). split; [by unfold octets_of; rewrite (wrap_small 32) by (unfold in_range; lia)|].
  assert (in_range 16 (65535 - f)) as Hr by (unfold in_range; lia). split; [done|].
  rewrite covered_app in *. rewrite sum16_octets_of by done. lia.
Qed.

(** The fields that are read back. *)
Lemma Deserialize_read h h0 c payload h' n :
  sendable h -> in_range 16 c -> 8 + Z.of_nat (length payload) < 65536 ->
  Deserialize h0 (octets_of h c payload) = Ok (h', n) ->
  GetSourcePort h' = GetSourcePort h /\ GetDestinationPort h' = GetDestinationPort h /\
  m_payloadSize h' = Z.of_nat (length payload) /\ m_addresses h' = m_addresses h0.
Proof.
  intros [[Hs Hd] Hz _] Hc Hlen. unfold Deserialize.
  destruct (if m_calcChecksum h0 then _ else _) as [good|e]; unfold octets_of, udp_front; rewrite Hz;
    cbn [Z.eqb]; rewrite (wrap_small 32), <- !app_assoc by (unfold in_range; lia);
    (do 3 (rewrite ReadNtohU16_write by (done || (unfold in_range; lia)); cbn [mbind res_bind]));
    rewrite ReadU16_write by done; cbn [mbind res_bind mret res_ret]; [|done].
  intros [= <- <-]. cbn. rewrite wrap_small by (unfold in_range; lia). repeat split. lia.
Qed.

(** Whatever the header that reads, the ports are those of the datagram. *)
Lemma Deserialize_ports h0 h1 bs h2 h3 n m :
  Deserialize h0 bs = Ok (h2, n) -> Deserialize h1 bs = Ok (h3, m) ->
  GetSourcePort h3 = GetSourcePort h2 /\ GetDestinationPort h3 = GetDestinationPort h2.
Proof.
  unfold Deserialize. destruct (ReadNtohU16 bs) as [[a i1]|]; cbn [mbind res_bind]; [|done].
  destruct (ReadNtohU16 i1) as [[b i2]|]; cbn [mbind res_bind]; [|done].
  destruct (ReadNtohU16 i2) as [[c i3]|]; cbn [mbind res_bind]; [|done].
  destruct (ReadU16 i3) as [[d i4]|]; cbn [mbind res_bind]; [|done].
  destruct (if m_calcChecksum h0 then _ else _) as [g|]; [|done]. cbn [mbind res_bind mret res_ret]. intros [= <- <-].
  destruct (if m_calcChecksum h1 then _ else _) as [g'|]; [|done]. cbn [mbind res_bind mret res_ret]. by intros [= <- <-].
Qed.

(** Another octet changes the sum by less than 65535. *)
Lemma sum16_insert bs i b b' :
  bs !! i = Some b -> exists d, sum16 (<[i := b']> bs) = sum16 bs + (b' - b) * d /\ (d = 1 \/ d = 256).
Proof.
  intros Hi. pose proof (lookup_lt_Some _ _ _ Hi). unfold sum16. rewrite length_insert.
  pose proof (Nat.div_mod (length bs) 2 ltac:(lia)). pose proof (Nat.mod_upper_bound (length bs) 2 ltac:(lia)).
  set (n := (2 * (length bs / 2))%nat) in *. destruct (decide (i < n)%nat).
  - rewrite take_insert_lt, drop_insert_lt by done.
    destruct (word_sum_insert (take n bs) i b b') as (d & -> & Hd).
    + rewrite length_take, Nat.min_l by lia. by exists (length bs / 2)%nat.
    + by rewrite lookup_take_lt.
    + exists d. split; [lia|done].
  - rewrite take_insert_ge, drop_insert_ge by lia. exists 1. split; [|by left].
    assert (i = n /\ length bs = S n) as [-> Hl] by lia. rewrite Nat.sub_diag.
    assert (drop n bs = [b]) as ->; [|simpl; lia].
    rewrite (drop_S _ b) by done. by rewrite drop_ge by lia.
Qed.

(** ** Properties *)

(** The pseudo header of the receiver is that of the sender. *)
Definition same_pseudo (h h0 : UdpHeader) : Prop :=
  m_addresses h0 = m_addresses h /\ m_protocol h0 = m_protocol h.

Lemma same_covered h h0 size bs : same_pseudo h h0 -> covered h0 size bs = covered h size bs.
Proof. intros [E1 E2]. unfold covered, pseudo_header. by rewrite E1, E2. Qed.

(** A datagram that a socket sends with its checksum and any payload of
    octets that fits is received as it was sent: [RemoveHeader], with the
    addresses that the IP header carries, accepts the checksum and gives the
    ports, the size of the payload and the payload. *)
Theorem udp_datagram_accepted h h0 p :
  sendable h -> m_calcChecksum h = true -> m_calcChecksum h0 = true -> same_pseudo h h0 ->
  m_addresses h <> None -> m_protocol h = 17 ->
  Forall octet (p_data p) -> Z.of_nat (length (p_data p)) <= 65527 ->
  exists p' h', AddUdpHeader h p = Ok p' /\ RemoveUdpHeader h0 p' = Ok (h', p) /\ IsChecksumOk h' = true /\
    GetSourcePort h' = GetSourcePort h /\ GetDestinationPort h' = GetDestinationPort h /\
    m_payloadSize h' = Z.of_nat (length (p_data p)).
Proof.
  intros Hs Hcalc Hcalc0 Hsame Ha Hproto Hp Hlen.
  destruct (Serialize_ok h (p_data p)) as (c & k & Es & Hc & Hk); [done..|lia|].
  pose proof (octets_of_octets h c (p_data p) Hp) as Ho. pose proof (octets_of_length h c (p_data p)) as Hl.
  destruct (Deserialize_any h0 (octets_of h c (p_data p))) as (h' & Ed & _ & Hgood); [done|lia|].
  exists (with_data p (octets_of h c (p_data p))), h'. unfold AddUdpHeader, RemoveUdpHeader. rewrite Es.
  split; [done|]. cbn [p_data with_data]. rewrite Ed. cbn [mbind res_bind mret res_ret].
  split. { f_equal. f_equal. by destruct p. }
  split. { apply Hgood; [done|rewrite (same_covered h) by done; apply covered_pos; [done|lia|done]|].
           exists k. rewrite (same_covered h) by done. rewrite Hl, Nat2Z.inj_add. done. }
  apply (Deserialize_read h) in Ed; [|done|done|lia]. destruct Ed as (-> & -> & -> & _). done.
Qed.

(** C28. One octet of an accepted datagram that is changed on the way, anywhere
    in its header or its payload, is noticed: the checksum is then not good. *)
Theorem udp_corruption_detected h0 bs h1 n i b b' :
  m_calcChecksum h0 = true -> m_addresses h0 <> None -> m_protocol h0 = 17 ->
  Forall octet bs -> 8 <= Z.of_nat (length bs) < 65536 ->
  Deserialize h0 bs = Ok (h1, n) -> IsChecksumOk h1 = true ->
  bs !! i = Some b -> octet b' -> b' <> b ->
  exists h2, Deserialize h0 (<[i := b']> bs) = Ok (h2, 8) /\ IsChecksumOk h2 = false.
Proof.
  intros Hcalc Ha Hp Hb Hlen E1 Hok Hi Hb' Hne.
  assert (Forall octet (<[i := b']> bs)) as Hb2 by (by apply Forall_insert).
  destruct (Deserialize_any h0 bs) as (h1' & E1' & _ & H1); [done..|].
  destruct (Deserialize_any h0 (<[i := b']> bs)) as (h2 & E2 & _ & H2); [done|by rewrite length_insert|].
  exists h2. split; [done|]. apply not_true_is_false. intros Hok2.
  rewrite E1' in E1. injection E1 as -> _.
  apply H1 in Hok as [k1 Hk1]; [|done|apply covered_pos; [done|lia|done]].
  apply H2 in Hok2 as [k2 Hk2]; [|done|apply covered_pos; [done|lia|done]].
  rewrite length_insert, covered_app in Hk2. rewrite covered_app in Hk1.
  destruct (sum16_insert bs i b b' Hi) as (d & Hd & Hd').
  pose proof (Forall_lookup_1 octet bs i b Hb Hi). unfold octet in *. destruct Hd' as [-> | ->]; lia.
Qed.

(** ** Witnesses *)

Definition h_tx : UdpHeader :=
  InitializeChecksum 0x0a010101 0x0a010202 17 (EnableChecksums (SetSourcePort 49153 (SetDestinationPort 9 new_UdpHeader))).
Definition h_rx : UdpHeader := InitializeChecksum 0x0a010101 0x0a010202 17 (EnableChecksums new_UdpHeader).

Lemma udp_datagram_accepted_witness :
  exists p' h', AddUdpHeader h_tx (mkPacket 7 [1; 2; 3]) = Ok p' /\
    RemoveUdpHeader h_rx p' = Ok (h', mkPacket 7 [1; 2; 3]) /\ IsChecksumOk h' = true /\
    GetSourcePort h' = 49153 /\ GetDestinationPort h' = 9 /\ m_payloadSize h' = 3.
Proof.
  apply (udp_datagram_accepted h_tx h_rx (mkPacket 7 [1; 2; 3])); try done.
  repeat constructor; unfold octet; lia.
Defined.

Lemma udp_corruption_detected_witness :
  exists h1 h2, Deserialize h_rx [192; 1; 0; 9; 0; 11; 36; 199; 1; 2; 3] = Ok (h1, 8) /\ IsChecksumOk h1 = true /\
    Deserialize h_rx [192; 1; 0; 9; 0; 11; 36; 199; 1; 0; 3] = Ok (h2, 8) /\ IsChecksumOk h2 = false.
Proof.
  destruct (udp_corruption_detected h_rx [192; 1; 0; 9; 0; 11; 36; 199; 1; 2; 3]
    (read_udp h_rx 49153 9 11 50980 true) 8 9 2 0) as (h2 & E & Hbad); try done.
  - repeat constructor; unfold octet; lia.
  - exists (read_udp h_rx 49153 9 11 50980 true), h2. done.
Defined.
