(* ===== verification/EndPoint.v ===== *)
(** * IPv4 end points ([src/internet/model/ipv4-end-point.cc]) and their
      demultiplexer ([src/internet/model/ipv4-end-point-demux.cc])

    The demultiplexer owns its end points; a pointer to one is a number that is
    never used twice.  The callbacks of an end point are methods of one socket:
    they are kept as the number of that socket. *)

From S2P Require Import Prelude Bytes Packet Ipv4Interface.
From S2P Require Ipv4Address.

Record Ipv4EndPoint := mkEndPoint {
  m_localAddr : Z; m_localPort : Z; m_peerAddr : Z; m_peerPort : Z;
  m_boundnetdevice : option Z;
  m_rxCallback : option nat; m_icmpCallback : option nat; m_destroyCallback : option nat;
  m_rxEnabled : bool }.

Definition new_Ipv4EndPoint (address port : Z) : Ipv4EndPoint :=
  mkEndPoint address port Ipv4Address.GetAny 0 None None None None true.
Definition SetPeer (address port : Z) (e : Ipv4EndPoint) : Ipv4EndPoint :=
  mkEndPoint (m_localAddr e) (m_localPort e) address port (m_boundnetdevice e)
    (m_rxCallback e) (m_icmpCallback e) (m_destroyCallback e) (m_rxEnabled e).
Definition SetLocalAddress (address : Z) (e : Ipv4EndPoint) : Ipv4EndPoint :=
  mkEndPoint address (m_localPort e) (m_peerAddr e) (m_peerPort e) (m_boundnetdevice e)
    (m_rxCallback e) (m_icmpCallback e) (m_destroyCallback e) (m_rxEnabled e).
Definition BindToNetDevice (netdevice : option Z) (e : Ipv4EndPoint) : Ipv4EndPoint :=
  mkEndPoint (m_localAddr e) (m_localPort e) (m_peerAddr e) (m_peerPort e) netdevice
    (m_rxCallback e) (m_icmpCallback e) (m_destroyCallback e) (m_rxEnabled e).
Definition SetRxCallback (callback : option nat) (e : Ipv4EndPoint) : Ipv4EndPoint :=
  mkEndPoint (m_localAddr e) (m_localPort e) (m_peerAddr e) (m_peerPort e) (m_boundnetdevice e)
    callback (m_icmpCallback e) (m_destroyCallback e) (m_rxEnabled e).
Definition SetIcmpCallback (callback : option nat) (e : Ipv4EndPoint) : Ipv4EndPoint :=
  mkEndPoint (m_localAddr e) (m_localPort e) (m_peerAddr e) (m_peerPort e) (m_boundnetdevice e)
    (m_rxCallback e) callback (m_destroyCallback e) (m_rxEnabled e).
Definition SetDestroyCallback (callback : option nat) (e : Ipv4EndPoint) : Ipv4EndPoint :=
  mkEndPoint (m_localAddr e) (m_localPort e) (m_peerAddr e) (m_peerPort e) (m_boundnetdevice e)
    (m_rxCallback e) (m_icmpCallback e) callback (m_rxEnabled e).
Definition SetRxEnabled (enabled : bool) (e : Ipv4EndPoint) : Ipv4EndPoint :=
  mkEndPoint (m_localAddr e) (m_localPort e) (m_peerAddr e) (m_peerPort e) (m_boundnetdevice e)
    (m_rxCallback e) (m_icmpCallback e) (m_destroyCallback e) enabled.

(** ** The demultiplexer *)

Record Ipv4EndPointDemux := mkDemux {
  m_ephemeral : Z; m_portLast : Z; m_portFirst : Z;
  m_endPoints : list (nat * Ipv4EndPoint);
  m_fresh : nat (* the next pointer *) }.

Definition new_Ipv4EndPointDemux : Ipv4EndPointDemux := mkDemux 49152 65535 49152 [] 0.

Definition set_endPoints (l : list (nat * Ipv4EndPoint)) (d : Ipv4EndPointDemux) : Ipv4EndPointDemux :=
  mkDemux (m_ephemeral d) (m_portLast d) (m_portFirst d) l (m_fresh d).
Definition set_ephemeral (port : Z) (d : Ipv4EndPointDemux) : Ipv4EndPointDemux :=
  mkDemux port (m_portLast d) (m_portFirst d) (m_endPoints d) (m_fresh d).

(** What a pointer points to, and an update through it. *)
Fixpoint lookup_ptr (ptr : nat) (l : list (nat * Ipv4EndPoint)) : option Ipv4EndPoint :=
  match l with [] => None | (q, e) :: l' => if Nat.eqb q ptr then Some e else lookup_ptr ptr l' end.
Definition at_ptr (ptr : nat) (d : Ipv4EndPointDemux) : option Ipv4EndPoint := lookup_ptr ptr (m_endPoints d).
Definition update_ptr (ptr : nat) (f : Ipv4EndPoint -> Ipv4EndPoint) (d : Ipv4EndPointDemux) : Ipv4EndPointDemux :=
  set_endPoints (map (fun x => if Nat.eqb x.1 ptr then (x.1, f x.2) else x) (m_endPoints d)) d.

Definition LookupPortLocal (port : Z) (d : Ipv4EndPointDemux) : bool :=
  existsb (fun x => m_localPort x.2 =? port) (m_endPoints d).

Definition device_eqb (a b : option Z) : bool := bool_decide (a = b).

Definition LookupLocal (boundNetDevice : option Z) (addr port : Z) (d : Ipv4EndPointDemux) : bool :=
  existsb (fun x => (m_localPort x.2 =? port) && (m_localAddr x.2 =? addr) &&
                    device_eqb (m_boundnetdevice x.2) boundNetDevice) (m_endPoints d).

(** The loop of [AllocateEphemeralPort], from the check of [count] to the test
    of the port; [None] where the method returns 0. *)
Definition next_port (port : Z) (d : Ipv4EndPointDemux) : Z :=
  let port := u16 (port + 1) in
  if (port <? m_portFirst d) || (m_portLast d <? port) then m_portFirst d else port.
Fixpoint ephemeral_loop (fuel : nat) (count port : Z) (d : Ipv4EndPointDemux) : res (option Z) :=
  match fuel with
  | O => Err OutOfFuel
  | S n =>
      if count <? 0 then mret None
      else let port := next_port port d in
           if LookupPortLocal port d then ephemeral_loop n (count - 1) port d else mret (Some port)
  end.
Definition ephemeral_fuel (d : Ipv4EndPointDemux) : nat := Z.to_nat (m_portLast d - m_portFirst d + 2).
Definition AllocateEphemeralPort (d : Ipv4EndPointDemux) : res (Z * Ipv4EndPointDemux) :=
  found ← ephemeral_loop (ephemeral_fuel d) (m_portLast d - m_portFirst d) (m_ephemeral d) d;
  mret match found with None => (0, d) | Some port => (port, set_ephemeral port d) end.

(** [m_endPoints.push_back (new Ipv4EndPoint (...))] *)
Definition push_back (e : Ipv4EndPoint) (d : Ipv4EndPointDemux) : nat * Ipv4EndPointDemux :=
  (m_fresh d, mkDemux (m_ephemeral d) (m_portLast d) (m_portFirst d) (m_endPoints d ++ [(m_fresh d, e)])
                (S (m_fresh d))).

(** The results are pointers, null when the allocation fails. *)
Definition Allocate_address (address : Z) (d : Ipv4EndPointDemux) : res (option nat * Ipv4EndPointDemux) :=
  '(port, d) ← AllocateEphemeralPort d;
  if port =? 0 then mret (None, d)
  else let '(ptr, d) := push_back (new_Ipv4EndPoint address port) d in mret (Some ptr, d).
Definition Allocate (d : Ipv4EndPointDemux) : res (option nat * Ipv4EndPointDemux) :=
  Allocate_address Ipv4Address.GetAny d.
Definition Allocate_local (boundNetDevice : option Z) (address port : Z) (d : Ipv4EndPointDemux) :
    option nat * Ipv4EndPointDemux :=
  if LookupLocal boundNetDevice address port d || LookupLocal None address port d then (None, d)
  else let '(ptr, d) := push_back (new_Ipv4EndPoint address port) d in (Some ptr, d).
Definition Allocate_port (boundNetDevice : option Z) (port : Z) (d : Ipv4EndPointDemux) :
    option nat * Ipv4EndPointDemux :=
  Allocate_local boundNetDevice Ipv4Address.GetAny port d.
Definition Allocate_peer (boundNetDevice : option Z) (localAddress localPort peerAddress peerPort : Z)
    (d : Ipv4EndPointDemux) : option nat * Ipv4EndPointDemux :=
  if existsb (fun x => (m_localPort x.2 =? localPort) && (m_localAddr x.2 =? localAddress) &&
                       (m_peerPort x.2 =? peerPort) && (m_peerAddr x.2 =? peerAddress) &&
                       (device_eqb (m_boundnetdevice x.2) boundNetDevice ||
                        device_eqb (m_boundnetdevice x.2) None)) (m_endPoints d) then (None, d)
  else let '(ptr, d) := push_back (SetPeer peerAddress peerPort (new_Ipv4EndPoint localAddress localPort)) d in
       (Some ptr, d).

(** Deletes the end point; its destructor runs the destroy callback, which is
    returned. *)
Fixpoint erase (ptr : nat) (l : list (nat * Ipv4EndPoint)) : list (nat * Ipv4EndPoint) :=
  match l with [] => [] | x :: l' => if Nat.eqb x.1 ptr then l' else x :: erase ptr l' end.
Definition DeAllocate (endPoint : nat) (d : Ipv4EndPointDemux) : option nat * Ipv4EndPointDemux :=
  (match at_ptr endPoint d with Some e => m_destroyCallback e | None => None end,
   set_endPoints (erase endPoint (m_endPoints d)) d).

Definition GetAllEndPoints (d : Ipv4EndPointDemux) : list nat := (m_endPoints d).*1.

(** ** Lookup *)

(** How the local address of an end point matches: exactly, as 0.0.0.0, or as
    the network of an address of the interface. *)
Inductive local_match := MatchesExact | IsAny | IsSubnetAny.
Definition match_local (e : Ipv4EndPoint) (daddr : Z) (incomingInterface : option Ipv4Interface) :
    res (option local_match) :=
  if m_localAddr e =? daddr then mret (Some MatchesExact)
  else if m_localAddr e =? Ipv4Address.GetAny then mret (Some IsAny)
  else
    ifc ← deref incomingInterface;
    mret (if existsb (fun a =>
                let addrNetpart := Ipv4Address.CombineMask (m_local a) (m_mask a) in
                (m_localAddr e =? addrNetpart) && (addrNetpart =? Ipv4Address.CombineMask daddr (m_mask a)))
              (m_ifaddrs ifc)
          then Some IsSubnetAny else None).

(** The device of the interface, when the end point is bound to a device. *)
Definition match_device (e : Ipv4EndPoint) (incomingInterface : option Ipv4Interface) : res bool :=
  match m_boundnetdevice e with
  | None => mret true
  | Some dev => ifc ← deref incomingInterface; mret (device_eqb (Some dev) (GetDevice ifc))
  end.

(** The numbers of the lists [retval1] to [retval4] that the end point is added to. *)
Definition classes (e : Ipv4EndPoint) (daddr dport saddr sport : Z) (incomingInterface : option Ipv4Interface) :
    res (list nat) :=
  if negb (m_rxEnabled e) then mret []
  else if negb (m_localPort e =? dport) then mret []
  else
    here ← match_device e incomingInterface;
    if negb here then mret [] else
    l ← match_local e daddr incomingInterface;
    match l with
    | None => mret []
    | Some l =>
        let remotePortMatchesExact := m_peerPort e =? sport in
        let remotePortMatchesWildCard := m_peerPort e =? 0 in
        let remoteAddressMatchesExact := m_peerAddr e =? saddr in
        let remoteAddressMatchesWildCard := m_peerAddr e =? Ipv4Address.GetAny in
        if negb (remotePortMatchesExact || remotePortMatchesWildCard) then mret []
        else if negb (remoteAddressMatchesExact || remoteAddressMatchesWildCard) then mret []
        else
          let exact := match l with MatchesExact => true | _ => false end in
          mret ((if exact && remoteAddressMatchesExact && remotePortMatchesExact then [4%nat] else []) ++
                (if negb exact && remoteAddressMatchesExact && remotePortMatchesExact then [3%nat] else []) ++
                (if exact && remoteAddressMatchesWildCard && remotePortMatchesWildCard then [2%nat] else []) ++
                (if negb exact && remoteAddressMatchesWildCard && remotePortMatchesWildCard then [1%nat] else []))
    end.

(** The list [retval c]. *)
Definition retval (c : nat) (l : list (nat * list nat)) : list nat :=
  omap (fun x => if existsb (Nat.eqb c) x.2 then Some x.1 else None) l.

Fixpoint classify (daddr dport saddr sport : Z) (incomingInterface : option Ipv4Interface)
    (l : list (nat * Ipv4EndPoint)) : res (list (nat * list nat)) :=
  match l with
  | [] => mret []
  | (ptr, e) :: l' =>
      cs ← classes e daddr dport saddr sport incomingInterface;
      r ← classify daddr dport saddr sport incomingInterface l';
      mret ((ptr, cs) :: r)
  end.

(** The most exact match. *)
Definition most_exact (r : list (nat * list nat)) : list nat :=
  match retval 4 r with
  | [] => match retval 3 r with
          | [] => match retval 2 r with [] => retval 1 r | l => l end
          | l => l
          end
  | l => l
  end.

Definition Lookup (daddr dport saddr sport : Z) (incomingInterface : option Ipv4Interface)
    (d : Ipv4EndPointDemux) : res (list nat) :=
  r ← classify daddr dport saddr sport incomingInterface (m_endPoints d);
  _ ← ns_require (Nat.leb (length (most_exact r)) 1);
  mret (most_exact r).

(** The search that ICMP errors use: an exact match, or else the first of the
    end points with the least wildcards. *)
Fixpoint simple_loop (daddr dport saddr sport genericity : Z) (generic : option nat)
    (l : list (nat * Ipv4EndPoint)) : option nat :=
  match l with
  | [] => generic
  | (ptr, e) :: l' =>
      if negb (m_localPort e =? dport) then simple_loop daddr dport saddr sport genericity generic l'
      else if (m_localAddr e =? daddr) && (m_peerPort e =? sport) && (m_peerAddr e =? saddr) then Some ptr
      else
        let tmp := (if m_localAddr e =? Ipv4Address.GetAny then 1 else 0) +
                   (if m_peerAddr e =? Ipv4Address.GetAny then 1 else 0) in
        if tmp <? genericity then simple_loop daddr dport saddr sport tmp (Some ptr) l'
        else simple_loop daddr dport saddr sport genericity generic l'
  end.
Definition SimpleLookup (daddr dport saddr sport : Z) (d : Ipv4EndPointDemux) : option nat :=
  simple_loop daddr dport saddr sport 3 None (m_endPoints d).
