(* ===== verification/EndPointSpec.v ===== *)
(** * Correctness of the end point demultiplexer

    Ephemeral ports are found when there is one, and a datagram goes to the most
    specific end point that matches it. *)

From S2P Require Import Prelude Bytes Packet Ipv4Interface EndPoint.
From S2P Require Ipv4Address.

(** ** Ephemeral ports *)

(** The range of the ports, and the last one that was given. *)
Record ports_wf (d : Ipv4EndPointDemux) : Prop := {
  pw_first : m_portFirst d = 49152;
  pw_last : m_portLast d = 65535;
  pw_ephemeral : 49152 <= m_ephemeral d <= 65535 }.

(** The port [k] places after [port], cyclically. *)
Definition nth_port (port k : Z) : Z := 49152 + (port - 49152 + k) mod 16384.

Definition port_used (port : Z) (d : Ipv4EndPointDemux) : Prop :=
  exists x, x ∈ m_endPoints d /\ m_localPort x.2 = port.

Lemma LookupPortLocal_spec port d : LookupPortLocal port d = true <-> port_used port d.
Proof.
  unfold LookupPortLocal, port_used. rewrite existsb_exists. setoid_rewrite Z.eqb_eq.
  by setoid_rewrite list_elem_of_In.
Qed.

Lemma next_nth_port d port k :
  ports_wf d -> 49152 <= port <= 65535 -> 0 <= k -> next_port (nth_port port k) d = nth_port port (k + 1).
Proof.
  intros [Hf Hl _] Hp Hk. unfold next_port, nth_port, wrap. rewrite Hf, Hl. change (2 ^ 16) with 65536.
  replace (port - 49152 + (k + 1)) with (port - 49152 + k + 1) by lia. set (x := port - 49152 + k).
  pose proof (Z.mod_pos_bound x 16384 ltac:(lia)).
  rewrite <- (Zplus_mod_idemp_l x 1). set (m := x mod 16384) in *.
  destruct (Z.eq_dec m 16383) as [-> | Hne]; [done|].
  rewrite (Z.mod_small (m + 1)), Z.mod_small by lia.
  assert ((49152 + m + 1 <? 49152) = false) as -> by (apply Z.ltb_ge; lia).
  assert ((65535 <? 49152 + m + 1) = false) as -> by (apply Z.ltb_ge; lia). simpl. lia.
Qed.

(** The ports that the loop tries from [k] on, up to the first free one. *)
Lemma ephemeral_loop_spec d port : ports_wf d -> 49152 <= port <= 65535 ->
  forall fuel k, 0 <= k -> (Z.to_nat (16384 - k) < fuel)%nat ->
  (forall i, 1 <= i <= k -> port_used (nth_port port i) d) ->
  exists r, ephemeral_loop fuel (16383 - k) (nth_port port k) d = Ok r /\
    match r with
    | None => forall i, 1 <= i <= 16384 -> port_used (nth_port port i) d
    | Some p => (exists i, 1 <= i <= 16384 /\ p = nth_port port i) /\ ~ port_used p d
    end.
Proof.
  intros Hd Hp. induction fuel as [|fuel IH]; intros k Hk Hf Hused; [lia|]. simpl.
  destruct (Z.ltb_spec (16383 - k) 0) as [Hlt|Hge].
  - exists None. split; [done|]. intros i Hi. apply Hused. lia.
  - rewrite next_nth_port by done. destruct (LookupPortLocal _ d) eqn:E.
    + apply LookupPortLocal_spec in E. replace (16383 - k - 1) with (16383 - (k + 1)) by lia.
      apply IH; [lia|lia|]. intros i Hi. destruct (Z.eq_dec i (k + 1)) as [-> | Hne]; [done|apply Hused; lia].
    + exists (Some (nth_port port (k + 1))). split; [done|]. split; [exists (k + 1); split; [lia|done]|].
      rewrite <- LookupPortLocal_spec. by rewrite E.
Qed.

Lemma nth_port_range port i : 49152 <= nth_port port i <= 65535.
Proof. unfold nth_port. pose proof (Z.mod_pos_bound (port - 49152 + i) 16384). lia. Qed.

(** Every port of the range is tried. *)
Lemma nth_port_onto port p : 49152 <= port <= 65535 -> 49152 <= p <= 65535 ->
  exists i, 1 <= i <= 16384 /\ nth_port port i = p.
Proof.
  intros Hport Hp. exists ((p - port - 1) mod 16384 + 1).
  pose proof (Z.mod_pos_bound (p - port - 1) 16384 ltac:(lia)). split; [lia|]. unfold nth_port.
  replace (port - 49152 + ((p - port - 1) mod 16384 + 1)) with ((p - port - 1) mod 16384 + (port - 49152 + 1)) by lia.
  rewrite Zplus_mod_idemp_l. rewrite Z.mod_small; lia.
Qed.

Lemma AllocateEphemeralPort_ok d : ports_wf d ->
  exists port d', AllocateEphemeralPort d = Ok (port, d') /\ ports_wf d' /\
    m_endPoints d' = m_endPoints d /\ m_fresh d' = m_fresh d /\
    (port = 0 /\ d' = d /\ (forall p, 49152 <= p <= 65535 -> port_used p d) \/
     49152 <= port <= 65535 /\ m_ephemeral d' = port /\ ~ port_used port d).
Proof.
  intros Hd. pose proof Hd as [Hf Hl He]. unfold AllocateEphemeralPort.
  replace (m_portLast d - m_portFirst d) with (16383 - 0) by lia.
  assert (m_ephemeral d = nth_port (m_ephemeral d) 0) as E0.
  { unfold nth_port. rewrite Z.mod_small; lia. }
  destruct (ephemeral_loop_spec d (m_ephemeral d) Hd He (ephemeral_fuel d) 0) as (r & Er & Hr);
    [lia|unfold ephemeral_fuel; lia|lia|]. rewrite <- E0 in Er. rewrite Er. cbn [mbind res_bind]. destruct r as [p|].
  - destruct Hr as [(i & Hi & ->) Hfree]. do 2 eexists. split; [reflexivity|].
    pose proof (nth_port_range (m_ephemeral d) i). split; [by split|]. split; [done|]. split; [done|]. right. done.
  - do 2 eexists. split; [reflexivity|]. split; [done|]. split; [done|]. split; [done|]. left.
    split; [done|]. split; [done|]. intros p Hp. destruct (nth_port_onto (m_ephemeral d) p He Hp) as (i & Hi & <-).
    by apply Hr.
Qed.

(** C27. The search for an ephemeral port ends after trying each of the 16384 ports
    at most once.  It fails, leaving the demultiplexer as it was, exactly when
    every port from 49152 to 65535 is in use; else it gives a port of that
    range that no end point uses. *)
Theorem ephemeral_port_found d : ports_wf d ->
  exists port d', AllocateEphemeralPort d = Ok (port, d') /\
    (port = 0 <-> forall p, 49152 <= p <= 65535 -> LookupPortLocal p d = true) /\
    (port = 0 -> d' = d) /\
    (port <> 0 -> 49152 <= port <= 65535 /\ LookupPortLocal port d = false /\ m_endPoints d' = m_endPoints d).
Proof.
  intros Hd. destruct (AllocateEphemeralPort_ok d Hd) as (port & d' & -> & _ & He & _ & Hcase).
  exists port, d'. split; [done|]. destruct Hcase as [(-> & -> & Hall)|(Hp & _ & Hfree)].
  - split; [|done]. split; [|done]. intros _ p Hpr. by apply LookupPortLocal_spec, Hall.
  - rewrite <- LookupPortLocal_spec in Hfree. split; [|split; [lia|]].
    + split; [lia|]. intros Hall. by rewrite Hall in Hfree.
    + intros _. split; [done|]. split; [by apply not_true_is_false|done].
Qed.

(** ** Lookup *)

Section lookup.
Variables (daddr dport saddr sport : Z) (ifc : Ipv4Interface).

(** An end point that can receive what arrives by [ifc] for the port. *)
Definition listens (e : Ipv4EndPoint) : Prop :=
  m_rxEnabled e = true /\ m_localPort e = dport /\
  (m_boundnetdevice e = None \/ m_boundnetdevice e = m_device ifc /\ m_device ifc <> None).

(** The local address is the destination, or stands for it: 0.0.0.0, or the
    network of [ifc] that the destination is in. *)
Definition local_exact (e : Ipv4EndPoint) : Prop := m_localAddr e = daddr.
Definition local_wild (e : Ipv4EndPoint) : Prop :=
  m_localAddr e <> daddr /\
  (m_localAddr e = 0 \/ exists a, a ∈ m_ifaddrs ifc /\ m_localAddr e = Z.land (m_local a) (m_mask a) /\
                                  m_localAddr e = Z.land daddr (m_mask a)).
Definition remote_exact (e : Ipv4EndPoint) : Prop := m_peerAddr e = saddr /\ m_peerPort e = sport.
Definition remote_wild (e : Ipv4EndPoint) : Prop := m_peerAddr e = 0 /\ m_peerPort e = 0.

(** The four ways to match, the more specific the higher. *)
Definition matches (c : nat) (e : Ipv4EndPoint) : Prop :=
  listens e /\
  match c with
  | 4 => local_exact e /\ remote_exact e
  | 3 => local_wild e /\ remote_exact e
  | 2 => local_exact e /\ remote_wild e
  | 1 => local_wild e /\ remote_wild e
  | _ => False
  end%nat.

Lemma match_local_spec e :
  exists m, match_local e daddr (Some ifc) = Ok m /\
    match m with
    | Some MatchesExact => local_exact e
    | Some _ => local_wild e
    | None => ~ local_exact e /\ ~ local_wild e
    end.
Proof.
  unfold match_local, local_exact, local_wild, Ipv4Address.GetAny, Ipv4Address.CombineMask.
  destruct (Z.eqb_spec (m_localAddr e) daddr); [by eexists|].
  destruct (Z.eqb_spec (m_localAddr e) 0); [exists (Some IsAny); by auto|].
  cbn [mbind res_bind mret res_ret deref]. destruct (existsb _ _) eqn:E;
    [exists (Some IsSubnetAny)|exists None]; (split; [done|]).
  - apply existsb_exists in E as (a & Ha%list_elem_of_In & Hb). bool_to_Z. split; [done|]. right. exists a. split; [done|lia].
  - split; [done|]. intros [_ [?|(a & Ha & E1 & E2)]]; [done|]. apply not_true_iff_false in E. apply E.
    apply existsb_exists. exists a. split; [by apply list_elem_of_In|]. apply andb_true_iff. rewrite !Z.eqb_eq. lia.
Qed.

Lemma match_device_spec e :
  exists b, match_device e (Some ifc) = Ok b /\
    (b = true <-> m_boundnetdevice e = None \/ m_boundnetdevice e = m_device ifc /\ m_device ifc <> None).
Proof.
  unfold match_device. destruct (m_boundnetdevice e) as [dev|]; cbn [mbind res_bind mret res_ret deref]; eexists;
    (split; [done|]); [|naive_solver].
  unfold device_eqb, GetDevice. rewrite bool_decide_eq_true. split; [|naive_solver].
  intros <-. right. done.
Qed.

Lemma classes_spec e :
  exists cs, classes e daddr dport saddr sport (Some ifc) = Ok cs /\ forall c, c ∈ cs <-> matches c e.
Proof.
  unfold classes, matches, listens.
  destruct (m_rxEnabled e); simpl; [|exists []; split; [done|]; set_solver].
  destruct (Z.eqb_spec (m_localPort e) dport); simpl; [|exists []; split; [done|]; set_solver].
  destruct (match_device_spec e) as (b & -> & Hb). cbn [mbind res_bind].
  destruct b; simpl; [|exists []; split; [done|]; intros c; split; [set_solver|]; intros [(_ & _ & H) _]; by apply Hb in H].
  destruct (match_local_spec e) as (m & -> & Hm). cbn [mbind res_bind].
  assert (forall P : Prop, (true = true /\ m_localPort e = dport /\
    (m_boundnetdevice e = None \/ m_boundnetdevice e = m_device ifc /\ m_device ifc <> None)) /\ P <-> P) as HP.
  { intros P. split; [naive_solver|]. intros. repeat split; [done|by apply Hb|done]. }
  setoid_rewrite HP. clear HP Hb.
  assert (local_exact e -> ~ local_wild e) as Hex by (by intros ? [? _]).
  destruct m as [m|]; [|exists []; split; [done|]; intros [|[|[|[|[|c]]]]]; set_solver].
  unfold remote_exact, remote_wild, Ipv4Address.GetAny.
  destruct (Z.eqb_spec (m_peerPort e) sport), (Z.eqb_spec (m_peerPort e) 0),
    (Z.eqb_spec (m_peerAddr e) saddr), (Z.eqb_spec (m_peerAddr e) 0), m; simpl;
    (eexists; split; [reflexivity|]); intros [|[|[|[|[|c]]]]]; set_solver.
Qed.

Definition cls (e : Ipv4EndPoint) : list nat :=
  match classes e daddr dport saddr sport (Some ifc) with Ok l => l | Err _ => [] end.

Lemma classes_ok e : classes e daddr dport saddr sport (Some ifc) = Ok (cls e).
Proof. unfold cls. by destruct (classes_spec e) as (cs & -> & _). Qed.
Lemma cls_spec e c : c ∈ cls e <-> matches c e.
Proof. unfold cls. by destruct (classes_spec e) as (cs & -> & Hc). Qed.

Lemma matches_range e c : matches c e -> (1 <= c <= 4)%nat.
Proof. intros [_ H]. destruct c as [|[|[|[|[|c]]]]]; [done|lia..|done]. Qed.

Lemma classify_ok l : classify daddr dport saddr sport (Some ifc) l = Ok (map (fun x => (x.1, cls x.2)) l).
Proof.
  induction l as [|[ptr e] l IH]; [done|]. simpl. rewrite classes_ok. cbn [mbind res_bind]. by rewrite IH.
Qed.

(** The end points, with the lists they are added to. *)
Definition classified (l : list (nat * Ipv4EndPoint)) : list (nat * list nat) := map (fun x => (x.1, cls x.2)) l.

(** An end point of [l] in class [c]. *)
Definition in_class (l : list (nat * Ipv4EndPoint)) (c ptr : nat) : Prop :=
  exists e, (ptr, e) ∈ l /\ matches c e.

(** An end point that matches as exactly as any. *)
Definition best (l : list (nat * Ipv4EndPoint)) (ptr : nat) : Prop :=
  exists c, in_class l c ptr /\ forall ptr' c', in_class l c' ptr' -> (c' <= c)%nat.

Lemma retval_spec l c ptr : ptr ∈ retval c (classified l) <-> in_class l c ptr.
Proof.
  unfold retval, classified, in_class. rewrite list_elem_of_omap. split.
  - intros ([p cs] & Hx & E). apply list_elem_of_fmap in Hx as ([p' e] & [= -> ->] & Hin). simpl in E.
    destruct (existsb _ _) eqn:Eb; [|done]. injection E as ->. apply existsb_exists in Eb as (c' & Hc & <-%Nat.eqb_eq).
    exists e. split; [done|by apply cls_spec, list_elem_of_In].
  - intros (e & Hin & Hc%cls_spec). exists (ptr, cls e). split; [apply list_elem_of_fmap; by exists (ptr, e)|]. simpl.
    replace (existsb (Nat.eqb c) (cls e)) with true; [done|]. symmetry. apply existsb_exists. exists c.
    split; [by apply list_elem_of_In|by apply Nat.eqb_eq].
Qed.

Lemma retval_nil l c : retval c (classified l) = [] -> forall ptr, ~ in_class l c ptr.
Proof. intros E ptr. rewrite <- retval_spec, E. apply not_elem_of_nil. Qed.

Lemma in_class_range l c ptr : in_class l c ptr -> (1 <= c <= 4)%nat.
Proof. intros (e & _ & Hc). by apply matches_range in Hc. Qed.

Definition highest (l : list (nat * Ipv4EndPoint)) (c : nat) : Prop :=
  forall ptr' c', in_class l c' ptr' -> (c' <= c)%nat /\ exists ptr, in_class l c ptr.

Lemma retval_highest l c x r :
  retval c (classified l) = x :: r -> (forall c', (c < c')%nat -> (c' <= 4)%nat -> retval c' (classified l) = []) ->
  highest l c.
Proof.
  intros E Habove ptr' c' Hc. split.
  - destruct (decide (c' <= c)%nat) as [|Hgt]; [done|]. pose proof (in_class_range _ _ _ Hc).
    exfalso. eapply (retval_nil l c'); [apply Habove; lia|exact Hc].
  - exists x. rewrite <- retval_spec, E. by left.
Qed.

(** The list of the highest class that is not empty. *)
Lemma most_exact_class l : exists c, most_exact (classified l) = retval c (classified l) /\ highest l c.
Proof.
  unfold most_exact.
  destruct (retval 4 _) as [|x4 r4] eqn:E4;
    [|exists 4%nat; rewrite E4; split; [done|]; eapply retval_highest; [done|lia]].
  destruct (retval 3 _) as [|x3 r3] eqn:E3;
    [|exists 3%nat; rewrite E3; split; [done|]; eapply retval_highest; [done|]].
  2:{ intros c' ??. by assert (c' = 4)%nat as -> by lia. }
  destruct (retval 2 _) as [|x2 r2] eqn:E2;
    [|exists 2%nat; rewrite E2; split; [done|]; eapply retval_highest; [done|]].
  2:{ intros c' ??. by assert (c' = 4 \/ c' = 3)%nat as [-> | ->] by lia. }
  exists 1%nat. split; [done|]. intros ptr' c' Hc. pose proof (in_class_range _ _ _ Hc).
  assert (c' = 1 \/ c' = 2 \/ c' = 3 \/ c' = 4)%nat as [-> | [-> | [-> | ->]]] by lia; [eauto|exfalso..].
  - by apply (retval_nil l _ E2) in Hc.
  - by apply (retval_nil l _ E3) in Hc.
  - by apply (retval_nil l _ E4) in Hc.
Qed.

Lemma most_exact_spec l ptr : ptr ∈ most_exact (classified l) <-> best l ptr.
Proof.
  destruct (most_exact_class l) as (c & -> & Hmax). rewrite retval_spec. split.
  - intros Hc. exists c. split; [done|]. intros. by eapply Hmax.
  - intros (c' & Hc' & Hmax'). destruct (Hmax _ _ Hc') as [Hle [p Hp]]. apply Hmax' in Hp.
    by replace c with c' by lia.
Qed.

Lemma most_exact_NoDup l : NoDup l.*1 -> NoDup (most_exact (classified l)).
Proof.
  intros Hnd. destruct (most_exact_class l) as (c & -> & _).
  assert (retval c (classified l) `sublist_of` l.*1) as Hs; [|by eapply sublist_NoDup].
  clear. induction l as [|[p e] l IH]; simpl; [constructor|]. destruct (existsb _ _); [by apply sublist_skip|by apply sublist_cons].
Qed.
End lookup.

(** At most one element, told by its elements. *)
Lemma NoDup_length_le_1 {A} (l : list A) : NoDup l -> (length l <= 1)%nat <-> forall x y, x ∈ l -> y ∈ l -> x = y.
Proof.
  intros Hnd. destruct l as [|a [|b l]]; simpl.
  - split; [set_solver|lia].
  - split; [set_solver|lia].
  - split; [lia|]. intros Heq. apply NoDup_cons in Hnd as [Hni _]. rewrite (Heq a b) in Hni by set_solver. set_solver.
Qed.

Lemma Lookup_cases daddr dport saddr sport ifc d : NoDup (m_endPoints d).*1 ->
  (exists l, Lookup daddr dport saddr sport (Some ifc) d = Ok l /\ (length l <= 1)%nat /\
     forall ptr, ptr ∈ l <-> best daddr dport saddr sport ifc (m_endPoints d) ptr) \/
  (Lookup daddr dport saddr sport (Some ifc) d = Err FatalError /\
   exists p q, p <> q /\ best daddr dport saddr sport ifc (m_endPoints d) p /\
     best daddr dport saddr sport ifc (m_endPoints d) q).
Proof.
  intros Hnd. unfold Lookup. rewrite classify_ok. cbn [mbind res_bind].
  change (map _ (m_endPoints d)) with (classified daddr dport saddr sport ifc (m_endPoints d)).
  pose proof (most_exact_NoDup daddr dport saddr sport ifc _ Hnd) as Hn.
  setoid_rewrite <- most_exact_spec. set (r := most_exact _) in *.
  destruct (Nat.leb_spec (length r) 1) as [Hle|Hgt]; cbn [mbind res_bind mret res_ret ns_require].
  - left. by exists r.
  - right. split; [done|]. destruct r as [|p [|q r]]; simpl in Hgt; [lia|lia|]. exists p, q.
    apply NoDup_cons in Hn as [Hni _]. split; [set_solver|]. split; set_solver.
Qed.

(** C26. A datagram is looked up for the most specific of the end points that
    match it: those that can receive, with its destination port, the device it
    came in by, its destination address (or a wildcard) and its source (or a
    wildcard), the ones with its source before those without and then the ones
    with its destination before those without.  [Lookup] gives the only best
    one, none if none matches, and stops the program exactly when two different
    end points match best. *)
Theorem Lookup_most_specific daddr dport saddr sport ifc d : NoDup (m_endPoints d).*1 ->
  (exists l, Lookup daddr dport saddr sport (Some ifc) d = Ok l /\ (length l <= 1)%nat /\
     forall ptr, ptr ∈ l <-> best daddr dport saddr sport ifc (m_endPoints d) ptr) \/
  (Lookup daddr dport saddr sport (Some ifc) d = Err FatalError /\
   exists p q, p <> q /\ best daddr dport saddr sport ifc (m_endPoints d) p /\
     best daddr dport saddr sport ifc (m_endPoints d) q).
Proof. apply Lookup_cases. Qed.
