(* ===== verification/UdpSocket.v ===== *)
(** * UDP on a node: sockets and reception

    [UdpL4Protocol] ([src/internet/model/udp-l4-protocol.cc]) with its end points
    and the [UdpSocketImpl]s it created ([src/internet/model/udp-socket-impl.cc],
    the IPv4 part; the base class is in [src/network/model/socket.cc]).  A socket
    is its index in [m_sockets].  What a socket tells its application is recorded
    in order in [u_log]; the application runs after the operation. *)

From S2P Require Import Prelude Bytes Packet UdpHeader Routing EndPoint Ipv4L3Protocol.
From S2P Require Ipv4Address Ipv4Header Ipv4Interface.
From S2P Require Import Ipv4Ifaces.
Import Ipv4Header (Ipv4Header).
Import Ipv4Interface (Ipv4Interface).

(** [UdpL4Protocol::PROT_NUMBER] *)
Definition PROT_NUMBER : Z := 17.

(** [Address]: an [InetSocketAddress], or an address of another type. *)
Inductive Address := InetSocketAddress (ipv4 port tos : Z) | OtherAddress.

(** The tags that a socket adds to a packet for the application. *)
Inductive rx_tag :=
| Ipv4PacketInfoTag (address ttl device : Z)
| SocketIpTosTag (tos : Z)
| SocketIpTtlTag (ttl : Z).

(** A packet in the delivery queue, with its tags and the address and port it is from. *)
Record queued := mkQueued { q_packet : Packet; q_tags : list rx_tag; q_from : Z * Z }.

(** What sockets tell: the callbacks of [Socket] and the [Drop] trace. *)
Inductive udp_event :=
| NotifyConnectionSucceeded (socket : nat)
| NotifyConnectionFailed (socket : nat)
| NotifyDataSent (socket : nat) (size : Z)
| NotifySend (socket : nat) (spaceAvailable : Z)
| NotifyDataRecv (socket : nat)
| DropRx (socket : nat) (p : Packet)
| IcmpError (socket : nat) (source ttl type code info : Z).

Record UdpSocketImpl := mkSocket {
  m_endPoint : option nat;
  m_errno : option SocketErrno;    (* none: an indeterminate value *)
  m_shutdownSend : bool; m_shutdownRecv : bool;
  m_default : option (Z * Z);      (* m_defaultAddress and m_defaultPort, when m_connected *)
  m_rxAvailable : Z;
  m_deliveryQueue : list queued;
  m_allowBroadcast : bool;
  m_rcvBufSize : Z; m_ipMulticastTtl : Z; m_ipMulticastIf : Z; m_ipMulticastLoop : bool; m_mtuDiscover : bool;
  m_icmpCallbackSet : bool;
  s_boundnetdevice : option Z;
  m_recvPktInfo : bool; m_ipRecvTos : bool; m_ipRecvTtl : bool;
  m_priority : Z; m_ipTos : Z; m_ipTtl : option Z (* when m_manualIpTtl *) }.

Definition new_UdpSocketImpl : UdpSocketImpl :=
  mkSocket None (Some ERROR_NOTERROR) false false None 0 [] false 131072 0 (-1) false false false None
    false false false 0 0 None.

(** A socket with some of its fields replaced. *)
Section setters.
Variable s : UdpSocketImpl.
Definition set_endPoint (e : option nat) : UdpSocketImpl :=
  mkSocket e (m_errno s) (m_shutdownSend s) (m_shutdownRecv s) (m_default s) (m_rxAvailable s) (m_deliveryQueue s)
    (m_allowBroadcast s) (m_rcvBufSize s) (m_ipMulticastTtl s) (m_ipMulticastIf s) (m_ipMulticastLoop s)
    (m_mtuDiscover s) (m_icmpCallbackSet s) (s_boundnetdevice s) (m_recvPktInfo s) (m_ipRecvTos s) (m_ipRecvTtl s)
    (m_priority s) (m_ipTos s) (m_ipTtl s).
Definition set_errno (e : option SocketErrno) : UdpSocketImpl :=
  mkSocket (m_endPoint s) e (m_shutdownSend s) (m_shutdownRecv s) (m_default s) (m_rxAvailable s) (m_deliveryQueue s)
    (m_allowBroadcast s) (m_rcvBufSize s) (m_ipMulticastTtl s) (m_ipMulticastIf s) (m_ipMulticastLoop s)
    (m_mtuDiscover s) (m_icmpCallbackSet s) (s_boundnetdevice s) (m_recvPktInfo s) (m_ipRecvTos s) (m_ipRecvTtl s)
    (m_priority s) (m_ipTos s) (m_ipTtl s).
Definition set_shutdown (send recv : bool) : UdpSocketImpl :=
  mkSocket (m_endPoint s) (m_errno s) send recv (m_default s) (m_rxAvailable s) (m_deliveryQueue s)
    (m_allowBroadcast s) (m_rcvBufSize s) (m_ipMulticastTtl s) (m_ipMulticastIf s) (m_ipMulticastLoop s)
    (m_mtuDiscover s) (m_icmpCallbackSet s) (s_boundnetdevice s) (m_recvPktInfo s) (m_ipRecvTos s) (m_ipRecvTtl s)
    (m_priority s) (m_ipTos s) (m_ipTtl s).
Definition set_default (d : option (Z * Z)) : UdpSocketImpl :=
  mkSocket (m_endPoint s) (m_errno s) (m_shutdownSend s) (m_shutdownRecv s) d (m_rxAvailable s) (m_deliveryQueue s)
    (m_allowBroadcast s) (m_rcvBufSize s) (m_ipMulticastTtl s) (m_ipMulticastIf s) (m_ipMulticastLoop s)
    (m_mtuDiscover s) (m_icmpCallbackSet s) (s_boundnetdevice s) (m_recvPktInfo s) (m_ipRecvTos s) (m_ipRecvTtl s)
    (m_priority s) (m_ipTos s) (m_ipTtl s).
Definition set_rx (available : Z) (queue : list queued) : UdpSocketImpl :=
  mkSocket (m_endPoint s) (m_errno s) (m_shutdownSend s) (m_shutdownRecv s) (m_default s) available queue
    (m_allowBroadcast s) (m_rcvBufSize s) (m_ipMulticastTtl s) (m_ipMulticastIf s) (m_ipMulticastLoop s)
    (m_mtuDiscover s) (m_icmpCallbackSet s) (s_boundnetdevice s) (m_recvPktInfo s) (m_ipRecvTos s) (m_ipRecvTtl s)
    (m_priority s) (m_ipTos s) (m_ipTtl s).
Definition set_device (d : option Z) : UdpSocketImpl :=
  mkSocket (m_endPoint s) (m_errno s) (m_shutdownSend s) (m_shutdownRecv s) (m_default s) (m_rxAvailable s)
    (m_deliveryQueue s) (m_allowBroadcast s) (m_rcvBufSize s) (m_ipMulticastTtl s) (m_ipMulticastIf s)
    (m_ipMulticastLoop s) (m_mtuDiscover s) (m_icmpCallbackSet s) d (m_recvPktInfo s) (m_ipRecvTos s)
    (m_ipRecvTtl s) (m_priority s) (m_ipTos s) (m_ipTtl s).
Definition set_tos (tos priority : Z) : UdpSocketImpl :=
  mkSocket (m_endPoint s) (m_errno s) (m_shutdownSend s) (m_shutdownRecv s) (m_default s) (m_rxAvailable s)
    (m_deliveryQueue s) (m_allowBroadcast s) (m_rcvBufSize s) (m_ipMulticastTtl s) (m_ipMulticastIf s)
    (m_ipMulticastLoop s) (m_mtuDiscover s) (m_icmpCallbackSet s) (s_boundnetdevice s) (m_recvPktInfo s)
    (m_ipRecvTos s) (m_ipRecvTtl s) priority tos (m_ipTtl s).
(** The options of reception, and those of sending. *)
Definition set_rx_options (rcvBufSize : Z) (icmp pktInfo recvTos recvTtl : bool) : UdpSocketImpl :=
  mkSocket (m_endPoint s) (m_errno s) (m_shutdownSend s) (m_shutdownRecv s) (m_default s) (m_rxAvailable s)
    (m_deliveryQueue s) (m_allowBroadcast s) rcvBufSize (m_ipMulticastTtl s) (m_ipMulticastIf s)
    (m_ipMulticastLoop s) (m_mtuDiscover s) icmp (s_boundnetdevice s) pktInfo recvTos recvTtl (m_priority s)
    (m_ipTos s) (m_ipTtl s).
Definition set_tx_options (allowBroadcast : bool) (multicastTtl multicastIf : Z) (multicastLoop mtuDiscover : bool)
    (priority : Z) (ttl : option Z) : UdpSocketImpl :=
  mkSocket (m_endPoint s) (m_errno s) (m_shutdownSend s) (m_shutdownRecv s) (m_default s) (m_rxAvailable s)
    (m_deliveryQueue s) allowBroadcast (m_rcvBufSize s) multicastTtl multicastIf multicastLoop mtuDiscover
    (m_icmpCallbackSet s) (s_boundnetdevice s) (m_recvPktInfo s) (m_ipRecvTos s) (m_ipRecvTtl s) priority
    (m_ipTos s) ttl.
End setters.

(** ** The protocol *)

Record Udp := mkUdp { u_demux : Ipv4EndPointDemux; u_sockets : list UdpSocketImpl; u_log : list udp_event }.
Definition new_Udp : Udp := mkUdp new_Ipv4EndPointDemux [] [].

Abbreviation U := (st Udp).

Definition tell (e : udp_event) : U unit := update (fun u => mkUdp (u_demux u) (u_sockets u) (u_log u ++ [e])).
Definition set_demux (d : Ipv4EndPointDemux) : U unit := update (fun u => mkUdp d (u_sockets u) (u_log u)).

(** A socket, and an update of it. *)
Definition socket (s : nat) : U UdpSocketImpl := u ← gets id; lift (deref (u_sockets u !! s)).
Definition change (s : nat) (f : UdpSocketImpl -> UdpSocketImpl) : U unit :=
  k ← socket s; update (fun u => mkUdp (u_demux u) (<[s := f k]> (u_sockets u)) (u_log u)).
Definition fail (s : nat) (e : SocketErrno) : U Z := _ ← change s (fun k => set_errno k (Some e)); mret (-1).

(** A call through a pointer to an end point. *)
Definition on_endPoint (ptr : nat) (f : Ipv4EndPoint -> Ipv4EndPoint) : U unit :=
  d ← gets u_demux; _ ← lift (deref (at_ptr ptr d)); set_demux (update_ptr ptr f d).

Definition CreateSocket : U nat :=
  u ← gets id;
  _ ← update (fun u => mkUdp (u_demux u) (u_sockets u ++ [new_UdpSocketImpl]) (u_log u));
  mret (length (u_sockets u)).

(** The overloads of [Allocate]. *)
Definition demux {A} (f : Ipv4EndPointDemux -> res (A * Ipv4EndPointDemux)) : U A :=
  d ← gets u_demux; '(a, d') ← lift (f d); _ ← set_demux d'; mret a.

(** ** Binding *)

Definition FinishBind (s : nat) : U Z :=
  k ← socket s;
  match m_endPoint k with
  | None => mret (-1)
  | Some ptr =>
      _ ← on_endPoint ptr (SetRxCallback (Some s));
      _ ← on_endPoint ptr (SetIcmpCallback (Some s));
      _ ← on_endPoint ptr (SetDestroyCallback (Some s));
      mret 0
  end.

(** [m_endPoint->BindToNetDevice (m_boundnetdevice)] when the socket is bound. *)
Definition bind_device (s : nat) : U unit :=
  k ← socket s;
  match s_boundnetdevice k with
  | None => mret tt
  | Some dev => ptr ← lift (deref (m_endPoint k)); on_endPoint ptr (BindToNetDevice (Some dev))
  end.

(** [Bind (void)] *)
Definition Bind (s : nat) : U Z :=
  e ← demux Allocate;
  _ ← change s (fun k => set_endPoint k e);
  _ ← bind_device s;
  FinishBind s.

Definition GetSockName (s : nat) : U (Z * Z) :=
  k ← socket s;
  match m_endPoint k with
  | None => mret (0, 0)
  | Some ptr => d ← gets u_demux; e ← lift (deref (at_ptr ptr d)); mret (m_localAddr e, m_localPort e)
  end.

(** A datagram socket keeps all the bits of the type of service. *)
Definition SetIpTos (s : nat) (tos : Z) : U unit := _ ← GetSockName s; change s (fun k => set_tos k tos (IpTos2Priority tos)).

(** [Bind (address)] *)
Definition BindTo (s : nat) (address : Address) : U Z :=
  match address with
  | OtherAddress => fail s ERROR_INVAL
  | InetSocketAddress ipv4 port tos =>
      k ← socket s;
      _ ← lift (ns_assert (match m_endPoint k with None => true | Some _ => false end));
      _ ← SetIpTos s tos;
      e ← demux (fun d =>
        if (ipv4 =? Ipv4Address.GetAny) && (port =? 0) then Allocate d
        else if (ipv4 =? Ipv4Address.GetAny) && negb (port =? 0) then mret (Allocate_port (s_boundnetdevice k) port d)
        else if negb (ipv4 =? Ipv4Address.GetAny) && (port =? 0) then Allocate_address ipv4 d
        else mret (Allocate_local (s_boundnetdevice k) ipv4 port d));
      _ ← change s (fun k => set_endPoint k e);
      match e with
      | None => fail s (if port =? 0 then ERROR_ADDRNOTAVAIL else ERROR_ADDRINUSE)
      | Some _ => _ ← bind_device s; FinishBind s
      end
  end.

(** [deviceOnNode]: the loop of [Socket::BindToNetDevice] over the devices of the node. *)
Definition BindToNetDevice (deviceOnNode : Z -> bool) (s : nat) (netdevice : option Z) : U unit :=
  _ ← lift (ns_assert (match netdevice with None => true | Some d => deviceOnNode d end));
  _ ← change s (fun k => set_device k netdevice);
  k ← socket s;
  match m_endPoint k with None => mret tt | Some ptr => on_endPoint ptr (EndPoint.BindToNetDevice netdevice) end.

(** [Destroy]: what the end point calls when it is deleted. *)
Definition Destroy (s : nat) : U unit := change s (fun k => set_endPoint k None).
Definition DeAllocate (ptr : nat) : U unit :=
  callback ← demux (fun d => mret (EndPoint.DeAllocate ptr d));
  match callback with None => mret tt | Some s => Destroy s end.
Definition DeallocateEndPoint (s : nat) : U unit :=
  k ← socket s;
  match m_endPoint k with
  | None => mret tt
  | Some ptr =>
      _ ← on_endPoint ptr (SetDestroyCallback None);
      _ ← DeAllocate ptr;
      change s (fun k => set_endPoint k None)
  end.

(** ** The other calls of an application *)

Definition ShutdownSend (s : nat) : U Z := _ ← change s (fun k => set_shutdown k true (m_shutdownRecv k)); mret 0.
Definition ShutdownRecv (s : nat) : U Z :=
  _ ← change s (fun k => set_shutdown k (m_shutdownSend k) true);
  k ← socket s;
  _ ← match m_endPoint k with None => mret tt | Some ptr => on_endPoint ptr (SetRxEnabled false) end;
  mret 0.
Definition Close (s : nat) : U Z :=
  k ← socket s;
  if m_shutdownRecv k && m_shutdownSend k then fail s ERROR_BADF
  else _ ← change s (fun k => set_shutdown k true true); _ ← DeallocateEndPoint s; mret 0.
Definition Connect (s : nat) (address : Address) : U Z :=
  match address with
  | InetSocketAddress ipv4 port tos =>
      _ ← change s (fun k => set_default k (Some (ipv4, port)));
      _ ← SetIpTos s tos; _ ← tell (NotifyConnectionSucceeded s); mret 0
  | OtherAddress => _ ← tell (NotifyConnectionFailed s); mret (-1)
  end.
Definition Listen (s : nat) : U Z := fail s ERROR_OPNOTSUPP.
Definition GetTxAvailable : Z := 65507.
Definition GetRxAvailable (s : nat) : U Z := k ← socket s; mret (m_rxAvailable k).

Definition RecvFrom (s : nat) (maxSize : Z) : U (option queued) :=
  k ← socket s;
  match m_deliveryQueue k with
  | [] => _ ← fail s ERROR_AGAIN; mret None
  | q :: rest =>
      if GetSize (q_packet q) <=? maxSize then
        _ ← change s (fun k => set_rx k (u32 (m_rxAvailable k - GetSize (q_packet q))) rest); mret (Some q)
      else mret None
  end.
(** The return value and the address. *)
Definition GetPeerName (s : nat) : U (Z * option Address) :=
  k ← socket s;
  match m_default k with
  | None => r ← fail s ERROR_NOTCONN; mret (r, None)
  | Some (ipv4, port) => mret (0, Some (InetSocketAddress ipv4 port (m_ipTos k)))
  end.

(** ** Options *)

Definition SetRcvBufSize (s : nat) (size : Z) : U unit :=
  change s (fun k => set_rx_options k size (m_icmpCallbackSet k) (m_recvPktInfo k) (m_ipRecvTos k) (m_ipRecvTtl k)).
Definition SetIcmpCallback (s : nat) (set : bool) : U unit :=
  change s (fun k => set_rx_options k (m_rcvBufSize k) set (m_recvPktInfo k) (m_ipRecvTos k) (m_ipRecvTtl k)).
Definition SetRecvPktInfo (s : nat) (flag : bool) : U unit :=
  change s (fun k => set_rx_options k (m_rcvBufSize k) (m_icmpCallbackSet k) flag (m_ipRecvTos k) (m_ipRecvTtl k)).
Definition SetIpRecvTos (s : nat) (flag : bool) : U unit :=
  change s (fun k => set_rx_options k (m_rcvBufSize k) (m_icmpCallbackSet k) (m_recvPktInfo k) flag (m_ipRecvTtl k)).
Definition SetIpRecvTtl (s : nat) (flag : bool) : U unit :=
  change s (fun k => set_rx_options k (m_rcvBufSize k) (m_icmpCallbackSet k) (m_recvPktInfo k) (m_ipRecvTos k) flag).
Definition SetAllowBroadcast (s : nat) (allowBroadcast : bool) : U bool :=
  _ ← change s (fun k => set_tx_options k allowBroadcast (m_ipMulticastTtl k) (m_ipMulticastIf k)
    (m_ipMulticastLoop k) (m_mtuDiscover k) (m_priority k) (m_ipTtl k)); mret true.
Definition SetIpMulticastTtl (s : nat) (ttl : Z) : U unit :=
  change s (fun k => set_tx_options k (m_allowBroadcast k) ttl (m_ipMulticastIf k)
    (m_ipMulticastLoop k) (m_mtuDiscover k) (m_priority k) (m_ipTtl k)).
Definition SetIpMulticastIf (s : nat) (ipIf : Z) : U unit :=
  change s (fun k => set_tx_options k (m_allowBroadcast k) (m_ipMulticastTtl k) ipIf
    (m_ipMulticastLoop k) (m_mtuDiscover k) (m_priority k) (m_ipTtl k)).
Definition SetIpMulticastLoop (s : nat) (loop : bool) : U unit :=
  change s (fun k => set_tx_options k (m_allowBroadcast k) (m_ipMulticastTtl k) (m_ipMulticastIf k)
    loop (m_mtuDiscover k) (m_priority k) (m_ipTtl k)).
Definition SetMtuDiscover (s : nat) (discover : bool) : U unit :=
  change s (fun k => set_tx_options k (m_allowBroadcast k) (m_ipMulticastTtl k) (m_ipMulticastIf k)
    (m_ipMulticastLoop k) discover (m_priority k) (m_ipTtl k)).
Definition SetPriority (s : nat) (priority : Z) : U unit :=
  change s (fun k => set_tx_options k (m_allowBroadcast k) (m_ipMulticastTtl k) (m_ipMulticastIf k)
    (m_ipMulticastLoop k) (m_mtuDiscover k) priority (m_ipTtl k)).
Definition SetIpTtl (s : nat) (ttl : Z) : U unit :=
  change s (fun k => set_tx_options k (m_allowBroadcast k) (m_ipMulticastTtl k) (m_ipMulticastIf k)
    (m_ipMulticastLoop k) (m_mtuDiscover k) (m_priority k) (Some ttl)).

(** ** Reception *)

(** The tags that a socket asked for. *)
Definition rx_tags (k : UdpSocketImpl) (header : Ipv4Header) (incomingInterface : option Ipv4Interface) :
    res (list rx_tag) :=
  info ← (if m_recvPktInfo k then
            ifc ← deref incomingInterface; d ← deref (Ipv4Interface.GetDevice ifc);
            mret [Ipv4PacketInfoTag (Ipv4Header.GetDestination header) (Ipv4Header.GetTtl header) d]
          else mret []);
  mret (info ++ (if m_ipRecvTos k then [SocketIpTosTag (Ipv4Header.GetTos header)] else []) ++
                (if m_ipRecvTtl k then [SocketIpTtlTag (Ipv4Header.GetTtl header)] else [])).

Definition ForwardUp (s : nat) (packet : Packet) (header : Ipv4Header) (port : Z)
    (incomingInterface : option Ipv4Interface) : U unit :=
  k ← socket s;
  if m_shutdownRecv k then mret tt else
  tags ← lift (rx_tags k header incomingInterface);
  if u32 (m_rxAvailable k + GetSize packet) <=? m_rcvBufSize k then
    let q := mkQueued packet tags (Ipv4Header.GetSource header, port) in
    _ ← change s (fun k => set_rx k (u32 (m_rxAvailable k + GetSize packet)) (m_deliveryQueue k ++ [q]));
    tell (NotifyDataRecv s)
  else tell (DropRx s packet).

(** [Ipv4EndPoint::ForwardUp] *)
Definition endPoint_ForwardUp (packet : Packet) (header : Ipv4Header) (sport : Z)
    (incomingInterface : option Ipv4Interface) (ptr : nat) : U unit :=
  d ← gets u_demux;
  e ← lift (deref (at_ptr ptr d));
  match m_rxCallback e with None => mret tt | Some s => ForwardUp s packet header sport incomingInterface end.

(** The header that a datagram is read into. *)
Definition rx_header (checksum : bool) (source destination : Z) : UdpHeader :=
  InitializeChecksum source destination PROT_NUMBER
    (if checksum then EnableChecksums new_UdpHeader else new_UdpHeader).

(** [checksum]: [Node::ChecksumEnabled ()].  The node has no IPv6 stack. *)
Definition udp_Receive (checksum : bool) (packet : Packet) (header : Ipv4Header)
    (interface : option Ipv4Interface) : U RxStatus :=
  udpHeader ← lift (PeekUdpHeader (rx_header checksum (Ipv4Header.GetSource header) (Ipv4Header.GetDestination header)) packet);
  if negb (IsChecksumOk udpHeader) then mret RX_CSUM_FAILED else
  d ← gets u_demux;
  endPoints ← lift (Lookup (Ipv4Header.GetDestination header) (GetDestinationPort udpHeader)
                      (Ipv4Header.GetSource header) (GetSourcePort udpHeader) interface d);
  match endPoints with
  | [] => mret RX_ENDPOINT_UNREACH
  | _ =>
      '(udpHeader, packet) ← lift (RemoveUdpHeader udpHeader packet);
      _ ← each (endPoint_ForwardUp packet header (GetSourcePort udpHeader) interface) endPoints;
      mret RX_OK
  end.

(** [Ipv4EndPoint::ForwardIcmp] and [UdpSocketImpl::ForwardIcmp] *)
Definition endPoint_ForwardIcmp (source ttl type code info : Z) (ptr : nat) : U unit :=
  d ← gets u_demux;
  e ← lift (deref (at_ptr ptr d));
  match m_icmpCallback e with
  | None => mret tt
  | Some s =>
      k ← socket s;
      if m_icmpCallbackSet k then tell (IcmpError s source ttl type code info) else mret tt
  end.

(** [payload]: the first eight octets of the datagram that the error is about. *)
Definition udp_ReceiveIcmp (icmpSource icmpTtl icmpType icmpCode icmpInfo payloadSource payloadDestination : Z)
    (payload : bytes) : U unit :=
  '(src, rest) ← lift (ReadNtohU16 payload);
  '(dst, _) ← lift (ReadNtohU16 rest);
  d ← gets u_demux;
  match SimpleLookup payloadSource src payloadDestination dst d with
  | Some ptr => endPoint_ForwardIcmp icmpSource icmpTtl icmpType icmpCode icmpInfo ptr
  | None => mret tt
  end.

(** * UDP on a node: sending

    [UdpL4Protocol::Send] and the sends of [UdpSocketImpl], on the IPv4 stack
    whose transport state is [Udp].  An application hands over a fresh packet;
    of its tags only those that the IPv4 stack reads are kept. *)

(** The protocol as one that [Ipv4L3Protocol] holds, under the handle
    [PROT_NUMBER]. *)
#[export] Instance udp_l4 (checksum : bool) : IpL4Protocol Udp := {|
  l4_GetProtocolNumber protocol := protocol;
  l4_Receive protocol p h interface u :=
    if protocol =? PROT_NUMBER then udp_Receive checksum p h interface u else Err UndefinedBehaviour |}.

(** The header of a datagram to send. *)
Definition tx_header (checksum : bool) (saddr daddr sport dport : Z) : UdpHeader :=
  let udpHeader := if checksum
                   then InitializeChecksum saddr daddr PROT_NUMBER (EnableChecksums new_UdpHeader)
                   else new_UdpHeader in
  SetSourcePort sport (SetDestinationPort dport udpHeader).

Section send.
Context {RP : Type} `{RoutingProtocol RP} `{NetDevices}.
Context (at_ : attributes) (Hash32 : bytes -> Z) (now : Z).
#[local] Existing Instance udp_l4.
Notation M := (st (l3 RP Udp)).

(** An operation on the state of UDP. *)
Definition udp {A} (m : st Udp A) : M A :=
  l4 ← gets l3_l4; '(a, l4') ← lift (m l4); _ ← update (set_l4 l4'); mret a.

(** [UdpL4Protocol::Send], without and with a route *)
Definition udp_Send (packet : Packet) (ttl tos : option Z) (saddr daddr sport dport : Z) (route : option out_route) :
    M unit :=
  p ← lift (AddUdpHeader (tx_header (ChecksumEnabled at_) saddr daddr sport dport) packet);
  Send at_ Hash32 now (mkOutgoing (mkTagged p None) ttl tos) saddr daddr PROT_NUMBER route.

(** What [NotifyDataSent] and [NotifySend] tell. *)
Definition sent (s : nat) (p : Packet) : M unit := udp (tell (NotifyDataSent s (GetSize p))).
Definition available (s : nat) : M unit := udp (tell (NotifySend s GetTxAvailable)).

(** The end point of a bound socket. *)
Definition endPoint_of (s : nat) : M Ipv4EndPoint :=
  k ← udp (socket s); ptr ← lift (deref (m_endPoint k)); d ← udp (gets u_demux); lift (deref (at_ptr ptr d)).

(** The loop over the interfaces that sends a limited broadcast. *)
Definition broadcast_on (s : nat) (p : Packet) (ttl tos : option Z) (dest port : Z) (interface : Z) : M unit :=
  iaddr ← ask (GetAddress interface 0);
  let addri := m_local iaddr in
  if addri =? Ipv4Address.GetLoopback then mret tt else
  k ← udp (socket s);
  d ← (match s_boundnetdevice k with None => mret None | Some _ => ask (GetNetDevice interface) end);
  if match s_boundnetdevice k with None => false | Some dev => negb (device_eqb d (Some dev)) end then mret tt else
  e ← endPoint_of s;
  _ ← udp_Send p ttl tos addri dest (m_localPort e) port None;
  _ ← sent s p;
  available s.

(** The destination is not a broadcast address of the output interface. *)
Definition subnet_broadcast (route : Ipv4Route) (dest : Z) : M bool :=
  i ← ipv4;
  let outputIfIndex := GetInterfaceForDevice (rt_dev route) i in
  if outputIfIndex <? 0 then lift (Err UndefinedBehaviour)
  else ifc ← lift (deref (Ipv4Ifaces.GetInterface outputIfIndex i));
       mret (existsb (fun a => dest =? m_broadcast a) (m_ifaddrs ifc)).

(** The route that an unbound source needs. *)
Definition send_routed (s : nat) (p : Packet) (ttl tos : option Z) (dest port : Z) : M Z :=
  k ← udp (socket s);
  rp ← gets m_routingProtocol;
  match rp with
  | None => udp (fail s ERROR_NOROUTETOHOST)
  | Some r =>
      let header := Ipv4Header.SetProtocol PROT_NUMBER (Ipv4Header.SetDestination dest Ipv4Header.new_Ipv4Header) in
      i ← ipv4;
      '(route, errno_, r') ← lift (rp_RouteOutput i header (s_boundnetdevice k) r);
      _ ← update (set_routing (Some r'));
      match route with
      | None => _ ← udp (change s (fun k => set_errno k errno_)); mret (-1)
      | Some route =>
          b ← (if m_allowBroadcast k then mret false else subnet_broadcast route dest);
          if (b : bool) then udp (fail s ERROR_OPNOTSUPP) else
          e ← endPoint_of s;
          _ ← udp_Send p ttl tos (rt_source route) dest (m_localPort e) port (Some (route, true));
          _ ← sent s p;
          mret (GetSize p)
      end
  end.

(** The time to live of the [SocketIpTtlTag], if the socket adds one. *)
Definition ttl_tag (k : UdpSocketImpl) (dest : Z) : option Z :=
  if negb (m_ipMulticastTtl k =? 0) && Ipv4Address.IsMulticast dest then Some (m_ipMulticastTtl k)
  else match m_ipTtl k with
       | Some ttl =>
           if negb (ttl =? 0) && negb (Ipv4Address.IsMulticast dest) && negb (Ipv4Address.IsBroadcast dest)
           then Some ttl else None
       | None => None
       end.

(** Binds a socket that has no end point; whether it has one then. *)
Definition ensure_bound (s : nat) : M bool :=
  k ← udp (socket s);
  match m_endPoint k with
  | Some _ => mret true
  | None => r ← udp (Bind s); mret (negb (r =? -1))
  end.

Definition DoSendTo (s : nat) (p : Packet) (dest port tos : Z) : M Z :=
  bound ← ensure_bound s;
  if negb bound then mret (-1) else
  k ← udp (socket s);
  if m_shutdownSend k then udp (fail s ERROR_SHUTDOWN) else
  if GetTxAvailable <? GetSize p then udp (fail s ERROR_MSGSIZE) else
  let tos := if tos =? 0 then None else Some tos in
  let ttl := ttl_tag k dest in
  if Ipv4Address.IsBroadcast dest then
    if negb (m_allowBroadcast k) then udp (fail s ERROR_OPNOTSUPP)
    else
      i ← ipv4;
      _ ← each (broadcast_on s p ttl tos dest port) (Z.of_nat <$> seq 0 (length (m_interfaces i)));
      mret (GetSize p)
  else
  e ← endPoint_of s;
  if negb (m_localAddr e =? Ipv4Address.GetAny) then
    _ ← udp_Send p ttl tos (m_localAddr e) dest (m_localPort e) port None;
    _ ← sent s p;
    _ ← available s;
    mret (GetSize p)
  else send_routed s p ttl tos dest port.

Definition DoSend (s : nat) (p : Packet) (address port : Z) : M Z :=
  bound ← ensure_bound s;
  if negb bound then mret (-1) else
  k ← udp (socket s);
  if m_shutdownSend k then udp (fail s ERROR_SHUTDOWN) else DoSendTo s p address port (m_ipTos k).
Definition socket_Send (s : nat) (p : Packet) : M Z :=
  k ← udp (socket s);
  match m_default k with
  | None => udp (fail s ERROR_NOTCONN)
  | Some (address, port) => DoSend s p address port
  end.
Definition SendTo (s : nat) (p : Packet) (address : Address) : M Z :=
  match address with
  | InetSocketAddress ipv4 port tos => DoSendTo s p ipv4 port tos
  | OtherAddress => mret (-1)
  end.
End send.
