(* ===== verification/UdpSocketSpec.v ===== *)
(** * Well-formed UDP sockets

    Every call of an application, the sends included, and every datagram or
    ICMP error that comes in, leaves the sockets, the end points and the
    receive accounting of a node consistent; none dereferences a pointer to a
    deleted end point. *)

From S2P Require Import Prelude Bytes Packet UdpHeader Routing EndPoint EndPointSpec.
From S2P Require Import Ipv4Ifaces Ipv4L3Protocol UdpSocket.
From S2P Require L3Spec.
From S2P Require Ipv4Address Ipv4Header Ipv4Interface.
Import Ipv4Header (Ipv4Header).
Import Ipv4Interface (Ipv4Interface).

(** ** The invariant *)

(** The octets that wait in a delivery queue. *)
Definition queue_size (l : list queued) : Z := foldr (fun q n => GetSize (q_packet q) + n) 0 l.

Definition rx_ok (k : UdpSocketImpl) : Prop := m_rxAvailable k = u32 (queue_size (m_deliveryQueue k)).

(** An end point: not connected, its callbacks are those of existing sockets. *)
Record ep_ok (n : nat) (e : Ipv4EndPoint) : Prop := {
  eo_peer : m_peerAddr e = 0 /\ m_peerPort e = 0;
  eo_rx s : m_rxCallback e = Some s -> (s < n)%nat;
  eo_icmp s : m_icmpCallback e = Some s -> (s < n)%nat;
  eo_destroy s : m_destroyCallback e = Some s -> (s < n)%nat }.

Record demux_wf (d : Ipv4EndPointDemux) : Prop := {
  dw_ports : ports_wf d;
  dw_nodup : NoDup (m_endPoints d).*1;
  dw_fresh p e : (p, e) ∈ m_endPoints d -> (p < m_fresh d)%nat }.

(** The end point of a socket exists and calls this socket. *)
Definition linked (s : nat) (u : Udp) : Prop :=
  forall k ptr, u_sockets u !! s = Some k -> m_endPoint k = Some ptr ->
  exists e, at_ptr ptr (u_demux u) = Some e /\ m_rxCallback e = Some s /\ m_destroyCallback e = Some s.

(** All but the sockets of [X] are linked. *)
Record wf_but (X : nat -> Prop) (u : Udp) : Prop := {
  wb_demux : demux_wf (u_demux u);
  wb_ep p e : (p, e) ∈ m_endPoints (u_demux u) -> ep_ok (length (u_sockets u)) e;
  wb_rx s k : u_sockets u !! s = Some k -> rx_ok k;
  wb_linked s : ~ X s -> linked s u }.

Definition wf_udp : Udp -> Prop := wf_but (fun _ => False).

Lemma wf_udp_new : wf_udp new_Udp.
Proof.
  split; simpl.
  - split; [by split|constructor|]. intros p e Hin. by apply elem_of_nil in Hin.
  - intros p e Hin. by apply elem_of_nil in Hin.
  - intros s k [=].
  - intros s _ k ptr [=].
Qed.

Lemma wf_but_weaken (X Y : nat -> Prop) u : (forall s, X s -> Y s) -> wf_but X u -> wf_but Y u.
Proof. intros HXY [? ? ? Hl]. split; try done. intros s Hs. apply Hl. naive_solver. Qed.

Lemma wf_but_linked X s u : wf_but X u -> (forall s', X s' -> s' = s) -> linked s u -> wf_udp u.
Proof.
  intros [? ? ? Hl] HX Hs. split; try done. intros s' _. destruct (decide (s' = s)) as [-> | Hne]; [done|].
  apply Hl. naive_solver.
Qed.

(** ** Pointers *)

Lemma at_ptr_elem d p e : NoDup (m_endPoints d).*1 -> at_ptr p d = Some e <-> (p, e) ∈ m_endPoints d.
Proof.
  unfold at_ptr. induction (m_endPoints d) as [|[q e'] l IH]; simpl; intros Hnd.
  - split; [done|]. by intros ?%elem_of_nil.
  - apply NoDup_cons in Hnd as [Hni Hnd]. rewrite elem_of_cons. destruct (Nat.eqb_spec q p) as [-> | Hne].
    + split; [intros [= ->]; by left|]. intros [[= ->]|Hin]; [done|]. exfalso. apply Hni.
      apply list_elem_of_fmap. by exists (p, e).
    + rewrite IH by done. split; [by right|]. intros [[= ? ?]|?]; congruence.
Qed.

Lemma update_ptr_fst p f d : (m_endPoints (update_ptr p f d)).*1 = (m_endPoints d).*1.
Proof.
  unfold update_ptr. cbn [m_endPoints set_endPoints]. induction (m_endPoints d) as [|x l IH]; [done|].
  cbn [map]. rewrite !fmap_cons, IH. f_equal. by destruct (Nat.eqb _ _).
Qed.

Lemma update_ptr_elem p f d q e : (q, e) ∈ m_endPoints (update_ptr p f d) ->
  (q <> p /\ (q, e) ∈ m_endPoints d) \/ (q = p /\ exists e0, (q, e0) ∈ m_endPoints d /\ e = f e0).
Proof.
  unfold update_ptr. simpl. rewrite list_elem_of_fmap. intros ([q' e'] & E & Hin). simpl in E.
  destruct (Nat.eqb_spec q' p); injection E as -> ->; [right|left]; eauto.
Qed.

Lemma at_ptr_update p f d q :
  at_ptr q (update_ptr p f d) = if decide (q = p) then f <$> at_ptr q d else at_ptr q d.
Proof.
  unfold at_ptr, update_ptr. cbn [m_endPoints set_endPoints].
  induction (m_endPoints d) as [|[q' e'] l IH]; simpl; [by case_decide|].
  destruct (Nat.eqb q' p) eqn:Ep; simpl; destruct (Nat.eqb q' q) eqn:Eq; [|exact IH| |exact IH];
    apply Nat.eqb_eq in Eq as ->.
  - apply Nat.eqb_eq in Ep as ->. by rewrite decide_True.
  - apply Nat.eqb_neq in Ep. by rewrite decide_False.
Qed.

Lemma demux_wf_update p f d : demux_wf d -> demux_wf (update_ptr p f d).
Proof.
  intros [Hp Hn Hf]. split; [by destruct Hp|by rewrite update_ptr_fst|].
  intros q e [[_ Hin]|[-> (e0 & Hin & _)]]%update_ptr_elem; exact (Hf _ _ Hin).
Qed.

(** ** Computations that return *)

Definition returns {A} (m : U A) (u : Udp) (Q : A -> Udp -> Prop) : Prop :=
  exists a u', m u = Ok (a, u') /\ Q a u'.

Lemma returns_bind {A B} (m : U A) (k : A -> U B) u Q :
  returns m u (fun a u' => returns (k a) u' Q) -> returns (m ≫= k) u Q.
Proof.
  intros (a & u1 & E1 & b & u2 & E2 & HQ). exists b, u2. split; [|done]. by rewrite (run_bind _ _ _ _ _ E1).
Qed.
Lemma returns_ret {A} (a : A) u (Q : A -> Udp -> Prop) : Q a u -> returns (mret a : U A) u Q.
Proof. intros HQ. by exists a, u. Qed.
Lemma returns_lift {A} (r : res A) a u (Q : A -> Udp -> Prop) : r = Ok a -> Q a u -> returns (lift r : U A) u Q.
Proof. intros -> HQ. by exists a, u. Qed.
Lemma returns_weaken {A} (m : U A) u (Q R : A -> Udp -> Prop) :
  returns m u Q -> (forall a u', Q a u' -> R a u') -> returns m u R.
Proof. intros (a & u' & E & HQ) HR. exists a, u'. auto. Qed.

Lemma returns_socket s k u Q : u_sockets u !! s = Some k -> Q k u -> returns (socket s) u Q.
Proof. intros E HQ. exists k, u. split; [|done]. unfold socket. rewrite run_gets. simpl. by rewrite E. Qed.

Definition with_socket (s : nat) (k : UdpSocketImpl) (u : Udp) : Udp :=
  mkUdp (u_demux u) (<[s := k]> (u_sockets u)) (u_log u).
Lemma returns_change s f k u Q :
  u_sockets u !! s = Some k -> Q tt (with_socket s (f k) u) -> returns (change s f) u Q.
Proof.
  intros E HQ. unfold change. apply returns_bind. eapply returns_socket; [done|]. by exists tt, (with_socket s (f k) u).
Qed.

Definition with_demux (d : Ipv4EndPointDemux) (u : Udp) : Udp := mkUdp d (u_sockets u) (u_log u).
Lemma returns_on_endPoint ptr f e u Q :
  at_ptr ptr (u_demux u) = Some e -> Q tt (with_demux (update_ptr ptr f (u_demux u)) u) ->
  returns (on_endPoint ptr f) u Q.
Proof.
  intros E HQ. unfold on_endPoint. exists tt, (with_demux (update_ptr ptr f (u_demux u)) u). split; [|done].
  rewrite run_gets, E. done.
Qed.
Lemma returns_demux {A} (f : Ipv4EndPointDemux -> res (A * Ipv4EndPointDemux)) a d u (Q : A -> Udp -> Prop) :
  f (u_demux u) = Ok (a, d) -> Q a (with_demux d u) -> returns (demux f) u Q.
Proof. intros E HQ. exists a, (with_demux d u). split; [|done]. unfold demux. by rewrite run_gets, E. Qed.
Lemma returns_tell e u (Q : unit -> Udp -> Prop) :
  Q tt (mkUdp (u_demux u) (u_sockets u) (u_log u ++ [e])) -> returns (tell e) u Q.
Proof. intros HQ. by eexists tt, _. Qed.

(** ** What the steps keep *)

Lemma wf_log X u e : wf_but X u -> wf_but X (mkUdp (u_demux u) (u_sockets u) (u_log u ++ [e])).
Proof. intros [? ? ? ?]. by split. Qed.

Lemma ep_ok_mono n m e : (n <= m)%nat -> ep_ok n e -> ep_ok m e.
Proof. intros Hle [Hp H1 H2 H3]. split; [done|..]; intros s Hs; [apply H1 in Hs|apply H2 in Hs|apply H3 in Hs]; lia. Qed.

(** A socket changes; if its end point does, it is one of [X]. *)
Lemma wf_with_socket X s k k' u : wf_but X u -> u_sockets u !! s = Some k -> rx_ok k' ->
  m_endPoint k' = m_endPoint k \/ X s \/ m_endPoint k' = None -> wf_but X (with_socket s k' u).
Proof.
  intros [Hd He Hr Hl] Hs Hk' Hep. split; simpl.
  - done.
  - intros p e Hin. rewrite length_insert. by eapply He.
  - intros s' k1 [[<- [<- _]]|[_ H1]]%list_lookup_insert_Some; [done|by eapply Hr].
  - intros s' HX k1 ptr [[<- [<- _]]|[_ H1]]%list_lookup_insert_Some Hptr; simpl; [|by eapply Hl].
    destruct Hep as [Hep|[?|Hep]]; [|done|congruence]. rewrite Hep in Hptr. by eapply Hl.
Qed.

(** An end point changes, but not the callbacks of a linked socket. *)
Lemma wf_with_update X ptr f u : wf_but X u ->
  (forall e, (ptr, e) ∈ m_endPoints (u_demux u) -> ep_ok (length (u_sockets u)) e -> ep_ok (length (u_sockets u)) (f e)) ->
  (forall s k e, ~ X s -> u_sockets u !! s = Some k -> m_endPoint k = Some ptr -> m_rxCallback e = Some s ->
     m_destroyCallback e = Some s -> m_rxCallback (f e) = Some s /\ m_destroyCallback (f e) = Some s) ->
  wf_but X (with_demux (update_ptr ptr f (u_demux u)) u).
Proof.
  intros [Hd He Hr Hl] Hok Hcb. split; simpl.
  - by apply demux_wf_update.
  - intros q e [[_ Hin]|[-> (e0 & Hin & ->)]]%update_ptr_elem; [by eapply He|]. apply Hok; [done|by eapply He].
  - done.
  - intros s HX k q Hs Hq. destruct (Hl s HX k q Hs Hq) as (e & Ee & H1 & H2). simpl. rewrite at_ptr_update.
    case_decide as Hqp; [subst q|by eauto]. rewrite Ee. simpl. eexists. split; [done|]. by eapply Hcb.
Qed.

(** ** Allocation *)

(** What an [Allocate] that returns [r] does. *)
Definition allocated (d : Ipv4EndPointDemux) (r : option nat) (d' : Ipv4EndPointDemux) : Prop :=
  ports_wf d' /\
  match r with
  | None => m_endPoints d' = m_endPoints d /\ m_fresh d' = m_fresh d
  | Some ptr => ptr = m_fresh d /\ m_fresh d' = S ptr /\
                exists a port, m_endPoints d' = m_endPoints d ++ [(ptr, new_Ipv4EndPoint a port)]
  end.

Lemma allocated_wf d r d' : demux_wf d -> allocated d r d' -> demux_wf d'.
Proof.
  intros [Hp Hn Hf] [Hp' Hr]. destruct r as [ptr|].
  - destruct Hr as (-> & Hfr & a & port & E). split; [done|..]; rewrite E.
    + rewrite fmap_app. apply NoDup_app. split; [done|]. split; [|apply NoDup_singleton].
      intros q Hq ->%list_elem_of_singleton. apply list_elem_of_fmap in Hq as ([q e] & Eq & Hin).
      apply Hf in Hin. simpl in *. lia.
    + intros q e [Hin|[= -> _]%list_elem_of_singleton]%elem_of_app; [apply Hf in Hin|]; lia.
  - destruct Hr as [E Hfr]. split; [done|by rewrite E|]. rewrite E, Hfr. done.
Qed.

Lemma push_back_allocated a port d : ports_wf d ->
  allocated d (Some (push_back (new_Ipv4EndPoint a port) d).1) (push_back (new_Ipv4EndPoint a port) d).2.
Proof. intros [? ? ?]. split; [by split|]. simpl. split; [done|]. split; [done|]. by exists a, port. Qed.

Lemma Allocate_address_allocated a d : ports_wf d ->
  exists r d', Allocate_address a d = Ok (r, d') /\ allocated d r d' /\
    (r = None -> forall p, 49152 <= p <= 65535 -> port_used p d).
Proof.
  intros Hp. unfold Allocate_address. destruct (AllocateEphemeralPort_ok d Hp) as (port & d1 & -> & Hp1 & Ee & Ef & Hc).
  cbn [mbind res_bind]. destruct Hc as [(-> & -> & Hall)|(Hpr & _ & _)].
  - exists None, d. done.
  - replace (port =? 0) with false by (symmetry; apply Z.eqb_neq; lia). do 2 eexists. split; [reflexivity|].
    destruct (push_back_allocated a port d1 Hp1) as [Hp2 H2]. simpl in *. split; [|done]. split; [done|].
    by rewrite <- Ef, <- Ee.
Qed.

Lemma Allocate_local_allocated dev a port d : ports_wf d ->
  allocated d (Allocate_local dev a port d).1 (Allocate_local dev a port d).2.
Proof.
  intros Hp. unfold Allocate_local. destruct (_ || _); [done|]. by apply push_back_allocated.
Qed.

Lemma wf_allocated X u r d' : wf_but X u -> allocated (u_demux u) r d' -> wf_but X (with_demux d' u).
Proof.
  intros [Hd He Hr Hl] Ha. pose proof (allocated_wf _ _ _ Hd Ha) as Hd'. destruct Ha as [_ Ha].
  assert (forall p e, (p, e) ∈ m_endPoints (u_demux u) -> (p, e) ∈ m_endPoints d') as Hmono.
  { intros p e Hin. destruct r as [ptr|]; [|by destruct Ha as [-> _]].
    destruct Ha as (_ & _ & a & port & ->). apply elem_of_app. by left. }
  split; simpl; [done| |done|].
  - intros p e Hin. destruct r as [ptr|]; [|destruct Ha as [E _]; rewrite E in Hin; by eapply He].
    destruct Ha as (_ & _ & a & port & E). rewrite E in Hin.
    apply elem_of_app in Hin as [Hin|[= -> ->]%list_elem_of_singleton]; [by eapply He|]. by split.
  - intros s HX k ptr Hs Hptr. destruct (Hl s HX k ptr Hs Hptr) as (e & Ee & Hcb). exists e. split; [|done]. simpl.
    apply at_ptr_elem; [by destruct Hd'|]. apply Hmono. apply at_ptr_elem; [by destruct Hd|done].
Qed.

(** The end points of linked sockets are not new. *)
Lemma linked_not_fresh X u s k ptr : wf_but X u -> ~ X s -> u_sockets u !! s = Some k -> m_endPoint k = Some ptr ->
  (ptr < m_fresh (u_demux u))%nat.
Proof.
  intros [Hd _ _ Hl] HX Hs Hp. destruct (Hl s HX k ptr Hs Hp) as (e & Ee & _).
  apply at_ptr_elem in Ee; [by eapply (dw_fresh _ Hd)|by destruct Hd].
Qed.

(** Only this socket has the end point. *)
Definition sole (s ptr : nat) (u : Udp) : Prop :=
  forall s' k, s' <> s -> u_sockets u !! s' = Some k -> m_endPoint k <> Some ptr.

Lemma linked_sole u s k ptr : wf_udp u -> u_sockets u !! s = Some k -> m_endPoint k = Some ptr -> sole s ptr u.
Proof.
  intros [_ _ _ Hl] Hs Hp s' k' Hne Hs' Hp'. destruct (Hl s id k ptr Hs Hp) as (e & Ee & H1 & _).
  destruct (Hl s' id k' ptr Hs' Hp') as (e' & Ee' & H2 & _). congruence.
Qed.

(** ** Binding *)

(** An update of the end point of the only socket that is not linked. *)
Lemma wf_update_sole s ptr f u : wf_but (eq s) u -> sole s ptr u ->
  (forall e, ep_ok (length (u_sockets u)) e -> ep_ok (length (u_sockets u)) (f e)) ->
  wf_but (eq s) (with_demux (update_ptr ptr f (u_demux u)) u).
Proof.
  intros Hwf Hsole Hf. apply wf_with_update; [done|by auto|]. intros s' k e Hne Hs' Hp. exfalso.
  by apply (Hsole s' k); [congruence|..].
Qed.

Lemma ep_ok_callbacks n s e : (s < n)%nat -> ep_ok n e ->
  ep_ok n (SetRxCallback (Some s) e) /\ ep_ok n (EndPoint.SetIcmpCallback (Some s) e) /\
  ep_ok n (SetDestroyCallback (Some s) e).
Proof. intros Hs [? ? ? ?]. split_and!; split; simpl; try done; intros ? [= <-]; done. Qed.

Lemma at_ptr_updated ptr f d e : at_ptr ptr d = Some e -> at_ptr ptr (update_ptr ptr f d) = Some (f e).
Proof. intros E. by rewrite at_ptr_update, decide_True, E. Qed.

Lemma FinishBind_spec s k u : wf_but (eq s) u -> u_sockets u !! s = Some k ->
  (forall ptr, m_endPoint k = Some ptr -> sole s ptr u /\ exists e, at_ptr ptr (u_demux u) = Some e) ->
  returns (FinishBind s) u (fun r u' => wf_udp u' /\ u_sockets u' = u_sockets u /\
    r = match m_endPoint k with None => -1 | Some _ => 0 end).
Proof.
  intros Hwf Hs Hptr. apply returns_bind. eapply returns_socket; [done|]. destruct (m_endPoint k) as [ptr|] eqn:Ep.
  2:{ apply returns_ret. split; [|done]. apply (wf_but_linked (eq s) s); [done|done|]. intros k' p Hs' Hp. simplify_eq. }
  destruct (Hptr ptr eq_refl) as [Hsole [e Ee]].
  pose proof (lookup_lt_Some _ _ _ Hs) as Hlen.
  apply returns_bind. eapply returns_on_endPoint; [done|].
  pose proof (wf_update_sole s ptr (SetRxCallback (Some s)) u Hwf Hsole
    ltac:(intros; by apply ep_ok_callbacks)) as H1. apply (at_ptr_updated _ (SetRxCallback (Some s))) in Ee.
  apply returns_bind. eapply returns_on_endPoint; [done|].
  pose proof (wf_update_sole s ptr (EndPoint.SetIcmpCallback (Some s)) _ H1 Hsole
    ltac:(intros; by apply ep_ok_callbacks)) as H2. apply (at_ptr_updated _ (EndPoint.SetIcmpCallback (Some s))) in Ee.
  apply returns_bind. eapply returns_on_endPoint; [done|].
  pose proof (wf_update_sole s ptr (SetDestroyCallback (Some s)) _ H2 Hsole
    ltac:(intros; by apply ep_ok_callbacks)) as H3. apply (at_ptr_updated _ (SetDestroyCallback (Some s))) in Ee.
  apply returns_ret. split; [|done]. apply (wf_but_linked (eq s) s); [exact H3|done|].
  intros k' p Hs' Hp. simpl in Hs'. simplify_eq. eexists. split; [exact Ee|done].
Qed.

(** Binding to the device of the socket, when it has one. *)
Lemma bind_device_spec s k u (X : nat -> Prop) : wf_but X u -> u_sockets u !! s = Some k ->
  (forall ptr, m_endPoint k = Some ptr -> exists e, at_ptr ptr (u_demux u) = Some e) ->
  (s_boundnetdevice k <> None -> m_endPoint k <> None) ->
  returns (bind_device s) u (fun _ u' => wf_but X u' /\ u_sockets u' = u_sockets u /\
    forall ptr e, at_ptr ptr (u_demux u) = Some e -> exists e', at_ptr ptr (u_demux u') = Some e').
Proof.
  intros Hwf Hs Hptr Hdev. apply returns_bind. eapply returns_socket; [done|].
  destruct (s_boundnetdevice k) as [dev|]; [|apply returns_ret; by eauto].
  destruct (m_endPoint k) as [ptr|]; [|by destruct Hdev].
  destruct (Hptr ptr eq_refl) as [e Ee]. apply returns_bind. eapply returns_lift; [done|].
  eapply returns_on_endPoint; [done|]. split; [|split; [done|]].
  - apply wf_with_update; [done|intros ? _ [? ? ? ?]; by split|done].
  - intros q e' Hq. simpl. rewrite at_ptr_update. case_decide; [rewrite Hq; by eexists|by eexists].
Qed.

(** A socket takes a new end point, or none. *)
Lemma take_endPoint s k u r d' : wf_udp u -> u_sockets u !! s = Some k -> allocated (u_demux u) r d' ->
  let u' := with_socket s (set_endPoint k r) (with_demux d' u) in
  wf_but (eq s) u' /\ u_sockets u' !! s = Some (set_endPoint k r) /\
  forall ptr, r = Some ptr -> sole s ptr u' /\ exists e, at_ptr ptr (u_demux u') = Some e.
Proof.
  intros Hwf Hs Ha u'. pose proof (lookup_lt_Some _ _ _ Hs) as Hlen.
  pose proof (wf_allocated _ _ _ _ Hwf Ha) as H1. split.
  - apply (wf_with_socket _ s k); [|done| |by auto].
    + eapply wf_but_weaken; [|exact H1]. done.
    + destruct H1 as [_ _ Hr _]. by apply Hr in Hs.
  - split; [simpl; by rewrite list_lookup_insert_eq|]. intros ptr ->.
    pose proof (allocated_wf _ _ _ (wb_demux _ _ Hwf) Ha) as Hd'. destruct Ha as (_ & -> & _ & a & port & E). split.
    + intros s' k' Hne Hs' Hp. simpl in Hs'. rewrite list_lookup_insert_ne in Hs' by done.
      pose proof (linked_not_fresh _ _ _ _ _ Hwf id Hs' Hp). lia.
    + exists (new_Ipv4EndPoint a port). apply at_ptr_elem; [by destruct Hd'|]. simpl. rewrite E.
      apply elem_of_app. right. by apply list_elem_of_singleton.
Qed.

Lemma bind_rest s k u : wf_but (eq s) u -> u_sockets u !! s = Some k ->
  (forall ptr, m_endPoint k = Some ptr -> sole s ptr u /\ exists e, at_ptr ptr (u_demux u) = Some e) ->
  (s_boundnetdevice k <> None -> m_endPoint k <> None) ->
  returns (_ ← bind_device s; FinishBind s) u (fun r u' => wf_udp u' /\ u_sockets u' = u_sockets u /\
    r = match m_endPoint k with None => -1 | Some _ => 0 end).
Proof.
  intros Hwf Hs Hptr Hdev. apply returns_bind.
  eapply returns_weaken; [apply (bind_device_spec s k u (eq s)); [done|done|by intros; apply Hptr|done]|].
  intros _ u1 (H1 & Es & Hat). simpl. rewrite <- Es in *.
  eapply returns_weaken; [apply (FinishBind_spec s k u1 H1); [done|]|naive_solver].
  intros ptr Hp. destruct (Hptr ptr Hp) as [Hsole [e Ee]]. split; [|by eapply Hat].
  unfold sole in *. by rewrite Es.
Qed.

(** A port of the ephemeral range that no end point has. *)
Definition port_free (u : Udp) : Prop :=
  exists p, 49152 <= p <= 65535 /\ ~ port_used p (u_demux u).

(** [Bind (void)]: 0, or -1 when no port is free, which a socket that is bound
    to a device does not survive. *)
Lemma Bind_spec s k u : wf_udp u -> u_sockets u !! s = Some k -> (s_boundnetdevice k <> None -> port_free u) ->
  returns (Bind s) u (fun r u' => wf_udp u' /\ exists e, u_sockets u' = <[s := set_endPoint k e]> (u_sockets u) /\
    r = match e with None => -1 | Some _ => 0 end).
Proof.
  intros Hwf Hs Hdev. pose proof (lookup_lt_Some _ _ _ Hs) as Hlen. unfold Bind.
  destruct (Allocate_address_allocated Ipv4Address.GetAny (u_demux u)) as (r & d' & Ea & Ha & Hnone); [apply Hwf|].
  apply returns_bind. eapply returns_demux; [exact Ea|]. apply returns_bind. eapply returns_change; [exact Hs|].
  destruct (take_endPoint s k u r d' Hwf Hs Ha) as (H1 & Hs1 & Hptr).
  eapply returns_weaken; [apply (bind_rest s (set_endPoint k r)); [exact H1|exact Hs1|exact Hptr|]|].
  - simpl. intros Hb ->. destruct (Hdev Hb) as (p & Hp & Hfree). by apply Hfree, Hnone.
  - intros x u' (Hw & Es & ->). split; [done|]. exists r. by rewrite Es.
Qed.

Lemma wf_set X s k f u : wf_but X u -> u_sockets u !! s = Some k ->
  (rx_ok k -> rx_ok (f k)) -> m_endPoint (f k) = m_endPoint k -> wf_but X (with_socket s (f k) u).
Proof. intros Hwf Hs Hf He. apply (wf_with_socket _ s k); [done|done| |by left]. apply Hf. by eapply wb_rx. Qed.

(** [change] of what is neither the end point nor the queue. *)
Lemma change_spec s f k u : wf_udp u -> u_sockets u !! s = Some k -> (rx_ok k -> rx_ok (f k)) ->
  m_endPoint (f k) = m_endPoint k ->
  returns (change s f) u (fun _ u' => wf_udp u' /\ u' = with_socket s (f k) u).
Proof. intros Hwf Hs Hf He. eapply returns_change; [exact Hs|]. split; [by apply wf_set|done]. Qed.

Lemma fail_spec s e k u : wf_udp u -> u_sockets u !! s = Some k ->
  returns (fail s e) u (fun r u' => wf_udp u' /\ r = -1).
Proof.
  intros Hwf Hs. apply returns_bind. eapply returns_weaken; [by apply (change_spec s _ k)|].
  intros _ u' [Hw _]. by apply returns_ret.
Qed.

Lemma GetSockName_spec s k u : wf_udp u -> u_sockets u !! s = Some k -> returns (GetSockName s) u (fun _ u' => u' = u).
Proof.
  intros Hwf Hs. apply returns_bind. eapply returns_socket; [done|]. destruct (m_endPoint k) as [ptr|] eqn:Ep.
  - destruct (wb_linked _ _ Hwf s id k ptr Hs Ep) as (e & Ee & _). apply returns_bind. eexists _, _. split; [done|].
    apply returns_bind. eapply returns_lift; [by rewrite Ee|]. by apply returns_ret.
  - by apply returns_ret.
Qed.

Lemma SetIpTos_spec s tos k u : wf_udp u -> u_sockets u !! s = Some k ->
  returns (SetIpTos s tos) u (fun _ u' => wf_udp u' /\ u' = with_socket s (set_tos k tos (IpTos2Priority tos)) u).
Proof.
  intros Hwf Hs. apply returns_bind. eapply returns_weaken; [by apply (GetSockName_spec s k)|].
  intros _ u' ->. by apply (change_spec s (fun k => set_tos k tos (IpTos2Priority tos)) k).
Qed.

Lemma BindTo_spec s address k u : wf_udp u -> u_sockets u !! s = Some k -> m_endPoint k = None ->
  returns (BindTo s address) u (fun r u' => wf_udp u' /\ (r = 0 \/ r = -1)).
Proof.
  intros Hwf Hs Hep. destruct address as [ipv4 port tos|].
  2:{ eapply returns_weaken; [by apply (fail_spec s _ k)|]. naive_solver. }
  apply returns_bind. eapply returns_socket; [exact Hs|]. rewrite Hep.
  apply returns_bind. eapply returns_lift; [done|].
  apply returns_bind. eapply returns_weaken; [by apply (SetIpTos_spec s tos k)|]. intros _ u1 [Hwf1 Eu1].
  pose proof (lookup_lt_Some _ _ _ Hs) as Hlen.
  assert (u_sockets u1 !! s = Some (set_tos k tos (IpTos2Priority tos))) as Hs1
    by (rewrite Eu1; simpl; by rewrite list_lookup_insert_eq).
  assert (ports_wf (u_demux u1)) as Hp by apply Hwf1.
  set (f := fun d : Ipv4EndPointDemux => if _ : bool then _ else _).
  assert (exists r d', f (u_demux u1) = Ok (r, d') /\ allocated (u_demux u1) r d') as (r & d' & Ef & Ha).
  { unfold f. destruct (_ && _); [|destruct (_ && _); [|destruct (_ && _)]].
    - destruct (Allocate_address_allocated Ipv4Address.GetAny (u_demux u1) Hp) as (r & d' & E & Ha & _); eauto.
    - do 2 eexists. split; [apply (f_equal Ok), surjective_pairing|]. by apply Allocate_local_allocated.
    - destruct (Allocate_address_allocated ipv4 (u_demux u1) Hp) as (r & d' & E & Ha & _); eauto.
    - do 2 eexists. split; [apply (f_equal Ok), surjective_pairing|]. by apply Allocate_local_allocated. }
  apply returns_bind. eapply returns_demux; [exact Ef|]. apply returns_bind. eapply returns_change; [exact Hs1|].
  destruct (take_endPoint s _ u1 r d' Hwf1 Hs1 Ha) as (H2 & Hs2 & Hptr). destruct r as [ptr|].
  - eapply returns_weaken; [apply (bind_rest s _ _ H2 Hs2 Hptr); done|]. intros x u' (Hw & _ & ->). by split; [|left].
  - eapply returns_weaken; [eapply (fail_spec s); [|exact Hs2]|naive_solver].
    apply (wf_but_linked (eq s) s); [exact H2|done|]. intros k' p Hk' Hp'. rewrite Hs2 in Hk'. by injection Hk' as <-.
Qed.

(** ** The other calls *)

Lemma BindToNetDevice_spec onNode s dev k u : wf_udp u -> u_sockets u !! s = Some k ->
  match dev with None => true | Some d => onNode d end = true ->
  returns (BindToNetDevice onNode s dev) u (fun _ u' => wf_udp u').
Proof.
  intros Hwf Hs Hn. apply returns_bind. eapply returns_lift; [by rewrite Hn|].
  apply returns_bind. eapply returns_weaken; [by apply (change_spec s (fun k => set_device k dev) k)|].
  intros _ u1 [Hw ->]. pose proof (lookup_lt_Some _ _ _ Hs) as Hlen.
  assert (u_sockets (with_socket s (set_device k dev) u) !! s = Some (set_device k dev)) as Hs1
    by (simpl; by rewrite list_lookup_insert_eq).
  apply returns_bind. eapply returns_socket; [exact Hs1|]. simpl.
  destruct (m_endPoint k) as [ptr|] eqn:Ep; [|by apply returns_ret].
  destruct (wb_linked _ _ Hw s id _ ptr Hs1 Ep) as (e & Ee & _).
  eapply returns_on_endPoint; [exact Ee|]. apply wf_with_update; [done|intros ? _ [? ? ? ?]; by split|done].
Qed.

Lemma erase_elem ptr l x : x ∈ erase ptr l -> x ∈ l.
Proof.
  induction l as [|y l IH]; simpl; [done|]. destruct (Nat.eqb _ _); [by right|].
  intros [->|Hx]%elem_of_cons; [by left|right; by apply IH].
Qed.
Lemma erase_other ptr l x : x ∈ l -> x.1 <> ptr -> x ∈ erase ptr l.
Proof.
  induction l as [|y l IH]; simpl; [done|]. intros [->|Hx]%elem_of_cons Hne.
  - destruct (Nat.eqb_spec y.1 ptr); [done|by left].
  - destruct (Nat.eqb _ _); [done|]. right. by apply IH.
Qed.
Lemma erase_fst ptr l : (erase ptr l).*1 `sublist_of` l.*1.
Proof.
  induction l as [|y l IH]; simpl; [constructor|]. destruct (Nat.eqb _ _); [by apply sublist_cons|].
  by apply sublist_skip.
Qed.

(** Deleting the end point of the one socket that is not linked. *)
Lemma wf_erase s ptr u : wf_but (eq s) u -> sole s ptr u ->
  wf_but (eq s) (with_demux (set_endPoints (erase ptr (m_endPoints (u_demux u))) (u_demux u)) u).
Proof.
  intros [[Hp Hn Hf] He Hr Hl] Hsole.
  assert (demux_wf (set_endPoints (erase ptr (m_endPoints (u_demux u))) (u_demux u))) as Hd.
  { split; [by destruct Hp|simpl; eapply sublist_NoDup; [exact Hn|apply erase_fst]|].
    intros q e Hin%erase_elem. by apply Hf in Hin. }
  split; simpl; [done| |done|].
  - intros q e Hin%erase_elem. by eapply He.
  - intros s' HX k q Hs Hq. destruct (Hl s' HX k q Hs Hq) as (e & Ee & Hcb). exists e. split; [|done].
    apply at_ptr_elem; [by destruct Hd|]. simpl. apply erase_other; [by apply at_ptr_elem|].
    simpl. intros ->. by eapply (Hsole s' k); [congruence|..].
Qed.

Lemma DeallocateEndPoint_spec s k u : wf_udp u -> u_sockets u !! s = Some k ->
  returns (DeallocateEndPoint s) u (fun _ u' => wf_udp u').
Proof.
  intros Hwf Hs. apply returns_bind. eapply returns_socket; [exact Hs|].
  destruct (m_endPoint k) as [ptr|] eqn:Ep; [|by apply returns_ret].
  pose proof (linked_sole u s k ptr Hwf Hs Ep) as Hsole.
  destruct (wb_linked _ _ Hwf s id _ ptr Hs Ep) as (e & Ee & _).
  assert (wf_but (eq s) u) as Hw0 by (eapply wf_but_weaken; [|exact Hwf]; done).
  apply returns_bind. eapply returns_on_endPoint; [exact Ee|].
  pose proof (wf_update_sole s ptr (SetDestroyCallback None) u Hw0 Hsole
    ltac:(intros ? [? ? ? ?]; by split)) as H1. apply (at_ptr_updated _ (SetDestroyCallback None)) in Ee.
  set (u1 := with_demux _ u) in *.
  assert (EndPoint.DeAllocate ptr (u_demux u1) =
    (None, set_endPoints (erase ptr (m_endPoints (u_demux u1))) (u_demux u1))) as Ed.
  { unfold EndPoint.DeAllocate. by rewrite (Ee : at_ptr ptr (u_demux u1) = _). }
  apply returns_bind. apply returns_bind. eapply (returns_demux _ None); [by rewrite Ed|].
  pose proof (wf_erase s ptr u1 H1 Hsole) as H2. apply returns_ret.
  eapply returns_change; [exact Hs|]. set (u2 := with_demux _ u1) in *.
  assert (wf_but (eq s) (with_socket s (set_endPoint k None) u2)) as H3.
  { apply (wf_with_socket _ s k); [exact H2|exact Hs| |by auto]. exact (wb_rx _ _ Hwf s k Hs). }
  apply (wf_but_linked (eq s) s); [exact H3|done|]. intros k' p Hk' Hp'. simpl in Hk'.
  pose proof (lookup_lt_Some _ _ _ Hs). rewrite list_lookup_insert_eq in Hk' by done. by injection Hk' as <-.
Qed.

Lemma Close_spec s k u : wf_udp u -> u_sockets u !! s = Some k ->
  returns (Close s) u (fun r u' => wf_udp u').
Proof.
  intros Hwf Hs. apply returns_bind. eapply returns_socket; [exact Hs|].
  destruct (_ && _). { eapply returns_weaken; [by apply (fail_spec s _ k)|naive_solver]. }
  apply returns_bind. eapply returns_weaken; [by apply (change_spec s (fun k => set_shutdown k true true) k)|].
  intros _ u1 [Hw ->]. pose proof (lookup_lt_Some _ _ _ Hs) as Hlen.
  apply returns_bind. eapply returns_weaken; [eapply (DeallocateEndPoint_spec s); [exact Hw|]|].
  - simpl. by rewrite list_lookup_insert_eq.
  - intros [] u' Hu'. by apply returns_ret.
Qed.

Lemma ShutdownRecv_spec s k u : wf_udp u -> u_sockets u !! s = Some k ->
  returns (ShutdownRecv s) u (fun r u' => wf_udp u').
Proof.
  intros Hwf Hs. apply returns_bind.
  eapply returns_weaken; [by apply (change_spec s (fun k => set_shutdown k (m_shutdownSend k) true) k)|].
  intros _ u1 [Hw ->]. pose proof (lookup_lt_Some _ _ _ Hs) as Hlen.
  assert (u_sockets (with_socket s (set_shutdown k (m_shutdownSend k) true) u) !! s =
    Some (set_shutdown k (m_shutdownSend k) true)) as Hs1 by (simpl; by rewrite list_lookup_insert_eq).
  apply returns_bind. eapply returns_socket; [exact Hs1|]. simpl. apply returns_bind.
  destruct (m_endPoint k) as [ptr|] eqn:Ep; [|apply returns_ret; by apply returns_ret].
  destruct (wb_linked _ _ Hw s id _ ptr Hs1 Ep) as (e & Ee & _).
  eapply returns_on_endPoint; [exact Ee|]. apply returns_ret.
  apply wf_with_update; [done|intros ? _ [? ? ? ?]; by split|done].
Qed.

Lemma Connect_spec s address k u : wf_udp u -> u_sockets u !! s = Some k ->
  returns (Connect s address) u (fun r u' => wf_udp u').
Proof.
  intros Hwf Hs. destruct address as [ipv4 port tos|].
  - apply returns_bind. eapply returns_weaken; [by apply (change_spec s (fun k => set_default k (Some (ipv4, port))) k)|].
    intros _ u1 [Hw ->]. pose proof (lookup_lt_Some _ _ _ Hs) as Hlen. apply returns_bind.
    eapply returns_weaken; [eapply (SetIpTos_spec s); [exact Hw|simpl; by rewrite list_lookup_insert_eq]|].
    intros _ u2 [Hw2 _]. apply returns_bind, returns_tell. apply returns_ret. by apply wf_log.
  - apply returns_bind, returns_tell, returns_ret. by apply wf_log.
Qed.

(** ** Reception *)

Lemma queue_size_app l1 l2 : queue_size (l1 ++ l2) = queue_size l1 + queue_size l2.
Proof. induction l1 as [|q l IH]; simpl; lia. Qed.

Lemma RecvFrom_spec s n k u : wf_udp u -> u_sockets u !! s = Some k ->
  returns (RecvFrom s n) u (fun r u' => wf_udp u' /\
    match m_deliveryQueue k with
    | [] => r = None
    | q :: rest =>
        if GetSize (q_packet q) <=? n
        then r = Some q /\ u' = with_socket s (set_rx k (u32 (queue_size rest)) rest) u
        else r = None /\ u' = u
    end).
Proof.
  intros Hwf Hs. pose proof (wb_rx _ _ Hwf s k Hs) as Hrx. unfold rx_ok in Hrx.
  apply returns_bind. eapply returns_socket; [exact Hs|].
  destruct (m_deliveryQueue k) as [|q rest] eqn:Eq.
  - apply returns_bind. eapply returns_weaken; [by apply (fail_spec s _ k)|].
    intros _ u' [Hw _]. by apply returns_ret.
  - destruct (_ <=? n); [|by apply returns_ret]. apply returns_bind.
    assert (u32 (m_rxAvailable k - GetSize (q_packet q)) = u32 (queue_size rest)) as E.
    { rewrite Hrx. simpl. rewrite wrap_sub_l. f_equal. lia. }
    eapply returns_change; [exact Hs|]. apply returns_ret. rewrite E. split; [|done].
    apply (wf_with_socket _ s k); [done|done|done|by left].
Qed.

(** What [ForwardUp] makes of the socket [k]. *)
Definition received (k : UdpSocketImpl) (p : Packet) (from : Z * Z) (k' : UdpSocketImpl) : Prop :=
  if m_shutdownRecv k then k' = k
  else if u32 (m_rxAvailable k + GetSize p) <=? m_rcvBufSize k
       then exists tags, k' = set_rx k (u32 (m_rxAvailable k + GetSize p)) (m_deliveryQueue k ++ [mkQueued p tags from])
       else k' = k.

Lemma ForwardUp_spec s p h port ifc k u : wf_udp u -> u_sockets u !! s = Some k -> Ipv4Interface.GetDevice ifc <> None ->
  returns (ForwardUp s p h port (Some ifc)) u (fun _ u' => wf_udp u' /\ u_demux u' = u_demux u /\
    exists k', u_sockets u' = <[s := k']> (u_sockets u) /\ received k p (Ipv4Header.GetSource h, port) k').
Proof.
  intros Hwf Hs Hdev. pose proof (wb_rx _ _ Hwf s k Hs) as Hrx. unfold received.
  apply returns_bind. eapply returns_socket; [exact Hs|].
  destruct (m_shutdownRecv k); [apply returns_ret; split; [done|]; split; [done|]; exists k; by rewrite list_insert_id|].
  apply returns_bind. assert (exists tags, rx_tags k h (Some ifc) = Ok tags) as [tags Et].
  { unfold rx_tags. destruct (Ipv4Interface.GetDevice ifc) as [d|] eqn:Ed; [|done].
    destruct (m_recvPktInfo k); simpl; rewrite ?Ed; by eexists. }
  eapply returns_lift; [exact Et|]. destruct (_ <=? _).
  - apply returns_bind. eapply returns_change; [exact Hs|]. apply returns_tell. split; [|split; [done|]].
    + apply wf_log. apply (wf_with_socket _ s k); [done|done| |by left]. unfold rx_ok in *. simpl.
      rewrite queue_size_app, Hrx, wrap_add_l. simpl. f_equal. lia.
    + eexists. split; [done|]. by exists tags.
  - apply returns_tell. split; [by apply wf_log|]. split; [done|]. exists k. by rewrite list_insert_id.
Qed.

Lemma endPoint_ForwardUp_spec p h port ifc ptr u : wf_udp u -> Ipv4Interface.GetDevice ifc <> None ->
  (exists e, (ptr, e) ∈ m_endPoints (u_demux u)) ->
  returns (endPoint_ForwardUp p h port (Some ifc) ptr) u (fun _ u' => wf_udp u' /\ u_demux u' = u_demux u /\
    forall e s k, (ptr, e) ∈ m_endPoints (u_demux u) -> m_rxCallback e = Some s -> u_sockets u !! s = Some k ->
    exists k', u_sockets u' = <[s := k']> (u_sockets u) /\ received k p (Ipv4Header.GetSource h, port) k').
Proof.
  intros Hwf Hdev [e Hin]. pose proof (at_ptr_elem _ ptr e (dw_nodup _ (wb_demux _ _ Hwf))) as Hat.
  apply returns_bind. eexists _, _. split; [done|]. apply returns_bind.
  eapply returns_lift; [by rewrite (proj2 Hat Hin)|].
  assert (forall e', (ptr, e') ∈ m_endPoints (u_demux u) -> e' = e) as Heq.
  { intros e' Hin'. apply at_ptr_elem in Hin'; [|apply Hwf]. apply Hat in Hin. congruence. }
  destruct (m_rxCallback e) as [s|] eqn:Er.
  - destruct (lookup_lt_is_Some_2 (u_sockets u) s) as [k Hs].
    { eapply (eo_rx _ e); [by eapply wb_ep|done]. }
    eapply returns_weaken; [by apply (ForwardUp_spec s p h port ifc k)|]. intros _ u' (Hw & Ed & Hk').
    split; [done|]. split; [done|]. intros e' s' k0 Hin' Hr' Hs'. apply Heq in Hin' as ->. simplify_eq. done.
  - apply returns_ret. split; [done|]. split; [done|]. intros e' s' k0 Hin' Hr' _. apply Heq in Hin' as ->. congruence.
Qed.

(** The first header that is read is the one that is removed. *)
Lemma udp_headers_ok h0 p : Forall octet (p_data p) -> 8 <= Z.of_nat (length (p_data p)) < 65536 ->
  exists h1, PeekUdpHeader h0 p = Ok h1 /\
  exists h2, RemoveUdpHeader h1 p = Ok (h2, with_data p (drop 8 (p_data p))) /\
    GetSourcePort h2 = GetSourcePort h1 /\ GetDestinationPort h2 = GetDestinationPort h1.
Proof.
  intros Hb Hlen. destruct (Deserialize_any h0 (p_data p) Hb Hlen) as (h1 & E1 & _).
  exists h1. unfold PeekUdpHeader, RemoveUdpHeader. rewrite E1. split; [done|].
  destruct (Deserialize_any h1 (p_data p) Hb Hlen) as (h2 & E2 & _). exists h2. rewrite E2. split; [done|].
  by apply (Deserialize_ports _ _ _ _ _ _ _ E1 E2).
Qed.

Lemma udp_Receive_spec checksum p h ifc u :
  wf_udp u -> Ipv4Interface.GetDevice ifc <> None ->
  Forall octet (p_data p) -> 8 <= Z.of_nat (length (p_data p)) < 65536 ->
  returns (udp_Receive checksum p h (Some ifc)) u (fun _ u' => wf_udp u' /\ u_demux u' = u_demux u) \/
  (udp_Receive checksum p h (Some ifc) u = Err FatalError /\
   exists dport sport a b, a <> b /\
     best (Ipv4Header.GetDestination h) dport (Ipv4Header.GetSource h) sport ifc (m_endPoints (u_demux u)) a /\
     best (Ipv4Header.GetDestination h) dport (Ipv4Header.GetSource h) sport ifc (m_endPoints (u_demux u)) b).
Proof.
  intros Hwf Hdev Hb Hlen. unfold udp_Receive, returns.
  set (h0 := rx_header _ _ _). destruct (udp_headers_ok h0 p Hb Hlen) as (h1 & E1 & h2 & E2 & _).
  rewrite E1. setoid_rewrite run_lifted. destruct (negb _); [left; by eexists _, u|]. setoid_rewrite run_gets.
  destruct (Lookup_cases (Ipv4Header.GetDestination h) (GetDestinationPort h1) (Ipv4Header.GetSource h)
    (GetSourcePort h1) ifc (u_demux u)) as [(l & El & Hl & Hin)|(El & a & b & Hne & Ha & Hb')]; [apply Hwf|..].
  - left. rewrite El. setoid_rewrite run_lifted. destruct l as [|ptr [|? ?]]; [by eexists _, u| |simpl in Hl; lia].
    rewrite E2. setoid_rewrite run_lifted. cbv beta iota. cbn [each].
    destruct (proj1 (Hin ptr)) as (c & (e & He & _) & _); [by left|].
    apply returns_bind, returns_bind. eapply returns_weaken; [by apply endPoint_ForwardUp_spec; [..|by exists e]|].
    intros _ u' (Hw & Ed & _). apply returns_ret, returns_ret. done.
  - right. split; [by rewrite El|]. by exists (GetDestinationPort h1), (GetSourcePort h1), a, b.
Qed.

Lemma simple_loop_in daddr dport saddr sport l : forall g generic ptr,
  simple_loop daddr dport saddr sport g generic l = Some ptr -> generic = Some ptr \/ exists e, (ptr, e) ∈ l.
Proof.
  induction l as [|[q e] l IH]; simpl; intros g generic ptr E; [by left|].
  assert (forall g' gen', simple_loop daddr dport saddr sport g' gen' l = Some ptr ->
    gen' = generic \/ gen' = Some q -> generic = Some ptr \/ exists e', (ptr, e') ∈ (q, e) :: l) as Hrec.
  { intros g' gen' E' Hgen. destruct (IH _ _ _ E') as [->|[e' Hin]].
    - destruct Hgen as [<-|[= ->]]; [by left|right; exists e; by left].
    - right. exists e'. by right. }
  destruct (negb _); [eapply Hrec; eauto|]. destruct (_ && _ && _); [injection E as ->; right; exists e; by left|].
  destruct (_ <? _) in E; eapply Hrec; eauto.
Qed.

Lemma udp_ReceiveIcmp_spec src ttl type code info psrc pdst payload u :
  wf_udp u -> (4 <= length payload)%nat ->
  returns (udp_ReceiveIcmp src ttl type code info psrc pdst payload) u (fun _ u' => wf_udp u' /\ u_demux u' = u_demux u).
Proof.
  intros Hwf Hlen. do 4 (destruct payload as [|? payload]; [simpl in Hlen; lia|]).
  unfold udp_ReceiveIcmp. apply returns_bind. eapply returns_lift; [reflexivity|]. cbv beta iota.
  apply returns_bind. eapply returns_lift; [reflexivity|]. cbv beta iota.
  apply returns_bind. eexists _, _. split; [done|]. destruct (SimpleLookup _ _ _ _ _) as [ptr|] eqn:El; [|by apply returns_ret].
  apply simple_loop_in in El as [?|[e Hin]]; [done|].
  apply returns_bind. eexists _, _. split; [done|]. apply returns_bind.
  eapply returns_lift; [by rewrite (proj2 (at_ptr_elem _ ptr e (dw_nodup _ (wb_demux _ _ Hwf))) Hin)|].
  destruct (m_icmpCallback e) as [s|] eqn:Ei; [|by apply returns_ret].
  destruct (lookup_lt_is_Some_2 (u_sockets u) s) as [k Hs]; [eapply (eo_icmp _ e); [by eapply wb_ep|done]|].
  apply returns_bind. eapply returns_socket; [exact Hs|]. destruct (m_icmpCallbackSet k); [|by apply returns_ret].
  apply returns_tell. split; [by apply wf_log|done].
Qed.

Lemma CreateSocket_spec u : wf_udp u ->
  returns CreateSocket u (fun s u' => wf_udp u' /\ s = length (u_sockets u) /\
    u_sockets u' = u_sockets u ++ [new_UdpSocketImpl] /\ u_demux u' = u_demux u).
Proof.
  intros [Hd He Hr Hl]. eexists _, _. split; [reflexivity|]. split; [|done].
  assert (forall s k, (u_sockets u ++ [new_UdpSocketImpl]) !! s = Some k ->
    u_sockets u !! s = Some k \/ k = new_UdpSocketImpl) as Hlk.
  { intros s k Hs. apply lookup_app_Some in Hs as [?|[_ Hs]]; [by left|].
    right. apply list_lookup_singleton_Some in Hs. naive_solver. }
  split; simpl; [done|..].
  - intros p e Hin. rewrite length_app. eapply ep_ok_mono; [|by eapply He]. lia.
  - intros s k [Hs| ->]%Hlk; [by eapply Hr|done].
  - intros s _ k ptr [Hs| ->]%Hlk Hp; [|done]. exact (Hl s id k ptr Hs Hp).
Qed.

(** ** Every call *)

(** The calls on the UDP of a node that do not send, and what comes in. *)
Inductive udp_call :=
| CallCreateSocket
| CallBind (s : nat)
| CallBindTo (s : nat) (address : Address)
| CallBindToNetDevice (s : nat) (netdevice : option Z)
| CallConnect (s : nat) (address : Address)
| CallListen (s : nat)
| CallShutdownSend (s : nat)
| CallShutdownRecv (s : nat)
| CallClose (s : nat)
| CallRecvFrom (s : nat) (maxSize : Z)
| CallGetSockName (s : nat)
| CallGetPeerName (s : nat)
| CallSetRcvBufSize (s : nat) (size : Z)
| CallSetAllowBroadcast (s : nat) (b : bool)
| CallSetIpTos (s : nat) (tos : Z)
| CallSetIpTtl (s : nat) (ttl : Z)
| CallSetRecvPktInfo (s : nat) (flag : bool)
| CallGetRxAvailable (s : nat)
| CallSetIcmpCallback (s : nat) (set : bool)
| CallSetIpRecvTos (s : nat) (flag : bool)
| CallSetIpRecvTtl (s : nat) (flag : bool)
| CallSetIpMulticastTtl (s : nat) (ttl : Z)
| CallSetIpMulticastIf (s : nat) (ipIf : Z)
| CallSetIpMulticastLoop (s : nat) (loop : bool)
| CallSetMtuDiscover (s : nat) (discover : bool)
| CallSetPriority (s : nat) (priority : Z)
| CallReceive (p : Packet) (h : Ipv4Header) (interface : Ipv4Interface)
| CallReceiveIcmp (source ttl type code info payloadSource payloadDestination : Z) (payload : bytes).

Section calls.
Variables (checksum : bool) (deviceOnNode : Z -> bool).

Definition ignore {A} (m : U A) : U unit := _ ← m; mret tt.
Definition run_call (c : udp_call) : U unit :=
  match c with
  | CallCreateSocket => ignore CreateSocket
  | CallBind s => ignore (Bind s)
  | CallBindTo s a => ignore (BindTo s a)
  | CallBindToNetDevice s d => BindToNetDevice deviceOnNode s d
  | CallConnect s a => ignore (Connect s a)
  | CallListen s => ignore (Listen s)
  | CallShutdownSend s => ignore (ShutdownSend s)
  | CallShutdownRecv s => ignore (ShutdownRecv s)
  | CallClose s => ignore (Close s)
  | CallRecvFrom s n => ignore (RecvFrom s n)
  | CallGetSockName s => ignore (GetSockName s)
  | CallGetPeerName s => ignore (GetPeerName s)
  | CallSetRcvBufSize s n => SetRcvBufSize s n
  | CallSetAllowBroadcast s b => ignore (SetAllowBroadcast s b)
  | CallSetIpTos s tos => SetIpTos s tos
  | CallSetIpTtl s ttl => SetIpTtl s ttl
  | CallSetRecvPktInfo s b => SetRecvPktInfo s b
  | CallGetRxAvailable s => ignore (GetRxAvailable s)
  | CallSetIcmpCallback s b => SetIcmpCallback s b
  | CallSetIpRecvTos s b => SetIpRecvTos s b
  | CallSetIpRecvTtl s b => SetIpRecvTtl s b
  | CallSetIpMulticastTtl s ttl => SetIpMulticastTtl s ttl
  | CallSetIpMulticastIf s i => SetIpMulticastIf s i
  | CallSetIpMulticastLoop s b => SetIpMulticastLoop s b
  | CallSetMtuDiscover s b => SetMtuDiscover s b
  | CallSetPriority s n => SetPriority s n
  | CallReceive p h i => ignore (udp_Receive checksum p h (Some i))
  | CallReceiveIcmp a b c d e f g l => udp_ReceiveIcmp a b c d e f g l
  end.

(** The socket that a call is on. *)
Definition call_socket (c : udp_call) : option nat :=
  match c with
  | CallBind s | CallBindTo s _ | CallBindToNetDevice s _ | CallConnect s _ | CallListen s | CallShutdownSend s
  | CallShutdownRecv s | CallClose s | CallRecvFrom s _ | CallGetSockName s | CallGetPeerName s
  | CallSetRcvBufSize s _ | CallSetAllowBroadcast s _ | CallSetIpTos s _ | CallSetIpTtl s _
  | CallSetRecvPktInfo s _ | CallGetRxAvailable s | CallSetIcmpCallback s _ | CallSetIpRecvTos s _
  | CallSetIpRecvTtl s _ | CallSetIpMulticastTtl s _ | CallSetIpMulticastIf s _ | CallSetIpMulticastLoop s _
  | CallSetMtuDiscover s _ | CallSetPriority s _ => Some s
  | _ => None
  end.

(** The requirements of a call: the socket exists; it is bound at most once by
    [Bind (address)]; a socket that is bound to a device finds a port; a device
    is one of the node; what is received are octets with a whole UDP header. *)
Definition call_ok (u : Udp) (c : udp_call) : Prop :=
  match call_socket c with
  | Some s =>
      exists k, u_sockets u !! s = Some k /\
      match c with
      | CallBind _ => s_boundnetdevice k <> None -> port_free u
      | CallBindTo _ _ => m_endPoint k = None
      | CallBindToNetDevice _ d => match d with None => true | Some d => deviceOnNode d end = true
      | _ => True
      end
  | None =>
      match c with
      | CallReceive p _ i => Ipv4Interface.GetDevice i <> None /\ Forall octet (p_data p) /\
                             8 <= Z.of_nat (length (p_data p)) < 65536
      | CallReceiveIcmp _ _ _ _ _ _ _ l => (4 <= length l)%nat
      | _ => True
      end
  end.

(** Two end points match the datagram equally well. *)
Definition ambiguous (u : Udp) (c : udp_call) : Prop :=
  match c with
  | CallReceive p h i =>
      exists dport sport a b, a <> b /\
        best (Ipv4Header.GetDestination h) dport (Ipv4Header.GetSource h) sport i (m_endPoints (u_demux u)) a /\
        best (Ipv4Header.GetDestination h) dport (Ipv4Header.GetSource h) sport i (m_endPoints (u_demux u)) b
  | _ => False
  end.

Lemma returns_ignore {A} (m : U A) u (Q : A -> Udp -> Prop) :
  returns m u Q -> (forall a u', Q a u' -> wf_udp u') -> returns (ignore m) u (fun _ => wf_udp).
Proof.
  intros Hm HQ. apply returns_bind. eapply returns_weaken; [exact Hm|]. intros a u' Hu'. apply returns_ret. by eapply HQ.
Qed.

Lemma change_ok s f k u : wf_udp u -> u_sockets u !! s = Some k -> (rx_ok k -> rx_ok (f k)) ->
  m_endPoint (f k) = m_endPoint k -> returns (change s f) u (fun _ => wf_udp).
Proof. intros. eapply returns_weaken; [by apply (change_spec s f k)|naive_solver]. Qed.

Lemma run_call_ok u c : wf_udp u -> call_ok u c ->
  returns (run_call c) u (fun _ => wf_udp) \/ (run_call c u = Err FatalError /\ ambiguous u c).
Proof.
  intros Hwf. destruct c; cbn [call_ok call_socket run_call]; intros Hok;
    try (destruct Hok as (k & Hs & Hok)); try (by left; eapply change_ok).
  - left. eapply returns_ignore; [by apply CreateSocket_spec|naive_solver].
  - left. eapply returns_ignore; [by apply (Bind_spec s k)|naive_solver].
  - left. eapply returns_ignore; [by apply (BindTo_spec s address k)|naive_solver].
  - left. by apply (BindToNetDevice_spec _ s netdevice k).
  - left. eapply returns_ignore; [by apply (Connect_spec s address k)|naive_solver].
  - left. eapply returns_ignore; [by apply (fail_spec s _ k)|naive_solver].
  - left. apply (returns_ignore _ _ (fun _ => wf_udp)); [|done]. apply returns_bind. eapply returns_weaken; [by eapply change_ok|].
    intros [] u' Hu'. by apply returns_ret.
  - left. eapply returns_ignore; [by apply (ShutdownRecv_spec s k)|naive_solver].
  - left. eapply returns_ignore; [by apply (Close_spec s k)|naive_solver].
  - left. eapply returns_ignore; [by apply (RecvFrom_spec s _ k)|naive_solver].
  - left. eapply returns_ignore; [by apply (GetSockName_spec s k)|by intros ? u' ->].
  - left. apply (returns_ignore _ _ (fun _ => wf_udp)); [|done]. apply returns_bind. eapply returns_socket; [exact Hs|].
    destruct (m_default k) as [[? ?]|]; [by apply returns_ret|]. apply returns_bind.
    eapply returns_weaken; [by apply (fail_spec s _ k)|]. intros r u' [Hu' _]. by apply returns_ret.
  - left. apply (returns_ignore _ _ (fun _ => wf_udp)); [|done]. apply returns_bind. eapply returns_weaken; [by eapply change_ok|].
    intros [] u' Hu'. by apply returns_ret.
  - left. eapply returns_weaken; [by apply (SetIpTos_spec s tos k)|naive_solver].
  - left. apply (returns_ignore _ _ (fun _ => wf_udp)); [|done]. apply returns_bind. eapply returns_socket; [exact Hs|].
    by apply returns_ret.
  - destruct (udp_Receive_spec checksum p h interface u Hwf k Hs Hok) as [H|(E & Ha)].
    + left. eapply returns_ignore; [exact H|naive_solver].
    + right. split; [|done]. unfold ignore, mbind, st_bind. by rewrite E.
  - left. eapply returns_weaken; [by apply udp_ReceiveIcmp_spec|naive_solver].
Qed.
End calls.

(** ** Sending *)

Section sends.
Context {RP : Type} `{RoutingProtocol RP} `{NetDevices}.
Context (at_ : attributes) (Hash32 : bytes -> Z) (now : Z) (deviceOnNode : Z -> bool).
#[local] Existing Instance udp_l4.
Notation M := (st (l3 RP Udp)).
Implicit Types s : l3 RP Udp.

(** [m] returns with [Q], or stops as [F] allows. *)
Definition holds {A} (m : M A) s (Q : A -> l3 RP Udp -> Prop) (F : fault -> Prop) : Prop :=
  match m s with Ok (a, s') => Q a s' | Err x => F x end.

Lemma holds_bind {A B} (m : M A) (k : A -> M B) s Q F :
  holds m s (fun a s' => holds (k a) s' Q F) F -> holds (m ≫= k) s Q F.
Proof. unfold holds, mbind, st_bind. by destruct (m s) as [[a s']|]. Qed.
Lemma holds_weaken {A} (m : M A) s (Q R : A -> l3 RP Udp -> Prop) F :
  holds m s Q F -> (forall a s', Q a s' -> R a s') -> holds m s R F.
Proof. unfold holds. destruct (m s) as [[a s']|]; auto. Qed.
Lemma holds_each {A} (P : l3 RP Udp -> Prop) F (f : A -> M unit) l :
  (forall a s, a ∈ l -> P s -> holds (f a) s (fun _ => P) F) -> forall s, P s -> holds (each f l) s (fun _ => P) F.
Proof.
  induction l as [|a l IH]; intros Hf s Hs; [done|]. apply holds_bind.
  eapply holds_weaken; [apply Hf; [by left|done]|]. intros [] s' Hs'. apply IH; [|done]. intros b s1 Hb. apply Hf. by right.
Qed.
Lemma holds_lift {A} (r : res A) s (Q : A -> l3 RP Udp -> Prop) (F : fault -> Prop) :
  match r with Ok a => Q a s | Err x => F x end -> holds (lift r) s Q F.
Proof. unfold holds, lift. by destruct r. Qed.
Lemma holds_ask {A} (f : Ipv4 -> res A) i s (Q : A -> l3 RP Udp -> Prop) (F : fault -> Prop) : l3_ipv4 s = i ->
  match f i with Ok a => Q a s | Err x => F x end -> holds (ask f) s Q F.
Proof. intros <-. unfold holds, ask, ipv4, lift. rewrite run_gets. by destruct (f (l3_ipv4 s)). Qed.
Lemma holds_udp {A} (m : U A) s Q (R : A -> l3 RP Udp -> Prop) F :
  returns m (l3_l4 s) Q -> (forall a u, Q a u -> R a (set_l4 u s)) -> holds (udp m) s R F.
Proof. intros (a & u & E & HQ) HR. unfold holds, udp. rewrite run_gets, E. by apply HR. Qed.

(** The functions of the IPv4 stack that a send calls, the interfaces being [i]:
    how one of them stops. *)
Inductive ip_stops (i : Ipv4) : fault -> Prop :=
| UdpSendStops p ttl tos saddr daddr sport dport route s x : l3_ipv4 s = i ->
    udp_Send at_ Hash32 now p ttl tos saddr daddr sport dport route s = Err x -> ip_stops i x
| GetAddressStops interface x : GetAddress interface 0 i = Err x -> ip_stops i x
| RouteOutputStops h oif r x : rp_RouteOutput i h oif r = Err x -> ip_stops i x
| NoOutputInterface route : GetInterfaceForDevice (rt_dev route) i < 0 \/
    Ipv4Ifaces.GetInterface (GetInterfaceForDevice (rt_dev route) i) i = None -> ip_stops i UndefinedBehaviour.

(** The interfaces are [i], UDP is well-formed and the socket [sk] exists; with
    [bound], it has an end point. *)
Definition ready (bound : bool) (i : Ipv4) (sk : nat) s : Prop :=
  l3_ipv4 s = i /\ wf_udp (l3_l4 s) /\
  exists k, u_sockets (l3_l4 s) !! sk = Some k /\ (bound = true -> is_Some (m_endPoint k)).

Lemma ready_net b i sk s s' : L3Spec.same_net s s' -> ready b i sk s -> ready b i sk s'.
Proof. intros [E1 E2] Hr. unfold ready in *. by rewrite E1, E2. Qed.

Lemma ready_socket b i sk s (Q : UdpSocketImpl -> l3 RP Udp -> Prop) F : ready b i sk s ->
  (forall k, u_sockets (l3_l4 s) !! sk = Some k -> (b = true -> is_Some (m_endPoint k)) -> Q k s) -> holds (udp (socket sk)) s Q F.
Proof.
  intros (_ & _ & k & Hs & Hp) HQ. eapply (holds_udp _ _ (fun a u => a = k /\ u = l3_l4 s)); [by eapply returns_socket|].
  intros a u [-> ->]. destruct s. by apply HQ.
Qed.
Lemma ready_tell b i sk s e (Q : unit -> l3 RP Udp -> Prop) F : ready b i sk s ->
  (forall s', ready b i sk s' -> Q tt s') -> holds (udp (tell e)) s Q F.
Proof.
  intros (Ei & Hw & k & Hs & Hp) HQ. unfold holds, udp. rewrite run_gets. simpl.
  apply HQ. split; [done|]. split; [by apply wf_log|]. by exists k.
Qed.
Lemma ready_fail b i sk s e F : ready b i sk s -> holds (udp (fail sk e)) s (fun _ s' => wf_udp (l3_l4 s')) F.
Proof. intros (_ & Hw & k & Hs & _). eapply holds_udp; [by apply (fail_spec sk e k)|]. naive_solver. Qed.

Lemma ready_endPoint i sk s (Q : Ipv4EndPoint -> l3 RP Udp -> Prop) F : ready true i sk s ->
  (forall e, Q e s) -> holds (endPoint_of sk) s Q F.
Proof.
  intros Hr HQ. apply holds_bind. eapply ready_socket; [exact Hr|]. intros k Hs Hp. destruct (Hp eq_refl) as [ptr Ep].
  apply holds_bind, holds_lift. rewrite Ep. simpl. destruct Hr as (_ & Hw & _).
  destruct (wb_linked _ _ Hw sk id k ptr Hs Ep) as (e & Ee & _). apply holds_bind.
  eapply (holds_udp _ _ (fun d u => d = u_demux (l3_l4 s) /\ u = l3_l4 s)); [by eexists _, _|].
  intros d u [-> ->]. apply holds_lift. rewrite Ee. simpl. destruct s. apply HQ.
Qed.

Lemma ready_udp_Send b i sk s p ttl tos saddr daddr sport dport route (Q : unit -> l3 RP Udp -> Prop) : ready b i sk s ->
  (forall s', ready b i sk s' -> Q tt s') ->
  holds (udp_Send at_ Hash32 now p ttl tos saddr daddr sport dport route) s Q (ip_stops i).
Proof.
  intros Hr HQ. unfold holds. destruct (udp_Send _ _ _ _ _ _ _ _ _ _ _ s) as [[[] s']|x] eqn:E.
  - apply HQ. unfold udp_Send in E. apply st_bind_ok in E as (q & s1 & [_ ->]%lift_ok & E).
    apply L3Spec.Send_net in E. by eapply ready_net.
  - eapply UdpSendStops; [|exact E]. by destruct Hr.
Qed.

(** The tail of a send: what the socket tells. *)
Lemma ready_sent b i sk s p (Q : unit -> l3 RP Udp -> Prop) F : ready b i sk s ->
  (forall s', ready b i sk s' -> Q tt s') -> holds (sent sk p) s Q F.
Proof. apply ready_tell. Qed.
Lemma ready_available b i sk s (Q : unit -> l3 RP Udp -> Prop) F : ready b i sk s ->
  (forall s', ready b i sk s' -> Q tt s') -> holds (available sk) s Q F.
Proof. apply ready_tell. Qed.

Lemma broadcast_on_holds i sk s p ttl tos dest port interface : ready true i sk s ->
  holds (broadcast_on at_ Hash32 now sk p ttl tos dest port interface) s (fun _ => ready true i sk) (ip_stops i).
Proof.
  intros Hr. pose proof Hr as (Ei & _). unfold broadcast_on. apply holds_bind. apply (holds_ask _ i); [done|].
  destruct (GetAddress interface 0 i) as [a|x] eqn:Ea; [|by eapply GetAddressStops].
  cbv zeta. destruct (_ =? _); [done|]. apply holds_bind. eapply ready_socket; [exact Hr|]. intros k Hs Hp.
  apply holds_bind. assert (exists d, GetNetDevice interface i = Ok d) as [d Ed].
  { unfold GetAddress, GetNetDevice in *. destruct (Ipv4Ifaces.GetInterface interface i); [|done]. by eexists. }
  assert (forall Q F, (forall o, Q o s) -> holds (match s_boundnetdevice k with None => mret None | Some _ =>
    ask (GetNetDevice interface) end) s Q F) as Hdev.
  { intros Q F HQ. destruct (s_boundnetdevice k); [|apply HQ]. apply (holds_ask _ i); [done|]. by rewrite Ed. }
  apply Hdev. intros o. destruct (match s_boundnetdevice k with None => false | Some _ => _ end); [done|].
  apply holds_bind. eapply ready_endPoint; [exact Hr|]. intros e. apply holds_bind. eapply ready_udp_Send; [exact Hr|].
  intros s1 H1d. apply holds_bind. eapply ready_sent; [exact H1d|]. intros s2 H2d. by eapply ready_available.
Qed.

Lemma send_routed_holds i sk s p ttl tos dest port : ready true i sk s ->
  holds (send_routed at_ Hash32 now sk p ttl tos dest port) s (fun _ s' => wf_udp (l3_l4 s')) (ip_stops i).
Proof.
  intros Hr. unfold send_routed. apply holds_bind. eapply ready_socket; [exact Hr|]. intros k Hs Hp.
  unfold holds. rewrite run_gets. destruct (m_routingProtocol s) as [r|]; [|by eapply ready_fail].
  unfold ipv4. rewrite run_gets. pose proof Hr as (Ei & _). rewrite Ei. cbv zeta.
  destruct (rp_RouteOutput i _ _ r) as [[[route errno_] r']|x] eqn:Er; [|by eapply RouteOutputStops].
  rewrite run_lifted. cbv beta iota. rewrite run_update. set (s1 := set_routing (Some r') s).
  assert (ready true i sk s1) as H1d by exact Hr. destruct route as [route|].
  2:{ change (holds (_ ← udp (change sk (fun k => set_errno k errno_)); mret (-1)) s1 (fun _ s' => wf_udp (l3_l4 s')) (ip_stops i)).
      apply holds_bind. destruct H1d as (_ & Hw & k1 & Hs1 & _).
      eapply holds_udp; [by apply (change_spec sk _ k1)|]. by intros a u [? _]. }
  match goal with |- match ?m s1 with _ => _ end => change (holds m s1 (fun _ s' => wf_udp (l3_l4 s')) (ip_stops i)) end.
  apply holds_bind. assert (forall Q : bool -> l3 RP Udp -> Prop, (forall b, Q b s1) ->
    holds (if m_allowBroadcast k then mret false else subnet_broadcast route dest) s1 Q (ip_stops i)) as Hsub.
  { intros Q HQ. destruct (m_allowBroadcast k); [apply HQ|]. unfold holds, subnet_broadcast, ipv4. rewrite run_gets.
    change (l3_ipv4 s1) with (l3_ipv4 s). rewrite Ei. destruct (Z.ltb_spec (GetInterfaceForDevice (rt_dev route) i) 0) as [Hlt|_].
    { eapply (NoOutputInterface _ route). by left. }
    destruct (Ipv4Ifaces.GetInterface (GetInterfaceForDevice (rt_dev route) i) i) as [ifc|] eqn:Eg; simpl; [apply HQ|].
    eapply (NoOutputInterface _ route). by right. }
  apply Hsub. intros []; [by eapply ready_fail|]. apply holds_bind. eapply ready_endPoint; [exact H1d|]. intros e.
  apply holds_bind. eapply ready_udp_Send; [exact H1d|]. intros s2 H2d. apply holds_bind. eapply ready_sent; [exact H2d|].
  by intros s3 (_ & ? & _).
Qed.

(** Binding on the first send. *)
Definition can_bind (sk : nat) (u : Udp) : Prop :=
  exists k, u_sockets u !! sk = Some k /\ (m_endPoint k = None -> s_boundnetdevice k <> None -> port_free u).

Lemma ensure_bound_holds i sk s : l3_ipv4 s = i -> wf_udp (l3_l4 s) -> can_bind sk (l3_l4 s) ->
  forall F, holds (ensure_bound sk) s (fun b s' => ready b i sk s') F.
Proof.
  intros Ei Hw (k & Hs & Hk) F. assert (ready false i sk s) as Hr by (split; [done|]; split; [done|]; by exists k).
  apply holds_bind. eapply ready_socket; [exact Hr|]. intros k' Hs' _. simplify_eq.
  destruct (m_endPoint k) as [ptr|] eqn:Ep; [split; [done|]; split; [done|]; exists k; rewrite Ep; by eauto|].
  apply holds_bind. eapply holds_udp; [apply (Bind_spec sk k); [done|done|by apply Hk]|].
  intros r u (Hu & e & Es & ->). pose proof (lookup_lt_Some _ _ _ Hs). split; [done|]. split; [done|].
  exists (set_endPoint k e). simpl. rewrite Es, list_lookup_insert_eq by done. split; [done|]. by destruct e.
Qed.

Lemma DoSendTo_holds i sk s p dest port tos : l3_ipv4 s = i -> wf_udp (l3_l4 s) -> can_bind sk (l3_l4 s) ->
  holds (DoSendTo at_ Hash32 now sk p dest port tos) s (fun _ s' => wf_udp (l3_l4 s')) (ip_stops i).
Proof.
  intros Ei Hw Hb. unfold DoSendTo. apply holds_bind. eapply holds_weaken; [by apply (ensure_bound_holds i)|].
  intros [] s1 H1d; [|by destruct H1d as (_ & ? & _)]. simpl (negb _). cbv iota.
  apply holds_bind. eapply ready_socket; [exact H1d|]. intros k Hs Hp.
  destruct (m_shutdownSend k); [by eapply ready_fail|]. destruct (_ <? _); [by eapply ready_fail|]. cbv zeta.
  destruct (Ipv4Address.IsBroadcast dest).
  - destruct (negb _); [by eapply ready_fail|]. unfold holds, ipv4. rewrite run_gets.
    match goal with |- match ?m s1 with _ => _ end => change (holds m s1 (fun _ s' => wf_udp (l3_l4 s')) (ip_stops i)) end.
    apply holds_bind. eapply holds_weaken; [apply (holds_each (ready true i sk)); [|exact H1d]|by intros _ s2 (_ & ? & _)].
    intros n s2 _ H2d. by apply broadcast_on_holds.
  - apply holds_bind. eapply ready_endPoint; [exact H1d|]. intros e. destruct (negb _); [|by apply send_routed_holds].
    apply holds_bind. eapply ready_udp_Send; [exact H1d|]. intros s2 H2d. apply holds_bind. eapply ready_sent; [exact H2d|].
    intros s3 H3d. apply holds_bind. eapply ready_available; [exact H3d|]. by intros s4 (_ & ? & _).
Qed.

Lemma DoSend_holds i sk s p dest port : l3_ipv4 s = i -> wf_udp (l3_l4 s) -> can_bind sk (l3_l4 s) ->
  holds (DoSend at_ Hash32 now sk p dest port) s (fun _ s' => wf_udp (l3_l4 s')) (ip_stops i).
Proof.
  intros Ei Hw Hb. unfold DoSend. apply holds_bind. eapply holds_weaken; [by apply (ensure_bound_holds i)|].
  intros [] s1 H1d; [|by destruct H1d as (_ & ? & _)]. simpl (negb _). cbv iota.
  apply holds_bind. eapply ready_socket; [exact H1d|]. intros k Hs Hp.
  destruct (m_shutdownSend k); [by eapply ready_fail|]. pose proof H1d as (Ei1 & Hw1 & _).
  apply DoSendTo_holds; [done|done|]. exists k. split; [done|]. intros Hn. destruct (Hp eq_refl) as [? ?]. congruence.
Qed.

(** ** Every call on a node *)

Inductive net_call :=
| CallUdp (c : udp_call)
| CallSend (sk : nat) (p : Packet)
| CallSendTo (sk : nat) (p : Packet) (address : Address).

Definition run_net (c : net_call) : M unit :=
  match c with
  | CallUdp c => udp (run_call (ChecksumEnabled at_) deviceOnNode c)
  | CallSend sk p => _ ← socket_Send at_ Hash32 now sk p; mret tt
  | CallSendTo sk p a => _ ← SendTo at_ Hash32 now sk p a; mret tt
  end.

(** A send needs what [Bind] needs when the socket has no end point. *)
Definition net_ok (u : Udp) (c : net_call) : Prop :=
  match c with
  | CallUdp c => call_ok deviceOnNode u c
  | CallSend sk _ | CallSendTo sk _ _ => can_bind sk u
  end.

(** How a call stops: a datagram that two end points match equally well, or the
    IPv4 stack under a send. *)
Definition net_stops s (c : net_call) (x : fault) : Prop :=
  match c with
  | CallUdp c => x = FatalError /\ ambiguous (l3_l4 s) c
  | CallSend _ _ | CallSendTo _ _ _ => ip_stops (l3_ipv4 s) x
  end.

Lemma run_net_holds s c : wf_udp (l3_l4 s) -> net_ok (l3_l4 s) c ->
  holds (run_net c) s (fun _ s' => wf_udp (l3_l4 s')) (net_stops s c).
Proof.
  intros Hw Hok. destruct c as [c|sk p|sk p a]; cbn [net_ok run_net] in *.
  - destruct (run_call_ok (ChecksumEnabled at_) deviceOnNode (l3_l4 s) c Hw Hok) as [Hr|[E Ha]].
    + eapply holds_udp; [exact Hr|]. done.
    + unfold holds, udp. rewrite run_gets, E. done.
  - apply holds_bind. apply (holds_weaken _ _ (fun _ s' => wf_udp (l3_l4 s'))); [|done]. apply holds_bind.
    pose proof Hok as (k & Hs & _). apply (ready_socket false (l3_ipv4 s)); [by split_and!; [..|exists k]|].
    intros k' Hs' _. destruct (m_default k') as [[address port]|]; [by apply DoSend_holds|].
    eapply (ready_fail false (l3_ipv4 s)). by split_and!; [..|exists k].
  - apply holds_bind. apply (holds_weaken _ _ (fun _ s' => wf_udp (l3_l4 s'))); [|done].
    destruct a as [ipv4 port tos|]; [by apply DoSendTo_holds|done].
Qed.
End sends.

