(* ===== verification/UdpPath.v ===== *)
(** * A datagram from socket to socket

    The whole way: [DoSendTo] on one node, the routers in between, and the
    delivery queue of a socket on another node. *)

From S2P Require Import Prelude Bytes Packet UdpHeader Routing EndPoint EndPointSpec Ipv4Ifaces Dpd Ipv4L3Protocol L3Spec L3Path UdpSocket UdpSocketSpec.
From S2P Require Ipv4Address Ipv4Header StaticRouting.
Import Ipv4Header (Ipv4Header).

(** ** The datagram *)

(** The octets on the wire of the payload [d]. *)
Definition datagram (checksum : bool) (saddr daddr sport dport c : Z) (d : bytes) : bytes :=
  octets_of (tx_header checksum saddr daddr sport dport) c d.

Lemma datagram_length checksum saddr daddr sport dport c d :
  Z.of_nat (length (datagram checksum saddr daddr sport dport c d)) = 8 + Z.of_nat (length d).
Proof. unfold datagram. rewrite octets_of_length. lia. Qed.

Lemma tx_sendable checksum saddr daddr sport dport : in_range 16 sport -> in_range 16 dport ->
  sendable (tx_header checksum saddr daddr sport dport).
Proof. intros. by destruct checksum. Qed.

(** What is sent is read back: a good checksum, the ports and the payload. *)
Lemma datagram_read checksum saddr daddr sport dport p :
  in_range 16 sport -> in_range 16 dport -> Forall octet (p_data p) -> 8 + Z.of_nat (length (p_data p)) < 65536 ->
  exists c, in_range 16 c /\
    AddUdpHeader (tx_header checksum saddr daddr sport dport) p =
      Ok (with_data p (datagram checksum saddr daddr sport dport c (p_data p))) /\
    forall q, p_data q = datagram checksum saddr daddr sport dport c (p_data p) ->
    exists h1, PeekUdpHeader (rx_header checksum saddr daddr) q = Ok h1 /\ IsChecksumOk h1 = true /\
      GetSourcePort h1 = sport /\ GetDestinationPort h1 = dport /\
    exists h2, RemoveUdpHeader h1 q = Ok (h2, with_data q (p_data p)) /\ GetSourcePort h2 = sport.
Proof.
  intros Hsp Hdp Hb Hlen. set (h := tx_header _ _ _ _ _).
  assert (sendable h) as Hs by by apply tx_sendable.
  assert (exists c, in_range 16 c /\ Serialize h (p_data p) = Ok (octets_of h c (p_data p)) /\
    (checksum = true -> exists k, covered h (8 + Z.of_nat (length (p_data p))) (octets_of h c (p_data p)) = 65535 * k))
    as (c & Hc & Es & Hk).
  { destruct checksum.
    - destruct (Serialize_ok h (p_data p)) as (c & k & Es & Hc & Hk); [done..|]. exists c. split_and!; eauto.
    - exists 0. split; [unfold in_range; lia|]. split; [done|done]. }
  exists c. split; [done|]. split; [unfold AddUdpHeader; by rewrite Es|]. intros q Hq.
  pose proof (octets_of_octets h c (p_data p) Hb) as Ho. pose proof (octets_of_length h c (p_data p)) as Hl.
  set (h0 := rx_header checksum saddr daddr).
  destruct (udp_headers_ok h0 q) as (h1 & E1 & h2 & E2 & Hp1 & Hp2); [by rewrite Hq|rewrite Hq, datagram_length; lia|].
  exists h1. split; [done|].
  assert (Deserialize h0 (octets_of h c (p_data p)) = Ok (h1, 8)) as Ed.
  { unfold PeekUdpHeader in E1. rewrite Hq in E1. unfold datagram in E1. fold h in E1.
    destruct (Deserialize_any h0 (octets_of h c (p_data p))) as (h' & E' & _); [done|lia|].
    rewrite E' in E1. simpl in E1. by injection E1 as <-. }
  destruct (Deserialize_read h h0 c (p_data p) h1 8 Hs Hc Hlen Ed) as (Hp3 & Hp4 & _).
  destruct (Deserialize_any h0 (octets_of h c (p_data p))) as (h' & E' & Hn & Hy); [done|lia|].
  rewrite Ed in E'. injection E' as <-.
  split. { destruct checksum; [|by apply Hn]. apply Hy; [done|by apply covered_pos|].
           destruct Hk as [k Hk]; [done|]. exists k. rewrite (same_covered h) by done. by rewrite Hl, Nat2Z.inj_add. }
  split; [done|]. split; [done|]. exists h2. split; [|by rewrite Hp1]. rewrite E2, Hq. done.
Qed.

(** ** The receiver *)

(** Socket [t] is the one that datagrams for the port and address reach; it can
    take [size] octets more. *)
Record receiver (daddr dport : Z) (t : nat) (size : Z) (ifc : Ipv4Interface) (u : Udp) : Prop := {
  re_wf : wf_udp u;
  re_device : GetDevice ifc <> None;
  re_socket : exists k ptr e, u_sockets u !! t = Some k /\ m_endPoint k = Some ptr /\
    at_ptr ptr (u_demux u) = Some e /\
    m_rxEnabled e = true /\ m_localPort e = dport /\ (m_localAddr e = daddr \/ m_localAddr e = 0) /\
    m_boundnetdevice e = None /\
    (forall ptr' e', (ptr', e') ∈ m_endPoints (u_demux u) -> m_localPort e' = dport -> ptr' = ptr) /\
    m_shutdownRecv k = false /\ u32 (m_rxAvailable k + size) <= m_rcvBufSize k }.

Lemma best_exists daddr dport saddr sport ifc l c p : in_class daddr dport saddr sport ifc l c p ->
  exists q, best daddr dport saddr sport ifc l q.
Proof.
  intros Hc. destruct (most_exact_class daddr dport saddr sport ifc l) as (m & _ & Hm).
  destruct (Hm p c Hc) as [_ [q Hq]]. exists q, m. split; [done|]. intros ptr' c' H'. by apply (Hm ptr' c').
Qed.

Lemma best_port daddr dport saddr sport ifc l q : best daddr dport saddr sport ifc l q ->
  exists e, (q, e) ∈ l /\ m_localPort e = dport.
Proof. intros (c & (e & Hin & (_ & Hp & _) & _) & _). by exists e. Qed.

(** The only end point on the port is found. *)
Lemma Lookup_only daddr dport saddr sport ifc d ptr e :
  NoDup (m_endPoints d).*1 -> (ptr, e) ∈ m_endPoints d -> m_peerAddr e = 0 /\ m_peerPort e = 0 ->
  m_rxEnabled e = true -> m_localPort e = dport -> m_localAddr e = daddr \/ m_localAddr e = 0 ->
  m_boundnetdevice e = None ->
  (forall ptr' e', (ptr', e') ∈ m_endPoints d -> m_localPort e' = dport -> ptr' = ptr) ->
  Lookup daddr dport saddr sport (Some ifc) d = Ok [ptr].
Proof.
  intros Hnd Hin Hpeer Hrx Hport Haddr Hdev Honly.
  assert (exists c, in_class daddr dport saddr sport ifc (m_endPoints d) c ptr) as [c Hc].
  { assert (listens dport ifc e) as Hl by (split; [done|]; split; [done|by left]).
    destruct (Z.eq_dec (m_localAddr e) daddr) as [Heq|Hne].
    - exists 2%nat, e. split; [done|]. by split.
    - exists 1%nat, e. split; [done|]. split; [done|]. split; [|done]. split; [done|left]. naive_solver. }
  destruct (best_exists _ _ _ _ _ _ _ _ Hc) as [q Hq]. pose proof (best_port _ _ _ _ _ _ _ Hq) as (e' & Hin' & Hp').
  pose proof (Honly q e' Hin' Hp') as ->.
  destruct (Lookup_cases daddr dport saddr sport ifc d Hnd) as [(l & -> & Hl & Hb)|(_ & a & b & Hne & Ha & Hb)].
  - apply Hb in Hq. destruct l as [|x [|y l]]; [by apply elem_of_nil in Hq| |simpl in Hl; lia].
    by apply list_elem_of_singleton in Hq as ->.
  - exfalso. apply best_port in Ha as (ea & Hia & Hpa). apply best_port in Hb as (eb & Hib & Hpb).
    apply Hne. by rewrite (Honly a ea), (Honly b eb).
Qed.

Lemma udp_Receive_delivers checksum h q saddr daddr sport dport d t ifc u h1 h2 :
  receiver daddr dport t (Z.of_nat (length d)) ifc u ->
  Ipv4Header.GetSource h = saddr -> Ipv4Header.GetDestination h = daddr -> Z.of_nat (length d) < 65536 ->
  PeekUdpHeader (rx_header checksum saddr daddr) q = Ok h1 -> IsChecksumOk h1 = true ->
  GetSourcePort h1 = sport -> GetDestinationPort h1 = dport ->
  RemoveUdpHeader h1 q = Ok (h2, with_data q d) -> GetSourcePort h2 = sport ->
  exists u' k tags, udp_Receive checksum q h (Some ifc) u = Ok (RX_OK, u') /\ u_sockets u !! t = Some k /\
    u_sockets u' = <[t := set_rx k (u32 (m_rxAvailable k + Z.of_nat (length d)))
                            (m_deliveryQueue k ++ [mkQueued (with_data q d) tags (saddr, sport)])]> (u_sockets u).
Proof.
  intros [Hwf Hdev (k & ptr & e & Hs & Hp & He & Hrx & Hport & Haddr & Hdev2 & Honly & Hopen & Hroom)].
  intros Hsrc Hdst Hlen E1 Hok Hsp1 Hdp1 E2 Hsp2.
  pose proof (dw_nodup _ (wb_demux _ _ Hwf)) as Hnd. pose proof He as Hin. apply at_ptr_elem in Hin; [|done].
  pose proof (Lookup_only daddr dport saddr sport ifc (u_demux u) ptr e Hnd Hin
    (eo_peer _ _ (wb_ep _ _ Hwf _ _ Hin)) Hrx Hport Haddr Hdev2 Honly) as El.
  destruct (wb_linked _ _ Hwf t id k ptr Hs Hp) as (e0 & He0 & Hcb & _). rewrite He in He0. injection He0 as <-.
  destruct (endPoint_ForwardUp_spec (with_data q d) h sport ifc ptr u Hwf Hdev) as ([] & u' & Ef & _ & _ & Hf);
    [by exists e|]. destruct (Hf e t k Hin Hcb Hs) as (k' & Es & Hk'). unfold received in Hk'.
  assert (GetSize (with_data q d) = Z.of_nat (length d)) as Hsz by (apply wrap_small; unfold in_range; simpl; lia).
  rewrite Hopen, Hsz in Hk'. destruct (Z.leb_spec (u32 (m_rxAvailable k + Z.of_nat (length d))) (m_rcvBufSize k)); [|lia].
  destruct Hk' as [tags ->]. exists u', k, tags. split; [|split; [done|by rewrite Es, Hsrc]].
  unfold udp_Receive. rewrite Hsrc, Hdst, E1, run_lifted, Hok. cbn [negb]. rewrite run_gets, Hsp1, Hdp1, El, run_lifted.
  rewrite E2, run_lifted. cbv beta iota. rewrite Hsp2. cbn [each].
  rewrite (run_bind _ _ _ tt u'); [done|]. by rewrite (run_bind _ _ _ _ _ Ef).
Qed.

(** ** The sender *)

Section sender.
Context {RP : Type} `{RoutingProtocol RP} `{NetDevices}.
Context (at_ : attributes) (Hash32 : bytes -> Z) (now : Z).
Notation checksum := (ChecksumEnabled at_).
#[local] Existing Instance udp_l4.
Implicit Types s : l3 RP Udp.

(** The header that [DoSendTo] asks a route for. *)
Definition route_header (dst : Z) : Ipv4Header :=
  Ipv4Header.SetProtocol PROT_NUMBER (Ipv4Header.SetDestination dst Ipv4Header.new_Ipv4Header).

(** Socket [n], bound to the port on any address, reaches [dst] out of [dev]. *)
Record sender (n : nat) (sport dst size src dev : Z) (s : l3 RP Udp) : Prop := {
  se_socket : exists k ptr e, u_sockets (l3_l4 s) !! n = Some k /\ m_endPoint k = Some ptr /\
    at_ptr ptr (u_demux (l3_l4 s)) = Some e /\ m_localAddr e = 0 /\ m_localPort e = sport /\
    m_shutdownSend k = false /\ ttl_tag k dst = None /\
    exists rp rp' errno_ rt i ifc, m_routingProtocol s = Some rp /\
      rp_RouteOutput (l3_ipv4 s) (route_header dst) (s_boundnetdevice k) rp = Ok (Some rt, errno_, rp') /\
      rt_source rt = src /\ rt_dev rt = Some dev /\ up_interface (l3_ipv4 s) dev i ifc /\
      existsb (fun a => dst =? m_broadcast a) (m_ifaddrs ifc) = false /\
      sends_to (l3_ipv4 s) dev size (if Ipv4Address.IsAny (rt_gateway rt) then dst else rt_gateway rt);
  se_unicast : Ipv4Address.IsMulticast dst = false /\ Ipv4Address.IsBroadcast dst = false;
  se_ranges : in_range 32 src /\ in_range 32 dst /\ in_range 16 sport;
  se_ttl : octet (m_defaultTtl s);
  se_ids : ids_ok s }.

Lemma run_udp {A B} (m : st Udp A) (k : A -> st (l3 RP Udp) B) s a l4' :
  m (l3_l4 s) = Ok (a, l4') -> (udp m ≫= k) s = k a (set_l4 l4' s).
Proof. intros E. unfold udp. rewrite (run_bind _ k s a (set_l4 l4' s)); [done|]. by rewrite run_gets, E. Qed.

Lemma run_socket n k (l4 : Udp) : u_sockets l4 !! n = Some k -> socket n l4 = Ok (k, l4).
Proof. intros E. unfold socket. rewrite run_gets. simpl. by rewrite E. Qed.

Lemma set_l4_id s : set_l4 (l3_l4 s) s = s.
Proof. by destruct s. Qed.

Lemma endPoint_of_run n k ptr e s :
  u_sockets (l3_l4 s) !! n = Some k -> m_endPoint k = Some ptr -> at_ptr ptr (u_demux (l3_l4 s)) = Some e ->
  endPoint_of (RP := RP) n s = Ok (e, s).
Proof.
  intros Hk Hp He. unfold endPoint_of. rewrite (run_udp _ _ _ _ _ (run_socket _ _ _ Hk)), set_l4_id, Hp.
  simpl deref. rewrite run_lifted, (run_udp _ _ _ (u_demux (l3_l4 s)) (l3_l4 s)) by done. by rewrite set_l4_id, He.
Qed.

Lemma subnet_broadcast_run rt dst dev i ifc s :
  rt_dev rt = Some dev -> up_interface (l3_ipv4 s) dev i ifc ->
  subnet_broadcast rt dst s = Ok (existsb (fun a => dst =? m_broadcast a) (m_ifaddrs ifc), s).
Proof.
  intros Hdev [Hi Hi0 Hget _ _]. unfold subnet_broadcast, ipv4. rewrite run_gets, Hdev, Hi.
  destruct (Z.ltb_spec i 0); [lia|]. rewrite Hget. done.
Qed.

(** One frame leaves, with the datagram of the payload. *)
Lemma DoSendTo_run n sport dst dport src dev p tos s :
  sender n sport dst (8 + Z.of_nat (length (p_data p))) src dev s ->
  Forall octet (p_data p) -> Z.of_nat (length (p_data p)) <= 65507 -> in_range 16 dport -> octet tos ->
  exists s' h l x c, DoSendTo at_ Hash32 now n p dst dport tos s = Ok (Z.of_nat (length (p_data p)), s') /\
    l3_log s' = l3_log s ++ l /\
    let d := datagram checksum src dst sport dport c (p_data p) in
    outputs l = [[OutTcSend dev (with_data p d) h (dev_GetBroadcast dev)]] /\
    AddIpv4Header h (with_data p d) = Ok x /\ on_wire checksum h d x /\
    Ipv4Header.GetSource h = src /\ Ipv4Header.GetDestination h = dst /\ Ipv4Header.GetProtocol h = 17 /\
    Ipv4Header.GetTtl h = m_defaultTtl s /\ is_fragment h = false /\
    (forall q, p_data q = d ->
     exists h1, PeekUdpHeader (rx_header checksum src dst) q = Ok h1 /\ IsChecksumOk h1 = true /\
       GetSourcePort h1 = sport /\ GetDestinationPort h1 = dport /\
     exists h2, RemoveUdpHeader h1 q = Ok (h2, with_data q (p_data p)) /\ GetSourcePort h2 = sport).
Proof.
  intros [(k & ptr & e & Hk & Hptr & He & Ha & Hsp & Hopen & Httl & rp & rp' & errno_ & rt & i & ifc & Hrp & Hro & Hsrc
    & Hdev & Hup & Hb & Hto) [Hm Hbc] (Rs & Rd & Rp) Hdttl Hids] Hoct Hlen Rdp Htos.
  destruct (datagram_read checksum src dst sport dport p) as (c & Hc & Eadd & Hread); [done..|lia|].
  set (d := datagram checksum src dst sport dport c (p_data p)) in *.
  assert (Z.of_nat (length d) = 8 + Z.of_nat (length (p_data p))) as Hld by apply datagram_length.
  assert (GetSize p = Z.of_nat (length (p_data p))) as Hsz by (apply wrap_small; unfold in_range; lia).
  set (o := mkOutgoing (mkTagged (with_data p d) None) None (if tos =? 0 then None else Some tos)).
  set (s1 := set_routing (Some rp') s).
  destruct (send_on_route_run at_ Hash32 now o d src dst 17 rt dev s1) as (h & l & s2 & x & Esend & Elog & El4 & Hout & Ex & Hx & Hf);
    [split|done|done|by rewrite Hld|].
  { done. }
  { lia. }
  { split; [done|]. split; [done|]. unfold octet. lia. }
  { done. }
  { unfold o. simpl. destruct (Z.eqb_spec tos 0); [unfold octet; simpl; lia|done]. }
  { done. }
  do 5 eexists. split; [|split; [|split; [exact Hout|split; [exact Ex|split; [exact Hx|]]]]].
  - unfold DoSendTo, ensure_bound.
    rewrite (run_bind _ _ s true s); [|by rewrite (run_udp _ _ _ _ _ (run_socket _ _ _ Hk)), set_l4_id, Hptr].
    cbn [negb]. rewrite (run_udp _ _ _ _ _ (run_socket _ _ _ Hk)), set_l4_id, Hopen, Hsz.
    destruct (Z.ltb_spec GetTxAvailable (Z.of_nat (length (p_data p)))) as [Hgt|_]; [unfold GetTxAvailable in Hgt; lia|].
    rewrite Hbc, Httl. rewrite (run_bind _ _ _ _ _ (endPoint_of_run n k ptr e s Hk Hptr He)), Ha.
    change (negb (0 =? Ipv4Address.GetAny)) with false. cbv iota.
    unfold send_routed. rewrite (run_udp _ _ _ _ _ (run_socket _ _ _ Hk)), set_l4_id, run_gets, Hrp. unfold ipv4.
    rewrite run_gets. fold (route_header dst). rewrite Hro, run_lifted, run_update. fold s1.
    rewrite (run_bind _ _ s1 false s1).
    2:{ destruct (m_allowBroadcast k); [done|]. by rewrite (subnet_broadcast_run rt dst dev i ifc), Hb. }
    rewrite (run_bind _ _ _ _ _ (endPoint_of_run n k ptr e s1 Hk Hptr He)), Hsp, Hsrc.
    rewrite (run_bind _ _ s1 tt s2); [|unfold udp_Send; rewrite Eadd, run_lifted; exact Esend].
    unfold sent. rewrite (run_udp _ _ _ tt _ eq_refl). rewrite Hsz. reflexivity.
  - simpl. exact Elog.
  - split_and!; try apply Hf. exact Hread.
Qed.
End sender.

(** * UDP from socket to socket, and examples

    The property that composes sockets, checksums, end points, the IPv4 stack
    and a path of routers; concrete nodes on which the properties of UDP hold. *)

#[local] Existing Instance udp_l4.

(** The stack delivers what arrives at [dev] for [dst] to UDP, where socket [t]
    takes it. *)
Record receiving_host {RP} `{RoutingProtocol RP} `{NetDevices} (dst dport : Z) (t : nat) (size dev : Z)
    (s : l3 RP Udp) : Prop := {
  rh_in : exists k ifc, up_interface (l3_ipv4 s) dev k ifc /\ GetProtocol 17 k s = Some PROT_NUMBER /\
    (exists rp, m_routingProtocol s = Some rp /\ forall q h', Ipv4Header.GetDestination h' = dst -> exists rp',
      rp_RouteInput (l3_ipv4 s) q h' (Some dev) true rp = Ok (true, [CallLocalDeliver q h' k], q, rp')) /\
    receiver dst dport t size ifc (l3_l4 s) }.

Lemma up_interface_unique i dev k ifc k' ifc' : up_interface i dev k ifc -> up_interface i dev k' ifc' -> ifc' = ifc.
Proof. intros [Hk _ Hg _ _] [Hk' _ Hg' _ _]. congruence. Qed.

Lemma fixed_source h h' : fixed_fields h = fixed_fields h' -> Ipv4Header.GetSource h = Ipv4Header.GetSource h'.
Proof. by intros [=]. Qed.

(** C8. A datagram goes from socket to socket.  What an application sends with
    [DoSendTo] leaves its node in one frame; the frame crosses any number of
    routers with a route to the destination, fewer than its TTL; the stack of
    the destination checks both checksums and puts exactly the payload, from the
    sender's address and port, at the end of the delivery queue of the socket
    that listens on the port, and changes no other socket.  No step fails. *)
Theorem udp_end_to_end {RP} `{RoutingProtocol RP} `{NetDevices} at_ Hash32 now
    n t sport dport src dst devA devB rs (sA sB : l3 RP Udp) p tos from :
  sender n sport dst (8 + Z.of_nat (length (p_data p))) src devA sA ->
  Forall (fun r => router dst (8 + Z.of_nat (length (p_data p))) (hop_in r) (hop_out r) (hop_stack r)) rs ->
  Z.of_nat (length rs) < m_defaultTtl sA ->
  receiving_host dst dport t (Z.of_nat (length (p_data p))) devB sB ->
  Forall octet (p_data p) -> Z.of_nat (length (p_data p)) <= 65507 -> in_range 16 dport -> octet tos ->
  exists sA' q h hw x p' sB' k q' tags,
    DoSendTo at_ Hash32 now n p dst dport tos sA = Ok (Z.of_nat (length (p_data p)), sA') /\
    outputs (drop (length (l3_log sA)) (l3_log sA')) = [[OutTcSend devA q h hw]] /\ AddIpv4Header h q = Ok x /\
    cross (P := Udp) (H1 := udp_l4 (ChecksumEnabled at_)) at_ Hash32 now rs (mkTagged x None) = Ok p' /\
    Receive (H1 := udp_l4 (ChecksumEnabled at_)) at_ Hash32 now devB p' from sB = Ok (tt, sB') /\
    u_sockets (l3_l4 sB) !! t = Some k /\ p_data q' = p_data p /\
    u_sockets (l3_l4 sB') =
      <[t := set_rx k (u32 (m_rxAvailable k + Z.of_nat (length (p_data p))))
                      (m_deliveryQueue k ++ [mkQueued q' tags (src, sport)])]> (u_sockets (l3_l4 sB)).
Proof.
  intros Hse Hrs Httl [(kB & ifc & Hup & Hg & Hroute & Hre)] Hoct Hlen Hdp Htos.
  pose proof (se_unicast _ _ _ _ _ _ _ Hse) as [Hm _].
  destruct (DoSendTo_run at_ Hash32 now n sport dst dport src devA p tos sA Hse Hoct Hlen Hdp Htos)
    as (sA' & h & l & x & c & Esend & Elog & Hout & Ex & Hx & Hsrc & Hdst & Hproto & Hht & Hfrag & Hread).
  set (d := datagram _ _ _ _ _ _ _) in *.
  assert (Z.of_nat (length d) = 8 + Z.of_nat (length (p_data p))) as Hld by apply datagram_length.
  assert (forall q' h', p_data q' = d -> fixed_fields h' = fixed_fields h -> exists u' k tags,
    l4_Receive (IpL4Protocol := udp_l4 (ChecksumEnabled at_)) PROT_NUMBER q' h' (Some ifc) (l3_l4 sB) = Ok (RX_OK, u') /\
    u_sockets (l3_l4 sB) !! t = Some k /\
    u_sockets u' = <[t := set_rx k (u32 (m_rxAvailable k + Z.of_nat (length (p_data p))))
       (m_deliveryQueue k ++ [mkQueued (with_data q' (p_data p)) tags (src, sport)])]> (u_sockets (l3_l4 sB))) as Hdeliver.
  { intros q' h' Hq' Hfix. destruct (Hread q' Hq') as (h1 & E1 & Hok & Hsp & Hdp1 & h2 & E2 & Hsp2).
    apply (udp_Receive_delivers _ h' q' src dst sport dport (p_data p) t ifc (l3_l4 sB) h1 h2); try done; [..|lia].
    - rewrite <- Hsrc. by apply fixed_source.
    - rewrite <- Hdst. by apply fixed_destination. }
  destruct (cross_delivers (H1 := udp_l4 (ChecksumEnabled at_)) at_ Hash32 now dst devB PROT_NUMBER rs sB h d (mkTagged x None) from)
    as (p' & lB & sB' & h' & ifc' & status & Ec & Er & _ & _ & Hfix & [k' Hup'] & E4); try done.
  - by rewrite Hld.
  - split. exists kB, ifc. rewrite Hproto, Hdst. split; [done|]. split; [done|]. split; [done|].
    intros q' h' Hq' Hf. destruct (Hdeliver q' h' Hq' Hf) as (u' & k & tags & E & _). by exists RX_OK, u'.
  - by rewrite Hht.
  - rewrite (up_interface_unique _ _ _ _ _ _ Hup Hup') in E4.
    destruct (Hdeliver (with_data (t_packet p') d) h' eq_refl Hfix) as (u' & k & tags & E & Hk & Hs).
    rewrite E in E4. injection E4 as _ Eu. exists sA'. do 4 eexists. exists p', sB', k. do 2 eexists.
    split; [exact Esend|]. rewrite Elog, drop_app_length. split; [exact Hout|]. split; [exact Ex|].
    split; [exact Ec|]. split; [exact Er|]. split; [done|]. rewrite <- Eu. split; [|exact Hs]. done.
Qed.

(** ** Concrete nodes *)

#[local] Instance example_devices : NetDevices := {|
  dev_GetMtu _ := 1500; dev_NeedsArp _ := false; dev_IsLoopback d := d =? 100; dev_IsMulticast _ := true;
  dev_GetBroadcast _ := 0xffffffffffff; dev_GetMulticast _ _ := 0x01005e000000 |}.
#[local] Existing Instance StaticRouting.static_protocol.
Notation node := (l3 StaticRouting.Ipv4StaticRouting Udp).

Definition example_attributes : attributes := mkAttributes true 30 false 5 20.
Definition no_hash (b : bytes) : Z := 0.

(** The UDP of a node after some calls. *)
Definition after (l : list udp_call) : Udp :=
  match each (run_call true (fun _ => true)) l new_Udp with Ok (_, u) => u | Err _ => new_Udp end.
Definition client_udp : Udp := after [CallCreateSocket; CallBind 0].
Definition server_udp : Udp := after [CallCreateSocket; CallBindTo 0 (InetSocketAddress 0 9 0)].

Definition router_table : StaticRouting.Ipv4StaticRouting :=
  StaticRouting.AddNetworkRouteTo 0x0a030000 0xffff0000 0x0a0102fe 2 0 (StaticRouting.mkStatic [] [] true).
Definition node_with (i : Ipv4) (rp : StaticRouting.Ipv4StaticRouting) (u : Udp) : node :=
  set_protocols {[ (17, -1) := PROT_NUMBER ]} (set_routing (Some rp) (set_ipv4 i (initial_l3 u))).
Definition client : node := node_with StaticRouting.example_ipv4 router_table client_udp.
Definition router_node : node := node_with StaticRouting.example_ipv4 router_table new_Udp.
Definition server_ipv4 : Ipv4 :=
  mkIpv4 [StaticRouting.if_with 100 0x7f000001; StaticRouting.if_with 201 0x0a030001]
    (<[100 := 0]> (<[201 := 1]> ∅)) true true.
Definition server : node := node_with server_ipv4 (StaticRouting.mkStatic [] [] true) server_udp.

Lemma first_socket_wf : wf_udp (after [CallCreateSocket]) /\ u_sockets (after [CallCreateSocket]) = [new_UdpSocketImpl].
Proof.
  split; [|done]. destruct (CreateSocket_spec new_Udp wf_udp_new) as (s & u & E & Hw & _).
  vm_compute in E. injection E as _ <-. exact Hw.
Qed.

Lemma server_udp_wf : wf_udp server_udp.
Proof.
  destruct first_socket_wf as [Hw Hs].
  destruct (BindTo_spec 0 (InetSocketAddress 0 9 0) new_UdpSocketImpl _ Hw) as (r & u & E & Hw' & _); [by rewrite Hs|done|].
  vm_compute in E. injection E as _ <-. exact Hw'.
Qed.

Lemma example_sends u : sends_to (l3_ipv4 (node_with StaticRouting.example_ipv4 router_table u)) 102 11 0x0a0102fe.
Proof. split; [|done..]. exists 2, (StaticRouting.if_with 102 0x0a010201). split; [by split|done]. Qed.

Lemma client_sends : sender 0 49153 0x0a030001 11 0x0a010201 102 client.
Proof.
  split; [|done| |done|].
  - do 3 eexists. split; [vm_compute; reflexivity|]. split; [reflexivity|]. split; [vm_compute; reflexivity|].
    do 4 (split; [done|]).
    exists router_table, router_table, (Some ERROR_NOTERROR), (mkRoute 0x0a030000 0x0a010201 0x0a0102fe (Some 102)),
      2, (StaticRouting.if_with 102 0x0a010201).
    split; [done|]. split; [vm_compute; reflexivity|]. split; [done|]. split; [done|]. split; [by split|].
    split; [done|]. apply example_sends.
  - unfold in_range. split; [lia|]. split; lia.
  - intros k v Hk. change ((∅ : gmap (Z * Z) Z) !! k = Some v) in Hk. by rewrite lookup_empty in Hk.
Qed.

Lemma router_forwards : router 0x0a030001 11 101 102 router_node.
Proof.
  split.
  - exists 1, (StaticRouting.if_with 101 0x0a010101). by split.
  - exists router_table, (mkRoute 0x0a030000 0x0a010201 0x0a0102fe (Some 102)).
    split; [done|]. split; [done|]. split; [|apply example_sends].
    intros q h Hd. exists router_table. simpl. unfold StaticRouting.RouteInput. rewrite Hd. reflexivity.
Qed.

Lemma server_receives : receiving_host 0x0a030001 9 0 3 201 server.
Proof.
  split. exists 1, (StaticRouting.if_with 201 0x0a030001). split; [by split|]. split; [done|]. split.
  - eexists. split; [done|]. intros q h Hd. eexists. simpl. unfold StaticRouting.RouteInput. rewrite Hd. reflexivity.
  - split; [apply server_udp_wf|done|]. do 3 eexists. split; [vm_compute; reflexivity|]. split; [reflexivity|].
    split; [vm_compute; reflexivity|]. do 2 (split; [done|]). split; [by right|]. split; [done|]. split; [|done].
    intros ptr e Hin _. vm_compute in Hin. by apply list_elem_of_singleton in Hin as [= -> _].
Qed.

Lemma udp_end_to_end_witness :
  exists sA' q h hw x p' sB' k q' tags,
    DoSendTo example_attributes no_hash 0 0 (mkPacket 7 [1; 2; 3]) 0x0a030001 9 0 client = Ok (3, sA') /\
    outputs (drop (length (l3_log client)) (l3_log sA')) = [[OutTcSend 102 q h hw]] /\ AddIpv4Header h q = Ok x /\
    cross (P := Udp) (H1 := udp_l4 true) example_attributes no_hash 0 [mkHop router_node 101 102; mkHop router_node 101 102]
      (mkTagged x None) = Ok p' /\
    Receive (H1 := udp_l4 true) example_attributes no_hash 0 201 p' 0 server = Ok (tt, sB') /\
    u_sockets (l3_l4 server) !! 0%nat = Some k /\ p_data q' = [1; 2; 3] /\
    u_sockets (l3_l4 sB') =
      <[0%nat := set_rx k (u32 (m_rxAvailable k + 3)) (m_deliveryQueue k ++ [mkQueued q' tags (0x0a010201, 49153)])]>
        (u_sockets (l3_l4 server)).
Proof.
  apply (udp_end_to_end example_attributes no_hash 0 0 0 49153 9 0x0a010201 0x0a030001 102 201); try done.
  - apply client_sends.
  - constructor; [apply router_forwards|constructor; [apply router_forwards|constructor]].
  - apply server_receives.
  - repeat constructor; unfold octet; lia.
Defined.

(** A first send, which binds the socket. *)
Definition fresh_client : node := node_with StaticRouting.example_ipv4 router_table (after [CallCreateSocket]).
Definition first_send : net_call := CallSendTo 0 (mkPacket 7 [1; 2; 3]) (InetSocketAddress 0x0a030001 9 0).

Lemma Lookup_most_specific_witness :
  exists l, Lookup 0x0a030001 9 0x0a010201 49153 (Some (StaticRouting.if_with 201 0x0a030001)) (u_demux server_udp) = Ok l /\
    (length l <= 1)%nat /\
    forall ptr, ptr ∈ l <-> best 0x0a030001 9 0x0a010201 49153 (StaticRouting.if_with 201 0x0a030001)
                             (m_endPoints (u_demux server_udp)) ptr.
Proof.
  destruct (Lookup_most_specific 0x0a030001 9 0x0a010201 49153 (StaticRouting.if_with 201 0x0a030001)
    (u_demux server_udp)) as [H|[E _]]; [vm_compute; repeat constructor; set_solver|exact H|].
  by vm_compute in E.
Defined.

Lemma ephemeral_port_found_witness :
  exists port d', AllocateEphemeralPort new_Ipv4EndPointDemux = Ok (port, d') /\ port = 49153 /\
    LookupPortLocal port new_Ipv4EndPointDemux = false.
Proof.
  destruct (ephemeral_port_found new_Ipv4EndPointDemux) as (port & d' & E & _ & _ & Hp); [by split|].
  exists port, d'. split; [exact E|]. assert (port = 49153) as -> by (vm_compute in E; by injection E as <- _).
  split; [done|]. by apply Hp.
Defined.
