(* ===== verification/FloatingPoint.v ===== *)
(** * Floating point

    The [double]s and [long double]s (of x86) that the code computes with: IEEE
    arithmetic that rounds to nearest, ties to even.  A finite value is [m * 2 ^ e];
    infinities and NaNs are not told apart, the code under verification only
    converts its results to integers.  The sign of a zero is not observable. *)

From S2P Require Import Prelude.

Inductive fp := Finite (m e : Z) | NotFinite.

(** Digits of the mantissa, least exponent, and the exponent of the first power
    of two out of range. *)
Record format := mkFormat { prec : Z; emin : Z; emax : Z }.
Definition binary64 : format := mkFormat 53 (-1074) 1024.
Definition x87 : format := mkFormat 64 (-16445) 16384.

(** [n / d] to the nearest integer, ties to even, for [0 <= n] and [0 < d]. *)
Definition rne (n d : Z) : Z :=
  let q := n / d in
  match 2 * (n mod d) ?= d with
  | Lt => q
  | Gt => q + 1
  | Eq => if Z.even q then q else q + 1
  end.

(** [x * 2 ^ e] is [up e x / down e]. *)
Definition up (e x : Z) : Z := x * 2 ^ Z.max 0 e.
Definition down (e : Z) : Z := 2 ^ Z.max 0 (- e).

(** The exponent that leaves [prec] digits before the point of [a / d]. *)
Definition fp_exponent (f : format) (a d : Z) : Z :=
  let e := Z.log2 a - Z.log2 d - prec f + 1 in
  Z.max (emin f) (if up (- e) a <? 2 ^ (prec f - 1) * (d * down (- e)) then e - 1 else e).

Definition round_abs (f : format) (a d : Z) : Z * Z :=
  let e := fp_exponent f a d in (rne (up (- e) a) (d * down (- e)), e).

(** [n / d] in a format, for [0 < d] *)
Definition round_to (f : format) (n d : Z) : fp :=
  if n =? 0 then Finite 0 0 else
  let '(m, e) := round_abs f (Z.abs n) d in
  if 2 ^ emax f * down e <=? up e m then NotFinite else Finite (Z.sgn n * m) e.

Definition fp_of_int (f : format) (n : Z) : fp := round_to f n 1.

(** A value in another format *)
Definition fp_convert (f : format) (x : fp) : fp :=
  match x with Finite m e => round_to f (up e m) (down e) | NotFinite => NotFinite end.

Definition fp_mul (f : format) (x y : fp) : fp :=
  match x, y with
  | Finite m e, Finite n g => round_to f (up (e + g) (m * n)) (down (e + g))
  | _, _ => NotFinite
  end.
Definition fp_add (f : format) (x y : fp) : fp :=
  match x, y with
  | Finite m e, Finite n g =>
      let h := Z.min e g in round_to f (up h (m * 2 ^ (e - h) + n * 2 ^ (g - h))) (down h)
  | _, _ => NotFinite
  end.
Definition fp_div (f : format) (x y : fp) : fp :=
  match x, y with
  | Finite m e, Finite n g =>
      if n =? 0 then NotFinite
      else round_to f (Z.sgn n * up (e - g) m) (Z.abs n * down (e - g))
  | _, _ => NotFinite
  end.

Definition fp_negative (v : fp) : bool := match v with Finite m _ => m <? 0 | NotFinite => false end.
Definition fp_neg (v : fp) : fp := match v with Finite m e => Finite (- m) e | NotFinite => NotFinite end.
Definition fp_sub (f : format) (x y : fp) : fp := fp_add f x (fp_neg y).

(** Comparisons of finite values; there is no answer for the others. *)
Definition fp_compare (x y : fp) : res comparison :=
  match x, y with
  | Finite m e, Finite n g => let h := Z.min e g in Ok (m * 2 ^ (e - h) ?= n * 2 ^ (g - h))
  | _, _ => Err UndefinedBehaviour
  end.
Definition fp_lt (x y : fp) : res bool :=
  c ← fp_compare x y; mret (match c with Lt => true | _ => false end).
Definition fp_le (x y : fp) : res bool :=
  c ← fp_compare x y; mret (match c with Gt => false | _ => true end).

(** Truncation to an integer: defined when the result is in [lo, hi]. *)
Definition fp_to_int (lo hi : Z) (x : fp) : res Z :=
  match x with
  | Finite m e =>
      let n := Z.quot (up e m) (down e) in
      if (lo <=? n) && (n <=? hi) then Ok n else Err UndefinedBehaviour
  | NotFinite => Err UndefinedBehaviour
  end.

(** ** Rounding *)

Lemma rne_exact n d : 0 < d -> rne (n * d) d = n.
Proof.
  intros Hd. unfold rne. rewrite Z.div_mul, Z.mod_mul by lia.
  destruct (Z.compare_spec (2 * 0) d); lia.
Qed.

Lemma rne_near n d : 0 < d -> 2 * Z.abs (rne n d * d - n) <= d.
Proof.
  intros Hd. unfold rne. pose proof (Z.div_mod n d ltac:(lia)). pose proof (Z.mod_pos_bound n d Hd).
  destruct (Z.compare_spec (2 * (n mod d)) d); [destruct (Z.even _)|..]; nia.
Qed.

Lemma log2_mul_bounds k d :
  0 < k -> 0 < d -> Z.log2 k + Z.log2 d <= Z.log2 (k * d) <= Z.log2 k + Z.log2 d + 1.
Proof.
  intros Hk Hd. pose proof (Z.log2_spec k Hk) as [K1 K2]. pose proof (Z.log2_spec d Hd) as [D1 D2].
  pose proof (Z.log2_nonneg k). pose proof (Z.log2_nonneg d). split.
  - apply Z.log2_le_pow2; [nia|]. rewrite Z.pow_add_r by lia. nia.
  - apply Z.lt_succ_r, Z.log2_lt_pow2; [nia|].
    replace (Z.succ (Z.log2 k + Z.log2 d + 1)) with (Z.succ (Z.log2 k) + Z.succ (Z.log2 d)) by lia.
    rewrite Z.pow_add_r by lia. nia.
Qed.

(** An integer that fits the mantissa is not rounded; whatever the fraction that
    gives it. *)
Record wide (f : format) : Prop := { wide_prec : 0 < prec f <= emax f; wide_emin : emin f <= 0 }.

Lemma round_abs_int f k d :
  wide f -> 0 < d -> 0 < k < 2 ^ prec f -> exists e, e <= 0 /\ round_abs f (k * d) d = (k * 2 ^ (- e), e).
Proof.
  intros Hf Hd Hk. assert (fp_exponent f (k * d) d <= 0) as He.
  { unfold fp_exponent. apply Z.max_lub; [apply (wide_emin _ Hf)|].
    pose proof (log2_mul_bounds k d ltac:(lia) Hd) as Hl.
    assert (Z.log2 k < prec f) as Hp by (apply Z.log2_lt_pow2; lia).
    set (e0 := Z.log2 (k * d) - Z.log2 d - prec f + 1) in *.
    destruct (Z.ltb_spec (up (- e0) (k * d)) (2 ^ (prec f - 1) * (d * down (- e0)))) as [|Hge]; [lia|].
    destruct (Z_le_gt_dec e0 0) as [|Hgt]; [done|]. assert (e0 = 1) as E by lia. rewrite E in Hge.
    unfold up, down in Hge. change (- (1)) with (-1) in Hge. change (- -1) with 1 in Hge.
    assert (2 ^ prec f = 2 ^ (prec f - 1) * 2) as E2.
    { replace (prec f) with (prec f - 1 + 1) at 1 by lia. rewrite Z.pow_add_r; [done|pose proof (wide_prec _ Hf); lia|lia]. }
    assert (k * d < 2 ^ (prec f - 1) * 2 * d) by (apply Z.mul_lt_mono_pos_r; lia).
    change (Z.max 0 (-1)) with 0 in Hge. change (Z.max 0 1) with 1 in Hge. rewrite ?Z.pow_0_r, ?Z.pow_1_r in Hge. lia. }
  exists (fp_exponent f (k * d) d). split; [done|]. unfold round_abs. f_equal.
  set (e := fp_exponent f (k * d) d) in *. unfold up, down.
  rewrite Z.opp_involutive, (Z.max_r 0 (- e)), (Z.max_l 0 e), Z.mul_1_r by lia.
  rewrite <- Z.mul_assoc, (Z.mul_comm d), Z.mul_assoc. by apply rne_exact.
Qed.

Lemma round_to_int f k d :
  wide f -> 0 < d -> Z.abs k < 2 ^ prec f ->
  exists e, e <= 0 /\ round_to f (k * d) d = Finite (k * 2 ^ (- e)) e.
Proof.
  intros Hf Hd Hk. unfold round_to. destruct (Z.eqb_spec (k * d) 0) as [Hz|Hz].
  { exists 0. assert (k = 0) as -> by nia. done. }
  rewrite Z.abs_mul, (Z.abs_eq d) by lia.
  destruct (round_abs_int f (Z.abs k) d Hf Hd) as (e & He & ->); [lia|]. exists e. split; [done|].
  assert (2 ^ prec f <= 2 ^ emax f) by (apply Z.pow_le_mono_r; [lia|apply (wide_prec _ Hf)]).
  rewrite (proj2 (Z.leb_gt _ _)).
  - f_equal. rewrite Z.sgn_mul, (Z.sgn_pos d), Z.mul_1_r, Z.mul_assoc by lia. f_equal. lia.
  - unfold up, down. rewrite Z.max_l, Z.max_r, Z.mul_1_r by lia. apply Z.mul_lt_mono_pos_r; lia.
Qed.

Lemma wide_binary64 : wide binary64.
Proof. split; simpl; lia. Qed.
Lemma wide_x87 : wide x87.
Proof. split; simpl; lia. Qed.

(** The value of [Finite (k * 2 ^ (- e)) e]. *)
Lemma convert_int f k e :
  wide f -> e <= 0 -> Z.abs k < 2 ^ prec f ->
  exists e', e' <= 0 /\ fp_convert f (Finite (k * 2 ^ (- e)) e) = Finite (k * 2 ^ (- e')) e'.
Proof.
  intros Hf He Hk. unfold fp_convert, up, down. rewrite Z.max_l, Z.max_r, Z.mul_1_r by lia.
  apply round_to_int; [done|lia|done].
Qed.

(** ** Bounds

    [bounded x k]: the value is in [0, k].  Rounding keeps integer bounds. *)

Definition bounded (x : fp) (k : Z) : Prop := exists m e, x = Finite m e /\ 0 <= m /\ up e m <= k * down e.

(** The comparison after a shift that makes both sides integers. *)
Lemma up_down a x y N : 0 <= N -> - a <= N -> up a x <= y * down a <-> x * 2 ^ (a + N) <= y * 2 ^ N.
Proof.
  intros HN Ha. unfold up, down. destruct (Z.le_gt_cases 0 a) as [H|H].
  - rewrite (Z.max_r 0 a), (Z.max_l 0 (- a)), Z.pow_0_r, Z.mul_1_r by lia.
    rewrite Z.pow_add_r, Z.mul_assoc by lia. rewrite <- Z.mul_le_mono_pos_r; [done|lia].
  - rewrite (Z.max_l 0 a), (Z.max_r 0 (- a)), Z.pow_0_r, Z.mul_1_r by lia.
    replace N with (- a + (a + N)) at 2 by lia. rewrite (Z.pow_add_r 2 (- a)), Z.mul_assoc by lia.
    rewrite <- Z.mul_le_mono_pos_r; [done|lia].
Qed.

Lemma rne_le n d N : 0 < d -> n <= N * d -> rne n d <= N.
Proof.
  intros Hd Hn. unfold rne. pose proof (Z.div_mod n d ltac:(lia)). pose proof (Z.mod_pos_bound n d Hd).
  destruct (Z.compare_spec (2 * (n mod d)) d); [destruct (Z.even _)|..]; nia.
Qed.
Lemma rne_nonneg n d : 0 < d -> 0 <= n -> 0 <= rne n d.
Proof.
  intros Hd Hn. unfold rne. pose proof (Z.div_pos n d Hn Hd). destruct (_ ?= d); [destruct (Z.even _)|..]; lia.
Qed.

(** A positive exponent is only for values that need more than the mantissa. *)
Lemma fp_exponent_small f a d k :
  wide f -> 0 < a -> 0 < d -> k < 2 ^ prec f -> a <= k * d -> fp_exponent f a d <= 0.
Proof.
  intros Hf Ha Hd Hk Hle. unfold fp_exponent. apply Z.max_lub; [apply (wide_emin _ Hf)|].
  pose proof (Z.log2_spec a Ha) as [A1 A2]. pose proof (Z.log2_spec d Hd) as [D1 D2]. pose proof (wide_prec _ Hf) as Hp.
  assert (a < 2 ^ prec f * d) as Hlt by nia.
  set (e := Z.log2 a - Z.log2 d - prec f + 1) in *.
  assert (Z.log2 a <= prec f + Z.log2 d) as Hl.
  { apply Z.lt_succ_r, (Z.pow_lt_mono_r_iff 2); [lia|pose proof (Z.log2_nonneg d); lia|].
    eapply Z.le_lt_trans; [exact A1|]. eapply Z.lt_le_trans; [exact Hlt|].
    replace (Z.succ (prec f + Z.log2 d)) with (prec f + Z.succ (Z.log2 d)) by lia.
    pose proof (Z.log2_nonneg d). rewrite Z.pow_add_r by lia. apply Z.mul_le_mono_nonneg_l; lia. }
  destruct (Z.ltb_spec (up (- e) a) (2 ^ (prec f - 1) * (d * down (- e)))) as [|Hge]; [lia|].
  destruct (Z_le_gt_dec e 0); [done|]. assert (e = 1) as E by lia. rewrite E in Hge. unfold up, down in Hge.
  change (Z.max 0 (- (1))) with 0 in Hge. change (Z.max 0 (- - (1))) with 1 in Hge. rewrite Z.pow_0_r, Z.pow_1_r in Hge.
  replace (prec f) with (prec f - 1 + 1) in Hlt by lia. rewrite Z.pow_add_r in Hlt by lia. lia.
Qed.

Lemma round_bounded f n d k :
  wide f -> 0 < d -> 0 <= k < 2 ^ prec f -> 0 <= n <= k * d -> bounded (round_to f n d) k.
Proof.
  intros Hf Hd Hk Hn. unfold round_to. destruct (Z.eqb_spec n 0) as [->|Hz].
  { exists 0, 0. split; [done|]. unfold up, down. simpl. lia. }
  rewrite Z.abs_eq, Z.sgn_pos by lia. unfold round_abs. cbv zeta beta iota. rewrite Z.mul_1_l.
  pose proof (fp_exponent_small f n d k Hf ltac:(lia) Hd ltac:(lia) ltac:(lia)) as He.
  set (e := fp_exponent f n d) in *.
  assert (up (- e) n <= k * 2 ^ (- e) * (d * down (- e))) as Hup.
  { unfold up, down. rewrite (Z.max_r 0 (- e)), (Z.max_l 0 (- - e)), Z.pow_0_r, Z.mul_1_r by lia. nia. }
  assert (0 < d * down (- e)) as Hdd by (unfold down; nia).
  pose proof (rne_le _ _ _ Hdd Hup) as Hm.
  assert (0 <= rne (up (- e) n) (d * down (- e))) as H0 by (apply rne_nonneg; [done|unfold up; nia]).
  set (m := rne _ _) in *.
  assert (up e m = m /\ down e = 2 ^ (- e)) as [E1 E2].
  { unfold up, down. rewrite Z.max_l, Z.max_r by lia. by rewrite Z.pow_0_r, Z.mul_1_r. }
  pose proof (wide_prec _ Hf). assert (2 ^ prec f <= 2 ^ emax f) by (apply Z.pow_le_mono_r; lia).
  rewrite E1, E2, (proj2 (Z.leb_gt _ _)) by nia. exists m, e. rewrite E1, E2. done.
Qed.

Lemma of_int_bounded f n : wide f -> 0 <= n < 2 ^ prec f -> bounded (fp_of_int f n) n.
Proof. intros. apply round_bounded; [done|lia..]. Qed.
Lemma convert_bounded f x k : wide f -> 0 <= k < 2 ^ prec f -> bounded x k -> bounded (fp_convert f x) k.
Proof.
  intros Hf Hk (m & e & -> & Hm & H). unfold fp_convert. apply round_bounded; [done|unfold down; lia|done|].
  split; [unfold up; nia|done].
Qed.
Lemma add_bounded f x y j k :
  wide f -> 0 <= j + k < 2 ^ prec f -> bounded x j -> bounded y k -> bounded (fp_add f x y) (j + k).
Proof.
  intros Hf Hk (m & e & -> & Hm & Hx) (n & g & -> & Hn & Hy). unfold fp_add. set (h := Z.min e g).
  apply round_bounded; [done|unfold down; lia|done|]. split; [unfold up; nia|].
  set (N := Z.abs e + Z.abs g). apply (up_down e m j N) in Hx; [|lia..]. apply (up_down g n k N) in Hy; [|lia..].
  apply (up_down h _ _ N); [lia..|]. rewrite !Z.mul_add_distr_r, <- !Z.mul_assoc, <- !Z.pow_add_r by lia.
  replace (e - h + (h + N)) with (e + N) by lia. replace (g - h + (h + N)) with (g + N) by lia. lia.
Qed.
Lemma div_bounded f x n g j k :
  wide f -> 0 < n -> 0 <= k < 2 ^ prec f -> bounded x j -> j * down g <= k * up g n ->
  bounded (fp_div f x (Finite n g)) k.
Proof.
  intros Hf Hn Hk (m & e & -> & Hm & Hx) Hj. unfold fp_div. rewrite (proj2 (Z.eqb_neq _ _)), Z.sgn_pos, Z.mul_1_l, Z.abs_eq by lia.
  apply round_bounded; [done|unfold down; nia|done|]. split; [unfold up; nia|].
  set (N := Z.abs e + Z.abs g). rewrite Z.mul_assoc. apply (up_down (e - g) m _ N); [lia..|].
  apply (up_down e m j N) in Hx; [|lia..].
  assert (j * 2 ^ N <= k * n * 2 ^ (g + N)) as Hj'.
  { unfold up, down in Hj. destruct (Z.le_gt_cases 0 g).
    - rewrite (Z.max_l 0 (- g)), (Z.max_r 0 g), Z.pow_0_r, Z.mul_1_r in Hj by lia. rewrite Z.pow_add_r by lia. nia.
    - rewrite (Z.max_r 0 (- g)), (Z.max_l 0 g), Z.pow_0_r, Z.mul_1_r in Hj by lia.
      replace N with (- g + (g + N)) at 1 by lia. rewrite Z.pow_add_r by lia. nia. }
  apply (Z.mul_le_mono_pos_r _ _ (2 ^ (N + N))); [lia|].
  replace (m * 2 ^ (e - g + N) * 2 ^ (N + N)) with (m * 2 ^ (e + N) * 2 ^ (N + N - g)).
  2:{ rewrite <- !Z.mul_assoc, <- !Z.pow_add_r by lia. do 2 f_equal. lia. }
  replace (k * n * 2 ^ N * 2 ^ (N + N)) with (k * n * 2 ^ (g + N) * 2 ^ (N + N - g)).
  2:{ rewrite <- !Z.mul_assoc, <- !Z.pow_add_r by lia. do 3 f_equal. lia. }
  apply Z.mul_le_mono_nonneg_r; [lia|]. lia.
Qed.

(** ** Multiples of a power of two

    [ple x a y b]: [x * 2 ^ a <= y * 2 ^ b].  [between v lo hi q]: the value [v] is from
    [lo * 2 ^ q] to [hi * 2 ^ q].  Rounding keeps such bounds when the mantissa
    holds them. *)

Definition ple (x a y b : Z) : Prop := x * 2 ^ (a - Z.min a b) <= y * 2 ^ (b - Z.min a b).
Definition between (v : fp) (lo hi q : Z) : Prop := exists m e, v = Finite m e /\ ple lo q m e /\ ple m e hi q.
(** [v] is the integer [k]. *)
Definition is_int (v : fp) (k : Z) : Prop := between v k k 0.

Lemma ple_at k x a y b : k <= a -> k <= b -> ple x a y b <-> x * 2 ^ (a - k) <= y * 2 ^ (b - k).
Proof.
  intros Ha Hb. unfold ple. set (h := Z.min a b).
  replace (a - k) with (a - h + (h - k)) by lia. replace (b - k) with (b - h + (h - k)) by lia.
  rewrite !Z.pow_add_r, !Z.mul_assoc by lia. apply Z.mul_le_mono_pos_r. lia.
Qed.
(** Both sides scaled by the same power *)
Lemma ple_shift x a y b i j : 0 <= i -> 0 <= j -> i - j = a - b -> ple x a y b <-> x * 2 ^ i <= y * 2 ^ j.
Proof.
  intros Hi Hj E. rewrite (ple_at (a - i)) by lia.
  replace (a - (a - i)) with i by lia. by replace (b - (a - i)) with j by lia.
Qed.
Lemma ple_move x a y b i j a' b' :
  0 <= i -> 0 <= j -> a + i - (b + j) = a' - b' -> ple (x * 2 ^ i) a (y * 2 ^ j) b <-> ple x a' y b'.
Proof.
  intros Hi Hj E. set (k := Z.min a b). rewrite (ple_at k), <- !Z.mul_assoc, <- !Z.pow_add_r by lia.
  symmetry. apply ple_shift; lia.
Qed.
Lemma ple_weaken x a y b x' y' : x' <= x -> y <= y' -> ple x a y b -> ple x' a y' b.
Proof.
  intros Hx Hy H. unfold ple in *. set (h := Z.min a b) in *.
  assert (x' * 2 ^ (a - h) <= x * 2 ^ (a - h)) by (apply Z.mul_le_mono_nonneg_r; lia).
  assert (y * 2 ^ (b - h) <= y' * 2 ^ (b - h)) by (apply Z.mul_le_mono_nonneg_r; lia). lia.
Qed.
Lemma ple_trans x a y b z c : ple x a y b -> ple y b z c -> ple x a z c.
Proof. set (k := Z.min (Z.min a b) c). rewrite !(ple_at k) by lia. lia. Qed.
Lemma between_weaken v lo hi lo' hi' q : between v lo hi q -> lo' <= lo -> hi <= hi' -> between v lo' hi' q.
Proof. intros (m & e & -> & H1 & H2) Hl Hh. exists m, e. split; [done|]. split; by eapply ple_weaken; [..|eassumption]. Qed.
Lemma between_finer v lo hi q d : 0 <= d -> between v lo hi q <-> between v (lo * 2 ^ d) (hi * 2 ^ d) (q - d).
Proof.
  intros Hd. assert (forall m e, (ple lo q m e <-> ple (lo * 2 ^ d) (q - d) m e) /\ (ple m e hi q <-> ple m e (hi * 2 ^ d) (q - d))) as H.
  { intros m e. set (k := Z.min e (q - d)). rewrite !(ple_at k) by lia. rewrite <- !Z.mul_assoc, <- !Z.pow_add_r by lia.
    by replace (d + (q - d - k)) with (q - k) by lia. }
  split; intros (m & e & -> & H1 & H2); exists m, e; (split; [done|]); split; by apply H.
Qed.
Lemma between_neg v lo hi q : between v lo hi q -> between (fp_neg v) (- hi) (- lo) q.
Proof.
  intros (m & e & -> & H1 & H2). exists (- m), e. split; [done|].
  unfold ple in *. rewrite !Z.mul_opp_l, !(Z.min_comm e q) in *. lia.
Qed.

Lemma rne_ge n d N : 0 < d -> N * d <= n -> N <= rne n d.
Proof.
  intros Hd Hn. unfold rne. pose proof (Z.div_le_lower_bound n d N Hd ltac:(lia)).
  destruct (_ ?= _); [destruct (Z.even _)|..]; lia.
Qed.

(** The exponent is not above that of a bound which the mantissa holds. *)
Lemma fp_exponent_le f a d k q :
  wide f -> 0 < a -> 0 < d -> emin f <= q -> k < 2 ^ prec f -> ple a 0 (k * d) q -> fp_exponent f a d <= q.
Proof.
  intros Hf Ha Hd Hq Hk Hle. unfold fp_exponent. apply Z.max_lub; [done|].
  pose proof (Z.log2_spec a Ha) as [A1 A2]. pose proof (Z.log2_spec d Hd) as [D1 D2]. pose proof (wide_prec _ Hf) as Hp.
  rewrite (ple_shift _ _ _ _ (Z.max 0 (- q)) (Z.max 0 q)) in Hle by lia.
  set (i := Z.max 0 (- q)) in *. set (j := Z.max 0 q) in *. assert (0 < 2 ^ j) by lia.
  assert (a * 2 ^ i < 2 ^ prec f * d * 2 ^ j) as Hlt.
  { eapply Z.le_lt_trans; [exact Hle|]. apply Z.mul_lt_mono_pos_r; [done|]. by apply Z.mul_lt_mono_pos_r. }
  set (e := Z.log2 a - Z.log2 d - prec f + 1) in *.
  pose proof (Z.log2_nonneg d). pose proof (Z.log2_nonneg a).
  assert (Z.log2 a + i <= prec f + Z.log2 d + j) as Hl.
  { apply Z.lt_succ_r, (Z.pow_lt_mono_r_iff 2); [lia..|].
    eapply Z.le_lt_trans; [|eapply Z.lt_le_trans; [exact Hlt|]].
    - rewrite Z.pow_add_r by lia. apply Z.mul_le_mono_nonneg_r; lia.
    - replace (Z.succ (prec f + Z.log2 d + j)) with (prec f + Z.succ (Z.log2 d) + j) by lia.
      rewrite !Z.pow_add_r by lia. apply Z.mul_le_mono_nonneg_r; [lia|]. apply Z.mul_le_mono_nonneg_l; lia. }
  destruct (Z.ltb_spec (up (- e) a) (2 ^ (prec f - 1) * (d * down (- e)))) as [|Hge]; [lia|].
  destruct (Z_le_gt_dec e q); [done|]. assert (e = q + 1) as E by lia. exfalso.
  unfold up, down in Hge. rewrite (Z.mul_assoc _ d) in Hge.
  rewrite <- (ple_shift (2 ^ (prec f - 1) * d) e a 0), (ple_shift _ _ _ _ (j + 1) i) in Hge by lia.
  assert (2 ^ prec f = 2 ^ (prec f - 1) * 2) as E2.
  { replace (prec f) with (prec f - 1 + 1) at 1 by lia. by rewrite Z.pow_add_r by lia. }
  rewrite (Z.pow_add_r 2 j 1), Z.pow_1_r in Hge by lia. rewrite E2 in Hlt. lia.
Qed.

Lemma round_to_neg f n d : round_to f (- n) d = fp_neg (round_to f n d).
Proof.
  unfold round_to. destruct (Z.eqb_spec n 0) as [->|Hn]; [done|].
  rewrite (proj2 (Z.eqb_neq _ _)), Z.abs_opp, Z.sgn_opp by lia. destruct (round_abs f (Z.abs n) d) as [m e].
  case_match; [done|]. simpl. by rewrite Z.mul_opp_l.
Qed.

(** A positive quotient below a bound is rounded to the nearest multiple of [2 ^ e]. *)
Lemma round_to_pos f n d hi q :
  wide f -> 0 < n -> 0 < d -> emin f <= q <= emax f - prec f -> hi < 2 ^ prec f -> ple n 0 (hi * d) q ->
  exists e, e <= q /\ round_to f n d = Finite (rne (up (- e) n) (d * down (- e))) e.
Proof.
  intros Hf Hn Hd Hq Hhi Hh. unfold round_to. rewrite (proj2 (Z.eqb_neq _ _)), Z.abs_eq, Z.sgn_pos by lia.
  unfold round_abs. cbv zeta beta iota. rewrite Z.mul_1_l.
  pose proof (fp_exponent_le f n d hi q Hf Hn Hd (proj1 Hq) Hhi Hh) as He. set (e := fp_exponent f n d) in *.
  exists e. split; [done|]. rewrite (proj2 (Z.leb_gt _ _)); [done|].
  assert (rne (up (- e) n) (d * down (- e)) <= hi * 2 ^ (q - e)) as Hm.
  { apply rne_le; [unfold down; nia|]. unfold up, down. rewrite (Z.mul_comm d), Z.mul_assoc.
    replace (hi * 2 ^ (q - e) * 2 ^ Z.max 0 (- - e) * d) with (hi * d * 2 ^ (q - e + Z.max 0 (- - e))) by (rewrite Z.pow_add_r by lia; ring).
    rewrite <- (ple_shift n 0 (hi * d) q) by lia. done. }
  set (m := rne _ _) in *. pose proof (wide_prec _ Hf). unfold up, down.
  rewrite <- Z.pow_add_r by lia.
  assert (m * 2 ^ Z.max 0 e <= hi * 2 ^ (q - e) * 2 ^ Z.max 0 e) as H1 by (apply Z.mul_le_mono_nonneg_r; lia).
  assert (hi * (2 ^ (q - e) * 2 ^ Z.max 0 e) < 2 ^ prec f * (2 ^ (q - e) * 2 ^ Z.max 0 e)) as H2 by (apply Z.mul_lt_mono_pos_r; lia).
  assert (2 ^ prec f * (2 ^ (q - e) * 2 ^ Z.max 0 e) <= 2 ^ (emax f + Z.max 0 (- e))) as H3.
  { rewrite <- !Z.pow_add_r by lia. apply Z.pow_le_mono_r; lia. }
  lia.
Qed.

Definition fits_format (f : format) (lo hi q : Z) : Prop :=
  emin f <= q <= emax f - prec f /\ - 2 ^ prec f < lo /\ hi < 2 ^ prec f.

Lemma round_between_pos f n d lo hi q :
  wide f -> 0 < n -> 0 < d -> fits_format f lo hi q -> ple (lo * d) q n 0 -> ple n 0 (hi * d) q -> between (round_to f n d) lo hi q.
Proof.
  intros Hf Hn Hd (Hq & _ & Hhi) Hlo Hh. destruct (round_to_pos f n d hi q) as (e & He & ->); [done..|].
  assert (0 < d * down (- e)) as Hdd by (unfold down; nia).
  assert (forall z, z * 2 ^ (q - e) * (d * down (- e)) = z * d * 2 ^ (q - e + Z.max 0 e)) as Ez.
  { intros z. unfold down. rewrite Z.opp_involutive, Z.pow_add_r by lia. ring. }
  assert (lo * 2 ^ (q - e) <= rne (up (- e) n) (d * down (- e)) <= hi * 2 ^ (q - e)) as Hm.
  { split; [apply rne_ge|apply rne_le]; [done| |done|]; rewrite Ez; unfold up; (eapply ple_shift; [..|eassumption]); lia. }
  eexists _, e. split; [done|]. rewrite !(ple_at e), Z.sub_diag, Z.mul_1_r by lia. done.
Qed.
Lemma round_between f n d lo hi q :
  wide f -> 0 < d -> fits_format f lo hi q -> ple (lo * d) q n 0 -> ple n 0 (hi * d) q -> between (round_to f n d) lo hi q.
Proof.
  intros Hf Hd (Hq & Hlo & Hhi) H1 H2. destruct (Z.lt_trichotomy n 0) as [H|[->|H]].
  - rewrite <- (Z.opp_involutive n), round_to_neg, <- (Z.opp_involutive lo), <- (Z.opp_involutive hi).
    apply between_neg, round_between_pos; [done|lia|done|unfold fits_format; lia|..];
      unfold ple in *; rewrite !Z.mul_opp_l, ?(Z.min_comm 0 q) in *; lia.
  - exists 0, 0. split; [done|]. unfold ple in *. rewrite !(Z.min_comm 0 q) in *. set (h := Z.min q 0) in *.
    assert (0 < 2 ^ (q - h)) by lia. clear - Hd H1 H2 H. split; nia.
  - by apply round_between_pos.
Qed.
Lemma rne_lt n d N : 0 < d -> 2 * n < (2 * N + 1) * d -> rne n d <= N.
Proof.
  intros Hd Hn. unfold rne. pose proof (Z.div_mod n d ltac:(lia)). pose proof (Z.mod_pos_bound n d Hd).
  destruct (Z.compare_spec (2 * (n mod d)) d); [destruct (Z.even _)|..]; nia.
Qed.
(** What is more than half a step below a bound stays below it. *)
Lemma round_below f n d N q :
  wide f -> 0 < n -> 0 < d -> emin f <= q <= 0 -> N < 2 ^ prec f -> 2 * n * 2 ^ (- q) < (2 * N - 1) * d ->
  exists m e, round_to f n d = Finite m e /\ e <= q /\ m < N * 2 ^ (q - e).
Proof.
  intros Hf Hn Hd Hq HN Hlt. pose proof (wide_prec _ Hf) as Hp.
  destruct (round_to_pos f n d N q) as (e & He & ->); [done..|lia|done| |].
  { rewrite (ple_shift _ _ _ _ (- q) 0), Z.mul_1_r by lia. nia. }
  eexists _, e. split; [done|]. split; [done|]. unfold up, down. rewrite !(Z.max_r 0 (- e)), (Z.max_l 0 (- - e)), Z.mul_1_r by lia.
  apply Z.lt_le_pred, rne_lt; [done|]. rewrite (Z.mul_comm 2), <- Z.sub_1_r.
  replace (- e) with (- q + (q - e)) by lia. rewrite Z.pow_add_r by lia. assert (0 < 2 ^ (q - e)) by lia.
  set (x := 2 ^ (- q)) in *. set (y := 2 ^ (q - e)) in *. nia.
Qed.

(** ** The operations keep bounds *)

Section Operations.
Context (f : format) (Hf : wide f).

Lemma round_value m e lo hi q :
  fits_format f lo hi q -> ple lo q m e -> ple m e hi q -> between (round_to f (up e m) (down e)) lo hi q.
Proof using Hf.
  intros Hfit H1 H2. unfold up, down.
  apply round_between; [done|lia|done|eapply ple_move; [..|exact H1]|eapply ple_move; [..|exact H2]]; lia.
Qed.
Lemma of_int_value n : - 2 ^ prec f < n < 2 ^ prec f -> is_int (fp_of_int f n) n.
Proof using Hf.
  intros Hn. pose proof (wide_emin _ Hf). pose proof (wide_prec _ Hf).
  apply round_between; [done|lia|unfold fits_format; lia|..]; unfold ple; simpl; lia.
Qed.
Lemma add_between x y a b c d q :
  fits_format f (a + c) (b + d) q -> between x a b q -> between y c d q -> between (fp_add f x y) (a + c) (b + d) q.
Proof using Hf.
  intros Hfit (m & e & -> & X1 & X2) (n & g & -> & Y1 & Y2). unfold fp_add. set (h := Z.min e g). set (k := Z.min h q).
  rewrite (ple_at k) in X1, X2, Y1, Y2 by lia.
  assert ((m * 2 ^ (e - h) + n * 2 ^ (g - h)) * 2 ^ (h - k) = m * 2 ^ (e - k) + n * 2 ^ (g - k)) as Es.
  { rewrite Z.mul_add_distr_r, <- !Z.mul_assoc, <- !Z.pow_add_r by lia. f_equal; do 2 f_equal; lia. }
  apply round_value; [done|..]; rewrite (ple_at k) by lia; lia.
Qed.
Lemma sub_between x y a b c d q :
  fits_format f (a - d) (b - c) q -> between x a b q -> between y c d q -> between (fp_sub f x y) (a - d) (b - c) q.
Proof using Hf. intros Hfit Hx Hy. apply add_between; [done..|by apply between_neg]. Qed.
Lemma ple_mul a q m e c r n g : 0 <= a -> 0 <= c -> ple a q m e -> ple c r n g -> ple (a * c) (q + r) (m * n) (e + g).
Proof using.
  intros Ha Hc H1 H2. set (h1 := Z.min e q). set (h2 := Z.min g r). rewrite (ple_at h1) in H1 by lia. rewrite (ple_at h2) in H2 by lia.
  assert (0 <= a * 2 ^ (q - h1)) by (apply Z.mul_nonneg_nonneg; lia). assert (0 <= c * 2 ^ (r - h2)) by (apply Z.mul_nonneg_nonneg; lia).
  rewrite (ple_at (h1 + h2)) by lia.
  replace (q + r - (h1 + h2)) with (q - h1 + (r - h2)) by lia. replace (e + g - (h1 + h2)) with (e - h1 + (g - h2)) by lia.
  rewrite !Z.pow_add_r, !(Z.mul_shuffle1 _ _ (2 ^ (_ - h1)) (2 ^ (_ - h2))) by lia. apply Z.mul_le_mono_nonneg; lia.
Qed.
Lemma ple_nonneg a q m e : 0 <= a -> ple a q m e -> 0 <= m.
Proof using.
  unfold ple. set (h := Z.min q e). intros Ha H. assert (0 <= a * 2 ^ (q - h)) by (apply Z.mul_nonneg_nonneg; lia).
  assert (0 < 2 ^ (e - h)) by lia. nia.
Qed.
(** The rounded product of values that are not negative *)
Lemma mul_value x y a b c d q r lo hi t :
  fits_format f lo hi t -> ple lo t (a * c) (q + r) -> ple (b * d) (q + r) hi t -> 0 <= a -> 0 <= c ->
  between x a b q -> between y c d r -> between (fp_mul f x y) lo hi t.
Proof using Hf.
  intros Hfit H1 H2 Ha Hc (m & e & -> & X1 & X2) (n & g & -> & Y1 & Y2).
  apply round_value; [done|eapply ple_trans; [exact H1|]; by apply ple_mul|].
  eapply ple_trans; [|exact H2]. apply ple_mul; [exact (ple_nonneg _ _ _ _ Ha X1)|exact (ple_nonneg _ _ _ _ Hc Y1)|done|done].
Qed.
Lemma mul_int x y j k :
  - 2 ^ prec f < j * k < 2 ^ prec f -> is_int x j -> is_int y k -> is_int (fp_mul f x y) (j * k).
Proof using Hf.
  intros Hjk Hx Hy. assert (forall x y j k, 0 <= j -> 0 <= k -> j * k < 2 ^ prec f -> is_int x j -> is_int y k -> is_int (fp_mul f x y) (j * k)) as Hpos.
  { clear - Hf. intros x y j k Hj Hk Hjk Hx Hy. pose proof (wide_emin _ Hf). pose proof (wide_prec _ Hf).
    apply (mul_value x y j j k k 0 0); try done; [unfold fits_format; nia|rewrite (ple_shift _ _ _ _ 0 0); lia..]. }
  assert (forall x y, fp_mul f (fp_neg x) y = fp_neg (fp_mul f x y)) as Hl.
  { intros [m e|] [n g|]; try done. simpl. unfold up. rewrite !Z.mul_opp_l. apply round_to_neg. }
  assert (forall x y, fp_mul f x (fp_neg y) = fp_neg (fp_mul f x y)) as Hr.
  { intros [m e|] [n g|]; try done. simpl. unfold up. rewrite Z.mul_opp_r, !Z.mul_opp_l. apply round_to_neg. }
  assert (forall x, fp_neg (fp_neg x) = x) as Hnn by (intros [m e|]; simpl; [by rewrite Z.opp_involutive|done]).
  pose proof (between_neg _ _ _ _ Hx) as Hx'. pose proof (between_neg _ _ _ _ Hy) as Hy'.
  rewrite <- (Hnn (fp_mul f x y)). destruct (Z.le_ge_cases 0 j), (Z.le_ge_cases 0 k).
  - rewrite Hnn. apply Hpos; [done..|lia|done|done].
  - replace (j * k) with (- (j * - k)) by lia. rewrite <- Hr. apply between_neg, Hpos; [done|lia|lia|done|done].
  - replace (j * k) with (- (- j * k)) by lia. rewrite <- Hl. apply between_neg, Hpos; [lia|lia|lia|done|done].
  - rewrite Hnn. replace (j * k) with (- j * - k) by lia. replace (fp_mul f x y) with (fp_mul f (fp_neg x) (fp_neg y)) by (by rewrite Hl, Hr, Hnn).
    apply Hpos; [lia|lia|lia|done|done].
Qed.

(** The rounded sum of integers *)
Lemma add_value x y j k lo hi q :
  fits_format f lo hi q -> ple lo q (j + k) 0 -> ple (j + k) 0 hi q -> is_int x j -> is_int y k -> between (fp_add f x y) lo hi q.
Proof using Hf.
  intros Hfit H1 H2 (m & e & -> & X1 & X2) (n & g & -> & Y1 & Y2). unfold fp_add. set (h := Z.min e g). set (l := Z.min h 0).
  rewrite (ple_at l) in X1, X2, Y1, Y2 by lia.
  assert ((m * 2 ^ (e - h) + n * 2 ^ (g - h)) * 2 ^ (h - l) = m * 2 ^ (e - l) + n * 2 ^ (g - l)) as Es.
  { rewrite Z.mul_add_distr_r, <- !Z.mul_assoc, <- !Z.pow_add_r by lia. f_equal; do 2 f_equal; lia. }
  apply round_value; [done|eapply ple_trans; [exact H1|]|eapply ple_trans; [|exact H2]]; rewrite (ple_at l) by lia; lia.
Qed.
Lemma le_between x y lo hi a b q r : between x lo hi q -> between y a b r -> ple hi q a r -> fp_le x y = Ok true.
Proof using.
  intros (m & e & -> & _ & X) (n & g & -> & Y & _) H. unfold fp_le, fp_compare. cbn [mbind res_bind mret res_ret].
  assert (ple m e n g) as Hle by (eapply ple_trans; [exact X|]; by eapply ple_trans).
  unfold ple in Hle. by destruct (Z.compare_spec (m * 2 ^ (e - Z.min e g)) (n * 2 ^ (g - Z.min e g))); [..|lia].
Qed.
Lemma le_total x y lo hi a b q r : between x lo hi q -> between y a b r -> exists c, fp_le x y = Ok c.
Proof using. intros (m & e & -> & _) (n & g & -> & _). by eexists. Qed.

Lemma compare_int x y j k : is_int x j -> is_int y k -> fp_compare x y = Ok (j ?= k).
Proof using.
  intros (m & e & -> & X1 & X2) (n & g & -> & Y1 & Y2). unfold fp_compare. f_equal.
  set (h := Z.min e g). set (l := Z.min h 0). rewrite (ple_at l) in X1, X2, Y1, Y2 by lia.
  assert (m * 2 ^ (e - h) * 2 ^ (h - l) = j * 2 ^ (0 - l)) as E1.
  { rewrite <- Z.mul_assoc, <- Z.pow_add_r by lia. replace (e - h + (h - l)) with (e - l) by lia. lia. }
  assert (n * 2 ^ (g - h) * 2 ^ (h - l) = k * 2 ^ (0 - l)) as E2.
  { rewrite <- Z.mul_assoc, <- Z.pow_add_r by lia. replace (g - h + (h - l)) with (g - l) by lia. lia. }
  rewrite (Zmult_compare_compat_r _ _ (2 ^ (h - l))), E1, E2, <- Zmult_compare_compat_r by lia. done.
Qed.
Lemma lt_int x y j k : is_int x j -> is_int y k -> fp_lt x y = Ok (j <? k).
Proof using. intros Hx Hy. unfold fp_lt. rewrite (compare_int x y j k Hx Hy). unfold Z.ltb. simpl. by destruct (j ?= k). Qed.
Lemma le_int x y j k : is_int x j -> is_int y k -> fp_le x y = Ok (j <=? k).
Proof using. intros Hx Hy. unfold fp_le. rewrite (compare_int x y j k Hx Hy). unfold Z.leb. simpl. by destruct (j ?= k). Qed.

(** Truncation of a value that is not negative *)
Lemma to_int_range l h m e lo hi :
  ple lo 0 m e -> ~ ple (hi + 1) 0 m e -> 0 <= lo -> l <= lo -> hi <= h ->
  exists n, fp_to_int l h (Finite m e) = Ok n /\ lo <= n <= hi.
Proof using.
  intros H1 H2 Hn Hl Hh. rewrite (ple_shift _ _ _ _ (Z.max 0 (- e)) (Z.max 0 e)) in H1 by lia.
  rewrite (ple_shift _ _ _ _ (Z.max 0 (- e)) (Z.max 0 e)), Z.nle_gt in H2 by lia. unfold fp_to_int, up, down.
  set (d := 2 ^ Z.max 0 (- e)) in *. assert (0 < d) by lia. set (x := m * 2 ^ Z.max 0 e) in *.
  assert (lo <= Z.quot x d <= hi) as Hq.
  { rewrite Z.quot_div_nonneg by nia. split; [apply Z.div_le_lower_bound; lia|].
    apply Z.lt_succ_r, Z.div_lt_upper_bound; lia. }
  exists (Z.quot x d). by rewrite (proj2 (Z.leb_le _ _)), (proj2 (Z.leb_le _ _)) by lia.
Qed.
Lemma to_int_floor l h m e n :
  ple n 0 m e -> ~ ple (n + 1) 0 m e -> 0 <= n -> l <= n <= h -> fp_to_int l h (Finite m e) = Ok n.
Proof using.
  intros H1 H2 Hn Hr. destruct (to_int_range l h m e n n) as (n' & E & Hn'); [done..|lia|lia|]. rewrite E. f_equal. lia.
Qed.
Lemma to_int_neg l h v n : fp_to_int l h v = Ok n -> l <= - n <= h -> fp_to_int l h (fp_neg v) = Ok (- n).
Proof using.
  intros E Hr. destruct v as [m e|]; [|done]. unfold fp_to_int in *. simpl. destruct (_ && _); [|done]. injection E as <-.
  unfold up in *. rewrite Z.mul_opp_l, Z.quot_opp_l by (unfold down; lia).
  by rewrite (proj2 (Z.leb_le _ _)), (proj2 (Z.leb_le _ _)) by lia.
Qed.

(** The quotient of integers [j / k], with [0 < k] *)
Lemma div_int x y j k :
  is_int x j -> is_int y k -> 0 < k -> exists n d, 0 < d /\ fp_div f x y = round_to f n d /\ n * k = j * d.
Proof using.
  intros (m & e & -> & X1 & X2) (n & g & -> & Y1 & Y2) Hk. set (h := Z.min (Z.min e g) 0).
  rewrite (ple_at h) in X1, X2, Y1, Y2 by lia.
  assert (m * 2 ^ (e - h) = j * 2 ^ (0 - h)) as Em by lia. assert (n * 2 ^ (g - h) = k * 2 ^ (0 - h)) as En by lia.
  assert (0 < 2 ^ (g - h)) by lia. assert (0 < 2 ^ (0 - h)) by lia. assert (0 < n) as Hn by nia.
  exists (up (e - g) m), (n * down (e - g)). split; [unfold down; nia|]. split.
  - unfold fp_div. by rewrite (proj2 (Z.eqb_neq _ _)), Z.sgn_pos, Z.mul_1_l, Z.abs_eq by lia.
  - apply (Z.mul_cancel_r _ _ (2 ^ (0 - h))); [lia|]. unfold up, down. rewrite <- Z.mul_assoc, <- En.
    rewrite <- (Z.mul_assoc j), (Z.mul_comm _ (2 ^ (0 - h))), (Z.mul_assoc j), <- Em.
    assert (2 ^ Z.max 0 (e - g) * 2 ^ (g - h) = 2 ^ (e - h) * 2 ^ Z.max 0 (- (e - g))) as E.
    { rewrite <- !Z.pow_add_r by lia. f_equal. lia. }
    transitivity (m * n * (2 ^ Z.max 0 (e - g) * 2 ^ (g - h))); [ring|]. rewrite E. ring.
Qed.
End Operations.
