(* ===== verification/RngStream.v ===== *)
(** * Random number streams ([src/core/model/rng-stream.cc], [rng-seed-manager.cc], and
      [RandomVariableStream], [UniformRandomVariable] and [ConstantRandomVariable] of
      [random-variable-stream.cc])

    The generator MRG32k3a computes with integers below [2 ^ 32] in [double]s; a
    stream starts where it does by powers of the transition matrices.  Vectors
    and matrices are records of three components.  The table of the powers of
    two is the function that fills it, on the indices it has. *)

From S2P Require Import Prelude FloatingPoint.

Declare Scope double_scope.
Delimit Scope double_scope with double.
Infix "+" := (fp_add binary64) : double_scope.
Infix "-" := (fp_sub binary64) : double_scope.
Infix "*" := (fp_mul binary64) : double_scope.
Infix "/" := (fp_div binary64) : double_scope.
Definition dbl (n : Z) : fp := fp_of_int binary64 n.
Definition to_int32 (x : fp) : res Z := fp_to_int (- 2 ^ 31) (2 ^ 31 - 1) x.
Definition to_uint32 (x : fp) : res Z := fp_to_int 0 (2 ^ 32 - 1) x.

(** ** Arithmetic with doubles *)

Record vec (A : Type) := Vec { c0 : A; c1 : A; c2 : A }.
Arguments Vec {A} _ _ _.
Arguments c0 {A} _.
Arguments c1 {A} _.
Arguments c2 {A} _.
Definition vmap {A B} (f : A -> B) (v : vec A) : vec B := Vec (f (c0 v)) (f (c1 v)) (f (c2 v)).
Definition each3 {A B} (f : A -> res B) (v : vec A) : res (vec B) :=
  x0 ← f (c0 v); x1 ← f (c1 v); x2 ← f (c2 v); mret (Vec x0 x1 x2).
(** Rows of components *)
Definition transpose {A} (M : vec (vec A)) : vec (vec A) := Vec (vmap c0 M) (vmap c1 M) (vmap c2 M).

Definition Matrix := vec (vec fp).

Definition m1 : fp := dbl 4294967087.
Definition m2 : fp := dbl 4294944443.
Definition norm : fp := (dbl 1 / (m1 + dbl 1))%double.
Definition a12 : fp := dbl 1403580.
Definition a13n : fp := dbl 810728.
Definition a21 : fp := dbl 527612.
Definition a23n : fp := dbl 1370589.
Definition two17 : fp := dbl 131072.
Definition two53 : fp := dbl 9007199254740992.

Definition A1p0 : Matrix :=
  Vec (Vec (dbl 0) (dbl 1) (dbl 0)) (Vec (dbl 0) (dbl 0) (dbl 1)) (Vec (dbl (-810728)) (dbl 1403580) (dbl 0)).
Definition A2p0 : Matrix :=
  Vec (Vec (dbl 0) (dbl 1) (dbl 0)) (Vec (dbl 0) (dbl 0) (dbl 1)) (Vec (dbl (-1370589)) (dbl 0) (dbl 527612)).

(** The end of [MultModM], and the reduction of [RandU01]: [v] less a multiple of [m]. *)
Definition reduce (v m : fp) : res fp :=
  k ← to_int32 (v / m)%double;
  let v := (v - dbl k * m)%double in
  neg ← fp_lt v (dbl 0);
  mret (if neg : bool then (v + m)%double else v).

Definition MultModM (a s c m : fp) : res fp :=
  let v := (a * s + c)%double in
  above ← fp_le two53 v;
  below ← fp_le v (fp_neg two53);
  v ← (if (above || below : bool) then
         a1 ← to_int32 (a / two17)%double;
         let a := (a - dbl a1 * two17)%double in
         let v := (dbl a1 * s)%double in
         a1 ← to_int32 (v / m)%double;
         let v := (v - dbl a1 * m)%double in
         mret (v * two17 + a * s + c)%double
       else mret v);
  reduce v m.

Definition row_times (s : vec fp) (m : fp) (row : vec fp) : res fp :=
  x ← MultModM (c0 row) (c0 s) (dbl 0) m;
  x ← MultModM (c1 row) (c1 s) x m;
  MultModM (c2 row) (c2 s) x m.
Definition MatVecModM (A : Matrix) (s : vec fp) (m : fp) : res (vec fp) := each3 (row_times s m) A.
Definition MatMatModM (A B : Matrix) (m : fp) : res Matrix :=
  W ← each3 (fun V => MatVecModM A V m) (transpose B); mret (transpose W).
Fixpoint MatTwoPowModM (src : Matrix) (m : fp) (e : nat) : res Matrix :=
  match e with
  | O => mret src
  | S e => dst ← MatTwoPowModM src m e; MatMatModM dst dst m
  end.

Definition identity : Matrix :=
  Vec (Vec (dbl 1) (dbl 0) (dbl 0)) (Vec (dbl 0) (dbl 1) (dbl 0)) (Vec (dbl 0) (dbl 0) (dbl 1)).
(** The loop of [MatPowModM]; an [int32_t] has fewer than 32 binary digits. *)
Fixpoint pow_loop (fuel : nat) (W B : Matrix) (m : fp) (n : Z) : res Matrix :=
  if n <=? 0 then mret B else
  match fuel with
  | O => Err OutOfFuel
  | S fuel =>
      B ← (if Z.odd n then MatMatModM W B m else mret B);
      W ← MatMatModM W W m;
      pow_loop fuel W B m (n / 2)
  end.
Definition MatPowModM (A : Matrix) (m : fp) (n : Z) : res Matrix := pow_loop 32 A identity m n.

(** The entry [i] of [Precalculated], which [PowerOfTwoConstants] fills *)
Definition PowerOfTwoConstants (i : Z) : res (Matrix * Matrix) :=
  _ ← deref (if (0 <=? i) && (i <? 190) then Some tt else None);
  a1 ← MatTwoPowModM A1p0 m1 (Z.to_nat (i + 1));
  a2 ← MatTwoPowModM A2p0 m2 (Z.to_nat (i + 1));
  mret (a1, a2).
Definition PowerOfTwoMatrix (n : Z) : res (Matrix * Matrix) := PowerOfTwoConstants (n - 1).

(** ** The generator *)

(** [m_currentState], its first and its last three entries *)
Record RngStream := mkRng { m_first : vec fp; m_second : vec fp }.

Definition shift {A} (s : vec A) (x : A) : vec A := Vec (c1 s) (c2 s) x.

Definition RandU01 : st RngStream fp := fun r =>
  let s := m_first r in let t := m_second r in
  p1 ← reduce (a12 * c1 s - a13n * c0 s)%double m1;
  p2 ← reduce (a21 * c2 t - a23n * c0 t)%double m2;
  lt ← fp_lt p2 p1;
  let u := (if lt : bool then (p1 - p2) * norm else (p1 - p2 + m1) * norm)%double in
  Ok (u, mkRng (shift s p1) (shift t p2)).

(** One turn of [AdvanceNthBy], with [nbit] *)
Definition advance_bit (nth by_ nbit : Z) : st RngStream unit := fun r =>
  if Z.testbit nth nbit then
    '(matrix1, matrix2) ← PowerOfTwoMatrix (by_ + nbit);
    s ← MatVecModM matrix1 (m_first r) m1;
    t ← MatVecModM matrix2 (m_second r) m2;
    Ok (tt, mkRng s t)
  else Ok (tt, r).
Definition AdvanceNthBy (nth by_ : Z) : st RngStream unit :=
  each (fun i => advance_bit nth by_ (63 - Z.of_nat i)) (seq 0 64).

Definition new_RngStream (seedNumber stream substream : Z) : res RngStream :=
  over1 ← fp_le m1 (dbl seedNumber);
  over2 ← fp_le m2 (dbl seedNumber);
  _ ← ns_require (negb (over1 || over2 || (seedNumber =? 0)));
  let s := Vec (dbl seedNumber) (dbl seedNumber) (dbl seedNumber) in
  '(_, r) ← AdvanceNthBy stream 127 (mkRng s s);
  '(_, r) ← AdvanceNthBy substream 76 r;
  mret r.

(** ** The seed manager *)

Record RngSeedManager := mkSeeds { g_nextStreamIndex : Z; g_rngSeed : Z; g_rngRun : Z }.
Definition initial_seeds : RngSeedManager := mkSeeds 0 1 1.
Definition GetSeed (g : RngSeedManager) : Z := u32 (g_rngSeed g).
Definition SetSeed (seed : Z) (g : RngSeedManager) : RngSeedManager := mkSeeds (g_nextStreamIndex g) seed (g_rngRun g).
Definition GetRun (g : RngSeedManager) : Z := g_rngRun g.
Definition SetRun (run : Z) (g : RngSeedManager) : RngSeedManager := mkSeeds (g_nextStreamIndex g) (g_rngSeed g) run.
Definition GetNextStreamIndex (g : RngSeedManager) : Z * RngSeedManager :=
  (g_nextStreamIndex g, mkSeeds (u64 (g_nextStreamIndex g + 1)) (g_rngSeed g) (g_rngRun g)).

(** ** Random variables *)

Record RandomVariableStream := mkVariable { m_rng : option RngStream; m_isAntithetic : bool; m_stream : Z }.
Definition SetAntithetic (isAntithetic : bool) (v : RandomVariableStream) : RandomVariableStream :=
  mkVariable (m_rng v) isAntithetic (m_stream v).
Definition IsAntithetic (v : RandomVariableStream) : bool := m_isAntithetic v.
Definition GetStream (v : RandomVariableStream) : Z := m_stream v.

(** The argument is an [int64_t]. *)
Definition SetStream (stream : Z) (v : RandomVariableStream) : st RngSeedManager RandomVariableStream := fun g =>
  _ ← ns_assert (-1 <=? stream);
  '(target, g) ← (if stream =? -1 then
      let '(nextStream, g) := GetNextStreamIndex g in
      _ ← ns_assert (nextStream <=? 2 ^ 63);
      mret (nextStream, g)
    else mret (u64 (2 ^ 63 + stream), g));
  rng ← new_RngStream (GetSeed g) target (GetRun g);
  Ok (mkVariable (Some rng) (m_isAntithetic v) stream, g).

Definition Peek {A} (f : st RngStream A) : st RandomVariableStream A := fun v =>
  r ← deref (m_rng v);
  '(a, r) ← f r;
  Ok (a, mkVariable (Some r) (m_isAntithetic v) (m_stream v)).

(** [UniformRandomVariable]: the attributes [Min] and [Max] are arguments. *)
Definition GetValue_between (min max : fp) : st RandomVariableStream fp :=
  u ← Peek RandU01;
  let v := (min + u * (max - min))%double in
  antithetic ← gets IsAntithetic;
  mret (if antithetic : bool then min + (max - v) else v)%double.
Definition GetInteger_between (min max : Z) : st RandomVariableStream Z :=
  _ ← lift (ns_assert (min <=? max));
  v ← GetValue_between (dbl min) (dbl max + dbl 1)%double;
  lift (to_uint32 v).
Definition GetValue (m_min m_max : fp) : st RandomVariableStream fp := GetValue_between m_min m_max.
Definition GetInteger (m_min m_max : fp) : st RandomVariableStream Z :=
  v ← GetValue_between m_min (m_max + dbl 1)%double;
  lift (to_uint32 v).

(** [ConstantRandomVariable]: the attribute [Constant] is an argument. *)
Definition Constant_GetValue (m_constant : fp) : fp := m_constant.
Definition Constant_GetInteger (m_constant : fp) : res Z := to_uint32 (Constant_GetValue m_constant).
