(* ===== verification/RngStreamSpec.v ===== *)
(** * The random number streams are those of MRG32k3a

    The arithmetic in [double]s is exact: the generator computes the two linear
    recurrences modulo [m1] and [m2] on integers, and a stream starts as many
    steps from the seed as its number and that of its substream say. *)

From S2P Require Import Prelude FloatingPoint RngStream.

Definition M1 : Z := 4294967087.
Definition M2 : Z := 4294944443.
(** What the moduli have in common *)
Definition modulus (k : Z) : Prop := 2 ^ 32 - 2 ^ 16 < k < 2 ^ 32.


Lemma int_add x y j k : - 2 ^ 53 < j + k < 2 ^ 53 -> is_int x j -> is_int y k -> is_int (x + y)%double (j + k).
Proof. intros H. apply add_between; [apply wide_binary64|]. unfold fits_format. simpl. lia. Qed.
Lemma int_sub x y j k : - 2 ^ 53 < j - k < 2 ^ 53 -> is_int x j -> is_int y k -> is_int (x - y)%double (j - k).
Proof. intros H. apply sub_between; [apply wide_binary64|]. unfold fits_format. simpl. lia. Qed.
Lemma int_mul x y j k : - 2 ^ 53 < j * k < 2 ^ 53 -> is_int x j -> is_int y k -> is_int (x * y)%double (j * k).
Proof. intros H. apply mul_int; [apply wide_binary64|]. simpl. lia. Qed.
Lemma int_dbl k : - 2 ^ 53 < k < 2 ^ 53 -> is_int (dbl k) k.
Proof. intros H. apply of_int_value; [apply wide_binary64|]. simpl. lia. Qed.

Lemma div_trunc_pos x y j k :
  modulus k -> 0 <= j < 2 ^ 53 -> is_int x j -> is_int y k -> to_int32 (x / y)%double = Ok (j / k).
Proof.
  intros Hk Hj Hx Hy. unfold modulus in Hk.
  destruct (div_int binary64 x y j k Hx Hy) as (n & d & Hd & -> & E); [lia|].
  pose proof (Z.mod_pos_bound j k ltac:(lia)) as Hr. pose proof (Z.div_mod j k ltac:(lia)) as Hq. set (q := j / k) in *.
  assert (0 <= q < 2 ^ 21 + 2 ^ 6) as Hq0 by nia.
  destruct (Z.eq_dec j 0) as [->|Hj0].
  { assert (n = 0) as -> by nia. assert (q = 0) as -> by nia. done. }
  assert (0 < n) as Hn by nia.
  assert (q * d <= n <= (q + 1) * d) as Hnd by nia.
  destruct (round_between_pos binary64 n d q (q + 1) 0) as (m & e & Em & H1 & _);
    [apply wide_binary64|done..|unfold fits_format; simpl; lia|apply (ple_shift _ _ _ _ 0 0); lia|apply (ple_shift _ _ _ _ 0 0); lia|].
  destruct (round_below binary64 n d ((q + 1) * 2 ^ 31) (-31)) as (m' & e' & Em' & He' & H2);
    [apply wide_binary64|done..|simpl; lia|simpl; lia| |].
  { change (- -31) with 31.
    assert (2 ^ 32 * j < (2 * ((q + 1) * 2 ^ 31) - 1) * k) as Hlt by (set (r := j mod k) in *; clearbody q r; clear - Hq Hr Hk; lia).
    apply (Z.mul_lt_mono_pos_l k); [lia|].
    replace (k * (2 * n * 2 ^ 31)) with (2 ^ 32 * j * d) by (transitivity (2 ^ 32 * (n * k)); [rewrite E|]; ring).
    replace (k * ((2 * ((q + 1) * 2 ^ 31) - 1) * d)) with ((2 * ((q + 1) * 2 ^ 31) - 1) * k * d) by ring.
    by apply Z.mul_lt_mono_pos_r. }
  rewrite Em in Em' |- *. injection Em' as <- <-.
  apply to_int_floor; [done| |lia|lia]. rewrite (ple_at e), Z.sub_diag, Z.mul_1_r, Z.nle_gt by lia.
  eapply Z.lt_le_trans; [exact H2|]. rewrite <- Z.mul_assoc, <- Z.pow_add_r by lia.
  by replace (31 + (-31 - e)) with (0 - e) by lia.
Qed.

Lemma fp_div_neg x y : fp_div binary64 (fp_neg x) y = fp_neg (fp_div binary64 x y).
Proof.
  destruct x as [m e|], y as [n g|]; try done. unfold fp_div. cbn [fp_neg]. destruct (n =? 0); [done|].
  unfold up. rewrite Z.mul_opp_l, Z.mul_opp_r. apply round_to_neg.
Qed.
(** The quotient that the code computes is the integer quotient, rounded towards zero. *)
Lemma div_trunc x y j k :
  modulus k -> - 2 ^ 53 < j < 2 ^ 53 -> is_int x j -> is_int y k -> to_int32 (x / y)%double = Ok (Z.quot j k).
Proof.
  intros Hk Hj Hx Hy. destruct (Z.le_ge_cases 0 j) as [H|H].
  - rewrite Z.quot_div_nonneg by (unfold modulus in Hk; lia). apply div_trunc_pos; [done|lia|done|done].
  - assert (fp_neg (fp_neg x) = x) as Hn by (destruct x; simpl; [by rewrite Z.opp_involutive|done]).
    rewrite <- Hn, fp_div_neg. replace j with (- - j) by lia. pose proof (between_neg _ _ _ _ Hx) as Hx'.
    assert (- j / k <= 2 ^ 22) by (apply Z.div_le_upper_bound; unfold modulus in Hk; lia).
    assert (0 <= - j / k) by (apply Z.div_pos; unfold modulus in Hk; lia).
    rewrite Z.quot_opp_l, Z.quot_div_nonneg by (unfold modulus in Hk; lia).
    apply to_int_neg; [apply div_trunc_pos; [done|lia|done|done]|lia].
Qed.

Lemma reduce_exact v m j k :
  modulus k -> - 2 ^ 53 < j < 2 ^ 53 -> is_int v j -> is_int m k -> exists x, reduce v m = Ok x /\ is_int x (j mod k).
Proof.
  intros Hk Hj Hv Hm. unfold reduce. rewrite (div_trunc v m j k Hk Hj Hv Hm). cbn [mbind res_bind].
  unfold modulus in Hk. pose proof (Z.quot_rem j k ltac:(lia)) as Eq. pose proof (Z.rem_bound_abs j k ltac:(lia)) as Hr.
  assert ((0 <= j -> 0 <= Z.rem j k) /\ (j <= 0 -> Z.rem j k <= 0)) as Hs.
  { split; intros; [by apply Z.rem_nonneg; [lia|]|by apply Z.rem_nonpos; [lia|]]. } set (q := Z.quot j k) in *. set (r := Z.rem j k) in *.
  clearbody q r. assert (Z.abs (q * k) <= Z.abs j) as Hqk.
  { clear - Eq Hr Hs Hk. destruct (Z.le_ge_cases 0 j) as [H|H].
    - assert (0 <= q) by (destruct (Z.le_gt_cases 0 q); [done|nia]). nia.
    - assert (q <= 0) by (destruct (Z.le_gt_cases q 0); [done|nia]). nia. }
  assert (Z.abs q <= 2 ^ 22) as Hq by (clear - Hqk Hj Hk; nia).
  assert (is_int (v - dbl q * m)%double r) as Hsub.
  { replace r with (j - q * k) by lia. apply int_sub; [lia|done|]. apply int_mul; [lia|apply int_dbl; lia|done]. }
  rewrite (lt_int _ _ r 0 Hsub (int_dbl 0 ltac:(lia))). cbn [mbind res_bind].
  destruct (Z.ltb_spec r 0) as [Hneg|Hpos].
  - eexists. split; [done|]. replace (j mod k) with (r + k).
    + by apply int_add; [lia|..].
    + apply Z.mod_unique with (q - 1); [lia|]. lia.
  - eexists. split; [done|]. replace (j mod k) with r; [done|]. apply Z.mod_unique with q; lia.
Qed.

Lemma div_two17 x j : 0 <= j < 2 ^ 32 -> is_int x j -> to_int32 (x / two17)%double = Ok (j / 2 ^ 17).
Proof.
  intros Hj Hx. destruct (div_int binary64 x two17 j (2 ^ 17) Hx (int_dbl (2 ^ 17) ltac:(lia))) as (n & d & Hd & -> & E); [lia|].
  destruct (round_between binary64 n d j j (-17)) as (m & e & -> & H1 & H2);
    [apply wide_binary64|done|unfold fits_format; simpl; lia|rewrite (ple_shift _ _ _ _ 0 17); lia|rewrite (ple_shift _ _ _ _ 17 0); lia|].
  pose proof (Z.div_mod j (2 ^ 17) ltac:(lia)). pose proof (Z.mod_pos_bound j (2 ^ 17) ltac:(lia)).
  apply to_int_floor; [| |lia|lia].
  - eapply ple_trans; [|exact H1]. rewrite (ple_shift _ _ _ _ 17 0); lia.
  - intros H3. pose proof (ple_trans _ _ _ _ _ _ H3 H2) as H4. rewrite (ple_shift _ _ _ _ 17 0) in H4; lia.
Qed.

(** The operands of the code: small or not negative. *)
Definition operands (a s c k : Z) : Prop :=
  0 <= c < k /\ (0 <= a < k /\ 0 <= s < k \/ - 2 ^ 53 < a * s /\ a * s + c < 2 ^ 53).

Lemma MultModM_exact a s c m A S C k :
  modulus k -> operands A S C k -> is_int a A -> is_int s S -> is_int c C -> is_int m k ->
  exists x, MultModM a s c m = Ok x /\ is_int x ((A * S + C) mod k).
Proof.
  intros Hk [HC Hop] Ha Hs Hc Hm. assert (2 ^ 31 < k < 2 ^ 32) as Hk' by (unfold modulus in Hk; lia).
  assert (is_int two53 (2 ^ 53)) as Htwo.
  { eexists _, _. split; [vm_compute; reflexivity|]. done. }
  unfold MultModM. cbv zeta. destruct (Z.lt_ge_cases (A * S + C) (2 ^ 53)) as [Hsmall|Hbig].
  - assert (- 2 ^ 53 < A * S) as Hlow by (destruct Hop as [[H1 H2]|]; [nia|lia]).
    assert (is_int (a * s + c)%double (A * S + C)) as Hv by (apply int_add; [lia|apply int_mul; [lia|done..]|done]).
    rewrite (le_int _ _ _ _ Htwo Hv), (le_int _ _ _ _ Hv (between_neg _ _ _ _ Htwo)). cbn [mbind res_bind].
    rewrite (proj2 (Z.leb_gt _ _)), (proj2 (Z.leb_gt _ _)) by lia. cbn [orb mret res_ret].
    apply reduce_exact; [done|lia|done..].
  - assert (0 <= A < k /\ 0 <= S < k) as [HA HS] by (destruct Hop; [done|lia]). clear Hop.
    assert (between (a * s + c)%double (2 ^ 41) (2 ^ 52 + 2 ^ 20) 12) as Hv.
    { assert (A * S < 2 ^ 64) as H64 by nia. destruct (Z.lt_ge_cases (A * S) (2 ^ 53)) as [H53|H53].
      - apply (add_value binary64 wide_binary64 _ _ (A * S) C);
          [unfold fits_format; simpl; lia|rewrite (ple_shift _ _ _ _ 12 0); lia|rewrite (ple_shift _ _ _ _ 0 12); lia| |done].
        apply int_mul; [lia|done..].
      - replace (2 ^ 41) with (2 ^ 41 + 0) by lia. apply add_between; [apply wide_binary64|unfold fits_format; simpl; lia| |].
        + apply (mul_value binary64 wide_binary64 _ _ A A S S 0 0);
            [unfold fits_format; simpl; lia|rewrite (ple_shift _ _ _ _ 12 0); lia|rewrite (ple_shift _ _ _ _ 0 12); lia|lia|lia|done|done].
        + destruct Hc as (n & g & -> & Y1 & Y2). exists n, g. split; [done|]. split.
          * eapply ple_trans; [|exact Y1]. rewrite (ple_shift _ _ _ _ 12 0); lia.
          * eapply ple_trans; [exact Y2|]. rewrite (ple_shift _ _ _ _ 0 12); lia. }
    rewrite (le_between _ _ _ _ _ _ _ _ Htwo Hv) by (rewrite (ple_shift _ _ _ _ 0 12); lia). cbn [mbind res_bind].
    destruct (le_total _ _ _ _ _ _ _ _ Hv (between_neg _ _ _ _ Htwo)) as (below & ->). cbn [mbind res_bind orb].
    rewrite (div_two17 a A) by (lia || done). cbn [mbind res_bind].
    pose proof (Z.div_mod A (2 ^ 17) ltac:(lia)) as EA. pose proof (Z.mod_pos_bound A (2 ^ 17) ltac:(lia)) as HA'.
    set (q := A / 2 ^ 17) in *. set (r := A mod 2 ^ 17) in *. assert (0 <= q <= 2 ^ 15) as Hq by lia.
    assert (is_int (a - dbl q * two17)%double r) as Hr.
    { replace r with (A - q * 2 ^ 17) by lia. apply int_sub; [lia|done|]. apply int_mul; [lia|apply int_dbl; lia|].
      apply (int_dbl (2 ^ 17)). lia. }
    assert (0 <= q * S < 2 ^ 47) as HqS.
    { assert (q * S <= 2 ^ 15 * S) by (apply Z.mul_le_mono_nonneg_r; lia). split; [apply Z.mul_nonneg_nonneg|]; lia. }
    assert (is_int (dbl q * s)%double (q * S)) as Hw by (apply int_mul; [lia|apply int_dbl; lia|done]).
    rewrite (div_trunc_pos _ _ (q * S) k Hk ltac:(lia) Hw Hm). cbn [mbind res_bind mret res_ret].
    pose proof (Z.div_mod (q * S) k ltac:(lia)) as Ew. pose proof (Z.mod_pos_bound (q * S) k ltac:(lia)) as Hwm.
    set (p := q * S / k) in *. set (t := (q * S) mod k) in *. assert (0 <= p) as Hp0 by (apply Z.div_pos; lia).
    assert (0 <= p * k <= q * S) as Hpk by nia. assert (p <= 2 ^ 16) as Hp by nia.
    assert (is_int (dbl q * s - dbl p * m)%double t) as Ht.
    { replace t with (q * S - p * k) by lia. apply int_sub; [lia|done|]. apply int_mul; [lia|apply int_dbl; lia|done]. }
    assert (0 <= r * S < 2 ^ 49) as HrS.
    { assert (r * S <= 2 ^ 17 * S) by (apply Z.mul_le_mono_nonneg_r; lia). split; [apply Z.mul_nonneg_nonneg|]; lia. }
    assert (is_int ((dbl q * s - dbl p * m) * two17 + (a - dbl q * two17) * s + c)%double (t * 2 ^ 17 + r * S + C)) as Hsum.
    { apply int_add; [lia| |done]. apply int_add; [lia| |apply int_mul; [lia|done..]].
      apply int_mul; [lia|done|]. apply (int_dbl (2 ^ 17)). lia. }
    destruct (reduce_exact _ _ (t * 2 ^ 17 + r * S + C) k Hk ltac:(lia) Hsum Hm) as (x & -> & Hx). exists x. split; [done|].
    replace ((A * S + C) mod k) with ((t * 2 ^ 17 + r * S + C) mod k); [done|].
    rewrite EA. replace ((2 ^ 17 * q + r) * S + C) with (t * 2 ^ 17 + r * S + C + p * 2 ^ 17 * k).
    + symmetry. apply Z.mod_add. lia.
    + transitivity ((k * p + t) * 2 ^ 17 + r * S + C); [ring|]. rewrite <- Ew. ring.
Qed.

(** ** Vectors and matrices modulo [k] *)

Definition all3 {A} (P : A -> Prop) (v : vec A) : Prop := P (c0 v) /\ P (c1 v) /\ P (c2 v).
Definition both3 {A B} (P : A -> B -> Prop) (v : vec A) (w : vec B) : Prop := P (c0 v) (c0 w) /\ P (c1 v) (c1 w) /\ P (c2 v) (c2 w).
Definition is_vec : vec fp -> vec Z -> Prop := both3 is_int.
Definition is_mat : Matrix -> vec (vec Z) -> Prop := both3 is_vec.
Definition reduced (k : Z) : vec Z -> Prop := all3 (fun x => 0 <= x < k).

Definition dot (k : Z) (row s : vec Z) : Z := (c0 row * c0 s + c1 row * c1 s + c2 row * c2 s) mod k.
Definition mulv (k : Z) (M : vec (vec Z)) (s : vec Z) : vec Z := vmap (fun row => dot k row s) M.
Definition mulm (k : Z) (M N : vec (vec Z)) : vec (vec Z) := transpose (vmap (mulv k M) (transpose N)).

(** Products that the code computes exactly *)
Definition exact (k a s : Z) : Prop := 0 <= a < k /\ 0 <= s < k \/ Z.abs (a * s) < 2 ^ 53 - 2 ^ 32.

Lemma exact_operands k a s c : modulus k -> 0 <= c < k -> exact k a s -> operands a s c k.
Proof. unfold operands, exact, modulus. lia. Qed.

Lemma row_times_exact k m sv s rv row :
  modulus k -> is_int m k -> is_vec sv s -> is_vec rv row -> both3 (exact k) row s ->
  exists x, row_times sv m rv = Ok x /\ is_int x (dot k row s).
Proof.
  intros Hk Hm (S0 & S1 & S2) (R0 & R1 & R2) (X0 & X1 & X2). unfold row_times. assert (0 < k) as Hk0 by (unfold modulus in Hk; lia).
  destruct (MultModM_exact _ _ _ m _ _ 0 k Hk (exact_operands k _ _ 0 Hk ltac:(lia) X0) R0 S0 (int_dbl 0 ltac:(lia)) Hm) as (x & -> & Hx).
  cbn [mbind res_bind]. rewrite Z.add_0_r in Hx.
  destruct (MultModM_exact _ _ _ m _ _ _ k Hk (exact_operands _ _ _ _ Hk (Z.mod_pos_bound _ k Hk0) X1) R1 S1 Hx Hm) as (y & -> & Hy).
  cbn [mbind res_bind]. rewrite Z.add_mod_idemp_r in Hy by lia.
  destruct (MultModM_exact _ _ _ m _ _ _ k Hk (exact_operands _ _ _ _ Hk (Z.mod_pos_bound _ k Hk0) X2) R2 S2 Hy Hm) as (z & -> & Hz).
  rewrite Z.add_mod_idemp_r in Hz by lia. exists z. split; [done|]. unfold dot. by rewrite <- (Z.add_comm (c2 row * c2 s)), <- (Z.add_comm (c1 row * c1 s)).
Qed.

Lemma each3_ok {A B C D} (P : A -> C -> Prop) (Q : B -> D -> Prop) (f : A -> res B) (g : C -> D) v w :
  (forall a c, P a c -> exists b, f a = Ok b /\ Q b (g c)) -> both3 P v w -> exists u, each3 f v = Ok u /\ both3 Q u (vmap g w).
Proof.
  intros Hf (P0 & P1 & P2). destruct (Hf _ _ P0) as (b0 & E0 & Q0), (Hf _ _ P1) as (b1 & E1 & Q1), (Hf _ _ P2) as (b2 & E2 & Q2).
  exists (Vec b0 b1 b2). unfold each3. by rewrite E0, E1, E2.
Qed.
(** A relation that holds of the components, with what is known of the second *)
Lemma both3_and {A B} (P : A -> B -> Prop) (Q : B -> Prop) v w : both3 P v w -> all3 Q w -> both3 (fun a b => P a b /\ Q b) v w.
Proof. firstorder. Qed.

Lemma MatVecModM_exact k m X M sv s :
  modulus k -> is_int m k -> is_mat X M -> is_vec sv s -> all3 (fun row => both3 (exact k) row s) M ->
  exists v, MatVecModM X sv m = Ok v /\ is_vec v (mulv k M s).
Proof.
  intros Hk Hm HX Hs He. apply (each3_ok (fun rv row => is_vec rv row /\ both3 (exact k) row s)); [|by apply both3_and].
  intros rv row [Hr Hx]. by apply row_times_exact.
Qed.
Lemma transpose_mat X M : is_mat X M -> is_mat (transpose X) (transpose M).
Proof. firstorder. Qed.
Lemma MatMatModM_exact k m X M Y N :
  modulus k -> is_int m k -> is_mat X M -> is_mat Y N -> all3 (fun col => all3 (fun row => both3 (exact k) row col) M) (transpose N) ->
  exists W, MatMatModM X Y m = Ok W /\ is_mat W (mulm k M N).
Proof.
  intros Hk Hm HX HY He. unfold MatMatModM.
  destruct (each3_ok (fun cv col => is_vec cv col /\ all3 (fun row => both3 (exact k) row col) M) is_vec (fun V => MatVecModM X V m) (mulv k M)
    (transpose Y) (transpose N)) as (W & -> & HW).
  - intros cv col [Hc Hx]. by apply MatVecModM_exact.
  - apply both3_and; [by apply transpose_mat|done].
  - eexists. split; [done|]. by apply transpose_mat.
Qed.

Lemma dot_range k row s : 0 < k -> 0 <= dot k row s < k.
Proof. intros. by apply Z.mod_pos_bound. Qed.
Lemma mulv_reduced k M s : 0 < k -> reduced k (mulv k M s).
Proof. intros Hk. split; [|split]; by apply dot_range. Qed.

Lemma mod_eq a b q k : a = b + q * k -> a mod k = b mod k.
Proof. intros ->. destruct (Z.eq_dec k 0) as [->|]; [by rewrite Z.mul_0_r, Z.add_0_r|by apply Z.mod_add]. Qed.
Lemma dot_mulm k row N s : 0 < k ->
  dot k (vmap (fun col => dot k row col) (transpose N)) s = dot k row (mulv k N s).
Proof.
  intros Hk. destruct row as [a b c], N as [[n0 n1 n2] [n3 n4 n5] [n6 n7 n8]], s as [x y z]. unfold dot, mulv, vmap, transpose, dot. simpl.
  set (u0 := a * n0 + b * n3 + c * n6). set (u1 := a * n1 + b * n4 + c * n7). set (u2 := a * n2 + b * n5 + c * n8).
  set (v0 := n0 * x + n1 * y + n2 * z). set (v1 := n3 * x + n4 * y + n5 * z). set (v2 := n6 * x + n7 * y + n8 * z).
  apply (mod_eq _ _ (a * (v0 / k) + b * (v1 / k) + c * (v2 / k) - (u0 / k) * x - (u1 / k) * y - (u2 / k) * z)).
  rewrite !Z.mod_eq by lia. unfold u0, u1, u2, v0, v1, v2. ring.
Qed.
Lemma mulv_mulm k M N s : 0 < k -> mulv k (mulm k M N) s = mulv k M (mulv k N s).
Proof.
  intros Hk. unfold mulv at 1 2, vmap at 1 2. f_equal; rewrite <- dot_mulm by done; destruct N as [[] [] []]; reflexivity.
Qed.

(** ** Powers of the recurrences *)

Section Recurrence.
Context (k : Z) (Hk : modulus k) (m : fp) (Hm : is_int m k) (f : vec Z -> vec Z) (A : vec (vec Z)) (Ap0 : Matrix).
(** The matrix [A] is one step of the recurrence; its entries are small. *)
Hypothesis HA : forall s, reduced k s -> mulv k A s = f s.
Hypothesis Hsmall : all3 (all3 (fun x => Z.abs x < 2000000)) A.
Hypothesis Hp0 : is_mat Ap0 A.

Definition power (n : N) (M : vec (vec Z)) : Prop := forall s, reduced k s -> mulv k M s = N.iter n f s.

Lemma modulus_pos : 0 < k.
Proof using Hk. unfold modulus in Hk. lia. Qed.
Lemma step_reduced s : reduced k s -> reduced k (f s).
Proof using Hk HA. intros Hs. rewrite <- HA by done. apply mulv_reduced, modulus_pos. Qed.
Lemma iter_reduced n s : reduced k s -> reduced k (N.iter n f s).
Proof using Hk HA. intros Hs. apply N.iter_invariant; [|done]. intros x Hx. by apply step_reduced. Qed.
Lemma power_mul a b M N : power a M -> power b N -> power (a + b) (mulm k M N).
Proof using Hk HA.
  intros Ha Hb s Hs. rewrite mulv_mulm by apply modulus_pos. rewrite (Hb s Hs), N.iter_add.
  apply Ha. by apply iter_reduced.
Qed.
Lemma mulm_reduced M N : all3 (reduced k) (mulm k M N).
Proof using Hk. pose proof modulus_pos. repeat split; apply dot_range; done. Qed.
(** Entries that can be multiplied with each other, and with a state *)
Definition entries (M : vec (vec Z)) : Prop := all3 (reduced k) M \/ all3 (all3 (fun x => Z.abs x < 2000000)) M.
Lemma entries_square M : entries M -> all3 (fun col => all3 (fun row => both3 (exact k) row col) M) (transpose M).
Proof using Hk.
  assert (forall x y, Z.abs x < 2000000 -> Z.abs y < 2000000 -> exact k x y) as H by (intros; right; nia).
  assert (forall x y, 0 <= x < k -> 0 <= y < k -> exact k x y) as H' by (intros; by left).
  intros [((A0 & A1 & A2) & (B0 & B1 & B2) & (C0 & C1 & C2))|((A0 & A1 & A2) & (B0 & B1 & B2) & (C0 & C1 & C2))];
    repeat split; simpl; auto.
Qed.
Lemma entries_state M s : entries M -> reduced k s -> all3 (fun row => both3 (exact k) row s) M.
Proof using Hk.
  assert (forall x y, Z.abs x < 2000000 -> 0 <= y < k -> exact k x y) as H.
  { intros x y Hx Hy. right. unfold modulus in Hk. assert (y < 2 ^ 32) by lia. rewrite Z.abs_mul, (Z.abs_eq y) by lia. nia. }
  assert (forall x y, 0 <= x < k -> 0 <= y < k -> exact k x y) as H' by (intros; by left).
  intros [((A0 & A1 & A2) & (B0 & B1 & B2) & (C0 & C1 & C2))|((A0 & A1 & A2) & (B0 & B1 & B2) & (C0 & C1 & C2))] (S0 & S1 & S2);
    repeat split; simpl; auto.
Qed.
Lemma MatTwoPowModM_power e : exists X M, MatTwoPowModM Ap0 m e = Ok X /\ is_mat X M /\ entries M /\ power (2 ^ N.of_nat e) M.
Proof using Hk Hm HA Hsmall Hp0.
  induction e as [|e (X & M & E & HX & He & Hp)].
  - exists Ap0, A. split; [done|]. split; [done|]. split; [by right|]. intros s Hs. by apply HA.
  - simpl. rewrite E. cbn [mbind res_bind]. destruct (MatMatModM_exact k m X M X M Hk Hm HX HX (entries_square M He)) as (W & -> & HW).
    exists W, (mulm k M M). split; [done|]. split; [done|]. split; [left; apply mulm_reduced|].
    rewrite Nat2N.inj_succ, N.pow_succ_r'. replace (2 * 2 ^ N.of_nat e)%N with (2 ^ N.of_nat e + 2 ^ N.of_nat e)%N by lia.
    by apply power_mul.
Qed.
(** One vector is advanced by a power of two. *)
Lemma MatVecModM_power e sv s : is_vec sv s -> reduced k s ->
  exists X v, MatTwoPowModM Ap0 m e = Ok X /\ MatVecModM X sv m = Ok v /\ is_vec v (N.iter (2 ^ N.of_nat e) f s).
Proof using Hk Hm HA Hsmall Hp0.
  intros Hs Hr. destruct (MatTwoPowModM_power e) as (X & M & E & HX & He & Hp).
  destruct (MatVecModM_exact k m X M sv s Hk Hm HX Hs (entries_state M s He Hr)) as (v & Ev & Hv).
  exists X, v. split; [done|]. split; [done|]. by rewrite <- Hp.
Qed.
Lemma entries_times M N : entries M -> all3 (reduced k) N -> all3 (fun col => all3 (fun row => both3 (exact k) row col) M) (transpose N).
Proof using Hk.
  intros HM ((A0 & B0 & C0) & (A1 & B1 & C1) & (A2 & B2 & C2)).
  split; [|split]; (apply entries_state; [done|]); [exact (conj A0 (conj A1 A2))|exact (conj B0 (conj B1 B2))|exact (conj C0 (conj C1 C2))].
Qed.
Lemma pow_loop_power fuel : forall W B n WM BM a b, n < 2 ^ Z.of_nat fuel -> is_mat W WM -> is_mat B BM -> entries WM -> all3 (reduced k) BM ->
  power a WM -> power b BM -> exists X M, pow_loop fuel W B m n = Ok X /\ is_mat X M /\ power (a * Z.to_N n + b) M.
Proof using Hk Hm HA.
  induction fuel as [|fuel IH]; intros W B n WM BM a b Hn HW HB HWe HBr Ha Hb; cbn [pow_loop].
  - rewrite (proj2 (Z.leb_le n 0)) by (change (2 ^ Z.of_nat 0) with 1 in Hn; lia). exists B, BM. split; [done|]. split; [done|].
    replace (Z.to_N n) with 0%N by (change (2 ^ Z.of_nat 0) with 1 in Hn; lia). by rewrite N.mul_0_r, N.add_0_l.
  - destruct (Z.leb_spec n 0) as [Hz|Hpos].
    { exists B, BM. split; [done|]. split; [done|]. replace (Z.to_N n) with 0%N by lia. by rewrite N.mul_0_r, N.add_0_l. }
    destruct (MatMatModM_exact k m W WM W WM Hk Hm HW HW (entries_square WM HWe)) as (W2 & EW & HW2).
    assert (power (a + a) (mulm k WM WM)) as Hp2 by (by apply power_mul).
    assert (entries (mulm k WM WM)) as He2 by (left; apply mulm_reduced).
    rewrite Nat2Z.inj_succ, Z.pow_succ_r in Hn by lia.
    assert (n / 2 < 2 ^ Z.of_nat fuel) as Hhalf by (apply Z.div_lt_upper_bound; lia).
    pose proof (Z.div_mod n 2 ltac:(lia)) as Ed. rewrite Zmod_odd in Ed.
    destruct (Z.odd n).
    + destruct (MatMatModM_exact k m W WM B BM Hk Hm HW HB (entries_times WM BM HWe HBr)) as (B2 & -> & HB2). cbn [mbind res_bind].
      rewrite EW. cbn [mbind res_bind].
      destruct (IH W2 B2 (n / 2) (mulm k WM WM) (mulm k WM BM) (a + a)%N (a + b)%N Hhalf HW2 HB2 He2 (mulm_reduced _ _) Hp2) as (X & M & E & HX & HM).
      { by apply power_mul. }
      exists X, M. split; [done|]. split; [done|]. replace (a * Z.to_N n + b)%N with ((a + a) * Z.to_N (n / 2) + (a + b))%N; [done|nia].
    + cbn [mbind res_bind mret res_ret]. rewrite EW. cbn [mbind res_bind].
      destruct (IH W2 B (n / 2) (mulm k WM WM) BM (a + a)%N b Hhalf HW2 HB He2 HBr Hp2 Hb) as (X & M & E & HX & HM).
      exists X, M. split; [done|]. split; [done|]. replace (a * Z.to_N n + b)%N with ((a + a) * Z.to_N (n / 2) + b)%N; [done|nia].
Qed.
Lemma MatPowModM_power n : n < 2 ^ 31 -> exists X M, MatPowModM Ap0 m n = Ok X /\ is_mat X M /\ power (Z.to_N n) M.
Proof using Hk Hm HA Hsmall Hp0.
  intros Hn. pose proof modulus_pos. assert (1 < k) as H1 by (clear - Hk; unfold modulus in Hk; lia).
  destruct (pow_loop_power 32 Ap0 identity n A (Vec (Vec 1 0 0) (Vec 0 1 0) (Vec 0 0 1)) 1 0) as (X & M & E & HX & HM).
  - simpl. lia.
  - done.
  - repeat split; apply int_dbl; clear; simpl; lia.
  - by right.
  - repeat split; simpl; clear - H1; lia.
  - intros s Hs. by apply HA.
  - intros s (S0 & S1 & S2). destruct s as [x y z]. unfold mulv, vmap, dot. simpl in *. f_equal; rewrite Z.mod_small; lia.
  - exists X, M. rewrite N.mul_1_l, N.add_0_r in HM. done.
Qed.
End Recurrence.

(** ** The generator *)

(** The two recurrences of MRG32k3a *)
Definition mrg1 (s : vec Z) : vec Z := shift s ((1403580 * c1 s - 810728 * c0 s) mod M1).
Definition mrg2 (s : vec Z) : vec Z := shift s ((527612 * c2 s - 1370589 * c0 s) mod M2).
Definition A1 : vec (vec Z) := Vec (Vec 0 1 0) (Vec 0 0 1) (Vec (-810728) 1403580 0).
Definition A2 : vec (vec Z) := Vec (Vec 0 1 0) (Vec 0 0 1) (Vec (-1370589) 0 527612).

Lemma modulus_M1 : modulus M1.
Proof. unfold modulus, M1. lia. Qed.
Lemma modulus_M2 : modulus M2.
Proof. unfold modulus, M2. lia. Qed.
Lemma is_int_m1 : is_int m1 M1.
Proof. apply int_dbl. unfold M1. lia. Qed.
Lemma is_int_m2 : is_int m2 M2.
Proof. apply int_dbl. unfold M2. lia. Qed.
Lemma A1_step s : reduced M1 s -> mulv M1 A1 s = mrg1 s.
Proof.
  intros (H0 & H1 & H2). unfold mulv, vmap, mrg1, shift, dot. simpl. f_equal; [rewrite Z.mod_small by lia; lia..|f_equal; lia].
Qed.
Lemma A2_step s : reduced M2 s -> mulv M2 A2 s = mrg2 s.
Proof.
  intros (H0 & H1 & H2). unfold mulv, vmap, mrg2, shift, dot. simpl. f_equal; [rewrite Z.mod_small by lia; lia..|f_equal; lia].
Qed.
Lemma A1_small : all3 (all3 (fun x => Z.abs x < 2000000)) A1.
Proof. repeat split; simpl; lia. Qed.
Lemma A2_small : all3 (all3 (fun x => Z.abs x < 2000000)) A2.
Proof. repeat split; simpl; lia. Qed.
Lemma A1p0_mat : is_mat A1p0 A1.
Proof. repeat split; apply int_dbl; simpl; lia. Qed.
Lemma A2p0_mat : is_mat A2p0 A2.
Proof. repeat split; apply int_dbl; simpl; lia. Qed.

(** The generator holds the states [s] and [t]. *)
Definition at_state (s t : vec Z) (r : RngStream) : Prop :=
  is_vec (m_first r) s /\ is_vec (m_second r) t /\ reduced M1 s /\ reduced M2 t.
(** [n] steps after [s] and [t] *)
Definition after (n : N) (s t : vec Z) : RngStream -> Prop := at_state (N.iter n mrg1 s) (N.iter n mrg2 t).

Lemma advance_bit_ok nth by_ nbit s t r :
  0 <= nbit -> 1 <= by_ + nbit <= 190 -> at_state s t r ->
  exists r', advance_bit nth by_ nbit r = Ok (tt, r') /\ after (if Z.testbit nth nbit then 2 ^ Z.to_N (by_ + nbit) else 0) s t r'.
Proof.
  intros Hn Hb (Hs & Ht & Rs & Rt). unfold advance_bit. destruct (Z.testbit nth nbit); [|by exists r].
  set (e := Z.to_nat (by_ + nbit)). assert (Z.to_N (by_ + nbit) = N.of_nat e) as -> by lia.
  destruct (MatVecModM_power M1 modulus_M1 m1 is_int_m1 mrg1 A1 A1p0 A1_step A1_small A1p0_mat e _ _ Hs Rs) as (X & v & EX & Ev & Hv).
  destruct (MatVecModM_power M2 modulus_M2 m2 is_int_m2 mrg2 A2 A2p0 A2_step A2_small A2p0_mat e _ _ Ht Rt) as (Y & w & EY & Ew & Hw).
  unfold PowerOfTwoMatrix, PowerOfTwoConstants. rewrite (proj2 (Z.leb_le _ _)), (proj2 (Z.ltb_lt _ _)) by lia.
  replace (Z.to_nat (by_ + nbit - 1 + 1)) with e by lia. cbn [andb deref mbind res_bind]. rewrite EX, EY. cbn [mbind res_bind mret res_ret].
  rewrite Ev, Ew. cbn [mbind res_bind]. eexists. split; [done|]. unfold after, at_state. cbn [m_first m_second].
  split; [done|]. split; [done|]. split.
  - apply (iter_reduced M1 modulus_M1 mrg1 A1 A1_step). done.
  - apply (iter_reduced M2 modulus_M2 mrg2 A2 A2_step). done.
Qed.

Lemma after_add a b s t r r' : (forall s t, at_state s t r -> after a s t r') -> after b s t r -> after (a + b) s t r'.
Proof. intros H Hr. unfold after. rewrite !N.iter_add. by apply H. Qed.

Lemma AdvanceNthBy_ok nth by_ s t r :
  0 <= nth < 2 ^ 64 -> 1 <= by_ <= 127 -> at_state s t r ->
  exists r', AdvanceNthBy nth by_ r = Ok (tt, r') /\ after (Z.to_N (nth * 2 ^ by_)) s t r'.
Proof.
  intros Hn Hb Hr. unfold AdvanceNthBy.
  destruct (each_counted (fun i r => after (Z.to_N (nth / 2 ^ (64 - Z.of_nat i) * 2 ^ (64 - Z.of_nat i) * 2 ^ by_)) s t r)
    (fun i => advance_bit nth by_ (63 - Z.of_nat i)) 64 r) as (r' & E & Hr').
  - intros i r1 Hi H1. set (nbit := 63 - Z.of_nat i).
    destruct (advance_bit_ok nth by_ nbit _ _ r1 ltac:(lia) ltac:(lia) H1) as (r2 & E2 & H2). exists r2. split; [done|].
    unfold after in *. rewrite <- !N.iter_add in H2.
    replace (64 - Z.of_nat (S i)) with nbit by lia. replace (64 - Z.of_nat i) with (nbit + 1) in * by lia.
    assert (nth / 2 ^ nbit = 2 * (nth / 2 ^ (nbit + 1)) + Z.b2z (Z.testbit nth nbit)) as Eb.
    { rewrite Z.pow_add_r, <- Z.div_div, Z.testbit_spec' by lia. change (2 ^ 1) with 2. apply Z.div_mod. lia. }
    rewrite Eb. clear Eb. assert (0 <= nth / 2 ^ (nbit + 1)) by (apply Z.div_pos; lia).
    rewrite (Z.pow_add_r 2 nbit 1) in * by lia. change (2 ^ 1) with 2 in *.
    set (q := nth / (2 ^ nbit * 2)) in *.
    assert (Z.to_N ((2 * q + Z.b2z (Z.testbit nth nbit)) * 2 ^ nbit * 2 ^ by_) =
      ((if Z.testbit nth nbit then 2 ^ Z.to_N (by_ + nbit) else 0) + Z.to_N (q * (2 ^ nbit * 2) * 2 ^ by_))%N) as ->; [|done].
    assert (0 < 2 ^ nbit) by lia. assert (0 < 2 ^ by_) by lia.
    assert (0 <= q * (2 ^ nbit * 2) * 2 ^ by_) by (apply Z.mul_nonneg_nonneg; [apply Z.mul_nonneg_nonneg|]; lia).
    destruct (Z.testbit nth nbit); cbn [Z.b2z].
    + rewrite <- (Z2N.inj_pow 2), <- Z2N.inj_add, Z.pow_add_r by lia. f_equal. ring.
    + rewrite N.add_0_l. f_equal. ring.
  - replace (64 - Z.of_nat 0) with 64 by lia. by rewrite Z.div_small by lia.
  - exists r'. split; [done|]. replace (64 - Z.of_nat 64) with 0 in Hr' by lia. by rewrite Z.pow_0_r, Z.div_1_r, Z.mul_1_r in Hr'.
Qed.

Definition seeds (x : Z) : vec Z := Vec x x x.

Lemma new_RngStream_ok seed stream substream :
  0 < seed < M2 -> 0 <= stream < 2 ^ 64 -> 0 <= substream < 2 ^ 64 ->
  exists r, new_RngStream seed stream substream = Ok r /\
    after (Z.to_N (stream * 2 ^ 127 + substream * 2 ^ 76)) (seeds seed) (seeds seed) r.
Proof.
  intros Hs Hn Hb. unfold new_RngStream. unfold M2 in Hs.
  assert (is_int (dbl seed) seed) as Hd by (apply int_dbl; lia).
  rewrite (le_int _ _ _ _ is_int_m1 Hd), (le_int _ _ _ _ is_int_m2 Hd). cbn [mbind res_bind].
  unfold M1, M2. rewrite (proj2 (Z.leb_gt _ _)), (proj2 (Z.leb_gt _ _)), (proj2 (Z.eqb_neq _ _)) by lia. cbn [orb negb ns_require mbind res_bind].
  set (r0 := mkRng _ _). assert (at_state (seeds seed) (seeds seed) r0) as H0.
  { repeat split; simpl; try done; unfold M1, M2; lia. }
  destruct (AdvanceNthBy_ok stream 127 _ _ r0 Hn ltac:(lia) H0) as (r1 & -> & H1). cbn [mbind res_bind].
  destruct (AdvanceNthBy_ok substream 76 _ _ r1 Hb ltac:(lia) H1) as (r2 & -> & H2). cbn [mbind res_bind mret res_ret].
  exists r2. split; [done|]. unfold after in *. rewrite <- !N.iter_add in H2.
  rewrite Z.add_comm, Z2N.inj_add by lia. done.
Qed.
(** The seed 0 and those that are not less than both moduli are refused. *)
Lemma new_RngStream_invalid seed stream substream :
  0 <= seed < 2 ^ 32 -> seed = 0 \/ M2 <= seed -> new_RngStream seed stream substream = Err FatalError.
Proof.
  intros Hr Hs. unfold new_RngStream. assert (is_int (dbl seed) seed) as Hd by (apply int_dbl; lia).
  rewrite (le_int _ _ _ _ is_int_m1 Hd), (le_int _ _ _ _ is_int_m2 Hd). cbn [mbind res_bind].
  destruct Hs as [->|Hs]; [done|]. rewrite (proj2 (Z.leb_le M2 seed)) by done. by rewrite orb_true_r.
Qed.

(** The integer that the two components combine to, and the number drawn: the
    rounded product of that integer and [norm]. *)
Definition combine (s t : vec Z) : Z := if c2 t <? c2 s then c2 s - c2 t else c2 s - c2 t + M1.
Definition scaled (z : Z) (u : fp) : Prop := exists x, is_int x z /\ u = (x * norm)%double.
(** Between 0 and 1, both excluded *)
Definition open_unit (u : fp) : Prop := between u (2 ^ 20) (2 ^ 53 - 2 ^ 20) (-53).

Lemma norm_between : between norm 4503599845474315 4503599845474315 (-84).
Proof. exists 4503599845474315, (-84). split; [vm_compute; reflexivity|done]. Qed.
Lemma scaled_open z u : 1 <= z <= M1 -> scaled z u -> open_unit u.
Proof.
  intros Hz (x & Hx & ->). unfold M1 in Hz.
  apply (mul_value binary64 wide_binary64 _ _ z z 4503599845474315 4503599845474315 0 (-84));
    [unfold fits_format; simpl; lia|rewrite (ple_shift _ _ _ _ 31 0); lia|rewrite (ple_shift _ _ _ _ 0 31); lia|lia|lia|done|apply norm_between].
Qed.

Lemma combine_range s t : reduced M1 s -> reduced M2 t -> 1 <= combine s t <= M1.
Proof.
  intros (_ & _ & Hs) (_ & _ & Ht). unfold combine, M1, M2 in *. destruct (Z.ltb_spec (c2 t) (c2 s)); lia.
Qed.
Lemma RandU01_ok s t r :
  at_state s t r ->
  exists u r', RandU01 r = Ok (u, r') /\ at_state (mrg1 s) (mrg2 t) r' /\ scaled (combine (mrg1 s) (mrg2 t)) u.
Proof.
  intros (Hs & Ht & Rs & Rt). unfold RandU01.
  pose proof Hs as (S0 & S1 & S2). pose proof Ht as (T0 & T1 & T2). pose proof Rs as (s0 & s1 & s2). pose proof Rt as (t0 & t1 & t2).
  unfold M1, M2 in s0, s1, s2, t0, t1, t2.
  assert (is_int (a12 * c1 (m_first r) - a13n * c0 (m_first r))%double (1403580 * c1 s - 810728 * c0 s)) as H1.
  { apply int_sub; [lia|apply int_mul; [lia|apply int_dbl; lia|done]..]. }
  assert (is_int (a21 * c2 (m_second r) - a23n * c0 (m_second r))%double (527612 * c2 t - 1370589 * c0 t)) as H2.
  { apply int_sub; [lia|apply int_mul; [lia|apply int_dbl; lia|done]..]. }
  destruct (reduce_exact _ _ (1403580 * c1 s - 810728 * c0 s) M1 modulus_M1 ltac:(lia) H1 is_int_m1) as (p1 & -> & P1). cbn [mbind res_bind].
  destruct (reduce_exact _ _ (527612 * c2 t - 1370589 * c0 t) M2 modulus_M2 ltac:(lia) H2 is_int_m2) as (p2 & -> & P2). cbn [mbind res_bind].
  rewrite (lt_int _ _ _ _ P2 P1). cbn [mbind res_bind]. eexists _, _. split; [done|]. split.
  - split; [done|]. split; [done|]. split; [apply (step_reduced M1 modulus_M1 mrg1 A1 A1_step s Rs)|apply (step_reduced M2 modulus_M2 mrg2 A2 A2_step t Rt)].
  - unfold combine, mrg1, mrg2, shift. cbn [c2].
    pose proof (Z.mod_pos_bound (1403580 * c1 s - 810728 * c0 s) M1 ltac:(done)) as B1.
    pose proof (Z.mod_pos_bound (527612 * c2 t - 1370589 * c0 t) M2 ltac:(done)) as B2.
    set (z1 := _ mod M1) in *. set (z2 := _ mod M2) in *. clearbody z1 z2.
    assert (M1 < 2 ^ 32 /\ M2 < 2 ^ 32) as [L1 L2] by done.
    assert (is_int (p1 - p2)%double (z1 - z2)) as Hd by (apply int_sub; [lia|done..]).
    destruct (_ <? _); eexists; (split; [|reflexivity]); [done|]. apply int_add; [lia|done|apply is_int_m1].
Qed.

(** [n] numbers drawn one after the other *)
Fixpoint draws (n : nat) : st RngStream (list fp) :=
  match n with
  | O => mret []
  | S n => u ← RandU01; us ← draws n; mret (u :: us)
  end.
Lemma draws_ok n : forall s t r, at_state s t r ->
  exists us r', draws n r = Ok (us, r') /\ after (N.of_nat n) s t r' /\ length us = n /\
    forall i u, us !! i = Some u -> scaled (combine (N.iter (N.of_nat (S i)) mrg1 s) (N.iter (N.of_nat (S i)) mrg2 t)) u.
Proof.
  induction n as [|n IH]; intros s t r Hr.
  - exists [], r. split; [done|]. split; [done|]. done.
  - destruct (RandU01_ok s t r Hr) as (u & r1 & E1 & H1 & Hu). destruct (IH _ _ _ H1) as (us & r2 & E2 & H2 & Hl & Hus).
    exists (u :: us), r2. split.
    { simpl. rewrite (run_bind _ _ _ _ _ E1), (run_bind _ _ _ _ _ E2). done. }
    assert (forall i (f : vec Z -> vec Z) x, N.iter (N.of_nat i) f (f x) = N.iter (N.of_nat (S i)) f x) as Hi.
    { intros i f x. rewrite Nat2N.inj_succ, N.iter_succ, N.iter_swap. done. }
    split; [unfold after in *; by rewrite !Hi in H2|]. split; [simpl; by rewrite Hl|]. intros [|i] v Hv.
    + injection Hv as <-. done.
    + specialize (Hus i v Hv). by rewrite !Hi in Hus.
Qed.

(** ** The pair of theorems *)

(** The [i]-th number that the reference generator gives, from the same seed in
    every component, after [n] numbers *)
Definition mrg_output (seed : Z) (n : N) (i : nat) : Z :=
  combine (N.iter (N.of_nat (S i) + n) mrg1 (seeds seed)) (N.iter (N.of_nat (S i) + n) mrg2 (seeds seed)).

(** C13. The streams are those of MRG32k3a: for every seed that the constructor
    accepts, the [double] arithmetic of [RngStream] is exact, the jumps to the
    stream and the substream by powers of the transition matrices skip
    [stream * 2 ^ 127 + substream * 2 ^ 76] numbers of the sequence of the seed, and
    the numbers drawn are those that follow, each the product of the output of
    the two integer recurrences and the constant [norm], strictly between 0 and 1. *)
Theorem streams_are_MRG32k3a seed stream substream n :
  0 < seed < M2 -> 0 <= stream < 2 ^ 64 -> 0 <= substream < 2 ^ 64 ->
  exists r us r', new_RngStream seed stream substream = Ok r /\ draws n r = Ok (us, r') /\ length us = n /\
    forall i u, us !! i = Some u ->
      scaled (mrg_output seed (Z.to_N (stream * 2 ^ 127 + substream * 2 ^ 76)) i) u /\ open_unit u.
Proof.
  intros Hs Hn Hb. destruct (new_RngStream_ok seed stream substream Hs Hn Hb) as (r & E & Hr).
  destruct (draws_ok n _ _ r Hr) as (us & r' & Ed & _ & Hl & Hus). exists r, us, r'.
  split; [done|]. split; [done|]. split; [done|]. intros i u Hu. specialize (Hus i u Hu).
  rewrite <- !N.iter_add in Hus. split; [exact Hus|]. eapply scaled_open; [|exact Hus].
  destruct Hr as (_ & _ & Rs & Rt). apply combine_range.
  - apply (iter_reduced M1 modulus_M1 mrg1 A1 A1_step). repeat split; simpl; unfold M1, M2 in *; lia.
  - apply (iter_reduced M2 modulus_M2 mrg2 A2 A2_step). repeat split; simpl; unfold M1, M2 in *; lia.
Qed.

(** ** Random variables *)

(** A variable whose generator has a state *)
Definition seeded (v : RandomVariableStream) : Prop := exists r s t, m_rng v = Some r /\ at_state s t r.

Lemma SetStream_seeded stream v g :
  -1 <= stream < 2 ^ 63 -> 0 < u32 (g_rngSeed g) < M2 -> 0 <= g_rngRun g < 2 ^ 64 -> 0 <= g_nextStreamIndex g <= 2 ^ 63 ->
  exists v' g', SetStream stream v g = Ok (v', g') /\ seeded v' /\ g_rngSeed g' = g_rngSeed g /\ g_rngRun g' = g_rngRun g /\
    g_nextStreamIndex g' = (if stream =? -1 then g_nextStreamIndex g + 1 else g_nextStreamIndex g).
Proof.
  intros Hs Hseed Hrun Hnext. unfold SetStream. rewrite (proj2 (Z.leb_le _ _)) by lia. cbn [ns_assert mbind res_bind].
  destruct (stream =? -1).
  - cbn [GetNextStreamIndex]. rewrite (proj2 (Z.leb_le _ _)) by lia. cbn [ns_assert mbind res_bind mret res_ret].
    destruct (new_RngStream_ok (GetSeed g) (g_nextStreamIndex g) (g_rngRun g) Hseed ltac:(lia) Hrun) as (r & E & Hr).
    unfold GetSeed, GetRun in *. cbn [g_rngSeed g_rngRun]. rewrite E. cbn [mbind res_bind].
    eexists _, _. split; [reflexivity|]. split; [eexists r, _, _; split; [reflexivity|exact Hr]|].
    split; [reflexivity|]. split; [reflexivity|]. clear Hr E. apply (wrap_small 64). unfold in_range. lia.
  - cbn [mbind res_bind mret res_ret].
    pose proof (wrap_range 64 (2 ^ 63 + stream) ltac:(lia)) as Hw. unfold in_range in Hw. set (target := u64 (2 ^ 63 + stream)) in *.
    destruct (new_RngStream_ok (GetSeed g) target (g_rngRun g) Hseed Hw Hrun) as (r & E & Hr).
    unfold GetRun. rewrite E. cbn [mbind res_bind]. eexists _, _. split; [reflexivity|].
    split; [eexists r, _, _; split; [reflexivity|exact Hr]|]. split; [reflexivity|]. split; reflexivity.
Qed.

Lemma Peek_RandU01 v : seeded v -> exists u v', Peek RandU01 v = Ok (u, v') /\ open_unit u /\ seeded v' /\ m_isAntithetic v' = m_isAntithetic v.
Proof.
  intros (r & s & t & Er & Hr). unfold Peek. rewrite Er. cbn [deref mbind res_bind].
  destruct (RandU01_ok s t r Hr) as (u & r' & -> & Hr' & Hu). cbn [mbind res_bind]. eexists _, _. split; [done|].
  split; [|split; [by exists r', (mrg1 s), (mrg2 t)|done]]. eapply scaled_open; [|done]. apply combine_range; apply Hr'.
Qed.

(** [k] numbers of steps of [2 ^ -33] above [lo] and below [hi + 1] *)
Lemma uniform_between lo hi u (antithetic : bool) :
  0 <= lo <= hi -> hi < 2 ^ 20 -> open_unit u ->
  let mx := (dbl hi + dbl 1)%double in let v := (dbl lo + u * (mx - dbl lo))%double in
  between (if antithetic then dbl lo + (mx - v) else v)%double (lo * 2 ^ 33 + 1) ((hi + 1) * 2 ^ 33 - 1) (-33).
Proof.
  intros Hlo Hhi Hu. cbv zeta. remember (hi + 1 - lo) as k eqn:Ek. assert (1 <= k <= 2 ^ 20) as Hk1 by lia.
  assert (is_int (dbl hi + dbl 1)%double (hi + 1)) as Hmx by (apply int_add; [lia|apply int_dbl; lia..]).
  assert (is_int (dbl lo) lo) as Hmn by (apply int_dbl; lia).
  assert (is_int (dbl hi + dbl 1 - dbl lo)%double k) as Hk by (rewrite Ek; apply int_sub; [lia|done..]).
  set (mx := (dbl hi + dbl 1)%double) in *. pose proof (proj1 (between_finer _ _ _ _ 33 ltac:(lia)) Hmx) as Fmx.
  pose proof (proj1 (between_finer _ _ _ _ 33 ltac:(lia)) Hmn) as Fmn. change (0 - 33) with (-33) in *.
  assert (between (u * (mx - dbl lo))%double k (k * 2 ^ 33 - k) (-33)) as Hp.
  { apply (mul_value binary64 wide_binary64 _ _ (2 ^ 20) (2 ^ 53 - 2 ^ 20) k k (-53) 0);
      [unfold fits_format; simpl; lia|rewrite (ple_shift _ _ _ _ 20 0); lia|rewrite (ple_shift _ _ _ _ 0 20); lia|lia|lia|done|done]. }
  assert (forall a b, - 2 ^ 53 < a -> b < 2 ^ 53 -> fits_format binary64 a b (-33)) as Hfit by (unfold fits_format; simpl; lia).
  epose proof (add_between binary64 wide_binary64 _ _ _ _ _ _ _ (Hfit _ _ _ _) Fmn Hp) as Hv.
  destruct antithetic.
  - epose proof (sub_between binary64 wide_binary64 _ _ _ _ _ _ _ (Hfit _ _ _ _) Fmx Hv) as Hw.
    epose proof (add_between binary64 wide_binary64 _ _ _ _ _ _ _ (Hfit _ _ _ _) Fmn Hw) as Hz.
    eapply between_weaken; [exact Hz|lia|lia].
  - eapply between_weaken; [exact Hv|lia|lia].
  Unshelve. all: lia.
Qed.

(** C35. A draw of [UniformRandomVariable::GetInteger] from [lo .. hi] returns a number
    in this range, both ends included, antithetic or not, and so does every
    later draw; up to [hi < 2 ^ 20], where [max] and the rounding of the result leave the
    fraction enough digits (see [GetInteger_above_max]). *)
Theorem GetInteger_uniform lo hi v :
  seeded v -> 0 <= lo <= hi -> hi < 2 ^ 20 ->
  exists n v', GetInteger_between lo hi v = Ok (n, v') /\ lo <= n <= hi /\ seeded v' /\ m_isAntithetic v' = m_isAntithetic v.
Proof.
  intros Hv Hlo Hhi. destruct (Peek_RandU01 v Hv) as (u & v' & E & Hu & Hv' & Ea).
  unfold GetInteger_between, GetValue_between. rewrite run_assert by (apply Z.leb_le; lia).
  pose proof (uniform_between lo hi u (m_isAntithetic v') Hlo Hhi Hu) as Hb. cbv zeta in Hb.
  rewrite (run_bind _ _ _ _ _ (run_bind _ _ _ _ _ E)).
  unfold IsAntithetic. set (w := (if m_isAntithetic v' then _ else _)) in *. destruct Hb as (m & e & Ew & H1 & H2).
  destruct (to_int_range 0 (2 ^ 32 - 1) m e lo hi) as (n & En & Hn); [| |lia|lia|lia|].
  - eapply ple_trans; [|exact H1]. rewrite (ple_shift _ _ _ _ 33 0); lia.
  - intros H3. pose proof (ple_trans _ _ _ _ _ _ H3 H2) as H4. rewrite (ple_shift _ _ _ _ 33 0) in H4; lia.
  - exists n, v'. split; [|done]. unfold to_uint32. rewrite Ew, En. done.
Qed.

(** The first number of the seed 12345 is 0.12701112204657714. *)
Example first_number : (r ← new_RngStream 12345 0 0; '(u, _) ← RandU01 r; mret u) = Ok (Finite 4576057935366987 (-55)).
Proof. vm_compute. reflexivity. Qed.
Example first_output : mrg_output 12345 0 0 = 545508589.
Proof. vm_compute. reflexivity. Qed.

(** A generator in a state from which both components give 0 *)
Definition zeros_next : RandomVariableStream :=
  mkVariable (Some (mkRng (Vec (dbl 0) (dbl 0) (dbl 1)) (Vec (dbl 0) (dbl 1) (dbl 0)))) false 0.
Lemma zeros_next_seeded : seeded zeros_next.
Proof.
  eexists _, (Vec 0 0 1), (Vec 0 1 0). split; [reflexivity|].
  split; [repeat split; apply int_dbl; simpl; lia|]. split; [repeat split; apply int_dbl; simpl; lia|]. unfold M1, M2. repeat split; simpl; lia.
Qed.
(** At [2 ^ 31] the sum [min + u * (max - min)] rounds up to [max + 1]. *)
Example GetInteger_above_max :
  (match GetInteger_between (2 ^ 31) (2 ^ 31) zeros_next with Ok (n, _) => Some n | Err _ => None end) = Some (2 ^ 31 + 1).
Proof. vm_compute. reflexivity. Qed.

Lemma streams_are_MRG32k3a_witness : exists r us r', new_RngStream 1 3 1 = Ok r /\ draws 2 r = Ok (us, r') /\ length us = 2%nat.
Proof.
  destruct (streams_are_MRG32k3a 1 3 1 2) as (r & us & r' & E & Ed & Hl & _); [unfold M2; lia|lia|lia|]. exists r, us, r'.
  split; [exact E|]. split; [exact Ed|exact Hl].
Defined.
Lemma GetInteger_uniform_witness : exists n v', GetInteger_between 0 1 zeros_next = Ok (n, v') /\ 0 <= n <= 1.
Proof.
  destruct (GetInteger_uniform 0 1 zeros_next zeros_next_seeded) as (n & v' & E & Hn & _); [lia|lia|]. exists n, v'. split; [exact E|exact Hn].
Defined.
