(* ===== verification/Int64x64.v ===== *)
(** * [int64x64_t], the Q64.64 fixed point numbers ([src/core/model/int64x64-128.h],
      [int64x64-128.cc])

    The implementation on native 128-bit integers, which the build chooses where
    the compiler has them.  A number is its [int128_t] [_v], of value
    [_v / 2 ^ 64].  Signed overflow is undefined; conversions between [int128_t]
    and [uint128_t], and left shifts, keep the low 128 bits, as gcc defines them. *)

From S2P Require Import Prelude FloatingPoint.

Abbreviation u128 := (wrap 128).
Definition i128 (x : Z) : Z := to_signed 128 x.
Definition i64 (x : Z) : Z := to_signed 64 x.

(** A signed result that must fit its type. *)
Definition signed_check (w x : Z) : res Z :=
  if (- 2 ^ (w - 1) <=? x) && (x <? 2 ^ (w - 1)) then Ok x else Err UndefinedBehaviour.
Abbreviation i128_check := (signed_check 128).

Definition HP128_MASK_HI_BIT : Z := 2 ^ 127.
Definition HP_MASK_LO : Z := 0xffffffffffffffff.
(** [~HP_MASK_LO], in a [uint64_t] *)
Definition HP_MASK_HI : Z := u64 (Z.lnot HP_MASK_LO).

(** ** Construction *)

(** From an integer: [_v (v)], then [_v <<= 64] *)
Definition of_int (v : Z) : Z := i128 (Z.shiftl v 64).
Definition of_hi_lo (hi lo : Z) : Z := Z.lor (i128 (Z.shiftl hi 64)) lo.

(** [std::pow (2.0L, 64)], and [std::modf] of a value that is not negative *)
Definition HP_MAX_64 : fp := Finite 1 64.
Definition modf (v : fp) : fp * fp :=
  match v with
  | Finite m e => (Finite (up e m / down e) 0, Finite (up e m mod down e) (Z.min 0 e))
  | NotFinite => (NotFinite, NotFinite)
  end.

(** [flo >= HP_MAX_64] *)
Definition fp_ge_max (v : fp) : bool :=
  match v with Finite m e => 2 ^ 64 * down e <=? up e m | NotFinite => false end.

(** From a [long double] *)
Definition of_long_double (value : fp) : res Z :=
  let negative := fp_negative value in
  let v := if negative then fp_neg value else value in
  let '(fhi, flo) := modf v in
  let round := Finite 1 (-1) in
  let flo := fp_add x87 (fp_mul x87 flo HP_MAX_64) round in
  hi ← fp_to_int (- 2 ^ 127) (2 ^ 127 - 1) fhi;
  lo ← fp_to_int 0 (2 ^ 64 - 1) flo;
  hi ← (if fp_ge_max flo then i128_check (hi + 1) else mret hi);
  let _v := Z.lor (i128 (Z.shiftl hi 64)) lo in
  if negative then i128_check (- _v) else mret _v.
(** From a [double], a [long double] of the same value *)
Definition of_double (value : fp) : res Z := of_long_double (fp_convert x87 value).

(** ** Conversions *)

(** The magnitude of a number, a [uint128_t] *)
Definition magnitude (_v : Z) : res Z := x ← (if _v <? 0 then i128_check (- _v) else mret _v); mret (u128 x).

Definition GetHigh (_v : Z) : Z := i64 (Z.shiftr _v 64).
Definition GetLow (_v : Z) : Z := Z.land (u128 _v) HP_MASK_LO.
Definition GetInt (_v : Z) : res Z :=
  value ← magnitude _v;
  let retval := i64 (Z.shiftr value 64) in
  if _v <? 0 then signed_check 64 (- retval) else mret retval.
Definition GetDouble (_v : Z) : res fp :=
  value ← magnitude _v;
  let fhi := fp_of_int x87 (Z.shiftr value 64) in
  let flo := fp_div x87 (fp_of_int x87 (Z.land value HP_MASK_LO)) HP_MAX_64 in
  let retval := fp_add x87 fhi flo in
  mret (fp_convert binary64 (if _v <? 0 then fp_neg retval else retval)).
Definition Round (_v : Z) : res Z :=
  value ← (if _v <? 0 then i128_check (- _v) else mret _v);
  let half := of_hi_lo 0 (2 ^ 63) in
  value ← i128_check (value + half);
  let retval := GetHigh value in
  if _v <? 0 then signed_check 64 (- retval) else mret retval.

(** ** Arithmetic *)

Definition eqb (lhs rhs : Z) : bool := lhs =? rhs.
Definition ltb (lhs rhs : Z) : bool := lhs <? rhs.
Definition gtb (lhs rhs : Z) : bool := rhs <? lhs.
Definition add (lhs rhs : Z) : res Z := i128_check (lhs + rhs).
Definition sub (lhs rhs : Z) : res Z := i128_check (lhs - rhs).
Definition opp (lhs : Z) : res Z := i128_check (- lhs).
(** [operator !]: the number of a boolean *)
Definition lnot (lhs : Z) : Z := of_int (if lhs =? 0 then 1 else 0).

(** The sign of the result, and the magnitudes *)
Definition output_sign (sa sb : Z) : res (bool * Z * Z) :=
  let negA := sa <? 0 in
  let negB := sb <? 0 in
  ua ← magnitude sa;
  ub ← magnitude sb;
  mret ((negA && negb negB) || (negb negA && negB), ua, ub).

Definition Umul (a b : Z) : res Z :=
  let aL := Z.land a HP_MASK_LO in
  let bL := Z.land b HP_MASK_LO in
  let aH := Z.land (Z.shiftr a 64) HP_MASK_LO in
  let bH := Z.land (Z.shiftr b 64) HP_MASK_LO in
  let loPart := u128 (aL * bL) in
  let midPart := u128 (u128 (aL * bH) + u128 (aH * bL)) in
  let hiPart := u128 (aH * bH) in
  _ ← ns_require (Z.land hiPart HP_MASK_HI =? 0);
  let res1 := Z.shiftr loPart 64 in
  let res2 := Z.land midPart HP_MASK_LO in
  let result := u128 (res1 + res2) in
  let res1 := Z.shiftr midPart 64 in
  let res2 := Z.land hiPart HP_MASK_LO in
  let res1 := u128 (Z.shiftl (u128 (res1 + res2)) 64) in
  mret (u128 (result + res1)).

(** The result, with its sign, in an [int128_t] *)
Definition with_sign (negative : bool) (result : Z) : Z := i128 (if negative then u128 (- result) else result).

Definition Mul (_v o : Z) : res Z :=
  '(negative, a, b) ← output_sign _v o;
  result ← Umul a b;
  mret (with_sign negative result).

(** ** Division *)

Definition DIGITS : Z := 64.
(** A bound on the rounds of each of the loops below: a round takes a digit. *)
Definition rounds : nat := 64.

(** Skip trailing zeros in divisor *)
Fixpoint skip_trailing (fuel : nat) (shift den : Z) : res (Z * Z) :=
  if (shift <? DIGITS) && (Z.land den 0x1 =? 0) then
    match fuel with O => Err OutOfFuel | S n => skip_trailing n (shift + 1) (Z.shiftr den 1) end
  else Ok (shift, den).

(** Skip leading zeros in remainder *)
Fixpoint skip_leading (fuel : nat) (digis shift rem : Z) : res (Z * Z) :=
  if (digis + shift <? DIGITS) && (Z.land rem HP128_MASK_HI_BIT =? 0) then
    match fuel with O => Err OutOfFuel | S n => skip_leading n digis (shift + 1) (u128 (Z.shiftl rem 1)) end
  else Ok (shift, rem).

(** Cast off denominator bits *)
Fixpoint cast_off (fuel : nat) (digis shift rem den : Z) : res (Z * Z) :=
  if (digis + shift <? DIGITS) && ((Z.land den 0x1 =? 0) || (rem <? den)) then
    match fuel with O => Err OutOfFuel | S n => cast_off n digis (shift + 1) rem (Z.shiftr den 1) end
  else Ok (shift, den).

(** [rem / den] and [rem % den] of [uint128_t] *)
Definition divide (rem den : Z) : res (Z * Z) :=
  if den =? 0 then Err UndefinedBehaviour else Ok (rem / den, rem mod den).

Fixpoint div_loop (fuel : nat) (digis shift rem den result : Z) : res (Z * Z) :=
  if (digis <? DIGITS) && negb (rem =? 0) then
    match fuel with
    | O => Err OutOfFuel
    | S n =>
        '(shift, rem) ← skip_leading rounds digis shift rem;
        '(shift, den) ← cast_off rounds digis shift rem den;
        '(quo, rem) ← divide rem den;
        let result := u128 (Z.shiftl result shift) in
        let result := u128 (result + quo) in
        div_loop n (digis + shift) 0 rem den result
    end
  else Ok (digis, result).

Definition Udiv (a b : Z) : res Z :=
  '(quo, rem) ← divide a b;
  _ ← ns_assert (rem <? b);
  '(shift, den) ← skip_trailing rounds 0 b;
  '(digis, result) ← div_loop rounds 0 shift rem den quo;
  if digis <? DIGITS then mret (u128 (Z.shiftl result (DIGITS - digis))) else mret result.

Definition Div (_v o : Z) : res Z :=
  '(negative, a, b) ← output_sign _v o;
  result ← Udiv a b;
  let result := i128 result in
  if (negative : bool) then i128_check (- result) else mret result.

(** ** Multiplication by an inverse, a Q0.128 number *)

Definition UmulByInvert (a b : Z) : Z :=
  let ah := Z.shiftr a 64 in
  let bh := Z.shiftr b 64 in
  let al := Z.land a HP_MASK_LO in
  let bl := Z.land b HP_MASK_LO in
  let hi := u128 (ah * bh) in
  let mid := u128 (u128 (ah * bl) + u128 (al * bh)) in
  u128 (hi + Z.shiftr mid 64).

Definition MulByInvert (_v o : Z) : res Z :=
  a ← magnitude _v;
  mret (with_sign (_v <? 0) (UmulByInvert a (u128 o))).

(** [v]: a [uint64_t] *)
Definition Invert (v : Z) : res Z :=
  _ ← ns_assert (1 <? v);
  q ← Udiv (Z.shiftl 1 64) v;
  let result := i128 q in
  let tmp := of_hi_lo (i64 v) 0 in
  tmp ← MulByInvert tmp result;
  if negb (GetHigh tmp =? 1) then i128_check (result + 1) else mret result.

(** ** Streaming ([int64x64.cc])

    The digits that [operator >>] reads: [ReadHiDigits] and [ReadLoDigits]. *)

Definition ReadHiDigits (digits : list Z) : Z := foldl (fun retval d => u64 (u64 (retval * 10) + d)) 0 digits.

(** One step of the loop, from the last digit to the first *)
Definition read_lo (digit : Z) (low : res Z) : res Z :=
  low ← low;
  _ ← ns_assert ((0 <=? digit) && (digit <=? 9));
  s ← add low (of_int digit);
  s ← add s (of_hi_lo 0 5);
  Div s (of_int 10).
Definition ReadLoDigits (digits : list Z) : res Z :=
  low ← foldr read_lo (Ok 0) digits; mret (GetLow low).

(** A number with its digits before the point and, when there is one, after it. *)
Definition read (negative : bool) (hi : list Z) (lo : option (list Z)) : res Z :=
  l ← match lo with None => mret 0 | Some digits => ReadLoDigits digits end;
  let value := of_hi_lo (i64 (ReadHiDigits hi)) l in
  if negative then opp value else mret value.
