(* ===== verification/Int64x64Spec.v ===== *)
(** * Correctness of the fixed point arithmetic

    Products and quotients against exact integer arithmetic; the inverse that
    replaces a division by an integer gives the exact quotient. *)

From S2P Require Import Prelude FloatingPoint Int64x64.

(** ** Words *)

Lemma land_lo x : Z.land x HP_MASK_LO = x mod 2 ^ 64.
Proof. change HP_MASK_LO with (Z.ones 64). by rewrite Z.land_ones. Qed.
Lemma shr64 x : Z.shiftr x 64 = x / 2 ^ 64.
Proof. by rewrite Z.shiftr_div_pow2. Qed.
Lemma shl_pow x s : 0 <= s -> Z.shiftl x s = x * 2 ^ s.
Proof. intros. by rewrite Z.shiftl_mul_pow2. Qed.

Lemma i128_small x : - 2 ^ 127 <= x < 2 ^ 127 -> i128 x = x.
Proof.
  intros Hx. unfold i128, to_signed, wrap. change (128 - 1) with 127.
  destruct (Z_lt_le_dec x 0) as [Hn|Hp].
  - replace (x mod 2 ^ 128) with (x + 2 ^ 128) by (rewrite <- (Z.mod_small (x + 2 ^ 128) (2 ^ 128)) by lia;
      by rewrite <- Z.add_mod_idemp_r, Z_mod_same_full, Z.add_0_r by lia).
    rewrite (proj2 (Z.ltb_ge _ _)) by lia. lia.
  - rewrite Z.mod_small, (proj2 (Z.ltb_lt _ _)) by lia. done.
Qed.

Lemma i128_wrap x : i128 (u128 x) = i128 x.
Proof. unfold i128, to_signed. by rewrite wrap_wrap. Qed.

Lemma signed_check_ok w x : - 2 ^ (w - 1) <= x < 2 ^ (w - 1) -> signed_check w x = Ok x.
Proof. intros Hx. unfold signed_check. rewrite (proj2 (Z.leb_le _ _)), (proj2 (Z.ltb_lt _ _)) by lia. done. Qed.

Lemma of_int_ok v : - 2 ^ 63 <= v < 2 ^ 63 -> of_int v = v * 2 ^ 64.
Proof. intros. unfold of_int. rewrite shl_pow by lia. apply i128_small. lia. Qed.

Lemma or_lo h l : 0 <= l < 2 ^ 64 -> Z.lor (h * 2 ^ 64) l = h * 2 ^ 64 + l.
Proof.
  intros Hl. rewrite <- Z.shiftl_mul_pow2 by lia. symmetry. apply Z.add_nocarry_lor.
  apply Z.bits_inj'. intros n Hn. rewrite Z.land_spec, Z.bits_0, andb_false_iff.
  destruct (Z_lt_le_dec n 64); [left; by apply Z.shiftl_spec_low|right].
  destruct (Z.eqb_spec l 0) as [->|]; [apply Z.bits_0|].
  apply Z.bits_above_log2; [lia|]. apply Z.log2_lt_pow2; [lia|].
  apply Z.lt_le_trans with (2 ^ 64); [lia|]. by apply Z.pow_le_mono_r.
Qed.
Lemma of_hi_lo_ok h l : - 2 ^ 63 <= h < 2 ^ 63 -> 0 <= l < 2 ^ 64 -> of_hi_lo h l = h * 2 ^ 64 + l.
Proof.
  intros. unfold of_hi_lo. rewrite shl_pow, i128_small by lia. by apply or_lo.
Qed.

Lemma magnitude_ok v : - 2 ^ 127 < v < 2 ^ 127 -> magnitude v = Ok (Z.abs v).
Proof.
  intros Hv. unfold magnitude. destruct (Z.ltb_spec v 0).
  - rewrite signed_check_ok by (change (128 - 1) with 127; lia). simpl. f_equal. rewrite wrap_small by (unfold in_range; lia). lia.
  - simpl. f_equal. rewrite wrap_small by (unfold in_range; lia). lia.
Qed.

Lemma wrap_mul_l w x y : wrap w (wrap w x * y) = wrap w (x * y).
Proof. apply Zmult_mod_idemp_l. Qed.
Lemma wrap_shift w x k : wrap w (x + k * 2 ^ w) = wrap w x.
Proof. apply Z_mod_plus_full. Qed.

(** ** Products *)

Lemma mul_bound x y A B : 0 <= x <= A -> 0 <= y <= B -> 0 <= x * y <= A * B.
Proof. intros. split; [nia|]. apply Z.mul_le_mono_nonneg; lia. Qed.

(** The integer part of a product is not checked. *)
Lemma no_overflow_check x : Z.land x HP_MASK_HI =? 0 = true.
Proof. change HP_MASK_HI with 0. by rewrite Z.land_0_r. Qed.

Lemma Umul_ok a b :
  0 <= a <= 2 ^ 127 -> 0 <= b <= 2 ^ 127 -> Umul a b = Ok (wrap 128 (a * b / 2 ^ 64)).
Proof.
  intros Ha Hb. unfold Umul. rewrite no_overflow_check. cbn [ns_require mbind res_bind].
  rewrite !land_lo, !shr64, !shl_pow by lia.
  pose proof (Z.div_mod a (2 ^ 64) ltac:(lia)) as Ea. pose proof (Z.mod_pos_bound a (2 ^ 64) ltac:(lia)).
  pose proof (Z.div_mod b (2 ^ 64) ltac:(lia)) as Eb. pose proof (Z.mod_pos_bound b (2 ^ 64) ltac:(lia)).
  assert (0 <= a / 2 ^ 64 <= 2 ^ 63) by (split; [apply Z.div_pos; lia|apply Z.div_le_upper_bound; lia]).
  assert (0 <= b / 2 ^ 64 <= 2 ^ 63) by (split; [apply Z.div_pos; lia|apply Z.div_le_upper_bound; lia]).
  rewrite (Z.mod_small (a / 2 ^ 64)), (Z.mod_small (b / 2 ^ 64)) by lia.
  set (aL := a mod 2 ^ 64) in *. set (aH := a / 2 ^ 64) in *.
  set (bL := b mod 2 ^ 64) in *. set (bH := b / 2 ^ 64) in *.
  pose proof (mul_bound aL bL (2 ^ 64 - 1) (2 ^ 64 - 1) ltac:(lia) ltac:(lia)).
  pose proof (mul_bound aH bH (2 ^ 63) (2 ^ 63) ltac:(lia) ltac:(lia)).
  pose proof (mul_bound aL bH (2 ^ 64 - 1) (2 ^ 63) ltac:(lia) ltac:(lia)).
  pose proof (mul_bound aH bL (2 ^ 63) (2 ^ 64 - 1) ltac:(lia) ltac:(lia)).
  rewrite !(wrap_small 128 (_ * _)) by (unfold in_range; lia).
  rewrite (wrap_small 128 (aL * bH + _)) by (unfold in_range; lia). unfold mret, res_ret. f_equal.
  set (lo := aL * bL) in *. set (mid := aL * bH + aH * bL) in *. set (hi := aH * bH) in *.
  replace (a * b / 2 ^ 64) with (lo / 2 ^ 64 + mid + hi * 2 ^ 64).
  2: { replace (a * b) with (lo + (mid + hi * 2 ^ 64) * 2 ^ 64) by (unfold lo, mid, hi; rewrite Ea, Eb at 1; ring).
       rewrite Z.div_add by lia. lia. }
  rewrite (wrap_mul_l 128), (wrap_add_l 128), (wrap_add_r 128).
  pose proof (Z.div_mod mid (2 ^ 64) ltac:(lia)) as Em. pose proof (Z.div_mod hi (2 ^ 64) ltac:(lia)) as Eh.
  rewrite <- (wrap_shift 128 _ (hi / 2 ^ 64)). f_equal.
  rewrite (wrap_small 128 hi) by (unfold in_range; lia). change (2 ^ 128) with (2 ^ 64 * 2 ^ 64). lia.
Qed.

Lemma i128_opp x : i128 (u128 (- u128 x)) = i128 (- x).
Proof. rewrite i128_wrap. rewrite <- i128_wrap, <- Z.sub_0_l, (wrap_sub_r 128), i128_wrap. by rewrite Z.sub_0_l. Qed.

(** The signed result of an operation on magnitudes. *)
Lemma signed_quot v o q d :
  0 < d -> 0 <= q -> q = Z.quot (Z.abs v * Z.abs o) d ->
  with_sign (((v <? 0) && negb (o <? 0)) || (negb (v <? 0) && (o <? 0))) (u128 q) = i128 (Z.quot (v * o) d).
Proof.
  intros Hd Hq ->. unfold with_sign.
  destruct (Z.ltb_spec v 0), (Z.ltb_spec o 0); cbn [negb andb orb]; rewrite ?i128_opp, ?i128_wrap;
    rewrite <- ?Z.quot_opp_l by lia; do 2 f_equal; lia.
Qed.

(** A product is rounded towards zero, and loses its highest digits without a check. *)
Lemma Mul_ok v o :
  - 2 ^ 127 < v < 2 ^ 127 -> - 2 ^ 127 < o < 2 ^ 127 -> Mul v o = Ok (i128 (Z.quot (v * o) (2 ^ 64))).
Proof.
  intros Hv Ho. unfold Mul, output_sign. rewrite !magnitude_ok by done. cbn [mbind res_bind mret res_ret].
  rewrite Umul_ok by lia. cbn [mbind res_bind mret res_ret]. f_equal.
  apply signed_quot; [lia|apply Z.div_pos; lia|]. by rewrite Z.quot_div_nonneg by lia.
Qed.

(** ** Quotients *)

Lemma odd_bit x : Z.land x 0x1 =? 0 = Z.even x.
Proof.
  change 1 with (Z.ones 1). rewrite Z.land_ones by lia. change (2 ^ 1) with 2.
  rewrite Zmod_even. by destruct (Z.even x).
Qed.
Lemma high_bit x : 0 <= x < 2 ^ 128 -> Z.land x HP128_MASK_HI_BIT =? 0 = (x <? 2 ^ 127).
Proof.
  intros Hx. unfold HP128_MASK_HI_BIT. destruct (Z.ltb_spec x (2 ^ 127)) as [Hl|Hl].
  - apply Z.eqb_eq, Z.bits_inj'. intros n Hn. rewrite Z.land_spec, Z.bits_0, Z.pow2_bits_eqb by lia.
    destruct (Z.eqb_spec 127 n) as [<-|]; [|by rewrite andb_false_r]. rewrite andb_true_r.
    destruct (Z.eqb_spec x 0) as [->|]; [apply Z.bits_0|].
    apply Z.bits_above_log2; [lia|]. by apply Z.log2_lt_pow2; [lia|].
  - apply Z.eqb_neq. intros E. assert (Z.testbit (Z.land x (2 ^ 127)) 127 = true) as Ht; [|by rewrite E, Z.bits_0 in Ht].
    rewrite Z.land_spec, Z.pow2_bits_true, andb_true_r by lia.
    replace 127 with (Z.log2 x); [apply Z.bit_log2; lia|]. apply Z.log2_unique; [lia|]. change (Z.succ 127) with 128. lia.
Qed.

Lemma skip_trailing_ok n : forall shift den,
  0 <= shift <= 64 -> 64 - shift <= Z.of_nat n -> 0 < den ->
  exists shift' den', skip_trailing n shift den = Ok (shift', den') /\ shift <= shift' <= 64 /\
    0 < den' /\ den = den' * 2 ^ (shift' - shift) /\ (shift' = 64 \/ Z.even den' = false).
Proof.
  induction n as [|n IH]; intros shift den Hs Hn Hd; cbn [skip_trailing]; unfold DIGITS; rewrite odd_bit.
  - rewrite (proj2 (Z.ltb_ge _ _)) by lia. simpl. exists shift, den. rewrite Z.sub_diag. split_and!; try lia; done || lia.
  - destruct (Z.ltb_spec shift 64) as [Hlt|Hge]; simpl.
    2: { exists shift, den. rewrite Z.sub_diag. split_and!; try lia; done || lia. }
    destruct (Z.even den) eqn:Hev; simpl.
    2: { exists shift, den. rewrite Z.sub_diag. split_and!; try lia; [done|by right]. }
    apply Z.even_spec in Hev as [k ->]. rewrite Z.shiftr_div_pow2, (Z.mul_comm 2), Z.div_mul by lia.
    destruct (IH (shift + 1) k) as (s' & d' & E & Hs' & Hd' & Hk & Hor); [lia..|].
    exists s', d'. split; [done|]. split; [lia|]. split; [done|]. split; [|done].
    rewrite Hk. replace (s' - shift) with (s' - (shift + 1) + 1) by lia. rewrite Z.pow_add_r by lia. lia.
Qed.

Lemma skip_leading_ok n digis : forall shift rem,
  0 <= shift -> digis + shift <= 64 -> 64 - (digis + shift) <= Z.of_nat n -> 0 < rem < 2 ^ 128 ->
  exists shift' rem', skip_leading n digis shift rem = Ok (shift', rem') /\ shift <= shift' /\
    digis + shift' <= 64 /\ rem' = rem * 2 ^ (shift' - shift) /\ rem' < 2 ^ 128 /\
    (digis + shift' = 64 \/ 2 ^ 127 <= rem').
Proof.
  induction n as [|n IH]; intros shift rem Hs Hle Hn Hr; cbn [skip_leading]; unfold DIGITS; rewrite high_bit by lia.
  - rewrite (proj2 (Z.ltb_ge _ _)) by lia. simpl. exists shift, rem. rewrite Z.sub_diag. split_and!; try lia; done || lia.
  - destruct (Z.ltb_spec (digis + shift) 64) as [Hlt|Hge]; simpl.
    2: { exists shift, rem. rewrite Z.sub_diag. split_and!; try lia; done || lia. }
    destruct (Z.ltb_spec rem (2 ^ 127)) as [Hl|Hl]; simpl.
    2: { exists shift, rem. rewrite Z.sub_diag. split_and!; try lia; done || lia. }
    rewrite shl_pow, wrap_small by (unfold in_range; lia).
    destruct (IH (shift + 1) (rem * 2 ^ 1)) as (s' & r' & E & Hs' & Hd' & Hk & Hb & Hor); [lia..|].
    exists s', r'. split; [done|]. split; [lia|]. split; [done|]. split; [|done].
    rewrite Hk, <- Z.mul_assoc, <- Z.pow_add_r by lia. do 2 f_equal. lia.
Qed.

(** The denominator never loses a digit that counts. *)
Lemma cast_off_none n digis shift rem den :
  digis + shift = 64 \/ (Z.even den = false /\ den <= rem) ->
  cast_off n digis shift rem den = Ok (shift, den).
Proof.
  intros H. destruct n; cbn [cast_off]; unfold DIGITS; rewrite odd_bit;
    (destruct H as [H|[-> H]];
     [rewrite (proj2 (Z.ltb_ge _ _)) by lia; done|rewrite (proj2 (Z.ltb_ge rem den)) by lia; by rewrite andb_false_r]).
Qed.

Section udiv.
Context (a b s den : Z) (Ha : 0 <= a) (Hb : 0 < b <= 2 ^ 127).
Context (Hs : 0 <= s <= 64) (Hden : 0 < den) (Hbs : b = den * 2 ^ s) (Hodd : s = 64 \/ Z.even den = false).

(** [q] is the quotient to [digis] binary places. *)
Record div_inv (digis shift rem q : Z) : Prop := {
  di_digis : 0 <= digis <= 64;
  di_shift : (digis = 0 /\ shift = s) \/ (shift = 0 /\ s <= digis);
  di_rem : 0 <= rem /\ rem * 2 ^ (s - shift) < b;
  di_value : a * 2 ^ digis = q * b + rem * 2 ^ (s - shift) }.

Lemma den_small : den <= 2 ^ 127.
Proof using Hb Hbs Hden Hs. nia. Qed.

Lemma div_inv_step digis shift rem q :
  div_inv digis shift rem q -> digis < 64 -> 0 < rem ->
  exists shift' rem', skip_leading rounds digis shift rem = Ok (shift', rem') /\
    cast_off rounds digis shift' rem' den = Ok (shift', den) /\ 1 <= shift' /\
    div_inv (digis + shift') 0 (rem' mod den) (q * 2 ^ shift' + rem' / den).
Proof using Ha Hb Hs Hden Hbs Hodd.
  intros [Hdg Hsh [Hr0 Hr] Hv] Hlt Hpos.
  assert (0 <= s - shift) as Hss by lia.
  assert (rem < b) as Hrb by nia.
  destruct (skip_leading_ok rounds digis shift rem) as (sh & r & E & Hge & Hle & Er & Hr128 & Hor);
    [lia|lia|unfold rounds; lia|lia|].
  exists sh, r. split; [done|].
  assert (digis + sh = 64 \/ (Z.even den = false /\ den <= r)) as Hc.
  { destruct Hor as [|Hbig]; [by left|]. destruct Hodd as [->|Ho]; [left; lia|right].
    split; [done|]. pose proof den_small. lia. }
  split; [by apply cast_off_none|].
  assert (1 <= sh) as Hsh1.
  { destruct Hor as [|Hbig]; [lia|]. destruct Hsh as [[? ->]|[-> _]]; [|].
    - destruct (Z.eq_dec sh 0) as [->|]; [|lia]. assert (s = 0) as -> by lia. rewrite Z.mul_1_r in Er. lia.
    - destruct (Z.eq_dec sh 0) as [->|]; [|lia]. rewrite Z.mul_1_r in Er.
      assert (rem < den) by (rewrite Z.sub_0_r in Hr; nia). pose proof den_small. lia. }
  split; [done|].
  pose proof (Z.div_mod r den ltac:(lia)) as Edm. pose proof (Z.mod_pos_bound r den Hden) as Hm.
  split; [lia|right; lia| |].
  - split; [lia|]. rewrite Z.sub_0_r, Hbs. apply Z.mul_lt_mono_pos_r; lia.
  - rewrite Z.sub_0_r, Z.pow_add_r, Z.mul_assoc, Hv by lia.
    assert (r * 2 ^ s = rem * 2 ^ (s - shift) * 2 ^ sh) as Ers.
    { rewrite Er, <- !Z.mul_assoc, <- !Z.pow_add_r by lia. do 2 f_equal. lia. }
    rewrite Z.mul_add_distr_r, <- Ers, Edm at 1. rewrite Hbs. ring.
Qed.

Lemma div_loop_ok n : forall digis shift rem q,
  div_inv digis shift rem q -> 64 - digis <= Z.of_nat n ->
  exists digis' rem' shift' q', div_loop n digis shift rem den (u128 q) = Ok (digis', u128 q') /\
    div_inv digis' shift' rem' q' /\ (digis' = 64 \/ rem' = 0).
Proof using Ha Hb Hs Hden Hbs Hodd.
  induction n as [|n IH]; intros digis shift rem q Hinv Hn; cbn [div_loop]; unfold DIGITS.
  - rewrite (proj2 (Z.ltb_ge _ _)) by lia. cbn [andb negb]. pose proof (di_digis _ _ _ _ Hinv).
    exists digis, rem, shift, q. split_and!; done || lia.
  - destruct (Z.ltb_spec digis 64) as [Hlt|Hge]; cbn [andb negb].
    2: { pose proof (di_digis _ _ _ _ Hinv). exists digis, rem, shift, q. split_and!; done || lia. }
    destruct (Z.eqb_spec rem 0) as [->|Hne]; cbn [andb negb].
    { exists digis, 0, shift, q. split_and!; [done..|by right]. }
    pose proof (di_rem _ _ _ _ Hinv) as [Hr0 _].
    destruct (div_inv_step digis shift rem q Hinv Hlt ltac:(lia)) as (sh & r & E1 & E2 & Hsh & Hinv').
    fold rounds. rewrite E1. cbn [mbind res_bind]. rewrite E2. cbn [mbind res_bind].
    unfold divide. rewrite (proj2 (Z.eqb_neq den 0)) by lia. cbn [mbind res_bind].
    rewrite shl_pow, wrap_mul_l, wrap_add_l by lia.
    apply IH; [done|]. lia.
Qed.
End udiv.

(** Division of unsigned numbers is exact to the last digit. *)
Lemma Udiv_ok a b : 0 <= a < 2 ^ 128 -> 0 < b <= 2 ^ 127 -> Udiv a b = Ok (wrap 128 (a * 2 ^ 64 / b)).
Proof.
  intros Ha Hb. unfold Udiv, divide. rewrite (proj2 (Z.eqb_neq b 0)) by lia. cbn [mbind res_bind].
  pose proof (Z.mod_pos_bound a b ltac:(lia)) as Hm. pose proof (Z.div_mod a b ltac:(lia)) as Edm.
  rewrite (proj2 (Z.ltb_lt _ _)) by lia. cbn [ns_assert mbind res_bind].
  destruct (skip_trailing_ok rounds 0 b) as (s & den & E & Hs & Hd & Hbs & Hor); [lia|unfold rounds; lia|lia|].
  rewrite E. cbn [mbind res_bind]. rewrite Z.sub_0_r in Hbs.
  assert (0 <= a / b < 2 ^ 128) as Hq.
  { split; [apply Z.div_pos; lia|]. apply Z.div_lt_upper_bound; nia. }
  rewrite <- (wrap_small 128 (a / b)) by (unfold in_range; lia).
  destruct (div_loop_ok a b s den ltac:(lia) Hb ltac:(lia) Hd Hbs Hor rounds 0 s (a mod b) (a / b))
    as (digis & rem & shift & q & El & Hinv & Hend); [|unfold rounds; lia|].
  { split; [lia|by left| |]; rewrite Z.sub_diag, Z.mul_1_r; lia. }
  rewrite El. cbn [mbind res_bind]. destruct Hinv as [Hdg Hsh [Hr0 Hr] Hv]. unfold DIGITS.
  assert (0 <= s - shift) as Hss by lia.
  destruct (Z.ltb_spec digis 64) as [Hlt|Hge].
  - destruct Hend as [|Hz]; [lia|]. subst rem. rewrite Z.mul_0_l, Z.add_0_r in Hv.
    rewrite shl_pow, wrap_mul_l by lia. unfold mret, res_ret. do 2 f_equal.
    replace (a * 2 ^ 64) with (q * 2 ^ (64 - digis) * b); [by rewrite Z.div_mul by lia|].
    replace 64 with (digis + (64 - digis)) at 2 by lia. rewrite Z.pow_add_r, Z.mul_assoc, Hv by lia. ring.
  - assert (digis = 64) as -> by lia. unfold mret, res_ret. do 2 f_equal.
    apply Z.div_unique with (rem * 2 ^ (s - shift)); [left; nia|]. rewrite Hv. ring.
Qed.

Lemma Div_ok v o :
  - 2 ^ 127 < v < 2 ^ 127 -> - 2 ^ 127 < o < 2 ^ 127 -> o <> 0 ->
  - 2 ^ 127 < Z.quot (v * 2 ^ 64) o < 2 ^ 127 -> Div v o = Ok (Z.quot (v * 2 ^ 64) o).
Proof.
  intros Hv Ho Hne Hfit. unfold Div, output_sign. rewrite !magnitude_ok by done. cbn [mbind res_bind mret res_ret].
  rewrite Udiv_ok by lia. cbn [mbind res_bind mret res_ret]. rewrite i128_wrap.
  rewrite <- Z.quot_div_nonneg by lia.
  assert (Z.quot (Z.abs v * 2 ^ 64) (Z.abs o) = Z.sgn v * Z.sgn o * Z.quot (v * 2 ^ 64) o) as ->.
  { destruct (Z.ltb_spec v 0), (Z.ltb_spec o 0).
    - rewrite (Z.abs_neq v), (Z.abs_neq o), (Z.sgn_neg v), (Z.sgn_neg o), Z.mul_opp_l, Z.quot_opp_opp by lia. lia.
    - rewrite (Z.abs_neq v), (Z.abs_eq o), (Z.sgn_neg v), (Z.sgn_pos o), Z.mul_opp_l, Z.quot_opp_l by lia. lia.
    - rewrite (Z.abs_eq v), (Z.abs_neq o), (Z.sgn_neg o), Z.quot_opp_r by lia.
      destruct (Z.eq_dec v 0) as [->|]; [by rewrite Z.quot_0_l by lia|]. rewrite (Z.sgn_pos v) by lia. lia.
    - rewrite (Z.abs_eq v), (Z.abs_eq o), (Z.sgn_pos o) by lia.
      destruct (Z.eq_dec v 0) as [->|]; [by rewrite Z.quot_0_l by lia|]. rewrite (Z.sgn_pos v) by lia. lia. }
  set (q := Z.quot (v * 2 ^ 64) o) in *.
  destruct (Z.ltb_spec v 0), (Z.ltb_spec o 0); cbn [negb andb orb].
  - rewrite (Z.sgn_neg v), (Z.sgn_neg o), i128_small by lia. unfold mret, res_ret. f_equal. lia.
  - rewrite (Z.sgn_neg v), (Z.sgn_pos o), i128_small, signed_check_ok by (try change (2 ^ (128 - 1)) with (2 ^ 127); lia).
    f_equal. lia.
  - rewrite (Z.sgn_neg o) by lia. destruct (Z.eq_dec v 0) as [Hz|].
    + assert (q = 0) as -> by (unfold q; rewrite Hz; apply Z.quot_0_l; lia). rewrite Hz. done.
    + rewrite (Z.sgn_pos v), i128_small, signed_check_ok by (try change (2 ^ (128 - 1)) with (2 ^ 127); lia). f_equal. lia.
  - rewrite (Z.sgn_pos o) by lia. destruct (Z.eq_dec v 0) as [Hz|].
    + assert (q = 0) as -> by (unfold q; rewrite Hz; apply Z.quot_0_l; lia). rewrite Hz. done.
    + rewrite (Z.sgn_pos v), i128_small by lia. unfold mret, res_ret. f_equal. lia.
Qed.

(** ** Rounding *)

(** To the nearest integer, halves away from zero. *)
Lemma Round_ok v :
  Z.abs v + 2 ^ 63 < 2 ^ 127 -> Round v = Ok (Z.sgn v * ((Z.abs v + 2 ^ 63) / 2 ^ 64)).
Proof.
  intros Hv. unfold Round. rewrite of_hi_lo_ok by lia.
  assert ((if v <? 0 then i128_check (- v) else mret v) = Ok (Z.abs v)) as ->.
  { destruct (Z.ltb_spec v 0); [rewrite signed_check_ok by (change (2 ^ (128 - 1)) with (2 ^ 127); lia)|]; unfold mret, res_ret; f_equal; lia. }
  cbn [mbind res_bind]. rewrite signed_check_ok by (change (2 ^ (128 - 1)) with (2 ^ 127); lia). cbn [mbind res_bind].
  unfold GetHigh. rewrite shr64, Z.mul_0_l, Z.add_0_l.
  assert (0 <= (Z.abs v + 2 ^ 63) / 2 ^ 64 < 2 ^ 63) as Hq.
  { split; [apply Z.div_pos; lia|apply Z.div_lt_upper_bound; lia]. }
  unfold i64. rewrite to_signed_small by lia.
  destruct (Z.ltb_spec v 0).
  - rewrite signed_check_ok by (change (2 ^ (64 - 1)) with (2 ^ 63); lia). rewrite Z.sgn_neg by lia. done.
  - unfold mret, res_ret. f_equal. destruct (Z.eq_dec v 0) as [->|]; [done|]. rewrite Z.sgn_pos by lia. lia.
Qed.

(** ** Division by an integer, with its inverse *)

Definition inverse (v : Z) : Z := (2 ^ 128 + v - 1) / v.

Lemma UmulByInvert_ok a b :
  0 <= a < 2 ^ 127 -> 0 <= b <= 2 ^ 127 ->
  UmulByInvert a b = (a * b - (a mod 2 ^ 64) * (b mod 2 ^ 64)) / 2 ^ 128.
Proof.
  intros Ha Hb. unfold UmulByInvert. rewrite !land_lo, !shr64.
  pose proof (Z.div_mod a (2 ^ 64) ltac:(lia)) as Ea. pose proof (Z.mod_pos_bound a (2 ^ 64) ltac:(lia)).
  pose proof (Z.div_mod b (2 ^ 64) ltac:(lia)) as Eb. pose proof (Z.mod_pos_bound b (2 ^ 64) ltac:(lia)).
  assert (0 <= a / 2 ^ 64 <= 2 ^ 63) by (split; [apply Z.div_pos; lia|apply Z.div_le_upper_bound; lia]).
  assert (0 <= b / 2 ^ 64 <= 2 ^ 63) by (split; [apply Z.div_pos; lia|apply Z.div_le_upper_bound; lia]).
  set (aL := a mod 2 ^ 64) in *. set (aH := a / 2 ^ 64) in *.
  set (bL := b mod 2 ^ 64) in *. set (bH := b / 2 ^ 64) in *.
  pose proof (mul_bound aH bH (2 ^ 63) (2 ^ 63) ltac:(lia) ltac:(lia)).
  pose proof (mul_bound aL bH (2 ^ 64 - 1) (2 ^ 63) ltac:(lia) ltac:(lia)).
  pose proof (mul_bound aH bL (2 ^ 63) (2 ^ 64 - 1) ltac:(lia) ltac:(lia)).
  rewrite !(wrap_small 128 (_ * _)) by (unfold in_range; lia).
  rewrite (wrap_small 128 (aH * bL + _)) by (unfold in_range; lia).
  assert (0 <= (aH * bL + aL * bH) / 2 ^ 64 < 2 ^ 64) by (split; [apply Z.div_pos; lia|apply Z.div_lt_upper_bound; lia]).
  rewrite wrap_small by (unfold in_range; lia).
  replace (a * b - aL * bL) with ((aH * bL + aL * bH) * 2 ^ 64 + aH * bH * (2 ^ 64 * 2 ^ 64)).
  2: { rewrite Ea, Eb at 1. ring. }
  change (2 ^ 128) with (2 ^ 64 * 2 ^ 64). rewrite Z.div_add, Z.div_mul_cancel_r by lia. lia.
Qed.

Lemma inverse_spec v : 0 < v -> exists t, 0 <= t < v /\ inverse v * v = 2 ^ 128 + t.
Proof.
  intros Hv. unfold inverse. pose proof (Z.div_mod (2 ^ 128 + v - 1) v ltac:(lia)).
  pose proof (Z.mod_pos_bound (2 ^ 128 + v - 1) v Hv). exists (v - 1 - (2 ^ 128 + v - 1) mod v). lia.
Qed.
Lemma inverse_bound v : 1 < v -> 0 < inverse v <= 2 ^ 127.
Proof. intros Hv. destruct (inverse_spec v) as (t & Ht & E); [lia|]. nia. Qed.

Lemma u128_i128 x : 0 <= x < 2 ^ 128 -> u128 (i128 x) = x.
Proof.
  intros Hx. unfold i128, to_signed. rewrite (wrap_small 128 x) by done.
  destruct (Z.ltb_spec x (2 ^ (128 - 1))); [by apply wrap_small|].
  replace (x - 2 ^ 128) with (x + -1 * 2 ^ 128) by lia. rewrite wrap_shift. by apply wrap_small.
Qed.

(** The product of an integer and an inverse. *)
Lemma MulByInvert_ok m b :
  - 2 ^ 63 < m < 2 ^ 63 -> 0 <= b <= 2 ^ 127 ->
  MulByInvert (m * 2 ^ 64) (i128 b) = Ok (Z.sgn m * (Z.abs m * b / 2 ^ 64)).
Proof.
  intros Hm Hb. unfold MulByInvert. rewrite magnitude_ok by lia. cbn [mbind res_bind mret res_ret].
  rewrite u128_i128, UmulByInvert_ok, Z.abs_mul by lia. change (Z.abs (2 ^ 64)) with (2 ^ 64).
  rewrite Z.mod_mul, Z.mul_0_l, Z.sub_0_r by lia.
  replace (Z.abs m * 2 ^ 64 * b) with (Z.abs m * b * 2 ^ 64) by ring.
  change (2 ^ 128) with (2 ^ 64 * 2 ^ 64). rewrite Z.div_mul_cancel_r by lia.
  pose proof (mul_bound (Z.abs m) b (2 ^ 63) (2 ^ 127) ltac:(lia) Hb).
  assert (0 <= Z.abs m * b / 2 ^ 64 < 2 ^ 127) as Hq.
  { split; [apply Z.div_pos; lia|]. apply Z.div_lt_upper_bound; [lia|]. lia. }
  unfold mret, res_ret. f_equal. unfold with_sign.
  destruct (Z.ltb_spec (m * 2 ^ 64) 0).
  - rewrite i128_wrap, i128_small, Z.sgn_neg by lia. lia.
  - rewrite i128_small by lia. destruct (Z.eq_dec m 0) as [->|]; [done|]. rewrite Z.sgn_pos by lia. lia.
Qed.

Lemma Invert_ok v : 1 < v < 2 ^ 63 -> Invert v = Ok (i128 (inverse v)).
Proof.
  intros Hv. unfold Invert. rewrite (proj2 (Z.ltb_lt 1 v)) by lia. cbn [ns_assert mbind res_bind].
  rewrite Udiv_ok by (rewrite ?shl_pow by lia; lia). rewrite shl_pow by lia. cbn [mbind res_bind].
  replace (1 * 2 ^ 64 * 2 ^ 64) with (2 ^ 128) by lia.
  assert (0 <= 2 ^ 128 / v <= 2 ^ 127) as Hq by (split; [apply Z.div_pos; lia|apply Z.div_le_upper_bound; lia]).
  rewrite (wrap_small 128) by (unfold in_range; lia). unfold i64.
  rewrite to_signed_small, of_hi_lo_ok, Z.add_0_r, MulByInvert_ok by lia.
  cbn [mbind res_bind]. rewrite Z.sgn_pos, Z.mul_1_l, Z.abs_eq by lia.
  pose proof (Z.div_mod (2 ^ 128) v ltac:(lia)) as Edm. pose proof (Z.mod_pos_bound (2 ^ 128) v ltac:(lia)) as Hr.
  set (q := 2 ^ 128 / v) in *. unfold GetHigh. rewrite shr64, Z.div_div by lia. change (2 ^ 64 * 2 ^ 64) with (2 ^ 128).
  destruct (Z.eq_dec (2 ^ 128 mod v) 0) as [Hz|Hz].
  - replace (v * q / 2 ^ 128) with 1 by (rewrite Hz in Edm; replace (v * q) with (2 ^ 128) by lia; done).
    unfold i64. rewrite to_signed_small by (change (2 ^ (64 - 1)) with (2 ^ 63); lia). cbn [negb Z.eqb Pos.eqb].
    unfold mret, res_ret. do 2 f_equal. unfold inverse. apply Z.div_unique with (v - 1); lia.
  - rewrite (Z.div_small (v * q)) by lia. unfold i64.
    rewrite to_signed_small by (change (2 ^ (64 - 1)) with (2 ^ 63); lia). cbn [negb Z.eqb].
    assert (q < 2 ^ 127) as Hq' by (assert (v <> 2) by (intros ->; done); apply Z.div_lt_upper_bound; lia).
    assert (inverse v = q + 1) as Ei.
    { symmetry. unfold inverse. apply Z.div_unique with (2 ^ 128 mod v - 1); lia. }
    assert (q + 1 < 2 ^ 127) as Hq''.
    { assert (v <> 2) by (intros ->; done). assert (q <= 2 ^ 128 / 3); [|change (2 ^ 128 / 3) with 113427455640312821154458202477256070485 in *; lia].
      apply Z.div_le_compat_l; lia. }
    rewrite (i128_small q), (i128_small (inverse v)), signed_check_ok by (try change (2 ^ (128 - 1)) with (2 ^ 127); lia).
    by rewrite Ei.
Qed.

(** The integer part is the quotient, and the rest is right to the last digit. *)
Lemma inverse_quotient m v :
  0 <= m < 2 ^ 63 -> 1 < v < 2 ^ 63 ->
  m * inverse v / 2 ^ 64 / 2 ^ 64 = m / v /\
  m * 2 ^ 64 / v <= m * inverse v / 2 ^ 64 <= m * 2 ^ 64 / v + 1.
Proof.
  intros Hm Hv. destruct (inverse_spec v) as (t & Ht & E); [lia|].
  pose proof (Z.div_mod m v ltac:(lia)) as Em. pose proof (Z.mod_pos_bound m v ltac:(lia)) as Hmod.
  assert (m * inverse v * v = m * 2 ^ 128 + m * t) as Ei by (rewrite <- Z.mul_assoc, E; ring).
  assert (0 <= m * t < 2 ^ 126) as Hmt by nia.
  split.
  - rewrite Z.div_div by lia. change (2 ^ 64 * 2 ^ 64) with (2 ^ 128).
    symmetry. apply Z.div_unique with (m * inverse v - 2 ^ 128 * (m / v)); [left|lia]. nia.
  - split.
    + apply Z.div_le_lower_bound; [lia|]. pose proof (Z.mul_div_le (m * 2 ^ 64) v ltac:(lia)). nia.
    + apply Z.lt_succ_r, Z.div_lt_upper_bound; [lia|].
      pose proof (Z.mul_succ_div_gt (m * 2 ^ 64) v ltac:(lia)). nia.
Qed.

(** ** Integers from floating point *)

Lemma of_long_double_int k e :
  e <= 0 -> - 2 ^ 63 < k < 2 ^ 63 -> of_long_double (Finite (k * 2 ^ (- e)) e) = Ok (k * 2 ^ 64).
Proof.
  intros He Hk. unfold of_long_double, fp_negative.
  assert (k * 2 ^ (- e) <? 0 = (k <? 0)) as ->.
  { destruct (Z.ltb_spec k 0); [apply Z.ltb_lt|apply Z.ltb_ge]; nia. }
  assert (fp_neg (Finite (k * 2 ^ (- e)) e) = Finite (- k * 2 ^ (- e)) e) as -> by (simpl; f_equal; ring).
  assert ((if k <? 0 then Finite (- k * 2 ^ (- e)) e else Finite (k * 2 ^ (- e)) e) = Finite (Z.abs k * 2 ^ (- e)) e) as ->.
  { destruct (Z.ltb_spec k 0); do 2 f_equal; lia. }
  unfold modf, up, down. rewrite Z.max_l, Z.max_r, Z.mul_1_r, Z.div_mul, Z.mod_mul by lia.
  assert (fp_mul x87 (Finite 0 (Z.min 0 e)) HP_MAX_64 = Finite 0 0) as -> by done.
  assert (fp_add x87 (Finite 0 0) (Finite 1 (-1)) = Finite (2 ^ 63) (-64)) as -> by (vm_compute; reflexivity).
  assert (fp_to_int 0 (2 ^ 64 - 1) (Finite (2 ^ 63) (-64)) = Ok 0) as -> by (vm_compute; reflexivity).
  assert (fp_ge_max (Finite (2 ^ 63) (-64)) = false) as -> by (vm_compute; reflexivity).
  assert (fp_to_int (- 2 ^ 127) (2 ^ 127 - 1) (Finite (Z.abs k) 0) = Ok (Z.abs k)) as ->.
  { unfold fp_to_int, up, down. change (2 ^ Z.max 0 0) with 1. change (2 ^ Z.max 0 (- 0)) with 1.
    rewrite Z.mul_1_r, Z.quot_1_r, !(proj2 (Z.leb_le _ _)) by lia. done. }
  cbn [mbind res_bind mret res_ret]. rewrite shl_pow, i128_small, or_lo by lia.
  destruct (Z.ltb_spec k 0).
  - rewrite signed_check_ok by (change (2 ^ (128 - 1)) with (2 ^ 127); lia). f_equal. lia.
  - unfold mret, res_ret. f_equal. lia.
Qed.

Lemma of_double_int k : Z.abs k < 2 ^ 53 -> of_double (fp_of_int binary64 k) = Ok (k * 2 ^ 64).
Proof.
  intros Hk. unfold fp_of_int. rewrite <- (Z.mul_1_r k) at 1.
  destruct (round_to_int binary64 k 1 wide_binary64 ltac:(lia) Hk) as (e & He & ->).
  unfold of_double. destruct (convert_int x87 k e wide_x87 He) as (e' & He' & ->); [simpl; lia|].
  apply of_long_double_int; lia.
Qed.
