(* ===== verification/NsTime.v ===== *)
(** * [Time] ([src/core/model/nstime.h], [time.cc])

    A [Time] is its [m_data], a signed 64-bit count of the resolution unit.  The
    conversions are tabulated by [SetResolution]; before a simulation runs, the
    [Time] objects are recorded so that a change of resolution converts them. *)

From S2P Require Import Prelude FloatingPoint Int64x64.

Inductive Unit_ := Y | D | H | MIN | S | MS | US | NS | PS | FS.
#[export] Instance Unit_eq_dec : EqDecision Unit_.
Proof. solve_decision. Defined.

Definition UNIT_POWER (u : Unit_) : Z :=
  match u with Y => 17 | D => 17 | H => 17 | MIN => 16 | S => 15 | MS => 12 | US => 9 | NS => 6 | PS => 3 | FS => 0 end.
Definition UNIT_COEFF (u : Unit_) : Z :=
  match u with Y => 315360 | D => 864 | H => 36 | MIN => 6 | _ => 1 end.

(** A count of the smallest unit; the powers are exact. *)
Definition Scale (u : Unit_) : Z := UNIT_COEFF u * 10 ^ UNIT_POWER u.

Record Information := mkInformation {
  toMul : bool; fromMul : bool; factor : Z; timeTo : Z; timeFrom : Z }.

(** ** The table of conversions *)

Definition quotient (i unit : Unit_) : res Z :=
  if UNIT_COEFF unit <? UNIT_COEFF i then
    let quotient := UNIT_COEFF i / UNIT_COEFF unit in
    _ ← ns_assert (quotient * UNIT_COEFF unit =? UNIT_COEFF i); mret quotient
  else if UNIT_COEFF i <? UNIT_COEFF unit then
    let quotient := UNIT_COEFF unit / UNIT_COEFF i in
    _ ← ns_assert (quotient * UNIT_COEFF i =? UNIT_COEFF unit); mret quotient
  else mret 1.

(** The sign of [realFactor - 1], a quotient of exact numbers. *)
Definition compare_real_factor (i unit : Unit_) : comparison :=
  let shift := UNIT_POWER i - UNIT_POWER unit in
  10 ^ Z.max 0 shift * UNIT_COEFF i ?= 10 ^ Z.max 0 (- shift) * UNIT_COEFF unit.

(** The body of the loop of [SetResolution].  The factor is a [double], whose
    conversion to [int64_t] is defined only in range. *)
Definition information (i unit : Unit_) : res Information :=
  let shift := UNIT_POWER i - UNIT_POWER unit in
  quotient ← quotient i unit;
  factor ← signed_check 64 (10 ^ Z.abs shift * quotient);
  if (shift =? 0) && (quotient =? 1) then mret (mkInformation true true factor (of_int 1) (of_int 1))
  else match compare_real_factor i unit with
  | Gt => timeTo ← Invert (u64 factor); mret (mkInformation false true factor timeTo (of_int factor))
  | c =>
      _ ← ns_assert (match c with Lt => true | _ => false end);
      timeFrom ← Invert (u64 factor); mret (mkInformation true false factor (of_int factor) timeFrom)
  end.

Record Resolution := mkResolution { info : Unit_ -> Information; unit_ : Unit_ }.

Definition units : list Unit_ := [Y; D; H; MIN; S; MS; US; NS; PS; FS].
Definition lookup_unit (l : list (Unit_ * Information)) (u : Unit_) : Information :=
  match list_find (fun x => x.1 = u) l with
  | Some (_, (_, i)) => i
  | None => mkInformation true true 1 (of_int 1) (of_int 1)
  end.
(** The loop over the units *)
Fixpoint tabulate (unit : Unit_) (l : list Unit_) : res (list (Unit_ * Information)) :=
  match l with
  | [] => mret []
  | i :: l' => x ← information i unit; rest ← tabulate unit l'; mret ((i, x) :: rest)
  end.
Definition resolution_of (unit : Unit_) : res Resolution :=
  l ← tabulate unit units; mret (mkResolution (lookup_unit l) unit).
Definition SetDefaultNsResolution : res Resolution := resolution_of NS.

(** ** Conversions *)

Section conversions.
Context (r : Resolution).

(** [Time (const int64x64_t &)] *)
Definition of_int64x64 (v : Z) : res Z := Round v.
Definition From (value : Z) (unit : Unit_) : res Z :=
  let i := info r unit in
  retval ← (if fromMul i then Mul value (timeFrom i) else MulByInvert value (timeFrom i));
  of_int64x64 retval.
Definition FromDouble (value : fp) (unit : Unit_) : res Z := v ← of_double value; From v unit.
(** [value]: a [uint64_t] *)
Definition FromInteger (value : Z) (unit : Unit_) : res Z :=
  let i := info r unit in
  if fromMul i then mret (i64 (value * factor i))
  else if u64 (factor i) =? 0 then Err UndefinedBehaviour else mret (i64 (value / u64 (factor i))).
Definition ToInteger (m_data : Z) (unit : Unit_) : res Z :=
  let i := info r unit in
  if toMul i then signed_check 64 (m_data * factor i)
  else if factor i =? 0 then Err UndefinedBehaviour else signed_check 64 (Z.quot m_data (factor i)).
Definition To (m_data : Z) (unit : Unit_) : res Z :=
  let i := info r unit in
  if toMul i then Mul (of_int m_data) (timeTo i) else MulByInvert (of_int m_data) (timeTo i).
Definition ToDouble (m_data : Z) (unit : Unit_) : res fp := v ← To m_data unit; GetDouble v.
Definition RoundTo (m_data : Z) (unit : Unit_) : res Z :=
  v ← To m_data unit; n ← Round v; From (of_int n) unit.

Definition Years (value : fp) : res Z := FromDouble value Y.
Definition Days (value : fp) : res Z := FromDouble value D.
Definition Hours (value : fp) : res Z := FromDouble value H.
Definition Minutes (value : fp) : res Z := FromDouble value MIN.
Definition Seconds (value : fp) : res Z := FromDouble value S.
Definition MilliSeconds (value : Z) : res Z := FromInteger value MS.
Definition MicroSeconds (value : Z) : res Z := FromInteger value US.
Definition NanoSeconds (value : Z) : res Z := FromInteger value NS.
Definition PicoSeconds (value : Z) : res Z := FromInteger value PS.
Definition FemtoSeconds (value : Z) : res Z := FromInteger value FS.

Definition GetSeconds (m_data : Z) : res fp := ToDouble m_data S.
Definition GetMinutes (m_data : Z) : res fp := ToDouble m_data MIN.
Definition GetMilliSeconds (m_data : Z) : res Z := ToInteger m_data MS.
Definition GetMicroSeconds (m_data : Z) : res Z := ToInteger m_data US.
Definition GetNanoSeconds (m_data : Z) : res Z := ToInteger m_data NS.
End conversions.

(** ** Arithmetic *)

Abbreviation check64 := (signed_check 64).
Definition Time_add (lhs rhs : Z) : res Z := check64 (lhs + rhs).
Definition Time_sub (lhs rhs : Z) : res Z := check64 (lhs - rhs).
(** By a signed integer, and by a [uint64_t]: the operands are then unsigned. *)
Definition Time_mul_int (lhs rhs : Z) : res Z := check64 (lhs * rhs).
Definition Time_mul_uint (lhs rhs : Z) : Z := i64 (u64 lhs * rhs).
Definition Time_div_int (lhs rhs : Z) : res Z := if rhs =? 0 then Err UndefinedBehaviour else check64 (Z.quot lhs rhs).
Definition Time_div_uint (lhs rhs : Z) : res Z := if rhs =? 0 then Err UndefinedBehaviour else mret (i64 (u64 lhs / rhs)).
(** By a fixed point number *)
Definition Time_mul (lhs rhs : Z) : res Z := v ← Mul (of_int lhs) rhs; of_int64x64 v.
Definition Time_div (lhs rhs : Z) : res Z := v ← Div (of_int lhs) rhs; of_int64x64 v.
(** Of two times *)
Definition Time_ratio (lhs rhs : Z) : res Z := Div (of_int lhs) (of_int rhs).
Definition Rem (lhs rhs : Z) : res Z := if rhs =? 0 then Err UndefinedBehaviour else _ ← check64 (Z.quot lhs rhs); mret (Z.rem lhs rhs).
Definition Div_times (lhs rhs : Z) : res Z := Time_div_int lhs rhs.
Definition Abs (time : Z) : res Z := if time <? 0 then check64 (- time) else mret time.
Definition Max (timeA timeB : Z) : Z := if timeA <? timeB then timeB else timeA.
Definition Min (timeA timeB : Z) : Z := if timeB <? timeA then timeB else timeA.
Definition Compare (a b : Z) : Z := if a <? b then -1 else if a =? b then 0 else 1.
Definition IsNegative (t : Z) : bool := t <=? 0.
Definition IsPositive (t : Z) : bool := 0 <=? t.
Definition IsStrictlyNegative (t : Z) : bool := t <? 0.
Definition IsStrictlyPositive (t : Z) : bool := 0 <? t.
Definition IsZero (t : Z) : bool := t =? 0.
(** [time < event], on the time stamp of the event *)
Definition before_event (time ts : Z) : bool := if time <? 0 then true else u64 time <? ts.

(** ** The recorded times

    [g_markingTimes], none when null; a [Time] object is its address, and
    [t_data] gives the [m_data] of the objects that exist. *)

Record Times := mkTimes { t_resolution : Resolution; g_markingTimes : option (gset nat); t_data : gmap nat Z }.
Abbreviation M := (st Times).

Definition set_marking (m : option (gset nat)) : M unit := update (fun t => mkTimes (t_resolution t) m (t_data t)).
Definition set_data (f : gmap nat Z -> gmap nat Z) : M unit :=
  update (fun t => mkTimes (t_resolution t) (g_markingTimes t) (f (t_data t))).

Definition Mark (time : nat) : M unit :=
  m ← gets g_markingTimes;
  match m with None => mret tt | Some s => set_marking (Some ({[time]} ∪ s)) end.
Definition Clear (time : nat) : M unit :=
  m ← gets g_markingTimes;
  match m with
  | None => mret tt
  | Some s => _ ← lift (ns_assert (bool_decide (time ∈ s))); set_marking (Some (s ∖ {[time]}))
  end.
Definition ClearMarkedTimes : M unit := set_marking None.

(** A constructor and the destructor *)
Definition construct (time : nat) (v : Z) : M unit := _ ← set_data (fun d => <[time := v]> d); Mark time.
Definition destroy (time : nat) : M unit := _ ← Clear time; set_data (delete time).

Definition convert_one (r : Resolution) (to : Unit_) (tp : nat) : M unit :=
  d ← gets t_data;
  v ← lift (deref (d !! tp));
  if (v =? int64_min) || (v =? int64_max) then mret tt
  else v' ← lift (ToInteger r v to); set_data (fun d => <[tp := v']> d).
Definition ConvertTimes (to : Unit_) : M unit :=
  m ← gets g_markingTimes;
  match m with
  | None => lift (Err AssertFailed)
  | Some s =>
      r ← gets t_resolution;
      _ ← each (convert_one r to) (elements s);
      set_marking None
  end.
Definition SetResolution (to : Unit_) : M unit :=
  _ ← ConvertTimes to;
  r ← lift (resolution_of to);
  update (fun t => mkTimes r (g_markingTimes t) (t_data t)).
