(* ===== verification/NsTimeSpec.v ===== *)
(** * Correctness of the time conversions

    The conversion table, the conversions between units, and the recorded times. *)

From S2P Require Import Prelude FloatingPoint Int64x64 Int64x64Spec NsTime.
From S2P Require PointToPoint.



(** ** The table *)

(** How many of the finer unit make the coarser one. *)
Definition ratio (u unit : Unit_) : Z := if Scale unit <=? Scale u then Scale u / Scale unit else Scale unit / Scale u.

Definition conversion (unit u : Unit_) : Information :=
  let f := ratio u unit in
  match Scale unit ?= Scale u with
  | Eq => mkInformation true true 1 (2 ^ 64) (2 ^ 64)
  | Lt => mkInformation false true f (i128 (inverse f)) (f * 2 ^ 64)
  | Gt => mkInformation true false f (f * 2 ^ 64) (i128 (inverse f))
  end.

#[export] Instance Information_eq_dec : EqDecision Information.
Proof. solve_decision. Defined.

Definition table_ok (unit : Unit_) : bool :=
  match resolution_of unit with
  | Ok r => bool_decide (map (info r) units = map (conversion unit) units)
  | Err f => bool_decide (f = UndefinedBehaviour)
  end.
Lemma tables_ok unit : table_ok unit = true.
Proof. destruct unit; vm_compute; reflexivity. Qed.

Lemma resolution_table unit r u : resolution_of unit = Ok r -> info r u = conversion unit u.
Proof.
  intros E. pose proof (tables_ok unit) as Ht. unfold table_ok in Ht. rewrite E in Ht.
  apply bool_decide_eq_true in Ht. apply (ext_in_map Ht). destruct u; simpl; tauto.
Qed.
Lemma resolution_unit unit r : resolution_of unit = Ok r -> unit_ r = unit.
Proof. unfold resolution_of. intros (l & _ & [= <-])%bind_ok. done. Qed.

(** The resolutions whose factors all fit 64 bits. *)
Definition usable : list Unit_ := [H; MIN; S; MS; US; NS].

Definition resolved (unit : Unit_) : bool := match resolution_of unit with Ok _ => true | Err _ => false end.
Lemma resolved_usable unit : resolved unit = bool_decide (unit ∈ usable).
Proof. destruct unit; vm_compute; reflexivity. Qed.

Lemma resolution_cases unit :
  (unit ∈ usable /\ exists r, resolution_of unit = Ok r /\ unit_ r = unit /\ forall u, info r u = conversion unit u) \/
  (unit ∉ usable /\ resolution_of unit = Err UndefinedBehaviour).
Proof.
  pose proof (resolved_usable unit) as Hu. unfold resolved in Hu. pose proof (tables_ok unit) as Ht. unfold table_ok in Ht.
  destruct (resolution_of unit) as [r|f] eqn:E.
  - left. split; [symmetry in Hu; by apply bool_decide_eq_true in Hu|]. exists r. split; [done|]. split; [by apply resolution_unit|].
    intros u. by apply resolution_table.
  - right. split; [symmetry in Hu; by apply bool_decide_eq_false in Hu|]. by apply bool_decide_eq_true in Ht as ->.
Qed.

Lemma ratio_big unit u : unit ∈ usable -> Scale unit < Scale u -> 1 < ratio u unit < 2 ^ 63.
Proof.
  unfold usable. rewrite !elem_of_cons, elem_of_nil. intros Hin Hlt.
  destruct_or!; subst; try done; destruct u; try (vm_compute in Hlt; discriminate); vm_compute; split; reflexivity.
Qed.

(** ** From a coarser unit *)

Section coarser.
Context (unit u : Unit_) (r : Resolution) (Hr : resolution_of unit = Ok r) (Hc : Scale unit < Scale u).

Lemma ratio_ok : 1 < ratio u unit < 2 ^ 63.
Proof using Hr Hc.
  destruct (resolution_cases unit) as [[Hin _]|[_ E]]; [by apply ratio_big|]. rewrite Hr in E. discriminate.
Qed.
Lemma info_ok : info r u = mkInformation false true (ratio u unit) (i128 (inverse (ratio u unit))) (ratio u unit * 2 ^ 64).
Proof using Hr Hc.
  rewrite (resolution_table unit) by done. unfold conversion. by rewrite (proj2 (Z.compare_lt_iff _ _)).
Qed.

Lemma Round_int n : - 2 ^ 62 < n < 2 ^ 63 - 1 -> Round (n * 2 ^ 64) = Ok n.
Proof using.
  intros Hn. rewrite Round_ok by lia. f_equal.
  replace (Z.abs (n * 2 ^ 64) + 2 ^ 63) with (2 ^ 63 + Z.abs n * 2 ^ 64) by lia.
  rewrite Z.div_add, Z.div_small, Z.add_0_l by lia.
  destruct (Z.ltb_spec n 0); [rewrite Z.sgn_neg by lia|destruct (Z.eq_dec n 0) as [->|]; [done|rewrite Z.sgn_pos by lia]]; lia.
Qed.

Lemma From_int n : - 2 ^ 62 < n * ratio u unit < 2 ^ 63 - 1 -> From r (n * 2 ^ 64) u = Ok (n * ratio u unit).
Proof using Hr Hc.
  intros Hn. pose proof ratio_ok as Hf. unfold From. rewrite info_ok. cbn [fromMul timeFrom].
  assert (- 2 ^ 62 < n < 2 ^ 63) by nia.
  rewrite Mul_ok by lia. cbn [mbind res_bind].
  replace (n * 2 ^ 64 * (ratio u unit * 2 ^ 64)) with (n * ratio u unit * 2 ^ 64 * 2 ^ 64) by ring.
  rewrite Z.quot_mul, i128_small by lia. by apply Round_int.
Qed.

(** Whole numbers of seconds, minutes... given as [double]s are exact. *)
Lemma FromDouble_int n :
  Z.abs n < 2 ^ 53 -> - 2 ^ 62 < n * ratio u unit < 2 ^ 63 - 1 ->
  FromDouble r (fp_of_int binary64 n) u = Ok (n * ratio u unit).
Proof using Hr Hc.
  intros Hn Hr'. unfold FromDouble. rewrite of_double_int by done. by apply From_int.
Qed.

(** [To] gives the magnitude of the quotient to 64 binary places. *)
Lemma To_ok t :
  - 2 ^ 63 < t < 2 ^ 63 -> To r t u = Ok (Z.sgn t * (Z.abs t * inverse (ratio u unit) / 2 ^ 64)).
Proof using Hr Hc.
  intros Ht. pose proof ratio_ok as Hf. unfold To. rewrite info_ok. cbn [toMul timeTo].
  rewrite of_int_ok by lia. apply MulByInvert_ok; [lia|].
  pose proof (inverse_bound (ratio u unit)). lia.
Qed.

Lemma nearest_quotient m f :
  0 <= m < 2 ^ 63 -> 1 < f < 2 ^ 63 ->
  (m * inverse f / 2 ^ 64 + 2 ^ 63) / 2 ^ 64 = (2 * m + f) / (2 * f).
Proof using.
  intros Hm Hf. destruct (inverse_spec f) as (t & Ht & E); [lia|].
  pose proof (Z.div_mod (2 * m + f) (2 * f) ltac:(lia)) as Ed.
  pose proof (Z.mod_pos_bound (2 * m + f) (2 * f) ltac:(lia)) as Hmod.
  set (k := (2 * m + f) / (2 * f)) in *. set (x := (2 * m + f) mod (2 * f)) in *.
  assert (m * inverse f * f = m * 2 ^ 128 + m * t) as Ei by (rewrite <- Z.mul_assoc, E; ring).
  assert (0 <= m * t < 2 ^ 126) as Hmt by nia.
  assert (m * inverse f / 2 ^ 64 + 2 ^ 63 = (m * inverse f + 2 ^ 127) / 2 ^ 64) as ->.
  { change (2 ^ 127) with (2 ^ 63 * 2 ^ 64). by rewrite Z.div_add. }
  rewrite Z.div_div by lia. change (2 ^ 64 * 2 ^ 64) with (2 ^ 128).
  symmetry. apply Z.div_unique with (m * inverse f + 2 ^ 127 - 2 ^ 128 * k); [left|lia]. nia.
Qed.

(** The nearest multiple of a unit, halves away from zero. *)
Definition nearest (t f : Z) : Z := Z.sgn t * ((2 * Z.abs t + f) / (2 * f)).

Lemma nearest_bound t f : 0 < f -> Z.abs (nearest t f) * f <= Z.abs t + f / 2.
Proof using.
  intros Hf. unfold nearest. rewrite Z.abs_mul.
  assert (0 <= (2 * Z.abs t + f) / (2 * f)) by (apply Z.div_pos; lia).
  rewrite (Z.abs_eq (_ / _)) by done.
  pose proof (Z.mul_div_le (2 * Z.abs t + f) (2 * f) ltac:(lia)).
  pose proof (Z.div_mod f 2 ltac:(lia)). pose proof (Z.mod_pos_bound f 2 ltac:(lia)).
  assert (Z.abs (Z.sgn t) <= 1) by lia. nia.
Qed.

Lemma RoundTo_ok t :
  Z.abs t + ratio u unit < 2 ^ 62 -> RoundTo r t u = Ok (nearest t (ratio u unit) * ratio u unit).
Proof using Hr Hc.
  intros Ht. pose proof ratio_ok as Hf. unfold RoundTo. rewrite To_ok by lia. cbn [mbind res_bind].
  set (f := ratio u unit) in *.
  pose proof (inverse_quotient (Z.abs t) f ltac:(lia) ltac:(lia)) as [Hhi [_ Hup]].
  assert (0 <= Z.abs t * inverse f / 2 ^ 64) as Hp.
  { apply Z.div_pos; [|lia]. pose proof (inverse_bound f). nia. }
  assert (Z.abs t * inverse f / 2 ^ 64 < 2 ^ 126) as Hup'.
  { eapply Z.le_lt_trans; [exact Hup|]. assert (Z.abs t * 2 ^ 64 / f <= Z.abs t * 2 ^ 64); [|lia].
    apply Z.div_le_upper_bound; nia. }
  set (v := Z.abs t * inverse f / 2 ^ 64) in *.
  assert (Z.abs (Z.sgn t * v) = if t =? 0 then 0 else v) as Eabs.
  { rewrite Z.abs_mul. destruct (Z.eqb_spec t 0) as [->|]; [done|]. replace (Z.abs (Z.sgn t)) with 1 by lia. lia. }
  rewrite Round_ok by (rewrite Eabs; destruct (t =? 0); lia). cbn [mbind res_bind].
  rewrite Eabs. assert (Z.sgn (Z.sgn t * v) * (((if t =? 0 then 0 else v) + 2 ^ 63) / 2 ^ 64) = nearest t f) as ->.
  { unfold nearest. destruct (Z.eqb_spec t 0) as [->|]; [done|].
    unfold v. rewrite nearest_quotient by lia. fold v. destruct (Z.eq_dec v 0) as [Ez|].
    - rewrite Ez, Z.mul_0_r. rewrite <- (nearest_quotient (Z.abs t) f) by lia. fold v. rewrite Ez.
      rewrite (Z.div_small (0 + 2 ^ 63)) by lia. lia.
    - rewrite Z.sgn_mul, (Z.sgn_pos v), Z.mul_1_r, Z.sgn_sgn by lia. done. }
  pose proof (nearest_bound t f ltac:(lia)) as Hb. assert (f / 2 <= f) by (apply Z.div_le_upper_bound; lia).
  rewrite of_int_ok by nia. apply From_int. fold f. nia.
Qed.

(** ** Integers *)

Lemma ToInteger_ok t : - 2 ^ 63 <= t < 2 ^ 63 -> ToInteger r t u = Ok (Z.quot t (ratio u unit)).
Proof using Hr Hc.
  intros Ht. pose proof ratio_ok as Hf. unfold ToInteger. rewrite info_ok. cbn [toMul factor].
  rewrite (proj2 (Z.eqb_neq _ _)) by lia. apply signed_check_ok. change (64 - 1) with 63.
  pose proof (Z.quot_abs t (ratio u unit) ltac:(lia)) as Ea. rewrite (Z.abs_eq (ratio u unit)), Z.quot_div_nonneg in Ea by lia.
  assert (Z.abs t / ratio u unit <= 2 ^ 62); [apply Z.div_le_upper_bound; lia|]. lia.
Qed.

Lemma FromInteger_ok n : 0 <= n -> n * ratio u unit < 2 ^ 63 -> FromInteger r n u = Ok (n * ratio u unit).
Proof using Hr Hc.
  intros Hn Hfit. pose proof ratio_ok as Hf. unfold FromInteger. rewrite info_ok. cbn [fromMul factor].
  unfold i64. rewrite to_signed_small; [done|lia|]. change (64 - 1) with 63. nia.
Qed.
End coarser.

(** ** Recorded times *)

(** What a change of resolution makes of the value of a recorded time. *)
Definition converted (r : Resolution) (to : Unit_) (v : Z) : res Z :=
  if (v =? int64_min) || (v =? int64_max) then Ok v else ToInteger r v to.

Lemma convert_one_ok r to tp t u t' :
  convert_one r to tp t = Ok (u, t') ->
  exists v v', t_data t !! tp = Some v /\ converted r to v = Ok v' /\
    t_data t' = <[tp := v']> (t_data t) /\ g_markingTimes t' = g_markingTimes t /\ t_resolution t' = t_resolution t.
Proof.
  unfold convert_one, converted. intros (d & s1 & [= <- <-] & E)%st_bind_ok.
  apply st_bind_ok in E as (v & s1 & [Hv%deref_ok ->]%lift_ok & E). exists v.
  destruct ((v =? int64_min) || (v =? int64_max)).
  - injection E as <- <-. exists v. by rewrite insert_id.
  - apply st_bind_ok in E as (v' & s1 & [Hv' ->]%lift_ok & E). injection E as <- <-. by exists v'.
Qed.

Lemma convert_all_ok r to l : forall t u t',
  NoDup l -> each (convert_one r to) l t = Ok (u, t') ->
  g_markingTimes t' = g_markingTimes t /\ t_resolution t' = t_resolution t /\
  (forall p, p ∉ l -> t_data t' !! p = t_data t !! p) /\
  (forall p, p ∈ l -> exists v v', t_data t !! p = Some v /\ converted r to v = Ok v' /\ t_data t' !! p = Some v').
Proof.
  induction l as [|a l IH]; intros t u t' Hnd E; cbn [each] in E.
  - injection E as <- <-. split_and!; [done..|]. by intros p ?%elem_of_nil.
  - apply NoDup_cons in Hnd as [Hni Hnd]. apply st_bind_ok in E as (w & t1 & E1 & E).
    apply convert_one_ok in E1 as (v & v' & Hv & Hv' & Hd & Hm & Hr).
    destruct (IH _ _ _ Hnd E) as (Hm' & Hr' & Hout & Hin). rewrite Hd in *.
    split_and!; [congruence|congruence| |].
    + intros p Hp. rewrite elem_of_cons in Hp. rewrite Hout by tauto. apply lookup_insert_ne. naive_solver.
    + intros p [->|Hp]%elem_of_cons.
      * exists v, v'. split_and!; [done..|]. rewrite Hout by done. apply lookup_insert_eq.
      * destruct (Hin p Hp) as (x & x' & Hx & ?). rewrite lookup_insert_ne in Hx by (intros ->; done). by exists x, x'.
Qed.

(** [SetResolution] converts every recorded time to the new unit, the extreme
    values excepted, and no other; it stops the recording, so that a second
    change of resolution fails its assertion whatever the unit. *)
Theorem SetResolution_once t to s t' :
  g_markingTimes t = Some s -> SetResolution to t = Ok (tt, t') ->
  resolution_of to = Ok (t_resolution t') /\
  (forall p, p ∉ s -> t_data t' !! p = t_data t !! p) /\
  (forall p, p ∈ s -> exists v v', t_data t !! p = Some v /\
     converted (t_resolution t) to v = Ok v' /\ t_data t' !! p = Some v') /\
  (forall to', SetResolution to' t' = Err AssertFailed).
Proof.
  intros Hs E. unfold SetResolution in E. apply st_bind_ok in E as (u & t1 & E1 & E).
  unfold ConvertTimes in E1. apply st_bind_ok in E1 as (m & s1 & [= <- <-] & E1). rewrite Hs in E1.
  apply st_bind_ok in E1 as (r & s1 & [= <- <-] & E1). apply st_bind_ok in E1 as (u1 & t2 & E2 & E1).
  injection E1 as _ <-. apply convert_all_ok in E2 as (Hm & Hr & Hout & Hin); [|apply NoDup_elements].
  apply st_bind_ok in E as (r' & s1 & [Hr' ->]%lift_ok & E). injection E as <-. cbn [t_resolution t_data].
  split_and!; [done| | |done].
  - intros p Hp. apply Hout. by rewrite elem_of_elements.
  - intros p Hp. apply Hin. by rewrite elem_of_elements.
Qed.

(** A resolution is set without fault exactly when it is a unit from the hour
    to the nanosecond; its table then has the exact ratios of the units and their
    inverses.  For years, days, picoseconds and femtoseconds, which the class also
    offers, a factor does not fit 64 bits and its conversion is undefined. *)
Theorem resolution_defined unit :
  (unit ∈ usable /\ exists r, resolution_of unit = Ok r /\ unit_ r = unit /\ forall u, info r u = conversion unit u) \/
  (unit ∉ usable /\ resolution_of unit = Err UndefinedBehaviour).
Proof. exact (resolution_cases unit). Qed.

(** C36. From a unit coarser than the resolution, a whole number given as a
    [double] or an integer becomes exactly that many units; [RoundTo] gives the
    nearest multiple of the unit, halves away from zero, although it multiplies
    by an inverse kept to 128 bits instead of dividing.  The ranges are those
    where the results fit the 64 bits of a [Time], with some room to round. *)
Theorem conversions_exact unit r u :
  resolution_of unit = Ok r -> Scale unit < Scale u ->
  (forall n, Z.abs n < 2 ^ 53 -> - 2 ^ 62 < n * ratio u unit < 2 ^ 63 - 1 ->
     FromDouble r (fp_of_int binary64 n) u = Ok (n * ratio u unit)) /\
  (forall n, 0 <= n -> n * ratio u unit < 2 ^ 63 ->
     FromInteger r n u = Ok (n * ratio u unit) /\ ToInteger r (n * ratio u unit) u = Ok n) /\
  (forall t, Z.abs t + ratio u unit < 2 ^ 62 -> RoundTo r t u = Ok (nearest t (ratio u unit) * ratio u unit)).
Proof.
  intros Hr Hc. pose proof (ratio_ok unit u r Hr Hc) as Hf. split_and!.
  - intros n. by apply FromDouble_int.
  - intros n Hn Hfit. split; [by apply FromInteger_ok|]. rewrite (ToInteger_ok unit) by (done || nia).
    f_equal. apply Z.quot_mul. lia.
  - intros t. by apply RoundTo_ok.
Qed.

(** * Properties of the fixed point numbers and of time

    Exact products and quotients, and transmission times. *)

(** C34. The shift-and-subtract division of fixed point numbers returns the exact
    quotient, cut at the 64th binary place towards zero, for all operands whose
    quotient fits; its loops always end. *)
Theorem Div_exact v o :
  - 2 ^ 127 < v < 2 ^ 127 -> - 2 ^ 127 < o < 2 ^ 127 -> o <> 0 ->
  - 2 ^ 127 < Z.quot (v * 2 ^ 64) o < 2 ^ 127 -> Div v o = Ok (Z.quot (v * 2 ^ 64) o).
Proof. apply Div_ok. Qed.

Lemma Div_exact_witness : Div (of_int 22) (of_int (-7)) = Ok (Z.quot (22 * 2 ^ 128) (-7 * 2 ^ 64)).
Proof.
  apply (Div_exact (22 * 2 ^ 64) (-7 * 2 ^ 64)); vm_compute; try split; discriminate || reflexivity.
Defined.

(** A product is exact, cut at the 64th binary place, when it fits; when its
    integer part does not fit 64 bits the check for overflow does not see it, for
    the mask it applies to the high part is zero, and the product silently loses
    its highest digits. *)
Theorem Mul_unchecked v o :
  - 2 ^ 127 < v < 2 ^ 127 -> - 2 ^ 127 < o < 2 ^ 127 ->
  Mul v o = Ok (i128 (Z.quot (v * o) (2 ^ 64))) /\
  (- 2 ^ 127 <= Z.quot (v * o) (2 ^ 64) < 2 ^ 127 -> Mul v o = Ok (Z.quot (v * o) (2 ^ 64))).
Proof.
  intros Hv Ho. pose proof (Mul_ok v o Hv Ho) as E. split; [done|]. intros Hfit. by rewrite E, i128_small.
Qed.

Lemma Mul_unchecked_witness :
  Mul (of_int (2 ^ 32)) (of_int (2 ^ 32)) = Ok 0 /\ Mul (of_int 3) (of_int (-5)) = Ok (of_int (-15)).
Proof.
  split.
  - exact (proj1 (Mul_unchecked (2 ^ 96) (2 ^ 96) ltac:(vm_compute; split; reflexivity) ltac:(vm_compute; split; reflexivity))).
  - apply (proj2 (Mul_unchecked (3 * 2 ^ 64) (-5 * 2 ^ 64) ltac:(vm_compute; split; reflexivity)
                   ltac:(vm_compute; split; reflexivity))). vm_compute. split; [discriminate|reflexivity].
Defined.

(** Dividing by an integer as [Time] does, multiplying by the inverse computed
    once to 128 places, gives the integer quotient exactly, for every numerator of
    a [Time] and every divisor. *)
Theorem inverse_division m v :
  - 2 ^ 63 < m < 2 ^ 63 -> 1 < v < 2 ^ 63 ->
  exists inv r, Invert v = Ok inv /\ MulByInvert (of_int m) inv = Ok r /\ GetInt r = Ok (Z.quot m v) /\
    Z.abs m * 2 ^ 64 / v <= Z.abs r <= Z.abs m * 2 ^ 64 / v + 1.
Proof.
  intros Hm Hv. pose proof (inverse_bound v ltac:(lia)).
  pose proof (inverse_quotient (Z.abs m) v ltac:(lia) Hv) as [Hhi Hr].
  exists (i128 (inverse v)), (Z.sgn m * (Z.abs m * inverse v / 2 ^ 64)).
  split; [by apply Invert_ok|]. split; [rewrite of_int_ok by lia; apply MulByInvert_ok; lia|].
  set (q := Z.abs m * inverse v / 2 ^ 64) in *.
  assert (0 <= q < 2 ^ 127) as Hq.
  { split; [apply Z.div_pos; nia|]. unfold q. apply Z.div_lt_upper_bound; [lia|]. nia. }
  assert (Z.abs (Z.sgn m * q) = q) as Ea.
  { rewrite Z.abs_mul. destruct (Z.eq_dec m 0) as [->|]; [unfold q; by rewrite Z.mul_0_l|].
    replace (Z.abs (Z.sgn m)) with 1 by lia. lia. }
  rewrite Ea. split; [|done]. unfold GetInt. rewrite magnitude_ok, Ea by lia. cbn [mbind res_bind].
  rewrite shr64, Hhi. assert (0 <= Z.abs m / v < 2 ^ 63) as Hb.
  { split; [apply Z.div_pos; lia|apply Z.div_lt_upper_bound; nia]. }
  unfold i64. rewrite to_signed_small by (change (64 - 1) with 63; lia).
  rewrite <- Z.quot_div_nonneg in Hb |- * by lia.
  destruct (Z.ltb_spec (Z.sgn m * q) 0) as [Hn|Hn].
  - assert (m < 0) as Hneg by nia. rewrite (Z.abs_neq m), Z.quot_opp_l, Z.opp_involutive by lia.
    apply signed_check_ok. change (64 - 1) with 63. rewrite (Z.abs_neq m), Z.quot_opp_l in Hb by lia. lia.
  - unfold mret, res_ret. f_equal. destruct (Z_lt_le_dec m 0) as [Hneg|]; [|by rewrite Z.abs_eq].
    assert (q = 0) as Hz by nia. assert (Z.abs m / v = 0) as H0 by (rewrite <- Hhi, Hz; done).
    rewrite <- Z.quot_div_nonneg in H0 by lia. rewrite H0.
    rewrite (Z.abs_neq m), Z.quot_opp_l in H0 by lia. lia.
Qed.

Lemma inverse_division_witness :
  exists inv r, Invert 1000 = Ok inv /\ MulByInvert (of_int (-1999)) inv = Ok r /\ GetInt r = Ok (-1) /\
    1999 * 2 ^ 64 / 1000 <= Z.abs r <= 1999 * 2 ^ 64 / 1000 + 1.
Proof.
  apply (inverse_division (-1999) 1000); vm_compute; split; reflexivity.
Defined.

(** ** Witnesses for the properties of [NsTimeSpec] *)

(** The default resolution *)
Definition ns : Resolution :=
  match SetDefaultNsResolution with Ok r => r | Err _ => mkResolution (conversion NS) NS end.
Lemma ns_ok : resolution_of NS = Ok ns.
Proof.
  unfold ns, SetDefaultNsResolution. destruct (resolution_cases NS) as [(_ & r & -> & _)|[Hout _]]; [done|].
  exfalso. apply Hout. unfold usable. set_solver.
Qed.

Lemma conversions_exact_witness :
  FromDouble ns (fp_of_int binary64 3) NsTime.S = Ok 3000000000 /\
  ToInteger ns 7000 US = Ok 7 /\ RoundTo ns (-1500) US = Ok (-2000).
Proof.
  pose proof (conversions_exact NS ns NsTime.S ns_ok ltac:(vm_compute; reflexivity)) as (Hd & _ & _).
  pose proof (conversions_exact NS ns US ns_ok ltac:(vm_compute; reflexivity)) as (_ & Hi & Hr).
  split; [|split].
  - apply (Hd 3); vm_compute; try split; reflexivity.
  - apply (Hi 7); vm_compute; discriminate || reflexivity.
  - apply (Hr (-1500)). vm_compute. reflexivity.
Defined.

(** A time of 5 microseconds, recorded, and one that is not. *)
Definition two_times : Times := mkTimes ns (Some {[0%nat]}) {[0%nat := 5000; 1%nat := 5000]}.
Definition after_us : Times := match SetResolution US two_times with Ok (_, t) => t | Err _ => two_times end.
Lemma after_us_ok : SetResolution US two_times = Ok (tt, after_us).
Proof.
  assert (match SetResolution US two_times with Ok _ => true | Err _ => false end = true) as E by (vm_compute; reflexivity).
  unfold after_us. destruct (SetResolution US two_times) as [[[] t]|]; done.
Qed.

Lemma SetResolution_once_witness :
  t_data after_us !! 0%nat = Some 5 /\ t_data after_us !! 1%nat = Some 5000 /\
  SetResolution NS after_us = Err AssertFailed.
Proof.
  pose proof (SetResolution_once two_times US {[0%nat]} after_us eq_refl after_us_ok) as (_ & Hout & Hin & Hagain).
  split; [|split].
  - destruct (Hin 0%nat) as (v & v' & Hv & Hv' & ->); [by apply elem_of_singleton|].
    change (t_data two_times !! 0%nat) with (Some 5000) in Hv. injection Hv as <-.
    change (converted ns US 5000 = Ok v') in Hv'. unfold converted in Hv'.
    change ((5000 =? int64_min) || (5000 =? int64_max)) with false in Hv'. cbv iota in Hv'.
    assert (ToInteger ns 5000 US = Ok (Z.quot 5000 (ratio US NS))) as Ei.
    { apply (ToInteger_ok NS US ns ns_ok); [vm_compute; reflexivity|lia]. }
    rewrite Ei in Hv'. injection Hv' as <-. vm_compute. reflexivity.
  - rewrite Hout by (rewrite elem_of_singleton; discriminate). reflexivity.
  - apply Hagain.
Defined.

(** ** Transmission times ([src/network/utils/data-rate.cc]) *)

(** [Seconds (bits) / m_bps] and [Seconds (bytes * 8) / m_bps] *)
Definition CalculateBitsTxTime (r : Resolution) (m_bps bits : Z) : res Z :=
  t ← Seconds r (fp_of_int binary64 bits); Time_div_uint t m_bps.
Definition CalculateBytesTxTime (r : Resolution) (m_bps bytes : Z) : res Z :=
  t ← Seconds r (fp_of_int binary64 (u32 (bytes * 8))); Time_div_uint t m_bps.

Lemma bits_time_ok m_bps bits :
  0 <= m_bps < 2 ^ 64 -> 0 <= bits < 2 ^ 32 ->
  CalculateBitsTxTime ns m_bps bits = PointToPoint.DataRate.CalculateBitsTxTime m_bps bits.
Proof.
  intros Hm Hb. unfold CalculateBitsTxTime, Seconds.
  assert (FromDouble ns (fp_of_int binary64 bits) NsTime.S = Ok (bits * 1000000000)) as ->.
  { apply (FromDouble_int NS NsTime.S ns ns_ok); [vm_compute; reflexivity|lia|].
    change (ratio NsTime.S NS) with 1000000000. lia. }
  cbn [mbind res_bind]. unfold Time_div_uint, PointToPoint.DataRate.CalculateBitsTxTime.
  destruct (Z.eqb_spec m_bps 0) as [|Hne]; [done|]. rewrite wrap_small by (unfold in_range; lia).
  unfold mret, res_ret, i64. rewrite to_signed_small; [done|lia|]. change (64 - 1) with 63.
  split; [apply Z.div_pos; lia|apply Z.div_lt_upper_bound; nia].
Qed.

(** The time to transmit a packet, computed in [double], fixed point and
    64-bit integers, is the exact number of nanoseconds cut to an integer, for any
    32-bit size and any rate; a zero rate divides by zero. *)
Theorem tx_time_exact m_bps bits bytes :
  0 <= m_bps < 2 ^ 64 -> 0 <= bits < 2 ^ 32 ->
  CalculateBitsTxTime ns m_bps bits = PointToPoint.DataRate.CalculateBitsTxTime m_bps bits /\
  CalculateBytesTxTime ns m_bps bytes = PointToPoint.DataRate.CalculateBytesTxTime m_bps bytes.
Proof.
  intros Hm Hb. split; [by apply bits_time_ok|]. apply (bits_time_ok m_bps (u32 (bytes * 8))); [done|].
  apply wrap_range. lia.
Qed.

Lemma tx_time_exact_witness :
  CalculateBitsTxTime ns 300000000 12000 = Ok 40000 /\ CalculateBytesTxTime ns 300000000 1500 = Ok 40000.
Proof. apply (tx_time_exact 300000000 12000 1500); vm_compute; split; discriminate || reflexivity. Defined.
