(* ===== verification/Timers.v ===== *)
(** * Timers: the simulator as an application sees it

    What the calls of [Simulator] mean to one client: the clock, and its pending
    events with their handlers in the order in which they run.  An [EventId] is the
    number of the event, none when it was never assigned.  [TimersRefine] shows
    that [DefaultSimulatorImpl] implements this. *)

From S2P Require Import Prelude.

Definition EventId : Type := option Z.

Record pending (H : Type) := mkPending { p_uid : Z; p_ts : Z; p_handler : H }.
Arguments mkPending {H}. Arguments p_uid {H}. Arguments p_ts {H}. Arguments p_handler {H}.

Record timers (H : Type) := mkTimers { t_now : Z; t_uid : Z; t_pending : list (pending H) }.
Arguments mkTimers {H}. Arguments t_now {H}. Arguments t_uid {H}. Arguments t_pending {H}.

Section timers.
Context {H : Type}.
Implicit Types t : timers H.

Definition start : timers H := mkTimers 0 4 [].

(** Events with the same time stamp run in the order in which they were scheduled. *)
Fixpoint insert (x : pending H) (l : list (pending H)) : list (pending H) :=
  match l with
  | [] => [x]
  | y :: l' => if p_ts x <? p_ts y then x :: l else y :: insert x l'
  end.

Definition Schedule (delay : Z) (h : H) t : res (EventId * timers H) :=
  _ ← ns_assert (0 <=? delay);
  ts ← i64_check (delay + t_now t);
  mret (Some (t_uid t), mkTimers (t_now t) (t_uid t + 1) (insert (mkPending (t_uid t) ts h) (t_pending t))).

Definition IsRunning (id : EventId) t : bool :=
  match id with None => false | Some u => existsb (fun x => p_uid x =? u) (t_pending t) end.
Definition IsExpired (id : EventId) t : bool := negb (IsRunning id t).

Definition Cancel (id : EventId) t : timers H :=
  match id with
  | None => t
  | Some u => mkTimers (t_now t) (t_uid t) (filter (fun x => p_uid x <> u) (t_pending t))
  end.

(** The next event leaves the list and the clock moves to its time stamp. *)
Definition next t : option (H * timers H) :=
  match t_pending t with
  | [] => None
  | x :: l => Some (p_handler x, mkTimers (p_ts x) (t_uid t) l)
  end.

(** ** Invariant *)

Definition by_time (l : list (pending H)) : Prop :=
  StronglySorted (fun x y => p_ts x < p_ts y \/ (p_ts x = p_ts y /\ p_uid x < p_uid y)) l.

Record timers_ok t : Prop := {
  to_sorted : by_time (t_pending t);
  to_nodup : NoDup (p_uid <$> t_pending t);
  to_uid x : x ∈ t_pending t -> p_uid x < t_uid t;
  to_ts x : x ∈ t_pending t -> t_now t <= p_ts x }.

Lemma elem_of_insert x y l : y ∈ insert x l <-> y = x \/ y ∈ l.
Proof.
  induction l as [|z l IH]; cbn [insert].
  - rewrite list_elem_of_singleton, elem_of_nil. tauto.
  - destruct (_ <? _); rewrite !elem_of_cons, ?IH; naive_solver.
Qed.

Lemma insert_sorted x l :
  by_time l -> (forall y, y ∈ l -> p_uid y < p_uid x) -> by_time (insert x l).
Proof.
  unfold by_time. induction l as [|y l IH]; intros Hs Hu; cbn [insert]; [repeat constructor|].
  pose proof Hs as Hs0. apply StronglySorted_cons in Hs as [Hy Hs].
  destruct (Z.ltb_spec (p_ts x) (p_ts y)) as [Hlt|Hge].
  - apply StronglySorted_cons. split; [|exact Hs0]. apply Forall_cons. split; [by left|].
    eapply Forall_impl; [exact Hy|]. simpl. intros z Hz. left. lia.
  - apply StronglySorted_cons. split; [|apply IH; [done|intros; apply Hu; by right]].
    apply Forall_forall. intros z [->|Hz]%elem_of_insert.
    + specialize (Hu y ltac:(by left)). lia.
    + rewrite Forall_forall in Hy. by apply Hy.
Qed.

Lemma insert_perm x l : insert x l ≡ₚ x :: l.
Proof.
  induction l as [|y l IH]; cbn [insert]; [done|]. destruct (_ <? _); [done|]. rewrite IH. constructor.
Qed.

Lemma timers_start_ok : timers_ok start.
Proof. split; [constructor|constructor|by intros ? ?%elem_of_nil..]. Qed.

Lemma Schedule_ok delay h t id t' :
  timers_ok t -> Schedule delay h t = Ok (id, t') ->
  timers_ok t' /\ id = Some (t_uid t) /\ t_now t' = t_now t /\ 0 <= delay /\
  t_pending t' = insert (mkPending (t_uid t) (delay + t_now t) h) (t_pending t) /\ t_uid t' = t_uid t + 1.
Proof.
  intros [Hs Hnd Hu Ht] E. unfold Schedule in E.
  apply bind_ok in E as ([] & Hd%ns_assert_true & E). apply bind_ok in E as (ts & [-> _]%i64_check_ok & E).
  injection E as <- <-. bool_to_Z. split; [|done]. split; cbn [t_pending t_uid t_now].
  - apply insert_sorted; [done|]. intros y Hy. cbn [p_uid]. by apply Hu.
  - rewrite insert_perm. simpl. apply NoDup_cons. split; [|done].
    intros (y & Ey & Hy)%list_elem_of_fmap. apply Hu in Hy. lia.
  - intros x [->|Hx]%elem_of_insert; [cbn [p_uid]; lia|]. apply Hu in Hx. lia.
  - intros x [->|Hx]%elem_of_insert; [cbn [p_ts]; lia|]. by apply Ht.
Qed.

Lemma filter_sorted (P : pending H -> Prop) `{!forall x, Decision (P x)} l : by_time l -> by_time (filter P l).
Proof.
  unfold by_time. induction l as [|y l IH]; intros Hs; [done|]. apply StronglySorted_cons in Hs as [Hy Hs].
  rewrite filter_cons. destruct (decide (P y)); [|by apply IH]. apply StronglySorted_cons. split; [|by apply IH].
  apply Forall_forall. rewrite Forall_forall in Hy. intros z [_ Hz]%list_elem_of_filter. by apply Hy.
Qed.

Lemma Cancel_pending id t x : x ∈ t_pending (Cancel id t) <-> x ∈ t_pending t /\ Some (p_uid x) <> id.
Proof.
  destruct id as [u|]; cbn [Cancel t_pending]; [|split; [|tauto]; intros; by split].
  rewrite list_elem_of_filter. naive_solver.
Qed.
Lemma Cancel_ok id t : timers_ok t -> timers_ok (Cancel id t).
Proof.
  intros [Hs Hnd Hu Ht]. split.
  - destruct id; [by apply filter_sorted|done].
  - destruct id; [|done]. cbn [Cancel t_pending]. apply (sublist_NoDup _ _ Hnd), fmap_sublist, sublist_filter.
  - intros x [Hx _]%Cancel_pending. destruct id; by apply Hu.
  - intros x [Hx _]%Cancel_pending. destruct id; by apply Ht.
Qed.
Lemma Cancel_now id t : t_now (Cancel id t) = t_now t.
Proof. by destruct id. Qed.
Lemma Cancel_uid id t : t_uid (Cancel id t) = t_uid t.
Proof. by destruct id. Qed.

Lemma IsRunning_iff id t : IsRunning id t = true <-> exists x, x ∈ t_pending t /\ id = Some (p_uid x).
Proof.
  destruct id as [u|]; cbn [IsRunning]; [|naive_solver]. rewrite existsb_exists. split.
  - intros (x & Hx & E%Z.eqb_eq). exists x. split; [by apply list_elem_of_In|congruence].
  - intros (x & Hx & [= ->]). exists x. split; [by apply list_elem_of_In|apply Z.eqb_refl].
Qed.

Lemma uid_inj t x y : timers_ok t -> x ∈ t_pending t -> y ∈ t_pending t -> p_uid x = p_uid y -> x = y.
Proof.
  intros [_ Hnd _ _] Hx Hy E. apply list_elem_of_lookup in Hx as [i Hi], Hy as [j Hj].
  assert (i = j) as ->; [|congruence].
  apply (NoDup_lookup _ i j (p_uid x) Hnd); rewrite list_lookup_fmap; [by rewrite Hi|rewrite Hj; simpl; by rewrite E].
Qed.

(** The next event and what remains. *)
Lemma next_ok t h t' :
  timers_ok t -> next t = Some (h, t') ->
  timers_ok t' /\ t_now t <= t_now t' /\ t_uid t' = t_uid t /\
  exists x, x ∈ t_pending t /\ h = p_handler x /\ t_now t' = p_ts x /\ IsRunning (Some (p_uid x)) t' = false /\
    forall y, y ∈ t_pending t <-> y = x \/ y ∈ t_pending t'.
Proof.
  intros [Hs Hnd Hu Ht] E. unfold next in E. destruct (t_pending t) as [|x l]; [done|]. injection E as <- <-.
  unfold by_time in Hs. apply StronglySorted_cons in Hs as [Hx Hs]. rewrite Forall_forall in Hx.
  simpl in Hnd. apply NoDup_cons in Hnd as [Hni Hnd].
  split; [|split; [apply Ht; by left|split; [done|]]].
  - split; [done|done|intros y Hy; apply Hu; by right|]. cbn [t_pending t_now]. intros y Hy. specialize (Hx y Hy). lia.
  - exists x. split; [by left|]. split_and!; [done..| |intros y; apply elem_of_cons].
    apply not_true_is_false. rewrite IsRunning_iff. intros (y & Hy & [= E]). apply Hni.
    apply list_elem_of_fmap. by exists y.
Qed.
End timers.
