(* ===== verification/TimersRefine.v ===== *)
(** * [DefaultSimulatorImpl] implements [Timers]

    Each event of the simulator is a function of its client, [I] of its [EventImpl],
    and each call of [Schedule] makes an [EventImpl] of its own.  The pending events
    of [Timers] are those that the simulator has in its event list and that are not
    cancelled; it keeps cancelled events until their time comes. *)

From S2P Require Import Prelude Scheduler Simulator SimulatorSpec.
From S2P Require Timers MapScheduler.
Import Timers (timers, t_now, t_uid, t_pending, pending, mkPending, p_uid, p_ts, p_handler, timers_ok).

Section refine.
Context {S H : Type} `{EventListRemoveLaw S}.
Implicit Types (s : sim S) (t : timers H) (I : Z -> option H).

(** The event of the simulator behind a pending event. *)
Definition view I s (p : pending H) (e : Event) : Prop :=
  e ∈ contents (m_events s) /\ impl e ∉ m_cancel s /\ I (impl e) = Some (p_handler p) /\
  p_uid p = uid_of e /\ p_ts p = m_ts (key e).

Record sim_rel (G : list Event) I s t : Prop := {
  sr_inv : inv G s;
  sr_timers : timers_ok t;
  sr_now : t_now t = m_currentTs s;
  sr_uid : t_uid t = m_uid s;
  sr_impl e e' : e ∈ G -> e' ∈ G -> impl e = impl e' -> e = e';
  sr_uids e e' : e ∈ G -> e' ∈ G -> uid_of e = uid_of e' -> e = e';
  sr_handler e : e ∈ G -> is_Some (I (impl e));
  sr_cancel i : i ∈ m_cancel s -> exists e, e ∈ G /\ impl e = i;
  sr_pending p : p ∈ t_pending t <-> exists e, view I s p e }.

(** A function for one more [EventImpl]. *)
Definition assign (i : Z) (h : H) I : Z -> option H := fun j => if decide (j = i) then Some h else I j.

Lemma rel_init : sim_rel [] (fun _ => None) DefaultSimulatorImpl Timers.start.
Proof using All.
  destruct law_empty as [_ Hnil].
  split; [apply inv_init|apply Timers.timers_start_ok|done|done|by intros ? ? ?%elem_of_nil..|by intros ? ?%elem_of_nil|by intros ? ?%elem_of_empty|].
  intros p. simpl. rewrite elem_of_nil. split; [done|]. intros (e & He & _). simpl in He. rewrite Hnil in He.
  by apply elem_of_nil in He.
Qed.

Lemma sub_G G I s t e : sim_rel G I s t -> e ∈ contents (m_events s) -> e ∈ G.
Proof using All. intros Hr He. by apply (inv_sub _ _ (sr_inv _ _ _ _ Hr)) in He as [? _]. Qed.

(** ** Expiry and cancellation *)

Lemma IsExpired_refines G I s t e :
  sim_rel G I s t -> e ∈ G -> IsExpired (id_of e) s = Timers.IsExpired (Some (uid_of e)) t.
Proof using All.
  intros Hr He. unfold Timers.IsExpired.
  enough (IsExpired (id_of e) s = false <-> Timers.IsRunning (Some (uid_of e)) t = true) as Hiff.
  { destruct (IsExpired _ _), (Timers.IsRunning _ _); simpl; try done; [discriminate (proj2 Hiff eq_refl)|discriminate (proj1 Hiff eq_refl)]. }
  rewrite (expired_iff G) by (done || apply (sr_inv _ _ _ _ Hr)). rewrite Timers.IsRunning_iff. split.
  - intros [Hin Hc]. destruct (sr_handler _ _ _ _ Hr e He) as [h Hh].
    exists (mkPending (uid_of e) (m_ts (key e)) h). split; [|done]. apply (sr_pending _ _ _ _ Hr). by exists e.
  - intros (p & Hp & [= Eu]). apply (sr_pending _ _ _ _ Hr) in Hp as (e' & Hin & Hc & _ & Eu' & _).
    assert (e = e') as ->; [|done]. apply (sr_uids _ _ _ _ Hr); [done|by apply (sub_G _ _ _ _ _ Hr)|congruence].
Qed.

Lemma Cancel_refines G I s t e :
  sim_rel G I s t -> e ∈ G -> sim_rel G I (Cancel (id_of e) s) (Timers.Cancel (Some (uid_of e)) t).
Proof using All.
  intros Hr He. pose proof (IsExpired_refines G I s t e Hr He) as Hex.
  destruct (api_step_inv (s, G) (Cancel (id_of e) s, G) (api_cancel G s e He) (sr_inv _ _ _ _ Hr)) as [Hinv Hext].
  destruct Hr as [Hi Ht Hn Hu K1 K2 K3 K4 Hp]. simpl in Hinv. destruct Hext as (En & _). simpl in En.
  split; [done|by apply Timers.Cancel_ok|by rewrite Timers.Cancel_now, En| |done..| |].
  - rewrite Timers.Cancel_uid, Hu. unfold Cancel. by destruct (IsExpired _ _).
  - intros i. unfold Cancel. destruct (IsExpired _ _); [apply K4|]. simpl.
    intros [->%elem_of_singleton|Hin]%elem_of_union; [by exists e|by apply K4].
  - intros p. rewrite Timers.Cancel_pending, Hp. unfold Cancel. destruct (IsExpired (id_of e) s) eqn:E.
    + split; [tauto|]. intros Hx. split; [done|]. intros [= Eu].
      destruct Hx as (e' & Hv). assert (Timers.IsRunning (Some (uid_of e)) t = true) as Hrun.
      { apply Timers.IsRunning_iff. exists p. split; [apply Hp; by exists e'|by rewrite Eu]. }
      unfold Timers.IsExpired in Hex. by rewrite Hrun in Hex.
    + unfold view, impl_cancel, id_of. simpl. split.
      * intros [(e' & Hin & Hc & Hh & Eu & Et) Hne]. exists e'. split_and!; try done.
        intros [Ei%elem_of_singleton|Hc']%elem_of_union; [|done].
        assert (e' = e) as -> by (apply K1; [by apply (inv_sub _ _ Hi) in Hin as [? _]|done|done]). congruence.
      * intros (e' & Hin & Hc & Hh & Eu & Et). apply not_elem_of_union in Hc as [Hne Hc].
        rewrite elem_of_singleton in Hne. split; [by exists e'|]. intros [= Eu'].
        apply Hne. f_equal. apply K2; [by apply (inv_sub _ _ Hi) in Hin as [? _]|done|congruence].
Qed.

(** ** Scheduling *)

Lemma Schedule_refines G I s t d i h :
  sim_rel G I s t -> room s -> i <> 0 -> (forall e, e ∈ G -> impl e <> i) -> 0 <= d -> d + m_currentTs s < 2 ^ 63 ->
  exists e s' t', Schedule true d i s = Ok (id_of e, s') /\ Timers.Schedule d h t = Ok (Some (uid_of e), t') /\
    impl e = i /\ sim_rel (e :: G) (assign i h I) s' t'.
Proof using All.
  intros Hr [Hroom Hroom'] Hi Hfresh Hd Hfit. pose proof (sr_inv _ _ _ _ Hr) as Hinv. pose proof (inv_now _ _ Hinv) as Hnow.
  destruct (insert_event_inv G s i (d + m_currentTs s) (m_currentContext s) Hinv Hi ltac:(lia) Hroom Hroom')
    as (s' & E & Hinv' & Hperm & En & _ & Ec & _ & Eu).
  set (e := mkEvent i (mkKey (d + m_currentTs s) (m_uid s) (m_currentContext s))) in *.
  exists e, s'. unfold Schedule. simpl. rewrite (proj2 (Z.leb_le 0 d) Hd). simpl. rewrite absolute_ts_ok by lia. simpl.
  rewrite E. destruct Hr as [_ Ht Htn Htu K1 K2 K3 K4 Hp].
  unfold Timers.Schedule. rewrite (proj2 (Z.leb_le 0 d) Hd). simpl. rewrite Htn, Htu.
  assert (i64_check (d + m_currentTs s) = Ok (d + m_currentTs s)) as Ei.
  { apply i64_check_ok. unfold int64_min, int64_max. lia. }
  rewrite Ei. simpl. eexists. split; [done|]. split; [done|]. split; [done|].
  assert (Timers.Schedule d h t = Ok (Some (t_uid t), Timers.mkTimers (t_now t) (t_uid t + 1)
    (Timers.insert (mkPending (t_uid t) (d + m_currentTs s) h) (t_pending t)))) as Es.
  { unfold Timers.Schedule. rewrite (proj2 (Z.leb_le 0 d) Hd). simpl. by rewrite Htn, Ei. }
  apply Timers.Schedule_ok in Es as (Hok & _); [|done]. rewrite Htn, Htu in Hok.
  assert (forall x, x ∈ G -> uid_of x < m_uid s) as Hlt by (intros x Hx; apply (inv_issued _ _ Hinv) in Hx; lia).
  split; [done|exact Hok|simpl; congruence|simpl; congruence| | | | |].
  - intros x y [->|Hx]%elem_of_cons [->|Hy]%elem_of_cons E'; [done| | |by apply K1].
    + by destruct (Hfresh y).
    + by destruct (Hfresh x).
  - intros x y [->|Hx]%elem_of_cons [->|Hy]%elem_of_cons E'; [done| | |by apply K2].
    + apply Hlt in Hy. unfold uid_of in E' at 1. simpl in E'. lia.
    + apply Hlt in Hx. unfold uid_of in E' at 2. simpl in E'. lia.
  - intros x [->|Hx]%elem_of_cons; unfold assign; [rewrite decide_True by done; by eexists|].
    rewrite decide_False by (by apply Hfresh). by apply K3.
  - intros j. rewrite Ec. intros (x & Hx & Ej)%K4. exists x. split; [by right|done].
  - intros p. cbn [t_pending Timers.t_pending]. rewrite Timers.elem_of_insert, Hp. unfold view. rewrite Ec. split.
    + intros [->|(x & Hx & Hc & Hh & Exu & Ext)].
      * exists e. rewrite Hperm. split_and!; [by left| |unfold assign; by rewrite decide_True|done|done].
        intros (x & Hx & Ej)%K4. by destruct (Hfresh x).
      * exists x. rewrite Hperm. split_and!; [by right|done| |done|done]. unfold assign.
        rewrite decide_False; [done|]. apply Hfresh. by apply (inv_sub _ _ Hinv) in Hx as [? _].
    + intros (x & Hx & Hc & Hh & Exu & Ext). rewrite Hperm in Hx. apply elem_of_cons in Hx as [->|Hx].
      * left. unfold assign in Hh. rewrite decide_True in Hh by done. injection Hh as Hh.
        destruct p; simpl in *; subst. done.
      * right. exists x. split_and!; try done. unfold assign in Hh.
        rewrite decide_False in Hh; [done|]. apply Hfresh. by apply (inv_sub _ _ Hinv) in Hx as [? _].
Qed.

(** ** The next event *)

Lemma pending_eq (p q : pending H) : p_uid p = p_uid q -> p_ts p = p_ts q -> p_handler p = p_handler q -> p = q.
Proof using All. destruct p, q. simpl. by intros -> -> ->. Qed.

Section next.
Context (G : list Event) (I : Z -> option H) (s s1 : sim S) (t : timers H) (next : Event).
Context (Hr : sim_rel G I s t) (Hinv1 : inv G s1) (HnG : next ∈ G).
Context (Hperm : contents (m_events s) ≡ₚ next :: contents (m_events s1)).
Context (Hmin : forall e, e ∈ contents (m_events s1) -> ev_lt next e).
Context (Et : m_currentTs s1 = m_ts (key next)) (Ec : m_cancel s1 = m_cancel s) (Eu : m_uid s1 = m_uid s).

(** The next event was cancelled: for the client, time passes. *)
Lemma cancelled_refines :
  impl next ∈ m_cancel s -> sim_rel G I s1 (Timers.mkTimers (m_ts (key next)) (t_uid t) (t_pending t)).
Proof using All.
  intros Hc. pose proof Hr as [_ [Ts Tn Tu Tt] En Eun K1 K2 K3 K4 Kp].
  assert (forall p e, view I s p e -> e ∈ contents (m_events s1)) as Hv.
  { intros p e (He & Hne & _). rewrite Hperm in He. apply elem_of_cons in He as [->|]; done. }
  split; [done| |by symmetry|simpl; congruence|done..|by rewrite Ec|].
  - split; [done..|]. simpl. intros p (e & He)%Kp. pose proof (Hmin e (Hv p e He)) as Hlt.
    destruct He as (_ & _ & _ & _ & ->). unfold ev_lt, key_lt in Hlt. lia.
  - intros p. simpl. rewrite Kp. split; intros (e & He); exists e.
    + pose proof (Hv p e He). destruct He as (_ & ? & ? & ?). unfold view. by rewrite Ec.
    + unfold view in *. rewrite Ec in He. destruct He as (? & ? & ? & ?). rewrite Hperm. split; [by right|done].
Qed.

Lemma due_refines :
  impl next ∉ m_cancel s ->
  exists h t', I (impl next) = Some h /\ Timers.next t = Some (h, t') /\ sim_rel G I s1 t'.
Proof using All.
  intros Hc. pose proof Hr as [_ Ht En Eun K1 K2 K3 K4 Kp]. destruct (K3 next HnG) as [h Hh].
  set (p0 := mkPending (uid_of next) (m_ts (key next)) h).
  assert (p0 ∈ t_pending t) as Hp0.
  { apply Kp. exists next. unfold view. rewrite Hperm. split_and!; [by left|done..]. }
  assert (forall p e, view I s p e -> p = p0 \/ e ∈ contents (m_events s1)) as Hv.
  { intros p e (He & Hne & Hhe & Eue & Ete). rewrite Hperm in He. apply elem_of_cons in He as [->|]; [|by right].
    left. apply pending_eq; simpl; [done..|]. congruence. }
  destruct (t_pending t) as [|x l] eqn:El; [by apply elem_of_nil in Hp0|].
  pose proof (Timers.to_sorted _ Ht) as Hs. rewrite El in Hs. unfold Timers.by_time in Hs.
  apply StronglySorted_cons in Hs as [Hs _]. rewrite Forall_forall in Hs.
  assert (x = p0) as ->.
  { destruct (proj1 (Kp x) ltac:(by left)) as (e & He). destruct (Hv x e He) as [|Hin]; [done|].
    apply elem_of_cons in Hp0 as [->|Hp0]; [done|]. specialize (Hs p0 Hp0). specialize (Hmin e Hin).
    destruct He as (_ & _ & _ & Exu & Ext). rewrite Exu, Ext in Hs. simpl in Hs.
    unfold ev_lt, key_lt, uid_of in *. lia. }
  assert (Timers.next t = Some (h, Timers.mkTimers (m_ts (key next)) (t_uid t) l)) as En1 by (unfold Timers.next; by rewrite El).
  exists h, (Timers.mkTimers (m_ts (key next)) (t_uid t) l). split; [done|]. split; [done|].
  destruct (Timers.next_ok _ _ _ Ht En1) as (Hok & _).
  pose proof (Timers.to_nodup _ Ht) as Hnd. rewrite El in Hnd. simpl in Hnd. apply NoDup_cons in Hnd as [Hni _].
  split; [done|done|by symmetry|simpl; congruence|done..|by rewrite Ec|].
  intros p. simpl. split.
  - intros Hp. destruct (proj1 (Kp p) ltac:(by right)) as (e & He). exists e.
    destruct (Hv p e He) as [->|Hin].
    + exfalso. apply Hni. apply list_elem_of_fmap. by exists p0.
    + destruct He as (_ & ? & ? & ?). unfold view. by rewrite Ec.
  - intros (e & Hin & Hne & Hhe & Eue & Ete). rewrite Ec in Hne.
    assert (p ∈ p0 :: l) as Hp.
    { apply Kp. exists e. unfold view. rewrite Hperm. split_and!; [by right|done..]. }
    apply elem_of_cons in Hp as [->|]; [|done]. exfalso. specialize (Hmin e Hin).
    simpl in Eue, Ete. unfold ev_lt, key_lt, uid_of in *. lia.
Qed.
End next.

(** What the main loop takes next is what comes next for the client, unless it was cancelled. *)
Lemma begin_refines G I s t :
  sim_rel G I s t -> contents (m_events s) <> [] ->
  exists next evs s1, el_RemoveNext (m_events s) = Ok (next, evs) /\ begin_event next evs s = Ok s1 /\
    m_cancel s1 = m_cancel s /\
    ((impl next ∈ m_cancel s /\ sim_rel G I s1 (Timers.mkTimers (m_ts (key next)) (t_uid t) (t_pending t))) \/
     (impl next ∉ m_cancel s /\
      exists h t', I (impl next) = Some h /\ Timers.next t = Some (h, t') /\ sim_rel G I s1 t')).
Proof using All.
  intros Hr Hne. destruct (begin_inv G s (sr_inv _ _ _ _ Hr) Hne) as
    (next & evs & s1 & E1 & E2 & Hinv1 & Hperm & Hmin & _ & HnG & Et & _ & _ & Ec & Eu).
  exists next, evs, s1. split; [done|]. split; [done|]. split; [done|].
  destruct (decide (impl next ∈ m_cancel s)) as [Hc|Hc]; [left|right]; (split; [done|]).
  - by apply (cancelled_refines G I s).
  - by apply (due_refines G I s).
Qed.

Lemma idle_refines G I s t : sim_rel G I s t -> contents (m_events s) = [] -> Timers.next t = None.
Proof using All.
  intros Hr Hnil. unfold Timers.next. destruct (t_pending t) as [|x l] eqn:El; [done|].
  assert (x ∈ t_pending t) as Hx by (rewrite El; by left).
  apply (sr_pending _ _ _ _ Hr) in Hx as (e & He & _). rewrite Hnil in He. by apply elem_of_nil in He.
Qed.

(** C32. The simulator does what its clients rely on: in related states, scheduling
    returns the number of the new event, expiry is the absence of a pending event,
    cancelling removes one, and the main loop takes the next pending event at its
    time, or only lets time pass when it takes a cancelled one; it is idle only
    when nothing is pending.  The states stay related. *)
Theorem simulator_refines_timers G I s t :
  sim_rel G I s t ->
  (forall d i h, room s -> i <> 0 -> (forall e, e ∈ G -> impl e <> i) -> 0 <= d -> d + m_currentTs s < 2 ^ 63 ->
     exists e s' t', Schedule true d i s = Ok (id_of e, s') /\ Timers.Schedule d h t = Ok (Some (uid_of e), t') /\
       impl e = i /\ sim_rel (e :: G) (assign i h I) s' t') /\
  (forall e, e ∈ G -> IsExpired (id_of e) s = Timers.IsExpired (Some (uid_of e)) t) /\
  (forall e, e ∈ G -> sim_rel G I (Cancel (id_of e) s) (Timers.Cancel (Some (uid_of e)) t)) /\
  (contents (m_events s) = [] -> Timers.next t = None) /\
  (contents (m_events s) <> [] ->
     exists next evs s1, el_RemoveNext (m_events s) = Ok (next, evs) /\ begin_event next evs s = Ok s1 /\
       m_cancel s1 = m_cancel s /\
       ((impl next ∈ m_cancel s /\ sim_rel G I s1 (Timers.mkTimers (m_ts (key next)) (t_uid t) (t_pending t))) \/
        (impl next ∉ m_cancel s /\
         exists h t', I (impl next) = Some h /\ Timers.next t = Some (h, t') /\ sim_rel G I s1 t'))).
Proof using All.
  intros Hr. split_and!.
  - intros d i h. by apply Schedule_refines.
  - intros e. by apply (IsExpired_refines G I).
  - intros e. by apply Cancel_refines.
  - exact (idle_refines G I s t Hr).
  - by apply begin_refines.
Qed.
End refine.

#[local] Existing Instance MapScheduler.map_event_list.
#[local] Existing Instance MapScheduler.map_laws.
#[local] Existing Instance MapScheduler.map_remove_law.

(** A simulator over [MapScheduler] with one event. *)
Lemma simulator_refines_timers_witness :
  exists e s' t',
    Schedule true 5 7 (DefaultSimulatorImpl (S := list MapScheduler.binding)) = Ok (id_of e, s') /\
    Timers.Schedule 5 tt Timers.start = Ok (Some (uid_of e), t') /\ impl e = 7 /\
    sim_rel [e] (assign 7 tt (fun _ => None)) s' t'.
Proof.
  apply (proj1 (simulator_refines_timers [] (fun _ => None) _ _ rel_init)); try (vm_compute; split; reflexivity); try lia;
    try (vm_compute; reflexivity); by intros e ?%elem_of_nil.
Defined.
