(* ===== verification/OnOffApplication.v ===== *)
(** * [OnOffApplication] ([src/applications/model/onoff-application.cc])

    The application with its clock ([Timers]), the network of its node behind the
    interface [AppSocket], and the packets it tells its trace sources.  The
    attributes are arguments, but for the data rate, which may change while the
    application runs.  The streams of on and off times give the [double]s that they
    are to return. *)

From S2P Require Import Prelude Bytes Packet FloatingPoint Int64x64 Timers.
From S2P Require NsTime.
Import NsTime (Resolution, Seconds, To, Time_sub).

(** What an [Address] matches. *)
Inductive address_kind := InvalidAddress | Inet | Inet6 | PacketSocket | Other.
#[export] Instance address_kind_eq_dec : EqDecision address_kind.
Proof. solve_decision. Defined.

(** What the application asks of a socket: [W] is the network, [A] the addresses. *)
Class AppSocket (W A : Type) := {
  kind_of : A -> address_kind;
  CreateSocket : st W nat;
  Bind : nat -> A -> st W Z;
  BindAny : nat -> st W Z;
  Bind6 : nat -> st W Z;
  Connect : nat -> A -> st W Z;
  SetAllowBroadcast : nat -> bool -> st W bool;
  ShutdownRecv : nat -> st W Z;
  Close : nat -> st W Z;
  Send : nat -> Packet -> st W Z;
  GetSockName : nat -> st W A;
  GetPeerName : nat -> st W A }.

(** ** [SeqTsSizeHeader] ([seq-ts-header.cc], [seq-ts-size-header.cc]) *)

Record SeqTsSizeHeader := mkSeqTsSize { h_seq : Z; h_ts : Z; h_size : Z }.

#[export] Instance SeqTsSizeHeader_header : Header SeqTsSizeHeader := {|
  Packet.GetSerializedSize _ := 4 + 8 + 8;
  Packet.Serialize h := WriteHtonU64 (h_size h) ++ WriteHtonU32 (h_seq h) ++ WriteHtonU64 (h_ts h);
  Packet.Deserialize _ bs :=
    '(size, bs) ← ReadNtohU64 bs; '(seq, bs) ← ReadNtohU32 bs; '(ts, _) ← ReadNtohU64 bs;
    mret (mkSeqTsSize seq ts size, 20) |}.

(** ** The application *)

(** The functions that it schedules. *)
Inductive handler := StartSending_ | StopSending_ | SendPacket_.
#[export] Instance handler_eq_dec : EqDecision handler.
Proof. solve_decision. Defined.

Inductive trace (A : Type) :=
| Tx (p : Packet)
| TxWithAddresses (p : Packet) (local peer : A)
| TxWithSeqTsSize (p : Packet) (from to : A) (h : SeqTsSizeHeader).
Arguments Tx {A}. Arguments TxWithAddresses {A}. Arguments TxWithSeqTsSize {A}.

Record OnOff (W A : Type) := mkOnOff {
  m_socket : option nat;
  m_connected : bool;
  m_cbrRate : Z;
  m_cbrRateFailSafe : Z;
  m_residualBits : Z;
  m_lastStartTime : Z;
  m_totBytes : Z;
  m_startStopEvent : EventId;
  m_sendEvent : EventId;
  m_seq : Z;
  m_unsentPacket : option Packet;
  a_clock : timers handler;
  a_on : nat;               (* draws from m_onTime and m_offTime *)
  a_off : nat;
  a_uid : Z;                (* Packet::m_globalUid *)
  a_trace : list (trace A);
  a_net : W }.
Arguments mkOnOff {W A}. Arguments m_socket {W A}. Arguments m_connected {W A}. Arguments m_cbrRate {W A}.
Arguments m_cbrRateFailSafe {W A}. Arguments m_residualBits {W A}. Arguments m_lastStartTime {W A}.
Arguments m_totBytes {W A}. Arguments m_startStopEvent {W A}. Arguments m_sendEvent {W A}. Arguments m_seq {W A}.
Arguments m_unsentPacket {W A}. Arguments a_clock {W A}. Arguments a_on {W A}. Arguments a_off {W A}.
Arguments a_uid {W A}. Arguments a_trace {W A}. Arguments a_net {W A}.

Section setters.
Context {W A : Type}.
Implicit Types o : OnOff W A.
Definition set_socket (v : option nat) o : OnOff W A :=
  mkOnOff v (m_connected o) (m_cbrRate o) (m_cbrRateFailSafe o) (m_residualBits o) (m_lastStartTime o)
    (m_totBytes o) (m_startStopEvent o) (m_sendEvent o) (m_seq o) (m_unsentPacket o) (a_clock o) (a_on o) (a_off o)
    (a_uid o) (a_trace o) (a_net o).
Definition set_connected (v : bool) o : OnOff W A :=
  mkOnOff (m_socket o) v (m_cbrRate o) (m_cbrRateFailSafe o) (m_residualBits o) (m_lastStartTime o)
    (m_totBytes o) (m_startStopEvent o) (m_sendEvent o) (m_seq o) (m_unsentPacket o) (a_clock o) (a_on o) (a_off o)
    (a_uid o) (a_trace o) (a_net o).
Definition set_rates (rate failSafe : Z) o : OnOff W A :=
  mkOnOff (m_socket o) (m_connected o) rate failSafe (m_residualBits o) (m_lastStartTime o)
    (m_totBytes o) (m_startStopEvent o) (m_sendEvent o) (m_seq o) (m_unsentPacket o) (a_clock o) (a_on o) (a_off o)
    (a_uid o) (a_trace o) (a_net o).
Definition set_residual (bits last : Z) o : OnOff W A :=
  mkOnOff (m_socket o) (m_connected o) (m_cbrRate o) (m_cbrRateFailSafe o) bits last
    (m_totBytes o) (m_startStopEvent o) (m_sendEvent o) (m_seq o) (m_unsentPacket o) (a_clock o) (a_on o) (a_off o)
    (a_uid o) (a_trace o) (a_net o).
Definition set_totBytes (v : Z) o : OnOff W A :=
  mkOnOff (m_socket o) (m_connected o) (m_cbrRate o) (m_cbrRateFailSafe o) (m_residualBits o) (m_lastStartTime o)
    v (m_startStopEvent o) (m_sendEvent o) (m_seq o) (m_unsentPacket o) (a_clock o) (a_on o) (a_off o)
    (a_uid o) (a_trace o) (a_net o).
Definition set_events (startStop send : EventId) (c : timers handler) o : OnOff W A :=
  mkOnOff (m_socket o) (m_connected o) (m_cbrRate o) (m_cbrRateFailSafe o) (m_residualBits o) (m_lastStartTime o)
    (m_totBytes o) startStop send (m_seq o) (m_unsentPacket o) c (a_on o) (a_off o)
    (a_uid o) (a_trace o) (a_net o).
Definition set_packet (seq uid : Z) (unsent : option Packet) o : OnOff W A :=
  mkOnOff (m_socket o) (m_connected o) (m_cbrRate o) (m_cbrRateFailSafe o) (m_residualBits o) (m_lastStartTime o)
    (m_totBytes o) (m_startStopEvent o) (m_sendEvent o) seq unsent (a_clock o) (a_on o) (a_off o)
    uid (a_trace o) (a_net o).
Definition set_draws (on off : nat) o : OnOff W A :=
  mkOnOff (m_socket o) (m_connected o) (m_cbrRate o) (m_cbrRateFailSafe o) (m_residualBits o) (m_lastStartTime o)
    (m_totBytes o) (m_startStopEvent o) (m_sendEvent o) (m_seq o) (m_unsentPacket o) (a_clock o) on off
    (a_uid o) (a_trace o) (a_net o).
Definition set_trace (l : list (trace A)) o : OnOff W A :=
  mkOnOff (m_socket o) (m_connected o) (m_cbrRate o) (m_cbrRateFailSafe o) (m_residualBits o) (m_lastStartTime o)
    (m_totBytes o) (m_startStopEvent o) (m_sendEvent o) (m_seq o) (m_unsentPacket o) (a_clock o) (a_on o) (a_off o)
    (a_uid o) l (a_net o).
Definition set_net (w : W) o : OnOff W A :=
  mkOnOff (m_socket o) (m_connected o) (m_cbrRate o) (m_cbrRateFailSafe o) (m_residualBits o) (m_lastStartTime o)
    (m_totBytes o) (m_startStopEvent o) (m_sendEvent o) (m_seq o) (m_unsentPacket o) (a_clock o) (a_on o) (a_off o)
    (a_uid o) (a_trace o) w.

Definition new_OnOff (rate : Z) (clock : timers handler) (net : W) : OnOff W A :=
  mkOnOff None false rate 0 0 0 0 None None 0 None clock 0 0 0 [] net.
End setters.

Section onoff.
Context {W A : Type} `{AppSocket W A}.
Context (r : Resolution) (onTime offTime : nat -> fp).
Context (m_pktSize m_maxBytes : Z) (m_peer m_local : A) (m_enableSeqTsSizeHeader : bool).
Notation M := (st (OnOff W A)).

(** An operation of the network. *)
Definition net {B} (m : st W B) : M B := w ← gets a_net; '(b, w') ← lift (m w); _ ← update (set_net w'); mret b.
Definition traced (t : trace A) : M unit := update (fun o => set_trace (a_trace o ++ [t]) o).
Definition Now : M Z := gets (fun o => t_now (a_clock o)).

(** ** Events *)

(** [m_startStopEvent = Simulator::Schedule (...)] and the same for [m_sendEvent] *)
Definition schedule_startStop (delay : Z) (h : handler) : M unit :=
  o ← gets id; '(id, c) ← lift (Schedule delay h (a_clock o)); update (set_events id (m_sendEvent o) c).
Definition schedule_send (delay : Z) : M unit :=
  o ← gets id; '(id, c) ← lift (Schedule delay SendPacket_ (a_clock o)); update (set_events (m_startStopEvent o) id c).

Definition ScheduleStartEvent : M unit :=
  o ← gets id;
  offInterval ← lift (Seconds r (offTime (a_off o)));
  _ ← update (set_draws (a_on o) (S (a_off o)));
  schedule_startStop offInterval StartSending_.
Definition ScheduleStopEvent : M unit :=
  o ← gets id;
  onInterval ← lift (Seconds r (onTime (a_on o)));
  _ ← update (set_draws (S (a_on o)) (a_off o));
  schedule_startStop onInterval StopSending_.

(** The bits generated since the last packet: [delta.To (Time::S) * GetBitRate ()] *)
Definition bits_since (delta rate : Z) : res Z :=
  t ← To r delta NsTime.S; bits ← Mul t (of_int rate); mret (GetHigh bits).

Definition CancelEvents : M unit :=
  o ← gets id;
  _ ← (if IsRunning (m_sendEvent o) (a_clock o) && (m_cbrRateFailSafe o =? m_cbrRate o) then
         delta ← lift (Time_sub (t_now (a_clock o)) (m_lastStartTime o));
         bits ← lift (bits_since delta (m_cbrRate o));
         update (set_residual (u32 (m_residualBits o + bits)) (m_lastStartTime o))
       else mret tt);
  _ ← update (set_rates (m_cbrRate o) (m_cbrRate o));
  _ ← update (fun o => set_events (m_startStopEvent o) (m_sendEvent o)
                (Cancel (m_startStopEvent o) (Cancel (m_sendEvent o) (a_clock o))) o);
  update (fun o => set_packet (m_seq o) (a_uid o) None o).

Definition StopApplication : M unit :=
  _ ← CancelEvents;
  s ← gets m_socket;
  match s with None => mret tt | Some s => _ ← net (Close s); mret tt end.

(** [Seconds (bits / static_cast<double> (m_cbrRate.GetBitRate ()))] *)
Definition next_time (bits rate : Z) : res Z :=
  Seconds r (fp_div binary64 (fp_of_int binary64 bits) (fp_of_int binary64 rate)).

Definition ScheduleNextTx : M unit :=
  o ← gets id;
  if (m_maxBytes =? 0) || (m_totBytes o <? m_maxBytes) then
    _ ← lift (ns_require (m_residualBits o <=? u32 (m_pktSize * 8)));
    let bits := u32 (m_pktSize * 8 - m_residualBits o) in
    nextTime ← lift (next_time bits (m_cbrRate o));
    schedule_send nextTime
  else StopApplication.

Definition StartSending : M unit :=
  now ← Now;
  _ ← update (fun o => set_residual (m_residualBits o) now o);
  _ ← ScheduleNextTx;
  ScheduleStopEvent.
Definition StopSending : M unit := _ ← CancelEvents; ScheduleStartEvent.

(** ** Starting *)

(** The result of binding; -1 when no bind is called. *)
Definition bind_socket (s : nat) : M Z :=
  if decide (kind_of m_local <> InvalidAddress) then
    _ ← lift (ns_require (negb (
      (bool_decide (kind_of m_peer = Inet6) && bool_decide (kind_of m_local = Inet)) ||
      (bool_decide (kind_of m_peer = Inet) && bool_decide (kind_of m_local = Inet6)))));
    net (Bind s m_local)
  else match kind_of m_peer with
       | Inet6 => net (Bind6 s)
       | Inet | PacketSocket => net (BindAny s)
       | _ => mret (-1)
       end.

Definition StartApplication : M unit :=
  o ← gets id;
  _ ← match m_socket o with
      | Some _ => mret tt
      | None =>
          s ← net CreateSocket;
          _ ← update (set_socket (Some s));
          ret ← bind_socket s;
          _ ← lift (ns_require (negb (ret =? -1)));
          _ ← net (Connect s m_peer);
          _ ← net (SetAllowBroadcast s true);
          _ ← net (ShutdownRecv s);
          mret tt
      end;
  _ ← update (fun o => set_rates (m_cbrRate o) (m_cbrRate o) o);
  _ ← CancelEvents;
  ScheduleStartEvent.

(** ** Sending *)

(** The socket that a handler dereferences. *)
Definition socket : M nat := o ← gets id; lift (deref (m_socket o)).

(** A packet that was not sent before. *)
Definition new_tx_packet : M Packet :=
  o ← gets id;
  if m_enableSeqTsSizeHeader then
    s ← socket;
    from ← net (GetSockName s);
    to ← net (GetPeerName s);
    now ← Now;
    let header := mkSeqTsSize (m_seq o) now m_pktSize in
    _ ← update (fun o => set_packet (u32 (m_seq o + 1)) (a_uid o) (m_unsentPacket o) o);
    _ ← lift (ns_require (GetSerializedSize header <=? m_pktSize));
    o ← gets id;
    let '(packet, uid) := new_zero_packet (m_pktSize - GetSerializedSize header) (a_uid o) in
    _ ← update (set_packet (m_seq o) uid (m_unsentPacket o));
    _ ← traced (TxWithSeqTsSize packet from to header);
    mret (AddHeader header packet)
  else
    let '(packet, uid) := new_zero_packet m_pktSize (a_uid o) in
    _ ← update (set_packet (m_seq o) uid (m_unsentPacket o));
    mret packet.

Definition SendPacket : M unit :=
  o ← gets id;
  _ ← lift (ns_assert (IsExpired (m_sendEvent o) (a_clock o)));
  packet ← match m_unsentPacket o with Some p => mret p | None => new_tx_packet end;
  s ← socket;
  actual ← net (Send s packet);
  _ ← (if u32 actual =? m_pktSize then
         _ ← traced (Tx packet);
         _ ← update (fun o => set_totBytes (u64 (m_totBytes o + m_pktSize)) o);
         _ ← update (fun o => set_packet (m_seq o) (a_uid o) None o);
         localAddress ← net (GetSockName s);
         match kind_of m_peer with
         | Inet | Inet6 => traced (TxWithAddresses packet localAddress m_peer)
         | _ => mret tt
         end
       else update (fun o => set_packet (m_seq o) (a_uid o) (Some packet) o));
  now ← Now;
  _ ← update (set_residual 0 now);
  ScheduleNextTx.

Definition ConnectionSucceeded : M unit := update (set_connected true).
Definition ConnectionFailed : M unit := lift (Err FatalError).

Definition DoDispose : M unit :=
  _ ← CancelEvents;
  _ ← update (set_socket None);
  update (fun o => set_packet (m_seq o) (a_uid o) None o).

(** ** Running *)

Definition run_handler (h : handler) : M unit :=
  match h with StartSending_ => StartSending | StopSending_ => StopSending | SendPacket_ => SendPacket end.

(** The next event of the application, if it has one. *)
Definition fire : M unit :=
  o ← gets id;
  match next (a_clock o) with
  | None => mret tt
  | Some (h, c) => _ ← update (set_events (m_startStopEvent o) (m_sendEvent o) c); run_handler h
  end.

(** Time passes, up to the next event. *)
Definition wait (d : Z) : M unit :=
  update (fun o => set_events (m_startStopEvent o) (m_sendEvent o)
    (mkTimers (t_now (a_clock o) + d) (t_uid (a_clock o)) (t_pending (a_clock o))) o).

(** [SetAttribute ("DataRate", ...)] *)
Definition set_DataRate (rate : Z) : M unit := update (fun o => set_rates rate (m_cbrRateFailSafe o) o).
End onoff.
