(* ===== verification/OnOffSpec.v ===== *)
(** * Correctness of [OnOffApplication]

    The invariant that ties the pending events of the application to its state,
    and its account of the bytes it sent. *)

From S2P Require Import Prelude Packet FloatingPoint Int64x64 Timers OnOffApplication.
From S2P Require NsTime.
From S2P Require Import NsTimeSpec.
Import NsTime (Resolution).

Section spec.
Context {W A : Type} `{AppSocket W A}.
Context (r : Resolution) (onTime offTime : nat -> fp).
Context (m_pktSize m_maxBytes : Z) (m_peer m_local : A) (m_enableSeqTsSizeHeader : bool).
Notation O := (OnOff W A).
Implicit Types o : O.

(** ** What operations leave alone *)

Definition account o : option nat * Z * list (trace A) := (m_socket o, m_totBytes o, a_trace o).
Definition pend o : list (pending handler) := t_pending (a_clock o).

(** Each pending event is the one that the application remembers. *)
Record wf o : Prop := {
  wf_clock : timers_ok (a_clock o);
  wf_pending x : x ∈ pend o ->
    (if decide (p_handler x = SendPacket_) then m_sendEvent o else m_startStopEvent o) = Some (p_uid x);
  wf_send u : m_sendEvent o = Some u -> u < t_uid (a_clock o);
  wf_startStop u : m_startStopEvent o = Some u -> u < t_uid (a_clock o) }.

Definition no_send o : Prop := forall x, x ∈ pend o -> p_handler x <> SendPacket_.
Definition no_startStop o : Prop := forall x, x ∈ pend o -> p_handler x = SendPacket_.

(** A change of fields other than the events. *)
Definition same_events o o' : Prop :=
  a_clock o' = a_clock o /\ m_sendEvent o' = m_sendEvent o /\ m_startStopEvent o' = m_startStopEvent o.

#[local] Instance same_events_preorder : PreOrder same_events.
Proof. split; [done|]. intros x y z (?&?&?) (?&?&?). split_and!; congruence. Qed.

Lemma wf_same o o' : same_events o o' -> wf o -> wf o'.
Proof using.
  intros (Ec & Es & Et) [Hc Hp Hs Ht]. unfold pend in *. split; rewrite ?Ec; try done.
  - intros x Hx. unfold pend in Hx. rewrite Ec in Hx. rewrite Es, Et. by apply Hp.
  - rewrite Es. done.
  - rewrite Et. done.
Qed.

Lemma net_ok {B} (m : st W B) o b o' :
  net m o = Ok (b, o') -> same_events o o' /\ account o' = account o /\
    m_cbrRate o' = m_cbrRate o /\ m_unsentPacket o' = m_unsentPacket o /\ m_residualBits o' = m_residualBits o /\
    m_lastStartTime o' = m_lastStartTime o.
Proof using.
  unfold net. run. intros ([b1 w1] & s1 & [E1 ->]%lift_ok & E)%st_bind_ok. injection E as <- <-. done.
Qed.

(** ** Scheduling *)

Lemma schedule_startStop_ok d h o u o' :
  h <> SendPacket_ -> wf o -> no_startStop o -> schedule_startStop d h o = Ok (u, o') ->
  wf o' /\ account o' = account o /\ 0 <= d /\
  exists x, p_handler x = h /\ p_ts x = d + t_now (a_clock o) /\ forall y, y ∈ pend o' <-> y = x \/ y ∈ pend o.
Proof using.
  intros Hh [Hc Hp Hs Ht] Hno E. unfold schedule_startStop in E. revert E. run.
  intros ([i c] & s1 & [E ->]%lift_ok & E')%st_bind_ok. injection E' as _ <-. unfold id in *.
  apply Schedule_ok in E as (Hc' & -> & Hn & Hd & Hpend & Hu); [|done].
  set (x := mkPending (t_uid (a_clock o)) (d + t_now (a_clock o)) h) in *.
  assert (forall y, y ∈ t_pending c <-> y = x \/ y ∈ pend o) as Hin.
  { intros y. rewrite Hpend. apply elem_of_insert. }
  split; [|split; [done|split; [done|by exists x]]].
  split; cbn [a_clock set_events m_sendEvent m_startStopEvent]; [done| | |].
  - intros y Hy. unfold pend in Hy. cbn [a_clock set_events] in Hy. apply Hin in Hy as [->|Hy].
    + cbn [p_handler x]. by rewrite decide_False by done.
    + rewrite decide_True by (by apply Hno). specialize (Hp y Hy). by rewrite decide_True in Hp by (by apply Hno).
  - intros v Hv. apply Hs in Hv. lia.
  - intros v [= <-]. lia.
Qed.

Lemma schedule_send_ok d o u o' :
  wf o -> no_send o -> schedule_send d o = Ok (u, o') ->
  wf o' /\ account o' = account o /\ 0 <= d /\
  exists x, p_handler x = SendPacket_ /\ p_ts x = d + t_now (a_clock o) /\ forall y, y ∈ pend o' <-> y = x \/ y ∈ pend o.
Proof using.
  intros [Hc Hp Hs Ht] Hno E. unfold schedule_send in E. revert E. run.
  intros ([i c] & s1 & [E ->]%lift_ok & E')%st_bind_ok. injection E' as _ <-. unfold id in *.
  apply Schedule_ok in E as (Hc' & -> & Hn & Hd & Hpend & Hu); [|done].
  set (x := mkPending (t_uid (a_clock o)) (d + t_now (a_clock o)) SendPacket_) in *.
  assert (forall y, y ∈ t_pending c <-> y = x \/ y ∈ pend o) as Hin.
  { intros y. rewrite Hpend. apply elem_of_insert. }
  split; [|split; [done|split; [done|by exists x]]].
  split; cbn [a_clock set_events m_sendEvent m_startStopEvent]; [done| | |].
  - intros y Hy. unfold pend in Hy. cbn [a_clock set_events] in Hy. apply Hin in Hy as [->|Hy].
    + cbn [p_handler x]. by rewrite decide_True by done.
    + rewrite decide_False by (by apply Hno). specialize (Hp y Hy). by rewrite decide_False in Hp by (by apply Hno).
  - intros v [= <-]. lia.
  - intros v Hv. apply Ht in Hv. lia.
Qed.

(** After [CancelEvents] nothing is pending. *)
Lemma CancelEvents_ok o u o' :
  wf o -> CancelEvents r o = Ok (u, o') ->
  wf o' /\ account o' = account o /\ pend o' = [] /\ m_unsentPacket o' = None /\ m_cbrRate o' = m_cbrRate o /\
  t_now (a_clock o') = t_now (a_clock o).
Proof using.
  intros Hwf E. unfold CancelEvents in E. revert E. run.
  intros (v & o1 & E1 & E)%st_bind_ok. revert E. run. intros E. injection E as <- <-.
  assert (same_events o o1 /\ account o1 = account o /\ m_cbrRate o1 = m_cbrRate o) as (Hse & Hac & Hr).
  { destruct (_ && _) in E1.
    - apply st_bind_ok in E1 as (dl & s1 & [_ ->]%lift_ok & E1).
      apply st_bind_ok in E1 as (b & s1 & [_ ->]%lift_ok & E1). injection E1 as <- <-. done.
    - injection E1 as <- <-. done. }
  apply (wf_same _ _ Hse) in Hwf. destruct Hse as (Ec & Es & Et). destruct Hwf as [Hc Hp Hs Ht].
  assert (forall x, x ∉ t_pending (Cancel (m_startStopEvent o1) (Cancel (m_sendEvent o1) (a_clock o1)))) as Hnone.
  { intros x [[Hx Hns]%Cancel_pending Hnt]%Cancel_pending. specialize (Hp x Hx). destruct (decide _); by symmetry in Hp. }
  split_and!; try done.
  - split; cbn [a_clock set_packet set_events set_rates m_sendEvent m_startStopEvent].
    + by apply Cancel_ok, Cancel_ok.
    + intros x Hx. by destruct (Hnone x).
    + rewrite !Cancel_uid. done.
    + rewrite !Cancel_uid. done.
  - unfold pend. cbn [a_clock set_packet set_events set_rates]. destruct (t_pending _) as [|x l]; [done|].
    destruct (Hnone x). by left.
  - cbn [a_clock set_packet set_events set_rates]. by rewrite !Cancel_now, Ec.
Qed.

Lemma StopApplication_ok o u o' :
  wf o -> StopApplication r o = Ok (u, o') ->
  wf o' /\ account o' = account o /\ pend o' = [] /\ m_unsentPacket o' = None.
Proof using.
  intros Hwf E. unfold StopApplication in E. apply st_bind_ok in E as (v & o1 & E1 & E).
  destruct (CancelEvents_ok _ _ _ Hwf E1) as (Hwf1 & Hac & Hpe & Hu & _). revert E. run.
  destruct (m_socket o1) as [s|].
  - intros (b & o2 & (Hse & Hac2 & _ & Hu2 & _)%net_ok & E)%st_bind_ok. injection E as <- <-.
    split; [by apply (wf_same _ _ Hse)|]. split; [congruence|]. split; [|congruence]. unfold pend. by rewrite (proj1 Hse).
  - intros [= <- <-]. done.
Qed.

(** ** The handlers *)

Definition may_send o : Prop := m_maxBytes = 0 \/ m_totBytes o < m_maxBytes.

Lemma ScheduleNextTx_ok o u o' :
  wf o -> no_send o -> ScheduleNextTx r m_pktSize m_maxBytes o = Ok (u, o') ->
  wf o' /\ account o' = account o /\ (m_unsentPacket o' = m_unsentPacket o \/ m_unsentPacket o' = None) /\
  (pend o' = [] \/
   (may_send o /\ exists x, p_handler x = SendPacket_ /\ forall y, y ∈ pend o' <-> y = x \/ y ∈ pend o)).
Proof using.
  intros Hwf Hno E. unfold ScheduleNextTx in E. revert E. run. cbv beta iota.
  destruct (_ || _) eqn:Hm; intros E.
  - apply st_bind_ok in E as (v & s1 & [_ ->]%lift_ok & E). apply st_bind_ok in E as (d & s1 & [_ ->]%lift_ok & E).
    destruct (schedule_send_ok _ _ _ _ Hwf Hno E) as (Hwf' & Hac & _ & x & Hx & _ & Hin).
    split; [done|]. split; [done|]. split.
    { left. revert E. unfold schedule_send. run. intros ([i c] & s1 & [_ ->]%lift_ok & E)%st_bind_ok. by injection E as _ <-. }
    right. split; [|by exists x].
    unfold may_send. apply orb_true_iff in Hm as [Hm|Hm]; bool_to_Z; [by left|by right].
  - destruct (StopApplication_ok _ _ _ Hwf E) as (? & ? & ? & ?). auto 10.
Qed.

Lemma ScheduleStartEvent_ok o u o' :
  wf o -> no_startStop o -> ScheduleStartEvent r offTime o = Ok (u, o') ->
  wf o' /\ account o' = account o /\ m_unsentPacket o' = m_unsentPacket o /\
  exists x, p_handler x = StartSending_ /\ forall y, y ∈ pend o' <-> y = x \/ y ∈ pend o.
Proof using.
  intros Hwf Hno E. unfold ScheduleStartEvent in E. revert E. run.
  intros (d & s1 & [_ ->]%lift_ok & E)%st_bind_ok. revert E. run. intros E.
  assert (m_unsentPacket o' = m_unsentPacket o) as Hu.
  { revert E. unfold schedule_startStop. run. intros ([i c] & s1 & [_ ->]%lift_ok & E)%st_bind_ok. by injection E as _ <-. }
  apply (schedule_startStop_ok d StartSending_) in E as (Hwf' & Hac & _ & x & Hx & _ & Hin); [|done|by apply (wf_same o)|done].
  split_and!; [done..|]. by exists x.
Qed.
Lemma ScheduleStopEvent_ok o u o' :
  wf o -> no_startStop o -> ScheduleStopEvent r onTime o = Ok (u, o') ->
  wf o' /\ account o' = account o /\ m_unsentPacket o' = m_unsentPacket o /\
  exists x, p_handler x = StopSending_ /\ forall y, y ∈ pend o' <-> y = x \/ y ∈ pend o.
Proof using.
  intros Hwf Hno E. unfold ScheduleStopEvent in E. revert E. run.
  intros (d & s1 & [_ ->]%lift_ok & E)%st_bind_ok. revert E. run. intros E.
  assert (m_unsentPacket o' = m_unsentPacket o) as Hu.
  { revert E. unfold schedule_startStop. run. intros ([i c] & s1 & [_ ->]%lift_ok & E)%st_bind_ok. by injection E as _ <-. }
  apply (schedule_startStop_ok d StopSending_) in E as (Hwf' & Hac & _ & x & Hx & _ & Hin); [|done|by apply (wf_same o)|done].
  split_and!; [done..|]. by exists x.
Qed.

(** ** The account *)

Definition tx_size (t : trace A) : Z := match t with Tx p => GetSize p | _ => 0 end.
Definition tx_bytes (l : list (trace A)) : Z := foldr (fun t n => tx_size t + n) 0 l.

Lemma tx_bytes_app l1 l2 : tx_bytes (l1 ++ l2) = tx_bytes l1 + tx_bytes l2.
Proof using. unfold tx_bytes. induction l1 as [|t l IH]; simpl; lia. Qed.

Lemma tx_bytes_nonneg l : 0 <= tx_bytes l.
Proof using.
  unfold tx_bytes. induction l as [|t l IH]; simpl; [lia|].
  assert (0 <= tx_size t); [|lia]. destruct t; simpl; [|lia..]. apply wrap_range. lia.
Qed.

(** Sending, but for the events. *)
Record sizes o : Prop := {
  sz_tx p : Tx p ∈ a_trace o -> GetSize p = m_pktSize;
  sz_unsent p : m_unsentPacket o = Some p -> GetSize p = m_pktSize;
  sz_total : m_totBytes o = u64 (tx_bytes (a_trace o)) }.

Record inv o : Prop := {
  inv_wf : wf o;
  inv_sizes : sizes o;
  inv_on x : x ∈ pend o -> p_handler x = SendPacket_ ->
    may_send o /\ exists y, y ∈ pend o /\ p_handler y = StopSending_;
  inv_socket : pend o <> [] -> is_Some (m_socket o);
  inv_max : m_maxBytes <> 0 -> tx_bytes (a_trace o) < m_maxBytes + m_pktSize }.

Lemma sizes_keep o o' :
  account o' = account o -> m_unsentPacket o' = m_unsentPacket o \/ m_unsentPacket o' = None -> sizes o -> sizes o'.
Proof using.
  intros [= Es Et El] Hu [H1 H2 H3]. split.
  - rewrite El. done.
  - destruct Hu as [-> | ->]; [done|]. done.
  - by rewrite Et, El.
Qed.

Context (Hsize : 0 < m_pktSize < 2 ^ 32) (Hmax : 0 <= m_maxBytes) (Hroom : m_maxBytes + m_pktSize <= 2 ^ 64).

Lemma account_eq o o' : account o' = account o ->
  m_socket o' = m_socket o /\ m_totBytes o' = m_totBytes o /\ a_trace o' = a_trace o.
Proof using. by intros [= -> -> ->]. Qed.

Lemma StartSending_ok o u o' :
  wf o -> sizes o -> pend o = [] -> is_Some (m_socket o) -> (m_maxBytes <> 0 -> tx_bytes (a_trace o) < m_maxBytes + m_pktSize) ->
  StartSending r onTime m_pktSize m_maxBytes o = Ok (u, o') -> inv o'.
Proof using.
  intros Hwf Hsz Hpe Hso Hmx E. unfold StartSending, Now in E. revert E. run.
  set (o1 := (set_residual _ _ o : O)). intros (v & o2 & E1 & E)%st_bind_ok.
  assert (wf o1) as Hwf1 by (by apply (wf_same o)).
  assert (pend o1 = []) as Hpe1 by done.
  apply ScheduleNextTx_ok in E1 as (Hwf2 & Hac2 & Hu2 & Hp2); [|done|unfold no_send; rewrite Hpe1; by intros x ?%elem_of_nil].
  assert (no_startStop o2) as Hno.
  { unfold no_startStop. destruct Hp2 as [->|(_ & x & Hx & Hin)]; [by intros y ?%elem_of_nil|].
    intros y Hy. apply Hin in Hy as [->|Hy]; [done|]. rewrite Hpe1 in Hy. by apply elem_of_nil in Hy. }
  apply ScheduleStopEvent_ok in E as (Hwf3 & Hac3 & Hu3 & x & Hx & Hin); [|done|done].
  apply account_eq in Hac2 as (Es2 & Et2 & El2), Hac3 as (Es3 & Et3 & El3).
  split.
  - done.
  - apply (sizes_keep o); [unfold account; by rewrite Es3, Et3, El3, Es2, Et2, El2| |done].
    rewrite Hu3. exact Hu2.
  - intros y Hy Hys. destruct Hp2 as [Hnil|(Hmay & z & Hz & Hin2)].
    + apply Hin in Hy as [->|Hy]; [by rewrite Hx in Hys|]. rewrite Hnil in Hy. by apply elem_of_nil in Hy.
    + unfold may_send in *. rewrite Et3, Et2. split; [done|]. exists x. split; [apply Hin; by left|done].
  - intros _. rewrite Es3, Es2. done.
  - rewrite El3, El2. done.
Qed.

Lemma StopSending_ok o u o' :
  wf o -> sizes o -> is_Some (m_socket o) -> (m_maxBytes <> 0 -> tx_bytes (a_trace o) < m_maxBytes + m_pktSize) ->
  StopSending r offTime o = Ok (u, o') -> inv o'.
Proof using.
  intros Hwf Hsz Hso Hmx E. unfold StopSending in E. apply st_bind_ok in E as (v & o1 & E1 & E).
  apply CancelEvents_ok in E1 as (Hwf1 & Hac1 & Hpe1 & Hu1 & _); [|done].
  apply ScheduleStartEvent_ok in E as (Hwf2 & Hac2 & Hu2 & x & Hx & Hin);
    [|done|unfold no_startStop; rewrite Hpe1; by intros y ?%elem_of_nil].
  apply account_eq in Hac1 as (Es1 & Et1 & El1), Hac2 as (Es2 & Et2 & El2).
  split.
  - done.
  - apply (sizes_keep o); [unfold account; by rewrite Es2, Et2, El2, Es1, Et1, El1| |done]. right. congruence.
  - intros y Hy Hys. apply Hin in Hy as [->|Hy]; [by rewrite Hx in Hys|]. rewrite Hpe1 in Hy. by apply elem_of_nil in Hy.
  - intros _. rewrite Es2, Es1. done.
  - rewrite El2, El1. done.
Qed.

(** ** Sending a packet *)

Lemma zero_packet_size n g : 0 <= n < 2 ^ 32 -> GetSize (new_zero_packet n g).1 = n.
Proof using.
  intros Hn. unfold GetSize. cbn [new_zero_packet fst p_data]. rewrite length_replicate, Z2Nat.id by lia.
  by apply wrap_small.
Qed.
Lemma header_packet_size (h : SeqTsSizeHeader) n g :
  20 <= n < 2 ^ 32 -> GetSize (AddHeader h (new_zero_packet (n - 20) g).1) = n.
Proof using.
  intros Hn. unfold GetSize, AddHeader, with_data. cbn [new_zero_packet fst p_data].
  change (GetSerializedSize h) with 20. assert (length (Serialize h) = 20%nat) as Hl by done.
  rewrite length_app, length_drop, length_app, !length_replicate, Hl.
  change (Z.to_nat 20) with 20%nat. rewrite wrap_small; [lia|]. unfold in_range. lia.
Qed.

(** A fresh packet has the size asked for; making it touches no event. *)
Lemma new_tx_packet_ok o p o' :
  new_tx_packet m_pktSize m_enableSeqTsSizeHeader o = Ok (p, o') ->
  GetSize p = m_pktSize /\ same_events o o' /\ m_socket o' = m_socket o /\ m_totBytes o' = m_totBytes o /\
  m_unsentPacket o' = m_unsentPacket o /\
  (a_trace o' = a_trace o \/ exists q from to h, a_trace o' = a_trace o ++ [TxWithSeqTsSize q from to h]).
Proof using Hsize.
  unfold new_tx_packet. run. destruct m_enableSeqTsSizeHeader.
  - intros (s & o1 & E1 & E)%st_bind_ok. unfold socket in E1. revert E1. run. intros [_ ->]%lift_ok. revert E. run.
    intros (from & o1 & (Hs1 & Ha1 & _ & Hu1 & _)%net_ok & E)%st_bind_ok.
    apply st_bind_ok in E as (to & o2 & (Hs2 & Ha2 & _ & Hu2 & _)%net_ok & E).
    revert E. unfold Now. run. set (o3 := set_packet _ _ _ o2).
    intros (v & s1 & [Hreq ->]%lift_ok & E)%st_bind_ok. revert E. run. unfold id.
    assert (20 <= m_pktSize) as H20.
    { revert Hreq. unfold ns_require. change (GetSerializedSize _) with 20. destruct (Z.leb_spec 20 m_pktSize); done. }
    unfold new_zero_packet, traced. cbv beta iota zeta. run. intros E. injection E as <- <-.
    split; [exact (header_packet_size _ m_pktSize (a_uid o2) (conj H20 (proj2 Hsize)))|].
    apply account_eq in Ha1 as (?&?&?), Ha2 as (?&?&?).
    split; [etrans; [exact Hs1|]; etrans; [exact Hs2|]; done|]. cbn [m_socket m_totBytes m_unsentPacket a_trace set_trace set_packet o3].
    split_and!; [congruence|congruence|congruence|]. right. eexists _, _, _, _. f_equal. congruence.
  - unfold new_zero_packet. cbv beta iota zeta. run. intros E. injection E as <- <-.
    split; [by apply (zero_packet_size m_pktSize (a_uid o)); lia|]. split; [done|]. auto.
Qed.

(** The part of [SendPacket] before [ScheduleNextTx]. *)
Lemma packet_to_send_ok o p o' :
  sizes o -> (match m_unsentPacket o with Some p => mret p | None => new_tx_packet m_pktSize m_enableSeqTsSizeHeader end) o = Ok (p, o') ->
  GetSize p = m_pktSize /\ same_events o o' /\ m_socket o' = m_socket o /\ tx_bytes (a_trace o') = tx_bytes (a_trace o) /\ sizes o'.
Proof using Hsize.
  intros Hsz E. destruct (m_unsentPacket o) as [q|] eqn:Eq.
  - injection E as <- <-. split; [by apply (sz_unsent _ Hsz)|]. done.
  - apply new_tx_packet_ok in E as (Hp & Hse & Es & Et & Eu & Hl).
    assert (tx_bytes (a_trace o') = tx_bytes (a_trace o)) as Eb.
    { destruct Hl as [->|(? & ? & ? & ? & ->)]; [done|]. rewrite tx_bytes_app. simpl. lia. }
    split_and!; [done..|].
    destruct Hsz as [H1 H2 H3]. split; [|rewrite Eu, Eq; done|by rewrite Et, H3, Eb].
    intros q Hq. destruct Hl as [El|(? & ? & ? & ? & El)]; rewrite El in Hq; [by apply H1|].
      apply elem_of_app in Hq as [Hq|Hq%list_elem_of_singleton]; [by apply H1|done].
Qed.

Lemma count_ok o p : sizes o -> GetSize p = m_pktSize ->
  sizes (set_packet (m_seq o) (a_uid o) None (set_totBytes (u64 (m_totBytes o + m_pktSize)) (set_trace (a_trace o ++ [Tx p]) o))).
Proof using.
  intros [H1 H2 H3] Hp. split; cbn [a_trace m_unsentPacket m_totBytes set_packet set_totBytes set_trace].
  - intros q [Hq|Hq%list_elem_of_singleton]%elem_of_app; [by apply H1|]. injection Hq as ->. done.
  - done.
  - rewrite tx_bytes_app, H3, wrap_add_l. f_equal. simpl. lia.
Qed.

Lemma traced_other_ok (t : trace A) o u o' :
  (forall p, t <> Tx p) -> sizes o -> traced t o = Ok (u, o') ->
  sizes o' /\ same_events o o' /\ m_socket o' = m_socket o /\ tx_bytes (a_trace o') = tx_bytes (a_trace o).
Proof using.
  intros Ht [H1 H2 H3] E. unfold traced in E. injection E as _ <-.
  assert (tx_bytes (a_trace o ++ [t]) = tx_bytes (a_trace o)) as Eb.
  { rewrite tx_bytes_app. assert (tx_bytes [t] = 0) as ->; [|lia]. destruct t; [by destruct (Ht p)|done..]. }
  split_and!; [|done..|done].
  split; cbn [a_trace m_unsentPacket m_totBytes set_trace].
  - intros q [Hq|Hq%list_elem_of_singleton]%elem_of_app; [by apply H1|]. by destruct (Ht q).
  - done.
  - by rewrite Eb, H3.
Qed.

Lemma SendPacket_ok o u o' :
  wf o -> no_send o -> sizes o -> is_Some (m_socket o) -> may_send o ->
  (m_maxBytes <> 0 -> tx_bytes (a_trace o) < m_maxBytes + m_pktSize) ->
  (exists y, y ∈ pend o /\ p_handler y = StopSending_) ->
  SendPacket r m_pktSize m_maxBytes m_peer m_enableSeqTsSizeHeader o = Ok (u, o') -> inv o'.
Proof using Hsize Hmax Hroom.
  intros Hwf Hno Hsz Hso Hmay Hmx Hstop E. unfold SendPacket in E. revert E. run. unfold id.
  intros (v & s1 & [_ ->]%lift_ok & E)%st_bind_ok.
  apply st_bind_ok in E as (p & o1 & E1 & E). destruct (packet_to_send_ok _ _ _ Hsz E1) as (Hp & Hse1 & Es1 & Eb1 & Hsz1).
  apply st_bind_ok in E as (s & o2 & E2 & E). unfold socket in E2. revert E2. run. intros [_ ->]%lift_ok.
  apply st_bind_ok in E as (actual & o2 & (Hse2 & Ha2 & _ & Hu2 & _)%net_ok & E).
  assert (sizes o2) as Hsz2 by (apply (sizes_keep o1); auto). apply account_eq in Ha2 as (Es2 & Et2 & El2).
  apply st_bind_ok in E as (w & o3 & E3 & E).
  assert (sizes o3 /\ same_events o2 o3 /\ m_socket o3 = m_socket o2 /\
          (m_maxBytes <> 0 -> tx_bytes (a_trace o3) < m_maxBytes + m_pktSize)) as (Hsz3 & Hse3 & Es3 & Hmx3).
  { assert (m_maxBytes <> 0 -> tx_bytes (a_trace o) + m_pktSize < m_maxBytes + m_pktSize) as Hlt.
    { intros Hne. destruct Hmay as [|Hlt]; [done|]. rewrite (sz_total _ Hsz), wrap_small in Hlt; [lia|].
      specialize (Hmx Hne). pose proof (tx_bytes_nonneg (a_trace o)). unfold in_range. lia. }
    destruct (u32 actual =? m_pktSize).
    - apply st_bind_ok in E3 as (? & o3a & [= _ <-] & E3). revert E3. run. set (o4 := (set_packet _ _ _ _ : O)).
      assert (sizes o4) as Hsz4 by (exact (count_ok o2 p Hsz2 Hp)).
      intros (la & o5 & (Hse5 & Ha5 & _ & Hu5 & _)%net_ok & E3)%st_bind_ok.
      assert (sizes o5) as Hsz5 by (apply (sizes_keep o4); auto). apply account_eq in Ha5 as (Es5 & Et5 & El5).
      assert (sizes o3 /\ same_events o5 o3 /\ m_socket o3 = m_socket o5 /\ tx_bytes (a_trace o3) = tx_bytes (a_trace o5)) as (? & Hse & Es & Et).
      { destruct (kind_of m_peer); try (injection E3 as _ <-; split_and!; done || reflexivity);
          (eapply traced_other_ok; [|exact Hsz5|exact E3]); done. }
      split; [done|]. split; [etrans; [|exact Hse]; etrans; [|exact Hse5]; done|]. split; [rewrite Es, Es5; done|].
      intros Hne. rewrite Et, El5. cbn [o4 a_trace set_packet set_totBytes set_trace].
      rewrite tx_bytes_app, El2, Eb1. simpl. rewrite Hp. specialize (Hlt Hne). lia.
    - injection E3 as _ <-. destruct Hsz2 as [H1 H2 H3]. split; [|split; [done|split; [done|]]].
      + split; [done| |done]. cbn [m_unsentPacket set_packet]. intros q [= <-]. done.
      + intros Hne. cbn [a_trace set_packet]. rewrite El2, Eb1. specialize (Hlt Hne). lia. }
  revert E. unfold Now. run. set (o4 := (set_residual _ _ _ : O)). intros E.
  assert (same_events o o4) as Hse4 by (etrans; [exact Hse1|]; etrans; [exact Hse2|]; etrans; [exact Hse3|]; done).
  assert (pend o4 = pend o) as Hp4 by (unfold pend; by rewrite (proj1 Hse4)).
  apply ScheduleNextTx_ok in E as (Hwf5 & Ha5 & Hu5 & Hp5);
    [|by apply (wf_same o)|unfold no_send; by rewrite Hp4].
  apply account_eq in Ha5 as (Es5 & Et5 & El5). split.
  - done.
  - apply (sizes_keep o3); [unfold account; by rewrite Es5, Et5, El5|exact Hu5|done].
  - intros x Hx Hxs. destruct Hp5 as [Hnil|(Hmay5 & z & Hz & Hin)]; [rewrite Hnil in Hx; by apply elem_of_nil in Hx|].
    split; [unfold may_send in *; by rewrite Et5|]. destruct Hstop as (y & Hy & Hys). exists y. split; [|done].
    apply Hin. right. by rewrite Hp4.
  - intros _. rewrite Es5. cbn [m_socket set_residual o4]. by rewrite Es3, Es2, Es1.
  - rewrite El5. exact Hmx3.
Qed.

(** ** Events and calls *)

Lemma StopApplication_inv o u o' : inv o -> StopApplication r o = Ok (u, o') -> inv o' /\ pend o' = [].
Proof using.
  intros [Hwf Hsz Hon Hso Hmx] E. apply StopApplication_ok in E as (Hwf' & Ha & Hp & Hu); [|done].
  split; [|done]. pose proof (account_eq _ _ Ha) as (Es & Et & El). split; [done| | | |].
  - apply (sizes_keep o); auto.
  - intros x. rewrite Hp. by intros ?%elem_of_nil.
  - by rewrite Hp.
  - by rewrite El.
Qed.

Lemma StartApplication_inv o u o' :
  inv o -> StartApplication r offTime m_peer m_local o = Ok (u, o') -> inv o'.
Proof using.
  intros [Hwf Hsz Hon Hso Hmx] E. unfold StartApplication in E. revert E. run. unfold id.
  intros (v & o1 & E1 & E)%st_bind_ok.
  assert (same_events o o1 /\ is_Some (m_socket o1) /\ m_totBytes o1 = m_totBytes o /\ a_trace o1 = a_trace o /\
          m_unsentPacket o1 = m_unsentPacket o) as (Hse & Hs1 & Et1 & El1 & Eu1).
  { destruct (m_socket o) as [s|] eqn:Es; [injection E1 as _ <-; by rewrite Es|].
    apply st_bind_ok in E1 as (s & o2 & (Hse2 & Ha2 & _ & Hu2 & _)%net_ok & E1). revert E1. run.
    intros (ret & o3 & E3 & E1)%st_bind_ok.
    assert (same_events o2 o3 /\ m_socket o3 = Some s /\ m_totBytes o3 = m_totBytes o2 /\ a_trace o3 = a_trace o2 /\
            m_unsentPacket o3 = m_unsentPacket o2) as (Hse3 & Es3 & Et3 & El3 & Eu3).
    { unfold bind_socket in E3. destruct (decide _).
      - apply st_bind_ok in E3 as (w & s1 & [_ ->]%lift_ok & E3).
        apply net_ok in E3 as (? & Ha & _ & ? & _). apply account_eq in Ha as (? & ? & ?). done.
      - destruct (kind_of m_peer); try (injection E3 as _ <-; done);
          apply net_ok in E3 as (? & Ha & _ & ? & _); apply account_eq in Ha as (? & ? & ?); done. }
    apply st_bind_ok in E1 as (w & s1 & [_ ->]%lift_ok & E1).
    apply st_bind_ok in E1 as (z1 & o4 & (Hse4 & Ha4 & _ & Hu4 & _)%net_ok & E1).
    apply st_bind_ok in E1 as (z2 & o5 & (Hse5 & Ha5 & _ & Hu5 & _)%net_ok & E1).
    apply st_bind_ok in E1 as (z3 & o6 & (Hse6 & Ha6 & _ & Hu6 & _)%net_ok & E1). injection E1 as _ <-.
    apply account_eq in Ha2 as (?&?&?), Ha4 as (?&?&?), Ha5 as (?&?&?), Ha6 as (?&?&?).
    split; [etrans; [exact Hse2|]; etrans; [exact Hse3|]; etrans; [exact Hse4|]; etrans; [exact Hse5|]; exact Hse6|].
    split; [exists s; congruence|]. split_and!; congruence. }
  revert E. run. intros (w & o2 & E2 & E)%st_bind_ok.
  apply CancelEvents_ok in E2 as (Hwf2 & Ha2 & Hp2 & Hu2 & _); [|by apply (wf_same o)].
  apply ScheduleStartEvent_ok in E as (Hwf3 & Ha3 & Hu3 & x & Hx & Hin);
    [|done|unfold no_startStop; rewrite Hp2; by intros y ?%elem_of_nil].
  apply account_eq in Ha2 as (Es2 & Et2 & El2), Ha3 as (Es3 & Et3 & El3). simpl in Es2, Et2, El2.
  split.
  - done.
  - destruct Hsz as [H1 H2 H3]. split; [by rewrite El3, El2, El1|rewrite Hu3, Hu2; done|].
    by rewrite Et3, Et2, Et1, El3, El2, El1.
  - intros y Hy Hys. apply Hin in Hy as [->|Hy]; [by rewrite Hx in Hys|]. rewrite Hp2 in Hy. by apply elem_of_nil in Hy.
  - intros _. by rewrite Es3, Es2.
  - by rewrite El3, El2, El1.
Qed.

(** What is left when an event starts to run. *)
Lemma popped_ok o h c :
  inv o -> next (a_clock o) = Some (h, c) ->
  let o1 := set_events (m_startStopEvent o) (m_sendEvent o) c o in
  wf o1 /\ sizes o1 /\ is_Some (m_socket o) /\
  match h with
  | SendPacket_ => no_send o1 /\ may_send o /\ IsExpired (m_sendEvent o) c = true /\
                   exists y, y ∈ pend o1 /\ p_handler y = StopSending_
  | StartSending_ => pend o1 = []
  | StopSending_ => True
  end.
Proof using.
  intros [[Hc Hp Hs Ht] Hsz Hon Hso Hmx] E o1.
  destruct (next_ok _ _ _ Hc E) as (Hc' & _ & Hu & x & Hx & -> & _ & Hrun & Hin).
  assert (wf o1) as Hwf1.
  { split; cbn [a_clock set_events o1 m_sendEvent m_startStopEvent]; rewrite ?Hu; try done.
    intros y Hy. apply Hp. unfold pend in *. apply Hin. by right. }
  split; [done|]. split; [by destruct Hsz|].
  split; [apply Hso; intros Hnil; unfold pend in Hnil; rewrite Hnil in Hx; by apply elem_of_nil in Hx|].
  assert (forall y, y ∈ pend o1 -> y ∈ pend o /\ p_uid y <> p_uid x) as Hout.
  { intros y Hy. split; [apply Hin; by right|]. intros Eu.
    apply not_true_iff_false in Hrun. apply Hrun, IsRunning_iff. exists y. split; [exact Hy|by rewrite Eu]. }
  pose proof (Hp x Hx) as Ex. destruct (p_handler x) eqn:Eh; cbv iota in Ex.
  - rewrite decide_False in Ex by done. destruct (pend o1) as [|y l] eqn:Ep; [done|exfalso].
    destruct (Hout y) as [Hy Hne]; [by left|]. pose proof (Hp y Hy) as Ey. destruct (decide (p_handler y = SendPacket_)) as [Es|].
    + destruct (Hon y Hy Es) as (_ & z & Hz & Ez). pose proof (Hp z Hz) as Ez'. rewrite decide_False in Ez' by (by rewrite Ez).
      rewrite Ex in Ez'. injection Ez' as Euz. assert (z = x) as -> by (by apply (uid_inj (a_clock o))).
      by rewrite Eh in Ez.
    + rewrite Ex in Ey. injection Ey as Ey. done.
  - done.
  - rewrite decide_True in Ex by done. destruct (Hon x Hx Eh) as (Hmay & y & Hy & Ey).
    split; [|split; [done|split]].
    + intros z Hz Ez. destruct (Hout z Hz) as [Hz' Hne]. pose proof (Hp z Hz') as Ez'. rewrite decide_True in Ez' by done.
      rewrite Ex in Ez'. injection Ez' as Ez'. done.
    + unfold IsExpired. by rewrite Ex, Hrun.
    + exists y. split; [|done]. unfold pend in *. apply Hin in Hy as [->|Hy]; [by rewrite Eh in Ey|done].
Qed.

Abbreviation fire_ := (fire r onTime offTime m_pktSize m_maxBytes m_peer m_enableSeqTsSizeHeader).

Lemma fire_inv o u o' : inv o -> fire_ o = Ok (u, o') -> inv o'.
Proof using Hsize Hmax Hroom.
  intros Hinv E. unfold fire in E. revert E. run. unfold id.
  destruct (next (a_clock o)) as [[h c]|] eqn:En; [|intros [= _ <-]; done]. run.
  destruct (popped_ok o h c Hinv En) as (Hwf1 & Hsz1 & Hso & Hh). pose proof (inv_max _ Hinv) as Hmx.
  destruct h; cbn [run_handler]; intros E.
  - by eapply StartSending_ok in E.
  - by eapply StopSending_ok in E.
  - destruct Hh as (Hno & Hmay & _ & Hstop). by eapply SendPacket_ok in E.
Qed.

(** The application is started and stopped, its events run, time passes, its rate
    is set and its socket connects. *)
Inductive step : O -> O -> Prop :=
| st_start o o' : StartApplication r offTime m_peer m_local o = Ok (tt, o') -> step o o'
| st_stop o o' : StopApplication r o = Ok (tt, o') -> step o o'
| st_fire o o' : fire_ o = Ok (tt, o') -> step o o'
| st_wait o d o' : 0 <= d -> (forall x, x ∈ pend o -> t_now (a_clock o) + d <= p_ts x) -> wait d o = Ok (tt, o') -> step o o'
| st_rate o rate o' : set_DataRate rate o = Ok (tt, o') -> step o o'
| st_connected o o' : ConnectionSucceeded o = Ok (tt, o') -> step o o'.

Lemma step_inv o o' : step o o' -> inv o -> inv o'.
Proof using Hsize Hmax Hroom.
  intros Hst Hinv. destruct Hst as [o o' E|o o' E|o o' E|o d o' Hd Hx E|o rate o' E|o o' E].
  - by eapply StartApplication_inv in E.
  - by eapply StopApplication_inv in E as [? _].
  - by eapply fire_inv in E.
  - injection E as <-. destruct Hinv as [[[Hs Hnd Hu Ht] Hp Hse Hss] [? ? ?] Hon Hso Hmx]. split; [|done..].
    split; [|done..]. split; [done..|]. intros x Hin. by apply Hx.
  - injection E as <-. destruct Hinv as [[? ? ? ?] [? ? ?] ? ? ?]. split; [by split|by split|done..].
  - injection E as <-. destruct Hinv as [[? ? ? ?] [? ? ?] ? ? ?]. split; [by split|by split|done..].
Qed.

Lemma new_inv rate w : inv (new_OnOff rate start w).
Proof using Hsize Hmax.
  split; [split|split|..]; try done; simpl.
  - apply timers_start_ok.
  - intros x Hx. by apply elem_of_nil in Hx.
  - intros p Hp. by apply elem_of_nil in Hp.
  - intros x Hx. by apply elem_of_nil in Hx.
  - lia.
Qed.
End spec.

(** * Properties of [OnOffApplication]

    What holds in every reachable state of an application, whatever its socket
    answers; an execution on a fast link that stops the program. *)

Section props.
Context {W A : Type} `{AppSocket W A}.
Context (r : Resolution) (onTime offTime : nat -> fp).
Context (m_pktSize m_maxBytes : Z) (m_peer m_local : A) (m_enableSeqTsSizeHeader : bool).

(** C33. Whenever the application is started and stopped, its events run, time
    passes and its rate is changed: at most one packet is scheduled to be sent and
    at most one start or stop of sending; a packet is only scheduled while a stop
    is pending and the limit is not reached; when it is sent, the event has expired,
    as the code asserts, and the socket exists.  Every packet told to the trace has
    the configured size, the count of bytes is their sum, and it exceeds a limit
    by less than one packet.  After [StopApplication] nothing is pending. *)
Theorem onoff_invariant rate w o :
  0 < m_pktSize < 2 ^ 32 -> 0 <= m_maxBytes -> m_maxBytes + m_pktSize <= 2 ^ 64 ->
  rtc (step r onTime offTime m_pktSize m_maxBytes m_peer m_local m_enableSeqTsSizeHeader) (new_OnOff rate start w) o ->
  (forall x y, x ∈ pend o -> y ∈ pend o -> (p_handler x = SendPacket_ <-> p_handler y = SendPacket_) -> x = y) /\
  (forall x, x ∈ pend o -> p_handler x = SendPacket_ ->
     (m_maxBytes = 0 \/ m_totBytes o < m_maxBytes) /\ exists y, y ∈ pend o /\ p_handler y = StopSending_) /\
  (forall c, next (a_clock o) = Some (SendPacket_, c) -> IsExpired (m_sendEvent o) c = true /\ is_Some (m_socket o)) /\
  (forall p, Tx p ∈ a_trace o -> GetSize p = m_pktSize) /\
  m_totBytes o = u64 (tx_bytes (a_trace o)) /\
  (m_maxBytes <> 0 -> m_totBytes o = tx_bytes (a_trace o) /\ m_totBytes o < m_maxBytes + m_pktSize) /\
  (forall u o', StopApplication r o = Ok (u, o') -> pend o' = []).
Proof.
  intros Hsize Hmax Hroom Hr.
  assert (inv m_pktSize m_maxBytes o) as Hinv.
  { pose proof (new_inv (A := A) m_pktSize m_maxBytes Hsize Hmax rate w) as H0.
    induction Hr as [|a b c Hab _ IH]; [done|].
    apply IH. by apply (step_inv r onTime offTime _ _ m_peer m_local m_enableSeqTsSizeHeader Hsize Hmax Hroom a). }
  pose proof Hinv as [[Hc Hp _ _] [H1 _ H3] Hon Hso Hmx]. split_and!; try done.
  - intros x y Hx Hy Hiff. apply (uid_inj (a_clock o)); [done..|]. pose proof (Hp x Hx) as Ex. pose proof (Hp y Hy) as Ey.
    destruct (decide (p_handler x = SendPacket_)) as [E|E].
    + rewrite decide_True in Ey by tauto. congruence.
    + rewrite decide_False in Ey by tauto. congruence.
  - intros c Hn. destruct (popped_ok m_pktSize m_maxBytes o SendPacket_ c Hinv Hn) as (_ & _ & Hs & _ & _ & He & _). done.
  - intros Hne. specialize (Hmx Hne). pose proof (tx_bytes_nonneg (a_trace o)).
    rewrite H3, wrap_small by (unfold in_range; lia). split; [done|lia].
  - intros u o' E. by apply (StopApplication_inv r m_pktSize m_maxBytes o u o' Hinv) in E as [_ ?].
Qed.
End props.

(** ** A concrete application

    Its socket sends whatever it is given; the network counts the packets. *)

#[export] Instance counting_socket : AppSocket nat unit := {|
  kind_of _ := Inet;
  CreateSocket := mret 0%nat;
  Bind _ _ := mret 0; BindAny _ := mret 0; Bind6 _ := mret 0; Connect _ _ := mret 0;
  SetAllowBroadcast _ _ := mret true; ShutdownRecv _ := mret 0; Close _ := mret 0;
  Send _ p := _ ← update S; mret (GetSize p);
  GetSockName _ := mret tt; GetPeerName _ := mret tt |}.

(** [n] events of an application that sends packets of 512 bytes at [rate], on for
    [on] nanoseconds and off for one second, after its start. *)
Definition nanoseconds (n : Z) : fp := fp_div binary64 (fp_of_int binary64 n) (fp_of_int binary64 1000000000).
Abbreviation fire_once on maxBytes :=
  (fire (W := nat) (A := unit) ns (fun _ => nanoseconds on) (fun _ => Finite 1 0) 512 maxBytes tt false).
Abbreviation started rate :=
  (StartApplication (W := nat) (A := unit) ns (fun _ => Finite 1 0) tt tt (new_OnOff rate start 0%nat)).
Fixpoint fires (on maxBytes : Z) (n : nat) : st (OnOff nat unit) unit :=
  match n with O => mret tt | Datatypes.S n => _ ← fire_once on maxBytes; fires on maxBytes n end.
Definition run (on maxBytes rate : Z) (n : nat) : res (unit * OnOff nat unit) :=
  match started rate with Ok (_, o) => fires on maxBytes n o | Err f => Err f end.

Lemma run_steps on maxBytes rate n o :
  run on maxBytes rate n = Ok (tt, o) ->
  rtc (step ns (fun _ => nanoseconds on) (fun _ => Finite 1 0) 512 maxBytes tt tt false) (new_OnOff rate start 0%nat) o.
Proof.
  unfold run. destruct (started rate) as [[[] o0]|] eqn:E0; [|done]. intros E.
  apply (rtc_l _ _ o0); [apply st_start; exact E0|]. clear E0. revert o0 E.
  induction n as [|n IH]; intros o0 E; [injection E as <-; apply rtc_refl|].
  cbn [fires] in E. apply st_bind_ok in E as ([] & o1 & E1 & E). apply (rtc_l _ _ o1); [apply st_fire; exact E1|exact (IH o1 E)].
Qed.

(** At 500 kb/s and with a limit of 1000 bytes it sends two packets and stops. *)
Definition two_packets : OnOff nat unit :=
  match run 1000000000 1000 500000 3 with Ok (_, o) => o | Err _ => new_OnOff 0 start 0%nat end.
Definition two_packets_run : bool := match run 1000000000 1000 500000 3 with Ok _ => true | Err _ => false end.
Lemma two_packets_ok : run 1000000000 1000 500000 3 = Ok (tt, two_packets).
Proof.
  assert (two_packets_run = true) as E by (vm_compute; reflexivity).
  unfold two_packets_run in E. unfold two_packets. destruct (run _ _ _ _) as [[[] o]|]; done.
Qed.

Lemma onoff_invariant_witness : m_totBytes two_packets = tx_bytes (a_trace two_packets) /\ m_totBytes two_packets < 1512.
Proof.
  pose proof (onoff_invariant ns (fun _ => nanoseconds 1000000000) (fun _ => Finite 1 0) 512 1000 tt tt false 500000 0%nat
    two_packets ltac:(lia) ltac:(lia) ltac:(lia) (run_steps _ _ _ _ _ two_packets_ok)) as (_ & _ & _ & _ & _ & Hmax & _).
  apply Hmax. discriminate.
Defined.

Definition outcome {B} (x : res B) : res unit := match x with Ok _ => Ok tt | Err f => Err f end.

(** At 10 Gb/s a packet takes 409.6 ns, which is rounded to 410.  If sending is to
    stop exactly when a packet is due, the stop runs first and adds the 4100 bits of
    410 ns to a residue that may not exceed the 4096 of a packet: the next start of
    sending stops the program. *)
Lemma residual_bits_abort : outcome (run 820 0 10000000000 4) = Err FatalError.
Proof. vm_compute. reflexivity. Qed.
