(* ===== verification/FlowClassifier.v ===== *)
(** * Classifying packets into flows ([src/flow-monitor/model/flow-classifier.cc],
      [ipv4-flow-classifier.cc])

    A flow is the addresses, protocol and ports of its packets.  The classifier
    numbers the flows in the order in which they appear, and the packets of a flow
    from zero. *)

From S2P Require Import Prelude Bytes Packet.
From S2P Require Ipv4Header.
Import Ipv4Header (Ipv4Header).


Record FiveTuple := mkFiveTuple {
  sourceAddress : Z; destinationAddress : Z; protocol : Z; sourcePort : Z; destinationPort : Z }.
#[export] Instance FiveTuple_eq_dec : EqDecision FiveTuple.
Proof. solve_decision. Defined.

(** [operator <] *)
Definition tuple_lt (t1 t2 : FiveTuple) : bool :=
  if sourceAddress t1 <? sourceAddress t2 then true
  else if negb (sourceAddress t1 =? sourceAddress t2) then false
  else if destinationAddress t1 <? destinationAddress t2 then true
  else if negb (destinationAddress t1 =? destinationAddress t2) then false
  else if protocol t1 <? protocol t2 then true
  else if negb (protocol t1 =? protocol t2) then false
  else if sourcePort t1 <? sourcePort t2 then true
  else if negb (sourcePort t1 =? sourcePort t2) then false
  else if destinationPort t1 <? destinationPort t2 then true
  else if negb (destinationPort t1 =? destinationPort t2) then false
  else false.
(** [operator ==] *)
Definition tuple_eq (t1 t2 : FiveTuple) : bool :=
  (sourceAddress t1 =? sourceAddress t2) && (destinationAddress t1 =? destinationAddress t2) &&
  (protocol t1 =? protocol t2) && (sourcePort t1 =? sourcePort t2) && (destinationPort t1 =? destinationPort t2).

(** [std::map<FiveTuple, FlowId>], in the order of its keys; two keys are the
    same when neither is less than the other. *)
Abbreviation flow_map := (list (FiveTuple * Z)).

Record Ipv4FlowClassifier := mkClassifier {
  m_lastNewFlowId : Z;
  m_flowMap : flow_map;
  m_flowPktIdMap : gmap Z Z;
  m_flowDscpMap : gmap Z (gmap Z Z) }.
Definition new_classifier : Ipv4FlowClassifier := mkClassifier 0 [] ∅ ∅.

(** [FlowClassifier::GetNewFlowId] *)
Definition GetNewFlowId (c : Ipv4FlowClassifier) : Z * Ipv4FlowClassifier :=
  let id := u32 (m_lastNewFlowId c + 1) in
  (id, mkClassifier id (m_flowMap c) (m_flowPktIdMap c) (m_flowDscpMap c)).

(** [m_flowMap.insert]: the value of the key that was there, and the map with the
    new key in its place if there was none. *)
Fixpoint map_find (t : FiveTuple) (m : flow_map) : option Z :=
  match m with
  | [] => None
  | (k, v) :: m' => if tuple_lt k t then map_find t m' else if tuple_lt t k then None else Some v
  end.
Fixpoint map_insert (t : FiveTuple) (id : Z) (m : flow_map) : flow_map :=
  match m with
  | [] => [(t, id)]
  | (k, v) :: m' => if tuple_lt k t then (k, v) :: map_insert t id m' else (t, id) :: m
  end.

Definition TCP_PROT_NUMBER : Z := 6.
Definition UDP_PROT_NUMBER : Z := 17.

(** [port |= hi; port <<= 8; port |= lo] *)
Definition port_of (hi lo : Z) : Z := Z.lor (u16 (Z.shiftl hi 8)) lo.

(** The first part of [Classify]: the flow of a packet, if it has one. *)
Definition five_tuple (ipHeader : Ipv4Header) (ipPayload : Packet) : option FiveTuple :=
  if 0 <? Ipv4Header.GetFragmentOffset ipHeader then None
  else
    let protocol := Ipv4Header.GetProtocol ipHeader in
    if negb (protocol =? UDP_PROT_NUMBER) && negb (protocol =? TCP_PROT_NUMBER) then None
    else if GetSize ipPayload <? 4 then None
    else match p_data ipPayload with
         | s1 :: s0 :: d1 :: d0 :: _ =>
             Some (mkFiveTuple (Ipv4Header.GetSource ipHeader) (Ipv4Header.GetDestination ipHeader)
                     protocol (port_of s1 s0) (port_of d1 d0))
         | _ => None
         end.

(** The second part: its identifiers. *)
Definition number_packet (tuple : FiveTuple) (dscp : Z) (c : Ipv4FlowClassifier) : Z * Z * Ipv4FlowClassifier :=
  let '(flow, c) :=
    match map_find tuple (m_flowMap c) with
    | None =>
        let '(newFlowId, c) := GetNewFlowId c in
        (newFlowId, mkClassifier (m_lastNewFlowId c) (map_insert tuple newFlowId (m_flowMap c))
           (<[newFlowId := 0]> (m_flowPktIdMap c))
           (<[newFlowId := default ∅ (m_flowDscpMap c !! newFlowId)]> (m_flowDscpMap c)))
    | Some id =>
        (id, mkClassifier (m_lastNewFlowId c) (m_flowMap c)
           (<[id := u32 (default 0 (m_flowPktIdMap c !! id) + 1)]> (m_flowPktIdMap c)) (m_flowDscpMap c))
    end in
  let counts := default ∅ (m_flowDscpMap c !! flow) in
  let counts := <[dscp := match counts !! dscp with None => 1 | Some n => u32 (n + 1) end]> counts in
  let c := mkClassifier (m_lastNewFlowId c) (m_flowMap c) (m_flowPktIdMap c) (<[flow := counts]> (m_flowDscpMap c)) in
  (flow, default 0 (m_flowPktIdMap c !! flow), c).

Definition Classify (ipHeader : Ipv4Header) (ipPayload : Packet) (c : Ipv4FlowClassifier)
  : option (Z * Z) * Ipv4FlowClassifier :=
  match five_tuple ipHeader ipPayload with
  | None => (None, c)
  | Some tuple =>
      let '(flow, packet, c) := number_packet tuple (Ipv4Header.GetDscp ipHeader) c in
      (Some (flow, packet), c)
  end.

Definition FindFlow (flowId : Z) (c : Ipv4FlowClassifier) : res FiveTuple :=
  match List.find (fun x => x.2 =? flowId) (m_flowMap c) with
  | Some x => mret x.1
  | None => Err FatalError
  end.

(** [SortByCount] *)
Definition by_count (left right : Z * Z) : Prop := right.2 <= left.2.
#[export] Instance by_count_dec left right : Decision (by_count left right).
Proof. unfold by_count. apply _. Defined.

(** The flow's counts, largest first; [std::sort] leaves the order of equal counts
    open, here it is that of the sort. *)
Definition GetDscpCounts (flowId : Z) (c : Ipv4FlowClassifier) : res (list (Z * Z)) :=
  match m_flowDscpMap c !! flowId with
  | None => Err FatalError
  | Some m => mret (merge_sort by_count (map_to_list m))
  end.

(** * The classifier numbers flows and packets in order

    [represents c seen]: the classifier after the packets [seen], each given by its
    flow and DSCP.  The identifiers it gave are a function of that list. *)

(** ** The map of flows *)

Definition tuple_less (a b : FiveTuple) : Prop :=
  sourceAddress a < sourceAddress b \/ sourceAddress a = sourceAddress b /\
  (destinationAddress a < destinationAddress b \/ destinationAddress a = destinationAddress b /\
  (protocol a < protocol b \/ protocol a = protocol b /\
  (sourcePort a < sourcePort b \/ sourcePort a = sourcePort b /\ destinationPort a < destinationPort b))).

Lemma tuple_lt_spec a b : tuple_lt a b = true <-> tuple_less a b.
Proof.
  destruct a as [a1 a2 a3 a4 a5], b as [b1 b2 b3 b4 b5]. unfold tuple_lt, tuple_less. simpl.
  repeat (case_match; bool_to_Z); split; intros; first [done|lia].
Qed.
Lemma tuple_lt_irrefl a : tuple_lt a a = false.
Proof. apply not_true_is_false. rewrite tuple_lt_spec. unfold tuple_less. lia. Qed.
Lemma tuple_lt_trans a b c : tuple_lt a b = true -> tuple_lt b c = true -> tuple_lt a c = true.
Proof. rewrite !tuple_lt_spec. unfold tuple_less. lia. Qed.
Lemma tuple_lt_total a b : tuple_lt a b = false -> tuple_lt b a = false -> a = b.
Proof.
  rewrite <- !not_true_iff_false, !tuple_lt_spec. unfold tuple_less. destruct a, b. simpl. intros. f_equal; lia.
Qed.
Lemma tuple_lt_asym a b : tuple_lt a b = true -> tuple_lt b a = false.
Proof. rewrite <- not_true_iff_false, !tuple_lt_spec. unfold tuple_less. lia. Qed.

Definition keys_sorted (m : flow_map) : Prop := StronglySorted (fun x y => tuple_lt x.1 y.1 = true) m.

Lemma map_find_spec m t v : keys_sorted m -> map_find t m = Some v <-> (t, v) ∈ m.
Proof.
  unfold keys_sorted. induction m as [|[k w] m IH]; intros Hs; cbn [map_find].
  { split; [done|]. by intros ?%elem_of_nil. }
  apply StronglySorted_cons in Hs as [Hk Hs]. rewrite Forall_forall in Hk. rewrite elem_of_cons.
  destruct (tuple_lt k t) eqn:E1; [|destruct (tuple_lt t k) eqn:E2].
  - rewrite IH by done. split; [by right|]. intros [[= -> ->]|]; [by rewrite tuple_lt_irrefl in E1|done].
  - split; [done|]. intros [[= -> ->]|Hin]; [by rewrite tuple_lt_irrefl in E2|].
    specialize (Hk _ Hin). simpl in Hk. by rewrite (tuple_lt_asym _ _ Hk) in E2 || (rewrite Hk in E1).
  - pose proof (tuple_lt_total _ _ E1 E2) as ->. split; [intros [= ->]; by left|].
    intros [[= ->]|Hin]; [done|]. specialize (Hk _ Hin). simpl in Hk. by rewrite tuple_lt_irrefl in Hk.
Qed.

Lemma map_find_none m t : keys_sorted m -> map_find t m = None -> forall v, (t, v) ∉ m.
Proof. intros Hs E v Hin. apply map_find_spec in Hin; [congruence|done]. Qed.

Lemma map_insert_elem m t v x : x ∈ map_insert t v m <-> x = (t, v) \/ x ∈ m.
Proof.
  induction m as [|[k w] m IH]; cbn [map_insert]; [rewrite list_elem_of_singleton, elem_of_nil; tauto|].
  destruct (tuple_lt k t); rewrite !elem_of_cons, ?IH; tauto.
Qed.
Lemma map_insert_sorted m t v : keys_sorted m -> map_find t m = None -> keys_sorted (map_insert t v m).
Proof.
  unfold keys_sorted. induction m as [|[k w] m IH]; intros Hs E; cbn [map_insert map_find] in *; [repeat constructor|].
  pose proof Hs as Hs0. apply StronglySorted_cons in Hs as [Hk Hs]. pose proof Hk as Hk'. rewrite Forall_forall in Hk.
  destruct (tuple_lt k t) eqn:E1; [|destruct (tuple_lt t k) eqn:E2; [|done]].
  - apply StronglySorted_cons. split; [|by apply IH]. apply Forall_forall.
    intros x [->|Hx]%map_insert_elem; [done|by apply Hk].
  - apply StronglySorted_cons. split; [|done]. apply Forall_cons. split; [done|].
    eapply Forall_impl; [exact Hk'|]. simpl. intros x Hx. by eapply tuple_lt_trans.
Qed.

(** ** The flows in order of appearance *)

Definition add_flow (acc : list FiveTuple) (t : FiveTuple) : list FiveTuple :=
  if decide (t ∈ acc) then acc else acc ++ [t].
Definition flows_of (ts : list FiveTuple) : list FiveTuple := foldl add_flow [] ts.

Lemma flows_of_snoc ts t : flows_of (ts ++ [t]) = add_flow (flows_of ts) t.
Proof. unfold flows_of. by rewrite foldl_app. Qed.
Lemma flows_of_nodup ts : NoDup (flows_of ts).
Proof.
  induction ts as [|t ts IH] using rev_ind; [constructor|]. rewrite flows_of_snoc. unfold add_flow.
  case_decide; [done|]. apply NoDup_app. split; [done|]. split; [|apply NoDup_singleton].
  intros x Hx ->%list_elem_of_singleton. done.
Qed.
Lemma elem_of_flows_of ts t : t ∈ flows_of ts <-> t ∈ ts.
Proof.
  induction ts as [|u ts IH] using rev_ind; [done|]. rewrite flows_of_snoc, elem_of_app, list_elem_of_singleton. unfold add_flow.
  case_decide; rewrite ?elem_of_app, ?list_elem_of_singleton, IH; [|tauto].
  split; [tauto|]. intros [?| ->]; [done|]. by apply IH.
Qed.
Lemma flows_of_length ts : (length (flows_of ts) <= length ts)%nat.
Proof.
  induction ts as [|t ts IH] using rev_ind; [done|]. rewrite flows_of_snoc, length_app. unfold add_flow.
  case_decide; rewrite ?length_app; simpl; lia.
Qed.

(** ** Counting *)

Abbreviation packets := (list (FiveTuple * Z)).
Definition count_flow (t : FiveTuple) (seen : packets) : Z := Z.of_nat (length (filter (fun x => x.1 = t) seen)).
Definition count_dscp (t : FiveTuple) (d : Z) (seen : packets) : Z := Z.of_nat (length (filter (fun x => x = (t, d)) seen)).

Lemma count_flow_snoc t x seen : count_flow t (seen ++ [x]) = count_flow t seen + (if decide (x.1 = t) then 1 else 0).
Proof. unfold count_flow. rewrite filter_app, length_app, filter_cons. case_decide; simpl; lia. Qed.
Lemma count_dscp_snoc t d x seen : count_dscp t d (seen ++ [x]) = count_dscp t d seen + (if decide (x = (t, d)) then 1 else 0).
Proof. unfold count_dscp. rewrite filter_app, length_app, filter_cons. case_decide; simpl; lia. Qed.
Lemma count_flow_pos t seen : 0 < count_flow t seen <-> t ∈ seen.*1.
Proof.
  unfold count_flow. rewrite list_elem_of_fmap. split.
  - intros Hl. destruct (filter _ seen) as [|x l] eqn:E; [simpl in Hl; lia|].
    assert (x ∈ filter (fun x => x.1 = t) seen) as [<- Hx]%list_elem_of_filter by (rewrite E; by left). by exists x.
  - intros (x & -> & Hx). destruct (filter _ seen) as [|y l] eqn:E; [|simpl; lia].
    assert (x ∈ filter (fun y => y.1 = x.1) seen) as Hin by by apply list_elem_of_filter.
    rewrite E in Hin. by apply elem_of_nil in Hin.
Qed.
Lemma count_flow_bound t seen : count_flow t seen <= Z.of_nat (length seen).
Proof. unfold count_flow. pose proof (length_filter (fun x => x.1 = t) seen). lia. Qed.
Lemma count_dscp_bound t d seen : 0 <= count_dscp t d seen <= Z.of_nat (length seen).
Proof. unfold count_dscp. pose proof (length_filter (fun x => x = (t, d)) seen). lia. Qed.

(** ** The classifier after the packets [seen] *)

Record represents (c : Ipv4FlowClassifier) (seen : packets) : Prop := {
  rp_last : m_lastNewFlowId c = Z.of_nat (length (flows_of seen.*1));
  rp_sorted : keys_sorted (m_flowMap c);
  rp_find t f : (t, f) ∈ m_flowMap c <-> exists i, flows_of seen.*1 !! i = Some t /\ f = Z.of_nat i + 1;
  rp_packets i t : flows_of seen.*1 !! i = Some t -> m_flowPktIdMap c !! (Z.of_nat i + 1) = Some (count_flow t seen - 1);
  rp_dscp i t : flows_of seen.*1 !! i = Some t -> exists m, m_flowDscpMap c !! (Z.of_nat i + 1) = Some m /\
    forall d, m !! d = (if decide (count_dscp t d seen = 0) then None else Some (count_dscp t d seen));
  rp_fresh f : Z.of_nat (length (flows_of seen.*1)) < f -> m_flowDscpMap c !! f = None }.

Lemma represents_new : represents new_classifier [].
Proof.
  split; simpl; [done|constructor|..]; try done.
  intros t f. split; [by intros ?%elem_of_nil|by intros (i & ? & _)].
Qed.

(** Where a flow stands in the list. *)
Lemma flow_index ts t : t ∈ ts -> exists i, flows_of ts !! i = Some t.
Proof. intros Ht. apply list_elem_of_lookup. by apply elem_of_flows_of. Qed.
Lemma flow_index_unique ts i j t : flows_of ts !! i = Some t -> flows_of ts !! j = Some t -> i = j.
Proof. apply NoDup_lookup, flows_of_nodup. Qed.

Lemma find_known c seen i t :
  represents c seen -> flows_of seen.*1 !! i = Some t -> map_find t (m_flowMap c) = Some (Z.of_nat i + 1).
Proof. intros R Hi. apply map_find_spec; [apply R|]. apply (rp_find _ _ R). by exists i. Qed.
Lemma find_unknown c seen t : represents c seen -> t ∉ seen.*1 -> map_find t (m_flowMap c) = None.
Proof.
  intros R Ht. destruct (map_find t (m_flowMap c)) eqn:E; [|done]. exfalso.
  apply map_find_spec in E; [|apply R]. apply (rp_find _ _ R) in E as (i & Hi & _).
  apply Ht, elem_of_flows_of, list_elem_of_lookup. by exists i.
Qed.

(** A packet of a flow that was seen. *)
Lemma number_known c seen i t d :
  represents c seen -> Z.of_nat (length seen) < 2 ^ 32 - 1 -> flows_of seen.*1 !! i = Some t ->
  exists c', number_packet t d c = (Z.of_nat i + 1, count_flow t seen, c') /\ represents c' (seen ++ [(t, d)]).
Proof.
  intros R Hl Hi. unfold number_packet. rewrite (find_known _ _ _ _ R Hi). cbn zeta. cbn [m_flowPktIdMap m_flowDscpMap].
  rewrite (rp_packets _ _ R _ _ Hi). cbn [from_option id].
  destruct (rp_dscp _ _ R _ _ Hi) as (m & Em & Hm). rewrite Em. cbn [from_option id].
  assert (flows_of (seen ++ [(t, d)]).*1 = flows_of seen.*1) as Hfl.
  { rewrite fmap_app. simpl. rewrite flows_of_snoc. unfold add_flow. rewrite decide_True; [done|].
    apply list_elem_of_lookup. by exists i. }
  pose proof (count_flow_bound t seen) as Hb. assert (0 < count_flow t seen) as Hpos.
  { apply count_flow_pos, elem_of_flows_of, list_elem_of_lookup. by exists i. }
  rewrite wrap_small by (unfold in_range; lia). rewrite lookup_insert_eq. cbn [from_option id]. eexists. split; [do 2 f_equal; lia|].
  split; cbn [m_lastNewFlowId m_flowMap m_flowPktIdMap m_flowDscpMap]; rewrite ?Hfl; [apply R..| | |].
  - intros j u Hj. rewrite count_flow_snoc. simpl. destruct (decide (i = j)) as [<-|Hne].
    + rewrite Hi in Hj. injection Hj as ->. rewrite lookup_insert_eq, decide_True by done. f_equal. lia.
    + rewrite lookup_insert_ne, (rp_packets _ _ R _ _ Hj) by lia. rewrite decide_False; [f_equal; lia|].
      intros ->. apply Hne. by eapply flow_index_unique.
  - intros j u Hj. destruct (decide (i = j)) as [<-|Hne].
    + rewrite Hi in Hj. injection Hj as ->. rewrite lookup_insert_eq. eexists. split; [done|]. intros e.
      rewrite count_dscp_snoc, Hm. pose proof (count_dscp_bound u d seen). pose proof (count_dscp_bound u e seen).
      destruct (decide (d = e)) as [<-|Hde].
      * rewrite lookup_insert_eq, (decide_True (P := (u, d) = _)) by done. rewrite (decide_False (P := _ + 1 = 0)) by lia.
        case_decide as Hz; [by rewrite Hz|]. rewrite wrap_small by (unfold in_range; lia). done.
      * rewrite lookup_insert_ne, Hm by done. rewrite (decide_False (P := (u, d) = _)) by congruence. by rewrite Z.add_0_r.
    + rewrite lookup_insert_ne by lia. destruct (rp_dscp _ _ R _ _ Hj) as (m' & ? & Hm'). exists m'. split; [done|].
      intros e. rewrite Hm', count_dscp_snoc, (decide_False (P := (t, d) = _)), Z.add_0_r; [done|].
      intros [= -> _]. apply Hne. by eapply flow_index_unique.
  - intros f Hf. rewrite lookup_insert_ne; [by apply R|]. apply lookup_lt_Some in Hi. lia.
Qed.

(** The first packet of a flow. *)
Lemma number_new c seen t d :
  represents c seen -> Z.of_nat (length seen) < 2 ^ 32 - 1 -> t ∉ seen.*1 ->
  exists c', number_packet t d c = (Z.of_nat (length (flows_of seen.*1)) + 1, 0, c') /\ represents c' (seen ++ [(t, d)]).
Proof.
  intros R Hl Ht. unfold number_packet, GetNewFlowId. rewrite (find_unknown _ _ _ R Ht), (rp_last _ _ R). cbn zeta.
  cbn [m_flowPktIdMap m_flowDscpMap m_flowMap m_lastNewFlowId].
  pose proof (flows_of_length seen.*1) as Hfl. rewrite length_fmap in Hfl.
  rewrite wrap_small by (unfold in_range; lia). set (n := length (flows_of seen.*1)) in *.
  rewrite (rp_fresh _ _ R) by lia. cbn [from_option id]. rewrite !lookup_insert_eq. cbn [from_option id]. rewrite lookup_empty.
  assert (flows_of (seen ++ [(t, d)]).*1 = flows_of seen.*1 ++ [t]) as Hsn.
  { rewrite fmap_app. simpl. rewrite flows_of_snoc. unfold add_flow. rewrite decide_False; [done|]. by rewrite elem_of_flows_of. }
  assert (count_flow t seen = 0) as Hz.
  { assert (~ 0 < count_flow t seen) by by rewrite count_flow_pos. unfold count_flow in *. lia. }
  assert (forall e, count_dscp t e seen = 0) as Hzd.
  { intros e. unfold count_dscp. destruct (filter _ seen) as [|x l] eqn:E; [done|]. exfalso. apply Ht.
    assert (x ∈ filter (fun x => x = (t, e)) seen) as [-> Hx]%list_elem_of_filter by (rewrite E; by left).
    apply list_elem_of_fmap. by exists (t, e). }
  assert (forall j u, (flows_of seen.*1 ++ [t]) !! j = Some u ->
    (j = n /\ u = t) \/ (j <> n /\ flows_of seen.*1 !! j = Some u /\ u <> t)) as Hcase.
  { intros j u [Hj|[Hj Hu]]%lookup_app_Some.
    - right. split; [apply lookup_lt_Some in Hj; unfold n; lia|]. split; [done|]. intros ->. apply Ht.
      apply elem_of_flows_of, list_elem_of_lookup. by exists j.
    - apply list_lookup_singleton_Some in Hu as [Hu <-]. left. split; [unfold n; lia|done]. }
  eexists. split; [reflexivity|].
  split; cbn [m_lastNewFlowId m_flowMap m_flowPktIdMap m_flowDscpMap]; rewrite ?Hsn.
  - rewrite length_app. simpl. lia.
  - apply map_insert_sorted; [apply R|]. by eapply find_unknown.
  - intros u f. rewrite map_insert_elem, (rp_find _ _ R). split.
    + intros [[= -> ->]|(i & Hi & ->)].
      * exists n. split; [by rewrite lookup_app_r, Nat.sub_diag by done|lia].
      * exists i. split; [by apply lookup_app_l_Some|done].
    + intros (i & [(-> & ->)|(_ & Hi & _)]%Hcase & ->); [left; f_equal; lia|right; by exists i].
  - intros j u [(-> & ->)|(Hj & Hu & Hne)]%Hcase; rewrite count_flow_snoc; simpl.
    + rewrite lookup_insert_eq, decide_True by done. f_equal. lia.
    + rewrite lookup_insert_ne, (rp_packets _ _ R _ _ Hu), decide_False by (first [lia|congruence]). f_equal. lia.
  - intros j u [(-> & ->)|(Hj & Hu & Hne)]%Hcase.
    + rewrite lookup_insert_eq. eexists. split; [done|]. intros e. rewrite count_dscp_snoc, Hzd.
      destruct (decide (d = e)) as [<-|He].
      * by rewrite lookup_insert_eq, (decide_True (P := (t, d) = _)).
      * rewrite lookup_insert_ne, lookup_empty, (decide_False (P := (t, d) = _)) by congruence. done.
    + rewrite !lookup_insert_ne by lia. destruct (rp_dscp _ _ R _ _ Hu) as (m & ? & Hm). exists m. split; [done|].
      intros e. by rewrite Hm, count_dscp_snoc, (decide_False (P := (t, d) = _)), Z.add_0_r by congruence.
  - intros f Hf. rewrite length_app in Hf. simpl in Hf. rewrite !lookup_insert_ne by lia. apply R. lia.
Qed.

Lemma number_packet_ok c seen t d :
  represents c seen -> Z.of_nat (length seen) < 2 ^ 32 - 1 ->
  exists i c', number_packet t d c = (Z.of_nat i + 1, count_flow t seen, c') /\
    represents c' (seen ++ [(t, d)]) /\ flows_of (seen ++ [(t, d)]).*1 !! i = Some t.
Proof.
  intros R Hl. rewrite fmap_app. simpl. rewrite flows_of_snoc. unfold add_flow. case_decide as Ht.
  - apply list_elem_of_lookup in Ht as [i Hi]. destruct (number_known c seen i t d R Hl Hi) as (c' & ? & ?). by exists i, c'.
  - assert (t ∉ seen.*1) as Hn by by rewrite <- elem_of_flows_of.
    destruct (number_new c seen t d R Hl Hn) as (c' & E & ?). exists (length (flows_of seen.*1)), c'.
    split_and!; [|done|by rewrite lookup_app_r, Nat.sub_diag by done]. rewrite E. do 2 f_equal.
    assert (~ 0 < count_flow t seen) by by rewrite count_flow_pos. unfold count_flow in *. lia.
Qed.

(** ** Sequences of packets *)

Fixpoint classify_all (ps : list (Ipv4Header * Packet)) (c : Ipv4FlowClassifier)
  : list (option (Z * Z)) * Ipv4FlowClassifier :=
  match ps with
  | [] => ([], c)
  | (h, p) :: ps => let '(out, c) := Classify h p c in let '(outs, c) := classify_all ps c in (out :: outs, c)
  end.

(** The flow and DSCP of the packets that have one. *)
Definition flow_packet (x : Ipv4Header * Packet) : option (FiveTuple * Z) :=
  t ← five_tuple x.1 x.2; Some (t, Ipv4Header.GetDscp x.1).
Definition seen_of (ps : list (Ipv4Header * Packet)) : packets := omap flow_packet ps.

(** The identifiers of one packet after the packets [seen]. *)
Definition identified (seen all : packets) (x : Ipv4Header * Packet) (out : option (Z * Z)) : Prop :=
  match five_tuple x.1 x.2 with
  | None => out = None
  | Some t => exists i, out = Some (Z.of_nat i + 1, count_flow t seen) /\ flows_of all.*1 !! i = Some t
  end.

Lemma Classify_ok h p c seen :
  represents c seen -> Z.of_nat (length seen) < 2 ^ 32 - 1 ->
  exists out c', Classify h p c = (out, c') /\ represents c' (seen ++ seen_of [(h, p)]) /\
    identified seen (seen ++ seen_of [(h, p)]) (h, p) out.
Proof.
  intros R Hl. unfold Classify, identified, seen_of, flow_packet. cbn [omap list_omap fst snd].
  destruct (five_tuple h p) as [t|]; simpl.
  - destruct (number_packet_ok c seen t (Ipv4Header.GetDscp h) R Hl) as (i & c' & -> & ? & ?).
    exists (Some (Z.of_nat i + 1, count_flow t seen)), c'. split_and!; [done..|by exists i].
  - rewrite app_nil_r. by exists None, c.
Qed.

Lemma flows_of_prefix ts us : exists l, flows_of (ts ++ us) = flows_of ts ++ l.
Proof.
  induction us as [|u us IH] using rev_ind; [exists []; by rewrite !app_nil_r|].
  destruct IH as (l & IH). rewrite app_assoc, flows_of_snoc, IH. unfold add_flow. case_decide; [by exists l|].
  exists (l ++ [u]). by rewrite <- app_assoc.
Qed.
Lemma identified_mono seen all more x out : identified seen all x out -> identified seen (all ++ more) x out.
Proof.
  unfold identified. destruct (five_tuple _ _); [|done]. intros (i & E & Hi). exists i. split; [done|].
  rewrite fmap_app. destruct (flows_of_prefix all.*1 more.*1) as (l & ->). by apply lookup_app_l_Some.
Qed.
Lemma seen_of_app ps qs : seen_of (ps ++ qs) = seen_of ps ++ seen_of qs.
Proof. unfold seen_of. by rewrite omap_app. Qed.
Lemma seen_of_length ps : (length (seen_of ps) <= length ps)%nat.
Proof. induction ps as [|x ps IH]; [done|]. unfold seen_of in *. unfold omap in *. simpl. destruct (flow_packet x); simpl; lia. Qed.

Lemma classify_all_ok ps : forall c done_,
  represents c (seen_of done_) -> Z.of_nat (length (done_ ++ ps)) < 2 ^ 32 - 1 ->
  exists outs c', classify_all ps c = (outs, c') /\ represents c' (seen_of (done_ ++ ps)) /\
    forall i x, ps !! i = Some x -> exists out, outs !! i = Some out /\
      identified (seen_of (done_ ++ take i ps)) (seen_of (done_ ++ ps)) x out.
Proof.
  induction ps as [|[h p] ps IH]; intros c done_ R Hl; cbn [classify_all].
  { rewrite app_nil_r. by exists [], c. }
  rewrite length_app in Hl. simpl in Hl. pose proof (seen_of_length done_).
  destruct (Classify_ok h p c _ R ltac:(lia)) as (out & c1 & -> & R1 & Ho).
  rewrite <- seen_of_app in R1, Ho.
  destruct (IH c1 (done_ ++ [(h, p)]) R1) as (outs & c2 & -> & R2 & H2).
  { rewrite !length_app. simpl. lia. }
  rewrite <- app_assoc in R2. exists (out :: outs), c2. split_and!; [done..|].
  intros [|i] x Hi; simpl in Hi.
  - injection Hi as <-. exists out. split; [done|]. simpl. rewrite app_nil_r.
    change ((h, p) :: ps) with ([(h, p)] ++ ps). rewrite app_assoc, seen_of_app. by apply identified_mono.
  - destruct (H2 i x Hi) as (o & ? & Hx). exists o. split; [done|]. simpl.
    change ((h, p) :: take i ps) with ([(h, p)] ++ take i ps). change ((h, p) :: ps) with ([(h, p)] ++ ps).
    by rewrite !(app_assoc done_).
Qed.

(** [FindFlow] is the inverse of the numbering. *)
Lemma FindFlow_ok c seen i t : represents c seen -> flows_of seen.*1 !! i = Some t -> FindFlow (Z.of_nat i + 1) c = Ok t.
Proof.
  intros R Hi. unfold FindFlow. destruct (List.find _ (m_flowMap c)) as [[u f]|] eqn:E.
  - apply List.find_some in E as [Hin Hf]. simpl in Hf. bool_to_Z. apply list_elem_of_In, (rp_find _ _ R) in Hin as (j & Hj & ->).
    assert (j = i) as -> by lia. rewrite Hi in Hj. by injection Hj as ->.
  - exfalso. assert ((t, Z.of_nat i + 1) ∈ m_flowMap c) as Hin by (apply (rp_find _ _ R); by exists i).
    apply list_elem_of_In, (List.find_none _ _ E) in Hin. simpl in Hin. bool_to_Z. lia.
Qed.
Lemma GetDscpCounts_ok c seen i t :
  represents c seen -> flows_of seen.*1 !! i = Some t ->
  exists v, GetDscpCounts (Z.of_nat i + 1) c = Ok v /\ Sorted by_count v /\
    forall d n, (d, n) ∈ v <-> n = count_dscp t d seen /\ 0 < n.
Proof.
  intros R Hi. unfold GetDscpCounts. destruct (rp_dscp _ _ R _ _ Hi) as (m & -> & Hm).
  eexists. split; [done|]. split.
  - apply Sorted_merge_sort. intros x y. unfold by_count. lia.
  - intros d n. rewrite (merge_sort_Permutation by_count). rewrite elem_of_map_to_list, Hm.
    pose proof (count_dscp_bound t d seen). case_decide; split; [done|lia|intros [= <-]; lia|by intros [-> ?]].
Qed.

(** The classifier numbers the flows 1, 2, ... in the order in which they
    first appear, and the packets of each flow 0, 1, ...; [FindFlow] gives back
    the flow of a number, and [GetDscpCounts] how many of its packets had each
    DSCP, the largest count first.  Fragments other than the first, packets that
    are not TCP or UDP and packets too short for the ports get no number. *)
Theorem flows_numbered ps outs c :
  classify_all ps new_classifier = (outs, c) -> Z.of_nat (length ps) < 2 ^ 32 - 1 ->
  forall i x, ps !! i = Some x ->
  match five_tuple x.1 x.2 with
  | None => outs !! i = Some None
  | Some t => exists f,
      flows_of (seen_of ps).*1 !! f = Some t /\
      outs !! i = Some (Some (Z.of_nat f + 1, count_flow t (seen_of (take i ps)))) /\
      FindFlow (Z.of_nat f + 1) c = Ok t /\
      exists v, GetDscpCounts (Z.of_nat f + 1) c = Ok v /\ Sorted by_count v /\
        forall d n, ((d, n) ∈ v) <-> (n = count_dscp t d (seen_of ps) /\ 0 < n)
  end.
Proof.
  intros E Hl i x Hi. destruct (classify_all_ok ps new_classifier [] represents_new Hl) as (o & c' & E' & R & H).
  rewrite E in E'. injection E' as <- <-. destruct (H i x Hi) as (out & Ho & Hx). unfold identified in Hx.
  destruct (five_tuple x.1 x.2) as [t|]; [|by subst]. destruct Hx as (f & -> & Hf). exists f.
  split_and!; [done|done|by eapply FindFlow_ok|by apply GetDscpCounts_ok].
Qed.

(** ** Three packets of two flows *)

Definition datagram (src port : Z) : Ipv4Header * Packet :=
  (Ipv4Header.set_fields false 8 0 0x20 64 17 0 0 src 0x0a000002 Ipv4Header.new_Ipv4Header,
   mkPacket 0 [byte_at 8 port; byte_at 0 port; 0; 9; 0; 8; 0; 0]).
Definition three_datagrams := [datagram 0x0a000001 1000; datagram 0x0a000003 1000; datagram 0x0a000001 1000].
Lemma flows_numbered_witness :
  (classify_all three_datagrams new_classifier).1 = [Some (1, 0); Some (2, 0); Some (1, 1)] /\
  exists f, flows_of (seen_of three_datagrams).*1 !! f = Some (mkFiveTuple 0x0a000001 0x0a000002 17 1000 9) /\
    FindFlow (Z.of_nat f + 1) (classify_all three_datagrams new_classifier).2 = Ok (mkFiveTuple 0x0a000001 0x0a000002 17 1000 9).
Proof.
  split; [vm_compute; reflexivity|].
  destruct (flows_numbered three_datagrams _ _ (surjective_pairing _) ltac:(vm_compute; reflexivity)
    2%nat (datagram 0x0a000001 1000) eq_refl) as (f & Hf & _ & Hx & _).
  by exists f.
Defined.
