(* ===== verification/FlowMonitor.v ===== *)
(** * Monitoring flows ([src/flow-monitor/model/flow-monitor.cc], [flow-probe.cc],
      [ipv4-flow-probe.cc], [src/flow-monitor/helper/flow-monitor-helper.cc])

    The monitor tracks the packets of the flows between the probe that sees them
    first and the one that delivers or drops them; a packet that no probe reports
    for too long is lost.  A probe is its index in [m_flowProbes].  The calls of the
    simulator go to the monitor's own clock ([Timers]).  Of the byte tags of a packet
    the probes use the first one of theirs, which is an argument here. *)

From S2P Require Import Prelude Bytes Packet FloatingPoint Timers FlowClassifier.
From S2P Require NsTime Int64x64.
Import NsTime (Resolution, Time_add, Time_sub, Seconds, GetSeconds, GetNanoSeconds).

(** ** Histograms ([src/stats/model/histogram.cc])

    Counts in bins of one width, added as values need them. *)

(** [std::floor] *)
Definition fp_floor (x : fp) : option Z :=
  match x with Finite m e => Some (up e m / down e) | NotFinite => None end.

Record Histogram := mkHistogram { m_histogram : list Z; m_binWidth : fp }.

Definition new_Histogram (binWidth : fp) : Histogram := mkHistogram [] binWidth.
Definition GetNBins (h : Histogram) : Z := u32 (Z.of_nat (length (m_histogram h))).
Definition GetBinStart (index : Z) (h : Histogram) : fp := fp_mul binary64 (fp_of_int binary64 index) (m_binWidth h).
Definition GetBinEnd (index : Z) (h : Histogram) : fp := fp_mul binary64 (fp_of_int binary64 (u32 (index + 1))) (m_binWidth h).
Definition GetBinWidth (index : Z) (h : Histogram) : fp := m_binWidth h.
Definition SetDefaultBinWidth (binWidth : fp) (h : Histogram) : res Histogram :=
  _ ← ns_assert (Z.of_nat (length (m_histogram h)) =? 0); mret (mkHistogram (m_histogram h) binWidth).
Definition GetBinCount (index : Z) (h : Histogram) : res Z :=
  _ ← ns_assert (index <? Z.of_nat (length (m_histogram h))); deref (m_histogram h !! Z.to_nat index).

(** [std::vector::resize (n, 0)] *)
Definition resize (n : Z) (l : list Z) : list Z :=
  take (Z.to_nat n) l ++ replicate (Z.to_nat n - length l) 0.

(** [(uint32_t) std::floor (value / m_binWidth)]: the conversion is undefined for
    a quotient that is negative or too large. *)
Definition bin_index (value binWidth : fp) : res Z :=
  match fp_floor (fp_div binary64 value binWidth) with
  | Some n => if (0 <=? n) && (n <? 2 ^ 32) then Ok n else Err UndefinedBehaviour
  | None => Err UndefinedBehaviour
  end.

Definition AddValue (value : fp) (h : Histogram) : res Histogram :=
  index ← bin_index value (m_binWidth h);
  let bins := if Z.of_nat (length (m_histogram h)) <=? index then resize (u32 (index + 1)) (m_histogram h)
              else m_histogram h in
  n ← deref (bins !! Z.to_nat index);
  mret (mkHistogram (<[Z.to_nat index := u32 (n + 1)]> bins) (m_binWidth h)).

(** ** The number of values *)

Definition total (h : Histogram) : Z := foldr Z.add 0 (m_histogram h).

Lemma sum_insert l i x y : l !! i = Some x -> foldr Z.add 0 (<[i := y]> l) = foldr Z.add 0 l - x + y.
Proof.
  revert i. induction l as [|z l IH]; intros [|i] E; try done; simpl in *.
  - injection E as ->. lia.
  - rewrite (IH i E). lia.
Qed.
Lemma sum_zeros n : foldr Z.add 0 (replicate n 0) = 0.
Proof. induction n; simpl; lia. Qed.
Lemma sum_app l k : foldr Z.add 0 (l ++ k) = foldr Z.add 0 l + foldr Z.add 0 k.
Proof. induction l; simpl; lia. Qed.
Lemma sum_bound l i x : Forall (fun y => 0 <= y) l -> l !! i = Some x -> 0 <= x <= foldr Z.add 0 l.
Proof.
  intros Hl. revert i. induction Hl as [|y l Hy Hl IH]; intros [|i] E; try done; simpl in *.
  - injection E as ->. assert (0 <= foldr Z.add 0 l) by (clear - Hl; induction Hl; simpl; lia). lia.
  - specialize (IH i E). lia.
Qed.

Lemma resize_larger n l : Z.of_nat (length l) <= n -> resize n l = l ++ replicate (Z.to_nat n - length l) 0.
Proof. intros Hn. unfold resize. by rewrite take_ge by lia. Qed.
Lemma resize_length n l : 0 <= n -> Z.of_nat (length (resize n l)) = n.
Proof. intros Hn. unfold resize. rewrite length_app, length_take, length_replicate. lia. Qed.

(** The counts are not negative. *)
Definition counts (h : Histogram) : Prop := Forall (fun x => 0 <= x) (m_histogram h).

(** A value goes to the bin of its quotient by the width: it is counted there, and
    nothing else changes. *)
Lemma AddValue_ok value h index :
  counts h -> total h < 2 ^ 32 - 1 -> bin_index value (m_binWidth h) = Ok index -> index < 2 ^ 32 - 1 ->
  exists h', AddValue value h = Ok h' /\ counts h' /\ total h' = total h + 1 /\ m_binWidth h' = m_binWidth h /\
    forall i, default 0 (m_histogram h' !! i) =
      default 0 (m_histogram h !! i) + (if decide (i = Z.to_nat index) then 1 else 0).
Proof.
  intros Hc Ht Hi Hx. unfold AddValue. rewrite Hi. cbn [mbind res_bind].
  assert (0 <= index) as H0.
  { unfold bin_index in Hi. destruct (fp_floor _) as [n|]; [|done]. destruct (_ && _) eqn:E; [|done].
    injection Hi as <-. bool_to_Z. lia. }
  set (bins := if _ <=? index then _ else _).
  assert (exists n, bins = m_histogram h ++ replicate n 0 /\ (Z.to_nat index < length bins)%nat) as (n & Hb & Hl).
  { unfold bins. destruct (Z.leb_spec (Z.of_nat (length (m_histogram h))) index).
    - rewrite wrap_small by (unfold in_range; lia). eexists. split; [apply resize_larger; lia|].
      apply Nat2Z.inj_lt. rewrite resize_length; lia.
    - exists 0%nat. split; [by rewrite app_nil_r|lia]. }
  assert (foldr Z.add 0 bins = total h) as Hs by (rewrite Hb, sum_app, sum_zeros; unfold total; lia).
  assert (Forall (fun x => 0 <= x) bins) as Hp.
  { rewrite Hb. apply Forall_app. split; [done|]. apply Forall_replicate. lia. }
  destruct (lookup_lt_is_Some_2 bins _ Hl) as (x & Hlx). rewrite Hlx.
  pose proof (sum_bound _ _ _ Hp Hlx). eexists. split; [reflexivity|]. unfold counts. cbn [m_histogram m_binWidth].
  rewrite wrap_small by (unfold in_range; lia). split_and!; [|unfold total at 1; cbn [m_histogram]; rewrite (sum_insert _ _ _ _ Hlx); lia|done|].
  - apply Forall_insert; [done|lia].
  - intros i. assert (default 0 (m_histogram h !! i) = default 0 (bins !! i)) as ->.
    { rewrite Hb. destruct (decide (i < length (m_histogram h))%nat); [by rewrite lookup_app_l|].
      rewrite lookup_app_r, (lookup_ge_None_2 (m_histogram h)) by lia.
      destruct (replicate n 0 !! _) eqn:E; [|done]. by apply lookup_replicate in E as [-> _]. }
    case_decide as E; [subst i; by rewrite list_lookup_insert_eq, Hlx by done|by rewrite list_lookup_insert_ne, Z.add_0_r by done].
Qed.

(** ** Flows *)

(** [std::vector]s of counters by reason code *)
Abbreviation counters := (list Z).

(** [FlowProbe::FlowStats] *)
Record ProbeStats := mkProbeStats {
  ps_packetsDropped : counters; ps_bytesDropped : counters;
  delayFromFirstProbeSum : Z; ps_bytes : Z; ps_packets : Z }.
Definition new_ProbeStats : ProbeStats := mkProbeStats [] [] 0 0 0.

Record FlowStats := mkFlowStats {
  timeFirstTxPacket : Z; timeFirstRxPacket : Z; timeLastTxPacket : Z; timeLastRxPacket : Z;
  delaySum : Z; jitterSum : Z; lastDelay : Z;
  txBytes : Z; rxBytes : Z; txPackets : Z; rxPackets : Z; lostPackets : Z; timesForwarded : Z;
  delayHistogram : Histogram; jitterHistogram : Histogram; packetSizeHistogram : Histogram;
  packetsDropped : counters; bytesDropped : counters; flowInterruptionsHistogram : Histogram }.

Record TrackedPacket := mkTracked { firstSeenTime : Z; lastSeenTime : Z; tp_timesForwarded : Z }.

Record attributes := mkAttributes {
  m_maxPerHopDelay : Z; m_delayBinWidth : fp; m_jitterBinWidth : fp; m_packetSizeBinWidth : fp;
  m_flowInterruptionsBinWidth : fp; m_flowInterruptionsMinTime : Z }.

Inductive handler := StartRightNow_ | StopRightNow_ | PeriodicCheck_.

Record FlowMonitor := mkFlowMonitor {
  m_flowStats : gmap Z FlowStats;
  m_trackedPackets : gmap (Z * Z) TrackedPacket;
  m_flowProbes : list (gmap Z ProbeStats);
  m_startEvent : EventId; m_stopEvent : EventId;
  m_enabled : bool;
  fm_clock : timers handler }.

Definition set_stats (v : gmap Z FlowStats) m : FlowMonitor :=
  mkFlowMonitor v (m_trackedPackets m) (m_flowProbes m) (m_startEvent m) (m_stopEvent m) (m_enabled m) (fm_clock m).
Definition set_tracked (v : gmap (Z * Z) TrackedPacket) m : FlowMonitor :=
  mkFlowMonitor (m_flowStats m) v (m_flowProbes m) (m_startEvent m) (m_stopEvent m) (m_enabled m) (fm_clock m).
Definition set_probes (v : list (gmap Z ProbeStats)) m : FlowMonitor :=
  mkFlowMonitor (m_flowStats m) (m_trackedPackets m) v (m_startEvent m) (m_stopEvent m) (m_enabled m) (fm_clock m).
Definition set_enabled (v : bool) m : FlowMonitor :=
  mkFlowMonitor (m_flowStats m) (m_trackedPackets m) (m_flowProbes m) (m_startEvent m) (m_stopEvent m) v (fm_clock m).
Definition set_events (start_ stop : EventId) (c : timers handler) m : FlowMonitor :=
  mkFlowMonitor (m_flowStats m) (m_trackedPackets m) (m_flowProbes m) start_ stop (m_enabled m) c.
Definition new_FlowMonitor : FlowMonitor := mkFlowMonitor ∅ ∅ [] None None false start.

(** [resize (reasonCode + 1, 0)] of both vectors, and their entries *)
Definition add_drop (packetSize reasonCode : Z) (packets bytes : counters) : res (counters * counters) :=
  let n := u32 (reasonCode + 1) in
  let '(packets, bytes) :=
    if Z.of_nat (length packets) <? n then (resize n packets, resize n bytes) else (packets, bytes) in
  p ← deref (packets !! Z.to_nat reasonCode);
  b ← deref (bytes !! Z.to_nat reasonCode);
  mret (<[Z.to_nat reasonCode := u32 (p + 1)]> packets, <[Z.to_nat reasonCode := u64 (b + packetSize)]> bytes).

(** The entries of a [std::map], in the order of its keys. *)
Definition key_le (x y : Z * Z * TrackedPacket) : Prop := x.1.1 < y.1.1 \/ x.1.1 = y.1.1 /\ x.1.2 <= y.1.2.
#[export] Instance key_le_dec x y : Decision (key_le x y).
Proof. unfold key_le. apply _. Defined.
Definition in_order (m : gmap (Z * Z) TrackedPacket) : list (Z * Z * TrackedPacket) :=
  merge_sort key_le (map_to_list m).

Section monitor.
Context (r : Resolution) (a : attributes).
Notation M := (st FlowMonitor).

Definition Now : M Z := gets (fun m => t_now (fm_clock m)).

(** ** Probes *)

Definition probe_stats (probe : nat) (flowId : Z) (f : ProbeStats -> res ProbeStats) : M unit :=
  probes ← gets m_flowProbes;
  stats ← lift (deref (probes !! probe));
  flow ← lift (f (default new_ProbeStats (stats !! flowId)));
  update (set_probes (<[probe := <[flowId := flow]> stats]> probes)).
Definition AddPacketStats (probe : nat) (flowId packetSize delayFromFirstProbe : Z) : M unit :=
  probe_stats probe flowId (fun flow =>
    sum ← Time_add (delayFromFirstProbeSum flow) delayFromFirstProbe;
    mret (mkProbeStats (ps_packetsDropped flow) (ps_bytesDropped flow) sum
            (u64 (ps_bytes flow + packetSize)) (u32 (ps_packets flow + 1)))).
Definition AddPacketDropStats (probe : nat) (flowId packetSize reasonCode : Z) : M unit :=
  probe_stats probe flowId (fun flow =>
    '(packets, bytes) ← add_drop packetSize reasonCode (ps_packetsDropped flow) (ps_bytesDropped flow);
    mret (mkProbeStats packets bytes (delayFromFirstProbeSum flow) (ps_bytes flow) (ps_packets flow))).
Definition GetStats (probe : nat) : M (gmap Z ProbeStats) :=
  probes ← gets m_flowProbes; lift (deref (probes !! probe)).
Definition AddProbe : M nat :=
  probes ← gets m_flowProbes; _ ← update (set_probes (probes ++ [∅])); mret (length probes).

(** ** Reports *)

(** The statistics of a new flow *)
Definition new_FlowStats : FlowStats :=
  mkFlowStats 0 0 0 0 0 0 0 0 0 0 0 0 0 (new_Histogram (m_delayBinWidth a)) (new_Histogram (m_jitterBinWidth a))
    (new_Histogram (m_packetSizeBinWidth a)) [] [] (new_Histogram (m_flowInterruptionsBinWidth a)).
Definition GetStatsForFlow (flowId : Z) (m : FlowMonitor) : FlowStats :=
  default new_FlowStats (m_flowStats m !! flowId).
(** A change of the statistics that [GetStatsForFlow] refers to. *)
Definition change_stats (flowId : Z) (f : FlowStats -> res FlowStats) : M unit :=
  stats ← gets (GetStatsForFlow flowId);
  stats ← lift (f stats);
  update (fun m => set_stats (<[flowId := stats]> (m_flowStats m)) m).

(** Nothing while the monitor is not enabled. *)
Definition when_enabled (f : M unit) : M unit := e ← gets m_enabled; when e f.
Definition track (key : Z * Z) (t : TrackedPacket) : M unit :=
  update (fun m => set_tracked (<[key := t]> (m_trackedPackets m)) m).
Definition erase (key : Z * Z) : M unit := update (fun m => set_tracked (delete key (m_trackedPackets m)) m).

Definition with_tx (now packetSize : Z) (s : FlowStats) : FlowStats :=
  let n := u32 (txPackets s + 1) in
  mkFlowStats (if n =? 1 then now else timeFirstTxPacket s) (timeFirstRxPacket s) now (timeLastRxPacket s)
    (delaySum s) (jitterSum s) (lastDelay s) (u64 (txBytes s + packetSize)) (rxBytes s) n (rxPackets s)
    (lostPackets s) (timesForwarded s) (delayHistogram s) (jitterHistogram s) (packetSizeHistogram s)
    (packetsDropped s) (bytesDropped s) (flowInterruptionsHistogram s).

Definition ReportFirstTx (probe : nat) (flowId packetId packetSize : Z) : M unit :=
  when_enabled (
    now ← Now;
    _ ← track (flowId, packetId) (mkTracked now now 0);
    _ ← AddPacketStats probe flowId packetSize 0;
    change_stats flowId (fun s => mret (with_tx now packetSize s))).

Definition ReportForwarding (probe : nat) (flowId packetId packetSize : Z) : M unit :=
  when_enabled (
    tracked ← gets m_trackedPackets;
    match tracked !! (flowId, packetId) with
    | None => mret tt
    | Some t =>
        now ← Now;
        _ ← track (flowId, packetId) (mkTracked (firstSeenTime t) now (u32 (tp_timesForwarded t + 1)));
        delay ← lift (Time_sub now (firstSeenTime t));
        AddPacketStats probe flowId packetSize delay
    end).

(** The sum and the histogram of the jitter, from the second packet on. *)
Definition with_jitter (delay : Z) (s : FlowStats) : res (Z * Histogram) :=
  if 0 <? rxPackets s then
    jitter ← Time_sub (lastDelay s) delay;
    if 0 <? jitter then
      sum ← Time_add (jitterSum s) jitter;
      x ← GetSeconds r jitter;
      h ← AddValue x (jitterHistogram s);
      mret (sum, h)
    else
      sum ← Time_sub (jitterSum s) jitter;
      x ← GetSeconds r jitter;
      h ← AddValue (fp_neg x) (jitterHistogram s);
      mret (sum, h)
  else mret (jitterSum s, jitterHistogram s).

(** A gap between two packets of the flow. *)
Definition with_interruption (now : Z) (s : FlowStats) : res Histogram :=
  interArrivalTime ← Time_sub now (timeLastRxPacket s);
  if m_flowInterruptionsMinTime a <? interArrivalTime then
    x ← GetSeconds r interArrivalTime; AddValue x (flowInterruptionsHistogram s)
  else mret (flowInterruptionsHistogram s).

Definition with_rx (now delay packetSize forwarded : Z) (s : FlowStats) : res FlowStats :=
  sum ← Time_add (delaySum s) delay;
  x ← GetSeconds r delay;
  delays ← AddValue x (delayHistogram s);
  '(jitter, jitters) ← with_jitter delay s;
  sizes ← AddValue (fp_of_int binary64 packetSize) (packetSizeHistogram s);
  let n := u32 (rxPackets s + 1) in
  interruptions ← (if n =? 1 then mret (flowInterruptionsHistogram s) else with_interruption now s);
  mret (mkFlowStats (timeFirstTxPacket s) (if n =? 1 then now else timeFirstRxPacket s) (timeLastTxPacket s) now
    sum jitter delay (txBytes s) (u64 (rxBytes s + packetSize)) (txPackets s) n
    (lostPackets s) (u32 (timesForwarded s + forwarded)) delays jitters sizes
    (packetsDropped s) (bytesDropped s) interruptions).

Definition ReportLastRx (probe : nat) (flowId packetId packetSize : Z) : M unit :=
  when_enabled (
    tracked ← gets m_trackedPackets;
    match tracked !! (flowId, packetId) with
    | None => mret tt
    | Some t =>
        now ← Now;
        delay ← lift (Time_sub now (firstSeenTime t));
        _ ← AddPacketStats probe flowId packetSize delay;
        _ ← change_stats flowId (with_rx now delay packetSize (tp_timesForwarded t));
        erase (flowId, packetId)
    end).

Definition with_lost (packets bytes : counters) (s : FlowStats) : FlowStats :=
  mkFlowStats (timeFirstTxPacket s) (timeFirstRxPacket s) (timeLastTxPacket s) (timeLastRxPacket s)
    (delaySum s) (jitterSum s) (lastDelay s) (txBytes s) (rxBytes s) (txPackets s) (rxPackets s)
    (u32 (lostPackets s + 1)) (timesForwarded s) (delayHistogram s) (jitterHistogram s) (packetSizeHistogram s)
    packets bytes (flowInterruptionsHistogram s).

Definition ReportDrop (probe : nat) (flowId packetId packetSize reasonCode : Z) : M unit :=
  when_enabled (
    _ ← AddPacketDropStats probe flowId packetSize reasonCode;
    _ ← change_stats flowId (fun s =>
      '(packets, bytes) ← add_drop packetSize reasonCode (packetsDropped s) (bytesDropped s);
      mret (with_lost packets bytes s));
    erase (flowId, packetId)).

(** ** Lost packets *)

Definition check_packet (now maxDelay : Z) (x : Z * Z * TrackedPacket) : M unit :=
  d ← lift (Time_sub now (lastSeenTime x.2));
  if maxDelay <=? d then
    stats ← gets m_flowStats;
    _ ← lift (ns_assert (bool_decide (is_Some (stats !! x.1.1))));
    s ← lift (deref (stats !! x.1.1));
    _ ← update (set_stats (<[x.1.1 := with_lost (packetsDropped s) (bytesDropped s) s]> stats));
    erase x.1
  else mret tt.
Definition CheckForLostPackets_after (maxDelay : Z) : M unit :=
  now ← Now;
  tracked ← gets m_trackedPackets;
  each (check_packet now maxDelay) (in_order tracked).
Definition CheckForLostPackets : M unit := CheckForLostPackets_after (m_maxPerHopDelay a).

(** ** Starting and stopping *)

Definition schedule_ (time : Z) (h : handler) : M EventId :=
  m ← gets id; '(id, c) ← lift (Schedule time h (fm_clock m));
  _ ← update (set_events (m_startEvent m) (m_stopEvent m) c); mret id.
Definition cancel_ (id : EventId) : M unit :=
  update (fun m => set_events (m_startEvent m) (m_stopEvent m) (Cancel id (fm_clock m)) m).

(** [PERIODIC_CHECK_INTERVAL] is [Seconds (1)]. *)
Definition schedule_check : M unit :=
  interval ← lift (Seconds r (fp_of_int binary64 1)); _ ← schedule_ interval PeriodicCheck_; mret tt.
Definition PeriodicCheckForLostPackets : M unit := _ ← CheckForLostPackets; schedule_check.
Definition NotifyConstructionCompleted : M unit := schedule_check.

Definition Start (time : Z) : M unit :=
  e ← gets m_enabled;
  if (e : bool) then mret tt
  else
    m ← gets id;
    _ ← cancel_ (m_startEvent m);
    id ← schedule_ time StartRightNow_;
    update (fun m => set_events id (m_stopEvent m) (fm_clock m) m).
Definition Stop (time : Z) : M unit :=
  m ← gets id;
  _ ← cancel_ (m_stopEvent m);
  id ← schedule_ time StopRightNow_;
  update (fun m => set_events (m_startEvent m) id (fm_clock m) m).
Definition StartRightNow : M unit := e ← gets m_enabled; if (e : bool) then mret tt else update (set_enabled true).
Definition StopRightNow : M unit :=
  e ← gets m_enabled;
  if negb (e : bool) then mret tt else _ ← update (set_enabled false); CheckForLostPackets.
Definition DoDispose : M unit :=
  m ← gets id; _ ← cancel_ (m_startEvent m); cancel_ (m_stopEvent m).

(** The object factory: the attribute [StartTime] is set through [Start]. *)
Definition Create : M unit := _ ← Start 0; NotifyConstructionCompleted.

Definition run_handler (h : handler) : M unit :=
  match h with
  | StartRightNow_ => StartRightNow | StopRightNow_ => StopRightNow
  | PeriodicCheck_ => PeriodicCheckForLostPackets
  end.
(** The next event of the monitor, if it has one. *)
Definition fire : M unit :=
  m ← gets id;
  match next (fm_clock m) with
  | None => mret tt
  | Some (h, c) => _ ← update (set_events (m_startEvent m) (m_stopEvent m) c); run_handler h
  end.
End monitor.
