(* ===== verification/FlowProbe.v ===== *)
(** * The IPv4 probes ([src/flow-monitor/model/ipv4-flow-probe.cc],
      [src/flow-monitor/helper/flow-monitor-helper.cc]) and the statistics the
      scenario prints ([process_stats] of [scratch/loadbalancer/topology-builder.h])

    A probe listens to the traces of a node's IPv4 stack and queues, classifies the
    packets the node sends and reports what happens to the tagged ones. *)

From S2P Require Import Prelude Bytes Packet FloatingPoint FlowClassifier FlowMonitor.
From S2P Require NsTime Ipv4Address Ipv4Header Ipv4Ifaces Ipv4L3Protocol.
Import NsTime (Resolution, GetNanoSeconds).
Import Ipv4Header (Ipv4Header).

(** ** The tag *)

Record Ipv4FlowProbeTag := mkTag { m_flowId : Z; m_packetId : Z; m_packetSize : Z; m_src : Z; m_dst : Z }.
Definition IsSrcDstValid (src dst : Z) (t : Ipv4FlowProbeTag) : bool := (m_src t =? src) && (m_dst t =? dst).
Definition tag_size : Z := 4 + 4 + 4 + 8.
Definition tag_Serialize (t : Ipv4FlowProbeTag) : bytes :=
  WriteU32 (m_flowId t) ++ WriteU32 (m_packetId t) ++ WriteU32 (m_packetSize t) ++
  WriteHtonU32 (m_src t) ++ WriteHtonU32 (m_dst t).
Definition tag_Deserialize (buf : bytes) : res (Ipv4FlowProbeTag * bytes) :=
  '(flowId, buf) ← ReadU32 buf;
  '(packetId, buf) ← ReadU32 buf;
  '(packetSize, buf) ← ReadU32 buf;
  '(src, buf) ← ReadNtohU32 buf;
  '(dst, buf) ← ReadNtohU32 buf;
  mret (mkTag flowId packetId packetSize src dst, buf).

(** A tag that was written is read back. *)
Lemma tag_read t rest :
  in_range 32 (m_flowId t) -> in_range 32 (m_packetId t) -> in_range 32 (m_packetSize t) ->
  in_range 32 (m_src t) -> in_range 32 (m_dst t) ->
  tag_Deserialize (tag_Serialize t ++ rest) = Ok (t, rest).
Proof.
  intros H1 H2 H3 H4 H5. unfold tag_Deserialize, tag_Serialize. rewrite <- !app_assoc.
  do 3 (rewrite ReadU32_write by done; cbn [mbind res_bind]).
  do 2 (rewrite ReadNtohU32_write by done; cbn [mbind res_bind]). by destruct t.
Qed.

(** ** Probes *)

(** [Ipv4FlowProbe::DropReason] *)
Inductive DropReason :=
| DROP_NO_ROUTE | DROP_TTL_EXPIRE | DROP_BAD_CHECKSUM | DROP_QUEUE | DROP_QUEUE_DISC
| DROP_INTERFACE_DOWN | DROP_ROUTE_ERROR | DROP_FRAGMENT_TIMEOUT | DROP_INVALID_REASON.
Definition reason_code (x : DropReason) : Z :=
  match x with
  | DROP_NO_ROUTE => 0 | DROP_TTL_EXPIRE => 1 | DROP_BAD_CHECKSUM => 2 | DROP_QUEUE => 3 | DROP_QUEUE_DISC => 4
  | DROP_INTERFACE_DOWN => 5 | DROP_ROUTE_ERROR => 6 | DROP_FRAGMENT_TIMEOUT => 7 | DROP_INVALID_REASON => 8
  end.

(** The monitor and the classifier that the probes share. *)
Record flow_system := mkSystem { fs_classifier : Ipv4FlowClassifier; fs_monitor : FlowMonitor }.

Section probe.
Context (r : Resolution) (a : attributes).
Notation M := (st flow_system).

Definition on_monitor {A} (f : st FlowMonitor A) : M A :=
  s ← gets fs_monitor; '(x, m) ← lift (f s); _ ← update (fun s => mkSystem (fs_classifier s) m); mret x.
Definition classify (ipHeader : Ipv4Header) (ipPayload : Packet) : M (option (Z * Z)) :=
  c ← gets fs_classifier;
  let '(x, c) := Classify ipHeader ipPayload c in
  _ ← update (fun s => mkSystem c (fs_monitor s)); mret x.

(** [ipPayload->GetSize () + ipHeader.GetSerializedSize ()] *)
Definition size_of (ipHeader : Ipv4Header) (ipPayload : Packet) : Z :=
  u32 (GetSize ipPayload + Ipv4Header.GetSerializedSize ipHeader).

(** The tag that is added to the packet, if one is. *)
Definition SendOutgoingLogger (this : nat) (m_ipv4 : Ipv4Ifaces.Ipv4) (ipHeader : Ipv4Header) (ipPayload : Packet)
  (fTag : option Ipv4FlowProbeTag) : M (option Ipv4FlowProbeTag) :=
  if negb (Ipv4Ifaces.IsUnicast (Ipv4Header.GetDestination ipHeader) m_ipv4) then mret None
  else match fTag with
  | Some _ => mret None
  | None =>
      x ← classify ipHeader ipPayload;
      match x with
      | None => mret None
      | Some (flowId, packetId) =>
          let size := size_of ipHeader ipPayload in
          _ ← on_monitor (ReportFirstTx a this flowId packetId size);
          mret (Some (mkTag flowId packetId size (Ipv4Header.GetSource ipHeader) (Ipv4Header.GetDestination ipHeader)))
      end
  end.

Definition ForwardLogger (this : nat) (ipHeader : Ipv4Header) (ipPayload : Packet)
  (fTag : option Ipv4FlowProbeTag) : M unit :=
  match fTag with
  | None => mret tt
  | Some t =>
      if negb (Ipv4Header.IsLastFragment ipHeader) || negb (Ipv4Header.GetFragmentOffset ipHeader =? 0) then mret tt
      else if negb (IsSrcDstValid (Ipv4Header.GetSource ipHeader) (Ipv4Header.GetDestination ipHeader) t) then mret tt
      else on_monitor (ReportForwarding this (m_flowId t) (m_packetId t) (size_of ipHeader ipPayload))
  end.

Definition ForwardUpLogger (this : nat) (ipHeader : Ipv4Header) (ipPayload : Packet)
  (fTag : option Ipv4FlowProbeTag) : M unit :=
  match fTag with
  | None => mret tt
  | Some t =>
      if negb (IsSrcDstValid (Ipv4Header.GetSource ipHeader) (Ipv4Header.GetDestination ipHeader) t) then mret tt
      else on_monitor (ReportLastRx r a this (m_flowId t) (m_packetId t) (size_of ipHeader ipPayload))
  end.

(** The reason of the stack as a reason of the probe; the others are fatal. *)
Definition my_reason (reason : Ipv4L3Protocol.DropReason) : res DropReason :=
  match reason with
  | Ipv4L3Protocol.DROP_TTL_EXPIRED => mret DROP_TTL_EXPIRE
  | Ipv4L3Protocol.DROP_NO_ROUTE => mret DROP_NO_ROUTE
  | Ipv4L3Protocol.DROP_BAD_CHECKSUM => mret DROP_BAD_CHECKSUM
  | Ipv4L3Protocol.DROP_INTERFACE_DOWN => mret DROP_INTERFACE_DOWN
  | Ipv4L3Protocol.DROP_ROUTE_ERROR => mret DROP_ROUTE_ERROR
  | Ipv4L3Protocol.DROP_FRAGMENT_TIMEOUT => mret DROP_FRAGMENT_TIMEOUT
  | Ipv4L3Protocol.DROP_DUPLICATE => Err FatalError
  end.
Definition DropLogger (this : nat) (ipHeader : Ipv4Header) (ipPayload : Packet)
  (reason : Ipv4L3Protocol.DropReason) (fTag : option Ipv4FlowProbeTag) : M unit :=
  match fTag with
  | None => mret tt
  | Some t =>
      myReason ← lift (my_reason reason);
      on_monitor (ReportDrop a this (m_flowId t) (m_packetId t) (size_of ipHeader ipPayload) (reason_code myReason))
  end.

Definition QueueDropLogger (this : nat) (fTag : option Ipv4FlowProbeTag) : M unit :=
  match fTag with
  | None => mret tt
  | Some t => on_monitor (ReportDrop a this (m_flowId t) (m_packetId t) (m_packetSize t) (reason_code DROP_QUEUE))
  end.
Definition QueueDiscDropLogger (this : nat) (fTag : option Ipv4FlowProbeTag) : M unit :=
  match fTag with
  | None => mret tt
  | Some t => on_monitor (ReportDrop a this (m_flowId t) (m_packetId t) (m_packetSize t) (reason_code DROP_QUEUE_DISC))
  end.

(** ** Installation *)

(** A node, by the stacks it has: one probe for each. *)
Definition Install (node : bool * bool) : M (option nat * option nat) :=
  p4 ← (if node.1 then p ← on_monitor AddProbe; mret (Some p) else mret None);
  p6 ← (if node.2 then p ← on_monitor AddProbe; mret (Some p) else mret None);
  mret (p4, p6).
Fixpoint InstallAll (nodes : list (bool * bool)) : M (list (option nat * option nat)) :=
  match nodes with
  | [] => mret []
  | n :: nodes' =>
      if n.1 || n.2 then p ← Install n; ps ← InstallAll nodes'; mret (p :: ps)
      else ps ← InstallAll nodes'; mret ((None, None) :: ps)
  end.
(** [GetMonitor] *)
Definition GetMonitor : res flow_system :=
  '(_, m) ← Create r new_FlowMonitor; mret (mkSystem new_classifier m).

(** ** The table of the scenario *)

(** The first four counters, or zeros when there are none. *)
Definition first_four (v : counters) : res (list Z) :=
  match v with
  | [] => mret [0; 0; 0; 0]
  | _ => v0 ← deref (v !! 0%nat); v1 ← deref (v !! 1%nat); v2 ← deref (v !! 2%nat); v3 ← deref (v !! 3%nat);
         mret [v0; v1; v2; v3]
  end.
Definition times (s : FlowStats) : list Z :=
  [timeFirstTxPacket s; timeFirstRxPacket s; timeLastTxPacket s; timeLastRxPacket s; delaySum s; jitterSum s; lastDelay s].
Fixpoint nanoseconds (l : list Z) : res (list Z) :=
  match l with [] => mret [] | t :: l => n ← GetNanoSeconds r t; ns ← nanoseconds l; mret (n :: ns) end.

(** One line of the file. *)
Definition stats_line (c : Ipv4FlowClassifier) (x : Z * FlowStats) : res (Z * FiveTuple * list Z) :=
  t ← FindFlow x.1 c;
  let s := x.2 in
  ts ← nanoseconds (times s);
  packets ← first_four (packetsDropped s);
  bytes ← first_four (bytesDropped s);
  mret (x.1, t, ts ++ [txBytes s; rxBytes s; txPackets s; rxPackets s; lostPackets s; timesForwarded s] ++ packets ++ bytes).

Definition flow_le (x y : Z * FlowStats) : Prop := x.1 <= y.1.
#[export] Instance flow_le_dec x y : Decision (flow_le x y).
Proof. unfold flow_le. apply _. Defined.
Fixpoint stats_lines (c : Ipv4FlowClassifier) (l : list (Z * FlowStats)) : res (list (Z * FiveTuple * list Z)) :=
  match l with [] => mret [] | x :: l => y ← stats_line c x; ys ← stats_lines c l; mret (y :: ys) end.
Definition process_stats (s : flow_system) : res (list (Z * FiveTuple * list Z)) :=
  stats_lines (fs_classifier s) (merge_sort flow_le (map_to_list (m_flowStats (fs_monitor s)))).
End probe.
