(* ===== verification/FlowMonitorSpec.v ===== *)
(** * Every packet of a flow is received, lost or still on its way

    The invariant of the monitor under the calls of the probes, the clock and the
    user, with what the counters, sums and histograms of a flow mean. *)

From S2P Require Import Prelude Bytes Packet FloatingPoint Int64x64 Int64x64Spec Timers FlowClassifier FlowMonitor FlowProbe.
From S2P Require NsTime NsTimeSpec Ipv4Header Ipv4Ifaces Ipv4L3Protocol.
Import NsTime (Resolution, Time_add, Time_sub, Seconds, GetSeconds, GetNanoSeconds).
Import Ipv4Header (Ipv4Header).
Import NsTime (Resolution).


(** ** Durations in histograms *)

Lemma round_to_opp f n d : round_to f (- n) d = fp_neg (round_to f n d).
Proof.
  unfold round_to. destruct (Z.eqb_spec n 0) as [->|Hn]; [done|].
  rewrite (proj2 (Z.eqb_neq (- n) 0)), Z.abs_opp, Z.sgn_opp by lia.
  destruct (round_abs f (Z.abs n) d) as [m e]. case_match; [done|]. simpl. f_equal. lia.
Qed.
Lemma convert_opp f x : fp_convert f (fp_neg x) = fp_neg (fp_convert f x).
Proof. destruct x as [m e|]; [|done]. cbn [fp_neg fp_convert]. rewrite <- round_to_opp. f_equal. unfold up. lia. Qed.
Lemma fp_neg_neg x : fp_neg (fp_neg x) = x.
Proof. destruct x; simpl; [f_equal; lia|done]. Qed.

Lemma GetDouble_bounded v k : 0 <= v < 2 ^ 127 -> v / 2 ^ 64 + 1 <= k < 2 ^ 53 ->
  exists x, GetDouble v = Ok x /\ bounded x k /\ GetDouble (- v) = Ok (fp_neg x).
Proof.
  intros Hv Hk. pose proof (Z.div_pos v (2 ^ 64) ltac:(lia) ltac:(lia)) as Hh.
  unfold GetDouble. rewrite !magnitude_ok by lia. cbn [mbind res_bind]. rewrite Z.abs_opp, Z.abs_eq, shr64, land_lo by lia.
  pose proof (Z.mod_pos_bound v (2 ^ 64) ltac:(lia)) as Hl.
  set (sum := fp_add _ _ _).
  assert (bounded (fp_convert binary64 sum) k) as Hb.
  { apply convert_bounded; [apply wide_binary64|simpl; lia|].
    assert (bounded sum (v / 2 ^ 64 + 1)) as (m & e & -> & Hm & Hx).
    - apply add_bounded; [apply wide_x87|simpl; lia|apply of_int_bounded; [apply wide_x87|simpl; lia]|].
      apply (div_bounded _ _ _ _ (v mod 2 ^ 64)); [apply wide_x87|lia|simpl; lia| |].
      + apply of_int_bounded; [apply wide_x87|simpl; lia].
      + unfold up, down. change (Z.max 0 64) with 64. change (Z.max 0 (- (64))) with 0. lia.
    - exists m, e. split_and!; [done..|]. assert (0 < down e) by (unfold down; lia). nia. }
  destruct (Z.ltb_spec v 0); [lia|]. exists (fp_convert binary64 sum). split_and!; [done..|].
  destruct (Z.ltb_spec (- v) 0) as [H0|H0]; [by rewrite convert_opp|].
  assert (v = 0) as -> by lia. unfold sum. vm_compute. reflexivity.
Qed.

Section ns.
Context (r : Resolution) (Hr : NsTime.resolution_of NsTime.NS = Ok r).

Lemma ns_ratio : NsTimeSpec.ratio NsTime.S NsTime.NS = 1000000000.
Proof using. reflexivity. Qed.

(** The seconds of a duration, at most two more than the whole ones. *)
Lemma GetSeconds_bounded t : 0 <= t < 2 ^ 62 ->
  exists x, GetSeconds r t = Ok x /\ bounded x (t / 1000000000 + 2) /\ GetSeconds r (- t) = Ok (fp_neg x).
Proof using Hr.
  intros Ht. unfold GetSeconds, NsTime.ToDouble.
  assert (NsTime.Scale NsTime.NS < NsTime.Scale NsTime.S) as Hs by reflexivity.
  rewrite (NsTimeSpec.To_ok NsTime.NS NsTime.S r Hr Hs t), (NsTimeSpec.To_ok NsTime.NS NsTime.S r Hr Hs (- t)) by lia.
  rewrite ns_ratio.
  cbn [mbind res_bind]. rewrite Z.abs_opp, Z.sgn_opp, Z.abs_eq by lia.
  destruct (inverse_spec 1000000000) as (d & Hd & E); [lia|]. set (i := inverse 1000000000) in *.
  set (v := t * i / 2 ^ 64).
  assert (0 <= v < 2 ^ 127) as Hv by (unfold v; split; [apply Z.div_pos; nia|apply Z.div_lt_upper_bound; nia]).
  assert (v / 2 ^ 64 <= t / 1000000000 + 1) as Hq.
  { unfold v. rewrite Z.div_div by lia. pose proof (Z.div_mod t 1000000000 ltac:(lia)).
    pose proof (Z.mod_pos_bound t 1000000000 ltac:(lia)). apply Z.div_le_upper_bound; nia. }
  assert (t / 1000000000 <= 2 ^ 33) by (apply Z.div_le_upper_bound; lia).
  destruct (GetDouble_bounded v (t / 1000000000 + 2)) as (x & E1 & Hb & E2); [done|lia|].
  exists x. assert (Z.sgn t * v = v /\ - Z.sgn t * v = - v) as [-> ->].
  { destruct (Z.eq_dec t 0) as [->|]; [unfold v; split; reflexivity|rewrite Z.sgn_pos by lia; lia]. }
  exact (conj E1 (conj Hb E2)).
Qed.
End ns.

(** A bin is at least 1/1024 wide. *)
Definition wide_bin (w : fp) : Prop := exists n g, w = Finite n g /\ 0 < n /\ down g <= 1024 * up g n.

Lemma bounded_floor x k : bounded x k -> exists n, fp_floor x = Some n /\ 0 <= n <= k.
Proof.
  intros (m & e & -> & Hm & H). eexists. split; [done|]. assert (0 < down e) by (unfold down; lia).
  split; [apply Z.div_pos; [unfold up; nia|done]|apply Z.div_le_upper_bound; lia].
Qed.
Lemma bin_index_bounded x w j : wide_bin w -> bounded x j -> 0 <= j -> 1024 * j < 2 ^ 32 - 1 ->
  exists i, bin_index x w = Ok i /\ i < 2 ^ 32 - 1.
Proof.
  intros (n & g & -> & Hn & Hg) Hx Hj Hk. unfold bin_index.
  assert (bounded (fp_div binary64 x (Finite n g)) (1024 * j)) as (i & -> & Hi)%bounded_floor.
  { apply (div_bounded _ _ _ _ j); [apply wide_binary64|done|simpl; lia|done|nia]. }
  exists i. rewrite (proj2 (Z.leb_le _ _)), (proj2 (Z.ltb_lt _ _)) by lia. split; [done|lia].
Qed.

(** A histogram of [k] values in bins of width [w]. *)
Record histo (w : fp) (k : Z) (h : Histogram) : Prop := {
  hi_counts : counts h; hi_total : total h = k; hi_width : m_binWidth h = w }.
Lemma histo_new w : histo w 0 (new_Histogram w).
Proof. split; [constructor|done|done]. Qed.
Lemma histo_add w k h x j :
  histo w k h -> wide_bin w -> k < 2 ^ 32 - 1 -> bounded x j -> 0 <= j -> 1024 * j < 2 ^ 32 - 1 ->
  exists h', AddValue x h = Ok h' /\ histo w (k + 1) h'.
Proof.
  intros [Hc Ht Hw] Hb Hk Hx Hj Hl. destruct (bin_index_bounded x w j) as (i & Ei & Hi); [done..|].
  destruct (AddValue_ok x h i) as (h' & ? & ? & ? & ? & _); [done|lia|by rewrite Hw|done|].
  exists h'. split; [done|]. split; [done|lia|congruence].
Qed.

(** ** The tracked packets of a flow *)

Definition tracked_count (f : Z) (tr : gmap (Z * Z) TrackedPacket) : Z :=
  Z.of_nat (size (filter (fun x : Z * Z * TrackedPacket => x.1.1 = f) tr)).

Lemma tracked_insert f k t tr : tr !! k = None ->
  tracked_count f (<[k := t]> tr) = tracked_count f tr + (if decide (k.1 = f) then 1 else 0).
Proof.
  intros Hk. unfold tracked_count. case_decide as Hf.
  - rewrite map_filter_insert_True by done. rewrite map_size_insert_None; [lia|].
    apply map_lookup_filter_None. by left.
  - rewrite map_filter_insert_not'; [lia|done|]. intros y Hy. congruence.
Qed.
Lemma tracked_delete f k t tr : tr !! k = Some t ->
  tracked_count f (delete k tr) = tracked_count f tr - (if decide (k.1 = f) then 1 else 0).
Proof.
  intros Hk. rewrite <- (insert_delete_id tr k t Hk) at 2. rewrite tracked_insert by apply lookup_delete_eq. lia.
Qed.
Lemma tracked_update f k t t' tr : tr !! k = Some t' -> tracked_count f (<[k := t]> tr) = tracked_count f tr.
Proof.
  intros Hk. rewrite <- insert_delete_eq, tracked_insert, (tracked_delete f k t') by (done || apply lookup_delete_eq). lia.
Qed.
Lemma tracked_nonneg f tr : 0 <= tracked_count f tr.
Proof. unfold tracked_count. lia. Qed.
Lemma tracked_pos f p t tr : tr !! (f, p) = Some t -> 0 < tracked_count f tr.
Proof.
  intros Hk. pose proof (tracked_delete f _ _ _ Hk) as E. rewrite decide_True in E by done.
  pose proof (tracked_nonneg f (delete (f, p) tr)). lia.
Qed.

(** ** Drop counters *)

Lemma add_drop_ok size reason p b :
  length p = length b -> 0 <= reason < 2 ^ 32 - 1 ->
  exists p' b', add_drop size reason p b = Ok (p', b') /\ length p' = length b' /\
    Z.of_nat (length p') = Z.max (Z.of_nat (length p)) (reason + 1).
Proof.
  intros Hl Hr. unfold add_drop. rewrite wrap_small by (unfold in_range; lia).
  set (x := if _ <? _ then _ else _).
  assert (exists p1 b1, x = (p1, b1) /\ length p1 = length b1 /\
    Z.of_nat (length p1) = Z.max (Z.of_nat (length p)) (reason + 1)) as (p1 & b1 & -> & Hl1 & Hm).
  { unfold x. destruct (Z.ltb_spec (Z.of_nat (length p)) (reason + 1)); (eexists _, _; split; [done|]); [|lia].
    pose proof (resize_length (reason + 1) p). pose proof (resize_length (reason + 1) b). lia. }
  destruct (lookup_lt_is_Some_2 p1 (Z.to_nat reason)) as (y & ->); [lia|].
  destruct (lookup_lt_is_Some_2 b1 (Z.to_nat reason)) as (z & ->); [lia|].
  eexists _, _. split; [reflexivity|]. rewrite !length_insert. lia.
Qed.

(** ** The invariant of the statistics

    [T] bounds the clock and [N] the number of calls. *)

(** The default resolution; a record, so that tactics do not compute the table. *)
Record ns_table (r : Resolution) : Prop := { ns_resolved : NsTime.resolution_of NsTime.NS = Ok r }.

Section accounting.
Context (r : Resolution) (Hr : ns_table r) (a : attributes).
Context (Hdw : wide_bin (m_delayBinWidth a)) (Hjw : wide_bin (m_jitterBinWidth a)).
Context (Hsw : wide_bin (m_packetSizeBinWidth a)) (Hiw : wide_bin (m_flowInterruptionsBinWidth a)).
Context (T N : Z) (HT : 0 <= T <= 4000000000000000) (HN : 0 <= N < 2 ^ 32 - 1) (HNT : N * T < 2 ^ 63).

(** [n] calls were made, [tracked] packets are tracked and [stray] drops were of
    packets that were not. *)
Record flow_ok (n now tracked stray : Z) (s : FlowStats) : Prop := {
  fo_balance : txPackets s + stray = rxPackets s + lostPackets s + tracked;
  fo_counts : 0 <= txPackets s /\ 0 <= rxPackets s /\ 0 <= lostPackets s /\ 0 <= stray /\ 0 <= tracked;
  fo_calls : txPackets s + stray <= n;
  fo_delays : histo (m_delayBinWidth a) (rxPackets s) (delayHistogram s);
  fo_jitters : histo (m_jitterBinWidth a) (Z.max 0 (rxPackets s - 1)) (jitterHistogram s);
  fo_sizes : histo (m_packetSizeBinWidth a) (rxPackets s) (packetSizeHistogram s);
  fo_gaps : exists k, k <= rxPackets s /\ histo (m_flowInterruptionsBinWidth a) k (flowInterruptionsHistogram s);
  fo_sums : 0 <= delaySum s <= rxPackets s * T /\ 0 <= jitterSum s <= rxPackets s * T;
  fo_last : 0 <= lastDelay s <= T /\ 0 <= timeLastRxPacket s <= now;
  fo_times : 0 <= timeFirstTxPacket s <= T /\ 0 <= timeFirstRxPacket s <= T /\ 0 <= timeLastTxPacket s <= T;
  fo_dropped : length (packetsDropped s) = length (bytesDropped s) }.

Lemma flow_ok_new n now : 0 <= n -> 0 <= now -> flow_ok n now 0 0 (new_FlowStats a).
Proof using HT.
  intros Hn Hw. split; simpl; try lia; try apply histo_new. exists 0. split; [lia|apply histo_new].
Qed.
Lemma flow_ok_mono n n' now now' tr st s :
  flow_ok n now tr st s -> n <= n' -> now <= now' -> flow_ok n' now' tr st s.
Proof using. intros [] ? ?. split; first [assumption|lia]. Qed.

Lemma with_tx_ok n now tr st size s :
  flow_ok n now tr st s -> n + 1 <= N -> 0 <= now <= T -> flow_ok (n + 1) now (tr + 1) st (with_tx now size s).
Proof using HN.
  intros [] Hn Hw. unfold with_tx. rewrite (wrap_small 32 (txPackets s + 1)) by (unfold in_range; lia).
  split; cbn; first [assumption|lia|destruct (_ =? 1); lia].
Qed.
Lemma with_lost_ok n now tr st s p b :
  flow_ok n now tr st s -> n <= N -> 0 < tr -> length p = length b -> flow_ok n now (tr - 1) st (with_lost p b s).
Proof using HN.
  intros [] Hn Ht Hl. unfold with_lost. rewrite (wrap_small 32 (lostPackets s + 1)) by (unfold in_range; lia).
  split; cbn; first [assumption|lia].
Qed.
Lemma with_stray_ok n now tr st s p b :
  flow_ok n now tr st s -> n + 1 <= N -> length p = length b -> flow_ok (n + 1) now tr (st + 1) (with_lost p b s).
Proof using HN.
  intros [] Hn Hl. unfold with_lost. rewrite (wrap_small 32 (lostPackets s + 1)) by (unfold in_range; lia).
  split; cbn; first [assumption|lia].
Qed.

Lemma Time_add_ok x y : - 2 ^ 63 <= x + y < 2 ^ 63 -> Time_add x y = Ok (x + y).
Proof using. intros Hx. unfold Time_add, Time_sub. apply signed_check_ok. change (64 - 1) with 63. exact Hx. Qed.
Lemma Time_sub_ok x y : - 2 ^ 63 <= x - y < 2 ^ 63 -> Time_sub x y = Ok (x - y).
Proof using. intros Hx. unfold Time_add, Time_sub. apply signed_check_ok. change (64 - 1) with 63. exact Hx. Qed.

(** A duration fits a bin. *)
Lemma seconds_bin w k h t : histo w k h -> wide_bin w -> k < 2 ^ 32 - 1 -> 0 <= t <= T ->
  exists x h', GetSeconds r t = Ok x /\ AddValue x h = Ok h' /\ histo w (k + 1) h' /\ GetSeconds r (- t) = Ok (fp_neg x).
Proof using Hr HT.
  intros Hh Hw Hk Ht. destruct (GetSeconds_bounded r (ns_resolved r Hr) t ltac:(lia)) as (x & E1 & Hb & E2).
  assert (0 <= t / 1000000000 <= 4000000) by (split; [apply Z.div_pos; lia|apply Z.div_le_upper_bound; lia]).
  destruct (histo_add w k h x (t / 1000000000 + 2)) as (h' & ? & ?); [first [assumption|lia]..|]. exists x, h'. auto.
Qed.

Lemma with_jitter_ok n now tr st s delay :
  flow_ok n now tr st s -> n <= N -> 0 < tr -> 0 <= delay <= T ->
  exists sum h, with_jitter r delay s = Ok (sum, h) /\ 0 <= sum <= (rxPackets s + 1) * T /\
    histo (m_jitterBinWidth a) (Z.max 0 (rxPackets s)) h.
Proof using Hr HT HN HNT Hjw.
  intros [] Hn Ht Hd. unfold with_jitter. assert (rxPackets s + 1 <= N) as Hb by lia.
  assert ((rxPackets s + 1) * T < 2 ^ 63) by nia.
  destruct (Z.ltb_spec 0 (rxPackets s)) as [Hp|Hp].
  - rewrite Time_sub_ok by lia. cbn [mbind res_bind].
    replace (Z.max 0 (rxPackets s)) with (Z.max 0 (rxPackets s - 1) + 1) by lia.
    destruct (Z.ltb_spec 0 (lastDelay s - delay)).
    + rewrite Time_add_ok by nia. cbn [mbind res_bind].
      destruct (seconds_bin _ _ _ (lastDelay s - delay) fo_jitters0 Hjw) as (x & h' & -> & Ea & Hh & _); [lia..|].
      cbn [mbind res_bind]. rewrite Ea. cbn [mbind res_bind]. eexists _, _. split; [reflexivity|]. split; [nia|assumption].
    + rewrite Time_sub_ok by nia. cbn [mbind res_bind].
      destruct (seconds_bin _ _ _ (- (lastDelay s - delay)) fo_jitters0 Hjw) as (x & h' & _ & Ea & Hh & E2); [lia..|].
      rewrite Z.opp_involutive in E2. rewrite E2. cbn [mbind res_bind]. rewrite fp_neg_neg, Ea.
      cbn [mbind res_bind]. eexists _, _. split; [reflexivity|]. split; [nia|assumption].
  - eexists _, _. split; [reflexivity|]. split; [nia|]. assert (rxPackets s = 0) as E by lia. rewrite E in *. assumption.
Qed.

Lemma with_interruption_ok n now tr st s :
  flow_ok n now tr st s -> n <= N -> 0 < tr -> 0 <= now <= T ->
  exists k h, with_interruption r a now s = Ok h /\ k <= rxPackets s + 1 /\ histo (m_flowInterruptionsBinWidth a) k h.
Proof using Hr HT HN Hiw.
  intros [] Hn Ht Hw. unfold with_interruption. rewrite Time_sub_ok by lia. cbn [mbind res_bind].
  destruct fo_gaps0 as (k & Hk & Hh). destruct (_ <? _).
  - destruct (seconds_bin _ _ _ (now - timeLastRxPacket s) Hh Hiw) as (x & h' & -> & Ea & Hh' & _); [lia..|].
    cbn [mbind res_bind]. rewrite Ea. exists (k + 1), h'. split; [reflexivity|]. split; [lia|assumption].
  - exists k, (flowInterruptionsHistogram s). split; [reflexivity|]. split; [lia|assumption].
Qed.

Lemma with_rx_ok n now tr st s delay size fwd :
  flow_ok n now tr st s -> n <= N -> 0 < tr -> 0 <= now <= T -> 0 <= delay <= T -> 0 <= size < 2 ^ 20 ->
  exists s', with_rx r a now delay size fwd s = Ok s' /\ flow_ok n now (tr - 1) st s' /\
    (packetsDropped s' = packetsDropped s /\ txPackets s' = txPackets s).
Proof using Hr HT HN HNT Hdw Hjw Hsw Hiw.
  intros F Hn Ht Hw Hd Hs. unfold with_rx.
  destruct (with_jitter_ok _ _ _ _ _ delay F Hn Ht Hd) as (jit & jh & Ej & Hj & Hjh).
  destruct (with_interruption_ok _ _ _ _ _ F Hn Ht Hw) as (k & ih & Ei & Hk & Hih).
  destruct F. assert (rxPackets s + 1 <= N) as Hb by lia. assert ((rxPackets s + 1) * T < 2 ^ 63) by nia.
  rewrite Time_add_ok by lia. cbn [mbind res_bind].
  destruct (seconds_bin _ _ _ delay fo_delays0 Hdw) as (x & dh & -> & Ea & Hdh & _); [lia..|].
  cbn [mbind res_bind]. rewrite Ea. cbn [mbind res_bind]. rewrite Ej. cbn [mbind res_bind].
  destruct (histo_add _ _ _ (fp_of_int binary64 size) size fo_sizes0 Hsw) as (sh & Es & Hsh); [lia| |lia|lia|].
  { apply of_int_bounded; [apply wide_binary64|cbn [prec binary64]; lia]. }
  rewrite Es. cbn [mbind res_bind]. rewrite (wrap_small 32 (rxPackets s + 1)) by (unfold in_range; lia).
  destruct fo_gaps0 as (k0 & Hk0 & Hh0).
  assert (exists ih', (if rxPackets s + 1 =? 1 then mret (flowInterruptionsHistogram s) else with_interruption r a now s) = Ok ih' /\
    exists k, k <= rxPackets s + 1 /\ histo (m_flowInterruptionsBinWidth a) k ih') as (ih' & -> & Hih').
  { destruct (_ =? 1).
    - exists (flowInterruptionsHistogram s). split; [reflexivity|]. exists k0. split; [lia|assumption].
    - exists ih. split; [assumption|]. exists k. split; assumption. }
  cbn [mbind res_bind]. eexists. split; [reflexivity|]. split; [|split; reflexivity].
  replace (Z.max 0 (rxPackets s)) with (Z.max 0 (rxPackets s + 1 - 1)) in Hjh by lia.
  split; cbn; first [assumption|lia|destruct (_ =? 1); lia].
Qed.

(** ** The invariant of the monitor *)

Definition probe_ok (n : Z) (p : ProbeStats) : Prop :=
  0 <= delayFromFirstProbeSum p <= n * T /\ length (ps_packetsDropped p) = length (ps_bytesDropped p).
Definition packet_ok (now : Z) (t : TrackedPacket) : Prop :=
  0 <= firstSeenTime t <= now /\ 0 <= lastSeenTime t <= now.

Record mon_ok (n : Z) (issued : Z * Z -> Prop) (stray : Z -> Z) (m : FlowMonitor) : Prop := {
  mo_n : 0 <= n <= N;
  mo_now : 0 <= t_now (fm_clock m) <= T;
  mo_clock : timers_ok (fm_clock m);
  mo_flow f s : m_flowStats m !! f = Some s ->
    flow_ok n (t_now (fm_clock m)) (tracked_count f (m_trackedPackets m)) (stray f) s /\ exists p, issued (f, p);
  mo_none f : m_flowStats m !! f = None -> tracked_count f (m_trackedPackets m) = 0 /\ stray f = 0;
  mo_tracked k t : m_trackedPackets m !! k = Some t -> issued k /\ packet_ok (t_now (fm_clock m)) t;
  mo_probes i stats f p : m_flowProbes m !! i = Some stats -> stats !! f = Some p -> probe_ok n p }.

(** The probes of the monitor, as far as the invariant goes. *)
Definition probes_ok (n : Z) (l : list (gmap Z ProbeStats)) : Prop :=
  forall i stats f p, l !! i = Some stats -> stats !! f = Some p -> probe_ok n p.

Lemma probe_ok_mono n n' p : probe_ok n p -> n <= n' -> probe_ok n' p.
Proof using HT. intros [] ?. split; [nia|done]. Qed.
Lemma new_probe_ok n : 0 <= n -> probe_ok n new_ProbeStats.
Proof using HT. split; cbn; [nia|done]. Qed.

Lemma probe_stats_ok n m probe flow f :
  0 <= n -> probes_ok n (m_flowProbes m) -> (probe < length (m_flowProbes m))%nat ->
  (forall p, probe_ok n p -> exists p', f p = Ok p' /\ probe_ok (n + 1) p') ->
  exists l, probe_stats probe flow f m = Ok (tt, set_probes l m) /\ probes_ok (n + 1) l /\
    length l = length (m_flowProbes m).
Proof using HT.
  intros Hn Hp Hl Hf. unfold probe_stats. run. destruct (lookup_lt_is_Some_2 _ _ Hl) as (stats & E). rewrite E.
  cbn [deref]. run.
  destruct (Hf (default new_ProbeStats (stats !! flow))) as (p' & Ep & Hp').
  { destruct (stats !! flow) eqn:Es; [by eapply Hp|by apply new_probe_ok]. }
  rewrite Ep. run. eexists. split; [reflexivity|]. split; [|by rewrite length_insert].
  intros i st g p Hi Hg. destruct (decide (i = probe)) as [->|].
  - rewrite list_lookup_insert_eq in Hi by done. injection Hi as <-. destruct (decide (g = flow)) as [->|].
    + rewrite lookup_insert_eq in Hg. by injection Hg as <-.
    + rewrite lookup_insert_ne in Hg by done. eapply probe_ok_mono; [by eapply Hp|lia].
  - rewrite list_lookup_insert_ne in Hi by done. eapply probe_ok_mono; [by eapply Hp|lia].
Qed.
Lemma AddPacketStats_ok n m probe flow size delay :
  0 <= n -> n + 1 <= N -> probes_ok n (m_flowProbes m) -> (probe < length (m_flowProbes m))%nat -> 0 <= delay <= T ->
  exists l, AddPacketStats probe flow size delay m = Ok (tt, set_probes l m) /\ probes_ok (n + 1) l /\
    length l = length (m_flowProbes m).
Proof using HT HN HNT.
  intros Hn HnN Hp Hl Hd. apply probe_stats_ok; [assumption..|]. intros p [Hs Hlen].
  assert ((n + 1) * T < 2 ^ 63) by nia. rewrite Time_add_ok by lia. cbn [mbind res_bind]. eexists. split; [reflexivity|].
  split; cbn; [nia|done].
Qed.
Lemma AddPacketDropStats_ok n m probe flow size reason :
  0 <= n -> probes_ok n (m_flowProbes m) -> (probe < length (m_flowProbes m))%nat -> 0 <= reason < 2 ^ 32 - 1 ->
  exists l, AddPacketDropStats probe flow size reason m = Ok (tt, set_probes l m) /\ probes_ok (n + 1) l /\
    length l = length (m_flowProbes m).
Proof using HT.
  intros Hn Hp Hl Hx. apply probe_stats_ok; [assumption..|]. intros p [Hs Hlen].
  destruct (add_drop_ok size reason _ _ Hlen Hx) as (p' & b' & -> & Hl' & _). cbn [mbind res_bind].
  eexists. split; [reflexivity|]. split; cbn; [nia|done].
Qed.

Lemma change_stats_run f g m s : g (GetStatsForFlow a f m) = Ok s ->
  change_stats a f g m = Ok (tt, set_stats (<[f := s]> (m_flowStats m)) m).
Proof using. intros E. unfold change_stats. run. rewrite E. by run. Qed.

(** The statistics that a report changes. *)
Lemma stats_for_flow n issued stray m f :
  mon_ok n issued stray m ->
  flow_ok n (t_now (fm_clock m)) (tracked_count f (m_trackedPackets m)) (stray f) (GetStatsForFlow a f m).
Proof using HT.
  intros I. unfold GetStatsForFlow. destruct (m_flowStats m !! f) as [s|] eqn:E; [by apply (mo_flow _ _ _ _ I)|].
  destruct (mo_none _ _ _ _ I _ E) as [-> ->]. apply flow_ok_new; apply I.
Qed.

(** One flow changed, and the packets and probes with it. *)
Lemma mon_ok_change n n' issued issued' stray stray' m m' f s :
  mon_ok n issued stray m -> n <= n' <= N ->
  m_flowStats m' = <[f := s]> (m_flowStats m) -> fm_clock m' = fm_clock m ->
  (forall k, issued k -> issued' k) -> (exists p, issued' (f, p)) ->
  (forall g, g <> f -> tracked_count g (m_trackedPackets m') = tracked_count g (m_trackedPackets m) /\ stray' g = stray g) ->
  flow_ok n' (t_now (fm_clock m)) (tracked_count f (m_trackedPackets m')) (stray' f) s ->
  (forall k t, m_trackedPackets m' !! k = Some t -> issued' k /\ packet_ok (t_now (fm_clock m)) t) ->
  probes_ok n' (m_flowProbes m') ->
  mon_ok n' issued' stray' m'.
Proof using.
  intros I Hn Es Ec Hi Hf Hg F Ht Hp. split; rewrite ?Ec; [pose proof (mo_n _ _ _ _ I); lia|apply I..| | | |exact Hp].
  - intros g s' E. rewrite Es in E. destruct (decide (g = f)) as [->|Hne].
    + rewrite lookup_insert_eq in E. injection E as <-. exact (conj F Hf).
    + rewrite lookup_insert_ne in E by done. destruct (Hg g Hne) as [-> ->].
      destruct (mo_flow _ _ _ _ I _ _ E) as [F' (p & Hp')]. split; [eapply flow_ok_mono; [eassumption|lia..]|eauto].
  - intros g E. rewrite Es in E. destruct (decide (g = f)) as [->|Hne]; [by rewrite lookup_insert_eq in E|].
    rewrite lookup_insert_ne in E by done. destruct (Hg g Hne) as [-> ->]. by apply (mo_none _ _ _ _ I).
  - exact Ht.
Qed.

Lemma ReportFirstTx_ok n issued stray m probe f p size :
  mon_ok n issued stray m -> n + 1 <= N -> (probe < length (m_flowProbes m))%nat -> ~ issued (f, p) ->
  exists m', ReportFirstTx a probe f p size m = Ok (tt, m') /\
    mon_ok (n + 1) (fun k => issued k \/ k = (f, p)) stray m' /\ length (m_flowProbes m') = length (m_flowProbes m).
Proof using HT HN HNT.
  intros I Hn Hl Hfresh. unfold ReportFirstTx, when_enabled. run. unfold when.
  pose proof (mo_now _ _ _ _ I) as Hw. pose proof (mo_n _ _ _ _ I).
  destruct (m_enabled m).
  2:{ exists m. split_and!; [done| |done]. split; try apply I; [lia| | |].
    - intros g s E. destruct (mo_flow _ _ _ _ I _ _ E) as [F (q & ?)]. split; [eapply flow_ok_mono; [eassumption|lia..]|eauto].
    - intros k t Hk. destruct (mo_tracked _ _ _ _ I _ _ Hk). auto.
    - intros i st g q Hi Hg. eapply probe_ok_mono; [exact (mo_probes _ _ _ _ I _ _ _ _ Hi Hg)|lia]. }
  unfold Now, track. run. set (now := t_now (fm_clock m)) in *. set (tr := <[(f, p) := _]> (m_trackedPackets m)).
  destruct (AddPacketStats_ok n (set_tracked tr m) probe f size 0) as (l & E & Hp & Hll); [lia|lia|exact (mo_probes _ _ _ _ I)|done|lia|].
  rewrite (run_bind _ _ _ _ _ E). unfold change_stats. run.
  assert (m_trackedPackets m !! (f, p) = None) as Hnone.
  { destruct (m_trackedPackets m !! (f, p)) eqn:Et; [|done]. by apply (mo_tracked _ _ _ _ I) in Et as [? _]. }
  eexists. split; [reflexivity|]. split; [|done].
  eapply (mon_ok_change n _ issued _ stray); [exact I|lia|reflexivity|reflexivity|auto|by exists p; right| | | |exact Hp].
  - intros g Hg. cbn. unfold tr. rewrite tracked_insert by done. rewrite decide_False by (simpl; congruence). lia.
  - cbn. unfold tr. rewrite tracked_insert by done. rewrite decide_True by done.
    apply with_tx_ok; [apply (stats_for_flow n issued stray m f I)|lia|done].
  - intros k t. cbn. unfold tr. rewrite lookup_insert_Some. intros [[<- <-]|[_ Hk]].
    + split; [by right|split; cbn; lia].
    + destruct (mo_tracked _ _ _ _ I _ _ Hk). auto.
Qed.

(** A tracked packet belongs to a known flow. *)
Lemma tracked_known n issued stray m f p t :
  mon_ok n issued stray m -> m_trackedPackets m !! (f, p) = Some t -> exists s, m_flowStats m !! f = Some s.
Proof using.
  intros I Hk. destruct (m_flowStats m !! f) as [s|] eqn:E; [by exists s|].
  apply (mo_none _ _ _ _ I) in E as [E _]. apply tracked_pos in Hk. lia.
Qed.
(** More calls are allowed for. *)
Lemma mon_ok_mono n n' issued stray m : mon_ok n issued stray m -> n <= n' <= N -> mon_ok n' issued stray m.
Proof using HT.
  intros I Hn. pose proof (mo_n _ _ _ _ I). split; try apply I; [lia| |].
  - intros g s E. destruct (mo_flow _ _ _ _ I _ _ E) as [F ?]. split; [eapply flow_ok_mono; [eassumption|lia..]|assumption].
  - intros i st g q Hi Hg. eapply probe_ok_mono; [exact (mo_probes _ _ _ _ I _ _ _ _ Hi Hg)|lia].
Qed.

Lemma ReportForwarding_ok n issued stray m probe f p size :
  mon_ok n issued stray m -> n + 1 <= N -> (probe < length (m_flowProbes m))%nat ->
  exists m', ReportForwarding probe f p size m = Ok (tt, m') /\
    mon_ok (n + 1) issued stray m' /\ length (m_flowProbes m') = length (m_flowProbes m).
Proof using HT HN HNT.
  intros I Hn Hl. unfold ReportForwarding, when_enabled. run. unfold when.
  pose proof (mo_now _ _ _ _ I) as Hw. pose proof (mo_n _ _ _ _ I).
  assert (mon_ok (n + 1) issued stray m) as I' by (eapply mon_ok_mono; [exact I|lia]).
  destruct (m_enabled m); [|by exists m]. run. destruct (m_trackedPackets m !! (f, p)) as [t|] eqn:Et; [|by exists m].
  unfold Now, track. run. destruct (mo_tracked _ _ _ _ I _ _ Et) as [Hi [Hf _]].
  rewrite Time_sub_ok by lia. run. set (now := t_now (fm_clock m)) in *. set (tr := <[(f, p) := _]> (m_trackedPackets m)).
  destruct (AddPacketStats_ok n (set_tracked tr m) probe f size (now - firstSeenTime t)) as (l & E & Hp & Hll);
    [lia|lia|exact (mo_probes _ _ _ _ I)|done|lia|].
  rewrite E. eexists. split; [reflexivity|]. split; [|done].
  destruct (tracked_known _ _ _ _ _ _ _ I Et) as (s & Es).
  eapply (mon_ok_change n _ issued _ stray _ _ _ f s); [exact I|lia|by symmetry; apply insert_id|reflexivity|auto|by exists p| | | |exact Hp].
  - intros g Hg. cbn. unfold tr. by rewrite (tracked_update g _ _ t).
  - cbn. unfold tr. rewrite (tracked_update f _ _ t) by done. apply (mo_flow _ _ _ _ I'). done.
  - intros k u. cbn. unfold tr. rewrite lookup_insert_Some. intros [[<- <-]|[_ Hk]].
    + split; [done|split; cbn; lia].
    + by apply (mo_tracked _ _ _ _ I).
Qed.

Lemma ReportLastRx_ok n issued stray m probe f p size :
  mon_ok n issued stray m -> n + 1 <= N -> (probe < length (m_flowProbes m))%nat -> 0 <= size < 2 ^ 20 ->
  exists m', ReportLastRx r a probe f p size m = Ok (tt, m') /\
    mon_ok (n + 1) issued stray m' /\ length (m_flowProbes m') = length (m_flowProbes m).
Proof using Hr HT HN HNT Hdw Hjw Hsw Hiw.
  intros I Hn Hl Hs. unfold ReportLastRx, when_enabled. run. unfold when.
  pose proof (mo_now _ _ _ _ I) as Hw. pose proof (mo_n _ _ _ _ I).
  assert (mon_ok (n + 1) issued stray m) as I' by (eapply mon_ok_mono; [exact I|lia]).
  destruct (m_enabled m); [|by exists m]. run. destruct (m_trackedPackets m !! (f, p)) as [t|] eqn:Et; [|by exists m].
  unfold Now. run. destruct (mo_tracked _ _ _ _ I _ _ Et) as [Hi [Hf _]].
  rewrite Time_sub_ok by lia. run. set (now := t_now (fm_clock m)) in *.
  destruct (AddPacketStats_ok n m probe f size (now - firstSeenTime t)) as (l & E & Hp & Hll);
    [lia|lia|exact (mo_probes _ _ _ _ I)|done|lia|].
  rewrite (run_bind _ _ _ _ _ E).
  destruct (with_rx_ok (n + 1) now (tracked_count f (m_trackedPackets m)) (stray f) (GetStatsForFlow a f m)
    (now - firstSeenTime t) size (tp_timesForwarded t)) as (s' & Er & F & _);
    [apply (stats_for_flow _ _ _ _ _ I')|lia|by eapply tracked_pos|done|lia|done|].
  rewrite (run_bind _ _ _ _ _ (change_stats_run f _ (set_probes l m) s' Er)).
  eexists. split; [reflexivity|]. split; [|done].
  eapply (mon_ok_change n _ issued _ stray); [exact I|lia|reflexivity|reflexivity|auto|by exists p| | | |exact Hp].
  - intros g Hg. cbn. rewrite (tracked_delete g _ t) by done. rewrite decide_False by (simpl; congruence). lia.
  - cbn. rewrite (tracked_delete f _ t) by done. by rewrite decide_True by done.
  - intros k u. cbn. rewrite lookup_delete_Some. intros [_ Hk]. by apply (mo_tracked _ _ _ _ I).
Qed.

(** A drop is stray when the monitor does not track the packet. *)
Definition is_stray (m : FlowMonitor) (f p g : Z) : Z :=
  if m_enabled m && bool_decide (m_trackedPackets m !! (f, p) = None) && (f =? g) then 1 else 0.

Lemma ReportDrop_ok n issued stray m probe f p size reason :
  mon_ok n issued stray m -> n + 1 <= N -> (probe < length (m_flowProbes m))%nat -> 0 <= reason < 2 ^ 32 - 1 ->
  (exists q, issued (f, q)) ->
  exists m', ReportDrop a probe f p size reason m = Ok (tt, m') /\
    mon_ok (n + 1) issued (fun g => stray g + is_stray m f p g) m' /\ length (m_flowProbes m') = length (m_flowProbes m).
Proof using HT HN HNT.
  intros I Hn Hl Hx Hknown. unfold ReportDrop, when_enabled. run. unfold when.
  pose proof (mo_n _ _ _ _ I) as H0.
  assert (mon_ok (n + 1) issued stray m) as I' by (eapply mon_ok_mono; [exact I|lia]). unfold is_stray.
  destruct (m_enabled m); cbn [andb].
  2:{ exists m. split_and!; [done| |done]. split; try apply I'.
    - intros g s. rewrite Z.add_0_r. apply I'.
    - intros g. rewrite Z.add_0_r. apply I'. }
  destruct (AddPacketDropStats_ok n m probe f size reason) as (l & E & Hp & Hll);
    [lia|exact (mo_probes _ _ _ _ I)|done|done|].
  rewrite (run_bind _ _ _ _ _ E). pose proof (stats_for_flow _ _ _ _ f I) as F.
  destruct (add_drop_ok size reason _ _ (fo_dropped _ _ _ _ _ F) Hx) as (pd & bd & Ed & Hlen & _).
  set (g := fun s : FlowStats => _ ≫= _).
  assert (g (GetStatsForFlow a f m) = Ok (with_lost pd bd (GetStatsForFlow a f m))) as Eg by (unfold g; by rewrite Ed).
  rewrite (run_bind _ _ _ _ _ (change_stats_run f g (set_probes l m) _ Eg)).
  eexists. split; [reflexivity|]. split; [|done].
  eapply (mon_ok_change n _ issued _ stray); [exact I|lia|reflexivity|reflexivity|auto|done| | | |exact Hp].
  - intros g' Hg. cbn. rewrite (proj2 (Z.eqb_neq f g')), andb_false_r, Z.add_0_r by done. split; [|done].
    destruct (m_trackedPackets m !! (f, p)) as [t|] eqn:Et.
    + rewrite (tracked_delete g' _ t) by done. rewrite decide_False by (simpl; congruence). lia.
    + by rewrite delete_id.
  - cbn. rewrite Z.eqb_refl, andb_true_r. destruct (m_trackedPackets m !! (f, p)) as [t|] eqn:Et; cbn.
    + rewrite (tracked_delete f _ t), decide_True, Z.add_0_r by done.
      apply (flow_ok_mono n _ (t_now (fm_clock m)) _); [|lia|lia].
      eapply with_lost_ok; [exact F|lia|by eapply tracked_pos|done].
    + rewrite delete_id by done. eapply with_stray_ok; [exact F|lia|done].
  - intros k u. cbn. rewrite lookup_delete_Some. intros [_ Hk]. by apply (mo_tracked _ _ _ _ I).
Qed.

(** ** Lost packets *)

(** What a check leaves alone. *)
Definition unchecked (m : FlowMonitor) := (m_flowProbes m, m_startEvent m, m_stopEvent m, m_enabled m, fm_clock m).

Lemma check_packet_ok n issued stray m now maxDelay k t :
  mon_ok n issued stray m -> now = t_now (fm_clock m) -> m_trackedPackets m !! k = Some t ->
  exists m', check_packet now maxDelay (k, t) m = Ok (tt, m') /\ mon_ok n issued stray m' /\
    unchecked m' = unchecked m /\
    m_trackedPackets m' = (if maxDelay <=? now - lastSeenTime t then delete k (m_trackedPackets m) else m_trackedPackets m).
Proof using HT HN.
  intros I -> Hk. unfold check_packet. cbn [fst snd]. destruct (mo_tracked _ _ _ _ I _ _ Hk) as [Hi [_ Hl]].
  pose proof (mo_now _ _ _ _ I). rewrite Time_sub_ok by lia. run. destruct (maxDelay <=? _); [|by exists m].
  destruct k as [f p]. destruct (tracked_known _ _ _ _ _ _ _ I Hk) as (s & Es). cbn [fst]. run. rewrite Es. run.
  unfold ns_assert. rewrite bool_decide_eq_true_2 by done. unfold erase. run.
  eexists. split; [reflexivity|]. split; [|done].
  destruct (mo_flow _ _ _ _ I _ _ Es) as [F Hp]. pose proof (mo_n _ _ _ _ I).
  eapply (mon_ok_change n _ issued _ stray); [exact I|lia|reflexivity|reflexivity|auto|exact Hp| | | |exact (mo_probes _ _ _ _ I)].
  - intros g Hg. cbn. rewrite (tracked_delete g _ t) by done. rewrite decide_False by (simpl; congruence). lia.
  - cbn. rewrite (tracked_delete f _ t), decide_True by done.
    eapply with_lost_ok; [exact F|lia|by eapply tracked_pos|apply (fo_dropped _ _ _ _ _ F)].
  - intros k u. cbn. rewrite lookup_delete_Some. intros [_ Hu]. by apply (mo_tracked _ _ _ _ I).
Qed.

Lemma check_packets_ok n issued stray now maxDelay l : forall m,
  mon_ok n issued stray m -> now = t_now (fm_clock m) -> NoDup l.*1 ->
  (forall x, x ∈ l -> m_trackedPackets m !! x.1 = Some x.2) ->
  exists m', each (check_packet now maxDelay) l m = Ok (tt, m') /\ mon_ok n issued stray m' /\
    unchecked m' = unchecked m /\
    forall k t, m_trackedPackets m' !! k = Some t <->
      m_trackedPackets m !! k = Some t /\ (k ∈ l.*1 -> now - lastSeenTime t < maxDelay).
Proof using HT HN.
  induction l as [|[k t] l IH]; intros m I Hw Hnd Hl; cbn [each].
  { exists m. split_and!; [done..|]. intros k t. split; [|tauto]. intros Hk. split; [done|]. by intros ?%elem_of_nil. }
  simpl in Hnd. apply NoDup_cons in Hnd as [Hk Hnd]. pose proof (Hl (k, t) ltac:(by left)) as Ht. simpl in Ht.
  destruct (check_packet_ok n issued stray m now maxDelay k t I Hw Ht) as (m1 & E1 & I1 & U1 & T1).
  rewrite (run_bind _ _ _ _ _ E1).
  assert (forall j, j <> k -> m_trackedPackets m1 !! j = m_trackedPackets m !! j) as Hother.
  { intros j Hj. rewrite T1. case_match; [by rewrite lookup_delete_ne|done]. }
  destruct (IH m1 I1) as (m2 & E2 & I2 & U2 & T2); [by injection U1 as _ _ _ _ ->|done| |].
  { intros x Hx. rewrite Hother; [apply Hl; by right|]. intros <-. apply Hk, list_elem_of_fmap. by exists x. }
  exists m2. split_and!; [done|done|by rewrite U2|]. intros j u. rewrite T2. cbn [fmap list_fmap fst]. rewrite elem_of_cons.
  destruct (decide (j = k)) as [->|Hne].
  - rewrite T1. destruct (Z.leb_spec maxDelay (now - lastSeenTime t)).
    + rewrite lookup_delete_eq, Ht. split; [by intros [? _]|]. intros [[= <-] Hx]. specialize (Hx (or_introl eq_refl)). lia.
    + rewrite Ht. split; [intros [[= <-] _]; split; [done|lia]|]. intros [[= <-] Hx]. split; [done|]. intros Hin. by apply Hk in Hin.
  - rewrite Hother by done. naive_solver.
Qed.

Lemma in_order_perm tr : in_order tr ≡ₚ map_to_list tr.
Proof using. apply merge_sort_Permutation. Qed.

Lemma CheckForLostPackets_ok n issued stray m maxDelay :
  mon_ok n issued stray m ->
  exists m', CheckForLostPackets_after maxDelay m = Ok (tt, m') /\ mon_ok n issued stray m' /\
    unchecked m' = unchecked m /\
    forall k t, m_trackedPackets m' !! k = Some t <->
      m_trackedPackets m !! k = Some t /\ t_now (fm_clock m) - lastSeenTime t < maxDelay.
Proof using HT HN.
  intros I. unfold CheckForLostPackets_after, Now. run.
  destruct (check_packets_ok n issued stray (t_now (fm_clock m)) maxDelay (in_order (m_trackedPackets m)) m I eq_refl)
    as (m' & E & I' & U & H).
  - rewrite (in_order_perm (m_trackedPackets m)). apply NoDup_fst_map_to_list.
  - intros [k t]. rewrite (in_order_perm (m_trackedPackets m)). by rewrite elem_of_map_to_list.
  - exists m'. split_and!; [done..|]. intros k t. rewrite H. split; intros [Hk Hx]; (split; [done|]); [|done].
    apply Hx, list_elem_of_fmap. exists (k, t). split; [done|]. rewrite (in_order_perm (m_trackedPackets m)).
    by apply elem_of_map_to_list.
Qed.

(** ** Starting, stopping and time *)

Lemma mon_ok_clock n issued stray m m' :
  mon_ok n issued stray m -> m_flowStats m' = m_flowStats m -> m_trackedPackets m' = m_trackedPackets m ->
  m_flowProbes m' = m_flowProbes m -> timers_ok (fm_clock m') ->
  t_now (fm_clock m) <= t_now (fm_clock m') <= T -> mon_ok n issued stray m'.
Proof using.
  intros I Es Et Ep Hc Hw. pose proof (mo_now _ _ _ _ I). split; rewrite ?Es, ?Et, ?Ep; try apply I; [lia|done| |].
  - intros f s E. destruct (mo_flow _ _ _ _ I _ _ E) as [F ?]. split; [eapply flow_ok_mono; [eassumption|lia..]|done].
  - intros k t Hk. destruct (mo_tracked _ _ _ _ I _ _ Hk) as [? [? ?]]. split; [done|]. split; lia.
Qed.

Lemma Schedule_total {H} (c : timers H) d h : 0 <= d -> 0 <= t_now c -> d + t_now c < 2 ^ 63 ->
  exists id c', Schedule d h c = Ok (id, c').
Proof using.
  intros Hd Hc Hs. unfold Schedule, ns_assert, i64_check. rewrite (proj2 (Z.leb_le 0 d)) by done. cbn [mbind res_bind].
  assert (int64_min = - 2 ^ 63 /\ int64_max = 2 ^ 63 - 1) as [-> ->] by done.
  destruct (_ && _) eqn:E; [by eexists _, _|]. apply andb_false_iff in E as [E|E]; bool_to_Z; lia.
Qed.

Lemma schedule_ok n issued stray m d h :
  mon_ok n issued stray m -> 0 <= d < 2 ^ 62 ->
  exists id m', schedule_ d h m = Ok (id, m') /\ mon_ok n issued stray m' /\
    m_flowProbes m' = m_flowProbes m /\ t_now (fm_clock m') = t_now (fm_clock m).
Proof using HT.
  intros I Hd. unfold schedule_. run. unfold id. pose proof (mo_now _ _ _ _ I).
  destruct (Schedule_total (fm_clock m) d h) as (i & c & E); [lia|lia|lia|]. rewrite E. run.
  destruct (Schedule_ok d h _ _ _ (mo_clock _ _ _ _ I) E) as (Hc & _ & Hw & _).
  eexists _, _. split; [reflexivity|]. split_and!; [|done|done].
  eapply mon_ok_clock; [exact I|done..|cbn; rewrite Hw; lia].
Qed.

Lemma cancel_ok n issued stray m id :
  mon_ok n issued stray m -> exists m', cancel_ id m = Ok (tt, m') /\ mon_ok n issued stray m' /\
    m_flowProbes m' = m_flowProbes m.
Proof using.
  intros I. pose proof (mo_now _ _ _ _ I). eexists. split; [reflexivity|]. split; [|done].
  eapply mon_ok_clock; [exact I|done..| |]; cbn; [apply Cancel_ok, I|rewrite Cancel_now; lia].
Qed.
Lemma set_events_ok n issued stray m i j :
  mon_ok n issued stray m -> mon_ok n issued stray (set_events i j (fm_clock m) m).
Proof using. intros I. pose proof (mo_now _ _ _ _ I). eapply mon_ok_clock; [exact I|done..|apply I|cbn; lia]. Qed.
Lemma set_enabled_ok n issued stray m b : mon_ok n issued stray m -> mon_ok n issued stray (set_enabled b m).
Proof using. intros I. pose proof (mo_now _ _ _ _ I). eapply mon_ok_clock; [exact I|done..|apply I|cbn; lia]. Qed.

(** An operation that keeps the invariant and the probes. *)
Definition keeps (f : st FlowMonitor unit) : Prop := forall n issued stray m,
  mon_ok n issued stray m -> exists m', f m = Ok (tt, m') /\ mon_ok n issued stray m' /\ m_flowProbes m' = m_flowProbes m.

Lemma Check_keeps d : keeps (CheckForLostPackets_after d).
Proof using HT HN.
  intros n issued stray m I. destruct (CheckForLostPackets_ok n issued stray m d I) as (m' & ? & ? & U & _).
  exists m'. split_and!; [done..|]. by injection U.
Qed.
Lemma keeps_bind f g : keeps f -> keeps g -> keeps (_ ← f; g).
Proof using.
  intros Hf Hg n issued stray m I. destruct (Hf n issued stray m I) as (m1 & E1 & I1 & P1).
  destruct (Hg n issued stray m1 I1) as (m2 & E2 & I2 & P2). exists m2. rewrite (run_bind _ _ _ _ _ E1), P2. done.
Qed.
Lemma schedule_check_keeps : keeps (schedule_check r).
Proof using Hr HT.
  intros n issued stray m I. unfold schedule_check.
  assert (Seconds r (fp_of_int binary64 1) = Ok 1000000000) as ->.
  { apply (NsTimeSpec.FromDouble_int NsTime.NS NsTime.S r (ns_resolved r Hr)); [reflexivity|lia|vm_compute; split; reflexivity]. }
  run. destruct (schedule_ok n issued stray m 1000000000 PeriodicCheck_ I ltac:(lia)) as (id & m' & E & ? & ? & _).
  rewrite (run_bind _ _ _ _ _ E). by exists m'.
Qed.
Lemma Start_keeps t : 0 <= t < 2 ^ 62 -> keeps (Start t).
Proof using HT.
  intros Ht n issued stray m I. unfold Start. run. destruct (m_enabled m); [by exists m|]. run. unfold id.
  destruct (cancel_ok _ _ _ _ (m_startEvent m) I) as (m1 & E1 & I1 & P1). rewrite (run_bind _ _ _ _ _ E1).
  destruct (schedule_ok _ _ _ _ t StartRightNow_ I1 Ht) as (i & m2 & E2 & I2 & P2 & _). rewrite (run_bind _ _ _ _ _ E2).
  eexists. split; [reflexivity|]. split; [by apply set_events_ok|]. cbn. by rewrite P2.
Qed.
Lemma Stop_keeps t : 0 <= t < 2 ^ 62 -> keeps (Stop t).
Proof using HT.
  intros Ht n issued stray m I. unfold Stop. run. unfold id.
  destruct (cancel_ok _ _ _ _ (m_stopEvent m) I) as (m1 & E1 & I1 & P1). rewrite (run_bind _ _ _ _ _ E1).
  destruct (schedule_ok _ _ _ _ t StopRightNow_ I1 Ht) as (i & m2 & E2 & I2 & P2 & _). rewrite (run_bind _ _ _ _ _ E2).
  eexists. split; [reflexivity|]. split; [by apply set_events_ok|]. cbn. by rewrite P2.
Qed.
Lemma StartRightNow_keeps : keeps StartRightNow.
Proof using.
  intros n issued stray m I. unfold StartRightNow. run. destruct (m_enabled m); [by exists m|].
  eexists. split; [reflexivity|]. split; [by apply set_enabled_ok|done].
Qed.
Lemma StopRightNow_keeps : keeps (StopRightNow a).
Proof using HT HN.
  intros n issued stray m I. unfold StopRightNow. run. destruct (m_enabled m); [|by exists m]. run.
  apply (Check_keeps _ _ _ _ _ (set_enabled_ok _ _ _ _ false I)).
Qed.
Lemma run_handler_keeps h : keeps (run_handler r a h).
Proof using Hr HT HN.
  destruct h; [apply StartRightNow_keeps|apply StopRightNow_keeps|].
  apply keeps_bind; [apply Check_keeps|apply schedule_check_keeps].
Qed.
Lemma fire_ok n issued stray m :
  mon_ok n issued stray m -> (forall h c, next (fm_clock m) = Some (h, c) -> t_now c <= T) ->
  exists m', fire r a m = Ok (tt, m') /\ mon_ok n issued stray m' /\ m_flowProbes m' = m_flowProbes m.
Proof using Hr HT HN.
  intros I Hn. unfold fire. run. unfold id. destruct (next (fm_clock m)) as [[h c]|] eqn:E; [|by exists m]. run.
  destruct (next_ok _ _ _ (mo_clock _ _ _ _ I) E) as (Hc & Hle & _).
  apply (run_handler_keeps h n issued stray (set_events (m_startEvent m) (m_stopEvent m) c m)).
  eapply mon_ok_clock; [exact I|done..|]. cbn. split; [done|by eapply Hn].
Qed.

(** ** The classifier, the monitor and the probes *)

Definition issued (seen : packets) (k : Z * Z) : Prop :=
  exists i t, flows_of seen.*1 !! i = Some t /\ k.1 = Z.of_nat i + 1 /\ 0 <= k.2 < count_flow t seen.

Lemma issued_mono seen x k : issued seen k -> issued (seen ++ [x]) k.
Proof using.
  intros (i & t & Hi & Hf & Hp). exists i, t. rewrite fmap_app. destruct (flows_of_prefix seen.*1 [x].*1) as (l & El).
  cbn [fmap list_fmap] in El |- *. rewrite El. split; [by apply lookup_app_l_Some|]. split; [done|].
  rewrite count_flow_snoc. case_decide; lia.
Qed.
Lemma issued_fresh seen i t d :
  flows_of (seen ++ [(t, d)]).*1 !! i = Some t ->
  ~ issued seen (Z.of_nat i + 1, count_flow t seen) /\ issued (seen ++ [(t, d)]) (Z.of_nat i + 1, count_flow t seen).
Proof using.
  intros Hi. split.
  - intros (j & u & Hj & Hf & Hp). simpl in Hf, Hp. assert (j = i) as -> by lia.
    rewrite fmap_app in Hi. destruct (flows_of_prefix seen.*1 [(t, d)].*1) as (l & El). rewrite El in Hi.
    rewrite (lookup_app_l_Some _ _ _ _ Hj) in Hi. injection Hi as ->. lia.
  - exists i, t. split; [done|]. split; [done|]. rewrite count_flow_snoc, decide_True by done. cbn [snd].
    unfold count_flow. lia.
Qed.
Lemma found_issued c seen f t : represents c seen -> FindFlow f c = Ok t -> exists p, issued seen (f, p).
Proof using.
  intros R E. unfold FindFlow in E. destruct (List.find _ (m_flowMap c)) as [[u g]|] eqn:Ef; [|done].
  apply List.find_some in Ef as [Hin Hg]. simpl in Hg. bool_to_Z. apply list_elem_of_In, (rp_find _ _ R) in Hin as (i & Hi & ->).
  exists 0, i, u. split; [done|]. split; [cbn; lia|]. cbn [snd]. split; [done|]. apply count_flow_pos, elem_of_flows_of, list_elem_of_lookup. by exists i.
Qed.
Lemma issued_found c seen k : represents c seen -> issued seen k -> exists t, FindFlow k.1 c = Ok t.
Proof using. intros R (i & t & Hi & -> & _). exists t. by eapply FindFlow_ok. Qed.

Lemma mon_ok_issued n issued issued' stray m :
  mon_ok n issued stray m -> (forall k, issued k -> issued' k) -> mon_ok n issued' stray m.
Proof using.
  intros I Hi. split; try apply I.
  - intros f s E. destruct (mo_flow _ _ _ _ I _ _ E) as [? (p & ?)]. split; [done|]. exists p. auto.
  - intros k t Hk. destruct (mo_tracked _ _ _ _ I _ _ Hk). auto.
Qed.

Inductive call :=
| Send (probe : nat) (ipv4 : Ipv4Ifaces.Ipv4) (h : Ipv4Header) (p : Packet) (tag : option Ipv4FlowProbeTag)
| Forward (probe : nat) (h : Ipv4Header) (p : Packet) (tag : option Ipv4FlowProbeTag)
| Deliver (probe : nat) (h : Ipv4Header) (p : Packet) (tag : option Ipv4FlowProbeTag)
| Dropped (probe : nat) (h : Ipv4Header) (p : Packet) (reason : Ipv4L3Protocol.DropReason) (tag : option Ipv4FlowProbeTag)
| QueueDropped (probe : nat) (tag : option Ipv4FlowProbeTag)
| QueueDiscDropped (probe : nat) (tag : option Ipv4FlowProbeTag)
| Check_ (maxDelay : Z) | Start_ (time : Z) | Stop_ (time : Z) | StartNow | StopNow
| Fire | Wait (d : Z).

(** Time passes, up to the next event. *)
Definition wait (d : Z) : st FlowMonitor unit :=
  update (fun m => set_events (m_startEvent m) (m_stopEvent m)
    (mkTimers (t_now (fm_clock m) + d) (t_uid (fm_clock m)) (t_pending (fm_clock m))) m).

Definition step (c : call) : st flow_system unit :=
  match c with
  | Send probe ipv4 h p tag => _ ← SendOutgoingLogger a probe ipv4 h p tag; mret tt
  | Forward probe h p tag => ForwardLogger probe h p tag
  | Deliver probe h p tag => ForwardUpLogger r a probe h p tag
  | Dropped probe h p reason tag => DropLogger a probe h p reason tag
  | QueueDropped probe tag => QueueDropLogger a probe tag
  | QueueDiscDropped probe tag => QueueDiscDropLogger a probe tag
  | Check_ d => on_monitor (CheckForLostPackets_after d)
  | Start_ t => on_monitor (Start t)
  | Stop_ t => on_monitor (Stop t)
  | StartNow => on_monitor StartRightNow
  | StopNow => on_monitor (StopRightNow a)
  | Fire => on_monitor (fire r a)
  | Wait d => on_monitor (wait d)
  end.

Definition tag_of (c : call) : option Ipv4FlowProbeTag :=
  match c with
  | Send _ _ _ _ t | Forward _ _ _ t | Deliver _ _ _ t | Dropped _ _ _ _ t | QueueDropped _ t | QueueDiscDropped _ t => t
  | _ => None
  end.
Definition probe_of (c : call) : nat :=
  match c with
  | Send i _ _ _ _ | Forward i _ _ _ | Deliver i _ _ _ | Dropped i _ _ _ _ | QueueDropped i _ | QueueDiscDropped i _ => i
  | _ => 0%nat
  end.

(** The calls that happen: the probe exists, a tag names a flow that the classifier
    numbered, packets are of a size that IPv4 allows, the stack does not drop tagged
    packets as duplicates, and time does not run past an event or the bound. *)
Definition call_ok (c : call) (s : flow_system) : Prop :=
  let m := fs_monitor s in
  (probe_of c < length (m_flowProbes m))%nat /\
  (forall t, tag_of c = Some t -> exists x, FindFlow (m_flowId t) (fs_classifier s) = Ok x) /\
  match c with
  | Deliver _ h p _ => size_of h p < 2 ^ 20
  | Dropped _ _ _ reason _ => reason <> Ipv4L3Protocol.DROP_DUPLICATE
  | Start_ t | Stop_ t => 0 <= t < 2 ^ 62
  | Fire => forall h c, next (fm_clock m) = Some (h, c) -> t_now c <= T
  | Wait d => 0 <= d /\ t_now (fm_clock m) + d <= T /\ forall x, x ∈ t_pending (fm_clock m) -> t_now (fm_clock m) + d <= p_ts x
  | _ => True
  end.

(** Whether the call reports the drop of a packet of the flow [g] that the monitor
    does not track: it was declared lost before, or sent while the monitor was off. *)
Definition stray_call (c : call) (s : flow_system) (g : Z) : Z :=
  match c with
  | Dropped _ _ _ _ (Some t) | QueueDropped _ (Some t) | QueueDiscDropped _ (Some t) =>
      is_stray (fs_monitor s) (m_flowId t) (m_packetId t) g
  | _ => 0
  end.

Record sys_ok (n : Z) (seen : packets) (stray : Z -> Z) (s : flow_system) : Prop := {
  sy_class : represents (fs_classifier s) seen;
  sy_seen : Z.of_nat (length seen) <= n;
  sy_monitor : mon_ok n (issued seen) stray (fs_monitor s) }.

Definition steps_to (n : Z) (seen : packets) (stray : Z -> Z) (s : flow_system) (r' : res (unit * flow_system)) : Prop :=
  exists s' seen', r' = Ok (tt, s') /\ sys_ok (n + 1) seen' stray s' /\
    length (m_flowProbes (fs_monitor s')) = length (m_flowProbes (fs_monitor s)).

Lemma on_monitor_ok n seen stray stray' s f :
  sys_ok n seen stray s ->
  (exists m', f (fs_monitor s) = Ok (tt, m') /\ mon_ok (n + 1) (issued seen) stray' m' /\
    length (m_flowProbes m') = length (m_flowProbes (fs_monitor s))) ->
  steps_to n seen stray' s (on_monitor f s).
Proof using.
  intros [Rc Rs Rm] (m' & E & I & P). unfold on_monitor. run. rewrite E. run.
  eexists _, seen. split; [reflexivity|]. split; [|exact P]. split; [exact Rc|lia|exact I].
Qed.
Lemma steps_here n seen stray s : sys_ok n seen stray s -> n + 1 <= N -> steps_to n seen stray s (Ok (tt, s)).
Proof using HT.
  intros [Rc Rs Rm] Hn. exists s, seen. split; [done|]. split; [|done].
  split; [done|lia|eapply mon_ok_mono; [done|]]. pose proof (mo_n _ _ _ _ Rm). lia.
Qed.
Lemma keeps_step n seen stray s f : keeps f -> sys_ok n seen stray s -> n + 1 <= N -> steps_to n seen stray s (on_monitor f s).
Proof using HT.
  intros Hf S Hn. apply (on_monitor_ok _ _ stray); [done|].
  assert (mon_ok (n + 1) (issued seen) stray (fs_monitor s)) as I.
  { eapply mon_ok_mono; [apply S|]. pose proof (mo_n _ _ _ _ (sy_monitor _ _ _ _ S)). lia. }
  destruct (Hf _ _ _ _ I) as (m' & ? & ? & Ep). exists m'. by rewrite Ep.
Qed.

Lemma sys_ok_ext n seen stray stray' s : sys_ok n seen stray s -> (forall g, stray' g = stray g) -> sys_ok n seen stray' s.
Proof using.
  intros [Rc Rs Rm] H. split; [done|done|]. split; try apply Rm.
  - intros f x E. rewrite H. by apply (mo_flow _ _ _ _ Rm).
  - intros f E. rewrite H. by apply (mo_none _ _ _ _ Rm).
Qed.

Lemma classify_run h p (s : flow_system) x c :
  Classify h p (fs_classifier s) = (x, c) -> classify h p s = Ok (x, mkSystem c (fs_monitor s)).
Proof using. intros E. unfold classify. run. by rewrite E. Qed.

Lemma SendOutgoing_ok n seen stray s probe ipv4 h p tag :
  sys_ok n seen stray s -> n + 1 <= N -> (probe < length (m_flowProbes (fs_monitor s)))%nat ->
  exists y s' seen', SendOutgoingLogger a probe ipv4 h p tag s = Ok (y, s') /\ sys_ok (n + 1) seen' stray s' /\
    length (m_flowProbes (fs_monitor s')) = length (m_flowProbes (fs_monitor s)).
Proof using HT HN HNT.
  intros S Hn Hp. pose proof (mo_n _ _ _ _ (sy_monitor _ _ _ _ S)). pose proof (sy_seen _ _ _ _ S).
  destruct (steps_here n seen stray s S Hn) as (s0 & seen0 & E0 & S0 & P0). injection E0 as <-.
  unfold SendOutgoingLogger. destruct (negb _); [by exists None, s, seen0|].
  destruct tag as [t|]; [by exists None, s, seen0|].
  destruct (Classify h p (fs_classifier s)) as [x c] eqn:Ec. rewrite (run_bind _ _ _ _ _ (classify_run _ _ _ _ _ Ec)).
  unfold Classify in Ec. destruct (five_tuple h p) as [t|]; [|injection Ec as <- <-; exists None, s, seen0; by destruct s].
  destruct (number_packet_ok (fs_classifier s) seen t (Ipv4Header.GetDscp h)) as (i & c' & Eq & Rc & Hi); [apply S|lia|].
  rewrite Eq in Ec. injection Ec as <- <-. destruct (issued_fresh _ _ _ _ Hi) as [Hfresh Hin].
  unfold on_monitor. run. cbn [fs_monitor].
  destruct (ReportFirstTx_ok n (issued seen) stray (fs_monitor s) probe (Z.of_nat i + 1) (count_flow t seen)
    (size_of h p)) as (m' & E & I & P); [apply S|done|done|done|].
  eexists _, (mkSystem c' m'), (seen ++ [(t, Ipv4Header.GetDscp h)]). split; [|split; [|exact P]].
  - unfold mbind, st_bind, gets, lift. cbn [fs_monitor]. rewrite E. reflexivity.
  - split; [exact Rc|rewrite length_app; simpl; lia|]. eapply mon_ok_issued; [exact I|].
    intros k [Hk| ->]; [by apply issued_mono|done].
Qed.

(** One call. *)
Lemma call_step_ok n seen stray s c :
  sys_ok n seen stray s -> n + 1 <= N -> call_ok c s ->
  steps_to n seen (fun g => stray g + stray_call c s g) s (step c s).
Proof using Hr HT HN HNT Hdw Hjw Hsw Hiw.
  intros S Hn (Hp & Ht & Hc). pose proof (mo_n _ _ _ _ (sy_monitor _ _ _ _ S)) as H0.
  assert ((forall g, stray_call c s g = 0) -> sys_ok n seen (fun g => stray g + stray_call c s g) s) as Hz.
  { intros Hz. eapply sys_ok_ext; [exact S|]. intros g. rewrite Hz. lia. }
  assert (forall t, tag_of c = Some t -> exists q, issued seen (m_flowId t, q)) as Hk.
  { intros t E. destruct (Ht t E) as (x & Ex). eapply found_issued; [apply S|exact Ex]. }
  assert (forall probe t size reason, tag_of c = Some t -> (probe < length (m_flowProbes (fs_monitor s)))%nat ->
    0 <= reason < 2 ^ 32 - 1 ->
    steps_to n seen (fun g => stray g + is_stray (fs_monitor s) (m_flowId t) (m_packetId t) g) s
      (on_monitor (ReportDrop a probe (m_flowId t) (m_packetId t) size reason) s)) as Hdrop.
  { intros probe t size reason E Hpr Hre. apply (on_monitor_ok _ _ stray); [done|].
    destruct (ReportDrop_ok n (issued seen) stray (fs_monitor s) probe (m_flowId t) (m_packetId t) size reason)
      as (m' & ? & ? & ?); [apply S|done|done|done|by apply Hk|]. by exists m'. }
  destruct c as [probe ipv4 h p tag|probe h p tag|probe h p tag|probe h p reason tag|probe tag|probe tag| | | | | | |d];
    cbn [probe_of tag_of] in *.
  - specialize (Hz ltac:(done)). destruct (SendOutgoing_ok n seen _ s probe ipv4 h p tag Hz Hn Hp) as (y & s' & seen' & E & S' & P).
    exists s', seen'. cbn [step]. by rewrite (run_bind _ _ _ _ _ E).
  - specialize (Hz ltac:(done)). cbn [step]. unfold ForwardLogger. destruct tag as [t|]; [|by apply steps_here].
    destruct (_ || _); [by apply steps_here|]. destruct (negb _); [by apply steps_here|].
    apply (on_monitor_ok _ _ _ _ _ _ Hz), ReportForwarding_ok; [apply Hz|done|done].
  - specialize (Hz ltac:(done)). cbn [step]. unfold ForwardUpLogger. destruct tag as [t|]; [|by apply steps_here].
    destruct (negb _); [by apply steps_here|].
    apply (on_monitor_ok _ _ _ _ _ _ Hz), ReportLastRx_ok; [apply Hz|done|done|].
    split; [|done]. apply wrap_range. lia.
  - cbn [step]. unfold DropLogger. destruct tag as [t|]; [|apply steps_here; [by apply Hz|done]].
    destruct reason; [..|done]; cbn [my_reason]; run; apply Hdrop; (done || (cbn; lia)).
  - cbn [step]. unfold QueueDropLogger. destruct tag as [t|]; [|apply steps_here; [by apply Hz|done]].
    apply Hdrop; (done || (cbn; lia)).
  - cbn [step]. unfold QueueDiscDropLogger. destruct tag as [t|]; [|apply steps_here; [by apply Hz|done]].
    apply Hdrop; (done || (cbn; lia)).
  - apply keeps_step; [apply Check_keeps|by apply Hz|done].
  - apply keeps_step; [by apply Start_keeps|by apply Hz|done].
  - apply keeps_step; [by apply Stop_keeps|by apply Hz|done].
  - apply keeps_step; [apply StartRightNow_keeps|by apply Hz|done].
  - apply keeps_step; [apply StopRightNow_keeps|by apply Hz|done].
  - specialize (Hz ltac:(done)). apply (on_monitor_ok _ _ _ _ _ _ Hz).
    assert (mon_ok (n + 1) (issued seen) (fun g => stray g + stray_call Fire s g) (fs_monitor s)) as I
      by (eapply mon_ok_mono; [apply Hz|lia]).
    destruct (fire_ok _ _ _ _ I Hc) as (m' & ? & ? & Ep). exists m'. by rewrite Ep.
  - specialize (Hz ltac:(done)). apply (on_monitor_ok _ _ _ _ _ _ Hz). destruct Hc as (Hd & Hd' & Hx).
    eexists. split; [reflexivity|]. split; [|done].
    assert (mon_ok (n + 1) (issued seen) (fun g => stray g + stray_call (Wait d) s g) (fs_monitor s)) as I
      by (eapply mon_ok_mono; [apply Hz|lia]).
    eapply mon_ok_clock; [exact I|done..| |cbn; pose proof (mo_now _ _ _ _ I); lia].
    destruct (mo_clock _ _ _ _ I) as [C1 C2 C3 C4]. split; [exact C1|exact C2|exact C3|]. cbn. intros x Hin. by apply Hx.
Qed.

(** ** Sessions *)

Fixpoint session (cs : list call) (s : flow_system) : res flow_system :=
  match cs with [] => Ok s | c :: cs => '(_, s) ← step c s; session cs s end.
Fixpoint calls_ok (cs : list call) (s : flow_system) : Prop :=
  match cs with [] => True | c :: cs => call_ok c s /\ match step c s with Ok (_, s) => calls_ok cs s | Err _ => True end end.
(** The stray drops of the flow [g]. *)
Fixpoint strays (cs : list call) (s : flow_system) (g : Z) : Z :=
  match cs with
  | [] => 0
  | c :: cs => stray_call c s g + match step c s with Ok (_, s) => strays cs s g | Err _ => 0 end
  end.

Lemma session_ok cs : forall n seen stray s,
  sys_ok n seen stray s -> n + Z.of_nat (length cs) <= N -> calls_ok cs s ->
  exists s' seen', session cs s = Ok s' /\ sys_ok (n + Z.of_nat (length cs)) seen' (fun g => stray g + strays cs s g) s'.
Proof using Hr HT HN HNT Hdw Hjw Hsw Hiw.
  induction cs as [|c cs IH]; intros n seen stray s S0 Hn Hc; cbn [session strays length].
  { exists s, seen. split; [done|]. rewrite Z.add_0_r. eapply sys_ok_ext; [exact S0|]. intros g. lia. }
  destruct Hc as [Hc1 Hc]. cbn [length] in Hn.
  destruct (call_step_ok n seen stray s c S0 ltac:(lia) Hc1) as (s1 & seen1 & E & S1 & _). rewrite E in Hc |- *. cbn [mbind res_bind].
  destruct (IH _ _ _ _ S1 ltac:(lia) Hc) as (s2 & seen2 & -> & S2). exists s2, seen2. split; [done|].
  replace (n + Z.of_nat (S (length cs))) with (n + 1 + Z.of_nat (length cs)) by lia.
  eapply sys_ok_ext; [exact S2|]. intros g. cbn beta. lia.
Qed.

(** ** The beginning *)

Lemma new_ok : mon_ok 0 (issued []) (fun _ => 0) new_FlowMonitor.
Proof using HT HN.
  split; cbn; [lia|lia|apply timers_start_ok|..].
  - intros f s E. by rewrite lookup_empty in E.
  - intros f _. split; [|done]. unfold tracked_count. by rewrite map_filter_empty, map_size_empty.
  - intros k t E. by rewrite lookup_empty in E.
  - intros i st f p E. by rewrite lookup_nil in E.
Qed.
Lemma GetMonitor_ok : exists s, GetMonitor r = Ok s /\ sys_ok 0 [] (fun _ => 0) s /\ m_flowProbes (fs_monitor s) = [].
Proof using Hr HT HN.
  unfold GetMonitor. destruct (keeps_bind _ _ (Start_keeps 0 ltac:(lia)) schedule_check_keeps _ _ _ _ new_ok) as (m & E & I & P).
  unfold Create, NotifyConstructionCompleted. rewrite E. eexists. split; [reflexivity|]. split; [|exact P].
  split; [apply represents_new|simpl; lia|exact I].
Qed.
Lemma AddProbe_ok n seen stray s : sys_ok n seen stray s ->
  exists p s', on_monitor AddProbe s = Ok (p, s') /\ sys_ok n seen stray s' /\
    length (m_flowProbes (fs_monitor s')) = S (length (m_flowProbes (fs_monitor s))).
Proof using.
  intros [Rc Rs Rm]. eexists _, _. split; [reflexivity|]. split; [|cbn; rewrite length_app; simpl; lia].
  split; [done|done|]. split; cbn; try apply Rm.
  intros i st f p [Hi|[_ Hi]]%lookup_app_Some Hf; [exact (mo_probes _ _ _ _ Rm _ _ _ _ Hi Hf)|].
  apply list_lookup_singleton_Some in Hi as [_ <-]. by rewrite lookup_empty in Hf.
Qed.

(** One probe for each stack of each node. *)
Definition stacks (nodes : list (bool * bool)) : nat :=
  foldr (fun n k => (Nat.b2n n.1 + Nat.b2n n.2 + k)%nat) 0%nat nodes.
Lemma Install_ok n seen stray s node : sys_ok n seen stray s ->
  exists p s', Install node s = Ok (p, s') /\ sys_ok n seen stray s' /\
    length (m_flowProbes (fs_monitor s')) = (Nat.b2n node.1 + Nat.b2n node.2 + length (m_flowProbes (fs_monitor s)))%nat.
Proof using.
  intros S0. unfold Install. destruct node as [[] []]; cbn [fst snd Nat.b2n].
  - destruct (AddProbe_ok _ _ _ _ S0) as (p & s1 & E1 & S1 & P1). destruct (AddProbe_ok _ _ _ _ S1) as (q & s2 & E2 & S2 & P2).
    exists (Some p, Some q), s2. split; [|split; [done|lia]]. unfold mbind, st_bind. rewrite E1. cbn. by rewrite E2.
  - destruct (AddProbe_ok _ _ _ _ S0) as (p & s1 & E1 & S1 & P1).
    exists (Some p, None), s1. split; [|split; [done|lia]]. unfold mbind, st_bind. by rewrite E1.
  - destruct (AddProbe_ok _ _ _ _ S0) as (p & s1 & E1 & S1 & P1).
    exists (None, Some p), s1. split; [|split; [done|lia]]. unfold mbind, st_bind. cbn. by rewrite E1.
  - by exists (None, None), s.
Qed.
Lemma InstallAll_ok n seen stray nodes : forall s, sys_ok n seen stray s ->
  exists ps s', InstallAll nodes s = Ok (ps, s') /\ sys_ok n seen stray s' /\
    length (m_flowProbes (fs_monitor s')) = (stacks nodes + length (m_flowProbes (fs_monitor s)))%nat.
Proof using.
  induction nodes as [|x nodes IH]; intros s S0; cbn [InstallAll].
  { by exists [], s. }
  destruct (_ || _) eqn:Ex.
  - destruct (Install_ok _ _ _ _ x S0) as (p & s1 & E1 & S1 & P1). destruct (IH s1 S1) as (ps & s2 & E2 & S2 & P2).
    exists (p :: ps), s2. rewrite (run_bind _ _ _ _ _ E1), (run_bind _ _ _ _ _ E2). split; [done|]. split; [done|].
    unfold stacks in *. simpl. lia.
  - destruct (IH s S0) as (ps & s2 & E2 & S2 & P2). exists ((None, None) :: ps), s2. rewrite (run_bind _ _ _ _ _ E2).
    split; [done|]. split; [done|]. apply orb_false_iff in Ex as [H1 H2]. unfold stacks in *. simpl. rewrite H1, H2. simpl. lia.
Qed.

Definition start_system (nodes : list (bool * bool)) : res flow_system :=
  s ← GetMonitor r; '(_, s) ← InstallAll nodes s; mret s.
Lemma start_system_ok nodes : exists s, start_system nodes = Ok s /\ sys_ok 0 [] (fun _ => 0) s /\
  length (m_flowProbes (fs_monitor s)) = stacks nodes.
Proof using Hr HT HN.
  unfold start_system. destruct GetMonitor_ok as (s & -> & S0 & P0). cbn [mbind res_bind].
  destruct (InstallAll_ok _ _ _ nodes s S0) as (ps & s' & E & S1 & P1). rewrite E. cbn [mbind res_bind].
  exists s'. split; [done|]. split; [done|]. rewrite P1, P0. simpl. lia.
Qed.

(** ** The table of the scenario *)

Lemma GetNanoSeconds_ok t : 0 <= t < 2 ^ 63 -> GetNanoSeconds r t = Ok t.
Proof using Hr.
  intros Ht. unfold GetNanoSeconds, NsTime.ToInteger. rewrite (NsTimeSpec.resolution_table _ _ NsTime.NS (ns_resolved r Hr)).
  cbn [NsTimeSpec.conversion NsTime.toMul NsTime.factor]. unfold NsTimeSpec.conversion. rewrite Z.compare_refl.
  cbn [NsTime.toMul NsTime.factor]. rewrite Z.mul_1_r. apply signed_check_ok. change (64 - 1) with 63. lia.
Qed.
Lemma nanoseconds_ok l : Forall (fun t => 0 <= t < 2 ^ 63) l -> nanoseconds r l = Ok l.
Proof using Hr.
  intros Hl. induction Hl as [|t l Ht _ IH]; [done|]. cbn [nanoseconds]. rewrite (GetNanoSeconds_ok t Ht). cbn [mbind res_bind].
  rewrite IH. done.
Qed.
(** The counters can be printed. *)
Definition printable (v : counters) : Prop := length v = 0%nat \/ (4 <= length v)%nat.
Lemma first_four_cases v :
  (printable v /\ exists l, first_four v = Ok l) \/ (~ printable v /\ first_four v = Err UndefinedBehaviour).
Proof using.
  unfold printable. destruct v as [|v0 [|v1 [|v2 [|v3 v]]]]; simpl;
    [left|right|right|right|left]; (split; [lia|]); try done; by eexists.
Qed.

Lemma stats_line_cases n seen stray s f x :
  sys_ok n seen stray s -> m_flowStats (fs_monitor s) !! f = Some x ->
  (printable (packetsDropped x) /\ exists l, stats_line r (fs_classifier s) (f, x) = Ok l) \/
  (~ printable (packetsDropped x) /\ stats_line r (fs_classifier s) (f, x) = Err UndefinedBehaviour).
Proof using Hr HT HN HNT.
  intros [Rc Rs Rm] E. destruct (mo_flow _ _ _ _ Rm _ _ E) as [F (p & Hp)]. pose proof (mo_n _ _ _ _ Rm). pose proof (mo_now _ _ _ _ Rm).
  destruct (issued_found _ _ _ Rc Hp) as (t & Et). unfold stats_line. cbn [fst snd] in *. rewrite Et. cbn [mbind res_bind].
  rewrite nanoseconds_ok.
  2:{ destruct F. assert (rxPackets x * T <= N * T) by nia. unfold times. repeat constructor; lia. }
  cbn [mbind res_bind]. assert (printable (bytesDropped x) <-> printable (packetsDropped x)) as Hpb
    by (unfold printable; by rewrite (fo_dropped _ _ _ _ _ F)).
  destruct (first_four_cases (packetsDropped x)) as [[Hd (l & ->)]|[Hd ->]]; [left|right]; (split; [done|]); cbn [mbind res_bind]; [|done].
  destruct (first_four_cases (bytesDropped x)) as [[_ (l' & ->)]|[Hd' _]]; [by eexists|tauto].
Qed.
Lemma stats_lines_cases c l :
  (forall y, y ∈ l -> (printable (packetsDropped y.2) /\ exists z, stats_line r c y = Ok z) \/
    (~ printable (packetsDropped y.2) /\ stats_line r c y = Err UndefinedBehaviour)) ->
  (Forall (fun y => printable (packetsDropped y.2)) l /\ exists z, stats_lines r c l = Ok z) \/
  (~ Forall (fun y => printable (packetsDropped y.2)) l /\ stats_lines r c l = Err UndefinedBehaviour).
Proof using.
  induction l as [|y l IH]; intros Hl; cbn [stats_lines].
  { left. split; [constructor|by exists []]. }
  destruct (Hl y ltac:(by left)) as [[Hy (z & ->)]|[Hy ->]]; cbn [mbind res_bind].
  2:{ right. split; [|done]. by intros [? _]%Forall_cons. }
  destruct IH as [[Hf (zs & ->)]|[Hf ->]]; [intros; apply Hl; by right|left|right]; cbn [mbind res_bind].
  - split; [by constructor|by eexists].
  - split; [|done]. by intros [_ ?]%Forall_cons.
Qed.
Lemma process_stats_cases n seen stray s :
  sys_ok n seen stray s ->
  let ok := forall f x, m_flowStats (fs_monitor s) !! f = Some x -> printable (packetsDropped x) in
  (ok /\ exists rows, process_stats r s = Ok rows) \/ (~ ok /\ process_stats r s = Err UndefinedBehaviour).
Proof using Hr HT HN HNT.
  intros S ok. unfold process_stats. set (l := merge_sort flow_le _).
  assert (forall y, y ∈ l <-> m_flowStats (fs_monitor s) !! y.1 = Some y.2) as Hl.
  { intros [f x]. unfold l. rewrite (merge_sort_Permutation flow_le). apply elem_of_map_to_list. }
  assert (Forall (fun y => printable (packetsDropped y.2)) l <-> ok) as Hok.
  { unfold ok. rewrite Forall_forall. split; [intros H f x E; by apply (H (f, x)), Hl|intros H y Hy; by eapply H, Hl]. }
  rewrite <- Hok. apply stats_lines_cases. intros [f x] Hy. apply Hl in Hy. by eapply stats_line_cases.
Qed.
End accounting.

(** * What the flow monitor's statistics mean

    The theorems about whole sessions of the monitor with its probes and classifier,
    and a session of two packets on which they are evaluated. *)

(** The widths of the histograms' bins. *)
Record wide_bins (a : attributes) : Prop := {
  wb_delay : wide_bin (m_delayBinWidth a); wb_jitter : wide_bin (m_jitterBinWidth a);
  wb_size : wide_bin (m_packetSizeBinWidth a); wb_gap : wide_bin (m_flowInterruptionsBinWidth a) }.

(** A session of [cs] on nodes with the given stacks, up to the time [T]: a bound of
    about 46 days, within which the histograms can hold every delay. *)
Record session_of (r : Resolution) (a : attributes) (T : Z) (nodes : list (bool * bool)) (cs : list call)
  (s0 : flow_system) : Prop := {
  se_table : ns_table r;
  se_bins : wide_bins a;
  se_time : 0 <= T <= 4000000000000000;
  se_calls : Z.of_nat (length cs) < 2 ^ 32 - 1;
  se_sums : Z.of_nat (length cs) * T < 2 ^ 63;
  se_start : start_system r nodes = Ok s0;
  se_ok : calls_ok r a T cs s0 }.

Lemma session_reaches r a T nodes cs s0 : session_of r a T nodes cs s0 ->
  exists s seen, session r a cs s0 = Ok s /\
    sys_ok a T (Z.of_nat (length cs)) (Z.of_nat (length cs)) seen (strays r a cs s0) s.
Proof.
  intros [Hr [] HT HN HNT E Hc].
  destruct (start_system_ok r Hr a T (Z.of_nat (length cs)) HT ltac:(lia) nodes) as (s & E' & S & _).
  rewrite E in E'. injection E' as <-.
  destruct (session_ok r Hr a wb_delay0 wb_jitter0 wb_size0 wb_gap0 T (Z.of_nat (length cs)) HT ltac:(lia) HNT cs 0 _ _ s0 S
    ltac:(lia) Hc) as (s' & seen & E' & S'). exists s', seen. split; [exact E'|]. eapply sys_ok_ext; [exact S'|]. intros g. cbn beta. lia.
Qed.

(** C15. Conservation of packets.  On any nodes with probes, over any sequence of
    traces of the stacks and queues, checks, starts and stops of the monitor, and
    events of its own, no assertion fails and no arithmetic overflows; then for every
    flow the packets sent, with the drops of packets that the monitor did not track,
    are those received, those lost and those still tracked.  The delay and size
    histograms hold one value for each packet received, the jitter histogram one
    fewer, and the sums of delays and jitter are at most the number of packets
    received times the length of the session. *)
Theorem flow_accounting r a T nodes cs s0 :
  session_of r a T nodes cs s0 ->
  exists s, session r a cs s0 = Ok s /\
    forall f x, m_flowStats (fs_monitor s) !! f = Some x ->
      txPackets x + strays r a cs s0 f =
        rxPackets x + lostPackets x + tracked_count f (m_trackedPackets (fs_monitor s)) /\
      total (delayHistogram x) = rxPackets x /\ total (packetSizeHistogram x) = rxPackets x /\
      total (jitterHistogram x) = Z.max 0 (rxPackets x - 1) /\
      0 <= delaySum x <= rxPackets x * T /\ 0 <= jitterSum x <= rxPackets x * T.
Proof.
  intros H. destruct (session_reaches _ _ _ _ _ _ H) as (s & seen & E & S). exists s. split; [exact E|]. intros f x Hx.
  destruct (mo_flow _ _ _ _ _ _ _ (sy_monitor _ _ _ _ _ _ _ S) _ _ Hx) as [[fo_balance _ _ fo_delays fo_jitters fo_sizes _ fo_sums _ _ _] _].
  split_and!; first [lia|apply (hi_total _ _ _ fo_delays)|apply (hi_total _ _ _ fo_sizes)|apply (hi_total _ _ _ fo_jitters)].
Qed.

(** C16. The scenario's table of flows.  After any such session every flow of the
    statistics is known to the classifier, and [process_stats] prints the table
    exactly when each flow's drop counters are empty or have at least four entries;
    otherwise, as after a single drop with one of the first three reasons, it reads
    the vectors beyond their end. *)
Theorem process_stats_defined r a T nodes cs s0 :
  session_of r a T nodes cs s0 ->
  exists s, session r a cs s0 = Ok s /\
    let all := forall f x, m_flowStats (fs_monitor s) !! f = Some x -> printable (packetsDropped x) in
    (all -> exists rows, process_stats r s = Ok rows) /\ (~ all -> process_stats r s = Err UndefinedBehaviour).
Proof.
  intros H. destruct (session_reaches _ _ _ _ _ _ H) as (s & seen & E & S). exists s. split; [exact E|].
  destruct (process_stats_cases r (se_table _ _ _ _ _ _ H) a T (Z.of_nat (length cs)) (se_time _ _ _ _ _ _ H)
    ltac:(pose proof (se_calls _ _ _ _ _ _ H); lia) (se_sums _ _ _ _ _ _ H) _ _ _ s S) as [[Ha Hr]|[Ha Hr]]; cbn zeta; tauto.
Qed.

(** ** The conditions of a session, computed *)

Definition duplicate (x : Ipv4L3Protocol.DropReason) : bool :=
  match x with Ipv4L3Protocol.DROP_DUPLICATE => true | _ => false end.
Definition known (s : flow_system) (t : option Ipv4FlowProbeTag) : bool :=
  match t with None => true | Some t => match FindFlow (m_flowId t) (fs_classifier s) with Ok _ => true | Err _ => false end end.
Definition check_call (T : Z) (c : call) (s : flow_system) : bool :=
  let m := fs_monitor s in
  (probe_of c <? length (m_flowProbes m))%nat && known s (tag_of c) &&
  match c with
  | Deliver _ h p _ => size_of h p <? 2 ^ 20
  | Dropped _ _ _ reason _ => negb (duplicate reason)
  | Start_ t | Stop_ t => (0 <=? t) && (t <? 2 ^ 62)
  | Fire => match next (fm_clock m) with Some (_, c) => t_now c <=? T | None => true end
  | Wait d => (0 <=? d) && (t_now (fm_clock m) + d <=? T) &&
      forallb (fun x => t_now (fm_clock m) + d <=? p_ts x) (t_pending (fm_clock m))
  | _ => true
  end.
Fixpoint check_calls (r : Resolution) (a : attributes) (T : Z) (cs : list call) (s : flow_system) : bool :=
  match cs with
  | [] => true
  | c :: cs => check_call T c s && match step r a c s with Ok (_, s) => check_calls r a T cs s | Err _ => true end
  end.

Lemma check_call_ok T c s : check_call T c s = true -> call_ok T c s.
Proof.
  unfold check_call, call_ok. rewrite !andb_true_iff, Nat.ltb_lt. intros [[Hp Hk] Hc]. split; [exact Hp|]. split.
  - intros t E. rewrite E in Hk. simpl in Hk. destruct (FindFlow _ _) as [x|]; [by exists x|done].
  - destruct c; try done.
    + by apply Z.ltb_lt.
    + by destruct reason.
    + bool_to_Z. lia.
    + bool_to_Z. lia.
    + intros h c E. rewrite E in Hc. by apply Z.leb_le.
    + rewrite !andb_true_iff, !Z.leb_le in Hc. destruct Hc as [[? ?] Hx]. split_and!; [lia..|]. intros x Hin. rewrite forallb_forall in Hx.
      apply list_elem_of_In, Hx in Hin. bool_to_Z. done.
Qed.
Lemma check_calls_ok r a T cs : forall s, check_calls r a T cs s = true -> calls_ok r a T cs s.
Proof.
  induction cs as [|c cs IH]; intros s H; [done|]. cbn [check_calls calls_ok] in *. apply andb_true_iff in H as [H1 H2].
  split; [by apply check_call_ok|]. destruct (step r a c s) as [[u s1]|]; [by apply IH|done].
Qed.

(** The drop counters of a flow, and whether all can be printed. *)
Definition length_dropped (s : flow_system) (f : Z) : nat :=
  match m_flowStats (fs_monitor s) !! f with Some x => length (packetsDropped x) | None => 0%nat end.
Definition all_printable (s : flow_system) : bool :=
  forallb (fun y => (length (packetsDropped y.2) =? 0)%nat || (4 <=? length (packetsDropped y.2))%nat)
    (map_to_list (m_flowStats (fs_monitor s))).
Lemma all_printable_ok s : all_printable s = true ->
  forall f x, m_flowStats (fs_monitor s) !! f = Some x -> printable (packetsDropped x).
Proof.
  unfold all_printable. rewrite forallb_forall. intros H f x Hx. apply elem_of_map_to_list, list_elem_of_In, H in Hx.
  cbn [snd] in Hx. rewrite orb_true_iff, Nat.eqb_eq, Nat.leb_le in Hx. exact Hx.
Qed.

(** ** Two packets, of which one arrives *)

Definition default_attributes : attributes :=
  mkAttributes 10000000000 (round_to binary64 1 1000) (round_to binary64 1 1000) (fp_of_int binary64 20)
    (round_to binary64 1 4) 500000000.
Lemma default_bins : wide_bins default_attributes.
Proof. split; (eexists _, _; split; [reflexivity|]; split; [reflexivity|vm_compute; congruence]). Qed.

Definition one_node : list (bool * bool) := [(true, true)].
Definition no_interfaces : Ipv4Ifaces.Ipv4 := Ipv4Ifaces.mkIpv4 [] ∅ true false.
Definition monitored : Ipv4Header * Packet := datagram 0x0a000001 1000.
Definition tag_number (n : Z) : option Ipv4FlowProbeTag := Some (mkTag 1 n 28 0x0a000001 0x0a000002).
Definition two_packets (reason : Ipv4L3Protocol.DropReason) : list call :=
  [Fire; Send 0 no_interfaces monitored.1 monitored.2 None; Wait 2000000;
   Deliver 0 monitored.1 monitored.2 (tag_number 0); Send 0 no_interfaces monitored.1 monitored.2 None;
   Forward 0 monitored.1 monitored.2 (tag_number 1); Dropped 0 monitored.1 monitored.2 reason (tag_number 1)].
Definition monitor_start : flow_system :=
  match start_system NsTimeSpec.ns one_node with Ok s => s | Err _ => mkSystem new_classifier new_FlowMonitor end.

Lemma two_packets_session reason : reason = Ipv4L3Protocol.DROP_TTL_EXPIRED \/ reason = Ipv4L3Protocol.DROP_INTERFACE_DOWN ->
  session_of NsTimeSpec.ns default_attributes 1000000000 one_node (two_packets reason) monitor_start.
Proof.
  intros Hx. split; [split; apply NsTimeSpec.ns_ok|apply default_bins|lia|by destruct Hx as [-> | ->]..| |].
  - vm_compute. reflexivity.
  - apply check_calls_ok. destruct Hx as [-> | ->]; vm_compute; reflexivity.
Qed.

Lemma flow_accounting_witness :
  exists s, session NsTimeSpec.ns default_attributes (two_packets Ipv4L3Protocol.DROP_TTL_EXPIRED) monitor_start = Ok s /\
    forall x, m_flowStats (fs_monitor s) !! 1 = Some x ->
      txPackets x + 0 = rxPackets x + lostPackets x + tracked_count 1 (m_trackedPackets (fs_monitor s)) /\
      total (delayHistogram x) = rxPackets x.
Proof.
  destruct (flow_accounting NsTimeSpec.ns default_attributes 1000000000 one_node (two_packets Ipv4L3Protocol.DROP_TTL_EXPIRED)
    monitor_start) as (s & E & H); [by apply two_packets_session; left|].
  exists s. split; [exact E|]. intros x Hx. destruct (H 1 x Hx) as (Hb & Hd & _). split; [|exact Hd].
  assert (strays NsTimeSpec.ns default_attributes (two_packets Ipv4L3Protocol.DROP_TTL_EXPIRED) monitor_start 1 = 0) as Hz
    by (vm_compute; reflexivity).
  rewrite Hz in Hb. exact Hb.
Defined.

(** A packet dropped for its hop limit makes the table undefined; one dropped because
    an interface is down does not. *)
Lemma process_stats_defined_witness :
  (exists s, session NsTimeSpec.ns default_attributes (two_packets Ipv4L3Protocol.DROP_TTL_EXPIRED) monitor_start = Ok s /\
     process_stats NsTimeSpec.ns s = Err UndefinedBehaviour) /\
  exists s rows, session NsTimeSpec.ns default_attributes (two_packets Ipv4L3Protocol.DROP_INTERFACE_DOWN) monitor_start = Ok s /\
     process_stats NsTimeSpec.ns s = Ok rows.
Proof.
  destruct (process_stats_defined NsTimeSpec.ns default_attributes 1000000000 one_node
    (two_packets Ipv4L3Protocol.DROP_TTL_EXPIRED) monitor_start) as (s & E & _ & H); [by apply two_packets_session; left|].
  destruct (process_stats_defined NsTimeSpec.ns default_attributes 1000000000 one_node
    (two_packets Ipv4L3Protocol.DROP_INTERFACE_DOWN) monitor_start) as (s' & E' & H' & _); [by apply two_packets_session; right|].
  split.
  - exists s. split; [exact E|]. apply H. intros Hall.
    assert (match session NsTimeSpec.ns default_attributes (two_packets Ipv4L3Protocol.DROP_TTL_EXPIRED) monitor_start with
      | Ok s => length_dropped s 1 = 2%nat | Err _ => True end) as Hl by (vm_compute; reflexivity).
    rewrite E in Hl. unfold length_dropped in Hl. destruct (m_flowStats (fs_monitor s) !! 1) as [x|] eqn:Ex; [|discriminate Hl].
    apply Hall in Ex. unfold printable in Ex. lia.
  - destruct H' as (rows & Hrows); [|exists s', rows; exact (conj E' Hrows)]. apply all_printable_ok.
    assert (match session NsTimeSpec.ns default_attributes (two_packets Ipv4L3Protocol.DROP_INTERFACE_DOWN) monitor_start with
      | Ok s => all_printable s = true | Err _ => True end) as Hl by (vm_compute; reflexivity).
    rewrite E' in Hl. exact Hl.
Defined.
